(* ===== verification/_CoqProject ===== *)
-Q . S2P
Prelude.v
RustStd.v
Utf8.v
Layout.v
Topology.v
TopologyInv.v
TopologySteps.v
TopologyRefine.v
TopologyProps.v
Persistence.v
PersistenceInv.v
PersistenceProps.v
Vt.v
VtInv.v
VtProps.v
Cell.v
CellProps.v
Row.v
RowInv.v
RowProps.v
Coord.v
Grid.v
GridInv.v
GridSteps.v
GridOps.v
Reflow.v
ReflowInv.v
GridProps.v
ReflowText.v
ReflowProps.v
Composed.v
Update.v
Terminal.v
Session.v
RowEdits.v
TerminalInv.v
TerminalSteps.v
TerminalControl.v
TerminalPrint.v
TerminalDispatch.v
TerminalProps.v
AlternateProps.v
SessionProps.v
ResizeProps.v
Typing.v
Policy.v
PolicyInv.v
PolicyProps.v
Relay.v
RelayProps.v
FairQueue.v
FairQueueProps.v
Protocol.v
Pending.v
PendingProps.v
AuditTrail.v
AuditProps.v
Sixel.v
SixelProps.v
Images.v
ImagesInv.v
ImagesSteps.v
ImagesOps.v
ImagesCalls.v
ImagesInsert.v
ImagesSixel.v
ImagesCheckpoint.v
ImagesRestore.v
ImagesShared.v
ImagesProps.v
ImagesCheckpointProps.v
Paths.v
Handoff.v
HandoffProps.v
Manifest.v
ManifestInv.v
ManifestProps.v
Provenance.v
ProvenanceProps.v
Authority.v
