(* ===== verification/Prelude.v ===== *)
(** * Splinterm: verification of the terminal multiplexer's core

    Splinterm is a terminal multiplexer in Rust: a daemon ([splinterd]) owns a
    topology of Lairs, Dojos and Splints (sessions, tabs and panes), runs one
    emulated terminal per Splint, and serves clients. This development models
    the parts that carry its logic as Rocq functions and proves what makes them
    correct: the crates [splinterm-core] (the topology and its durable form) and
    [splinterm-terminal] (the emulator), the automation policy of
    [splinterm-policy], the registry of pending access requests, the audit trail
    and the hand-off from one build of the daemon to the next of [splinterd], and
    the framing and the fair queue of [splinterm-graphical-relay], which carries
    the windows of a remote client.

    ** Parts and files

    - This file: outcomes (a value, an error or a panic), the monad of
      [&mut self] methods with its Hoare rules ([wp] for all outcomes, [runs]
      for calls that must return), mutable borrows, record updates.
      [RustStd.v]: the machine integers, strings, paths, ordered maps and hash
      sets the code uses. [Utf8.v]: decoding UTF-8 and big-endian integers.
    - [Layout.v] ([splinterm-core/src/layout.rs]): the binary tree of Splints.
    - [Topology.v] ([splinterm-core/src/model.rs]): the topology and each of its
      transactions. [TopologyInv.v] states well-formedness, [TopologySteps.v]
      that every transaction keeps it and what each leaves, [TopologyRefine.v]
      the abstract table of placed Splints and the refinement, [TopologyProps.v]
      the theorems.
    - [Persistence.v] ([splinterm-core/src/persistence.rs]): validation,
      migration, snapshots, decoding. [PersistenceInv.v] has the declarative
      specification of a valid document, [PersistenceProps.v] the theorems.
    - [Vt.v] ([splinterm-terminal/src/vt/mod.rs]): the byte-driven parser;
      [VtInv.v] its invariant, [VtProps.v] the theorems.
    - [Cell.v], [CellProps.v] ([cell.rs]): cells packed into words.
    - [Row.v], [RowInv.v], [RowProps.v] ([row.rs]): rows and wide characters.
    - [Coord.v] ([coord.rs], [cursor.rs]), [Grid.v] ([grid.rs]): coordinates,
      cursors and the circular store of screen and history. [GridInv.v]
      describes each row operation by the slots it changes, [GridSteps.v] has
      the invariant and scrolling, [GridOps.v] the other operations,
      [GridProps.v] the theorems.
    - [Reflow.v] ([grid/reflow.rs]): logical lines rebuilt at another width.
      [ReflowInv.v] has the invariant of the builder, [ReflowText.v] the stream
      of cells and line breaks that is preserved, [ReflowProps.v] the theorems.
    - [Composed.v] ([composed.rs]): the table of combining sequences, with its
      theorems. [Update.v] ([update.rs], [event.rs]): damage, events and change
      sets, with their theorems.
    - [Terminal.v] ([terminal.rs], [config.rs], [mode.rs]): the interpretation
      of actions, publication, resizing and the reset. [RowEdits.v] has what its
      edits leave in a row, [TerminalInv.v] the invariant and the rules of
      computations that keep it, [TerminalSteps.v] (cursor, scrolling, erasing),
      [TerminalControl.v] (modes, screens, reports, commands, reset),
      [TerminalPrint.v] and [TerminalDispatch.v] that every action does,
      [TerminalProps.v] and [AlternateProps.v] theorems.
    - [Session.v]: [Terminal::advance], the parser driving the terminal;
      [SessionProps.v], [ResizeProps.v] and [Typing.v] the theorems of the two
      together.
    - [Sixel.v], [SixelProps.v] ([image/sixel.rs]): the decoder of sixel images.
    - [Images.v] ([image.rs]): the image plane of a terminal and the byte budget
      all planes share; [ImagesCheckpoint.v] its checkpoints. [ImagesInv.v] has
      the invariant of the budget, [ImagesSteps.v] that of a plane and the steps
      operations are made of, [ImagesOps.v] (placing and splitting),
      [ImagesCalls.v] (copies and removals), [ImagesInsert.v], [ImagesSixel.v]
      and [ImagesRestore.v] that every operation keeps both, [ImagesShared.v]
      the terminals of a daemon as a transition system, [ImagesProps.v] and
      [ImagesCheckpointProps.v] the theorems.
    - [Policy.v] ([splinterm-policy/src/policy.rs]): the rules that let local
      executables use automation scopes on parts of a [Topology], their loading,
      validation and resolution, and the store that answers requests.
      [PolicyInv.v] has the declarative meaning of selectors and of a valid
      document, [PolicyProps.v] the theorems.
    - [Relay.v], [RelayProps.v] ([splinterm-graphical-relay/src/lib.rs]): frames
      on a byte stream. [FairQueue.v], [FairQueueProps.v] ([fair_queue.rs]): the
      queue that shares one stream among channels, as a transition system whose
      steps are the calls of producers and consumer in any order.
    - [Protocol.v] ([splinterm-protocol/src/lib.rs]): the errors, scopes and
      audit records that follow.
    - [Pending.v], [PendingProps.v] ([splinterd/src/pending_access.rs]): requests
      for access that wait for the person's answer.
    - [AuditTrail.v], [AuditProps.v] ([splinterd/src/audit.rs]): the bounded store of
      audit records and its pages.
    - [Paths.v] ([splinterd/src/install_prefix.rs]): paths and the
      prefix a build is installed in. [Handoff.v], [HandoffProps.v]
      ([handoff_compatibility.rs], [handoff_coordinator.rs]): what two builds
      agree on, and the phases of a hand-off. [Manifest.v]
      ([handoff_manifest.rs]): what the running daemon writes for its successor.
      [ManifestInv.v] says what a valid manifest is, [ManifestProps.v] has the
      theorems. [Provenance.v], [ProvenanceProps.v] ([package_provenance.rs]): the
      records packages install. [Authority.v]: when a manifest is believed.

    ** How the code is modelled

    A Rust function is a Rocq function of the same name. A method that mutates
    its receiver is a computation in the monad [M]: the receiver is threaded
    through error returns and panics too, so a mutation before an early return
    is visible. [assert!], [expect] and indexing out of range are [Panic];
    checked arithmetic is written out and wrapping arithmetic is wrapped.
    Unsigned integers are [Z] or [nat] with their bounds where they matter.
    [BTreeMap] is a list of entries in key order, [HashSet] a [gset]. Libraries
    that are not part of the repository are classes of operations with the law
    the code relies on ([Json] for serde_json, [Base64] for base64, [Semaphores]
    for tokio's semaphore), each with an instance that shows the law can hold;
    the file system the policy is loaded from is the class [PolicyHost], without
    laws. A lock held for the whole of a method makes the method one step: what
    threads can do is a sequence of such steps. unicode-width is the class
    [UnicodeWidth], without laws: theorems say which widths they are about. The
    terminal uses the image plane through the class [ImagePlane], without laws:
    nothing it answers can break what is proved. The plane itself
    ([Images.v]) holds reference-counted leases of the shared budget; these are
    a heap with counts of holders, and where the code copies or drops a plane
    implicitly the model does so explicitly ([clone_plane], [drop_plane]), so
    that a leak or a double release would show. SHA-256 is an argument. The
    floating-point conversion of sixel colors uses the Standard Library's
    binary64 arithmetic. A grid counts generations and identities in 64 bits;
    an operation [spends] some of them, and a theorem asks for what is spent
    ([spare], [fits]). Handling one action spends at most [2^37], a bound taken
    from sixteen private modes that each clear a screen of [2^30] rows; a new
    terminal thus has room for [2^26] actions. Loops that are not structural run
    on fuel; a theorem about one says that it returns. The fuel of a row loop is
    the row's length, which suffices because every round of a returning loop
    advances ([clear_loop_total]); the parser reprocesses a byte at most once,
    so two rounds per byte suffice ([feed_returns]).

    ** What the theorems show

    - Topology: reachable topologies are well formed; transactions refine a
      table of Splints; they are atomic and refuse stale revisions; the exact
      outcome of splitting and closing; the layout operations.
    - Persistence: validation decides its specification; snapshots restore;
      migration renames legacy defaults only; decoding inverts encoding.
    - Parser: total on all bytes; its checkpoints are accepted unless a sixel
      image is being streamed or the collected string is too long; text, control
      sequences and commands are recognized as written; cancellation
      resynchronizes.
    - Cells and rows: packed fields are independent; editing operations change
      exactly their range and keep wide characters whole; checkpoint codecs are
      inverse; the repair loop's divergence.
    - Grid: the invariant of reachable grids and freedom from panics; the exact
      effect of scrolling and resizing; paging through the history; coordinate
      conversion; exactly which checkpoints are accepted.
    - Reflow: it returns; when every character is complete and fits the new
      width, it keeps the text in order and the cursor on its cell.
    - Updates: ranges of damage are recorded exactly, merging loses nothing, the
      published updates form a window without gaps, the event queue is bounded.
    - Sixel images: the picture decoded is the one the strokes of the stream
      paint; the raster stays within its limits on any bytes; errors stick.
    - Image planes: whatever the planes of any number of terminals are asked, no
      call panics, the accounts are exact and the shared budget holds exactly
      the bytes in use; placements show contents that exist; erasing cells
      splits a placement into a partition of the rest; an admitted replacement
      succeeds; checkpoints round trip; resolving overlaps can lose a content.
    - Policy: validation decides its specification; resolution lists exactly
      what the selectors cover; a request is granted only as a rule of the
      published file says and whenever one does; spawns stay within the limit;
      a rejected file denies everything.
    - Relay: reading decides the framing and inverts writing; the queue keeps
      each channel's order, serves every ready channel in its turn, and accounts
      for every byte.
    - Access requests: bounded and unique; a request that ended is never
      granted; a deny holds for its cooldown; prompts come in order. Audit: the
      newest records are retained and paging reads each once.
    - Hand-off: negotiation picks the greatest common versions; rollback is closed
      once a candidate commits; validation decides what a manifest must be,
      independently of the order of its records; a pair of manifests is one
      operation forwards and backwards; manifests have one spelling and round
      trip; a manifest is believed exactly when executables, reports, negotiation
      and package records agree; a record binds every capability its build
      reports. ([Uuid::to_string] is injective and serde_json reads back what it
      writes; both are hypotheses.)
    - Terminal: any stream of text, control functions and operating system
      commands, with resizes in between, is handled without a panic and keeps the
      invariant of parser and terminal; the stream carries no image and its
      characters are at most two columns wide (the invariant [wide_ok] does not
      hold for wider ones: see [Terminal.wrap_wide], which pads over them). A
      typed line is read back from the screen; leaving the alternate screen
      restores the normal one, whatever was done there; feeding up to a
      synchronized boundary stops at the first byte that completes a frame and
      loses nothing; the loop of rendition parameters ends.

    ** Not modelled

    The daemon's I/O, the Wayland client, rendering, process control, the
    identification of executables and the requests and framing of the wire
    protocol are system interaction. Of the hand-off: sealing executables, the
    preflight processes, passing descriptors and stopping and adopting the
    runtime. Of the terminal crate: the decoders of
    kitty and iTerm transfers, the handlers that feed sixel, kitty and iTerm
    data to decoders and plane (they are an argument of [Session.v]), the upload
    budget of the kitty protocol, snapshots and search of the terminal, and the
    envelope of its checkpoints. *)

From stdpp Require Export base tactics list numbers option gmap sorting.
From Stdlib Require Export ZArith Lia.

#[global] Open Scope Z_scope.

(** ** Outcomes

    A Rust call returns a value, returns an error, or panics. *)
Inductive outcome (E A : Type) : Type :=
| Ok (a : A)
| Err (e : E)
| Panic.
Arguments Ok {E A} a.
Arguments Err {E A} e.
Arguments Panic {E A}.

(** A method taking [&mut self]: the receiver's value is threaded through,
    also on the error paths, so that an early return after a mutation is
    visible to the caller. *)
Definition M (S E A : Type) : Type := S → outcome E A * S.

Definition ret {S E A} (a : A) : M S E A := λ s, (Ok a, s).

Definition bind {S E A B} (m : M S E A) (k : A → M S E B) : M S E B := λ s,
  match m s with
  | (Ok a, s') => k a s'
  | (Err e, s') => (Err e, s')
  | (Panic, s') => (Panic, s')
  end.

Definition fail {S E A} (e : E) : M S E A := λ s, (Err e, s).
Definition panic {S E A} : M S E A := λ s, (Panic, s).
Definition get {S E} : M S E S := λ s, (Ok s, s).
Definition put {S E} (s' : S) : M S E unit := λ _, (Ok tt, s').
Definition modify {S E} (f : S → S) : M S E unit := λ s, (Ok tt, f s).

(** [f(&self)?] inside a method: run a pure fallible computation. *)
Definition lift {S E A} (r : outcome E A) : M S E A := λ s, (r, s).

(** [option.ok_or(e)?]. *)
Definition ok_or {S E A} (o : option A) (e : E) : M S E A :=
  match o with Some a => ret a | None => fail e end.

(** [option.expect(..)]. *)
Definition expect {S E A} (o : option A) : M S E A :=
  match o with Some a => ret a | None => panic end.

(** [assert!(b)]. *)
Definition assert_ {S E} (b : bool) : M S E unit := if b then ret tt else panic.

(** [if b { return Err(e) }]. *)
Definition reject_if {S E} (b : bool) (e : E) : M S E unit :=
  if b then fail e else ret tt.

Declare Scope rust_scope.
Delimit Scope rust_scope with rust.
#[global] Open Scope rust_scope.

Notation "'let!' x := m 'in' k" := (bind m (λ x, k))
  (at level 10, x pattern, m at level 200, k at level 200,
   format "'[v' 'let!'  x  :=  m  'in' '/' k ']'") : rust_scope.
Notation "'do!' m 'in' k" := (bind m (λ _, k))
  (at level 10, m at level 200, k at level 200,
   format "'[v' 'do!'  m  'in' '/' k ']'") : rust_scope.

(** [for x in l { body(x)? }]. *)
Fixpoint for_each {S E A} (l : list A) (body : A → M S E unit) : M S E unit :=
  match l with
  | [] => ret tt
  | x :: l => do! body x in for_each l body
  end.

(** The same monad without a receiver. *)
Definition obind {E A B} (r : outcome E A) (k : A → outcome E B) : outcome E B :=
  match r with Ok a => k a | Err e => Err e | Panic => Panic end.

(** [Result::map]. *)
Definition map_ok {E A B} (f : A → B) (r : outcome E A) : outcome E B :=
  obind r (λ a, Ok (f a)).

Notation "'let?' x := m 'in' k" := (obind m (λ x, k))
  (at level 10, x pattern, m at level 200, k at level 200,
   format "'[v' 'let?'  x  :=  m  'in' '/' k ']'") : rust_scope.

Definition is_ok {E A} (r : outcome E A) : bool :=
  match r with Ok _ => true | _ => false end.

Section monad_laws.
Context {S E : Type}.

Lemma bind_ok {A B} (m : M S E A) (k : A → M S E B) s b s'' :
  bind m k s = (Ok b, s'') ↔
  ∃ a s', m s = (Ok a, s') ∧ k a s' = (Ok b, s'').
Proof.
  unfold bind. destruct (m s) as [[a|e|] s'] eqn:Hm; naive_solver.
Qed.

Lemma bind_err {A B} (m : M S E A) (k : A → M S E B) s e s'' :
  bind m k s = (Err e, s'') ↔
  m s = (Err e, s'') ∨ ∃ a s', m s = (Ok a, s') ∧ k a s' = (Err e, s'').
Proof.
  unfold bind. destruct (m s) as [[a|e'|] s'] eqn:Hm; naive_solver.
Qed.

Lemma for_each_app {A} (l1 l2 : list A) (body : A → M S E unit) s :
  for_each (l1 ++ l2) body s = bind (for_each l1 body) (λ _, for_each l2 body) s.
Proof.
  revert s. induction l1 as [|x l1 IH]; intros s; [done|].
  simpl. unfold bind at 1 2 3. destruct (body x s) as [[[]|e|] s']; [|done..].
  apply IH.
Qed.

Lemma for_each_fmap {A B} (f : A → B) (l : list A) (body : B → M S E unit) :
  for_each (f <$> l) body = for_each l (λ x, body (f x)).
Proof. induction l as [|x l IH]; [done|]. rewrite fmap_cons. cbn [for_each]. by rewrite IH. Qed.
End monad_laws.

(** ** Hoare rules

    [wp m Q s]: running [m] from [s] ends in an outcome and a receiver that
    satisfy [Q]. *)
Definition wp {S E A} (m : M S E A) (Q : outcome E A → S → Prop) (s : S) : Prop :=
  Q (fst (m s)) (snd (m s)).

Section wp.
Context {S E : Type}.

Lemma wp_ret {A} (a : A) (Q : outcome E A → S → Prop) s :
  Q (Ok a) s → wp (ret a) Q s.
Proof. done. Qed.

Lemma wp_bind {A B} (m : M S E A) (k : A → M S E B) Q s :
  wp m (λ r s', match r with
                | Ok a => wp (k a) Q s'
                | Err e => Q (Err e) s'
                | Panic => Q Panic s'
                end) s →
  wp (bind m k) Q s.
Proof. unfold wp, bind. destruct (m s) as [[a|e|] s']; done. Qed.

Lemma wp_mono {A} (m : M S E A) (Q Q' : outcome E A → S → Prop) s :
  (∀ r s', Q r s' → Q' r s') → wp m Q s → wp m Q' s.
Proof. unfold wp. auto. Qed.

(** One rule per primitive at the head of a sequence. *)
Lemma wp_get {A} (k : S → M S E A) Q s : wp (k s) Q s → wp (bind get k) Q s.
Proof. done. Qed.

Lemma wp_put {A} s' (k : unit → M S E A) Q s : wp (k tt) Q s' → wp (bind (put s') k) Q s.
Proof. done. Qed.

Lemma wp_put_last s' (Q : outcome E unit → S → Prop) s : Q (Ok tt) s' → wp (put s') Q s.
Proof. done. Qed.

Lemma wp_modify {A} f (k : unit → M S E A) Q s :
  wp (k tt) Q (f s) → wp (bind (modify f) k) Q s.
Proof. done. Qed.

Lemma wp_lift {A B} (r : outcome E A) (k : A → M S E B) Q s :
  (∀ a, r = Ok a → wp (k a) Q s) → (∀ e, r = Err e → Q (Err e) s) → (r = Panic → Q Panic s) →
  wp (bind (lift r) k) Q s.
Proof. unfold wp, bind, lift. destruct r; simpl; auto. Qed.

Lemma wp_ok_or {A B} (o : option A) e (k : A → M S E B) Q s :
  (∀ a, o = Some a → wp (k a) Q s) → (o = None → Q (Err e) s) →
  wp (bind (ok_or o e) k) Q s.
Proof. unfold wp, bind, ok_or. destruct o; simpl; auto. Qed.

Lemma wp_expect {A B} (o : option A) (k : A → M S E B) Q s :
  (∀ a, o = Some a → wp (k a) Q s) → (o = None → Q Panic s) →
  wp (bind (expect o) k) Q s.
Proof. unfold wp, bind, expect. destruct o; simpl; auto. Qed.

Lemma wp_expect_last {A} (o : option A) (Q : outcome E A → S → Prop) s :
  (∀ a, o = Some a → Q (Ok a) s) → (o = None → Q Panic s) → wp (expect o) Q s.
Proof. unfold wp, expect. destruct o; simpl; auto. Qed.

Lemma wp_reject_if {A} b e (k : unit → M S E A) Q s :
  (b = false → wp (k tt) Q s) → (b = true → Q (Err e) s) →
  wp (bind (reject_if b e) k) Q s.
Proof. unfold wp, bind, reject_if. destruct b; simpl; auto. Qed.

Lemma wp_assert {A} b (k : unit → M S E A) Q s :
  (b = true → wp (k tt) Q s) → (b = false → Q Panic s) →
  wp (bind (assert_ b) k) Q s.
Proof. unfold wp, bind, assert_. destruct b; simpl; auto. Qed.

Lemma wp_run {A} (m : M S E A) (Q : outcome E A → S → Prop) s r s' :
  wp m Q s → m s = (r, s') → Q r s'.
Proof. unfold wp. intros H Hm. by rewrite Hm in H. Qed.

(** A loop preserves an invariant that each iteration preserves. *)
Lemma wp_for_each {A} (I : S → Prop) (l : list A) (body : A → M S E unit) s :
  (∀ x s, x ∈ l → I s → wp (body x) (λ r s', r = Ok tt ∧ I s') s) →
  I s → wp (for_each l body) (λ r s', r = Ok tt ∧ I s') s.
Proof.
  revert s. induction l as [|x l IH]; intros s Hb HI; simpl; [done|].
  apply wp_bind. eapply wp_mono; [|apply Hb; [set_solver|done]].
  intros r s' [-> HI']. apply IH; [|done]. intros y s1 Hy. apply Hb. set_solver.
Qed.
End wp.

(** Take one step through the head of a computation. *)
Ltac wp_step :=
  lazymatch goal with
  | |- wp (ret _) _ _ => apply wp_ret
  | |- wp (put _) _ _ => apply wp_put_last
  | |- wp (expect _) _ _ => apply wp_expect_last; [intros ? ?|intros ?]
  | |- wp (bind get _) _ _ => apply wp_get
  | |- wp (bind (put _) _) _ _ => apply wp_put
  | |- wp (bind (modify _) _) _ _ => apply wp_modify
  | |- wp (bind (lift _) _) _ _ => apply wp_lift; [intros ? ?|intros ? ?|intros ?]
  | |- wp (bind (ok_or _ _) _) _ _ => apply wp_ok_or; [intros ? ?|intros ?]
  | |- wp (bind (expect _) _) _ _ => apply wp_expect; [intros ? ?|intros ?]
  | |- wp (bind (reject_if _ _) _) _ _ => apply wp_reject_if; intros ?
  | |- wp (bind (assert_ _) _) _ _ => apply wp_assert; intros ?
  | |- wp (bind (bind _ _) _) _ _ => apply wp_bind
  | |- wp (bind (ret _) _) _ _ => apply wp_bind, wp_ret
  | |- wp (match ?x with _ => _ end) _ _ => destruct x eqn:?
  | |- wp (let '_ := ?x in _) _ _ => destruct x eqn:?
  end; cbv beta iota zeta.

(** [runs m Q s]: from [s], [m] returns a value (no error, no panic) that
    satisfies [Q] with the receiver it leaves. *)
Definition runs {S E A} (m : M S E A) (Q : A → S → Prop) (s : S) : Prop :=
  ∃ a s', m s = (Ok a, s') ∧ Q a s'.

Section runs.
Context {S E : Type}.

Lemma runs_bind {A B} (m : M S E A) (k : A → M S E B) Q s :
  runs m (λ a s', runs (k a) Q s') s → runs (bind m k) Q s.
Proof.
  intros (a & s1 & Hm & b & s2 & Hk & HQ). exists b, s2. unfold bind. by rewrite Hm.
Qed.

(** A call that returns, inside one that may fail later. *)
Lemma wp_bind_runs {A B} (m : M S E A) (k : A → M S E B) Q R s :
  runs m Q s → (∀ a s', Q a s' → wp (k a) R s') → wp (bind m k) R s.
Proof. intros (a & s' & Hm & HQ) Hk. apply wp_bind. unfold wp at 1. rewrite Hm. by apply Hk. Qed.

Lemma runs_mono {A} (m : M S E A) (Q Q' : A → S → Prop) s :
  (∀ a s', Q a s' → Q' a s') → runs m Q s → runs m Q' s.
Proof. intros HQ (a & s' & ? & ?). exists a, s'. auto. Qed.

Lemma runs_ret {A} (a : A) (Q : A → S → Prop) s : Q a s → runs (E := E) (ret a) Q s.
Proof. intros HQ. by exists a, s. Qed.

Lemma runs_get (Q : S → S → Prop) s : Q s s → runs (E := E) get Q s.
Proof. intros HQ. by exists s, s. Qed.

Lemma runs_put s' (Q : unit → S → Prop) s : Q tt s' → runs (E := E) (put s') Q s.
Proof. intros HQ. by exists tt, s'. Qed.

Lemma runs_modify f (Q : unit → S → Prop) s : Q tt (f s) → runs (E := E) (modify f) Q s.
Proof. intros HQ. by exists tt, (f s). Qed.

Lemma runs_expect {A} (o : option A) a (Q : A → S → Prop) s :
  o = Some a → Q a s → runs (E := E) (expect o) Q s.
Proof. intros -> HQ. by exists a, s. Qed.

Lemma runs_assert b (Q : unit → S → Prop) s :
  b = true → Q tt s → runs (E := E) (assert_ b) Q s.
Proof. intros -> HQ. by exists tt, s. Qed.

Lemma runs_lift {A} (r : outcome E A) a (Q : A → S → Prop) s :
  r = Ok a → Q a s → runs (lift r) Q s.
Proof. intros -> HQ. by exists a, s. Qed.

(** A loop whose [k]-th iteration takes [I k] to [I (k + 1)]. *)
Lemma runs_for_each {A} (I : nat → S → Prop) (l : list A) (body : A → M S E unit) s :
  (∀ k x s, l !! k = Some x → I k s → runs (body x) (λ _ s', I (Datatypes.S k) s') s) →
  I 0%nat s → runs (for_each l body) (λ _ s', I (length l) s') s.
Proof.
  revert I s. induction l as [|x l IH]; intros I s Hb HI; simpl; [by apply runs_ret|].
  apply runs_bind. eapply runs_mono; [|by apply (Hb 0%nat)].
  intros [] s' HI'. apply (IH (λ k, I (Datatypes.S k))); [|done].
  intros k y s1 Hk. by apply (Hb (Datatypes.S k)).
Qed.

(** [for i in a..b] and [for i in (a..b).rev()]. *)
Lemma runs_for_up (I : Z → S → Prop) a n (body : Z → M S E unit) s :
  0 ≤ n →
  (∀ k s, 0 ≤ k < n → I k s → runs (body (a + k)) (λ _ s', I (k + 1) s') s) →
  I 0 s → runs (for_each (seqZ a n) body) (λ _ s', I n s') s.
Proof.
  intros Hn Hb HI. eapply runs_mono; [|apply (runs_for_each (λ k, I (Z.of_nat k)))].
  - intros ? s'. by rewrite length_seqZ, Z2Nat.id.
  - intros k x s1 Hx HIk. apply lookup_seqZ in Hx as [-> Hk]. rewrite Nat2Z.inj_succ. apply Hb; [lia|done].
  - done.
Qed.

Lemma runs_for_down (I : Z → S → Prop) a n (body : Z → M S E unit) s :
  0 ≤ n →
  (∀ k s, 0 ≤ k < n → I k s → runs (body (a + n - 1 - k)) (λ _ s', I (k + 1) s') s) →
  I 0 s → runs (for_each (reverse (seqZ a n)) body) (λ _ s', I n s') s.
Proof.
  intros Hn Hb HI. eapply runs_mono; [|apply (runs_for_each (λ k, I (Z.of_nat k)))].
  - intros ? s'. by rewrite length_reverse, length_seqZ, Z2Nat.id.
  - intros k x s1 Hx HIk. pose proof (lookup_lt_Some _ _ _ Hx) as Hlt.
    rewrite length_reverse, length_seqZ in Hlt.
    rewrite reverse_lookup in Hx by (rewrite length_seqZ; lia). rewrite length_seqZ in Hx.
    apply lookup_seqZ in Hx as [-> Hk]. rewrite Nat2Z.inj_succ.
    replace (a + Z.of_nat (Z.to_nat n - Datatypes.S k)) with (a + n - 1 - Z.of_nat k) by lia.
    apply Hb; [lia|done].
  - done.
Qed.
End runs.

(** ** What a computation leaves alone *)

Section keeps.
Context {S E : Type} (P : S → Prop).

Definition keeps {A} (m : M S E A) : Prop := ∀ s r s', P s → m s = (r, s') → P s'.

Lemma keeps_bind {A C} (m : M S E A) (k : A → M S E C) : keeps m → (∀ a, keeps (k a)) → keeps (bind m k).
Proof using Type.
  intros Hm Hk s r s' Hs. unfold bind. destruct (m s) as [[a|e|] s1] eqn:H1; pose proof (Hm _ _ _ Hs H1).
  - intros H2. by eapply Hk.
  - by intros [= _ <-].
  - by intros [= _ <-].
Qed.

Lemma keeps_get {C} (k : S → M S E C) : (∀ s, P s → keeps (k s)) → keeps (bind get k).
Proof using Type. intros Hk s r s' Hs. by apply Hk. Qed.

Lemma keeps_put s : P s → keeps (put s).
Proof using Type. by intros Hs ? ? ? _ [= _ <-]. Qed.

Lemma keeps_pure {A} (r : outcome E A) : keeps (λ s, (r, s)).
Proof using Type. by intros ? ? ? Hs [= _ <-]. Qed.

Lemma keeps_modify f : (∀ s, P s → P (f s)) → keeps (modify f).
Proof using Type. intros Hf s ? ? Hs [= _ <-]. by apply Hf. Qed.

Lemma keeps_lift {A} (r : outcome E A) : keeps (lift r).
Proof using Type. intros s ? ? Hs [= _ <-]. done. Qed.

Lemma keeps_bind_lift {A C} (r : outcome E A) (k : A → M S E C) :
  (∀ a, r = Ok a → keeps (k a)) → keeps (bind (lift r) k).
Proof using Type.
  intros Hk s r' s' Hs. unfold bind, lift. destruct r as [a|e|]; [by apply Hk|by intros [= _ <-]..].
Qed.

Lemma keeps_assert b : keeps (assert_ b).
Proof using Type. destruct b; apply keeps_pure. Qed.

Lemma keeps_for_each {A} (l : list A) (body : A → M S E unit) :
  (∀ a, a ∈ l → keeps (body a)) → keeps (for_each l body).
Proof using Type.
  induction l as [|x l IH]; intros Hb; cbn [for_each]; [apply keeps_pure|].
  apply keeps_bind; [apply Hb; by left|]. intros _. apply IH. intros a Ha. apply Hb. by right.
Qed.

Lemma keeps_runs {A} (m : M S E A) Q s :
  keeps m → P s → runs m Q s → runs m (λ a s', Q a s' ∧ P s') s.
Proof using Type. intros Hk Hs (a & s' & Hrun & HQ). exists a, s'. split_and!; try done. by eapply Hk. Qed.

Lemma keeps_expect {A} (o : option A) : keeps (expect o).
Proof using Type. destruct o; apply keeps_pure. Qed.
End keeps.

(** Splits a computation into its calls; what is left are calls of operations. *)
Ltac keeps_calls :=
  repeat match goal with
    | |- keeps _ (bind get _) => apply keeps_get; intros ? ?
    | |- keeps _ (bind (lift _) _) => apply keeps_bind_lift; intros ? ?
    | |- keeps _ (bind _ _) => apply keeps_bind; [|intros ?]
    | |- keeps _ (expect _) => apply keeps_expect
    | |- keeps _ (lift _) => apply keeps_lift
    | |- keeps _ (assert_ _) => apply keeps_assert
    | |- keeps _ (ret _) => apply keeps_pure
    | |- keeps _ panic => apply keeps_pure
    | |- keeps _ (for_each _ _) => apply keeps_for_each; intros ? ?
    | |- keeps _ (if ?b then _ else _) => destruct b
    | |- keeps _ (let _ := _ in _) => cbv zeta
    | |- keeps _ ((λ _, _) _) => cbv beta
    end.

(** ** Mutable borrows

    [Option<&mut T>] returned by a search: the current value of the borrowed
    part, and the function that writes a value back into the owner. *)
Definition borrow (T O : Type) : Type := T * (T → O).

(** [l.iter_mut().find_map(f)]: the first element in which [f] finds
    something, borrowed through the list. *)
Fixpoint find_map_mut {A B} (f : A → option (borrow B A)) (l : list A)
    : option (borrow B (list A)) :=
  match l with
  | [] => None
  | x :: l =>
      match f x with
      | Some (b, back) => Some (b, λ b', back b' :: l)
      | None =>
          match find_map_mut f l with
          | Some (b, back) => Some (b, λ b', x :: back b')
          | None => None
          end
      end
  end.

(** [l.iter().find_map(f)]. *)
Fixpoint find_map {A B} (f : A → option B) (l : list A) : option B :=
  match l with
  | [] => None
  | x :: l => match f x with Some b => Some b | None => find_map f l end
  end.

(** [l.iter().find(p)]. *)
Definition find_first {A} (p : A → bool) : list A → option A :=
  find_map (λ x, if p x then Some x else None).

(** [l.iter_mut().find(p)]. *)
Definition find_mut {A} (p : A → bool) : list A → option (borrow A (list A)) :=
  find_map_mut (λ x, if p x then Some (x, id) else None).

Section borrows.
Context {A B : Type}.

Lemma find_map_mut_Some (f : A → option (borrow B A)) l b back :
  find_map_mut f l = Some (b, back) →
  ∃ l1 x l2 back', l = l1 ++ x :: l2 ∧ f x = Some (b, back') ∧
    Forall (λ y, f y = None) l1 ∧ ∀ b', back b' = l1 ++ back' b' :: l2.
Proof.
  revert back. induction l as [|x l IH]; intros back; simpl; [done|].
  destruct (f x) as [[b0 back0]|] eqn:Hf.
  - intros [= -> <-]. exists [], x, l, back0. naive_solver.
  - destruct (find_map_mut f l) as [[b1 back1]|]; [|done]. intros [= -> <-].
    destruct (IH back1 eq_refl) as (l1 & y & l2 & back' & -> & ? & ? & Hb).
    exists (x :: l1), y, l2, back'. split_and!; eauto.
    intros b'. by rewrite Hb.
Qed.

Lemma find_map_mut_None (f : A → option (borrow B A)) l :
  find_map_mut f l = None ↔ Forall (λ y, f y = None) l.
Proof.
  induction l as [|x l IH]; simpl; [naive_solver|].
  rewrite Forall_cons. destruct (f x) as [[??]|]; [naive_solver|].
  destruct (find_map_mut f l) as [[??]|]; naive_solver.
Qed.

Lemma find_map_Some (f : A → option B) l b :
  find_map f l = Some b →
  ∃ l1 x l2, l = l1 ++ x :: l2 ∧ f x = Some b ∧ Forall (λ y, f y = None) l1.
Proof.
  induction l as [|x l IH]; simpl; [done|].
  destruct (f x) eqn:Hf.
  - intros [= ->]. exists [], x, l. naive_solver.
  - intros H. destruct (IH H) as (l1 & y & l2 & -> & ? & ?).
    exists (x :: l1), y, l2. naive_solver.
Qed.

Lemma find_map_None (f : A → option B) l :
  find_map f l = None ↔ Forall (λ y, f y = None) l.
Proof.
  induction l as [|x l IH]; simpl; [naive_solver|].
  rewrite Forall_cons. destruct (f x); naive_solver.
Qed.

Lemma find_map_app (f : A → option B) l1 l2 :
  find_map f (l1 ++ l2) =
  match find_map f l1 with Some b => Some b | None => find_map f l2 end.
Proof. induction l1 as [|x l1 IH]; simpl; [done|]. by destruct (f x). Qed.
End borrows.

Lemma find_first_Some {A} (p : A → bool) l x :
  find_first p l = Some x →
  ∃ l1 l2, l = l1 ++ x :: l2 ∧ p x = true ∧ Forall (λ y, p y = false) l1.
Proof.
  intros (l1 & y & l2 & -> & Hy & Hl1)%find_map_Some.
  destruct (p y) eqn:Hp; simplify_eq. exists l1, l2. split_and!; auto.
  eapply Forall_impl; [exact Hl1|]. intros z. simpl. by destruct (p z).
Qed.

Lemma find_first_elem {A} (p : A → bool) l x : find_first p l = Some x → x ∈ l.
Proof. intros (l1 & l2 & -> & _)%find_first_Some. set_solver. Qed.

Lemma find_first_None {A} (p : A → bool) l :
  find_first p l = None ↔ Forall (λ y, p y = false) l.
Proof.
  unfold find_first. rewrite find_map_None. apply Forall_iff.
  intros x. by destruct (p x).
Qed.

Lemma find_mut_Some {A} (p : A → bool) l x back :
  find_mut p l = Some (x, back) →
  ∃ l1 l2, l = l1 ++ x :: l2 ∧ p x = true ∧ Forall (λ y, p y = false) l1 ∧
    ∀ x', back x' = l1 ++ x' :: l2.
Proof.
  intros (l1 & y & l2 & back' & -> & Hy & Hl1 & Hb)%find_map_mut_Some.
  destruct (p y) eqn:Hp; simplify_eq. exists l1, l2. split_and!; auto.
  eapply Forall_impl; [exact Hl1|]. intros z. simpl. by destruct (p z).
Qed.

Lemma find_mut_None {A} (p : A → bool) l :
  find_mut p l = None ↔ Forall (λ y, p y = false) l.
Proof.
  unfold find_mut. rewrite find_map_mut_None. apply Forall_iff.
  intros x. by destruct (p x).
Qed.

(** [l.iter().all(p)] and [l.iter().any(p)] for a test that decides a property. *)
Lemma forallb_Forall {A} (p : A → bool) (P : A → Prop) l :
  (∀ x, p x = true ↔ P x) → forallb p l = true ↔ Forall P l.
Proof.
  intros Hp. induction l as [|x l IH]; simpl; [done|]. by rewrite andb_true_iff, Forall_cons, IH, Hp.
Qed.

Lemma existsb_Exists {A} (p : A → bool) (P : A → Prop) l :
  (∀ x, p x = true ↔ P x) → existsb p l = true ↔ Exists P l.
Proof.
  intros Hp. induction l as [|x l IH]; simpl; [by rewrite Exists_nil|].
  by rewrite orb_true_iff, Exists_cons, IH, Hp.
Qed.

Lemma existsb_false {A} (f : A → bool) l : existsb f l = false ↔ Forall (λ x, f x = false) l.
Proof.
  induction l as [|x l IH]; simpl; [naive_solver|].
  rewrite orb_false_iff, Forall_cons. naive_solver.
Qed.

(** ** Records

    [update_field eta r f v]: the record [r] with field [f] set to [v], where
    [eta] rebuilds a record from its fields. *)
Ltac update_field eta r f v :=
  let t := eval cbv beta delta [eta] in (eta r) in
  let t := eval pattern (f r) in t in
  lazymatch t with
  | ?g _ => let t := eval cbv beta in (g v) in exact t
  end.
