(* ===== verification/RustStd.v ===== *)
(** * The parts of Rust's standard library the modelled crates use

    Machine integers are [Z] with their range written out; a [String] is the
    list of its Unicode scalar values, with [len] its UTF-8 length; a
    [BTreeMap] is the list of its entries in key order; a [HashSet] is stdpp's
    [gset]. *)

From Stdlib Require Import String Ascii.
Export String.StringSyntax.
From S2P Require Import Prelude.

(** ** Integers *)

Definition u8_max : Z := 2^8 - 1.
Definition u16_max : Z := 2^16 - 1.
Definition u32_max : Z := 2^32 - 1.
Definition u64_max : Z := 2^64 - 1.
Definition i32_max : Z := 2^31 - 1.

(** [usize] is 64 bits on the supported target. *)
Definition usize_max : Z := u64_max.

Definition wrap32 (x : Z) : Z := x mod 2^32.
Definition wrap64 (x : Z) : Z := x mod 2^64.

(** [u64::checked_add]. *)
Definition checked_add64 (a b : Z) : option Z :=
  if a + b <=? u64_max then Some (a + b) else None.

(** [saturating_sub] on an unsigned type. *)
Definition saturating_sub (a b : Z) : Z := Z.max 0 (a - b).

(** [usize::is_power_of_two]. *)
Definition is_power_of_two (n : Z) : bool := (0 <? n) && (2 ^ Z.log2 n =? n).

Lemma is_power_of_two_spec n :
  is_power_of_two n = true ↔ ∃ k, 0 ≤ k ∧ n = 2 ^ k.
Proof.
  unfold is_power_of_two. rewrite andb_true_iff, Z.ltb_lt, Z.eqb_eq. split.
  - intros [Hn He]. exists (Z.log2 n). split; [apply Z.log2_nonneg|done].
  - intros (k & Hk & ->). split; [by apply Z.pow_pos_nonneg|].
    by rewrite Z.log2_pow2.
Qed.

(** [x & (n - 1)] for a power of two [n] is the remainder. *)
Lemma land_mask x n :
  is_power_of_two n = true → Z.land x (n - 1) = x mod n.
Proof.
  intros (k & Hk & ->)%is_power_of_two_spec.
  rewrite Z.sub_1_r, <-Z.ones_equiv. by apply Z.land_ones.
Qed.

(** Wrapping at 64 bits does not show through a mask of at most 64 bits. *)
Lemma wrap64_land_mask x n :
  is_power_of_two n = true → n ≤ 2^64 →
  Z.land (wrap64 x) (n - 1) = x mod n.
Proof.
  intros Hn Hle. rewrite land_mask by done.
  apply is_power_of_two_spec in Hn as (k & Hk & ->).
  unfold wrap64. assert (k ≤ 64).
  { apply (Z.pow_le_mono_r_iff 2); lia. }
  replace (2^64) with (2^k * 2^(64 - k))
    by (rewrite <-Z.pow_add_r by lia; f_equal; lia).
  rewrite Z.rem_mul_r by (try apply Z.pow_nonzero; try apply Z.pow_pos_nonneg; lia).
  rewrite Z.mul_comm, Z_mod_plus_full. by rewrite Z.mod_mod by (apply Z.pow_nonzero; lia).
Qed.

(** A disjunction of [n]-bit numbers has [n] bits. *)
Lemma lor_range n a b :
  0 ≤ n → 0 ≤ a < 2 ^ n → 0 ≤ b < 2 ^ n → 0 ≤ Z.lor a b < 2 ^ n.
Proof.
  intros Hn Ha Hb. assert (0 ≤ Z.lor a b) as H0 by (apply Z.lor_nonneg; lia). split; [done|].
  destruct (Z.eq_dec (Z.lor a b) 0) as [->|Hne]; [lia|].
  destruct (Z.eq_dec n 0) as [->|Hn0].
  { exfalso. apply Hne. replace a with 0 by lia. by replace b with 0 by lia. }
  apply Z.log2_lt_pow2; [lia|]. rewrite Z.log2_lor by lia.
  assert (∀ x, 0 ≤ x < 2 ^ n → Z.log2 x < n) as Hl.
  { intros x Hx. destruct (Z.eq_dec x 0) as [->|]; [simpl; lia|]. apply Z.log2_lt_pow2; lia. }
  pose proof (Hl a Ha). pose proof (Hl b Hb). lia.
Qed.

(** ** Strings *)

(** A [char] is a Unicode scalar value; a string is the list of its chars. *)
Definition str : Type := list Z.

Definition is_scalar (c : Z) : bool :=
  ((0 <=? c) && (c <? 0xD800)) || ((0xE000 <=? c) && (c <=? 0x10FFFF)).

(** A string literal of the source (ASCII). *)
Fixpoint lit (s : string) : str :=
  match s with
  | EmptyString => []
  | String a s => Z.of_N (N_of_ascii a) :: lit s
  end.

#[global] Arguments lit s%_string_scope.

(** [char::len_utf8] and [str::len]. *)
Definition len_utf8 (c : Z) : Z :=
  if c <? 0x80 then 1 else if c <? 0x800 then 2 else if c <? 0x10000 then 3 else 4.

Definition str_len (s : str) : Z := foldr (λ c n, len_utf8 c + n) 0 s.

(** [char::encode_utf8]. *)
Definition encode_utf8 (c : Z) : list Z :=
  if c <? 0x80 then [c]
  else if c <? 0x800 then [0xC0 + c / 64; 0x80 + c mod 64]
  else if c <? 0x10000 then [0xE0 + c / 4096; 0x80 + c / 64 mod 64; 0x80 + c mod 64]
  else [0xF0 + c / 262144; 0x80 + c / 4096 mod 64; 0x80 + c / 64 mod 64; 0x80 + c mod 64].

(** [str::as_bytes]. *)
Definition str_bytes (s : str) : list Z := s ≫= encode_utf8.

(** [char::is_whitespace]: the Unicode [White_Space] property. *)
Definition is_whitespace (c : Z) : bool :=
  ((9 <=? c) && (c <=? 13)) || (c =? 32) || (c =? 0x85) || (c =? 0xA0) ||
  (c =? 0x1680) || ((0x2000 <=? c) && (c <=? 0x200A)) || (c =? 0x2028) ||
  (c =? 0x2029) || (c =? 0x202F) || (c =? 0x205F) || (c =? 0x3000).

Fixpoint trim_start (s : str) : str :=
  match s with
  | [] => []
  | c :: s' => if is_whitespace c then trim_start s' else s
  end.

Definition trim_end (s : str) : str := reverse (trim_start (reverse s)).

(** [str::trim]. *)
Definition trim (s : str) : str := trim_end (trim_start s).

Definition is_cont (b : Z) : bool := (0x80 <=? b) && (b <=? 0xBF).

(** [str::from_utf8(bytes).is_ok()]. *)
Fixpoint utf8_valid (fuel : nat) (bytes : list Z) : bool :=
  match fuel with
  | O => false
  | S fuel =>
      match bytes with
      | [] => true
      | b :: rest =>
          if b <? 0x80 then utf8_valid fuel rest
          else if (0xC2 <=? b) && (b <=? 0xDF) then
            match rest with
            | b1 :: rest => is_cont b1 && utf8_valid fuel rest
            | _ => false
            end
          else if (0xE0 <=? b) && (b <=? 0xEF) then
            match rest with
            | b1 :: b2 :: rest =>
                (if b =? 0xE0 then (0xA0 <=? b1) && (b1 <=? 0xBF)
                 else if b =? 0xED then (0x80 <=? b1) && (b1 <=? 0x9F)
                 else is_cont b1)
                && is_cont b2 && utf8_valid fuel rest
            | _ => false
            end
          else if (0xF0 <=? b) && (b <=? 0xF4) then
            match rest with
            | b1 :: b2 :: b3 :: rest =>
                (if b =? 0xF0 then (0x90 <=? b1) && (b1 <=? 0xBF)
                 else if b =? 0xF4 then (0x80 <=? b1) && (b1 <=? 0x8F)
                 else is_cont b1)
                && is_cont b2 && is_cont b3 && utf8_valid fuel rest
            | _ => false
            end
          else false
      end
  end.

(** [from_utf8(bytes).is_ok()]; every round consumes a byte. *)
Definition is_utf8 (bytes : list Z) : bool := utf8_valid (S (length bytes)) bytes.

(** [str::strip_prefix]. *)
Fixpoint strip_prefix (p s : str) : option str :=
  match p, s with
  | [], _ => Some s
  | a :: p, b :: s => if a =? b then strip_prefix p s else None
  | _ :: _, [] => None
  end.

(** [str::split(sep).collect()]: always at least one piece. *)
Fixpoint split_on (sep : Z) (s : str) : list str :=
  match s with
  | [] => [[]]
  | c :: s =>
      if c =? sep then [] :: split_on sep s
      else match split_on sep s with
           | [] => [[c]]
           | w :: ws => (c :: w) :: ws
           end
  end.

Definition is_ascii_digit (c : Z) : bool := (48 <=? c) && (c <=? 57).

(** [u64::to_string] and the [{}] of an unsigned integer. Every division by
    ten at least halves the number, so [log2 n + 1] rounds suffice. *)
Fixpoint digits (fuel : nat) (n : Z) : str :=
  match fuel with
  | O => []
  | S f => if n <? 10 then [48 + n] else digits f (n / 10) ++ [48 + n mod 10]
  end.

Definition to_string (n : Z) : str := digits (S (Z.to_nat (Z.log2 n))) n.

(** [u64::from_str]: an optional [+], then at least one digit, with the value
    checked against [u64::MAX] after every digit. *)
Fixpoint parse_digits (acc : Z) (s : str) : option Z :=
  match s with
  | [] => Some acc
  | c :: s =>
      if is_ascii_digit c then
        let acc := acc * 10 + (c - 48) in
        if acc <=? u64_max then parse_digits acc s else None
      else None
  end.

Definition parse_u64 (s : str) : option Z :=
  match s with
  | [] => None
  | c :: s' =>
      if c =? 43 then match s' with [] => None | _ => parse_digits 0 s' end
      else parse_digits 0 s
  end.

Lemma strip_prefix_Some p s s' : strip_prefix p s = Some s' ↔ s = p ++ s'.
Proof.
  revert s. induction p as [|a p IH]; intros [|b s]; simpl; try naive_solver.
  destruct (Z.eqb_spec a b); naive_solver.
Qed.

Lemma parse_digits_app acc s1 s2 :
  parse_digits acc (s1 ++ s2) =
  match parse_digits acc s1 with Some a => parse_digits a s2 | None => None end.
Proof.
  revert acc. induction s1 as [|c s1 IH]; intros acc; simpl; [done|].
  destruct (is_ascii_digit c); [|done].
  destruct (_ <=? _); [apply IH|done].
Qed.

Lemma digit_is_ascii n : 0 ≤ n < 10 → is_ascii_digit (48 + n) = true.
Proof. intros. unfold is_ascii_digit. lia. Qed.

Lemma parse_digits_digits fuel n :
  0 ≤ n ≤ u64_max → n < 2 ^ Z.of_nat fuel → parse_digits 0 (digits fuel n) = Some n.
Proof.
  revert n. induction fuel as [|f IH]; intros n Hn Hf; simpl.
  { simpl in Hf. f_equal. lia. }
  destruct (Z.ltb_spec n 10) as [Hlt|Hge].
  - simpl. rewrite digit_is_ascii by lia.
    replace (0 * 10 + (48 + n - 48)) with n by lia.
    by rewrite (proj2 (Z.leb_le _ _)) by lia.
  - rewrite parse_digits_app, IH.
    + simpl. pose proof (Z.mod_pos_bound n 10).
      rewrite digit_is_ascii by lia.
      replace (n / 10 * 10 + (48 + n mod 10 - 48)) with n by (Z.div_mod_to_equations; lia).
      by rewrite (proj2 (Z.leb_le _ _)) by lia.
    + Z.div_mod_to_equations; lia.
    + rewrite Nat2Z.inj_succ, Z.pow_succ_r in Hf by lia.
      Z.div_mod_to_equations; lia.
Qed.

Lemma digits_head f n : 0 ≤ n → ∃ d s, digits (S f) n = (48 + d) :: s ∧ 0 ≤ d < 10.
Proof.
  revert n. induction f as [|f IH]; intros n Hn.
  - simpl. destruct (Z.ltb_spec n 10); [by exists n, []|].
    exists (n mod 10), []. split; [done|]. apply Z.mod_pos_bound. lia.
  - cbn [digits]. destruct (Z.ltb_spec n 10); [by exists n, []|].
    destruct (IH (n / 10)) as (d & s & Hd & ?); [apply Z.div_pos; lia|].
    cbn [digits] in Hd. rewrite Hd. eexists d, _. split; [done|]. done.
Qed.

(** Parsing a printed [u64] gives it back. *)
Lemma parse_to_string n : 0 ≤ n ≤ u64_max → parse_u64 (to_string n) = Some n.
Proof.
  intros Hn. assert (Hp : parse_digits 0 (to_string n) = Some n).
  { apply parse_digits_digits; [done|].
    rewrite Nat2Z.inj_succ, Z2Nat.id by apply Z.log2_nonneg.
    destruct (Z.eq_dec n 0) as [->|]; [done|]. apply Z.log2_spec. lia. }
  unfold parse_u64. destruct (digits_head (Z.to_nat (Z.log2 n)) n) as (d & s & Hd & Hr); [lia|].
  fold (to_string n) in Hd. rewrite Hd in *.
  destruct (Z.eqb_spec (48 + d) 43); [lia|done].
Qed.

Lemma parse_digits_bound acc s n : acc ≤ u64_max → parse_digits acc s = Some n → n ≤ u64_max.
Proof.
  revert acc. induction s as [|c s IH]; intros acc Ha; simpl; [naive_solver|].
  destruct (is_ascii_digit c); [|done]. destruct (Z.leb_spec (acc * 10 + (c - 48)) u64_max); [|done].
  by apply IH.
Qed.

Lemma parse_u64_bound s n : parse_u64 s = Some n → n ≤ u64_max.
Proof.
  unfold parse_u64. destruct s as [|c s]; [done|].
  destruct (c =? 43); [destruct s; [done|]|]; by apply parse_digits_bound.
Qed.

(** [u8::is_ascii_lowercase]. *)
Definition is_ascii_lowercase (c : Z) : bool := (97 <=? c) && (c <=? 122).

(** ** Sets *)

(** A [HashSet] whose elements are later listed: its elements, each once. *)
Definition hs_insert `{EqDecision A} (x : A) (s : list A) : list A :=
  if decide (x ∈ s) then s else s ++ [x].

(** [iter.collect::<HashSet<_>>()]. *)
Definition hs_collect `{EqDecision A} (l : list A) : list A := foldl (λ s x, hs_insert x s) [] l.

Section hash_sets.
Context `{EqDecision A}.
Implicit Types (x y : A) (s l : list A).

Lemma hs_insert_elem x y s : y ∈ hs_insert x s ↔ y = x ∨ y ∈ s.
Proof. unfold hs_insert. case_decide; set_solver. Qed.

Lemma hs_insert_NoDup x s : NoDup s → NoDup (hs_insert x s).
Proof.
  unfold hs_insert. intros Hs. case_decide; [done|]. apply NoDup_app. split_and!; [done| |apply NoDup_singleton].
  set_solver.
Qed.

Lemma hs_insert_length x s : (length s ≤ length (hs_insert x s) ≤ S (length s))%nat.
Proof. unfold hs_insert. case_decide; [lia|]. rewrite length_app. simpl. lia. Qed.

Lemma hs_extend_elem l s y : y ∈ foldl (λ s x, hs_insert x s) s l ↔ y ∈ s ∨ y ∈ l.
Proof.
  revert s. induction l as [|x l IH]; intros s; simpl; [set_solver|].
  rewrite IH, hs_insert_elem, elem_of_cons. naive_solver.
Qed.

Lemma hs_extend_NoDup l s : NoDup s → NoDup (foldl (λ s x, hs_insert x s) s l).
Proof. revert s. induction l as [|x l IH]; intros s Hs; simpl; [done|]. by apply IH, hs_insert_NoDup. Qed.

Lemma hs_extend_length l s :
  (length s ≤ length (foldl (λ s x, hs_insert x s) s l) ≤ length s + length l)%nat.
Proof.
  revert s. induction l as [|x l IH]; intros s; simpl; [lia|].
  pose proof (IH (hs_insert x s)). pose proof (hs_insert_length x s). lia.
Qed.

(** A list collects into a set of its own length when it repeats nothing. *)
Lemma hs_collect_length l : length (hs_collect l) = length l ↔ NoDup l.
Proof.
  assert (∀ s, NoDup s →
    length (foldl (λ s x, hs_insert x s) s l) = (length s + length l)%nat ↔ NoDup (s ++ l)) as H.
  2: { unfold hs_collect. rewrite H by constructor. done. }
  induction l as [|x l IH]; intros s Hs; simpl; [by rewrite app_nil_r, Nat.add_0_r|].
  unfold hs_insert at 2. case_decide as Hx.
  - pose proof (hs_extend_length l s). split; [lia|]. intros (_ & Hd & _)%NoDup_app.
    exfalso. apply (Hd x Hx). set_solver.
  - assert (NoDup (s ++ [x])) as Hsx by (rewrite <-(decide_False (P := x ∈ s) s (s ++ [x])) by done;
      by apply hs_insert_NoDup).
    specialize (IH (s ++ [x]) Hsx). rewrite <-app_assoc in IH. simpl in IH. rewrite <-IH, length_app. simpl. lia.
Qed.
End hash_sets.

(** ** Paths *)

(** A [Path] is an operating-system string, that is, bytes. *)
Abbreviation PathBuf := (list Z) (only parsing).

Inductive Component :=
| RootDir
| CurDir
| ParentDir
| Normal (name : list Z).

#[global] Instance Component_eq_dec : EqDecision Component.
Proof. solve_decision. Defined.

(** [Path::is_absolute]. *)
Definition is_absolute (p : PathBuf) : bool :=
  match p with c :: _ => c =? 47 | [] => false end.

(** What one piece between slashes stands for: nothing when it is empty or a
    dot, unless the dot [leads] a relative path. *)
Definition path_piece (leads : bool) (piece : list Z) : list Component :=
  if bool_decide (piece = []) then []
  else if bool_decide (piece = [46]) then (if leads then [CurDir] else [])
  else if bool_decide (piece = [46; 46]) then [ParentDir]
  else [Normal piece].

(** [Path::components]. *)
Definition components (p : PathBuf) : list Component :=
  (if is_absolute p then [RootDir] else []) ++
  match split_on 47 p with
  | [] => []
  | piece :: pieces => path_piece (negb (is_absolute p)) piece ++ (pieces ≫= path_piece false)
  end.

(** [Path::eq] compares components. *)
Definition path_eq (p q : PathBuf) : bool := bool_decide (components p = components q).

(** ** Ordered maps *)

(** A [BTreeMap] with integer keys: its entries in ascending key order. *)
Definition btree (V : Type) : Type := list (Z * V).

Section btree.
Context {V : Type}.
Implicit Types (m : btree V) (k : Z) (v : V).

Fixpoint bt_get m k : option V :=
  match m with
  | [] => None
  | (k', v) :: m => if k =? k' then Some v else bt_get m k
  end.

Fixpoint bt_insert m k v : btree V :=
  match m with
  | [] => [(k, v)]
  | (k', v') :: m' =>
      if k <? k' then (k, v) :: m
      else if k =? k' then (k, v) :: m'
      else (k', v') :: bt_insert m' k v
  end.

Fixpoint bt_remove m k : btree V :=
  match m with
  | [] => []
  | (k', v') :: m' => if k =? k' then m' else (k', v') :: bt_remove m' k
  end.

(** [get_mut]. *)
Definition bt_get_mut m k : option (borrow V (btree V)) :=
  find_map_mut (λ '(k', v), if k =? k' then Some (v, λ v', (k', v')) else None) m.

(** [values()] and [contains_key]. *)
Definition bt_values m : list V := m.*2.
Definition bt_contains m k : bool :=
  match bt_get m k with Some _ => true | None => false end.

Definition key_lt (a b : Z * V) : Prop := a.1 < b.1.

(** The representation invariant. *)
Definition bt_wf m : Prop := StronglySorted key_lt m.

Lemma bt_wf_cons k v m :
  bt_wf ((k, v) :: m) ↔ bt_wf m ∧ ∀ k' v', (k', v') ∈ m → k < k'.
Proof.
  unfold bt_wf. split.
  - intros [? H]%StronglySorted_inv. split; [done|].
    intros k' v' Hin. rewrite Forall_forall in H. by apply (H (k', v')).
  - intros [? H]. constructor; [done|]. apply Forall_forall.
    intros [k' v'] Hin. by apply (H k' v').
Qed.

Lemma bt_get_elem m k v : bt_wf m → bt_get m k = Some v ↔ (k, v) ∈ m.
Proof.
  induction m as [|[k' v'] m IH]; simpl; intros Hwf.
  { split; [done|]. intros H. by apply elem_of_nil in H. }
  apply bt_wf_cons in Hwf as [Hwf Hlt].
  rewrite elem_of_cons. destruct (Z.eqb_spec k k') as [->|Hne].
  - split; [naive_solver|]. intros [?|Hin]; [naive_solver|].
    specialize (Hlt _ _ Hin). lia.
  - rewrite IH by done. naive_solver.
Qed.

Lemma bt_insert_elem m k v k' v' :
  bt_wf m →
  (k', v') ∈ bt_insert m k v ↔ (k' = k ∧ v' = v) ∨ (k' ≠ k ∧ (k', v') ∈ m).
Proof.
  induction m as [|[k0 v0] m IH]; simpl; intros Hwf.
  { rewrite list_elem_of_singleton, elem_of_nil. naive_solver. }
  apply bt_wf_cons in Hwf as [Hwf Hlt].
  destruct (Z.ltb_spec k k0); [|destruct (Z.eqb_spec k k0) as [->|]].
  - rewrite !elem_of_cons. split; [|naive_solver].
    intros [[=-> ->]|[[= -> ->]|Hin]]; [by left|right; split; [lia|by left]|].
    right. specialize (Hlt _ _ Hin). split; [lia|by right].
  - rewrite !elem_of_cons. split; [|naive_solver].
    intros [[=-> ->]|Hin]; [by left|]. right.
    specialize (Hlt _ _ Hin). split; [lia|by right].
  - rewrite !elem_of_cons, IH by done. split; [|naive_solver].
    intros [[=-> ->]|?]; [right; split; [lia|by left]|naive_solver].
Qed.

Lemma bt_insert_wf m k v : bt_wf m → bt_wf (bt_insert m k v).
Proof.
  induction m as [|[k0 v0] m IH]; simpl; intros Hwf.
  { repeat constructor. }
  pose proof Hwf as [Hwf' Hlt]%bt_wf_cons.
  destruct (Z.ltb_spec k k0); [|destruct (Z.eqb_spec k k0) as [->|]].
  - apply bt_wf_cons. split; [done|]. intros k' v' [[=-> ->]|Hin]%elem_of_cons; [done|].
    specialize (Hlt _ _ Hin). lia.
  - by apply bt_wf_cons.
  - apply bt_wf_cons. split; [by apply IH|].
    intros k' v' [[-> ->]|[? Hin]]%bt_insert_elem; [lia| |done]. by apply (Hlt k' v').
Qed.

Lemma bt_remove_elem m k k' v' :
  bt_wf m → (k', v') ∈ bt_remove m k ↔ k' ≠ k ∧ (k', v') ∈ m.
Proof.
  induction m as [|[k0 v0] m IH]; simpl; intros Hwf.
  { rewrite elem_of_nil. naive_solver. }
  apply bt_wf_cons in Hwf as [Hwf Hlt].
  destruct (Z.eqb_spec k k0) as [->|].
  - rewrite elem_of_cons. split; [|naive_solver].
    intros Hin. specialize (Hlt _ _ Hin). split; [lia|by right].
  - rewrite !elem_of_cons, IH by done. naive_solver.
Qed.

Lemma bt_remove_wf m k : bt_wf m → bt_wf (bt_remove m k).
Proof.
  induction m as [|[k0 v0] m IH]; simpl; intros Hwf; [done|].
  pose proof Hwf as [Hwf' Hlt]%bt_wf_cons.
  destruct (Z.eqb_spec k k0) as [->|]; [done|].
  apply bt_wf_cons. split; [by apply IH|].
  intros k' v' [? Hin]%bt_remove_elem; [|done]. by apply (Hlt k' v').
Qed.

Lemma bt_get_insert m k k' v :
  bt_wf m → bt_get (bt_insert m k v) k' = if k' =? k then Some v else bt_get m k'.
Proof.
  intros Hwf. apply option_eq. intros v'.
  rewrite bt_get_elem, bt_insert_elem by (try apply bt_insert_wf; done).
  destruct (Z.eqb_spec k' k) as [->|]; [naive_solver|].
  rewrite bt_get_elem by done. naive_solver.
Qed.

Lemma bt_get_remove m k k' :
  bt_wf m → bt_get (bt_remove m k) k' = if k' =? k then None else bt_get m k'.
Proof.
  intros Hwf. apply option_eq. intros v'.
  rewrite bt_get_elem, bt_remove_elem by (try apply bt_remove_wf; done).
  destruct (Z.eqb_spec k' k) as [->|]; [naive_solver|].
  rewrite bt_get_elem by done. naive_solver.
Qed.

(** Sorted entries with the same keys: writing back through a borrow of a
    value keeps the invariant. *)
Lemma bt_wf_same_keys m m' : m.*1 = m'.*1 → bt_wf m → bt_wf m'.
Proof.
  revert m'. induction m as [|[k v] m IH]; intros [|[k' v'] m'] Heq; simplify_eq/=; [done|].
  intros [Hwf Hlt]%bt_wf_cons. apply bt_wf_cons. split; [by apply IH|].
  intros k1 v1 Hin. assert (Hin' : k1 ∈ m'.*1) by (apply list_elem_of_fmap; by exists (k1, v1)).
  match goal with H : m.*1 = m'.*1 |- _ => rewrite <-H in Hin' end.
  apply list_elem_of_fmap in Hin' as ([k2 v2] & -> & Hin2). by apply (Hlt k2 v2).
Qed.

Lemma bt_get_mut_Some m k v back :
  bt_get_mut m k = Some (v, back) →
  ∃ m1 m2, m = m1 ++ (k, v) :: m2 ∧ bt_get m1 k = None ∧
    ∀ v', back v' = m1 ++ (k, v') :: m2.
Proof.
  intros (m1 & [k0 v0] & m2 & back' & -> & Hf & Hn & Hb)%find_map_mut_Some.
  simpl in Hf. destruct (Z.eqb_spec k k0); simplify_eq.
  exists m1, m2. split_and!; auto.
  clear Hb. induction Hn as [|[k1 v1] m1 Hx]; simpl; [done|].
  simpl in Hx. by destruct (k0 =? k1).
Qed.

Lemma bt_get_mut_None m k : bt_get_mut m k = None ↔ bt_get m k = None.
Proof.
  etrans; [apply find_map_mut_None|].
  induction m as [|[k0 v0] m IH]; simpl; [naive_solver|].
  rewrite Forall_cons. destruct (Z.eqb_spec k k0); naive_solver.
Qed.

(** Collecting an iterator of entries into a map. *)
Definition bt_collect (l : list (Z * V)) : btree V :=
  foldl (λ m '(k, v), bt_insert m k v) [] l.

Lemma bt_insert_last m k v :
  (∀ k' v', (k', v') ∈ m → k' < k) → bt_insert m k v = m ++ [(k, v)].
Proof.
  induction m as [|[k0 v0] m IH]; intros Hlt; [done|]. simpl.
  assert (k0 < k) by (apply (Hlt k0 v0); set_solver).
  destruct (Z.ltb_spec k k0); [lia|]. destruct (Z.eqb_spec k k0); [lia|].
  f_equal. apply IH. intros k' v' ?. apply (Hlt k' v'). set_solver.
Qed.

(** Entries that are already in key order are collected unchanged. *)
Lemma bt_collect_sorted m : bt_wf m → bt_collect m = m.
Proof.
  unfold bt_collect. rewrite <-(app_nil_l m) at 1 3.
  generalize (@nil (Z * V)) as acc. induction m as [|[k v] m IH]; intros acc Hwf; simpl.
  { by rewrite app_nil_r. }
  rewrite bt_insert_last.
  - rewrite IH by by rewrite <-app_assoc. by rewrite <-app_assoc.
  - intros k' v' Hin. apply StronglySorted_app_1_elem_of with (x1 := (k', v')) (x2 := (k, v)) in Hwf;
      [done|done|set_solver].
Qed.

(** Entries with distinct keys are all found. *)
Lemma bt_get_collect l k v : NoDup l.*1 → (k, v) ∈ l → bt_get (bt_collect l) k = Some v.
Proof.
  assert (∀ l, bt_wf (bt_collect l)) as Hwf.
  { intros l'. induction l' as [|[k0 v0] l' IH] using rev_ind; [constructor|].
    unfold bt_collect in *. rewrite foldl_snoc. by apply bt_insert_wf. }
  induction l as [|[k0 v0] l IH] using rev_ind; intros Hnd Hin; [set_solver|].
  rewrite fmap_app in Hnd. apply NoDup_app in Hnd as (Hnd & Hdis & _).
  unfold bt_collect. rewrite foldl_snoc, bt_get_insert by apply Hwf.
  apply elem_of_app in Hin as [Hin|Hin].
  - destruct (Z.eqb_spec k k0) as [->|]; [|by apply IH].
    exfalso. apply (Hdis k0); [|set_solver]. apply list_elem_of_fmap. by exists (k0, v).
  - apply list_elem_of_singleton in Hin as [= -> ->]. by rewrite Z.eqb_refl.
Qed.
End btree.

#[global] Arguments bt_wf : simpl never.

(** ** ASCII text *)

Lemma str_bytes_ascii (P : Z → bool) s :
  (∀ c, P c = true → c < 0x80) → forallb P (str_bytes s) = true ↔ forallb P s = true ∧ str_bytes s = s.
Proof.
  intros HP. induction s as [|c s IH]; [done|]. unfold str_bytes in *. rewrite bind_cons, forallb_app.
  cbn [forallb]. rewrite !andb_true_iff, IH. destruct (Z.ltb_spec c 0x80) as [Hc|Hc].
  { assert (encode_utf8 c = [c]) as -> by (unfold encode_utf8; by rewrite (proj2 (Z.ltb_lt _ _))).
    cbn [forallb app]. rewrite andb_true_r. split; [intros (? & ? & Hs); by rewrite Hs|].
    by intros ((? & ?) & [= ?]). }
  assert (P c = false) as -> by (apply not_true_iff_false; intros ?%HP; lia).
  split; [|naive_solver]. intros [Hf _]. exfalso. revert Hf. unfold encode_utf8.
  destruct (Z.ltb_spec c 0x80); [lia|]. destruct (c <? 0x800); [|destruct (c <? 0x10000)];
    simpl; intros [Hf%HP _]%andb_true_iff; Z.div_mod_to_equations; lia.
Qed.

Lemma str_bytes_id s : Forall (λ c, c < 0x80) s → str_bytes s = s.
Proof.
  induction 1 as [|c s Hc _ IH]; [done|]. unfold str_bytes in *. rewrite bind_cons, IH.
  unfold encode_utf8. destruct (Z.ltb_spec c 0x80); [done|lia].
Qed.

Lemma str_bytes_length s : Z.of_nat (length (str_bytes s)) = str_len s.
Proof.
  unfold str_bytes, str_len. induction s as [|c s IH]; [done|]. rewrite bind_cons, length_app. cbn [foldr]. rewrite <-IH.
  unfold encode_utf8, len_utf8. repeat case_match; cbn [length]; lia.
Qed.

(** ** Sorting *)

(** [sort_by_key]: stable. *)
Fixpoint sorted_insert {A} (before : A → A → bool) (x : A) (l : list A) : list A :=
  match l with
  | [] => [x]
  | y :: l => if before x y then x :: y :: l else y :: sorted_insert before x l
  end.

Definition sort_by {A} (before : A → A → bool) (l : list A) : list A := foldr (sorted_insert before) [] l.

(** The order of strings: of their characters, the shorter one first. *)
Fixpoint str_leb (a b : str) : bool :=
  match a, b with
  | [], _ => true
  | _ :: _, [] => false
  | x :: a, y :: b => (x <? y) || ((x =? y) && str_leb a b)
  end.

Section sorting.
Context {A : Type} (before : A → A → bool).

Lemma sorted_insert_perm x l : sorted_insert before x l ≡ₚ x :: l.
Proof. induction l as [|y l IH]; simpl; [done|]. destruct (before x y); [done|]. rewrite IH. constructor. Qed.

Lemma sort_by_perm l : sort_by before l ≡ₚ l.
Proof. unfold sort_by. induction l as [|x l IH]; simpl; [done|]. by rewrite sorted_insert_perm, IH. Qed.

(** A list in order is left as it is. *)
Lemma sort_by_id l : StronglySorted (λ x y, before x y = true) l → sort_by before l = l.
Proof.
  induction 1 as [|x l Hs IH Hx]; simpl; [done|]. unfold sort_by in *. simpl. rewrite IH.
  destruct Hx as [|y l Hy _]; simpl; [done|]. by rewrite Hy.
Qed.

Context (Htotal : ∀ x y, before x y = true ∨ before y x = true)
        (Htrans : ∀ x y z, before x y = true → before y z = true → before x z = true).

Lemma sort_by_sorted l : StronglySorted (λ x y, before x y = true) (sort_by before l).
Proof using Htotal Htrans.
  induction l as [|x l IH]; [constructor|]. unfold sort_by. simpl. fold (sort_by before l).
  induction IH as [|y l' Hs IH' Hy]; simpl; [by repeat constructor|].
  destruct (before x y) eqn:Hb.
  - constructor; [by constructor|]. constructor; [done|]. eapply Forall_impl; [exact Hy|]. eauto.
  - constructor; [done|]. rewrite sorted_insert_perm. constructor; [|done]. destruct (Htotal x y); congruence.
Qed.

(** Lists with the same elements, whose order is strict, sort alike. *)
Lemma sort_by_unique l l' :
  l ≡ₚ l' → (∀ x y, x ∈ l → y ∈ l → before x y = true → before y x = true → x = y) →
  sort_by before l = sort_by before l'.
Proof using Htotal Htrans.
  intros Hp Hanti.
  assert (∀ k k', StronglySorted (λ x y, before x y = true) k → StronglySorted (λ x y, before x y = true) k' →
    k ≡ₚ k' → k ⊆ l → k = k') as Huniq.
  { induction k as [|x k IH]; intros k' Hs Hs' Hk Hsub; [by apply Permutation_nil_l in Hk|].
    destruct k' as [|y k']; [by apply Permutation_nil_r in Hk|].
    apply StronglySorted_inv in Hs as [Hs Hx], Hs' as [Hs' Hy].
    assert (x = y) as ->.
    { assert (x ∈ y :: k') as [->|Hin]%elem_of_cons by (rewrite <-Hk; set_solver); [done|].
      assert (y ∈ x :: k) as [->|Hin']%elem_of_cons by (rewrite Hk; set_solver); [done|].
      rewrite Forall_forall in Hx, Hy. apply Hanti; [set_solver..|by apply Hx|by apply Hy]. }
    f_equal. apply IH; [done..|by apply Permutation_cons_inv in Hk|set_solver]. }
  apply Huniq; [apply sort_by_sorted..|by rewrite !sort_by_perm|]. intros x. by rewrite sort_by_perm.
Qed.
End sorting.

Lemma str_leb_total a b : str_leb a b = true ∨ str_leb b a = true.
Proof.
  revert b. induction a as [|x a IH]; intros [|y b]; simpl; eauto.
  rewrite !orb_true_iff, !andb_true_iff, !Z.ltb_lt, !Z.eqb_eq. destruct (Z.lt_total x y) as [?|[->|?]]; naive_solver.
Qed.

Lemma str_leb_trans a b c : str_leb a b = true → str_leb b c = true → str_leb a c = true.
Proof.
  revert b c. induction a as [|x a IH]; intros [|y b] [|z c]; simpl; try done.
  rewrite !orb_true_iff, !andb_true_iff, !Z.ltb_lt, !Z.eqb_eq. intros [?|[-> ?]] [?|[-> ?]]; [left; lia..|eauto].
Qed.

Lemma str_leb_antisym a b : str_leb a b = true → str_leb b a = true → a = b.
Proof.
  revert b. induction a as [|x a IH]; intros [|y b]; simpl; try done.
  rewrite !orb_true_iff, !andb_true_iff, !Z.ltb_lt, !Z.eqb_eq. intros [?|[-> ?]] [?|[? ?]]; try lia. f_equal. eauto.
Qed.
