(* ===== verification/Utf8.v ===== *)
(** * Decoding UTF-8 and big-endian integers

    [String::from_utf8], the inverse of [str::as_bytes], and the byte order
    conversions of the unsigned integers. *)

From S2P Require Import Prelude RustStd.

(** ** UTF-8 *)

(** The first scalar value of a byte string, and the bytes after it. The
    ranges of the first continuation byte exclude overlong forms, surrogates
    and values above [0x10FFFF]. *)
Definition decode_char (bytes : list Z) : option (Z * list Z) :=
  match bytes with
  | [] => None
  | b :: rest =>
      if (0 <=? b) && (b <? 0x80) then Some (b, rest)
      else if (0xC2 <=? b) && (b <=? 0xDF) then
        match rest with
        | b1 :: rest =>
            if is_cont b1 then Some ((b - 0xC0) * 64 + (b1 - 0x80), rest) else None
        | _ => None
        end
      else if (0xE0 <=? b) && (b <=? 0xEF) then
        match rest with
        | b1 :: b2 :: rest =>
            if (if b =? 0xE0 then (0xA0 <=? b1) && (b1 <=? 0xBF)
                else if b =? 0xED then (0x80 <=? b1) && (b1 <=? 0x9F)
                else is_cont b1) && is_cont b2
            then Some ((b - 0xE0) * 4096 + (b1 - 0x80) * 64 + (b2 - 0x80), rest) else None
        | _ => None
        end
      else if (0xF0 <=? b) && (b <=? 0xF4) then
        match rest with
        | b1 :: b2 :: b3 :: rest =>
            if (if b =? 0xF0 then (0x90 <=? b1) && (b1 <=? 0xBF)
                else if b =? 0xF4 then (0x80 <=? b1) && (b1 <=? 0x8F)
                else is_cont b1) && is_cont b2 && is_cont b3
            then Some ((b - 0xF0) * 262144 + (b1 - 0x80) * 4096 + (b2 - 0x80) * 64 + (b3 - 0x80), rest)
            else None
        | _ => None
        end
      else None
  end.

Fixpoint decode_chars (fuel : nat) (bytes : list Z) : option str :=
  match fuel, bytes with
  | _, [] => Some []
  | O, _ => None
  | S fuel, _ =>
      match decode_char bytes with
      | Some (c, rest) => (λ s, c :: s) <$> decode_chars fuel rest
      | None => None
      end
  end.

(** [String::from_utf8]; every round consumes a byte. *)
Definition from_utf8 (bytes : list Z) : option str := decode_chars (length bytes) bytes.

Lemma encode_two b0 b1 :
  0xC2 ≤ b0 ≤ 0xDF → 0x80 ≤ b1 ≤ 0xBF → encode_utf8 ((b0 - 0xC0) * 64 + (b1 - 0x80)) = [b0; b1].
Proof.
  intros. unfold encode_utf8. rewrite (proj2 (Z.ltb_ge _ 128)), (proj2 (Z.ltb_lt _ 2048)) by lia.
  repeat f_equal; Z.div_mod_to_equations; lia.
Qed.

Lemma encode_three b0 b1 b2 :
  0xE0 ≤ b0 ≤ 0xEF → 0x80 ≤ b1 ≤ 0xBF → 0x80 ≤ b2 ≤ 0xBF → (b0 = 0xE0 → 0xA0 ≤ b1) →
  encode_utf8 ((b0 - 0xE0) * 4096 + (b1 - 0x80) * 64 + (b2 - 0x80)) = [b0; b1; b2].
Proof.
  intros. unfold encode_utf8.
  rewrite (proj2 (Z.ltb_ge _ 128)), (proj2 (Z.ltb_ge _ 2048)), (proj2 (Z.ltb_lt _ 65536)) by lia.
  repeat f_equal; Z.div_mod_to_equations; lia.
Qed.

Lemma encode_four b0 b1 b2 b3 :
  0xF0 ≤ b0 ≤ 0xF4 → 0x80 ≤ b1 ≤ 0xBF → 0x80 ≤ b2 ≤ 0xBF → 0x80 ≤ b3 ≤ 0xBF → (b0 = 0xF0 → 0x90 ≤ b1) →
  encode_utf8 ((b0 - 0xF0) * 262144 + (b1 - 0x80) * 4096 + (b2 - 0x80) * 64 + (b3 - 0x80)) =
  [b0; b1; b2; b3].
Proof.
  intros. unfold encode_utf8.
  rewrite (proj2 (Z.ltb_ge _ 128)), (proj2 (Z.ltb_ge _ 2048)), (proj2 (Z.ltb_ge _ 65536)) by lia.
  repeat f_equal; Z.div_mod_to_equations; lia.
Qed.

(** Case analysis on the outermost test of the goal. *)
Ltac destruct_if H :=
  lazymatch goal with
  | |- (if ?b then _ else _) = _ → _ => destruct b eqn:H
  | |- (if ?b then _ else _) = _ => destruct b eqn:H
  end.

(** What is decoded is a scalar value, written the one way UTF-8 writes it. *)
Lemma decode_char_Some bytes c rest :
  decode_char bytes = Some (c, rest) → is_scalar c = true ∧ bytes = encode_utf8 c ++ rest.
Proof.
  unfold decode_char, is_cont, is_scalar. destruct bytes as [|b0 bs]; [done|].
  destruct ((0 <=? b0) && (b0 <? 0x80)) eqn:H0.
  { intros [= <- <-]. unfold encode_utf8. rewrite (proj2 (Z.ltb_lt b0 128)) by lia. split; [lia|done]. }
  destruct ((0xC2 <=? b0) && (b0 <=? 0xDF)) eqn:H1.
  { destruct bs as [|b1 bs]; [done|]. destruct ((0x80 <=? b1) && _) eqn:Hc; [|done]. intros [= <- <-].
    rewrite encode_two by lia. split; [lia|done]. }
  destruct ((0xE0 <=? b0) && (b0 <=? 0xEF)) eqn:H2.
  { destruct bs as [|b1 [|b2 bs]]; [done..|]. destruct_if Hc; [|done]. intros [= <- <-].
    assert (0x80 ≤ b1 ≤ 0xBF ∧ 0x80 ≤ b2 ≤ 0xBF ∧ (b0 = 0xE0 → 0xA0 ≤ b1) ∧ (b0 = 0xED → b1 ≤ 0x9F)) as (?&?&?&?)
      by (destruct (Z.eqb_spec b0 0xE0), (Z.eqb_spec b0 0xED); lia).
    rewrite encode_three by lia. split; [lia|done]. }
  destruct ((0xF0 <=? b0) && (b0 <=? 0xF4)) eqn:H3; [|done].
  destruct bs as [|b1 [|b2 [|b3 bs]]]; [done..|]. destruct_if Hc; [|done]. intros [= <- <-].
  assert (0x80 ≤ b1 ≤ 0xBF ∧ 0x80 ≤ b2 ≤ 0xBF ∧ 0x80 ≤ b3 ≤ 0xBF ∧
    (b0 = 0xF0 → 0x90 ≤ b1) ∧ (b0 = 0xF4 → b1 ≤ 0x8F)) as (?&?&?&?&?)
    by (destruct (Z.eqb_spec b0 0xF0), (Z.eqb_spec b0 0xF4); lia).
  rewrite encode_four by lia. split; [lia|done].
Qed.

(** Settle the outermost test on bytes within known bounds. *)
Ltac decide_if :=
  let H := fresh in
  destruct_if H; try (exfalso; revert H;
    repeat match goal with |- context [if ?a =? ?b then _ else _] => destruct (Z.eqb_spec a b) end; lia).

Lemma decode_char_encode c rest :
  is_scalar c = true → decode_char (encode_utf8 c ++ rest) = Some (c, rest).
Proof.
  unfold is_scalar, encode_utf8, decode_char, is_cont. intros Hc.
  destruct (Z.ltb_spec c 0x80); [|destruct (Z.ltb_spec c 0x800); [|destruct (Z.ltb_spec c 0x10000)]];
    cbn [app].
  - decide_if. done.
  - assert (2 ≤ c / 64 < 32 ∧ 0 ≤ c mod 64 < 64) as [? ?] by (Z.div_mod_to_equations; lia).
    do 3 decide_if. repeat f_equal. Z.div_mod_to_equations; lia.
  - assert (0 ≤ c / 4096 < 16 ∧ 0 ≤ c / 64 mod 64 < 64 ∧ 0 ≤ c mod 64 < 64 ∧
      (c / 4096 = 0 → 32 ≤ c / 64 mod 64) ∧ (c / 4096 = 13 → c / 64 mod 64 < 32))
      as (?&?&?&?&?) by (Z.div_mod_to_equations; lia).
    do 4 decide_if. repeat f_equal. Z.div_mod_to_equations; lia.
  - assert (0 ≤ c / 262144 < 5 ∧ 0 ≤ c / 4096 mod 64 < 64 ∧ 0 ≤ c / 64 mod 64 < 64 ∧ 0 ≤ c mod 64 < 64 ∧
      (c / 262144 = 0 → 16 ≤ c / 4096 mod 64) ∧ (c / 262144 = 4 → c / 4096 mod 64 < 16))
      as (?&?&?&?&?&?) by (Z.div_mod_to_equations; lia).
    do 5 decide_if. repeat f_equal. Z.div_mod_to_equations; lia.
Qed.

Lemma decode_chars_encode fuel s :
  forallb is_scalar s = true → (length (str_bytes s) ≤ fuel)%nat → decode_chars fuel (str_bytes s) = Some s.
Proof.
  revert fuel. induction s as [|c s IH]; intros fuel; cbn [forallb]; [by destruct fuel|].
  intros [Hc Hs]%andb_true_iff. unfold str_bytes in *. rewrite bind_cons, length_app.
  assert (∃ b bs, encode_utf8 c = b :: bs) as (b & bs & Hb).
  { unfold encode_utf8. repeat case_match; by eexists _, _. }
  intros Hl. destruct fuel as [|fuel]; [rewrite Hb in Hl; simpl in Hl; lia|].
  pose proof (decode_char_encode c (s ≫= encode_utf8) Hc) as Hd.
  rewrite Hb in *. simpl in Hd, Hl |- *. rewrite Hd, IH by (done || lia). done.
Qed.

Lemma decode_chars_Some fuel bytes s :
  decode_chars fuel bytes = Some s → forallb is_scalar s = true ∧ bytes = str_bytes s.
Proof.
  revert bytes s. induction fuel as [|fuel IH]; intros [|b bs] s; cbn [decode_chars];
    try (by intros [= <-]).
  destruct (decode_char (b :: bs)) as [[c rest]|] eqn:Hd; [|done].
  apply decode_char_Some in Hd as [Hc ->].
  destruct (decode_chars fuel rest) as [s'|] eqn:Hr; [|done]. intros [= <-].
  destruct (IH _ _ Hr) as [Hs ->]. cbn [forallb]. by rewrite Hc, Hs.
Qed.

(** Decoding is the inverse of encoding, and accepts nothing else. *)
Lemma from_utf8_Some bytes s :
  from_utf8 bytes = Some s ↔ forallb is_scalar s = true ∧ bytes = str_bytes s.
Proof.
  split; [apply decode_chars_Some|]. intros [Hs ->]. by apply decode_chars_encode.
Qed.

(** ** Big-endian integers *)

(** [to_be_bytes] of an integer of [n] bytes. *)
Fixpoint to_be_bytes (n : nat) (x : Z) : list Z :=
  match n with
  | O => []
  | S n => to_be_bytes n (x / 256) ++ [x mod 256]
  end.

(** [from_be_bytes]. *)
Definition from_be_bytes (bytes : list Z) : Z := foldl (λ x b, x * 256 + b) 0 bytes.

Definition is_byte (b : Z) : Prop := 0 ≤ b < 256.

Lemma to_be_bytes_length n x : length (to_be_bytes n x) = n.
Proof. revert x. induction n as [|n IH]; intros x; simpl; [done|]. rewrite length_app, IH. simpl. lia. Qed.

Lemma to_be_bytes_byte n x : Forall is_byte (to_be_bytes n x).
Proof.
  revert x. induction n as [|n IH]; intros x; simpl; [constructor|].
  apply Forall_app. split; [apply IH|]. apply Forall_singleton, Z.mod_pos_bound. lia.
Qed.

Lemma from_to_be_bytes n x : 0 ≤ x < 256 ^ Z.of_nat n → from_be_bytes (to_be_bytes n x) = x.
Proof.
  unfold from_be_bytes. revert x. induction n as [|n IH]; intros x Hx; simpl to_be_bytes.
  { simpl in *. lia. }
  rewrite foldl_snoc, IH; [Z.div_mod_to_equations; lia|].
  rewrite Nat2Z.inj_succ, Z.pow_succ_r in Hx by lia. Z.div_mod_to_equations; lia.
Qed.

Lemma to_from_be_bytes l : Forall is_byte l → to_be_bytes (length l) (from_be_bytes l) = l.
Proof.
  unfold from_be_bytes. induction l as [|b l IH] using rev_ind; [done|].
  intros [Hl [Hb _]%Forall_cons]%Forall_app. unfold is_byte in Hb. rewrite length_app, Nat.add_comm. simpl.
  rewrite foldl_snoc. set (x := foldl _ 0 l) in *.
  replace ((x * 256 + b) / 256) with x by (Z.div_mod_to_equations; lia).
  replace ((x * 256 + b) mod 256) with b by (Z.div_mod_to_equations; lia). by rewrite IH.
Qed.

Lemma from_be_bytes_range l :
  Forall is_byte l → 0 ≤ from_be_bytes l < 256 ^ Z.of_nat (length l).
Proof.
  unfold from_be_bytes. induction l as [|b l IH] using rev_ind; [simpl; lia|].
  intros [Hl [Hb _]%Forall_cons]%Forall_app. unfold is_byte in Hb. rewrite foldl_snoc, length_app, Nat.add_comm.
  rewrite Nat2Z.inj_succ, Z.pow_succ_r by lia. specialize (IH Hl). lia.
Qed.
