(* ===== verification/Layout.v ===== *)
(** * The layout tree of a Dojo ([splinterm-core/src/layout.rs])

    Splints, the binary tree that arranges them, and the tree's edits: split a
    leaf, move the ratio of an ancestor branch, remove a leaf. *)

From stdpp Require Import gmap.
From S2P Require Import Prelude RustStd.

(** ** Data *)

(** A UUID, as the 128-bit number it is. *)
Abbreviation SplintId := Z (only parsing).

Inductive Axis := Horizontal | Vertical.

Inductive SplitSide := First | Second.

(** The share of the first child, in thousandths. *)
Abbreviation SplitRatio := Z (only parsing).
Definition SplitRatio_MIN : Z := 1.
Definition SplitRatio_MAX : Z := 999.

(** [SplitRatio::new]: [Err] gives the rejected value back. *)
Definition SplitRatio_new (value : Z) : outcome Z SplitRatio :=
  if (SplitRatio_MIN <=? value) && (value <=? SplitRatio_MAX) then Ok value else Err value.

Inductive SplintState :=
| Starting
| Running
| Exited (code : Z).

Record SplintLaunchMetadata := {
  shell : option str;
  login_shell : bool;
  scrollback_lines : Z;
  launch_columns : Z;
  launch_rows : Z;
  relaunch_on_restore : bool;
}.

Definition SplintLaunchMetadata_default : SplintLaunchMetadata := {|
  shell := None;
  login_shell := false;
  scrollback_lines := 10000;
  launch_columns := 80;
  launch_rows := 24;
  relaunch_on_restore := false;
|}.

(** [cwd] is a [PathBuf]: an operating-system string, that is, bytes. *)
Record Splint := {
  splint_id : SplintId;
  title : str;
  cwd : list Z;
  command : list str;
  launch : SplintLaunchMetadata;
  last_incarnation : option Z;
  state : SplintState;
}.

(** [Splint::shell]; the identifier is the one [SplintId::new] drew. *)
Definition Splint_shell (id : SplintId) (cwd : list Z) : Splint := {|
  splint_id := id;
  title := lit "shell";
  cwd := cwd;
  command := [];
  launch := SplintLaunchMetadata_default;
  last_incarnation := None;
  state := Starting;
|}.

(** [matches!(state, SplintState::Exited(_))]. *)
Definition is_exited (st : SplintState) : bool :=
  match st with Exited _ => true | _ => false end.

Inductive LayoutNode :=
| Leaf (splint : Splint)
| Branch (axis : Axis) (ratio : SplitRatio) (first second : LayoutNode).

#[global] Instance Axis_eq_dec : EqDecision Axis.
Proof. solve_decision. Defined.
#[global] Instance SplintState_eq_dec : EqDecision SplintState.
Proof. solve_decision. Defined.
#[global] Instance SplintLaunchMetadata_eq_dec : EqDecision SplintLaunchMetadata.
Proof. solve_decision. Defined.
#[global] Instance Splint_eq_dec : EqDecision Splint.
Proof. solve_decision. Defined.
#[global] Instance LayoutNode_eq_dec : EqDecision LayoutNode.
Proof. solve_decision. Defined.

(** ** Operations *)

Fixpoint splint_count (node : LayoutNode) : Z :=
  match node with
  | Leaf _ => 1
  | Branch _ _ first second => splint_count first + splint_count second
  end.

Fixpoint find_splint (node : LayoutNode) (id : SplintId) : option Splint :=
  match node with
  | Leaf splint => if splint_id splint =? id then Some splint else None
  | Branch _ _ first second =>
      match find_splint first id with
      | Some s => Some s
      | None => find_splint second id
      end
  end.

Fixpoint find_splint_mut (node : LayoutNode) (id : SplintId)
    : option (borrow Splint LayoutNode) :=
  match node with
  | Leaf splint => if splint_id splint =? id then Some (splint, Leaf) else None
  | Branch axis ratio first second =>
      match find_splint_mut first id with
      | Some (s, back) => Some (s, λ s', Branch axis ratio (back s') second)
      | None =>
          match find_splint_mut second id with
          | Some (s, back) => Some (s, λ s', Branch axis ratio first (back s'))
          | None => None
          end
      end
  end.

Fixpoint first_splint_id (node : LayoutNode) : SplintId :=
  match node with
  | Leaf splint => splint_id splint
  | Branch _ _ first _ => first_splint_id first
  end.

(** [split]: the returned flag and the tree left behind [&mut self]. *)
Fixpoint split (node : LayoutNode) (target : SplintId) (new_splint : Splint)
    (axis : Axis) (side : SplitSide) (ratio : SplitRatio) : bool * LayoutNode :=
  match node with
  | Leaf splint =>
      if splint_id splint =? target then
        let target := Leaf splint in
        let inserted := Leaf new_splint in
        let '(first, second) :=
          match side with
          | First => (inserted, target)
          | Second => (target, inserted)
          end in
        (true, Branch axis ratio first second)
      else (false, node)
  | Branch axis0 ratio0 first second =>
      match find_splint first target with
      | Some _ =>
          let '(done, first') := split first target new_splint axis side ratio in
          (done, Branch axis0 ratio0 first' second)
      | None =>
          let '(done, second') := split second target new_splint axis side ratio in
          (done, Branch axis0 ratio0 first second')
      end
  end.

(** [Vec::pop], its result dropped. *)
Definition pop {A} (l : list A) : list A := take (length l - 1)%nat l.

(** The local [path_to_target]: the flag and the path left in the vector. *)
Fixpoint path_to_target (node : LayoutNode) (target : SplintId) (path : list bool)
    : bool * list bool :=
  match node with
  | Leaf splint => (splint_id splint =? target, path)
  | Branch _ _ first second =>
      match path_to_target first target (path ++ [false]) with
      | (true, path) => (true, path)
      | (false, path) =>
          match path_to_target second target (pop path ++ [true]) with
          | (true, path) => (true, path)
          | (false, path) => (false, pop path)
          end
      end
  end.

(** The descent along the path and the write at its end. *)
Fixpoint set_ratio_along (node : LayoutNode) (path : list bool) (ratio : SplitRatio)
    : bool * LayoutNode :=
  match path, node with
  | [], Branch axis _ first second => (true, Branch axis ratio first second)
  | [], Leaf _ => (false, node)
  | step :: path, Branch axis r first second =>
      if step then
        let '(ok, second') := set_ratio_along second path ratio in
        (ok, Branch axis r first second')
      else
        let '(ok, first') := set_ratio_along first path ratio in
        (ok, Branch axis r first' second)
  | _ :: _, Leaf _ => (false, node)
  end.

Definition set_ancestor_ratio (node : LayoutNode) (target : SplintId) (ancestor : Z)
    (ratio : SplitRatio) : bool * LayoutNode :=
  let '(found, path) := path_to_target node target [] in
  if negb found || (Z.of_nat (length path) <=? ancestor) then (false, node)
  else
    let branch_depth := Z.of_nat (length path) - 1 - ancestor in
    set_ratio_along node (take (Z.to_nat branch_depth) path) ratio.

Fixpoint all_exited (node : LayoutNode) : bool :=
  match node with
  | Leaf splint => is_exited (state splint)
  | Branch _ _ first second => all_exited first && all_exited second
  end.

(** [remove]: [Ok] with what is left of the tree, or [Err] with the tree. *)
Fixpoint remove (node : LayoutNode) (target : SplintId)
    : outcome LayoutNode (option LayoutNode) :=
  match node with
  | Leaf splint => if splint_id splint =? target then Ok None else Err node
  | Branch axis ratio first second =>
      match remove first target with
      | Ok None => Ok (Some second)
      | Ok (Some first) => Ok (Some (Branch axis ratio first second))
      | Err first =>
          match remove second target with
          | Ok None => Ok (Some first)
          | Ok (Some second) => Ok (Some (Branch axis ratio first second))
          | Err second => Err (Branch axis ratio first second)
          | Panic => Panic
          end
      | Panic => Panic
      end
  end.

(** ** Specification vocabulary *)

(** The Splints in reading order. *)
Fixpoint leaves (node : LayoutNode) : list Splint :=
  match node with
  | Leaf splint => [splint]
  | Branch _ _ first second => leaves first ++ leaves second
  end.

Definition leaf_ids (node : LayoutNode) : list SplintId := splint_id <$> leaves node.

(** The subtree at the end of a path ([true] goes to the second child). *)
Fixpoint node_at (node : LayoutNode) (path : list bool) : option LayoutNode :=
  match path, node with
  | [], _ => Some node
  | step :: path, Branch _ _ first second => node_at (if step then second else first) path
  | _ :: _, Leaf _ => None
  end.

(** What a tree shows at a path: a Splint, or a branch's axis; and its ratio. *)
Definition shape_at (node : LayoutNode) (path : list bool) : option (Splint + Axis) :=
  match node_at node path with
  | Some (Leaf s) => Some (inl s)
  | Some (Branch axis _ _ _) => Some (inr axis)
  | None => None
  end.

Definition ratio_at (node : LayoutNode) (path : list bool) : option SplitRatio :=
  match node_at node path with
  | Some (Branch _ ratio _ _) => Some ratio
  | _ => None
  end.

(** Every branch leaves space for both children. *)
Fixpoint ratios_valid (node : LayoutNode) : Prop :=
  match node with
  | Leaf _ => True
  | Branch _ ratio first second =>
      1 ≤ ratio ≤ 999 ∧ ratios_valid first ∧ ratios_valid second
  end.

(** ** Lookup lemmas *)

Lemma find_splint_leaves node id :
  find_splint node id = find_first (λ s, splint_id s =? id) (leaves node).
Proof.
  induction node as [s|ax r f IHf g IHg]; simpl.
  - unfold find_first. simpl. by destruct (_ =? _).
  - unfold find_first in *. rewrite find_map_app, IHf, IHg. done.
Qed.

Lemma find_splint_id node id s : find_splint node id = Some s → splint_id s = id.
Proof.
  rewrite find_splint_leaves.
  intros (?&?&?&?%Z.eqb_eq&?)%find_first_Some. done.
Qed.

Lemma find_splint_elem node id s : find_splint node id = Some s → s ∈ leaves node.
Proof.
  rewrite find_splint_leaves.
  intros (l1&l2&->&?&?)%find_first_Some. set_solver.
Qed.

Lemma find_splint_None node id : find_splint node id = None ↔ id ∉ leaf_ids node.
Proof.
  rewrite find_splint_leaves, find_first_None, Forall_forall.
  unfold leaf_ids. rewrite list_elem_of_fmap. split.
  - intros H (s & -> & Hs). specialize (H s Hs). lia.
  - intros H s Hs. apply Z.eqb_neq. naive_solver.
Qed.

Lemma find_splint_is_Some node id : is_Some (find_splint node id) ↔ id ∈ leaf_ids node.
Proof.
  pose proof (find_splint_None node id) as H.
  destruct (find_splint node id) as [s|] eqn:Hf.
  - split; [|by eauto]. intros _.
    apply find_splint_elem in Hf as ?. apply find_splint_id in Hf as <-.
    unfold leaf_ids. apply list_elem_of_fmap. eauto.
  - split; [intros [? ?]; done|]. naive_solver.
Qed.

(** Identifiers that do not repeat make lookup by identifier exact. *)
Lemma find_splint_unique node s :
  NoDup (leaf_ids node) → s ∈ leaves node → find_splint node (splint_id s) = Some s.
Proof.
  unfold leaf_ids. intros Hnd Hs. rewrite find_splint_leaves.
  induction (leaves node) as [|s' l IH]; [set_solver|].
  unfold find_first in *. simpl in *. apply NoDup_cons in Hnd as [Hni Hnd].
  destruct (Z.eqb_spec (splint_id s') (splint_id s)) as [Heq|].
  - apply elem_of_cons in Hs as [->|Hs]; [done|]. exfalso. apply Hni.
    rewrite Heq. apply list_elem_of_fmap. eauto.
  - apply IH; [done|]. apply elem_of_cons in Hs as [->|]; [congruence|done].
Qed.

(** A mutable lookup borrows the first matching leaf and nothing else. *)
Lemma find_splint_mut_Some node id s back :
  find_splint_mut node id = Some (s, back) →
  find_splint node id = Some s ∧
  ∃ l1 l2, leaves node = l1 ++ s :: l2 ∧
    Forall (λ y, splint_id y ≠ id) l1 ∧
    ∀ s', leaves (back s') = l1 ++ s' :: l2 ∧
          (ratios_valid node → ratios_valid (back s')).
Proof.
  revert s back. induction node as [s0|ax r f IHf g IHg]; intros s back; simpl.
  - destruct (_ =? _); [|done]. intros [= -> <-]. split; [done|]. exists [], []. done.
  - destruct (find_splint_mut f id) as [[s1 back1]|] eqn:Hf.
    + intros [= -> <-]. destruct (IHf s back1) as (-> & l1 & l2 & -> & ? & Hb); [done|].
      split; [done|]. exists l1, (l2 ++ leaves g). split_and!; [by rewrite <-app_assoc|done|].
      intros s'. simpl. rewrite (proj1 (Hb s')), <-app_assoc. naive_solver.
    + destruct (find_splint_mut g id) as [[s1 back1]|] eqn:Hg; [|done].
      intros [= -> <-]. destruct (IHg s back1) as (-> & l1 & l2 & -> & Hl1 & Hb); [done|].
      assert (find_splint f id = None) as Hn.
      { clear -Hf. induction f as [s1|ax r f1 IH1 f2 IH2]; simpl in *.
        - by destruct (_ =? _).
        - destruct (find_splint_mut f1 id) as [[??]|]; [done|].
          destruct (find_splint_mut f2 id) as [[??]|]; [done|].
          rewrite IH1 by done. by apply IH2. }
      rewrite Hn. split; [done|]. exists (leaves f ++ l1), l2.
      split_and!; [by rewrite <-app_assoc| |].
      * apply Forall_app. split; [|done].
        rewrite find_splint_leaves, find_first_None in Hn.
        eapply Forall_impl; [exact Hn|]. simpl. intros. lia.
      * intros s'. simpl. rewrite (proj1 (Hb s')), <-app_assoc. naive_solver.
Qed.

Lemma find_splint_mut_None node id :
  find_splint_mut node id = None ↔ find_splint node id = None.
Proof.
  induction node as [s0|ax r f IHf g IHg]; simpl.
  - by destruct (_ =? _).
  - destruct (find_splint_mut f id) as [[??]|], (find_splint f id); try naive_solver.
    destruct (find_splint_mut g id) as [[??]|]; naive_solver.
Qed.

Lemma splint_count_leaves node : splint_count node = Z.of_nat (length (leaves node)).
Proof.
  induction node as [s|ax r f IHf g IHg]; simpl; [done|].
  rewrite length_app. lia.
Qed.

Lemma leaves_nonempty node : leaves node ≠ [].
Proof. induction node; simpl; [done|]. by destruct (leaves node1). Qed.

Lemma first_splint_id_leaves node : first_splint_id node ∈ leaf_ids node.
Proof.
  unfold leaf_ids. induction node as [s|ax r f IHf g IHg]; simpl; [set_solver|].
  rewrite fmap_app. set_solver.
Qed.

Lemma all_exited_leaves node :
  all_exited node = true ↔ Forall (λ s, is_exited (state s) = true) (leaves node).
Proof.
  induction node as [s|ax r f IHf g IHg]; simpl.
  - by rewrite Forall_singleton.
  - rewrite andb_true_iff, Forall_app. naive_solver.
Qed.

(** ** Splitting *)

(** The pair a split puts in the target's place. *)
Definition split_pair (side : SplitSide) (new target : Splint) : list Splint :=
  match side with First => [new; target] | Second => [target; new] end.

Lemma split_spec node target new axis side ratio s :
  find_splint node target = Some s →
  ∃ node' l1 l2, split node target new axis side ratio = (true, node') ∧
    leaves node = l1 ++ s :: l2 ∧ Forall (λ y, splint_id y ≠ target) l1 ∧
    leaves node' = l1 ++ split_pair side new s ++ l2.
Proof.
  induction node as [s0|ax r f IHf g IHg]; simpl.
  - destruct (_ =? _); [|done]. intros [= ->].
    destruct side; eexists _, [], []; done.
  - destruct (find_splint f target) as [s1|] eqn:Hf.
    + intros [= ->]. destruct IHf as (f' & l1 & l2 & -> & -> & ? & Hl); [done|].
      exists (Branch ax r f' g), l1, (l2 ++ leaves g). simpl. rewrite Hl.
      split_and!; [done|by rewrite <-app_assoc|done|by rewrite <-!app_assoc].
    + intros Hg. destruct IHg as (g' & l1 & l2 & -> & -> & ? & Hl); [done|].
      exists (Branch ax r f g'), (leaves f ++ l1), l2. simpl. rewrite Hl.
      split_and!; [done|by rewrite <-app_assoc| |by rewrite <-!app_assoc].
      apply Forall_app. split; [|done].
      rewrite find_splint_leaves, find_first_None in Hf.
      eapply Forall_impl; [exact Hf|]. simpl. intros. lia.
Qed.

Lemma split_missing node target new axis side ratio :
  find_splint node target = None →
  split node target new axis side ratio = (false, node).
Proof.
  induction node as [s0|ax r f IHf g IHg]; simpl.
  - by destruct (_ =? _).
  - destruct (find_splint f target); [done|]. intros H. by rewrite IHg.
Qed.

Lemma split_ratios_valid node target new axis side ratio :
  ratios_valid node → 1 ≤ ratio ≤ 999 →
  ratios_valid (split node target new axis side ratio).2.
Proof.
  intros Hv Hr. induction node as [s0|ax r f IHf g IHg]; simpl in *.
  - destruct (_ =? _); [|done]. by destruct side.
  - destruct (find_splint f target).
    + destruct (split f _ _ _ _ _) as [? f']; simpl in *. naive_solver.
    + destruct (split g _ _ _ _ _) as [? g']; simpl in *. naive_solver.
Qed.

(** ** Removal *)

Lemma remove_spec node target s :
  find_splint node target = Some s →
  ∃ l1 l2, leaves node = l1 ++ s :: l2 ∧ Forall (λ y, splint_id y ≠ target) l1 ∧
    match remove node target with
    | Ok None => l1 = [] ∧ l2 = []
    | Ok (Some node') => leaves node' = l1 ++ l2 ∧ (ratios_valid node → ratios_valid node')
    | _ => False
    end.
Proof.
  induction node as [s0|ax r f IHf g IHg]; simpl.
  - destruct (_ =? _); [|done]. intros [= ->]. by exists [], [].
  - destruct (find_splint f target) as [s1|] eqn:Hf.
    + intros [= ->]. destruct IHf as (l1 & l2 & -> & ? & Hr); [done|].
      exists l1, (l2 ++ leaves g). split_and!; [by rewrite <-app_assoc|done|].
      destruct (remove f target) as [[f'|]| |]; try done; simpl.
      * destruct Hr as [-> ?]. rewrite <-app_assoc. naive_solver.
      * destruct Hr as [-> ->]. simpl. naive_solver.
    + intros Hg. assert (remove f target = Err f) as ->.
      { clear -Hf. induction f as [s1|ax r f1 IH1 f2 IH2]; simpl in *.
        - by destruct (_ =? _).
        - destruct (find_splint f1 target); [done|]. by rewrite IH1, IH2. }
      destruct IHg as (l1 & l2 & -> & ? & Hr); [done|].
      exists (leaves f ++ l1), l2. split_and!; [by rewrite <-app_assoc| |].
      { apply Forall_app. split; [|done].
        rewrite find_splint_leaves, find_first_None in Hf.
        eapply Forall_impl; [exact Hf|]. simpl. intros. lia. }
      destruct (remove g target) as [[g'|]| |]; try done; simpl.
      * destruct Hr as [-> ?]. rewrite <-app_assoc. naive_solver.
      * destruct Hr as [-> ->]. rewrite !app_nil_r. naive_solver.
Qed.

Lemma remove_missing node target :
  find_splint node target = None → remove node target = Err node.
Proof.
  induction node as [s1|ax r f IHf g IHg]; simpl.
  - by destruct (_ =? _).
  - destruct (find_splint f target); [done|]. intros. by rewrite IHf, IHg.
Qed.

(** Closing the leaf a split inserted gives the old tree back: the branch the
    split made collapses and no other branch or ratio changes. *)
Lemma remove_split node target new axis side ratio :
  is_Some (find_splint node target) →
  find_splint node (splint_id new) = None →
  remove (split node target new axis side ratio).2 (splint_id new) = Ok (Some node).
Proof.
  induction node as [s0|ax r f IHf g IHg]; simpl; intros Ht Hn.
  - destruct (splint_id s0 =? target); [|by destruct Ht].
    destruct (splint_id s0 =? splint_id new) eqn:Hs; [done|].
    destruct side; simpl; rewrite Z.eqb_refl; [done|]. by rewrite Hs.
  - destruct (find_splint f (splint_id new)) eqn:Hfn; [done|].
    destruct (find_splint f target) as [s1|] eqn:Hf.
    + specialize (IHf ltac:(done) ltac:(done)).
      destruct (split f _ _ _ _ _) as [? f']. simpl in *. by rewrite IHf.
    + specialize (IHg Ht Hn).
      destruct (split g _ _ _ _ _) as [? g']. simpl in *.
      by rewrite (remove_missing f), IHg.
Qed.

(** ** Ancestor ratios *)

(** The path to the first leaf with an identifier. *)
Fixpoint leaf_path (node : LayoutNode) (target : SplintId) : option (list bool) :=
  match node with
  | Leaf splint => if splint_id splint =? target then Some [] else None
  | Branch _ _ first second =>
      match leaf_path first target with
      | Some p => Some (false :: p)
      | None => cons true <$> leaf_path second target
      end
  end.

Lemma pop_snoc {A} (l : list A) x : pop (l ++ [x]) = l.
Proof.
  unfold pop. rewrite length_app. simpl.
  replace (length l + 1 - 1)%nat with (length l) by lia. by rewrite take_app_length.
Qed.

(** The search with a shared vector computes the path, and leaves the vector
    as it was when there is none. *)
Lemma path_to_target_spec node target path :
  path_to_target node target path =
  match leaf_path node target with
  | Some p => (true, path ++ p)
  | None => (false, path)
  end.
Proof.
  revert path. induction node as [s|ax r f IHf g IHg]; intros path; simpl.
  - destruct (_ =? _); [by rewrite app_nil_r|done].
  - rewrite IHf. destruct (leaf_path f target).
    + by rewrite <-app_assoc.
    + rewrite pop_snoc, IHg. destruct (leaf_path g target); simpl.
      * by rewrite <-app_assoc.
      * by rewrite pop_snoc.
Qed.

Lemma leaf_path_node_at node target p :
  leaf_path node target = Some p →
  ∃ s, find_splint node target = Some s ∧ node_at node p = Some (Leaf s).
Proof.
  revert p. induction node as [s|ax r f IHf g IHg]; intros p; simpl.
  - destruct (_ =? _); [|done]. intros [= <-]. eauto.
  - destruct (leaf_path f target) as [p1|] eqn:Hf.
    + intros [= <-]. destruct (IHf p1) as (s & -> & ?); [done|]. eauto.
    + destruct (leaf_path g target) as [p1|]; [|done]. intros [= <-].
      destruct (IHg p1) as (s & ? & ?); [done|].
      assert (find_splint f target = None) as ->; [|by eauto].
      clear -Hf. induction f as [s1|ax r f1 IH1 f2 IH2]; simpl in *.
      * by destruct (_ =? _).
      * destruct (leaf_path f1 target); [done|].
        destruct (leaf_path f2 target); [done|]. by rewrite IH1, IH2.
Qed.

Lemma leaf_path_None node target :
  leaf_path node target = None ↔ find_splint node target = None.
Proof.
  split.
  - induction node as [s|ax r f IHf g IHg]; simpl; [by destruct (_ =? _)|].
    destruct (leaf_path f target); [done|].
    destruct (leaf_path g target); [done|]. intros. by rewrite IHf, IHg.
  - destruct (leaf_path node target) as [p|] eqn:H; [|done].
    apply leaf_path_node_at in H as (s & -> & ?). done.
Qed.

(** Writing along a path that ends on a branch changes that branch's ratio
    and nothing else. *)
Lemma set_ratio_along_spec node path ratio old :
  ratio_at node path = Some old →
  ∃ node', set_ratio_along node path ratio = (true, node') ∧
    (∀ q, shape_at node' q = shape_at node q) ∧
    (∀ q, ratio_at node' q = if decide (q = path) then Some ratio else ratio_at node q).
Proof.
  revert path. induction node as [s|ax r f IHf g IHg]; intros [|step path]; try done.
  - intros _. eexists. split; [done|]. split; intros [|b q]; done.
  - unfold ratio_at at 1. simpl. intros Hr. destruct step.
    + destruct (IHg path Hr) as (g' & -> & Hs & Hq). eexists. split; [done|].
      split; intros [|[] q]; try done; [apply Hs|].
      unfold ratio_at in *. simpl. rewrite Hq.
      destruct (decide (q = path)), (decide (true :: q = true :: path)); naive_solver.
    + destruct (IHf path Hr) as (f' & -> & Hs & Hq). eexists. split; [done|].
      split; intros [|[] q]; try done; [apply Hs|].
      unfold ratio_at in *. simpl. rewrite Hq.
      destruct (decide (q = path)), (decide (false :: q = false :: path)); naive_solver.
Qed.

Lemma ratio_at_prefix node p s n :
  node_at node p = Some (Leaf s) → (n < length p)%nat →
  is_Some (ratio_at node (take n p)).
Proof.
  revert p n. induction node as [s0|ax r f IHf g IHg]; intros [|b p] n; simpl; try lia; [done|].
  intros Hp Hn. destruct n as [|n]; [by eexists|]. simpl.
  destruct b; [apply (IHg p n)|apply (IHf p n)]; auto; lia.
Qed.

Lemma set_ratio_along_leaves node path ratio :
  leaves (set_ratio_along node path ratio).2 = leaves node ∧
  (1 ≤ ratio ≤ 999 → ratios_valid node →
   ratios_valid (set_ratio_along node path ratio).2).
Proof.
  revert path. induction node as [s|ax r f IHf g IHg]; intros [|step path]; simpl; try done.
  - naive_solver.
  - destruct step.
    + specialize (IHg path). destruct (set_ratio_along g path ratio); simpl in *.
      destruct IHg as [-> ?]. naive_solver.
    + specialize (IHf path). destruct (set_ratio_along f path ratio); simpl in *.
      destruct IHf as [-> ?]. naive_solver.
Qed.

Lemma set_ancestor_ratio_leaves node target ancestor ratio :
  leaves (set_ancestor_ratio node target ancestor ratio).2 = leaves node ∧
  (1 ≤ ratio ≤ 999 → ratios_valid node →
   ratios_valid (set_ancestor_ratio node target ancestor ratio).2).
Proof.
  unfold set_ancestor_ratio. destruct (path_to_target _ _ _) as [found path].
  destruct (_ || _); [done|]. apply set_ratio_along_leaves.
Qed.

Lemma set_ancestor_ratio_false node target ancestor ratio node' :
  0 ≤ ancestor →
  set_ancestor_ratio node target ancestor ratio = (false, node') → node' = node.
Proof.
  unfold set_ancestor_ratio. rewrite path_to_target_spec. intros Ha.
  destruct (leaf_path node target) as [p|] eqn:Hp; simpl; [|naive_solver].
  destruct (Z.leb_spec (Z.of_nat (length p)) ancestor); [naive_solver|].
  apply leaf_path_node_at in Hp as (s & _ & Hs).
  destruct (ratio_at_prefix node p s (Z.to_nat (Z.of_nat (length p) - 1 - ancestor)))
    as [old Hold]; [done|lia|].
  destruct (set_ratio_along_spec _ _ ratio _ Hold) as (n' & -> & _). naive_solver.
Qed.
