(* ===== verification/Topology.v ===== *)
(** * The topology of Lairs, Dojos and Splints ([splinterm-core/src/model.rs])

    The daemon's in-memory model and every transaction on it. A transaction
    takes [&mut self]: it is a computation in the monad of the prelude over the
    [Topology], so a mutation made before an early error return would show.
    Identifiers drawn with [Uuid::new_v4] are arguments of the operations that
    draw them. *)

From stdpp Require Import gmap.
From S2P Require Import Prelude RustStd Layout.

(** ** Data *)

Abbreviation LairId := Z (only parsing).
Abbreviation DojoId := Z (only parsing).
Abbreviation TopologyRevision := Z (only parsing).

Definition MAX_NAME_BYTES : Z := 128.

Record Dojo := {
  dojo_id : DojoId;
  dojo_name : str;
  default_focus : SplintId;
  root : LayoutNode;
}.

Inductive LairLifetime := Persistent | Transient.

Definition is_persistent (l : LairLifetime) : bool :=
  match l with Persistent => true | Transient => false end.

Inductive LairRetention := Disposable | Saved | Pinned.

Definition is_protected (r : LairRetention) : bool :=
  match r with Saved | Pinned => true | Disposable => false end.

Record Lair := {
  lair_id : LairId;
  lair_name : str;
  lifetime : LairLifetime;
  retention : LairRetention;
  provenance : option str;
  dojos : list Dojo;
}.

Record Topology := {
  revision : TopologyRevision;
  lairs : btree Lair;
}.

Inductive TopologyError :=
| EmptyName
| NameTooLong
| DuplicateLairName (name : str)
| LairNotFound (id : LairId)
| DuplicateLairId (id : LairId)
| TransientLairRetention (id : LairId)
| DojoNotFound (id : DojoId)
| DefaultDojoNameExhausted
| EmptyDojoSet
| DuplicateDojoId (id : DojoId)
| DojoStillLive (id : DojoId)
| InvalidDojoDefaultFocus (dojo_id : DojoId) (splint_id : SplintId)
| SplintNotFound (id : SplintId)
| DuplicateSplintId (id : SplintId)
| SplintStillLive (id : SplintId)
| SplintHasNoParent (id : SplintId)
| StaleTopology (expected current : TopologyRevision).

#[global] Instance Dojo_eq_dec : EqDecision Dojo.
Proof. solve_decision. Defined.
#[global] Instance LairLifetime_eq_dec : EqDecision LairLifetime.
Proof. solve_decision. Defined.
#[global] Instance LairRetention_eq_dec : EqDecision LairRetention.
Proof. solve_decision. Defined.
#[global] Instance Lair_eq_dec : EqDecision Lair.
Proof. solve_decision. Defined.

(** Field updates. *)
Definition set_dojo_root (r : LayoutNode) (d : Dojo) : Dojo :=
  {| dojo_id := dojo_id d; dojo_name := dojo_name d;
     default_focus := default_focus d; root := r |}.
Definition set_dojo_name (n : str) (d : Dojo) : Dojo :=
  {| dojo_id := dojo_id d; dojo_name := n;
     default_focus := default_focus d; root := root d |}.
Definition set_dojo_focus (f : SplintId) (d : Dojo) : Dojo :=
  {| dojo_id := dojo_id d; dojo_name := dojo_name d;
     default_focus := f; root := root d |}.
Definition set_lair_dojos (ds : list Dojo) (l : Lair) : Lair :=
  {| lair_id := lair_id l; lair_name := lair_name l; lifetime := lifetime l;
     retention := retention l; provenance := provenance l; dojos := ds |}.
Definition set_lair_name (n : str) (l : Lair) : Lair :=
  {| lair_id := lair_id l; lair_name := n; lifetime := lifetime l;
     retention := retention l; provenance := provenance l; dojos := dojos l |}.
Definition set_lair_lifetime (x : LairLifetime) (l : Lair) : Lair :=
  {| lair_id := lair_id l; lair_name := lair_name l; lifetime := x;
     retention := retention l; provenance := provenance l; dojos := dojos l |}.
Definition set_lair_retention (x : LairRetention) (l : Lair) : Lair :=
  {| lair_id := lair_id l; lair_name := lair_name l; lifetime := lifetime l;
     retention := x; provenance := provenance l; dojos := dojos l |}.
Definition set_lairs (m : btree Lair) (t : Topology) : Topology :=
  {| revision := revision t; lairs := m |}.
Definition set_title (x : str) (s : Splint) : Splint :=
  {| splint_id := splint_id s; title := x; cwd := cwd s; command := command s;
     launch := launch s; last_incarnation := last_incarnation s; state := state s |}.
Definition set_launch (x : SplintLaunchMetadata) (s : Splint) : Splint :=
  {| splint_id := splint_id s; title := title s; cwd := cwd s; command := command s;
     launch := x; last_incarnation := last_incarnation s; state := state s |}.
Definition set_incarnation (x : option Z) (s : Splint) : Splint :=
  {| splint_id := splint_id s; title := title s; cwd := cwd s; command := command s;
     launch := launch s; last_incarnation := x; state := state s |}.
Definition set_state (x : SplintState) (s : Splint) : Splint :=
  {| splint_id := splint_id s; title := title s; cwd := cwd s; command := command s;
     launch := launch s; last_incarnation := last_incarnation s; state := x |}.
Definition set_dimensions (columns rows : Z) (l : SplintLaunchMetadata) : SplintLaunchMetadata :=
  {| shell := shell l; login_shell := login_shell l; scrollback_lines := scrollback_lines l;
     launch_columns := columns; launch_rows := rows;
     relaunch_on_restore := relaunch_on_restore l |}.

(** ** Construction *)

(** [generated_lair_name]. *)
Definition generated_lair_name (stamp_nanos process_id : Z) : str :=
  lit "terminal-" ++ to_string stamp_nanos ++ lit "-" ++ to_string process_id.

(** [Dojo::with_shell]; the two identifiers are the ones drawn for the Splint
    and the Dojo. *)
Definition Dojo_with_shell (new_splint new_dojo : Z) (name : str) (cwd : list Z) : Dojo :=
  let splint := Splint_shell new_splint cwd in
  {| dojo_id := new_dojo; dojo_name := name;
     default_focus := splint_id splint; root := Leaf splint |}.

(** The identifiers one [Lair::with_lifetime] draws. *)
Record LairDraw := { draw_lair : Z; draw_splint : Z; draw_dojo : Z }.

Definition Lair_with_lifetime (draw : LairDraw) (name : str) (cwd : list Z)
    (lifetime : LairLifetime) : Lair := {|
  lair_id := draw_lair draw;
  lair_name := name;
  lifetime := lifetime;
  retention := Disposable;
  provenance := None;
  dojos := [Dojo_with_shell (draw_splint draw) (draw_dojo draw) (lit "Dojo 1") cwd];
|}.

Definition Lair_new (draw : LairDraw) (name : str) (cwd : list Z) : Lair :=
  Lair_with_lifetime draw name cwd Persistent.

Definition Lair_transient (draw : LairDraw) (name : str) (cwd : list Z) : Lair :=
  Lair_with_lifetime draw name cwd Transient.

(** The canonical number of a default Dojo name, if it is one. *)
Definition default_dojo_number (name : str) : option Z :=
  match strip_prefix (lit "Dojo ") name with
  | None => None
  | Some suffix =>
      match parse_u64 suffix with
      | None => None
      | Some number =>
          if (0 <? number) && bool_decide (suffix = to_string number)
          then Some number else None
      end
  end.

Definition next_default_dojo_name (lair : Lair) : outcome TopologyError str :=
  let highest :=
    foldr Z.max 0 (omap default_dojo_number (dojo_name <$> dojos lair)) in
  match checked_add64 highest 1 with
  | None => Err DefaultDojoNameExhausted
  | Some next => Ok (lit "Dojo " ++ to_string next)
  end.

(** ** Names *)

Definition normalized_name (value : str) : outcome TopologyError str :=
  let trimmed := trim value in
  if bool_decide (trimmed = []) then Err EmptyName
  else if MAX_NAME_BYTES <? str_len trimmed then Err NameTooLong
  else Ok trimmed.

Definition validate_name (value : str) : outcome TopologyError unit :=
  map_ok (λ _, tt) (normalized_name value).

(** ** Lookup *)

Definition Topology_new : Topology := {| revision := 0; lairs := [] |}.

Definition find_lair (t : Topology) (id : LairId) : option Lair := bt_get (lairs t) id.

(** [self.lairs.values().flat_map(|lair| &lair.dojos)]. *)
Definition all_dojos (t : Topology) : list Dojo := bt_values (lairs t) ≫= dojos.

Definition find_dojo (t : Topology) (id : DojoId) : option Dojo :=
  find_first (λ d, dojo_id d =? id) (all_dojos t).

Definition find_splint_in (t : Topology) (id : SplintId) : option Splint :=
  find_map (λ d, find_splint (root d) id) (all_dojos t).

(** [self.lairs.values_mut().find_map(f)]. *)
Definition lairs_find_mut {B} (f : Lair → option (borrow B Lair)) (t : Topology)
    : option (borrow B Topology) :=
  match find_map_mut
          (λ '(k, lair),
            match f lair with
            | Some (b, back) => Some (b, λ b', (k, back b'))
            | None => None
            end) (lairs t)
  with
  | Some (b, back) => Some (b, λ b', set_lairs (back b') t)
  | None => None
  end.

(** [.values_mut().flat_map(|lair| &mut lair.dojos).find_map(f)]. *)
Definition dojos_find_mut {B} (f : Dojo → option (borrow B Dojo)) (t : Topology)
    : option (borrow B Topology) :=
  lairs_find_mut
    (λ lair,
      match find_map_mut f (dojos lair) with
      | Some (b, back) => Some (b, λ b', set_lair_dojos (back b') lair)
      | None => None
      end) t.

(** The same searches for a Dojo or a Lair satisfying a predicate. *)
Definition find_dojo_where (p : Dojo → bool) : Topology → option (borrow Dojo Topology) :=
  dojos_find_mut (λ d, if p d then Some (d, id) else None).

Definition find_lair_where (p : Lair → bool) : Topology → option (borrow Lair Topology) :=
  lairs_find_mut (λ l, if p l then Some (l, id) else None).

Definition find_dojo_mut (t : Topology) (id : DojoId) : option (borrow Dojo Topology) :=
  find_dojo_where (λ d, dojo_id d =? id) t.

Definition find_splint_in_mut (t : Topology) (id : SplintId)
    : option (borrow Splint Topology) :=
  dojos_find_mut
    (λ d, match find_splint_mut (root d) id with
          | Some (s, back) => Some (s, λ s', set_dojo_root (back s') d)
          | None => None
          end) t.

(** [self.lairs.get_mut(&id)]. *)
Definition lair_get_mut (t : Topology) (id : LairId) : option (borrow Lair Topology) :=
  match bt_get_mut (lairs t) id with
  | Some (l, back) => Some (l, λ l', set_lairs (back l') t)
  | None => None
  end.

(** ** Validation *)

Fixpoint collect_new_splint_ids (t : Topology) (node : LayoutNode) (ids : gset Z)
    : outcome TopologyError (gset Z) :=
  match node with
  | Leaf splint =>
      if bool_decide (is_Some (find_splint_in t (splint_id splint)))
         || bool_decide (splint_id splint ∈ ids)
      then Err (DuplicateSplintId (splint_id splint))
      else Ok ({[splint_id splint]} ∪ ids)
  | Branch _ _ first second =>
      let? ids := collect_new_splint_ids t first ids in
      collect_new_splint_ids t second ids
  end.

Fixpoint validate_new_dojos_loop (t : Topology) (ds : list Dojo) (dojo_ids splint_ids : gset Z)
    : outcome TopologyError unit :=
  match ds with
  | [] => Ok tt
  | dojo :: ds =>
      let? _ := validate_name (dojo_name dojo) in
      if bool_decide (is_Some (find_dojo t (dojo_id dojo)))
         || bool_decide (dojo_id dojo ∈ dojo_ids)
      then Err (DuplicateDojoId (dojo_id dojo))
      else
        match find_splint (root dojo) (default_focus dojo) with
        | None => Err (InvalidDojoDefaultFocus (dojo_id dojo) (default_focus dojo))
        | Some _ =>
            let? splint_ids := collect_new_splint_ids t (root dojo) splint_ids in
            validate_new_dojos_loop t ds ({[dojo_id dojo]} ∪ dojo_ids) splint_ids
        end
  end.

Definition validate_new_dojos (t : Topology) (ds : list Dojo) : outcome TopologyError unit :=
  validate_new_dojos_loop t ds ∅ ∅.

(** [self.lairs.values().any(|lair| lair.name == name)]. *)
Definition name_taken (t : Topology) (name : str) : bool :=
  existsb (λ l, bool_decide (lair_name l = name)) (bt_values (lairs t)).

(** [... any(|lair| lair.id != id && lair.name == name)]. *)
Definition name_taken_by_other (t : Topology) (id : LairId) (name : str) : bool :=
  existsb (λ l, negb (lair_id l =? id) && bool_decide (lair_name l = name))
    (bt_values (lairs t)).

(** ** Transactions *)

Abbreviation T := (M Topology TopologyError).

Definition check_revision (expected : TopologyRevision) : T unit :=
  let! t := get in
  reject_if (negb (expected =? revision t)) (StaleTopology expected (revision t)).

(** Panics when the revision is exhausted. *)
Definition advance_revision : T unit :=
  let! t := get in
  let! next := expect (checked_add64 (revision t) 1) in
  put {| revision := next; lairs := lairs t |}.

(** [self.advance_revision(); Ok(self.revision)]. *)
Definition commit : T TopologyRevision :=
  do! advance_revision in
  let! t := get in
  ret (revision t).

Definition insert_lair_at (expected : TopologyRevision) (lair : Lair) : T TopologyRevision :=
  do! check_revision expected in
  do! lift (validate_name (lair_name lair)) in
  let! t := get in
  do! reject_if (bt_contains (lairs t) (lair_id lair)) (DuplicateLairId (lair_id lair)) in
  do! reject_if (name_taken t (lair_name lair)) (DuplicateLairName (lair_name lair)) in
  do! lift (validate_new_dojos t (dojos lair)) in
  do! modify (λ t, set_lairs (bt_insert (lairs t) (lair_id lair) lair) t) in
  commit.

Definition create_lair_at (draw : LairDraw) (expected : TopologyRevision) (name : str)
    (cwd : list Z) : T Lair :=
  do! check_revision expected in
  let! name := lift (normalized_name name) in
  let! t := get in
  do! reject_if (name_taken t name) (DuplicateLairName name) in
  let lair := Lair_new draw name cwd in
  let id := lair_id lair in
  do! insert_lair_at expected lair in
  let! t := get in
  expect (bt_get (lairs t) id).

Definition create_lair (draw : LairDraw) (name : str) (cwd : list Z) : T Lair :=
  let! t := get in
  create_lair_at draw (revision t) name cwd.

Definition remove_lair (id : LairId) : T (option Lair) :=
  let! t := get in
  let removed := bt_get (lairs t) id in
  do! modify (λ t, set_lairs (bt_remove (lairs t) id) t) in
  match removed with
  | Some _ => do! advance_revision in ret removed
  | None => ret removed
  end.

Definition replace_lair_at (expected : TopologyRevision) (removed_id : LairId)
    (inserted : Lair) : T TopologyRevision :=
  do! check_revision expected in
  do! lift (validate_name (lair_name inserted)) in
  let! t := get in
  do! reject_if ((removed_id =? lair_id inserted) || negb (bt_contains (lairs t) removed_id))
        (LairNotFound removed_id) in
  do! reject_if (bt_contains (lairs t) (lair_id inserted))
        (DuplicateLairId (lair_id inserted)) in
  do! reject_if (name_taken_by_other t removed_id (lair_name inserted))
        (DuplicateLairName (lair_name inserted)) in
  do! lift (validate_new_dojos t (dojos inserted)) in
  do! modify (λ t, set_lairs (bt_remove (lairs t) removed_id) t) in
  do! modify (λ t, set_lairs (bt_insert (lairs t) (lair_id inserted) inserted) t) in
  commit.

Definition split_splint_at (expected : TopologyRevision) (target : SplintId)
    (new_splint : Splint) (axis : Axis) (side : SplitSide) (ratio : SplitRatio)
    : T TopologyRevision :=
  do! check_revision expected in
  let! t := get in
  do! reject_if (bool_decide (is_Some (find_splint_in t (splint_id new_splint))))
        (DuplicateSplintId (splint_id new_splint)) in
  let! (dojo, back) :=
    ok_or (find_dojo_where (λ d, bool_decide (is_Some (find_splint (root d) target))) t)
      (SplintNotFound target) in
  let '(inserted, root') := split (root dojo) target new_splint axis side ratio in
  do! put (back (set_dojo_root root' dojo)) in
  do! reject_if (negb inserted) (SplintNotFound target) in
  commit.

Definition split_splint (target : SplintId) (new_splint : Splint) (axis : Axis)
    (side : SplitSide) (ratio : SplitRatio) : T TopologyRevision :=
  let! t := get in
  split_splint_at (revision t) target new_splint axis side ratio.

(** The inner loop of [close_splint_at]: [None] when no Dojo of this Lair
    shows the Splint, and the loop goes on. *)
Fixpoint close_in_dojos (ds : list Dojo) (id : SplintId)
    : option (outcome TopologyError (list Dojo)) :=
  match ds with
  | [] => None
  | dojo :: ds =>
      match find_splint (root dojo) id with
      | None => map_ok (cons dojo) <$> close_in_dojos ds id
      | Some _ =>
          Some match remove (root dojo) id with
               | Ok (Some root') =>
                   let dojo := set_dojo_root root' dojo in
                   let dojo := if default_focus dojo =? id
                               then set_dojo_focus (first_splint_id (root dojo)) dojo
                               else dojo in
                   Ok (dojo :: ds)
               | Ok None => Ok ds
               | Err _ => Err (SplintNotFound id)
               | Panic => Panic
               end
      end
  end.

Fixpoint close_in_lairs (m : btree Lair) (id : SplintId) : outcome TopologyError (btree Lair) :=
  match m with
  | [] => Ok []
  | (k, lair) :: m =>
      match close_in_dojos (dojos lair) id with
      | Some r => map_ok (λ ds, (k, set_lair_dojos ds lair) :: m) r
      | None => map_ok (cons (k, lair)) (close_in_lairs m id)
      end
  end.

Definition close_splint_at (expected : TopologyRevision) (id : SplintId)
    : T TopologyRevision :=
  do! check_revision expected in
  let! t := get in
  let! splint := ok_or (find_splint_in t id) (SplintNotFound id) in
  do! reject_if (negb (is_exited (state splint))) (SplintStillLive id) in
  let! m := lift (close_in_lairs (lairs t) id) in
  do! put (set_lairs m t) in
  commit.

Definition close_splint (id : SplintId) : T TopologyRevision :=
  let! t := get in
  close_splint_at (revision t) id.

Definition set_split_ratio_at (expected : TopologyRevision) (target : SplintId)
    (ancestor : Z) (ratio : SplitRatio) : T TopologyRevision :=
  do! check_revision expected in
  let! t := get in
  let! (dojo, back) :=
    ok_or (find_dojo_where (λ d, bool_decide (is_Some (find_splint (root d) target))) t)
      (SplintNotFound target) in
  let '(changed, root') := set_ancestor_ratio (root dojo) target ancestor ratio in
  do! put (back (set_dojo_root root' dojo)) in
  do! reject_if (negb changed) (SplintHasNoParent target) in
  commit.

Definition new_dojo_with_promotion_at (expected : TopologyRevision) (lair_id : LairId)
    (dojo : Dojo) (promote_transient_lair : bool) : T (TopologyRevision * bool) :=
  do! check_revision expected in
  let! t := get in
  do! lift (validate_new_dojos t [dojo]) in
  let! (lair, back) := ok_or (lair_get_mut t lair_id) (LairNotFound lair_id) in
  let promoted := promote_transient_lair && bool_decide (lifetime lair = Transient) in
  let lair := if promoted then set_lair_lifetime Persistent lair else lair in
  do! put (back (set_lair_dojos (dojos lair ++ [dojo]) lair)) in
  let! r := commit in
  ret (r, promoted).

Definition new_dojo_at (expected : TopologyRevision) (lair_id : LairId) (dojo : Dojo)
    : T TopologyRevision :=
  let! (r, _) := new_dojo_with_promotion_at expected lair_id dojo false in
  ret r.

Definition materialize_dojos_at (expected : TopologyRevision) (lair_id' : LairId)
    (rename : option str) (ds : list Dojo) : T TopologyRevision :=
  do! check_revision expected in
  do! reject_if (bool_decide (ds = [])) EmptyDojoSet in
  let! t := get in
  do! lift (validate_new_dojos t ds) in
  let! rename := match rename with
                 | None => ret None
                 | Some name => lift (map_ok Some (normalized_name name))
                 end in
  do! match rename with
      | Some name => reject_if (name_taken_by_other t lair_id' name) (DuplicateLairName name)
      | None => ret tt
      end in
  let! (lair, back) := ok_or (lair_get_mut t lair_id') (LairNotFound lair_id') in
  let lair := match rename with Some name => set_lair_name name lair | None => lair end in
  do! put (back (set_lair_dojos (dojos lair ++ ds) lair)) in
  commit.

(** [new_id] is the identifier [LairId::new] draws. *)
Definition materialize_lair_with_provenance_at (new_id : LairId)
    (expected : TopologyRevision) (name : str) (ds : list Dojo) (prov : option str)
    : T (LairId * TopologyRevision) :=
  do! check_revision expected in
  do! reject_if (bool_decide (ds = [])) EmptyDojoSet in
  let! name := lift (normalized_name name) in
  let! t := get in
  do! reject_if (name_taken t name) (DuplicateLairName name) in
  do! lift (validate_new_dojos t ds) in
  do! modify (λ t, set_lairs (bt_insert (lairs t) new_id
        {| lair_id := new_id; lair_name := name; lifetime := Persistent;
           retention := Disposable; provenance := prov; dojos := ds |}) t) in
  let! r := commit in
  ret (new_id, r).

Definition materialize_lair_at (new_id : LairId) (expected : TopologyRevision) (name : str)
    (ds : list Dojo) : T (LairId * TopologyRevision) :=
  materialize_lair_with_provenance_at new_id expected name ds None.

Definition has_dojo (id : DojoId) (lair : Lair) : bool :=
  existsb (λ d, dojo_id d =? id) (dojos lair).

(** [iter().position(p)]. *)
Fixpoint position {A} (p : A → bool) (l : list A) : option nat :=
  match l with
  | [] => None
  | x :: l => if p x then Some O else S <$> position p l
  end.

Definition remove_dojo_at (expected : TopologyRevision) (dojo_id' : DojoId)
    (allow_live : bool) : T TopologyRevision :=
  do! check_revision expected in
  let! t := get in
  let! (lair, back) := ok_or (find_lair_where (has_dojo dojo_id') t) (DojoNotFound dojo_id') in
  let! index := ok_or (position (λ d, dojo_id d =? dojo_id') (dojos lair))
                  (DojoNotFound dojo_id') in
  let! dojo := expect (dojos lair !! index) in
  do! reject_if (negb allow_live && negb (all_exited (root dojo))) (DojoStillLive dojo_id') in
  do! put (back (set_lair_dojos (delete index (dojos lair)) lair)) in
  commit.

Definition close_dojo_at (expected : TopologyRevision) (id : DojoId) : T TopologyRevision :=
  remove_dojo_at expected id false.

Definition terminate_dojo_at (expected : TopologyRevision) (id : DojoId) : T TopologyRevision :=
  remove_dojo_at expected id true.

Definition terminate_lair_at (expected : TopologyRevision) (id : LairId) : T TopologyRevision :=
  do! check_revision expected in
  let! t := get in
  let removed := bt_get (lairs t) id in
  do! modify (λ t, set_lairs (bt_remove (lairs t) id) t) in
  do! ok_or removed (LairNotFound id) in
  commit.

Definition set_lair_retention_at (expected : TopologyRevision) (id : LairId)
    (new : LairRetention) : T TopologyRevision :=
  do! check_revision expected in
  let! t := get in
  let! (lair, back) := ok_or (lair_get_mut t id) (LairNotFound id) in
  do! reject_if (negb (is_persistent (lifetime lair))) (TransientLairRetention id) in
  do! put (back (set_lair_retention new lair)) in
  commit.

Definition rename_lair_at (expected : TopologyRevision) (id : LairId) (name : str)
    : T TopologyRevision :=
  do! check_revision expected in
  let! name := lift (normalized_name name) in
  let! t := get in
  do! reject_if (name_taken_by_other t id name) (DuplicateLairName name) in
  let! (lair, back) := ok_or (lair_get_mut t id) (LairNotFound id) in
  do! put (back (set_lair_name name lair)) in
  commit.

Definition rename_dojo_with_promotion_at (expected : TopologyRevision) (id : DojoId)
    (name : str) (promote_transient_lair : bool) : T (TopologyRevision * bool) :=
  do! check_revision expected in
  let! name := lift (normalized_name name) in
  let! t := get in
  let! (lair, back) := ok_or (find_lair_where (has_dojo id) t) (DojoNotFound id) in
  let promoted := promote_transient_lair && bool_decide (lifetime lair = Transient) in
  let lair := if promoted then set_lair_lifetime Persistent lair else lair in
  do! put (back lair) in
  let! (dojo, dback) := ok_or (find_mut (λ d, dojo_id d =? id) (dojos lair)) (DojoNotFound id) in
  do! put (back (set_lair_dojos (dback (set_dojo_name name dojo)) lair)) in
  let! r := commit in
  ret (r, promoted).

Definition rename_dojo_at (expected : TopologyRevision) (id : DojoId) (name : str)
    : T TopologyRevision :=
  let! (r, _) := rename_dojo_with_promotion_at expected id name false in
  ret r.

Definition set_dojo_default_focus_at (expected : TopologyRevision) (id : DojoId)
    (splint : SplintId) : T TopologyRevision :=
  do! check_revision expected in
  let! t := get in
  let! (dojo, back) := ok_or (find_dojo_mut t id) (DojoNotFound id) in
  do! reject_if (negb (bool_decide (is_Some (find_splint (root dojo) splint))))
        (InvalidDojoDefaultFocus id splint) in
  do! put (back (set_dojo_focus splint dojo)) in
  commit.

Definition rename_splint_at (expected : TopologyRevision) (id : SplintId) (name : str)
    : T TopologyRevision :=
  do! check_revision expected in
  let! name := lift (normalized_name name) in
  let! t := get in
  let! (splint, back) := ok_or (find_splint_in_mut t id) (SplintNotFound id) in
  do! put (back (set_title name splint)) in
  commit.

(** The record [commit_relaunch] leaves behind. *)
Definition relaunched (cwd' : list Z) (command' : list str) (s : Splint) : Splint :=
  {| splint_id := splint_id s; title := title s; cwd := cwd'; command := command';
     launch := launch s; last_incarnation := last_incarnation s; state := Running |}.

Definition commit_relaunch (id : SplintId) (cwd' : list Z) (command' : list str) : T unit :=
  let! t := get in
  let! (splint, back) := ok_or (find_splint_in_mut t id) (SplintNotFound id) in
  do! reject_if (negb (is_exited (state splint))) (SplintStillLive id) in
  put (back (relaunched cwd' command' splint)).

(** [self.find_splint_mut(id).is_some_and(|splint| ...)]: the closure's flag and
    the Splint it leaves. *)
Definition with_splint (id : SplintId) (f : Splint → bool * Splint) : T bool :=
  let! t := get in
  match find_splint_in_mut t id with
  | None => ret false
  | Some (splint, back) =>
      let '(flag, splint') := f splint in
      do! put (back splint') in ret flag
  end.

Definition set_splint_launch_metadata (id : SplintId) (l : SplintLaunchMetadata) : T bool :=
  with_splint id (λ s, (true, set_launch l s)).

Definition set_splint_last_incarnation (id : SplintId) (incarnation : Z) : T bool :=
  with_splint id (λ s, (true, set_incarnation (Some incarnation) s)).

Definition set_splint_dimensions (id : SplintId) (columns rows : Z) : T bool :=
  with_splint id (λ s,
    let changed := negb (launch_columns (launch s) =? columns)
                   || negb (launch_rows (launch s) =? rows) in
    (changed, set_launch (set_dimensions columns rows (launch s)) s)).

Definition set_splint_state (id : SplintId) (st : SplintState) : T bool :=
  with_splint id (λ s, (true, set_state st s)).
