(* ===== verification/TopologyInv.v ===== *)
(** * The topology's invariant

    Well-formedness of a [Topology]: entries in key order under their own
    identifiers, Lair names usable and unique, Dojo and Splint identifiers
    unique over the whole topology, every Dojo focused on one of its own
    Splints, every split ratio leaving space for both children. *)

From stdpp Require Import gmap.
From S2P Require Import Prelude RustStd Layout Topology.

Definition name_ok (n : str) : Prop := is_ok (normalized_name n) = true.

Record dojo_ok (d : Dojo) : Prop := {
  dojo_ok_name : name_ok (dojo_name d);
  dojo_ok_focus : default_focus d ∈ leaf_ids (root d);
  dojo_ok_ratios : ratios_valid (root d);
}.

Definition lair_dojo_ids (l : Lair) : list Z := dojo_id <$> dojos l.
Definition dojo_splint_ids (d : Dojo) : list Z := leaf_ids (root d).
Definition lair_splint_ids (l : Lair) : list Z := dojos l ≫= dojo_splint_ids.

(** The Lairs as a collection, whatever their order. *)
Record lairs_ok (L : list Lair) : Prop := {
  ok_name : Forall (λ l, name_ok (lair_name l)) L;
  ok_names : NoDup (lair_name <$> L);
  ok_dojo_ids : NoDup (L ≫= lair_dojo_ids);
  ok_splint_ids : NoDup (L ≫= lair_splint_ids);
  ok_dojos : Forall (λ l, Forall dojo_ok (dojos l)) L;
}.

Record topology_wf (t : Topology) : Prop := {
  wf_sorted : bt_wf (lairs t);
  wf_keys : Forall (λ '(k, l), lair_id l = k) (lairs t);
  wf_lairs : lairs_ok (bt_values (lairs t));
  wf_revision : 0 ≤ revision t ≤ u64_max;
}.

Definition all_splint_ids (t : Topology) : list Z := bt_values (lairs t) ≫= lair_splint_ids.
Definition all_dojo_ids (t : Topology) : list Z := bt_values (lairs t) ≫= lair_dojo_ids.

#[export] Instance lairs_ok_perm : Proper ((≡ₚ) ==> iff) lairs_ok.
Proof.
  assert (∀ L L' : list Lair, L ≡ₚ L' → lairs_ok L → lairs_ok L') as H.
  { intros L L' HL [????]. split.
    - by rewrite <-HL.
    - by rewrite <-HL.
    - by rewrite <-HL.
    - by rewrite <-HL.
    - by rewrite <-HL. }
  intros L L' HL. split; by apply H.
Qed.

Lemma lairs_ok_cons l L :
  lairs_ok (l :: L) ↔
    name_ok (lair_name l) ∧ lair_name l ∉ lair_name <$> L ∧
    NoDup (lair_dojo_ids l) ∧ (∀ x, x ∈ lair_dojo_ids l → x ∉ L ≫= lair_dojo_ids) ∧
    NoDup (lair_splint_ids l) ∧ (∀ x, x ∈ lair_splint_ids l → x ∉ L ≫= lair_splint_ids) ∧
    Forall dojo_ok (dojos l) ∧ lairs_ok L.
Proof.
  split.
  - intros [H1 H2 H3 H4 H5]. simpl in *.
    apply Forall_cons in H1 as [??], H5 as [??]. apply NoDup_cons in H2 as [??].
    apply NoDup_app in H3 as (?&?&?), H4 as (?&?&?). by split_and!.
  - intros (?&?&?&?&?&?&?&[?????]). split; simpl.
    + by apply Forall_cons.
    + by apply NoDup_cons.
    + by apply NoDup_app.
    + by apply NoDup_app.
    + by apply Forall_cons.
Qed.

(** ** Values of the map *)

Lemma bt_insert_values (m : btree Lair) k l :
  bt_get m k = None → bt_values (bt_insert m k l) ≡ₚ l :: bt_values m.
Proof.
  unfold bt_values. induction m as [|[k' l'] m IH]; simpl; [done|].
  destruct (k =? k') eqn:He; [done|]. intros Hn.
  destruct (k <? k'); simpl; [done|]. rewrite IH by done. constructor.
Qed.

Lemma bt_remove_values (m : btree Lair) k l :
  bt_get m k = Some l → bt_values m ≡ₚ l :: bt_values (bt_remove m k).
Proof.
  unfold bt_values. induction m as [|[k' l'] m IH]; simpl; [done|].
  destruct (k =? k'); [by intros [= ->]|].
  intros Hn. simpl. rewrite IH by done. constructor.
Qed.

Lemma bt_remove_absent (m : btree Lair) k : bt_get m k = None → bt_remove m k = m.
Proof.
  induction m as [|[k' l'] m IH]; simpl; [done|].
  destruct (k =? k'); [done|]. intros. by rewrite IH.
Qed.

Lemma find_splint_in_None t id : find_splint_in t id = None ↔ id ∉ all_splint_ids t.
Proof.
  unfold find_splint_in, all_splint_ids, all_dojos. rewrite find_map_None, Forall_forall.
  setoid_rewrite find_splint_None. setoid_rewrite list_elem_of_bind.
  unfold lair_splint_ids. setoid_rewrite list_elem_of_bind. unfold dojo_splint_ids. naive_solver.
Qed.

Lemma find_dojo_None t id : find_dojo t id = None ↔ id ∉ all_dojo_ids t.
Proof.
  unfold find_dojo, all_dojo_ids, all_dojos, lair_dojo_ids.
  rewrite find_first_None, Forall_forall.
  setoid_rewrite list_elem_of_bind. setoid_rewrite list_elem_of_fmap. split.
  - intros H (l & (d & -> & Hd) & Hl). specialize (H d). rewrite Z.eqb_refl in H. naive_solver.
  - intros H d (l & Hd & Hl). apply Z.eqb_neq. naive_solver.
Qed.

Lemma bool_decide_is_Some_false {A} (o : option A) :
  bool_decide (is_Some o) = false ↔ o = None.
Proof. rewrite bool_decide_eq_false, eq_None_not_Some. done. Qed.

(** ** What validation of new Dojos establishes *)

Lemma collect_new_splint_ids_ok t node ids ids' :
  collect_new_splint_ids t node ids = Ok ids' →
  NoDup (leaf_ids node) ∧
  (∀ x, x ∈ leaf_ids node → x ∉ ids ∧ x ∉ all_splint_ids t) ∧
  (∀ x, x ∈ ids' ↔ x ∈ leaf_ids node ∨ x ∈ ids).
Proof.
  revert ids ids'. induction node as [s|ax r f IHf g IHg]; intros ids ids'; simpl.
  - destruct (bool_decide _) eqn:Hf; simpl; [done|].
    destruct (bool_decide (splint_id s ∈ ids)) eqn:Hi; [done|]. intros [= <-].
    apply bool_decide_is_Some_false, find_splint_in_None in Hf.
    apply bool_decide_eq_false in Hi. unfold leaf_ids. simpl.
    split_and!; [apply NoDup_singleton|set_solver|set_solver].
  - destruct (collect_new_splint_ids t f ids) as [ids1| |] eqn:Hf; simpl; [|done..].
    intros Hg. destruct (IHf _ _ Hf) as (Hn1 & Hf1 & Hm1).
    destruct (IHg _ _ Hg) as (Hn2 & Hf2 & Hm2). unfold leaf_ids in *. simpl.
    rewrite fmap_app. split_and!.
    + apply NoDup_app. split_and!; [done| |done]. intros x Hx Hx'.
      destruct (Hf2 x Hx') as [Hni _]. apply Hni, Hm1. by left.
    + intros x [Hx|Hx]%elem_of_app; [by apply Hf1|].
      destruct (Hf2 x Hx) as [Hx1 ?]. split; [|done]. rewrite Hm1 in Hx1. naive_solver.
    + intros x. rewrite Hm2, Hm1, elem_of_app. naive_solver.
Qed.

Lemma validate_new_dojos_loop_ok t ds dids sids :
  validate_new_dojos_loop t ds dids sids = Ok tt →
  Forall ratios_valid (root <$> ds) →
  NoDup (dojo_id <$> ds) ∧ NoDup (ds ≫= dojo_splint_ids) ∧ Forall dojo_ok ds ∧
  (∀ x, x ∈ dojo_id <$> ds → x ∉ dids ∧ x ∉ all_dojo_ids t) ∧
  (∀ x, x ∈ ds ≫= dojo_splint_ids → x ∉ sids ∧ x ∉ all_splint_ids t).
Proof.
  revert dids sids. induction ds as [|d ds IH]; intros dids sids; simpl.
  { intros _ _. split_and!; try constructor; set_solver. }
  destruct (validate_name (dojo_name d)) as [[]| |] eqn:Hname; simpl; [|done..].
  destruct (bool_decide _) eqn:Hd; simpl; [done|].
  destruct (bool_decide (dojo_id d ∈ dids)) eqn:Hi; [done|].
  destruct (find_splint (root d) (default_focus d)) as [s|] eqn:Hfocus; [|done].
  destruct (collect_new_splint_ids t (root d) sids) as [sids'| |] eqn:Hc; simpl; [|done..].
  intros Hrec [Hr Hrs]%Forall_cons.
  apply bool_decide_is_Some_false, find_dojo_None in Hd. apply bool_decide_eq_false in Hi.
  destruct (IH _ _ Hrec Hrs) as (Hn1 & Hn2 & Hok & Hd1 & Hs1).
  destruct (collect_new_splint_ids_ok _ _ _ _ Hc) as (Hn3 & Hs2 & Hm).
  split_and!.
  - apply NoDup_cons. split; [|done]. intros Hx%Hd1. set_solver.
  - apply NoDup_app. split_and!; [done| |done]. intros x Hx Hx'.
    destruct (Hs1 x Hx') as [Hni _]. apply Hni, Hm. by left.
  - constructor; [|done]. split.
    + unfold name_ok. unfold validate_name, map_ok in Hname.
      by destruct (normalized_name (dojo_name d)).
    + apply find_splint_is_Some. eauto.
    + done.
  - intros x [->|Hx]%elem_of_cons; [done|]. specialize (Hd1 x Hx). set_solver.
  - intros x [Hx|Hx]%elem_of_app; [by apply Hs2|].
    destruct (Hs1 x Hx) as [Hx1 ?]. split; [|done]. rewrite Hm in Hx1. naive_solver.
Qed.

Lemma validate_new_dojos_ok t ds :
  validate_new_dojos t ds = Ok tt →
  Forall ratios_valid (root <$> ds) →
  NoDup (dojo_id <$> ds) ∧ NoDup (ds ≫= dojo_splint_ids) ∧ Forall dojo_ok ds ∧
  (∀ x, x ∈ dojo_id <$> ds → x ∉ all_dojo_ids t) ∧
  (∀ x, x ∈ ds ≫= dojo_splint_ids → x ∉ all_splint_ids t).
Proof.
  intros Hv Hr. destruct (validate_new_dojos_loop_ok _ _ _ _ Hv Hr) as (?&?&?&?&?).
  naive_solver.
Qed.

(** ** Borrowed parts of a topology *)

(** [back] writes a Lair back into the entry of [t] that holds [l]. *)
Definition lair_focus (t : Topology) (l : Lair) (back : Lair → Topology) : Prop :=
  ∃ m1 k m2, lairs t = m1 ++ (k, l) :: m2 ∧
    ∀ l', back l' = set_lairs (m1 ++ (k, l') :: m2) t.

(** [back] writes a Dojo back into the place of [d]. *)
Definition dojo_focus (t : Topology) (d : Dojo) (back : Dojo → Topology) : Prop :=
  ∃ l lback D1 D2, lair_focus t l lback ∧ dojos l = D1 ++ d :: D2 ∧
    ∀ d', back d' = lback (set_lair_dojos (D1 ++ d' :: D2) l).

Lemma lairs_find_mut_Some {B} (f : Lair → option (borrow B Lair)) t b back :
  lairs_find_mut f t = Some (b, back) →
  ∃ l lback fb, lair_focus t l lback ∧ f l = Some (b, fb) ∧ ∀ b', back b' = lback (fb b').
Proof.
  unfold lairs_find_mut. destruct (find_map_mut _ _) as [[b0 back0]|] eqn:Hf; [|done].
  intros [= -> <-].
  apply find_map_mut_Some in Hf as (m1 & [k l] & m2 & back' & Hm & Hl & _ & Hb).
  simpl in Hl. destruct (f l) as [[b1 fb]|] eqn:Hfl; [|done]. simplify_eq.
  exists l, (λ l', set_lairs (m1 ++ (k, l') :: m2) t), fb.
  split_and!; [by exists m1, k, m2|done|]. intros b'. by rewrite Hb.
Qed.

Lemma find_lair_where_focus p t l back :
  find_lair_where p t = Some (l, back) → lair_focus t l back ∧ p l = true.
Proof.
  intros (l0 & lback & fb & (m1 & k & m2 & Hm & Hlb) & Hf & Hb)%lairs_find_mut_Some.
  destruct (p l0) eqn:Hp; simplify_eq. split; [|done].
  exists m1, k, m2. split; [done|]. intros l'. by rewrite Hb, Hlb.
Qed.

Lemma lair_get_mut_focus t id l back :
  lair_get_mut t id = Some (l, back) → lair_focus t l back ∧ (id, l) ∈ lairs t.
Proof.
  unfold lair_get_mut. destruct (bt_get_mut _ _) as [[l0 back0]|] eqn:Hf; [|done].
  intros [= -> <-]. apply bt_get_mut_Some in Hf as (m1 & m2 & Hm & _ & Hb).
  split; [|rewrite Hm; set_solver].
  exists m1, id, m2. split; [done|]. intros l'. by rewrite Hb.
Qed.

Lemma dojos_find_mut_Some {B} (f : Dojo → option (borrow B Dojo)) t b back :
  dojos_find_mut f t = Some (b, back) →
  ∃ d dback fb, dojo_focus t d dback ∧ f d = Some (b, fb) ∧ ∀ b', back b' = dback (fb b').
Proof.
  intros (l & lback & fb & Hl & Hf & Hb)%lairs_find_mut_Some.
  destruct (find_map_mut f (dojos l)) as [[b0 back0]|] eqn:Hd; [|done]. simplify_eq.
  apply find_map_mut_Some in Hd as (D1 & d & D2 & fb & HD & Hfd & _ & Hb0).
  exists d, (λ d', lback (set_lair_dojos (D1 ++ d' :: D2) l)), fb.
  split_and!; [by exists l, lback, D1, D2|done|].
  intros b'. by rewrite Hb, Hb0.
Qed.

Lemma find_dojo_where_focus p t d back :
  find_dojo_where p t = Some (d, back) → dojo_focus t d back ∧ p d = true.
Proof.
  intros (d0 & dback & fb & (l & lback & D1 & D2 & Hl & HD & Hdb) & Hf & Hb)%dojos_find_mut_Some.
  destruct (p d0) eqn:Hp; simplify_eq. split; [|done].
  exists l, lback, D1, D2. split_and!; [done..|]. intros d'. by rewrite Hb, Hdb.
Qed.

Lemma find_splint_in_mut_focus t id s back :
  find_splint_in_mut t id = Some (s, back) →
  ∃ d dback nback, dojo_focus t d dback ∧ find_splint_mut (root d) id = Some (s, nback) ∧
    ∀ s', back s' = dback (set_dojo_root (nback s') d).
Proof.
  intros (d & dback & fb & Hd & Hf & Hb)%dojos_find_mut_Some.
  destruct (find_splint_mut (root d) id) as [[s0 nback]|] eqn:Hm; [|done]. simplify_eq.
  by exists d, dback, nback.
Qed.

Lemma lair_focus_revision t l back l' : lair_focus t l back → revision (back l') = revision t.
Proof. intros (m1 & k & m2 & _ & Hb). by rewrite Hb. Qed.

(** Replacing a Lair by one with the same identifier. *)
Lemma lair_focus_wf t l back :
  topology_wf t → lair_focus t l back →
  ∃ L, bt_values (lairs t) ≡ₚ l :: L ∧ lairs_ok (l :: L) ∧
    ∀ l', lair_id l' = lair_id l → lairs_ok (l' :: L) → topology_wf (back l').
Proof.
  intros [Hs Hk Hok Hr] (m1 & k & m2 & Hm & Hb).
  assert (∀ l0, bt_values (m1 ++ (k, l0) :: m2) ≡ₚ l0 :: (m1.*2 ++ m2.*2)) as Hp.
  { intros l0. unfold bt_values. rewrite fmap_app. simpl. by rewrite Permutation_middle. }
  exists (m1.*2 ++ m2.*2). rewrite Hm, Hp in *. split_and!; [done..|].
  intros l' Hid Hok'. rewrite Hb. split; simpl.
  - eapply bt_wf_same_keys; [|exact Hs]. by rewrite !fmap_app.
  - apply Forall_app in Hk as [? [? ?]%Forall_cons]. apply Forall_app. split; [done|].
    constructor; [congruence|done].
  - by rewrite Hp.
  - done.
Qed.

Lemma lair_splint_ids_split D1 d D2 l :
  lair_splint_ids (set_lair_dojos (D1 ++ d :: D2) l) ≡ₚ
    leaf_ids (root d) ++ (D1 ≫= dojo_splint_ids) ++ (D2 ≫= dojo_splint_ids).
Proof.
  unfold lair_splint_ids. simpl. rewrite bind_app. simpl.
  unfold dojo_splint_ids at 2. by rewrite Permutation_app_swap_app.
Qed.

Lemma set_lair_dojos_id l : set_lair_dojos (dojos l) l = l.
Proof. by destruct l. Qed.

(** Replacing a Dojo by one whose Splints are its own or new. *)
Lemma dojo_focus_wf t d back :
  topology_wf t → dojo_focus t d back →
  dojo_ok d ∧ NoDup (leaf_ids (root d)) ∧
  (∀ x, x ∈ leaf_ids (root d) → x ∈ all_splint_ids t) ∧
  ∀ d', dojo_id d' = dojo_id d → dojo_ok d' → NoDup (leaf_ids (root d')) →
    (∀ x, x ∈ leaf_ids (root d') → x ∈ leaf_ids (root d) ∨ x ∉ all_splint_ids t) →
    topology_wf (back d').
Proof.
  intros Hwf (l & lback & D1 & D2 & Hl & HD & Hb).
  destruct (lair_focus_wf _ _ _ Hwf Hl) as (L & HL & Hok & Hback).
  unfold all_splint_ids. setoid_rewrite HL. simpl.
  pose proof (lair_splint_ids_split D1 d D2 l) as Hp. rewrite <-HD, set_lair_dojos_id in Hp.
  apply lairs_ok_cons in Hok as (Hn & Hns & Hd1 & Hd2 & Hs1 & Hs2 & Hdo & HLok).
  rewrite HD in Hdo. apply Forall_app in Hdo as [Hdo1 [Hd Hdo2]%Forall_cons].
  rewrite Hp in Hs1. apply NoDup_app in Hs1 as (Hs1 & Hs1' & Hs1'').
  split_and!; [done|done|setoid_rewrite Hp; set_solver|].
  intros d' Hid Hd' Hnd' Hsub. rewrite Hb. apply Hback; [done|].
  apply lairs_ok_cons. unfold lair_dojo_ids in *. simpl.
  rewrite HD, fmap_app in *. simpl in *. rewrite Hid.
  split_and!; [done..| | | |done].
  - rewrite lair_splint_ids_split. apply NoDup_app. split_and!; [done| |done].
    intros x Hx Hx'. destruct (Hsub x Hx) as [?|Hni]; [by eapply Hs1'|].
    apply Hni. rewrite Hp. set_solver.
  - setoid_rewrite lair_splint_ids_split. intros x [Hx|Hx]%elem_of_app.
    + destruct (Hsub x Hx) as [?|Hni]; [|set_solver].
      apply Hs2. rewrite Hp. set_solver.
    + apply Hs2. rewrite Hp. set_solver.
  - apply Forall_app. split; [done|]. by constructor.
Qed.

(** Replacing a Splint by one with the same identifier. *)
Lemma splint_focus_wf t id s back :
  topology_wf t → find_splint_in_mut t id = Some (s, back) →
  ∀ s', splint_id s' = splint_id s → topology_wf (back s').
Proof.
  intros Hwf (d & dback & nback & Hd & Hf & Hb)%find_splint_in_mut_focus s' Hid.
  destruct (dojo_focus_wf _ _ _ Hwf Hd) as ([Hn Hfo Hr] & Hnd & _ & Hback).
  apply find_splint_mut_Some in Hf as (_ & l1 & l2 & Hl & _ & Hput).
  destruct (Hput s') as [Hl' Hr'].
  assert (leaf_ids (nback s') = leaf_ids (root d)) as Hids.
  { unfold leaf_ids. rewrite Hl, Hl', !fmap_app. simpl. congruence. }
  rewrite Hb. apply Hback; simpl; [done| |by rewrite Hids|rewrite Hids; auto].
  split; simpl; [done|by rewrite Hids|by apply Hr'].
Qed.

(** Inserting and dropping whole Lairs. *)
Lemma insert_lair_wf t l :
  topology_wf t → bt_get (lairs t) (lair_id l) = None →
  name_ok (lair_name l) → lair_name l ∉ lair_name <$> bt_values (lairs t) →
  validate_new_dojos t (dojos l) = Ok tt → Forall ratios_valid (root <$> dojos l) →
  topology_wf (set_lairs (bt_insert (lairs t) (lair_id l) l) t).
Proof.
  intros [Hs Hk Hok Hr] Hg Hn Hnew Hv Hra.
  destruct (validate_new_dojos_ok _ _ Hv Hra) as (?&?&?&?&?). split; simpl.
  - by apply bt_insert_wf.
  - apply Forall_forall. intros [k l'] [[-> ->]|[_ Hin]]%bt_insert_elem; [done| |done].
    by apply (proj1 (Forall_forall _ _) Hk (k, l')).
  - rewrite bt_insert_values by done. apply lairs_ok_cons. by split_and!.
  - done.
Qed.

Lemma remove_lair_wf t k :
  topology_wf t → topology_wf (set_lairs (bt_remove (lairs t) k) t).
Proof.
  intros [Hs Hk Hok Hr]. split; simpl.
  - by apply bt_remove_wf.
  - apply Forall_forall. intros [k' l'] [_ Hin]%bt_remove_elem; [|done].
    by apply (proj1 (Forall_forall _ _) Hk (k', l')).
  - destruct (bt_get (lairs t) k) as [l|] eqn:Hg.
    + rewrite bt_remove_values in Hok by done. by apply lairs_ok_cons in Hok as (_&_&_&_&_&_&_&?).
    + by rewrite bt_remove_absent.
  - done.
Qed.
