(* ===== verification/TopologySteps.v ===== *)
(** * Topology transactions as steps

    Every public mutation of the topology as one alternative of [op], its
    execution, and what holds of all of them: the invariant is preserved, a
    failed transaction changes nothing, a committed one moves the revision by
    exactly one and only runs against the revision the caller saw. *)

From stdpp Require Import gmap.
From S2P Require Import Prelude RustStd Layout Topology TopologyInv.

Inductive op :=
| OpCreateLair (draw : LairDraw) (expected : Z) (name : str) (cwd : list Z)
| OpInsertLair (expected : Z) (lair : Lair)
| OpRemoveLair (id : Z)
| OpReplaceLair (expected removed : Z) (inserted : Lair)
| OpSplitSplint (expected target : Z) (new : Splint) (axis : Axis) (side : SplitSide) (ratio : Z)
| OpCloseSplint (expected id : Z)
| OpSetSplitRatio (expected target ancestor ratio : Z)
| OpNewDojo (expected lair : Z) (dojo : Dojo) (promote : bool)
| OpMaterializeDojos (expected lair : Z) (rename : option str) (ds : list Dojo)
| OpMaterializeLair (new_id expected : Z) (name : str) (ds : list Dojo) (prov : option str)
| OpRemoveDojo (expected id : Z) (allow_live : bool)
| OpTerminateLair (expected id : Z)
| OpSetRetention (expected id : Z) (r : LairRetention)
| OpRenameLair (expected id : Z) (name : str)
| OpRenameDojo (expected id : Z) (name : str) (promote : bool)
| OpSetDefaultFocus (expected id splint : Z)
| OpRenameSplint (expected id : Z) (name : str)
| OpCommitRelaunch (id : Z) (cwd : list Z) (command : list str)
| OpSetLaunch (id : Z) (l : SplintLaunchMetadata)
| OpSetIncarnation (id incarnation : Z)
| OpSetDimensions (id columns rows : Z)
| OpSetState (id : Z) (st : SplintState).

(** Run a transaction for its effect. *)
Definition void {A} (m : T A) : T unit := let! _ := m in ret tt.

Definition exec (o : op) : T unit :=
  match o with
  | OpCreateLair draw e name cwd => void (create_lair_at draw e name cwd)
  | OpInsertLair e lair => void (insert_lair_at e lair)
  | OpRemoveLair id => void (remove_lair id)
  | OpReplaceLair e removed inserted => void (replace_lair_at e removed inserted)
  | OpSplitSplint e target new axis side ratio =>
      void (split_splint_at e target new axis side ratio)
  | OpCloseSplint e id => void (close_splint_at e id)
  | OpSetSplitRatio e target ancestor ratio => void (set_split_ratio_at e target ancestor ratio)
  | OpNewDojo e lair dojo promote => void (new_dojo_with_promotion_at e lair dojo promote)
  | OpMaterializeDojos e lair rename ds => void (materialize_dojos_at e lair rename ds)
  | OpMaterializeLair new_id e name ds prov =>
      void (materialize_lair_with_provenance_at new_id e name ds prov)
  | OpRemoveDojo e id allow_live => void (remove_dojo_at e id allow_live)
  | OpTerminateLair e id => void (terminate_lair_at e id)
  | OpSetRetention e id r => void (set_lair_retention_at e id r)
  | OpRenameLair e id name => void (rename_lair_at e id name)
  | OpRenameDojo e id name promote => void (rename_dojo_with_promotion_at e id name promote)
  | OpSetDefaultFocus e id splint => void (set_dojo_default_focus_at e id splint)
  | OpRenameSplint e id name => void (rename_splint_at e id name)
  | OpCommitRelaunch id cwd command => commit_relaunch id cwd command
  | OpSetLaunch id l => void (set_splint_launch_metadata id l)
  | OpSetIncarnation id n => void (set_splint_last_incarnation id n)
  | OpSetDimensions id columns rows => void (set_splint_dimensions id columns rows)
  | OpSetState id st => void (set_splint_state id st)
  end.

(** The revision a transaction was planned against, for those that take one. *)
Definition op_expected (o : op) : option Z :=
  match o with
  | OpCreateLair _ e _ _ | OpInsertLair e _ | OpReplaceLair e _ _
  | OpSplitSplint e _ _ _ _ _ | OpCloseSplint e _ | OpSetSplitRatio e _ _ _
  | OpNewDojo e _ _ _ | OpMaterializeDojos e _ _ _ | OpMaterializeLair _ e _ _ _
  | OpRemoveDojo e _ _ | OpTerminateLair e _ | OpSetRetention e _ _
  | OpRenameLair e _ _ | OpRenameDojo e _ _ _ | OpSetDefaultFocus e _ _
  | OpRenameSplint e _ _ => Some e
  | _ => None
  end.

(** What the types of the arguments guarantee: a [SplitRatio] is in range, an
    [ancestor] is unsigned; and a freshly drawn Lair identifier is not in use
    (UUIDs are collision-free). *)
Definition op_args_ok (t : Topology) (o : op) : Prop :=
  match o with
  | OpInsertLair _ lair | OpReplaceLair _ _ lair => Forall ratios_valid (root <$> dojos lair)
  | OpSplitSplint _ _ _ _ _ ratio => 1 ≤ ratio ≤ 999
  | OpSetSplitRatio _ _ ancestor ratio => 0 ≤ ancestor ∧ 1 ≤ ratio ≤ 999
  | OpNewDojo _ _ dojo _ => ratios_valid (root dojo)
  | OpMaterializeDojos _ _ _ ds => Forall ratios_valid (root <$> ds)
  | OpMaterializeLair new_id _ _ ds _ =>
      Forall ratios_valid (root <$> ds) ∧ bt_get (lairs t) new_id = None
  | _ => True
  end.

(** ** Committing *)

Lemma wp_commit (Q : outcome TopologyError Z → Topology → Prop) t :
  (revision t + 1 ≤ u64_max →
   Q (Ok (revision t + 1)) {| revision := revision t + 1; lairs := lairs t |}) →
  (u64_max < revision t + 1 → Q Panic t) →
  wp commit Q t.
Proof.
  unfold commit, advance_revision, checked_add64. intros H1 H2. do 2 wp_step.
  destruct (Z.leb_spec (revision t + 1) u64_max); repeat wp_step; simplify_eq; auto.
Qed.

(** [self.advance_revision()] alone, as in [remove_lair]. *)
Lemma wp_advance {A} (k : unit → T A) Q t :
  (revision t + 1 ≤ u64_max →
   wp (k tt) Q {| revision := revision t + 1; lairs := lairs t |}) →
  (u64_max < revision t + 1 → Q Panic t) →
  wp (bind advance_revision k) Q t.
Proof.
  unfold advance_revision, checked_add64. intros H1 H2. do 2 wp_step.
  destruct (Z.leb_spec (revision t + 1) u64_max); repeat wp_step; simplify_eq; auto.
Qed.

Lemma wp_check_revision {A} e (k : unit → T A) Q t :
  (e = revision t → wp (k tt) Q t) →
  (e ≠ revision t → Q (Err (StaleTopology e (revision t))) t) →
  wp (bind (check_revision e) k) Q t.
Proof.
  unfold wp, check_revision, bind, get, reject_if. simpl. intros H1 H2.
  destruct (Z.eqb_spec e (revision t)); simpl; [by apply H1|by apply H2].
Qed.

(** Steps through a transaction; a commit leaves its two outcomes. *)
Ltac tx_step :=
  lazymatch goal with
  | |- wp (void _) _ _ => unfold void
  | |- wp commit _ _ => apply wp_commit; intros ?
  | |- wp (bind commit _) _ _ => apply wp_bind, wp_commit; intros ?
  | |- wp (bind advance_revision _) _ _ => apply wp_advance; intros ?
  | |- wp (bind (check_revision _) _) _ _ => apply wp_check_revision; intros ?
  | _ => wp_step
  end; cbv beta iota zeta.

Lemma topology_wf_commit t :
  topology_wf t → revision t + 1 ≤ u64_max →
  topology_wf {| revision := revision t + 1; lairs := lairs t |}.
Proof. intros [????] ?. split; simpl; auto; lia. Qed.

Lemma validate_name_ok n : validate_name n = Ok tt → name_ok n.
Proof.
  unfold validate_name, name_ok, map_ok. by destruct (normalized_name n).
Qed.

(** ** Names *)

Lemma trim_start_id s : (∀ c s', s = c :: s' → is_whitespace c = false) → trim_start s = s.
Proof. destruct s as [|c s]; [done|]. intros H. simpl. by rewrite (H c s). Qed.

Lemma trim_start_head s c s' : trim_start s = c :: s' → is_whitespace c = false.
Proof.
  induction s as [|a s IH]; simpl; [done|].
  destruct (is_whitespace a) eqn:Ha; [done|]. by intros [= -> ->].
Qed.

Lemma trim_start_suffix s : ∃ p, s = p ++ trim_start s ∧ Forall (λ c, is_whitespace c = true) p.
Proof.
  induction s as [|a s IH]; simpl; [by exists []|].
  destruct (is_whitespace a) eqn:Ha; [|by exists []].
  destruct IH as (p & Hs & Hp). exists (a :: p). simpl. split; [by f_equal|by constructor].
Qed.

(** Trimming is idempotent. *)
Lemma trim_trim s : trim (trim s) = trim s.
Proof.
  unfold trim, trim_end. set (u := trim_start s).
  assert (trim_start (reverse (trim_start (reverse u))) = reverse (trim_start (reverse u))) as ->.
  { apply trim_start_id. intros c s' Heq.
    destruct (trim_start_suffix (reverse u)) as (p & Hp & _).
    apply (f_equal reverse) in Hp. rewrite reverse_involutive, reverse_app, Heq in Hp.
    eapply trim_start_head. exact Hp. }
  rewrite reverse_involutive. f_equal. apply trim_start_id.
  intros c s'. apply trim_start_head.
Qed.

Lemma normalized_name_ok n n' :
  normalized_name n = Ok n' → name_ok n' ∧ trim n' = n' ∧ n' ≠ [] ∧ str_len n' ≤ MAX_NAME_BYTES.
Proof.
  unfold name_ok, normalized_name. case_bool_decide as H1; [done|].
  destruct (Z.ltb_spec MAX_NAME_BYTES (str_len (trim n))) as [|H2]; [done|].
  intros [= <-]. rewrite trim_trim, bool_decide_false by done.
  rewrite (proj2 (Z.ltb_ge _ _)) by done. done.
Qed.

Lemma name_taken_false t n :
  name_taken t n = false → n ∉ lair_name <$> bt_values (lairs t).
Proof.
  unfold name_taken. rewrite <-not_true_iff_false, existsb_exists.
  intros H (l & -> & Hl)%list_elem_of_fmap. apply H. exists l.
  split; [by apply list_elem_of_In|]. by rewrite bool_decide_true.
Qed.

Lemma name_taken_by_other_false t id n l :
  name_taken_by_other t id n = false → l ∈ bt_values (lairs t) → lair_name l = n → lair_id l = id.
Proof.
  unfold name_taken_by_other. rewrite <-not_true_iff_false, existsb_exists.
  intros H Hl Hn. destruct (Z.eq_dec (lair_id l) id) as [|Hne]; [done|]. exfalso.
  apply H. exists l. split; [by apply list_elem_of_In|].
  rewrite bool_decide_true by done. lia.
Qed.

(** ** The invariant, operation by operation *)

(** Run through a transaction; what is left is the invariant of the state it
    leaves, once for the commit and once for an exhausted revision. *)
Ltac tx :=
  repeat tx_step; try done;
  repeat match goal with x : unit |- _ => destruct x | x : borrow _ _ |- _ => destruct x end;
  try (apply topology_wf_commit; [|done]).

Lemma bt_contains_false {V} (m : btree V) k : bt_contains m k = false ↔ bt_get m k = None.
Proof. unfold bt_contains. destruct (bt_get m k); naive_solver. Qed.

#[local] Hint Resolve validate_name_ok name_taken_false : topology.
#[local] Hint Resolve <- bt_contains_false : topology.
#[local] Hint Resolve -> bt_contains_false : topology.

Section preservation.
Context (t : Topology) (Hwf : topology_wf t).

Abbreviation keeps m := (wp m (λ _, topology_wf) t).

Lemma insert_lair_at_wf e lair :
  Forall ratios_valid (root <$> dojos lair) → keeps (insert_lair_at e lair).
Proof.
  intros Hr. unfold insert_lair_at. tx.
  all: apply insert_lair_wf; auto with topology.
Qed.

Lemma create_lair_at_wf draw e name cwd : keeps (create_lair_at draw e name cwd).
Proof.
  unfold create_lair_at. do 4 (tx_step; try done).
  apply wp_bind. eapply wp_mono; [|apply insert_lair_at_wf; by repeat constructor].
  intros [] t' Ht'; cbv beta iota; [|done..]. tx.
Qed.

Lemma remove_lair_keeps id : keeps (remove_lair id).
Proof. unfold remove_lair. tx. all: by apply remove_lair_wf. Qed.

Lemma terminate_lair_at_wf e id : keeps (terminate_lair_at e id).
Proof. unfold terminate_lair_at. tx. all: by apply remove_lair_wf. Qed.

Lemma validate_new_dojos_mono (t' : Topology) ds :
  (∀ x, x ∈ all_dojo_ids t' → x ∈ all_dojo_ids t) →
  (∀ x, x ∈ all_splint_ids t' → x ∈ all_splint_ids t) →
  validate_new_dojos t ds = Ok tt → Forall ratios_valid (root <$> ds) →
  NoDup (dojo_id <$> ds) ∧ NoDup (ds ≫= dojo_splint_ids) ∧ Forall dojo_ok ds ∧
  (∀ x, x ∈ dojo_id <$> ds → x ∉ all_dojo_ids t') ∧
  (∀ x, x ∈ ds ≫= dojo_splint_ids → x ∉ all_splint_ids t').
Proof.
  intros H1 H2 Hv Hr. destruct (validate_new_dojos_ok _ _ Hv Hr) as (?&?&?&?&?).
  split_and!; [done..| |]; naive_solver.
Qed.

(** The Lairs left when one is removed are among those of [t]. *)
Lemma replaced_lairs_ok k l inserted :
  bt_get (lairs t) k = Some l →
  bt_get (lairs t) (lair_id inserted) = None →
  name_ok (lair_name inserted) →
  name_taken_by_other t k (lair_name inserted) = false →
  validate_new_dojos t (dojos inserted) = Ok tt →
  Forall ratios_valid (root <$> dojos inserted) →
  lairs_ok (inserted :: bt_values (bt_remove (lairs t) k)).
Proof.
  intros Hk Hi Hn Ho Hv Hr.
  destruct (remove_lair_wf t k Hwf) as [Hs' Hk' Hok' _]. simpl in *.
  destruct (validate_new_dojos_mono (set_lairs (bt_remove (lairs t) k) t) (dojos inserted))
    as (?&?&?&?&?); try done.
  { unfold all_dojo_ids. simpl. intros x Hx.
    rewrite (bt_remove_values (lairs t) k l) by done. simpl. set_solver. }
  { unfold all_splint_ids. simpl. intros x Hx.
    rewrite (bt_remove_values (lairs t) k l) by done. simpl. set_solver. }
  apply lairs_ok_cons. split_and!; try done.
  intros (l' & Hn' & Hl')%list_elem_of_fmap.
  apply list_elem_of_fmap in Hl' as ([k' l''] & -> & Hin). simpl in *.
  pose proof (proj1 (Forall_forall _ _) Hk' _ Hin) as Hkey. simpl in Hkey.
  apply bt_remove_elem in Hin as [Hne Hin]; [|apply Hwf].
  apply Hne. rewrite <-Hkey. eapply name_taken_by_other_false; [exact Ho| |done].
  apply list_elem_of_fmap. by exists (k', l'').
Qed.

Lemma replace_lair_at_wf e removed inserted :
  Forall ratios_valid (root <$> dojos inserted) → keeps (replace_lair_at e removed inserted).
Proof.
  intros Hr. unfold replace_lair_at. tx.
  all: match goal with H : _ || _ = false |- _ => apply orb_false_iff in H as [Hne Hc] end.
  all: apply negb_false_iff in Hc; unfold bt_contains in Hc.
  all: destruct (bt_get (lairs t) removed) as [l|] eqn:Hg; [|done].
  all: destruct (remove_lair_wf t removed Hwf) as [Hs' Hk' Hok' Hrev]; simpl in *.
  all: assert (bt_get (bt_remove (lairs t) removed) (lair_id inserted) = None)
    by (rewrite bt_get_remove by apply Hwf; case_match; auto with topology).
  all: split; simpl; [by apply bt_insert_wf| | |done].
  all: try (rewrite bt_insert_values by done; eapply replaced_lairs_ok; eauto with topology).
  all: apply Forall_forall; intros [k' l'] [[-> ->]|[_ Hin]]%bt_insert_elem; [done| |done].
  all: by apply (proj1 (Forall_forall _ _) Hk' (k', l')).
Qed.

(** *** Edits inside a Dojo *)

Lemma split_leaf_ids node target new axis side ratio :
  is_Some (find_splint node target) →
  leaf_ids (split node target new axis side ratio).2 ≡ₚ splint_id new :: leaf_ids node.
Proof.
  intros [s Hs]. destruct (split_spec node target new axis side ratio s Hs)
    as (node' & l1 & l2 & -> & Hl & _ & Hl').
  unfold leaf_ids. simpl. rewrite Hl, Hl', !fmap_app. destruct side; simpl.
  - by rewrite Permutation_middle.
  - by rewrite (Permutation_swap (splint_id new)), Permutation_middle.
Qed.

Lemma split_splint_at_wf e target new axis side ratio :
  1 ≤ ratio ≤ 999 → keeps (split_splint_at e target new axis side ratio).
Proof.
  intros Hr. unfold split_splint_at. tx.
  all: match goal with H : find_dojo_where _ _ = _ |- _ =>
         apply find_dojo_where_focus in H as [Hd Ht%bool_decide_eq_true] end.
  all: match goal with H : bool_decide _ = false |- _ =>
         apply bool_decide_is_Some_false, find_splint_in_None in H as Hnew end.
  all: match goal with H : split _ _ _ _ _ _ = _ |- _ => rename H into Hsplit end.
  all: destruct (dojo_focus_wf _ _ _ Hwf Hd) as ([Hn Hf Hv] & Hnd & Hin & Hback).
  all: match type of Hsplit with split (root ?d0) _ _ _ _ _ = (_, ?r') =>
         pose proof (split_leaf_ids (root d0) target new axis side ratio Ht) as Hp;
         pose proof (split_ratios_valid (root d0) target new axis side ratio Hv Hr) as Hv';
         rewrite Hsplit in Hp, Hv'; simpl in Hp, Hv' end.
  all: apply Hback; simpl; [done|split; simpl; [done| |done]| |].
  all: setoid_rewrite Hp; try set_solver.
  all: apply NoDup_cons; set_solver.
Qed.

Lemma set_split_ratio_at_wf e target ancestor ratio :
  0 ≤ ancestor → 1 ≤ ratio ≤ 999 → keeps (set_split_ratio_at e target ancestor ratio).
Proof.
  intros Ha Hr. unfold set_split_ratio_at. tx.
  all: match goal with H : find_dojo_where _ _ = _ |- _ =>
         apply find_dojo_where_focus in H as [Hd _] end.
  all: destruct (dojo_focus_wf _ _ _ Hwf Hd) as ([Hn Hf Hv] & Hnd & Hin & Hback).
  all: match goal with H : set_ancestor_ratio (root ?d0) _ _ _ = (_, ?r') |- _ =>
         pose proof (set_ancestor_ratio_leaves (root d0) target ancestor ratio) as [Hl Hv'];
         rewrite H in Hl, Hv'; simpl in Hl, Hv';
         assert (leaf_ids r' = leaf_ids (root d0)) as Hids by (unfold leaf_ids; by rewrite Hl) end.
  all: apply Hback; simpl; [done|split; simpl| |]; rewrite ?Hids; auto.
Qed.

Lemma set_dojo_default_focus_at_wf e id splint :
  keeps (set_dojo_default_focus_at e id splint).
Proof.
  unfold set_dojo_default_focus_at, find_dojo_mut. tx.
  all: match goal with H : find_dojo_where _ _ = _ |- _ =>
         apply find_dojo_where_focus in H as [Hd _] end.
  all: destruct (dojo_focus_wf _ _ _ Hwf Hd) as ([Hn Hf Hv] & Hnd & Hin & Hback).
  all: match goal with H : negb _ = false |- _ =>
         apply negb_false_iff, bool_decide_eq_true, find_splint_is_Some in H end.
  all: apply Hback; simpl; [done|by split|done|auto].
Qed.

Lemma rename_splint_at_wf e id name : keeps (rename_splint_at e id name).
Proof. unfold rename_splint_at. tx. all: by eapply splint_focus_wf. Qed.

Lemma commit_relaunch_wf id cwd' command' : keeps (commit_relaunch id cwd' command').
Proof. unfold commit_relaunch. tx. all: by eapply splint_focus_wf. Qed.

Lemma with_splint_wf id f :
  (∀ s, splint_id (f s).2 = splint_id s) → keeps (with_splint id f).
Proof.
  intros Hf. unfold with_splint. tx.
  match goal with H : f ?s = _ |- _ => specialize (Hf s); rewrite H in Hf end.
  by eapply splint_focus_wf.
Qed.

(** *** Edits of a Lair *)

(** Appending validated Dojos, with or without a new name. *)
Lemma append_dojos_ok l L ds name :
  bt_values (lairs t) ≡ₚ l :: L → lairs_ok (l :: L) →
  name_ok name → name ∉ lair_name <$> L →
  validate_new_dojos t ds = Ok tt → Forall ratios_valid (root <$> ds) →
  ∀ l', lair_name l' = name → dojos l' = dojos l ++ ds → lairs_ok (l' :: L).
Proof.
  intros HL Hok Hn Hfresh Hv Hr l' Hl' Hd.
  destruct (validate_new_dojos_ok _ _ Hv Hr) as (Hn1 & Hn2 & Hds & Hd1 & Hs1).
  unfold all_dojo_ids, all_splint_ids in *. setoid_rewrite HL in Hd1.
  setoid_rewrite HL in Hs1. simpl in *.
  apply lairs_ok_cons in Hok as (_ & _ & Hd2 & Hd3 & Hs2 & Hs3 & Hdo & HLok).
  apply lairs_ok_cons. unfold lair_dojo_ids, lair_splint_ids in *.
  rewrite Hl', Hd, fmap_app, bind_app. split_and!; [done|done| | | | | |done].
  - apply NoDup_app. split_and!; [done| |done].
    intros x Hx Hx'. apply (Hd1 x Hx'), elem_of_app. by left.
  - intros x [Hx|Hx]%elem_of_app; [by apply Hd3|].
    intros Hx'. apply (Hd1 x Hx), elem_of_app. by right.
  - apply NoDup_app. split_and!; [done| |done].
    intros x Hx Hx'. apply (Hs1 x Hx'), elem_of_app. by left.
  - intros x [Hx|Hx]%elem_of_app; [by apply Hs3|].
    intros Hx'. apply (Hs1 x Hx), elem_of_app. by right.
  - by apply Forall_app.
Qed.

Lemma new_dojo_with_promotion_at_wf e lair dojo promote :
  ratios_valid (root dojo) → keeps (new_dojo_with_promotion_at e lair dojo promote).
Proof.
  intros Hr. unfold new_dojo_with_promotion_at. tx.
  all: match goal with H : lair_get_mut _ _ = _ |- _ =>
         apply lair_get_mut_focus in H as [Hl _] end.
  all: destruct (lair_focus_wf _ _ _ Hwf Hl) as (L & HL & Hok & Hback).
  all: pose proof Hok as (Hn & Hns & _)%lairs_ok_cons.
  all: apply Hback; [by case_match|].
  all: eapply append_dojos_ok; [exact HL|done|exact Hn|done|done|by repeat constructor|..];
    by case_match.
Qed.

(** A name no other Lair has stays unique when a Lair takes it. *)
Lemma other_names_free l L id name :
  bt_values (lairs t) ≡ₚ l :: L → (id, l) ∈ lairs t →
  name_taken_by_other t id name = false → name ∉ lair_name <$> L.
Proof.
  intros HL Hin Ho (l' & Hn & Hl')%list_elem_of_fmap.
  assert (lair_id l = id) as Hid.
  { by apply (proj1 (Forall_forall _ _) (wf_keys _ Hwf) (id, l)). }
  assert (l' ∈ bt_values (lairs t)) as Hv by (rewrite HL; set_solver).
  assert (lair_id l' = id) as Hid' by (by eapply name_taken_by_other_false).
  assert (NoDup (bt_values (lairs t))) as Hnd.
  { eapply NoDup_fmap_1. apply (ok_names _ (wf_lairs _ Hwf)). }
  apply list_elem_of_fmap in Hv as ([k' l''] & -> & Hin'). simpl in *.
  pose proof (proj1 (Forall_forall _ _) (wf_keys _ Hwf) _ Hin') as Hk. simpl in Hk.
  subst k'. rewrite Hid' in Hin'.
  apply bt_get_elem in Hin; [|apply Hwf]. apply bt_get_elem in Hin'; [|apply Hwf].
  assert (l = l'') as <- by congruence.
  rewrite HL in Hnd. apply NoDup_cons in Hnd as [? _]. done.
Qed.

Lemma materialize_dojos_at_wf e id rename ds :
  Forall ratios_valid (root <$> ds) → keeps (materialize_dojos_at e id rename ds).
Proof.
  intros Hr. unfold materialize_dojos_at. do 4 (tx_step; try done). destruct rename as [name|].
  - destruct (normalized_name name) as [name'| |] eqn:Hname; simpl; tx; simplify_eq/=; tx.
    all: match goal with H : lair_get_mut _ _ = _ |- _ =>
           apply lair_get_mut_focus in H as [Hl Hin] end.
    all: destruct (lair_focus_wf _ _ _ Hwf Hl) as (L & HL & Hok & Hback).
    all: apply normalized_name_ok in Hname as [Hn _].
    all: simplify_eq; apply Hback; [done|].
    all: eapply append_dojos_ok; [exact HL|done|exact Hn|by eapply other_names_free|done..].
  - tx.
    all: match goal with H : lair_get_mut _ _ = _ |- _ =>
           apply lair_get_mut_focus in H as [Hl Hin] end.
    all: destruct (lair_focus_wf _ _ _ Hwf Hl) as (L & HL & Hok & Hback).
    all: pose proof Hok as (Hn & Hns & _)%lairs_ok_cons.
    all: apply Hback; [done|].
    all: eapply append_dojos_ok; [exact HL|done|exact Hn|done|done..].
Qed.

Lemma materialize_lair_wf new_id e name ds prov :
  Forall ratios_valid (root <$> ds) → bt_get (lairs t) new_id = None →
  keeps (materialize_lair_with_provenance_at new_id e name ds prov).
Proof.
  intros Hr Hnew. unfold materialize_lair_with_provenance_at. tx.
  all: match goal with H : normalized_name _ = _ |- _ =>
         apply normalized_name_ok in H as [Hn _] end.
  all: by apply (insert_lair_wf _ {| lair_id := new_id; lair_name := _; lifetime := _;
         retention := _; provenance := _; dojos := _ |}); auto with topology.
Qed.

Lemma rename_lair_at_wf e id name : keeps (rename_lair_at e id name).
Proof.
  unfold rename_lair_at. tx.
  all: match goal with H : lair_get_mut _ _ = _ |- _ =>
         apply lair_get_mut_focus in H as [Hl Hin] end.
  all: match goal with H : normalized_name _ = _ |- _ =>
         apply normalized_name_ok in H as [Hn _] end.
  all: destruct (lair_focus_wf _ _ _ Hwf Hl) as (L & HL & Hok & Hback).
  all: apply Hback; [done|].
  all: apply lairs_ok_cons in Hok as (?&?&?&?&?&?&?&?); apply lairs_ok_cons.
  all: split_and!; try done; by eapply other_names_free.
Qed.

Lemma set_lair_retention_at_wf e id r : keeps (set_lair_retention_at e id r).
Proof.
  unfold set_lair_retention_at. tx.
  all: match goal with H : lair_get_mut _ _ = _ |- _ =>
         apply lair_get_mut_focus in H as [Hl _] end.
  all: destruct (lair_focus_wf _ _ _ Hwf Hl) as (L & HL & Hok & Hback).
  all: apply Hback; [done|].
  all: apply lairs_ok_cons in Hok as (?&?&?&?&?&?&?&?); apply lairs_ok_cons; by split_and!.
Qed.

(** Dropping Dojos of a Lair. *)
Lemma sublist_dojos_ok l L ds :
  lairs_ok (l :: L) → ds `sublist_of` dojos l → lairs_ok (set_lair_dojos ds l :: L).
Proof.
  intros (?&?&Hd&Hd2&Hs&Hs2&Hdo&?)%lairs_ok_cons Hsub. apply lairs_ok_cons.
  unfold lair_dojo_ids, lair_splint_ids in *. simpl.
  assert (dojo_id <$> ds `sublist_of` dojo_id <$> dojos l) as Hi by by apply fmap_sublist.
  assert (ds ≫= dojo_splint_ids `sublist_of` dojos l ≫= dojo_splint_ids) as Hp.
  { clear -Hsub. induction Hsub as [|d l1 l2 _ IH|d l1 l2 _ IH]; simpl; [done| |].
    - by apply sublist_app.
    - by apply sublist_inserts_l. }
  split_and!; try done.
  - eauto using sublist_NoDup.
  - intros x Hx. eauto using elem_of_sublist.
  - eauto using sublist_NoDup.
  - intros x Hx. eauto using elem_of_sublist.
  - rewrite Forall_forall in *. eauto using elem_of_sublist.
Qed.

Lemma remove_dojo_at_wf e id allow_live : keeps (remove_dojo_at e id allow_live).
Proof.
  unfold remove_dojo_at. tx.
  all: match goal with H : find_lair_where _ _ = _ |- _ =>
         apply find_lair_where_focus in H as [Hl _] end.
  all: destruct (lair_focus_wf _ _ _ Hwf Hl) as (L & HL & Hok & Hback).
  all: apply Hback; [done|].
  all: apply sublist_dojos_ok; [done|apply sublist_delete].
Qed.

Lemma rename_dojo_ok l L D1 d D2 name :
  lairs_ok (l :: L) → dojos l = D1 ++ d :: D2 → name_ok name →
  lairs_ok (set_lair_dojos (D1 ++ set_dojo_name name d :: D2) l :: L).
Proof.
  intros (?&?&Hd&Hd2&Hs&Hs2&Hdo&?)%lairs_ok_cons HD Hn. apply lairs_ok_cons.
  unfold lair_dojo_ids, lair_splint_ids in *. simpl. rewrite HD in *.
  rewrite !fmap_app, !bind_app in *. simpl in *.
  apply Forall_app in Hdo as [? [[???] ?]%Forall_cons].
  split_and!; try done. apply Forall_app. split; [done|]. constructor; [by split|done].
Qed.

Lemma rename_dojo_with_promotion_at_wf e id name promote :
  keeps (rename_dojo_with_promotion_at e id name promote).
Proof.
  unfold rename_dojo_with_promotion_at. tx.
  all: match goal with H : find_lair_where _ _ = _ |- _ =>
         apply find_lair_where_focus in H as [Hl _] end.
  all: match goal with H : normalized_name _ = _ |- _ =>
         apply normalized_name_ok in H as [Hn _] end.
  all: destruct (lair_focus_wf _ _ _ Hwf Hl) as (L & HL & Hok & Hback).
  all: apply Hback; [by case_match|].
  3: { case_match; [|done]. by apply lairs_ok_cons in Hok; apply lairs_ok_cons. }
  all: match goal with H : find_mut _ _ = _ |- _ =>
         apply find_mut_Some in H as (D1 & D2 & HD & _ & _ & ->) end.
  all: case_match; simpl in *; [|by apply rename_dojo_ok].
  all: eapply (rename_dojo_ok (set_lair_lifetime _ _)); [|done|done].
  all: by apply lairs_ok_cons in Hok; apply lairs_ok_cons.
Qed.

(** *** Closing a Splint *)

Lemma close_in_dojos_Some ds id ds' :
  close_in_dojos ds id = Some (Ok ds') →
  ∃ D1 d D2 s, ds = D1 ++ d :: D2 ∧ find_splint (root d) id = Some s ∧
    Forall (λ d, find_splint (root d) id = None) D1 ∧
    match remove (root d) id with
    | Ok (Some root') => ∃ f,
        ds' = D1 ++ set_dojo_focus f (set_dojo_root root' d) :: D2 ∧
        f = (if default_focus d =? id then first_splint_id root' else default_focus d)
    | Ok None => ds' = D1 ++ D2
    | _ => False
    end.
Proof.
  revert ds'. induction ds as [|d ds IH]; intros ds'; simpl; [done|].
  destruct (find_splint (root d) id) as [s|] eqn:Hf.
  - intros H. exists [], d, ds, s. split_and!; try done.
    destruct (remove (root d) id) as [[r|]| |]; simplify_eq; [|done].
    eexists. split; [|done]. simpl. destruct d; simpl. by case_match.
  - destruct (close_in_dojos ds id) as [[ds1| |]|]; simpl; try done. intros [= <-].
    destruct (IH ds1 eq_refl) as (D1 & d' & D2 & s & -> & Hs & HD1 & Hr).
    exists (d :: D1), d', D2, s. split_and!; try done; [by constructor|].
    destruct (remove (root d') id) as [[r|]| |]; try done; [|by rewrite Hr].
    destruct Hr as (f & -> & ->). by eexists.
Qed.

Lemma close_in_lairs_Ok m id m' :
  close_in_lairs m id = Ok m' →
  (m' = m ∧ Forall (λ kl, close_in_dojos (dojos kl.2) id = None) m) ∨
  ∃ m1 k l m2 ds', m = m1 ++ (k, l) :: m2 ∧ close_in_dojos (dojos l) id = Some (Ok ds') ∧
    m' = m1 ++ (k, set_lair_dojos ds' l) :: m2.
Proof.
  revert m'. induction m as [|[k l] m IH]; intros m'; simpl.
  { intros [= <-]. left. done. }
  destruct (close_in_dojos (dojos l) id) as [[ds1| |]|] eqn:Hc; simpl; try done.
  - intros [= <-]. right. by exists [], k, l, m, ds1.
  - destruct (close_in_lairs m id) as [m1| |]; simpl; try done. intros [= <-].
    destruct (IH m1 eq_refl) as [[-> ?]|(m2 & k' & l' & m3 & ds' & -> & ? & ->)].
    + left. split; [done|]. by constructor.
    + right. by exists ((k, l) :: m2), k', l', m3, ds'.
Qed.

Lemma remove_leaf_ids node id s node' :
  find_splint node id = Some s → remove node id = Ok (Some node') →
  leaf_ids node ≡ₚ id :: leaf_ids node' ∧ (ratios_valid node → ratios_valid node').
Proof.
  intros Hs Hr. destruct (remove_spec node id s Hs) as (l1 & l2 & Hl & _ & Hspec).
  rewrite Hr in Hspec. destruct Hspec as [Hl' Hv]. split; [|done].
  unfold leaf_ids. rewrite Hl, Hl', !fmap_app. simpl.
  rewrite (find_splint_id _ _ _ Hs). by rewrite Permutation_middle.
Qed.

Lemma close_in_lairs_wf id m' :
  close_in_lairs (lairs t) id = Ok m' → topology_wf (set_lairs m' t).
Proof.
  intros [[-> _]|(m1 & k & l & m2 & ds' & Hm & Hc & ->)]%close_in_lairs_Ok.
  { by destruct t. }
  apply close_in_dojos_Some in Hc as (D1 & d & D2 & s & HD & Hs & _ & Hr).
  assert (lair_focus t l (λ l', set_lairs (m1 ++ (k, l') :: m2) t)) as Hl by by exists m1, k, m2.
  destruct (remove (root d) id) as [[root'|]| |] eqn:Hrem; try done.
  - destruct Hr as (f & -> & Hf).
    assert (dojo_focus t d (λ d', set_lairs (m1 ++ (k, set_lair_dojos (D1 ++ d' :: D2) l) :: m2) t))
      as Hd by by exists l, (λ l', set_lairs (m1 ++ (k, l') :: m2) t), D1, D2.
    destruct (dojo_focus_wf _ _ _ Hwf Hd) as ([Hn Hfo Hv] & Hnd & Hin & Hback).
    destruct (remove_leaf_ids _ _ _ _ Hs Hrem) as [Hp Hv'].
    rewrite Hp in Hnd, Hfo. apply NoDup_cons in Hnd as [Hni Hnd].
    apply Hback; simpl; [done| |done|setoid_rewrite Hp; set_solver].
    split; simpl; [done| |by apply Hv']. rewrite Hf.
    destruct (Z.eqb_spec (default_focus d) id); [apply first_splint_id_leaves|set_solver].
  - rewrite Hr. destruct (lair_focus_wf _ _ _ Hwf Hl) as (L & HL & Hok & Hback).
    apply Hback; [done|]. apply sublist_dojos_ok; [done|]. rewrite HD.
    apply sublist_app; [done|]. by apply sublist_cons.
Qed.

Lemma close_splint_at_wf e id : keeps (close_splint_at e id).
Proof. unfold close_splint_at. tx. all: by eapply close_in_lairs_wf. Qed.

(** All of them. *)
Lemma exec_keeps o : op_args_ok t o → keeps (exec o).
Proof.
  intros Hargs. destruct o; simpl in *; destruct_and?; [..|apply commit_relaunch_wf| | | |];
    (unfold void; apply wp_bind; eapply wp_mono;
      [|first [ apply create_lair_at_wf | by apply insert_lair_at_wf | apply remove_lair_keeps
        | by apply replace_lair_at_wf | by apply split_splint_at_wf | apply close_splint_at_wf
        | by apply set_split_ratio_at_wf | by apply new_dojo_with_promotion_at_wf
        | by apply materialize_dojos_at_wf | by apply materialize_lair_wf
        | apply remove_dojo_at_wf | apply terminate_lair_at_wf | apply set_lair_retention_at_wf
        | apply rename_lair_at_wf | apply rename_dojo_with_promotion_at_wf
        | apply set_dojo_default_focus_at_wf | apply rename_splint_at_wf
        | by apply with_splint_wf ]]; by intros [] t').
Qed.
End preservation.

(** ** Errors and revisions *)

(** Whether a successful run of the operation moves the revision. *)
Definition op_bumps (t : Topology) (o : op) : bool :=
  match o with
  | OpRemoveLair id => bt_contains (lairs t) id
  | OpCommitRelaunch _ _ _ | OpSetLaunch _ _ | OpSetIncarnation _ _
  | OpSetDimensions _ _ _ | OpSetState _ _ => false
  | _ => true
  end.

(** A failed transaction leaves the topology as it was; a successful one ends
    at the revision the operation promises; the only panic is an exhausted
    revision. *)
Definition tx_post {A} (t : Topology) (bumps : bool) (r : outcome TopologyError A)
    (t' : Topology) : Prop :=
  match r with
  | Ok _ => revision t' = if bumps then revision t + 1 else revision t
  | Err _ => t' = t
  | Panic => revision t = u64_max
  end.

Lemma set_lairs_id t : set_lairs (lairs t) t = t.
Proof. by destruct t. Qed.

Lemma lair_focus_id t l back : lair_focus t l back → back l = t.
Proof. intros (m1 & k & m2 & Hm & Hb). rewrite Hb, <-Hm. apply set_lairs_id. Qed.

Lemma dojo_focus_id t d back : dojo_focus t d back → back d = t.
Proof.
  intros (l & lback & D1 & D2 & Hl & HD & Hb).
  rewrite Hb, <-HD, set_lair_dojos_id. by eapply lair_focus_id.
Qed.

Lemma dojo_focus_revision t d back d' : dojo_focus t d back → revision (back d') = revision t.
Proof.
  intros (l & lback & D1 & D2 & Hl & HD & Hb). rewrite Hb. by eapply lair_focus_revision.
Qed.

Lemma splint_focus_revision t id s back s' :
  find_splint_in_mut t id = Some (s, back) → revision (back s') = revision t.
Proof.
  intros (d & dback & nback & Hd & _ & Hb)%find_splint_in_mut_focus.
  rewrite Hb. by eapply dojo_focus_revision.
Qed.

Lemma lair_get_mut_revision t id l back l' :
  lair_get_mut t id = Some (l, back) → revision (back l') = revision t.
Proof. intros [H _]%lair_get_mut_focus. by eapply lair_focus_revision. Qed.

Lemma find_lair_where_revision p t l back l' :
  find_lair_where p t = Some (l, back) → revision (back l') = revision t.
Proof. intros [H _]%find_lair_where_focus. by eapply lair_focus_revision. Qed.

Lemma find_dojo_where_revision p t d back d' :
  find_dojo_where p t = Some (d, back) → revision (back d') = revision t.
Proof. intros [H _]%find_dojo_where_focus. by eapply dojo_focus_revision. Qed.

Lemma position_Some {A} (p : A → bool) l :
  existsb p l = true → ∃ i x, position p l = Some i ∧ l !! i = Some x.
Proof.
  induction l as [|y l IH]; simpl; [done|]. destruct (p y); [by exists O, y|].
  intros (i & x & -> & Hx)%IH. by exists (S i), x.
Qed.

Lemma find_mut_exists {A} (p : A → bool) l :
  existsb p l = true → find_mut p l ≠ None.
Proof.
  intros He Hn%find_mut_None. apply existsb_exists in He as (x & Hin%list_elem_of_In & Hp).
  rewrite Forall_forall in Hn. specialize (Hn x Hin). congruence.
Qed.

(** Revisions seen through the borrows of a transaction. *)
Ltac tx_revision :=
  simpl; first
    [ erewrite lair_get_mut_revision by eassumption
    | erewrite find_lair_where_revision by eassumption
    | erewrite find_dojo_where_revision by eassumption
    | erewrite splint_focus_revision by eassumption
    | idtac ]; simpl.

(** Validation never panics. *)
Lemma normalized_name_no_panic n : normalized_name n ≠ Panic.
Proof. unfold normalized_name. repeat case_match; done. Qed.

Lemma validate_name_no_panic n : validate_name n ≠ Panic.
Proof.
  unfold validate_name, map_ok. pose proof (normalized_name_no_panic n).
  by destruct (normalized_name n).
Qed.

Lemma collect_no_panic t node ids : collect_new_splint_ids t node ids ≠ Panic.
Proof.
  revert ids. induction node as [s|ax r f IHf g IHg]; intros ids; simpl; [by case_match|].
  specialize (IHf ids). destruct (collect_new_splint_ids t f ids); simpl; [apply IHg|done..].
Qed.

Lemma validate_new_dojos_no_panic t ds : validate_new_dojos t ds ≠ Panic.
Proof.
  unfold validate_new_dojos. generalize (∅ : gset Z) at 1 as dids. generalize (∅ : gset Z) as sids.
  induction ds as [|d ds IH]; intros sids dids; simpl; [done|].
  pose proof (validate_name_no_panic (dojo_name d)).
  destruct (validate_name (dojo_name d)); simpl; [|done..].
  destruct (_ || _); [done|]. destruct (find_splint _ _); [|done].
  pose proof (collect_no_panic t (root d) sids).
  destruct (collect_new_splint_ids t (root d) sids); simpl; [apply IH|done..].
Qed.

Lemma close_in_lairs_Ok_only m id : ∃ m', close_in_lairs m id = Ok m'.
Proof.
  assert (∀ ds r, close_in_dojos ds id = Some r → ∃ ds', r = Ok ds') as Hd.
  { induction ds as [|d ds IH]; intros r; simpl; [done|].
    destruct (find_splint (root d) id) as [s|] eqn:Hs.
    - destruct (remove_spec _ _ _ Hs) as (l1 & l2 & _ & _ & Hr).
      destruct (remove (root d) id) as [[r'|]| |]; try done; intros [= <-]; eauto.
    - destruct (close_in_dojos ds id) as [r'|]; [|done]. intros [= <-].
      destruct (IH r' eq_refl) as [ds' ->]. simpl. eauto. }
  induction m as [|[k l] m [m' IH]]; simpl; [eauto|].
  destruct (close_in_dojos (dojos l) id) as [r|] eqn:Hc.
  - destruct (Hd _ _ Hc) as [ds' ->]. simpl. eauto.
  - rewrite IH. simpl. eauto.
Qed.

Ltac tx_absurd :=
  match goal with
  | H : normalized_name _ = Panic |- _ => by destruct (normalized_name_no_panic _ H)
  | H : validate_name _ = Panic |- _ => by destruct (validate_name_no_panic _ H)
  | H : validate_new_dojos _ _ = Panic |- _ => by destruct (validate_new_dojos_no_panic _ _ H)
  | H : map_ok _ (normalized_name ?n) = Panic |- _ =>
      pose proof (normalized_name_no_panic n); by destruct (normalized_name n)
  end.

Ltac tx_close :=
  repeat match goal with x : unit |- _ => destruct x | x : borrow _ _ |- _ => destruct x end;
  simplify_eq/=; try tx_absurd;
  repeat match goal with
         | H : _ + 1 <= u64_max |- _ => revert H; tx_revision; intros H
         | H : u64_max < _ + 1 |- _ => revert H; tx_revision; intros H
         end;
  unfold tx_post; simpl; try done; try (tx_revision; lia); try lia.

Ltac tx_run := repeat tx_step; tx_close.

Section posts.
Context (t : Topology) (Hwf : topology_wf t).

Let Hrev : revision t ≤ u64_max.
Proof. apply Hwf. Qed.

Abbreviation posts b m := (wp m (tx_post t b) t).

Lemma insert_lair_at_post e l : posts true (insert_lair_at e l).
Proof. unfold insert_lair_at. tx_run. Qed.

Lemma insert_lair_at_present e l :
  wp (insert_lair_at e l)
    (λ r t', is_ok r = true → bt_get (lairs t') (lair_id l) = Some l) t.
Proof.
  unfold insert_lair_at. repeat tx_step; simpl; try done.
  intros _. rewrite bt_get_insert by apply Hwf. by rewrite Z.eqb_refl.
Qed.

Lemma create_lair_at_post draw e name cwd : posts true (create_lair_at draw e name cwd).
Proof.
  unfold create_lair_at. do 4 (tx_step; try by tx_close). apply wp_bind.
  pose proof (insert_lair_at_post e (Lair_new draw a cwd)) as Hpost.
  pose proof (insert_lair_at_present e (Lair_new draw a cwd)) as Hget.
  unfold wp at 1. unfold wp in Hpost, Hget.
  destruct (insert_lair_at _ _ t) as [[r| |] t']; simpl in *; [|done..].
  specialize (Hget eq_refl). repeat tx_step; simpl in *; [done|congruence].
Qed.

Lemma remove_lair_post id : posts (bt_contains (lairs t) id) (remove_lair id).
Proof.
  unfold remove_lair, bt_contains. tx_run.
Qed.

Lemma replace_lair_at_post e k l : posts true (replace_lair_at e k l).
Proof. unfold replace_lair_at. tx_run. Qed.

Lemma split_splint_at_post e target new axis side ratio :
  posts true (split_splint_at e target new axis side ratio).
Proof.
  unfold split_splint_at. tx_run.
  all: match goal with H : find_dojo_where _ _ = _ |- _ =>
         apply find_dojo_where_focus in H as [Hd [s Hs]%bool_decide_eq_true] end.
  all: destruct (split_spec _ _ new axis side ratio _ Hs) as (n' & l1 & l2 & Hsp & _).
  all: rewrite Hsp in *; by simplify_eq.
Qed.

Lemma close_splint_at_post e id : posts true (close_splint_at e id).
Proof.
  unfold close_splint_at. tx_run.
  destruct (close_in_lairs_Ok_only (lairs t) id) as [m' ?]. congruence.
Qed.

Lemma set_split_ratio_at_post e target ancestor ratio :
  0 ≤ ancestor → posts true (set_split_ratio_at e target ancestor ratio).
Proof.
  intros Ha. unfold set_split_ratio_at. tx_run.
  match goal with H : find_dojo_where _ _ = _ |- _ =>
    apply find_dojo_where_focus in H as [Hd _] end.
  match goal with H : negb ?b = true |- _ => destruct b; [done|] end.
  match goal with H : set_ancestor_ratio _ _ _ _ = _ |- _ =>
    apply set_ancestor_ratio_false in H; [|done] end.
  subst. match goal with d : Dojo |- _ => destruct d end. by eapply dojo_focus_id.
Qed.

Lemma new_dojo_post e l d p : posts true (new_dojo_with_promotion_at e l d p).
Proof. unfold new_dojo_with_promotion_at. tx_run. Qed.

Lemma materialize_dojos_at_post e l rename ds : posts true (materialize_dojos_at e l rename ds).
Proof.
  unfold materialize_dojos_at. do 4 (tx_step; try by tx_close). destruct rename; tx_run.
  destruct (normalized_name _); simpl in *; simplify_eq. tx_run.
Qed.

Lemma materialize_lair_post id e name ds prov :
  posts true (materialize_lair_with_provenance_at id e name ds prov).
Proof. unfold materialize_lair_with_provenance_at. tx_run. Qed.

Lemma remove_dojo_at_post e id live : posts true (remove_dojo_at e id live).
Proof.
  unfold remove_dojo_at. tx_run.
  all: match goal with H : find_lair_where _ _ = _ |- _ =>
         apply find_lair_where_focus in H as [_ Hp] end.
  all: apply position_Some in Hp as (i & x & Hpos & Hx); congruence.
Qed.

Lemma terminate_lair_at_post e id : posts true (terminate_lair_at e id).
Proof.
  unfold terminate_lair_at. tx_run. rewrite bt_remove_absent by done. apply set_lairs_id.
Qed.

Lemma set_lair_retention_at_post e id r : posts true (set_lair_retention_at e id r).
Proof. unfold set_lair_retention_at. tx_run. Qed.

Lemma rename_lair_at_post e id name : posts true (rename_lair_at e id name).
Proof. unfold rename_lair_at. tx_run. Qed.

Lemma rename_dojo_post e id name p :
  posts true (rename_dojo_with_promotion_at e id name p).
Proof.
  unfold rename_dojo_with_promotion_at. tx_run.
  match goal with H : find_lair_where _ _ = _ |- _ =>
    apply find_lair_where_focus in H as [_ Hp%find_mut_exists] end.
  exfalso. apply Hp. by case_match.
Qed.

Lemma set_dojo_default_focus_at_post e id s : posts true (set_dojo_default_focus_at e id s).
Proof. unfold set_dojo_default_focus_at, find_dojo_mut. tx_run. Qed.

Lemma rename_splint_at_post e id name : posts true (rename_splint_at e id name).
Proof. unfold rename_splint_at. tx_run. Qed.

Lemma commit_relaunch_post id cwd' cmd : posts false (commit_relaunch id cwd' cmd).
Proof. unfold commit_relaunch. tx_run. Qed.

Lemma with_splint_post id f : posts false (with_splint id f).
Proof. unfold with_splint. tx_run. Qed.

Lemma exec_posts o : op_args_ok t o → posts (op_bumps t o) (exec o).
Proof.
  intros Hargs. destruct o; simpl in *; destruct_and?; [..|apply commit_relaunch_post| | | |];
    (unfold void; apply wp_bind; eapply wp_mono;
      [|first [ apply create_lair_at_post | apply insert_lair_at_post | apply remove_lair_post
        | apply replace_lair_at_post | apply split_splint_at_post | apply close_splint_at_post
        | by apply set_split_ratio_at_post | apply new_dojo_post
        | apply materialize_dojos_at_post | apply materialize_lair_post
        | apply remove_dojo_at_post | apply terminate_lair_at_post
        | apply set_lair_retention_at_post | apply rename_lair_at_post | apply rename_dojo_post
        | apply set_dojo_default_focus_at_post | apply rename_splint_at_post
        | apply with_splint_post ]]; by intros [] t').
Qed.
End posts.
