(* ===== verification/TopologyRefine.v ===== *)
(** * The topology refines a flat table of placed Splints

    The specification of the topology is one finite map: for each Splint
    identifier, the Lair and the Dojo it is placed in and the Splint itself.
    [spec] says what each transaction does to that table; the nested Lairs,
    Dojos and layout trees implement it. *)

From stdpp Require Import gmap.
From S2P Require Import Prelude RustStd Layout Topology TopologyInv TopologySteps.

Record placed := { at_lair : Z; at_dojo : Z; what : Splint }.

(** ** The table *)

Definition dojo_entries (lair : Z) (d : Dojo) : list (Z * placed) :=
  (λ s, (splint_id s, {| at_lair := lair; at_dojo := dojo_id d; what := s |})) <$> leaves (root d).

Definition dojos_entries (lair : Z) (ds : list Dojo) : list (Z * placed) :=
  ds ≫= dojo_entries lair.

Definition lair_entries (l : Lair) : list (Z * placed) := dojos_entries (lair_id l) (dojos l).

Definition entries (t : Topology) : list (Z * placed) := bt_values (lairs t) ≫= lair_entries.

Definition table (t : Topology) : gmap Z placed := list_to_map (entries t).

Definition place_dojos (lair : Z) (ds : list Dojo) : gmap Z placed :=
  list_to_map (dojos_entries lair ds).

(** ** The specification *)

Definition on_splint (f : Splint → Splint) (p : placed) : placed :=
  {| at_lair := at_lair p; at_dojo := at_dojo p; what := f (what p) |}.

Definition not_in_lair (id : Z) (e : Z * placed) : Prop := at_lair e.2 ≠ id.
Definition not_in_dojo (id : Z) (e : Z * placed) : Prop := at_dojo e.2 ≠ id.

#[export] Instance not_in_lair_dec id e : Decision (not_in_lair id e).
Proof. unfold not_in_lair. apply _. Defined.
#[export] Instance not_in_dojo_dec id e : Decision (not_in_dojo id e).
Proof. unfold not_in_dojo. apply _. Defined.

Definition spec (o : op) (m : gmap Z placed) : gmap Z placed :=
  match o with
  | OpCreateLair draw _ _ cwd =>
      <[draw_splint draw := {| at_lair := draw_lair draw; at_dojo := draw_dojo draw;
                               what := Splint_shell (draw_splint draw) cwd |}]> m
  | OpInsertLair _ l => place_dojos (lair_id l) (dojos l) ∪ m
  | OpRemoveLair id | OpTerminateLair _ id => filter (not_in_lair id) m
  | OpReplaceLair _ id l =>
      place_dojos (lair_id l) (dojos l) ∪ filter (not_in_lair id) m
  | OpSplitSplint _ target new _ _ _ =>
      match m !! target with
      | Some p => <[splint_id new := on_splint (λ _, new) p]> m
      | None => m
      end
  | OpCloseSplint _ id => delete id m
  | OpNewDojo _ l d _ => place_dojos l [d] ∪ m
  | OpMaterializeDojos _ l _ ds => place_dojos l ds ∪ m
  | OpMaterializeLair id _ _ ds _ => place_dojos id ds ∪ m
  | OpRemoveDojo _ id _ => filter (not_in_dojo id) m
  | OpRenameSplint _ id name => alter (on_splint (set_title (trim name))) id m
  | OpCommitRelaunch id cwd command => alter (on_splint (relaunched cwd command)) id m
  | OpSetLaunch id l => alter (on_splint (set_launch l)) id m
  | OpSetIncarnation id n => alter (on_splint (set_incarnation (Some n))) id m
  | OpSetDimensions id columns rows =>
      alter (on_splint (λ s, set_launch (set_dimensions columns rows (launch s)) s)) id m
  | OpSetState id st => alter (on_splint (set_state st)) id m
  | OpSetSplitRatio _ _ _ _ | OpSetRetention _ _ _ | OpRenameLair _ _ _
  | OpRenameDojo _ _ _ _ | OpSetDefaultFocus _ _ _ => m
  end.

(** ** Tables of well-formed topologies *)

Lemma dojo_entries_keys lair d : (dojo_entries lair d).*1 = leaf_ids (root d).
Proof. unfold dojo_entries, leaf_ids. rewrite <-list_fmap_compose. done. Qed.

Lemma dojos_entries_keys lair ds : (dojos_entries lair ds).*1 = ds ≫= dojo_splint_ids.
Proof.
  unfold dojos_entries. induction ds as [|d ds IH]; csimpl; [done|].
  by rewrite fmap_app, dojo_entries_keys, IH.
Qed.

Lemma entries_keys t : (entries t).*1 = all_splint_ids t.
Proof.
  unfold entries, all_splint_ids. induction (bt_values (lairs t)) as [|l L IH]; csimpl; [done|].
  unfold lair_entries at 1. by rewrite fmap_app, dojos_entries_keys, IH.
Qed.

Lemma table_elem t x p : topology_wf t → table t !! x = Some p ↔ (x, p) ∈ entries t.
Proof.
  intros Hwf. unfold table. symmetry. apply elem_of_list_to_map.
  rewrite entries_keys. apply (ok_splint_ids _ (wf_lairs _ Hwf)).
Qed.

Lemma place_dojos_elem lair ds x p :
  NoDup (ds ≫= dojo_splint_ids) →
  place_dojos lair ds !! x = Some p ↔ (x, p) ∈ dojos_entries lair ds.
Proof.
  intros Hnd. unfold place_dojos. symmetry. apply elem_of_list_to_map.
  by rewrite dojos_entries_keys.
Qed.

(** Lookup of a Splint is lookup in the table. *)
Lemma find_splint_in_table t id :
  topology_wf t → find_splint_in t id = what <$> table t !! id.
Proof.
  intros Hwf. destruct (table t !! id) as [p|] eqn:Hp; simpl.
  - apply table_elem in Hp; [|done]. unfold entries, lair_entries, dojos_entries in Hp.
    apply list_elem_of_bind in Hp as (l & Hp & Hl).
    apply list_elem_of_bind in Hp as (d & Hp & Hd).
    apply list_elem_of_fmap in Hp as (s & [= -> ->] & Hs). simpl.
    unfold find_splint_in, all_dojos.
    pose proof (ok_splint_ids _ (wf_lairs _ Hwf)) as Hnd.
    assert (NoDup ((bt_values (lairs t) ≫= dojos) ≫= dojo_splint_ids)) as Hnd'.
    { assert (bt_values (lairs t) ≫= lair_splint_ids =
              (bt_values (lairs t) ≫= dojos) ≫= dojo_splint_ids) as <-; [|done].
      clear. induction (bt_values (lairs t)) as [|l L IH]; csimpl; [done|].
      by rewrite bind_app, IH. }
    assert (d ∈ bt_values (lairs t) ≫= dojos) as Hin
      by (apply list_elem_of_bind; eauto). clear -Hnd' Hin Hs.
    induction (bt_values (lairs t) ≫= dojos) as [|d0 D IH]; [set_solver|]. csimpl in *.
    apply NoDup_app in Hnd' as (Hnd1 & Hdisj & Hnd2).
    apply elem_of_cons in Hin as [->|Hin].
    + by rewrite (find_splint_unique (root d0) s).
    + rewrite (proj2 (find_splint_None _ _)); [by apply IH|].
      intros Hx. apply (Hdisj _ Hx). apply list_elem_of_bind. exists d. split; [|done].
      unfold dojo_splint_ids, leaf_ids. apply list_elem_of_fmap. eauto.
  - apply find_splint_in_None. rewrite <-entries_keys.
    unfold table in Hp. by apply not_elem_of_list_to_map_2 in Hp.
Qed.

(** A mutable lookup fails exactly when a lookup does. *)
Lemma find_splint_in_mut_None t id :
  find_splint_in_mut t id = None → find_splint_in t id = None.
Proof.
  unfold find_splint_in_mut, dojos_find_mut, lairs_find_mut, find_splint_in, all_dojos, bt_values.
  destruct (find_map_mut _ (lairs t)) as [[??]|] eqn:Hm; [done|]. intros _.
  apply find_map_mut_None in Hm. apply find_map_None, Forall_forall.
  intros d (l & Hd & ([k l'] & -> & Hl)%list_elem_of_fmap)%list_elem_of_bind. simpl in Hd.
  pose proof (proj1 (Forall_forall _ _) Hm _ Hl) as Hx. simpl in Hx.
  destruct (find_map_mut _ (dojos l')) as [[??]|] eqn:Hd'; [done|].
  apply find_map_mut_None in Hd'. pose proof (proj1 (Forall_forall _ _) Hd' _ Hd) as Hy.
  simpl in Hy. apply find_splint_mut_None. by destruct (find_splint_mut (root d) id) as [[??]|].
Qed.

(** ** Entries through borrows *)

Lemma table_perm t E : topology_wf t → entries t ≡ₚ E → table t = list_to_map E.
Proof.
  intros Hwf HE. unfold table. apply list_to_map_proper; [|done].
  rewrite entries_keys. apply (ok_splint_ids _ (wf_lairs _ Hwf)).
Qed.

Lemma entries_insert m k l t :
  bt_get m k = None → entries (set_lairs (bt_insert m k l) t) ≡ₚ
    lair_entries l ++ (bt_values m ≫= lair_entries).
Proof. intros Hn. unfold entries. simpl. by rewrite bt_insert_values. Qed.

Lemma entries_remove t k l :
  bt_get (lairs t) k = Some l →
  entries t ≡ₚ lair_entries l ++ entries (set_lairs (bt_remove (lairs t) k) t).
Proof. intros Hn. unfold entries. simpl. by rewrite (bt_remove_values _ k l). Qed.

Lemma lair_focus_entries t l back :
  lair_focus t l back →
  ∃ R, entries t ≡ₚ lair_entries l ++ R ∧ ∀ l', entries (back l') ≡ₚ lair_entries l' ++ R.
Proof.
  intros (m1 & k & m2 & Hm & Hb).
  exists ((bt_values m1 ≫= lair_entries) ++ (bt_values m2 ≫= lair_entries)).
  assert (∀ l', bt_values (m1 ++ (k, l') :: m2) ≫= lair_entries ≡ₚ
    lair_entries l' ++ (bt_values m1 ≫= lair_entries) ++ (bt_values m2 ≫= lair_entries)) as H.
  { intros l'. unfold bt_values. rewrite fmap_app, bind_app. csimpl.
    by rewrite Permutation_app_swap_app. }
  unfold entries. split; [rewrite Hm; apply H|]. intros l'. rewrite Hb. apply H.
Qed.

Lemma dojos_entries_split k D1 d D2 :
  dojos_entries k (D1 ++ d :: D2) ≡ₚ
    dojo_entries k d ++ dojos_entries k D1 ++ dojos_entries k D2.
Proof.
  unfold dojos_entries. rewrite bind_app. csimpl. by rewrite Permutation_app_swap_app.
Qed.

Lemma dojo_focus_entries t d back :
  dojo_focus t d back →
  ∃ R k, entries t ≡ₚ dojo_entries k d ++ R ∧ ∀ d', entries (back d') ≡ₚ dojo_entries k d' ++ R.
Proof.
  intros (l & lback & D1 & D2 & Hl & HD & Hb).
  apply lair_focus_entries in Hl as (R & HR & Hback).
  exists ((dojos_entries (lair_id l) D1 ++ dojos_entries (lair_id l) D2) ++ R), (lair_id l).
  split.
  - rewrite HR. unfold lair_entries. rewrite HD, dojos_entries_split. by rewrite <-app_assoc.
  - intros d'. rewrite Hb, Hback. unfold lair_entries. simpl.
    rewrite dojos_entries_split. by rewrite <-app_assoc.
Qed.

Lemma splint_focus_entries t id s back :
  find_splint_in_mut t id = Some (s, back) →
  splint_id s = id ∧ ∃ R k dj,
    entries t ≡ₚ (id, {| at_lair := k; at_dojo := dj; what := s |}) :: R ∧
    ∀ s', entries (back s') ≡ₚ
      (splint_id s', {| at_lair := k; at_dojo := dj; what := s' |}) :: R.
Proof.
  intros (d & dback & nback & Hd & Hf & Hb)%find_splint_in_mut_focus.
  apply dojo_focus_entries in Hd as (R & k & HR & Hback).
  apply find_splint_mut_Some in Hf as (Hs & l1 & l2 & Hl & _ & Hput).
  apply find_splint_id in Hs. split; [done|].
  set (f := λ s, (splint_id s, {| at_lair := k; at_dojo := dojo_id d; what := s |})).
  exists ((f <$> l1 ++ l2) ++ R), k, (dojo_id d). split.
  - rewrite HR. unfold dojo_entries. rewrite Hl, !fmap_app. simpl.
    rewrite <-Permutation_middle, Hs. done.
  - intros s'. rewrite Hb, Hback. unfold dojo_entries. simpl.
    rewrite (proj1 (Hput s')), !fmap_app. simpl. by rewrite <-Permutation_middle.
Qed.

(** ** From entries to tables *)

Section tables.
Context (t t' : Topology) (Hwf : topology_wf t) (Hwf' : topology_wf t').

Lemma table_same : entries t' ≡ₚ entries t → table t' = table t.
Proof. intros H. by apply table_perm. Qed.

Lemma table_place k ds :
  entries t' ≡ₚ dojos_entries k ds ++ entries t → table t' = place_dojos k ds ∪ table t.
Proof. intros H. rewrite (table_perm _ _ Hwf' H). apply list_to_map_app. Qed.

Lemma table_update id s s' R k dj f :
  entries t ≡ₚ (id, {| at_lair := k; at_dojo := dj; what := s |}) :: R →
  entries t' ≡ₚ (splint_id s', {| at_lair := k; at_dojo := dj; what := s' |}) :: R →
  splint_id s' = id → s' = f s → table t' = alter (on_splint f) id (table t).
Proof.
  intros H H' Hid ->. rewrite (table_perm _ _ Hwf H), (table_perm _ _ Hwf' H'). simpl.
  by rewrite Hid, alter_insert_eq.
Qed.

Lemma table_filter (P : Z * placed → Prop) `{!∀ e, Decision (P e)} :
  (∀ e, e ∈ entries t' ↔ e ∈ entries t ∧ P e) → table t' = filter P (table t).
Proof.
  intros HP. apply map_eq. intros x. apply option_eq. intros p.
  rewrite map_lookup_filter_Some, !table_elem by done. apply HP.
Qed.
End tables.

Lemma lair_entries_at l e : e ∈ lair_entries l → at_lair e.2 = lair_id l.
Proof.
  unfold lair_entries, dojos_entries, dojo_entries.
  intros (d & (s & -> & _)%list_elem_of_fmap & _)%list_elem_of_bind. done.
Qed.

Lemma dojo_entries_at k d e : e ∈ dojo_entries k d → at_dojo e.2 = dojo_id d.
Proof. intros (s & -> & _)%list_elem_of_fmap. done. Qed.

(** Removing a Lair drops exactly the entries placed in it. *)
Lemma removed_entries t k :
  topology_wf t →
  ∀ e, e ∈ entries (set_lairs (bt_remove (lairs t) k) t) ↔ e ∈ entries t ∧ not_in_lair k e.
Proof.
  intros Hwf. assert (∀ e, e ∈ entries (set_lairs (bt_remove (lairs t) k) t) → not_in_lair k e) as Ho.
  { intros e (l & He & Hl)%list_elem_of_bind. unfold not_in_lair.
    rewrite (lair_entries_at _ _ He). apply list_elem_of_fmap in Hl as ([k' l'] & -> & Hl). simpl in *.
    apply bt_remove_elem in Hl as [Hne Hin]; [|apply Hwf].
    pose proof (proj1 (Forall_forall _ _) (wf_keys _ Hwf) _ Hin) as Hk. simpl in Hk. congruence. }
  intros e. destruct (bt_get (lairs t) k) as [l|] eqn:Hg.
  - rewrite (entries_remove _ _ _ Hg), elem_of_app. split; [naive_solver|].
    intros [[He|He] Hn]; [|done]. exfalso. apply Hn.
    apply bt_get_elem in Hg; [|apply Hwf].
    pose proof (proj1 (Forall_forall _ _) (wf_keys _ Hwf) _ Hg) as Hk. simpl in Hk.
    rewrite (lair_entries_at _ _ He). done.
  - split; [|rewrite bt_remove_absent, set_lairs_id by done; naive_solver].
    intros He. split; [|by apply Ho]. by rewrite bt_remove_absent, set_lairs_id in He.
Qed.

(** ** Each transaction meets its specification *)

Section refinement.
Context (t : Topology) (Hwf : topology_wf t).

(** A successful run from [t] turns the table into [m]. *)
Abbreviation yields x m :=
  (wp x (λ r t', is_ok r = true → topology_wf t' → table t' = m) t).

Lemma insert_lair_at_refines e l :
  yields (insert_lair_at e l) (place_dojos (lair_id l) (dojos l) ∪ table t).
Proof.
  unfold insert_lair_at. repeat tx_step; try done. intros _ Hwf'.
  apply table_place; [done|]. apply (entries_insert _ _ _ t).
  by apply bt_contains_false.
Qed.

Lemma materialize_lair_refines id e name ds prov :
  bt_get (lairs t) id = None →
  yields (materialize_lair_with_provenance_at id e name ds prov) (place_dojos id ds ∪ table t).
Proof.
  intros Hn. unfold materialize_lair_with_provenance_at. repeat tx_step; try done. intros _ Hwf'.
  apply table_place; [done|]. etrans; [by apply (entries_insert _ _ _ t)|done].
Qed.

Lemma create_lair_at_refines draw e name cwd :
  yields (create_lair_at draw e name cwd)
    (<[draw_splint draw := {| at_lair := draw_lair draw; at_dojo := draw_dojo draw;
         what := Splint_shell (draw_splint draw) cwd |}]> (table t)).
Proof.
  unfold create_lair_at. do 4 (tx_step; try done). apply wp_bind.
  pose proof (insert_lair_at_refines e (Lair_new draw a cwd)) as Hi.
  unfold wp at 1. unfold wp in Hi.
  destruct (insert_lair_at _ _ t) as [[r| |] t']; simpl in *; [|done..].
  repeat tx_step; [|done]. intros _ Hwf'. rewrite Hi by done.
  unfold place_dojos. simpl. by rewrite insert_empty, insert_union_singleton_l.
Qed.

Lemma remove_lair_refines id : yields (remove_lair id) (filter (not_in_lair id) (table t)).
Proof.
  unfold remove_lair. repeat tx_step; try done; intros _ Hwf'.
  all: apply table_filter; [done|done|].
  all: by apply removed_entries.
Qed.

Lemma terminate_lair_at_refines e id :
  yields (terminate_lair_at e id) (filter (not_in_lair id) (table t)).
Proof.
  unfold terminate_lair_at. repeat tx_step; try done; intros _ Hwf'.
  all: apply table_filter; [done|done|].
  all: by apply removed_entries.
Qed.

Lemma replace_lair_at_refines e id l :
  yields (replace_lair_at e id l)
    (place_dojos (lair_id l) (dojos l) ∪ filter (not_in_lair id) (table t)).
Proof.
  unfold replace_lair_at. repeat tx_step; try done; intros _ Hwf'.
  pose proof (remove_lair_wf t id Hwf) as Hwf1.
  rewrite (table_place (set_lairs (bt_remove (lairs t) id) t) _ Hwf' (lair_id l) (dojos l)).
  - f_equal. apply table_filter; [done|done|]. by apply removed_entries.
  - apply (entries_insert _ _ _ t). simpl. rewrite bt_get_remove by apply Hwf.
    case_match; [done|]. by apply bt_contains_false.
Qed.

Lemma append_refines t' l lback ds l' :
  lair_focus t l lback → lair_id l' = lair_id l → dojos l' = dojos l ++ ds →
  topology_wf t' → entries t' = entries (lback l') →
  table t' = place_dojos (lair_id l) ds ∪ table t.
Proof.
  intros (R & HR & Hback)%lair_focus_entries Hid Hd Hwf' He. apply table_place; [done|].
  rewrite He, Hback, HR. unfold lair_entries, dojos_entries. rewrite Hid, Hd, bind_app.
  rewrite <-app_assoc. apply Permutation_app_swap_app.
Qed.

Lemma lair_get_mut_id id l back : lair_get_mut t id = Some (l, back) → lair_id l = id.
Proof.
  intros [_ Hin]%lair_get_mut_focus.
  by apply (proj1 (Forall_forall _ _) (wf_keys _ Hwf) (id, l)).
Qed.

Lemma new_dojo_refines e id d p :
  yields (new_dojo_with_promotion_at e id d p) (place_dojos id [d] ∪ table t).
Proof.
  unfold new_dojo_with_promotion_at. repeat tx_step; try done; intros _ Hwf'.
  match goal with H : lair_get_mut _ _ = _ |- _ =>
    pose proof (lair_get_mut_id _ _ _ H) as <-; apply lair_get_mut_focus in H as [Hl _] end.
  eapply append_refines; [exact Hl| | |done|done]; by case_match.
Qed.

Lemma materialize_dojos_at_refines e id rename ds :
  yields (materialize_dojos_at e id rename ds) (place_dojos id ds ∪ table t).
Proof.
  unfold materialize_dojos_at. do 4 (tx_step; try done). destruct rename as [name|].
  - destruct (normalized_name name) as [name'| |] eqn:Hname; simpl; repeat tx_step; try done.
    simplify_eq/=. repeat tx_step; try done. intros _ Hwf'.
    match goal with H : lair_get_mut _ _ = _ |- _ =>
      pose proof (lair_get_mut_id _ _ _ H) as <-; apply lair_get_mut_focus in H as [Hl _] end.
    by eapply append_refines; [exact Hl| | |done|done].
  - repeat tx_step; try done. intros _ Hwf'.
    match goal with H : lair_get_mut _ _ = _ |- _ =>
      pose proof (lair_get_mut_id _ _ _ H) as <-; apply lair_get_mut_focus in H as [Hl _] end.
    by eapply append_refines; [exact Hl| | |done|done].
Qed.

(** Edits that keep every Dojo's Splints. *)
Lemma lair_edit_refines t' l lback l' :
  lair_focus t l lback → lair_entries l' = lair_entries l →
  topology_wf t' → entries t' = entries (lback l') → table t' = table t.
Proof.
  intros (R & HR & Hback)%lair_focus_entries Hl Hwf' He. apply table_same; [done|].
  by rewrite He, Hback, HR, Hl.
Qed.

Lemma dojo_edit_refines t' d back d' :
  dojo_focus t d back → dojo_id d' = dojo_id d → leaves (root d') = leaves (root d) →
  topology_wf t' → entries t' = entries (back d') → table t' = table t.
Proof.
  intros (R & k & HR & Hback)%dojo_focus_entries Hid Hl Hwf' He. apply table_same; [done|].
  rewrite He, Hback, HR. unfold dojo_entries. by rewrite Hid, Hl.
Qed.

Lemma rename_lair_at_refines e id name : yields (rename_lair_at e id name) (table t).
Proof.
  unfold rename_lair_at. repeat tx_step; try done; intros _ Hwf'.
  match goal with H : lair_get_mut _ _ = _ |- _ => apply lair_get_mut_focus in H as [Hl _] end.
  by eapply lair_edit_refines; [exact Hl| |done|done].
Qed.

Lemma set_lair_retention_at_refines e id r : yields (set_lair_retention_at e id r) (table t).
Proof.
  unfold set_lair_retention_at. repeat tx_step; try done; intros _ Hwf'.
  match goal with H : lair_get_mut _ _ = _ |- _ => apply lair_get_mut_focus in H as [Hl _] end.
  by eapply lair_edit_refines; [exact Hl| |done|done].
Qed.

Lemma rename_dojo_refines e id name p :
  yields (rename_dojo_with_promotion_at e id name p) (table t).
Proof.
  unfold rename_dojo_with_promotion_at. repeat tx_step; try done; intros _ Hwf'.
  match goal with H : find_lair_where _ _ = _ |- _ => apply find_lair_where_focus in H as [Hl _] end.
  match goal with H : find_mut _ _ = _ |- _ =>
    apply find_mut_Some in H as (D1 & D2 & HD & _ & _ & Hb) end.
  eapply lair_edit_refines; [exact Hl| |done|done].
  unfold lair_entries. simpl. rewrite Hb. revert HD. case_match; simpl; intros ->;
    unfold dojos_entries; by rewrite !bind_app.
Qed.

Lemma set_dojo_default_focus_at_refines e id s :
  yields (set_dojo_default_focus_at e id s) (table t).
Proof.
  unfold set_dojo_default_focus_at, find_dojo_mut. repeat tx_step; try done; intros _ Hwf'.
  match goal with H : find_dojo_where _ _ = _ |- _ => apply find_dojo_where_focus in H as [Hd _] end.
  by eapply dojo_edit_refines; [exact Hd| | |done|done].
Qed.

Lemma set_split_ratio_at_refines e target ancestor ratio :
  yields (set_split_ratio_at e target ancestor ratio) (table t).
Proof.
  unfold set_split_ratio_at. repeat tx_step; try done; intros _ Hwf'.
  match goal with H : find_dojo_where _ _ = _ |- _ => apply find_dojo_where_focus in H as [Hd _] end.
  match goal with H : set_ancestor_ratio ?n _ _ _ = _ |- _ =>
    pose proof (proj1 (set_ancestor_ratio_leaves n target ancestor ratio)) as Hl;
    rewrite H in Hl end.
  by eapply dojo_edit_refines; [exact Hd| | |done|done].
Qed.

(** Updates of one Splint. *)
Lemma splint_edit_refines t' id s back s' f :
  find_splint_in_mut t id = Some (s, back) → s' = f s → splint_id (f s) = splint_id s →
  topology_wf t' → entries t' = entries (back s') →
  table t' = alter (on_splint f) id (table t).
Proof.
  intros (Hid & R & k & dj & HR & Hback)%splint_focus_entries -> Hf Hwf' He.
  eapply table_update; [done|done|exact HR|rewrite He; apply Hback|congruence|done].
Qed.

Lemma rename_splint_at_refines e id name :
  yields (rename_splint_at e id name) (alter (on_splint (set_title (trim name))) id (table t)).
Proof.
  unfold rename_splint_at. repeat tx_step; try done; intros _ Hwf'.
  match goal with H : normalized_name _ = Ok ?n |- _ =>
    assert (n = trim name) as -> by (unfold normalized_name in H; by repeat case_match; simplify_eq)
  end.
  by eapply splint_edit_refines; [done| | |done|done].
Qed.

Lemma commit_relaunch_refines id cwd' cmd :
  yields (commit_relaunch id cwd' cmd) (alter (on_splint (relaunched cwd' cmd)) id (table t)).
Proof.
  unfold commit_relaunch. repeat tx_step; try done; intros _ Hwf'.
  by eapply splint_edit_refines; [done| | |done|done].
Qed.

Lemma with_splint_refines id f g :
  (∀ s, (f s).2 = g s) → (∀ s, splint_id (g s) = splint_id s) →
  yields (with_splint id f) (alter (on_splint g) id (table t)).
Proof.
  intros Hg Hid. unfold with_splint. repeat tx_step; intros _ Hwf'.
  - match goal with H : f ?s = _ |- _ => specialize (Hg s); rewrite H in Hg; simpl in Hg end.
    by eapply splint_edit_refines; [done| | |done|done].
  - symmetry. apply alter_id. intros p Hp. exfalso.
    assert (find_splint_in t id = None) as Hn; [|by rewrite find_splint_in_table, Hp in Hn].
    by apply find_splint_in_mut_None.
Qed.

(** Splitting adds the new Splint where its target is. *)
Lemma split_splint_at_refines e target new axis side ratio :
  yields (split_splint_at e target new axis side ratio)
    (match table t !! target with
     | Some p => <[splint_id new := on_splint (λ _, new) p]> (table t)
     | None => table t
     end).
Proof.
  unfold split_splint_at. repeat tx_step; try done; intros _ Hwf'.
  match goal with H : find_dojo_where _ _ = _ |- _ =>
    apply find_dojo_where_focus in H as [Hd [s Hs]%bool_decide_eq_true] end.
  destruct (split_spec _ _ new axis side ratio _ Hs) as (n' & l1 & l2 & Hsp & Hl & _ & Hl').
  rewrite Hsp in *. simplify_eq.
  apply dojo_focus_entries in Hd as (R & k & HR & Hback).
  match type of HR with _ ≡ₚ dojo_entries _ ?d ++ _ =>
    set (f := λ s, (splint_id s, {| at_lair := k; at_dojo := dojo_id d; what := s |})) end.
  assert (table t !! target = Some (f s).2) as ->.
  { apply table_elem; [done|]. rewrite HR, elem_of_app. left.
    rewrite <-(find_splint_id _ _ _ Hs). apply list_elem_of_fmap. exists s. split; [done|].
    by eapply find_splint_elem. }
  rewrite (table_perm _ (f new :: entries t) Hwf'); [done|].
  etrans; [apply (Hback (set_dojo_root _ _))|]. rewrite HR. unfold dojo_entries. simpl. fold f.
  rewrite Hl, Hl', !fmap_app. destruct side; simpl.
  - by rewrite <-Permutation_middle.
  - rewrite (Permutation_swap (f new)), <-Permutation_middle. done.
Qed.

(** Closing drops the one entry. *)
Lemma close_entries id s m' :
  find_splint_in t id = Some s → close_in_lairs (lairs t) id = Ok m' →
  ∃ p, entries t ≡ₚ (id, p) :: entries (set_lairs m' t).
Proof.
  intros Hfind [[-> Hno]|(m1 & k & l & m2 & ds' & Hm & Hc & ->)]%close_in_lairs_Ok.
  - exfalso. assert (find_splint_in t id = None) as Hn; [|congruence].
    apply find_map_None, Forall_forall. intros d (l & Hd & Hl)%list_elem_of_bind.
    apply list_elem_of_fmap in Hl as ([k l'] & -> & Hl).
    pose proof (proj1 (Forall_forall _ _) Hno _ Hl) as Hx. simpl in Hx, Hd.
    clear -Hx Hd. induction (dojos l') as [|d0 D IH]; [set_solver|]. simpl in Hx.
    destruct (find_splint (root d0) id) eqn:Hf; [done|].
    destruct (close_in_dojos D id); [done|].
    apply elem_of_cons in Hd as [->|]; [done|by apply IH].
  - apply close_in_dojos_Some in Hc as (D1 & d & D2 & s' & HD & Hs & _ & Hr).
    assert (lair_focus t l (λ l', set_lairs (m1 ++ (k, l') :: m2) t)) as Hl by by exists m1, k, m2.
    apply lair_focus_entries in Hl as (R & HR & Hback).
    set (f := λ s, (splint_id s, {| at_lair := lair_id l; at_dojo := dojo_id d; what := s |})).
    exists (f s').2. rewrite HR, (Hback (set_lair_dojos ds' l)).
    unfold lair_entries at 1. rewrite HD, dojos_entries_split.
    destruct (remove_spec _ _ _ Hs) as (l1 & l2 & Hlv & _ & Hspec).
    assert (dojo_entries (lair_id l) d ≡ₚ (id, (f s').2) :: (f <$> l1 ++ l2)) as Hde.
    { unfold dojo_entries. fold f. rewrite Hlv, !fmap_app. simpl.
      rewrite <-Permutation_middle, <-(find_splint_id _ _ _ Hs). done. }
    rewrite Hde. simpl. apply Permutation_skip. unfold lair_entries. simpl.
    destruct (remove (root d) id) as [[root'|]| |]; try done.
    + destruct Hr as (fo & -> & _). rewrite dojos_entries_split. unfold dojo_entries.
      simpl. fold f. rewrite (proj1 Hspec). by rewrite <-!app_assoc.
    + destruct Hspec as [-> ->]. rewrite Hr. unfold dojos_entries. rewrite bind_app.
      simpl. by rewrite <-!app_assoc.
Qed.

Lemma close_splint_at_refines e id : yields (close_splint_at e id) (delete id (table t)).
Proof.
  unfold close_splint_at. repeat tx_step; try done; intros _ Hwf'.
  match goal with H : close_in_lairs _ _ = Ok ?m |- _ => rename H into Hc end.
  match goal with H : find_splint_in _ _ = _ |- _ =>
    destruct (close_entries _ _ _ H Hc) as [p Hp] end.
  rewrite (table_perm t _ Hwf Hp). simpl. rewrite delete_insert_id; [done|].
  apply not_elem_of_list_to_map_1. pose proof (ok_splint_ids _ (wf_lairs _ Hwf)) as Hnd.
  fold (all_splint_ids t) in Hnd. rewrite <-entries_keys, Hp in Hnd. simpl in Hnd.
  by apply NoDup_cons in Hnd as [? _].
Qed.

Lemma entries_at_dojo (t' : Topology) e : e ∈ entries t' → at_dojo e.2 ∈ all_dojo_ids t'.
Proof.
  intros (l & (d & He%dojo_entries_at & Hd)%list_elem_of_bind & Hl)%list_elem_of_bind.
  unfold all_dojo_ids. apply list_elem_of_bind. exists l. split; [|done].
  unfold lair_dojo_ids. rewrite He. apply list_elem_of_fmap. eauto.
Qed.

Lemma lair_focus_dojo_ids l back :
  lair_focus t l back →
  ∃ R, all_dojo_ids t ≡ₚ lair_dojo_ids l ++ R ∧ ∀ l', all_dojo_ids (back l') ≡ₚ lair_dojo_ids l' ++ R.
Proof.
  intros (m1 & k & m2 & Hm & Hb).
  exists ((bt_values m1 ≫= lair_dojo_ids) ++ (bt_values m2 ≫= lair_dojo_ids)).
  assert (∀ l', bt_values (m1 ++ (k, l') :: m2) ≫= lair_dojo_ids ≡ₚ
    lair_dojo_ids l' ++ (bt_values m1 ≫= lair_dojo_ids) ++ (bt_values m2 ≫= lair_dojo_ids)) as Hp.
  { intros l'. unfold bt_values. rewrite fmap_app, bind_app. csimpl.
    by rewrite Permutation_app_swap_app. }
  unfold all_dojo_ids. split; [rewrite Hm; apply Hp|]. intros l'. rewrite Hb. apply Hp.
Qed.

Lemma position_split {A} (p : A → bool) l i :
  position p l = Some i →
  ∃ l1 x l2, l = l1 ++ x :: l2 ∧ i = length l1 ∧ p x = true.
Proof.
  revert i. induction l as [|y l IH]; intros i; simpl; [done|].
  destruct (p y) eqn:Hp; [intros [= <-]; by exists [], y, l|].
  destruct (position p l) as [j|]; [|done]. intros [= <-].
  destruct (IH j eq_refl) as (l1 & x & l2 & -> & -> & ?). by exists (y :: l1), x, l2.
Qed.

Lemma remove_dojo_at_refines e id live :
  yields (remove_dojo_at e id live) (filter (not_in_dojo id) (table t)).
Proof.
  unfold remove_dojo_at. repeat tx_step; try done; intros _ Hwf'.
  match goal with H : find_lair_where _ _ = _ |- _ => apply find_lair_where_focus in H as [Hl _] end.
  match goal with H : position _ _ = _ |- _ =>
    apply position_split in H as (D1 & d & D2 & HD & -> & Hid%Z.eqb_eq) end.
  apply table_filter; [done|done|].
  match goal with |- context [entries {| revision := _; lairs := lairs ?x |}] =>
    change (∀ e, e ∈ entries x ↔ e ∈ entries t ∧ not_in_dojo id e) end.
  rewrite HD, delete_middle.
  destruct (lair_focus_entries _ _ _ Hl) as (R & HR & Hback).
  destruct (lair_focus_dojo_ids _ _ Hl) as (RD & HRD & HbackD).
  pose proof (ok_dojo_ids _ (wf_lairs _ Hwf)) as Hnd. fold (all_dojo_ids t) in Hnd.
  rewrite HRD in Hnd. unfold lair_dojo_ids at 1 in Hnd.
  rewrite HD, fmap_app, <-app_assoc in Hnd. simpl in Hnd.
  rewrite <-Permutation_middle, Hid in Hnd. apply NoDup_cons in Hnd as [Hni _].
  match goal with |- context [set_lair_dojos ?ds ?l0] => set (l' := set_lair_dojos ds l0) in * end.
  assert (∀ e, e ∈ entries (t0 l') → not_in_dojo id e) as Hother.
  { intros e' He' Heq. apply entries_at_dojo in He'. rewrite HbackD, Heq in He'. apply Hni.
    unfold l', lair_dojo_ids in He'. simpl in He'. by rewrite fmap_app, <-app_assoc in He'. }
  intros e'. split.
  - intros He'. split; [|by apply Hother]. rewrite Hback in He'. rewrite HR.
    unfold lair_entries, l' in *. simpl in He'. rewrite HD, dojos_entries_split.
    unfold dojos_entries in *. rewrite bind_app in He'. set_solver.
  - intros [He' Hn]. rewrite HR in He'. rewrite Hback.
    unfold lair_entries, l' in *. simpl. rewrite HD, dojos_entries_split in He'.
    unfold dojos_entries in *. rewrite bind_app. apply elem_of_app in He' as [He'|He']; [|set_solver].
    apply elem_of_app in He' as [He'|He']; [|set_solver].
    exfalso. apply Hn. by rewrite (dojo_entries_at _ _ _ He').
Qed.

(** All of them. *)
Lemma exec_refines o : op_args_ok t o → yields (exec o) (spec o (table t)).
Proof.
  intros Hargs. destruct o; simpl in *; destruct_and?; [..|apply commit_relaunch_refines| | | |];
    (unfold void; apply wp_bind; eapply wp_mono;
      [|first [ apply create_lair_at_refines | apply insert_lair_at_refines
        | apply remove_lair_refines | apply replace_lair_at_refines
        | apply split_splint_at_refines | apply close_splint_at_refines
        | apply set_split_ratio_at_refines | apply new_dojo_refines
        | apply materialize_dojos_at_refines | by apply materialize_lair_refines
        | apply remove_dojo_at_refines | apply terminate_lair_at_refines
        | apply set_lair_retention_at_refines | apply rename_lair_at_refines
        | apply rename_dojo_refines | apply set_dojo_default_focus_at_refines
        | apply rename_splint_at_refines | by apply with_splint_refines ]]; by intros [] t').
Qed.
End refinement.
