(* ===== verification/TopologyProps.v ===== *)
(** * Theorems on the topology and its layouts

    What holds of every topology a sequence of transactions can reach, of every
    single transaction, and of the layout trees they edit. *)

From Stdlib Require Import String.
From stdpp Require Import gmap.
From S2P Require Import Prelude RustStd Layout Topology TopologyInv TopologySteps TopologyRefine.

#[local] Open Scope Z_scope.

(** ** Reachable topologies *)

(** What any sequence of transactions makes of the empty topology, failed and
    even aborted ones included. *)
Inductive reachable : Topology → Prop :=
| reachable_new : reachable Topology_new
| reachable_step t o r t' :
    reachable t → op_args_ok t o → exec o t = (r, t') → reachable t'.

Lemma Topology_new_wf : topology_wf Topology_new.
Proof.
  split; simpl; [constructor|constructor| |unfold u64_max; lia].
  split; simpl; try constructor; apply NoDup_nil_2.
Qed.

Lemma exec_wf t o r t' : topology_wf t → op_args_ok t o → exec o t = (r, t') → topology_wf t'.
Proof. intros Hwf Ha He. pose proof (exec_keeps t Hwf o Ha) as H. unfold wp in H. by rewrite He in H. Qed.

Lemma exec_post t o r t' :
  topology_wf t → op_args_ok t o → exec o t = (r, t') → tx_post t (op_bumps t o) r t'.
Proof. intros Hwf Ha He. pose proof (exec_posts t Hwf o Ha) as H. unfold wp in H. by rewrite He in H. Qed.

(** C3. Every reachable topology is well formed: its entries are in key order
    under their own identifiers, Lair names are usable and unique, Dojo and
    Splint identifiers are unique over all Lairs, every Dojo is focused on one
    of its own Splints, and every ratio leaves space for both children. *)
Theorem reachable_well_formed t : reachable t → topology_wf t.
Proof. induction 1; [apply Topology_new_wf|by eapply exec_wf]. Qed.

(** C4. The topology refines the flat table of placed Splints: a transaction
    that succeeds changes the table exactly as [spec] says, and lookups in the
    nested structure read that table. *)
Theorem transactions_refine_table t o t' :
  topology_wf t → op_args_ok t o → exec o t = (Ok tt, t') →
  table t' = spec o (table t) ∧
  ∀ id, find_splint_in t' id = what <$> spec o (table t) !! id.
Proof.
  intros Hwf Ha He. pose proof (exec_wf _ _ _ _ Hwf Ha He) as Hwf'.
  pose proof (exec_refines t Hwf o Ha) as H. unfold wp in H. rewrite He in H.
  specialize (H eq_refl Hwf'). split; [done|]. intros id. by rewrite <-H, find_splint_in_table.
Qed.

(** C38. Transactions are atomic: a refused one leaves the topology as it was
    (a promotion or rename before the failing check included), a committed one
    moves the revision by exactly one (runtime updates and the removal of an
    absent Lair leave it), and the only panic is an exhausted revision. *)
Theorem transactions_atomic t o r t' :
  topology_wf t → op_args_ok t o → exec o t = (r, t') →
  match r with
  | Ok _ => revision t' = if op_bumps t o then revision t + 1 else revision t
  | Err _ => t' = t
  | Panic => revision t = u64_max
  end.
Proof. apply exec_post. Qed.

Lemma check_revision_stale e t :
  e ≠ revision t → check_revision e t = (Err (StaleTopology e (revision t)), t).
Proof. intros Hne. unfold check_revision, bind, get, reject_if. by rewrite (proj2 (Z.eqb_neq _ _) Hne). Qed.

Lemma bind_stale {A} e t (k : unit → T A) :
  e ≠ revision t → bind (check_revision e) k t = (Err (StaleTopology e (revision t)), t).
Proof. intros Hne. unfold bind at 1. by rewrite check_revision_stale. Qed.

Lemma bind_refused {A B} (m : T A) (k : A → T B) e t t' : m t = (Err e, t') → bind m k t = (Err e, t').
Proof. intros H. unfold bind. by rewrite H. Qed.

Lemma exec_stale t o e :
  op_expected o = Some e → e ≠ revision t → exec o t = (Err (StaleTopology e (revision t)), t).
Proof.
  destruct o; simpl; intros [= ->] Hne; unfold void; apply bind_refused; by apply bind_stale.
Qed.

(** Optimistic concurrency: a transaction planned against another revision
    is refused with both revisions and changes nothing, so of two transactions
    planned against the same revision at most one commits. *)
Theorem stale_transactions_refused t o1 o2 e t1 :
  topology_wf t → op_args_ok t o1 →
  op_expected o1 = Some e → op_expected o2 = Some e →
  exec o1 t = (Ok tt, t1) →
  e = revision t ∧ revision t1 = e + 1 ∧ exec o2 t1 = (Err (StaleTopology e (e + 1)), t1).
Proof.
  intros Hwf Ha He1 He2 Hx.
  assert (e = revision t) as ->.
  { destruct (decide (e = revision t)); [done|]. by rewrite (exec_stale _ _ _ He1) in Hx. }
  pose proof (exec_post _ _ _ _ Hwf Ha Hx) as Hp. simpl in Hp.
  assert (op_bumps t o1 = true) as Hb by by destruct o1. rewrite Hb in Hp.
  split; [done|]. split; [done|]. rewrite (exec_stale _ _ _ He2) by lia. by rewrite Hp.
Qed.

(** ** Outcomes of the layout transactions *)

Lemma find_dojo_where_splint t id s :
  find_splint_in t id = Some s →
  is_Some (find_dojo_where (λ d, bool_decide (is_Some (find_splint (root d) id))) t).
Proof.
  intros Hs. destruct (find_dojo_where _ t) eqn:Hn; [by eexists|]. exfalso.
  assert (find_splint_in t id = None); [|congruence]. clear Hs.
  unfold find_dojo_where, dojos_find_mut, lairs_find_mut, find_splint_in, all_dojos, bt_values in *.
  destruct (find_map_mut _ (lairs t)) as [[??]|] eqn:Hm; [done|].
  apply find_map_mut_None in Hm. apply find_map_None, Forall_forall.
  intros d (l & Hd & ([k l'] & -> & Hl)%list_elem_of_fmap)%list_elem_of_bind. simpl in Hd.
  pose proof (proj1 (Forall_forall _ _) Hm _ Hl) as Hx. simpl in Hx.
  destruct (find_map_mut _ (dojos l')) as [[??]|] eqn:Hd'; [done|].
  apply find_map_mut_None in Hd'. pose proof (proj1 (Forall_forall _ _) Hd' _ Hd) as Hy. simpl in Hy.
  case_bool_decide as Hb; [done|]. by apply eq_None_not_Some.
Qed.

Lemma find_dojo_where_no_splint t id d back :
  find_dojo_where (λ d, bool_decide (is_Some (find_splint (root d) id))) t = Some (d, back) →
  is_Some (find_splint_in t id).
Proof.
  intros [(l & lback & D1 & D2 & (m1 & k & m2 & Hm & _) & HD & _) Hp%bool_decide_eq_true]%find_dojo_where_focus.
  apply not_eq_None_Some. rewrite find_splint_in_None. intros Hn. apply Hn.
  unfold all_splint_ids, bt_values. apply list_elem_of_bind. exists l. split.
  - unfold lair_splint_ids. apply list_elem_of_bind. exists d. split; [by apply find_splint_is_Some|].
    rewrite HD. apply elem_of_app. right. by left.
  - rewrite Hm, fmap_app. apply elem_of_app. right. by left.
Qed.

(** A split is refused exactly when its revision is stale, the new
    identifier is in use anywhere, or the target is nowhere; otherwise it
    commits the next revision. *)
Theorem split_splint_outcome t e target new axis side ratio :
  revision t < u64_max →
  (split_splint_at e target new axis side ratio t).1 =
    if bool_decide (e ≠ revision t) then Err (StaleTopology e (revision t))
    else if bool_decide (splint_id new ∈ all_splint_ids t) then Err (DuplicateSplintId (splint_id new))
    else if bool_decide (target ∉ all_splint_ids t) then Err (SplintNotFound target)
    else Ok (revision t + 1).
Proof.
  intros Hrev. rewrite <-(bool_decide_ext _ _ (find_splint_in_None t target)).
  assert (splint_id new ∈ all_splint_ids t ↔ is_Some (find_splint_in t (splint_id new))) as Hi.
  { rewrite <-not_eq_None_Some, find_splint_in_None. split; [tauto|]. apply dec_stable. }
  rewrite (bool_decide_ext _ _ Hi).
  case_bool_decide as He; [by unfold split_splint_at; rewrite bind_stale|]. subst e.
  change (wp (split_splint_at (revision t) target new axis side ratio) (λ r _, r =
    if bool_decide (is_Some (find_splint_in t (splint_id new))) then Err (DuplicateSplintId (splint_id new))
    else if bool_decide (find_splint_in t target = None) then Err (SplintNotFound target)
    else Ok (revision t + 1)) t).
  unfold split_splint_at. tx_step; [|done]. tx_step.
  destruct (bool_decide (is_Some (find_splint_in t (splint_id new)))) eqn:Hdup; tx_step; try done.
  destruct (find_splint_in t target) as [s|] eqn:Hs.
  - destruct (find_dojo_where_splint _ _ _ Hs) as [[d back] Hd]. rewrite Hd.
    pose proof (find_dojo_where_focus _ _ _ _ Hd) as [Hf [s' Hs']%bool_decide_eq_true].
    destruct (split_spec _ _ new axis side ratio _ Hs') as (n' & l1 & l2 & Hsp & _).
    tx_step; simplify_eq. rewrite Hsp. repeat tx_step; try done; simpl in *;
      rewrite (find_dojo_where_revision _ _ _ _ _ Hd) in *; [done|lia].
  - destruct (find_dojo_where _ t) as [[d back]|] eqn:Hd; [|by repeat tx_step].
    apply find_dojo_where_no_splint in Hd as [? ?]. congruence.
Qed.

(** Closing is refused exactly when the revision is stale, the Splint is
    nowhere, or its process still lives; otherwise it commits the next
    revision. *)
Theorem close_splint_outcome t e id :
  revision t < u64_max →
  (close_splint_at e id t).1 =
    if bool_decide (e ≠ revision t) then Err (StaleTopology e (revision t))
    else match find_splint_in t id with
         | None => Err (SplintNotFound id)
         | Some s => if is_exited (state s) then Ok (revision t + 1) else Err (SplintStillLive id)
         end.
Proof.
  intros Hrev. case_bool_decide as He; [by unfold close_splint_at; rewrite bind_stale|]. subst e.
  change (wp (close_splint_at (revision t) id) (λ r _, r = match find_splint_in t id with
    | None => Err (SplintNotFound id)
    | Some s => if is_exited (state s) then Ok (revision t + 1) else Err (SplintStillLive id)
    end) t).
  unfold close_splint_at. tx_step; [|done]. tx_step.
  destruct (find_splint_in t id) as [s|]; [|by repeat tx_step].
  destruct (close_in_lairs_Ok_only (lairs t) id) as [m' Hm].
  tx_step; simplify_eq. destruct (is_exited (state _)) eqn:Hx; tx_step; simplify_eq/=; try done.
  rewrite Hm. repeat tx_step; simplify_eq/=; try done. lia.
Qed.

(** ** Default names *)

Lemma foldr_max_ge l x : x ∈ l → x ≤ foldr Z.max 0 l.
Proof. induction l as [|y l IH]; [by intros ?%elem_of_nil|]. intros [->|?]%elem_of_cons; simpl; [lia|]. specialize (IH H). lia. Qed.

Lemma foldr_max_nonneg l : 0 ≤ foldr Z.max 0 l.
Proof. induction l; simpl; lia. Qed.

Lemma default_dojo_number_print n :
  0 < n ≤ u64_max → default_dojo_number (lit "Dojo " ++ to_string n) = Some n.
Proof.
  intros Hn. unfold default_dojo_number.
  assert (strip_prefix (lit "Dojo ") (lit "Dojo " ++ to_string n) = Some (to_string n)) as ->
    by by apply strip_prefix_Some.
  rewrite parse_to_string by lia. rewrite (proj2 (Z.ltb_lt _ _)) by lia.
  by rewrite bool_decide_eq_true_2.
Qed.

Lemma next_default_dojo_name_Ok l n :
  next_default_dojo_name l = Ok n → ∃ k, 0 < k ≤ u64_max ∧ n = lit "Dojo " ++ to_string k ∧
    ∀ k', k' ∈ omap default_dojo_number (dojo_name <$> dojos l) → k' < k.
Proof.
  unfold next_default_dojo_name, checked_add64. set (h := foldr Z.max 0 _).
  pose proof (foldr_max_nonneg (omap default_dojo_number (dojo_name <$> dojos l))).
  destruct (Z.leb_spec (h + 1) u64_max) as [Hle|]; [|done]. intros [= <-]. exists (h + 1).
  split_and!; [lia|done|done|]. intros k' Hk'%foldr_max_ge. subst h. lia.
Qed.

(** The chosen name is new in its Lair. *)
Lemma next_default_dojo_name_new l n :
  next_default_dojo_name l = Ok n → n ∉ dojo_name <$> dojos l.
Proof.
  intros (k & Hk & -> & Hlt)%next_default_dojo_name_Ok Hin.
  enough (k < k) by lia. apply Hlt, list_elem_of_omap. eexists. split; [done|].
  by apply default_dojo_number_print.
Qed.

Lemma default_dojo_number_Some name k :
  default_dojo_number name = Some k → name = lit "Dojo " ++ to_string k ∧ 0 < k ≤ u64_max.
Proof.
  unfold default_dojo_number. destruct (strip_prefix _ name) as [suffix|] eqn:Hs; [|done].
  apply strip_prefix_Some in Hs as ->. destruct (parse_u64 suffix) as [n|] eqn:Hp; [|done].
  destruct (Z.ltb_spec 0 n); simpl; [|done]. case_bool_decide as Hb; [|done]. intros [= <-].
  split; [by rewrite Hb|]. split; [done|]. by eapply parse_u64_bound.
Qed.

Lemma foldr_max_elem l : foldr Z.max 0 l = 0 ∨ foldr Z.max 0 l ∈ l.
Proof.
  induction l as [|x l IH]; simpl; [by left|].
  destruct (Z.max_spec x (foldr Z.max 0 l)) as [[_ ->]|[_ ->]]; [|right; by left].
  destruct IH; [by left|right; by right].
Qed.

(** The next default Dojo name is new in its Lair, and there is none only
    when the Lair has the Dojo with the largest number. *)
Theorem next_default_dojo_name_fresh l :
  match next_default_dojo_name l with
  | Ok n => n ∉ dojo_name <$> dojos l
  | Err e => e = DefaultDojoNameExhausted ∧ lit "Dojo " ++ to_string u64_max ∈ dojo_name <$> dojos l
  | Panic => False
  end.
Proof.
  destruct (next_default_dojo_name l) as [n|e|] eqn:Hn; [by apply next_default_dojo_name_new|..];
    unfold next_default_dojo_name, checked_add64 in Hn; set (ns := omap _ _) in Hn;
    destruct (Z.leb_spec (foldr Z.max 0 ns + 1) u64_max) as [|Hgt]; simplify_eq.
  split; [done|]. destruct (foldr_max_elem ns) as [H0|Hin]; [by rewrite H0 in Hgt|].
  apply list_elem_of_omap in Hin as (name & Hname & [-> ?]%default_dojo_number_Some).
  by replace (foldr Z.max 0 ns) with u64_max in Hname by lia.
Qed.

(** ** Layout trees *)

(** Adjusting the ratio [ancestor] levels above a Splint succeeds exactly
    when the Splint is in the tree at a depth greater than [ancestor]; it then
    changes the ratio of that one ancestor and nothing else of the tree, and
    otherwise it changes nothing. *)
Theorem set_ancestor_ratio_exact node target ancestor ratio :
  0 ≤ ancestor →
  match leaf_path node target with
  | Some p =>
      if ancestor <? Z.of_nat (length p) then
        ∃ node', set_ancestor_ratio node target ancestor ratio = (true, node') ∧
          (∀ q, shape_at node' q = shape_at node q) ∧
          (∀ q, ratio_at node' q =
             if decide (q = take (length p - 1 - Z.to_nat ancestor) p) then Some ratio
             else ratio_at node q)
      else set_ancestor_ratio node target ancestor ratio = (false, node)
  | None =>
      find_splint node target = None ∧ set_ancestor_ratio node target ancestor ratio = (false, node)
  end.
Proof.
  intros Ha. unfold set_ancestor_ratio. rewrite path_to_target_spec.
  destruct (leaf_path node target) as [p|] eqn:Hp; simpl; [|by split; [apply leaf_path_None|]].
  destruct (Z.leb_spec (Z.of_nat (length p)) ancestor),
    (Z.ltb_spec ancestor (Z.of_nat (length p))); try done; try lia.
  apply leaf_path_node_at in Hp as (s & _ & Hs).
  replace (Z.to_nat (Z.of_nat (length p) - 1 - ancestor))
    with (length p - 1 - Z.to_nat ancestor)%nat by lia.
  destruct (ratio_at_prefix node p s (length p - 1 - Z.to_nat ancestor)) as [old Hold]; [done|lia|].
  by apply set_ratio_along_spec with old.
Qed.

(** Closing the leaf a split inserted gives the old tree back: the branch
    the split made collapses and no other branch or ratio changes. *)
Theorem split_then_remove node target new axis side ratio :
  is_Some (find_splint node target) →
  find_splint node (splint_id new) = None →
  ∃ node', split node target new axis side ratio = (true, node') ∧
    remove node' (splint_id new) = Ok (Some node).
Proof.
  intros [s Hs] Hn. destruct (split_spec node target new axis side ratio s Hs) as (node' & _ & _ & Hsp & _).
  exists node'. split; [done|].
  pose proof (remove_split node target new axis side ratio ltac:(by eexists) Hn) as Hr. by rewrite Hsp in Hr.
Qed.

(** ** Witnesses *)

Definition ex_lair : Lair :=
  Lair_transient {| draw_lair := 1; draw_splint := 2; draw_dojo := 3 |} (lit "work") (lit "/tmp").

Definition ex_t : Topology := {| revision := 1; lairs := [(1, ex_lair)] |}.

Lemma ex_reachable : reachable ex_t.
Proof.
  apply (reachable_step Topology_new (OpInsertLair 0 ex_lair) (Ok tt)); [constructor| |vm_compute; reflexivity].
  repeat constructor.
Qed.

Lemma ex_wf : topology_wf ex_t.
Proof.
  apply (exec_wf Topology_new (OpInsertLair 0 ex_lair) (Ok tt));
    [apply Topology_new_wf|repeat constructor|vm_compute; reflexivity].
Qed.

Lemma reachable_well_formed_witness : topology_wf ex_t.
Proof. apply reachable_well_formed, ex_reachable. Defined.

Definition ex_split : op := OpSplitSplint 1 2 (Splint_shell 9 (lit "/")) Horizontal Second 500.

Lemma transactions_refine_table_witness :
  table (exec ex_split ex_t).2 = spec ex_split (table ex_t) ∧
  ∀ id, find_splint_in (exec ex_split ex_t).2 id = what <$> spec ex_split (table ex_t) !! id.
Proof.
  apply transactions_refine_table; [apply ex_wf|simpl; lia|vm_compute; reflexivity].
Defined.

Lemma transactions_atomic_witness : (exec (OpCloseSplint 1 2) ex_t).2 = ex_t.
Proof.
  apply (transactions_atomic ex_t (OpCloseSplint 1 2) (Err (SplintStillLive 2)));
    [apply ex_wf|done|vm_compute; reflexivity].
Defined.

Lemma stale_transactions_refused_witness :
  1 = revision ex_t ∧ revision (exec ex_split ex_t).2 = 1 + 1 ∧
  exec (OpRenameLair 1 1 (lit "x")) (exec ex_split ex_t).2 =
    (Err (StaleTopology 1 (1 + 1)), (exec ex_split ex_t).2).
Proof.
  apply (stale_transactions_refused ex_t ex_split); [apply ex_wf|simpl; lia|done|done|vm_compute; reflexivity].
Defined.

Lemma split_splint_outcome_witness :
  (split_splint_at 1 2 (Splint_shell 9 (lit "/")) Horizontal Second 500 ex_t).1 = Ok 2.
Proof. etrans; [apply split_splint_outcome; done|vm_compute; reflexivity]. Defined.

Lemma close_splint_outcome_witness : (close_splint_at 1 2 ex_t).1 = Err (SplintStillLive 2).
Proof. etrans; [apply close_splint_outcome; done|vm_compute; reflexivity]. Defined.

(** Splint 2 beside 4, with 6 below 4. *)
Definition ex_tree : LayoutNode :=
  Branch Horizontal 300 (Leaf (Splint_shell 2 (lit "/")))
    (Branch Vertical 700 (Leaf (Splint_shell 4 (lit "/"))) (Leaf (Splint_shell 6 (lit "/")))).

Lemma set_ancestor_ratio_exact_witness :
  ∃ node', set_ancestor_ratio ex_tree 6 0 450 = (true, node') ∧
    (∀ q, shape_at node' q = shape_at ex_tree q) ∧
    (∀ q, ratio_at node' q = if decide (q = [true]) then Some 450 else ratio_at ex_tree q).
Proof. exact (set_ancestor_ratio_exact ex_tree 6 0 450 ltac:(lia)). Defined.

Lemma split_then_remove_witness :
  ∃ node', split ex_tree 4 (Splint_shell 8 (lit "/")) Horizontal First 500 = (true, node') ∧
    remove node' 8 = Ok (Some ex_tree).
Proof. apply (split_then_remove ex_tree 4 (Splint_shell 8 (lit "/"))); [vm_compute; eauto|reflexivity]. Defined.
