(* ===== verification/Persistence.v ===== *)
(** * The durable topology document ([splinterm-core/src/persistence.rs])

    Snapshots of the topology, their validation, their restoration, and the
    migration of the three legacy schemas. [serde_json] is a parameter: the
    class [Json] has the five calls the code makes, [JsonLaws] what the code
    relies on. *)

From Stdlib Require Import String.
From stdpp Require Import gmap.
From S2P Require Import Prelude RustStd Layout Topology.

#[local] Open Scope string_scope.
#[local] Open Scope Z_scope.

(** ** Data *)

Definition LEGACY_LAIR_SCHEMA_VERSION : Z := 2.
Definition LEGACY_TOPOLOGY_SCHEMA_VERSION_V3 : Z := 3.
Definition LEGACY_TOPOLOGY_SCHEMA_VERSION_V4 : Z := 4.
Definition TOPOLOGY_SCHEMA_VERSION : Z := 5.
Definition MAX_TOPOLOGY_DOCUMENT_BYTES : Z := 1024 * 1024.
Definition MAX_PERSISTENT_LAIRS : Z := 64.
Definition MAX_DOJOS_PER_LAIR : Z := 64.
Definition MAX_SPLINTS : Z := 256.
Definition MAX_LAYOUT_DEPTH : Z := 32.
Definition MAX_ARGUMENTS : Z := 64.
Definition MAX_ARGUMENT_BYTES : Z := 4096.
Definition MAX_COMMAND_BYTES : Z := 32 * 1024.

Record TopologyDocument := {
  schema_version : Z;
  doc_revision : TopologyRevision;
  doc_lairs : list Lair;
}.

Inductive PersistenceError :=
| DocumentTooLarge
| UnsupportedVersion (version : Z)
| Decode (message : str)
| Encode (message : str)
| CollectionTooLarge (kind : string)
| DuplicateId (kind : string)
| DefaultDojoNameExhausted'
| DuplicateLairName'
| InvalidName (kind : string)
| LayoutTooDeep
| UnsafeWorkingDirectory
| InvalidCommand
| InvalidLaunchMetadata
| InvalidDojoDefaultFocus'
| LiveProcessState
| InvalidLairLifecycle.

#[global] Instance TopologyDocument_eq_dec : EqDecision TopologyDocument.
Proof. solve_decision. Defined.

(** The legacy documents. *)
Record LegacyLairV3 := {
  v3_id : LairId; v3_name : str; v3_lifetime : LairLifetime; v3_dojos : list Dojo }.
Record LegacyTopologyDocumentV3 := {
  v3_schema_version : Z; v3_revision : TopologyRevision; v3_lairs : list LegacyLairV3 }.
Record LegacyTopologyDocumentV4 := {
  v4_schema_version : Z; v4_revision : TopologyRevision; v4_lairs : list Lair }.
Record LegacyWindowV2 := {
  v2_window_id : Z; v2_title : str; v2_default_focus : SplintId; v2_root : LayoutNode }.
Record LegacyDojoV2 := {
  v2_dojo_id : Z; v2_name : str; v2_windows : list LegacyWindowV2 }.
Record LegacyLairDocumentV2 := {
  v2_schema_version : Z; v2_revision : TopologyRevision; v2_dojos : list LegacyDojoV2 }.

(** ** Legacy default names *)

Definition is_decimal_digits (value : str) : bool :=
  negb (bool_decide (value = [])) && forallb is_ascii_digit value.

Definition is_legacy_default_dojo_name (name : str) : bool :=
  if bool_decide (name = lit "terminal") then true
  else
    match strip_prefix (lit "terminal-") name with
    | None => false
    | Some suffix =>
        let components := split_on 45 suffix in
        match components !! 0%nat with
        | None => false
        | Some timestamp =>
            let process_id := components !! 1%nat in
            bool_decide (components !! 2%nat = None)
            && is_decimal_digits timestamp
            && match process_id with None => true | Some p => is_decimal_digits p end
        end
    end.

(** The inner [for index in 0..lair.dojos.len()]: each name is chosen against
    the names already rewritten. *)
Fixpoint normalize_dojos (rounds index : nat) (lair : Lair) : outcome PersistenceError Lair :=
  match rounds with
  | O => Ok lair
  | S rounds =>
      match dojos lair !! index with
      | None => Panic
      | Some dojo =>
          if is_legacy_default_dojo_name (dojo_name dojo) then
            match next_default_dojo_name lair with
            | Ok name =>
                normalize_dojos rounds (S index)
                  (set_lair_dojos (<[index := set_dojo_name name dojo]> (dojos lair)) lair)
            | Err _ => Err DefaultDojoNameExhausted'
            | Panic => Panic
            end
          else normalize_dojos rounds (S index) lair
      end
  end.

Definition normalize_lair (lair : Lair) : outcome PersistenceError Lair :=
  normalize_dojos (length (dojos lair)) 0 lair.

Fixpoint normalize_legacy_default_dojo_names (ls : list Lair)
    : outcome PersistenceError (list Lair) :=
  match ls with
  | [] => Ok []
  | l :: ls =>
      let? l' := normalize_lair l in
      let? ls' := normalize_legacy_default_dojo_names ls in
      Ok (l' :: ls')
  end.

Definition current_document (revision : TopologyRevision) (ls : list Lair) : TopologyDocument :=
  {| schema_version := TOPOLOGY_SCHEMA_VERSION; doc_revision := revision; doc_lairs := ls |}.

Definition migrate_v3 (d : LegacyTopologyDocumentV3) : outcome PersistenceError TopologyDocument :=
  let ls := (λ lair, {| lair_id := v3_id lair; lair_name := v3_name lair;
                        lifetime := v3_lifetime lair; retention := Disposable;
                        provenance := None; dojos := v3_dojos lair |}) <$> v3_lairs d in
  let? ls := normalize_legacy_default_dojo_names ls in
  Ok (current_document (v3_revision d) ls).

Definition migrate_v4 (d : LegacyTopologyDocumentV4) : outcome PersistenceError TopologyDocument :=
  let? ls := normalize_legacy_default_dojo_names (v4_lairs d) in
  Ok (current_document (v4_revision d) ls).

Definition migrate_v2 (d : LegacyLairDocumentV2) : outcome PersistenceError TopologyDocument :=
  let ls := (λ legacy_lair,
    {| lair_id := v2_dojo_id legacy_lair; lair_name := v2_name legacy_lair;
       lifetime := Persistent; retention := Disposable; provenance := None;
       dojos := (λ legacy_dojo,
         {| dojo_id := v2_window_id legacy_dojo; dojo_name := v2_title legacy_dojo;
            default_focus := v2_default_focus legacy_dojo; root := v2_root legacy_dojo |})
         <$> v2_windows legacy_lair |}) <$> v2_dojos d in
  let? ls := normalize_legacy_default_dojo_names ls in
  Ok (current_document (v2_revision d) ls).

(** ** Validation *)

Definition persist_validate_name (value : str) (kind : string) : outcome PersistenceError unit :=
  if bool_decide (trim value = []) || negb (bool_decide (trim value = value))
     || (MAX_NAME_BYTES <? str_len value)
  then Err (InvalidName kind) else Ok tt.

(** [std::path::Path] on Unix. *)
Inductive Component := RootDir | CurDir | ParentDir | Normal (name : list Z).

Definition body_component (segment : list Z) : option Component :=
  if bool_decide (segment = []) || bool_decide (segment = [46]) then None
  else if bool_decide (segment = [46; 46]) then Some ParentDir
  else Some (Normal segment).

Definition is_absolute (path : list Z) : bool :=
  match path with b :: _ => b =? 47 | [] => false end.

(** [Path::components]: repeated separators and inner [.] are dropped. *)
Definition components (path : list Z) : list Component :=
  match path with
  | 47 :: rest => RootDir :: omap body_component (split_on 47 rest)
  | _ =>
      match split_on 47 path with
      | [46] :: rest => CurDir :: omap body_component rest
      | segments => omap body_component segments
      end
  end.

Definition is_safe_component (c : Component) : bool :=
  match c with RootDir | Normal _ => true | _ => false end.

Definition validate_cwd (path : list Z) : outcome PersistenceError unit :=
  if negb (is_utf8 path) || negb (is_absolute path)
     || existsb (λ part, negb (is_safe_component part)) (components path)
  then Err UnsafeWorkingDirectory else Ok tt.

(** [s.is_empty() || s.len() > MAX_ARGUMENT_BYTES || s.as_bytes().contains(&0)]:
    only the NUL character has a zero byte in UTF-8. *)
Definition bad_argument (s : str) : bool :=
  bool_decide (s = []) || (MAX_ARGUMENT_BYTES <? str_len s) || bool_decide (0 ∈ s).

Definition validate_command (cmd : list str) : outcome PersistenceError unit :=
  if (MAX_ARGUMENTS <? Z.of_nat (length cmd)) || existsb bad_argument cmd
     || (MAX_COMMAND_BYTES <? foldr Z.add 0 (str_len <$> cmd))
  then Err InvalidCommand else Ok tt.

Definition bad_launch (s : Splint) : bool :=
  match shell (launch s) with Some sh => bad_argument sh | None => false end
  || (1000000 <? scrollback_lines (launch s))
  || negb ((1 <=? launch_columns (launch s)) && (launch_columns (launch s) <=? 4096))
  || negb ((1 <=? launch_rows (launch s)) && (launch_rows (launch s) <=? 4096))
  || bool_decide (last_incarnation s = Some 0).

(** [validate_tree]; the count and the identifiers are the [&mut] arguments. *)
Fixpoint validate_tree (node : LayoutNode) (depth count : Z) (ids : gset Z)
    : outcome PersistenceError (Z * gset Z) :=
  if MAX_LAYOUT_DEPTH <? depth then Err LayoutTooDeep
  else
    match node with
    | Leaf splint =>
        let count := count + 1 in
        if MAX_SPLINTS <? count then Err (CollectionTooLarge "Splints")
        else if bool_decide (splint_id splint ∈ ids) then Err (DuplicateId "Splint")
        else
          let ids := {[splint_id splint]} ∪ ids in
          let? _ := persist_validate_name (title splint) "Splint title" in
          let? _ := validate_cwd (cwd splint) in
          let? _ := validate_command (command splint) in
          if bad_launch splint then Err InvalidLaunchMetadata
          else if negb (is_exited (state splint)) then Err LiveProcessState
          else Ok (count, ids)
    | Branch _ _ first second =>
        let? (count, ids) := validate_tree first (depth + 1) count ids in
        validate_tree second (depth + 1) count ids
    end.

(** What the loops of [validate] carry. *)
Record seen := {
  seen_lairs : gset Z;
  seen_names : gset (list Z);
  seen_dojos : gset Z;
  seen_splints : gset Z;
  seen_count : Z;
}.

Definition nothing_seen : seen :=
  {| seen_lairs := ∅; seen_names := ∅; seen_dojos := ∅; seen_splints := ∅; seen_count := 0 |}.

Fixpoint validate_dojos (ds : list Dojo) (s : seen) : outcome PersistenceError seen :=
  match ds with
  | [] => Ok s
  | dojo :: ds =>
      let? _ := persist_validate_name (dojo_name dojo) "Dojo name" in
      if bool_decide (dojo_id dojo ∈ seen_dojos s) then Err (DuplicateId "Dojo")
      else
        match find_splint (root dojo) (default_focus dojo) with
        | None => Err InvalidDojoDefaultFocus'
        | Some _ =>
            let? (count, ids) := validate_tree (root dojo) 1 (seen_count s) (seen_splints s) in
            validate_dojos ds
              {| seen_lairs := seen_lairs s; seen_names := seen_names s;
                 seen_dojos := {[dojo_id dojo]} ∪ seen_dojos s;
                 seen_splints := ids; seen_count := count |}
        end
  end.

Fixpoint validate_lairs (ls : list Lair) (s : seen) : outcome PersistenceError seen :=
  match ls with
  | [] => Ok s
  | lair :: ls =>
      let? _ := persist_validate_name (lair_name lair) "Lair name" in
      let? _ := match provenance lair with
                | Some p => persist_validate_name p "Lair provenance"
                | None => Ok tt
                end in
      if negb (is_persistent (lifetime lair))
         && (is_protected (retention lair) || bool_decide (is_Some (provenance lair)))
      then Err InvalidLairLifecycle
      else if bool_decide (lair_id lair ∈ seen_lairs s) then Err (DuplicateId "Lair")
      else if bool_decide (lair_name lair ∈ seen_names s) then Err DuplicateLairName'
      else if MAX_DOJOS_PER_LAIR <? Z.of_nat (length (dojos lair))
      then Err (CollectionTooLarge "Dojos")
      else
        let? s := validate_dojos (dojos lair)
          {| seen_lairs := {[lair_id lair]} ∪ seen_lairs s;
             seen_names := {[lair_name lair]} ∪ seen_names s;
             seen_dojos := seen_dojos s; seen_splints := seen_splints s;
             seen_count := seen_count s |} in
        validate_lairs ls s
  end.

Definition validate (d : TopologyDocument) : outcome PersistenceError unit :=
  if negb (schema_version d =? TOPOLOGY_SCHEMA_VERSION)
  then Err (UnsupportedVersion (schema_version d))
  else if MAX_PERSISTENT_LAIRS <? Z.of_nat (length (doc_lairs d))
  then Err (CollectionTooLarge "Lairs")
  else map_ok (λ _, tt) (validate_lairs (doc_lairs d) nothing_seen).

(** ** Snapshots *)

Fixpoint mark_tree_restorable (node : LayoutNode) : LayoutNode :=
  match node with
  | Leaf splint =>
      if is_exited (state splint) then node else Leaf (set_state (Exited 0) splint)
  | Branch axis ratio first second =>
      Branch axis ratio (mark_tree_restorable first) (mark_tree_restorable second)
  end.

Definition mark_dojo (d : Dojo) : Dojo := set_dojo_root (mark_tree_restorable (root d)) d.
Definition mark_lair (l : Lair) : Lair := set_lair_dojos (mark_dojo <$> dojos l) l.

Definition from_topology (t : Topology) : outcome PersistenceError TopologyDocument :=
  let ls := List.filter (λ l, is_persistent (lifetime l)) (bt_values (lairs t)) in
  let ls := mark_lair <$> ls in
  let document := current_document (revision t) ls in
  let? _ := validate document in
  Ok document.

Definition lair_map (d : TopologyDocument) : btree Lair :=
  bt_collect ((λ l, (lair_id l, l)) <$>
    List.filter (λ l, is_persistent (lifetime l)) (doc_lairs d)).

Definition into_topology (d : TopologyDocument) : outcome PersistenceError Topology :=
  let? _ := validate d in
  Ok {| revision := doc_revision d; lairs := lair_map d |}.

(** ** Encoding *)

(** The calls into [serde_json]; [inl] is the error's message. *)
Class Json := {
  from_slice_version : list Z → str + Z;
  from_slice_v5 : list Z → str + TopologyDocument;
  from_slice_v4 : list Z → str + LegacyTopologyDocumentV4;
  from_slice_v3 : list Z → str + LegacyTopologyDocumentV3;
  from_slice_v2 : list Z → str + LegacyLairDocumentV2;
  to_vec : TopologyDocument → str + list Z;
}.

(** [.map_err(|error| PersistenceError::Decode(error.to_string()))?]. *)
Definition decoded {A} (r : str + A) : outcome PersistenceError A :=
  match r with inl message => Err (Decode message) | inr a => Ok a end.

Section codec.
Context `{Json}.

Definition decode (bytes : list Z) : outcome PersistenceError TopologyDocument :=
  if MAX_TOPOLOGY_DOCUMENT_BYTES <? Z.of_nat (length bytes) then Err DocumentTooLarge
  else
    let? version := decoded (from_slice_version bytes) in
    let? document :=
      if version =? TOPOLOGY_SCHEMA_VERSION then decoded (from_slice_v5 bytes)
      else if version =? LEGACY_TOPOLOGY_SCHEMA_VERSION_V4 then
        let? legacy := decoded (from_slice_v4 bytes) in
        if negb (v4_schema_version legacy =? LEGACY_TOPOLOGY_SCHEMA_VERSION_V4)
        then Err (UnsupportedVersion (v4_schema_version legacy))
        else migrate_v4 legacy
      else if version =? LEGACY_TOPOLOGY_SCHEMA_VERSION_V3 then
        let? legacy := decoded (from_slice_v3 bytes) in
        if negb (v3_schema_version legacy =? LEGACY_TOPOLOGY_SCHEMA_VERSION_V3)
        then Err (UnsupportedVersion (v3_schema_version legacy))
        else migrate_v3 legacy
      else if version =? LEGACY_LAIR_SCHEMA_VERSION then
        let? legacy := decoded (from_slice_v2 bytes) in
        if negb (v2_schema_version legacy =? LEGACY_LAIR_SCHEMA_VERSION)
        then Err (UnsupportedVersion (v2_schema_version legacy))
        else migrate_v2 legacy
      else Err (UnsupportedVersion version) in
    let? _ := validate document in
    Ok document.

Definition encode (d : TopologyDocument) : outcome PersistenceError (list Z) :=
  let? _ := validate d in
  match to_vec d with inl message => Err (Encode message) | inr bytes => Ok bytes end.
End codec.

(** Every ratio of the document is a [SplitRatio] (its type says so; the
    deserializer refuses others). *)
Definition doc_ratios_valid (d : TopologyDocument) : Prop :=
  Forall (λ l, Forall (λ dj, ratios_valid (root dj)) (dojos l)) (doc_lairs d).

(** What the code relies on: a document that serializes parses back. *)
Class JsonLaws `(J : Json) : Prop := {
  version_to_vec d bytes :
    to_vec d = inr bytes → from_slice_version bytes = inr (schema_version d);
  v5_to_vec d bytes :
    doc_ratios_valid d → to_vec d = inr bytes → from_slice_v5 bytes = inr d;
}.
