(* ===== verification/PersistenceInv.v ===== *)
(** * Validity of the durable document

    A declarative statement of what [validate] accepts, the equivalence of the
    two, and what follows for restored topologies and migrated documents. *)

From Stdlib Require Import String.
From stdpp Require Import gmap.
From S2P Require Import Prelude RustStd Layout Topology TopologyInv TopologySteps Persistence.

#[local] Open Scope Z_scope.

(** ** The specification of a valid document *)

Definition valid_name (s : str) : Prop := trim s ≠ [] ∧ trim s = s ∧ str_len s ≤ MAX_NAME_BYTES.

(** An absolute UTF-8 path without a parent component. *)
Definition valid_cwd (path : list Z) : Prop :=
  is_utf8 path = true ∧ is_absolute path = true ∧
  Forall (λ c, is_safe_component c = true) (components path).

Definition valid_argument (s : str) : Prop :=
  s ≠ [] ∧ str_len s ≤ MAX_ARGUMENT_BYTES ∧ 0 ∉ s.

Record valid_splint (s : Splint) : Prop := {
  vs_title : valid_name (title s);
  vs_cwd : valid_cwd (cwd s);
  vs_arguments : Z.of_nat (length (command s)) ≤ MAX_ARGUMENTS ∧
    Forall valid_argument (command s) ∧ foldr Z.add 0 (str_len <$> command s) ≤ MAX_COMMAND_BYTES;
  vs_shell : ∀ sh, shell (launch s) = Some sh → valid_argument sh;
  vs_scrollback : scrollback_lines (launch s) ≤ 1000000;
  vs_columns : 1 ≤ launch_columns (launch s) ≤ 4096;
  vs_rows : 1 ≤ launch_rows (launch s) ≤ 4096;
  vs_incarnation : last_incarnation s ≠ Some 0;
  vs_exited : is_exited (state s) = true;
}.

Fixpoint tree_depth (node : LayoutNode) : Z :=
  match node with
  | Leaf _ => 1
  | Branch _ _ first second => 1 + Z.max (tree_depth first) (tree_depth second)
  end.

Record valid_dojo (d : Dojo) : Prop := {
  vd_name : valid_name (dojo_name d);
  vd_focus : default_focus d ∈ leaf_ids (root d);
  vd_depth : tree_depth (root d) ≤ MAX_LAYOUT_DEPTH;
  vd_splints : Forall valid_splint (leaves (root d));
}.

Record valid_lair (l : Lair) : Prop := {
  vl_name : valid_name (lair_name l);
  vl_provenance : ∀ p, provenance l = Some p → valid_name p;
  vl_lifecycle : lifetime l = Transient → retention l = Disposable ∧ provenance l = None;
  vl_count : Z.of_nat (length (dojos l)) ≤ MAX_DOJOS_PER_LAIR;
  vl_dojos : Forall valid_dojo (dojos l);
}.

Definition splint_total (ls : list Lair) : Z := Z.of_nat (length (ls ≫= lair_splint_ids)).

Record valid_document (d : TopologyDocument) : Prop := {
  vdoc_version : schema_version d = TOPOLOGY_SCHEMA_VERSION;
  vdoc_lairs : Z.of_nat (length (doc_lairs d)) ≤ MAX_PERSISTENT_LAIRS;
  vdoc_each : Forall valid_lair (doc_lairs d);
  vdoc_lair_ids : NoDup (lair_id <$> doc_lairs d);
  vdoc_names : NoDup (lair_name <$> doc_lairs d);
  vdoc_dojo_ids : NoDup (doc_lairs d ≫= lair_dojo_ids);
  vdoc_splint_ids : NoDup (doc_lairs d ≫= lair_splint_ids);
  vdoc_splints : splint_total (doc_lairs d) ≤ MAX_SPLINTS;
}.

(** ** The checks decide their specifications *)

Lemma persist_validate_name_spec s kind :
  persist_validate_name s kind = Ok tt ↔ valid_name s.
Proof.
  unfold persist_validate_name, valid_name.
  destruct (bool_decide (trim s = [])) eqn:H1; simpl.
  { apply bool_decide_eq_true in H1. naive_solver. }
  apply bool_decide_eq_false in H1.
  destruct (bool_decide (trim s = s)) eqn:H2; simpl.
  - apply bool_decide_eq_true in H2.
    destruct (Z.ltb_spec MAX_NAME_BYTES (str_len s)); [split; [done|lia]|naive_solver].
  - apply bool_decide_eq_false in H2. naive_solver.
Qed.

Lemma bad_argument_spec s : bad_argument s = false ↔ valid_argument s.
Proof.
  unfold bad_argument, valid_argument.
  rewrite !orb_false_iff, !bool_decide_eq_false, Z.ltb_ge. naive_solver.
Qed.

Lemma validate_cwd_spec path : validate_cwd path = Ok tt ↔ valid_cwd path.
Proof.
  unfold validate_cwd, valid_cwd.
  destruct (_ || existsb _ _) eqn:H.
  - split; [done|]. intros (Hu & Ha & Hc). rewrite Hu, Ha in H. simpl in H.
    assert (existsb (λ part, negb (is_safe_component part)) (components path) = false) as Hf;
      [|congruence].
    apply existsb_false. eapply Forall_impl; [exact Hc|]. simpl. by intros c ->.
  - split; [|done]. intros _. rewrite !orb_false_iff, existsb_false in H.
    destruct H as [[?%negb_false_iff ?%negb_false_iff] Hc]. split_and!; [done..|].
    eapply Forall_impl; [exact Hc|]. simpl. intros c. by destruct (is_safe_component c).
Qed.

Lemma validate_command_spec cmd :
  validate_command cmd = Ok tt ↔
  Z.of_nat (length cmd) ≤ MAX_ARGUMENTS ∧ Forall valid_argument cmd ∧
  foldr Z.add 0 (str_len <$> cmd) ≤ MAX_COMMAND_BYTES.
Proof.
  unfold validate_command.
  assert (existsb bad_argument cmd = false ↔ Forall valid_argument cmd) as Ha.
  { rewrite existsb_false. apply Forall_iff. intros s. apply bad_argument_spec. }
  destruct (Z.ltb_spec MAX_ARGUMENTS (Z.of_nat (length cmd))); simpl; [split; [done|lia]|].
  destruct (existsb bad_argument cmd); simpl; [naive_solver|].
  destruct (Z.ltb_spec MAX_COMMAND_BYTES (foldr Z.add 0 (str_len <$> cmd))); [split; [done|lia]|].
  naive_solver.
Qed.

Lemma bad_launch_spec s :
  bad_launch s = false ↔
  (∀ sh, shell (launch s) = Some sh → valid_argument sh) ∧
  scrollback_lines (launch s) ≤ 1000000 ∧ 1 ≤ launch_columns (launch s) ≤ 4096 ∧
  1 ≤ launch_rows (launch s) ≤ 4096 ∧ last_incarnation s ≠ Some 0.
Proof.
  unfold bad_launch.
  rewrite !orb_false_iff, !negb_false_iff, !andb_true_iff, !Z.leb_le, Z.ltb_ge, bool_decide_eq_false.
  destruct (shell (launch s)) as [sh|].
  - rewrite bad_argument_spec. naive_solver.
  - naive_solver.
Qed.

Lemma validate_leaf_spec s depth count ids r :
  validate_tree (Leaf s) depth count ids = Ok r ↔
  depth ≤ MAX_LAYOUT_DEPTH ∧ count + 1 ≤ MAX_SPLINTS ∧ splint_id s ∉ ids ∧ valid_splint s ∧
  r = (count + 1, {[splint_id s]} ∪ ids).
Proof.
  simpl. destruct (Z.ltb_spec MAX_LAYOUT_DEPTH depth); [split; [done|lia]|].
  destruct (Z.ltb_spec MAX_SPLINTS (count + 1)); [split; [done|lia]|].
  case_bool_decide; [naive_solver|].
  pose proof (persist_validate_name_spec (title s) "Splint title") as Hv1.
  pose proof (validate_cwd_spec (cwd s)) as Hv2. pose proof (validate_command_spec (command s)) as Hv3.
  pose proof (bad_launch_spec s) as Hv4.
  destruct (persist_validate_name _ _) as [[]| |]; simpl;
    [|split; [done|]; intros (_&_&_&[]&_); naive_solver..].
  destruct (validate_cwd _) as [[]| |]; simpl;
    [|split; [done|]; intros (_&_&_&[]&_); by apply Hv2 in vs_cwd0..].
  destruct (validate_command _) as [[]| |]; simpl;
    [|split; [done|]; intros (_&_&_&[]&_); by apply Hv3 in vs_arguments0..].
  destruct (bad_launch s);
    [split; [done|]; intros (_&_&_&[]&_); discriminate (proj2 Hv4 (conj vs_shell0 (conj vs_scrollback0 (conj vs_columns0 (conj vs_rows0 vs_incarnation0)))))|].
  destruct (is_exited (state s)) eqn:He; simpl; [|split; [done|]; intros (_&_&_&[]&_); congruence].
  split; [|naive_solver]. intros [= <-]. split_and!; try done.
  destruct (proj1 Hv4 eq_refl) as (?&?&?&?&?). split; naive_solver.
Qed.

Lemma tree_depth_pos node : 1 ≤ tree_depth node.
Proof. induction node; simpl; lia. Qed.

Lemma validate_tree_spec node depth count ids r :
  validate_tree node depth count ids = Ok r ↔
  depth - 1 + tree_depth node ≤ MAX_LAYOUT_DEPTH ∧
  count + splint_count node ≤ MAX_SPLINTS ∧
  NoDup (leaf_ids node) ∧ (∀ x, x ∈ leaf_ids node → x ∉ ids) ∧
  Forall valid_splint (leaves node) ∧
  r = (count + splint_count node, list_to_set (leaf_ids node) ∪ ids).
Proof.
  revert depth count ids r. induction node as [s|ax ra f IHf g IHg]; intros depth count ids r.
  - rewrite validate_leaf_spec. unfold leaf_ids. simpl.
    rewrite Forall_singleton, (right_id_L ∅ (∪)). split.
    + intros (?&?&?&?&?). split_and!; try done; [lia|apply NoDup_singleton|set_solver].
    + intros (?&?&?&?&?&?). split_and!; try done; [lia|set_solver].
  - cbn [validate_tree tree_depth splint_count leaves].
    pose proof (tree_depth_pos f). pose proof (tree_depth_pos g).
    destruct (Z.ltb_spec MAX_LAYOUT_DEPTH depth) as [Hd|Hd].
    { split; [done|]. intros (?&_). lia. }
    unfold leaf_ids. cbn [leaves]. rewrite fmap_app, Forall_app, NoDup_app.
    fold (leaf_ids f) (leaf_ids g).
    assert (Hpos : 0 ≤ splint_count g) by (rewrite splint_count_leaves; lia).
    destruct (validate_tree f (depth + 1) count ids) as [[c1 ids1]| |] eqn:Hf; simpl.
    + apply IHf in Hf as (Hd1 & Hc1 & Hn1 & Hi1 & Hv1 & [= -> ->]). rewrite IHg. split.
      * intros (Hd2 & Hc2 & Hn2 & Hi2 & Hv2 & ->). split_and!; try done; try lia.
        -- intros x Hx Hx'. apply (Hi2 x Hx'). set_solver.
        -- intros x [Hx|Hx]%elem_of_app; [by apply Hi1|]. specialize (Hi2 x Hx). set_solver.
        -- f_equal; [lia|]. rewrite list_to_set_app_L. set_solver.
      * intros (Hd2 & Hc2 & (_ & Hdis & Hn2) & Hi2 & (_ & Hv2) & ->). split_and!; try done; try lia.
        -- intros x Hx. specialize (Hi2 x). specialize (Hdis x). set_solver.
        -- f_equal; [lia|]. rewrite list_to_set_app_L. set_solver.
    + split; [done|]. intros (?&?&(?&?&?)&Hi&(?&?)&?).
      assert (validate_tree f (depth + 1) count ids =
        Ok (count + splint_count f, list_to_set (leaf_ids f) ∪ ids)) as Hx; [|congruence].
      apply IHf. split_and!; try done; try lia. set_solver.
    + split; [done|]. intros (?&?&(?&?&?)&Hi&(?&?)&?).
      assert (validate_tree f (depth + 1) count ids =
        Ok (count + splint_count f, list_to_set (leaf_ids f) ∪ ids)) as Hx; [|congruence].
      apply IHf. split_and!; try done; try lia. set_solver.
Qed.

(** What the loops have seen after a list of Dojos, and of Lairs. *)
Definition see_dojos (ds : list Dojo) (s : seen) : seen :=
  {| seen_lairs := seen_lairs s; seen_names := seen_names s;
     seen_dojos := list_to_set (dojo_id <$> ds) ∪ seen_dojos s;
     seen_splints := list_to_set (ds ≫= dojo_splint_ids) ∪ seen_splints s;
     seen_count := seen_count s + Z.of_nat (length (ds ≫= dojo_splint_ids)) |}.

Definition see_lair (l : Lair) (s : seen) : seen :=
  see_dojos (dojos l)
    {| seen_lairs := {[lair_id l]} ∪ seen_lairs s; seen_names := {[lair_name l]} ∪ seen_names s;
       seen_dojos := seen_dojos s; seen_splints := seen_splints s; seen_count := seen_count s |}.

Lemma seen_eq s s' :
  seen_lairs s = seen_lairs s' → seen_names s = seen_names s' → seen_dojos s = seen_dojos s' →
  seen_splints s = seen_splints s' → seen_count s = seen_count s' → s = s'.
Proof. destruct s, s'; simpl. congruence. Qed.

Lemma splint_count_ids node : splint_count node = Z.of_nat (length (leaf_ids node)).
Proof. rewrite splint_count_leaves. unfold leaf_ids. by rewrite length_fmap. Qed.

Lemma validate_dojos_spec ds s r :
  seen_count s ≤ MAX_SPLINTS →
  validate_dojos ds s = Ok r ↔
  Forall valid_dojo ds ∧
  NoDup (dojo_id <$> ds) ∧ (∀ x, x ∈ dojo_id <$> ds → x ∉ seen_dojos s) ∧
  NoDup (ds ≫= dojo_splint_ids) ∧ (∀ x, x ∈ ds ≫= dojo_splint_ids → x ∉ seen_splints s) ∧
  seen_count (see_dojos ds s) ≤ MAX_SPLINTS ∧ r = see_dojos ds s.
Proof.
  revert s. induction ds as [|d ds IH]; intros s Hs.
  { simpl. assert (see_dojos [] s = s) as ->.
    { apply seen_eq; simpl; try done; try apply (left_id_L ∅ (∪)). lia. }
    split; [|naive_solver]. intros [= <-].
    split_and!; try done; try (by constructor); try apply NoDup_nil_2; try lia;
      intros x Hx; by apply elem_of_nil in Hx. }
  cbn [validate_dojos]. rewrite Forall_cons. csimpl. rewrite NoDup_cons, NoDup_app.
  pose proof (persist_validate_name_spec (dojo_name d) "Dojo name") as Hname.
  destruct (persist_validate_name _ _) as [[]| |]; simpl;
    [|split; [done|]; intros ((Hd & _) & _); destruct Hd; naive_solver..].
  case_bool_decide as Hid.
  { split; [done|]. intros (_ & _ & Hx & _). exfalso. apply (Hx (dojo_id d)); [set_solver|done]. }
  destruct (find_splint (root d) (default_focus d)) as [f|] eqn:Hf.
  2: { split; [done|]. intros ((Hd & _) & _). apply find_splint_None in Hf. by destruct Hd. }
  assert (default_focus d ∈ leaf_ids (root d)) as Hfocus by (apply find_splint_is_Some; eauto).
  pose proof (validate_tree_spec (root d) 1 (seen_count s) (seen_splints s)) as Ht.
  rewrite splint_count_ids in Ht. fold (dojo_splint_ids d) in Ht.
  set (s1 := {| seen_lairs := seen_lairs s; seen_names := seen_names s;
     seen_dojos := {[dojo_id d]} ∪ seen_dojos s;
     seen_splints := list_to_set (dojo_splint_ids d) ∪ seen_splints s;
     seen_count := seen_count s + Z.of_nat (length (dojo_splint_ids d)) |}).
  assert (see_dojos ds s1 = see_dojos (d :: ds) s) as Hsee.
  { apply seen_eq; csimpl; try done.
    - set_solver.
    - rewrite list_to_set_app_L. set_solver.
    - rewrite length_app. lia. }
  destruct (validate_tree _ _ _ _) as [[c ids]| |] eqn:Hv; simpl.
  - destruct (proj1 (Ht (c, ids)) eq_refl) as (Hdepth & Hc & Hn & Hdis & Hval & [= -> ->]). fold s1.
    rewrite (IH s1) by done. rewrite Hsee. split.
    + intros (Hvd & Hn1 & Hd1 & Hn2 & Hd2 & Hle & ->). split_and!; try done.
      * split; [by apply Hname|done|lia|done].
      * intros Hx. specialize (Hd1 _ Hx). set_solver.
      * intros x [->|Hx]%elem_of_cons; [done|]. specialize (Hd1 x Hx). set_solver.
      * intros x Hx Hx'. apply (Hd2 x Hx'). simpl. set_solver.
      * intros x [Hx|Hx]%elem_of_app; [by apply Hdis|]. specialize (Hd2 x Hx). set_solver.
    + intros ((Hvd & Hvds) & (Hni & Hn1) & Hd1 & (Hn2 & Hdd & Hn3) & Hd2 & Hle & ->).
      split_and!; try done.
      * intros x Hx. simpl. apply not_elem_of_union. split; [|by apply Hd1; right].
        intros ->%elem_of_singleton. done.
      * intros x Hx. simpl. specialize (Hd2 x). specialize (Hdd x). set_solver.
  - split; [done|]. intros ((Hvd & _) & _ & _ & (Hn2 & _ & _) & Hd2 & Hle & _). exfalso.
    csimpl in Hle. rewrite length_app in Hle. destruct Hvd.
    enough (∃ r, validate_tree (root d) 1 (seen_count s) (seen_splints s) = Ok r) as [? ?] by congruence.
    rewrite Hv. eexists. apply Ht. split_and!; try done; try lia. set_solver.
  - split; [done|]. intros ((Hvd & _) & _ & _ & (Hn2 & _ & _) & Hd2 & Hle & _). exfalso.
    csimpl in Hle. rewrite length_app in Hle. destruct Hvd.
    enough (∃ r, validate_tree (root d) 1 (seen_count s) (seen_splints s) = Ok r) as [? ?] by congruence.
    rewrite Hv. eexists. apply Ht. split_and!; try done; try lia. set_solver.
Qed.

(** What a Lair is refused for before its Dojos are looked at. *)
Definition lair_head_ok (l : Lair) (s : seen) : Prop :=
  valid_name (lair_name l) ∧ (∀ p, provenance l = Some p → valid_name p) ∧
  (lifetime l = Transient → retention l = Disposable ∧ provenance l = None) ∧
  lair_id l ∉ seen_lairs s ∧ lair_name l ∉ seen_names s ∧
  Z.of_nat (length (dojos l)) ≤ MAX_DOJOS_PER_LAIR.

Lemma validate_provenance_spec l :
  match provenance l with
  | Some p => persist_validate_name p "Lair provenance"
  | None => Ok tt
  end = Ok tt ↔ ∀ p, provenance l = Some p → valid_name p.
Proof.
  destruct (provenance l) as [p|]; [|naive_solver].
  rewrite persist_validate_name_spec. naive_solver.
Qed.

Lemma lifecycle_spec l :
  negb (is_persistent (lifetime l))
    && (is_protected (retention l) || bool_decide (is_Some (provenance l))) = false ↔
  (lifetime l = Transient → retention l = Disposable ∧ provenance l = None).
Proof.
  destruct (lifetime l), (retention l), (provenance l); simpl;
    try (case_bool_decide as Hs); naive_solver.
Qed.

Lemma validate_lairs_cons l ls s :
  is_ok (validate_lairs (l :: ls) s) ↔
  lair_head_ok l s ∧
  ∃ s', validate_dojos (dojos l)
          {| seen_lairs := {[lair_id l]} ∪ seen_lairs s;
             seen_names := {[lair_name l]} ∪ seen_names s;
             seen_dojos := seen_dojos s; seen_splints := seen_splints s;
             seen_count := seen_count s |} = Ok s' ∧ is_ok (validate_lairs ls s').
Proof.
  cbn [validate_lairs]. unfold lair_head_ok.
  pose proof (persist_validate_name_spec (lair_name l) "Lair name") as H1.
  pose proof (validate_provenance_spec l) as H2. pose proof (lifecycle_spec l) as H3.
  destruct (persist_validate_name _ _) as [[]| |]; cbn [obind]; [|naive_solver..].
  destruct (match provenance l with Some _ => _ | None => _ end) as [[]| |]; cbn [obind];
    [|naive_solver..].
  destruct (negb (is_persistent (lifetime l)) && _); [naive_solver|].
  case_bool_decide; [naive_solver|]. case_bool_decide; [naive_solver|].
  destruct (Z.ltb_spec MAX_DOJOS_PER_LAIR (Z.of_nat (length (dojos l)))).
  { split; [done|]. intros ((?&?&?&?&?&?) & _). lia. }
  destruct (validate_dojos _ _); cbn [obind]; naive_solver.
Qed.

Definition unseen_lairs (ls : list Lair) (s : seen) : Prop :=
  (∀ x, x ∈ lair_id <$> ls → x ∉ seen_lairs s) ∧ (∀ x, x ∈ lair_name <$> ls → x ∉ seen_names s) ∧
  (∀ x, x ∈ ls ≫= lair_dojo_ids → x ∉ seen_dojos s) ∧
  (∀ x, x ∈ ls ≫= lair_splint_ids → x ∉ seen_splints s).

Lemma unseen_lairs_cons l ls s :
  unseen_lairs (l :: ls) s ↔
  unseen_lairs [l] s ∧ (∀ x, x ∈ lair_id <$> ls → x ∉ seen_lairs s) ∧
  (∀ x, x ∈ lair_name <$> ls → x ∉ seen_names s) ∧
  (∀ x, x ∈ ls ≫= lair_dojo_ids → x ∉ seen_dojos s) ∧
  (∀ x, x ∈ ls ≫= lair_splint_ids → x ∉ seen_splints s).
Proof.
  unfold unseen_lairs. csimpl. rewrite !app_nil_r.
  setoid_rewrite elem_of_cons. setoid_rewrite elem_of_app. setoid_rewrite elem_of_nil.
  naive_solver.
Qed.

Lemma unseen_see_lair l ls s :
  unseen_lairs ls (see_lair l s) ↔
  unseen_lairs ls s ∧ lair_id l ∉ lair_id <$> ls ∧ lair_name l ∉ lair_name <$> ls ∧
  (∀ x, x ∈ lair_dojo_ids l → x ∉ ls ≫= lair_dojo_ids) ∧
  (∀ x, x ∈ lair_splint_ids l → x ∉ ls ≫= lair_splint_ids).
Proof.
  unfold unseen_lairs, see_lair, see_dojos. cbn [seen_lairs seen_names seen_dojos seen_splints].
  fold (lair_dojo_ids l) (lair_splint_ids l).
  setoid_rewrite not_elem_of_union. setoid_rewrite elem_of_list_to_set.
  setoid_rewrite not_elem_of_singleton. split.
  - intros (H1 & H2 & H3 & H4).
    split_and!; intros x; [apply H1|apply H2|apply H3|apply H4| | | |]; try intros Hx Hx'.
    + by destruct (H1 _ x).
    + by destruct (H2 _ x).
    + by destruct (H3 _ Hx').
    + by destruct (H4 _ Hx').
  - intros ((H1 & H2 & H3 & H4) & H5 & H6 & H7 & H8).
    split_and!; intros x Hx; (split; [|by auto]); try (intros ->; done); intros Hx'; naive_solver.
Qed.

Lemma validate_lairs_spec ls s :
  seen_count s ≤ MAX_SPLINTS →
  is_ok (validate_lairs ls s) ↔
  Forall valid_lair ls ∧ NoDup (lair_id <$> ls) ∧ NoDup (lair_name <$> ls) ∧
  NoDup (ls ≫= lair_dojo_ids) ∧ NoDup (ls ≫= lair_splint_ids) ∧
  unseen_lairs ls s ∧ seen_count s + splint_total ls ≤ MAX_SPLINTS.
Proof.
  revert s. induction ls as [|l ls IH]; intros s Hs.
  { split; [|done]. intros _. unfold unseen_lairs, splint_total; simpl.
    split_and!; try (by constructor); try lia; try apply NoDup_nil_2;
      intros x Hx; by apply elem_of_nil in Hx. }
  rewrite validate_lairs_cons. setoid_rewrite validate_dojos_spec; [|done].
  rewrite unseen_lairs_cons, Forall_cons. unfold splint_total. csimpl.
  rewrite !NoDup_cons, !NoDup_app, length_app.
  fold (lair_dojo_ids l) (lair_splint_ids l) (see_lair l s).
  assert (seen_count (see_lair l s) = seen_count s + Z.of_nat (length (lair_splint_ids l))) as Hc by done.
  assert (unseen_lairs [l] s ↔ lair_id l ∉ seen_lairs s ∧ lair_name l ∉ seen_names s ∧
    (∀ x, x ∈ lair_dojo_ids l → x ∉ seen_dojos s) ∧ (∀ x, x ∈ lair_splint_ids l → x ∉ seen_splints s)) as Hu.
  { unfold unseen_lairs. csimpl. rewrite !app_nil_r. setoid_rewrite list_elem_of_singleton. naive_solver. }
  rewrite Hu. split.
  - intros ((?&?&?&?&?&?) & s' & (?&?&?&?&?&?& ->) & Hrest). apply IH in Hrest; [|done].
    rewrite unseen_see_lair in Hrest. unfold unseen_lairs, splint_total in Hrest. rewrite Hc in Hrest.
    destruct Hrest as (?&?&?&?&?&((?&?&?&?)&?&?&?&?)&?). split_and!; try done; try lia.
  - intros ((Hl&?)&(?&?)&(?&?)&(?&?&?)&(?&?&?)&((?&?&?&?)&?&?&?&?)&?). destruct Hl.
    split; [unfold lair_head_ok; by split_and!|]. exists (see_lair l s). rewrite IH, Hc by (rewrite Hc; lia).
    rewrite unseen_see_lair. unfold unseen_lairs, splint_total. split_and!; try done; lia.
Qed.

(** [validate] accepts exactly the valid documents. *)
Lemma validate_spec d : validate d = Ok tt ↔ valid_document d.
Proof.
  unfold validate.
  destruct (Z.eqb_spec (schema_version d) TOPOLOGY_SCHEMA_VERSION); simpl;
    [|split; [done|]; by intros []].
  destruct (Z.ltb_spec MAX_PERSISTENT_LAIRS (Z.of_nat (length (doc_lairs d))));
    [split; [done|]; intros []; lia|].
  assert (map_ok (λ _, tt) (validate_lairs (doc_lairs d) nothing_seen) = Ok tt ↔
    is_ok (validate_lairs (doc_lairs d) nothing_seen)) as ->.
  { by destruct (validate_lairs _ _). }
  rewrite validate_lairs_spec by done. simpl. split.
  - intros (?&?&?&?&?&?&?). by split.
  - intros []. by split_and!.
Qed.

(** ** The checks never panic *)

Lemma obind_total {E A B} (r : outcome E A) (k : A → outcome E B) :
  r ≠ Panic → (∀ a, k a ≠ Panic) → obind r k ≠ Panic.
Proof. by destruct r; simpl. Qed.

Lemma validate_tree_total node depth count ids : validate_tree node depth count ids ≠ Panic.
Proof.
  revert depth count ids. induction node as [s|ax ra f IHf g IHg]; intros; cbn [validate_tree];
    destruct (MAX_LAYOUT_DEPTH <? depth); try done.
  - destruct (_ <? _); [done|]. case_bool_decide; [done|].
    unfold persist_validate_name, validate_cwd, validate_command.
    repeat (apply obind_total; [by case_match|intros _]). by repeat case_match.
  - apply obind_total; [apply IHf|]. intros [??]. apply IHg.
Qed.

Lemma validate_dojos_total ds s : validate_dojos ds s ≠ Panic.
Proof.
  revert s. induction ds as [|d ds IH]; intros s; [done|]. cbn [validate_dojos].
  apply obind_total; [unfold persist_validate_name; by case_match|intros _].
  case_match; [done|]. case_match; [|done].
  apply obind_total; [apply validate_tree_total|]. intros [??]. apply IH.
Qed.

Lemma validate_lairs_total ls s : validate_lairs ls s ≠ Panic.
Proof.
  revert s. induction ls as [|l ls IH]; intros s; [done|]. cbn [validate_lairs].
  apply obind_total; [unfold persist_validate_name; by case_match|intros _].
  apply obind_total; [unfold persist_validate_name; by repeat case_match|intros _].
  do 4 (case_match; [done|]). apply obind_total; [apply validate_dojos_total|done].
Qed.

(** ** Restoration *)

Lemma lairs_ok_filter (f : Lair → bool) L : lairs_ok L → lairs_ok (List.filter f L).
Proof.
  induction L as [|l L IH]; [done|]. rewrite lairs_ok_cons.
  intros (?&Hname&?&Hd&?&Hs&?&HL). specialize (IH HL). simpl. destruct (f l); [|done].
  assert (∀ l', l' ∈ List.filter f L → l' ∈ L) as Hsub.
  { intros l'. rewrite !list_elem_of_In. by intros [? _]%filter_In. }
  apply lairs_ok_cons. split_and!; try done.
  - rewrite list_elem_of_fmap in *. naive_solver.
  - intros x Hx. specialize (Hd x Hx). rewrite list_elem_of_bind in *. naive_solver.
  - intros x Hx. specialize (Hs x Hx). rewrite list_elem_of_bind in *. naive_solver.
Qed.

Lemma valid_name_ok n : valid_name n → name_ok n.
Proof.
  intros (Hne & He & Hl). unfold name_ok, normalized_name.
  rewrite bool_decide_eq_false_2 by done. rewrite He. by destruct (Z.ltb_spec MAX_NAME_BYTES (str_len n)); [lia|].
Qed.

Lemma valid_document_lairs_ok d :
  valid_document d → doc_ratios_valid d → lairs_ok (doc_lairs d).
Proof.
  intros [] Hr. split; try done.
  - eapply Forall_impl; [exact vdoc_each0|]. intros l []. by apply valid_name_ok.
  - apply Forall_forall. intros l Hl. apply Forall_forall. intros dj Hdj.
    rewrite Forall_forall in vdoc_each0. destruct (vdoc_each0 l Hl).
    rewrite Forall_forall in vl_dojos0. destruct (vl_dojos0 dj Hdj).
    split; [by apply valid_name_ok|done|].
    unfold doc_ratios_valid in Hr. rewrite Forall_forall in Hr. specialize (Hr l Hl).
    rewrite Forall_forall in Hr. by apply Hr.
Qed.

Lemma bt_collect_app {V} (l1 l2 : list (Z * V)) :
  bt_collect (l1 ++ l2) = foldl (λ m '(k, v), bt_insert m k v) (bt_collect l1) l2.
Proof. unfold bt_collect. apply foldl_app. Qed.

Lemma bt_collect_wf {V} (l : list (Z * V)) : bt_wf (bt_collect l).
Proof.
  induction l as [|[k v] l IH] using rev_ind; [apply SSorted_nil|].
  rewrite bt_collect_app. simpl. by apply bt_insert_wf.
Qed.

(** With distinct keys nothing is overwritten. *)
Lemma bt_collect_elem {V} (l : list (Z * V)) k v :
  NoDup l.*1 → (k, v) ∈ bt_collect l ↔ (k, v) ∈ l.
Proof.
  revert k v. induction l as [|[k0 v0] l IH] using rev_ind; intros k v Hn; [done|].
  rewrite fmap_app, NoDup_app in Hn. destruct Hn as (Hn & Hd & _). simpl in Hd.
  rewrite bt_collect_app. simpl. rewrite bt_insert_elem by apply bt_collect_wf.
  rewrite elem_of_app, list_elem_of_singleton, IH by done.
  split; [naive_solver|]. intros [Hin|[= -> ->]]; [|by left]. right. split; [|done].
  intros ->. apply (Hd k0); [|by left]. apply list_elem_of_fmap. by exists (k0, v).
Qed.

Lemma bt_wf_NoDup {V} (m : btree V) : bt_wf m → NoDup m.
Proof.
  induction m as [|[k v] m IH]; [constructor|]. intros [Hwf Hlt]%bt_wf_cons.
  apply NoDup_cons. split; [|by apply IH]. intros Hin. specialize (Hlt _ _ Hin). lia.
Qed.

Lemma bt_collect_perm {V} (l : list (Z * V)) : NoDup l.*1 → bt_collect l ≡ₚ l.
Proof.
  intros Hn. apply NoDup_Permutation.
  - apply bt_wf_NoDup, bt_collect_wf.
  - by eapply NoDup_fmap_1.
  - intros [k v]. by apply bt_collect_elem.
Qed.

Definition keyed (ls : list Lair) : list (Z * Lair) := (λ l, (lair_id l, l)) <$> ls.

Lemma keyed_keys ls : (keyed ls).*1 = lair_id <$> ls.
Proof. unfold keyed. rewrite <-list_fmap_compose. done. Qed.

Lemma keyed_values ls : (keyed ls).*2 = ls.
Proof. unfold keyed. rewrite <-list_fmap_compose. apply list_fmap_id. Qed.

Lemma NoDup_filter_fmap {A B} (f : A → bool) (g : A → B) l : NoDup (g <$> l) → NoDup (g <$> List.filter f l).
Proof.
  induction l as [|x l IH]; [done|]. csimpl. intros [Hx Hn]%NoDup_cons.
  destruct (f x); [|by apply IH]. csimpl. apply NoDup_cons. split; [|by apply IH].
  intros (y & Hy & Hin)%list_elem_of_fmap. apply Hx, list_elem_of_fmap. exists y. split; [done|].
  rewrite list_elem_of_In in *. by apply filter_In in Hin as [? _].
Qed.

(** A valid document restores to a well-formed topology. *)
Lemma lair_map_wf d :
  valid_document d → doc_ratios_valid d →
  bt_wf (lair_map d) ∧ Forall (λ '(k, l), lair_id l = k) (lair_map d) ∧
  lairs_ok (bt_values (lair_map d)) ∧
  lair_map d ≡ₚ keyed (List.filter (λ l, is_persistent (lifetime l)) (doc_lairs d)).
Proof.
  intros Hv Hr. pose proof (valid_document_lairs_ok d Hv Hr) as Hok. destruct Hv.
  unfold lair_map. fold (keyed (List.filter (λ l, is_persistent (lifetime l)) (doc_lairs d))).
  set (ls := List.filter _ _).
  assert (bt_collect (keyed ls) ≡ₚ keyed ls) as Hp.
  { apply bt_collect_perm. rewrite keyed_keys. by apply NoDup_filter_fmap. }
  split_and!; [apply bt_collect_wf| | |done].
  - rewrite Hp. unfold keyed. apply Forall_fmap, Forall_true. done.
  - unfold bt_values. rewrite Hp, keyed_values. by apply lairs_ok_filter.
Qed.

(** ** Snapshots *)

(** What a snapshot keeps of a topology: the persistent Lairs, every Splint
    marked exited. *)
Definition restored (t : Topology) : Topology :=
  {| revision := revision t;
     lairs := prod_map id mark_lair <$>
       List.filter (λ '(_, l), is_persistent (lifetime l)) (lairs t) |}.

Lemma filter_fmap_true {A} (f : A → bool) (g : A → A) l :
  (∀ x, f (g x) = f x) → List.filter f (g <$> List.filter f l) = g <$> List.filter f l.
Proof.
  intros Hg. induction l as [|x l IH]; [done|]. simpl. destruct (f x) eqn:Hx; [|done].
  csimpl. rewrite Hg, Hx. f_equal. exact IH.
Qed.

Lemma bt_wf_filter {V} (f : Z * V → bool) (m : btree V) : bt_wf m → bt_wf (List.filter f m).
Proof.
  induction m as [|[k v] m IH]; [done|]. intros [Hwf Hlt]%bt_wf_cons. simpl.
  destruct (f (k, v)); [|by apply IH]. apply bt_wf_cons. split; [by apply IH|].
  intros k' v' Hin. apply (Hlt k' v'). rewrite list_elem_of_In in *. by apply filter_In in Hin as [? _].
Qed.

Lemma restored_wf_keys t : topology_wf t → bt_wf (lairs (restored t)).
Proof.
  intros [Hs _ _ _]. eapply bt_wf_same_keys; [|by apply (bt_wf_filter (λ '(_, l), is_persistent (lifetime l)))].
  simpl. rewrite <-list_fmap_compose. apply list_fmap_ext. by intros ? [? ?].
Qed.

Lemma keyed_restored t :
  topology_wf t →
  keyed (mark_lair <$> List.filter (λ l, is_persistent (lifetime l)) (bt_values (lairs t))) =
  lairs (restored t).
Proof.
  intros [_ Hk _ _]. simpl. unfold bt_values.
  induction (lairs t) as [|[k l] m IH]; [done|].
  apply Forall_cons in Hk as [<- Hk]. simpl. destruct (is_persistent (lifetime l)); simpl; [|by apply IH].
  unfold keyed in *. csimpl. f_equal. by apply IH.
Qed.

Lemma mark_tree_leaf_ids node : leaf_ids (mark_tree_restorable node) = leaf_ids node.
Proof.
  unfold leaf_ids. induction node as [s|ax r f IHf g IHg]; simpl.
  - by destruct (is_exited (state s)).
  - by rewrite !fmap_app, IHf, IHg.
Qed.

Lemma mark_tree_ratios node : ratios_valid node → ratios_valid (mark_tree_restorable node).
Proof.
  induction node as [s|ax r f IHf g IHg]; simpl; [by destruct (is_exited _)|]. naive_solver.
Qed.

Lemma mark_tree_exited node :
  Forall (λ s, is_exited (state s) = true) (leaves (mark_tree_restorable node)).
Proof.
  induction node as [s|ax r f IHf g IHg]; simpl; [|by apply Forall_app].
  destruct (is_exited (state s)) eqn:He; by repeat constructor.
Qed.

Lemma mark_tree_id node :
  Forall (λ s, is_exited (state s) = true) (leaves node) → mark_tree_restorable node = node.
Proof.
  induction node as [s|ax r f IHf g IHg]; simpl.
  - rewrite Forall_singleton. by intros ->.
  - rewrite Forall_app. intros [??]. by rewrite IHf, IHg.
Qed.

Lemma mark_lair_idemp l : mark_lair (mark_lair l) = mark_lair l.
Proof.
  unfold mark_lair. destruct l; simpl. unfold set_lair_dojos; simpl. f_equal.
  rewrite <-list_fmap_compose. apply list_fmap_ext. intros _ d _. simpl.
  unfold mark_dojo, set_dojo_root. simpl. by rewrite (mark_tree_id (mark_tree_restorable _)) by apply mark_tree_exited.
Qed.

Lemma from_topology_Ok t d :
  from_topology t = Ok d ↔
  valid_document d ∧
  d = current_document (revision t)
        (mark_lair <$> List.filter (λ l, is_persistent (lifetime l)) (bt_values (lairs t))).
Proof.
  unfold from_topology. set (d0 := current_document _ _).
  pose proof (validate_spec d0) as Hv. destruct (validate d0) as [[]| |]; simpl; naive_solver.
Qed.

Lemma snapshot_ratios t :
  topology_wf t →
  doc_ratios_valid (current_document (revision t)
    (mark_lair <$> List.filter (λ l, is_persistent (lifetime l)) (bt_values (lairs t)))).
Proof.
  intros Hwf. destruct (wf_lairs _ Hwf). unfold doc_ratios_valid. simpl.
  apply Forall_fmap, Forall_forall. intros l Hl. simpl. apply Forall_fmap, Forall_forall. intros d Hd.
  simpl. apply mark_tree_ratios. rewrite Forall_forall in ok_dojos.
  specialize (ok_dojos l). rewrite list_elem_of_In in Hl. apply filter_In in Hl as [Hl _].
  rewrite Forall_forall in ok_dojos. apply ok_dojos; [by rewrite list_elem_of_In|done].
Qed.

Lemma lair_map_restored t :
  topology_wf t →
  lair_map (current_document (revision t)
    (mark_lair <$> List.filter (λ l, is_persistent (lifetime l)) (bt_values (lairs t)))) =
  lairs (restored t).
Proof.
  intros Hwf. unfold lair_map. cbn [doc_lairs current_document].
  rewrite (filter_fmap_true (λ l, is_persistent (lifetime l)) mark_lair) by done.
  rewrite <-(keyed_restored t) by done. apply bt_collect_sorted.
  pose proof (restored_wf_keys t Hwf) as Hs. by rewrite <-(keyed_restored t) in Hs by done.
Qed.
