(* ===== verification/PersistenceProps.v ===== *)
(** * Theorems on the durable document

    Validation decides the declarative specification; snapshots restore;
    decoding inverts encoding; migration leaves no legacy default name and
    names no two Dojos alike. *)

From Stdlib Require Import String.
From stdpp Require Import gmap.
From S2P Require Import Prelude RustStd Layout Topology TopologyInv TopologySteps TopologyProps Persistence PersistenceInv.

#[local] Open Scope Z_scope.

(** ** Migration *)

Lemma next_default_dojo_name_modern l n :
  next_default_dojo_name l = Ok n → is_legacy_default_dojo_name n = false.
Proof. by intros (k & _ & -> & _)%next_default_dojo_name_Ok. Qed.

Definition legacy (d : Dojo) : bool := is_legacy_default_dojo_name (dojo_name d).

(** One Dojo before and after: kept, or given a new name. *)
Definition renamed (d d' : Dojo) : Prop :=
  if legacy d then ∃ n, d' = set_dojo_name n d ∧ is_legacy_default_dojo_name n = false else d' = d.

(** A name assigned to position [i] is no other position's. *)
Definition distinct_from_others (ds : list Dojo) (i : nat) : Prop :=
  ∀ d j d', ds !! i = Some d → j ≠ i → ds !! j = Some d' → dojo_name d' ≠ dojo_name d.

(** Dojos [< index] are done, the others are as they were. *)
Definition migrating (ds0 ds : list Dojo) (index : nat) : Prop :=
  length ds = length ds0 ∧
  (∀ i d d', ds0 !! i = Some d → ds !! i = Some d' → if bool_decide (i < index)%nat then renamed d d' else d' = d) ∧
  (∀ i d, ds0 !! i = Some d → (i < index)%nat → legacy d = true → distinct_from_others ds i).

Lemma migrating_keep ds0 ds index d :
  migrating ds0 ds index → ds0 !! index = Some d → legacy d = false → migrating ds0 ds (S index).
Proof.
  intros (Hl & Hr & Hd) Hi Hk. split_and!; [done| |].
  - intros i e e' H1 H2. specialize (Hr i e e' H1 H2).
    destruct (decide (i = index)) as [->|].
    + rewrite bool_decide_eq_false_2 in Hr by lia. rewrite bool_decide_eq_true_2 by lia.
      simplify_eq. unfold renamed. by rewrite Hk.
    + repeat case_bool_decide; try done; lia.
  - intros i e H1 H2 H3. destruct (decide (i = index)) as [->|]; [congruence|].
    eapply Hd; [exact H1|lia|done].
Qed.

Lemma migrating_rename ds0 ds index d n :
  migrating ds0 ds index → ds !! index = Some d → legacy d = true →
  is_legacy_default_dojo_name n = false → n ∉ dojo_name <$> ds →
  migrating ds0 (<[index := set_dojo_name n d]> ds) (S index).
Proof.
  intros (Hl & Hr & Hd) Hi Hk Hmod Hnew.
  assert (index < length ds)%nat as Hlt by by eapply lookup_lt_Some.
  assert (∀ j d', ds !! j = Some d' → dojo_name d' ≠ n) as Hother.
  { intros j d' Hj <-. apply Hnew, list_elem_of_fmap. exists d'. split; [done|]. by eapply list_elem_of_lookup_2. }
  split_and!; [by rewrite length_insert| |].
  - intros i e e' H1 H2. destruct (decide (i = index)) as [->|Hne].
    + rewrite list_lookup_insert_eq in H2 by done. rewrite bool_decide_eq_true_2 by lia.
      specialize (Hr _ _ _ H1 Hi). rewrite bool_decide_eq_false_2 in Hr by lia. simplify_eq.
      unfold renamed. rewrite Hk. eauto.
    + rewrite list_lookup_insert_ne in H2 by done. specialize (Hr i e e' H1 H2).
      repeat case_bool_decide; try done; lia.
  - intros i e H1 H2 H3 x j y Hx Hne Hy. destruct (decide (i = index)) as [->|Hni].
    + rewrite list_lookup_insert_eq in Hx by done. rewrite list_lookup_insert_ne in Hy by done.
      simplify_eq. simpl. by eapply Hother.
    + rewrite list_lookup_insert_ne in Hx by done. destruct (decide (j = index)) as [->|].
      * rewrite list_lookup_insert_eq in Hy by done. simplify_eq. simpl. intros Heq.
        by eapply Hother.
      * rewrite list_lookup_insert_ne in Hy by done. eapply (Hd i e); eauto. lia.
Qed.

Lemma normalize_dojos_spec rounds index l l' ds0 :
  migrating ds0 (dojos l) index → (index + rounds)%nat = length ds0 →
  normalize_dojos rounds index l = Ok l' →
  migrating ds0 (dojos l') (length ds0) ∧ l' = set_lair_dojos (dojos l') l.
Proof.
  revert index l. induction rounds as [|rounds IH]; intros index l Hm Hlen; simpl.
  { intros [= <-]. rewrite Nat.add_0_r in Hlen. subst index. split; [done|by destruct l]. }
  destruct (dojos l !! index) as [d|] eqn:Hi; [|done].
  destruct (is_legacy_default_dojo_name (dojo_name d)) eqn:Hleg.
  - destruct (next_default_dojo_name l) as [n| |] eqn:Hn; try done. intros Hok.
    destruct (IH (S index) (set_lair_dojos (<[index:=set_dojo_name n d]> (dojos l)) l))
      as [? Heq]; [|lia|done|split; [done|]].
    + simpl. eapply migrating_rename; eauto using next_default_dojo_name_modern, next_default_dojo_name_new.
    + rewrite Heq. by destruct l.
  - apply IH; [|lia]. destruct (lookup_lt_is_Some_2 ds0 index) as [d0 Hd0]; [lia|].
    eapply migrating_keep; [done|exact Hd0|]. destruct Hm as (_ & Hr & _).
    specialize (Hr _ _ _ Hd0 Hi). rewrite bool_decide_eq_false_2 in Hr by lia. by subst.
Qed.

Lemma normalize_dojos_total rounds index l :
  (index + rounds ≤ length (dojos l))%nat → normalize_dojos rounds index l ≠ Panic.
Proof.
  revert index l. induction rounds as [|rounds IH]; intros index l Hle; simpl; [done|].
  destruct (lookup_lt_is_Some_2 (dojos l) index) as [d ->]; [lia|].
  destruct (is_legacy_default_dojo_name _); [|apply IH; lia].
  destruct (next_default_dojo_name l) eqn:Hn; [|done|].
  - apply IH. simpl. rewrite length_insert. lia.
  - unfold next_default_dojo_name in Hn. by destruct (checked_add64 _ _).
Qed.

(** What migration makes of one Lair. *)
Record migrated (l l' : Lair) : Prop := {
  mig_rest : l' = set_lair_dojos (dojos l') l;
  mig_dojos : Forall2 renamed (dojos l) (dojos l');
  mig_modern : Forall (λ d, legacy d = false) (dojos l');
  mig_distinct i d : dojos l !! i = Some d → legacy d = true → distinct_from_others (dojos l') i;
}.

Lemma renamed_modern d d' : renamed d d' → legacy d' = false.
Proof. unfold renamed. destruct (legacy d) eqn:H; [|congruence]. by intros (n & -> & ?). Qed.

Lemma normalize_lair_migrated l l' : normalize_lair l = Ok l' → migrated l l'.
Proof.
  intros H. assert (migrating (dojos l) (dojos l) 0) as H0.
  { split_and!; [done| |intros; lia]. intros i d d' H1 H2. simplify_eq.
    by rewrite bool_decide_eq_false_2 by lia. }
  destruct (normalize_dojos_spec _ _ _ _ (dojos l) H0 eq_refl H) as [(Hl & Hr & Hd) Heq].
  assert (Forall2 renamed (dojos l) (dojos l')) as Hall.
  { apply Forall2_same_length_lookup. split; [done|]. intros i d d' H1 H2.
    specialize (Hr i d d' H1 H2). by rewrite bool_decide_eq_true_2 in Hr by by eapply lookup_lt_Some. }
  split; [done..| |].
  - clear -Hall. induction Hall; constructor; eauto using renamed_modern.
  - intros i d Hi. apply (Hd i d Hi). by eapply lookup_lt_Some.
Qed.

(** Migrating a legacy document never panics, and when it succeeds every
    Lair keeps everything but its default Dojo names: Dojos with a modern name
    are untouched, each legacy default name is replaced by a modern one that no
    other Dojo of the Lair has. *)
Theorem migration_renames_defaults ls :
  normalize_legacy_default_dojo_names ls ≠ Panic ∧
  ∀ ls', normalize_legacy_default_dojo_names ls = Ok ls' → Forall2 migrated ls ls'.
Proof.
  induction ls as [|l ls [IHp IH]]; simpl; [split; [done|]; by intros ? [= <-]|].
  pose proof (normalize_lair_migrated l) as Hl.
  pose proof (normalize_dojos_total (length (dojos l)) 0 l ltac:(lia)) as Hp.
  fold (normalize_lair l) in Hp.
  destruct (normalize_lair l) as [l1| |]; simpl; [|by split..].
  destruct (normalize_legacy_default_dojo_names ls) as [ls1| |]; simpl; [|by split..].
  split; [done|]. intros ? [= <-]. constructor; auto.
Qed.

(** C16. [validate] is total and accepts exactly the documents that meet the
    declarative specification [valid_document]: current version, bounded
    collections, usable names, unique identifiers and Lair names, focus inside
    the tree, bounded depth, safe working directories, commands and launch
    metadata, no live process, no protected transient Lair. *)
Theorem validate_accepts_exactly d :
  (validate d = Ok tt ↔ valid_document d) ∧ validate d ≠ Panic.
Proof.
  split; [apply validate_spec|]. unfold validate.
  destruct (negb _); [done|]. destruct (_ <? _); [done|].
  pose proof (validate_lairs_total (doc_lairs d) nothing_seen). by destruct (validate_lairs _ _).
Qed.

(** C40. A valid document whose ratios are [SplitRatio]s restores to a
    well-formed topology with the document's revision and exactly its
    persistent Lairs, each under its own identifier. *)
Theorem into_topology_well_formed d t :
  doc_ratios_valid d → 0 ≤ doc_revision d ≤ u64_max → into_topology d = Ok t →
  topology_wf t ∧ revision t = doc_revision d ∧
  ∀ id l, find_lair t id = Some l ↔
    l ∈ doc_lairs d ∧ lifetime l = Persistent ∧ lair_id l = id.
Proof.
  intros Hr Hrev. unfold into_topology. pose proof (validate_spec d) as Hv.
  destruct (validate d) as [[]| |]; simpl; try done. intros [= <-].
  destruct (lair_map_wf d) as (Hs & Hk & Hok & Hp); [by apply Hv|done|].
  split; [by split|]. split; [done|]. intros id l. unfold find_lair. simpl.
  rewrite bt_get_elem, Hp by done. unfold keyed. rewrite list_elem_of_fmap.
  setoid_rewrite list_elem_of_In. setoid_rewrite filter_In.
  assert (is_persistent (lifetime l) = true ↔ lifetime l = Persistent) as He
    by (destruct (lifetime l); naive_solver).
  rewrite <-He. naive_solver.
Qed.

(** C17. A snapshot of a well-formed topology restores to that topology's
    persistent Lairs with every Splint marked exited, at the same revision; the
    restored topology is well-formed and its own snapshot is the same document. *)
Theorem snapshot_restores t d :
  topology_wf t → from_topology t = Ok d →
  into_topology d = Ok (restored t) ∧ topology_wf (restored t) ∧ from_topology (restored t) = Ok d.
Proof.
  intros Hwf [Hv Hd]%from_topology_Ok.
  pose proof (snapshot_ratios t Hwf) as Hr. rewrite <-Hd in Hr.
  pose proof (lair_map_restored t Hwf) as Hm. rewrite <-Hd in Hm.
  destruct (lair_map_wf d Hv Hr) as (Hs & Hk & Hok & _). rewrite Hm in Hs, Hk, Hok.
  assert (doc_revision d = revision t) as Hrev by by subst d.
  split; [|split].
  - unfold into_topology. rewrite (proj2 (validate_spec d) Hv). simpl.
    unfold restored. by rewrite Hrev, Hm.
  - split; [done..|]. apply Hwf.
  - apply from_topology_Ok. split; [done|]. rewrite Hd. cbn [revision restored]. f_equal.
    rewrite <-(keyed_restored t) by done. unfold bt_values. rewrite keyed_values.
    rewrite (filter_fmap_true (λ l, is_persistent (lifetime l)) mark_lair) by done.
    rewrite <-list_fmap_compose. apply list_fmap_ext. intros _ l _. symmetry. apply mark_lair_idemp.
Qed.

(** Decoding an encoded document gives it back, unless it is longer than
    the decoder's limit, which the encoder does not check. *)
Theorem decode_encode `{JsonLaws} d bytes :
  doc_ratios_valid d → encode d = Ok bytes →
  decode bytes =
    if MAX_TOPOLOGY_DOCUMENT_BYTES <? Z.of_nat (length bytes) then Err DocumentTooLarge else Ok d.
Proof.
  intros Hr. unfold encode, decode. pose proof (validate_spec d) as Hv.
  destruct (validate d) as [[]| |] eqn:Hval; simpl; try done.
  destruct (to_vec d) as [|b] eqn:Hb; [done|]. intros [= <-].
  destruct (_ <? _); [done|]. rewrite (version_to_vec d b Hb). simpl.
  destruct (proj1 Hv eq_refl) as [Hver _ _ _ _ _ _ _]. rewrite Hver. simpl.
  rewrite (v5_to_vec d b Hr Hb). simpl. by rewrite Hval.
Qed.

(** ** Witnesses *)

(** A persistent and a transient Lair, both with a running Splint. *)
Definition ex_topology : Topology :=
  {| revision := 2;
     lairs := [(1, Lair_new {| draw_lair := 1; draw_splint := 2; draw_dojo := 3 |} (lit "work") (lit "/tmp"));
               (4, Lair_transient {| draw_lair := 4; draw_splint := 5; draw_dojo := 6 |} (lit "scratch") (lit "/"))] |}.

Lemma ex_topology_wf : topology_wf ex_topology.
Proof.
  split.
  - apply bt_wf_cons. split; [apply bt_wf_cons; split; [constructor|]|].
    + by intros k v ?%elem_of_nil.
    + intros k v [[= -> ->]|?%elem_of_nil]%elem_of_cons; done.
  - by repeat constructor.
  - split; vm_compute lair_name; try (by repeat constructor); try (by apply (bool_decide_unpack _); vm_compute).
  - simpl. done.
Qed.

Definition ex_document : TopologyDocument :=
  current_document 2 (mark_lair <$>
    [Lair_new {| draw_lair := 1; draw_splint := 2; draw_dojo := 3 |} (lit "work") (lit "/tmp")]).

Lemma snapshot_restores_witness :
  into_topology ex_document = Ok (restored ex_topology) ∧ topology_wf (restored ex_topology) ∧
  from_topology (restored ex_topology) = Ok ex_document.
Proof. apply (snapshot_restores ex_topology ex_document); [apply ex_topology_wf|vm_compute; reflexivity]. Defined.

Lemma ex_document_ratios : doc_ratios_valid ex_document.
Proof. repeat constructor. Qed.

Lemma into_topology_well_formed_witness :
  topology_wf {| revision := 2; lairs := lair_map ex_document |} ∧
  revision {| revision := 2; lairs := lair_map ex_document |} = doc_revision ex_document ∧
  ∀ id l, find_lair {| revision := 2; lairs := lair_map ex_document |} id = Some l ↔
    l ∈ doc_lairs ex_document ∧ lifetime l = Persistent ∧ lair_id l = id.
Proof.
  apply into_topology_well_formed; [apply ex_document_ratios|vm_compute; split; discriminate|vm_compute; reflexivity].
Defined.

(** A serializer that knows one document. *)
#[local] Instance one_document_json : Json := {
  from_slice_version _ := inr 5;
  from_slice_v5 _ := inr ex_document;
  from_slice_v4 _ := inl [];
  from_slice_v3 _ := inl [];
  from_slice_v2 _ := inl [];
  to_vec d := if bool_decide (d = ex_document) then inr (lit "{}") else inl [];
}.

#[local] Instance one_document_laws : JsonLaws one_document_json.
Proof.
  split; intros d bytes; simpl; case_bool_decide; try done; subst; by intros.
Qed.

Lemma decode_encode_witness : decode (lit "{}") = Ok ex_document.
Proof. apply (decode_encode ex_document (lit "{}")); [apply ex_document_ratios|vm_compute; reflexivity]. Defined.

Lemma migration_renames_defaults_witness :
  let lair n := set_lair_dojos [Dojo_with_shell 2 3 (lit "Dojo 7") (lit "/");
                                Dojo_with_shell 4 5 n (lit "/")] (Lair_new (Build_LairDraw 1 2 3) (lit "a") (lit "/")) in
  Forall2 migrated [lair (lit "terminal-17-4")] [lair (lit "Dojo 8")].
Proof. apply migration_renames_defaults. vm_compute. reflexivity. Defined.

(** A Lair inserted under a name with surrounding whitespace is accepted,
    and so is its promotion to a persistent Lair; from then on the whole
    topology cannot be snapshot, because the durable document refuses names
    that are not trimmed. *)
Theorem untrimmed_lair_name_blocks_snapshots :
  let lair := Lair_transient {| draw_lair := 1; draw_splint := 2; draw_dojo := 3 |} (lit " x ") (lit "/") in
  match (let! _ := insert_lair_at 0 lair in rename_dojo_with_promotion_at 1 3 (lit "work") true) Topology_new with
  | (Ok r, t) => r = (2, true) ∧ from_topology t = Err (InvalidName "Lair name")
  | _ => False
  end.
Proof. vm_compute. by split. Qed.
