(* ===== verification/Vt.v ===== *)
(** * The streaming VT recognizer ([splinterm-terminal/src/vt/mod.rs])

    The parser of terminal output, one byte at a time: [feed] and everything
    it calls, and the loop of [Terminal::advance_inner] that drives it. Bytes
    and numbers are integers at their Rust width; a fixed-size array is a list
    of that length, which every write keeps; [unreachable!] and an
    underflowing subtraction are [Panic]. *)

From Stdlib Require Import String.
From stdpp Require Import base list.
From S2P Require Import Prelude RustStd.

#[local] Open Scope Z_scope.

(** ** Data *)

Definition PARAM_LIMIT : Z := 16.
Definition SUBPARAM_LIMIT : Z := 16.
Definition INTERMEDIATE_LIMIT : Z := 4.
Definition MAX_CHECKPOINT_PARSER_STRING_BYTES : Z := 1024 * 1024.

Record Param := {
  value : Z;
  present : bool;
  subparams : list Z;
  subparam_present : list bool;
  subparam_count : Z;
}.

Definition Param_default : Param := {|
  value := 0; present := false; subparams := replicate 16 0;
  subparam_present := replicate 16 false; subparam_count := 0 |}.

Record Params := { values : list Param; count : Z }.

Definition Params_default : Params := {| values := replicate 16 Param_default; count := 0 |}.

Inductive StringTerminator := Bell | ST.

Inductive Action :=
| Print (c : Z)
| Execute (byte : Z)
| Esc (intermediates : list Z) (intermediate_count final_byte : Z)
| Csi (private : option Z) (intermediates : list Z) (intermediate_count : Z)
    (params : Params) (final_byte : Z)
| Osc (payload : list Z) (terminator : StringTerminator)
| Dcs (payload : list Z)
| SixelBegin (params : Params)
| SixelData (byte : Z)
| SixelEnd
| SixelAbort
| KittyBegin (control : list Z) (truncated : bool)
| KittyCommand (control : list Z) (truncated : bool)
| KittyData (byte : Z)
| KittyEnd
| KittyAbort
| ItermBegin (metadata : list Z) (truncated : bool)
| ItermData (byte : Z)
| ItermEnd
| ItermAbort
| StringTruncated (kind : string).

Inductive State :=
| Ground | Escape | EscapeIntermediate
| CsiEntry | CsiParam | CsiIntermediate | CsiIgnore
| OscString | OscEscape
| ItermControl | ItermControlEscape | ItermPayload | ItermPayloadEscape
| DcsEntry | DcsParam | DcsIntermediate | DcsIgnore | DcsPassthrough | DcsEscape
| SosPmApcString | SosPmApcEscape | ApcPrefix
| KittyControl | KittyControlEscape | KittyPayload | KittyPayloadEscape
| Utf8.

#[export] Instance Param_eq_dec : EqDecision Param.
Proof. solve_decision. Defined.
#[export] Instance Params_eq_dec : EqDecision Params.
Proof. solve_decision. Defined.
#[export] Instance State_eq_dec : EqDecision State.
Proof. solve_decision. Defined.

Record Parser := {
  state : State;
  private : option Z;
  intermediates : list Z;
  intermediate_count : Z;
  params : Params;
  current_param : Z;
  current_subparam : option Z;
  parameter_overflow : bool;
  string : list Z;
  string_limit : Z;
  string_truncated : bool;
  osc_limit : Z;
  dcs_limit : Z;
  sixel_streaming : bool;
  utf8_value : Z;
  utf8_minimum : Z;
  utf8_remaining : Z;
  string_utf8_remaining : Z;
}.

(** A Parser as its fields; the setters below replace one. *)
Definition Parser_eta (p : Parser) : Parser := {|
  state := state p; private := private p; intermediates := intermediates p;
  intermediate_count := intermediate_count p; params := params p;
  current_param := current_param p; current_subparam := current_subparam p;
  parameter_overflow := parameter_overflow p; string := string p;
  string_limit := string_limit p; string_truncated := string_truncated p;
  osc_limit := osc_limit p; dcs_limit := dcs_limit p; sixel_streaming := sixel_streaming p;
  utf8_value := utf8_value p; utf8_minimum := utf8_minimum p;
  utf8_remaining := utf8_remaining p; string_utf8_remaining := string_utf8_remaining p |}.

Definition set_state (v : State) (p : Parser) : Parser := ltac:(update_field Parser_eta p state v).
Definition set_private (v : option Z) (p : Parser) : Parser := ltac:(update_field Parser_eta p private v).
Definition set_intermediates (v : list Z) (p : Parser) : Parser := ltac:(update_field Parser_eta p intermediates v).
Definition set_intermediate_count (v : Z) (p : Parser) : Parser := ltac:(update_field Parser_eta p intermediate_count v).
Definition set_params (v : Params) (p : Parser) : Parser := ltac:(update_field Parser_eta p params v).
Definition set_current_param (v : Z) (p : Parser) : Parser := ltac:(update_field Parser_eta p current_param v).
Definition set_current_subparam (v : option Z) (p : Parser) : Parser := ltac:(update_field Parser_eta p current_subparam v).
Definition set_parameter_overflow (v : bool) (p : Parser) : Parser := ltac:(update_field Parser_eta p parameter_overflow v).
Definition set_string (v : list Z) (p : Parser) : Parser := ltac:(update_field Parser_eta p string v).
Definition set_string_limit (v : Z) (p : Parser) : Parser := ltac:(update_field Parser_eta p string_limit v).
Definition set_string_truncated (v : bool) (p : Parser) : Parser := ltac:(update_field Parser_eta p string_truncated v).
Definition set_sixel_streaming (v : bool) (p : Parser) : Parser := ltac:(update_field Parser_eta p sixel_streaming v).
Definition set_utf8_value (v : Z) (p : Parser) : Parser := ltac:(update_field Parser_eta p utf8_value v).
Definition set_utf8_minimum (v : Z) (p : Parser) : Parser := ltac:(update_field Parser_eta p utf8_minimum v).
Definition set_utf8_remaining (v : Z) (p : Parser) : Parser := ltac:(update_field Parser_eta p utf8_remaining v).
Definition set_string_utf8_remaining (v : Z) (p : Parser) : Parser := ltac:(update_field Parser_eta p string_utf8_remaining v).

(** ** Parameters *)

Definition Param_value (p : Param) (default : Z) (zero_is_default : bool) : Z :=
  if negb (present p) || (zero_is_default && (value p =? 0)) then default
  else Z.land (value p) 0x7fffffff.

Definition subparam (p : Param) (index : Z) : option Z :=
  if (index <? subparam_count p) && default false (subparam_present p !! Z.to_nat index)
  then Some (Z.land (default 0 (subparams p !! Z.to_nat index)) 0x7fffffff)
  else None.

Definition Params_get (ps : Params) (index : Z) : Param :=
  if index <? count ps then default Param_default (values ps !! Z.to_nat index)
  else Param_default.

(** [&mut self.params.values[i]], updated by [f]. *)
Definition update_param (i : Z) (f : Param → Param) (ps : Params) : Params :=
  {| values := alter f (Z.to_nat i) (values ps); count := count ps |}.

Definition raise_count (n : Z) (ps : Params) : Params :=
  {| values := values ps; count := Z.max (count ps) n |}.

Definition set_subparam_count (n : Z) (p : Param) : Param :=
  {| value := value p; present := present p; subparams := subparams p;
     subparam_present := subparam_present p; subparam_count := n |}.

(** [x.wrapping_mul(10).wrapping_add(digit)]. *)
Definition push_digit (digit x : Z) : Z := wrap32 (wrap32 (x * 10) + digit).

(** ** The parser's helpers *)

Definition Parser_new (osc_limit dcs_limit : Z) : Parser := {|
  state := Ground; private := None; intermediates := replicate 4 0; intermediate_count := 0;
  params := Params_default; current_param := 0; current_subparam := None;
  parameter_overflow := false; string := []; string_limit := 0; string_truncated := false;
  osc_limit := osc_limit; dcs_limit := dcs_limit; sixel_streaming := false;
  utf8_value := 0; utf8_minimum := 0; utf8_remaining := 0; string_utf8_remaining := 0 |}.

Definition start_utf8 (value remaining minimum : Z) (p : Parser) : Parser :=
  set_utf8_minimum minimum (set_utf8_remaining remaining
    (set_utf8_value value (set_state Utf8 p))).

Definition start_string (st : State) (limit : Z) (p : Parser) : Parser :=
  set_string_utf8_remaining 0 (set_string_truncated false
    (set_string_limit limit (set_string [] (set_state st p)))).

Definition push_string (byte : Z) (p : Parser) : Parser :=
  if Z.of_nat (length (string p)) <? string_limit p
  then set_string (string p ++ [byte]) p
  else set_string_truncated true p.

Definition clear_sequence (p : Parser) : Parser :=
  set_parameter_overflow false (set_current_subparam None (set_current_param 0
    (set_params Params_default (set_intermediate_count 0
      (set_intermediates (replicate 4 0) (set_private None p)))))).

Definition collect_intermediate (byte : Z) (p : Parser) : Parser :=
  if intermediate_count p <? INTERMEDIATE_LIMIT then
    set_intermediate_count (intermediate_count p + 1)
      (set_intermediates (<[Z.to_nat (intermediate_count p) := byte]> (intermediates p)) p)
  else p.

Definition collect_digit (digit : Z) (p : Parser) : Parser :=
  if PARAM_LIMIT <=? current_param p then p
  else
    let ps := raise_count (current_param p + 1) (params p) in
    let write (param : Param) : Param :=
      match current_subparam p with
      | Some sub =>
          if sub <? SUBPARAM_LIMIT then
            {| value := value param; present := present param;
               subparams := alter (push_digit digit) (Z.to_nat sub) (subparams param);
               subparam_present := <[Z.to_nat sub := true]> (subparam_present param);
               subparam_count := Z.max (subparam_count param) (sub + 1) |}
          else param
      | None =>
          {| value := push_digit digit (value param); present := true;
             subparams := subparams param; subparam_present := subparam_present param;
             subparam_count := subparam_count param |}
      end in
    set_params (update_param (current_param p) write ps) p.

Definition next_param (p : Parser) : Parser :=
  let p := set_params (raise_count (Z.min (current_param p + 1) PARAM_LIMIT) (params p)) p in
  let p := if PARAM_LIMIT <=? current_param p + 1 then set_parameter_overflow true p
           else set_current_param (current_param p + 1) p in
  set_current_subparam None p.

Definition next_subparam (p : Parser) : Parser :=
  if PARAM_LIMIT <=? current_param p then p
  else
    let ps := raise_count (current_param p + 1) (params p) in
    let next := match current_subparam p with
                | None => 0
                | Some index => Z.min (Z.min (index + 1) usize_max) SUBPARAM_LIMIT
                end in
    let p := set_current_subparam (Some next) p in
    set_params (update_param (current_param p)
      (λ param, set_subparam_count
         (Z.max (subparam_count param) (Z.min (next + 1) SUBPARAM_LIMIT)) param) ps) p.

Definition finish_params (p : Parser) : Parser :=
  if (current_param p <? PARAM_LIMIT)
     && ((0 <? count (params p)) || bool_decide (is_Some (current_subparam p)))
  then set_params (raise_count (current_param p + 1) (params p)) p
  else p.

(** What one byte gives: the parser left behind, an action, and whether the
    same byte must be reprocessed. *)
Definition reply : Type := outcome Empty_set (Parser * option Action * bool).

Definition in_range (byte lo hi : Z) : bool := (lo <=? byte) && (byte <=? hi).

Definition finish_kitty_command (p : Parser) : reply :=
  let p := set_state Ground p in
  let control := string p in
  let p := set_string [] p in
  let truncated := string_truncated p in
  let p := set_string_truncated false p in
  Ok (p, Some (KittyCommand control truncated), false).

Definition finish_string (osc : bool) (terminator : StringTerminator) (p : Parser) : reply :=
  let p := set_state Ground p in
  if string_truncated p then
    Ok (set_string [] p, Some (StringTruncated (if osc then "OSC"%string else "DCS"%string)), false)
  else
    let payload := string p in
    Ok (set_string [] p, Some (Osc payload terminator), false).

Definition finish_dcs (p : Parser) : reply :=
  let p := set_state Ground p in
  if sixel_streaming p then
    Ok (clear_sequence (set_sixel_streaming false p), Some SixelEnd, false)
  else if string_truncated p then
    Ok (set_string [] p, Some (StringTruncated "DCS"%string), false)
  else Ok (set_string [] p, Some (Dcs (string p)), false).

(** ** One byte *)

Definition feed_ground (byte : Z) (p : Parser) : reply :=
  if in_range byte 0x00 0x1f then Ok (p, Some (Execute byte), false)
  else if in_range byte 0x20 0x7e then Ok (p, Some (Print byte), false)
  else if in_range byte 0xc2 0xdf then Ok (start_utf8 (Z.land byte 0x1f) 1 0x80 p, None, false)
  else if in_range byte 0xe0 0xef then Ok (start_utf8 (Z.land byte 0x0f) 2 0x800 p, None, false)
  else if in_range byte 0xf0 0xf4 then Ok (start_utf8 (Z.land byte 0x07) 3 0x10000 p, None, false)
  else if byte =? 0x9d then Ok (start_string OscString (osc_limit p) p, None, false)
  else if byte =? 0x9f then Ok (set_state ApcPrefix p, None, false)
  else Ok (p, None, false).

Definition is_state (s : State) (p : Parser) : bool := bool_decide (state p = s).

Definition feed_escape (byte : Z) (p : Parser) : reply :=
  if byte =? 0x7f then Ok (p, None, false)
  else if in_range byte 0x00 0x1f then Ok (p, Some (Execute byte), false)
  else if (byte =? 0x5b) && is_state Escape p then
    Ok (set_state CsiEntry (clear_sequence p), None, false)
  else if (byte =? 0x5d) && is_state Escape p then
    Ok (start_string OscString (osc_limit p) p, None, false)
  else if (byte =? 0x50) && is_state Escape p then
    Ok (set_state DcsEntry (clear_sequence p), None, false)
  else if ((byte =? 0x58) || (byte =? 0x5e)) && is_state Escape p then
    Ok (set_state SosPmApcString p, None, false)
  else if (byte =? 0x5f) && is_state Escape p then
    Ok (set_state ApcPrefix p, None, false)
  else if in_range byte 0x20 0x2f then
    Ok (set_state EscapeIntermediate (collect_intermediate byte p), None, false)
  else if in_range byte 0x30 0x7e then
    Ok (set_state Ground p, Some (Esc (intermediates p) (intermediate_count p) byte), false)
  else Ok (set_state Ground p, None, false).

Definition feed_csi (byte : Z) (p : Parser) : reply :=
  if byte =? 0x7f then Ok (p, None, false)
  else if byte <=? 0x1f then Ok (p, Some (Execute byte), false)
  else if is_state CsiIgnore p then
    Ok (if in_range byte 0x40 0x7e then set_state Ground p else p, None, false)
  else if is_state CsiIntermediate p && in_range byte 0x30 0x3f then
    Ok (set_state CsiIgnore p, None, false)
  else if in_range byte 0x30 0x39 then
    Ok (set_state CsiParam (collect_digit (byte - 0x30) p), None, false)
  else if byte =? 0x3b then
    let p := next_param p in
    Ok (set_state (if parameter_overflow p then CsiIgnore else CsiParam) p, None, false)
  else if byte =? 0x3a then
    Ok (set_state CsiParam (next_subparam p), None, false)
  else if in_range byte 0x3c 0x3f && is_state CsiEntry p && bool_decide (private p = None) then
    Ok (set_private (Some byte) p, None, false)
  else if in_range byte 0x20 0x2f then
    Ok (set_state CsiIntermediate (collect_intermediate byte p), None, false)
  else if in_range byte 0x40 0x7e then
    let p := finish_params p in
    let action := Csi (private p) (intermediates p) (intermediate_count p) (params p) byte in
    Ok (set_state Ground p, Some action, false)
  else Ok (set_state CsiIgnore p, None, false).

Definition feed_osc (byte : Z) (p : Parser) : reply :=
  match state p with
  | OscString =>
      if byte =? 0x07 then finish_string true Bell p
      else if byte =? 0x1b then Ok (set_state OscEscape p, None, false)
      else if (byte =? 0x9c) && (string_utf8_remaining p =? 0) then finish_string true ST p
      else if in_range byte 0x00 0x1f || (byte =? 0x7f) then Ok (p, None, false)
      else
        let p := set_string_utf8_remaining
          (if in_range byte 0x80 0xbf then saturating_sub (string_utf8_remaining p) 1
           else if in_range byte 0xc2 0xdf then 1
           else if in_range byte 0xe0 0xef then 2
           else if in_range byte 0xf0 0xf4 then 3
           else 0) p in
        let p := push_string byte p in
        Ok (if bool_decide (string p = lit "1337;File=") then start_string ItermControl 1024 p
            else p, None, false)
  | OscEscape =>
      match finish_string true ST p with
      | Ok (p, action, again) =>
          if byte =? 0x5c then Ok (p, action, again)
          else Ok (set_state Escape p, action, true)
      | r => r
      end
  | ItermControl =>
      if byte =? 0x3a then
        let control := string p in
        let truncated := string_truncated p in
        Ok (set_state ItermPayload (set_string_truncated false (set_string [] p)),
            Some (ItermBegin control truncated), false)
      else if (byte =? 0x07) || (byte =? 0x9c) then
        Ok (set_string [] (set_state Ground p), Some ItermAbort, false)
      else if byte =? 0x1b then Ok (set_state ItermControlEscape p, None, false)
      else Ok (push_string byte p, None, false)
  | ItermPayload =>
      if (byte =? 0x07) || (byte =? 0x9c) then Ok (set_state Ground p, Some ItermEnd, false)
      else if byte =? 0x1b then Ok (set_state ItermPayloadEscape p, None, false)
      else Ok (p, Some (ItermData byte), false)
  | ItermControlEscape =>
      let p := set_state (if byte =? 0x5c then Ground else Escape) p in
      Ok (set_string [] p, Some ItermAbort, negb (byte =? 0x5c))
  | ItermPayloadEscape =>
      let p := set_state (if byte =? 0x5c then Ground else Escape) p in
      Ok (p, Some (if byte =? 0x5c then ItermEnd else ItermAbort), negb (byte =? 0x5c))
  | _ => Panic
  end.

Definition feed_dcs (byte : Z) (p : Parser) : reply :=
  match state p with
  | DcsPassthrough =>
      if byte =? 0x1b then Ok (set_state DcsEscape p, None, false)
      else if byte =? 0x7f then Ok (p, None, false)
      else if in_range byte 0x80 0x9f then finish_dcs p
      else if sixel_streaming p then Ok (p, Some (SixelData byte), false)
      else Ok (push_string byte p, None, false)
  | DcsEscape =>
      if byte =? 0x5c then finish_dcs p
      else
        let action := if sixel_streaming p then Some SixelAbort else None in
        Ok (clear_sequence (set_state Escape (set_sixel_streaming false p)), action, true)
  | DcsIgnore => Ok (if byte =? 0x1b then set_state DcsEscape p else p, None, false)
  | _ =>
      if byte <=? 0x1f then Ok (p, None, false)
      else if in_range byte 0x30 0x39 then
        Ok (set_state DcsParam (collect_digit (byte - 0x30) p), None, false)
      else if byte =? 0x3b then
        let p := next_param p in
        Ok (set_state (if parameter_overflow p then DcsIgnore else DcsParam) p, None, false)
      else if byte =? 0x3a then Ok (set_state DcsParam (next_subparam p), None, false)
      else if in_range byte 0x3c 0x3f && is_state DcsEntry p then
        Ok (set_private (Some byte) p, None, false)
      else if in_range byte 0x20 0x2f then
        Ok (set_state DcsIntermediate (collect_intermediate byte p), None, false)
      else if in_range byte 0x40 0x7e then
        let p := finish_params p in
        if (byte =? 0x71) && bool_decide (private p = None) && (intermediate_count p =? 0) then
          Ok (set_sixel_streaming true (set_state DcsPassthrough p),
              Some (SixelBegin (params p)), false)
        else Ok (start_string DcsPassthrough (dcs_limit p) p, None, false)
      else Ok (set_state DcsIgnore p, None, false)
  end.

Definition feed_apc (byte : Z) (p : Parser) : reply :=
  match state p with
  | ApcPrefix =>
      Ok (if byte =? 0x47 then start_string KittyControl 1024 p
          else if byte =? 0x1b then set_state SosPmApcEscape p
          else if byte =? 0x9c then set_state Ground p
          else set_state SosPmApcString p, None, false)
  | KittyControl =>
      if byte =? 0x3b then
        let control := string p in
        let truncated := string_truncated p in
        Ok (set_state KittyPayload (set_string_truncated false (set_string [] p)),
            Some (KittyBegin control truncated), false)
      else if byte =? 0x1b then Ok (set_state KittyControlEscape p, None, false)
      else if byte =? 0x9c then finish_kitty_command p
      else Ok (push_string byte p, None, false)
  | KittyPayload =>
      if byte =? 0x1b then Ok (set_state KittyPayloadEscape p, None, false)
      else if byte =? 0x9c then Ok (set_state Ground p, Some KittyEnd, false)
      else Ok (p, Some (KittyData byte), false)
  | KittyControlEscape =>
      if byte =? 0x5c then finish_kitty_command p
      else Ok (set_string [] (set_state Escape p), Some KittyAbort, true)
  | KittyPayloadEscape =>
      if byte =? 0x5c then Ok (set_state Ground p, Some KittyEnd, false)
      else Ok (set_state Escape p, Some KittyAbort, true)
  | _ => Panic
  end.

Definition feed_ignored_string (byte : Z) (p : Parser) : reply :=
  if byte =? 0x9c then Ok (set_state Ground p, None, false)
  else if is_state SosPmApcEscape p then
    if byte =? 0x5c then Ok (set_state Ground p, None, false)
    else Ok (set_state SosPmApcString p, None, false)
  else if byte =? 0x1b then Ok (set_state SosPmApcEscape p, None, false)
  else Ok (p, None, false).

Definition REPLACEMENT : Z := 0xfffd.

Definition feed_utf8 (byte : Z) (p : Parser) : reply :=
  if negb (Z.land byte 0xc0 =? 0x80) then
    Ok (set_state Ground p, Some (Print REPLACEMENT), true)
  else
    let p := set_utf8_value (Z.lor (wrap32 (Z.shiftl (utf8_value p) 6)) (Z.land byte 0x3f)) p in
    if utf8_remaining p =? 0 then Panic
    else
      let p := set_utf8_remaining (utf8_remaining p - 1) p in
      if 0 <? utf8_remaining p then Ok (p, None, false)
      else
        let p := set_state Ground p in
        let value := utf8_value p in
        if (value <? utf8_minimum p) || (0x10ffff <? value) || in_range value 0xd800 0xdfff
        then Ok (p, Some (Print REPLACEMENT), false)
        else Ok (p, if is_scalar value then Some (Print value) else None, false).

(** The states in which the introducer of a new sequence is not an escape. *)
Definition keeps_escape (s : State) : bool :=
  match s with
  | OscString | OscEscape | ItermControl | ItermControlEscape | ItermPayload
  | ItermPayloadEscape | DcsPassthrough | DcsEscape | SosPmApcString | SosPmApcEscape
  | ApcPrefix | KittyControl | KittyControlEscape | KittyPayload | KittyPayloadEscape => true
  | _ => false
  end.

Definition in_iterm (s : State) : bool :=
  match s with
  | ItermControl | ItermControlEscape | ItermPayload | ItermPayloadEscape => true
  | _ => false
  end.

Definition feed (byte : Z) (p : Parser) : reply :=
  if is_state Utf8 p then feed_utf8 byte p
  else if (byte =? 0x18) || (byte =? 0x1a) then
    let action := if sixel_streaming p then SixelAbort
                  else if in_iterm (state p) then ItermAbort else KittyAbort in
    let p := set_sixel_streaming false (set_state Ground p) in
    Ok (clear_sequence (set_string [] p), Some action, false)
  else if (byte =? 0x1b) && negb (keeps_escape (state p)) then
    Ok (set_state Escape (clear_sequence p), None, false)
  else
    match state p with
    | Ground => feed_ground byte p
    | Escape | EscapeIntermediate => feed_escape byte p
    | CsiEntry | CsiParam | CsiIntermediate | CsiIgnore => feed_csi byte p
    | OscString | OscEscape | ItermControl | ItermControlEscape | ItermPayload
    | ItermPayloadEscape => feed_osc byte p
    | DcsEntry | DcsParam | DcsIntermediate | DcsIgnore | DcsPassthrough | DcsEscape =>
        feed_dcs byte p
    | SosPmApcString | SosPmApcEscape => feed_ignored_string byte p
    | ApcPrefix | KittyControl | KittyControlEscape | KittyPayload | KittyPayloadEscape =>
        feed_apc byte p
    | Utf8 => Panic
    end.

(** ** The driving loop *)

(** [while reprocess { .. }] of [Terminal::advance_inner], with the actions it
    hands to the terminal; running out of rounds is a [Panic]. *)
Fixpoint feed_until_done (rounds : nat) (byte : Z) (p : Parser)
    : outcome Empty_set (Parser * list Action) :=
  match rounds with
  | O => Panic
  | S rounds =>
      match feed byte p with
      | Ok (p, action, again) =>
          let actions := match action with Some a => [a] | None => [] end in
          if again then map_ok (λ '(p, l), (p, actions ++ l)) (feed_until_done rounds byte p)
          else Ok (p, actions)
      | Err e => Err e
      | Panic => Panic
      end
  end.

(** A byte is processed at most twice ([feed_reprocess_once]). *)
Definition feed_byte : Z → Parser → outcome Empty_set (Parser * list Action) := feed_until_done 2.

Fixpoint advance (bytes : list Z) (p : Parser) : outcome Empty_set (Parser * list Action) :=
  match bytes with
  | [] => Ok (p, [])
  | byte :: bytes =>
      let? (p, actions) := feed_byte byte p in
      let? (p, rest) := advance bytes p in
      Ok (p, actions ++ rest)
  end.

(** ** Checkpoints *)

Definition param_checkpoint_ok (past_end : bool) (param : Param) : bool :=
  negb ((SUBPARAM_LIMIT <? subparam_count param)
        || (negb (present param) && negb (value param =? 0))
        || existsb (λ v, negb (v =? 0)) (drop (Z.to_nat (subparam_count param)) (subparams param))
        || existsb id (drop (Z.to_nat (subparam_count param)) (subparam_present param))
        || (past_end && negb (bool_decide (param = Param_default)))).

Definition checkpoint_is_valid (osc dcs : Z) (p : Parser) : bool :=
  negb (negb (osc_limit p =? osc)
        || negb (dcs_limit p =? dcs)
        || (INTERMEDIATE_LIMIT <? intermediate_count p)
        || existsb (λ b, negb (b =? 0)) (drop (Z.to_nat (intermediate_count p)) (intermediates p))
        || existsb (λ b, negb (in_range b 0x20 0x2f))
             (take (Z.to_nat (intermediate_count p)) (intermediates p))
        || (PARAM_LIMIT <? count (params p))
        || (PARAM_LIMIT <=? current_param p)
        || match current_subparam p with Some i => SUBPARAM_LIMIT <? i | None => false end
        || match private p with Some b => negb (in_range b 0x3c 0x3f) | None => false end
        || (string_limit p <? Z.of_nat (length (string p)))
        || (MAX_CHECKPOINT_PARSER_STRING_BYTES <? Z.of_nat (length (string p)))
        || (Z.max (Z.max osc dcs) 1024 <? string_limit p)
        || sixel_streaming p
        || (3 <? utf8_remaining p)
        || (3 <? string_utf8_remaining p)
        || (is_state Utf8 p && (utf8_remaining p =? 0)))
  && forallb (λ '(index, param), param_checkpoint_ok (count (params p) <=? index) param)
       (zip (seqZ 0 16) (values (params p))).
