(* ===== verification/VtInv.v ===== *)
(** * The parser's invariant

    What every byte stream keeps true of the parser, that no byte makes it
    panic, and that no byte is reprocessed twice. *)

From Stdlib Require Import String.
From stdpp Require Import base list.
From S2P Require Import Prelude RustStd Vt.

#[local] Open Scope Z_scope.

(** ** The invariant *)

Record param_wf (param : Param) : Prop := {
  pw_value : 0 ≤ value param ≤ u32_max;
  pw_absent : present param = false → value param = 0;
  pw_subparams : length (subparams param) = 16%nat;
  pw_presents : length (subparam_present param) = 16%nat;
  pw_count : 0 ≤ subparam_count param ≤ SUBPARAM_LIMIT;
  pw_range : Forall (λ v, 0 ≤ v ≤ u32_max) (subparams param);
  pw_zeros : Forall (λ v, v = 0) (drop (Z.to_nat (subparam_count param)) (subparams param));
  pw_falses : Forall (λ v, v = false)
    (drop (Z.to_nat (subparam_count param)) (subparam_present param));
}.

Record params_wf (ps : Params) : Prop := {
  psw_length : length (values ps) = 16%nat;
  psw_count : 0 ≤ count ps ≤ PARAM_LIMIT;
  psw_each : Forall param_wf (values ps);
  psw_past : ∀ i param, values ps !! i = Some param → count ps ≤ Z.of_nat i → param = Param_default;
}.

Record intermediates_wf (bytes : list Z) (n : Z) : Prop := {
  iw_length : length bytes = 4%nat;
  iw_count : 0 ≤ n ≤ INTERMEDIATE_LIMIT;
  iw_zeros : Forall (λ b, b = 0) (drop (Z.to_nat n) bytes);
  iw_range : Forall (λ b, 0x20 ≤ b ≤ 0x2f) (take (Z.to_nat n) bytes);
}.

(** The collected control sequence. *)
Record sequence_wf (p : Parser) : Prop := {
  sw_private : ∀ b, private p = Some b → 0x3c ≤ b ≤ 0x3f;
  sw_intermediates : intermediates_wf (intermediates p) (intermediate_count p);
  sw_params : params_wf (params p);
  sw_current : 0 ≤ current_param p < PARAM_LIMIT;
  sw_sub : ∀ i, current_subparam p = Some i → 0 ≤ i ≤ SUBPARAM_LIMIT;
}.

(** The collected string. *)
Record string_wf (p : Parser) : Prop := {
  stw_length : Z.of_nat (length (string p)) ≤ string_limit p;
  stw_limit : 0 ≤ string_limit p ≤ Z.max (Z.max (osc_limit p) (dcs_limit p)) 1024;
  stw_utf8 : 0 ≤ string_utf8_remaining p ≤ 3;
}.

Definition in_passthrough (s : State) : bool :=
  match s with DcsPassthrough | DcsEscape => true | _ => false end.

Record parser_wf (osc dcs : Z) (p : Parser) : Prop := {
  vw_limits : osc_limit p = osc ∧ dcs_limit p = dcs ∧ 0 ≤ osc ∧ 0 ≤ dcs;
  vw_sequence : sequence_wf p;
  vw_string : string_wf p;
  vw_utf8 : 0 ≤ utf8_remaining p ≤ 3 ∧ 0 ≤ utf8_value p ≤ u32_max;
  vw_mid_utf8 : state p = Utf8 → 0 < utf8_remaining p ∧ 0 < utf8_minimum p;
  vw_sixel : sixel_streaming p = true → in_passthrough (state p) = true;
}.

(** ** Collecting a control sequence *)

Lemma Param_default_wf : param_wf Param_default.
Proof. split; simpl; try done; by repeat constructor. Qed.

Lemma Params_default_wf : params_wf Params_default.
Proof.
  split; [done|done|apply Forall_replicate, Param_default_wf|].
  by intros i param [-> _]%lookup_replicate.
Qed.

Lemma push_digit_range d x : 0 ≤ push_digit d x ≤ u32_max.
Proof. unfold push_digit, wrap32, u32_max. pose proof (Z.mod_pos_bound (((x * 10) mod 2 ^ 32) + d) (2 ^ 32)). lia. Qed.

Lemma Forall_drop_alter {A} (P : A → Prop) f l n i :
  (i < n)%nat → Forall P (drop n l) → Forall P (drop n (alter f i l)).
Proof.
  rewrite !Forall_lookup. intros Hi H j x. rewrite lookup_drop, list_lookup_alter_ne by lia.
  rewrite <-lookup_drop. apply H.
Qed.

Lemma Forall_drop_mono {A} (P : A → Prop) l n m : (n ≤ m)%nat → Forall P (drop n l) → Forall P (drop m l).
Proof.
  intros Hle H. replace m with (n + (m - n))%nat by lia. rewrite <-drop_drop. by apply Forall_drop.
Qed.

Lemma Forall_alter' {A} (P : A → Prop) f l i :
  Forall P l → (∀ x, P x → P (f x)) → Forall P (alter f i l).
Proof.
  intros H Hf. revert i. induction H; intros [|i]; simpl; try by constructor; auto.
  constructor; [done|]. apply IHForall.
Qed.

Lemma raise_count_wf n ps : params_wf ps → n ≤ PARAM_LIMIT → params_wf (raise_count n ps).
Proof.
  intros [Hl Hc He Hp] Hn. split; simpl; [done|lia|done|].
  intros i param Hi Hle. apply (Hp i); [done|lia].
Qed.

Lemma update_param_wf f i ps :
  params_wf ps → 0 ≤ i < count ps → (∀ param, param_wf param → param_wf (f param)) →
  params_wf (update_param i f ps).
Proof.
  intros [Hl Hc He Hp] Hi Hf. split; simpl; [by rewrite length_alter|done|by apply Forall_alter'|].
  intros j param Hj Hle. rewrite list_lookup_alter_ne in Hj by lia. by apply (Hp j).
Qed.

Lemma collect_digit_wf d p : sequence_wf p → sequence_wf (collect_digit d p).
Proof.
  intros [H1 H2 H3 H4 H5]. unfold collect_digit. destruct (Z.leb_spec PARAM_LIMIT (current_param p)); [done|].
  split; simpl; try done. apply update_param_wf; [apply raise_count_wf; [done|lia]|simpl; lia|].
  intros param [P1 P2 P3 P4 P5 P6 P7 P8]. destruct (current_subparam p) as [sub|] eqn:Hs.
  - specialize (H5 sub eq_refl). destruct (Z.ltb_spec sub SUBPARAM_LIMIT); [|done].
    split; simpl; try done; try (by rewrite ?length_alter, ?length_insert); try lia.
    + apply Forall_alter'; [done|]. intros. apply push_digit_range.
    + apply Forall_drop_alter; [lia|]. eapply Forall_drop_mono; [|done]. lia.
    + rewrite drop_insert_lt by lia. eapply Forall_drop_mono; [|done]. lia.
  - split; simpl; try done. apply push_digit_range.
Qed.

Lemma next_param_wf p : sequence_wf p → sequence_wf (next_param p).
Proof.
  intros [H1 H2 H3 H4 H5]. unfold next_param. simpl.
  destruct (Z.leb_spec PARAM_LIMIT (current_param p + 1)); split; simpl; try done; try lia;
    apply raise_count_wf; try done; lia.
Qed.

Lemma next_subparam_wf p : sequence_wf p → sequence_wf (next_subparam p).
Proof.
  intros [H1 H2 H3 H4 H5]. unfold next_subparam. destruct (Z.leb_spec PARAM_LIMIT (current_param p)); [done|].
  set (next := match current_subparam p with Some _ => _ | None => _ end).
  assert (0 ≤ next ≤ SUBPARAM_LIMIT) as Hn.
  { subst next. destruct (current_subparam p) as [i|]; [|done].
    specialize (H5 i eq_refl). unfold SUBPARAM_LIMIT, usize_max, u64_max in *. lia. }
  split; simpl; try done; [|by intros i [= <-]].
  apply update_param_wf; [apply raise_count_wf; [done|lia]|simpl; lia|].
  intros param [P1 P2 P3 P4 P5 P6 P7 P8]. split; simpl; try done; try lia.
  all: eapply Forall_drop_mono; [|done]; lia.
Qed.

Lemma finish_params_wf p : sequence_wf p → sequence_wf (finish_params p).
Proof.
  intros [H1 H2 H3 H4 H5]. unfold finish_params. destruct (_ && _); split; simpl; try done.
  apply raise_count_wf; [done|lia].
Qed.

Lemma collect_intermediate_wf b p :
  0x20 ≤ b ≤ 0x2f → sequence_wf p → sequence_wf (collect_intermediate b p).
Proof.
  intros Hb [H1 [I1 I2 I3 I4] H3 H4 H5]. unfold collect_intermediate.
  destruct (Z.ltb_spec (intermediate_count p) INTERMEDIATE_LIMIT); [|by split].
  split; simpl; try done. split; [by rewrite length_insert|lia| |].
  - rewrite drop_insert_lt by lia. eapply Forall_drop_mono; [|done]. lia.
  - replace (Z.to_nat (intermediate_count p + 1)) with (S (Z.to_nat (intermediate_count p))) by lia.
    rewrite (take_S_r _ _ b) by (apply list_lookup_insert_eq; unfold INTERMEDIATE_LIMIT in *; lia).
    apply Forall_app. split; [|by apply Forall_singleton]. by rewrite take_insert_ge by lia.
Qed.

Lemma cleared_wf p : sequence_wf (clear_sequence p).
Proof.
  split; simpl; try done; [|apply Params_default_wf].
  split; [done|done|by repeat constructor|constructor].
Qed.

(** ** The whole parser *)

(** Everything but the collected sequence. *)
Definition rest (p : Parser) :=
  (state p, string p, string_limit p, osc_limit p, dcs_limit p, sixel_streaming p,
   (utf8_value p, utf8_remaining p, utf8_minimum p), string_utf8_remaining p).

Lemma rest_wf osc dcs p p' :
  rest p' = rest p → sequence_wf p' → parser_wf osc dcs p → parser_wf osc dcs p'.
Proof.
  unfold rest. intros [= E1 E2 E3 E4 E5 E6 E7 E8 E9 E10] Hs [? ? [???] ???].
  split; rewrite ?E1, ?E4, ?E5, ?E6, ?E7, ?E8, ?E9; try done. split; rewrite ?E2, ?E3, ?E4, ?E5, ?E10; done.
Qed.

Section wf.
Context (osc dcs : Z).
Implicit Types (p : Parser).

Lemma wf_new : 0 ≤ osc → 0 ≤ dcs → parser_wf osc dcs (Parser_new osc dcs).
Proof.
  intros. split; simpl; try done.
  - apply (cleared_wf (Parser_new osc dcs)).
  - split; simpl; lia.
Qed.

Lemma wf_clear_sequence p : parser_wf osc dcs p → parser_wf osc dcs (clear_sequence p).
Proof. intros Hp. eapply (rest_wf _ _ p); [done|apply cleared_wf|exact Hp]. Qed.

Lemma wf_collect_digit d p : parser_wf osc dcs p → parser_wf osc dcs (collect_digit d p).
Proof.
  intros Hp. eapply rest_wf; [|apply collect_digit_wf, Hp|exact Hp].
  unfold collect_digit. by case_match.
Qed.

Lemma wf_next_param p : parser_wf osc dcs p → parser_wf osc dcs (next_param p).
Proof.
  intros Hp. eapply rest_wf; [|apply next_param_wf, Hp|exact Hp].
  unfold next_param. simpl. by case_match.
Qed.

Lemma wf_next_subparam p : parser_wf osc dcs p → parser_wf osc dcs (next_subparam p).
Proof.
  intros Hp. eapply rest_wf; [|apply next_subparam_wf, Hp|exact Hp].
  unfold next_subparam. by case_match.
Qed.

Lemma wf_finish_params p : parser_wf osc dcs p → parser_wf osc dcs (finish_params p).
Proof.
  intros Hp. eapply rest_wf; [|apply finish_params_wf, Hp|exact Hp].
  unfold finish_params. by case_match.
Qed.

Lemma wf_collect_intermediate b p :
  in_range b 0x20 0x2f = true → parser_wf osc dcs p → parser_wf osc dcs (collect_intermediate b p).
Proof.
  unfold in_range. intros Hb Hp.
  eapply rest_wf; [|apply collect_intermediate_wf; [lia|apply Hp]|exact Hp].
  unfold collect_intermediate. by case_match.
Qed.

Lemma wf_set_private b p :
  in_range b 0x3c 0x3f = true → parser_wf osc dcs p → parser_wf osc dcs (set_private (Some b) p).
Proof.
  unfold in_range. intros Hb Hp. eapply (rest_wf _ _ p); [done| |exact Hp].
  destruct (vw_sequence _ _ _ Hp). split; try done. simpl. intros ? [= <-]. lia.
Qed.

Lemma wf_set_state s p :
  s ≠ Utf8 → (sixel_streaming p = true → in_passthrough s = true) →
  parser_wf osc dcs p → parser_wf osc dcs (set_state s p).
Proof. intros Hs Hx [H1 [] [] ???]. by split. Qed.

Lemma wf_sixel b p :
  (b = true → in_passthrough (state p) = true) → parser_wf osc dcs p →
  parser_wf osc dcs (set_sixel_streaming b p).
Proof. intros Hs [H1 [] [] ???]. by split. Qed.

Lemma wf_stop_sixel s p :
  s ≠ Utf8 → parser_wf osc dcs p → parser_wf osc dcs (set_sixel_streaming false (set_state s p)).
Proof. intros Hs [H1 [] [] ???]. by split. Qed.

Lemma wf_clear_string p : parser_wf osc dcs p → parser_wf osc dcs (set_string [] p).
Proof. intros [H1 [] [] ???]. split; try done. split; simpl; try done; lia. Qed.

Lemma wf_set_truncated b p : parser_wf osc dcs p → parser_wf osc dcs (set_string_truncated b p).
Proof. intros [H1 [] [] ???]. by split. Qed.

Lemma wf_push_string b p : parser_wf osc dcs p → parser_wf osc dcs (push_string b p).
Proof.
  intros Hp. unfold push_string. destruct (Z.ltb_spec (Z.of_nat (length (string p))) (string_limit p));
    [|by apply wf_set_truncated].
  destruct Hp as [H1 [] [] ???]. split; try done. split; simpl; try done.
  rewrite length_app. simpl. lia.
Qed.

Lemma wf_start_string s limit p :
  s ≠ Utf8 → sixel_streaming p = false → 0 ≤ limit ≤ Z.max (Z.max osc dcs) 1024 →
  parser_wf osc dcs p → parser_wf osc dcs (start_string s limit p).
Proof.
  intros Hs Hx Hl [(<- & <- & ?) [] [] ???]. split; simpl; try done; try congruence.
  split; simpl; lia.
Qed.

Lemma wf_start_utf8 v r m p :
  sixel_streaming p = false → 0 ≤ v ≤ u32_max → 0 < r ≤ 3 → 0 < m →
  parser_wf osc dcs p → parser_wf osc dcs (start_utf8 v r m p).
Proof.
  intros Hx Hv Hr Hm [H1 [] [] ???]. split; try done; simpl; try congruence; lia.
Qed.

Lemma wf_set_string_utf8 n p :
  0 ≤ n ≤ 3 → parser_wf osc dcs p → parser_wf osc dcs (set_string_utf8_remaining n p).
Proof. intros Hn [H1 [] [] ???]. by split. Qed.

Lemma wf_quiet p : parser_wf osc dcs p → in_passthrough (state p) = false → sixel_streaming p = false.
Proof. intros [] H. destruct (sixel_streaming p); [|done]. rewrite vw_sixel0 in H; done. Qed.
End wf.

Lemma sixel_clear_sequence p : sixel_streaming (clear_sequence p) = sixel_streaming p.
Proof. done. Qed.
Lemma sixel_collect_digit d p : sixel_streaming (collect_digit d p) = sixel_streaming p.
Proof. unfold collect_digit. by case_match. Qed.
Lemma sixel_next_param p : sixel_streaming (next_param p) = sixel_streaming p.
Proof. unfold next_param. simpl. by case_match. Qed.
Lemma sixel_next_subparam p : sixel_streaming (next_subparam p) = sixel_streaming p.
Proof. unfold next_subparam. by case_match. Qed.
Lemma sixel_finish_params p : sixel_streaming (finish_params p) = sixel_streaming p.
Proof. unfold finish_params. by case_match. Qed.
Lemma dcs_limit_finish_params p : dcs_limit (finish_params p) = dcs_limit p.
Proof. unfold finish_params. by case_match. Qed.
Lemma sixel_collect_intermediate b p : sixel_streaming (collect_intermediate b p) = sixel_streaming p.
Proof. unfold collect_intermediate. by case_match. Qed.
Lemma sixel_push_string b p : sixel_streaming (push_string b p) = sixel_streaming p.
Proof. unfold push_string. by case_match. Qed.

Lemma land_mask_range b m :
  is_power_of_two (m + 1) = true → m ≤ u32_max → 0 ≤ Z.land b m ≤ u32_max.
Proof.
  intros Hp Hm. pose proof (proj1 (is_power_of_two_spec (m + 1)) Hp) as (k & ? & Hk).
  pose proof (Z.pow_pos_nonneg 2 k).
  replace m with (m + 1 - 1) by lia. rewrite land_mask by done.
  pose proof (Z.mod_pos_bound b (m + 1)). lia.
Qed.

Create HintDb vt.
#[export] Hint Resolve wf_clear_sequence wf_collect_digit wf_next_param wf_next_subparam
  wf_finish_params wf_collect_intermediate wf_set_private wf_set_state wf_sixel wf_clear_string
  wf_set_truncated wf_push_string wf_start_string wf_start_utf8 wf_set_string_utf8 : vt.
#[export] Hint Rewrite sixel_clear_sequence sixel_collect_digit sixel_next_param
  sixel_next_subparam sixel_finish_params sixel_collect_intermediate sixel_push_string : vt.

(** Side conditions of the lemmas above. *)
Ltac vt_side :=
  repeat match goal with H : _ && _ = true |- _ => apply andb_true_iff in H as [? ?] end;
  autorewrite with vt; simpl; autorewrite with vt; try done; try congruence; auto; try (by apply land_mask_range); try lia.

(** A reply that keeps the invariant, and asks for the byte again only in a
    state that will consume it. *)
Definition returns (osc dcs : Z) (r : reply) : Prop :=
  match r with
  | Ok (p', _, again) =>
      parser_wf osc dcs p' ∧ (again = true → state p' = Ground ∨ state p' = Escape)
  | _ => False
  end.

(** Walks the branches of a [feed_*] body. *)
Ltac vt_branches := cbv zeta; repeat case_match; simplify_eq; cbn [returns]; try (split; [|by auto]).
Ltac vt_leaf :=
  repeat first [ assumption | apply wf_clear_sequence | apply wf_set_state | apply wf_collect_digit
    | apply wf_next_param | apply wf_next_subparam | apply wf_finish_params
    | apply wf_collect_intermediate | apply wf_set_private | apply wf_sixel | apply wf_clear_string
    | apply wf_set_truncated | apply wf_push_string | apply wf_start_string | apply wf_start_utf8
    | apply wf_set_string_utf8 ]; vt_side.

Section feeds.
Context (osc dcs : Z) (p : Parser) (Hwf : parser_wf osc dcs p).

Lemma feed_ground_returns b : state p = Ground → returns osc dcs (feed_ground b p).
Proof.
  intros Hs. assert (sixel_streaming p = false) as Hq by (eapply wf_quiet; [done|by rewrite Hs]).
  pose proof (vw_limits _ _ _ Hwf). unfold feed_ground. vt_branches; vt_leaf.
Qed.

Lemma feed_escape_returns b :
  in_passthrough (state p) = false → returns osc dcs (feed_escape b p).
Proof.
  intros Hs. assert (sixel_streaming p = false) as Hq by by eapply wf_quiet.
  pose proof (vw_limits _ _ _ Hwf). unfold feed_escape. vt_branches; vt_leaf.
Qed.

Lemma feed_csi_returns b : in_passthrough (state p) = false → returns osc dcs (feed_csi b p).
Proof.
  intros Hs. assert (sixel_streaming p = false) as Hq by by eapply wf_quiet.
  unfold feed_csi. vt_branches; vt_leaf.
Qed.

Lemma feed_ignored_string_returns b :
  in_passthrough (state p) = false → returns osc dcs (feed_ignored_string b p).
Proof.
  intros Hs. assert (sixel_streaming p = false) as Hq by by eapply wf_quiet.
  unfold feed_ignored_string. vt_branches; vt_leaf.
Qed.

Lemma feed_osc_returns b :
  match state p with
  | OscString | OscEscape | ItermControl | ItermControlEscape | ItermPayload
  | ItermPayloadEscape => True | _ => False end →
  returns osc dcs (feed_osc b p).
Proof.
  intros Hs. assert (sixel_streaming p = false) as Hq by (eapply wf_quiet; [done|by destruct (state p)]).
  pose proof (stw_utf8 _ (vw_string _ _ _ Hwf)).
  unfold feed_osc, finish_string. vt_branches; vt_leaf; unfold saturating_sub; lia.
Qed.

Lemma feed_dcs_returns b :
  match state p with
  | DcsEntry | DcsParam | DcsIntermediate | DcsIgnore | DcsPassthrough | DcsEscape => True
  | _ => False end →
  returns osc dcs (feed_dcs b p).
Proof.
  intros Hs. pose proof (vw_limits _ _ _ Hwf). unfold feed_dcs, finish_dcs.
  destruct (state p) eqn:Hst; try done.
  all: try (assert (sixel_streaming p = false) as Hq by (eapply wf_quiet; [done|by rewrite Hst])).
  all: vt_branches; cbn [sixel_streaming set_state] in *; try (by apply wf_clear_sequence, wf_stop_sixel);
    vt_leaf; rewrite dcs_limit_finish_params; lia.
Qed.

Lemma feed_apc_returns b :
  match state p with
  | ApcPrefix | KittyControl | KittyControlEscape | KittyPayload | KittyPayloadEscape => True
  | _ => False end →
  returns osc dcs (feed_apc b p).
Proof.
  intros Hs. assert (sixel_streaming p = false) as Hq by (eapply wf_quiet; [done|by destruct (state p)]).
  unfold feed_apc, finish_kitty_command. vt_branches; vt_leaf.
Qed.

Lemma feed_utf8_returns b : state p = Utf8 → returns osc dcs (feed_utf8 b p).
Proof.
  intros Hs. assert (sixel_streaming p = false) as Hq by (eapply wf_quiet; [done|by rewrite Hs]).
  pose proof (vw_mid_utf8 _ _ _ Hwf Hs). unfold feed_utf8.
  destruct (negb _); [split; [vt_leaf|by auto]|]. simpl.
  destruct (Z.eqb_spec (utf8_remaining p) 0); [lia|].
  set (v := Z.lor _ _).
  assert (0 ≤ v ≤ u32_max) as Hv.
  { assert (0 ≤ v < 2 ^ 32); [|unfold u32_max; lia]. apply lor_range; [lia|apply Z.mod_pos_bound; lia|].
    pose proof (land_mask_range b 63 ltac:(done) ltac:(done)). unfold u32_max in *. lia. }
  set (p' := set_utf8_remaining (utf8_remaining p - 1) (set_utf8_value v p)).
  assert (parser_wf osc dcs (set_state Ground p')) as Hg.
  { destruct Hwf as [H1 [] [] ???]. split; try done; simpl; [lia|congruence]. }
  repeat case_match; (split; [|by auto]); try done.
  destruct Hwf as [H1 [] [] ???]. split; try done; simpl; lia.
Qed.

(** Every byte keeps the invariant. *)
Lemma feed_returns b : returns osc dcs (feed b p).
Proof.
  unfold feed, is_state. case_bool_decide as Hu; [by apply feed_utf8_returns|].
  destruct (_ || _).
  { split; [|done]. apply wf_clear_sequence, wf_clear_string, wf_stop_sixel; done. }
  destruct (_ && _) eqn:He.
  { split; [|done]. apply andb_true_iff in He as [_ He].
    apply wf_set_state; [done| |by apply wf_clear_sequence]. simpl. intros Hx.
    apply (vw_sixel _ _ _ Hwf) in Hx. by destruct (state p). }
  destruct (state p) eqn:Hs; try done.
  all: first [ by apply feed_ground_returns | apply feed_escape_returns; by rewrite Hs
             | apply feed_csi_returns; by rewrite Hs | apply feed_osc_returns; by rewrite Hs
             | apply feed_dcs_returns; by rewrite Hs
             | apply feed_ignored_string_returns; by rewrite Hs
             | apply feed_apc_returns; by rewrite Hs ].
Qed.
End feeds.

(** What an action of the parser carries: a scalar value other than the null,
    parameters within the limit. A byte asked for again has not reset the terminal. *)
Definition emitted (a : Action) : Prop :=
  match a with
  | Print c => is_scalar c = true ∧ c ≠ 0
  | Csi _ _ _ ps _ => count ps ≤ PARAM_LIMIT
  | _ => True
  end.

Definition is_escape (a : Action) : bool := match a with Esc _ _ _ => true | _ => false end.

Definition emits (r : reply) : Prop :=
  match r with
  | Ok (_, Some a, again) => emitted a ∧ (again = true → is_escape a = false)
  | _ => True
  end.

Lemma feed_utf8_emits b p : 0 < utf8_minimum p → emits (feed_utf8 b p).
Proof.
  intros Hmin. unfold feed_utf8. destruct (negb _); [done|]. cbv zeta. destruct (_ =? 0); [done|]. destruct (0 <? _); [done|].
  destruct (_ || _ || _) eqn:Hr; [done|]. cbn [utf8_value utf8_minimum set_utf8_value set_utf8_remaining set_state] in *.
  destruct (is_scalar _) eqn:Hs; [|done]. split; [|done]. split; [done|].
  apply orb_false_iff in Hr as [[Hr%Z.ltb_ge _]%orb_false_iff _]. lia.
Qed.

Lemma feed_ground_emits b p : emits (feed_ground b p).
Proof.
  unfold feed_ground. destruct (in_range b 0 31); [done|]. destruct (in_range b 32 126) eqn:Hb; [|by repeat case_match].
  unfold in_range in Hb. split; [|done]. cbn [emitted]. unfold is_scalar. split; lia.
Qed.

Lemma feed_csi_emits osc dcs b p : parser_wf osc dcs p → emits (feed_csi b p).
Proof.
  intros Hwf. unfold feed_csi. cbv zeta. repeat case_match; try done. split; [|done].
  pose proof (sw_params _ (vw_sequence _ _ _ (wf_finish_params _ _ _ Hwf))) as []. cbn [emitted]. lia.
Qed.

Lemma feed_emits osc dcs b p : parser_wf osc dcs p → emits (feed b p).
Proof.
  intros Hwf. unfold feed, is_state. case_bool_decide as Hu; [by apply feed_utf8_emits, (vw_mid_utf8 _ _ _ Hwf)|].
  destruct (_ || _); [by repeat case_match|]. destruct (_ && _); [done|].
  destruct (state p) eqn:Hs; try done; try by eapply feed_csi_emits.
  1: apply feed_ground_emits.
  all: unfold feed_escape, feed_osc, feed_dcs, feed_apc, feed_ignored_string, finish_string, finish_dcs, finish_kitty_command; rewrite ?Hs; cbv zeta; repeat case_match; simplify_eq; try done.
Qed.

(** Ground and Escape consume any byte. *)
Lemma feed_settles b p :
  state p = Ground ∨ state p = Escape → ∃ p' a, feed b p = Ok (p', a, false).
Proof.
  intros Hs. unfold feed, is_state. rewrite bool_decide_eq_false_2 by (destruct Hs; congruence).
  destruct (_ || _); [by eauto|]. destruct (_ && _); [by eauto|].
  destruct Hs as [->| ->]; [unfold feed_ground|unfold feed_escape]; repeat case_match; eauto.
Qed.

(** Two rounds of the driving loop always suffice. *)
Lemma feed_byte_returns osc dcs b p :
  parser_wf osc dcs p → ∃ p' l, feed_byte b p = Ok (p', l) ∧ parser_wf osc dcs p'.
Proof.
  intros Hwf. unfold feed_byte. cbn [feed_until_done]. pose proof (feed_returns _ _ _ Hwf b) as H1.
  destruct (feed b p) as [[[p1 a1] again]| |]; try done. destruct H1 as [Hwf1 Hs].
  destruct again; [|by eauto]. pose proof (feed_returns _ _ _ Hwf1 b) as H2.
  destruct (feed_settles b p1 (Hs eq_refl)) as (p2 & a2 & Hf). rewrite Hf in *. simpl.
  destruct H2 as [? _]. eauto.
Qed.

Lemma advance_returns osc dcs bytes p :
  parser_wf osc dcs p → ∃ p' l, advance bytes p = Ok (p', l) ∧ parser_wf osc dcs p'.
Proof.
  revert p. induction bytes as [|b bytes IH]; intros p Hwf; simpl; [by eauto|].
  destruct (feed_byte_returns _ _ b p Hwf) as (p1 & l1 & -> & Hwf1). simpl.
  destruct (IH p1 Hwf1) as (p2 & l2 & -> & Hwf2). simpl. eauto.
Qed.

Lemma advance_app bytes1 bytes2 p :
  advance (bytes1 ++ bytes2) p =
  (let? (p1, l1) := advance bytes1 p in
   let? (p2, l2) := advance bytes2 p1 in Ok (p2, l1 ++ l2)).
Proof.
  revert p. induction bytes1 as [|b bytes1 IH]; intros p; simpl.
  { by destruct (advance bytes2 p) as [[??]| |]. }
  destruct (feed_byte b p) as [[p1 l1]| |]; simpl; try done. rewrite IH.
  destruct (advance bytes1 p1) as [[p2 l2]| |]; simpl; try done.
  destruct (advance bytes2 p2) as [[p3 l3]| |]; simpl; try done. by rewrite app_assoc.
Qed.

(** The rounds of a byte. *)
Lemma feed_byte_cases b p p' actions :
  feed_byte b p = Ok (p', actions) →
  (∃ a, feed b p = Ok (p', a, false) ∧ actions = option_list a) ∨
  (∃ p1 a1 a2, feed b p = Ok (p1, a1, true) ∧ feed b p1 = Ok (p', a2, false) ∧ actions = option_list a1 ++ option_list a2).
Proof.
  unfold feed_byte. cbn [feed_until_done]. destruct (feed b p) as [[[p1 a1] []]| |]; try done.
  - destruct (feed b p1) as [[[p2 a2] []]| |] eqn:H2; try done. cbn [map_ok]. intros [= <- <-]. right. exists p1, a1, a2.
    split_and!; [done|done|]. by destruct a1, a2.
  - intros [= <- <-]. left. exists a1. by destruct a1.
Qed.
