(* ===== verification/VtProps.v ===== *)
(** * Theorems on the VT recognizer *)

From Stdlib Require Import String.
From stdpp Require Import base list.
From S2P Require Import Prelude RustStd Vt VtInv.

#[local] Open Scope Z_scope.

(** ** Checkpoints *)

Lemma existsb_Forall_false {A} (f : A → bool) l : Forall (λ x, f x = false) l → existsb f l = false.
Proof. induction 1; simpl; [done|]. by rewrite H, IHForall. Qed.

Lemma param_checkpoint_wf past param :
  param_wf param → (past = true → param = Param_default) → param_checkpoint_ok past param = true.
Proof.
  intros [H1 H2 H3 H4 H5 H6 H7 H8] Hp. unfold param_checkpoint_ok.
  rewrite (proj2 (Z.ltb_ge _ _)) by lia.
  rewrite (existsb_Forall_false (λ v, negb (v =? 0)))
    by (eapply Forall_impl; [exact H7|]; by intros ? ->).
  rewrite (existsb_Forall_false id) by (eapply Forall_impl; [exact H8|]; by intros ? ->).
  assert (negb (present param) && negb (value param =? 0) = false) as ->.
  { destruct (present param); [done|]. by rewrite H2. }
  destruct past; [|done]. by rewrite Hp, bool_decide_eq_true_2.
Qed.

Lemma checkpoint_wf osc dcs p :
  parser_wf osc dcs p →
  checkpoint_is_valid osc dcs p =
    negb (sixel_streaming p) &&
    (Z.of_nat (length (string p)) <=? MAX_CHECKPOINT_PARSER_STRING_BYTES).
Proof.
  intros [(H1 & H2 & H3 & H4) [S1 [I1 I2 I3 I4] S3 S4 S5] [T1 T2 T3] [U1 U2] U3 X].
  unfold checkpoint_is_valid. rewrite H1, H2 in *. rewrite !Z.eqb_refl.
  rewrite (proj2 (Z.ltb_ge INTERMEDIATE_LIMIT _)), (proj2 (Z.ltb_ge PARAM_LIMIT _)),
    (proj2 (Z.leb_gt PARAM_LIMIT _)), (proj2 (Z.ltb_ge (string_limit p) _)),
    (proj2 (Z.ltb_ge (Z.max _ _) _)), (proj2 (Z.ltb_ge 3 (utf8_remaining p))),
    (proj2 (Z.ltb_ge 3 (string_utf8_remaining p))) by (try apply S3; lia).
  rewrite (existsb_Forall_false (λ b, negb (b =? 0))) by (eapply Forall_impl; [exact I3|]; by intros ? ->).
  rewrite (existsb_Forall_false (λ b, negb (in_range b 0x20 0x2f)))
    by (eapply Forall_impl; [exact I4|]; unfold in_range; simpl; lia).
  assert (match current_subparam p with Some i => SUBPARAM_LIMIT <? i | None => false end = false) as ->.
  { destruct (current_subparam p) as [i|]; [|done]. specialize (S5 i eq_refl). lia. }
  assert (match private p with Some b => negb (in_range b 0x3c 0x3f) | None => false end = false) as ->.
  { destruct (private p) as [b|]; [|done]. specialize (S1 b eq_refl). unfold in_range. lia. }
  assert (is_state Utf8 p && (utf8_remaining p =? 0) = false) as ->.
  { unfold is_state. case_bool_decide as Hs; [|done]. specialize (U3 Hs). lia. }
  assert (forallb (λ '(index, param), param_checkpoint_ok (count (params p) <=? index) param)
    (zip (seqZ 0 16) (values (params p))) = true) as ->.
  { apply forallb_forall. intros [i param] Hin%list_elem_of_In.
    apply list_elem_of_lookup in Hin as (j & Hj).
    apply lookup_zip_Some in Hj as [[-> Hlt]%lookup_seqZ Hp].
    destruct S3 as [_ _ Heach Hpast]. apply param_checkpoint_wf.
    - by eapply Forall_lookup_1.
    - intros Hle. eapply Hpast; [exact Hp|]. lia. }
  rewrite !orb_false_l, !orb_false_r, andb_true_r. simpl.
  destruct (sixel_streaming p), (Z.ltb_spec MAX_CHECKPOINT_PARSER_STRING_BYTES (Z.of_nat (length (string p)))),
    (Z.leb_spec (Z.of_nat (length (string p))) MAX_CHECKPOINT_PARSER_STRING_BYTES); simpl; try done; lia.
Qed.

(** C33. Whatever bytes arrive, the parser never panics and reprocesses a byte
    at most once; it ends in a state that satisfies the invariant, and a
    checkpoint of that state is accepted exactly when no sixel image is being
    streamed and the collected string is within the checkpoint's limit. *)
Theorem parser_total_and_checkpointable osc dcs bytes :
  0 ≤ osc → 0 ≤ dcs →
  ∃ p actions, advance bytes (Parser_new osc dcs) = Ok (p, actions) ∧ parser_wf osc dcs p ∧
    checkpoint_is_valid osc dcs p =
      negb (sixel_streaming p) &&
      (Z.of_nat (length (string p)) <=? MAX_CHECKPOINT_PARSER_STRING_BYTES).
Proof.
  intros Ho Hd. destruct (advance_returns osc dcs bytes _ (wf_new _ _ Ho Hd)) as (p & l & Ha & Hwf).
  exists p, l. split_and!; [done..|]. by apply checkpoint_wf.
Qed.

(** In the middle of a title the parser can be checkpointed. *)
Lemma parser_total_and_checkpointable_witness :
  ∃ p actions, advance (27 :: lit "]0;title") (Parser_new 64 64) = Ok (p, actions) ∧
    parser_wf 64 64 p ∧ checkpoint_is_valid 64 64 p = true.
Proof.
  destruct (parser_total_and_checkpointable 64 64 (27 :: lit "]0;title")) as (p & actions & H1 & H2 & H3); [lia..|].
  exists p, actions. split; [exact H1|]. split; [exact H2|]. rewrite H3. vm_compute in H1. injection H1 as <- _. reflexivity.
Defined.

(** ** Text *)

(** A scalar value that is not an ASCII control. *)
Definition printable (c : Z) : bool := is_scalar c && (0x20 <=? c) && negb (c =? 0x7f).

Lemma lor_shiftl_6 v y : 0 ≤ y < 64 → Z.lor (Z.shiftl v 6) y = v * 64 + y.
Proof.
  intros Hy. rewrite Z.shiftl_mul_pow2 by lia. change (2 ^ 6) with 64.
  rewrite <-Z.add_nocarry_lor; [done|]. apply Z.bits_inj'. intros n Hn.
  rewrite Z.land_spec, Z.bits_0. destruct (Z.lt_ge_cases n 6).
  - change 64 with (2 ^ 6). by rewrite Z.mul_pow2_bits_low.
  - rewrite (Z.bits_above_log2 y n), andb_false_r; [done|lia|].
    destruct (Z.eq_dec y 0) as [->|]; [simpl; lia|]. apply Z.log2_lt_pow2; [lia|].
    assert (2 ^ 6 ≤ 2 ^ n) by (apply Z.pow_le_mono_r; lia). lia.
Qed.

Lemma feed_byte_once b p p' a : feed b p = Ok (p', a, false) → feed_byte b p = Ok (p', match a with Some a => [a] | None => [] end).
Proof. unfold feed_byte. cbn [feed_until_done]. by intros ->. Qed.

(** A continuation byte in the middle of a character. *)
Lemma feed_continuation p x :
  state p = Utf8 → 0 ≤ x < 64 → 0 < utf8_remaining p → 0 ≤ utf8_value p < 2 ^ 21 →
  feed (0x80 + x) p =
    let v := utf8_value p * 64 + x in
    let p := set_utf8_remaining (utf8_remaining p - 1) (set_utf8_value v p) in
    if 0 <? utf8_remaining p then Ok (p, None, false)
    else
      let p := set_state Ground p in
      if (v <? utf8_minimum p) || (0x10ffff <? v) || in_range v 0xd800 0xdfff
      then Ok (p, Some (Print REPLACEMENT), false)
      else Ok (p, if is_scalar v then Some (Print v) else None, false).
Proof.
  intros Hs Hx Hr Hv. unfold feed, is_state. rewrite Hs, bool_decide_eq_true_2 by done. unfold feed_utf8.
  assert (Z.land (0x80 + x) 0xc0 = 0x80) as ->.
  { replace (0x80 + x) with (Z.lor (Z.shiftl 2 6) x) by (by rewrite lor_shiftl_6).
    rewrite Z.land_lor_distr_l.
    assert (Z.land x 0xc0 = 0) as ->; [|done].
    apply Z.bits_inj'. intros n Hn. rewrite Z.land_spec, Z.bits_0.
    change 0xc0 with (Z.shiftl 3 6). destruct (Z.lt_ge_cases n 6).
    - rewrite (Z.shiftl_spec_low 3), andb_false_r; done.
    - rewrite (Z.bits_above_log2 x n); [done|lia|].
      destruct (Z.eq_dec x 0) as [->|]; [simpl; lia|]. apply Z.log2_lt_pow2; [lia|].
      assert (2 ^ 6 ≤ 2 ^ n) by (apply Z.pow_le_mono_r; lia). lia. }
  simpl (negb _). cbv iota.
  assert (Z.land (0x80 + x) 0x3f = x) as ->.
  { change 0x3f with (64 - 1). rewrite land_mask by done.
    replace (128 + x) with (x + 2 * 64) by lia. rewrite Z_mod_plus_full. apply Z.mod_small. lia. }
  assert (wrap32 (Z.shiftl (utf8_value p) 6) = Z.shiftl (utf8_value p) 6) as ->.
  { unfold wrap32. apply Z.mod_small. rewrite Z.shiftl_mul_pow2 by lia. lia. }
  rewrite lor_shiftl_6 by lia. cbv zeta. simpl.
  by rewrite (proj2 (Z.eqb_neq _ _)) by lia.
Qed.


Lemma feed_ground_state b p :
  state p = Ground → b ≠ 0x18 → b ≠ 0x1a → b ≠ 0x1b → feed b p = feed_ground b p.
Proof.
  intros Hs H1 H2 H3. unfold feed, is_state. rewrite Hs.
  rewrite bool_decide_eq_false_2 by done.
  rewrite !(proj2 (Z.eqb_neq _ _)) by done. done.
Qed.

Lemma land_low_bits k b a : is_power_of_two k = true → b mod k = a → Z.land b (k - 1) = a.
Proof. intros Hk Hm. by rewrite land_mask. Qed.

(** The leading byte of a sequence of [n + 1] bytes. *)
Lemma feed_leading b p :
  state p = Ground → 0xC2 ≤ b ≤ 0xF4 →
  feed b p = Ok (if b <=? 0xDF then start_utf8 (b - 0xC0) 1 0x80 p
                 else if b <=? 0xEF then start_utf8 (b - 0xE0) 2 0x800 p
                 else start_utf8 (b - 0xF0) 3 0x10000 p, None, false).
Proof.
  intros Hs Hb. rewrite feed_ground_state by (done || lia). unfold feed_ground, in_range.
  destruct (Z.leb_spec b 0x1f), (Z.leb_spec b 0x7e), (Z.leb_spec 0xc2 b), (Z.leb_spec 0xe0 b),
    (Z.leb_spec 0xf0 b), (Z.leb_spec b 0xf4), (Z.leb_spec b 0xdf), (Z.leb_spec b 0xef);
    try lia; rewrite ?andb_false_r; simpl; repeat f_equal.
  - apply (land_low_bits 8); [done|]. symmetry. apply Z.mod_unique with 30; lia.
  - apply (land_low_bits 16); [done|]. symmetry. apply Z.mod_unique with 14; lia.
  - apply (land_low_bits 32); [done|]. symmetry. apply Z.mod_unique with 6; lia.
Qed.

Lemma feed_more p x :
  state p = Utf8 → 0 ≤ x < 64 → 1 < utf8_remaining p → 0 ≤ utf8_value p < 2 ^ 21 →
  feed_byte (0x80 + x) p =
    Ok (set_utf8_remaining (utf8_remaining p - 1) (set_utf8_value (utf8_value p * 64 + x) p), []).
Proof.
  intros Hs Hx Hr Hv. apply (feed_byte_once _ _ _ None). rewrite feed_continuation by (done || lia).
  simpl. by rewrite (proj2 (Z.ltb_lt 0 _)) by lia.
Qed.

Lemma feed_last p x c :
  state p = Utf8 → 0 ≤ x < 64 → utf8_remaining p = 1 → 0 ≤ utf8_value p < 2 ^ 21 →
  c = utf8_value p * 64 + x → is_scalar c = true → utf8_minimum p ≤ c →
  ∃ p', feed_byte (0x80 + x) p = Ok (p', [Print c]) ∧ state p' = Ground.
Proof.
  intros Hs Hx Hr Hv -> Hc Hmin. eexists. split.
  - apply (feed_byte_once _ _ _ (Some (Print _))). rewrite feed_continuation by (done || lia). simpl.
    rewrite Hr, Hc. simpl. unfold is_scalar in Hc. unfold in_range.
    destruct (Z.ltb_spec (utf8_value p * 64 + x) (utf8_minimum p)); [lia|].
    destruct (Z.ltb_spec 0x10ffff (utf8_value p * 64 + x)); [lia|].
    destruct (Z.leb_spec 0xd800 (utf8_value p * 64 + x)), (Z.leb_spec (utf8_value p * 64 + x) 0xdfff); try lia; done.
  - done.
Qed.

(** One character, in any parser at rest. *)
Lemma advance_char c p :
  state p = Ground → printable c = true →
  ∃ p', advance (encode_utf8 c) p = Ok (p', [Print c]) ∧ state p' = Ground.
Proof.
  intros Hs Hc. unfold printable in Hc.
  apply andb_true_iff in Hc as [[Hsc H20%Z.leb_le]%andb_true_iff H7f%negb_true_iff%Z.eqb_neq].
  assert (c ≤ 0x10ffff) as Hmax by (unfold is_scalar in Hsc; lia).
  pose proof (Z.mod_pos_bound c 64 ltac:(lia)) as Hm0.
  pose proof (Z.mod_pos_bound (c / 64) 64 ltac:(lia)) as Hm1.
  pose proof (Z.mod_pos_bound (c / 4096) 64 ltac:(lia)) as Hm2.
  assert (c = c / 64 * 64 + c mod 64) as Hd0 by (Z.div_mod_to_equations; lia).
  assert (c / 64 = c / 4096 * 64 + c / 64 mod 64) as Hd1 by (Z.div_mod_to_equations; lia).
  assert (c / 4096 = c / 262144 * 64 + c / 4096 mod 64) as Hd2 by (Z.div_mod_to_equations; lia).
  unfold encode_utf8. destruct (Z.ltb_spec c 0x80); [|destruct (Z.ltb_spec c 0x800);
    [|destruct (Z.ltb_spec c 0x10000)]]; cbn [advance].
  - exists p. rewrite (feed_byte_once c p p (Some (Print c))); [by simpl|].
    rewrite feed_ground_state by (done || lia). unfold feed_ground, in_range.
    by rewrite (proj2 (Z.leb_gt c 0x1f)), (proj2 (Z.leb_le 0x20 c)), (proj2 (Z.leb_le c 0x7e)), andb_false_r by lia.
  - erewrite (feed_byte_once _ p) by (apply feed_leading; [done|lia]).
    rewrite (proj2 (Z.leb_le _ 0xDF)) by lia. cbn [obind].
    edestruct feed_last as (p' & -> & Hp'); [| | | | |exact Hsc| |]; simpl; try done; try lia. by exists p'.
  - erewrite (feed_byte_once _ p) by (apply feed_leading; [done|lia]).
    rewrite (proj2 (Z.leb_gt _ 0xDF)), (proj2 (Z.leb_le _ 0xEF)) by lia. cbn [obind].
    rewrite feed_more by (simpl; done || lia). cbn [obind].
    edestruct feed_last as (p' & -> & Hp'); [| | | | |exact Hsc| |]; simpl; try done; try lia. by exists p'.
  - erewrite (feed_byte_once _ p) by (apply feed_leading; [done|lia]).
    rewrite (proj2 (Z.leb_gt _ 0xDF)), (proj2 (Z.leb_gt _ 0xEF)) by lia. cbn [obind].
    rewrite feed_more by (simpl; done || lia). cbn [obind].
    rewrite feed_more by (simpl; done || lia). cbn [obind].
    edestruct feed_last as (p' & -> & Hp'); [| | | | |exact Hsc| |]; simpl; try done; try lia. by exists p'.
Qed.

(** A text, in any parser at rest. *)
Lemma advance_text text p :
  state p = Ground → Forall (λ c, printable c = true) text →
  ∃ p', advance (text ≫= encode_utf8) p = Ok (p', Print <$> text) ∧ state p' = Ground.
Proof.
  intros Hs Ht. revert p Hs. induction Ht as [|c text Hc _ IH]; intros p Hs; csimpl; [by eauto|].
  destruct (advance_char c p Hs Hc) as (p1 & H1 & Hs1).
  destruct (IH p1 Hs1) as (p2 & H2 & Hs2). exists p2. rewrite advance_app, H1. cbn [obind].
  rewrite H2. done.
Qed.

(** Text round trip: the UTF-8 encoding of any text without ASCII controls
    is printed character by character, and the parser is at rest again; no
    overlong, surrogate or out-of-range check refuses a valid character. *)
Theorem text_printed text p :
  state p = Ground → Forall (λ c, printable c = true) text →
  ∃ p', advance (text ≫= encode_utf8) p = Ok (p', Print <$> text) ∧ state p' = Ground.
Proof. apply advance_text. Qed.

Lemma text_printed_witness :
  ∃ p', advance ([0x41; 0xe9; 0x20ac; 0x1f600] ≫= encode_utf8) (Parser_new 64 64) =
    Ok (p', Print <$> [0x41; 0xe9; 0x20ac; 0x1f600]) ∧ state p' = Ground.
Proof. apply text_printed; [reflexivity|by repeat constructor]. Defined.

(** ** Operating system commands *)

(** The prefix that turns a command into an inline file transfer. *)
Definition FILE_PREFIX : list Z := lit "1337;File=".

(** Collecting [s] with limit [L], [r] continuation bytes outstanding. *)
Record collecting (L : Z) (s : list Z) (r : Z) (p : Parser) : Prop := {
  cl_state : state p = OscString;
  cl_limit : string_limit p = L;
  cl_nonneg : 0 ≤ L;
  cl_string : string p = take (Z.to_nat L) s;
  cl_truncated : string_truncated p = (L <? Z.of_nat (length s));
  cl_utf8 : string_utf8_remaining p = r;
}.

Definition next_remaining (b r : Z) : Z :=
  if in_range b 0x80 0xbf then saturating_sub r 1
  else if in_range b 0xc2 0xdf then 1
  else if in_range b 0xe0 0xef then 2
  else if in_range b 0xf0 0xf4 then 3 else 0.

Lemma push_string_collecting L s r b p :
  collecting L s r p → collecting L (s ++ [b]) r (push_string b p).
Proof.
  intros [H1 H2 H3 H4 H5 H6]. unfold push_string. rewrite H2, H4, length_take.
  destruct (Z.ltb_spec (Z.of_nat (Z.to_nat L `min` length s)) L) as [Hlt|Hge]; split; simpl; try done.
  - rewrite !take_ge by (rewrite ?length_app; simpl; lia). done.
  - rewrite H5, length_app. simpl. destruct (Z.ltb_spec L (Z.of_nat (length s))),
      (Z.ltb_spec L (Z.of_nat (length s + 1))); done || lia.
  - rewrite take_app_le by lia. done.
  - rewrite length_app. simpl. symmetry. apply Z.ltb_lt. lia.
Qed.

Lemma osc_step L s r b p :
  collecting L s r p → 0x20 ≤ b → b ≠ 0x7f → (b = 0x9c → r ≠ 0) →
  ¬ (FILE_PREFIX `prefix_of` s ++ [b]) →
  ∃ p', feed_byte b p = Ok (p', []) ∧ collecting L (s ++ [b]) (next_remaining b r) p'.
Proof.
  intros Hp Hb H7f H9c Hpre. pose proof Hp as [H1 H2 H3 H4 H5 H6].
  set (p1 := push_string b (set_string_utf8_remaining (next_remaining b r) p)).
  assert (collecting L (s ++ [b]) (next_remaining b r) p1) as Hp1.
  { apply push_string_collecting. by split. }
  exists p1. split; [|done]. apply (feed_byte_once _ _ _ None).
  unfold feed, is_state. rewrite H1, bool_decide_eq_false_2 by done.
  rewrite (proj2 (Z.eqb_neq b 0x18)), (proj2 (Z.eqb_neq b 0x1a)), (proj2 (Z.eqb_neq b 0x1b)) by lia.
  cbn [orb andb]. unfold feed_osc. rewrite H1, (proj2 (Z.eqb_neq b 0x07)), (proj2 (Z.eqb_neq b 0x1b)) by lia.
  rewrite H6.
  assert ((b =? 0x9c) && (r =? 0) = false) as ->.
  { destruct (Z.eqb_spec b 0x9c); [|done]. apply Z.eqb_neq. auto. }
  rewrite (proj2 (Z.eqb_neq b 0x7f)) by done. unfold in_range at 1.
  rewrite (proj2 (Z.leb_gt b 0x1f)), andb_false_r by lia. cbv zeta.
  fold (next_remaining b r). change (push_string b _) with p1. cbn [orb].
  rewrite bool_decide_eq_false_2; [done|]. fold FILE_PREFIX. rewrite (cl_string _ _ _ _ Hp1).
  intros Heq. apply Hpre. rewrite <-Heq. apply prefix_take.
Qed.

(** A run of bytes none of which ends the string. *)
Lemma osc_steps L s r bs p :
  collecting L s r p → ¬ (FILE_PREFIX `prefix_of` s ++ bs) →
  (∀ i b, bs !! i = Some b →
     0x20 ≤ b ∧ b ≠ 0x7f ∧ (b = 0x9c → foldl (λ r b, next_remaining b r) r (take i bs) ≠ 0)) →
  ∃ p', advance bs p = Ok (p', []) ∧
    collecting L (s ++ bs) (foldl (λ r b, next_remaining b r) r bs) p'.
Proof.
  revert s r p. induction bs as [|b bs IH]; intros s r p Hp Hpre Hb; simpl.
  { exists p. by rewrite app_nil_r. }
  destruct (Hb 0%nat b eq_refl) as (H1 & H2 & H3).
  destruct (osc_step L s r b p Hp H1 H2 H3) as (p1 & -> & Hp1).
  { intros Hx. apply Hpre. etrans; [exact Hx|]. by exists bs; rewrite <-app_assoc. }
  cbn [obind]. destruct (IH (s ++ [b]) (next_remaining b r) p1 Hp1) as (p2 & -> & Hp2).
  { by rewrite <-app_assoc. }
  { intros i b' Hi. apply (Hb (S i) b' Hi). }
  exists p2. split; [done|]. by rewrite <-app_assoc in Hp2.
Qed.

Lemma next_remaining_cont x r : 0 ≤ x < 64 → next_remaining (0x80 + x) r = saturating_sub r 1.
Proof.
  intros Hx. unfold next_remaining, in_range.
  by rewrite (proj2 (Z.leb_le 0x80 _)), (proj2 (Z.leb_le _ 0xbf)) by lia.
Qed.

Lemma next_remaining_lead b r :
  0xC2 ≤ b ≤ 0xF4 → next_remaining b r = if b <=? 0xDF then 1 else if b <=? 0xEF then 2 else 3.
Proof.
  intros Hb. unfold next_remaining, in_range.
  destruct (Z.leb_spec 0x80 b), (Z.leb_spec b 0xbf), (Z.leb_spec 0xc2 b), (Z.leb_spec 0xe0 b),
    (Z.leb_spec 0xf0 b), (Z.leb_spec b 0xf4), (Z.leb_spec b 0xdf), (Z.leb_spec b 0xef); try lia; done.
Qed.

(** The bytes of a character neither end the string nor leave a continuation
    byte outstanding. *)
Lemma encode_utf8_collectable c :
  printable c = true →
  foldl (λ r b, next_remaining b r) 0 (encode_utf8 c) = 0 ∧
  ∀ i b, encode_utf8 c !! i = Some b →
    0x20 ≤ b ∧ b ≠ 0x7f ∧ (b = 0x9c → foldl (λ r b, next_remaining b r) 0 (take i (encode_utf8 c)) ≠ 0).
Proof.
  intros Hc. unfold printable in Hc.
  apply andb_true_iff in Hc as [[Hsc H20%Z.leb_le]%andb_true_iff H7f%negb_true_iff%Z.eqb_neq].
  assert (c ≤ 0x10ffff) as Hmax by (unfold is_scalar in Hsc; lia). clear Hsc.
  pose proof (Z.mod_pos_bound c 64 ltac:(lia)) as Hm0.
  pose proof (Z.mod_pos_bound (c / 64) 64 ltac:(lia)) as Hm1.
  pose proof (Z.mod_pos_bound (c / 4096) 64 ltac:(lia)) as Hm2.
  assert (c = c / 64 * 64 + c mod 64) as Hd0 by (Z.div_mod_to_equations; lia).
  assert (c / 64 = c / 4096 * 64 + c / 64 mod 64) as Hd1 by (Z.div_mod_to_equations; lia).
  assert (c / 4096 = c / 262144 * 64 + c / 4096 mod 64) as Hd2 by (Z.div_mod_to_equations; lia).
  unfold encode_utf8. destruct (Z.ltb_spec c 0x80); [|destruct (Z.ltb_spec c 0x800);
    [|destruct (Z.ltb_spec c 0x10000)]].
  - split.
    + simpl. unfold next_remaining, in_range.
      by rewrite (proj2 (Z.leb_gt 0x80 c)), (proj2 (Z.leb_gt 0xc2 c)), (proj2 (Z.leb_gt 0xe0 c)),
        (proj2 (Z.leb_gt 0xf0 c)) by lia.
    + intros [|i] b; [|done]. intros [= <-]. lia.
  - split; [|intros [|[|i]] b; try done; intros [= <-]]; simpl;
      rewrite ?next_remaining_cont, ?next_remaining_lead by lia; try lia.
    + by rewrite (proj2 (Z.leb_le _ 0xDF)) by lia.
    + rewrite (proj2 (Z.leb_le _ 0xDF)) by lia. lia.
  - split; [|intros [|[|[|i]]] b; try done; intros [= <-]]; simpl;
      rewrite ?next_remaining_cont, ?next_remaining_lead by lia; try lia.
    all: rewrite (proj2 (Z.leb_gt _ 0xDF)), (proj2 (Z.leb_le _ 0xEF)) by lia; unfold saturating_sub; lia.
  - split; [|intros [|[|[|[|i]]]] b; try done; intros [= <-]]; simpl;
      rewrite ?next_remaining_cont, ?next_remaining_lead by lia; try lia.
    all: rewrite (proj2 (Z.leb_gt _ 0xDF)), (proj2 (Z.leb_gt _ 0xEF)) by lia; unfold saturating_sub; lia.
Qed.

Lemma osc_text L s text p :
  collecting L s 0 p → Forall (λ c, printable c = true) text →
  ¬ (FILE_PREFIX `prefix_of` s ++ (text ≫= encode_utf8)) →
  ∃ p', advance (text ≫= encode_utf8) p = Ok (p', []) ∧
    collecting L (s ++ (text ≫= encode_utf8)) 0 p'.
Proof.
  intros Hp Ht. revert s p Hp. induction Ht as [|c text Hc _ IH]; intros s p Hp Hpre; csimpl.
  { exists p. by rewrite app_nil_r. }
  destruct (encode_utf8_collectable c Hc) as [Hr Hb].
  destruct (osc_steps L s 0 (encode_utf8 c) p Hp) as (p1 & H1 & Hp1); [|done|].
  { intros Hx. apply Hpre. csimpl. rewrite app_assoc. etrans; [exact Hx|by eexists]. }
  rewrite Hr in Hp1. destruct (IH _ _ Hp1) as (p2 & H2 & Hp2).
  { by rewrite <-app_assoc. }
  exists p2. rewrite advance_app, H1. cbn [obind]. rewrite H2. by rewrite <-app_assoc in Hp2.
Qed.

(** The bytes of the two terminators. *)
Definition terminator_bytes (t : StringTerminator) : list Z :=
  match t with Bell => [0x07] | ST => [0x1b; 0x5c] end.

Lemma advance_cons b bs p p1 l1 :
  feed_byte b p = Ok (p1, l1) →
  advance (b :: bs) p = map_ok (λ '(p2, l2), (p2, l1 ++ l2)) (advance bs p1).
Proof. simpl. intros ->. simpl. by destruct (advance bs p1) as [[??]| |]. Qed.

Lemma osc_intro osc dcs p :
  parser_wf osc dcs p → state p = Ground →
  ∃ p', advance [0x1b; 0x5d] p = Ok (p', []) ∧ collecting osc [] 0 p'.
Proof.
  intros Hwf Hs. destruct (vw_limits _ _ _ Hwf) as (Ho & _ & Hn & _).
  erewrite advance_cons; [|apply (feed_byte_once _ _ (set_state Escape (clear_sequence p)) None)].
  - erewrite advance_cons; [|apply (feed_byte_once _ _ (start_string OscString (osc_limit p) (set_state Escape (clear_sequence p))) None); done].
    eexists. split; [done|]. split; simpl; try done; [by rewrite take_nil|].
    symmetry. apply Z.ltb_ge. lia.
  - unfold feed, is_state. by rewrite Hs.
Qed.

Lemma osc_end L s r t p :
  collecting L s r p →
  ∃ p', advance (terminator_bytes t) p =
    Ok (p', [if L <? Z.of_nat (length s) then StringTruncated "OSC"%string else Osc s t]) ∧
    state p' = Ground.
Proof.
  intros [H1 H2 H3 H4 H5 H6].
  assert (∀ q t, string q = string p → string_truncated q = string_truncated p →
    finish_string true t q = Ok (set_string [] (set_state Ground q),
      Some (if L <? Z.of_nat (length s) then StringTruncated "OSC"%string else Osc s t), false)) as Hfin.
  { intros q t' Hq Hq'. unfold finish_string. simpl. rewrite Hq, Hq', H5, H4.
    destruct (Z.ltb_spec L (Z.of_nat (length s))); [done|]. by rewrite take_ge by lia. }
  destruct t; simpl.
  - erewrite (feed_byte_once 7 p);
      [|unfold feed, is_state; rewrite H1; simpl; unfold feed_osc; rewrite H1; simpl; apply Hfin; done].
    simpl. by eexists.
  - erewrite (feed_byte_once 27 p (set_state OscEscape p) None);
      [|unfold feed, is_state; rewrite H1; simpl; unfold feed_osc; by rewrite H1].
    simpl. erewrite (feed_byte_once 92 (set_state OscEscape p));
      [|unfold feed, is_state; simpl; unfold feed_osc; simpl;
        rewrite (Hfin (set_state OscEscape p) ST) by done; reflexivity].
    simpl. by eexists.
Qed.

(** An operating system command whose payload is any UTF-8 text without
    controls (continuation bytes 0x9c included) that does not begin an inline
    file transfer is delivered whole with its terminator when it fits the
    configured limit, and otherwise as one truncation notice; either way the
    parser is at rest and no payload byte is printed or executed. *)
Theorem osc_delivered osc dcs p text t :
  parser_wf osc dcs p → state p = Ground →
  Forall (λ c, printable c = true) text →
  ¬ (FILE_PREFIX `prefix_of` text ≫= encode_utf8) →
  let payload := text ≫= encode_utf8 in
  ∃ p', advance ([0x1b; 0x5d] ++ payload ++ terminator_bytes t) p =
    Ok (p', [if osc <? Z.of_nat (length payload) then StringTruncated "OSC"%string else Osc payload t]) ∧
    state p' = Ground.
Proof.
  intros Hwf Hs Ht Hpre payload. destruct (osc_intro _ _ _ Hwf Hs) as (p1 & H1 & Hp1).
  destruct (osc_text _ _ _ _ Hp1 Ht Hpre) as (p2 & H2 & Hp2). simpl in Hp2.
  destruct (osc_end _ _ _ t _ Hp2) as (p3 & H3 & Hp3). exists p3.
  rewrite advance_app, H1. cbn [obind]. rewrite advance_app. subst payload. rewrite H2. cbn [obind].
  by rewrite H3.
Qed.

Lemma osc_delivered_witness :
  ∃ p', advance ([0x1b; 0x5d] ++ ([0x30; 0x3b; 0x4f5c; 0x9c] ≫= encode_utf8) ++ terminator_bytes ST)
      (Parser_new 64 64) =
    Ok (p', [if 64 <? 7 then StringTruncated "OSC"%string
             else Osc ([0x30; 0x3b; 0x4f5c; 0x9c] ≫= encode_utf8) ST]) ∧ state p' = Ground.
Proof.
  apply (osc_delivered 64 64); [apply wf_new; lia|reflexivity|by repeat constructor|].
  intros [k Hk]. vm_compute in Hk. discriminate Hk.
Defined.

(** Cancellation resynchronizes: from every reachable state CAN and SUB
    bring the parser back to rest with the collected sequence dropped and no
    image stream left open, and announce the abort. *)
Theorem cancel_resynchronizes osc dcs p b :
  parser_wf osc dcs p → b = 0x18 ∨ b = 0x1a →
  ∃ p' l a, feed_byte b p = Ok (p', l ++ [a]) ∧
    (a = SixelAbort ∨ a = ItermAbort ∨ a = KittyAbort) ∧ (sixel_streaming p = true → a = SixelAbort) ∧
    l = (if is_state Utf8 p then [Print REPLACEMENT] else []) ∧
    state p' = Ground ∧ sixel_streaming p' = false ∧ string p' = [] ∧
    params p' = Params_default ∧ private p' = None ∧ intermediate_count p' = 0.
Proof.
  intros Hwf Hb.
  assert (∀ q, state q ≠ Utf8 → feed b q =
    Ok (clear_sequence (set_string [] (set_sixel_streaming false (set_state Ground q))),
        Some (if sixel_streaming q then SixelAbort else if in_iterm (state q) then ItermAbort else KittyAbort),
        false)) as Hf.
  { intros q Hq. unfold feed, is_state. rewrite bool_decide_eq_false_2 by done.
    by destruct Hb as [->| ->]. }
  unfold is_state. case_bool_decide as Hu.
  - assert (feed b p = Ok (set_state Ground p, Some (Print REPLACEMENT), true)) as H1.
    { unfold feed, is_state. rewrite bool_decide_eq_true_2 by done. unfold feed_utf8. by destruct Hb as [->| ->]. }
    assert (sixel_streaming p = false) as Hq by (eapply wf_quiet; [done|by rewrite Hu]).
    exists (clear_sequence (set_string [] (set_sixel_streaming false (set_state Ground (set_state Ground p))))),
      [Print REPLACEMENT], KittyAbort.
    split; [|split_and!; try done; [by auto|congruence]].
    unfold feed_byte. cbn [feed_until_done]. rewrite H1, Hf by done. simpl. by rewrite Hq.
  - eexists _, [], _. split; [unfold feed_byte; cbn [feed_until_done]; rewrite Hf by done; reflexivity|].
    split_and!; try done.
    + destruct (sixel_streaming p), (in_iterm (state p)); auto.
    + by intros ->.
Qed.

Lemma cancel_resynchronizes_witness :
  ∃ p' l a, feed_byte 0x18 (Parser_new 64 64) = Ok (p', l ++ [a]) ∧
    (a = SixelAbort ∨ a = ItermAbort ∨ a = KittyAbort) ∧
    (sixel_streaming (Parser_new 64 64) = true → a = SixelAbort) ∧
    l = (if is_state Utf8 (Parser_new 64 64) then [Print REPLACEMENT] else []) ∧
    state p' = Ground ∧ sixel_streaming p' = false ∧ string p' = [] ∧
    params p' = Params_default ∧ private p' = None ∧ intermediate_count p' = 0.
Proof. apply (cancel_resynchronizes 64 64); [apply wf_new; lia|by left]. Defined.

(** ** Control sequences *)

Definition param_of (n : Z) : Param := {|
  value := n; present := true; subparams := replicate 16 0;
  subparam_present := replicate 16 false; subparam_count := 0 |}.

(** The numbers [ns] as parameters, the rest at their defaults. *)
Definition params_of (ns : list Z) : Params := {|
  values := (param_of <$> ns) ++ replicate (16 - length ns) Param_default;
  count := Z.of_nat (length ns) |}.

(** [ns] in decimal, separated by semicolons. *)
Fixpoint join (ns : list Z) : list Z :=
  match ns with
  | [] => []
  | [n] => to_string n
  | n :: ns => to_string n ++ 0x3b :: join ns
  end.

(** Inside a control sequence: [fin] complete parameters, [cur] under way. *)
Record in_csi (fin : list Z) (cur : Param) (p : Parser) : Prop := {
  ic_state : state p = CsiEntry ∨ state p = CsiParam;
  ic_private : private p = None;
  ic_intermediates : intermediates p = replicate 4 0 ∧ intermediate_count p = 0;
  ic_current : current_param p = Z.of_nat (length fin);
  ic_room : (length fin < 16)%nat;
  ic_sub : current_subparam p = None;
  ic_overflow : parameter_overflow p = false;
  ic_cur : cur = Param_default ∨ ∃ n, cur = param_of n;
  ic_params : params p = {|
    values := (param_of <$> fin) ++ cur :: replicate (15 - length fin) Param_default;
    count := Z.of_nat (length fin) + if present cur then 1 else 0 |};
}.

Lemma feed_csi_state b p fin cur :
  in_csi fin cur p → 0x20 ≤ b → b ≠ 0x7f → feed b p = feed_csi b p.
Proof.
  intros Hp Hb H7f. unfold feed, is_state.
  rewrite bool_decide_eq_false_2 by (destruct (ic_state _ _ _ Hp); congruence).
  rewrite !(proj2 (Z.eqb_neq b _)) by lia. cbn [orb andb].
  by destruct (ic_state _ _ _ Hp) as [->| ->].
Qed.

(** The checks of [feed_csi] that come before its match on the byte. *)
Lemma feed_csi_match b p fin cur :
  in_csi fin cur p → 0x20 ≤ b → b ≠ 0x7f →
  (b =? 0x7f) = false ∧ (b <=? 0x1f) = false ∧ is_state CsiIgnore p = false ∧
  is_state CsiIntermediate p = false.
Proof.
  intros Hp Hb H7f. unfold is_state. split_and!; [lia|lia|..];
    apply bool_decide_eq_false_2; destruct (ic_state _ _ _ Hp); congruence.
Qed.

Lemma collect_digit_csi d fin cur p :
  in_csi fin cur p →
  in_csi fin (param_of (push_digit d (value cur))) (set_state CsiParam (collect_digit d p)).
Proof.
  intros [H1 H2 [H3 H3'] H4 H5 H6 H7 H8 H9]. unfold collect_digit.
  rewrite (proj2 (Z.leb_gt _ _)) by (rewrite H4; unfold PARAM_LIMIT; lia). cbv zeta. rewrite H6.
  split; simpl; try done; [by auto|by eauto|].
  rewrite H9. unfold update_param, raise_count. rewrite H4. simpl. rewrite Nat2Z.id. f_equal.
  - rewrite alter_app_r_alt by (rewrite length_fmap; lia).
    rewrite length_fmap, Nat.sub_diag. simpl. by destruct H8 as [->|[n ->]].
  - destruct (present cur); lia.
Qed.

Lemma digit_step c fin cur p :
  in_csi fin cur p → is_ascii_digit c = true →
  ∃ p', feed_byte c p = Ok (p', []) ∧ in_csi fin (param_of (push_digit (c - 48) (value cur))) p'.
Proof.
  unfold is_ascii_digit. intros Hp Hc. eexists. split; [|by apply (collect_digit_csi (c - 48)), Hp].
  apply (feed_byte_once _ _ _ None). erewrite feed_csi_state; [|exact Hp|lia|lia].
  destruct (feed_csi_match c p fin cur Hp) as (E1 & E2 & E3 & E4); [lia|lia|].
  unfold feed_csi. rewrite E1, E2, E3, E4. cbn [andb]. unfold in_range.
  by rewrite (proj2 (Z.leb_le 0x30 c)), (proj2 (Z.leb_le c 0x39)) by lia.
Qed.

Lemma digits_run s fin cur p :
  in_csi fin cur p → Forall (λ c, is_ascii_digit c = true) s → s ≠ [] →
  ∃ p', advance s p = Ok (p', []) ∧
    in_csi fin (param_of (foldl (λ x c, push_digit (c - 48) x) (value cur) s)) p'.
Proof.
  intros Hp Hs. revert cur p Hp. induction Hs as [|c s Hc Hs IH]; intros cur p Hp Hne; [done|].
  destruct (digit_step c fin cur p Hp Hc) as (p1 & H1 & Hp1). simpl. rewrite H1. cbn [obind].
  destruct (decide (s = [])) as [->|Hn]; [by exists p1|].
  destruct (IH _ p1 Hp1 Hn) as (p2 & -> & Hp2). by exists p2.
Qed.

Lemma parse_digits_mono acc s n :
  0 ≤ acc → parse_digits acc s = Some n → acc ≤ n ∧ Forall (λ c, is_ascii_digit c = true) s.
Proof.
  revert acc. induction s as [|c s IH]; intros acc Ha; simpl; [intros [= <-]; by split|].
  destruct (is_ascii_digit c) eqn:Hc; [|done].
  destruct (_ <=? _); [|done]. unfold is_ascii_digit in Hc. intros Hp.
  destruct (IH (acc * 10 + (c - 48)) ltac:(lia) Hp). split; [lia|]. constructor; [unfold is_ascii_digit; lia|done].
Qed.

Lemma parse_digits_foldl acc s n :
  0 ≤ acc → n ≤ u32_max → parse_digits acc s = Some n →
  foldl (λ x c, push_digit (c - 48) x) acc s = n.
Proof.
  revert acc. induction s as [|c s IH]; intros acc Ha Hn Hp; simpl in *; [congruence|].
  destruct (is_ascii_digit c) eqn:Hc; [|done]. destruct (_ <=? _); [|done].
  unfold is_ascii_digit in Hc. apply andb_true_iff in Hc as [Hc1%Z.leb_le Hc2%Z.leb_le].
  destruct (parse_digits_mono (acc * 10 + (c - 48)) s n ltac:(lia) Hp) as [Hle _].
  assert (push_digit (c - 48) acc = acc * 10 + (c - 48)) as ->; [|apply IH; lia || done].
  unfold push_digit, wrap32, u32_max in *. rewrite (Z.mod_small (acc * 10)) by lia. apply Z.mod_small. lia.
Qed.

(** A printed number becomes the current parameter. *)
Lemma number_run n fin p :
  in_csi fin Param_default p → 0 ≤ n ≤ u32_max →
  ∃ p', advance (to_string n) p = Ok (p', []) ∧ in_csi fin (param_of n) p'.
Proof.
  intros Hp Hn. unfold to_string.
  set (s := digits _ n). assert (parse_digits 0 s = Some n) as Hs.
  { apply parse_digits_digits; [unfold u32_max, u64_max in *; lia|].
    rewrite Nat2Z.inj_succ, Z2Nat.id by apply Z.log2_nonneg.
    destruct (Z.eq_dec n 0) as [->|]; [done|]. apply Z.log2_spec. lia. }
  destruct (parse_digits_mono 0 s n ltac:(lia) Hs) as [_ Hd].
  destruct (digits_run s fin Param_default p Hp Hd) as (p' & Ha & Hp').
  { destruct (digits_head (Z.to_nat (Z.log2 n)) n) as (d & s' & Heq & _); [lia|]. subst s. by rewrite Heq. }
  exists p'. split; [done|]. simpl in Hp'. by rewrite (parse_digits_foldl 0 s n) in Hp' by (done || lia).
Qed.

Lemma separator_step n fin p :
  in_csi fin (param_of n) p → (length fin + 1 < 16)%nat →
  ∃ p', feed_byte 0x3b p = Ok (p', []) ∧ in_csi (fin ++ [n]) Param_default p'.
Proof.
  intros Hp Hroom. pose proof Hp as [H1 H2 [H3 H3'] H4 H5 H6 H7 H8 H9].
  exists (set_state CsiParam (next_param p)).
  assert (parameter_overflow (next_param p) = false) as Hov.
  { unfold next_param. cbv zeta. rewrite (proj2 (Z.leb_gt _ _)); [done|].
    simpl. rewrite H4. unfold PARAM_LIMIT. lia. }
  split.
  - apply (feed_byte_once _ _ _ None). erewrite feed_csi_state; [|exact Hp|lia|lia].
    destruct (feed_csi_match 0x3b p fin _ Hp) as (E1 & E2 & E3 & E4); [lia|lia|].
    unfold feed_csi. rewrite E1, E2, E3, E4. cbn [andb].
    change (in_range 0x3b 0x30 0x39) with false. change (0x3b =? 0x3b) with true. cbv iota zeta.
    by rewrite Hov.
  - unfold next_param. cbv zeta. rewrite (proj2 (Z.leb_gt _ _));
      [|simpl; rewrite H4; unfold PARAM_LIMIT; lia].
    split; simpl; try done; [by auto|rewrite length_app, H4; simpl; lia|rewrite length_app; simpl; lia|by auto|].
    rewrite H9, H4. unfold raise_count. simpl. f_equal.
    + rewrite fmap_app, <-app_assoc. simpl. do 2 f_equal. rewrite length_app. simpl.
      by replace (15 - length fin)%nat with (S (15 - (length fin + 1))) by lia.
    + rewrite length_app. simpl. unfold PARAM_LIMIT. lia.
Qed.

Lemma numbers_run ns fin p :
  in_csi fin Param_default p → Forall (λ n, 0 ≤ n ≤ u32_max) ns → ns ≠ [] →
  (length fin + length ns ≤ 16)%nat →
  ∃ p' fin' n, advance (join ns) p = Ok (p', []) ∧ in_csi fin' (param_of n) p' ∧
    fin' ++ [n] = fin ++ ns.
Proof.
  intros Hp Hns. revert fin p Hp. induction Hns as [|n ns Hn Hns IH]; intros fin p Hp Hne Hlen; [done|].
  destruct (number_run n fin p Hp Hn) as (p1 & H1 & Hp1).
  destruct ns as [|n' ns]; [by exists p1, fin, n|].
  destruct (separator_step n fin p1 Hp1) as (p2 & H2 & Hp2); [simpl in Hlen; lia|].
  destruct (IH _ _ Hp2) as (p3 & fin' & k & H3 & Hp3 & Heq);
    [done|rewrite length_app; simpl in *; lia|].
  exists p3, fin', k. split; [|split; [done|by rewrite Heq, <-app_assoc]].
  change (join (n :: n' :: ns)) with (to_string n ++ [0x3b] ++ join (n' :: ns)).
  rewrite advance_app, H1. cbn [obind]. rewrite advance_app. cbn [advance]. rewrite H2. cbn [obind app].
  by rewrite H3.
Qed.

Lemma final_step n fin f p :
  in_csi fin (param_of n) p → 0x40 ≤ f ≤ 0x7e →
  ∃ p', feed_byte f p = Ok (p', [Csi None (replicate 4 0) 0 (params_of (fin ++ [n])) f]) ∧ state p' = Ground.
Proof.
  intros Hp Hf. pose proof Hp as [H1 H2 [H3 H3'] H4 H5 H6 H7 H8 H9].
  assert (finish_params p = set_params (params_of (fin ++ [n])) p) as Hfin.
  { unfold finish_params. rewrite H4, H9. simpl.
    rewrite (proj2 (Z.ltb_lt _ PARAM_LIMIT)) by (unfold PARAM_LIMIT; lia).
    rewrite (proj2 (Z.ltb_lt 0 _)) by lia. simpl. f_equal. unfold raise_count, params_of. simpl.
    rewrite length_app, fmap_app, <-app_assoc. simpl. f_equal; [|lia].
    by replace (16 - (length fin + 1))%nat with (15 - length fin)%nat by lia. }
  eexists. split.
  - apply (feed_byte_once _ _ _ (Some _)). erewrite feed_csi_state; [|exact Hp|lia|lia].
    destruct (feed_csi_match f p fin _ Hp) as (E1 & E2 & E3 & E4); [lia|lia|].
    unfold feed_csi. rewrite E1, E2, E3, E4. cbn [andb]. unfold in_range.
    rewrite (proj2 (Z.leb_gt f 0x39)), (proj2 (Z.leb_gt f 0x3f)), (proj2 (Z.leb_gt f 0x2f)),
      (proj2 (Z.eqb_neq f _)), (proj2 (Z.eqb_neq f _)), (proj2 (Z.leb_le 0x40 f)), (proj2 (Z.leb_le f 0x7e)) by lia.
    rewrite !andb_false_r. cbn [andb]. cbv zeta. rewrite Hfin. simpl. by rewrite H2, H3, H3'.
  - done.
Qed.

Lemma csi_intro p : state p = Ground → ∃ p', advance [0x1b; 0x5b] p = Ok (p', []) ∧ in_csi [] Param_default p'.
Proof.
  intros Hs. erewrite advance_cons; [|apply (feed_byte_once _ _ (set_state Escape (clear_sequence p)) None)].
  - erewrite advance_cons; [|apply (feed_byte_once _ _ (set_state CsiEntry (clear_sequence (set_state Escape (clear_sequence p)))) None); done].
    eexists. split; [done|]. split; simpl; try done; [by auto|lia|by auto].
  - unfold feed, is_state. by rewrite Hs.
Qed.

Lemma params_of_get ns i n d z :
  ns !! i = Some n → 0 ≤ n < 2 ^ 31 →
  Param_value (Params_get (params_of ns) (Z.of_nat i)) d z = if z && (n =? 0) then d else n.
Proof.
  intros Hi Hn. pose proof (lookup_lt_Some _ _ _ Hi) as Hlt. unfold Params_get. simpl.
  rewrite (proj2 (Z.ltb_lt _ _)), Nat2Z.id by lia.
  rewrite lookup_app_l by by rewrite length_fmap. rewrite list_lookup_fmap, Hi. simpl.
  unfold Param_value. simpl. change 0x7fffffff with (2 ^ 31 - 1). rewrite land_mask by done.
  by rewrite Z.mod_small.
Qed.

(** Control sequence round trip: the introducer, up to sixteen decimal
    numbers separated by semicolons and a final byte are recognized as one
    control sequence carrying exactly these numbers (all 32-bit values, read
    back through the accessors for 31-bit ones), and the parser is at rest. *)
Theorem csi_recognized p ns f :
  state p = Ground → Forall (λ n, 0 ≤ n ≤ u32_max) ns → (0 < length ns ≤ 16)%nat →
  0x40 ≤ f ≤ 0x7e →
  (∃ p', advance ([0x1b; 0x5b] ++ join ns ++ [f]) p =
     Ok (p', [Csi None (replicate 4 0) 0 (params_of ns) f]) ∧ state p' = Ground) ∧
  ∀ i n d z, ns !! i = Some n → n < 2 ^ 31 →
    Param_value (Params_get (params_of ns) (Z.of_nat i)) d z = if z && (n =? 0) then d else n.
Proof.
  intros Hs Hns [Hpos Hlen] Hf. split.
  - destruct (csi_intro p Hs) as (p1 & H1 & Hp1).
    destruct (numbers_run ns [] p1 Hp1 Hns) as (p2 & fin & n & H2 & Hp2 & Heq); [by destruct ns; [simpl in *; lia|]|done|].
    destruct (final_step n fin f p2 Hp2 Hf) as (p3 & H3 & Hp3). exists p3. split; [|done].
    rewrite advance_app, H1. cbn [obind]. rewrite advance_app, H2. cbn [obind advance]. rewrite H3. simpl.
    simpl in Heq. by rewrite Heq.
  - intros i n d z Hi Hn. apply params_of_get; [done|].
    rewrite Forall_lookup in Hns. specialize (Hns i n Hi). simpl in Hns. lia.
Qed.

Lemma csi_recognized_witness :
  (∃ p', advance ([0x1b; 0x5b] ++ join [38; 0; 4294967295] ++ [0x6d]) (Parser_new 64 64) =
     Ok (p', [Csi None (replicate 4 0) 0 (params_of [38; 0; 4294967295]) 0x6d]) ∧ state p' = Ground) ∧
  ∀ i n d z, [38; 0; 4294967295] !! i = Some n → n < 2 ^ 31 →
    Param_value (Params_get (params_of [38; 0; 4294967295]) (Z.of_nat i)) d z = if z && (n =? 0) then d else n.
Proof.
  apply csi_recognized; [reflexivity| |simpl; lia|lia].
  repeat constructor; vm_compute; discriminate.
Defined.

(** A string that an escape ends after an eight-bit introducer keeps the bytes
    collected for an earlier sequence: the [ESC 7] that follows is reported with
    the intermediate of [ESC ( B]. *)
Example stale_intermediate :
  let stream := [0x1b; 0x28; 0x42] ++ [0x9d; 0x32; 0x3b; 0x78] ++ [0x1b; 0x37] in
  map_ok snd (advance stream (Parser_new 64 64)) =
    Ok [Esc [0x28; 0; 0; 0] 1 0x42; Osc [0x32; 0x3b; 0x78] ST; Esc [0x28; 0; 0; 0] 1 0x37].
Proof. vm_compute. reflexivity. Qed.
