(* ===== verification/Cell.v ===== *)
(** * Cells ([splinterm-terminal/src/cell.rs])

    Colors, packed attributes, packed content and the fixed-width checkpoint
    encoding of a cell. Words are integers in the [u32] range. *)

From stdpp Require Import base list.
From S2P Require Import Prelude RustStd.

#[local] Open Scope Z_scope.

(** [!x] on a [u32]. *)
Definition not32 (x : Z) : Z := Z.lxor x u32_max.

(** ** Constants *)

Definition COLOR_MASK : Z := 0x00ffffff.
Definition COMPOSED_BASE : Z := 0x00200000.
Definition COMPOSED_KEY_MAX : Z := 0x3fffffff.
Definition COMPOSED_END : Z := COMPOSED_BASE + COMPOSED_KEY_MAX.
Definition SPACER_BASE : Z := COMPOSED_END + 1.

Definition BOLD : Z := Z.shiftl 1 0.
Definition DIM : Z := Z.shiftl 1 1.
Definition ITALIC : Z := Z.shiftl 1 2.
Definition STRIKETHROUGH : Z := Z.shiftl 1 4.
Definition BLINK : Z := Z.shiftl 1 5.
Definition CONCEAL : Z := Z.shiftl 1 6.
Definition REVERSE : Z := Z.shiftl 1 7.
Definition FOREGROUND_SHIFT : Z := 8.

Definition CLEAN : Z := Z.shiftl 1 0.
Definition FOREGROUND_SOURCE_SHIFT : Z := 1.
Definition BACKGROUND_SOURCE_SHIFT : Z := 3.
Definition SOURCE_MASK : Z := 3.
Definition CONFINED : Z := Z.shiftl 1 5.
Definition SELECTED : Z := Z.shiftl 1 6.
Definition URL : Z := Z.shiftl 1 7.
Definition BACKGROUND_SHIFT : Z := 8.

(** ** Colors *)

Inductive ColorSource := DefaultColor | Base16 | Base256 | Rgb.

(** [source as u32]. *)
Definition source_bits (s : ColorSource) : Z :=
  match s with DefaultColor => 0 | Base16 => 1 | Base256 => 2 | Rgb => 3 end.

(** [from_bits]; the mask leaves two bits, so the last arm is [unreachable!]. *)
Definition from_bits (bits : Z) : option ColorSource :=
  match Z.land bits SOURCE_MASK with
  | 0 => Some DefaultColor
  | 1 => Some Base16
  | 2 => Some Base256
  | 3 => Some Rgb
  | _ => None
  end.

Record Color := { source : ColorSource; color_value : Z }.

Definition Color_default : Color := {| source := DefaultColor; color_value := 0 |}.

Definition Color_new (source : ColorSource) (value : Z) : outcome Empty_set Color :=
  if value <=? COLOR_MASK then Ok {| source := source; color_value := value |} else Panic.

Definition Color_rgb (value : Z) : outcome Empty_set Color := Color_new Rgb value.

(** ** Attributes *)

Inductive UnderlineStyle := NoUnderline | Single | Double | Curly | Dotted | Dashed.

Definition underline_bits (u : UnderlineStyle) : Z :=
  match u with
  | NoUnderline => 0 | Single => 1 | Double => 2 | Curly => 3 | Dotted => 4 | Dashed => 5
  end.

Record Attributes := {
  style_and_foreground : Z;
  state_and_background : Z;
  underline_style : UnderlineStyle;
  underline_color : Color;
}.

Definition Attributes_default : Attributes := {|
  style_and_foreground := 0; state_and_background := 0;
  underline_style := NoUnderline; underline_color := Color_default |}.

#[export] Instance ColorSource_eq_dec : EqDecision ColorSource.
Proof. solve_decision. Defined.
#[export] Instance Color_eq_dec : EqDecision Color.
Proof. solve_decision. Defined.
#[export] Instance UnderlineStyle_eq_dec : EqDecision UnderlineStyle.
Proof. solve_decision. Defined.
#[export] Instance Attributes_eq_dec : EqDecision Attributes.
Proof. solve_decision. Defined.

Definition set_style_word (w : Z) (a : Attributes) : Attributes := {|
  style_and_foreground := w; state_and_background := state_and_background a;
  underline_style := underline_style a; underline_color := underline_color a |}.
Definition set_state_word (w : Z) (a : Attributes) : Attributes := {|
  style_and_foreground := style_and_foreground a; state_and_background := w;
  underline_style := underline_style a; underline_color := underline_color a |}.

(** The attributes [boolean_attribute!] declares. *)
Inductive flag :=
| Bold | Dim | Italic | Strikethrough | Blink | Conceal | Reverse
| Clean | Confined | Selected | Url.

#[export] Instance flag_eq_dec : EqDecision flag.
Proof. solve_decision. Defined.

(** The word a flag lives in ([true] is the style word), and its mask. *)
Definition flag_in_style (f : flag) : bool :=
  match f with Clean | Confined | Selected | Url => false | _ => true end.

Definition flag_mask (f : flag) : Z :=
  match f with
  | Bold => BOLD | Dim => DIM | Italic => ITALIC | Strikethrough => STRIKETHROUGH
  | Blink => BLINK | Conceal => CONCEAL | Reverse => REVERSE
  | Clean => CLEAN | Confined => CONFINED | Selected => SELECTED | Url => URL
  end.

(** [set_flag]. *)
Definition set_bit (word mask : Z) (enabled : bool) : Z :=
  if enabled then Z.lor word mask else Z.land word (not32 mask).

Definition get_flag (f : flag) (a : Attributes) : bool :=
  negb (Z.land (if flag_in_style f then style_and_foreground a else state_and_background a)
          (flag_mask f) =? 0).

Definition set_flag (f : flag) (enabled : bool) (a : Attributes) : Attributes :=
  if flag_in_style f
  then set_style_word (set_bit (style_and_foreground a) (flag_mask f) enabled) a
  else set_state_word (set_bit (state_and_background a) (flag_mask f) enabled) a.

Definition underline (a : Attributes) : bool :=
  match underline_style a with NoUnderline => false | _ => true end.

Definition set_underline_style (u : UnderlineStyle) (a : Attributes) : Attributes := {|
  style_and_foreground := style_and_foreground a; state_and_background := state_and_background a;
  underline_style := u; underline_color := underline_color a |}.

Definition set_underline (enabled : bool) (a : Attributes) : Attributes :=
  set_underline_style (if enabled then Single else NoUnderline) a.

Definition set_underline_color (c : Color) (a : Attributes) : Attributes := {|
  style_and_foreground := style_and_foreground a; state_and_background := state_and_background a;
  underline_style := underline_style a; underline_color := c |}.

(** [None] is the [unreachable!] of [from_bits]. *)
Definition foreground (a : Attributes) : option Color :=
  let value := Z.land (Z.shiftr (style_and_foreground a) FOREGROUND_SHIFT) COLOR_MASK in
  (λ s, {| source := s; color_value := value |}) <$>
    from_bits (Z.shiftr (state_and_background a) FOREGROUND_SOURCE_SHIFT).

Definition set_foreground (c : Color) (a : Attributes) : Attributes :=
  let a := set_style_word
    (Z.lor (Z.land (style_and_foreground a) (not32 (Z.shiftl COLOR_MASK FOREGROUND_SHIFT)))
       (wrap32 (Z.shiftl (color_value c) FOREGROUND_SHIFT))) a in
  set_state_word
    (Z.lor (Z.land (state_and_background a) (not32 (Z.shiftl SOURCE_MASK FOREGROUND_SOURCE_SHIFT)))
       (Z.shiftl (source_bits (source c)) FOREGROUND_SOURCE_SHIFT)) a.

Definition background (a : Attributes) : option Color :=
  let value := Z.land (Z.shiftr (state_and_background a) BACKGROUND_SHIFT) COLOR_MASK in
  (λ s, {| source := s; color_value := value |}) <$>
    from_bits (Z.shiftr (state_and_background a) BACKGROUND_SOURCE_SHIFT).

Definition set_background (c : Color) (a : Attributes) : Attributes :=
  set_state_word
    (Z.lor (Z.lor
       (Z.land (state_and_background a)
          (not32 (Z.lor (Z.shiftl COLOR_MASK BACKGROUND_SHIFT)
                        (Z.shiftl SOURCE_MASK BACKGROUND_SOURCE_SHIFT))))
       (wrap32 (Z.shiftl (color_value c) BACKGROUND_SHIFT)))
       (Z.shiftl (source_bits (source c)) BACKGROUND_SOURCE_SHIFT)) a.

Definition style_mask : Z :=
  Z.lor (Z.lor (Z.lor (Z.lor (Z.lor (Z.lor (Z.lor BOLD DIM) ITALIC) STRIKETHROUGH) BLINK) CONCEAL)
    REVERSE) (Z.shiftl COLOR_MASK FOREGROUND_SHIFT).

Definition state_mask : Z :=
  Z.lor (Z.lor (Z.lor (Z.lor (Z.lor (Z.lor CLEAN (Z.shiftl SOURCE_MASK FOREGROUND_SOURCE_SHIFT))
    (Z.shiftl SOURCE_MASK BACKGROUND_SOURCE_SHIFT)) CONFINED) SELECTED) URL)
    (Z.shiftl COLOR_MASK BACKGROUND_SHIFT).

Definition attributes_checkpoint_is_valid (a : Attributes) : bool :=
  (Z.land (style_and_foreground a) (not32 style_mask) =? 0)
  && (Z.land (state_and_background a) (not32 state_mask) =? 0)
  && (color_value (underline_color a) <=? COLOR_MASK).

(** ** Content *)

Inductive CellContent :=
| Empty
| Scalar (c : Z)
| Composed (key : Z)
| Spacer (remaining : Z).

Record Cell := { cell_content : Z; attributes : Attributes }.

Definition Cell_default : Cell := {| cell_content := 0; attributes := Attributes_default |}.

#[export] Instance CellContent_eq_dec : EqDecision CellContent.
Proof. solve_decision. Defined.
#[export] Instance Cell_eq_dec : EqDecision Cell.
Proof. solve_decision. Defined.

(** [content]; [Panic] is the violated scalar invariant. *)
Definition content (cell : Cell) : outcome Empty_set CellContent :=
  let value := cell_content cell in
  if value =? 0 then Ok Empty
  else if value <? COMPOSED_BASE then
    if is_scalar value then Ok (Scalar value) else Panic
  else if value <=? COMPOSED_END then Ok (Composed (value - COMPOSED_BASE))
  else Ok (Spacer (value - SPACER_BASE)).

Definition encode_content (c : CellContent) : outcome Empty_set Z :=
  match c with
  | Empty => Ok 0
  | Scalar character => if character =? 0 then Panic else Ok character
  | Composed key => if key <=? COMPOSED_KEY_MAX then Ok (COMPOSED_BASE + key) else Panic
  | Spacer remaining =>
      if SPACER_BASE + remaining <=? u32_max then Ok (SPACER_BASE + remaining) else Panic
  end.

Definition set_content (c : CellContent) (cell : Cell) : outcome Empty_set Cell :=
  map_ok (λ w, {| cell_content := w; attributes := attributes cell |}) (encode_content c).

Definition Cell_new (c : CellContent) : outcome Empty_set Cell := set_content c Cell_default.

Definition set_attributes (a : Attributes) (cell : Cell) : Cell :=
  {| cell_content := cell_content cell; attributes := a |}.

Definition is_spacer (cell : Cell) : bool := SPACER_BASE <=? cell_content cell.

Definition checkpoint_is_valid (composed_entries : Z) (cell : Cell) : bool :=
  let value := cell_content cell in
  let content_is_valid :=
    if value =? 0 then true
    else if value <? COMPOSED_BASE then is_scalar value
    else if value <=? COMPOSED_END then value - COMPOSED_BASE <? composed_entries
    else true in
  content_is_valid && attributes_checkpoint_is_valid (attributes cell).

(** ** Checkpoint encoding *)

Definition CHECKPOINT_CELL_BYTES : Z := 18.

(** [to_le_bytes] and [from_le_bytes] of a [u32]. *)
Definition to_le_bytes (w : Z) : list Z :=
  [w mod 256; w / 256 mod 256; w / 65536 mod 256; w / 16777216 mod 256].

Definition from_le_bytes (b0 b1 b2 b3 : Z) : Z := b0 + 256 * b1 + 65536 * b2 + 16777216 * b3.

Definition write_checkpoint (cell : Cell) : list Z :=
  to_le_bytes (cell_content cell)
  ++ to_le_bytes (style_and_foreground (attributes cell))
  ++ to_le_bytes (state_and_background (attributes cell))
  ++ [underline_bits (underline_style (attributes cell))]
  ++ [source_bits (source (underline_color (attributes cell)))]
  ++ to_le_bytes (color_value (underline_color (attributes cell))).

Definition byte_at (bytes : list Z) (i : nat) : Z := default 0 (bytes !! i).

(** [bytes] has [CHECKPOINT_CELL_BYTES] elements. *)
Definition read_checkpoint (bytes : list Z) : option Cell :=
  let word offset :=
    from_le_bytes (byte_at bytes offset) (byte_at bytes (offset + 1))
      (byte_at bytes (offset + 2)) (byte_at bytes (offset + 3)) in
  let underline_style :=
    match byte_at bytes 12 with
    | 0 => Some NoUnderline | 1 => Some Single | 2 => Some Double
    | 3 => Some Curly | 4 => Some Dotted | 5 => Some Dashed | _ => None
    end in
  let source :=
    match byte_at bytes 13 with
    | 0 => Some DefaultColor | 1 => Some Base16 | 2 => Some Base256 | 3 => Some Rgb | _ => None
    end in
  match underline_style, source with
  | Some underline_style, Some source =>
      Some {| cell_content := word 0%nat;
              attributes := {|
                style_and_foreground := word 4%nat; state_and_background := word 8%nat;
                underline_style := underline_style;
                underline_color := {| source := source; color_value := word 14%nat |} |} |}
  | _, _ => None
  end.
