(* ===== verification/CellProps.v ===== *)
(** * Theorems on cells

    The packed attributes behave as a record of independent fields, the packed
    content as the enumeration it encodes, and the checkpoint encoding is a
    bijection between cells and the byte strings the reader accepts. *)

From stdpp Require Import base list.
From S2P Require Import Prelude RustStd Cell.

#[local] Open Scope Z_scope.

(** ** Bits of words *)

Definition u32 (w : Z) : Prop := 0 ≤ w ≤ u32_max.

Lemma u32_max_ones : u32_max = Z.ones 32.
Proof. done. Qed.

Lemma u32_high w n : u32 w → 32 ≤ n → Z.testbit w n = false.
Proof.
  unfold u32, u32_max. intros Hw Hn. destruct (Z.eq_dec w 0) as [->|]; [apply Z.bits_0|].
  apply Z.bits_above_log2; [lia|]. assert (Z.log2 w < 32) by (apply Z.log2_lt_pow2; lia). lia.
Qed.

Lemma u32_of_bits w : 0 ≤ w → (∀ n, 32 ≤ n → Z.testbit w n = false) → u32 w.
Proof.
  intros Hw Hb. split; [done|]. unfold u32_max.
  assert (w mod 2 ^ 32 = w) as <-; [|pose proof (Z.mod_pos_bound w (2 ^ 32)); lia].
  rewrite <-Z.land_ones by lia. apply Z.bits_inj'. intros n Hn.
  rewrite Z.land_spec, Z.testbit_ones_nonneg by lia.
  destruct (Z.ltb_spec n 32); [by rewrite andb_true_r|]. by rewrite Hb, andb_false_r by lia.
Qed.

Lemma not32_nonneg m : u32 m → 0 ≤ not32 m.
Proof. intros Hm. unfold not32. apply Z.lxor_nonneg. unfold u32, u32_max in *. lia. Qed.

(** Clearing the bits of a mask. *)
Lemma land_not32_bits w m n :
  u32 w → 0 ≤ n → Z.testbit (Z.land w (not32 m)) n = Z.testbit w n && negb (Z.testbit m n).
Proof.
  intros Hw Hn. unfold not32. rewrite Z.land_spec, Z.lxor_spec, u32_max_ones, Z.testbit_ones_nonneg by lia.
  destruct (Z.ltb_spec n 32); [by rewrite xorb_true_r|]. by rewrite u32_high by (done || lia).
Qed.

Lemma set_bit_bits w k b n :
  u32 w → 0 ≤ k → 0 ≤ n →
  Z.testbit (set_bit w (2 ^ k) b) n = if n =? k then b else Z.testbit w n.
Proof.
  intros Hw Hk Hn. unfold set_bit. destruct b.
  - rewrite Z.lor_spec, Z.pow2_bits_eqb by done. rewrite (Z.eqb_sym k n).
    destruct (n =? k); [by rewrite orb_true_r|by rewrite orb_false_r].
  - rewrite land_not32_bits, Z.pow2_bits_eqb by done. rewrite (Z.eqb_sym k n).
    destruct (n =? k); [by rewrite andb_false_r|by rewrite andb_true_r].
Qed.

Lemma set_bit_u32 w k b : u32 w → 0 ≤ k < 32 → u32 (set_bit w (2 ^ k) b).
Proof.
  intros Hw Hk. apply u32_of_bits.
  - unfold set_bit. destruct b; [apply Z.lor_nonneg|apply Z.land_nonneg]; unfold u32 in Hw;
      [split; [lia|apply Z.pow_nonneg; lia]|left; lia].
  - intros n Hn. rewrite set_bit_bits by (done || lia).
    destruct (Z.eqb_spec n k); [lia|]. by apply u32_high.
Qed.

Lemma test_mask w k : 0 ≤ k → negb (Z.land w (2 ^ k) =? 0) = Z.testbit w k.
Proof.
  intros Hk. assert (Z.land w (2 ^ k) = if Z.testbit w k then 2 ^ k else 0) as ->.
  { apply Z.bits_inj'. intros n Hn. rewrite Z.land_spec, Z.pow2_bits_eqb by done.
    destruct (Z.eqb_spec k n) as [->|Hne].
    - rewrite andb_true_r. destruct (Z.testbit w n); [by rewrite Z.pow2_bits_true|by rewrite Z.bits_0].
    - rewrite andb_false_r. destruct (Z.testbit w k); [by rewrite Z.pow2_bits_false|by rewrite Z.bits_0]. }
  destruct (Z.testbit w k); [|done]. apply negb_true_iff, Z.eqb_neq. pose proof (Z.pow_pos_nonneg 2 k). lia.
Qed.

(** A field of [m] bits at offset [k]. *)
Definition bits_at (w k m : Z) : Z := Z.land (Z.shiftr w k) (Z.ones m).

Lemma bits_at_spec w k m n :
  0 ≤ k → 0 ≤ m → 0 ≤ n → Z.testbit (bits_at w k m) n = (n <? m) && Z.testbit w (n + k).
Proof.
  intros Hk Hm Hn. unfold bits_at. rewrite Z.land_spec, Z.shiftr_spec, Z.testbit_ones_nonneg by done.
  apply andb_comm.
Qed.

Lemma bits_at_ext w w' k m :
  0 ≤ k → 0 ≤ m → (∀ n, k ≤ n < k + m → Z.testbit w n = Z.testbit w' n) →
  bits_at w k m = bits_at w' k m.
Proof.
  intros Hk Hm He. apply Z.bits_inj'. intros n Hn. rewrite !bits_at_spec by done.
  destruct (Z.ltb_spec n m); [|done]. simpl. apply He. lia.
Qed.

Lemma bits_at_eq w v k m :
  0 ≤ k → 0 ≤ m → 0 ≤ v < 2 ^ m → (∀ n, k ≤ n < k + m → Z.testbit w n = Z.testbit v (n - k)) →
  bits_at w k m = v.
Proof.
  intros Hk Hm Hv He. apply Z.bits_inj'. intros n Hn. rewrite bits_at_spec by done.
  destruct (Z.ltb_spec n m); simpl; [rewrite He by lia; f_equal; lia|].
  symmetry. destruct (Z.eq_dec v 0) as [->|]; [apply Z.bits_0|].
  apply Z.bits_above_log2; [lia|]. assert (Z.log2 v < m) by (apply Z.log2_lt_pow2; lia). lia.
Qed.

(** ** Attributes as fields *)

Record attributes_ok (a : Attributes) : Prop := {
  ao_style : u32 (style_and_foreground a);
  ao_state : u32 (state_and_background a);
  ao_reserved : Z.testbit (style_and_foreground a) 3 = false;
  ao_underline : 0 ≤ color_value (underline_color a) ≤ COLOR_MASK;
}.

Definition color_ok (c : Color) : Prop := 0 ≤ color_value c ≤ COLOR_MASK.

Definition flag_bit (f : flag) : Z :=
  match f with
  | Bold | Clean => 0 | Dim => 1 | Italic => 2 | Strikethrough => 4
  | Blink | Confined => 5 | Conceal | Selected => 6 | Reverse | Url => 7
  end.

Lemma flag_mask_bit f : flag_mask f = 2 ^ flag_bit f.
Proof. by destruct f. Qed.

Lemma flag_bit_range f : 0 ≤ flag_bit f < 8.
Proof. destruct f; simpl; lia. Qed.

Lemma get_flag_bit f a :
  get_flag f a =
  Z.testbit (if flag_in_style f then style_and_foreground a else state_and_background a) (flag_bit f).
Proof. unfold get_flag. rewrite flag_mask_bit, test_mask; [done|]. apply flag_bit_range. Qed.

Lemma foreground_bits a :
  foreground a = (λ s, {| source := s; color_value := bits_at (style_and_foreground a) 8 24 |}) <$>
    from_bits (Z.shiftr (state_and_background a) 1).
Proof. done. Qed.

Lemma background_bits a :
  background a = (λ s, {| source := s; color_value := bits_at (state_and_background a) 8 24 |}) <$>
    from_bits (Z.shiftr (state_and_background a) 3).
Proof. done. Qed.

Lemma from_bits_at w k : from_bits (Z.shiftr w k) =
  match bits_at w k 2 with
  | 0 => Some DefaultColor | 1 => Some Base16 | 2 => Some Base256 | 3 => Some Rgb | _ => None
  end.
Proof. done. Qed.

Lemma from_bits_total w k : is_Some (from_bits (Z.shiftr w k)).
Proof.
  rewrite from_bits_at. unfold bits_at. rewrite Z.land_ones by lia.
  pose proof (Z.mod_pos_bound (Z.shiftr w k) (2 ^ 2)) as H. change (2 ^ 2) with 4 in *.
  assert (Z.shiftr w k mod 4 = 0 ∨ Z.shiftr w k mod 4 = 1 ∨ Z.shiftr w k mod 4 = 2 ∨ Z.shiftr w k mod 4 = 3)
    as [->|[->|[->| ->]]] by lia; eauto.
Qed.

Lemma from_bits_same w w' k :
  0 ≤ k → (∀ n, k ≤ n < k + 2 → Z.testbit w n = Z.testbit w' n) →
  from_bits (Z.shiftr w k) = from_bits (Z.shiftr w' k).
Proof. intros Hk He. rewrite !from_bits_at. by rewrite (bits_at_ext w w') by (done || lia). Qed.

Lemma from_bits_source w k s :
  0 ≤ k → (∀ n, k ≤ n < k + 2 → Z.testbit w n = Z.testbit (source_bits s) (n - k)) →
  from_bits (Z.shiftr w k) = Some s.
Proof.
  intros Hk He. rewrite from_bits_at, (bits_at_eq w (source_bits s)); [by destruct s|lia|lia| |done].
  destruct s; simpl; lia.
Qed.

(** The words after each setter, bit by bit. *)
Lemma shifted_mask_bits m k n :
  0 ≤ k → 0 ≤ m → 0 ≤ n → Z.testbit (Z.shiftl (Z.ones m) k) n = (k <=? n) && (n <? k + m).
Proof.
  intros Hk Hm Hn. destruct (Z.leb_spec k n); simpl.
  - rewrite Z.shiftl_spec_high, Z.testbit_ones_nonneg by lia.
    destruct (Z.ltb_spec (n - k) m), (Z.ltb_spec n (k + m)); done || lia.
  - by apply Z.shiftl_spec_low.
Qed.

Lemma color_word c : color_ok c → wrap32 (Z.shiftl (color_value c) 8) = Z.shiftl (color_value c) 8.
Proof.
  intros Hc. unfold wrap32, color_ok, COLOR_MASK in *. apply Z.mod_small.
  rewrite Z.shiftl_mul_pow2 by lia. lia.
Qed.

Lemma shiftl_bits v k n :
  0 ≤ k → 0 ≤ n → Z.testbit (Z.shiftl v k) n = (k <=? n) && Z.testbit v (n - k).
Proof.
  intros Hk Hn. destruct (Z.leb_spec k n); simpl.
  - by apply Z.shiftl_spec_high.
  - by apply Z.shiftl_spec_low.
Qed.

Lemma small_high v m n : 0 ≤ v < 2 ^ m → 0 ≤ m ≤ n → Z.testbit v n = false.
Proof.
  intros Hv Hm. destruct (Z.eq_dec v 0) as [->|]; [apply Z.bits_0|].
  apply Z.bits_above_log2; [lia|]. assert (Z.log2 v < m) by (apply Z.log2_lt_pow2; lia). lia.
Qed.

Lemma source_high s n : 2 ≤ n → Z.testbit (source_bits s) n = false.
Proof. intros Hn. apply (small_high _ 2); [destruct s; simpl; lia|lia]. Qed.

Lemma foreground_style_bits c a n :
  attributes_ok a → color_ok c → 0 ≤ n →
  Z.testbit (style_and_foreground (set_foreground c a)) n =
    if n <? 8 then Z.testbit (style_and_foreground a) n else Z.testbit (color_value c) (n - 8).
Proof.
  intros Ha Hc Hn. unfold set_foreground. cbn [style_and_foreground set_style_word set_state_word].
  unfold FOREGROUND_SHIFT. rewrite color_word by done.
  rewrite Z.lor_spec, land_not32_bits by (done || apply Ha).
  change COLOR_MASK with (Z.ones 24). rewrite shifted_mask_bits, shiftl_bits by lia.
  destruct (Z.leb_spec 8 n), (Z.ltb_spec n 8), (Z.ltb_spec n (8 + 24)); simpl; try lia;
    rewrite ?andb_false_r, ?andb_true_r, ?orb_false_r, ?orb_false_l; try done.
  rewrite (u32_high (style_and_foreground a)) by (apply Ha || lia).
  by rewrite (small_high (color_value c) 24) by (unfold color_ok, COLOR_MASK in Hc; lia).
Qed.

Lemma foreground_state_bits c a n :
  attributes_ok a → 0 ≤ n →
  Z.testbit (state_and_background (set_foreground c a)) n =
    if (1 <=? n) && (n <? 3) then Z.testbit (source_bits (source c)) (n - 1)
    else Z.testbit (state_and_background a) n.
Proof.
  intros Ha Hn. unfold set_foreground. cbn [state_and_background set_style_word set_state_word].
  unfold FOREGROUND_SOURCE_SHIFT. rewrite Z.lor_spec, land_not32_bits by (done || apply Ha).
  change SOURCE_MASK with (Z.ones 2). rewrite shifted_mask_bits, shiftl_bits by lia.
  destruct (Z.leb_spec 1 n), (Z.ltb_spec n (1 + 2)), (Z.ltb_spec n 3); simpl; try lia;
    rewrite ?andb_false_r, ?andb_true_r, ?orb_false_r, ?orb_false_l; try done.
  by rewrite source_high, orb_false_r by lia.
Qed.

Lemma background_state_bits c a n :
  attributes_ok a → color_ok c → 0 ≤ n →
  Z.testbit (state_and_background (set_background c a)) n =
    if 8 <=? n then Z.testbit (color_value c) (n - 8)
    else if (3 <=? n) && (n <? 5) then Z.testbit (source_bits (source c)) (n - 3)
    else Z.testbit (state_and_background a) n.
Proof.
  intros Ha Hc Hn. unfold set_background. cbn [state_and_background set_state_word].
  unfold BACKGROUND_SHIFT, BACKGROUND_SOURCE_SHIFT. rewrite color_word by done.
  rewrite !Z.lor_spec, land_not32_bits by (done || apply Ha). rewrite Z.lor_spec.
  change COLOR_MASK with (Z.ones 24). change SOURCE_MASK with (Z.ones 2).
  rewrite !shifted_mask_bits, !shiftl_bits by lia.
  destruct (Z.leb_spec 8 n), (Z.leb_spec 3 n), (Z.ltb_spec n (8 + 24)), (Z.ltb_spec n (3 + 2)),
    (Z.ltb_spec n 5); simpl; try lia;
    rewrite ?andb_false_r, ?andb_true_r, ?orb_false_r, ?orb_false_l; try done.
  - by rewrite source_high, orb_false_r by lia.
  - rewrite source_high by lia. rewrite (u32_high (state_and_background a)) by (apply Ha || lia).
    by rewrite (small_high (color_value c) 24) by (unfold color_ok, COLOR_MASK in Hc; lia).
  - by rewrite source_high, orb_false_r by lia.
Qed.

(** ** The setters keep the invariant *)

Lemma set_flag_ok f b a : attributes_ok a → attributes_ok (set_flag f b a).
Proof.
  intros [H1 H2 H3 H4]. unfold set_flag. rewrite flag_mask_bit. pose proof (flag_bit_range f).
  destruct (flag_in_style f) eqn:Hf; split;
    cbn [set_style_word set_state_word style_and_foreground state_and_background underline_color];
    try done; try (apply set_bit_u32; [done|lia]).
  rewrite set_bit_bits by (done || lia). destruct (Z.eqb_spec 3 (flag_bit f)); [|done]. by destruct f.
Qed.

Lemma set_foreground_ok c a : attributes_ok a → color_ok c → attributes_ok (set_foreground c a).
Proof.
  intros Ha Hc. split; [| | |apply Ha].
  - apply u32_of_bits.
    + unfold set_foreground. simpl. apply Z.lor_nonneg. split;
        [apply Z.land_nonneg; left; apply Ha|apply Z.mod_pos_bound; lia].
    + intros n Hn. rewrite foreground_style_bits by (done || lia). rewrite (proj2 (Z.ltb_ge _ _)) by lia.
      apply (small_high _ 24); unfold color_ok, COLOR_MASK in Hc; lia.
  - apply u32_of_bits.
    + unfold set_foreground. simpl. apply Z.lor_nonneg. split;
        [apply Z.land_nonneg; left; apply Ha|apply Z.shiftl_nonneg; by destruct (source c)].
    + intros n Hn. rewrite foreground_state_bits by (done || lia).
      rewrite (proj2 (Z.ltb_ge n 3)), andb_false_r by lia. apply u32_high; [apply Ha|done].
  - rewrite foreground_style_bits by done. apply Ha.
Qed.

Lemma set_background_ok c a : attributes_ok a → color_ok c → attributes_ok (set_background c a).
Proof.
  intros Ha Hc. split; [apply Ha| |apply Ha|apply Ha]. apply u32_of_bits.
  - unfold set_background. simpl. apply Z.lor_nonneg. split; [apply Z.lor_nonneg; split|].
    + apply Z.land_nonneg; left; apply Ha.
    + apply Z.mod_pos_bound. lia.
    + apply Z.shiftl_nonneg. by destruct (source c).
  - intros n Hn. rewrite background_state_bits by (done || lia). rewrite (proj2 (Z.leb_le 8 n)) by lia.
    apply (small_high _ 24); unfold color_ok, COLOR_MASK in Hc; lia.
Qed.

(** What a checkpoint requires of attributes is the invariant. *)
Lemma land_not32_zero w m :
  u32 w → Z.land w (not32 m) = 0 ↔ ∀ n, 0 ≤ n < 32 → Z.testbit w n = true → Z.testbit m n = true.
Proof.
  intros Hw. split.
  - intros H0 n Hn Hb. pose proof (land_not32_bits w m n Hw ltac:(lia)) as H1.
    rewrite H0, Z.bits_0, Hb in H1. simpl in H1. by destruct (Z.testbit m n).
  - intros H. apply Z.bits_inj'. intros n Hn. rewrite land_not32_bits, Z.bits_0 by done.
    destruct (Z.testbit w n) eqn:Hb; [|done]. destruct (Z.lt_ge_cases n 32).
    + by rewrite H.
    + by rewrite u32_high in Hb.
Qed.

Lemma style_mask_bits n : 0 ≤ n < 32 → Z.testbit style_mask n = negb (n =? 3).
Proof.
  intros Hn. assert (style_mask = not32 (2 ^ 3)) as -> by done. unfold not32.
  rewrite Z.lxor_spec, Z.pow2_bits_eqb, u32_max_ones, Z.testbit_ones_nonneg by lia.
  rewrite (proj2 (Z.ltb_lt n 32)), xorb_true_r, (Z.eqb_sym 3 n) by lia. done.
Qed.

Lemma checkpoint_attributes_ok a :
  u32 (style_and_foreground a) → u32 (state_and_background a) → 0 ≤ color_value (underline_color a) →
  attributes_checkpoint_is_valid a = true ↔ attributes_ok a.
Proof.
  intros Hs Ht Hu. unfold attributes_checkpoint_is_valid.
  rewrite !andb_true_iff, !Z.eqb_eq, Z.leb_le, !land_not32_zero by done. split.
  - intros [[H1 _] H3]. split; try done. destruct (Z.testbit _ 3) eqn:Hb; [|done].
    specialize (H1 3 ltac:(lia) Hb). by rewrite style_mask_bits in H1 by lia.
  - intros [_ _ H3 H4]. split_and!; [| |lia].
    + intros n Hn Hb. rewrite style_mask_bits by lia. destruct (Z.eqb_spec n 3) as [->|]; [congruence|done].
    + intros n Hn _. assert (state_mask = Z.ones 32) as -> by done. rewrite Z.testbit_ones_nonneg by lia. lia.
Qed.

(** Every attribute setter keeps the attributes valid for a checkpoint:
    the reserved bit stays clear, both words stay 32-bit, the underline color
    stays 24-bit. *)
Theorem attribute_setters_checkpoint a f b c u :
  attributes_ok a → color_ok c →
  attributes_checkpoint_is_valid (set_flag f b a) = true ∧
  attributes_checkpoint_is_valid (set_foreground c a) = true ∧
  attributes_checkpoint_is_valid (set_background c a) = true ∧
  attributes_checkpoint_is_valid (set_underline_style u a) = true ∧
  attributes_checkpoint_is_valid (set_underline_color c a) = true.
Proof.
  intros Ha Hc. assert (∀ a', attributes_ok a' → attributes_checkpoint_is_valid a' = true) as H.
  { intros a' Ha'. apply checkpoint_attributes_ok; apply Ha'. }
  split_and!; apply H; [by apply set_flag_ok|by apply set_foreground_ok|by apply set_background_ok|..];
    destruct Ha; by split.
Qed.

(** A color is read from the words it lives in. *)
Definition color_at (v_word s_word k : Z) : option Color :=
  (λ s, {| source := s; color_value := bits_at v_word 8 24 |}) <$> from_bits (Z.shiftr s_word k).

Lemma color_at_same v v' s s' k :
  0 ≤ k → (∀ n, 8 ≤ n < 32 → Z.testbit v n = Z.testbit v' n) →
  (∀ n, k ≤ n < k + 2 → Z.testbit s n = Z.testbit s' n) → color_at v s k = color_at v' s' k.
Proof.
  intros Hk Hv Hs. unfold color_at. rewrite (bits_at_ext v v') by (intros; try apply Hv; lia).
  by rewrite (from_bits_same s s').
Qed.

Lemma color_at_eq v s k c :
  0 ≤ k → color_ok c → (∀ n, 8 ≤ n < 32 → Z.testbit v n = Z.testbit (color_value c) (n - 8)) →
  (∀ n, k ≤ n < k + 2 → Z.testbit s n = Z.testbit (source_bits (source c)) (n - k)) →
  color_at v s k = Some c.
Proof.
  intros Hk Hc Hv Hs. unfold color_at. rewrite (from_bits_source _ _ (source c)) by done.
  rewrite (bits_at_eq v (color_value c)); [by destruct c|lia|lia| |intros; apply Hv; lia].
  unfold color_ok, COLOR_MASK in Hc. lia.
Qed.

Lemma foreground_at a :
  foreground a = color_at (style_and_foreground a) (state_and_background a) 1.
Proof. done. Qed.

Lemma background_at a :
  background a = color_at (state_and_background a) (state_and_background a) 3.
Proof. done. Qed.

Lemma set_flag_colors f b a :
  attributes_ok a →
  foreground (set_flag f b a) = foreground a ∧ background (set_flag f b a) = background a.
Proof.
  intros Ha. pose proof (flag_bit_range f). rewrite !foreground_at, !background_at. unfold set_flag.
  rewrite flag_mask_bit.
  destruct (flag_in_style f) eqn:Hf;
    cbn [set_style_word set_state_word style_and_foreground state_and_background];
    split; apply color_at_same; try done; try lia; intros n Hn;
    rewrite set_bit_bits by (apply Ha || lia); rewrite (proj2 (Z.eqb_neq n _)); try done; try lia;
    destruct f; simpl in *; done || lia.
Qed.

Lemma set_foreground_fields c a :
  attributes_ok a → color_ok c →
  foreground (set_foreground c a) = Some c ∧ background (set_foreground c a) = background a ∧
  ∀ g, get_flag g (set_foreground c a) = get_flag g a.
Proof.
  intros Ha Hc. split_and!.
  - rewrite foreground_at. apply color_at_eq; [lia|done|..]; intros n Hn.
    + rewrite foreground_style_bits by (done || lia). by rewrite (proj2 (Z.ltb_ge _ _)) by lia.
    + rewrite foreground_state_bits by (done || lia).
      by rewrite (proj2 (Z.leb_le 1 n)), (proj2 (Z.ltb_lt n 3)) by lia.
  - rewrite !background_at. apply color_at_same; [lia|..]; intros n Hn;
      rewrite foreground_state_bits by (done || lia);
      by rewrite (proj2 (Z.ltb_ge n 3)), andb_false_r by lia.
  - intros g. rewrite !get_flag_bit. pose proof (flag_bit_range g).
    destruct (flag_in_style g) eqn:Hg.
    + rewrite foreground_style_bits by (done || lia). by rewrite (proj2 (Z.ltb_lt _ 8)) by lia.
    + rewrite foreground_state_bits by (done || lia). by destruct g.
Qed.

Lemma set_background_fields c a :
  attributes_ok a → color_ok c →
  background (set_background c a) = Some c ∧ foreground (set_background c a) = foreground a ∧
  ∀ g, get_flag g (set_background c a) = get_flag g a.
Proof.
  intros Ha Hc. split_and!.
  - rewrite background_at. apply color_at_eq; [lia|done|..]; intros n Hn;
      rewrite background_state_bits by (done || lia).
    + by rewrite (proj2 (Z.leb_le 8 n)) by lia.
    + by rewrite (proj2 (Z.leb_gt 8 n)), (proj2 (Z.leb_le 3 n)), (proj2 (Z.ltb_lt n 5)) by lia.
  - rewrite !foreground_at. apply color_at_same; [lia|done|]. intros n Hn.
    rewrite background_state_bits by (done || lia).
    by rewrite (proj2 (Z.leb_gt 8 n)), (proj2 (Z.leb_gt 3 n)) by lia.
  - intros g. rewrite !get_flag_bit. pose proof (flag_bit_range g).
    destruct (flag_in_style g) eqn:Hg; [done|].
    rewrite background_state_bits by (done || lia). by destruct g.
Qed.

(** The packed attributes are independent fields: writing a flag changes
    that flag only, writing the foreground or the background stores exactly
    the given color and leaves the other color and all eleven flags alone. *)
Theorem attributes_are_independent_fields a f b c :
  attributes_ok a → color_ok c →
  (∀ g, get_flag g (set_flag f b a) = if decide (g = f) then b else get_flag g a) ∧
  (foreground (set_flag f b a) = foreground a ∧ background (set_flag f b a) = background a) ∧
  (foreground (set_foreground c a) = Some c ∧ background (set_foreground c a) = background a ∧
   ∀ g, get_flag g (set_foreground c a) = get_flag g a) ∧
  (background (set_background c a) = Some c ∧ foreground (set_background c a) = foreground a ∧
   ∀ g, get_flag g (set_background c a) = get_flag g a).
Proof.
  intros Ha Hc. split_and!; try by (apply set_flag_colors || apply set_foreground_fields || apply set_background_fields).
  intros g. rewrite !get_flag_bit. unfold set_flag. rewrite flag_mask_bit.
  pose proof (flag_bit_range f). pose proof (flag_bit_range g).
  destruct (flag_in_style f) eqn:Hf, (flag_in_style g) eqn:Hg;
    cbn [set_style_word set_state_word style_and_foreground state_and_background];
    rewrite ?set_bit_bits by (apply Ha || lia); destruct f, g; done.
Qed.

Lemma attributes_are_independent_fields_witness :
  let a := Attributes_default in
  let c := {| source := Base256; color_value := 200 |} in
  (∀ g, get_flag g (set_flag Bold true a) = if decide (g = Bold) then true else get_flag g a) ∧
  (foreground (set_flag Bold true a) = foreground a ∧ background (set_flag Bold true a) = background a) ∧
  (foreground (set_foreground c a) = Some c ∧ background (set_foreground c a) = background a ∧
   ∀ g, get_flag g (set_foreground c a) = get_flag g a) ∧
  (background (set_background c a) = Some c ∧ foreground (set_background c a) = foreground a ∧
   ∀ g, get_flag g (set_background c a) = get_flag g a).
Proof.
  apply attributes_are_independent_fields; [split; vm_compute; by try split|vm_compute; by split].
Defined.

Lemma attribute_setters_checkpoint_witness :
  let a := Attributes_default in
  let c := {| source := Rgb; color_value := 0xffffff |} in
  attributes_checkpoint_is_valid (set_flag Url true a) = true ∧
  attributes_checkpoint_is_valid (set_foreground c a) = true ∧
  attributes_checkpoint_is_valid (set_background c a) = true ∧
  attributes_checkpoint_is_valid (set_underline_style Curly a) = true ∧
  attributes_checkpoint_is_valid (set_underline_color c a) = true.
Proof.
  apply attribute_setters_checkpoint; [split; vm_compute; by try split|vm_compute; by split].
Defined.

(** ** Content *)

(** The contents a cell can hold. *)
Definition content_ok (c : CellContent) : Prop :=
  match c with
  | Empty => True
  | Scalar ch => is_scalar ch = true ∧ ch ≠ 0
  | Composed key => 0 ≤ key ≤ COMPOSED_KEY_MAX
  | Spacer remaining => 0 ≤ remaining ≤ u32_max - SPACER_BASE
  end.

(** Content round trip: storing any content a cell can hold succeeds, keeps
    the attributes, fits the 32-bit word and reads back as the same content; a
    cell is a spacer exactly when it was given spacer content. *)
Theorem content_round_trip cell c :
  content_ok c →
  ∃ cell', set_content c cell = Ok cell' ∧ content cell' = Ok c ∧
    attributes cell' = attributes cell ∧ u32 (cell_content cell') ∧
    is_spacer cell' = match c with Spacer _ => true | _ => false end.
Proof.
  intros Hc. unfold set_content, content, is_spacer, u32.
  destruct c as [|ch|key|n]; simpl in *.
  - eexists. split; [done|]. done.
  - destruct Hc as [Hs Hn]. rewrite (proj2 (Z.eqb_neq ch 0)) by done. eexists. split; [done|]. simpl.
    rewrite (proj2 (Z.eqb_neq ch 0)), Hs by done. unfold is_scalar in Hs.
    unfold COMPOSED_BASE, SPACER_BASE, COMPOSED_END, COMPOSED_KEY_MAX, u32_max, COMPOSED_BASE.
    rewrite (proj2 (Z.ltb_lt ch _)) by lia. split_and!; [done|done|lia|lia|lia].
  - rewrite (proj2 (Z.leb_le _ _)) by lia. eexists. split; [done|]. simpl.
    unfold COMPOSED_BASE, SPACER_BASE, COMPOSED_END, COMPOSED_KEY_MAX, u32_max, COMPOSED_BASE in *.
    rewrite (proj2 (Z.eqb_neq _ 0)), (proj2 (Z.ltb_ge _ _)), (proj2 (Z.leb_le _ _)) by lia.
    split_and!; [do 2 f_equal; lia|done|lia|lia|lia].
  - rewrite (proj2 (Z.leb_le _ _)) by lia. eexists. split; [done|]. simpl.
    unfold COMPOSED_BASE, SPACER_BASE, COMPOSED_END, COMPOSED_KEY_MAX, u32_max, COMPOSED_BASE in *.
    rewrite (proj2 (Z.eqb_neq _ 0)), (proj2 (Z.ltb_ge _ _)), (proj2 (Z.leb_gt _ _)) by lia.
    split_and!; [do 2 f_equal; lia|done|lia|lia|lia].
Qed.

Lemma content_round_trip_witness :
  ∃ cell', set_content (Spacer 1) Cell_default = Ok cell' ∧ content cell' = Ok (Spacer 1) ∧
    attributes cell' = Attributes_default ∧ u32 (cell_content cell') ∧ is_spacer cell' = true.
Proof. apply (content_round_trip Cell_default (Spacer 1)). vm_compute. by split. Defined.

(** ** Checkpoint encoding *)

Record cell_words_ok (cell : Cell) : Prop := {
  cw_content : u32 (cell_content cell);
  cw_style : u32 (style_and_foreground (attributes cell));
  cw_state : u32 (state_and_background (attributes cell));
  cw_color : u32 (color_value (underline_color (attributes cell)));
}.

Definition is_byte (b : Z) : Prop := 0 ≤ b < 256.

Lemma le_bytes_word w :
  u32 w → from_le_bytes (w mod 256) (w / 256 mod 256) (w / 65536 mod 256) (w / 16777216 mod 256) = w.
Proof. unfold u32, u32_max, from_le_bytes. intros Hw. Z.div_mod_to_equations. lia. Qed.

Lemma word_le_bytes b0 b1 b2 b3 :
  is_byte b0 → is_byte b1 → is_byte b2 → is_byte b3 →
  to_le_bytes (from_le_bytes b0 b1 b2 b3) = [b0; b1; b2; b3] ∧ u32 (from_le_bytes b0 b1 b2 b3).
Proof.
  unfold is_byte, to_le_bytes, from_le_bytes, u32, u32_max. intros H0 H1 H2 H3. split; [|lia].
  repeat f_equal; symmetry.
  - apply Z.mod_unique with (b1 + 256 * b2 + 65536 * b3); lia.
  - rewrite <-(Z.div_unique (b0 + 256 * b1 + 65536 * b2 + 16777216 * b3) 256 (b1 + 256 * b2 + 65536 * b3) b0) by lia.
    apply Z.mod_unique with (b2 + 256 * b3); lia.
  - rewrite <-(Z.div_unique (b0 + 256 * b1 + 65536 * b2 + 16777216 * b3) 65536 (b2 + 256 * b3) (b0 + 256 * b1)) by lia.
    apply Z.mod_unique with b3; lia.
  - rewrite <-(Z.div_unique (b0 + 256 * b1 + 65536 * b2 + 16777216 * b3) 16777216 b3 (b0 + 256 * b1 + 65536 * b2)) by lia.
    apply Z.mod_unique with 0; lia.
Qed.

Lemma write_checkpoint_bytes cell :
  cell_words_ok cell →
  length (write_checkpoint cell) = 18%nat ∧ Forall is_byte (write_checkpoint cell) ∧
  read_checkpoint (write_checkpoint cell) = Some cell.
Proof.
  destruct cell as [c [w1 w2 u [s v]]]. intros [H1 H2 H3 H4]; simpl in *. split; [done|]. split.
  - unfold write_checkpoint, to_le_bytes. cbn [app].
    repeat (constructor; [try (apply Z.mod_pos_bound; lia)|]); try constructor;
      simpl; unfold is_byte; first [destruct u; simpl; lia|destruct s; simpl; lia].
  - unfold read_checkpoint, write_checkpoint, to_le_bytes, byte_at. cbn.
    rewrite !le_bytes_word by done. by destruct u, s.
Qed.

(** The checkpoint encoding of cells: writing a cell gives eighteen bytes
    that read back as the same cell, and any eighteen bytes the reader accepts
    are the encoding of the cell it returns. *)
Theorem cell_checkpoint_round_trip :
  (∀ cell, cell_words_ok cell →
     Z.of_nat (length (write_checkpoint cell)) = CHECKPOINT_CELL_BYTES ∧
     Forall is_byte (write_checkpoint cell) ∧
     read_checkpoint (write_checkpoint cell) = Some cell) ∧
  (∀ bytes cell, Z.of_nat (length bytes) = CHECKPOINT_CELL_BYTES → Forall is_byte bytes →
     read_checkpoint bytes = Some cell → write_checkpoint cell = bytes ∧ cell_words_ok cell).
Proof.
  split.
  - intros cell Hc. destruct (write_checkpoint_bytes cell Hc) as (-> & Hb & Hr). done.
  - intros bytes cell Hl Hb Hr. unfold CHECKPOINT_CELL_BYTES in Hl.
    do 18 (destruct bytes as [|? bytes]; [simpl in Hl; lia|]). destruct bytes; [|simpl in Hl; lia].
    repeat match goal with H : Forall _ (_ :: _) |- _ => apply Forall_cons in H as [? H] end.
    unfold read_checkpoint, byte_at in Hr. cbn in Hr.
    repeat case_match; simplify_eq/=; unfold write_checkpoint; cbn -[to_le_bytes from_le_bytes];
      rewrite !(λ a b c d Ha Hb Hc Hd, proj1 (word_le_bytes a b c d Ha Hb Hc Hd)) by done;
      (split; [done|]); split; simpl; by apply word_le_bytes.
Qed.

Lemma cell_checkpoint_round_trip_witness :
  Z.of_nat (length (write_checkpoint Cell_default)) = CHECKPOINT_CELL_BYTES ∧
  Forall is_byte (write_checkpoint Cell_default) ∧
  read_checkpoint (write_checkpoint Cell_default) = Some Cell_default.
Proof. apply (proj1 cell_checkpoint_round_trip). split; vm_compute; by split. Defined.
