(* ===== verification/Row.v ===== *)
(** * Rows ([splinterm-terminal/src/row.rs])

    A row of cells with its dirty and linebreak flags. Columns are list
    positions, spacer payloads integers. The [while] loops run on fuel and
    return [Err OutOfFuel] when it does not suffice, so [Ok] says that the loop
    ended. [content()] is read through [spacer_of]: the cells of a row hold
    contents ([content_round_trip]), on which it does not panic. *)

From stdpp Require Import base list.
From S2P Require Import Prelude RustStd Cell.

#[local] Open Scope Z_scope.

Inductive unfinished := OutOfFuel.

Record Row := { cells : list Cell; dirty : bool; linebreak : bool }.

#[export] Instance Row_eq_dec : EqDecision Row.
Proof. solve_decision. Defined.

Definition MAX_CHECKPOINT_COLUMNS : Z := Z.shiftl 1 16.

(** ** Construction and access *)

Definition set_clean_cell (b : bool) (c : Cell) : Cell :=
  set_attributes (set_flag Clean b (attributes c)) c.

Definition mark_cells_clean (r : Row) : Row :=
  {| cells := set_clean_cell true <$> cells r; dirty := dirty r; linebreak := linebreak r |}.

Definition Row_new (columns : nat) : Row :=
  mark_cells_clean {| cells := replicate columns Cell_default; dirty := false; linebreak := true |}.

Definition Row_new_dirty (columns : nat) : Row :=
  {| cells := replicate columns Cell_default; dirty := true; linebreak := true |}.

Definition from_cells (cs : list Cell) (linebreak dirty : bool) : Row :=
  {| cells := cs; dirty := dirty; linebreak := linebreak |}.

Definition row_len (r : Row) : nat := length (cells r).

(** The slice [cells_mut] returns. *)
Definition cells_mut (r : Row) : Row :=
  {| cells := set_clean_cell false <$> cells r; dirty := true; linebreak := linebreak r |}.

(** [&mut row[index]], before anything is written. *)
Definition index_mut (index : nat) (r : Row) : outcome unfinished Row :=
  if bool_decide (index < row_len r)%nat then
    Ok {| cells := alter (set_clean_cell false) index (cells r); dirty := true;
          linebreak := linebreak r |}
  else Panic.

Definition set_dirty (b : bool) (r : Row) : Row :=
  {| cells := cells r; dirty := b; linebreak := linebreak r |}.

Definition set_linebreak (b : bool) (r : Row) : Row :=
  {| cells := cells r; dirty := dirty r; linebreak := b |}.

Definition set_cells (cs : list Cell) (r : Row) : Row :=
  {| cells := cs; dirty := dirty r; linebreak := linebreak r |}.

Definition reset (r : Row) : Row :=
  set_linebreak true (set_dirty false
    (mark_cells_clean (set_cells ((λ _, Cell_default) <$> cells r) r))).

(** ** Wide cells *)

(** [CellContent::Spacer(n)]'s payload. *)
Definition spacer_of (c : Cell) : option Z :=
  match content c with Ok (Spacer n) => Some n | _ => None end.

Definition spacer_at (cs : list Cell) (i : nat) : option Z := cs !! i ≫= spacer_of.

(** [matches!(content, Spacer(remaining) if remaining > 0)]. *)
Definition continues (cs : list Cell) (i : nat) : bool :=
  match spacer_at cs i with Some n => 0 <? n | None => false end.

Definition assert_range (start stop : nat) (r : Row) : bool :=
  bool_decide (start ≤ stop)%nat && bool_decide (stop ≤ row_len r)%nat.

(** The width the cell at [column] claims through its right neighbour. *)
Definition group_width (cs : list Cell) (column : nat) : Z :=
  match spacer_at cs (S column) with
  | Some remaining => if 0 <? remaining then Z.min (remaining + 1) usize_max else 1
  | None => 1
  end.

(** [(1..width).all(|offset| content == Spacer(width - offset))]. *)
Definition descends (cs : list Cell) (column : nat) (width : Z) : bool :=
  forallb (λ offset, bool_decide (spacer_at cs (column + offset) = Some (width - Z.of_nat offset)))
    (seq 1 (Z.to_nat width - 1)).

Definition group_valid (cs : list Cell) (column : nat) (width : Z) : bool :=
  let stop := Z.min (Z.of_nat column + width) (Z.of_nat (length cs)) in
  if (1 <? width) && (stop - Z.of_nat column =? width) then descends cs column width else false.

(** [for cell in &mut self.cells[start..stop] { *cell = f(cell) }]. *)
Definition map_range (f : Cell → Cell) (start stop : nat) (cs : list Cell) : list Cell :=
  take start cs ++ (f <$> take (stop - start) (drop start cs)) ++ drop stop cs.

Fixpoint clear_loop (fuel column start stop : nat) (r : Row) : outcome unfinished Row :=
  if bool_decide (row_len r ≤ column)%nat then Ok r
  else
    match fuel with
    | O => Err OutOfFuel
    | S fuel =>
        let width := group_width (cells r) column in
        let stop' := Z.to_nat (Z.min (Z.of_nat column + width) (Z.of_nat (row_len r))) in
        if group_valid (cells r) column width then
          let r := if bool_decide (column < stop)%nat && bool_decide (start < stop')%nat then
                     set_dirty true (set_cells (map_range (λ _, Cell_default) column stop' (cells r)) r)
                   else r in
          clear_loop fuel stop' start stop r
        else clear_loop fuel (S column) start stop r
    end.

(** Every round advances, so there are at most [row_len r] of them. *)
Definition clear_wide_intersections (start stop : nat) (r : Row) : outcome unfinished Row :=
  if assert_range start stop r then clear_loop (row_len r) 0 start stop r else Panic.

(** The inner loop of [has_valid_wide_cells]: the column after the run of
    continuations counting down from [expected]. *)
Fixpoint skip_continuations (fuel next : nat) (expected : Z) (cs : list Cell) : option nat :=
  if expected <=? 0 then Some next
  else
    match fuel with
    | O => None
    | S fuel =>
        if bool_decide (spacer_at cs next = Some expected)
        then skip_continuations fuel (S next) (expected - 1) cs else None
    end.

(** [fuel] bounds the columns left; a run longer than the row fails at its end. *)
Fixpoint valid_from (fuel column : nat) (cs : list Cell) : bool :=
  if bool_decide (length cs ≤ column)%nat then true
  else
    match fuel with
    | O => false
    | S fuel =>
        match spacer_at cs column with
        | Some n => if n =? 0 then valid_from fuel (S column) cs else false
        | None =>
            let next := S column in
            match spacer_at cs next with
            | None => valid_from fuel next cs
            | Some first =>
                if first =? 0 then valid_from fuel next cs
                else
                  match skip_continuations (S (length cs)) next first cs with
                  | None => false
                  | Some next => valid_from fuel next cs
                  end
            end
        end
    end.

Definition has_valid_wide_cells (r : Row) : bool := valid_from (row_len r) 0 (cells r).

(** [while leader > 0 && continuation at leader { leader -= 1 }]. *)
Fixpoint leader_of (cs : list Cell) (leader : nat) : nat :=
  match leader with
  | O => O
  | S l => if continues cs leader then leader_of cs l else leader
  end.

Definition clear_content (c : Cell) : Cell := {| cell_content := 0; attributes := attributes c |}.

Fixpoint repair_loop (fuel column : nat) (cs : list Cell) : outcome unfinished (list Cell) :=
  if bool_decide (length cs ≤ column)%nat then Ok cs
  else
    match fuel with
    | O => Err OutOfFuel
    | S fuel =>
        match spacer_at cs column with
        | None => repair_loop fuel (S column) cs
        | Some remaining =>
            if remaining =? 0 then repair_loop fuel (S column) cs
            else
              let leader := leader_of cs column in
              let expected_width := Z.min (remaining + 1) usize_max in
              let stop := Z.of_nat leader + expected_width in
              let fits := (stop <=? usize_max) && (stop <=? Z.of_nat (length cs)) in
              if bool_decide (leader < column)%nat
                 && (if fits then descends cs leader expected_width else false)
              then repair_loop fuel (Z.to_nat stop) cs
              else repair_loop fuel (S column) (alter clear_content column cs)
        end
    end.

(** A round that advances leaves fewer columns; [row_len r] rounds suffice for
    a loop that always advances. *)
Definition repair_wide_cells (r : Row) : outcome unfinished Row :=
  map_ok (λ cs, set_cells cs r) (repair_loop (row_len r) 0 (cells r)).

(** ** Editing *)

Definition erase (start stop : nat) (background : Color) (r : Row) : outcome unfinished Row :=
  if assert_range start stop r then
    let? r := clear_wide_intersections start stop r in
    let attributes := set_background background Attributes_default in
    Ok (set_dirty true (set_cells
      (map_range (λ _, set_attributes attributes Cell_default) start stop (cells r)) r))
  else Panic.

Definition erase_all (background : Color) (r : Row) : outcome unfinished Row :=
  map_ok (set_linebreak true) (erase 0 (row_len r) background r).

(** [fill]; a content no cell can hold panics at the first cell of the range. *)
Definition fill (start stop : nat) (c : CellContent) (attrs : Attributes) (r : Row)
    : outcome unfinished Row :=
  if assert_range start stop r then
    let? r := clear_wide_intersections start stop r in
    match encode_content c with
    | Ok w =>
        let cell := {| cell_content := w; attributes := set_flag Clean false attrs |} in
        Ok (set_dirty true (set_cells (map_range (λ _, cell) start stop (cells r)) r))
    | _ => if bool_decide (start = stop) then Ok (set_dirty true r) else Panic
    end
  else Panic.

(** [copy_within(start..stop, dest)]. *)
Definition copy_within (start stop dest : nat) (cs : list Cell) : list Cell :=
  take dest cs ++ take (stop - start) (drop start cs) ++ drop (dest + (stop - start)) cs.

Definition insert_cells (column count : nat) (background : Color) (r : Row)
    : outcome unfinished Row :=
  if bool_decide (column < row_len r)%nat then
    let count := Nat.min count (row_len r - column) in
    if bool_decide (count = 0)%nat then Ok r
    else
      let? r := clear_wide_intersections column (column + 1) r in
      let truncation := (row_len r - count)%nat in
      let? r := if bool_decide (truncation < row_len r)%nat
                then clear_wide_intersections truncation (truncation + 1) r else Ok r in
      let stop := (row_len r - count)%nat in
      let r := set_cells (copy_within column stop (column + count) (cells r)) r in
      let? r := erase column (column + count) background r in
      repair_wide_cells r
  else Panic.

Definition delete_cells (column count : nat) (background : Color) (r : Row)
    : outcome unfinished Row :=
  if bool_decide (column < row_len r)%nat then
    let count := Nat.min count (row_len r - column) in
    if bool_decide (count = 0)%nat then Ok r
    else
      let? r := clear_wide_intersections column (column + count) r in
      let? r := if bool_decide (column + count < row_len r)%nat
                then clear_wide_intersections (column + count) (column + count + 1) r else Ok r in
      let r := set_cells (copy_within (column + count) (row_len r) column (cells r)) r in
      let? r := erase (row_len r - count) (row_len r) background r in
      repair_wide_cells r
  else Panic.

Definition resize_without_reflow (columns : nat) (r : Row) : Row :=
  let old_columns := row_len r in
  if bool_decide (old_columns < columns)%nat then
    set_dirty true (set_cells (cells r ++ replicate (columns - old_columns) Cell_default) r)
  else if bool_decide (columns < old_columns)%nat then
    let r := if bool_decide (0 < columns)%nat && continues (cells r) columns then
               set_cells (map_range clear_content (leader_of (cells r) columns) columns (cells r)) r
             else r in
    set_cells (take columns (cells r)) r
  else r.

Definition row_checkpoint_is_valid (composed_entries : Z) (r : Row) : outcome unfinished bool :=
  if forallb (checkpoint_is_valid composed_entries) (cells r) then
    let? repaired := repair_wide_cells r in
    Ok (bool_decide (repaired = r))
  else Ok false.

(** ** Checkpoint encoding *)

(** The [base64] crate's standard engine. *)
Class Base64 := {
  base64_encode : list Z → list Z;
  base64_decode : list Z → option (list Z);
}.

Class Base64Laws `(B : Base64) : Prop := {
  base64_round_trip bytes : Forall (λ b, 0 ≤ b < 256) bytes →
    base64_decode (base64_encode bytes) = Some bytes;
  base64_length bytes :
    Z.of_nat (length (base64_encode bytes)) = (Z.of_nat (length bytes) + 2) / 3 * 4;
}.

(** The last position whose cell differs from [last]. *)
Definition rposition_ne (last : Cell) (cs : list Cell) : option nat :=
  foldl (λ acc '(i, c), if bool_decide (c ≠ last) then Some i else acc) None (imap pair cs).

Definition used_cells (cs : list Cell) : nat :=
  match list.last cs with
  | None => 0
  | Some last => match rposition_ne last cs with None => 1 | Some differs => differs + 2 end
  end.

(** [packed.as_chunks::<18>()]: the chunks and whether anything is left over. *)
Fixpoint as_chunks (fuel : nat) (bytes : list Z) : list (list Z) * bool :=
  match fuel with
  | O => ([], negb (bool_decide (bytes = [])))
  | S fuel =>
      if bool_decide (length bytes < 18)%nat then ([], negb (bool_decide (bytes = [])))
      else let '(chunks, rest) := as_chunks fuel (drop 18 bytes) in (take 18 bytes :: chunks, rest)
  end.

(** [None] is the deserializer's error. *)
Fixpoint read_cells (chunks : list (list Z)) : option (list Cell) :=
  match chunks with
  | [] => Some []
  | chunk :: chunks =>
      match read_checkpoint chunk, read_cells chunks with
      | Some c, Some cs => Some (c :: cs)
      | _, _ => None
      end
  end.

Section codec.
Context `{Base64}.

Definition serialize_cells (cs : list Cell) : nat * list Z :=
  (length cs, base64_encode (take (used_cells cs) cs ≫= write_checkpoint)).

Definition deserialize_cells (columns : nat) (encoded : list Z) : option (list Cell) :=
  let maximum_encoded := (MAX_CHECKPOINT_COLUMNS * CHECKPOINT_CELL_BYTES + 2) / 3 * 4 in
  if (MAX_CHECKPOINT_COLUMNS <? Z.of_nat columns)
     || (maximum_encoded <? Z.of_nat (length encoded)) then None
  else
    match base64_decode encoded with
    | None => None
    | Some packed =>
        let '(chunks, remainder) := as_chunks (length packed) packed in
        if remainder || bool_decide (columns < length chunks)%nat
           || negb (Bool.eqb (bool_decide (chunks = [])) (bool_decide (columns = 0%nat)))
        then None
        else
          match read_cells chunks with
          | None => None
          | Some cs =>
              Some match list.last cs with
                   | Some last => cs ++ replicate (columns - length cs) last
                   | None => cs
                   end
          end
    end.
End codec.
