(* ===== verification/RowInv.v ===== *)
(** * Wide cells in rows

    A row is well formed when it is a sequence of groups, each a leader cell
    followed by the continuations that count down to one. The loops of [Row]
    are followed group by group. *)

From stdpp Require Import base list.
From S2P Require Import Prelude RustStd Cell Row.

#[local] Open Scope Z_scope.

(** ** Groups *)

Definition continuation (c : Cell) : bool :=
  match spacer_of c with Some n => 0 <? n | None => false end.

Fixpoint tail_ok (tail : list Cell) : Prop :=
  match tail with
  | [] => True
  | c :: tail' => spacer_of c = Some (Z.of_nat (length tail)) ∧ tail_ok tail'
  end.

Inductive wide_ok : list Cell → Prop :=
| wide_nil : wide_ok []
| wide_group leader tail rest :
    continuation leader = false → (tail ≠ [] → spacer_of leader = None) →
    tail_ok tail → wide_ok rest → wide_ok (leader :: tail ++ rest).

(** What may follow a complete group. *)
Definition fresh_start (cs : list Cell) : Prop :=
  match cs with [] => True | c :: _ => continuation c = false end.

#[export] Instance fresh_start_dec cs : Decision (fresh_start cs).
Proof. destruct cs; simpl; apply _. Defined.

Lemma wide_ok_fresh cs : wide_ok cs → fresh_start cs.
Proof. by destruct 1. Qed.

Lemma wide_ok_app cs1 cs2 : wide_ok cs1 → wide_ok cs2 → wide_ok (cs1 ++ cs2).
Proof.
  induction 1; intros H'; [done|]. simpl. rewrite <-app_assoc. constructor; auto.
Qed.

Lemma wide_ok_narrow c cs : continuation c = false → wide_ok cs → wide_ok (c :: cs).
Proof. intros. by apply (wide_group c [] cs). Qed.

Lemma wide_ok_replicate n c : continuation c = false → wide_ok (replicate n c).
Proof. intros Hc. induction n; simpl; [constructor|]. by apply wide_ok_narrow. Qed.

Lemma spacer_nonneg c n : spacer_of c = Some n → 0 ≤ n.
Proof.
  unfold spacer_of, content. repeat case_match; intros; simplify_eq.
  match goal with H : (_ <=? _) = false |- _ => apply Z.leb_gt in H end.
  unfold SPACER_BASE. lia.
Qed.

Lemma continues_app pre c cs : continues (pre ++ c :: cs) (length pre) = continuation c.
Proof.
  unfold continues, spacer_at, continuation. rewrite lookup_app_r, Nat.sub_diag by lia. done.
Qed.

Lemma spacer_at_app pre cs i : spacer_at (pre ++ cs) (length pre + i) = spacer_at cs i.
Proof. unfold spacer_at. by rewrite lookup_app_r, Nat.add_comm, Nat.add_sub by lia. Qed.

Lemma tail_ok_spec tail : tail_ok tail ↔ ∀ i, (i < length tail)%nat → spacer_at tail i = Some (Z.of_nat (length tail - i)).
Proof.
  induction tail as [|c tail IH]; simpl; [split; [intros _ i; lia|done]|]. split.
  - intros [Hc Ht] [|i] Hi; [done|]. apply IH; [done|lia].
  - intros H. split; [apply (H 0%nat); lia|]. apply IH. intros i Hi. apply (H (S i)). lia.
Qed.

Lemma tail_ok_continues tail i c : tail_ok tail → tail !! i = Some c → continuation c = true.
Proof.
  intros Ht Hi. pose proof (lookup_lt_Some _ _ _ Hi) as Hlt. apply tail_ok_spec with (i := i) in Ht; [|done].
  unfold spacer_at in Ht. rewrite Hi in Ht. simpl in Ht. unfold continuation. rewrite Ht. apply Z.ltb_lt. lia.
Qed.

(** Rows whose columns can be counted. *)
Definition short (cs : list Cell) : Prop := Z.of_nat (length cs) < usize_max.

(** ** One round of the loops *)

Lemma group_width_app pre leader tail suf :
  short (pre ++ leader :: tail ++ suf) → tail_ok tail → (tail = [] → fresh_start suf) →
  group_width (pre ++ leader :: tail ++ suf) (length pre) = Z.of_nat (S (length tail)).
Proof.
  intros Hs Ht Hf. unfold group_width. replace (S (length pre)) with (length pre + 1)%nat by lia.
  rewrite spacer_at_app. unfold spacer_at. simpl. destruct tail as [|c tail]; simpl.
  - specialize (Hf eq_refl). destruct suf as [|c suf]; [done|]. simpl. unfold fresh_start, continuation in Hf.
    destruct (spacer_of c); [by rewrite Hf|done].
  - destruct Ht as [Hc _]. rewrite Hc. simpl. unfold short in Hs.
    rewrite length_app in Hs. simpl in Hs. rewrite length_app in Hs. lia.
Qed.

Lemma descends_app pre leader tail suf :
  tail_ok tail → descends (pre ++ leader :: tail ++ suf) (length pre) (Z.of_nat (S (length tail))) = true.
Proof.
  intros Ht. unfold descends. apply forallb_forall. intros off Hoff%in_seq.
  apply bool_decide_eq_true. rewrite spacer_at_app. destruct off as [|off]; [lia|].
  pose proof (proj1 (tail_ok_spec tail) Ht off ltac:(lia)) as Hsp.
  unfold spacer_at in *. simpl. rewrite lookup_app_l by lia. rewrite Hsp. f_equal. lia.
Qed.

Lemma group_valid_app pre leader tail suf :
  tail_ok tail →
  group_valid (pre ++ leader :: tail ++ suf) (length pre) (Z.of_nat (S (length tail))) =
  negb (bool_decide (tail = [])).
Proof.
  intros Ht. unfold group_valid. rewrite descends_app by done.
  rewrite !length_app. simpl. rewrite length_app.
  destruct tail as [|c tail]; simpl; [done|].
  destruct (Z.eqb_spec (Z.min (Z.of_nat (length pre) + Z.of_nat (S (S (length tail))))
    (Z.of_nat (length pre + S (S (length tail + length suf)))) - Z.of_nat (length pre)) (Z.of_nat (S (S (length tail)))));
    [|lia]. destruct (Z.ltb_spec 1 (Z.of_nat (S (S (length tail))))); [done|lia].
Qed.

Lemma map_range_app f pre mid suf :
  map_range f (length pre) (length pre + length mid) (pre ++ mid ++ suf) = pre ++ (f <$> mid) ++ suf.
Proof.
  unfold map_range. rewrite take_app_length, drop_app_length.
  replace (length pre + length mid - length pre)%nat with (length mid) by lia.
  rewrite take_app_length. f_equal. f_equal.
  rewrite app_assoc, drop_app_length'; [done|]. rewrite length_app. lia.
Qed.

Lemma fmap_const_replicate {A B} (x : B) (l : list A) : (λ _, x) <$> l = replicate (length l) x.
Proof. induction l; simpl; [done|]. by f_equal. Qed.

(** ** Clearing *)

(** [n] rounds lead from one state of the clearing loop to another. *)
Definition moves (start stop n : nat) (r : Row) (column : nat) (r' : Row) (column' : nat) : Prop :=
  ∀ fuel, clear_loop (n + fuel) column start stop r = clear_loop fuel column' start stop r'.

(** Whether the clearing loop wipes the group at [column]. *)
Definition hit (start stop column : nat) (tail : list Cell) : bool :=
  negb (bool_decide (tail = [])) && bool_decide (column < stop)%nat
  && bool_decide (start < column + S (length tail))%nat.

Definition keep_or_clear (start stop column : nat) (leader : Cell) (tail : list Cell) : list Cell :=
  if hit start stop column tail then replicate (S (length tail)) Cell_default else leader :: tail.

Lemma clear_group start stop pre leader tail suf r :
  cells r = pre ++ leader :: tail ++ suf → short (cells r) → tail_ok tail → (tail = [] → fresh_start suf) →
  ∃ r', moves start stop 1 r (length pre) r' (length pre + S (length tail)) ∧
    linebreak r' = linebreak r ∧
    cells r' = pre ++ keep_or_clear start stop (length pre) leader tail ++ suf.
Proof.
  intros Hc Hs Ht Hf.
  assert (row_len r = length pre + S (length tail + length suf))%nat as Hlen.
  { unfold row_len. rewrite Hc, length_app. simpl. by rewrite length_app. }
  assert (∀ fuel, clear_loop (1 + fuel) (length pre) start stop r =
    if negb (bool_decide (tail = [])) then
      clear_loop fuel (length pre + S (length tail)) start stop
        (if bool_decide (length pre < stop)%nat && bool_decide (start < length pre + S (length tail))%nat
         then set_dirty true (set_cells (map_range (λ _, Cell_default) (length pre) (length pre + S (length tail)) (cells r)) r)
         else r)
    else clear_loop fuel (S (length pre)) start stop r) as Hstep.
  { intros fuel. cbn [Nat.add clear_loop]. rewrite bool_decide_eq_false_2 by lia.
    assert (group_width (cells r) (length pre) = Z.of_nat (S (length tail))) as Hw.
    { rewrite Hc in *. by apply group_width_app. }
    assert (group_valid (cells r) (length pre) (Z.of_nat (S (length tail))) = negb (bool_decide (tail = []))) as Hv.
    { rewrite Hc. by apply group_valid_app. }
    cbv zeta. rewrite Hw, Hv.
    assert (Z.to_nat (Z.min (Z.of_nat (length pre) + Z.of_nat (S (length tail))) (Z.of_nat (row_len r))) =
      length pre + S (length tail))%nat as -> by lia.
    by destruct (negb _). }
  unfold keep_or_clear, hit. destruct tail as [|c tail].
  - exists r. split; [|split; [done|by rewrite Hc]]. intros fuel. rewrite Hstep. simpl.
    by replace (length pre + 1)%nat with (S (length pre)) by lia.
  - set (h := bool_decide _ && bool_decide _) in *. set (tail' := c :: tail) in *.
    exists (if h then set_dirty true (set_cells (map_range (λ _, Cell_default) (length pre)
      (length pre + S (length tail')) (cells r)) r) else r).
    split; [intros fuel; rewrite Hstep; done|]. change (negb (bool_decide (tail' = []))) with true.
    cbn [andb]. fold h. destruct h; (split; [done|]); [|by rewrite Hc]. simpl. rewrite Hc.
    change (leader :: tail' ++ suf) with ((leader :: tail') ++ suf).
    rewrite (map_range_app _ pre (leader :: tail') suf), fmap_const_replicate. done.
Qed.

(** The cells from [column] on, before and after clearing. *)
Inductive cleared (start stop : nat) : nat → list Cell → list Cell → Prop :=
| cleared_nil column : cleared start stop column [] []
| cleared_group column leader tail rest rest' :
    continuation leader = false → (tail ≠ [] → spacer_of leader = None) → tail_ok tail →
    cleared start stop (column + S (length tail)) rest rest' →
    cleared start stop column (leader :: tail ++ rest)
      (keep_or_clear start stop column leader tail ++ rest').

Lemma length_keep_or_clear start stop column leader tail :
  length (keep_or_clear start stop column leader tail) = S (length tail).
Proof. unfold keep_or_clear. case_match; [by rewrite length_replicate|done]. Qed.

Lemma cleared_length start stop column cs cs' :
  cleared start stop column cs cs' → length cs' = length cs.
Proof.
  induction 1; simpl; [done|]. rewrite !length_app, length_keep_or_clear. simpl. lia.
Qed.

Lemma default_narrow : continuation Cell_default = false.
Proof. done. Qed.

Lemma keep_or_clear_ok start stop column leader tail :
  continuation leader = false → (tail ≠ [] → spacer_of leader = None) → tail_ok tail →
  wide_ok (keep_or_clear start stop column leader tail).
Proof.
  intros. unfold keep_or_clear. case_match; [by apply wide_ok_replicate|].
  rewrite <-(app_nil_r tail). constructor; auto using wide_nil.
Qed.

Lemma cleared_wide_ok start stop column cs cs' : cleared start stop column cs cs' → wide_ok cs'.
Proof.
  induction 1; [constructor|]. apply wide_ok_app; [|done]. by apply keep_or_clear_ok.
Qed.

(** The loop runs through well-formed cells group by group. *)
Lemma clear_moves start stop cs pre suf r :
  wide_ok cs → cells r = pre ++ cs ++ suf → short (cells r) → fresh_start suf →
  ∃ n r' cs', (n ≤ length cs)%nat ∧ moves start stop n r (length pre) r' (length pre + length cs) ∧
    linebreak r' = linebreak r ∧ cells r' = pre ++ cs' ++ suf ∧ cleared start stop (length pre) cs cs'.
Proof.
  intros Hw. revert pre r. induction Hw as [|leader tail rest Hl Hlt Ht Hw IH]; intros pre r Hc Hs Hf.
  { exists 0%nat, r, []. split_and!; try done; [|constructor]. intros fuel. by rewrite Nat.add_0_r. }
  assert (fresh_start (rest ++ suf)) as Hf'.
  { apply wide_ok_fresh in Hw. by destruct rest. }
  simpl in Hc. rewrite <-app_assoc in Hc.
  destruct (clear_group start stop pre leader tail (rest ++ suf) r Hc Hs Ht (λ _, Hf')) as (r1 & Hm1 & Hl1 & Hc1).
  set (kc := keep_or_clear start stop (length pre) leader tail) in *.
  assert (length kc = S (length tail)) as Hk by apply length_keep_or_clear.
  destruct (IH (pre ++ kc) r1) as (n & r' & cs' & Hn & Hm & Hl' & Hc' & Hcl).
  { by rewrite <-app_assoc. }
  { unfold short in *. rewrite Hc1. rewrite Hc in Hs. revert Hs.
    rewrite !length_app, Hk. cbn [length]. rewrite !length_app. lia. }
  { done. }
  rewrite length_app, Hk in Hm, Hcl.
  exists (S n), r', (kc ++ cs'). split_and!.
  - simpl. rewrite length_app. lia.
  - intros fuel. simpl (S n + fuel)%nat. change (S (n + fuel)) with (1 + (n + fuel))%nat.
    rewrite Hm1, Hm. simpl. rewrite length_app. f_equal. lia.
  - congruence.
  - by rewrite Hc', <-!app_assoc.
  - by constructor.
Qed.

Lemma clear_loop_end fuel column start stop r :
  (row_len r ≤ column)%nat → clear_loop fuel column start stop r = Ok r.
Proof. intros. destruct fuel; simpl; by rewrite bool_decide_eq_true_2. Qed.

Lemma range_ok start stop r :
  (start ≤ stop)%nat → (stop ≤ row_len r)%nat → assert_range start stop r = true.
Proof. intros. unfold assert_range. by rewrite !bool_decide_eq_true_2. Qed.

(** Clearing a well-formed row. *)
Lemma clear_wide_cleared start stop r :
  wide_ok (cells r) → short (cells r) → (start ≤ stop)%nat → (stop ≤ row_len r)%nat →
  ∃ r', clear_wide_intersections start stop r = Ok r' ∧ linebreak r' = linebreak r ∧
    cleared start stop 0 (cells r) (cells r').
Proof.
  intros Hw Hs H1 H2. unfold clear_wide_intersections. rewrite range_ok by done.
  destruct (clear_moves start stop (cells r) [] [] r Hw) as (n & r' & cs' & Hn & Hm & Hl & Hc & Hcl);
    [by rewrite app_nil_r|done|done|].
  exists r'. rewrite app_nil_r in Hc. simpl in Hc. subst cs'. split; [|done].
  unfold row_len. replace (length (cells r)) with (n + (length (cells r) - n))%nat by lia.
  simpl in Hm. rewrite Hm. apply clear_loop_end. unfold row_len.
  by rewrite (cleared_length _ _ _ _ _ Hcl).
Qed.

(** No group straddles a column of the cleared range. *)
Lemma wide_ok_take_replicate k n : wide_ok (take k (replicate n Cell_default)) ∧ wide_ok (drop k (replicate n Cell_default)).
Proof. rewrite take_replicate, drop_replicate. split; by apply wide_ok_replicate. Qed.

Lemma cleared_boundary start stop column cs cs' k :
  cleared start stop column cs cs' → (start ≤ k ≤ stop)%nat → (column ≤ k ≤ column + length cs)%nat →
  wide_ok (take (k - column) cs') ∧ wide_ok (drop (k - column) cs').
Proof.
  intros Hcl Hk. induction Hcl as [column|column leader tail rest rest' H1 H2 H3 Hcl IH]; intros Hr; simpl in *.
  { rewrite take_nil, drop_nil. split; constructor. }
  rewrite length_app in Hr.
  pose proof (length_keep_or_clear start stop column leader tail) as Hlen.
  pose proof (cleared_wide_ok _ _ _ _ _ Hcl) as Hw'.
  destruct (decide (column + S (length tail) ≤ k)%nat) as [Hge|Hlt].
  - destruct IH as [IH1 IH2]; [lia|].
    rewrite take_app_ge, drop_app_ge by lia. rewrite Hlen.
    replace (k - column - S (length tail))%nat with (k - (column + S (length tail)))%nat by lia.
    split; [|done]. apply wide_ok_app; [|done]. by apply keep_or_clear_ok.
  - rewrite take_app_le, drop_app_le by lia.
    destruct (decide (k = column)) as [->|Hne].
    + rewrite Nat.sub_diag. simpl. split; [constructor|]. apply wide_ok_app; [|done]. by apply keep_or_clear_ok.
    + assert (hit start stop column tail = true) as Hhit.
      { unfold hit. destruct tail as [|c tail]; [simpl in *; lia|].
        rewrite (bool_decide_eq_false_2 (_ = [])), !bool_decide_eq_true_2 by (done || lia). done. }
      unfold keep_or_clear. rewrite Hhit. destruct (wide_ok_take_replicate (k - column) (S (length tail))).
      split; [done|]. by apply wide_ok_app.
Qed.

(** Any group the loop accepts consists of continuations. *)
Lemma group_valid_spec cs column width :
  group_valid cs column width = true →
  1 < width ∧ Z.of_nat column + width ≤ Z.of_nat (length cs) ∧
  ∀ off, 1 ≤ Z.of_nat off < width → spacer_at cs (column + off) = Some (width - Z.of_nat off).
Proof.
  unfold group_valid, descends. destruct (Z.ltb_spec 1 width); simpl; [|done].
  destruct (Z.eqb_spec (Z.min (Z.of_nat column + width) (Z.of_nat (length cs)) - Z.of_nat column) width); [|done].
  rewrite forallb_forall. intros H'. split; [lia|]. split; [lia|]. intros off Hoff.
  specialize (H' off). rewrite bool_decide_eq_true in H'. apply H', in_seq. lia.
Qed.

(** The loop may meet cells that are not well formed: it never leaves them
    towards the cells that follow. *)
Lemma clear_garbage start stop g pre suf r :
  cells r = pre ++ g ++ suf → fresh_start suf →
  ∃ n r' g', (n ≤ length g)%nat ∧ length g' = length g ∧
    moves start stop n r (length pre) r' (length pre + length g) ∧
    linebreak r' = linebreak r ∧ cells r' = pre ++ g' ++ suf.
Proof.
  remember (length g) as m eqn:Hm. revert g Hm pre r.
  induction m as [m IH] using lt_wf_ind; intros g Hm pre r Hc Hf.
  destruct g as [|c g].
  { exists 0%nat, r, []. simpl in *. subst m. split_and!; try done. intros fuel. by rewrite Nat.add_0_r. }
  assert (row_len r = length pre + m + length suf)%nat as Hlen.
  { unfold row_len. rewrite Hc, !length_app. lia. }
  simpl in Hm. set (w := group_width (cells r) (length pre)).
  destruct (group_valid (cells r) (length pre) w) eqn:Hv.
  - pose proof (group_valid_spec _ _ _ Hv) as (Hw1 & Hw2 & Hsp). fold (row_len r) in Hw2.
    assert (w ≤ Z.of_nat m) as Hwm.
    { destruct (Z.le_gt_cases w (Z.of_nat m)) as [|Hgt]; [done|exfalso].
      specialize (Hsp m ltac:(lia)). rewrite Hc, spacer_at_app in Hsp.
      destruct suf as [|s suf]; [simpl in *; lia|]. simpl in Hf. unfold spacer_at in Hsp.
      rewrite lookup_app_r in Hsp by (simpl; lia). replace (m - length (c :: g))%nat with 0%nat in Hsp by (simpl; lia).
      simpl in Hsp. unfold continuation in Hf. rewrite Hsp in Hf. lia. }
    set (k := Z.to_nat w). set (g1 := take k (c :: g)). set (g2 := drop k (c :: g)).
    assert (length g1 = k) as Hg1 by (subst g1; rewrite length_take; simpl; lia).
    assert (length g2 = m - k)%nat as Hg2 by (subst g2; rewrite length_drop; simpl; lia).
    set (r1 := if bool_decide (length pre < stop)%nat && bool_decide (start < length pre + k)%nat then
       set_dirty true (set_cells (map_range (λ _, Cell_default) (length pre) (length pre + k) (cells r)) r) else r).
    assert (∃ x, length x = k ∧ cells r1 = pre ++ x ++ g2 ++ suf) as (x & Hx & Hcx).
    { assert (cells r = pre ++ g1 ++ g2 ++ suf) as Hc'.
      { rewrite Hc. f_equal. subst g1 g2. by rewrite app_assoc, take_drop. }
      subst r1. case_match.
      - exists (replicate k Cell_default). rewrite length_replicate. split; [done|]. simpl. rewrite Hc'.
        rewrite <-Hg1. by rewrite map_range_app, fmap_const_replicate.
      - by exists g1. }
    destruct (IH (m - k)%nat ltac:(lia) g2 ltac:(done) (pre ++ x) r1) as (n & r' & g' & Hn & Hg' & Hmv & Hl & Hc2);
      [by rewrite <-app_assoc|done|].
    exists (S n), r', (x ++ g'). split_and!.
    + lia.
    + rewrite length_app. lia.
    + intros fuel. change (S n + fuel)%nat with (S (n + fuel)). cbn [clear_loop].
      rewrite bool_decide_eq_false_2 by lia. cbv zeta. fold w. rewrite Hv.
      replace (Z.to_nat (Z.min (Z.of_nat (length pre) + w) (Z.of_nat (row_len r)))) with (length pre + k)%nat by lia.
      fold r1. specialize (Hmv fuel). rewrite length_app, Hx in Hmv. rewrite Hmv. f_equal. lia.
    + rewrite Hl. subst r1. by case_match.
    + by rewrite Hc2, <-!app_assoc.
  - destruct (IH (length g) ltac:(lia) g eq_refl (pre ++ [c]) r) as (n & r' & g' & Hn & Hg' & Hmv & Hl & Hc2);
      [by rewrite <-app_assoc|done|].
    exists (S n), r', (c :: g'). split_and!; [lia|simpl; lia| |done|by rewrite Hc2, <-!app_assoc].
    intros fuel. change (S n + fuel)%nat with (S (n + fuel)). cbn [clear_loop].
    rewrite bool_decide_eq_false_2 by lia. cbv zeta. fold w. rewrite Hv.
    specialize (Hmv fuel). rewrite length_app in Hmv. simpl in Hmv.
    replace (S (length pre)) with (length pre + 1)%nat by lia. rewrite Hmv. f_equal. lia.
Qed.

(** ** Repair leaves well-formed rows alone *)

Lemma leader_of_app pre leader tail suf i :
  continuation leader = false → tail_ok tail → (i ≤ length tail)%nat →
  leader_of (pre ++ leader :: tail ++ suf) (length pre + i) = length pre.
Proof.
  intros Hl Ht. induction i as [|i IH]; intros Hi.
  - rewrite Nat.add_0_r. destruct pre as [|x pre]; [done|].
    pose proof (continues_app (x :: pre) leader (tail ++ suf)) as Hc. rewrite Hl in Hc.
    simpl length in *. cbn [leader_of]. by rewrite Hc.
  - rewrite Nat.add_succ_r. cbn [leader_of].
    assert (continues (pre ++ leader :: tail ++ suf) (S (length pre + i)) = true) as ->; [|apply IH; lia].
    unfold continues. rewrite <-Nat.add_succ_r, spacer_at_app. unfold spacer_at. simpl.
    rewrite lookup_app_l by lia. destruct (lookup_lt_is_Some_2 tail i) as [c Hc]; [lia|].
    rewrite Hc. simpl. pose proof (tail_ok_continues tail i c Ht Hc) as Hx. unfold continuation in Hx. done.
Qed.

Lemma repair_id cs pre fuel :
  wide_ok cs → short (pre ++ cs) → (length cs ≤ fuel)%nat →
  repair_loop fuel (length pre) (pre ++ cs) = Ok (pre ++ cs).
Proof.
  intros Hw. revert pre fuel. induction Hw as [|leader tail rest Hl Hlt Ht Hw IH]; intros pre fuel Hs Hf.
  { rewrite app_nil_r. destruct fuel; simpl; by rewrite bool_decide_eq_true_2. }
  simpl in Hf. rewrite length_app in Hf. destruct fuel as [|fuel]; [lia|].
  assert (length (pre ++ leader :: tail ++ rest) = length pre + S (length tail + length rest))%nat as Hlen.
  { rewrite length_app. simpl. by rewrite length_app. }
  cbn [repair_loop]. rewrite bool_decide_eq_false_2 by lia.
  assert (match spacer_at (pre ++ leader :: tail ++ rest) (length pre) with Some n => n =? 0 | None => true end = true) as H0.
  { pose proof (spacer_at_app pre (leader :: tail ++ rest) 0) as Hx. rewrite Nat.add_0_r in Hx. rewrite Hx.
    unfold spacer_at. simpl. unfold continuation in Hl. destruct (spacer_of leader) as [n|] eqn:Hn; [|done].
    pose proof (spacer_nonneg _ _ Hn). apply Z.eqb_eq. lia. }
  assert (repair_loop fuel (S (length pre)) (pre ++ leader :: tail ++ rest) = Ok (pre ++ leader :: tail ++ rest)) as Hnext;
    [|destruct (spacer_at _ (length pre)) as [n|]; [by rewrite H0|done]].
  destruct tail as [|c tail].
  - simpl. replace (pre ++ leader :: rest) with ((pre ++ [leader]) ++ rest) by by rewrite <-app_assoc.
    replace (S (length pre)) with (length (pre ++ [leader])) by (rewrite length_app; simpl; lia).
    apply IH; [by rewrite <-app_assoc|simpl in *; lia].
  - set (tl := c :: tail) in *. assert (length tl = S (length tail)) as Htl by done.
    destruct fuel as [|fuel]; [lia|]. cbn [repair_loop].
    rewrite bool_decide_eq_false_2 by lia.
    replace (S (length pre)) with (length pre + 1)%nat by lia.
    assert (spacer_at (pre ++ leader :: tl ++ rest) (length pre + 1) = Some (Z.of_nat (length tl))) as ->.
    { rewrite spacer_at_app. unfold spacer_at. simpl. by destruct Ht. }
    destruct (Z.eqb_spec (Z.of_nat (length tl)) 0); [lia|].
    rewrite leader_of_app by (done || lia). unfold short in Hs. rewrite Hlen in Hs.
    assert (Z.min (Z.of_nat (length tl) + 1) usize_max = Z.of_nat (S (length tl))) as -> by lia.
    rewrite bool_decide_eq_true_2, descends_app by (done || lia). cbv zeta.
    destruct (Z.leb_spec (Z.of_nat (length pre) + Z.of_nat (S (length tl))) usize_max); [|lia].
    destruct (Z.leb_spec (Z.of_nat (length pre) + Z.of_nat (S (length tl))) (Z.of_nat (length (pre ++ leader :: tl ++ rest)))); [|lia].
    cbn [andb].
    replace (pre ++ leader :: tl ++ rest) with ((pre ++ leader :: tl) ++ rest) by by rewrite <-app_assoc.
    replace (Z.to_nat (Z.of_nat (length pre) + Z.of_nat (S (length tl)))) with (length (pre ++ leader :: tl))
      by (rewrite length_app; simpl; lia).
    apply IH; [|lia]. unfold short. rewrite <-app_assoc.
    change ((leader :: tl) ++ rest) with (leader :: tl ++ rest). rewrite Hlen. lia.
Qed.

Lemma repair_wide_cells_id r : wide_ok (cells r) → short (cells r) → repair_wide_cells r = Ok r.
Proof.
  intros Hw Hs. unfold repair_wide_cells, row_len.
  rewrite (repair_id (cells r) [] _ Hw Hs) by lia. simpl. by destruct r.
Qed.

(** ** What clearing changes *)

(** Columns [i] and [j] belong to one run of continuations. *)
Definition joined (cs : list Cell) (i j : nat) : Prop :=
  ∀ k, (Nat.min i j < k ≤ Nat.max i j)%nat → continues cs k = true.

(** [cs'] is [cs] with some cells joined to a column in [P] wiped. *)
Definition wiped (P : nat → Prop) (cs cs' : list Cell) : Prop :=
  length cs' = length cs ∧
  ∀ i, cs' !! i = cs !! i ∨ (cs' !! i = Some Cell_default ∧ ∃ j, P j ∧ joined cs i j).

Lemma wiped_refl P cs : wiped P cs cs.
Proof. split; [done|]. by left. Qed.

Lemma wiped_mono (P Q : nat → Prop) cs cs' : (∀ j, P j → Q j) → wiped P cs cs' → wiped Q cs cs'.
Proof.
  intros HPQ [Hl H]. split; [done|]. intros i. destruct (H i) as [?|(? & j & ? & ?)]; [by left|].
  right. split; [done|]. exists j. auto.
Qed.

Lemma wiped_continues P cs cs' k : wiped P cs cs' → continues cs' k = true → continues cs k = true.
Proof.
  intros [_ H]. unfold continues, spacer_at. by destruct (H k) as [->|[-> _]].
Qed.

Lemma wiped_trans P cs cs1 cs2 : wiped P cs cs1 → wiped P cs1 cs2 → wiped P cs cs2.
Proof.
  intros H1 H2. split; [by rewrite (proj1 H2), (proj1 H1)|]. intros i.
  destruct (proj2 H2 i) as [->|(Hd & j & Hj & Hjoin)]; [apply H1|].
  right. split; [done|]. exists j. split; [done|]. intros k Hk. by eapply wiped_continues, Hjoin.
Qed.

Lemma cleared_wiped start stop column cs cs' pre :
  cleared start stop column cs cs' → column = length pre → (start ≤ stop)%nat →
  wiped (λ j, start ≤ j ≤ stop)%nat (pre ++ cs) (pre ++ cs').
Proof.
  intros Hcl. revert pre. induction Hcl as [column|column leader tail rest rest' H1 H2 H3 Hcl IH]; intros pre Hp Hle.
  { apply wiped_refl. }
  set (kc := keep_or_clear start stop column leader tail).
  assert (length kc = S (length tail)) as Hk by apply length_keep_or_clear.
  assert (wiped (λ j, start ≤ j ≤ stop)%nat (pre ++ leader :: tail ++ rest) (pre ++ kc ++ rest)) as Hw1.
  { subst kc. unfold keep_or_clear. destruct (hit start stop column tail) eqn:Hh; [|apply wiped_refl].
    unfold hit in Hh. apply andb_true_iff in Hh as [[Ht Hs]%andb_true_iff Hst].
    apply bool_decide_eq_true in Hs, Hst.
    split; [rewrite !length_app, length_replicate; simpl; rewrite length_app; lia|]. intros i.
    destruct (decide (i < length pre)%nat) as [Hlt|Hge]; [left; by rewrite !lookup_app_l by lia|].
    rewrite !(lookup_app_r pre) by lia. set (i' := (i - length pre)%nat).
    destruct (decide (i' < S (length tail))%nat) as [Hin|Hout].
    - right. rewrite lookup_app_l by (rewrite length_replicate; lia).
      split; [by apply lookup_replicate_2|].
      exists (if decide (i < start)%nat then start else if decide (stop ≤ i)%nat then stop else i).
      assert (∀ k, (length pre < k < length pre + S (length tail))%nat →
        continues (pre ++ leader :: tail ++ rest) k = true) as Hcont.
      { intros k Hkr. unfold continues. replace k with (length pre + S (k - length pre - 1))%nat by lia.
        rewrite spacer_at_app. unfold spacer_at. simpl. rewrite lookup_app_l by lia.
        destruct (lookup_lt_is_Some_2 tail (k - length pre - 1)) as [c Hc]; [lia|]. rewrite Hc.
        exact (tail_ok_continues tail _ c H3 Hc). }
      repeat case_decide; (split; [lia|]); intros k Hkr; apply Hcont; lia.
    - left. change (leader :: tail ++ rest) with ((leader :: tail) ++ rest).
      rewrite !lookup_app_r by (rewrite ?length_replicate; simpl; lia).
      rewrite length_replicate. done. }
  eapply wiped_trans; [exact Hw1|]. fold kc. rewrite !(app_assoc pre). apply IH; [|done].
  rewrite length_app, Hk. lia.
Qed.

(** Groups outside the range stay. *)
Lemma cleared_no_hit start stop column cs cs' :
  cleared start stop column cs cs' → (stop ≤ column ∨ column + length cs ≤ start)%nat → cs' = cs.
Proof.
  intros Hcl. induction Hcl as [column|column leader tail rest rest' H1 H2 H3 Hcl IH]; intros Hout; [done|].
  simpl in Hout. rewrite length_app in Hout. rewrite IH by lia.
  unfold keep_or_clear, hit. destruct Hout as [Hout|Hout].
  - rewrite (bool_decide_eq_false_2 (column < stop)%nat) by lia. by rewrite andb_false_r.
  - rewrite (bool_decide_eq_false_2 (start < _)%nat) by lia. by rewrite andb_false_r.
Qed.

(** Clearing three pieces in a row: well-formed cells, anything that starts
    afresh, well-formed cells. *)
Lemma clear_three start stop A G B r :
  wide_ok A → fresh_start G → wide_ok B → cells r = A ++ G ++ B → short (cells r) → G ≠ [] →
  (start ≤ stop)%nat → (stop ≤ row_len r)%nat → (length A ≤ start)%nat → (stop ≤ length A + length G)%nat →
  ∃ r' G', clear_wide_intersections start stop r = Ok r' ∧ linebreak r' = linebreak r ∧
    length G' = length G ∧ cells r' = A ++ G' ++ B.
Proof.
  intros HA HG HB Hc Hs Hne H1 H2 H3 H4. unfold clear_wide_intersections. rewrite range_ok by done.
  destruct (clear_moves start stop A [] (G ++ B) r HA) as (n1 & r1 & A' & Hn1 & Hm1 & Hl1 & Hc1 & Hcl1);
    [done|done|by destruct G|].
  apply cleared_no_hit in Hcl1; [subst A'|simpl; lia]. simpl in Hc1, Hm1.
  destruct (clear_garbage start stop G A B r1 Hc1 (wide_ok_fresh _ HB)) as (n2 & r2 & G' & Hn2 & HG' & Hm2 & Hl2 & Hc2).
  assert (length A + length G = length (A ++ G'))%nat as HAG by (rewrite length_app; lia).
  destruct (clear_moves start stop B (A ++ G') [] r2 HB) as (n3 & r3 & B' & Hn3 & Hm3 & Hl3 & Hc3 & Hcl3);
    [by rewrite app_nil_r, <-app_assoc| |done|].
  { unfold short in *. rewrite Hc2. rewrite Hc in Hs. rewrite !length_app in *. lia. }
  apply cleared_no_hit in Hcl3; [subst B'|lia]. rewrite app_nil_r, <-app_assoc in Hc3.
  exists r3, G'. split; [|split; [congruence|done]].
  assert (row_len r = length A + length G + length B)%nat as Hlen.
  { unfold row_len. rewrite Hc, !length_app. lia. }
  replace (row_len r) with (n1 + (n2 + (n3 + (row_len r - n1 - n2 - n3))))%nat by lia.
  rewrite Hm1, Hm2, HAG, Hm3. apply clear_loop_end. unfold row_len. rewrite Hc3, !length_app. lia.
Qed.

(** A well-formed row ends with a group. *)
Lemma wide_ok_last cs :
  wide_ok cs → cs ≠ [] →
  ∃ P leader tail, cs = P ++ leader :: tail ∧ wide_ok P ∧ continuation leader = false ∧ tail_ok tail.
Proof.
  induction 1 as [|leader tail rest Hl Hlt Ht Hr IH]; [done|]. intros _. destruct (decide (rest = [])) as [->|Hne].
  - exists [], leader, tail. rewrite app_nil_r. split_and!; try done; constructor.
  - destruct (IH Hne) as (P & l & t & -> & HP & Hl' & Ht'). exists (leader :: tail ++ P), l, t.
    split_and!; try done; [simpl; by rewrite <-app_assoc|]. by constructor.
Qed.

(** Clearing a tail of the row that starts inside a wide character: it may take
    the narrow character before it. *)
Lemma clear_cut A t rest r :
  wide_ok A → t ≠ [] → tail_ok t → fresh_start rest → cells r = A ++ t ++ rest → short (cells r) →
  ∃ r' A' G, clear_wide_intersections (length A) (row_len r) r = Ok r' ∧ linebreak r' = linebreak r ∧
    cells r' = A' ++ G ∧ length A' = length A ∧ wide_ok A' ∧ (A' = A ∨ A' = removelast A ++ [Cell_default]).
Proof.
  intros HA Hne Ht Hrest Hc Hs.
  assert (row_len r = length A + length t + length rest)%nat as Hlen by (unfold row_len; rewrite Hc, !length_app; lia).
  assert (0 < length t)%nat as Ht0 by (destruct t; [done|simpl; lia]).
  unfold clear_wide_intersections. rewrite range_ok by lia. set (start := length A). set (stop := row_len r).
  assert (∀ n q G pre, (n ≤ length pre)%nat → moves start stop n r 0 q (length pre) → linebreak q = linebreak r →
    cells q = pre ++ G → length (pre ++ G) = row_len r →
    ∃ r' G', clear_loop stop 0 start stop r = Ok r' ∧ linebreak r' = linebreak r ∧ cells r' = pre ++ G') as Hend.
  { intros n q G pre Hn Hm Hl Hq Hlq.
    destruct (clear_garbage start stop G pre [] q) as (m & q' & G' & Hm' & HG' & Hmv & Hl' & Hc'); [by rewrite app_nil_r|done|].
    rewrite app_nil_r in Hc'. rewrite length_app in Hlq. exists q', G'. split_and!; [|congruence|done].
    unfold stop at 1. replace (row_len r) with (n + (m + (row_len r - n - m)))%nat by lia. rewrite Hm, Hmv.
    apply clear_loop_end. unfold row_len. rewrite Hc', length_app. lia. }
  destruct (decide (A = [])) as [->|HneA].
  { destruct (Hend 0%nat r (t ++ rest) []) as (r' & G & H1 & H2 & H3); [done|by intros|done|done|simpl; rewrite length_app; simpl in *; lia|].
    exists r', [], G. split_and!; try done; by left. }
  destruct (wide_ok_last A HA HneA) as (P & leader & tail & HAeq & HP & Hleader & Htail).
  assert (cells r = P ++ leader :: tail ++ t ++ rest) as HcP by (rewrite Hc, HAeq, <-app_assoc; done).
  destruct (clear_moves start stop P [] (leader :: tail ++ t ++ rest) r HP) as (n1 & q1 & P' & Hn1 & Hm1 & Hl1 & Hc1 & Hcl1);
    [done|done|done|].
  assert (length A = length P + S (length tail))%nat as HlA by (rewrite HAeq, length_app; done).
  apply cleared_no_hit in Hcl1; [subst P'|simpl; unfold start; lia]. simpl in Hc1, Hm1.
  assert (short (cells q1)) as Hs1 by (rewrite Hc1, <-HcP; done).
  destruct (decide (tail = [])) as [->|Hnt].
  - destruct (clear_group start stop P leader t rest q1) as (q2 & Hm2 & Hl2 & Hc2); [done..|].
    assert (keep_or_clear start stop (length P) leader t = Cell_default :: replicate (length t) Cell_default) as Hk.
    { unfold keep_or_clear, hit. rewrite (bool_decide_eq_false_2 (t = [])) by done.
      rewrite !bool_decide_eq_true_2 by (unfold start, stop; simpl in *; lia). done. }
    rewrite Hk in Hc2.
    destruct (Hend (n1 + 1)%nat q2 rest ((P ++ [Cell_default]) ++ replicate (length t) Cell_default)) as (r' & G & H1 & H2 & H3).
    + rewrite !length_app, length_replicate. simpl. lia.
    + intros fuel. rewrite <-Nat.add_assoc, Hm1, Hm2. f_equal. rewrite !length_app, length_replicate. simpl. lia.
    + congruence.
    + rewrite Hc2. by rewrite <-!app_assoc.
    + rewrite !length_app, length_replicate. simpl in *. lia.
    + exists r', (P ++ [Cell_default]), (replicate (length t) Cell_default ++ G). rewrite <-app_assoc in H3.
      split_and!; [done|done|done|rewrite length_app; simpl in *; lia| |].
      * apply wide_ok_app; [done|]. by apply (wide_ok_narrow _ _ default_narrow wide_nil).
      * right. by rewrite HAeq, removelast_last.
  - destruct (clear_group start stop P leader tail (t ++ rest) q1) as (q2 & Hm2 & Hl2 & Hc2); [done..|].
    assert (keep_or_clear start stop (length P) leader tail = leader :: tail) as Hk.
    { unfold keep_or_clear, hit. rewrite (bool_decide_eq_false_2 (start < _)%nat) by (unfold start; lia). by rewrite andb_false_r. }
    rewrite Hk in Hc2. change ((leader :: tail) ++ t ++ rest) with (leader :: tail ++ t ++ rest) in Hc2.
    destruct (Hend (n1 + 1)%nat q2 (t ++ rest) A) as (r' & G & H1 & H2 & H3).
    + lia.
    + intros fuel. rewrite <-Nat.add_assoc, Hm1, Hm2. f_equal. lia.
    + congruence.
    + rewrite Hc2, HAeq, <-app_assoc. done.
    + rewrite !length_app. lia.
    + exists r', A, G. split_and!; try done. by left.
Qed.
