(* ===== verification/RowProps.v ===== *)
(** * Theorems on rows *)

From stdpp Require Import base list.
From S2P Require Import Prelude RustStd Cell CellProps Row RowInv.

#[local] Open Scope Z_scope.

(** The cell an erase leaves. *)
Definition blank (background : Color) : Cell :=
  set_attributes (set_background background Attributes_default) Cell_default.

Lemma map_range_const x start stop cs :
  (start ≤ stop)%nat → (stop ≤ length cs)%nat →
  map_range (λ _, x) start stop cs = take start cs ++ replicate (stop - start) x ++ drop stop cs.
Proof.
  intros H1 H2. unfold map_range. rewrite fmap_const_replicate, length_take, length_drop.
  by replace ((stop - start) `min` (length cs - start))%nat with (stop - start)%nat by lia.
Qed.

Lemma blank_narrow background : continuation (blank background) = false.
Proof. done. Qed.

Lemma short_length cs cs' : length cs' = length cs → short cs → short cs'.
Proof. unfold short. by intros ->. Qed.

(** Clearing, then writing a run of one cell over the range. *)
Lemma overwrite_wide c start stop r :
  wide_ok (cells r) → short (cells r) → continuation c = false →
  (start ≤ stop)%nat → (stop ≤ row_len r)%nat →
  ∃ r1, clear_wide_intersections start stop r = Ok r1 ∧ linebreak r1 = linebreak r ∧
    row_len r1 = row_len r ∧ wiped (λ j, start ≤ j ≤ stop)%nat (cells r) (cells r1) ∧
    wide_ok (take start (cells r1) ++ replicate (stop - start) c ++ drop stop (cells r1)) ∧
    map_range (λ _, c) start stop (cells r1) =
      take start (cells r1) ++ replicate (stop - start) c ++ drop stop (cells r1).
Proof.
  intros Hw Hs Hn H1 H2. destruct (clear_wide_cleared start stop r Hw Hs H1 H2) as (r1 & Hc & Hl & Hcl).
  pose proof (cleared_length _ _ _ _ _ Hcl) as Hlen. unfold row_len in *.
  exists r1. split_and!; [done..| | |].
  - by apply (cleared_wiped start stop 0 (cells r) (cells r1) []).
  - destruct (cleared_boundary _ _ _ _ _ start Hcl) as [Ha _]; [lia|lia|].
    destruct (cleared_boundary _ _ _ _ _ stop Hcl) as [_ Hb]; [lia|lia|].
    rewrite Nat.sub_0_r in *. apply wide_ok_app; [done|]. apply wide_ok_app; [by apply wide_ok_replicate|done].
  - apply map_range_const; lia.
Qed.

(** Erasing a range of a well-formed row blanks exactly that range in the
    background color; outside it only a wide character that straddles an edge
    of the range is wiped, the row stays well formed and keeps its length. *)
Theorem erase_exact start stop background r :
  wide_ok (cells r) → short (cells r) → (start ≤ stop)%nat → (stop ≤ row_len r)%nat →
  ∃ cs, wiped (λ j, start ≤ j ≤ stop)%nat (cells r) cs ∧
    let cs' := take start cs ++ replicate (stop - start) (blank background) ++ drop stop cs in
    wide_ok cs' ∧
    erase start stop background r = Ok {| cells := cs'; dirty := true; linebreak := linebreak r |}.
Proof.
  intros Hw Hs H1 H2.
  destruct (overwrite_wide (blank background) start stop r) as (r1 & Hc & Hl & Hlen & Hwi & Hok & Hmap); try done.
  exists (cells r1). split_and!; [done..|]. unfold erase. rewrite range_ok, Hc by done. cbn [obind].
  fold (blank background). rewrite Hmap. unfold set_dirty, set_cells. simpl. by rewrite Hl.
Qed.

(** Filling a range of a well-formed row with a storable content that is
    not a continuation writes exactly that range, with the cells marked
    unclean; outside it only a straddling wide character is wiped. *)
Theorem fill_exact start stop c w attrs r :
  wide_ok (cells r) → short (cells r) → (start ≤ stop)%nat → (stop ≤ row_len r)%nat →
  encode_content c = Ok w → w ≤ SPACER_BASE →
  ∃ cs, wiped (λ j, start ≤ j ≤ stop)%nat (cells r) cs ∧
    let cell := {| cell_content := w; attributes := set_flag Clean false attrs |} in
    let cs' := take start cs ++ replicate (stop - start) cell ++ drop stop cs in
    wide_ok cs' ∧
    fill start stop c attrs r = Ok {| cells := cs'; dirty := true; linebreak := linebreak r |}.
Proof.
  intros Hw Hs H1 H2 Hc Hsp. set (cell := {| cell_content := w; attributes := set_flag Clean false attrs |}).
  assert (continuation cell = false) as Hn.
  { unfold continuation, spacer_of, content. simpl. repeat case_match; simplify_eq; try done.
    apply Z.ltb_ge. lia. }
  destruct (overwrite_wide cell start stop r) as (r1 & Hcl & Hl & Hlen & Hwi & Hok & Hmap); try done.
  exists (cells r1). split_and!; [done..|]. unfold fill. rewrite range_ok, Hcl, Hc by done. cbn [obind].
  fold cell. rewrite Hmap. unfold set_dirty, set_cells. simpl. by rewrite Hl.
Qed.

(** Clearing ends on every row, well formed or not. *)
Lemma clear_loop_total fuel column start stop r :
  (row_len r ≤ column + fuel)%nat →
  ∃ r', clear_loop fuel column start stop r = Ok r' ∧ row_len r' = row_len r ∧ linebreak r' = linebreak r.
Proof.
  revert column r. induction fuel as [|fuel IH]; intros column r Hlen; cbn [clear_loop];
    case_bool_decide; [by eauto|lia|by eauto|].
  set (width := group_width (cells r) column).
  destruct (group_valid (cells r) column width) eqn:Hg; [|apply IH; lia].
  set (next := Z.to_nat (Z.min (Z.of_nat column + width) (Z.of_nat (row_len r)))).
  assert (column < next ≤ row_len r)%nat as [Hc Hn].
  { unfold group_valid in Hg. destruct (1 <? width) eqn:Hw; [|done]. apply Z.ltb_lt in Hw. lia. }
  case_match; [|apply IH; lia].
  destruct (IH next (set_dirty true (set_cells (map_range (λ _, Cell_default) column next (cells r)) r)))
    as (r' & Hr' & Hl & Hb);
    assert (row_len (set_dirty true (set_cells (map_range (λ _, Cell_default) column next (cells r)) r)) = row_len r)
      as Hsame by (unfold row_len in *; simpl; rewrite map_range_const by lia;
        rewrite !length_app, length_take, length_drop, length_replicate; lia).
  - lia.
  - exists r'. split_and!; [done|congruence|done].
Qed.

(** Erasing a whole row leaves nothing of it. *)
Lemma erase_all_exact background r :
  erase_all background r =
    Ok {| cells := replicate (row_len r) (blank background); dirty := true; linebreak := true |}.
Proof.
  unfold erase_all, erase, clear_wide_intersections. rewrite range_ok by lia.
  destruct (clear_loop_total (row_len r) 0 0 (row_len r) r) as (r' & -> & Hl & Hb); [lia|].
  cbn [obind map_ok]. fold (blank background). unfold row_len in *. rewrite map_range_const by lia.
  rewrite Nat.sub_0_r, take_0, drop_ge by lia. by rewrite app_nil_r.
Qed.

(** Erasing a piece that starts afresh between well-formed ones. *)
Lemma erase_piece background A G B r :
  wide_ok A → fresh_start G → wide_ok B → cells r = A ++ G ++ B → short (cells r) → G ≠ [] →
  erase (length A) (length A + length G) background r =
    Ok {| cells := A ++ replicate (length G) (blank background) ++ B; dirty := true; linebreak := linebreak r |}.
Proof.
  intros HA HG HB Hc Hs Hne.
  assert (row_len r = length A + length G + length B)%nat as Hlen.
  { unfold row_len. rewrite Hc, !length_app. lia. }
  destruct (clear_three (length A) (length A + length G) A G B r) as (r' & G' & Hcl & Hl & HG' & Hc'); try done; try lia.
  unfold erase. rewrite range_ok, Hcl by lia. cbn [obind]. fold (blank background).
  rewrite Hc'. rewrite <-HG'. rewrite map_range_app, fmap_const_replicate.
  unfold set_dirty, set_cells. simpl. by rewrite Hl.
Qed.

(** Clearing right of a boundary leaves everything left of it alone. *)
Lemma clear_after start stop A B r :
  wide_ok A → wide_ok B → cells r = A ++ B → short (cells r) →
  (length A ≤ start)%nat → (start ≤ stop)%nat → (stop ≤ row_len r)%nat →
  ∃ r' B', clear_wide_intersections start stop r = Ok r' ∧ linebreak r' = linebreak r ∧
    cells r' = A ++ B' ∧ cleared start stop (length A) B B'.
Proof.
  intros HA HB Hc Hs H1 H2 H3. unfold clear_wide_intersections. rewrite range_ok by done.
  assert (row_len r = length A + length B)%nat as Hlen by (unfold row_len; by rewrite Hc, length_app).
  destruct (clear_moves start stop A [] B r HA) as (n1 & q1 & A' & Hn1 & Hm1 & Hq1 & Hcq1 & Ha1);
    [done|done|by apply wide_ok_fresh|].
  apply cleared_no_hit in Ha1; [subst A'|simpl; lia]. simpl in Hcq1, Hm1.
  destruct (clear_moves start stop B A [] q1 HB) as (n2 & q2 & B' & Hn2 & Hm2 & Hq2 & Hcq2 & Hb2);
    [by rewrite app_nil_r|by rewrite Hcq1, <-Hc|done|].
  exists q2, B'. rewrite app_nil_r in Hcq2. split_and!; [|congruence|done|done].
  replace (row_len r) with (n1 + (n2 + (row_len r - n1 - n2)))%nat by lia.
  rewrite Hm1, Hm2. apply clear_loop_end. unfold row_len.
  rewrite Hcq2, length_app, (cleared_length _ _ _ _ _ Hb2). lia.
Qed.

Lemma insert_cells_runs column n background r :
  wide_ok (cells r) → short (cells r) → (column < row_len r)%nat → (0 < n)%nat →
  let count := Nat.min n (row_len r - column) in
  ∃ cs d, wiped (λ j, j = column ∨ j = S column ∨ j = row_len r - count ∨ j = S (row_len r - count))%nat (cells r) cs ∧
    let cs' := take column cs ++ replicate count (blank background)
               ++ take (row_len r - count - column) (drop column cs) in
    wide_ok cs' ∧
    insert_cells column n background r = Ok {| cells := cs'; dirty := d; linebreak := linebreak r |}.
Proof.
  intros Hw Hs Hcol Hn count. unfold insert_cells. rewrite bool_decide_eq_true_2 by done. fold count.
  assert (0 < count)%nat as Hcount by lia. rewrite bool_decide_eq_false_2 by lia.
  destruct (clear_wide_cleared column (column + 1) r Hw Hs) as (r1 & -> & Hl1 & Hcl1); [lia|lia|]. cbn [obind].
  pose proof (cleared_length _ _ _ _ _ Hcl1) as Hlen1. fold (row_len r1) (row_len r) in Hlen1.
  rewrite bool_decide_eq_true_2 by lia.
  destruct (cleared_boundary _ _ _ _ _ column Hcl1) as [HA HB]; [lia|fold (row_len r); lia|]. rewrite Nat.sub_0_r in *.
  set (A := take column (cells r1)) in *. set (B := drop column (cells r1)) in *.
  assert (cells r1 = A ++ B) as Hc1 by (symmetry; apply take_drop).
  assert (length A = column) as HlA by (subst A; rewrite length_take; fold (row_len r1); lia).
  assert (length B = row_len r - column)%nat as HlB by (subst B; rewrite length_drop; fold (row_len r1); lia).
  set (t := (row_len r1 - count)%nat). assert (t = row_len r - count)%nat as Ht by lia.
  pose proof (cleared_wide_ok _ _ _ _ _ Hcl1) as Hw1.
  pose proof (short_length _ _ Hlen1 Hs) as Hs1.
  destruct (clear_after t (t + 1) A B r1 HA HB Hc1 Hs1) as (r2 & B' & Hr2 & Hl2 & Hc2 & Hcl2); [lia..|].
  rewrite HlA in Hcl2.
  rewrite Hr2. cbn [obind].
  pose proof (cleared_length _ _ _ _ _ Hcl2) as HlB'.
  assert (row_len r2 = row_len r) as Hlen2 by (unfold row_len at 1; rewrite Hc2, length_app; lia).
  rewrite Hlen2. fold count. rewrite <-Ht.
  destruct (cleared_boundary _ _ _ _ _ t Hcl2) as [Hmid _]; [lia|lia|].
  set (G := take count B'). assert (length G = count) as HlG by (subst G; rewrite length_take; lia).
  set (mid := take (t - column) B') in *.
  assert (copy_within column t (column + count) (cells r2) = A ++ G ++ mid) as Hcw.
  { unfold copy_within. rewrite Hc2. rewrite take_app_ge by lia. rewrite HlA.
    replace (column + count - column)%nat with count by lia. fold G.
    assert (drop column (A ++ B') = B') as ->. { by rewrite drop_app_length'. }
    fold mid. rewrite (drop_ge (A ++ B')) by (rewrite length_app; lia). by rewrite app_nil_r, <-app_assoc. }
  rewrite Hcw. set (r3 := set_cells (A ++ G ++ mid) r2).
  assert (fresh_start G) as HfG.
  { pose proof (wide_ok_fresh _ (cleared_wide_ok _ _ _ _ _ Hcl2)) as Hf. subst G.
    destruct B' as [|b B']; [by rewrite take_nil|]. by destruct count. }
  pose proof (erase_piece background A G mid r3 HA HfG Hmid eq_refl) as He. rewrite HlA, HlG in He.
  assert (length mid = t - column)%nat as Hlm by (subst mid; rewrite length_take; lia).
  rewrite He; [| |by intros ->; simpl in *; lia].
  2: { unfold short in *. simpl. rewrite !length_app. fold (row_len r) in Hs. lia. }
  cbn [obind]. exists (A ++ B'). eexists. split_and!.
  - eapply wiped_trans.
    + eapply wiped_mono; [|apply (cleared_wiped _ _ _ _ _ [] Hcl1); [done|lia]]. simpl. lia.
    + rewrite Hc1 at 1. eapply wiped_mono; [|apply (cleared_wiped _ _ _ _ _ A Hcl2); [done|lia]]. simpl. lia.
  - rewrite take_app_length' by done. rewrite drop_app_length' by done.
    apply wide_ok_app; [done|]. apply wide_ok_app; [by apply wide_ok_replicate|]. exact Hmid.
  - rewrite take_app_length' by done. rewrite drop_app_length' by done. fold mid.
    rewrite repair_wide_cells_id; simpl; [by rewrite Hl2, Hl1| |].
    + apply wide_ok_app; [done|]. apply wide_ok_app; [by apply wide_ok_replicate|done].
    + unfold short in *. rewrite !length_app, length_replicate. fold (row_len r) in Hs. lia.
Qed.

(** Inserting cells into a well-formed row terminates and is exact: the
    row, with only the wide characters at the insertion column and at the
    truncation column wiped, is cut at the column, [count] blanks go in, the
    rest moves right and the last [count] cells fall off. *)
Theorem insert_cells_exact column n background r :
  wide_ok (cells r) → short (cells r) → (column < row_len r)%nat → (0 < n)%nat →
  let count := Nat.min n (row_len r - column) in
  ∃ cs d, wiped (λ j, j = column ∨ j = S column ∨ j = row_len r - count ∨ j = S (row_len r - count))%nat (cells r) cs ∧
    let cs' := take column cs ++ replicate count (blank background)
               ++ take (row_len r - count - column) (drop column cs) in
    wide_ok cs' ∧
    insert_cells column n background r = Ok {| cells := cs'; dirty := d; linebreak := linebreak r |}.
Proof. apply insert_cells_runs. Qed.

Lemma drop_fresh k cs : fresh_start (drop k cs) → continues cs k = false.
Proof.
  unfold continues, spacer_at. intros H. destruct (cs !! k) as [c|] eqn:Hc; [|done].
  rewrite (drop_S _ _ _ Hc) in H. exact H.
Qed.

Lemma fresh_drop k cs : continues cs k = false → fresh_start (drop k cs).
Proof.
  unfold continues, spacer_at. intros H. destruct (cs !! k) as [c|] eqn:Hc; [by rewrite (drop_S _ _ _ Hc)|].
  rewrite drop_ge; [done|]. by apply lookup_ge_None.
Qed.

Lemma tail_ok_drop k tail : tail_ok tail → tail_ok (drop k tail).
Proof. revert k. induction tail as [|c tail IH]; intros [|k]; try done. intros [_ H]. by apply IH. Qed.

(** A well-formed row cut inside a group. *)
Lemma drop_inside k cs :
  wide_ok cs → continues cs k = true →
  ∃ t rest, drop k cs = t ++ rest ∧ t ≠ [] ∧ tail_ok t ∧ fresh_start rest.
Proof.
  intros Hw. revert k. induction Hw as [|leader tail rest Hl _ Ht Hr IH]; intros k Hk; [done|].
  destruct k as [|k]; [unfold continues, spacer_at in Hk; simpl in Hk; unfold continuation in Hl; congruence|].
  change (drop (S k) (leader :: tail ++ rest)) with (drop k (tail ++ rest)).
  destruct (decide (k < length tail)%nat) as [Hlt|Hge].
  - exists (drop k tail), rest. rewrite drop_app_le by lia. split_and!; [done| |by apply tail_ok_drop|by apply wide_ok_fresh].
    intros H%(f_equal length). rewrite length_drop in H. simpl in H. lia.
  - rewrite drop_app_ge by lia. apply IH. unfold continues, spacer_at in *. simpl in Hk.
    by rewrite lookup_app_r in Hk by lia.
Qed.

(** The two clearings of [delete_cells]: the row splits into what stays, what
    goes, and what moves. *)
Lemma delete_clears column count r :
  wide_ok (cells r) → short (cells r) → (0 < count)%nat → (column + count ≤ row_len r)%nat →
  ∃ r1 r2, clear_wide_intersections column (column + count) r = Ok r1 ∧
    (if bool_decide (column + count < row_len r1)%nat
     then clear_wide_intersections (column + count) (column + count + 1) r1 else Ok r1) = Ok r2 ∧
    row_len r1 = row_len r ∧ row_len r2 = row_len r ∧ linebreak r2 = linebreak r ∧
    wiped (λ j, column ≤ j ≤ S (column + count))%nat (cells r) (cells r2) ∧
    wide_ok (take column (cells r2)) ∧ wide_ok (drop (column + count) (cells r2)) ∧
    (∀ k, (column ≤ k ≤ column + count)%nat → continues (cells r2) k = false).
Proof.
  intros Hw Hs Hn Hle.
  destruct (clear_wide_cleared column (column + count) r Hw Hs) as (r1 & Hr1 & Hl1 & Hcl1); [lia|lia|].
  pose proof (cleared_length _ _ _ _ _ Hcl1) as Hlen1. fold (row_len r1) (row_len r) in Hlen1.
  pose proof (short_length _ _ Hlen1 Hs) as Hs1.
  assert (wiped (λ j, column ≤ j ≤ S (column + count))%nat (cells r) (cells r1)) as Hw1.
  { eapply wiped_mono; [|apply (cleared_wiped _ _ _ _ _ [] Hcl1); [done|lia]]. simpl. lia. }
  destruct (cleared_boundary _ _ _ _ _ column Hcl1) as [HA _]; [lia|fold (row_len r); lia|].
  destruct (cleared_boundary _ _ _ _ _ (column + count) Hcl1) as [HX HB]; [lia|fold (row_len r); lia|].
  rewrite Nat.sub_0_r in *. exists r1.
  assert (∀ k, (column ≤ k ≤ column + count)%nat → continues (cells r1) k = false) as Hin1.
  { intros k Hk. destruct (cleared_boundary _ _ _ _ _ k Hcl1) as [_ Hk']; [lia|fold (row_len r); lia|].
    rewrite Nat.sub_0_r in Hk'. apply wide_ok_fresh in Hk'. by apply drop_fresh. }
  destruct (decide (column + count < row_len r1)%nat) as [Hlt|Hge].
  - rewrite bool_decide_eq_true_2 by done.
    set (X := take (column + count) (cells r1)) in *. set (B := drop (column + count) (cells r1)) in *.
    assert (cells r1 = X ++ B) as Hc1 by (symmetry; apply take_drop).
    assert (length X = column + count)%nat as HlX by (subst X; rewrite length_take; fold (row_len r1); lia).
    destruct (clear_after (column + count) (column + count + 1) X B r1 HX HB Hc1 Hs1)
      as (r2 & B' & Hr2 & Hl2 & Hc2 & Hcl2); [lia..|].
    pose proof (cleared_length _ _ _ _ _ Hcl2) as HlB.
    exists r2. split_and!; try done.
    + unfold row_len at 1. rewrite Hc2, length_app, HlB, <-length_app, <-Hc1. done.
    + congruence.
    + eapply wiped_trans; [exact Hw1|]. rewrite Hc1, Hc2. rewrite HlX in Hcl2.
      eapply wiped_mono; [|apply (cleared_wiped _ _ _ _ _ X Hcl2); [done|lia]]. simpl. lia.
    + rewrite Hc2, take_app_le by lia. subst X. rewrite take_take.
      by replace (column `min` (column + count))%nat with column by lia.
    + rewrite Hc2, drop_app_length' by done. by eapply cleared_wide_ok.
    + intros k Hk. specialize (Hin1 k Hk). destruct (continues (cells r2) k) eqn:Hx; [|done].
      rewrite <-Hin1. symmetry. rewrite HlX in Hcl2. pose proof (cleared_wiped _ _ _ _ _ X Hcl2 (eq_sym HlX) ltac:(lia)) as Hw2.
      rewrite <-Hc1, <-Hc2 in Hw2. by eapply wiped_continues.
  - rewrite bool_decide_eq_false_2 by done. exists r1. by split_and!.
Qed.

(** Erasing the tail [T] the moved cells [B] left behind. *)
Lemma erase_moved background A B T r :
  wide_ok (A ++ B) → cells r = (A ++ B) ++ T → short (cells r) → T ≠ [] →
  fresh_start T ∨ (B ≠ [] ∧ ∃ t rest, T = t ++ rest ∧ t ≠ [] ∧ tail_ok t ∧ fresh_start rest) →
  ∃ moved, (moved = B ∨ ~ fresh_start T ∧ moved = removelast B ++ [Cell_default]) ∧
    wide_ok (A ++ moved) ∧ length moved = length B ∧
    erase (length (A ++ B)) (row_len r) background r =
      Ok {| cells := (A ++ moved) ++ replicate (length T) (blank background); dirty := true; linebreak := linebreak r |}.
Proof.
  intros HAB Hc Hs HT Hcut.
  assert (row_len r = length (A ++ B) + length T)%nat as Hlen by (unfold row_len; by rewrite Hc, length_app).
  destruct (decide (fresh_start T)) as [Hf|Hnf].
  { exists B. split_and!; [by left|done|done|]. rewrite Hlen.
    rewrite (erase_piece background (A ++ B) T []) by (done || constructor || by rewrite app_nil_r). by rewrite app_nil_r. }
  destruct Hcut as [|(HB & t & rest & -> & Hne & Ht & Hrest)]; [done|].
  destruct (clear_cut (A ++ B) t rest r HAB Hne Ht Hrest Hc Hs) as (r' & AB' & G & Hcl & Hl & Hc' & HlAB & Hok & Hcase).
  assert (∃ moved, AB' = A ++ moved ∧ length moved = length B ∧ (moved = B ∨ moved = removelast B ++ [Cell_default]))
    as (moved & -> & Hlm & Hm).
  { destruct Hcase as [->| ->]; [exists B; by split_and!; [..|left]|].
    exists (removelast B ++ [Cell_default]). rewrite removelast_app, app_assoc by done. split; [done|].
    split; [|by right]. destruct B as [|b B _] using rev_ind; [done|]. by rewrite removelast_last, !length_app. }
  exists moved. split_and!; [|done|done|].
  { destruct Hm as [|Hm]; [by left|by right]. }
  unfold erase. rewrite range_ok by lia. rewrite Hcl. cbn [obind]. fold (blank background).
  assert (length (cells r') = row_len r) as Hlr.
  { destruct (clear_loop_total (row_len r) 0 (length (A ++ B)) (row_len r) r) as (r2 & Hr2 & Hl2 & _); [lia|].
    unfold clear_wide_intersections in Hcl. rewrite range_ok in Hcl by lia. fold (row_len r'). congruence. }
  rewrite map_range_const by lia. rewrite (drop_ge (cells r')), app_nil_r by lia.
  unfold set_dirty, set_cells. simpl. rewrite Hl. do 2 f_equal.
  rewrite Hc'. rewrite <-HlAB, take_app_length. f_equal. f_equal. rewrite HlAB. lia.
Qed.

Lemma delete_cells_runs column n background r :
  wide_ok (cells r) → short (cells r) → (column < row_len r)%nat → (0 < n)%nat →
  let count := Nat.min n (row_len r - column) in
  ∃ cs moved d, wiped (λ j, column ≤ j ≤ S (column + count))%nat (cells r) cs ∧
    (moved = drop (column + count) cs ∨
     continues (cells r) (row_len r - count) = true ∧
     moved = removelast (drop (column + count) cs) ++ [Cell_default]) ∧
    let cs' := take column cs ++ moved ++ replicate count (blank background) in
    wide_ok cs' ∧ length cs' = row_len r ∧
    delete_cells column n background r = Ok {| cells := cs'; dirty := d; linebreak := linebreak r |}.
Proof.
  intros Hw Hs Hcol Hn count. unfold delete_cells. rewrite bool_decide_eq_true_2 by done. fold count.
  rewrite bool_decide_eq_false_2 by lia.
  destruct (delete_clears column count r) as (r1 & r2 & -> & Hr2 & Hlen1 & Hlen2 & Hl2 & Hwi & HA & HB & Hmid); [done|done|lia|lia|].
  cbn [obind]. rewrite Hr2. cbn [obind].
  set (A := take column (cells r2)) in *. set (B := drop (column + count) (cells r2)) in *.
  set (T := drop (row_len r - count) (cells r2)).
  assert (length A = column) as HlA by (subst A; rewrite length_take; fold (row_len r2); lia).
  assert (length B = row_len r - column - count)%nat as HlB by (subst B; rewrite length_drop; fold (row_len r2); lia).
  assert (length T = count) as HlT by (subst T; rewrite length_drop; fold (row_len r2); lia).
  assert (copy_within (column + count) (row_len r2) column (cells r2) = (A ++ B) ++ T) as ->.
  { unfold copy_within. fold A B. rewrite (take_ge B) by lia. rewrite <-app_assoc. do 2 f_equal. subst T. f_equal. lia. }
  set (r3 := set_cells ((A ++ B) ++ T) r2).
  assert (row_len r3 = row_len r) as Hlen3 by (unfold row_len at 1; simpl; rewrite !length_app; lia).
  assert (continues (cells r2) (row_len r - count) = true → continues (cells r) (row_len r - count) = true) as Hcont
    by (apply (wiped_continues _ _ _ _ Hwi)).
  destruct (erase_moved background A B T r3) as (moved & Hmoved & Hok & Hlm & Herase).
  - by apply wide_ok_app.
  - done.
  - by eapply short_length.
  - intros ->. simpl in HlT. lia.
  - destruct (continues (cells r2) (row_len r - count)) eqn:Hx; [right|left; by apply fresh_drop].
    assert (column + count < row_len r - count)%nat as Hcut.
    { destruct (decide (row_len r - count ≤ column + count)%nat); [|lia]. rewrite Hmid in Hx by lia. done. }
    split; [intros ->; simpl in HlB; lia|]. replace T with (drop (row_len r - count - (column + count)) B).
    2:{ subst B T. rewrite drop_drop. f_equal. lia. }
    apply drop_inside; [done|]. subst B. unfold continues, spacer_at in *. rewrite lookup_drop.
    by replace (column + count + (row_len r - count - (column + count)))%nat with (row_len r - count)%nat by lia.
  - rewrite length_app, HlA, HlB in Herase.
    replace (row_len r3 - count)%nat with (column + (row_len r - column - count))%nat by lia. rewrite Herase.
    cbn [obind]. exists (cells r2), moved, true. split; [done|]. split.
    { destruct Hmoved as [|[Hnf Hm]]; [by left|right]. split; [|done]. apply Hcont.
      destruct (continues (cells r2) (row_len r - count)) eqn:Hx; [done|]. exfalso. by apply Hnf, fresh_drop. }
    fold A. cbv zeta. rewrite HlT, app_assoc.
    assert (wide_ok ((A ++ moved) ++ replicate count (blank background))) as Hend
      by (apply wide_ok_app; [done|by apply wide_ok_replicate, blank_narrow]).
    assert (length ((A ++ moved) ++ replicate count (blank background)) = row_len r) as Hll
      by (rewrite !length_app, length_replicate; lia).
    split_and!; [done|done|]. rewrite repair_wide_cells_id; [by rewrite <-Hl2|done|by eapply short_length].
Qed.

(** Deleting cells from a well-formed row terminates and is exact: the row,
    with only the wide characters touching the deleted columns wiped, loses
    these columns, the rest moves left and blanks fill the tail; but when the
    vacated tail starts inside a wide character, the last cell that moved may be
    wiped as well. *)
Theorem delete_cells_exact column n background r :
  wide_ok (cells r) → short (cells r) → (column < row_len r)%nat → (0 < n)%nat →
  let count := Nat.min n (row_len r - column) in
  ∃ cs moved d, wiped (λ j, column ≤ j ≤ S (column + count))%nat (cells r) cs ∧
    (moved = drop (column + count) cs ∨
     continues (cells r) (row_len r - count) = true ∧
     moved = removelast (drop (column + count) cs) ++ [Cell_default]) ∧
    let cs' := take column cs ++ moved ++ replicate count (blank background) in
    wide_ok cs' ∧ length cs' = row_len r ∧
    delete_cells column n background r = Ok {| cells := cs'; dirty := d; linebreak := linebreak r |}.
Proof. apply delete_cells_runs. Qed.

(** Otherwise deleting loses a character that neither was deleted nor
    touched the deleted columns: in a row of x, y, z, a wide character and A,
    deleting two cells at the left edge leaves z and the wide character, and
    wipes A, which is joined to the stale continuation in the vacated tail. *)
Theorem delete_cells_wipes_neighbour :
  let ch n := {| cell_content := n; attributes := Attributes_default |} in
  let r := {| cells := [ch 0x78; ch 0x79; ch 0x7a; ch 0x4f5c; ch (SPACER_BASE + 1); ch 0x41];
              dirty := false; linebreak := true |} in
  has_valid_wide_cells r = true ∧
  delete_cells 0 2 Color_default r =
    Ok {| cells := [ch 0x7a; ch 0x4f5c; ch (SPACER_BASE + 1); ch 0; ch 0; ch 0];
          dirty := true; linebreak := true |}.
Proof. vm_compute. by split. Qed.

(** The repair loop does not terminate on a complete wide character that is
    followed by one more continuation of the same payload, so validating a
    checkpoint row with these cells, each of them valid, never returns. *)
Theorem repair_diverges fuel :
  let ch n := {| cell_content := n; attributes := Attributes_default |} in
  let cs := [ch 0x41; ch (SPACER_BASE + 1); ch (SPACER_BASE + 1)] in
  forallb (checkpoint_is_valid 0) cs = true ∧ repair_loop fuel 0 cs = Err OutOfFuel.
Proof.
  intros ch cs. split; [done|].
  assert (∀ fuel, repair_loop fuel 2 cs = Err OutOfFuel) as H2.
  { induction fuel0 as [|f IH]; [done|]. etrans; [|exact IH]. reflexivity. }
  destruct fuel as [|[|f]]; [done|done|]. etrans; [|exact (H2 f)]. reflexivity.
Qed.

(** ** The validator decides well-formedness *)

Lemma spacer_at_0 pre cs : spacer_at (pre ++ cs) (length pre) = cs !! 0%nat ≫= spacer_of.
Proof. rewrite <-(Nat.add_0_r (length pre)). by rewrite spacer_at_app. Qed.

Lemma skip_spec fuel pre cs e :
  0 ≤ e → (length cs < fuel)%nat →
  match skip_continuations fuel (length pre) e (pre ++ cs) with
  | Some next => ∃ tail rest, cs = tail ++ rest ∧ tail_ok tail ∧ Z.of_nat (length tail) = e ∧
                   next = (length pre + length tail)%nat
  | None => ∀ tail rest, cs = tail ++ rest → tail_ok tail → Z.of_nat (length tail) ≠ e
  end.
Proof.
  revert pre cs e. induction fuel as [|fuel IH]; intros pre cs e He Hf; [lia|]. cbn [skip_continuations].
  destruct (Z.leb_spec e 0).
  { exists [], cs. split_and!; simpl; try done; lia. }
  rewrite spacer_at_0. destruct cs as [|c cs]; simpl.
  { intros [|t tail] rest Heq; simpl in *; [lia|done]. }
  case_bool_decide as Hc.
  - specialize (IH (pre ++ [c]) cs (e - 1)). rewrite <-app_assoc, length_app in IH. simpl in IH, Hf.
    replace (length pre + 1)%nat with (S (length pre)) in IH by lia.
    specialize (IH ltac:(lia) ltac:(lia)). destruct (skip_continuations _ _ _ _) as [next|].
    + destruct IH as (tail & rest & -> & Ht & Hl & ->). exists (c :: tail), rest. simpl.
      split_and!; try done; try lia. rewrite Hc. f_equal. lia.
    + intros [|t tail] rest Heq Ht; simpl in *; [lia|]. simplify_eq. destruct Ht as [_ Ht].
      specialize (IH tail rest eq_refl Ht). lia.
  - intros [|t tail] rest Heq Ht; simpl in *; [lia|]. simplify_eq. destruct Ht as [Ht _]. intros Hl.
    apply Hc. rewrite Ht. f_equal. lia.
Qed.

Lemma wide_ok_inv c cs :
  wide_ok (c :: cs) → continuation c = false ∧
  ∃ tail rest, cs = tail ++ rest ∧ (tail ≠ [] → spacer_of c = None) ∧ tail_ok tail ∧ wide_ok rest.
Proof. inversion 1; subst. split; [done|]. by eexists _, _. Qed.

(** Continuations only come as complete tails. *)
Lemma tail_count c cs tail rest :
  c :: cs = tail ++ rest → tail_ok tail → wide_ok rest →
  (tail = [] ∧ continuation c = false) ∨ spacer_of c = Some (Z.of_nat (length tail)).
Proof.
  destruct tail as [|t tail]; simpl; intros Heq Ht Hr.
  - left. split; [done|]. subst rest. by apply wide_ok_fresh in Hr.
  - simplify_eq. by right; destruct Ht.
Qed.

Lemma valid_from_spec m cs pre fuel :
  length cs = m → (m ≤ fuel)%nat → valid_from fuel (length pre) (pre ++ cs) = true ↔ wide_ok cs.
Proof.
  revert cs pre fuel. induction m as [m IH] using lt_wf_ind; intros cs pre fuel Hm Hf.
  destruct cs as [|c cs].
  { rewrite app_nil_r. split; [constructor|]. intros _. destruct fuel; simpl; by rewrite bool_decide_eq_true_2. }
  simpl in Hm. destruct fuel as [|fuel]; [lia|]. cbn [valid_from].
  rewrite bool_decide_eq_false_2 by (rewrite length_app; simpl; lia). rewrite spacer_at_0.
  change ((c :: cs) !! 0%nat ≫= spacer_of) with (spacer_of c). cbv zeta.
  assert (valid_from fuel (S (length pre)) (pre ++ c :: cs) = true ↔ wide_ok cs) as Hnext.
  { replace (pre ++ c :: cs) with ((pre ++ [c]) ++ cs) by by rewrite <-app_assoc.
    replace (S (length pre)) with (length (pre ++ [c])) by (rewrite length_app; simpl; lia).
    apply (IH (length cs)); lia. }
  assert (spacer_at (pre ++ c :: cs) (S (length pre)) = cs !! 0%nat ≫= spacer_of) as Hsp.
  { replace (S (length pre)) with (length pre + 1)%nat by lia. by rewrite spacer_at_app. }
  destruct (spacer_of c) as [n|] eqn:Hn.
  - pose proof (spacer_nonneg _ _ Hn). destruct (Z.eqb_spec n 0) as [->|Hne].
    + rewrite Hnext. split.
      * intros Hw. apply wide_ok_narrow; [|done]. unfold continuation. by rewrite Hn.
      * intros (_ & tail & rest & -> & Hl & Ht & Hr)%wide_ok_inv.
        destruct tail; [done|]. specialize (Hl ltac:(done)). congruence.
    + split; [done|]. intros [Hc _]%wide_ok_inv. unfold continuation in Hc. rewrite Hn in Hc. lia.
  - assert (continuation c = false) as Hcf by (unfold continuation; by rewrite Hn).
    rewrite Hsp. destruct cs as [|d cs].
    { change (([] : list Cell) !! 0%nat ≫= spacer_of) with (@None Z). cbv beta iota zeta. rewrite Hnext. split; [intros; by apply wide_ok_narrow|intros; constructor]. }
    change ((d :: cs) !! 0%nat ≫= spacer_of) with (spacer_of d).
    destruct (spacer_of d) as [f|] eqn:Hd.
    2: { rewrite Hnext. split; [intros; by apply wide_ok_narrow|].
      intros (_ & tail & rest & Heq & _ & Ht & Hr)%wide_ok_inv.
      destruct (tail_count _ _ _ _ Heq Ht Hr) as [[-> _]|]; [by rewrite Heq|congruence]. }
    pose proof (spacer_nonneg _ _ Hd). destruct (Z.eqb_spec f 0) as [->|Hne].
    { rewrite Hnext. split; [intros; by apply wide_ok_narrow|].
      intros (_ & tail & rest & Heq & _ & Ht & Hr)%wide_ok_inv.
      destruct (tail_count _ _ _ _ Heq Ht Hr) as [[-> _]|Hx]; [by rewrite Heq|].
      destruct tail; [by rewrite Heq|]. simpl in Hx. rewrite Hd in Hx. simplify_eq. }
    pose proof (skip_spec (S (length (pre ++ c :: d :: cs))) (pre ++ [c]) (d :: cs) f ltac:(lia)) as Hskip.
    rewrite <-app_assoc, (length_app pre [c]) in Hskip. simpl app in Hskip.
    specialize (Hskip ltac:(rewrite length_app; simpl; lia)).
    replace (S (length pre)) with (length pre + length [c])%nat by (simpl; lia).
    destruct (skip_continuations _ _ _ _) as [next|].
    + destruct Hskip as (tail & rest & Heq & Ht & Hl & ->). rewrite Heq.
      replace (pre ++ c :: tail ++ rest) with ((pre ++ c :: tail) ++ rest) by by rewrite <-app_assoc.
      replace (length pre + length [c] + length tail)%nat with (length (pre ++ c :: tail)) by (rewrite length_app; simpl; lia).
      assert (length (d :: cs) = length tail + length rest)%nat as Hll by by rewrite Heq, length_app.
      rewrite (IH (length rest)); [|simpl in *; lia|done|simpl in *; lia]. split; [intros; by constructor|].
      intros (_ & tail2 & rest2 & Heq2 & _ & Ht2 & Hr2)%wide_ok_inv.
      rewrite <-Heq in Heq2. destruct (tail_count _ _ _ _ Heq2 Ht2 Hr2) as [[_ Hx]|Hx].
      * unfold continuation in Hx. rewrite Hd in Hx. lia.
      * rewrite Hd in Hx. assert (length tail2 = length tail) as Hlt by (simplify_eq; lia).
        rewrite Heq in Heq2. apply app_inj_1 in Heq2 as [_ ->]; [done|lia].
    + split; [done|]. intros (_ & tail & rest & Heq & _ & Ht & Hr)%wide_ok_inv. exfalso.
      destruct (tail_count _ _ _ _ Heq Ht Hr) as [[_ Hx]|Hx].
      * unfold continuation in Hx. rewrite Hd in Hx. lia.
      * rewrite Hd in Hx. apply (Hskip tail rest Heq Ht). congruence.
Qed.

(** [has_valid_wide_cells] terminates and decides well-formedness: every
    continuation belongs to a complete group that counts down to one behind a
    leader cell. *)
Theorem has_valid_wide_cells_decides r : has_valid_wide_cells r = true ↔ wide_ok (cells r).
Proof. apply (valid_from_spec (row_len r) (cells r) []); done. Qed.

(** ** Resizing *)

Lemma wide_ok_split cs k :
  wide_ok cs → (k < length cs)%nat →
  ∃ A leader tail rest, cs = A ++ leader :: tail ++ rest ∧ wide_ok A ∧ wide_ok rest ∧
    continuation leader = false ∧ tail_ok tail ∧ (length A ≤ k < length A + S (length tail))%nat.
Proof.
  intros Hw. revert k. induction Hw as [|leader tail rest Hl Hlt Ht Hw IH]; intros k Hk; simpl in *; [lia|].
  rewrite length_app in Hk. destruct (decide (k < S (length tail))%nat) as [Hin|Hout].
  - exists [], leader, tail, rest. split_and!; simpl; try done; try lia; apply wide_nil.
  - destruct (IH (k - S (length tail))%nat) as (A & l2 & t2 & r2 & -> & HA & Hr & Hl2 & Ht2 & Hk2); [lia|].
    exists (leader :: tail ++ A), l2, t2, r2. split_and!; try done.
    + by rewrite <-!app_comm_cons, <-!app_assoc.
    + by constructor.
    + simpl. rewrite length_app. lia.
    + simpl. rewrite length_app. lia.
Qed.

Lemma clear_content_narrow c : continuation (clear_content c) = false.
Proof. done. Qed.

Lemma wide_ok_all_narrow cs : Forall (λ c, continuation c = false) cs → wide_ok cs.
Proof. induction 1; [constructor|]. by apply wide_ok_narrow. Qed.

(** Resizing a well-formed row without reflow gives a well-formed row of
    the new width that extends the old cells with empty ones, or is their
    prefix in which a wide character cut by the new edge has lost its content
    (and nothing else). *)
Theorem resize_without_reflow_exact columns r :
  wide_ok (cells r) →
  let cs := cells (resize_without_reflow columns r) in
  wide_ok cs ∧ length cs = columns ∧ linebreak (resize_without_reflow columns r) = linebreak r ∧
  ∀ i, (i < columns)%nat →
    cs !! i = (if bool_decide (i < row_len r)%nat then cells r !! i else Some Cell_default) ∨
    (cs !! i = clear_content <$> cells r !! i ∧ joined (cells r) i columns).
Proof.
  intros Hw. unfold resize_without_reflow. cbv zeta.
  destruct (decide (row_len r < columns)%nat) as [Hgrow|Hle].
  { rewrite bool_decide_eq_true_2 by done. unfold row_len in *. simpl. split_and!.
    - apply wide_ok_app; [done|by apply wide_ok_replicate].
    - rewrite length_app, length_replicate. lia.
    - done.
    - intros i Hi. left. case_bool_decide; [by rewrite lookup_app_l|].
      rewrite lookup_app_r by lia. apply lookup_replicate_2. lia. }
  rewrite bool_decide_eq_false_2 by done.
  destruct (decide (columns < row_len r)%nat) as [Hshrink|Hge].
  2: { rewrite bool_decide_eq_false_2 by done. unfold row_len in *. split_and!; try done; [lia|].
    intros i Hi. left. by rewrite bool_decide_eq_true_2 by lia. }
  rewrite bool_decide_eq_true_2 by done. unfold row_len in Hshrink.
  destruct (wide_ok_split _ _ Hw Hshrink) as (A & leader & tail & rest & Hcs & HA & Hr & Hl & Ht & Hk).
  assert (∀ k, (length A < k < length A + S (length tail))%nat → continues (cells r) k = true) as Hcont.
  { intros k Hkr. unfold continues. rewrite Hcs. replace k with (length A + S (k - length A - 1))%nat by lia.
    rewrite spacer_at_app. unfold spacer_at. simpl. rewrite lookup_app_l by lia.
    destruct (lookup_lt_is_Some_2 tail (k - length A - 1)) as [c Hc]; [lia|]. rewrite Hc.
    exact (tail_ok_continues tail _ c Ht Hc). }
  destruct (decide (columns = length A)) as [->|Hne].
  - assert (continues (cells r) (length A) = false) as -> by by rewrite Hcs, continues_app.
    rewrite andb_false_r. simpl. rewrite Hcs, take_app_length. split_and!; try done.
    intros i Hi. left. unfold row_len. rewrite bool_decide_eq_true_2 by lia.
    by rewrite lookup_app_l by lia.
  - rewrite Hcont by lia. rewrite bool_decide_eq_true_2 by lia. cbn [andb].
    set (m := (columns - length A)%nat).
    assert (leader_of (cells r) columns = length A) as ->.
    { rewrite Hcs. replace columns with (length A + m)%nat by lia. apply leader_of_app; [done|done|lia]. }
    assert (take columns (map_range clear_content (length A) columns (cells r)) =
      A ++ (clear_content <$> take m (leader :: tail ++ rest))) as Hcut.
    { unfold map_range. rewrite Hcs, take_app_length, drop_app_length. fold m.
      rewrite app_assoc, take_app_length'; [done|].
      rewrite length_app, length_fmap, length_take. simpl. rewrite length_app. lia. }
    cbn [cells set_cells]. rewrite Hcut. split_and!.
    + apply wide_ok_app; [done|]. apply wide_ok_all_narrow, Forall_fmap, Forall_true. intros c.
      apply clear_content_narrow.
    + rewrite length_app, length_fmap, length_take. simpl. rewrite length_app. lia.
    + done.
    + intros i Hi. destruct (decide (i < length A)%nat) as [Hlt|Hgei].
      * left. unfold row_len. rewrite bool_decide_eq_true_2 by lia.
        rewrite Hcs, !lookup_app_l by lia. done.
      * right. rewrite lookup_app_r by lia. rewrite list_lookup_fmap, lookup_take_lt by lia. split.
        -- rewrite Hcs, lookup_app_r by lia. done.
        -- intros k Hkr. apply Hcont. lia.
Qed.

(** ** Checkpoint encoding *)

Lemma rposition_ne_snoc last cs c :
  rposition_ne last (cs ++ [c]) = if bool_decide (c ≠ last) then Some (length cs) else rposition_ne last cs.
Proof.
  unfold rposition_ne. rewrite imap_app, foldl_app. simpl. by rewrite Nat.add_0_r.
Qed.

Lemma rposition_ne_spec x cs :
  match rposition_ne x cs with
  | Some i => (i < length cs)%nat ∧ (∃ c, cs !! i = Some c ∧ c ≠ x) ∧
              ∀ j, (i < j < length cs)%nat → cs !! j = Some x
  | None => ∀ j, (j < length cs)%nat → cs !! j = Some x
  end.
Proof.
  induction cs as [|c cs IH] using rev_ind; [intros j Hj; simpl in Hj; lia|].
  rewrite rposition_ne_snoc, length_app. simpl. case_bool_decide as Hc.
  - split_and!; [lia| |lia]. exists c. by rewrite lookup_app_r, Nat.sub_diag by lia.
  - subst c. destruct (rposition_ne x cs) as [i|].
    + destruct IH as (H1 & (c' & Hc' & Hne) & H3). split_and!; [lia| |].
      * exists c'. by rewrite lookup_app_l by lia.
      * intros j Hj. destruct (decide (j = length cs)) as [->|]; [by rewrite lookup_app_r, Nat.sub_diag by lia|].
        rewrite lookup_app_l by lia. apply H3. lia.
    + intros j Hj. destruct (decide (j = length cs)) as [->|]; [by rewrite lookup_app_r, Nat.sub_diag by lia|].
      rewrite lookup_app_l by lia. apply IH. lia.
Qed.

(** The stored cells, their last one repeated, are the row. *)
Lemma used_cells_spec cs x :
  list.last cs = Some x →
  (0 < used_cells cs ≤ length cs)%nat ∧ list.last (take (used_cells cs) cs) = Some x ∧
  cs = take (used_cells cs) cs ++ replicate (length cs - used_cells cs) x.
Proof.
  intros Hx. unfold used_cells. rewrite Hx. pose proof (rposition_ne_spec x cs) as Hr.
  assert (cs !! (length cs - 1)%nat = Some x) as Hl by by rewrite last_lookup in Hx; rewrite Nat.sub_1_r.
  pose proof (lookup_lt_Some _ _ _ Hl) as Hlen.
  set (u := match rposition_ne x cs with Some i => (i + 2)%nat | None => 1%nat end).
  assert ((0 < u ≤ length cs)%nat ∧ ∀ j, (u - 1 ≤ j < length cs)%nat → cs !! j = Some x) as [Hu Hall].
  { subst u. destruct (rposition_ne x cs) as [i|].
    - destruct Hr as (Hi & (c & Hc & Hne) & Hj). split; [|intros; apply Hj; lia].
      assert (i ≠ length cs - 1)%nat by congruence. lia.
    - split; [lia|]. intros. apply Hr. lia. }
  split; [done|]. split.
  - rewrite last_lookup, length_take. rewrite lookup_take_lt by lia. apply Hall. lia.
  - apply list_eq_same_length with (length cs); [rewrite length_app, length_take, length_replicate; lia|done|].
    intros j a b Hj Ha Hb. destruct (decide (j < u)%nat).
    + rewrite lookup_app_l, lookup_take_lt in Hb by (rewrite ?length_take; lia). congruence.
    + rewrite Hall in Ha by lia.
      rewrite lookup_app_r in Hb by (rewrite length_take; lia). apply lookup_replicate in Hb as [-> _]. congruence.
Qed.

Lemma as_chunks_bind (f : Cell → list Z) l fuel :
  Forall (λ c, length (f c) = 18%nat) l → (length l ≤ fuel)%nat → as_chunks fuel (l ≫= f) = (f <$> l, false).
Proof.
  intros Hl. revert fuel. induction Hl as [|c l Hc Hl IH]; intros fuel Hf; csimpl.
  - by destruct fuel.
  - destruct fuel as [|fuel]; [simpl in Hf; lia|]. cbn [as_chunks].
    rewrite bool_decide_eq_false_2 by (rewrite length_app; lia).
    rewrite drop_app_length', take_app_length' by done. rewrite IH by (simpl in Hf; lia). done.
Qed.

Lemma read_cells_write l :
  Forall cell_words_ok l → read_cells (write_checkpoint <$> l) = Some l.
Proof.
  induction 1 as [|c l Hc Hl IH]; csimpl; [done|].
  destruct (write_checkpoint_bytes c Hc) as (_ & _ & ->). by rewrite IH.
Qed.

Lemma write_all_bytes l :
  Forall cell_words_ok l →
  Forall (λ b, 0 ≤ b < 256) (l ≫= write_checkpoint) ∧ length (l ≫= write_checkpoint) = (18 * length l)%nat.
Proof.
  induction 1 as [|c l Hc Hl [IH1 IH2]]; [by split; [constructor|]|].
  destruct (write_checkpoint_bytes c Hc) as (H1 & H2 & _).
  change ((c :: l) ≫= write_checkpoint) with (write_checkpoint c ++ (l ≫= write_checkpoint)).
  rewrite length_app, IH2, H1. split; [by apply Forall_app|simpl; lia].
Qed.

(** Checkpoint round trip of a row's cells: for any base64 that decodes
    what it encodes, a row of at most 65,536 columns is restored exactly from
    its width and the encoding of its cells without the repeated tail. *)
Theorem cells_checkpoint_round_trip `{Base64Laws} cs :
  Forall cell_words_ok cs → Z.of_nat (length cs) ≤ MAX_CHECKPOINT_COLUMNS →
  let '(columns, encoded) := serialize_cells cs in deserialize_cells columns encoded = Some cs.
Proof.
  intros Hw Hlen. unfold serialize_cells, deserialize_cells.
  set (l := take (used_cells cs) cs). assert (Forall cell_words_ok l) as Hl by by apply Forall_take.
  destruct (write_all_bytes l Hl) as [Hb Hbl].
  assert (length l ≤ length cs)%nat as Hle by (subst l; rewrite length_take; lia).
  rewrite (proj2 (Z.ltb_ge MAX_CHECKPOINT_COLUMNS _)) by done.
  rewrite base64_length, (proj2 (Z.ltb_ge _ _)).
  2: { rewrite Hbl. unfold MAX_CHECKPOINT_COLUMNS, CHECKPOINT_CELL_BYTES in *.
    apply Z.mul_le_mono_nonneg_r; [lia|]. apply Z.div_le_mono; lia. }
  cbn [orb]. rewrite base64_round_trip by done.
  rewrite as_chunks_bind; [|eapply Forall_impl; [exact Hl|]; intros c Hc; by apply write_checkpoint_bytes|lia].
  rewrite length_fmap, bool_decide_eq_false_2, read_cells_write by (done || lia).
  destruct (list.last cs) as [x|] eqn:Hx.
  - destruct (used_cells_spec cs x Hx) as (Hu & Hlast & Heq). fold l in Hlast, Heq.
    assert (length l = used_cells cs) as Hul by (subst l; rewrite length_take; lia).
    rewrite (bool_decide_eq_false_2 (write_checkpoint <$> l = [])), (bool_decide_eq_false_2 (length cs = 0%nat)).
    + simpl. rewrite Hlast, Hul. by rewrite <-Heq.
    + lia.
    + intros Hn. apply (f_equal length) in Hn. rewrite length_fmap in Hn. simpl in Hn. lia.
  - apply last_None in Hx as ->. subst l. by rewrite take_nil.
Qed.

(** The standard alphabet with padding. *)
Module standard_base64.
Definition enc6 (i : Z) : Z :=
if i <? 26 then 65 + i else if i <? 52 then 71 + i else if i <? 62 then i - 4
else if i =? 62 then 43 else 47.

Definition dec6 (c : Z) : Z :=
if c =? 43 then 62 else if c =? 47 then 63 else if c <? 58 then c + 4
else if c <? 91 then c - 65 else c - 71.

Fixpoint encode (bytes : list Z) : list Z :=
match bytes with
| [] => []
| [a] => [enc6 (a / 4); enc6 (a mod 4 * 16); 61; 61]
| [a; b] => [enc6 (a / 4); enc6 (a mod 4 * 16 + b / 16); enc6 (b mod 16 * 4); 61]
| a :: b :: c :: rest =>
    enc6 (a / 4) :: enc6 (a mod 4 * 16 + b / 16) :: enc6 (b mod 16 * 4 + c / 64)
      :: enc6 (c mod 64) :: encode rest
end.

Fixpoint decode (s : list Z) : option (list Z) :=
match s with
| [] => Some []
| p :: q :: r :: t :: rest =>
    let a := dec6 p * 4 + dec6 q / 16 in
    let b := dec6 q mod 16 * 16 + dec6 r / 4 in
    let c := dec6 r mod 4 * 64 + dec6 t in
    match decode rest with
    | None => None
    | Some bytes =>
        Some (if r =? 61 then a :: bytes else if t =? 61 then a :: b :: bytes
              else a :: b :: c :: bytes)
    end
| _ => None
end.

Lemma dec6_enc6 i : 0 ≤ i < 64 → dec6 (enc6 i) = i ∧ (enc6 i =? 61) = false.
Proof.
intros Hi. unfold dec6, enc6.
destruct (Z.ltb_spec i 26), (Z.ltb_spec i 52), (Z.ltb_spec i 62), (Z.eqb_spec i 62); try lia;
  (split; [|lia]);
  repeat match goal with |- context [?x =? ?y] => destruct (Z.eqb_spec x y) end;
  repeat match goal with |- context [?x <? ?y] => destruct (Z.ltb_spec x y) end; lia.
Qed.

Lemma decode_encode_length bytes :
(Forall (λ b, 0 ≤ b < 256) bytes → decode (encode bytes) = Some bytes) ∧
Z.of_nat (length (encode bytes)) = (Z.of_nat (length bytes) + 2) / 3 * 4.
Proof.
remember (length bytes) as n eqn:Hn. revert bytes Hn.
induction n as [n IH] using lt_wf_ind; intros bytes Hn.
destruct bytes as [|a [|b [|c rest]]].
- by subst n.
- subst n. split; [|done]. intros [Ha _]%Forall_cons. cbn [encode decode].
  rewrite !(λ i Hi, proj1 (dec6_enc6 i Hi)) by (Z.div_mod_to_equations; lia).
  rewrite Z.eqb_refl. do 2 f_equal. Z.div_mod_to_equations; lia.
- subst n. split; [|done]. intros [Ha [Hb _]%Forall_cons]%Forall_cons. cbn [encode decode].
  rewrite !(λ i Hi, proj1 (dec6_enc6 i Hi)) by (Z.div_mod_to_equations; lia).
  rewrite (proj2 (dec6_enc6 (b mod 16 * 4) ltac:(Z.div_mod_to_equations; lia))), Z.eqb_refl.
  do 2 f_equal; [|f_equal]; Z.div_mod_to_equations; lia.
- destruct (IH (length rest) ltac:(simpl in Hn; lia) rest eq_refl) as [IH1 IH2]. split.
  + intros [Ha [Hb [Hc Hr]%Forall_cons]%Forall_cons]%Forall_cons. cbn [encode decode]. rewrite (IH1 Hr).
    rewrite !(λ i Hi, proj1 (dec6_enc6 i Hi)) by (Z.div_mod_to_equations; lia).
    rewrite (proj2 (dec6_enc6 (b mod 16 * 4 + c / 64) ltac:(Z.div_mod_to_equations; lia))),
      (proj2 (dec6_enc6 (c mod 64) ltac:(Z.div_mod_to_equations; lia))).
    do 2 f_equal; [|f_equal; [|f_equal]]; Z.div_mod_to_equations; lia.
  + cbn [encode length]. rewrite !Nat2Z.inj_succ, IH2. simpl in Hn. subst n. rewrite !Nat2Z.inj_succ.
    Z.div_mod_to_equations; lia.
Qed.

#[export] Instance standard : Base64 := { base64_encode := encode; base64_decode := decode }.

#[export] Instance standard_laws : Base64Laws standard.
Proof. split; intros bytes; apply decode_encode_length. Qed.
End standard_base64.

#[local] Existing Instances standard_base64.standard standard_base64.standard_laws.

(** ** Witnesses *)

Definition ex_cell (n : Z) : Cell := {| cell_content := n; attributes := Attributes_default |}.

(** [A], a wide character, [B] and two equal cells. *)
Definition ex_row : Row := {|
  cells := [ex_cell 0x41; ex_cell 0x4f5c; ex_cell (SPACER_BASE + 1); ex_cell 0x42; ex_cell 0; ex_cell 0];
  dirty := false; linebreak := true |}.

Lemma ex_row_ok : wide_ok (cells ex_row).
Proof. apply (proj1 (valid_from_spec 6 (cells ex_row) [] 6 eq_refl ltac:(lia))). reflexivity. Qed.

Lemma ex_row_short : short (cells ex_row).
Proof. vm_compute. reflexivity. Qed.

Lemma erase_exact_witness :
  ∃ cs, wiped (λ j, 0 ≤ j ≤ 2)%nat (cells ex_row) cs ∧
    let cs' := take 0 cs ++ replicate (2 - 0) (blank Color_default) ++ drop 2 cs in
    wide_ok cs' ∧
    erase 0 2 Color_default ex_row = Ok {| cells := cs'; dirty := true; linebreak := true |}.
Proof.
  apply (erase_exact 0 2 Color_default ex_row); [apply ex_row_ok|apply ex_row_short|lia|unfold row_len; simpl; lia].
Defined.

Lemma fill_exact_witness :
  ∃ cs, wiped (λ j, 2 ≤ j ≤ 4)%nat (cells ex_row) cs ∧
    let cell := {| cell_content := 0x45; attributes := set_flag Clean false Attributes_default |} in
    let cs' := take 2 cs ++ replicate (4 - 2) cell ++ drop 4 cs in
    wide_ok cs' ∧
    fill 2 4 (Scalar 0x45) Attributes_default ex_row =
      Ok {| cells := cs'; dirty := true; linebreak := true |}.
Proof.
  apply (fill_exact 2 4 (Scalar 0x45) 0x45 Attributes_default ex_row);
    [apply ex_row_ok|apply ex_row_short|lia|unfold row_len; simpl; lia|reflexivity|vm_compute; discriminate].
Defined.

Lemma insert_cells_exact_witness :
  ∃ cs d, wiped (λ j, j = 2 ∨ j = 3 ∨ j = 4 ∨ j = 5)%nat (cells ex_row) cs ∧
    let cs' := take 2 cs ++ replicate 2 (blank Color_default) ++ take 2 (drop 2 cs) in
    wide_ok cs' ∧
    insert_cells 2 2 Color_default ex_row = Ok {| cells := cs'; dirty := d; linebreak := true |}.
Proof.
  apply (insert_cells_exact 2 2 Color_default ex_row);
    [apply ex_row_ok|apply ex_row_short|unfold row_len; simpl; lia|lia].
Defined.

Lemma delete_cells_exact_witness :
  ∃ cs moved d, wiped (λ j, 0 ≤ j ≤ 3)%nat (cells ex_row) cs ∧
    (moved = drop 2 cs ∨ continues (cells ex_row) 4 = true ∧ moved = removelast (drop 2 cs) ++ [Cell_default]) ∧
    let cs' := take 0 cs ++ moved ++ replicate 2 (blank Color_default) in
    wide_ok cs' ∧ length cs' = 6%nat ∧
    delete_cells 0 2 Color_default ex_row = Ok {| cells := cs'; dirty := d; linebreak := true |}.
Proof.
  apply (delete_cells_exact 0 2 Color_default ex_row);
    [apply ex_row_ok|apply ex_row_short|unfold row_len; simpl; lia|lia].
Defined.

Lemma resize_without_reflow_exact_witness :
  let cs := cells (resize_without_reflow 2 ex_row) in
  wide_ok cs ∧ length cs = 2%nat ∧ linebreak (resize_without_reflow 2 ex_row) = true ∧
  ∀ i, (i < 2)%nat →
    cs !! i = (if bool_decide (i < row_len ex_row)%nat then cells ex_row !! i else Some Cell_default) ∨
    (cs !! i = clear_content <$> cells ex_row !! i ∧ joined (cells ex_row) i 2).
Proof. apply (resize_without_reflow_exact 2 ex_row). apply ex_row_ok. Defined.

Lemma cells_checkpoint_round_trip_witness :
  let '(columns, encoded) := serialize_cells (cells ex_row) in
  deserialize_cells columns encoded = Some (cells ex_row).
Proof.
  apply (cells_checkpoint_round_trip (cells ex_row)); [|vm_compute; discriminate].
  repeat constructor; vm_compute; discriminate.
Defined.
