(* ===== verification/Coord.v ===== *)
(** * Coordinates and cursors ([splinterm-terminal/src/coord.rs], [cursor.rs])

    Positions are [i32] pairs; a scroll region is a half-open interval of rows;
    a cursor is a position with its deferred-wrap flag. *)

From S2P Require Import Prelude RustStd.

Record Coordinate := { coord_column : Z; coord_row : Z }.

Record CoordinateRange := { range_start : Coordinate; range_end : Coordinate }.

Record ScrollRegion := { region_start : Z; region_end : Z }.

Definition ScrollRegion_new {E} (start stop : Z) : outcome E ScrollRegion :=
  if start <=? stop then Ok {| region_start := start; region_end := stop |} else Panic.

Definition contains (row : Z) (r : ScrollRegion) : bool :=
  (region_start r <=? row) && (row <? region_end r).

Record Cursor := { position : Coordinate; deferred_wrap : bool }.

#[export] Instance Coordinate_eq_dec : EqDecision Coordinate.
Proof. solve_decision. Defined.
#[export] Instance Cursor_eq_dec : EqDecision Cursor.
Proof. solve_decision. Defined.

Definition Coordinate_default : Coordinate := {| coord_column := 0; coord_row := 0 |}.

Definition Cursor_new (p : Coordinate) : Cursor := {| position := p; deferred_wrap := false |}.

Definition Cursor_default : Cursor := Cursor_new Coordinate_default.

Definition set_position (p : Coordinate) (c : Cursor) : Cursor :=
  {| position := p; deferred_wrap := deferred_wrap c |}.

Definition set_deferred_wrap (b : bool) (c : Cursor) : Cursor :=
  {| position := position c; deferred_wrap := b |}.
