(* ===== verification/Grid.v ===== *)
(** * The grid ([splinterm-terminal/src/grid.rs])

    Circular storage of screen and scrollback rows. A method taking [&mut self]
    is a computation over the [Grid] in the monad of the prelude; the error
    [OutOfFuel] is the one of the row operations. Physical indices are masked
    by the power-of-two capacity, so they are in range; [slot] and [id_at] read
    the two parallel vectors. A [&mut Row] result is a borrow: the row and the
    function that writes it back. *)

From stdpp Require Import base list gmap.
From S2P Require Import Prelude RustStd Cell Row Coord.

#[local] Open Scope Z_scope.

Definition MAX_CHECKPOINT_GRID_ROWS : Z := Z.shiftl 1 20.
Definition CHECKPOINT_COUNTER_HEADROOM : Z := u64_max / 2.

Inductive ScrollDirection := Forward | Reverse.

Record ScrollResult := {
  direction : ScrollDirection;
  region : ScrollRegion;
  scrolled : Z;
  view_was_following : bool;
  view_changed : bool;
}.

Record Grid := {
  rows : list (option Row);
  columns : Z;
  offset : Z;
  view : Z;
  screen_rows : Z;
  cursor : Cursor;
  saved_cursor : Cursor;
  generation : Z;
  row_ids : list Z;
  next_row_id : Z;
  history_generation : Z;
}.

Definition eta_grid (g : Grid) : Grid := {|
  rows := rows g; columns := columns g; offset := offset g; view := view g;
  screen_rows := screen_rows g; cursor := cursor g; saved_cursor := saved_cursor g;
  generation := generation g; row_ids := row_ids g; next_row_id := next_row_id g;
  history_generation := history_generation g |}.

(** Field assignments. *)
Definition set_rows (v : list (option Row)) (g : Grid) : Grid := ltac:(update_field eta_grid g rows v).
Definition put_offset (v : Z) (g : Grid) : Grid := ltac:(update_field eta_grid g offset v).
Definition put_view (v : Z) (g : Grid) : Grid := ltac:(update_field eta_grid g view v).
Definition set_screen_rows (v : Z) (g : Grid) : Grid := ltac:(update_field eta_grid g screen_rows v).
Definition put_cursor (v : Cursor) (g : Grid) : Grid := ltac:(update_field eta_grid g cursor v).
Definition put_saved_cursor (v : Cursor) (g : Grid) : Grid := ltac:(update_field eta_grid g saved_cursor v).
Definition set_generation (v : Z) (g : Grid) : Grid := ltac:(update_field eta_grid g generation v).
Definition set_row_ids (v : list Z) (g : Grid) : Grid := ltac:(update_field eta_grid g row_ids v).
Definition set_next_row_id (v : Z) (g : Grid) : Grid := ltac:(update_field eta_grid g next_row_id v).
Definition set_history_generation (v : Z) (g : Grid) : Grid :=
  ltac:(update_field eta_grid g history_generation v).

Abbreviation G := (M Grid unfinished) (only parsing).

(** ** Slots *)

Definition row_capacity (g : Grid) : Z := Z.of_nat (length (rows g)).

(** [x & (self.rows.len() - 1)] of a wrapped 64-bit sum. *)
Definition masked (x : Z) (g : Grid) : Z := Z.land (wrap64 x) (row_capacity g - 1).

(** [self.rows[index]] and [self.row_ids[index]]. *)
Definition slot (index : Z) (g : Grid) : option Row := mjoin (rows g !! Z.to_nat index).
Definition id_at (index : Z) (g : Grid) : Z := default 0 (row_ids g !! Z.to_nat index).

(** [self.rows[index] = row] and [self.row_ids[index] = id]. *)
Definition set_slot (index : Z) (row : option Row) (g : Grid) : Grid :=
  set_rows (<[Z.to_nat index := row]> (rows g)) g.
Definition set_id (index : Z) (id : Z) (g : Grid) : Grid :=
  set_row_ids (<[Z.to_nat index := id]> (row_ids g)) g.

(** [a..b]. *)
Definition range (a b : Z) : list Z := seqZ a (b - a).

Definition signed_row {S} (row : Z) : M S unfinished Z :=
  if row <=? i32_max then ret row else panic.

(** ** Construction *)

Definition Grid_new (capacity columns : Z) : outcome unfinished Grid :=
  if is_power_of_two capacity && (0 <? columns) && (columns <=? i32_max)
     && (capacity <=? Z.shiftl 1 30) then
    Ok {| rows := replicate (Z.to_nat capacity) None; columns := columns; offset := 0; view := 0;
          screen_rows := 1; cursor := Cursor_default; saved_cursor := Cursor_default;
          generation := 0; row_ids := replicate (Z.to_nat capacity) 0; next_row_id := 1;
          history_generation := 1 |}
  else Panic.

Definition assert_screen_rows (n : Z) : G unit :=
  let! g := get in assert_ ((1 <=? n) && (n <=? row_capacity g)).

(** ** Counters and identities *)

Definition bump_generation : G unit :=
  let! g := get in
  let! n := expect (checked_add64 (generation g) 1) in
  put (set_generation n g).

Definition bump_history_generation : G unit :=
  let! g := get in
  let! n := expect (checked_add64 (history_generation g) 1) in
  put (set_history_generation n g).

Definition assign_new_row_id (index : Z) : G unit :=
  let! g := get in
  let id := next_row_id g in
  let! n := expect (checked_add64 (next_row_id g) 1) in
  put (set_id index id (set_next_row_id n g)).

(** ** Coordinates *)

Definition absolute_index (relative_row : Z) (g : Grid) : Z := masked (offset g + relative_row) g.

Definition view_follows_offset (g : Grid) : bool := view g =? offset g.

Definition row (relative_row : Z) (g : Grid) : option Row := slot (absolute_index relative_row g) g.

Definition row_id (relative_row : Z) (g : Grid) : option Z :=
  let index := absolute_index relative_row g in
  (λ _, id_at index g) <$> slot index g.

Definition absolute_index_in_view (relative_row : Z) (g : Grid) : Z :=
  masked (view g + relative_row) g.

Definition row_in_view (relative_row : Z) (g : Grid) : option Row :=
  slot (absolute_index_in_view relative_row g) g.

(** Private; the methods assert their arguments around it. *)
Definition scrollback_start (n : Z) (g : Grid) : Z := masked (offset g + n) g.

Definition assert_coordinate_inputs (n row : Z) (g : Grid) : bool :=
  (1 <=? n) && (n <=? row_capacity g) && (row <? row_capacity g).

Definition absolute_to_scrollback (n absolute_row : Z) (g : Grid) : outcome unfinished Z :=
  if assert_coordinate_inputs n absolute_row g then
    Ok (masked (absolute_row - scrollback_start n g) g)
  else Panic.

Definition scrollback_to_absolute (n scrollback_row : Z) (g : Grid) : outcome unfinished Z :=
  if assert_coordinate_inputs n scrollback_row g then
    Ok (masked (scrollback_start n g + scrollback_row) g)
  else Panic.

(** The slots in chronological order, from the theoretical scrollback start. *)
Definition chronological (n : Z) (count : Z) (g : Grid) : list Z :=
  (λ distance, masked (scrollback_start n g + distance) g) <$> range 0 count.

Definition scrollback_start_ignoring_uninitialized (n : Z) (g : Grid)
    : outcome unfinished (option Z) :=
  if (1 <=? n) && (n <=? row_capacity g) then
    Ok (find_first (λ index, bool_decide (is_Some (slot index g))) (chronological n (row_capacity g) g))
  else Panic.

Definition cursor_fits (c : Cursor) (g : Grid) : bool :=
  (0 <=? coord_column (position c)) && (coord_column (position c) <? columns g)
  && (0 <=? coord_row (position c)) && (coord_row (position c) <? screen_rows g).

Definition assert_cursor (c : Cursor) : G unit :=
  let! g := get in assert_ (cursor_fits c g).

Definition set_cursor (c : Cursor) : G unit :=
  do! assert_cursor c in
  let! g := get in
  if bool_decide (cursor g = c) then ret tt
  else do! bump_generation in modify (put_cursor c).

Definition set_saved_cursor (c : Cursor) : G unit :=
  do! assert_cursor c in
  let! g := get in
  if bool_decide (saved_cursor g = c) then ret tt
  else do! bump_generation in modify (put_saved_cursor c).

Definition cursor_in_view (g : Grid) : outcome unfinished (option Coordinate) :=
  let p := position (cursor g) in
  let absolute := absolute_index (coord_row p) g in
  let relative := masked (absolute - view g) g in
  if relative <? screen_rows g then
    if relative <=? i32_max then Ok (Some {| coord_column := coord_column p; coord_row := relative |})
    else Panic
  else Ok None.

(** ** Rows *)

Definition borrow_slot (index : Z) (r : Row) (g : Grid) : borrow Row Grid :=
  (r, λ r', set_slot index (Some r') g).

Definition row_mut (relative_row : Z) : G (option (borrow Row Grid)) :=
  let! g := get in
  let index := absolute_index relative_row g in
  do! (if bool_decide (is_Some (slot index g)) then bump_generation else ret tt) in
  let! g := get in
  ret ((λ r, borrow_slot index r g) <$> slot index g).

Definition row_in_view_mut (relative_row : Z) : G (option (borrow Row Grid)) :=
  let! g := get in
  let index := absolute_index_in_view relative_row g in
  do! (if bool_decide (is_Some (slot index g)) then bump_generation else ret tt) in
  let! g := get in
  ret ((λ r, borrow_slot index r g) <$> slot index g).

Definition row_or_allocate (relative_row : Z) : G (borrow Row Grid) :=
  let! g := get in
  let index := absolute_index relative_row g in
  do! bump_generation in
  let! g := get in
  do! (if bool_decide (slot index g = None) then
         do! put (set_slot index (Some (Row_new (Z.to_nat (columns g)))) g) in
         assign_new_row_id index
       else ret tt) in
  let! g := get in
  let! r := expect (slot index g) in
  ret (borrow_slot index r g).

(** [self.row_or_allocate(row).erase_all(background)]. *)
Definition erase_allocated (relative_row : Z) (background : Color) : G unit :=
  let! (r, back) := row_or_allocate relative_row in
  let! r := lift (erase_all background r) in
  put (back r).

Definition with_screen_size (capacity columns n : Z) : outcome unfinished Grid :=
  let? g := Grid_new capacity columns in
  let m :=
    do! assert_screen_rows n in
    do! modify (set_screen_rows n) in
    for_each (range 0 n) (λ row,
      let! row := signed_row row in
      do! row_or_allocate row in ret tt) in
  match m g with
  | (Ok _, g) => Ok g
  | (Err e, _) => Err e
  | (Panic, _) => Panic
  end.

Definition recycle_row (relative_row : Z) (background : Color) : G unit :=
  let! g := get in
  let index := absolute_index relative_row g in
  do! bump_generation in
  let! g := get in
  let r := default (Row_new (Z.to_nat (columns g))) (slot index g) in
  let! r := lift (erase_all background r) in
  do! put (set_slot index (Some r) g) in
  assign_new_row_id index.

Definition reidentify (index : Z) : G unit :=
  let! g := get in
  if bool_decide (is_Some (slot index g)) then assign_new_row_id index else ret tt.

Definition reidentify_allocated_rows_chronologically : G unit :=
  let! g := get in
  for_each (chronological (screen_rows g) (row_capacity g) g) reidentify.

Definition reidentify_newest_history_rows (count : Z) : G unit :=
  let! g := get in
  let history_capacity := row_capacity g - screen_rows g in
  for_each (reverse (range 1 (Z.min count history_capacity + 1)))
    (λ distance, reidentify (masked (offset g - distance) g)).

Definition continue_history_namespace (namespace : Z * Z) : G unit :=
  do! modify (set_next_row_id namespace.1) in
  let! n := expect (checked_add64 namespace.2 1) in
  do! modify (set_history_generation n) in
  reidentify_allocated_rows_chronologically.

(** ** Clearing *)

(** [(0..self.screen_rows).map(Self::signed_row)]. *)
Definition signed_screen (g : Grid) : outcome unfinished (list Z) :=
  let ns := range 0 (screen_rows g) in
  if forallb (λ n, n <=? i32_max) ns then Ok ns else Panic.

Definition clear_scrollback : G unit :=
  let! g := get in
  let! ns := lift (signed_screen g) in
  let visible := (λ n, absolute_index n g) <$> ns in
  let outside index := negb (bool_decide (index ∈ visible)) in
  let had_history :=
    existsb (λ index, bool_decide (is_Some (slot index g)) && outside index)
      (range 0 (row_capacity g)) in
  if had_history then
    do! bump_generation in
    do! bump_history_generation in
    do! for_each (range 0 (row_capacity g)) (λ index,
          if outside index then modify (λ g, set_id index 0 (set_slot index None g)) else ret tt) in
    modify (λ g, put_view (offset g) g)
  else ret tt.

Definition reset_visible (background : Color) : G unit :=
  let! g := get in
  do! for_each (range 0 (screen_rows g)) (λ row,
        let! row := signed_row row in erase_allocated row background) in
  do! modify (put_cursor Cursor_default) in
  do! modify (put_saved_cursor Cursor_default) in
  modify (λ g, put_view (offset g) g).

(** ** Resizing *)

Definition resized_cursor {S} (c : Cursor) (old_screen_rows new_columns new_screen_rows : Z)
    : M S unfinished Cursor :=
  let p := position c in
  do! assert_ (0 <=? coord_row p) in
  do! assert_ (0 <=? coord_column p) in
  let row := if coord_row p =? old_screen_rows - 1 then new_screen_rows - 1
             else Z.min (coord_row p) (new_screen_rows - 1) in
  let! column := signed_row (Z.min (coord_column p) (new_columns - 1)) in
  let! row := signed_row row in
  ret (set_deferred_wrap false
    (set_position {| coord_column := column; coord_row := row |} c)).

(** Run a computation on another grid than the receiver. *)
Definition on {A} (m : G A) (g : Grid) : G (A * Grid) :=
  lift match m g with
       | (Ok a, g) => Ok (a, g)
       | (Err e, _) => Err e
       | (Panic, _) => Panic
       end.

(** The loop that moves the old screen rows out of the receiver. *)
Fixpoint copy_screen (ns : list Z) (new_columns : Z) (resized : Grid) (ids : list Z)
    : G (Grid * list Z) :=
  match ns with
  | [] => ret (resized, ids)
  | n :: ns =>
      let! s := signed_row n in
      let! self := get in
      let old_index := absolute_index s self in
      let ids := ids ++ [id_at old_index self] in
      let r := default (Row_new_dirty (Z.to_nat (columns self))) (slot old_index self) in
      do! put (set_slot old_index None self) in
      let r := set_linebreak true (Row.resize_without_reflow (Z.to_nat new_columns) r) in
      copy_screen ns new_columns (set_slot n (Some r) resized) ids
  end.

Definition fill_screen (ns : list Z) (new_columns : Z) (resized : Grid) : Grid :=
  foldl (λ g n, set_slot n (Some (Row_new_dirty (Z.to_nat new_columns))) g) resized ns.

Definition resize_without_reflow (new_row_capacity new_columns new_screen_rows : Z)
    : G (btree Z) :=
  let! resized := lift (Grid_new new_row_capacity new_columns) in
  let! (_, resized) := on (assert_screen_rows new_screen_rows) resized in
  let resized := set_screen_rows new_screen_rows resized in
  let! self := get in
  let copied_rows := Z.min (screen_rows self) new_screen_rows in
  let! (resized, copied_row_ids) := copy_screen (range 0 copied_rows) new_columns resized [] in
  let resized := fill_screen (range copied_rows new_screen_rows) new_columns resized in
  let! self := get in
  let! c := resized_cursor (cursor self) (screen_rows self) new_columns new_screen_rows in
  let resized := put_cursor c resized in
  let! c := resized_cursor (saved_cursor self) (screen_rows self) new_columns new_screen_rows in
  let resized := put_saved_cursor c resized in
  let! n := expect (checked_add64 (generation self) 1) in
  let resized := set_next_row_id (next_row_id self) (set_generation n resized) in
  let! n := expect (checked_add64 (history_generation self) 1) in
  let resized := set_history_generation n resized in
  let! (_, resized) := on reidentify_allocated_rows_chronologically resized in
  let row_mappings := imap (λ i old_id, (old_id, id_at (Z.of_nat i) resized)) copied_row_ids in
  do! put resized in
  ret (bt_collect row_mappings).

(** ** Scrolling *)

Definition swap {A} (i j : nat) (l : list A) : list A :=
  match l !! i, l !! j with
  | Some a, Some b => <[i := b]> (<[j := a]> l)
  | _, _ => l
  end.

Definition swap_rows (first second : Z) : G unit :=
  let! g := get in
  let first := absolute_index first g in
  let second := absolute_index second g in
  if first =? second then ret tt
  else
    do! bump_generation in
    modify (λ g, set_row_ids (swap (Z.to_nat first) (Z.to_nat second) (row_ids g))
                   (set_rows (swap (Z.to_nat first) (Z.to_nat second) (rows g)) g)).

Definition set_offset (v : Z) : G unit :=
  let! g := get in
  let v := Z.land v (row_capacity g - 1) in
  if offset g =? v then ret tt else do! bump_generation in modify (put_offset v).

Definition set_view (v : Z) : G unit :=
  let! g := get in
  let v := Z.land v (row_capacity g - 1) in
  if view g =? v then ret tt else do! bump_generation in modify (put_view v).

Definition reset_view : G unit :=
  let! g := get in
  if view g =? offset g then ret tt
  else do! bump_generation in modify (λ g, put_view (offset g) g).

Definition scroll_forward_core (start stop n : Z) (background : Color) (following : bool) : G unit :=
  let! g := get in
  let! view_distance := lift (absolute_to_scrollback (screen_rows g) (view g) g) in
  do! modify (λ g, put_offset (masked (offset g + n) g) g) in
  do! (if following then modify (λ g, put_view (offset g) g)
       else if view_distance <? n then
         let! g := get in
         let! v := lift (scrollback_to_absolute (screen_rows g) 0 g) in
         let distance_to_live := masked (offset g - v) g in
         put (put_view (masked (v + Z.min (n - view_distance) distance_to_live) g) g)
       else ret tt) in
  let! amount := signed_row n in
  do! for_each (reverse (range 0 start)) (λ row,
        let! row := signed_row row in swap_rows (row - amount) row) in
  do! for_each (reverse (range stop (screen_rows g))) (λ row,
        let! row := signed_row row in swap_rows (row - amount) row) in
  do! for_each (range (stop - n) stop) (λ row,
        let! row := signed_row row in recycle_row row background) in
  reidentify_newest_history_rows n.

Definition scroll_reverse_core (start stop n : Z) (background : Color) (following : bool) : G unit :=
  do! for_each (range (stop - n) stop) (λ row,
        let! row := signed_row row in
        let! g := get in
        let index := absolute_index row g in
        put (set_id index 0 (set_slot index None g))) in
  do! modify (λ g, put_offset (masked (offset g - n) g) g) in
  let! g := get in
  let! view_distance := lift (absolute_to_scrollback (screen_rows g) (view g) g) in
  let! offset_distance := lift (absolute_to_scrollback (screen_rows g) (offset g) g) in
  do! (if following || (offset_distance <? view_distance)
       then modify (λ g, put_view (offset g) g) else ret tt) in
  let! amount := signed_row n in
  do! for_each (range (stop + n) (screen_rows g + n)) (λ row,
        let! row := signed_row row in swap_rows row (row - amount)) in
  do! for_each (range n (start + n)) (λ row,
        let! row := signed_row row in swap_rows row (row - amount)) in
  for_each (range start (start + n)) (λ row,
    let! row := signed_row row in erase_allocated row background).

(** The trailing [debug_assert!] is checked, as a debug build does. *)
Definition scroll (dir : ScrollDirection) (reg : ScrollRegion) (n : Z) (background : Color)
    : G ScrollResult :=
  let start := region_start reg in
  let stop := region_end reg in
  do! assert_ (0 <=? start) in
  do! assert_ (0 <=? stop) in
  let! g := get in
  do! assert_ ((start <? stop) && (stop <=? screen_rows g)) in
  do! assert_ (n <=? stop - start) in
  let old_view := view g in
  let following := view_follows_offset g in
  do! (if 0 <? n then
         match dir with
         | Forward => scroll_forward_core start stop n background following
         | Reverse => scroll_reverse_core start stop n background following
         end
       else ret tt) in
  let! g := get in
  do! assert_ (forallb (λ r, bool_decide (is_Some (row r g))) (range 0 (screen_rows g))) in
  ret {| direction := dir; region := reg; scrolled := n; view_was_following := following;
         view_changed := negb (view g =? old_view) |}.

(** ** Snapshots *)

(** [filter_map] over slots, with the identity of each allocated one. *)
Fixpoint identified (indices : list Z) (g : Grid) : outcome unfinished (list (Z * Row)) :=
  match indices with
  | [] => Ok []
  | index :: indices =>
      match slot index g with
      | None => identified indices g
      | Some r =>
          if id_at index g =? 0 then Panic
          else let? rs := identified indices g in Ok ((id_at index g, r) :: rs)
      end
  end.

Definition ordered_retained_row_ids (g : Grid) : list Z :=
  omap (λ index, (λ _, id_at index g) <$> slot index g)
    (chronological (screen_rows g) (row_capacity g) g).

Definition retained_row_ids (g : Grid) : gset Z :=
  list_to_set (omap (λ index, (λ _, id_at index g) <$> slot index g) (range 0 (row_capacity g))).

Definition screen_row_ids (g : Grid) : outcome unfinished (list Z) :=
  let? ns := signed_screen g in
  match mapM (λ n, row_id n g) ns with Some ids => Ok ids | None => Panic end.

Definition snapshot_view_rows (g : Grid) : outcome unfinished (list Row) :=
  let? ns := signed_screen g in
  Ok (omap (λ n, row_in_view n g) ns).

Definition snapshot_identified_view_rows (g : Grid) : outcome unfinished (list (Z * Row)) :=
  let? ns := signed_screen g in
  identified ((λ n, absolute_index_in_view n g) <$> ns) g.

Definition scrollback_rows_chronological (g : Grid) : outcome unfinished (list (Z * Row)) :=
  let history_capacity := row_capacity g - screen_rows g in
  identified (chronological (screen_rows g) history_capacity g) g.

(** Rows, rows available, rows omitted, oldest and newest identity. *)
Definition ScrollbackRows : Type := list (Z * Row) * Z * Z * option Z * option Z.

Definition snapshot_scrollback_rows (maximum_rows : Z) (g : Grid)
    : outcome unfinished ScrollbackRows :=
  let? rs := scrollback_rows_chronological g in
  let available := Z.of_nat (length rs) in
  let oldest := fst <$> head rs in
  let newest := fst <$> last rs in
  let omitted := saturating_sub available maximum_rows in
  let rs := if 0 <? omitted then drop (Z.to_nat omitted) rs else rs in
  Ok (rs, available, omitted, oldest, newest).

Definition newest_scrollback_row_ids (maximum_rows : Z) (g : Grid) : outcome unfinished (list Z) :=
  map_ok (λ '(rs, _, _, _, _), rs.*1) (snapshot_scrollback_rows maximum_rows g).

(** The loop of [snapshot_scrollback_page]; [acc] is the deque. *)
Fixpoint page_loop (indices : list Z) (before_row_id maximum_rows : Z) (acc : list (Z * Row))
    (has_older : bool) (g : Grid) : outcome unfinished (list (Z * Row) * bool) :=
  match indices with
  | [] => Ok (acc, has_older)
  | index :: indices =>
      match slot index g with
      | None => page_loop indices before_row_id maximum_rows acc has_older g
      | Some r =>
          let id := id_at index g in
          if id =? 0 then Panic
          else if before_row_id <=? id then
            page_loop indices before_row_id maximum_rows acc has_older g
          else
            let '(acc, has_older) :=
              if Z.of_nat (length acc) =? maximum_rows then (tail acc, true) else (acc, has_older) in
            page_loop indices before_row_id maximum_rows (acc ++ [(id, r)]) has_older g
      end
  end.

Definition snapshot_scrollback_page (before_row_id maximum_rows : Z) (g : Grid)
    : outcome unfinished (list (Z * Row) * bool) :=
  if maximum_rows =? 0 then Ok ([], false)
  else
    let history_capacity := row_capacity g - screen_rows g in
    page_loop (chronological (screen_rows g) history_capacity g) before_row_id maximum_rows [] false g.

(** The items of the iterator, all drawn. *)
Definition rows_reverse (g : Grid) : outcome unfinished (list (Z * Row)) :=
  identified (reverse (chronological (screen_rows g) (row_capacity g) g)) g.

(** ** Checkpoints *)

Definition allocated_cells (g : Grid) : nat :=
  sum_list_with (λ r, match r with Some r => row_len r | None => 0%nat end) (rows g).

(** The loop over [rows.iter().zip(&row_ids)]: whether no row was refused, and
    the largest identity. *)
Fixpoint rows_valid (composed_entries width : Z) (slots : list (option Row * Z)) (seen : gset Z)
    (maximum_id : Z) : outcome unfinished (option Z) :=
  match slots with
  | [] => Ok (Some maximum_id)
  | (Some r, id) :: slots =>
      if (id =? 0) || negb (Z.of_nat (row_len r) =? width) || bool_decide (id ∈ seen) then Ok None
      else
        let? valid := row_checkpoint_is_valid composed_entries r in
        if valid then rows_valid composed_entries width slots ({[id]} ∪ seen) (Z.max maximum_id id)
        else Ok None
  | (None, id) :: slots =>
      if id =? 0 then rows_valid composed_entries width slots seen maximum_id else Ok None
  end.

Definition checkpoint_is_valid (composed_entries : Z) (g : Grid) : outcome unfinished bool :=
  let capacity := row_capacity g in
  if negb (is_power_of_two capacity) || (MAX_CHECKPOINT_GRID_ROWS <? capacity)
     || negb (Z.of_nat (length (row_ids g)) =? capacity)
     || (columns g =? 0) || (MAX_CHECKPOINT_COLUMNS <? columns g)
     || (screen_rows g =? 0) || (capacity <? screen_rows g)
     || (capacity <=? offset g) || (capacity <=? view g)
     || (history_generation g =? 0) || (next_row_id g =? 0)
     || (CHECKPOINT_COUNTER_HEADROOM <? generation g)
     || (CHECKPOINT_COUNTER_HEADROOM <? history_generation g)
     || (CHECKPOINT_COUNTER_HEADROOM <? next_row_id g)
  then Ok false
  else if negb (cursor_fits (cursor g) g) || negb (cursor_fits (saved_cursor g) g) then Ok false
  else
    let? valid := rows_valid composed_entries (columns g) (zip (rows g) (row_ids g)) ∅ 0 in
    match valid with
    | None => Ok false
    | Some maximum_id =>
        if next_row_id g <=? maximum_id then Ok false
        else Ok (forallb (λ n, bool_decide (is_Some (slot (Z.land (offset g + n) (capacity - 1)) g)))
                   (range 0 (screen_rows g)))
    end.
