(* ===== verification/GridInv.v ===== *)
(** * The invariant of the grid and the effect of its row operations

    A slot is seen through [phys] (row and identity at a physical index) or
    [place] (at a row relative to the live screen). Each operation is described
    by the places it changes; [evolves] bundles what every one of them keeps. *)

From stdpp Require Import base list gmap.
From S2P Require Import Prelude RustStd Cell Row RowInv RowProps Coord Grid.

#[local] Open Scope Z_scope.

(** ** Shape *)

Record shape (g : Grid) : Prop := {
  shape_power : is_power_of_two (row_capacity g) = true;
  shape_limit : row_capacity g ≤ 2^30;
  shape_ids : length (row_ids g) = length (rows g);
  shape_columns : 0 < columns g ≤ i32_max;
  shape_screen : 1 ≤ screen_rows g ≤ row_capacity g;
  shape_offset : 0 ≤ offset g < row_capacity g;
  shape_view : 0 ≤ view g < row_capacity g;
}.

Definition phys (i : Z) (g : Grid) : option Row * Z := (slot i g, id_at i g).

Definition place (r : Z) (g : Grid) : option Row * Z := phys (absolute_index r g) g.

(** What one slot holds: an unallocated slot has no identity, an allocated one
    a row of the grid's width and an identity below the next to be assigned. *)
Definition slot_ok (width next : Z) (s : option Row * Z) : Prop :=
  match s with
  | (None, id) => id = 0
  | (Some r, id) => Z.of_nat (row_len r) = width ∧ 0 < id < next
  end.

Record slots_ok (g : Grid) : Prop := {
  slots_each i : 0 ≤ i < row_capacity g → slot_ok (columns g) (next_row_id g) (phys i g);
  slots_distinct i j : 0 ≤ i < row_capacity g → 0 ≤ j < row_capacity g →
    is_Some (slot i g) → is_Some (slot j g) → id_at i g = id_at j g → i = j;
  slots_next : 0 < next_row_id g;
}.

(** What the row operations leave alone. *)
Record frame (g g' : Grid) : Prop := {
  frame_rows : length (rows g') = length (rows g);
  frame_ids : length (row_ids g') = length (row_ids g);
  frame_columns : columns g' = columns g;
  frame_offset : offset g' = offset g;
  frame_view : view g' = view g;
  frame_screen : screen_rows g' = screen_rows g;
  frame_cursor : cursor g' = cursor g;
  frame_saved : saved_cursor g' = saved_cursor g;
  frame_history : history_generation g' = history_generation g;
}.

(** The grid changes rows only, drawing at most [k] generations and exactly
    [m] identities. *)
Record evolves (k m : Z) (g g' : Grid) : Prop := {
  ev_frame : frame g g';
  ev_generation : generation g ≤ generation g' ≤ generation g + k;
  ev_next : next_row_id g ≤ next_row_id g' ≤ next_row_id g + m;
  ev_slots : slots_ok g';
}.

Section basics.
Context (g : Grid) (Hs : shape g).

Lemma capacity_pos : 0 < row_capacity g ≤ 2^30.
Proof. destruct Hs as [Hp ? _ _ ? _ _]. lia. Qed.

Lemma masked_mod x : masked x g = x mod row_capacity g.
Proof.
  pose proof capacity_pos. unfold masked. apply wrap64_land_mask; [apply Hs|]. lia.
Qed.

Lemma masked_range x : 0 ≤ masked x g < row_capacity g.
Proof. rewrite masked_mod. pose proof capacity_pos. apply Z.mod_pos_bound. lia. Qed.

Lemma index_range r : 0 ≤ absolute_index r g < row_capacity g.
Proof. apply masked_range. Qed.

Lemma index_inj a b :
  - row_capacity g < a - b < row_capacity g → absolute_index a g = absolute_index b g → a = b.
Proof.
  unfold absolute_index. rewrite !masked_mod. pose proof capacity_pos as HC. intros Hab Heq.
  pose proof (Z.div_mod (offset g + a) (row_capacity g)) as Ha.
  pose proof (Z.div_mod (offset g + b) (row_capacity g)) as Hb.
  rewrite Heq in Ha. set (qa := (offset g + a) / row_capacity g) in *.
  set (qb := (offset g + b) / row_capacity g) in *.
  assert (a - b = row_capacity g * (qa - qb)) as Hd by lia.
  assert (qa - qb = 0) by nia. nia.
Qed.

Lemma index_of_slot i : 0 ≤ i < row_capacity g → absolute_index (i - offset g) g = i.
Proof.
  intros Hi. unfold absolute_index. rewrite masked_mod.
  replace (offset g + (i - offset g)) with i by lia. by apply Z.mod_small.
Qed.

Lemma index_period r : absolute_index (r - row_capacity g) g = absolute_index r g.
Proof.
  unfold absolute_index. rewrite !masked_mod.
  replace (offset g + r) with (offset g + (r - row_capacity g) + 1 * row_capacity g) by lia.
  by rewrite Z_mod_plus_full.
Qed.

Lemma place_period r : place (r - row_capacity g) g = place r g.
Proof. unfold place. by rewrite index_period. Qed.

Lemma slot_in_rows i r : slot i g = Some r ↔ rows g !! Z.to_nat i = Some (Some r).
Proof. unfold slot. destruct (rows g !! Z.to_nat i) as [[?|]|]; naive_solver. Qed.
End basics.

Lemma shape_frame g g' : shape g → frame g g' → shape g'.
Proof.
  intros [] []. split; unfold row_capacity in *; try congruence; try lia.
Qed.

Lemma frame_refl g : frame g g.
Proof. by split. Qed.

Lemma frame_trans g1 g2 g3 : frame g1 g2 → frame g2 g3 → frame g1 g3.
Proof. intros [] []. split; congruence. Qed.

Lemma evolves_refl g : slots_ok g → evolves 0 0 g g.
Proof. intros. split; [apply frame_refl|lia|lia|done]. Qed.

Lemma evolves_trans k m k' m' g1 g2 g3 :
  evolves k m g1 g2 → evolves k' m' g2 g3 → evolves (k + k') (m + m') g1 g3.
Proof. intros [] []. split; [by eapply frame_trans|lia|lia|done]. Qed.

Lemma frame_capacity g g' : frame g g' → row_capacity g' = row_capacity g.
Proof. intros []. unfold row_capacity. lia. Qed.

Lemma frame_index g g' r : frame g g' → absolute_index r g' = absolute_index r g.
Proof.
  intros Hf. unfold absolute_index, masked. rewrite (frame_capacity _ _ Hf). by rewrite (frame_offset _ _ Hf).
Qed.

(** ** Writing a slot *)

Lemma phys_update i j v id g :
  shape g → 0 ≤ i < row_capacity g → 0 ≤ j < row_capacity g →
  phys j (set_id i id (set_slot i v g)) = if decide (j = i) then (v, id) else phys j g.
Proof.
  intros Hs Hi Hj. unfold phys, slot, id_at. simpl. unfold row_capacity in *.
  destruct (decide (j = i)) as [->|Hne].
  - rewrite !list_lookup_insert by (rewrite ?(shape_ids _ Hs); lia).
    rewrite !decide_True by (rewrite ?(shape_ids _ Hs); lia). done.
  - by rewrite !list_lookup_insert_ne by lia.
Qed.

Lemma phys_set_slot i j v g :
  0 ≤ i < row_capacity g → 0 ≤ j →
  phys j (set_slot i v g) = if decide (j = i) then (v, id_at i g) else phys j g.
Proof.
  intros Hi Hj. unfold phys, slot, id_at. simpl. unfold row_capacity in *.
  destruct (decide (j = i)) as [->|Hne].
  - rewrite list_lookup_insert by lia. rewrite decide_True by lia. done.
  - by rewrite list_lookup_insert_ne by lia.
Qed.

Lemma lookup_swap {A} (l : list A) i j k :
  (i < length l)%nat → (j < length l)%nat →
  swap i j l !! k = if decide (k = i) then l !! j else if decide (k = j) then l !! i else l !! k.
Proof.
  intros Hi Hj. unfold swap.
  destruct (lookup_lt_is_Some_2 l i Hi) as [a Ha]. destruct (lookup_lt_is_Some_2 l j Hj) as [b Hb].
  rewrite Ha, Hb. repeat case_decide; subst;
    rewrite ?list_lookup_insert_ne by congruence;
    rewrite ?list_lookup_insert by (rewrite ?length_insert; lia);
    rewrite ?decide_True by (rewrite ?length_insert; lia); congruence.
Qed.

Lemma elem_of_swap {A} (l : list A) i j x : x ∈ swap i j l → x ∈ l.
Proof.
  unfold swap. destruct (l !! i) as [a|] eqn:Ha; [|done]. destruct (l !! j) as [b|] eqn:Hb; [|done].
  intros [k Hk]%list_elem_of_lookup. apply list_lookup_insert_Some in Hk as [(_ & -> & _)|[_ Hk]].
  - by eapply list_elem_of_lookup_2.
  - apply list_lookup_insert_Some in Hk as [(_ & -> & _)|[_ Hk]]; by eapply list_elem_of_lookup_2.
Qed.

Lemma length_swap {A} (l : list A) i j : length (swap i j l) = length l.
Proof. unfold swap. repeat case_match; by rewrite ?length_insert. Qed.

(** ** Effects on the slots *)

Lemma shape_update i v id next g :
  shape g → frame g (set_id i id (set_slot i v (set_next_row_id next g))).
Proof. intros Hs. split; simpl; by rewrite ?length_insert. Qed.

(** A slot may be rewritten with an identity no other row has. *)
Lemma slots_update i v id next g :
  shape g → slots_ok g → 0 ≤ i < row_capacity g → next_row_id g ≤ next →
  slot_ok (columns g) next (v, id) →
  (∀ j, 0 ≤ j < row_capacity g → j ≠ i → is_Some v → is_Some (slot j g) → id_at j g ≠ id) →
  slots_ok (set_id i id (set_slot i v (set_next_row_id next g))).
Proof.
  intros Hs Hok Hi Hnext Hv Hfresh.
  set (g' := set_id _ _ _).
  assert (∀ j, 0 ≤ j < row_capacity g → phys j g' = if decide (j = i) then (v, id) else phys j g) as Hphys.
  { intros j Hj. apply (phys_update i j v id (set_next_row_id next g)); [|done..].
    destruct Hs. by split. }
  assert (row_capacity g' = row_capacity g) as HC by (unfold row_capacity; simpl; by rewrite length_insert).
  split.
  - intros j Hj. rewrite HC in Hj. rewrite Hphys by done. simpl. case_decide; [done|].
    pose proof (slots_each _ Hok j Hj) as Hj'. unfold slot_ok in *. destruct (phys j g) as [[r|] id0]; [|done].
    lia.
  - intros j k Hj Hk. rewrite HC in Hj, Hk. pose proof (Hphys j Hj) as Pj. pose proof (Hphys k Hk) as Pk.
    unfold phys in Pj, Pk. intros Sj Sk Hid.
    destruct (decide (j = i)), (decide (k = i)); [congruence|..]; injection Pj as Pj1 Pj2; injection Pk as Pk1 Pk2;
      rewrite Pj1 in Sj; rewrite Pk1 in Sk; rewrite Pj2, Pk2 in Hid.
    + exfalso. by apply (Hfresh k).
    + exfalso. by apply (Hfresh j).
    + by apply (slots_distinct _ Hok).
  - simpl. pose proof (slots_next _ Hok). lia.
Qed.

(** A fresh identity is no other row's. *)
Lemma next_fresh g j :
  slots_ok g → 0 ≤ j < row_capacity g → is_Some (slot j g) → id_at j g ≠ next_row_id g.
Proof.
  intros Hok Hj [r Hr]. pose proof (slots_each _ Hok j Hj) as H. unfold phys, slot_ok in H.
  rewrite Hr in H. lia.
Qed.

Lemma place_frame s g g' : frame g g' → place s g' = phys (absolute_index s g) g'.
Proof. intros Hf. unfold place. by rewrite (frame_index _ _ _ Hf). Qed.

Lemma slots_generation n g : slots_ok g → slots_ok (set_generation n g).
Proof. intros []. by split. Qed.

Lemma shape_generation n g : shape g → shape (set_generation n g).
Proof. intros []. by split. Qed.

Lemma bump_runs Q g :
  generation g < u64_max → Q tt (set_generation (generation g + 1) g) → runs bump_generation Q g.
Proof.
  intros Hg HQ. apply runs_bind, runs_get, runs_bind, (runs_expect _ (generation g + 1)).
  - unfold checked_add64. by rewrite (proj2 (Z.leb_le _ _)) by lia.
  - by apply runs_put.
Qed.

Lemma assign_runs i Q g :
  next_row_id g < u64_max →
  Q tt (set_id i (next_row_id g) (set_next_row_id (next_row_id g + 1) g)) →
  runs (assign_new_row_id i) Q g.
Proof.
  intros Hg HQ. apply runs_bind, runs_get, runs_bind, (runs_expect _ (next_row_id g + 1)).
  - unfold checked_add64. by rewrite (proj2 (Z.leb_le _ _)) by lia.
  - by apply runs_put.
Qed.

Lemma signed_runs {S} n (Q : Z → S → Prop) s : n ≤ i32_max → Q n s → runs (signed_row n) Q s.
Proof. intros Hn HQ. unfold signed_row. rewrite (proj2 (Z.leb_le _ _)) by done. by apply runs_ret. Qed.

(** The row an erase leaves in a grid of [width] columns. *)
Definition blank_row (width : Z) (background : Color) : Row :=
  {| cells := replicate (Z.to_nat width) (blank background); dirty := true; linebreak := true |}.

Lemma blank_row_len width background : 0 ≤ width → Z.of_nat (row_len (blank_row width background)) = width.
Proof. intros. unfold row_len. simpl. rewrite length_replicate. lia. Qed.

(** Erasing what a slot holds, or a new row where it holds none. *)
Lemma erase_slot i background g :
  shape g → slots_ok g → 0 ≤ i < row_capacity g →
  erase_all background (default (Row_new (Z.to_nat (columns g))) (slot i g)) =
    Ok (blank_row (columns g) background).
Proof.
  intros Hs Hok Hi. rewrite erase_all_exact. unfold blank_row. do 3 f_equal.
  pose proof (slots_each _ Hok i Hi) as H. unfold phys, slot_ok in H. destruct (slot i g) as [r|]; simpl.
  - lia.
  - unfold row_len, Row_new, mark_cells_clean. simpl. by rewrite length_fmap, length_replicate.
Qed.

(** [writes k m i s g g']: slot [i] becomes [s], every other slot is kept. *)
Record writes (k m i : Z) (s : option Row * Z) (g g' : Grid) : Prop := {
  wr_evolves : evolves k m g g';
  wr_next : next_row_id g' = next_row_id g + m;
  wr_phys j : 0 ≤ j < row_capacity g → phys j g' = if decide (j = i) then s else phys j g;
}.

Lemma writes_place k m i s g g' r :
  shape g → writes k m i s g g' →
  place r g' = if decide (absolute_index r g = i) then s else place r g.
Proof.
  intros Hs Hw. rewrite (place_frame _ g g') by apply Hw. apply (wr_phys _ _ _ _ _ _ Hw).
  by apply index_range.
Qed.

(** The rewritten grid of [slots_update], after a generation is drawn or not. *)
Lemma writes_update b i v id m g :
  shape g → slots_ok g → 0 ≤ i < row_capacity g → 0 ≤ b → 0 ≤ m →
  slot_ok (columns g) (next_row_id g + m) (v, id) →
  (∀ j, 0 ≤ j < row_capacity g → j ≠ i → is_Some v → is_Some (slot j g) → id_at j g ≠ id) →
  writes b m i (v, id) g
    (set_id i id (set_slot i v (set_next_row_id (next_row_id g + m) (set_generation (generation g + b) g)))).
Proof.
  intros Hs Hok Hi Hb Hm Hv Hfresh. set (g0 := set_generation (generation g + b) g).
  assert (shape g0) as Hs0 by by apply shape_generation.
  split.
  - split; [|simpl; lia..|].
    + apply (frame_trans _ g0); [by split|]. by apply shape_update.
    + apply slots_update; try done; [by apply slots_generation|simpl; lia].
  - done.
  - intros j Hj. apply (phys_update i j v id (set_next_row_id (next_row_id g + m) g0)); [|done..].
    destruct Hs0. by split.
Qed.

Lemma writes_eq k m i s g g' g'' : g' = g'' → writes k m i s g g' → writes k m i s g g''.
Proof. by intros ->. Qed.

(** Rewriting a slot with what it held. *)
Lemma grid_eta g : eta_grid g = g.
Proof. by destruct g. Qed.

Lemma recycle_runs r background g :
  shape g → slots_ok g → generation g < u64_max → next_row_id g < u64_max →
  runs (recycle_row r background)
    (λ _, writes 1 1 (absolute_index r g) (Some (blank_row (columns g) background), next_row_id g) g) g.
Proof.
  intros Hs Hok Hgen Hnext. pose proof (index_range g Hs r) as Hi.
  unfold recycle_row. apply runs_bind, runs_get, runs_bind, bump_runs; [done|].
  apply runs_bind, runs_get, runs_bind. cbv zeta. eapply runs_lift.
  { apply (erase_slot (absolute_index r g) background (set_generation (generation g + 1) g));
      [by apply shape_generation|by apply slots_generation|done]. }
  apply runs_bind, runs_put, assign_runs; [done|].
  eapply writes_eq; [|apply (writes_update 1 (absolute_index r g)
    (Some (blank_row (columns g) background)) (next_row_id g) 1)]; try done; try lia.
  - split; [apply blank_row_len; pose proof (shape_columns _ Hs); lia|].
    pose proof (slots_next _ Hok). lia.
  - intros j Hj _ _ Hj'. by apply next_fresh.
Qed.

Lemma reidentify_runs i g :
  shape g → slots_ok g → 0 ≤ i < row_capacity g → next_row_id g < u64_max →
  runs (reidentify i)
    (λ _ g', if slot i g then writes 0 1 i (slot i g, next_row_id g) g g' else g' = g) g.
Proof.
  intros Hs Hok Hi Hnext. unfold reidentify. apply runs_bind, runs_get.
  pose proof (slots_each _ Hok i Hi) as Hslot. unfold phys, slot_ok in Hslot.
  destruct (slot i g) as [r|] eqn:Hr; simpl; [|by apply runs_ret].
  apply assign_runs; [done|].
  eapply writes_eq; [|apply (writes_update 0 i (Some r) (next_row_id g) 1)]; try done; try lia.
  - unfold slot in Hr. destruct (rows g !! Z.to_nat i) as [[r'|]|] eqn:Hl; simplify_eq/=.
    rewrite Z.add_0_r. unfold set_id, set_slot, set_next_row_id, set_row_ids, set_rows, set_generation.
    simpl. by rewrite list_insert_id.
  - unfold slot_ok. lia.
  - intros j Hj _ _ Hj'. by apply next_fresh.
Qed.

(** [row_or_allocate] followed by a change of the row that keeps its width. *)
Lemma allocate_runs r g Q :
  shape g → slots_ok g → generation g < u64_max → next_row_id g < u64_max →
  (∀ g', writes 1 (if slot (absolute_index r g) g then 0 else 1) (absolute_index r g)
           (Some (default (Row_new (Z.to_nat (columns g))) (slot (absolute_index r g) g)),
            if slot (absolute_index r g) g then id_at (absolute_index r g) g else next_row_id g) g g' →
     Q (borrow_slot (absolute_index r g) (default (Row_new (Z.to_nat (columns g)))
          (slot (absolute_index r g) g)) g') g') →
  runs (row_or_allocate r) Q g.
Proof.
  intros Hs Hok Hgen Hnext HQ. pose proof (index_range g Hs r) as Hi.
  pose proof (slots_each _ Hok _ Hi) as Hslot. unfold phys, slot_ok in Hslot.
  pose proof (slots_next _ Hok) as Hpos.
  unfold row_or_allocate. apply runs_bind, runs_get, runs_bind, bump_runs; [done|].
  cbv zeta. apply runs_bind, runs_get. set (i := absolute_index r g) in *.
  change (slot i (set_generation (generation g + 1) g)) with (slot i g).
  destruct (slot i g) as [row0|] eqn:Hr; simpl.
  - apply runs_bind, runs_ret, runs_bind, runs_get, runs_bind.
    apply (runs_expect _ row0); [done|]. apply runs_ret, HQ.
    eapply writes_eq; [|apply (writes_update 1 i (Some row0) (id_at i g) 0)]; try done; try lia.
    + unfold slot in Hr. destruct (rows g !! Z.to_nat i) as [[r'|]|] eqn:Hl; simplify_eq/=.
      destruct (lookup_lt_is_Some_2 (row_ids g) (Z.to_nat i)) as [id Hid].
      { rewrite (shape_ids _ Hs). unfold row_capacity in Hi. lia. }
      unfold set_id, set_slot, set_next_row_id, set_row_ids, set_rows, set_generation, id_at. simpl.
      rewrite Hid, Z.add_0_r. simpl. by rewrite !list_insert_id.
    + unfold slot_ok. lia.
    + intros j Hj Hne _ Hj' Hid. apply Hne. apply (slots_distinct _ Hok); try done.
  - apply runs_bind, runs_bind, runs_put, assign_runs; [done|].
    apply runs_bind, runs_get, runs_bind.
    apply (runs_expect _ (Row_new (Z.to_nat (columns g)))).
    { unfold slot. simpl. unfold row_capacity in Hi. rewrite list_lookup_insert by lia.
      by rewrite decide_True by lia. }
    apply runs_ret, HQ.
    eapply writes_eq; [|apply (writes_update 1 i (Some (Row_new (Z.to_nat (columns g)))) (next_row_id g) 1)];
      try done; try lia.
    + split; [|lia]. unfold row_len, Row_new, mark_cells_clean. simpl.
      rewrite length_fmap, length_replicate. pose proof (shape_columns _ Hs). lia.
    + intros j Hj _ _ Hj'. by apply next_fresh.
Qed.

Lemma writes_trans k m k' m' i s s' g1 g2 g3 :
  writes k m i s g1 g2 → writes k' m' i s' g2 g3 → writes (k + k') (m + m') i s' g1 g3.
Proof.
  intros [Hev Hn Hp] [Hev' Hn' Hp']. split; [by eapply evolves_trans|lia|].
  intros j Hj. rewrite Hp' by (rewrite (frame_capacity g1 g2) by apply Hev; done).
  case_decide; [done|]. rewrite Hp by done. by rewrite decide_False.
Qed.

Lemma writes_shape k m i s g g' : shape g → writes k m i s g g' → shape g'.
Proof. intros Hs Hw. eapply shape_frame; [done|]. apply Hw. Qed.

Lemma evolves_shape k m g g' : shape g → evolves k m g g' → shape g'.
Proof. intros Hs Hw. eapply shape_frame; [done|]. apply Hw. Qed.

(** Writing a borrowed row back. *)
Lemma writes_back i r r' g :
  shape g → slots_ok g → 0 ≤ i < row_capacity g → slot i g = Some r → row_len r' = row_len r →
  writes 0 0 i (Some r', id_at i g) g (set_slot i (Some r') g).
Proof.
  intros Hs Hok Hi Hr Hlen. pose proof (slots_each _ Hok _ Hi) as Hslot. unfold phys, slot_ok in Hslot.
  rewrite Hr in Hslot.
  eapply writes_eq; [|apply (writes_update 0 i (Some r') (id_at i g) 0)]; try done; try lia.
  - destruct (lookup_lt_is_Some_2 (row_ids g) (Z.to_nat i)) as [id Hid].
    { rewrite (shape_ids _ Hs). unfold row_capacity in Hi. lia. }
    unfold set_id, set_slot, set_next_row_id, set_row_ids, set_rows, set_generation, id_at. simpl.
    rewrite Hid, !Z.add_0_r. simpl. by rewrite (list_insert_id (row_ids g)) by done.
  - unfold slot_ok. rewrite Hlen. lia.
  - intros j Hj Hne _ Hj' Hid. apply Hne. by apply (slots_distinct _ Hok).
Qed.

Definition allocated (i : Z) (g : Grid) : bool := if slot i g then true else false.

Lemma erase_allocated_runs r background g :
  shape g → slots_ok g → generation g < u64_max → next_row_id g < u64_max →
  let i := absolute_index r g in
  runs (erase_allocated r background)
    (λ _, writes 1 (if allocated i g then 0 else 1) i
            (Some (blank_row (columns g) background),
             if allocated i g then id_at i g else next_row_id g) g) g.
Proof.
  intros Hs Hok Hgen Hnext i. pose proof (index_range g Hs r) as Hi. unfold allocated.
  unfold erase_allocated. apply runs_bind. apply allocate_runs; [done..|]. fold i. intros g' Hw.
  unfold borrow_slot. apply runs_bind. eapply runs_lift; [by apply erase_slot|].
  apply runs_put. pose proof (wr_phys _ _ _ _ _ _ Hw i Hi) as Hp. rewrite decide_True in Hp by done.
  unfold phys in Hp. injection Hp as Hslot Hid.
  pose proof (writes_shape _ _ _ _ _ _ Hs Hw) as Hs'.
  assert (slots_ok g') as Hok' by apply Hw.
  assert (row_capacity g' = row_capacity g) as HC by (apply frame_capacity, Hw).
  assert (columns g' = columns g) as Hcol by (apply (frame_columns g g'), Hw).
  assert (writes 0 0 i (Some (blank_row (columns g) background), id_at i g') g'
            (set_slot i (Some (blank_row (columns g) background)) g')) as Hb.
  { eapply writes_back; [done|done|by rewrite HC|exact Hslot|].
    pose proof (slots_each _ Hok' i) as He. unfold phys, slot_ok in He. rewrite Hslot, HC, Hcol in He.
    apply Nat2Z.inj. rewrite (blank_row_len (columns g)) by (pose proof (shape_columns _ Hs); lia).
    symmetry. by apply He. }
  pose proof (writes_trans _ _ _ _ _ _ _ _ _ _ Hw Hb) as Hc. rewrite !Z.add_0_r, Hid in Hc.
  unfold set_slot in Hc |- *. by destruct (slot i g).
Qed.

(** Exchanging two slots. *)
Lemma slots_permute (π : Z → Z) g g' :
  frame g g' → next_row_id g' = next_row_id g → slots_ok g →
  (∀ i, 0 ≤ i < row_capacity g → 0 ≤ π i < row_capacity g) →
  (∀ i j, π i = π j → i = j) →
  (∀ i, 0 ≤ i < row_capacity g → phys i g' = phys (π i) g) → slots_ok g'.
Proof.
  intros Hf Hn Hok Hr Hinj Hp. pose proof (frame_capacity _ _ Hf) as HC. split.
  - intros i Hi. rewrite HC in Hi. rewrite Hp, Hn, (frame_columns _ _ Hf) by done.
    apply Hok. by apply Hr.
  - intros i j Hi Hj Si Sj Hid. rewrite HC in Hi, Hj. apply Hinj.
    pose proof (Hp i Hi) as Pi. pose proof (Hp j Hj) as Pj. injection Pi as Pi1 Pi2. injection Pj as Pj1 Pj2.
    apply (slots_distinct _ Hok); [by apply Hr|by apply Hr|congruence..].
  - rewrite Hn. apply Hok.
Qed.

Lemma swap_runs a b g :
  shape g → slots_ok g → generation g < u64_max →
  runs (swap_rows a b) (λ _ g', evolves 1 0 g g' ∧ ∀ r, place r g' =
    if decide (absolute_index r g = absolute_index a g) then place b g
    else if decide (absolute_index r g = absolute_index b g) then place a g else place r g) g.
Proof.
  intros Hs Hok Hgen. unfold swap_rows. apply runs_bind, runs_get. cbv zeta.
  pose proof (index_range g Hs a) as Ha. pose proof (index_range g Hs b) as Hb.
  unfold place. set (i := absolute_index a g) in *. set (j := absolute_index b g) in *.
  destruct (i =? j) eqn:Hij.
  { apply Z.eqb_eq in Hij. apply runs_ret. split.
    - destruct (evolves_refl g Hok). split; [done|lia|lia|done].
    - intros r. repeat case_decide; congruence. }
  apply Z.eqb_neq in Hij. apply runs_bind, bump_runs; [done|]. apply runs_modify.
  set (g' := set_row_ids _ _).
  assert (frame g g') as Hf by (split; simpl; by rewrite ?length_swap).
  assert (∀ k, 0 ≤ k < row_capacity g → phys k g' = phys (if decide (k = i) then j else if decide (k = j) then i else k) g) as Hp.
  { intros k Hk. unfold row_capacity in *. unfold phys, slot, id_at. simpl.
    rewrite !lookup_swap by (rewrite ?(shape_ids _ Hs); lia).
    repeat case_decide; try lia; done. }
  split.
  - split; [done|simpl; lia..|]. apply (slots_permute (λ k, if decide (k = i) then j else if decide (k = j) then i else k) g);
      [done..| | |done]; intros k; repeat case_decide; intros; repeat case_decide; lia.
  - intros r. rewrite (frame_index _ _ _ Hf). rewrite Hp by by apply index_range. by repeat case_decide.
Qed.

(** ** The loops of a scroll *)

Lemma index_eq_iff g a b :
  shape g → - row_capacity g < a - b < row_capacity g →
  absolute_index a g = absolute_index b g ↔ a = b.
Proof. intros Hs Hab. split; [by apply index_inj|by intros ->]. Qed.

(** [swap_runs] for rows of one turn around the ring. *)
Lemma swap_runs_window a b lo g :
  shape g → slots_ok g → generation g < u64_max →
  lo ≤ a < lo + row_capacity g → lo ≤ b < lo + row_capacity g →
  runs (swap_rows a b) (λ _ g', evolves 1 0 g g' ∧
    ∀ r, lo ≤ r < lo + row_capacity g → place r g' =
      if decide (r = a) then place b g else if decide (r = b) then place a g else place r g) g.
Proof.
  intros Hs Hok Hgen Ha Hb. eapply runs_mono; [|by apply swap_runs]. intros _ g' [Hev Hp].
  split; [done|]. intros r Hr. rewrite Hp.
  pose proof (index_eq_iff g r a Hs ltac:(lia)). pose proof (index_eq_iff g r b Hs ltac:(lia)).
  repeat case_decide; tauto.
Qed.

Definition swap_down (n : Z) (row : Z) : M Grid unfinished unit :=
  let! row := signed_row row in swap_rows (row - n) row.

Definition swap_up (n : Z) (row : Z) : M Grid unfinished unit :=
  let! row := signed_row row in swap_rows row (row - n).

(** Bringing the rows [lo..hi] down from [n] above. *)
Lemma swaps_down lo hi n g :
  shape g → slots_ok g → lo ≤ hi → 0 < n → hi - lo + n ≤ row_capacity g → hi ≤ 2^30 →
  generation g + (hi - lo) ≤ u64_max →
  runs (for_each (reverse (range lo hi)) (swap_down n)) (λ _ g',
    evolves (hi - lo) 0 g g' ∧
    (∀ r, lo ≤ r < hi → place r g' = place (r - n) g) ∧
    (∀ r, hi ≤ r < lo - n + row_capacity g → place r g' = place r g) ∧ (lo = hi → g' = g)) g.
Proof.
  intros Hs Hok Hlo Hn HC Hhi Hgen. unfold range.
  pose (I := λ k s, evolves k 0 g s ∧ (∀ r, hi - k ≤ r < hi → place r s = place (r - n) g) ∧
    (∀ r, lo - n ≤ r < hi - k - n → place r s = place r g) ∧
    (∀ r, hi ≤ r < lo - n + row_capacity g → place r s = place r g) ∧ (k ≤ 0 → s = g)).
  eapply runs_mono; [|apply (runs_for_down I)]; [|lia| |].
  - intros _ g' (Hev & H1 & _ & H3 & H4). split_and!; [done| |done|intros; apply H4; lia].
    intros r Hr. apply H1. lia.
  - intros k s Hk (Hev & H1 & H2 & H3 & _). unfold swap_down. apply runs_bind, signed_runs; [unfold i32_max; lia|].
    pose proof (evolves_shape _ _ _ _ Hs Hev) as Hss.
    pose proof (frame_capacity g s ltac:(apply Hev)) as HCs. pose proof (ev_generation _ _ _ _ Hev).
    eapply runs_mono; [|apply (swap_runs_window _ _ (lo - n)); [done|apply Hev|lia|lia|lia]].
    intros _ s' [Hev' Hp]. rewrite HCs in Hp. split_and!.
    + rewrite <-(Z.add_0_r 0). by eapply evolves_trans.
    + intros r Hr. rewrite Hp by lia. destruct (decide (r = lo + (hi - lo) - 1 - k)) as [->|].
      * rewrite decide_False by lia. apply H2. lia.
      * rewrite !decide_False by lia. apply H1. lia.
    + intros r Hr. rewrite Hp, !decide_False by lia. apply H2. lia.
    + intros r Hr. rewrite Hp, !decide_False by lia. by apply H3.
    + lia.
  - split_and!; [by apply evolves_refl|lia|done..].
Qed.

(** Bringing the rows [lo..hi] up from [n] below; what the rows [lo..lo+n] held
    ends up in [hi..hi+n]. *)
Lemma swaps_up (P : option Row * Z → Prop) lo hi n g :
  shape g → slots_ok g → lo ≤ hi → 0 < n → hi - lo + n ≤ row_capacity g → hi + n ≤ 2^31 →
  generation g + (hi - lo) ≤ u64_max → (∀ r, lo ≤ r < lo + n → P (place r g)) →
  runs (for_each (range (lo + n) (hi + n)) (swap_up n)) (λ _ g',
    evolves (hi - lo) 0 g g' ∧
    (∀ r, lo ≤ r < hi → place r g' = place (r + n) g) ∧
    (∀ r, hi ≤ r < hi + n → P (place r g')) ∧
    (∀ r, hi + n ≤ r < lo + row_capacity g → place r g' = place r g)) g.
Proof.
  intros Hs Hok Hlo Hn HC Hhi Hgen HP. unfold range.
  replace (hi + n - (lo + n)) with (hi - lo) by lia.
  pose (I := λ k s, evolves k 0 g s ∧ (∀ r, lo ≤ r < lo + k → place r s = place (r + n) g) ∧
    (∀ r, lo + k ≤ r < lo + k + n → P (place r s)) ∧
    (∀ r, lo + k + n ≤ r < lo + row_capacity g → place r s = place r g)).
  eapply runs_mono; [|apply (runs_for_up I)]; [|lia| |].
  - intros _ g' (Hev & H1 & H2 & H3). split_and!; [done|intros r Hr..].
    + apply H1. lia.
    + apply H2. lia.
    + apply H3. lia.
  - intros k s Hk (Hev & H1 & H2 & H3). unfold swap_up. apply runs_bind, signed_runs; [unfold i32_max; lia|].
    pose proof (evolves_shape _ _ _ _ Hs Hev) as Hss.
    pose proof (frame_capacity g s ltac:(apply Hev)) as HCs. pose proof (ev_generation _ _ _ _ Hev).
    eapply runs_mono; [|apply (swap_runs_window _ _ lo); [done|apply Hev|lia|lia|lia]].
    intros _ s' [Hev' Hp]. rewrite HCs in Hp. split_and!.
    + rewrite <-(Z.add_0_r 0). by eapply evolves_trans.
    + intros r Hr. rewrite Hp by lia. destruct (decide (r = lo + k)) as [->|].
      * rewrite decide_False by lia. rewrite decide_True by lia. rewrite H3 by lia. f_equal. lia.
      * rewrite !decide_False by lia. apply H1. lia.
    + intros r Hr. rewrite Hp by lia. case_decide; [|case_decide; [lia|]].
      * replace (lo + n + k - n) with (lo + k) by lia. apply H2. lia.
      * apply H2. lia.
    + intros r Hr. rewrite Hp, !decide_False by lia. apply H3. lia.
  - split_and!; [by apply evolves_refl|lia|intros r Hr; apply HP; lia|done].
Qed.

Lemma evolves_weaken k m k' m' g g' : k ≤ k' → m ≤ m' → evolves k m g g' → evolves k' m' g g'.
Proof. intros ? ? []. split; [done|lia|lia|done]. Qed.

(** A loop over [lo..hi] each of whose rounds writes the slot of its row: the
    [r]-th value is related by [R] to what the slot held and to the next
    identity at that point, of which each round draws [least] to one. *)
Lemma loop_writes (R : option Row * Z → Z → option Row * Z → Prop) (body : Z → M Grid unfinished unit)
    least lo hi g :
  shape g → slots_ok g → lo ≤ hi → hi - lo ≤ row_capacity g → hi ≤ 2^31 → 0 ≤ least ≤ 1 →
  generation g + (hi - lo) ≤ u64_max → next_row_id g + (hi - lo) ≤ u64_max →
  (∀ r s, lo ≤ r < hi → shape s → slots_ok s → generation s < u64_max → next_row_id s < u64_max →
     columns s = columns g →
     runs (body r) (λ _ s', ∃ m v, least ≤ m ≤ 1 ∧ writes 1 m (absolute_index r s) v s s' ∧
                              R (place r s) (next_row_id s) v) s) →
  runs (for_each (range lo hi) (λ row, let! row := signed_row row in body row)) (λ _ g',
    evolves (hi - lo) (hi - lo) g g' ∧ next_row_id g + (hi - lo) * least ≤ next_row_id g' ∧
    (∀ r, lo ≤ r < hi → ∃ next, next_row_id g + (r - lo) * least ≤ next ≤ next_row_id g + (r - lo) ∧
       R (place r g) next (place r g')) ∧
    (∀ r, hi ≤ r < lo + row_capacity g → place r g' = place r g)) g.
Proof.
  intros Hs Hok Hlo HC Hhi Hleast Hgen Hnext Hbody. unfold range.
  pose (I := λ k s, evolves k k g s ∧ next_row_id g + k * least ≤ next_row_id s ∧
    (∀ r, lo ≤ r < lo + k → ∃ next, next_row_id g + (r - lo) * least ≤ next ≤ next_row_id g + (r - lo) ∧
       R (place r g) next (place r s)) ∧
    (∀ r, lo + k ≤ r < lo + row_capacity g → place r s = place r g)).
  eapply runs_mono; [|apply (runs_for_up I)]; [|lia| |].
  - intros _ g' (Hev & Hn & H1 & H2). split_and!; [done..|intros r Hr; apply H1; lia|intros r Hr; apply H2; lia].
  - intros k s Hk (Hev & Hn & H1 & H2). apply runs_bind, signed_runs; [unfold i32_max; lia|].
    pose proof (evolves_shape _ _ _ _ Hs Hev) as Hss.
    pose proof (ev_generation _ _ _ _ Hev). pose proof (ev_next _ _ _ _ Hev).
    eapply runs_mono; [|apply Hbody; [lia|done|apply Hev|lia|lia|apply (frame_columns g s), Hev]].
    intros _ s' (m & v & Hm & Hw & HR).
    assert (∀ r, lo ≤ r < lo + row_capacity g →
      place r s' = if decide (r = lo + k) then v else place r s) as Hp.
    { intros r Hr. rewrite (writes_place _ _ _ _ s s' r Hss Hw).
      pose proof (frame_capacity g s ltac:(apply Hev)) as HCs.
      pose proof (index_eq_iff s r (lo + k) Hss ltac:(lia)). repeat case_decide; tauto. }
    split_and!.
    + eapply evolves_weaken; [| |eapply evolves_trans; [exact Hev|apply Hw]]; lia.
    + rewrite (wr_next _ _ _ _ _ _ Hw). lia.
    + intros r Hr. rewrite Hp by lia. case_decide as Hd; [|apply H1; lia]. subst r.
      exists (next_row_id s). rewrite H2 in HR by lia. split; [|done]. lia.
    + intros r Hr. rewrite Hp, decide_False by lia. apply H2. lia.
  - split_and!; [by apply evolves_refl|lia|lia|done].
Qed.

Lemma recycle_loop lo hi background g :
  shape g → slots_ok g → lo ≤ hi → hi - lo ≤ row_capacity g → hi ≤ 2^31 →
  generation g + (hi - lo) ≤ u64_max → next_row_id g + (hi - lo) ≤ u64_max →
  runs (for_each (range lo hi) (λ row, let! row := signed_row row in recycle_row row background)) (λ _ g',
    evolves (hi - lo) (hi - lo) g g' ∧ next_row_id g' = next_row_id g + (hi - lo) ∧
    (∀ r, lo ≤ r < hi →
       place r g' = (Some (blank_row (columns g) background), next_row_id g + (r - lo))) ∧
    (∀ r, hi ≤ r < lo + row_capacity g → place r g' = place r g)) g.
Proof.
  intros Hs Hok Hlo HC Hhi Hgen Hnext.
  eapply runs_mono; [|apply (loop_writes (λ _ next v, v = (Some (blank_row (columns g) background), next))
    _ 1)]; try done.
  - intros _ g' (Hev & Hn & H1 & H2). pose proof (ev_next _ _ _ _ Hev). split_and!; [done|lia| |done].
    intros r Hr. destruct (H1 r Hr) as (next & ? & ->). f_equal. lia.
  - intros r s Hr Hss Hsok Hsg Hsn Hcol. eapply runs_mono; [|by apply recycle_runs].
    intros ? s' Hw. eexists 1, _. split_and!; [lia|lia|exact Hw|by rewrite Hcol].
Qed.

Lemma erase_loop lo hi background g :
  shape g → slots_ok g → lo ≤ hi → hi - lo ≤ row_capacity g → hi ≤ 2^31 →
  generation g + (hi - lo) ≤ u64_max → next_row_id g + (hi - lo) ≤ u64_max →
  runs (for_each (range lo hi) (λ row, let! row := signed_row row in erase_allocated row background)) (λ _ g',
    evolves (hi - lo) (hi - lo) g g' ∧
    (∀ r, lo ≤ r < hi → (place r g').1 = Some (blank_row (columns g) background) ∧
       (is_Some (place r g).1 → (place r g').2 = (place r g).2)) ∧
    (∀ r, hi ≤ r < lo + row_capacity g → place r g' = place r g)) g.
Proof.
  intros Hs Hok Hlo HC Hhi Hgen Hnext.
  eapply runs_mono; [|apply (loop_writes (λ old _ v, v.1 = Some (blank_row (columns g) background) ∧
    (is_Some old.1 → v.2 = old.2)) _ 0)]; try done.
  - intros _ g' (Hev & Hn & H1 & H2). split_and!; [done| |done].
    intros r Hr. by destruct (H1 r Hr) as (next & ? & ?).
  - intros r s Hr Hss Hsok Hsg Hsn Hcol. eapply runs_mono; [|by apply erase_allocated_runs].
    intros ? s' Hw. eexists _, _. split_and!; [| |exact Hw|simpl; by rewrite Hcol|].
    1,2: by destruct (allocated _ s).
    simpl. unfold allocated. intros [? Ha]. by rewrite Ha.
Qed.

Definition deallocate (relative_row : Z) : M Grid unfinished unit :=
  let! g := get in
  let index := absolute_index relative_row g in
  put (set_id index 0 (set_slot index None g)).

Lemma deallocate_loop lo hi g :
  shape g → slots_ok g → lo ≤ hi → hi - lo ≤ row_capacity g → hi ≤ 2^31 →
  generation g + (hi - lo) ≤ u64_max → next_row_id g + (hi - lo) ≤ u64_max →
  runs (for_each (range lo hi) (λ row, let! row := signed_row row in deallocate row)) (λ _ g',
    evolves (hi - lo) (hi - lo) g g' ∧
    (∀ r, lo ≤ r < hi → place r g' = (None, 0)) ∧
    (∀ r, hi ≤ r < lo + row_capacity g → place r g' = place r g)) g.
Proof.
  intros Hs Hok Hlo HC Hhi Hgen Hnext.
  eapply runs_mono; [|apply (loop_writes (λ _ _ v, v = (None, 0)) deallocate 0)]; try done.
  - intros ? g' (Hev & Hn & H1 & H2). split_and!; [done| |done].
    intros r Hr. by destruct (H1 r Hr) as (next & ? & ->).
  - intros r s Hr Hss Hsok Hsg Hsn Hcol. apply runs_bind, runs_get, runs_put.
    exists 0, (None, 0). split_and!; [lia|lia| |done].
    assert (writes 0 0 (absolute_index r s) (None, 0) s
      (set_id (absolute_index r s) 0 (set_slot (absolute_index r s) None s))) as [Hev Hn Hp].
    { eapply writes_eq; [|apply (writes_update 0 (absolute_index r s) None 0 0 s)]; try done; try lia.
      - unfold set_id, set_slot, set_next_row_id, set_row_ids, set_rows, set_generation. simpl.
        by rewrite !Z.add_0_r.
      - by apply index_range. }
    split; [by eapply evolves_weaken; [| |exact Hev]|done|done].
Qed.

(** ** Renewing identities *)

(** Renewing the identities of some slots, in order: rows stay, each allocated
    slot of the list gets an identity not drawn before, larger than the ones
    before it. *)
Record renews (xs : list Z) (g g' : Grid) : Prop := {
  rn_frame : frame g g';
  rn_rows : rows g' = rows g;
  rn_generation : generation g' = generation g;
  rn_next : next_row_id g ≤ next_row_id g' ≤ next_row_id g + Z.of_nat (length xs);
  rn_other i : 0 ≤ i < row_capacity g → i ∉ xs ∨ slot i g = None → id_at i g' = id_at i g;
  rn_fresh i : i ∈ xs → is_Some (slot i g) → next_row_id g ≤ id_at i g' < next_row_id g';
  rn_sorted k l i j : (k < l)%nat → xs !! k = Some i → xs !! l = Some j →
    is_Some (slot i g) → is_Some (slot j g) → id_at i g' < id_at j g';
}.

Lemma id_at_set i j v g :
  0 ≤ i → 0 ≤ j < Z.of_nat (length (row_ids g)) →
  id_at i (set_id j v g) = if decide (i = j) then v else id_at i g.
Proof.
  intros Hi Hj. unfold id_at. simpl. case_decide as Hd.
  - subst. rewrite list_lookup_insert by lia. by rewrite decide_True by lia.
  - by rewrite list_lookup_insert_ne by lia.
Qed.

(** One more renewal. *)
Lemma renews_snoc xs i r g g' :
  shape g → 0 ≤ i < row_capacity g → Forall (λ i, 0 ≤ i < row_capacity g) xs → i ∉ xs →
  slot i g = Some r → renews xs g g' →
  renews (xs ++ [i]) g (set_id i (next_row_id g') (set_next_row_id (next_row_id g' + 1) g')).
Proof.
  intros Hs Hi His Hnot Hr [Hf Hrows Hgen Hnext Hother Hfresh Hsorted].
  set (g2 := set_id _ _ _).
  assert (∀ j, 0 ≤ j → id_at j g2 = if decide (j = i) then next_row_id g' else id_at j g') as Hid.
  { intros j Hj. apply (id_at_set j i _ (set_next_row_id (next_row_id g' + 1) g')); [done|].
    simpl. rewrite (frame_ids _ _ Hf), (shape_ids _ Hs). done. }
  assert (∀ j, j ∈ xs → 0 ≤ j ∧ j ≠ i) as Hin.
  { intros j Hj. rewrite Forall_forall in His. specialize (His j Hj). split; [lia|by intros ->]. }
  split; [|done|done| | | |].
  - destruct Hf. split; simpl; try done. by rewrite length_insert.
  - rewrite length_app. simpl. lia.
  - intros j Hj Hcase. rewrite Hid by lia. rewrite decide_False.
    + apply Hother; [done|]. destruct Hcase as [Hc|]; [left|by right]. set_solver.
    + intros ->. destruct Hcase as [Hc|Hc]; [set_solver|congruence].
  - intros j [Hj|Hj]%elem_of_app Sj.
    + destruct (Hin j Hj). rewrite Hid, decide_False by done. specialize (Hfresh j Hj Sj). simpl. lia.
    + apply list_elem_of_singleton in Hj as ->. rewrite Hid, decide_True by (done || lia). simpl. lia.
  - intros k l a b Hkl Ha Hb Sa Sb.
    assert (k < length xs)%nat as Hk.
    { apply lookup_lt_Some in Hb. rewrite length_app in Hb. simpl in Hb. lia. }
    rewrite lookup_app_l in Ha by done. pose proof (list_elem_of_lookup_2 _ _ _ Ha) as Ha'.
    destruct (Hin a Ha'). rewrite (Hid a), decide_False by done.
    destruct (decide (l < length xs)%nat) as [Hl|Hl].
    + rewrite lookup_app_l in Hb by done. pose proof (list_elem_of_lookup_2 _ _ _ Hb) as Hb'.
      destruct (Hin b Hb'). rewrite (Hid b), decide_False by done. by apply (Hsorted k l a b).
    + rewrite lookup_app_r in Hb by lia. apply list_lookup_singleton_Some in Hb as [_ ->].
      rewrite Hid, decide_True by (done || lia). by apply Hfresh.
Qed.

(** A slot that holds no row is passed over. *)
Lemma renews_skip xs i g g' :
  0 ≤ i < row_capacity g → slot i g = None → renews xs g g' → renews (xs ++ [i]) g g'.
Proof.
  intros Hi Hr [Hf Hrows Hgen Hnext Hother Hfresh Hsorted].
  split; [done|done|done| | | |].
  - rewrite length_app. simpl. lia.
  - intros j Hj [Hc|Hc]; apply Hother; [done|left; set_solver|done|by right].
  - intros j [Hj|Hj]%elem_of_app Sj; [by apply Hfresh|].
    apply list_elem_of_singleton in Hj as ->. destruct Sj. congruence.
  - intros k l a b Hkl Ha Hb Sa Sb.
    assert (l < length xs)%nat as Hl.
    { destruct (decide (l < length xs)%nat); [done|]. rewrite lookup_app_r in Hb by lia.
      apply list_lookup_singleton_Some in Hb as [_ ->]. destruct Sb. congruence. }
    rewrite lookup_app_l in Ha, Hb by lia. by apply (Hsorted k l a b).
Qed.

Lemma renews_nil g : renews [] g g.
Proof.
  split; [apply frame_refl|done|done|simpl; lia|done|set_solver|]. intros ? ? ? ? ? [=].
Qed.

Lemma renew_runs xs g :
  shape g → NoDup xs → Forall (λ i, 0 ≤ i < row_capacity g) xs →
  next_row_id g + Z.of_nat (length xs) ≤ u64_max →
  runs (for_each xs reidentify) (λ _, renews xs g) g.
Proof.
  intros Hs Hnd Hr Hn.
  eapply runs_mono; [|apply (runs_for_each (λ k, renews (take k xs) g))].
  - intros ? g'. by rewrite take_ge by lia.
  - intros k i s Hi Hre. rewrite (take_S_r _ _ _ Hi). unfold reidentify.
    assert (0 ≤ i < row_capacity g) as Hir by by eapply Forall_lookup_1 in Hr.
    apply runs_bind, runs_get.
    assert (slot i s = slot i g) as Hsl by (unfold slot; by rewrite (rn_rows _ _ _ Hre)).
    rewrite Hsl. destruct (slot i g) as [r|] eqn:Hslot; simpl; [|by apply runs_ret, renews_skip].
    pose proof (lookup_lt_Some _ _ _ Hi). pose proof (rn_next _ _ _ Hre) as Hle. rewrite length_take in Hle.
    apply assign_runs; [lia|]. apply (renews_snoc _ i r); [done|done| | |done|done].
    + by apply Forall_take.
    + intros Hin. apply list_elem_of_lookup in Hin as [l Hl]. apply lookup_take_Some in Hl as [Hl ?].
      pose proof (NoDup_lookup _ _ _ _ Hnd Hi Hl). lia.
  - rewrite take_0. apply renews_nil.
Qed.

(** Renewed slots are as they should be when the others were. *)
Lemma renews_slots xs g g' :
  0 < next_row_id g → renews xs g g' →
  (∀ i, 0 ≤ i < row_capacity g → i ∈ xs →
     match slot i g with Some r => Z.of_nat (row_len r) = columns g | None => id_at i g = 0 end) →
  (∀ i, 0 ≤ i < row_capacity g → i ∉ xs → slot_ok (columns g) (next_row_id g) (phys i g)) →
  (∀ i j, 0 ≤ i < row_capacity g → 0 ≤ j < row_capacity g → i ∉ xs → j ∉ xs →
    is_Some (slot i g) → is_Some (slot j g) → id_at i g = id_at j g → i = j) →
  slots_ok g'.
Proof.
  intros Hpos Hre Hin Hout Hdist.
  pose proof (frame_capacity _ _ (rn_frame _ _ _ Hre)) as HC.
  assert (∀ i, slot i g' = slot i g) as Hsl by (intros i; unfold slot; by rewrite (rn_rows _ _ _ Hre)).
  pose proof (rn_next _ _ _ Hre) as Hn.
  assert (∀ i, 0 ≤ i < row_capacity g → i ∉ xs → is_Some (slot i g) →
    0 < id_at i g' < next_row_id g ∧ id_at i g' = id_at i g) as Hold.
  { intros i Hi Hx [r Hr]. rewrite (rn_other _ _ _ Hre) by auto. specialize (Hout i Hi Hx).
    unfold phys, slot_ok in Hout. rewrite Hr in Hout. lia. }
  split; [| |lia].
  - intros i Hi. rewrite HC in Hi. unfold phys, slot_ok. rewrite Hsl, (frame_columns _ _ (rn_frame _ _ _ Hre)).
    destruct (decide (i ∈ xs)) as [Hx|Hx].
    + specialize (Hin i Hi Hx). destruct (slot i g) as [r|] eqn:Hr.
      * pose proof (rn_fresh _ _ _ Hre i Hx ltac:(by eexists)). lia.
      * rewrite (rn_other _ _ _ Hre) by auto. done.
    + specialize (Hout i Hi Hx). unfold phys, slot_ok in Hout. destruct (slot i g) as [r|] eqn:Hr.
      * destruct (Hold i Hi Hx ltac:(by eexists)). lia.
      * by rewrite (rn_other _ _ _ Hre) by auto.
  - intros i j Hi Hj. rewrite !Hsl, HC in *. intros Si Sj Hid.
    destruct (decide (i ∈ xs)) as [Xi|Xi], (decide (j ∈ xs)) as [Xj|Xj].
    + pose proof Xi as [k Hk]%list_elem_of_lookup. pose proof Xj as [l Hl]%list_elem_of_lookup.
      destruct (decide (k < l)%nat); [pose proof (rn_sorted _ _ _ Hre k l i j); naive_solver lia|].
      destruct (decide (l < k)%nat); [pose proof (rn_sorted _ _ _ Hre l k j i); naive_solver lia|].
      assert (k = l) as -> by lia. congruence.
    + pose proof (rn_fresh _ _ _ Hre i Xi Si). destruct (Hold j Hj Xj Sj). lia.
    + pose proof (rn_fresh _ _ _ Hre j Xj Sj). destruct (Hold i Hi Xi Si). lia.
    + destruct (Hold j Hj Xj Sj). destruct (Hold i Hi Xi Si). apply Hdist; [done..|congruence].
Qed.
