(* ===== verification/GridSteps.v ===== *)
(** * Every operation of the grid keeps its invariant

    [grid_ok] is what the terminal relies on: the shape of the ring, one
    identity per allocated row, an allocated screen, history whose identities
    grow towards the present, cursors on the screen. *)

From stdpp Require Import base list gmap.
From S2P Require Import Prelude RustStd Cell Row RowInv RowProps Coord Grid GridInv.

#[local] Open Scope Z_scope.

Record grid_ok (g : Grid) : Prop := {
  ok_shape : shape g;
  ok_slots : slots_ok g;
  ok_screen r : 0 ≤ r < screen_rows g → is_Some (place r g).1;
  ok_history d e : 1 ≤ d → d < e → e ≤ row_capacity g - screen_rows g →
    is_Some (place (- d) g).1 → is_Some (place (- e) g).1 → (place (- e) g).2 < (place (- d) g).2;
  ok_cursor : cursor_fits (cursor g) g = true;
  ok_saved : cursor_fits (saved_cursor g) g = true;
  ok_history_generation : 0 < history_generation g;
}.

(** The counters can still be raised by [k]. *)
Record spare (k : Z) (g : Grid) : Prop := {
  room_generation : generation g + k ≤ u64_max;
  room_next : next_row_id g + k ≤ u64_max;
  room_history : history_generation g + k ≤ u64_max;
}.

Arguments room_generation {k} g _.
Arguments room_next {k} g _.
Arguments room_history {k} g _.

(** More than any operation of a grid needs; the limit a checkpoint sets on the
    counters, [CHECKPOINT_COUNTER_HEADROOM], leaves far more. *)
Abbreviation roomy := (spare (2 ^ 33)).

Lemma spare_le k l g : l ≤ k → spare k g → spare l g.
Proof. intros H []. split; lia. Qed.

(** An operation that keeps the dimensions and raises each counter by at most
    [k]. A reset starts the generation again, which stays below the identities. *)
Record spends (k : Z) (g g' : Grid) : Prop := {
  sp_columns : columns g' = columns g;
  sp_screen : screen_rows g' = screen_rows g;
  sp_capacity : row_capacity g' = row_capacity g;
  sp_generation : generation g' ≤ Z.max (generation g) (next_row_id g) + k;
  sp_next : next_row_id g' ≤ next_row_id g + k;
  sp_history : history_generation g' ≤ history_generation g + k;
}.

Lemma spends_refl k g : 0 ≤ k → spends k g g.
Proof. split; done || lia. Qed.

Lemma spends_trans k l g1 g2 g3 : spends k g1 g2 → spends l g2 g3 → spends (k + l) g1 g3.
Proof. intros [] []. split; congruence || lia. Qed.

Lemma spends_le k l g g' : k ≤ l → spends k g g' → spends l g g'.
Proof. intros Hk []. split; done || lia. Qed.

Lemma spends_spare k n g g' : spends k g g' → spare (n + k) g → spare n g'.
Proof. intros [] []. split; lia. Qed.

Lemma evolves_spends k m n g g' : evolves k m g g' → k ≤ n → m ≤ n → 0 ≤ n → spends n g g'.
Proof.
  intros [Hf Hg Hn _] ???. split; try apply Hf; try lia.
  - by apply frame_capacity.
  - rewrite (frame_history _ _ Hf). lia.
Qed.

(** A grid of any dimensions with counters at most [k] above. *)
Definition raises (k : Z) (g g' : Grid) : Prop :=
  generation g' ≤ generation g + k ∧ next_row_id g' ≤ next_row_id g + k ∧
  history_generation g' ≤ history_generation g + k.

Lemma raises_spare k n g g' : raises k g g' → spare (n + k) g → spare n g'.
Proof. intros (? & ? & ?) []. split; lia. Qed.

(** What holds of every allocated row, on the screen and in the history. *)
Definition rows_hold (P : Row → Prop) (g : Grid) : Prop := ∀ x, Some x ∈ rows g → P x.

Lemma rows_hold_at P g i x : rows_hold P g → slot i g = Some x → P x.
Proof.
  intros HP Hx. apply HP. unfold slot in Hx. destruct (rows g !! _) as [o|] eqn:Ho; [|done].
  simpl in Hx. subst o. by eapply list_elem_of_lookup_2.
Qed.

Lemma rows_hold_row P g r x : rows_hold P g → row r g = Some x → P x.
Proof. apply rows_hold_at. Qed.

Lemma rows_hold_intro P g :
  shape g → (∀ r x, 0 ≤ r < row_capacity g → row r g = Some x → P x) → rows_hold P g.
Proof.
  intros Hs HP x [i Hi]%list_elem_of_lookup. pose proof (lookup_lt_Some _ _ _ Hi) as Hl.
  set (r := Z.of_nat i - offset g). apply (HP (r mod row_capacity g)).
  { apply Z.mod_pos_bound, capacity_pos, Hs. }
  assert (absolute_index (r mod row_capacity g) g = absolute_index r g) as Heq.
  { unfold absolute_index. rewrite !masked_mod by done. by rewrite Z.add_mod_idemp_r by (pose proof (capacity_pos g Hs); lia). }
  unfold row. rewrite Heq. unfold r. rewrite index_of_slot by (done || (unfold row_capacity; lia)).
  unfold slot. by rewrite Nat2Z.id, Hi.
Qed.

(** Rows that stay where they are, and others. *)
Lemma rows_hold_places P g g' :
  rows_hold P g → shape g' →
  (∀ r, 0 ≤ r < row_capacity g' → place r g' = place r g ∨ ∀ x, row r g' = Some x → P x) → rows_hold P g'.
Proof.
  intros HP Hs H. apply rows_hold_intro; [done|]. intros r x Hr Hx. destruct (H r Hr) as [Heq|Hnew]; [|by apply Hnew].
  apply (rows_hold_row P g r); [done|]. rewrite <-Hx. symmetry. exact (f_equal fst Heq).
Qed.

Lemma rows_hold_slot P i o g : rows_hold P g → (∀ x, o = Some x → P x) → rows_hold P (set_slot i o g).
Proof.
  intros HP Ho x Hx. simpl in Hx. apply list_elem_of_lookup in Hx as [j Hj].
  apply list_lookup_insert_Some in Hj as [(_ & -> & _)|[_ Hj]]; [by apply Ho|].
  apply HP. by eapply list_elem_of_lookup_2.
Qed.

(** Whatever holds of the rows, their width included, and of the blank rows
    that are made, holds after any sequence of grid operations: rows are only
    moved, renamed, dropped, made and erased. *)
Section holding.
Context (P : Row → Prop) (w : Z) (background : Color).
Context (Hblank : P (blank_row w background)) (Hnew : P (Row_new (Z.to_nat w))) (Hw : 0 ≤ w).

Definition holding (g : Grid) : Prop :=
  columns g = w ∧ rows_hold (λ x, Z.of_nat (row_len x) = w ∧ P x) g.

Lemma holding_slot i o g :
  holding g → (∀ x, o = Some x → Z.of_nat (row_len x) = w ∧ P x) → holding (set_slot i o g).
Proof using. intros [Hc HP] Ho. split; [done|]. by apply rows_hold_slot. Qed.

Lemma erased_row r r' :
  Z.of_nat (row_len r) = w → erase_all background r = Ok r' → Z.of_nat (row_len r') = w ∧ P r'.
Proof using Hblank Hw.
  intros Hl. rewrite erase_all_exact. intros [= <-].
  assert (row_len r = Z.to_nat w) as -> by lia. split; [by apply blank_row_len|done].
Qed.

Lemma bump_keeps : keeps holding bump_generation.
Proof using. unfold bump_generation. keeps_calls. by apply keeps_put. Qed.

Lemma assign_keeps i : keeps holding (assign_new_row_id i).
Proof using. unfold assign_new_row_id. keeps_calls. by apply keeps_put. Qed.

Lemma signed_keeps row : keeps (E := unfinished) holding (signed_row row).
Proof using. unfold signed_row. keeps_calls. Qed.

Lemma slot_width i g :
  holding g → Z.of_nat (row_len (default (Row_new (Z.to_nat (columns g))) (slot i g))) = w.
Proof using Hw.
  intros [Hc HP]. destruct (slot i g) as [y|] eqn:Hy; simpl; [by apply (rows_hold_at _ g i y HP)|].
  unfold row_len, Row_new, mark_cells_clean. simpl. rewrite length_fmap, length_replicate, Hc. lia.
Qed.

Lemma recycle_keeps row : keeps holding (recycle_row row background).
Proof using Hblank Hw.
  unfold recycle_row. keeps_calls; [apply bump_keeps| |apply assign_keeps].
  apply keeps_put, holding_slot; [done|]. intros x [= <-]. eapply erased_row; [|done]. by apply slot_width.
Qed.

Lemma reidentify_keeps i : keeps holding (reidentify i).
Proof using. unfold reidentify. keeps_calls. apply assign_keeps. Qed.

Lemma erase_allocated_keeps row : keeps holding (erase_allocated row background).
Proof using Hblank Hnew Hw.
  intros g r g' Hg. unfold erase_allocated, row_or_allocate.
  pose proof bump_keeps as Hb. pose proof (assign_keeps (absolute_index row g)) as Ha.
  unfold bind at 1 2, get. unfold bind at 1. destruct (bump_generation g) as [[[]|e|] g1] eqn:H1;
    pose proof (Hb _ _ _ Hg H1) as Hg1; [|by intros [= _ <-]..].
  unfold bind at 1 2. match goal with |- context [(if ?b then ?x else ?y) g1] => set (m := if b then x else y) end.
  assert (keeps holding m) as Hm.
  { unfold m. keeps_calls; [|exact Ha]. apply keeps_put, holding_slot; [done|].
    intros x [= <-]. rewrite (proj1 Hg1). split; [|done].
    unfold row_len, Row_new, mark_cells_clean. simpl. rewrite length_fmap, length_replicate. lia. }
  destruct (m g1) as [[[]|e|] g2] eqn:H2; pose proof (Hm _ _ _ Hg1 H2) as Hg2; [|by intros [= _ <-]..].
  unfold bind, expect. destruct (slot (absolute_index row g) g2) as [x|] eqn:Hx; [|by intros [= _ <-]].
  unfold ret, borrow_slot, lift. destruct (erase_all background x) as [y|e|] eqn:Hy; [|by intros [= _ <-]..].
  intros [= _ <-]. apply holding_slot; [done|]. intros z [= <-]. eapply erased_row; [|done].
  exact (proj1 (rows_hold_at _ g2 _ x (proj2 Hg2) Hx)).
Qed.

Lemma swap_keeps first second : keeps holding (swap_rows first second).
Proof using.
  unfold swap_rows. keeps_calls; [apply bump_keeps|]. apply keeps_modify. intros g [Hc HP]. split; [done|].
  intros x Hx. apply HP. simpl in Hx. by apply elem_of_swap in Hx.
Qed.

Lemma scroll_keeps dir reg n : keeps holding (scroll dir reg n background).
Proof using Hblank Hnew Hw.
  unfold scroll. keeps_calls.
  - unfold scroll_forward_core, reidentify_newest_history_rows. keeps_calls;
      first [by apply keeps_modify|by apply keeps_put|apply signed_keeps|apply swap_keeps|apply recycle_keeps
            |apply reidentify_keeps].
  - unfold scroll_reverse_core. keeps_calls;
      first [by apply keeps_modify|apply signed_keeps|apply swap_keeps|apply erase_allocated_keeps
            |by apply keeps_put, (holding_slot _ None)].
Qed.
End holding.

(** ** Moving the offset and the view *)

Lemma place_put_offset r n g :
  shape g → place r (put_offset (masked (offset g + n) g) g) = place (r + n) g.
Proof.
  intros Hs. unfold place, absolute_index. simpl.
  change (phys ?i (put_offset ?v g)) with (phys i g). f_equal.
  change (masked ?x (put_offset ?v g)) with (masked x g). rewrite !masked_mod by done.
  rewrite Z.add_mod_idemp_l by (pose proof (capacity_pos g Hs); lia). f_equal. lia.
Qed.

Lemma shape_put_offset n g : shape g → shape (put_offset (masked n g) g).
Proof. intros Hs. pose proof (masked_range g Hs n). destruct Hs. by split. Qed.

Lemma shape_put_view v g : shape g → 0 ≤ v < row_capacity g → shape (put_view v g).
Proof. intros [] Hv. by split. Qed.

Lemma slots_put_offset v g : slots_ok g → slots_ok (put_offset v g).
Proof. intros []. by split. Qed.

Lemma slots_put_view v g : slots_ok g → slots_ok (put_view v g).
Proof. intros []. by split. Qed.

Lemma to_scrollback_ok g v :
  shape g → 0 ≤ v < row_capacity g →
  absolute_to_scrollback (screen_rows g) v g = Ok (masked (v - scrollback_start (screen_rows g) g) g).
Proof.
  intros Hs Hv. pose proof (shape_screen _ Hs). unfold absolute_to_scrollback, assert_coordinate_inputs.
  rewrite !(proj2 (Z.leb_le _ _)), (proj2 (Z.ltb_lt _ _)) by lia. done.
Qed.

Lemma to_absolute_ok g v :
  shape g → 0 ≤ v < row_capacity g →
  scrollback_to_absolute (screen_rows g) v g = Ok (masked (scrollback_start (screen_rows g) g + v) g).
Proof.
  intros Hs Hv. pose proof (shape_screen _ Hs). unfold scrollback_to_absolute, assert_coordinate_inputs.
  rewrite !(proj2 (Z.leb_le _ _)), (proj2 (Z.ltb_lt _ _)) by lia. done.
Qed.

(** ** The newest history *)

Definition newest (m : Z) (g : Grid) : list Z := (λ d, absolute_index (- d) g) <$> reverse (range 1 (m + 1)).

Lemma newest_lookup m g k i :
  newest m g !! k = Some i ↔ ∃ d, i = absolute_index (- d) g ∧ 1 ≤ d ≤ m ∧ d = m - Z.of_nat k.
Proof.
  unfold newest, range. rewrite list_lookup_fmap_Some. split.
  - intros (d & -> & Hd). pose proof (lookup_lt_Some _ _ _ Hd) as Hl. rewrite length_reverse, length_seqZ in Hl.
    rewrite reverse_lookup in Hd by (rewrite length_seqZ; lia). rewrite length_seqZ in Hd.
    apply lookup_seqZ in Hd as [-> Hk]. eexists. split; [done|]. lia.
  - intros (d & -> & Hd & Hk). exists d. split; [done|].
    rewrite reverse_lookup by (rewrite length_seqZ; lia). rewrite length_seqZ. apply lookup_seqZ. lia.
Qed.

Lemma newest_elem m g i : i ∈ newest m g ↔ ∃ d, i = absolute_index (- d) g ∧ 1 ≤ d ≤ m.
Proof.
  rewrite list_elem_of_lookup. setoid_rewrite newest_lookup. split.
  - intros (k & d & -> & Hd & _). eauto.
  - intros (d & -> & Hd). exists (Z.to_nat (m - d)), d. split; [done|]. lia.
Qed.

Lemma newest_NoDup m g : shape g → m ≤ row_capacity g → NoDup (newest m g).
Proof.
  intros Hs Hm. apply NoDup_alt. intros k l i (d & -> & Hd & Hk)%newest_lookup (e & He & He' & Hl)%newest_lookup.
  apply index_inj in He; [|done|lia]. lia.
Qed.

Lemma renew_newest n g :
  shape g → slots_ok g → 0 ≤ n → next_row_id g + n ≤ u64_max →
  let m := Z.min n (row_capacity g - screen_rows g) in
  runs (reidentify_newest_history_rows n) (λ _ g', evolves 0 n g g' ∧
    (∀ r, 0 ≤ r < row_capacity g - m → place r g' = place r g) ∧
    (∀ d, 1 ≤ d ≤ m → (place (- d) g').1 = (place (- d) g).1 ∧
       (is_Some (place (- d) g).1 → next_row_id g ≤ (place (- d) g').2)) ∧
    (∀ d e, 1 ≤ d → d < e → e ≤ m → is_Some (place (- d) g).1 → is_Some (place (- e) g).1 →
       (place (- e) g').2 < (place (- d) g').2)) g.
Proof.
  intros Hs Hok Hn Hnext m. pose proof (shape_screen _ Hs) as Hscr.
  assert (0 ≤ m ≤ row_capacity g - 1) as Hm by lia.
  unfold reidentify_newest_history_rows. apply runs_bind, runs_get. fold m. cbv zeta.
  assert (length (newest m g) = Z.to_nat m) as Hlen.
  { unfold newest, range. rewrite length_fmap, length_reverse, length_seqZ. lia. }
  replace (for_each (reverse (range 1 (m + 1))) (λ distance, reidentify (masked (offset g - distance) g)))
    with (for_each (newest m g) reidentify).
  2:{ unfold newest. by rewrite for_each_fmap. }
  eapply runs_mono; [|apply renew_runs; [done|apply newest_NoDup; [done|lia]| |lia]].
  2:{ apply Forall_forall. intros i (d & -> & _)%newest_elem. by apply index_range. }
  intros ? g' Hre. pose proof (rn_frame _ _ _ Hre) as Hf.
  assert (∀ r, (place r g').1 = (place r g).1) as Hsl.
  { intros r. rewrite (place_frame _ g g') by done. unfold place, phys, slot. simpl.
    by rewrite (rn_rows _ _ _ Hre). }
  assert (∀ r, (place r g').2 = id_at (absolute_index r g) g') as Hid.
  { intros r. by rewrite (place_frame _ g g') by done. }
  split_and!.
  - split; [done|rewrite (rn_generation _ _ _ Hre); lia|pose proof (rn_next _ _ _ Hre); lia|].
    apply (renews_slots (newest m g) g); [apply Hok|done| | |].
    + intros i Hi _. pose proof (slots_each _ Hok i Hi) as H. unfold phys, slot_ok in H.
      destruct (slot i g); [lia|done].
    + intros i Hi _. by apply Hok.
    + intros i j Hi Hj _ _. by apply Hok.
  - intros r Hr. apply injective_projections; [apply Hsl|]. rewrite Hid.
    rewrite (rn_other _ _ _ Hre); [done|by apply index_range|].
    left. intros (d & Hd & ?)%newest_elem. apply index_inj in Hd; [lia|done|lia].
  - intros d Hd. split; [apply Hsl|]. intros Hsome. rewrite Hid.
    apply (rn_fresh _ _ _ Hre); [|done]. apply newest_elem. eauto.
  - intros d e Hd Hde He Sd Se. rewrite !Hid.
    eapply (rn_sorted _ _ _ Hre (Z.to_nat (m - e)) (Z.to_nat (m - d))); [lia| | |done|done];
      apply newest_lookup; eexists; (split; [done|lia]).
Qed.

(** ** Scrolling forward *)

Lemma place_turn r g : shape g → place (r + row_capacity g) g = place r g.
Proof. intros Hs. rewrite <-(place_period g Hs (r + row_capacity g)). f_equal. lia. Qed.

(** What holds of the rows [a..b] holds of the same slots one turn earlier. *)
Lemma same_turn a b g g' :
  shape g → frame g g' → (∀ r, a ≤ r < b → place r g' = place r g) →
  ∀ r, a ≤ r + row_capacity g < b → place r g' = place r g.
Proof.
  intros Hs Hf H r Hr. rewrite <-(place_turn r g) by done.
  rewrite <-(place_turn r g') by by eapply shape_frame. rewrite (frame_capacity _ _ Hf). by apply H.
Qed.

(** The rows a forward scroll of [start..stop] by [n] leaves, when the offset
    has moved: [g] before, [g'] after. *)
Record forwarded (start stop n : Z) (background : Color) (g g' : Grid) : Prop := {
  fwd_evolves : evolves (screen_rows g) (2 * n) g g';
  fwd_outside r : 0 ≤ r < start ∨ stop ≤ r < screen_rows g → place r g' = place (r - n) g;
  fwd_inside r : start ≤ r < stop - n → place r g' = place r g;
  fwd_exposed r : stop - n ≤ r < stop →
    place r g' = (Some (blank_row (columns g) background), next_row_id g + (r - (stop - n)));
  fwd_older d : n < d ≤ row_capacity g - screen_rows g → place (- d) g' = place (- d) g;
  fwd_new d : start = 0 → 1 ≤ d ≤ n → d ≤ row_capacity g - screen_rows g →
    (place (- d) g').1 = (place (- d) g).1;
  fwd_fresh d : 1 ≤ d ≤ n → d ≤ row_capacity g - screen_rows g →
    is_Some (place (- d) g').1 → next_row_id g ≤ (place (- d) g').2;
  fwd_sorted d e : 1 ≤ d → d < e → e ≤ n → e ≤ row_capacity g - screen_rows g →
    is_Some (place (- d) g').1 → is_Some (place (- e) g').1 → (place (- e) g').2 < (place (- d) g').2;
}.

Definition forward_rows (start stop n : Z) (background : Color) (height : Z) : M Grid unfinished unit :=
  do! for_each (reverse (range 0 start)) (swap_down n) in
  do! for_each (reverse (range stop height)) (swap_down n) in
  do! for_each (range (stop - n) stop) (λ row,
        let! row := signed_row row in recycle_row row background) in
  reidentify_newest_history_rows n.

Lemma forward_rows_runs start stop n background g :
  shape g → slots_ok g → 0 ≤ start → stop ≤ screen_rows g → 0 < n ≤ stop - start →
  generation g + screen_rows g ≤ u64_max → next_row_id g + 2 * n ≤ u64_max →
  runs (forward_rows start stop n background (screen_rows g)) (λ _, forwarded start stop n background g) g.
Proof.
  intros Hs Hok Hst Hsp Hn Hgen Hnext. pose proof (shape_screen _ Hs) as Hscr. pose proof (shape_limit _ Hs) as HL.
  unfold forward_rows. apply runs_bind.
  eapply runs_mono; [|apply swaps_down; [done|done|lia..]]. intros _ g1 (E1 & A1 & U1 & Z1).
  pose proof (evolves_shape _ _ _ _ Hs E1) as S1. pose proof (frame_capacity g g1 ltac:(apply E1)) as C1.
  pose proof (ev_generation _ _ _ _ E1). pose proof (ev_next _ _ _ _ E1).
  apply runs_bind.
  eapply runs_mono; [|apply swaps_down; [done|apply E1|lia..]]. intros _ g2 (E2 & A2 & U2 & _).
  pose proof (evolves_shape _ _ _ _ S1 E2) as S2. pose proof (frame_capacity g1 g2 ltac:(apply E2)) as C2.
  pose proof (ev_generation _ _ _ _ E2). pose proof (ev_next _ _ _ _ E2).
  apply runs_bind.
  eapply runs_mono; [|apply recycle_loop; [done|apply E2|lia..]]. intros _ g3 (E3 & N3 & A3 & U3).
  pose proof (evolves_shape _ _ _ _ S2 E3) as S3. pose proof (frame_capacity g2 g3 ltac:(apply E3)) as C3.
  pose proof (ev_generation _ _ _ _ E3).
  eapply runs_mono; [|apply renew_newest; [done|apply E3|lia|lia]]. intros _ g4 (E4 & U4 & A4 & B4).
  pose proof (evolves_trans _ _ _ _ _ _ _ E1 (evolves_trans _ _ _ _ _ _ _ E2 (evolves_trans _ _ _ _ _ _ _ E3 E4))) as E.
  pose proof (frame_columns g g2 (frame_trans _ _ _ (ev_frame _ _ _ _ E1) (ev_frame _ _ _ _ E2))) as Hcol.
  assert (screen_rows g3 = screen_rows g) as Hsc.
  { rewrite (frame_screen g2 g3), (frame_screen g1 g2), (frame_screen g g1) by (apply E1 || apply E2 || apply E3). done. }
  rewrite Hsc in *. rewrite C3, C2, C1 in *.
  pose proof (same_turn _ _ _ _ S2 ltac:(apply E3) U3) as U3'. rewrite ?C2, ?C1 in U3'.
  pose proof (same_turn _ _ _ _ S1 ltac:(apply E2) U2) as U2'. rewrite ?C1 in U2'.
  pose proof (same_turn _ _ _ _ Hs ltac:(apply E1) U1) as U1'.
  split.
  - eapply evolves_weaken; [| |exact E]; lia.
  - intros r [Hr|Hr]; rewrite U4 by lia.
    + rewrite U3', U2' by lia. by apply A1.
    + rewrite U3, A2 by lia. apply U1. lia.
  - intros r Hr. rewrite U4, U3', U2' by lia. apply U1. lia.
  - intros r Hr. rewrite U4, A3 by lia. rewrite Hcol. do 2 f_equal. lia.
  - intros d Hd. rewrite <-(place_turn (- d) g4), (frame_capacity g g4) by (apply E || by eapply evolves_shape).
    rewrite U4, U3, U2, U1 by lia. apply place_turn. done.
  - intros d -> Hd Hd'. destruct (A4 d) as [-> _]; [lia|]. rewrite U3', U2' by lia.
    by rewrite Z1.
  - intros d Hd Hd' Hs4. destruct (A4 d) as [Heq Hle]; [lia|]. rewrite Heq in Hs4. specialize (Hle Hs4). lia.
  - intros d e Hd Hde He He' Sd Se. destruct (A4 d) as [Hq1 _]; [lia|]. destruct (A4 e) as [Hq2 _]; [lia|].
    rewrite Hq1 in Sd. rewrite Hq2 in Se. apply B4; [lia..|done|done].
Qed.

(** The offset moved by [n] and the view to [v]. *)
Definition repositioned (n v : Z) (g : Grid) : Grid :=
  put_view v (put_offset (masked (offset g + n) g) g).

Section repositioned.
Context (n v : Z) (g : Grid) (Hs : shape g) (Hv : 0 ≤ v < row_capacity g).

Lemma repositioned_shape : shape (repositioned n v g).
Proof using Hs Hv. apply shape_put_view; [by apply shape_put_offset|done]. Qed.

Lemma repositioned_slots : slots_ok g → slots_ok (repositioned n v g).
Proof using. intros. by apply slots_put_view, slots_put_offset. Qed.

Lemma repositioned_place r : place r (repositioned n v g) = place (r + n) g.
Proof using Hs. by apply place_put_offset. Qed.
End repositioned.

(** The distance of the view from the scrollback start. *)
Definition view_distance (g : Grid) : Z := masked (view g - scrollback_start (screen_rows g) g) g.

(** A view that follows the screen keeps following; a view of rows that are
    kept stays. *)
Definition view_moves (n : Z) (g g' : Grid) : Prop :=
  (view g = offset g → view g' = offset g') ∧
  (view g ≠ offset g → n ≤ view_distance g → view g' = view g).

Lemma forward_core_runs start stop n background g :
  grid_ok g → roomy g → 0 ≤ start → stop ≤ screen_rows g → 0 < n ≤ stop - start →
  runs (scroll_forward_core start stop n background (view_follows_offset g)) (λ _ g',
    ∃ v, 0 ≤ v < row_capacity g ∧ view_moves n g (repositioned n v g) ∧
      forwarded start stop n background (repositioned n v g) g') g.
Proof.
  intros Hok Hroom Hst Hsp Hn. pose proof (ok_shape _ Hok) as Hs. pose proof (ok_slots _ Hok) as Hsl.
  pose proof (shape_screen _ Hs). pose proof (shape_limit _ Hs).
  pose proof (room_generation _ Hroom). pose proof (room_next _ Hroom).
  unfold scroll_forward_core. apply runs_bind, runs_get, runs_bind.
  eapply runs_lift; [apply to_scrollback_ok; [done|apply Hs]|].
  fold (view_distance g).
  apply runs_bind, runs_modify, runs_bind.
  set (g1 := put_offset (masked (offset g + n) g) g).
  assert (shape g1) as Hs1 by by apply shape_put_offset.
  assert (∀ v, 0 ≤ v < row_capacity g → view_moves n g (repositioned n v g) →
    runs (let! amount := signed_row n in
          do! for_each (reverse (range 0 start)) (λ row,
                let! row := signed_row row in swap_rows (row - amount) row) in
          do! for_each (reverse (range stop (screen_rows g))) (λ row,
                let! row := signed_row row in swap_rows (row - amount) row) in
          do! for_each (range (stop - n) stop) (λ row,
                let! row := signed_row row in recycle_row row background) in
          reidentify_newest_history_rows n)
      (λ _ g', ∃ v, 0 ≤ v < row_capacity g ∧ view_moves n g (repositioned n v g) ∧
        forwarded start stop n background (repositioned n v g) g') (repositioned n v g)) as Hrest.
  { intros v Hv Hmv. apply runs_bind, signed_runs; [unfold i32_max; lia|].
    eapply runs_mono; [|apply (forward_rows_runs start stop n background (repositioned n v g));
      [by apply repositioned_shape|by apply repositioned_slots|done|done|done|simpl; lia..]].
    intros ? g' Hf. by exists v. }
  unfold view_follows_offset. destruct (view g =? offset g) eqn:Hfol.
  { apply Z.eqb_eq in Hfol. apply runs_modify. apply (Hrest (masked (offset g + n) g)).
    - by apply masked_range.
    - by split. }
  apply Z.eqb_neq in Hfol. destruct (view_distance g <? n) eqn:Hd.
  - apply runs_bind, runs_get, runs_bind. eapply runs_lift.
    { apply (to_absolute_ok g1); [done|]. split; [lia|]. pose proof (capacity_pos g1 Hs1). lia. }
    apply runs_put. apply Hrest; [by apply (masked_range g1)|].
    apply Z.ltb_lt in Hd. split; [done|lia].
  - apply Z.ltb_ge in Hd. apply runs_ret.
    replace g1 with (repositioned n (view g) g) by by destruct g.
    apply Hrest; [apply Hs|]. split; [done|done].
Qed.

Lemma forwarded_ok start stop n v background g g' :
  grid_ok g → 0 ≤ start → stop ≤ screen_rows g → 0 < n ≤ stop - start → 0 ≤ v < row_capacity g →
  forwarded start stop n background (repositioned n v g) g' → grid_ok g'.
Proof.
  intros Hok Hst Hsp Hn Hv Hf. pose proof (ok_shape _ Hok) as Hs.
  pose proof (shape_screen _ Hs).
  pose proof (repositioned_shape n v g Hs Hv) as Hs2.
  pose proof (repositioned_place n v g Hs) as Hp.
  destruct Hf as [Hev Hout Hin Hexp Hold _ Hfresh Hsort]. simpl in *.
  change (row_capacity (repositioned n v g)) with (row_capacity g) in *.
  pose proof (frame_capacity _ _ (ev_frame _ _ _ _ Hev)) as HC.
  pose proof (frame_screen _ _ (ev_frame _ _ _ _ Hev)) as HN.
  pose proof (frame_columns _ _ (ev_frame _ _ _ _ Hev)) as Hcol.
  change (row_capacity (repositioned n v g)) with (row_capacity g) in *. simpl in *.
  split.
  - by eapply evolves_shape.
  - apply Hev.
  - intros r Hr. rewrite HN in Hr.
    destruct (decide (r < start ∨ stop ≤ r)); [|destruct (decide (r < stop - n))].
    + rewrite Hout, Hp by lia. apply (ok_screen _ Hok). lia.
    + rewrite Hin, Hp by lia. apply (ok_screen _ Hok). lia.
    + rewrite Hexp by lia. by eexists.
  - intros d e Hd Hde He Sd Se. rewrite HC, HN in He. destruct (decide (e ≤ n)); [by apply Hsort|].
    rewrite Hold, Hp in Se |- * by lia.
    destruct (decide (d ≤ n)).
    + apply Z.lt_le_trans with (next_row_id g); [|by apply Hfresh; [lia|lia|]].
      destruct Se as [re Hre]. pose proof (slots_each _ (ok_slots _ Hok) _ (index_range g Hs (- e + n))) as Hse.
      unfold place in Hre |- *. destruct (phys _ g) as [? ?]. simpl in Hre. subst. simpl in *. lia.
    + rewrite Hold, Hp in Sd |- * by lia. replace (- e + n) with (- (e - n)) in * by lia.
      replace (- d + n) with (- (d - n)) in * by lia. apply (ok_history _ Hok); [lia..|done|done].
  - rewrite (frame_cursor _ _ (ev_frame _ _ _ _ Hev)). unfold cursor_fits. rewrite Hcol, HN. apply (ok_cursor _ Hok).
  - rewrite (frame_saved _ _ (ev_frame _ _ _ _ Hev)). unfold cursor_fits. rewrite Hcol, HN. apply (ok_saved _ Hok).
  - rewrite (frame_history _ _ (ev_frame _ _ _ _ Hev)). apply (ok_history_generation _ Hok).
Qed.

(** ** Scrolling in reverse *)

(** [g] before the scroll, [g'] after. *)
Record reversed (start stop n : Z) (background : Color) (g g' : Grid) : Prop := {
  rev_outside r : 0 ≤ r < start ∨ stop ≤ r < screen_rows g → place r g' = place r g;
  rev_inside r : start + n ≤ r < stop → place r g' = place (r - n) g;
  rev_exposed r : start ≤ r < start + n → (place r g').1 = Some (blank_row (columns g) background);
  rev_history d : 1 ≤ d ≤ row_capacity g - screen_rows g →
    place (- d) g' = if decide (d + n ≤ row_capacity g - screen_rows g) then place (- (d + n)) g else (None, 0);
}.

(** What follows the new offset. *)
Definition reverse_rows (start stop n : Z) (background : Color) (height : Z) : M Grid unfinished unit :=
  do! for_each (range (stop + n) (height + n)) (swap_up n) in
  do! for_each (range n (start + n)) (swap_up n) in
  for_each (range start (start + n)) (λ row,
    let! row := signed_row row in erase_allocated row background).

(** From the grid [g] with the rows [stop-n..stop] gone and the offset moved. *)
Lemma reverse_rows_runs start stop n v background g g0 :
  shape g → slots_ok g0 → frame g g0 → 0 ≤ v < row_capacity g →
  0 ≤ start → stop ≤ screen_rows g → 0 < n ≤ stop - start →
  generation g0 + 2 * screen_rows g ≤ u64_max → next_row_id g0 + n ≤ u64_max →
  (∀ r, stop - n ≤ r < stop → place r g0 = (None, 0)) →
  (∀ r, stop ≤ r < stop - n + row_capacity g → place r g0 = place r g) →
  let g1 := repositioned (- n) v g0 in
  runs (reverse_rows start stop n background (screen_rows g)) (λ _ g',
    evolves (2 * screen_rows g) n g1 g' ∧ reversed start stop n background g g') g1.
Proof.
  intros Hs Hok Hf0 Hv Hst Hsp Hn Hgen Hnext Hgone Hkept g1.
  pose proof (shape_screen _ Hs) as Hscr. pose proof (shape_limit _ Hs) as HL.
  pose proof (shape_frame _ _ Hs Hf0) as S0. pose proof (frame_capacity _ _ Hf0) as C0.
  pose proof (same_turn _ _ _ _ Hs Hf0 Hkept) as Hkept'.
  assert (shape g1) as S1 by (apply repositioned_shape; [done|by rewrite C0]).
  assert (∀ r, place r g1 = place (r - n) g0) as P1 by (intros r; by apply repositioned_place).
  assert (slots_ok g1) as K1 by by apply repositioned_slots.
  assert (row_capacity g1 = row_capacity g) as C1 by done.
  assert (columns g1 = columns g) as Hcol by apply (frame_columns _ _ Hf0).
  assert (generation g1 = generation g0 ∧ next_row_id g1 = next_row_id g0) as [G1 N1] by done.
  clearbody g1. unfold reverse_rows.
  apply runs_bind. eapply runs_mono; [|apply (swaps_up (λ s, s = (None, 0))); [done|done|lia..|]].
  2:{ intros r Hr. rewrite P1. apply Hgone. lia. }
  intros _ g2 (E2 & A2 & B2 & U2).
  pose proof (evolves_shape _ _ _ _ S1 E2) as S2. pose proof (frame_capacity g1 g2 ltac:(apply E2)) as C2.
  pose proof (ev_generation _ _ _ _ E2). pose proof (ev_next _ _ _ _ E2).
  apply runs_bind. change (range n (start + n)) with (range (0 + n) (start + n)).
  eapply runs_mono; [|apply (swaps_up (λ _, True)); [done|apply E2|lia..|done]].
  intros _ g3 (E3 & A3 & _ & U3).
  pose proof (evolves_shape _ _ _ _ S2 E3) as S3. pose proof (frame_capacity g2 g3 ltac:(apply E3)) as C3.
  pose proof (ev_generation _ _ _ _ E3). pose proof (ev_next _ _ _ _ E3).
  eapply runs_mono; [|apply erase_loop; [done|apply E3|lia..]].
  intros _ g4 (E4 & A4 & U4).
  pose proof (evolves_trans _ _ _ _ _ _ _ E2 (evolves_trans _ _ _ _ _ _ _ E3 E4)) as E.
  assert (columns g3 = columns g) as Hcol3.
  { rewrite (frame_columns g2 g3), (frame_columns g1 g2) by (apply E2 || apply E3). done. }
  rewrite C3, C2, C1 in U4. rewrite C2, C1 in U3. rewrite C1 in U2.
  pose proof (same_turn _ _ _ _ S3 ltac:(apply E4) ltac:(by rewrite ?C3, ?C2, ?C1)) as U4'. rewrite C3, C2, C1 in U4'.
  pose proof (same_turn _ _ _ _ S1 ltac:(apply E2) ltac:(by rewrite ?C1)) as U2'. rewrite C1 in U2'.
  split; [eapply evolves_weaken; [| |exact E]; lia|]. split.
  - intros r [Hr|Hr].
    + rewrite U4', A3, U2', P1 by lia. replace (r + n - n) with r by lia. apply Hkept'. lia.
    + rewrite U4, U3, A2, P1 by lia. replace (r + n - n) with r by lia. apply Hkept. lia.
  - intros r Hr. rewrite U4, U3, U2', P1 by lia. apply Hkept'. lia.
  - intros r Hr. rewrite <-Hcol3. by apply A4.
  - intros d Hd. rewrite <-(place_turn (- d) g4) by by eapply evolves_shape.
    rewrite (frame_capacity g1 g4), C1 by apply E.
    rewrite U4, U3 by lia. case_decide as Hdn.
    + rewrite U2, P1, Hkept by lia. replace (- d + row_capacity g - n) with (- (d + n) + row_capacity g) by lia.
      by apply place_turn.
    + apply B2. lia.
Qed.

Lemma reverse_core_runs start stop n background g :
  grid_ok g → roomy g → 0 ≤ start → stop ≤ screen_rows g → 0 < n ≤ stop - start →
  runs (scroll_reverse_core start stop n background (view_follows_offset g)) (λ _ g',
    ∃ g0 v, 0 ≤ v < row_capacity g ∧ evolves n n g g0 ∧ (view g = offset g → v = masked (offset g - n) g) ∧
      evolves (2 * screen_rows g) n (repositioned (- n) v g0) g' ∧
      reversed start stop n background g g') g.
Proof.
  intros Hok Hroom Hst Hsp Hn. pose proof (ok_shape _ Hok) as Hs. pose proof (ok_slots _ Hok) as Hsl.
  pose proof (shape_screen _ Hs). pose proof (shape_limit _ Hs).
  pose proof (room_generation _ Hroom). pose proof (room_next _ Hroom).
  unfold scroll_reverse_core. apply runs_bind.
  eapply runs_mono; [|apply (deallocate_loop (stop - n) stop g); [done|done|lia..]].
  intros ? g0 (E0 & A0 & U0). pose proof (evolves_shape _ _ _ _ Hs E0) as S0.
  pose proof (frame_capacity g g0 ltac:(apply E0)) as C0.
  pose proof (frame_screen g g0 ltac:(apply E0)) as N0.
  pose proof (frame_offset g g0 ltac:(apply E0)) as O0.
  pose proof (ev_generation _ _ _ _ E0). pose proof (ev_next _ _ _ _ E0).
  apply runs_bind, runs_modify. set (g1 := put_offset _ _).
  assert (shape g1) as Hs1 by by apply shape_put_offset.
  apply runs_bind, runs_get, runs_bind. eapply runs_lift; [apply to_scrollback_ok; [done|apply Hs1]|].
  apply runs_bind. eapply runs_lift; [apply to_scrollback_ok; [done|apply Hs1]|]. apply runs_bind.
  change (screen_rows g1) with (screen_rows g0). rewrite N0.
  assert (∀ v, 0 ≤ v < row_capacity g → (view g = offset g → v = masked (offset g - n) g) →
    runs (let! amount := signed_row n in
          do! for_each (range (stop + n) (screen_rows g + n)) (λ row,
                let! row := signed_row row in swap_rows row (row - amount)) in
          do! for_each (range n (start + n)) (λ row,
                let! row := signed_row row in swap_rows row (row - amount)) in
          for_each (range start (start + n)) (λ row,
            let! row := signed_row row in erase_allocated row background))
      (λ _ g', ∃ g0 v, 0 ≤ v < row_capacity g ∧ evolves n n g g0 ∧
        (view g = offset g → v = masked (offset g - n) g) ∧
        evolves (2 * screen_rows g) n (repositioned (- n) v g0) g' ∧
        reversed start stop n background g g') (repositioned (- n) v g0)) as Hrest.
  { intros v Hv Hmv. apply runs_bind, signed_runs; [unfold i32_max; lia|].
    eapply runs_mono; [|apply (reverse_rows_runs start stop n v background g g0);
      [done|apply E0|apply E0|done|done|done|done|lia|lia|done|]].
    - intros ? g' [Hev Hrev]. exists g0, v. split_and!; try done; try lia.
      eapply evolves_weaken; [| |exact E0]; lia.
    - intros r Hr. apply U0. lia. }
  assert (masked (offset g0 - n) g0 = masked (offset g - n) g) as Hoff.
  { unfold masked. by rewrite C0, O0. }
  destruct (view_follows_offset g || _) eqn:Hfol.
  - apply runs_modify. apply (Hrest (masked (offset g0 - n) g0)); rewrite Hoff; [|done].
    by apply masked_range.
  - apply runs_ret. apply orb_false_iff in Hfol as [Hfol _].
    replace g1 with (repositioned (- n) (view g0) g0) by by (unfold g1; destruct g0).
    rewrite (frame_view g g0) by apply E0. apply Hrest; [apply Hs|].
    apply Z.eqb_neq in Hfol. done.
Qed.

Lemma cursor_fits_frame c g g' :
  columns g' = columns g → screen_rows g' = screen_rows g → cursor_fits c g' = cursor_fits c g.
Proof. intros H1 H2. unfold cursor_fits. by rewrite H1, H2. Qed.

Lemma reversed_ok start stop n v background g g0 g' k m :
  grid_ok g → 0 ≤ start → stop ≤ screen_rows g → 0 < n ≤ stop - start → 0 ≤ v < row_capacity g →
  frame g g0 → evolves k m (repositioned (- n) v g0) g' → reversed start stop n background g g' → grid_ok g'.
Proof.
  intros Hok Hst Hsp Hn Hv Hf0 Hev [Hout Hin Hexp Hhist]. pose proof (ok_shape _ Hok) as Hs.
  pose proof (shape_screen _ Hs). pose proof (shape_frame _ _ Hs Hf0) as S0.
  assert (shape (repositioned (- n) v g0)) as Hs2
    by (apply repositioned_shape; [done|by rewrite (frame_capacity _ _ Hf0)]).
  pose proof (frame_capacity _ _ (ev_frame _ _ _ _ Hev)) as HC.
  change (row_capacity (repositioned (- n) v g0)) with (row_capacity g0) in HC. rewrite (frame_capacity _ _ Hf0) in HC.
  pose proof (frame_screen _ _ (ev_frame _ _ _ _ Hev)) as HN. simpl in HN. rewrite (frame_screen _ _ Hf0) in HN.
  pose proof (frame_columns _ _ (ev_frame _ _ _ _ Hev)) as Hcol. simpl in Hcol. rewrite (frame_columns _ _ Hf0) in Hcol.
  split.
  - by eapply evolves_shape.
  - apply Hev.
  - intros r Hr. rewrite HN in Hr.
    destruct (decide (r < start ∨ stop ≤ r)); [|destruct (decide (start + n ≤ r))].
    + rewrite Hout by lia. apply (ok_screen _ Hok). lia.
    + rewrite Hin by lia. apply (ok_screen _ Hok). lia.
    + rewrite Hexp by lia. by eexists.
  - intros d e Hd Hde He. rewrite HC, HN in He. rewrite !Hhist by lia. repeat case_decide.
    + intros. apply (ok_history _ Hok); [lia..|done|done].
    + intros ? [? ?]. done.
    + lia.
    + intros [? ?]. done.
  - rewrite (frame_cursor _ _ (ev_frame _ _ _ _ Hev)). simpl. rewrite (frame_cursor _ _ Hf0).
    rewrite (cursor_fits_frame _ g) by done. apply (ok_cursor _ Hok).
  - rewrite (frame_saved _ _ (ev_frame _ _ _ _ Hev)). simpl. rewrite (frame_saved _ _ Hf0).
    rewrite (cursor_fits_frame _ g) by done. apply (ok_saved _ Hok).
  - rewrite (frame_history _ _ (ev_frame _ _ _ _ Hev)). simpl. rewrite (frame_history _ _ Hf0).
    apply (ok_history_generation _ Hok).
Qed.

(** ** The whole scroll *)

Lemma screen_all g : grid_ok g → forallb (λ r, bool_decide (is_Some (row r g))) (range 0 (screen_rows g)) = true.
Proof.
  intros Hok. apply forallb_forall. intros r Hr%list_elem_of_In. unfold range in Hr.
  apply elem_of_seqZ in Hr. apply bool_decide_eq_true. apply (ok_screen _ Hok). lia.
Qed.

Lemma scroll_wraps (P : Grid → Prop) dir reg n background g :
  grid_ok g → 0 ≤ region_start reg → region_start reg < region_end reg → region_end reg ≤ screen_rows g →
  0 ≤ n ≤ region_end reg - region_start reg →
  (0 < n → runs (match dir with
                 | Forward => scroll_forward_core (region_start reg) (region_end reg) n background (view_follows_offset g)
                 | Reverse => scroll_reverse_core (region_start reg) (region_end reg) n background (view_follows_offset g)
                 end) (λ _ g', grid_ok g' ∧ P g') g) →
  (n = 0 → P g) →
  runs (scroll dir reg n background) (λ res g', grid_ok g' ∧ P g' ∧
    res = {| direction := dir; region := reg; scrolled := n; view_was_following := view_follows_offset g;
             view_changed := negb (view g' =? view g) |}) g.
Proof.
  intros Hok Hst Hlt Hsp Hn Hcore Hzero. unfold scroll. cbv zeta.
  apply runs_bind, runs_assert; [by apply Z.leb_le|].
  apply runs_bind, runs_assert; [apply Z.leb_le; lia|]. apply runs_bind, runs_get.
  apply runs_bind, runs_assert; [apply andb_true_iff; split; [by apply Z.ltb_lt|by apply Z.leb_le]|].
  apply runs_bind, runs_assert; [apply Z.leb_le; lia|]. apply runs_bind.
  assert (runs (if 0 <? n then
                  match dir with
                  | Forward => scroll_forward_core (region_start reg) (region_end reg) n background (view_follows_offset g)
                  | Reverse => scroll_reverse_core (region_start reg) (region_end reg) n background (view_follows_offset g)
                  end else ret tt) (λ _ g', grid_ok g' ∧ P g') g) as Hmid.
  { destruct (0 <? n) eqn:H0; [apply Hcore; by apply Z.ltb_lt|]. apply Z.ltb_ge in H0.
    apply runs_ret. split; [done|]. apply Hzero. lia. }
  eapply runs_mono; [|exact Hmid]. intros ? g' [Hok' HP]. apply runs_bind, runs_get, runs_bind, runs_assert.
  - by apply screen_all.
  - by apply runs_ret.
Qed.

(** What a scroll leaves: the cursors, the rows that stay, and blank rows. *)
Record scrolled_to (background : Color) (g g' : Grid) : Prop := {
  st_spends : spends (2 ^ 32) g g';
  st_cursor : cursor g' = cursor g;
  st_saved : saved_cursor g' = saved_cursor g;
}.

Lemma scrolled_refl background g : scrolled_to background g g.
Proof. split; try done. apply spends_refl. lia. Qed.

Lemma forwarded_scrolls start stop n v background g g' :
  shape g → 0 ≤ start → stop ≤ screen_rows g → 0 < n ≤ stop - start →
  forwarded start stop n background (repositioned n v g) g' → scrolled_to background g g'.
Proof.
  intros Hs Hst Hsp Hn [Hev Hout Hin Hexp _ _ _ _]. pose proof (shape_screen _ Hs). pose proof (shape_limit _ Hs).
  pose proof (ev_frame _ _ _ _ Hev) as Hf. pose proof (repositioned_place n v g Hs) as Hp. simpl in *.
  split; [|apply (frame_cursor _ _ Hf)|apply (frame_saved _ _ Hf)].
  destruct (evolves_spends _ _ (2 ^ 32) _ _ Hev); [lia..|]. by split.
Qed.

Lemma reversed_scrolls start stop n v background g g0 g' :
  shape g → 0 ≤ start → stop ≤ screen_rows g → 0 < n ≤ stop - start →
  evolves n n g g0 → evolves (2 * screen_rows g) n (repositioned (- n) v g0) g' →
  reversed start stop n background g g' → scrolled_to background g g'.
Proof.
  intros Hs Hst Hsp Hn Hev0 Hev [Hout Hin Hexp _]. pose proof (shape_screen _ Hs). pose proof (shape_limit _ Hs).
  pose proof (ev_frame _ _ _ _ Hev) as Hf. pose proof (ev_frame _ _ _ _ Hev0) as Hf0.
  assert (screen_rows g' = screen_rows g) as HN by (rewrite (frame_screen _ _ Hf); apply (frame_screen _ _ Hf0)).
  split.
  - destruct (evolves_spends _ _ (2 ^ 31) _ _ Hev); [lia..|]. destruct (evolves_spends _ _ (2 ^ 31) _ _ Hev0); [lia..|].
    simpl in *. change (row_capacity (repositioned (- n) v g0)) with (row_capacity g0) in *. split; congruence || lia.
  - rewrite (frame_cursor _ _ Hf). apply (frame_cursor _ _ Hf0).
  - rewrite (frame_saved _ _ Hf). apply (frame_saved _ _ Hf0).
Qed.

(** Every row is as wide as the grid. *)
Lemma holding_of P g : grid_ok g → rows_hold P g → holding P (columns g) g.
Proof.
  intros Hok HP. split; [done|]. intros x Hx. split; [|by apply HP].
  apply list_elem_of_lookup in Hx as [i Hi]. pose proof (lookup_lt_Some _ _ _ Hi) as Hl.
  pose proof (slots_each _ (ok_slots _ Hok) (Z.of_nat i)) as Hse. unfold phys, slot, slot_ok in Hse.
  rewrite Nat2Z.id, Hi in Hse. apply Hse. unfold row_capacity. lia.
Qed.

Lemma rows_hold_of P w g : holding P w g → rows_hold P g.
Proof. intros [_ HP] x Hx. by apply HP. Qed.

(** Scrolling keeps the invariant. *)
Lemma scroll_ok dir reg n background g :
  grid_ok g → roomy g → 0 ≤ region_start reg → region_start reg < region_end reg →
  region_end reg ≤ screen_rows g → 0 ≤ n ≤ region_end reg - region_start reg →
  runs (scroll dir reg n background) (λ res g', grid_ok g' ∧ scrolled_to background g g' ∧ scrolled res = n) g.
Proof.
  intros Hok Hroom Hst Hlt Hsp Hn. pose proof (ok_shape _ Hok) as Hs.
  eapply runs_mono; [|apply (scroll_wraps (scrolled_to background g)); [done..| |intros _; apply scrolled_refl]].
  { intros ? ? (H1 & H2 & ->). by split_and!. }
  intros H0. destruct dir.
  - eapply runs_mono; [|apply forward_core_runs; [done|done|done|done|lia]].
    intros ? g' (v & Hv & _ & Hf). split.
    + eapply forwarded_ok; [..|exact Hf]; done || lia.
    + eapply forwarded_scrolls; [..|exact Hf]; done || lia.
  - eapply runs_mono; [|apply reverse_core_runs; [done|done|done|done|lia]].
    intros ? g' (g0 & v & Hv & Hf0 & _ & Hev & Hrev).
    split.
    + eapply reversed_ok; [..|apply Hf0|exact Hev|exact Hrev]; done || lia.
    + eapply reversed_scrolls; [..|exact Hf0|exact Hev|exact Hrev]; done || lia.
Qed.
