(* ===== verification/GridOps.v ===== *)
(** * The other operations of the grid keep its invariant *)

From stdpp Require Import base list gmap.
From S2P Require Import Prelude RustStd Cell Row RowInv RowProps Coord Grid GridInv GridSteps.

#[local] Open Scope Z_scope.

(** ** Fields *)

Lemma ok_set_generation n g : grid_ok g → grid_ok (set_generation n g).
Proof. intros [Hs Hsl]. split; [by apply shape_generation|by apply slots_generation|done..]. Qed.

Lemma ok_put_cursor c g : grid_ok g → cursor_fits c g = true → grid_ok (put_cursor c g).
Proof. intros [[] []] Hc. split; try done; by split. Qed.

Lemma ok_put_saved_cursor c g : grid_ok g → cursor_fits c g = true → grid_ok (put_saved_cursor c g).
Proof. intros [[] []] Hc. split; try done; by split. Qed.

Lemma ok_put_view v g : grid_ok g → 0 ≤ v < row_capacity g → grid_ok (put_view v g).
Proof. intros [Hs Hsl] Hv. split; [by apply shape_put_view|by apply slots_put_view|done..]. Qed.

Lemma home_fits g : shape g → cursor_fits Cursor_default g = true.
Proof.
  intros []. unfold cursor_fits. simpl.
  rewrite !(proj2 (Z.ltb_lt _ _)) by lia. done.
Qed.

Lemma roomy_generation g : roomy g → generation g < u64_max ∧ next_row_id g < u64_max ∧ history_generation g < u64_max.
Proof. intros []. lia. Qed.

(** Setting a cursor changes nothing else but the generation. *)
Lemma set_cursor_exact c g :
  generation g < u64_max → cursor_fits c g = true →
  ∃ n, n ≤ generation g + 1 ∧ set_cursor c g = (Ok tt, put_cursor c (set_generation n g)).
Proof.
  intros Hgen Hc. unfold set_cursor, assert_cursor, bind, get, assert_. rewrite Hc. cbn. case_bool_decide as Hd.
  - exists (generation g). split; [lia|]. subst c. by destruct g.
  - exists (generation g + 1). split; [lia|]. unfold checked_add64. by rewrite (proj2 (Z.leb_le _ _)) by lia.
Qed.

Lemma set_saved_cursor_exact c g :
  generation g < u64_max → cursor_fits c g = true →
  ∃ n, n ≤ generation g + 1 ∧ set_saved_cursor c g = (Ok tt, put_saved_cursor c (set_generation n g)).
Proof.
  intros Hgen Hc. unfold set_saved_cursor, assert_cursor, bind, get, assert_. rewrite Hc. cbn. case_bool_decide as Hd.
  - exists (generation g). split; [lia|]. subst c. by destruct g.
  - exists (generation g + 1). split; [lia|]. unfold checked_add64. by rewrite (proj2 (Z.leb_le _ _)) by lia.
Qed.

Lemma set_cursor_runs c g :
  grid_ok g → roomy g → cursor_fits c g = true →
  runs (set_cursor c) (λ _ g', grid_ok g' ∧ cursor g' = c) g.
Proof.
  intros Hok [Hroom _ _] Hc. destruct (set_cursor_exact c g) as (n & _ & Hrun); [lia|done|].
  exists tt. eexists. split; [exact Hrun|]. split; [|done]. by apply ok_put_cursor; [apply ok_set_generation|].
Qed.

Lemma set_saved_cursor_runs c g :
  grid_ok g → roomy g → cursor_fits c g = true →
  runs (set_saved_cursor c) (λ _ g', grid_ok g' ∧ saved_cursor g' = c) g.
Proof.
  intros Hok [Hroom _ _] Hc. destruct (set_saved_cursor_exact c g) as (n & _ & Hrun); [lia|done|].
  exists tt. eexists. split; [exact Hrun|]. split; [|done]. by apply ok_put_saved_cursor; [apply ok_set_generation|].
Qed.

Lemma set_view_runs v g :
  grid_ok g → roomy g → 0 ≤ v → runs (set_view v) (λ _ g', grid_ok g') g.
Proof.
  intros Hok Hroom Hv. pose proof (ok_shape _ Hok) as Hs. pose proof (capacity_pos g Hs).
  unfold set_view. apply runs_bind, runs_get. case_match; [by apply runs_ret|].
  apply runs_bind, bump_runs; [by apply roomy_generation|]. apply runs_modify.
  apply ok_put_view; [by apply ok_set_generation|].
  change (row_capacity (set_generation (generation g + 1) g)) with (row_capacity g).
  rewrite land_mask by apply Hs. apply Z.mod_pos_bound. lia.
Qed.

Lemma reset_view_runs g :
  grid_ok g → roomy g → runs reset_view (λ _ g', grid_ok g' ∧ view g' = offset g) g.
Proof.
  intros Hok Hroom. unfold reset_view. apply runs_bind, runs_get. destruct (view g =? offset g) eqn:Hv.
  - apply runs_ret. split; [done|]. by apply Z.eqb_eq.
  - apply runs_bind, bump_runs; [by apply roomy_generation|]. apply runs_modify. split; [|done].
    apply ok_put_view; [by apply ok_set_generation|]. apply Hok.
Qed.

(** ** Rows of the screen *)

(** A change confined to the screen that leaves it allocated. *)
Lemma ok_screen_change k m g g' :
  grid_ok g → evolves k m g g' →
  (∀ r, 0 ≤ r < screen_rows g → is_Some (place r g').1) →
  (∀ r, screen_rows g ≤ r < row_capacity g → place r g' = place r g) → grid_ok g'.
Proof.
  intros Hok Hev Hscr Hrest. pose proof (ok_shape _ Hok) as Hs. pose proof (shape_screen _ Hs).
  pose proof (ev_frame _ _ _ _ Hev) as Hf. pose proof (frame_capacity _ _ Hf) as HC.
  pose proof (same_turn _ _ _ _ Hs Hf Hrest) as Hrest'.
  split.
  - by eapply evolves_shape.
  - apply Hev.
  - intros r. rewrite (frame_screen _ _ Hf). apply Hscr.
  - intros d e Hd Hde. rewrite HC, (frame_screen _ _ Hf). intros He. rewrite !Hrest' by lia. by apply (ok_history _ Hok).
  - rewrite (frame_cursor _ _ Hf), (cursor_fits_frame _ g) by apply Hf. apply (ok_cursor _ Hok).
  - rewrite (frame_saved _ _ Hf), (cursor_fits_frame _ g) by apply Hf. apply (ok_saved _ Hok).
  - rewrite (frame_history _ _ Hf). apply (ok_history_generation _ Hok).
Qed.

(** [let row = grid.row_mut(r).expect(..); *row = f(row)]. *)
Definition edit_row (r : Z) (f : Row → Row) : M Grid unfinished unit :=
  let! b := row_mut r in
  let! (row, back) := expect b in
  put (back (f row)).

(** The row [r] of the screen became [y]. *)
Record edited (r : Z) (y : Row) (g g' : Grid) : Prop := {
  ed_ok : grid_ok g';
  ed_spends : spends 1 g g';
  ed_cursor : cursor g' = cursor g;
  ed_saved : saved_cursor g' = saved_cursor g;
  ed_row : row r g' = Some y;
  ed_other s : 0 ≤ s < screen_rows g → s ≠ r → place s g' = place s g;
  ed_history s : screen_rows g ≤ s < row_capacity g → place s g' = place s g;
}.

(** Borrowing a row of the screen: it can be replaced by any row as wide. *)
Lemma row_mut_runs r g :
  grid_ok g → generation g < u64_max → 0 ≤ r < screen_rows g →
  runs (row_mut r) (λ b _, ∃ x back, b = Some (x, back) ∧ row r g = Some x ∧
    ∀ y, row_len y = row_len x → edited r y g (back y)) g.
Proof.
  intros Hok Hgen Hr. pose proof (ok_shape _ Hok) as Hs. pose proof (shape_screen _ Hs).
  pose proof (index_range g Hs r) as Hi. set (i := absolute_index r g) in *.
  destruct (ok_screen _ Hok r Hr) as [x Hx]. assert (slot i g = Some x) as Hslot by exact Hx.
  unfold row_mut. apply runs_bind, runs_get. cbv zeta. fold i. rewrite Hslot.
  apply runs_bind, bump_runs; [done|]. apply runs_bind, runs_get, runs_ret.
  set (g1 := set_generation _ _). change (slot i g1) with (slot i g). rewrite Hslot.
  eexists x, _. split; [done|]. split; [exact Hslot|]. intros y Hf.
  pose proof (ok_set_generation (generation g + 1) g Hok) as Hok1. fold g1 in Hok1.
  assert (shape g1) as Hs1 by apply Hok1.
  pose proof (writes_back i x y g1 Hs1 ltac:(apply Hok1) Hi Hslot Hf) as Hw.
  pose proof (writes_place _ _ _ _ _ _ r Hs1 Hw) as Hpr. rewrite decide_True in Hpr by done.
  assert (∀ s, - row_capacity g < s - r < row_capacity g → s ≠ r → place s (set_slot i (Some y) g1) = place s g) as Hps.
  { intros s Hsr Hne. rewrite (writes_place _ _ _ _ _ _ s Hs1 Hw). rewrite decide_False; [done|].
    intros Heq. apply Hne. by apply (index_inj g). }
  split.
  - apply (ok_screen_change 0 0 g1); [done|apply Hw| |].
    + intros s Hsr. destruct (decide (s = r)) as [->|Hne]; [rewrite Hpr; by eexists|].
      rewrite Hps by (done || (simpl in Hsr; lia)). by apply (ok_screen _ Hok).
    + intros s Hsr. change (row_capacity g1) with (row_capacity g) in Hsr. simpl in Hsr. apply Hps; lia.
  - destruct (evolves_spends _ _ 0 _ _ (wr_evolves _ _ _ _ _ _ Hw)); [lia..|]. split; try done; simpl in *; lia.
  - done.
  - done.
  - apply (f_equal fst) in Hpr. exact Hpr.
  - intros s Hsr Hne. apply Hps; lia.
  - intros s Hsr. apply Hps; lia.
Qed.

Lemma edit_row_runs r f g :
  grid_ok g → roomy g → 0 ≤ r < screen_rows g → (∀ x, row_len (f x) = row_len x) →
  runs (edit_row r f) (λ _ g', grid_ok g' ∧ row r g' = f <$> row r g ∧
    ∀ s, 0 ≤ s < screen_rows g → s ≠ r → place s g' = place s g) g.
Proof.
  intros Hok [Hroom _ _] Hr Hf. unfold edit_row. apply runs_bind.
  eapply runs_mono; [|apply (row_mut_runs r g); done || lia]. intros b g1 (x & back & -> & Hx & Hback).
  apply runs_bind. eapply runs_expect; [done|]. apply runs_put. destruct (Hback (f x) (Hf x)).
  rewrite Hx. by split_and!.
Qed.

(** The rows other than the edited one are kept. *)
Lemma edited_rows P r y g g' : edited r y g g' → P y → rows_hold P g → rows_hold P g'.
Proof.
  intros [Hok [_ Hn Hc _ _ _] _ _ Hr Ho Hh] Hy HP. apply (rows_hold_places P g); [done|apply Hok|].
  intros s. rewrite Hc. intros Hs. destruct (decide (s = r)) as [->|Hne]; [right; congruence|]. left.
  destruct (decide (s < screen_rows g)); [apply Ho|apply Hh]; (done || lia).
Qed.

Lemma reset_visible_runs background g :
  grid_ok g → roomy g →
  runs (reset_visible background) (λ _ g', grid_ok g' ∧ spends (2 ^ 32) g g' ∧ cursor g' = Cursor_default ∧
    saved_cursor g' = Cursor_default ∧ view g' = offset g' ∧ offset g' = offset g ∧
    (∀ r, 0 ≤ r < screen_rows g → row r g' = Some (blank_row (columns g) background)) ∧
    (∀ r, screen_rows g ≤ r < row_capacity g → place r g' = place r g)) g.
Proof.
  intros Hok Hroom. pose proof (ok_shape _ Hok) as Hs. pose proof (shape_screen _ Hs). pose proof (shape_limit _ Hs).
  pose proof (room_generation _ Hroom). pose proof (room_next _ Hroom).
  unfold reset_visible. apply runs_bind, runs_get, runs_bind.
  eapply runs_mono; [|apply erase_loop; [done|apply Hok|lia..]]. intros ? g1 (E1 & A1 & U1).
  pose proof (ev_frame _ _ _ _ E1) as Hf.
  assert (grid_ok g1) as Hok1.
  { apply (ok_screen_change _ _ g g1 Hok E1); [|done]. intros r Hr. destruct (A1 r Hr) as [-> _]. by eexists. }
  apply runs_bind, runs_modify, runs_bind, runs_modify, runs_modify.
  split_and!; [| |done|done|done|by rewrite <-(frame_offset _ _ Hf)|intros r Hr; by apply A1|exact U1].
  2:{ by destruct (evolves_spends _ _ (2 ^ 32) _ _ E1); [lia..|]. }
  apply ok_put_view; [|apply (ok_shape _ Hok1)].
  apply ok_put_saved_cursor; [apply ok_put_cursor; [done|]|]; apply (home_fits g1), Hok1.
Qed.

(** ** Clearing the scrollback *)

Lemma signed_screen_ok g : shape g → signed_screen g = Ok (range 0 (screen_rows g)).
Proof.
  intros Hs. pose proof (shape_screen _ Hs). pose proof (shape_limit _ Hs).
  unfold signed_screen. rewrite (proj2 (forallb_forall _ _)); [done|].
  intros n Hn%list_elem_of_In. apply elem_of_seqZ in Hn. apply Z.leb_le. unfold i32_max. lia.
Qed.

(** Deallocating the slots [outside] selects. *)
Lemma deallocate_where (outside : Z → bool) g :
  shape g → slots_ok g →
  runs (E := unfinished) (for_each (range 0 (row_capacity g)) (λ index,
      if outside index then modify (λ g, set_id index 0 (set_slot index None g)) else ret tt)) (λ _ g',
    evolves 0 0 g g' ∧ ∀ i, 0 ≤ i < row_capacity g →
      phys i g' = if outside i then (None, 0) else phys i g) g.
Proof.
  intros Hs Hok. unfold range. rewrite Z.sub_0_r.
  pose (I := λ k s, evolves 0 0 g s ∧ ∀ i, 0 ≤ i < row_capacity g →
    phys i s = if outside i && (i <? k) then (None, 0) else phys i g).
  eapply runs_mono; [|apply (runs_for_up I)].
  - intros ? g' [Hev Hp]. split; [done|]. intros i Hi. rewrite Hp by done.
    rewrite (proj2 (Z.ltb_lt _ _)) by lia. by rewrite andb_true_r.
  - pose proof (capacity_pos g Hs). lia.
  - intros k s Hk [Hev Hp]. rewrite Z.add_0_l. pose proof (evolves_shape _ _ _ _ Hs Hev) as Hss.
    pose proof (frame_capacity g s ltac:(apply Hev)) as HC.
    destruct (outside k) eqn:Ho.
    + apply runs_modify.
      assert (writes 0 0 k (None, 0) s (set_id k 0 (set_slot k None s))) as Hw.
      { eapply writes_eq; [|apply (writes_update 0 k None 0 0 s)]; try done; try lia; [|apply Hev].
        unfold set_id, set_slot, set_next_row_id, set_row_ids, set_rows, set_generation. simpl.
        by rewrite !Z.add_0_r. }
      split; [apply (evolves_trans 0 0 0 0 _ s); [done|apply Hw]|].
      intros i Hi. rewrite (wr_phys _ _ _ _ _ _ Hw) by (by rewrite HC). case_decide as Hd.
      * subst. rewrite Ho, (proj2 (Z.ltb_lt _ _)) by lia. done.
      * rewrite Hp by done. by replace (i <? k + 1) with (i <? k) by lia.
    + apply runs_ret. split; [done|]. intros i Hi. rewrite Hp by done.
      destruct (decide (i = k)) as [->|]; [by rewrite Ho|]. by replace (i <? k + 1) with (i <? k) by lia.
  - split; [by apply evolves_refl|]. intros i Hi. rewrite (proj2 (Z.ltb_ge _ _)) by lia. by rewrite andb_false_r.
Qed.

(** The slots of the screen. *)
Lemma visible_iff g i :
  shape g → 0 ≤ i < row_capacity g →
  i ∈ (λ n, absolute_index n g) <$> range 0 (screen_rows g) ↔
  ∃ r, i = absolute_index r g ∧ 0 ≤ r < screen_rows g.
Proof.
  intros Hs Hi. rewrite list_elem_of_fmap. unfold range. setoid_rewrite elem_of_seqZ.
  split; intros (r & ? & ?); exists r; (split; [done|lia]).
Qed.

Lemma clear_scrollback_runs g :
  grid_ok g → roomy g →
  runs clear_scrollback (λ _ g', grid_ok g' ∧ spends 1 g g' ∧ cursor g' = cursor g ∧ saved_cursor g' = saved_cursor g ∧ offset g' = offset g ∧ screen_rows g' = screen_rows g ∧
    (∀ r, 0 ≤ r < screen_rows g → place r g' = place r g) ∧
    (∀ r, screen_rows g ≤ r < row_capacity g → place r g' = (None, 0)) ∧
    row_capacity g' = row_capacity g) g.
Proof.
  intros Hok Hroom. pose proof (ok_shape _ Hok) as Hs. pose proof (shape_screen _ Hs) as Hscr.
  unfold clear_scrollback. apply runs_bind, runs_get, runs_bind.
  eapply runs_lift; [by apply signed_screen_ok|]. cbv zeta.
  set (outside := λ index, negb (bool_decide (index ∈ (λ n, absolute_index n g) <$> range 0 (screen_rows g)))).
  assert (∀ r, 0 ≤ r < screen_rows g → outside (absolute_index r g) = false) as Hin.
  { intros r Hr. unfold outside. rewrite bool_decide_true; [done|]. apply visible_iff; [done|by apply index_range|eauto]. }
  assert (∀ r, screen_rows g ≤ r < row_capacity g → outside (absolute_index r g) = true) as Hout.
  { intros r Hr. unfold outside. rewrite bool_decide_false; [done|].
    intros (s & Hsr & ?)%visible_iff; [|done|by apply index_range]. apply index_inj in Hsr; [lia|done|lia]. }
  destruct (existsb _ (range 0 (row_capacity g))) eqn:Hhad.
  - apply runs_bind, bump_runs; [by apply roomy_generation|]. apply runs_bind. unfold bump_history_generation.
    apply runs_bind, runs_get, runs_bind.
    apply (runs_expect _ (history_generation g + 1)).
    { unfold checked_add64. rewrite (proj2 (Z.leb_le _ _)); [done|]. pose proof (roomy_generation _ Hroom). simpl. lia. }
    apply runs_put. set (g1 := set_history_generation _ _).
    assert (grid_ok g1) as Hok1.
    { apply (ok_set_generation (generation g + 1)) in Hok as [[] [] ]. split; try done; [by split..|].
      simpl in *. lia. }
    apply runs_bind. eapply runs_mono; [|apply (deallocate_where outside g1); apply Hok1].
    intros ? g2 [E2 P2]. apply runs_modify.
    assert (∀ r, place r g2 = if outside (absolute_index r g) then (None, 0) else place r g) as Hp.
    { intros r. rewrite (place_frame _ g1 g2) by apply E2. apply P2. by apply (index_range g). }
    pose proof (ev_frame _ _ _ _ E2) as Hf. pose proof (frame_capacity _ _ Hf) as HC.
    split_and!; [| |apply (frame_cursor _ _ Hf)|apply (frame_saved _ _ Hf)|apply (frame_offset _ _ Hf)|apply (frame_screen _ _ Hf)| | |done].
    2:{ destruct (evolves_spends _ _ 0 _ _ E2); [lia..|]. split; try done; simpl in *; lia. }
    + apply ok_put_view; [|apply (shape_offset g2), (evolves_shape _ _ _ _ (ok_shape _ Hok1) E2)].
      split; [by apply (evolves_shape _ _ _ _ (ok_shape _ Hok1) E2)|apply E2| | | | |].
      * intros r. rewrite (frame_screen _ _ Hf). intros Hr. rewrite Hp, Hin by done. by apply (ok_screen _ Hok).
      * intros d e Hd Hde. rewrite HC, (frame_screen _ _ Hf). intros He [x Hx].
        change (e ≤ row_capacity g - screen_rows g) in He. rewrite Hp in Hx.
        replace (- d) with (row_capacity g - d - row_capacity g) in Hx by lia.
        rewrite (index_period g Hs), Hout in Hx by lia. done.
      * rewrite (frame_cursor _ _ Hf), (cursor_fits_frame _ g1) by apply Hf. apply (ok_cursor _ Hok1).
      * rewrite (frame_saved _ _ Hf), (cursor_fits_frame _ g1) by apply Hf. apply (ok_saved _ Hok1).
      * rewrite (frame_history _ _ Hf). apply (ok_history_generation _ Hok1).
    + intros r Hr. etrans; [apply Hp|]. by rewrite Hin.
    + intros r Hr. etrans; [apply Hp|]. by rewrite Hout.
  - apply runs_ret. split_and!; try done; [by apply spends_refl|]. intros r Hr.
    pose proof (index_range g Hs r) as Hi. pose proof (slots_each _ (ok_slots _ Hok) _ Hi) as Hslot.
    unfold place, phys in *. destruct (slot (absolute_index r g) g) as [x|] eqn:Hx; simpl in *; [|by rewrite Hslot].
    exfalso. apply not_true_iff_false in Hhad. apply Hhad. apply existsb_exists.
    exists (absolute_index r g). split; [apply list_elem_of_In, elem_of_seqZ; lia|].
    specialize (Hout r Hr). unfold outside in Hout. by rewrite Hx, Hout.
Qed.

(** ** Renewing every identity *)

Lemma chronological_index n d g :
  shape g → masked (scrollback_start n g + d) g = absolute_index (n + d) g.
Proof.
  intros Hs. unfold scrollback_start, absolute_index. rewrite !masked_mod by done.
  rewrite Z.add_mod_idemp_l by (pose proof (capacity_pos g Hs); lia). f_equal. lia.
Qed.

Lemma chronological_lookup n count g k i :
  shape g → chronological n count g !! k = Some i ↔
  i = absolute_index (n + Z.of_nat k) g ∧ Z.of_nat k < count.
Proof.
  intros Hs. unfold chronological, range. rewrite list_lookup_fmap_Some. setoid_rewrite lookup_seqZ.
  split.
  - intros (d & -> & -> & Hk). rewrite chronological_index by done. split; [done|lia].
  - intros [-> Hk]. exists (Z.of_nat k). rewrite chronological_index by done. split; [done|lia].
Qed.

Lemma chronological_NoDup n count g : shape g → count ≤ row_capacity g → NoDup (chronological n count g).
Proof.
  intros Hs Hc. apply NoDup_alt. intros k l i [-> Hk]%chronological_lookup [Hl Hl']%chronological_lookup; try done.
  apply index_inj in Hl; [lia|done|lia].
Qed.

Lemma chronological_all n g i :
  shape g → 0 ≤ i < row_capacity g → i ∈ chronological n (row_capacity g) g.
Proof.
  intros Hs Hi. pose proof (capacity_pos g Hs) as HC.
  apply list_elem_of_lookup. exists (Z.to_nat ((i - offset g - n) mod row_capacity g)).
  pose proof (Z.mod_pos_bound (i - offset g - n) (row_capacity g)).
  apply chronological_lookup; [done|]. rewrite Z2Nat.id by lia. split; [|lia].
  unfold absolute_index. rewrite masked_mod by done.
  rewrite Z.add_assoc, Z.add_mod_idemp_r by lia.
  replace (offset g + n + (i - offset g - n)) with i by lia. symmetry. by apply Z.mod_small.
Qed.

(** The grids whose identities are still to be assigned. *)
Record unidentified (g : Grid) : Prop := {
  un_width i r : 0 ≤ i < row_capacity g → slot i g = Some r → Z.of_nat (row_len r) = columns g;
  un_none i : 0 ≤ i < row_capacity g → slot i g = None → id_at i g = 0;
  un_next : 0 < next_row_id g;
}.

Lemma slots_unidentified next g : slots_ok g → 0 < next → unidentified (set_next_row_id next g).
Proof.
  intros [He _ _] Hn. split; [| |done]; intros i; [intros r|];
    change (slot i (set_next_row_id next g)) with (slot i g); intros Hi Hr;
    specialize (He i Hi); unfold phys, slot_ok in He; rewrite Hr in He; [apply He|done].
Qed.

Lemma renew_all g :
  shape g → unidentified g → next_row_id g + row_capacity g ≤ u64_max →
  runs reidentify_allocated_rows_chronologically (λ _ g',
    frame g g' ∧ rows g' = rows g ∧ generation g' = generation g ∧ slots_ok g' ∧
    next_row_id g ≤ next_row_id g' ≤ next_row_id g + row_capacity g ∧
    (∀ r, is_Some (place r g).1 → next_row_id g ≤ (place r g').2) ∧
    ∀ a b, screen_rows g ≤ a → a < b → b < screen_rows g + row_capacity g →
      is_Some (place a g).1 → is_Some (place b g).1 → (place a g').2 < (place b g').2) g.
Proof.
  intros Hs Hun Hnext. pose proof (capacity_pos g Hs) as HC.
  unfold reidentify_allocated_rows_chronologically. apply runs_bind, runs_get.
  set (xs := chronological (screen_rows g) (row_capacity g) g).
  assert (length xs = Z.to_nat (row_capacity g)) as Hlen.
  { unfold xs, chronological, range. rewrite length_fmap, length_seqZ. lia. }
  eapply runs_mono; [|apply renew_runs; [done|by apply chronological_NoDup| |rewrite Hlen; lia]].
  2:{ apply Forall_forall. intros i [k [-> _]%chronological_lookup]%list_elem_of_lookup; [by apply index_range|done]. }
  intros u g' Hre. pose proof (rn_frame _ _ _ Hre) as Hf.
  assert (∀ r, (place r g').2 = id_at (absolute_index r g) g') as Hid.
  { intros r. by rewrite (place_frame _ g g') by done. }
  assert (∀ i, 0 ≤ i < row_capacity g → i ∈ xs) as Hall by (intros; by apply chronological_all).
  split_and!; [done|by apply (rn_rows _ _ _ Hre)|by apply (rn_generation _ _ _ Hre)| | | |
    intros r Hr; rewrite Hid; apply (rn_fresh _ _ _ Hre); [apply Hall, index_range; done|done]|].
  - apply (renews_slots xs g); [apply Hun|done| | |].
    + intros i Hi _. destruct (slot i g) eqn:Hx; [by apply (un_width _ Hun i)|by apply (un_none _ Hun)].
    + intros i Hi Hn. by destruct (Hn (Hall i Hi)).
    + intros i j Hi Hj Hn. by destruct (Hn (Hall i Hi)).
  - pose proof (rn_next _ _ _ Hre). lia.
  - pose proof (rn_next _ _ _ Hre). lia.
  - intros a b Ha Hab Hb Sa Sb. rewrite !Hid.
    eapply (rn_sorted _ _ _ Hre (Z.to_nat (a - screen_rows g)) (Z.to_nat (b - screen_rows g))); [lia| | |done|done];
      apply chronological_lookup; try done; rewrite Z2Nat.id by lia; (split; [f_equal; lia|lia]).
Qed.

(** A renewed grid with its screen allocated and its cursors on it. *)
Lemma renewed_ok g g' :
  shape g → frame g g' → rows g' = rows g → slots_ok g' →
  (∀ a b, screen_rows g ≤ a → a < b → b < screen_rows g + row_capacity g →
     is_Some (place a g).1 → is_Some (place b g).1 → (place a g').2 < (place b g').2) →
  (∀ r, 0 ≤ r < screen_rows g → is_Some (place r g).1) →
  cursor_fits (cursor g) g = true → cursor_fits (saved_cursor g) g = true → 0 < history_generation g →
  grid_ok g'.
Proof.
  intros Hs Hf Hrows Hsl Hsort Hscr Hc Hc' Hh. pose proof (shape_frame _ _ Hs Hf) as Hs'.
  pose proof (shape_screen _ Hs).
  assert (∀ r, (place r g').1 = (place r g).1) as Hp.
  { intros r. rewrite (place_frame _ g g') by done. unfold place, phys, slot. simpl. by rewrite Hrows. }
  split; [done|done| | | | |].
  - intros r. rewrite (frame_screen _ _ Hf), Hp. apply Hscr.
  - intros d e Hd Hde. rewrite (frame_screen _ _ Hf), (frame_capacity _ _ Hf), !Hp. intros He Sd Se.
    rewrite <-(place_turn (- d) g'), <-(place_turn (- e) g'), (frame_capacity _ _ Hf) by done.
    apply Hsort; [lia..| |]; by rewrite place_turn.
  - by rewrite (frame_cursor _ _ Hf), (cursor_fits_frame _ g) by apply Hf.
  - by rewrite (frame_saved _ _ Hf), (cursor_fits_frame _ g) by apply Hf.
  - by rewrite (frame_history _ _ Hf).
Qed.

Lemma continue_history_runs next history g :
  grid_ok g → 0 < next → next + 2^33 ≤ u64_max → 0 ≤ history < u64_max →
  runs (continue_history_namespace (next, history)) (λ _ g', grid_ok g' ∧ rows g' = rows g ∧
    frame (set_history_generation (history + 1) (set_next_row_id next g)) g' ∧ generation g' = generation g ∧
    next_row_id g' ≤ next + row_capacity g ∧ ∀ r, is_Some (place r g).1 → next ≤ (place r g').2) g.
Proof.
  intros Hok Hn Hn' Hh. pose proof (ok_shape _ Hok) as Hs. pose proof (capacity_pos g Hs).
  unfold continue_history_namespace. apply runs_bind, runs_modify, runs_bind. cbn [fst snd].
  apply (runs_expect _ (history + 1)).
  { unfold checked_add64. by rewrite (proj2 (Z.leb_le _ _)) by lia. }
  apply runs_bind, runs_modify. set (g1 := set_history_generation _ _).
  assert (shape g1) as Hs1 by (destruct Hs; by split).
  eapply runs_mono; [|apply (renew_all g1); [done| |]].
  - intros ? g' (Hf & Hrows & Hgen & Hsl & [_ Hnext] & Hfresh & Hsort).
    split_and!; [|done|done|done|exact Hnext|].
    + eapply (renewed_ok g1); try done; try apply Hok. simpl. lia.
    + intros r Hr. apply Hfresh. exact Hr.
  - destruct (slots_unidentified next g) as [U1 U2 U3]; [apply Hok|lia|]. by split.
  - change (next + row_capacity g ≤ u64_max). lia.
Qed.

(** ** A new grid *)

(** The dimensions [Grid::new] and [with_screen_size] accept. *)
Definition dimensions_ok (capacity width n : Z) : Prop :=
  is_power_of_two capacity = true ∧ capacity ≤ 2^30 ∧ 0 < width ≤ i32_max ∧ 1 ≤ n ≤ capacity.

Definition empty_grid (capacity width n : Z) : Grid :=
  {| rows := replicate (Z.to_nat capacity) None; columns := width; offset := 0; view := 0;
     screen_rows := n; cursor := Cursor_default; saved_cursor := Cursor_default;
     generation := 0; row_ids := replicate (Z.to_nat capacity) 0; next_row_id := 1;
     history_generation := 1 |}.

Lemma Grid_new_ok capacity width n :
  dimensions_ok capacity width n → Grid_new capacity width = Ok (empty_grid capacity width 1).
Proof.
  intros (Hp & Hc & Hw & Hn). unfold Grid_new. rewrite Hp. change (Z.shiftl 1 30) with (2^30).
  by rewrite (proj2 (Z.ltb_lt _ _)), !(proj2 (Z.leb_le _ _)) by lia.
Qed.

Lemma empty_capacity capacity width n : 0 ≤ capacity → row_capacity (empty_grid capacity width n) = capacity.
Proof. intros. unfold row_capacity. simpl. rewrite length_replicate. lia. Qed.

Lemma empty_shape capacity width n : dimensions_ok capacity width n → shape (empty_grid capacity width n).
Proof.
  intros (Hp & Hc & Hw & Hn). split; rewrite ?empty_capacity by lia; simpl; try done; try lia.
  by rewrite !length_replicate.
Qed.

Lemma empty_phys capacity width n i : phys i (empty_grid capacity width n) = (None, 0).
Proof.
  unfold phys, slot, id_at. simpl. f_equal.
  - destruct (replicate _ None !! _) as [x|] eqn:H; [|done]. by apply lookup_replicate_1 in H as [-> _].
  - destruct (replicate _ 0 !! _) as [x|] eqn:H; [|done]. by apply lookup_replicate_1 in H as [-> _].
Qed.

Lemma empty_slots capacity width n : slots_ok (empty_grid capacity width n).
Proof.
  split; [|intros i j _ _ [x Hx]|done].
  - intros i _. by rewrite empty_phys.
  - pose proof (empty_phys capacity width n i) as H. unfold phys in H. congruence.
Qed.

Lemma with_screen_runs capacity width n :
  dimensions_ok capacity width n →
  ∃ g, with_screen_size capacity width n = Ok g ∧ grid_ok g ∧ spare (u64_max - 2 ^ 31) g ∧
    row_capacity g = capacity ∧ columns g = width ∧ screen_rows g = n ∧ offset g = 0 ∧ view g = 0 ∧
    (∀ r, 0 ≤ r < n → row r g = Some (Row_new (Z.to_nat width))) ∧
    (∀ r, n ≤ r < capacity → place r g = (None, 0)) ∧ cursor g = Cursor_default.
Proof.
  intros Hd. pose proof Hd as (Hp & Hc & Hw & Hn). set (g0 := empty_grid capacity width n).
  pose proof (empty_shape _ _ _ Hd) as Hs. pose proof (empty_slots capacity width n) as Hsl.
  pose proof (empty_capacity capacity width n ltac:(lia)) as HC. fold g0 in Hs, Hsl, HC.
  assert (∀ r, place r g0 = (None, 0)) as P0 by (intros r; apply empty_phys).
  assert (runs (for_each (range 0 n) (λ row, let! row := signed_row row in do! row_or_allocate row in ret tt)) (λ _ g,
    evolves n n g0 g ∧ (∀ r, 0 ≤ r < n → (place r g).1 = Some (Row_new (Z.to_nat width))) ∧
    (∀ r, n ≤ r < capacity → place r g = (None, 0))) g0) as Hrun.
  { eapply runs_mono; [|apply (loop_writes (λ old _ v, old.1 = None → v.1 = Some (Row_new (Z.to_nat width)))
      (λ row, do! row_or_allocate row in ret tt) 0); [done|done|simpl; rewrite ?HC; try lia..|]].
    - intros ? g (Hev & _ & H1 & H2). rewrite Z.sub_0_r in Hev. split_and!; [done|..].
      + intros r Hr. destruct (H1 r Hr) as (? & _ & H). apply H. by rewrite P0.
      + intros r Hr. by rewrite H2 by (rewrite HC; lia).
    - unfold u64_max. lia.
    - unfold u64_max. simpl. lia.
    - intros r s Hr Hss Hsok Hg Hnx Hcol. apply runs_bind, allocate_runs; [done..|]. intros g' Hw'. apply runs_ret.
      eexists _, _. split_and!; [| |exact Hw'|].
      1,2: by destruct (slot _ s).
      unfold place, phys. cbn [fst]. intros ->. cbn [default fst]. by rewrite Hcol. }
  destruct Hrun as ([] & g & Hg & Hev & H1 & H2). exists g. pose proof (ev_frame _ _ _ _ Hev) as Hf.
  pose proof (frame_capacity _ _ Hf) as HCg. rewrite HC in HCg.
  split_and!; try apply Hf.
  - assert (runs (do! assert_screen_rows n in do! modify (set_screen_rows n) in
        for_each (range 0 n) (λ row, let! row := signed_row row in do! row_or_allocate row in ret tt))
      (λ _ g', g' = g) (empty_grid capacity width 1)) as (u & g1 & Hm & ->).
    { apply runs_bind. unfold assert_screen_rows. apply runs_bind, runs_get, runs_assert.
      - rewrite empty_capacity by lia. by rewrite !(proj2 (Z.leb_le _ _)) by lia.
      - apply runs_bind, runs_modify. by exists tt, g. }
    unfold with_screen_size. rewrite (Grid_new_ok _ _ n) by done. cbn [obind]. cbv zeta. by rewrite Hm.
  - split; [by apply (shape_frame g0)|apply Hev| | | | |].
    + intros r Hr. rewrite (frame_screen _ _ Hf) in Hr. rewrite H1 by exact Hr. by eexists.
    + intros d e Hd' Hde He [x Hx]. rewrite HCg, (frame_screen _ _ Hf) in He.
      change (e ≤ capacity - n) in He.
      rewrite <-place_turn, HCg, H2 in Hx by (by apply (shape_frame g0) || lia). done.
    + rewrite (frame_cursor _ _ Hf). by apply home_fits, (shape_frame g0).
    + rewrite (frame_saved _ _ Hf). by apply home_fits, (shape_frame g0).
    + by rewrite (frame_history _ _ Hf).
  - pose proof (ev_generation _ _ _ _ Hev). pose proof (ev_next _ _ _ _ Hev). simpl in *.
    split; rewrite ?(frame_history _ _ Hf); unfold u64_max; simpl; lia.
  - done.
  - done.
  - done.
Qed.

(** ** Resizing without reflow *)

Lemma leader_of_le cs l : (leader_of cs l ≤ l)%nat.
Proof. induction l as [|l IH]; cbn [leader_of]; [done|]. case_match; lia. Qed.

Lemma resize_row_len width r : row_len (Row.resize_without_reflow width r) = width.
Proof.
  unfold Row.resize_without_reflow, row_len. case_bool_decide; [|case_bool_decide].
  - simpl. rewrite length_app, length_replicate. lia.
  - cbn [cells set_cells]. rewrite length_take. case_match; [|lia]. cbn [cells set_cells].
    unfold map_range. rewrite !length_app, length_fmap, !length_take, !length_drop.
    pose proof (leader_of_le (cells r) width). lia.
  - lia.
Qed.

(** Row [n] of the resized screen. *)
Definition resized_row (width : Z) (n : Z) (g : Grid) : Row :=
  set_linebreak true (Row.resize_without_reflow (Z.to_nat width)
    (default (Row_new_dirty (Z.to_nat (columns g))) (row n g))).

Definition resized_screen (width : Z) (g : Grid) (n : Z) : Row :=
  if n <? screen_rows g then resized_row width n g else Row_new_dirty (Z.to_nat width).

(** Writing the slots of a run of rows. *)
Definition write_slots (f : Z → Row) (ns : list Z) (g : Grid) : Grid :=
  foldl (λ g n, set_slot n (Some (f n)) g) g ns.

Lemma write_slots_rows f ns g : ∃ xs, length xs = length (rows g) ∧ write_slots f ns g = set_rows xs g.
Proof.
  revert g. induction ns as [|n ns IH]; intros g; [exists (rows g); by destruct g|].
  destruct (IH (set_slot n (Some (f n)) g)) as (xs & Hlen & Heq). exists xs. split.
  - rewrite Hlen. simpl. by rewrite length_insert.
  - exact Heq.
Qed.

Lemma write_slots_slot f a k g j :
  0 ≤ a → a + Z.of_nat k ≤ row_capacity g → 0 ≤ j →
  slot j (write_slots f (seqZ a (Z.of_nat k)) g) =
    if decide (a ≤ j < a + Z.of_nat k) then Some (f j) else slot j g.
Proof.
  intros Ha. revert a Ha g. induction k as [|k IH]; intros a Ha g Hk Hj.
  { rewrite decide_False by lia. done. }
  rewrite Nat2Z.inj_succ, seqZ_cons by lia. unfold write_slots. cbn [foldl].
  fold (write_slots f (seqZ (Z.succ a) (Z.pred (Z.succ (Z.of_nat k)))) (set_slot a (Some (f a)) g)).
  rewrite Z.pred_succ. rewrite IH; [|lia| |done].
  - repeat case_decide; try lia; try done.
    + unfold slot. simpl. replace j with a by lia. unfold row_capacity in Hk. rewrite list_lookup_insert by lia.
      by rewrite decide_True by lia.
    + unfold slot. simpl. by rewrite list_lookup_insert_ne by lia.
  - unfold row_capacity in *. simpl. rewrite length_insert. lia.
Qed.

(** [self] while its screen rows are being taken: only rows below [a] are gone. *)
Record taking (a : Z) (g s : Grid) : Prop := {
  tk_frame : frame g s;
  tk_generation : generation s = generation g;
  tk_next : next_row_id s = next_row_id g;
  tk_ids : row_ids s = row_ids g;
  tk_rows r : a ≤ r < row_capacity g → slot (absolute_index r g) s = slot (absolute_index r g) g;
}.

Lemma copy_screen_runs width k a resized ids g s :
  shape g → 0 ≤ a → a + Z.of_nat k ≤ row_capacity g → taking a g s →
  runs (copy_screen (seqZ a (Z.of_nat k)) width resized ids) (λ res s',
    taking (a + Z.of_nat k) g s' ∧
    res = (write_slots (λ n, resized_row width n g) (seqZ a (Z.of_nat k)) resized,
           ids ++ ((λ n, id_at (absolute_index n g) g) <$> seqZ a (Z.of_nat k)))) s.
Proof.
  intros Hs. revert a resized ids s. induction k as [|k IH]; intros a resized ids s Ha Hk Htk.
  { apply runs_ret. simpl. rewrite Z.add_0_r, app_nil_r. done. }
  pose proof (shape_limit _ Hs). rewrite Nat2Z.inj_succ, seqZ_cons by lia. rewrite Z.pred_succ. cbn [copy_screen].
  apply runs_bind, signed_runs; [unfold i32_max; lia|]. apply runs_bind, runs_get. cbv zeta.
  pose proof (tk_frame _ _ _ Htk) as Hf. rewrite (frame_index _ _ _ Hf).
  apply runs_bind, runs_put. set (i := absolute_index a g). pose proof (index_range g Hs a) as Hi. fold i in Hi.
  assert (taking (Z.succ a) g (set_slot i None s)) as Htk'.
  { destruct Htk as [[] ? ? ? Hrows]. split; [split; simpl; try done; by rewrite length_insert|done..|].
    intros r Hr. rewrite <-Hrows by lia. unfold slot. simpl. rewrite list_lookup_insert_ne; [done|].
    pose proof (index_range g Hs r). intros Heq. assert (absolute_index r g = i) as Hri by lia.
    apply index_inj in Hri; [lia|done|lia]. }
  eapply runs_mono; [|apply (IH (Z.succ a)); [lia|lia|exact Htk']].
  intros res s' [Ht ->]. replace (Z.succ a + Z.of_nat k) with (a + Z.succ (Z.of_nat k)) in Ht by lia.
  split; [done|]. f_equal.
  - unfold write_slots. cbn [foldl]. do 3 f_equal. unfold resized_row, row. fold i.
    assert (slot i s = slot i g) as -> by (apply (tk_rows _ _ _ Htk); lia). by rewrite (frame_columns _ _ Hf).
  - rewrite fmap_cons, <-app_assoc. cbn [app]. do 2 f_equal. unfold id_at. by rewrite (tk_ids _ _ _ Htk).
Qed.

(** Where a cursor goes. *)
Definition moved_cursor (old_screen_rows width n : Z) (c : Cursor) : Cursor :=
  {| position :=
       {| coord_column := Z.min (coord_column (position c)) (width - 1);
          coord_row := if coord_row (position c) =? old_screen_rows - 1 then n - 1
                       else Z.min (coord_row (position c)) (n - 1) |};
     deferred_wrap := false |}.

Lemma cursor_fits_iff c g :
  cursor_fits c g = true ↔
  0 ≤ coord_column (position c) < columns g ∧ 0 ≤ coord_row (position c) < screen_rows g.
Proof. unfold cursor_fits. rewrite !andb_true_iff, !Z.leb_le, !Z.ltb_lt. tauto. Qed.

Lemma resized_cursor_runs {S} c old width n (Q : Cursor → S → Prop) s :
  0 ≤ coord_column (position c) → 0 ≤ coord_row (position c) → 0 < width ≤ i32_max → 1 ≤ n ≤ 2^30 →
  Q (moved_cursor old width n c) s → runs (resized_cursor c old width n) Q s.
Proof.
  intros Hc Hr Hw Hn HQ. unfold resized_cursor.
  apply runs_bind, runs_assert; [by apply Z.leb_le|]. apply runs_bind, runs_assert; [by apply Z.leb_le|].
  apply runs_bind, signed_runs; [lia|]. apply runs_bind, signed_runs; [|by apply runs_ret].
  unfold i32_max. case_match; lia.
Qed.

(** The grid a resize builds, before identities are assigned. *)
Definition resize_draft (capacity width n : Z) (g : Grid) : Grid :=
  let copied := Z.min (screen_rows g) n in
  let r := write_slots (λ n, resized_row width n g) (seqZ 0 copied) (empty_grid capacity width n) in
  let r := write_slots (λ _, Row_new_dirty (Z.to_nat width)) (seqZ copied (n - copied)) r in
  set_history_generation (history_generation g + 1) (set_next_row_id (next_row_id g)
    (set_generation (generation g + 1)
      (put_saved_cursor (moved_cursor (screen_rows g) width n (saved_cursor g))
        (put_cursor (moved_cursor (screen_rows g) width n (cursor g)) r)))).

Section draft.
Context (capacity width n : Z) (g : Grid) (Hok : grid_ok g) (Hd : dimensions_ok capacity width n).
Notation draft := (resize_draft capacity width n g).

Lemma draft_fields :
  row_capacity draft = capacity ∧ length (row_ids draft) = length (rows draft) ∧ columns draft = width ∧
  offset draft = 0 ∧ view draft = 0 ∧ screen_rows draft = n ∧ row_ids draft = replicate (Z.to_nat capacity) 0.
Proof using Hd.
  unfold resize_draft. set (copied := Z.min _ _).
  destruct (write_slots_rows (λ n, resized_row width n g) (seqZ 0 copied) (empty_grid capacity width n)) as (x1 & L1 & ->).
  destruct (write_slots_rows (λ _, Row_new_dirty (Z.to_nat width)) (seqZ copied (n - copied))
    (set_rows x1 (empty_grid capacity width n))) as (x2 & L2 & ->).
  simpl in L1, L2. rewrite length_replicate in L1. unfold row_capacity. simpl. rewrite length_replicate.
  destruct Hd as (_ & _ & _ & ?). split_and!; try done; lia.
Qed.

Lemma draft_shape : shape draft.
Proof using Hd.
  destruct draft_fields as (HC & Hl & Hcol & Ho & Hv & Hn & _). destruct Hd as (Hp & Hc & Hw & ?).
  split; rewrite ?HC, ?Hcol, ?Ho, ?Hv, ?Hn; try done; lia.
Qed.

Lemma draft_slot j :
  0 ≤ j < capacity → slot j draft = if decide (j < n) then Some (resized_screen width g j) else None.
Proof using Hok Hd.
  intros Hj. destruct Hd as (Hp & Hc & Hw & Hn). pose proof (shape_screen _ (ok_shape _ Hok)).
  unfold resize_draft. set (copied := Z.min _ _).
  set (r1 := write_slots _ (seqZ 0 copied) _).
  change (slot j (write_slots (λ _, Row_new_dirty (Z.to_nat width)) (seqZ copied (n - copied)) r1) =
    if decide (j < n) then Some (resized_screen width g j) else None).
  assert (row_capacity r1 = capacity) as HC1.
  { destruct (write_slots_rows (λ n, resized_row width n g) (seqZ 0 copied) (empty_grid capacity width n)) as (x1 & L1 & Hr).
    unfold r1. rewrite Hr. unfold row_capacity. simpl. rewrite L1. by apply empty_capacity; lia. }
  replace (n - copied) with (Z.of_nat (Z.to_nat (n - copied))) by lia.
  rewrite write_slots_slot by (rewrite ?HC1; lia). rewrite Z2Nat.id by lia.
  unfold resized_screen. destruct (decide (copied ≤ j < copied + (n - copied))).
  - rewrite decide_True by lia. by rewrite (proj2 (Z.ltb_ge _ _)) by lia.
  - unfold r1. replace copied with (Z.of_nat (Z.to_nat copied)) by lia.
    rewrite write_slots_slot by (rewrite ?empty_capacity; lia). rewrite Z2Nat.id by lia.
    destruct (decide (0 ≤ j < 0 + copied)).
    + rewrite decide_True by lia. by rewrite (proj2 (Z.ltb_lt _ _)) by lia.
    + rewrite decide_False by lia. apply (f_equal fst (empty_phys capacity width n j)).
Qed.

Lemma draft_unidentified : unidentified draft.
Proof using Hok Hd.
  destruct draft_fields as (HC & _ & Hcol & _ & _ & _ & Hids). destruct Hd as (_ & _ & Hw & _). split.
  - intros i r. rewrite HC. intros Hi. rewrite draft_slot by done. case_decide; [|done]. intros [= <-].
    unfold resized_screen. case_match; rewrite Hcol.
    + unfold resized_row, set_linebreak, row_len. cbn [cells].
      pose proof (resize_row_len (Z.to_nat width) (default (Row_new_dirty (Z.to_nat (columns g))) (row i g))) as Hl.
      unfold row_len in Hl. rewrite Hl. lia.
    + unfold row_len, Row_new_dirty. simpl. rewrite length_replicate. lia.
  - intros i _ _. unfold id_at. rewrite Hids. destruct (_ !! _) as [x|] eqn:H; [|done].
    by apply lookup_replicate_1 in H as [-> _].
  - apply (slots_next _ (ok_slots _ Hok)).
Qed.

Lemma draft_place r : 0 ≤ r < capacity → absolute_index r draft = r.
Proof using Hd.
  intros Hr. destruct draft_fields as (HC & _ & _ & Ho & _). unfold absolute_index.
  rewrite masked_mod, HC, Ho by apply draft_shape. by apply Z.mod_small.
Qed.
End draft.

(** The identities of the copied rows, old to new. *)
Definition id_mappings (copied : Z) (g g' : Grid) : list (Z * Z) :=
  imap (λ i old_id, (old_id, id_at (Z.of_nat i) g')) ((λ n, id_at (absolute_index n g) g) <$> seqZ 0 copied).

Lemma id_mappings_get copied g g' r :
  grid_ok g → copied ≤ screen_rows g → 0 ≤ r < copied →
  bt_get (bt_collect (id_mappings copied g g')) (place r g).2 = Some (id_at r g').
Proof.
  intros Hok Hc Hr. pose proof (ok_shape _ Hok) as Hs. pose proof (shape_screen _ Hs).
  assert (∀ k, (Z.of_nat k < copied) → id_mappings copied g g' !! k =
    Some (id_at (absolute_index (Z.of_nat k) g) g, id_at (Z.of_nat k) g')) as Hl.
  { intros k Hk. unfold id_mappings. rewrite list_lookup_imap, list_lookup_fmap.
    rewrite (proj2 (lookup_seqZ 0 copied k (Z.of_nat k))) by lia. done. }
  apply bt_get_collect.
  - apply NoDup_alt. intros k l x Hk Hl'. rewrite list_lookup_fmap in Hk, Hl'.
    assert (length (id_mappings copied g g') = Z.to_nat copied) as Hlen.
    { unfold id_mappings. by rewrite length_imap, length_fmap, length_seqZ. }
    assert (Z.of_nat k < copied) as Kk.
    { apply fmap_Some in Hk as (? & Hk & _). apply lookup_lt_Some in Hk. lia. }
    assert (Z.of_nat l < copied) as Ll.
    { apply fmap_Some in Hl' as (? & Hl' & _). apply lookup_lt_Some in Hl'. lia. }
    rewrite Hl in Hk, Hl' by done. simpl in Hk, Hl'. simplify_eq.
    apply Nat2Z.inj. apply (index_inj g Hs); [lia|].
    apply (slots_distinct _ (ok_slots _ Hok)); [by apply index_range..| | |congruence].
    + apply (ok_screen _ Hok). lia.
    + apply (ok_screen _ Hok). lia.
  - apply list_elem_of_lookup. exists (Z.to_nat r). rewrite Hl by lia. rewrite Z2Nat.id by lia. done.
Qed.

Lemma resize_runs capacity width n g :
  grid_ok g → roomy g → dimensions_ok capacity width n →
  runs (resize_without_reflow capacity width n) (λ mapping g',
    grid_ok g' ∧ row_capacity g' = capacity ∧ columns g' = width ∧ screen_rows g' = n ∧ raises (2 ^ 30) g g' ∧
    cursor g' = moved_cursor (screen_rows g) width n (cursor g) ∧
    saved_cursor g' = moved_cursor (screen_rows g) width n (saved_cursor g) ∧
    (∀ r, 0 ≤ r < n → row r g' = Some (resized_screen width g r)) ∧
    (∀ r, n ≤ r < capacity → row r g' = None) ∧
    (∀ r, is_Some (row r g') → next_row_id g ≤ (place r g').2) ∧
    (∀ r, 0 ≤ r < Z.min (screen_rows g) n → bt_get mapping (place r g).2 = row_id r g')) g.
Proof.
  intros Hok Hroom Hd. pose proof (ok_shape _ Hok) as Hs. pose proof Hd as (Hp & Hc & Hw & Hn).
  pose proof (shape_screen _ Hs) as Hscr. pose proof (roomy_generation _ Hroom) as (Hg & _ & Hh).
  pose proof (room_next _ Hroom).
  pose proof (proj1 (cursor_fits_iff _ _) (ok_cursor _ Hok)) as Hcur.
  pose proof (proj1 (cursor_fits_iff _ _) (ok_saved _ Hok)) as Hsav.
  set (copied := Z.min (screen_rows g) n).
  unfold resize_without_reflow. apply runs_bind. eapply runs_lift; [by apply (Grid_new_ok _ _ n)|].
  apply runs_bind. unfold on, assert_screen_rows. eapply runs_lift.
  { unfold bind, get, assert_. rewrite empty_capacity by lia. rewrite !(proj2 (Z.leb_le _ _)) by lia. done. }
  cbv beta iota zeta. apply runs_bind, runs_get. fold copied.
  apply runs_bind. unfold range. rewrite Z.sub_0_r.
  replace (seqZ 0 copied) with (seqZ 0 (Z.of_nat (Z.to_nat copied))) by (f_equal; lia).
  eapply runs_mono; [|apply (copy_screen_runs width _ 0 _ [] g g); [done|lia|lia|by split; [apply frame_refl|done..]]].
  intros res s [Htk ->]. rewrite !Z2Nat.id by lia. rewrite app_nil_l. cbv beta iota.
  change (set_screen_rows n (empty_grid capacity width 1)) with (empty_grid capacity width n).
  pose proof (tk_frame _ _ _ Htk) as Hf.
  apply runs_bind, runs_get. rewrite (frame_cursor _ _ Hf), (frame_saved _ _ Hf), (frame_screen _ _ Hf).
  rewrite (tk_generation _ _ _ Htk), (tk_next _ _ _ Htk), (frame_history _ _ Hf).
  apply runs_bind, resized_cursor_runs; [lia..|]. apply runs_bind, resized_cursor_runs; [lia..|].
  apply runs_bind, (runs_expect _ (generation g + 1)).
  { unfold checked_add64. by rewrite (proj2 (Z.leb_le _ _)) by lia. }
  apply runs_bind, (runs_expect _ (history_generation g + 1)).
  { unfold checked_add64. by rewrite (proj2 (Z.leb_le _ _)) by lia. }
  change (fill_screen ?ns ?w ?r) with (write_slots (λ _, Row_new_dirty (Z.to_nat w)) ns r).
  change (set_history_generation _ _) with (resize_draft capacity width n g).
  set (draft := resize_draft capacity width n g).
  pose proof (draft_fields capacity width n g Hd) as (HC & _ & Hcol & Ho & Hv & HN & _).
  pose proof (draft_shape capacity width n g Hd) as Hds. fold draft in HC, Hcol, Ho, Hv, HN, Hds.
  destruct (renew_all draft) as ([] & g' & Hrun & Hf' & Hrows & Hgen & Hsl & Hnext & Hfresh & Hsort);
    [done|by apply draft_unidentified|rewrite HC; change (next_row_id draft) with (next_row_id g); lia|].
  apply runs_bind. eapply runs_lift; [by rewrite Hrun|]. apply runs_bind, runs_put, runs_ret.
  fold (id_mappings copied g g').
  assert (∀ r, 0 ≤ r < capacity → absolute_index r g' = r) as Hidx.
  { intros r Hr. rewrite (frame_index draft g') by done. by apply draft_place. }
  assert (∀ r, 0 ≤ r < capacity → row r g' = slot r draft) as Hrow.
  { intros r Hr. unfold row. rewrite Hidx by done. unfold slot. by rewrite Hrows. }
  assert (∀ r, (place r g').1 = (place r draft).1) as Hpl.
  { intros r. rewrite (place_frame _ draft g') by done. unfold place, phys, slot. simpl. by rewrite Hrows. }
  split_and!; [|rewrite (frame_capacity _ _ Hf'); done|rewrite (frame_columns _ _ Hf'); done
    |rewrite (frame_screen _ _ Hf'); done
    |unfold raises; rewrite Hgen, (frame_history _ _ Hf'); rewrite HC in Hnext; unfold draft in *; simpl in *; lia
    |apply (frame_cursor _ _ Hf')|apply (frame_saved _ _ Hf')|..].
  - apply (renewed_ok draft g'); try done.
    + intros r Hr. rewrite HN in Hr. change (is_Some (slot (absolute_index r draft) draft)).
      unfold draft at 2. rewrite (draft_place capacity width n g Hd) by lia.
      rewrite draft_slot, decide_True by (done || lia). by eexists.
    + apply cursor_fits_iff. rewrite Hcol, HN. simpl. case_match; lia.
    + apply cursor_fits_iff. rewrite Hcol, HN. simpl. case_match; lia.
    + pose proof (ok_history_generation _ Hok). change (0 < history_generation g + 1). lia.
  - intros r Hr. rewrite Hrow by lia. unfold draft. by rewrite draft_slot, decide_True by (done || lia).
  - intros r Hr. rewrite Hrow by lia. unfold draft. by rewrite draft_slot, decide_False by (done || lia).
  - intros r Hr. change (next_row_id g) with (next_row_id draft). apply Hfresh. rewrite <-Hpl. exact Hr.
  - intros r Hr. rewrite id_mappings_get by (done || lia). unfold row_id. rewrite Hidx by lia.
    assert (slot r g' = slot r draft) as -> by (unfold slot; by rewrite Hrows).
    unfold draft. by rewrite draft_slot, decide_True by (done || lia).
Qed.
