(* ===== verification/Reflow.v ===== *)
(** * Reflow ([splinterm-terminal/src/grid/reflow.rs])

    Resizing a grid by rebuilding its soft-wrapped logical lines. The builder
    collects output rows; [resize_with_reflow] feeds it the allocated rows in
    chronological order and installs the result in a new ring. Columns are list
    positions as in [Row], physical rows integers as in [Grid]. [composed_width]
    is the closure the caller passes. The loop over the cells of a row runs on
    fuel and returns [Err OutOfFuel] when it does not suffice. *)

From stdpp Require Import base list gmap.
From S2P Require Import Prelude RustStd Cell Row Coord Grid.

#[local] Open Scope Z_scope.

(** A source or output position: row, column. *)
Abbreviation spot := (Z * Z)%type (only parsing).

Record Mappings := {
  mapped_cursor : option spot;
  mapped_saved_cursor : option spot;
  mapped_view : option spot;
}.

Record Origins := {
  origin_cursor : spot;
  origin_saved_cursor : spot;
  origin_view : spot;
}.

Record Builder := {
  b_columns : nat;
  b_rows : list Row;
  b_current : list Cell;
  b_mappings : Mappings;
  b_row_mappings : btree Z;
  b_origins : Origins;
}.

Definition eta_builder (b : Builder) : Builder := {|
  b_columns := b_columns b; b_rows := b_rows b; b_current := b_current b;
  b_mappings := b_mappings b; b_row_mappings := b_row_mappings b; b_origins := b_origins b |}.

Definition set_current (v : list Cell) (b : Builder) : Builder := ltac:(update_field eta_builder b b_current v).
Definition set_mappings (v : Mappings) (b : Builder) : Builder := ltac:(update_field eta_builder b b_mappings v).
Definition set_row_mappings (v : btree Z) (b : Builder) : Builder :=
  ltac:(update_field eta_builder b b_row_mappings v).

Definition Mappings_default : Mappings :=
  {| mapped_cursor := None; mapped_saved_cursor := None; mapped_view := None |}.

Definition Builder_new (columns : nat) (origins : Origins) : Builder := {|
  b_columns := columns; b_rows := []; b_current := []; b_mappings := Mappings_default;
  b_row_mappings := []; b_origins := origins |}.

(** [self.rows.len()]. *)
Definition row_count (b : Builder) : Z := Z.of_nat (length (b_rows b)).

(** ** Building rows *)

(** [Cell::new(CellContent::Spacer(0))]. *)
Definition padding : Cell := {| cell_content := SPACER_BASE; attributes := Attributes_default |}.

Definition push_current (linebreak : bool) (b : Builder) : Builder := {|
  b_columns := b_columns b; b_rows := b_rows b ++ [from_cells (b_current b) linebreak true];
  b_current := []; b_mappings := b_mappings b; b_row_mappings := b_row_mappings b;
  b_origins := b_origins b |}.

(** [while self.current.len() < self.columns { self.current.push(cell) }]. *)
Definition pad_current (cell : Cell) (b : Builder) : Builder :=
  set_current (b_current b ++ replicate (b_columns b - length (b_current b)) cell) b.

Definition finish (linebreak : bool) (b : Builder) : Builder :=
  push_current linebreak (pad_current Cell_default b).

Definition finish_wrapped (b : Builder) : Builder :=
  push_current false (pad_current padding b).

Definition finish_hard_line (b : Builder) : Builder := finish true b.

Definition map_origin (physical_row source_column output_column : Z) (b : Builder) : Builder :=
  let output := Some (row_count b, output_column) in
  let here origin := bool_decide ((physical_row, source_column) = origin) in
  let m := b_mappings b in
  set_mappings {|
    mapped_cursor := if here (origin_cursor (b_origins b)) then output else mapped_cursor m;
    mapped_saved_cursor :=
      if here (origin_saved_cursor (b_origins b)) then output else mapped_saved_cursor m;
    mapped_view := if here (origin_view (b_origins b)) then output else mapped_view m |} b.

Definition append_unit (physical_row : Z) (source_column source_width : nat) (output : list Cell)
    (b : Builder) : Builder :=
  let output := if bool_decide (b_columns b < length output)%nat then [] else output in
  let output_width := Nat.max (length output) 1 in
  let b := if negb (bool_decide (b_current b = []))
              && bool_decide (b_columns b < length (b_current b) + output_width)%nat
           then finish_wrapped b else b in
  let output_column := length (b_current b) in
  let b := set_current (b_current b ++ match output with [] => [Cell_default] | _ => output end) b in
  foldl (λ b offset,
    map_origin physical_row (Z.of_nat (source_column + offset))
      (Z.of_nat (output_column + Nat.min offset (output_width - 1))) b) b (seq 0 source_width).

(** ** Units *)

(** [cell.content()], on the contents cells hold. *)
Definition content_of (c : Cell) : CellContent :=
  match content c with Ok k => k | _ => Empty end.

Fixpoint push_spacers (remaining : list Z) (output : list Cell) : outcome unfinished (list Cell) :=
  match remaining with
  | [] => Ok output
  | n :: remaining =>
      if n <=? u32_max then
        match Cell_new (Spacer n) with
        | Ok c => push_spacers remaining (output ++ [c])
        | _ => Panic
        end
      else Ok [Cell_default]
  end.

Definition cells_for_composed_width (leader : Cell) (width : Z) : outcome unfinished (list Cell) :=
  push_spacers (reverse (range 1 width)) [leader].

(** [row.cells()[column..column + width].to_vec()]. *)
Definition slice (column width : nat) (r : Row) : list Cell := take width (drop column (cells r)).

(** The source width and the output cells of the unit at [column]. *)
Definition reflow_unit (r : Row) (column count maximum_width : nat) (composed_width : Z → Z)
    : outcome unfinished (nat * list Cell) :=
  match cells r !! column with
  | None => Panic
  | Some leader =>
      let left := Z.of_nat count - Z.of_nat column in
      if continues (cells r) column then Ok (1%nat, [Cell_default])
      else
        match content_of leader with
        | Composed key =>
            let width := Z.max (composed_width key) 1 in
            if Z.of_nat maximum_width <? width then Ok (Z.to_nat (Z.min width left), [])
            else if (width <=? left) && descends (cells r) column width then
              Ok (Z.to_nat width, slice column (Z.to_nat width) r)
            else
              let? output := cells_for_composed_width leader width in
              Ok (1%nat, output)
        | _ =>
            let width := group_width (cells r) column in
            if bool_decide (S column < count)%nat && continues (cells r) (S column)
               && (width <=? left) && descends (cells r) column width then
              if Z.of_nat maximum_width <? width then Ok (Z.to_nat width, [])
              else Ok (Z.to_nat width, slice column (Z.to_nat width) r)
            else Ok (1%nat, [leader])
        end
  end.

(** The [while column < count] loop over one row. *)
Fixpoint reflow_cells (fuel column count : nat) (r : Row) (physical_row : Z) (composed_width : Z → Z)
    (b : Builder) : outcome unfinished Builder :=
  if bool_decide (column < count)%nat then
    match fuel with
    | O => Err OutOfFuel
    | S fuel =>
        let? (source_width, output) := reflow_unit r column count (b_columns b) composed_width in
        reflow_cells fuel (column + source_width) count r physical_row composed_width
          (append_unit physical_row column source_width output b)
    end
  else Ok b.

(** ** Rows *)

(** [matches!(cell.content(), CellContent::Empty | CellContent::Spacer(0))]. *)
Definition is_filler (c : Cell) : bool :=
  match content_of c with Empty => true | Spacer n => n =? 0 | _ => false end.

(** [rposition] of a cell with content, plus one, or zero. *)
Fixpoint meaningful (cs : list Cell) : nat :=
  match cs with
  | [] => 0
  | c :: cs =>
      match meaningful cs with
      | O => if is_filler c then 0 else 1
      | n => S n
      end
  end.

(** [while n < row.len() && row[n].content() == Empty { n += 1 }]: the cells
    from [n] on. *)
Fixpoint leading_empty (cs : list Cell) : nat :=
  match cs with
  | c :: cs => if bool_decide (content_of c = Empty) then S (leading_empty cs) else 0
  | [] => 0
  end.

Definition content_count (r : Row) : nat :=
  let m := meaningful (cells r) in
  if negb (linebreak r) && bool_decide (0 < m)%nat
  then m + leading_empty (drop m (cells r)) else m.

(** One past the last column of the row a cursor or the view is at. *)
Definition tracker_column (physical_row : Z) (o : Origins) : nat :=
  let past (s : spot) := if physical_row =? s.1 then S (Z.to_nat s.2) else 0%nat in
  Nat.max (past (origin_cursor o)) (Nat.max (past (origin_saved_cursor o)) (past (origin_view o))).

(** The variables of the loop over the rows. *)
Record progress := {
  builder : Builder;
  saw_row : bool;
  last_linebreak : bool;
  pending_empty_linebreaks : nat;
}.

(** The body of the loop for an allocated row. *)
Definition reflow_row (physical_row : Z) (id : Z) (r : Row) (composed_width : Z → Z) (p : progress)
    : outcome unfinished progress :=
  let b := builder p in
  let b := set_row_mappings (bt_insert (b_row_mappings b) id (row_count b)) b in
  let count := Nat.min (Nat.max (content_count r) (tracker_column physical_row (b_origins b))) (row_len r) in
  let has_cells := bool_decide (0 < count)%nat in
  let b := if has_cells then Nat.iter (pending_empty_linebreaks p) finish_hard_line b else b in
  let pending := if has_cells then 0%nat else pending_empty_linebreaks p in
  let? b := reflow_cells count 0 count r physical_row composed_width b in
  Ok {|
    builder := if linebreak r && has_cells then finish_hard_line b else b;
    saw_row := true;
    last_linebreak := if has_cells then linebreak r else last_linebreak p;
    pending_empty_linebreaks := if linebreak r && negb has_cells then S pending else pending |}.

Fixpoint reflow_rows (indices : list Z) (composed_width : Z → Z) (g : Grid) (p : progress)
    : outcome unfinished progress :=
  match indices with
  | [] => Ok p
  | index :: indices =>
      match slot index g with
      | None => reflow_rows indices composed_width g p
      | Some r =>
          let? p := reflow_row index (id_at index g) r composed_width p in
          reflow_rows indices composed_width g p
      end
  end.

(** ** Installing the rows *)

Definition adjust_mapping (mapping : option spot) (trimmed : Z) : option spot :=
  match mapping with
  | Some (row, column) => if trimmed <=? row then Some (row - trimmed, column) else None
  | None => None
  end.

Definition remap_cursor {S} (c : Cursor) (mapping : option spot)
    (offset capacity columns screen_rows : Z) : M S unfinished Cursor :=
  let '(absolute_row, column) := default (offset, 0) mapping in
  let row := Z.land (wrap64 (absolute_row - offset)) (capacity - 1) in
  let row := Z.min row (screen_rows - 1) in
  let column := Z.min column (columns - 1) in
  let unwrap := deferred_wrap c && (column + 1 <? columns) in
  let column := if unwrap then column + 1 else column in
  let c := if unwrap then set_deferred_wrap false c else c in
  let! column := signed_row column in
  let! row := signed_row row in
  ret (set_position {| coord_column := column; coord_row := row |} c).

(** The rows after the loop: the open line is closed, and a grid without any
    row yields an empty one. *)
Definition finish_lines (p : progress) : Builder :=
  let b := builder p in
  if negb (bool_decide (b_current b = [])) then finish (last_linebreak p) b
  else if negb (saw_row p) then finish_hard_line b else b.

(** [builder.rows.drain(0..trimmed)] with its mappings. *)
Definition trim_rows (capacity : Z) (b : Builder) : Builder :=
  let trimmed := saturating_sub (row_count b) capacity in
  if 0 <? trimmed then
    {| b_columns := b_columns b; b_rows := drop (Z.to_nat trimmed) (b_rows b);
       b_current := b_current b;
       b_mappings := {|
         mapped_cursor := adjust_mapping (mapped_cursor (b_mappings b)) trimmed;
         mapped_saved_cursor := adjust_mapping (mapped_saved_cursor (b_mappings b)) trimmed;
         mapped_view := adjust_mapping (mapped_view (b_mappings b)) trimmed |};
       b_row_mappings :=
         omap (λ e : Z * Z, if trimmed <=? e.2 then Some (e.1, e.2 - trimmed) else None) (b_row_mappings b);
       b_origins := b_origins b |}
  else b.

(** [dimensions.rows[index] = Some(row)] for every row built. *)
Definition install_rows (rs : list Row) (g : Grid) : Grid :=
  foldl (λ g '(i, r), set_slot (Z.of_nat i) (Some r) g) g (imap pair rs).

(** The indices are below the capacity, so [signed_row] returns. *)
Definition allocate_screen (new_columns : Z) (g : Grid) : Grid :=
  foldl (λ g relative,
    let index := absolute_index relative g in
    if bool_decide (slot index g = None)
    then set_slot index (Some (Row_new (Z.to_nat new_columns))) g else g)
    g (range 0 (screen_rows g)).

(** The tracked positions of a grid. *)
Definition origin_of (c : Cursor) (g : Grid) : outcome unfinished spot :=
  let p := position c in
  if (0 <=? coord_row p) && (0 <=? coord_column p) then
    Ok (masked (offset g + coord_row p) g, coord_column p)
  else Panic.

(** The ring the rows built go to, before its cursors are placed. *)
Definition reflowed_ring (new_row_capacity new_columns new_screen_rows : Z) (following : bool)
    (b : Builder) (dimensions : Grid) : outcome unfinished Grid :=
  let output_rows := row_count b in
  let g := install_rows (b_rows b) (set_screen_rows new_screen_rows dimensions) in
  let g := put_offset (if new_screen_rows <=? output_rows then output_rows - new_screen_rows
                       else new_row_capacity - (new_screen_rows - output_rows)) g in
  let g := allocate_screen new_columns g in
  let g := put_view (if following then offset g
                     else match mapped_view (b_mappings b) with
                          | Some (row, _) => row
                          | None => offset g
                          end) g in
  let max_scrollback_view := new_row_capacity - new_screen_rows in
  let? view_relative := absolute_to_scrollback new_screen_rows (view g) g in
  if max_scrollback_view <? view_relative then
    let? v := scrollback_to_absolute new_screen_rows max_scrollback_view g in
    Ok (put_view v g)
  else Ok g.

(** The identities of the old rows mapped to those of the rows they went to. *)
Definition map_row_ids (output_rows new_screen_rows : Z) (row_mappings : btree Z) (g : Grid) : btree Z :=
  let leading_padding := saturating_sub new_screen_rows output_rows in
  bt_collect (omap (λ e : Z * Z,
    let mapped := if e.2 <? output_rows then Some e.2
                  else if 0 <? leading_padding then Some (absolute_index (leading_padding - 1) g)
                  else None in
    mapped ≫= λ mapped, (λ _, (e.1, id_at mapped g)) <$> slot mapped g) row_mappings).

Definition resize_with_reflow (new_row_capacity new_columns new_screen_rows : Z)
    (composed_width : Z → Z) : G (btree Z) :=
  let! dimensions := lift (Grid_new new_row_capacity new_columns) in
  let! (_, dimensions) := on (assert_screen_rows new_screen_rows) dimensions in
  let! self := get in
  let! at_cursor := lift (origin_of (cursor self) self) in
  let! at_saved := lift (origin_of (saved_cursor self) self) in
  let origins := {| origin_cursor := at_cursor; origin_saved_cursor := at_saved;
                    origin_view := (view self, 0) |} in
  let start := {| builder := Builder_new (Z.to_nat new_columns) origins; saw_row := false;
                  last_linebreak := true; pending_empty_linebreaks := 0 |} in
  let! p := lift (reflow_rows (chronological (screen_rows self) (row_capacity self) self)
                    composed_width self start) in
  let b := trim_rows new_row_capacity (finish_lines p) in
  let! g := lift (reflowed_ring new_row_capacity new_columns new_screen_rows
                    (view_follows_offset self) b dimensions) in
  let! c := remap_cursor (cursor self) (mapped_cursor (b_mappings b)) (offset g)
              new_row_capacity new_columns new_screen_rows in
  let g := put_cursor c g in
  let! c := remap_cursor (saved_cursor self) (mapped_saved_cursor (b_mappings b)) (offset g)
              new_row_capacity new_columns new_screen_rows in
  let g := put_saved_cursor c g in
  let! n := expect (checked_add64 (generation self) 1) in
  let g := set_next_row_id (next_row_id self) (set_generation n g) in
  let! n := expect (checked_add64 (history_generation self) 1) in
  let g := set_history_generation n g in
  let! (_, g) := on reidentify_allocated_rows_chronologically g in
  do! put g in
  ret (map_row_ids (row_count b) new_screen_rows (b_row_mappings b) g).
