(* ===== verification/ReflowInv.v ===== *)
(** * What reflow builds

    Units are complete characters, so the rows built are well formed and as
    wide as the new grid ([built]); the loops terminate; and the ring the rows
    are installed in satisfies the invariant of the grid. *)

From stdpp Require Import base list gmap.
From S2P Require Import Prelude RustStd Cell Row RowInv RowProps Coord Grid GridInv GridSteps GridOps Reflow.

#[local] Open Scope Z_scope.

(** ** Units *)

(** No continuation follows a bare padding cell. *)
Definition lone_padding (cs : list Cell) : Prop :=
  ∀ i, spacer_at cs i = Some 0 → continues cs (S i) = false.

Lemma continues_fresh cs : fresh_start cs → continues cs 0 = false.
Proof. destruct cs as [|c cs]; [done|]. intros H. exact H. Qed.

Lemma wide_ok_lone_padding cs : wide_ok cs → lone_padding cs.
Proof.
  induction 1 as [|leader tail rest Hl Hlead Ht Hr IH]; intros i; [done|].
  pose proof (continues_fresh _ (wide_ok_fresh _ Hr)) as Hf.
  destruct i as [|i].
  - unfold spacer_at. simpl. intros Hs. destruct tail; [exact Hf|].
    rewrite Hlead in Hs by done. done.
  - unfold spacer_at, continues. simpl. destruct (decide (i < length tail)%nat) as [Hi|Hi].
    + intros Hs. rewrite lookup_app_l in Hs by done. apply tail_ok_spec with (i := i) in Ht; [|done].
      unfold spacer_at in Ht. rewrite Hs in Ht. simplify_eq. lia.
    + unfold spacer_at. simpl. rewrite !lookup_app_r by lia.
      replace (S i - length tail)%nat with (S (i - length tail)) by lia. apply IH.
Qed.

Lemma slice_wide cs column width leader :
  cs !! column = Some leader → continuation leader = false → (1 < width → spacer_of leader = None)%nat →
  (1 ≤ width)%nat → (column + width ≤ length cs)%nat → descends cs column (Z.of_nat width) = true →
  wide_ok (take width (drop column cs)).
Proof.
  intros Hc Hn Hlead Hw Hlen Hd. rewrite (drop_S _ _ _ Hc). destruct width as [|width]; [lia|].
  rewrite firstn_cons, <-(app_nil_r (take _ _)). constructor; [done| | |constructor].
  - intros Ht. apply Hlead. destruct width; [by rewrite take_0 in Ht|lia].
  - apply tail_ok_spec. rewrite length_take, length_drop. intros i Hi.
    unfold descends in Hd. rewrite forallb_forall in Hd. specialize (Hd (S i)).
    rewrite bool_decide_eq_true in Hd. unfold spacer_at in *.
    rewrite lookup_take_lt, lookup_drop by lia. replace (S column + i)%nat with (column + S i)%nat by lia.
    rewrite Hd by (apply in_seq; lia). f_equal. lia.
Qed.

(** The continuations of a character with [n] columns after its first. *)
Fixpoint spacer_run (n : nat) : list Cell :=
  match n with
  | O => []
  | S k => {| cell_content := SPACER_BASE + Z.of_nat n; attributes := Attributes_default |} :: spacer_run k
  end.

Lemma spacer_run_length n : length (spacer_run n) = n.
Proof. induction n; simpl; auto. Qed.

Lemma spacer_of_spacer n a : 0 ≤ n → spacer_of {| cell_content := SPACER_BASE + n; attributes := a |} = Some n.
Proof.
  intros Hn. unfold spacer_of, content. cbn [cell_content].
  destruct (Z.eqb_spec (SPACER_BASE + n) 0) as [H|H]; [unfold SPACER_BASE, COMPOSED_END, COMPOSED_BASE, COMPOSED_KEY_MAX in H; lia|].
  rewrite (proj2 (Z.ltb_ge _ _)) by (unfold SPACER_BASE, COMPOSED_END, COMPOSED_BASE, COMPOSED_KEY_MAX; lia).
  rewrite (proj2 (Z.leb_gt _ _)) by (unfold SPACER_BASE; lia). f_equal. lia.
Qed.

Lemma spacer_run_tail n : tail_ok (spacer_run n).
Proof.
  induction n as [|n IH]; [done|]. split; [|done].
  rewrite (spacer_of_spacer (Z.of_nat (S n))) by lia. cbn [length]. by rewrite spacer_run_length.
Qed.

Lemma push_spacers_run n out :
  Z.of_nat n ≤ i32_max → push_spacers (reverse (seqZ 1 (Z.of_nat n))) out = Ok (out ++ spacer_run n).
Proof.
  revert out. induction n as [|n IH]; intros out Hn; [by rewrite app_nil_r|].
  rewrite seqZ_S, reverse_app, reverse_singleton. cbn [app push_spacers].
  rewrite (proj2 (Z.leb_le _ _)) by (unfold u32_max, i32_max in *; lia).
  unfold Cell_new, set_content, encode_content.
  rewrite (proj2 (Z.leb_le _ _)) by (unfold u32_max, i32_max, SPACER_BASE, COMPOSED_END, COMPOSED_BASE, COMPOSED_KEY_MAX in *; lia).
  cbn [attributes Cell_default]. cbv beta iota delta [map_ok obind].
  rewrite IH by lia. rewrite <-app_assoc. cbn [app spacer_run]. do 4 f_equal. lia.
Qed.

Lemma composed_cells leader width :
  1 ≤ width ≤ i32_max → continuation leader = false → spacer_of leader = None →
  ∃ out, cells_for_composed_width leader width = Ok out ∧ wide_ok out.
Proof.
  intros Hw Hl Hs. unfold cells_for_composed_width, range.
  replace (width - 1) with (Z.of_nat (Z.to_nat (width - 1))) by lia.
  rewrite push_spacers_run by lia. eexists. split; [done|]. cbn [app].
  rewrite <-(app_nil_r (spacer_run _)). constructor; [done|done|apply spacer_run_tail|constructor].
Qed.

Lemma composed_not_spacer c key : content_of c = Composed key → spacer_of c = None.
Proof. unfold content_of, spacer_of. destruct (content c) as [[]| |]; congruence. Qed.

Lemma continues_at cs column c : cs !! column = Some c → continues cs column = continuation c.
Proof. intros H. unfold continues, spacer_at. by rewrite H. Qed.

Lemma group_width_continues cs column : continues cs (S column) = true → 1 < group_width cs column.
Proof.
  unfold continues, group_width. destruct (spacer_at cs (S column)) as [n|]; [|done].
  intros Hn. rewrite Hn. apply Z.ltb_lt in Hn. unfold usize_max, u64_max. lia.
Qed.

(** The leader of a group holds no spacer, unless a padding cell claims it. *)
Lemma leader_plain cs column c :
  lone_padding cs → cs !! column = Some c → continuation c = false → continues cs (S column) = true →
  spacer_of c = None.
Proof.
  intros Hp Hc Hn Hs. destruct (spacer_of c) as [n|] eqn:Hsp; [|done].
  pose proof (spacer_nonneg _ _ Hsp). unfold continuation in Hn. rewrite Hsp in Hn. apply Z.ltb_ge in Hn.
  rewrite Hp in Hs; [done|]. unfold spacer_at. rewrite Hc. simpl. rewrite Hsp. f_equal. lia.
Qed.

Lemma reflow_unit_ok r column count width cw :
  (column < count ≤ row_len r)%nat → Z.of_nat width ≤ i32_max →
  ∃ w out, reflow_unit r column count width cw = Ok (w, out) ∧ (1 ≤ w ≤ count - column)%nat ∧
    (lone_padding (cells r) → wide_ok out).
Proof.
  intros Hc Hw. unfold reflow_unit. unfold row_len in Hc.
  destruct (cells r !! column) as [leader|] eqn:Hl; [|apply lookup_ge_None in Hl; lia].
  rewrite (continues_at _ _ _ Hl). destruct (continuation leader) eqn:Hcont.
  { eexists _, _. split_and!; [done|lia..|]. intros _. by apply (wide_ok_narrow Cell_default), wide_nil. }
  assert (∀ w, 1 < w → continues (cells r) (S column) = true → w ≤ Z.of_nat count - Z.of_nat column →
    descends (cells r) column w = true → lone_padding (cells r) → wide_ok (slice column (Z.to_nat w) r)) as Hgroup.
  { intros w Hw1 Hn Hle Hd Hp. eapply slice_wide; try done; [|lia..|by rewrite Z2Nat.id by lia].
    intros _. by eapply leader_plain. }
  assert (wide_ok [leader]) as Hone by (by apply wide_ok_narrow, wide_nil).
  destruct (content_of leader) as [| |key|] eqn:Hk.
  3:{ pose proof (composed_not_spacer _ _ Hk) as Hsp. set (w := Z.max (cw key) 1).
      destruct (Z.ltb_spec (Z.of_nat width) w).
      { eexists _, _. split_and!; [done|lia..|]. intros _. constructor. }
      destruct (Z.leb_spec w (Z.of_nat count - Z.of_nat column)); cbn [andb].
      1: destruct (descends (cells r) column w) eqn:Hd.
      { eexists _, _. split_and!; [done|lia..|]. intros _. eapply slice_wide; try done; [lia..|by rewrite Z2Nat.id by lia]. }
      all: destruct (composed_cells leader w) as (out & -> & Ho); [lia|done|done|];
        eexists _, _; (split_and!; [done|lia..|done]). }
  all: destruct (bool_decide_reflect (S column < count)%nat); cbn [andb];
    [|by eexists _, _; split_and!; [done|lia..|]].
  all: destruct (continues (cells r) (S column)) eqn:Hn; cbn [andb]; [|by eexists _, _; split_and!; [done|lia..|]].
  all: pose proof (group_width_continues _ _ Hn) as Hg; set (w := group_width (cells r) column) in *.
  all: destruct (Z.leb_spec w (Z.of_nat count - Z.of_nat column)); cbn [andb]; [|by eexists _, _; split_and!; [done|lia..|]].
  all: destruct (descends (cells r) column w) eqn:Hd; [|by eexists _, _; split_and!; [done|lia..|]].
  all: destruct (Z.ltb_spec (Z.of_nat width) w); eexists _, _; (split_and!; [done|lia..|]); intros ?; [constructor|by apply Hgroup].
Qed.

(** ** The builder *)

(** What is tracked through a reflow. *)
Inductive tracker := AtCursor | AtSavedCursor | AtView.

Definition origin (k : tracker) (o : Origins) : spot :=
  match k with
  | AtCursor => origin_cursor o
  | AtSavedCursor => origin_saved_cursor o
  | AtView => origin_view o
  end.

Definition mapped (k : tracker) (m : Mappings) : option spot :=
  match k with
  | AtCursor => mapped_cursor m
  | AtSavedCursor => mapped_saved_cursor m
  | AtView => mapped_view m
  end.

(** The cells built, the open row last. *)
Definition cell_lines (b : Builder) : list (list Cell) := (cells <$> b_rows b) ++ [b_current b].

Definition cell_at (s : spot) (b : Builder) : option Cell :=
  cell_lines b !! Z.to_nat s.1 ≫= λ cs, cs !! Z.to_nat s.2.

Record built (b : Builder) : Prop := {
  built_columns : (0 < b_columns b)%nat;
  built_rows : Forall (λ r, row_len r = b_columns b) (b_rows b);
  built_current : (length (b_current b) ≤ b_columns b)%nat;
  built_mapped k s : mapped k (b_mappings b) = Some s → 0 ≤ s.1 ∧ 0 ≤ s.2 ∧ is_Some (cell_at s b);
}.

(** The characters built are complete. *)
Definition wide (b : Builder) : Prop :=
  Forall (λ r, wide_ok (cells r)) (b_rows b) ∧ wide_ok (b_current b).

(** Building only adds. *)
Record grows (b b' : Builder) : Prop := {
  grows_columns : b_columns b' = b_columns b;
  grows_origins : b_origins b' = b_origins b;
  grows_cells s c : cell_at s b = Some c → cell_at s b' = Some c;
}.

Lemma grows_refl b : grows b b.
Proof. by split. Qed.

Lemma grows_trans b1 b2 b3 : grows b1 b2 → grows b2 b3 → grows b1 b3.
Proof. intros [] []. split; try congruence. auto. Qed.

(** The non-blank cells and the hard line breaks, in order. *)
Definition inks (cs : list Cell) : list (option Cell) := Some <$> List.filter (λ c, negb (is_filler c)) cs.

Definition row_stream (r : Row) : list (option Cell) :=
  inks (cells r) ++ if linebreak r then [None] else [].

Definition stream (rs : list Row) : list (option Cell) := rs ≫= row_stream.

Definition built_stream (b : Builder) : list (option Cell) := stream (b_rows b) ++ inks (b_current b).

Lemma inks_app cs1 cs2 : inks (cs1 ++ cs2) = inks cs1 ++ inks cs2.
Proof. unfold inks. by rewrite List.filter_app, fmap_app. Qed.

Lemma inks_replicate n c : is_filler c = true → inks (replicate n c) = [].
Proof. intros Hc. induction n; [done|]. unfold inks. simpl. by rewrite Hc. Qed.

Lemma stream_snoc rs r : stream (rs ++ [r]) = stream rs ++ row_stream r.
Proof. unfold stream. rewrite bind_app. simpl. by rewrite app_nil_r. Qed.

(** ** Closing a row *)

Lemma cell_at_rows s b : (Z.to_nat s.1 < length (b_rows b))%nat →
  cell_at s b = b_rows b !! Z.to_nat s.1 ≫= λ r, cells r !! Z.to_nat s.2.
Proof.
  intros H. unfold cell_at, cell_lines. rewrite lookup_app_l by (by rewrite length_fmap).
  rewrite list_lookup_fmap. by destruct (b_rows b !! _).
Qed.

Lemma cell_at_current s b : Z.to_nat s.1 = length (b_rows b) → cell_at s b = b_current b !! Z.to_nat s.2.
Proof.
  intros H. unfold cell_at, cell_lines. rewrite lookup_app_r by (rewrite length_fmap; lia).
  by rewrite length_fmap, H, Nat.sub_diag.
Qed.

Lemma cell_at_beyond s b : (length (b_rows b) < Z.to_nat s.1)%nat → cell_at s b = None.
Proof.
  intros H. unfold cell_at, cell_lines. rewrite (proj2 (lookup_ge_None _ _)); [done|].
  rewrite length_app, length_fmap. simpl. lia.
Qed.

(** [finish] and [finish_wrapped]. *)
Definition close_with (cell : Cell) (linebreak : bool) (b : Builder) : Builder :=
  push_current linebreak (pad_current cell b).

Section close.
Context (cell : Cell) (lb : bool) (b : Builder).

Lemma close_grows : grows b (close_with cell lb b).
Proof using Type.
  split; [done..|]. intros s c Hs. destruct (lt_eq_lt_dec (Z.to_nat s.1) (length (b_rows b))) as [[H|H]|H].
  - rewrite cell_at_rows in Hs by done. rewrite cell_at_rows by (simpl; rewrite length_app; lia).
    simpl. by rewrite lookup_app_l.
  - rewrite cell_at_current in Hs by done. rewrite cell_at_rows by (simpl; rewrite length_app; simpl; lia).
    simpl. rewrite lookup_app_r by lia. rewrite H, Nat.sub_diag. simpl.
    by rewrite lookup_app_l by (by eapply lookup_lt_Some).
  - by rewrite cell_at_beyond in Hs.
Qed.

Lemma close_built : built b → built (close_with cell lb b).
Proof using Type.
  intros [Hc Hr Hcur Hm]. split; [done| |simpl; lia|].
  - apply Forall_app. split; [done|]. apply Forall_singleton. unfold row_len. simpl.
    rewrite length_app, length_replicate. lia.
  - intros k s Hs. destruct (Hm k s Hs) as (? & ? & c & Hat). split_and!; [done..|].
    exists c. by apply close_grows.
Qed.

Lemma close_wide : continuation cell = false → wide b → wide (close_with cell lb b).
Proof using Type.
  intros Hc [Hr Hcur]. split; [|constructor]. apply Forall_app. split; [done|]. apply Forall_singleton.
  simpl. apply wide_ok_app; [done|]. by apply wide_ok_replicate.
Qed.

Lemma close_stream : is_filler cell = true →
  built_stream (close_with cell lb b) = built_stream b ++ if lb then [None] else [].
Proof using Type.
  intros Hc. unfold built_stream. simpl. rewrite app_nil_r, stream_snoc. unfold row_stream. simpl.
  by rewrite inks_app, (inks_replicate _ _ Hc), app_nil_r, <-app_assoc.
Qed.
End close.

Lemma padding_plain : continuation padding = false ∧ is_filler padding = true.
Proof. done. Qed.

(** ** Appending a unit *)

Lemma map_origins pr sc oc ow w b :
  let b' := foldl (λ b offset, map_origin pr (Z.of_nat (sc + offset)) (Z.of_nat (oc + Nat.min offset (ow - 1))) b)
              b (seq 0 w) in
  b' = set_mappings (b_mappings b') b ∧
  ∀ k, mapped k (b_mappings b') =
    let o := origin k (b_origins b) in
    if decide (o.1 = pr ∧ Z.of_nat sc ≤ o.2 < Z.of_nat (sc + w)) then
      Some (row_count b, Z.of_nat (oc + Nat.min (Z.to_nat o.2 - sc) (ow - 1)))
    else mapped k (b_mappings b).
Proof.
  induction w as [|w IH].
  { cbn [seq foldl]. split; [by destruct b|]. intros k. cbn zeta. rewrite decide_False by lia. done. }
  rewrite seq_S, foldl_app. cbn [foldl]. set (b1 := foldl _ b (seq 0 w)) in *. cbv zeta in IH |- *.
  destruct IH as [Hb Hm]. rewrite Nat.add_0_l. split.
  { match goal with |- ?l = set_mappings ?m b => change l with (set_mappings m b1); generalize m end.
    intros m. by rewrite Hb. }
  assert (b_origins b1 = b_origins b) as Ho by by rewrite Hb.
  assert (row_count b1 = row_count b) as Hr by (unfold row_count; by rewrite Hb).
  intros k. specialize (Hm k).
  assert (mapped k (b_mappings (map_origin pr (Z.of_nat (sc + w)) (Z.of_nat (oc + Nat.min w (ow - 1))) b1)) =
    if bool_decide ((pr, Z.of_nat (sc + w)) = origin k (b_origins b))
    then Some (row_count b, Z.of_nat (oc + Nat.min w (ow - 1))) else mapped k (b_mappings b1)) as ->.
  { unfold map_origin. cbn [set_mappings b_mappings]. rewrite Hr, Ho. by destruct k. }
  destruct (origin k (b_origins b)) as [p c]. cbn [fst snd] in Hm |- *. case_bool_decide as Heq.
  - simplify_eq. rewrite decide_True by lia. do 3 f_equal. lia.
  - rewrite Hm. repeat case_decide; try done; try lia. destruct Heq. f_equal; lia.
Qed.

(** The cells a unit contributes. *)
Definition fitted (width : nat) (output : list Cell) : list Cell :=
  if decide (length output ≤ width ∧ output ≠ [])%nat then output else [Cell_default].

Lemma fitted_length width output : (0 < width)%nat → (0 < length (fitted width output) ≤ width)%nat.
Proof. intros. unfold fitted. case_decide as H'; [|simpl; lia]. destruct H', output; [done|simpl in *; lia]. Qed.

Lemma fitted_wide width output : wide_ok output → wide_ok (fitted width output).
Proof. intros. unfold fitted. case_decide; [done|]. by apply wide_ok_narrow, wide_nil. Qed.

(** The builder a unit of [n] cells goes to. *)
Definition opened (n : nat) (b : Builder) : Builder :=
  if decide (b_current b ≠ [] ∧ (b_columns b < length (b_current b) + n)%nat) then finish_wrapped b else b.

Lemma append_unit_eq pr sc w output b :
  let cs := fitted (b_columns b) output in
  let b1 := opened (length cs) b in
  let b' := append_unit pr sc w output b in
  b' = set_mappings (b_mappings b') (set_current (b_current b1 ++ cs) b1) ∧
  ∀ k, mapped k (b_mappings b') =
    let o := origin k (b_origins b) in
    if decide (o.1 = pr ∧ Z.of_nat sc ≤ o.2 < Z.of_nat (sc + w)) then
      Some (row_count b1, Z.of_nat (length (b_current b1) + Nat.min (Z.to_nat o.2 - sc) (length cs - 1)))
    else mapped k (b_mappings b).
Proof.
  cbv zeta. unfold append_unit.
  set (out := if bool_decide (b_columns b < length output)%nat then [] else output).
  assert (match out with [] => [Cell_default] | _ => out end = fitted (b_columns b) output) as Hcs.
  { unfold out, fitted. case_bool_decide; [by rewrite decide_False by lia|].
    destruct output; [by rewrite decide_False by naive_solver|]. rewrite decide_True; [done|]. split; [lia|done]. }
  assert (Nat.max (length out) 1 = length (fitted (b_columns b) output)) as ->.
  { rewrite <-Hcs. destruct out; simpl; lia. }
  rewrite Hcs. set (cs := fitted (b_columns b) output).
  assert ((if negb (bool_decide (b_current b = [])) && bool_decide (b_columns b < length (b_current b) + length cs)%nat
           then finish_wrapped b else b) = opened (length cs) b) as ->.
  { unfold opened. repeat case_bool_decide; cbn [negb andb]; try (rewrite decide_False by tauto); try done.
    by rewrite decide_True by tauto. }
  set (b1 := opened (length cs) b).
  assert (b_origins b1 = b_origins b ∧ b_mappings b1 = b_mappings b) as [Ho Hmap] by (unfold b1, opened; by case_decide).
  destruct (map_origins pr sc (length (b_current b1)) (length cs) w (set_current (b_current b1 ++ cs) b1)) as [Hb Hm].
  split; [exact Hb|]. intros k. rewrite Hm. cbv zeta. cbn [set_current b_origins b_mappings]. rewrite Ho, Hmap.
  done.
Qed.

Lemma opened_cases (P : Builder → Prop) n b : P b → P (finish_wrapped b) → P (opened n b).
Proof. intros. unfold opened. by case_decide. Qed.

Lemma opened_room n b : built b → (n ≤ b_columns b)%nat → (length (b_current (opened n b)) + n ≤ b_columns b)%nat.
Proof.
  intros Hb Hn. unfold opened. case_decide as Hd; [simpl; lia|]. pose proof (built_current _ Hb).
  destruct (b_current b) as [|c cs]; [simpl; lia|]. destruct (decide (b_columns b < length (c :: cs) + n)%nat); [|lia].
  destruct Hd. by split.
Qed.

Lemma cell_at_mappings s m b : cell_at s (set_mappings m b) = cell_at s b.
Proof. done. Qed.

Lemma extend_grows cs b : grows b (set_current (b_current b ++ cs) b).
Proof.
  split; [done..|]. intros s c Hs. destruct (lt_eq_lt_dec (Z.to_nat s.1) (length (b_rows b))) as [[H|H]|H].
  - by rewrite cell_at_rows in Hs |- * by done.
  - rewrite cell_at_current in Hs |- * by done. simpl. by rewrite lookup_app_l by (by eapply lookup_lt_Some).
  - by rewrite cell_at_beyond in Hs.
Qed.

Section append.
Context (pr : Z) (sc w : nat) (output : list Cell) (b : Builder).
Let cs := fitted (b_columns b) output.
Let b1 := opened (length cs) b.
Let b' := append_unit pr sc w output b.

Lemma append_shape : b' = set_mappings (b_mappings b') (set_current (b_current b1 ++ cs) b1).
Proof using Type. apply (append_unit_eq pr sc w output b). Qed.

Lemma append_grows : grows b b'.
Proof using Type.
  rewrite append_shape. apply grows_trans with b1.
  { apply opened_cases; [apply grows_refl|apply close_grows]. }
  pose proof (extend_grows cs b1) as [? ? H]. split; [done..|]. intros s c. rewrite cell_at_mappings. apply H.
Qed.

Lemma append_current : b_current b' ≠ [].
Proof using Type.
  rewrite append_shape. cbn [b_current set_current set_mappings]. intros [_ Hcs]%app_eq_nil.
  unfold cs, fitted in Hcs. case_decide as Hd; [by destruct Hd|done].
Qed.

Lemma append_row_mappings : b_row_mappings b' = b_row_mappings b.
Proof using Type. rewrite append_shape. unfold b1. by apply (opened_cases (λ x, b_row_mappings x = b_row_mappings b)). Qed.

Lemma append_mapped k :
  let o := origin k (b_origins b) in
  mapped k (b_mappings b') =
    if decide (o.1 = pr ∧ Z.of_nat sc ≤ o.2 < Z.of_nat (sc + w)) then
      Some (row_count b1, Z.of_nat (length (b_current b1) + Nat.min (Z.to_nat o.2 - sc) (length cs - 1)))
    else mapped k (b_mappings b).
Proof using Type. apply (append_unit_eq pr sc w output b). Qed.

(** The output cell a source column goes to. *)
Lemma append_cell i :
  (i < length cs)%nat → cell_at (row_count b1, Z.of_nat (length (b_current b1) + i)) b' = cs !! i.
Proof using Type.
  intros Hi. rewrite append_shape, cell_at_mappings, cell_at_current by (unfold row_count; simpl; lia).
  cbn [b_current set_current fst snd]. rewrite Nat2Z.id, lookup_app_r by lia. f_equal. lia.
Qed.

Lemma append_built : built b → built b'.
Proof using Type.
  intros Hb. pose proof (fitted_length (b_columns b) output (built_columns _ Hb)) as Hl. fold cs in Hl.
  assert (built b1) as [H1 H2 H3 _] by (apply opened_cases; [done|by apply close_built]).
  pose proof (grows_columns _ _ append_grows) as Hc. split.
  - rewrite Hc. apply Hb.
  - rewrite append_shape. exact H2.
  - rewrite Hc, append_shape. simpl. rewrite length_app. apply opened_room; [done|lia].
  - intros k s. rewrite append_mapped. case_decide as Hd.
    + intros [= <-]. cbn [fst snd]. unfold row_count. split_and!; [lia..|]. fold (row_count b1).
      rewrite append_cell by lia. apply lookup_lt_is_Some. lia.
    + intros Hs. destruct (built_mapped _ Hb k s Hs) as (? & ? & c & Hat). split_and!; [done..|].
      exists c. by apply append_grows.
Qed.

Lemma append_wide : wide_ok output → wide b → wide b'.
Proof using Type.
  intros Ho Hw. assert (wide b1) as [H1 H2] by (apply opened_cases; [done|by apply close_wide]).
  rewrite append_shape. split; [exact H1|]. simpl. apply wide_ok_app; [done|]. by apply fitted_wide.
Qed.

Lemma append_stream : built_stream b' = built_stream b ++ inks cs.
Proof using Type.
  assert (built_stream b1 = built_stream b) as <-.
  { apply (opened_cases (λ x, built_stream x = built_stream b)); [done|].
    unfold finish_wrapped. fold (close_with padding false b). rewrite close_stream by done. apply app_nil_r. }
  rewrite append_shape. unfold built_stream. simpl. by rewrite inks_app, app_assoc.
Qed.
End append.

(** ** Reflowing a row *)

Lemma reflow_cells_ok fuel column count r pr cw b :
  (count - column ≤ fuel)%nat → (column ≤ count ≤ row_len r)%nat → built b → Z.of_nat (b_columns b) ≤ i32_max →
  ∃ b', reflow_cells fuel column count r pr cw b = Ok b' ∧ built b' ∧ grows b b' ∧
    b_row_mappings b' = b_row_mappings b ∧ (lone_padding (cells r) → wide b → wide b') ∧
    (b_current b ≠ [] ∨ (column < count)%nat → b_current b' ≠ []) ∧ (column = count → b' = b) ∧
    ∀ k, let o := origin k (b_origins b) in
      if decide (o.1 = pr ∧ Z.of_nat column ≤ o.2 < Z.of_nat count) then is_Some (mapped k (b_mappings b'))
      else mapped k (b_mappings b') = mapped k (b_mappings b).
Proof.
  revert column b. induction fuel as [|fuel IH]; intros column b Hf Hc Hb Hw; cbn [reflow_cells].
  all: case_bool_decide as Hlt; try lia.
  1,3: exists b; split_and!; try done; [intros [?|?]; [done|lia]|intros k; cbv zeta; by rewrite decide_False by lia].
  destruct (reflow_unit_ok r column count (b_columns b) cw) as (w & out & -> & Hw' & Hout); [lia|done|]. cbn [obind].
  set (b1 := append_unit pr column w out b). pose proof (append_grows pr column w out b) as Hg. fold b1 in Hg.
  destruct (IH (column + w)%nat b1) as (b' & -> & Hb' & Hg' & Hrm & Hwide & Hcur & _ & Hmap); [lia..|by apply append_built
    |by rewrite (grows_columns _ _ Hg)|].
  exists b'. split_and!; [done|done|by eapply grows_trans| | | | |].
  - rewrite Hrm. apply append_row_mappings.
  - intros Hp Hwb. apply Hwide; [done|]. apply append_wide; [by apply Hout|done].
  - intros _. apply Hcur. left. apply append_current.
  - lia.
  - intros k. specialize (Hmap k). rewrite (grows_origins _ _ Hg) in Hmap. cbv zeta in Hmap |- *.
    pose proof (append_mapped pr column w out b k) as Ham. cbv zeta in Ham. fold b1 in Ham.
    set (o := origin k (b_origins b)) in *.
    repeat case_decide; try lia; try done; rewrite Hmap, Ham; try done; by eexists.
Qed.

(** Pending line breaks are written as blank rows. *)
Section blank_lines.
Context (n : nat) (b : Builder).
Let b' := Nat.iter n finish_hard_line b.

Lemma blank_lines_grows : grows b b'.
Proof using Type.
  unfold b'. clear b'. induction n as [|m IH]; [apply grows_refl|]. eapply grows_trans; [exact IH|]. apply close_grows.
Qed.

Lemma blank_lines_built : built b → built b'.
Proof using Type. intros Hb. unfold b'. clear b'. induction n; [done|]. by apply close_built. Qed.

Lemma blank_lines_wide : wide b → wide b'.
Proof using Type. intros Hb. unfold b'. clear b'. induction n; [done|]. by apply close_wide. Qed.

Lemma blank_lines_mappings : b_mappings b' = b_mappings b ∧ b_row_mappings b' = b_row_mappings b.
Proof using Type. unfold b'. clear b'. induction n as [|m [IH1 IH2]]; [done|]. split; [exact IH1|exact IH2]. Qed.

Lemma blank_lines_stream : built_stream b' = built_stream b ++ replicate n None.
Proof using Type.
  unfold b'. clear b'. induction n as [|m IH]; [by rewrite app_nil_r|].
  change (Nat.iter (S m) finish_hard_line b) with (close_with Cell_default true (Nat.iter m finish_hard_line b)).
  rewrite close_stream, IH by done.
  by rewrite <-app_assoc, <-replicate_S_end.
Qed.
End blank_lines.

(** The builder a row's cells go to, and the number of cells taken. *)
Definition row_start (id : Z) (has_cells : bool) (p : progress) : Builder :=
  let b := set_row_mappings (bt_insert (b_row_mappings (builder p)) id (row_count (builder p))) (builder p) in
  if has_cells then Nat.iter (pending_empty_linebreaks p) finish_hard_line b else b.

Definition cell_count (pr : Z) (r : Row) (o : Origins) : nat :=
  Nat.min (Nat.max (content_count r) (tracker_column pr o)) (row_len r).

Lemma tracker_past k pr o : (origin k o).1 = pr → (Z.to_nat (origin k o).2 < tracker_column pr o)%nat.
Proof.
  unfold tracker_column. destruct k; cbn [origin]; intros <-; rewrite Z.eqb_refl; lia.
Qed.

Lemma row_start_facts id h p :
  built (builder p) →
  built (row_start id h p) ∧ grows (builder p) (row_start id h p) ∧
  (wide (builder p) → wide (row_start id h p)) ∧
  b_mappings (row_start id h p) = b_mappings (builder p) ∧
  b_row_mappings (row_start id h p) = bt_insert (b_row_mappings (builder p)) id (row_count (builder p)) ∧
  built_stream (row_start id h p) =
    built_stream (builder p) ++ replicate (if h then pending_empty_linebreaks p else 0) None ∧
  (h = false → b_current (row_start id h p) = b_current (builder p)).
Proof.
  intros Hb. unfold row_start. set (b0 := set_row_mappings _ _).
  assert (built b0) as Hb0 by (destruct Hb; by split).
  assert (grows (builder p) b0) as Hg0 by (by split).
  destruct h; [|by split_and!; try done; rewrite app_nil_r].
  destruct (blank_lines_mappings (pending_empty_linebreaks p) b0) as [Hm Hr].
  split_and!; [by apply blank_lines_built| |exact (blank_lines_wide _ b0)|exact Hm|exact Hr|exact (blank_lines_stream _ b0)|done].
  eapply grows_trans; [exact Hg0|]. apply blank_lines_grows.
Qed.

(** An open line is never the result of a hard row. *)
Definition tidy (p : progress) : Prop := b_current (builder p) ≠ [] → last_linebreak p = false.

(** What a row does to the progress. *)
Record advances (id pr : Z) (r : Row) (p p' : progress) : Prop := {
  adv_built : built (builder p');
  adv_grows : grows (builder p) (builder p');
  adv_saw : saw_row p' = true;
  adv_wide : lone_padding (cells r) → wide (builder p) → wide (builder p');
  adv_tidy : tidy p → tidy p';
  adv_row_mappings : b_row_mappings (builder p') = bt_insert (b_row_mappings (builder p)) id (row_count (builder p));
  adv_mapped k : (origin k (b_origins (builder p))).1 = pr →
    0 ≤ (origin k (b_origins (builder p))).2 < Z.of_nat (row_len r) → is_Some (mapped k (b_mappings (builder p')));
  adv_kept k : (origin k (b_origins (builder p))).1 ≠ pr →
    mapped k (b_mappings (builder p')) = mapped k (b_mappings (builder p));
}.

(** The result of a row whose cells gave [b]. *)
Definition row_end (r : Row) (count : nat) (b : Builder) (p : progress) : progress :=
  let has_cells := bool_decide (0 < count)%nat in
  {| builder := if linebreak r && has_cells then finish_hard_line b else b;
     saw_row := true;
     last_linebreak := if has_cells then linebreak r else last_linebreak p;
     pending_empty_linebreaks :=
       if linebreak r && negb has_cells
       then S (if has_cells then 0 else pending_empty_linebreaks p)
       else if has_cells then 0 else pending_empty_linebreaks p |}%nat.

Lemma reflow_row_eq pr id r cw p :
  let count := cell_count pr r (b_origins (builder p)) in
  reflow_row pr id r cw p =
    (let? b := reflow_cells count 0 count r pr cw (row_start id (bool_decide (0 < count)%nat) p) in
     Ok (row_end r count b p)).
Proof. done. Qed.

Lemma reflow_row_ok pr id r cw p :
  built (builder p) → Z.of_nat (b_columns (builder p)) ≤ i32_max →
  ∃ p', reflow_row pr id r cw p = Ok p' ∧ advances id pr r p p'.
Proof.
  intros Hb Hw. rewrite reflow_row_eq. cbv zeta. set (count := cell_count _ _ _).
  set (h := bool_decide (0 < count)%nat).
  destruct (row_start_facts id h p Hb) as (Hb0 & Hg0 & Hw0 & Hm0 & Hr0 & _ & Hc0).
  destruct (reflow_cells_ok count 0 count r pr cw (row_start id h p)) as (b & -> & Hb1 & Hg1 & Hr1 & Hw1 & Hc1 & Hz1 & Hm1);
    [lia|unfold count, cell_count; lia|done|by rewrite (grows_columns _ _ Hg0)|].
  cbn [obind]. eexists. split; [done|]. unfold row_end. fold h.
  assert (grows b (if linebreak r && h then finish_hard_line b else b)) as Hg2.
  { destruct (linebreak r && h); [apply close_grows|apply grows_refl]. }
  assert (∀ k, mapped k (b_mappings (if linebreak r && h then finish_hard_line b else b)) = mapped k (b_mappings b)) as Hm2.
  { intros k. by destruct (linebreak r && h). }
  split; cbn [builder saw_row].
  - destruct (linebreak r && h); [by apply close_built|done].
  - eapply grows_trans; [exact Hg0|]. by eapply grows_trans.
  - done.
  - intros Hp Hwb. assert (wide b) by auto. destruct (linebreak r && h); [by apply close_wide|done].
  - unfold tidy. cbn [builder last_linebreak]. intros Ht. destruct (linebreak r) eqn:Hlb, h eqn:Hh; cbn [andb]; try done.
    all: assert (b = row_start id false p) as -> by (apply Hz1; unfold h in Hh; case_bool_decide; [done|lia]).
    all: by rewrite Hc0.
  - assert (b_row_mappings b = bt_insert (b_row_mappings (builder p)) id (row_count (builder p))) as Hr by congruence.
    by destruct (linebreak r && h).
  - intros k Hk Hr. rewrite Hm2. specialize (Hm1 k). rewrite (grows_origins _ _ Hg0) in Hm1. cbv zeta in Hm1.
    rewrite decide_True in Hm1; [done|]. split; [done|]. pose proof (tracker_past k pr _ Hk).
    unfold count, cell_count. lia.
  - intros k Hk. rewrite Hm2. specialize (Hm1 k). rewrite (grows_origins _ _ Hg0) in Hm1. cbv zeta in Hm1.
    rewrite decide_False in Hm1 by tauto. by rewrite Hm1, Hm0.
Qed.

(** ** Reflowing all rows *)

(** What is kept through the rows of the grid. *)
Record reflowed (indices : list Z) (g : Grid) (p p' : progress) : Prop := {
  rf_built : built (builder p');
  rf_grows : grows (builder p) (builder p');
  rf_saw : saw_row p = true ∨ Exists (λ i, is_Some (slot i g)) indices → saw_row p' = true;
  rf_wide : (∀ i r, i ∈ indices → slot i g = Some r → lone_padding (cells r)) →
    wide (builder p) → wide (builder p');
  rf_tidy : tidy p → tidy p';
  rf_kept k : (origin k (b_origins (builder p))).1 ∉ indices →
    mapped k (b_mappings (builder p')) = mapped k (b_mappings (builder p));
  rf_mapped k r : NoDup indices → (origin k (b_origins (builder p))).1 ∈ indices →
    slot (origin k (b_origins (builder p))).1 g = Some r →
    0 ≤ (origin k (b_origins (builder p))).2 < Z.of_nat (row_len r) → is_Some (mapped k (b_mappings (builder p')));
}.

Lemma reflow_rows_ok indices cw g p :
  built (builder p) → Z.of_nat (b_columns (builder p)) ≤ i32_max →
  ∃ p', reflow_rows indices cw g p = Ok p' ∧ reflowed indices g p p'.
Proof.
  revert p. induction indices as [|i indices IH]; intros p Hb Hw; cbn [reflow_rows].
  { exists p. split; [done|]. split; try done; [intros [?|?%Exists_nil]; done|].
    intros k r _ []%not_elem_of_nil. }
  destruct (slot i g) as [r|] eqn:Hi.
  2:{ destruct (IH p Hb Hw) as (p' & -> & []). exists p'. split; [done|]. split; try done.
      - intros [?|[[? Hx]|?]%Exists_cons]; [auto|congruence|auto].
      - intros Hp. apply rf_wide0. intros. eapply Hp; [|done]. by right.
      - intros k Hk. apply rf_kept0. by intros ?%(list_elem_of_further _ i).
      - intros k r Hnd [->|Hk]%elem_of_cons; [congruence|]. apply rf_mapped0; [by apply NoDup_cons in Hnd as [_ ?]|done]. }
  destruct (reflow_row_ok i (id_at i g) r cw p Hb Hw) as (p1 & -> & [A1 A2 A3 A4 A5 A6 A7 A8]). cbn [obind].
  destruct (IH p1) as (p' & -> & [B1 B2 B3 B4 B5 B6 B7]); [done|by rewrite (grows_columns _ _ A2)|].
  exists p'. split; [done|]. rewrite (grows_origins _ _ A2) in B6, B7. split.
  - done.
  - by eapply grows_trans.
  - intros _. auto.
  - intros Hp Hwb. apply B4; [|apply A4; [|done]].
    + intros. eapply Hp; [|done]. by right.
    + eapply Hp; [|done]. by left.
  - auto.
  - intros k [Hk Hk']%not_elem_of_cons. rewrite B6 by done. by apply A8.
  - intros k r' [Hni Hnd]%NoDup_cons [Heq|Hk]%elem_of_cons Hr' Hrange.
    + rewrite B6 by (by rewrite Heq). apply A7; [done|]. congruence.
    + by eapply B7.
Qed.

(** ** After the rows *)

Lemma finish_lines_ok p :
  built (builder p) →
  built (finish_lines p) ∧ grows (builder p) (finish_lines p) ∧ (wide (builder p) → wide (finish_lines p)) ∧
  b_mappings (finish_lines p) = b_mappings (builder p) ∧ b_current (finish_lines p) = [].
Proof.
  intros Hb. unfold finish_lines. case_bool_decide as Hc; cbn [negb].
  - destruct (saw_row p); cbn [negb].
    + split_and!; try done.
    + split_and!; try done; [by apply close_built|apply close_grows|by apply close_wide].
  - split_and!; try done; [by apply close_built|apply close_grows|by apply close_wide].
Qed.

(** A closed builder maps into its rows. *)
Lemma closed_mapped b k s :
  built b → b_current b = [] → mapped k (b_mappings b) = Some s →
  0 ≤ s.1 < row_count b ∧ 0 ≤ s.2 < Z.of_nat (b_columns b) ∧
  ∃ r, b_rows b !! Z.to_nat s.1 = Some r ∧ is_Some (cells r !! Z.to_nat s.2).
Proof.
  intros Hb Hc Hm. destruct (built_mapped _ Hb k s Hm) as (H1 & H2 & c & Hat).
  destruct (lt_eq_lt_dec (Z.to_nat s.1) (length (b_rows b))) as [[H|H]|H].
  - rewrite cell_at_rows in Hat by done. apply bind_Some in Hat as (r & Hr & Hx).
    pose proof (proj1 (Forall_lookup _ _) (built_rows _ Hb) _ _ Hr) as Hl. simpl in Hl. unfold row_len in Hl.
    pose proof (lookup_lt_Some _ _ _ Hx). unfold row_count. split_and!; [lia..|]. exists r. split; [done|]. by exists c.
  - rewrite cell_at_current, Hc in Hat by done. done.
  - by rewrite cell_at_beyond in Hat.
Qed.

(** Rows beyond the capacity are dropped from the oldest. *)
Lemma trim_rows_ok capacity b :
  built b → b_current b = [] → 0 < capacity →
  let t := (length (b_rows b) - Z.to_nat capacity)%nat in
  let b' := trim_rows capacity b in
  b_rows b' = drop t (b_rows b) ∧ row_count b' = Z.min (row_count b) capacity ∧
  ∀ k s, mapped k (b_mappings b') = Some s ↔ 0 ≤ s.1 ∧ mapped k (b_mappings b) = Some (s.1 + Z.of_nat t, s.2).
Proof.
  intros Hb Hc Hcap. cbv zeta. unfold trim_rows, saturating_sub, row_count.
  destruct (Z.ltb_spec 0 (Z.max 0 (Z.of_nat (length (b_rows b)) - capacity))) as [Ht|Ht].
  - cbn [b_rows b_mappings]. split_and!; [f_equal; lia|rewrite length_drop; lia|].
    intros k s. set (t := Z.max _ _) in *.
    assert (mapped k {| mapped_cursor := adjust_mapping (mapped_cursor (b_mappings b)) t;
      mapped_saved_cursor := adjust_mapping (mapped_saved_cursor (b_mappings b)) t;
      mapped_view := adjust_mapping (mapped_view (b_mappings b)) t |} = adjust_mapping (mapped k (b_mappings b)) t) as ->
      by by destruct k.
    replace (Z.of_nat (length (b_rows b) - Z.to_nat capacity)) with t by (unfold t; lia).
    destruct s as [x y]. cbn [fst snd]. unfold adjust_mapping. destruct (mapped k (b_mappings b)) as [[u v]|]; [|naive_solver].
    destruct (Z.leb_spec t u); split; intros H'; simplify_eq; try (destruct H'; simplify_eq); try lia.
    + split; [lia|]. do 2 f_equal. lia.
    + do 2 f_equal. lia.
  - replace (length (b_rows b) - Z.to_nat capacity)%nat with 0%nat by lia. rewrite drop_0. split_and!; [done|lia|].
    intros k [x y]. cbn [fst snd]. rewrite Z.add_0_r. split; [|tauto]. intros Hm. split; [|done].
    by destruct (closed_mapped b k _ Hb Hc Hm) as [[? _] _].
Qed.

(** ** The ring the rows are installed in *)

Lemma install_rows_eq rs g :
  (length rs ≤ length (rows g))%nat →
  install_rows rs g = set_rows ((Some <$> rs) ++ drop (length rs) (rows g)) g.
Proof.
  induction rs as [|r rs IH] using rev_ind; intros Hl; [by destruct g|].
  rewrite length_app in Hl. cbn [length] in Hl. unfold install_rows in *.
  rewrite imap_app, foldl_app, IH by lia. cbn [imap foldl]. rewrite Nat.add_0_r.
  unfold set_slot. cbn [rows set_rows]. rewrite Nat2Z.id, fmap_app, <-app_assoc, length_app. cbn [fmap list_fmap length].
  destruct (lookup_lt_is_Some_2 (rows g) (length rs)) as [x Hx]; [lia|].
  rewrite (drop_S _ _ _ Hx), insert_app_r_alt by (rewrite length_fmap; lia).
  rewrite length_fmap, Nat.sub_diag, Nat.add_1_r. done.
Qed.

(** Filling the unallocated slots of some rows. *)
Lemma allocate_rows_spec (width : Z) ns g :
  shape g →
  ∃ xs, length xs = length (rows g) ∧
    foldl (λ g relative, let index := absolute_index relative g in
      if bool_decide (slot index g = None) then set_slot index (Some (Row_new (Z.to_nat width))) g else g) g ns =
      set_rows xs g ∧
    ∀ j, 0 ≤ j < row_capacity g → slot j (set_rows xs g) =
      match slot j g with
      | Some r => Some r
      | None => if decide (j ∈ (λ r, absolute_index r g) <$> ns) then Some (Row_new (Z.to_nat width)) else None
      end.
Proof.
  revert g. induction ns as [|n ns IH]; intros g Hs.
  { exists (rows g). cbn [foldl]. split_and!; [done|by destruct g|]. intros j _.
    rewrite decide_False by apply not_elem_of_nil. assert (set_rows (rows g) g = g) as -> by by destruct g. by destruct (slot j g). }
  cbn [foldl]. cbv zeta. set (i := absolute_index n g).
  set (g1 := if bool_decide (slot i g = None) then set_slot i (Some (Row_new (Z.to_nat width))) g else g).
  assert (∃ ys, length ys = length (rows g) ∧ g1 = set_rows ys g) as (ys & Hly & Hg1).
  { unfold g1. case_bool_decide; [|exists (rows g); by destruct g]. eexists. split; [|done]. by rewrite length_insert. }
  assert (shape g1) as Hs1.
  { rewrite Hg1. destruct Hs. split; unfold row_capacity in *; simpl; rewrite ?Hly; done. }
  assert (∀ r, absolute_index r g1 = absolute_index r g) as Hidx.
  { intros r. rewrite Hg1. unfold absolute_index, masked, row_capacity. simpl. by rewrite Hly. }
  destruct (IH g1 Hs1) as (xs & Hlx & Heq & Hxs). exists xs.
  assert (set_rows xs g1 = set_rows xs g) as Hset by (rewrite Hg1; done).
  assert (length (rows g1) = length (rows g)) as Hl1 by (by rewrite Hg1).
  split_and!; [congruence|by rewrite <-Hset|]. intros j Hj. rewrite <-Hset.
  rewrite Hxs by (unfold row_capacity in *; lia).
  assert (slot j g1 = match slot j g with Some r => Some r
    | None => if decide (j = i) then Some (Row_new (Z.to_nat width)) else None end) as Hslot.
  { pose proof (index_range g Hs n) as Hi. fold i in Hi. unfold g1. case_bool_decide as Hn.
    - unfold slot at 1. simpl. unfold row_capacity in Hi, Hj. destruct (decide (j = i)) as [->|Hne].
      + rewrite list_lookup_insert by lia. rewrite decide_True by lia. by rewrite Hn.
      + rewrite list_lookup_insert_ne by lia. change (slot j g = match slot j g with Some r => Some r | None => None end).
        by destruct (slot j g).
    - destruct (slot j g) eqn:Hjs; [done|]. rewrite decide_False; [done|]. intros ->. by destruct Hn. }
  rewrite Hslot. destruct (slot j g) as [r|]; [done|]. rewrite fmap_cons. fold i.
  assert (((λ r, absolute_index r g1) <$> ns) = (λ r, absolute_index r g) <$> ns) as ->.
  { apply list_fmap_ext. intros ? ? _. apply Hidx. }
  destruct (decide (j = i)) as [->|Hne].
  - by rewrite decide_True by (by left).
  - set (js := (λ r, absolute_index r g) <$> ns). destruct (decide (j ∈ js)) as [Hin|Hin].
    + by rewrite decide_True by (by right).
    + by rewrite decide_False by (by intros [?|?]%elem_of_cons).
Qed.

(** Slot [j] of a ring of [capacity] slots holding [rs] and, when they do not
    fill a screen of [n] rows, blank rows before them. *)
Definition ring_slot (capacity width n : Z) (rs : list Row) (j : Z) : option Row :=
  match rs !! Z.to_nat j with
  | Some r => Some r
  | None => if capacity - (n - Z.of_nat (length rs)) <=? j then Some (Row_new (Z.to_nat width)) else None
  end.

Definition ring_offset (capacity n out : Z) : Z := if n <=? out then out - n else capacity - (n - out).

Section ring.
Context (capacity width n : Z) (b : Builder) (Hd : dimensions_ok capacity width n).
Context (Hout : row_count b ≤ capacity) (Hlen : Forall (λ r, row_len r = Z.to_nat width) (b_rows b)).

(** The ring before the view is placed. *)
Definition ring_base : Grid :=
  allocate_screen width (put_offset (ring_offset capacity n (row_count b))
    (install_rows (b_rows b) (set_screen_rows n (empty_grid capacity width 1)))).

Lemma ring_base_spec :
  shape ring_base ∧ row_capacity ring_base = capacity ∧ columns ring_base = width ∧ screen_rows ring_base = n ∧
  offset ring_base = ring_offset capacity n (row_count b) ∧ row_ids ring_base = replicate (Z.to_nat capacity) 0 ∧
  ∀ j, 0 ≤ j < capacity → slot j ring_base = ring_slot capacity width n (b_rows b) j.
Proof using Hd Hout.
  pose proof Hd as (Hp & Hc & Hw & Hn). unfold row_count in Hout.
  change (set_screen_rows n (empty_grid capacity width 1)) with (empty_grid capacity width n) in *.
  set (g0 := put_offset (ring_offset capacity n (row_count b)) (install_rows (b_rows b) (empty_grid capacity width n))).
  assert (0 ≤ ring_offset capacity n (row_count b) < capacity) as Hoff.
  { unfold ring_offset, row_count. case_match eqn:E; [apply Z.leb_le in E|apply Z.leb_gt in E]; lia. }
  assert (g0 = put_offset (ring_offset capacity n (row_count b))
    (set_rows ((Some <$> b_rows b) ++ replicate (Z.to_nat capacity - length (b_rows b)) None) (empty_grid capacity width n))) as Hg0.
  { unfold g0. rewrite install_rows_eq by (simpl; rewrite length_replicate; lia). simpl. by rewrite drop_replicate. }
  assert (row_capacity g0 = capacity) as HC.
  { rewrite Hg0. unfold row_capacity. simpl. rewrite length_app, length_fmap, length_replicate. lia. }
  assert (shape g0) as Hs0.
  { split; rewrite ?HC, ?Hg0; simpl; try done; [|lia].
    rewrite length_app, length_fmap, !length_replicate. lia. }
  destruct (allocate_rows_spec width (range 0 n) g0 Hs0) as (xs & Hlx & Heq & Hxs).
  assert (ring_base = set_rows xs g0) as Hrb.
  { unfold ring_base, allocate_screen. change (set_screen_rows n (empty_grid capacity width 1)) with (empty_grid capacity width n).
    fold g0. rewrite <-Heq. f_equal. rewrite Hg0. done. }
  rewrite Hrb. split_and!.
  - destruct Hs0. split; unfold row_capacity in *; cbn [rows set_rows]; rewrite ?Hlx; done.
  - unfold row_capacity in *. cbn [rows set_rows]. by rewrite Hlx.
  - by rewrite Hg0.
  - by rewrite Hg0.
  - by rewrite Hg0.
  - by rewrite Hg0.
  - intros j Hj. rewrite Hxs by (by rewrite HC). unfold ring_slot.
    assert (slot j g0 = b_rows b !! Z.to_nat j) as ->.
    { rewrite Hg0. unfold slot. simpl. destruct (b_rows b !! Z.to_nat j) as [r|] eqn:Hr.
      - rewrite lookup_app_l by (rewrite length_fmap; by eapply lookup_lt_Some). by rewrite list_lookup_fmap, Hr.
      - apply lookup_ge_None in Hr. rewrite lookup_app_r by (by rewrite length_fmap).
        rewrite length_fmap, lookup_replicate_2 by lia. done. }
    destruct (b_rows b !! Z.to_nat j) as [r|] eqn:Hr; [done|]. apply lookup_ge_None in Hr.
    assert (absolute_index (j - ring_offset capacity n (row_count b)) g0 = j) as Hinv.
    { pose proof (index_of_slot g0 Hs0 j) as H. rewrite HC in H. rewrite <-(H Hj) at 2. by rewrite Hg0. }
    assert (offset g0 = ring_offset capacity n (row_count b)) as Ho by by rewrite Hg0.
    unfold range. rewrite Z.sub_0_r.
    destruct (Z.leb_spec (capacity - (n - Z.of_nat (length (b_rows b)))) j) as [Hge|Hlt].
    + rewrite decide_True; [done|]. apply list_elem_of_fmap. exists (j - ring_offset capacity n (row_count b)). split; [done|].
      apply elem_of_seqZ. unfold ring_offset, row_count. rewrite (proj2 (Z.leb_gt _ _)) by lia. lia.
    + rewrite decide_False; [done|]. intros (r & -> & Hrr%elem_of_seqZ)%list_elem_of_fmap.
      unfold absolute_index in Hr, Hlt, Hj. rewrite masked_mod, HC, Ho in * by done.
      unfold ring_offset, row_count in *. destruct (Z.leb_spec n (Z.of_nat (length (b_rows b)))).
      * rewrite Z.mod_small in * by lia. lia.
      * destruct (decide (r < n - Z.of_nat (length (b_rows b)))).
        -- rewrite Z.mod_small in * by lia. lia.
        -- rewrite (Z.mod_eq _ capacity) in Hr by lia.
           assert ((capacity - (n - Z.of_nat (length (b_rows b))) + r) `div` capacity = 1) as Hq.
           { symmetry. apply Z.div_unique with (r - (n - Z.of_nat (length (b_rows b)))); lia. }
           rewrite Hq in Hr. lia.
Qed.

Lemma ring_base_screen r : 0 ≤ r < n → is_Some (slot (absolute_index r ring_base) ring_base).
Proof using Hd Hout.
  intros Hr. destruct ring_base_spec as (Rs & RC & _ & _ & Ro & _ & Rslot). pose proof Hd as (_ & Hc & _ & Hn).
  pose proof (index_range ring_base Rs r) as Hi. rewrite RC in Hi. rewrite Rslot by done.
  unfold ring_slot. unfold absolute_index in *. rewrite masked_mod, RC, Ro in * by done.
  destruct (b_rows b !! _) as [x|] eqn:Hx; [done|]. apply lookup_ge_None in Hx.
  unfold ring_offset, row_count in *. revert Hx. destruct (Z.leb_spec n (Z.of_nat (length (b_rows b)))); intros Hx.
  - rewrite Z.mod_small in Hx by lia. lia.
  - destruct (decide (r < n - Z.of_nat (length (b_rows b)))).
    + rewrite Z.mod_small by lia. by rewrite (proj2 (Z.leb_le _ _)) by lia.
    + replace (capacity - (n - Z.of_nat (length (b_rows b))) + r)
        with (r - (n - Z.of_nat (length (b_rows b))) + 1 * capacity) in Hx by lia.
      rewrite Z_mod_plus_full, Z.mod_small in Hx by lia. lia.
Qed.

Lemma ring_base_width i r : 0 ≤ i < capacity → slot i ring_base = Some r → row_len r = Z.to_nat width.
Proof using Hd Hout Hlen.
  intros Hi. destruct ring_base_spec as (_ & _ & _ & _ & _ & _ & Rslot). rewrite Rslot by done. unfold ring_slot.
  destruct (b_rows b !! Z.to_nat i) as [x|] eqn:Hx.
  - intros [= <-]. exact (proj1 (Forall_lookup _ _) Hlen _ _ Hx).
  - case_match; [|done]. intros [= <-]. unfold row_len, Row_new. simpl. by rewrite length_fmap, length_replicate.
Qed.

(** The view is put back into the part of the ring that holds rows. *)
Lemma reflowed_ring_ok following :
  (∀ s, mapped_view (b_mappings b) = Some s → 0 ≤ s.1 < capacity) →
  ∃ v, 0 ≤ v < capacity ∧ (following = true → v = offset ring_base) ∧
    reflowed_ring capacity width n following b (empty_grid capacity width 1) = Ok (put_view v ring_base).
Proof using Hd Hout.
  intros Hview. destruct ring_base_spec as (Hs & HC & Hcol & Hn & Ho & _ & _).
  pose proof (shape_offset _ Hs) as Hor. rewrite HC in Hor. pose proof Hd as (Hp & Hc & Hw & Hnn).
  unfold reflowed_ring. fold (ring_offset capacity n (row_count b)). fold ring_base.
  set (v := if following then _ else _).
  assert (0 ≤ v < capacity) as Hv.
  { unfold v. destruct following; [done|]. destruct (mapped_view (b_mappings b)) as [[x y]|] eqn:Hm; [|done].
    apply (Hview (x, y)). done. }
  unfold absolute_to_scrollback, assert_coordinate_inputs.
  change (row_capacity (put_view v ring_base)) with (row_capacity ring_base). rewrite HC.
  cbn [view put_view]. rewrite !(proj2 (Z.leb_le _ _)), (proj2 (Z.ltb_lt _ _)) by lia. cbn [andb obind].
  change (masked (v - scrollback_start n (put_view v ring_base)) (put_view v ring_base)) with
    (masked (v - scrollback_start n ring_base) ring_base).
  destruct (Z.ltb_spec (capacity - n) (masked (v - scrollback_start n ring_base) ring_base)) as [Hlt|Hge].
  - unfold scrollback_to_absolute, assert_coordinate_inputs.
    change (row_capacity (put_view v ring_base)) with (row_capacity ring_base). rewrite HC.
    rewrite !(proj2 (Z.leb_le _ _)), (proj2 (Z.ltb_lt _ _)) by lia. cbn [andb obind].
    eexists. split_and!; [| | |done].
    1,2: rewrite <-HC; apply (masked_range (put_view v ring_base)); by apply shape_put_view; rewrite ?HC.
    intros ->. exfalso. unfold v, scrollback_start in Hlt. rewrite !masked_mod, HC in Hlt by done.
    rewrite Zminus_mod_idemp_r in Hlt. replace (offset ring_base - (offset ring_base + n)) with (- n) in Hlt by lia.
    destruct (decide (n = capacity)) as [->|Hne].
    + rewrite Z.mod_opp_l_z in Hlt; [lia|lia|apply Z.mod_same; lia].
    + rewrite Z.mod_opp_l_nz in Hlt by (rewrite ?Z.mod_small; lia). rewrite Z.mod_small in Hlt by lia. lia.
  - exists v. split_and!; [lia|lia|intros Hf; unfold v; by rewrite Hf|done].
Qed.
End ring.

(** ** Cursors *)

Lemma remap_cursor_runs {S} c m off capacity width n (Q : Cursor → S → Prop) s :
  dimensions_ok capacity width n → (∀ x, m = Some x → 0 ≤ x.2) →
  (∀ c', 0 ≤ coord_column (position c') < width ∧ 0 ≤ coord_row (position c') < n →
     (∀ x y, m = Some (x, y) → y < width → (x - off) mod capacity < n →
        let unwrap := deferred_wrap c && (y + 1 <? width) in
        deferred_wrap c' = deferred_wrap c && negb unwrap ∧
        position c' = {| coord_column := if unwrap then y + 1 else y; coord_row := (x - off) mod capacity |}) → Q c' s) →
  runs (remap_cursor c m off capacity width n) Q s.
Proof.
  intros (Hp & Hc & Hw & Hn) Hm HQ. unfold remap_cursor.
  destruct (default (off, 0) m) as [x y] eqn:Hd.
  assert (0 ≤ y) as Hy.
  { destruct m as [[u v]|]; simpl in Hd; simplify_eq; [by apply (Hm (x, y))|done]. }
  set (row := Z.min (Z.land (wrap64 (x - off)) (capacity - 1)) (n - 1)).
  assert (0 ≤ row < n) as Hr.
  { unfold row. rewrite wrap64_land_mask by (done || lia). pose proof (Z.mod_pos_bound (x - off) capacity). lia. }
  set (unwrap := deferred_wrap c && _). set (col := if unwrap then _ else _).
  assert (0 ≤ col < width) as Hcol.
  { unfold col, unwrap. destruct (deferred_wrap c); cbn [andb]; [|lia].
    destruct (Z.ltb_spec (Z.min y (width - 1) + 1) width); lia. }
  apply runs_bind, signed_runs; [lia|]. apply runs_bind, signed_runs; [unfold i32_max; lia|]. apply runs_ret.
  apply HQ; [done|]. intros x' y' -> Hy' Hx'. simpl in Hd. simplify_eq. cbv zeta.
  assert (Z.min y (width - 1) = y) as Emin by lia. unfold col, unwrap. rewrite Emin. split.
  - destruct c as [p [|]]; cbn; [|done]. by destruct (y + 1 <? width).
  - simpl. f_equal. unfold row. rewrite wrap64_land_mask by (done || lia). lia.
Qed.

(** ** The rows of the result in chronological order *)

Definition retained (g : Grid) : list Row :=
  omap (λ i, slot i g) (chronological (screen_rows g) (row_capacity g) g).

Lemma omap_none {A B} (f : A → option B) (l : list A) : (∀ x, x ∈ l → f x = None) → omap f l = [].
Proof.
  induction l as [|x l IH]; intros H; [done|]. simpl. rewrite H by (by left). apply IH. intros. apply H. by right.
Qed.

Lemma omap_const {A B} (f : A → option B) y (l : list A) : (∀ x, x ∈ l → f x = Some y) → omap f l = replicate (length l) y.
Proof.
  induction l as [|x l IH]; intros H; [done|]. simpl. rewrite H by (by left). f_equal. apply IH. intros. apply H. by right.
Qed.

Lemma omap_eq {A B} (f h : A → option B) (l : list A) : (∀ x, x ∈ l → f x = h x) → omap f l = omap h l.
Proof.
  induction l as [|x l IH]; intros H; [done|]. simpl. rewrite H by (by left).
  assert (omap f l = omap h l) by (apply IH; intros; apply H; by right). destruct (h x); [by f_equal|done].
Qed.

Lemma omap_fmap {A B C} (f : B → option C) (h : A → B) (l : list A) : omap f (h <$> l) = omap (λ x, f (h x)) l.
Proof. induction l as [|x l IH]; [done|]. simpl. destruct (f (h x)); [by f_equal|done]. Qed.

Lemma omap_lookup {A} (l : list A) : omap (λ j : Z, l !! Z.to_nat j) (seqZ 0 (Z.of_nat (length l))) = l.
Proof.
  induction l as [|x l IH] using rev_ind; [done|]. rewrite length_app, Nat.add_1_r, seqZ_S, omap_app.
  f_equal.
  - etrans; [|exact IH]. apply omap_eq. intros j Hj%elem_of_seqZ. by rewrite lookup_app_l by lia.
  - cbn [omap list_omap]. by rewrite Z.add_0_l, Nat2Z.id, lookup_app_r, Nat.sub_diag by lia.
Qed.

Lemma retained_ring g width rs :
  shape g → (length rs ≤ length (rows g))%nat →
  offset g = ring_offset (row_capacity g) (screen_rows g) (Z.of_nat (length rs)) →
  (∀ j, 0 ≤ j < row_capacity g → slot j g = ring_slot (row_capacity g) width (screen_rows g) rs j) →
  retained g = replicate (Z.to_nat (screen_rows g) - length rs) (Row_new (Z.to_nat width)) ++ rs.
Proof.
  intros Hs Hl Ho Hsl. pose proof (shape_screen _ Hs) as Hn. set (C := row_capacity g) in *.
  set (n := screen_rows g) in *. set (k := Z.of_nat (length rs)) in *.
  assert (0 ≤ k ≤ C) as Hk by (unfold k, C, row_capacity; lia).
  assert (∀ d, 0 ≤ d < C → masked (scrollback_start n g + d) g = (k + d) mod C) as Hix.
  { intros d Hd. unfold scrollback_start. rewrite !masked_mod by done. fold C. rewrite Zplus_mod_idemp_l.
    rewrite Ho. unfold ring_offset. case_match; [f_equal; lia|].
    replace (C - (n - k) + n + d) with (k + d + 1 * C) by lia. by rewrite Z_mod_plus_full. }
  unfold retained, chronological. fold n C. rewrite omap_fmap. unfold range. rewrite Z.sub_0_r.
  replace C with (C - k + k) at 1 by lia. rewrite seqZ_app, omap_app by lia. f_equal.
  - set (pad := Z.max 0 (n - k)). replace (C - k) with (C - k - pad + pad) by lia.
    rewrite seqZ_app, omap_app by lia. rewrite (omap_none _ (seqZ 0 _)).
    + rewrite (omap_const _ (Row_new (Z.to_nat width))); [rewrite length_seqZ; simpl; f_equal; lia|].
      intros d Hd%elem_of_seqZ. rewrite Hix by lia. rewrite Z.mod_small by lia. rewrite Hsl by lia. unfold ring_slot.
      rewrite (proj2 (lookup_ge_None _ _)) by lia. fold k. by rewrite (proj2 (Z.leb_le _ _)) by lia.
    + intros d Hd%elem_of_seqZ. rewrite Hix by lia. rewrite Z.mod_small by lia. rewrite Hsl by lia. unfold ring_slot.
      rewrite (proj2 (lookup_ge_None _ _)) by lia. fold k. by rewrite (proj2 (Z.leb_gt _ _)) by lia.
  - etrans; [|apply (omap_lookup rs)]. fold k. rewrite Z.add_0_l.
    replace (seqZ (C - k) k) with (Z.add (C - k) <$> seqZ 0 k) by (rewrite fmap_add_seqZ; f_equal; lia).
    rewrite omap_fmap. apply omap_eq. intros d Hd%elem_of_seqZ. rewrite Hix by lia.
    replace (k + (C - k + d)) with (d + 1 * C) by lia. rewrite Z_mod_plus_full, Z.mod_small by lia.
    rewrite Hsl by lia. unfold ring_slot. destruct (lookup_lt_is_Some_2 rs (Z.to_nat d)) as [x ->]; [lia|done].
Qed.

(** ** The resize *)

Definition start_of (width : Z) (g : Grid) : progress :=
  let at_ c := (absolute_index (coord_row (position c)) g, coord_column (position c)) in
  {| builder := Builder_new (Z.to_nat width)
       {| origin_cursor := at_ (cursor g); origin_saved_cursor := at_ (saved_cursor g);
          origin_view := (view g, 0) |};
     saw_row := false; last_linebreak := true; pending_empty_linebreaks := 0 |}.

(** The rows built from a grid, before the oldest are dropped. *)
Definition lines_of (width : Z) (cw : Z → Z) (g : Grid) : outcome unfinished Builder :=
  map_ok finish_lines
    (reflow_rows (chronological (screen_rows g) (row_capacity g) g) cw g (start_of width g)).

Lemma start_built width g : 0 < width → built (builder (start_of width g)) ∧ wide (builder (start_of width g)).
Proof.
  intros Hw. split; [split; simpl; [lia|constructor|lia|intros k s; by destruct k]|split; constructor].
Qed.

Lemma origin_of_ok c g : cursor_fits c g = true →
  origin_of c g = Ok (absolute_index (coord_row (position c)) g, coord_column (position c)).
Proof.
  intros [Hc Hr]%cursor_fits_iff. unfold origin_of. by rewrite !(proj2 (Z.leb_le _ _)) by lia.
Qed.

(** Everything a reflow builds, from a grid that satisfies its invariant. *)
Record lines_spec (width : Z) (cw : Z → Z) (g : Grid) (b : Builder) : Prop := {
  ln_built : built b;
  ln_columns : b_columns b = Z.to_nat width;
  ln_current : b_current b = [];
  ln_wide : (∀ i r, 0 ≤ i < row_capacity g → slot i g = Some r → lone_padding (cells r)) → wide b;
  ln_cursor : is_Some (mapped AtCursor (b_mappings b));
  ln_saved : is_Some (mapped AtSavedCursor (b_mappings b));
}.

Lemma chronological_range g i :
  shape g → i ∈ chronological (screen_rows g) (row_capacity g) g → 0 ≤ i < row_capacity g.
Proof. intros Hs [k [-> _]%chronological_lookup]%list_elem_of_lookup; [by apply index_range|done]. Qed.

Lemma screen_slot g r :
  grid_ok g → 0 ≤ r < screen_rows g →
  ∃ x, slot (absolute_index r g) g = Some x ∧ Z.of_nat (row_len x) = columns g.
Proof.
  intros Hok Hr. destruct (ok_screen _ Hok r Hr) as [x Hx]. exists x. split; [exact Hx|].
  pose proof (slots_each _ (ok_slots _ Hok) (absolute_index r g) (index_range g (ok_shape _ Hok) r)) as Hsl.
  unfold phys, slot_ok in Hsl. change (slot (absolute_index r g) g = Some x) in Hx. rewrite Hx in Hsl. apply Hsl.
Qed.

Lemma lines_of_ok width cw g :
  grid_ok g → 0 < width ≤ i32_max → ∃ b, lines_of width cw g = Ok b ∧ lines_spec width cw g b.
Proof.
  intros Hok Hw. pose proof (ok_shape _ Hok) as Hs. destruct (start_built width g) as [Hb Hwd]; [lia|].
  set (xs := chronological (screen_rows g) (row_capacity g) g).
  destruct (reflow_rows_ok xs cw g (start_of width g)) as (p & Hp & [P1 P2 P3 P4 P5 P6 P7]); [done|simpl; lia|].
  destruct (finish_lines_ok p P1) as (F1 & F2 & F3 & F4 & F5).
  unfold lines_of. fold xs. rewrite Hp. exists (finish_lines p). split; [done|].
  assert (NoDup xs) as Hnd by (by apply chronological_NoDup).
  assert (∀ k c, (k = AtCursor ∧ c = cursor g ∨ k = AtSavedCursor ∧ c = saved_cursor g) → cursor_fits c g = true →
    is_Some (mapped k (b_mappings (finish_lines p)))) as Hmap.
  { intros k c Hk [Hcol Hrow]%cursor_fits_iff. rewrite F4.
    destruct (screen_slot g _ Hok Hrow) as (x & Hx & Hlen).
    destruct Hk as [[-> ->]|[-> ->]]; apply (P7 _ x); try done; simpl; try (by rewrite Hlen).
    all: apply chronological_all; [done|]; by apply index_range. }
  split; try done.
  - rewrite (grows_columns _ _ F2), (grows_columns _ _ P2). done.
  - intros Hp'. apply F3, P4; [|done]. intros i r Hi. apply Hp'. by apply chronological_range.
  - apply (Hmap _ (cursor g)); [auto|apply Hok].
  - apply (Hmap _ (saved_cursor g)); [auto|apply Hok].
Qed.

(** Where a tracked cursor is on the new screen: on the cell its row and column
    went to, when that row is on the screen; after that cell, when a wrap was
    pending and there is a column after it now. *)
Definition cursor_placed (c c' : Cursor) (m : option spot) (g' : Grid) : Prop :=
  ∀ x y, m = Some (x, y) → y < columns g' → (x - offset g') mod row_capacity g' < screen_rows g' →
    let unwrap := deferred_wrap c && (y + 1 <? columns g') in
    deferred_wrap c' = deferred_wrap c && negb unwrap ∧
    position c' = {| coord_column := if unwrap then y + 1 else y; coord_row := (x - offset g') mod row_capacity g' |}.

Record resized (capacity width n : Z) (b : Builder) (g g' : Grid) : Prop := {
  rz_ok : grid_ok g';
  rz_capacity : row_capacity g' = capacity;
  rz_columns : columns g' = width;
  rz_screen : screen_rows g' = n;
  rz_offset : offset g' = ring_offset capacity n (row_count b);
  rz_view : view_follows_offset g = true → view_follows_offset g' = true;
  rz_slots j : 0 ≤ j < capacity → slot j g' = ring_slot capacity width n (b_rows b) j;
  rz_cursor : cursor_placed (cursor g) (cursor g') (mapped AtCursor (b_mappings b)) g';
  rz_saved : cursor_placed (saved_cursor g) (saved_cursor g') (mapped AtSavedCursor (b_mappings b)) g';
  rz_fresh r : is_Some (row r g') → next_row_id g ≤ (place r g').2;
  rz_raises : raises (2 ^ 30) g g';
}.

Lemma resize_with_reflow_runs capacity width n cw g :
  grid_ok g → roomy g → dimensions_ok capacity width n →
  ∃ b, lines_of width cw g = Ok b ∧ lines_spec width cw g b ∧
  let b' := trim_rows capacity b in
  runs (resize_with_reflow capacity width n cw) (λ mapping g',
    resized capacity width n b' g g' ∧ mapping = map_row_ids (row_count b') n (b_row_mappings b') g') g.
Proof.
  intros Hok Hroom Hd. pose proof (ok_shape _ Hok) as Hs. pose proof Hd as (Hp & Hc & Hw & Hn).
  pose proof (roomy_generation _ Hroom) as (Hg & _ & Hh). pose proof (room_next _ Hroom).
  destruct (lines_of_ok width cw g Hok Hw) as (b & Hlines & Hspec). exists b. split; [done|]. split; [done|]. cbv zeta.
  pose proof Hspec as [Hb Hcols Hcur _ _ _]. set (b' := trim_rows capacity b).
  destruct (trim_rows_ok capacity b Hb Hcur) as (Hrows & Hcount & Htrim); [lia|]. fold b' in Hrows, Hcount, Htrim.
  assert (Forall (λ r, row_len r = Z.to_nat width) (b_rows b')) as Hlen.
  { rewrite Hrows. apply Forall_drop. rewrite <-Hcols. apply Hb. }
  assert (∀ k s, mapped k (b_mappings b') = Some s → 0 ≤ s.1 < capacity ∧ 0 ≤ s.2) as Hmapped.
  { intros k s [H1 H2]%Htrim. destruct (closed_mapped b k _ Hb Hcur H2) as (H3 & H4 & _). cbn [fst snd] in *.
    unfold row_count in *. lia. }
  assert (row_count b' ≤ capacity) as Hout by lia.
  destruct (reflowed_ring_ok capacity width n b' Hd Hout (view_follows_offset g)) as (v & Hv & Hfollow & Hring).
  { intros s Hs'. by apply (Hmapped AtView). }
  destruct (ring_base_spec capacity width n b' Hd Hout) as (Rs & RC & Rcol & Rn & Ro & Rids & Rslot).
  set (ring := ring_base capacity width n b') in *.
  unfold resize_with_reflow. apply runs_bind. eapply runs_lift; [by apply (Grid_new_ok _ _ n)|].
  apply runs_bind. unfold on at 1, assert_screen_rows. eapply runs_lift.
  { unfold bind, get, assert_. rewrite empty_capacity by lia. rewrite !(proj2 (Z.leb_le _ _)) by lia. done. }
  cbv beta iota zeta. apply runs_bind, runs_get.
  apply runs_bind. eapply runs_lift; [by apply origin_of_ok, Hok|].
  apply runs_bind. eapply runs_lift; [by apply origin_of_ok, Hok|]. fold (start_of width g).
  unfold lines_of in Hlines. destruct (reflow_rows _ cw g (start_of width g)) as [p| |] eqn:Hrr; [|done..].
  cbv beta iota delta [map_ok obind] in Hlines. injection Hlines as Hfin.
  apply runs_bind. eapply runs_lift; [done|]. rewrite Hfin. fold b'.
  apply runs_bind. eapply runs_lift; [exact Hring|].
  apply runs_bind. apply remap_cursor_runs; [done|intros x Hx; by apply (Hmapped AtCursor)|]. intros c1 Hc1 Hc1'.
  apply runs_bind. apply remap_cursor_runs; [done|intros x Hx; by apply (Hmapped AtSavedCursor)|]. intros c2 Hc2 Hc2'.
  apply runs_bind, (runs_expect _ (generation g + 1)).
  { unfold checked_add64. by rewrite (proj2 (Z.leb_le _ _)) by lia. }
  apply runs_bind, (runs_expect _ (history_generation g + 1)).
  { unfold checked_add64. by rewrite (proj2 (Z.leb_le _ _)) by lia. }
  set (draft := set_history_generation _ _).
  assert (shape draft) as Ds.
  { destruct Rs. split; try done. change (0 ≤ v < row_capacity ring). by rewrite RC. }
  assert (unidentified draft) as Dun.
  { split.
    - change (row_capacity draft) with (row_capacity ring). change (columns draft) with (columns ring).
      rewrite RC, Rcol. intros i r Hi Hr. rewrite (ring_base_width capacity width n b' Hd Hout Hlen i r Hi Hr). lia.
    - intros i _ _. unfold id_at. change (row_ids draft) with (row_ids ring). rewrite Rids.
      destruct (_ !! _) as [x|] eqn:Hx; [|done]. by apply lookup_replicate_1 in Hx as [-> _].
    - apply (slots_next _ (ok_slots _ Hok)). }
  destruct (renew_all draft) as ([] & g' & Hrun & Hf' & Hrows' & Hgen' & Hsl & Hnext' & Hfresh & Hsort);
    [done|done|change (next_row_id g + row_capacity ring ≤ u64_max); rewrite RC; lia|].
  apply runs_bind. eapply runs_lift; [unfold on; by rewrite Hrun|]. apply runs_bind, runs_put, runs_ret.
  split; [|done].
  assert (∀ j, slot j g' = slot j ring) as Gslot by (intros j; unfold slot; by rewrite Hrows').
  split.
  - apply (renewed_ok draft g'); try done.
    + intros r. change (screen_rows draft) with (screen_rows ring). rewrite Rn. by apply ring_base_screen.
    + apply cursor_fits_iff. change (columns draft) with (columns ring). change (screen_rows draft) with (screen_rows ring).
      rewrite Rcol, Rn. exact Hc1.
    + apply cursor_fits_iff. change (columns draft) with (columns ring). change (screen_rows draft) with (screen_rows ring).
      rewrite Rcol, Rn. exact Hc2.
    + pose proof (ok_history_generation _ Hok). change (0 < history_generation g + 1). lia.
  - rewrite (frame_capacity _ _ Hf'). exact RC.
  - rewrite (frame_columns _ _ Hf'). exact Rcol.
  - rewrite (frame_screen _ _ Hf'). exact Rn.
  - rewrite (frame_offset _ _ Hf'). exact Ro.
  - intros Hfol. unfold view_follows_offset. rewrite (frame_view _ _ Hf'), (frame_offset _ _ Hf').
    apply Z.eqb_eq. exact (Hfollow Hfol).
  - intros j Hj. rewrite Gslot. by apply Rslot.
  - unfold cursor_placed. rewrite (frame_cursor _ _ Hf'), (frame_columns _ _ Hf'), (frame_offset _ _ Hf'),
      (frame_screen _ _ Hf'), (frame_capacity _ _ Hf').
    change (row_capacity draft) with (row_capacity ring). change (columns draft) with (columns ring).
    change (screen_rows draft) with (screen_rows ring). rewrite RC, Rcol, Rn. exact Hc1'.
  - unfold cursor_placed. rewrite (frame_saved _ _ Hf'), (frame_columns _ _ Hf'), (frame_offset _ _ Hf'),
      (frame_screen _ _ Hf'), (frame_capacity _ _ Hf').
    change (row_capacity draft) with (row_capacity ring). change (columns draft) with (columns ring).
    change (screen_rows draft) with (screen_rows ring). rewrite RC, Rcol, Rn. exact Hc2'.
  - intros r Hr. change (next_row_id g) with (next_row_id draft). apply Hfresh.
    unfold row in Hr. rewrite (frame_index draft g') in Hr by done. rewrite Gslot in Hr. exact Hr.
  - unfold raises. rewrite Hgen', (frame_history _ _ Hf'). change (row_capacity draft) with (row_capacity ring) in Hnext'.
    rewrite RC in Hnext'. unfold draft in *. simpl in *. lia.
Qed.
