(* ===== verification/GridProps.v ===== *)
(** * Theorems on the grid *)

From stdpp Require Import base list gmap sorting.
From S2P Require Import Prelude RustStd Cell Row RowInv RowProps Coord Grid GridInv GridSteps GridOps Reflow ReflowInv.

#[local] Open Scope Z_scope.

(** ** Reachable grids *)

(** The state-changing operations the terminal uses. [EditRow] is a borrow of a
    screen row through [row_mut] and whatever the caller does with it. *)
Inductive operation :=
| SetCursor (c : Cursor)
| SetSavedCursor (c : Cursor)
| EditRow (r : Z) (f : Row → Row)
| Scroll (dir : ScrollDirection) (reg : ScrollRegion) (n : Z) (background : Color)
| SetView (v : Z)
| ResetView
| ClearScrollback
| ResetVisible (background : Color)
| ResizeWithoutReflow (capacity width n : Z)
| ResizeWithReflow (capacity width n : Z) (composed_width : Z → Z)
| ContinueHistory (next history : Z).

Definition perform (o : operation) : M Grid unfinished unit :=
  match o with
  | SetCursor c => set_cursor c
  | SetSavedCursor c => set_saved_cursor c
  | EditRow r f => edit_row r f
  | Scroll dir reg n background => do! scroll dir reg n background in ret tt
  | SetView v => set_view v
  | ResetView => reset_view
  | ClearScrollback => clear_scrollback
  | ResetVisible background => reset_visible background
  | ResizeWithoutReflow capacity width n => do! resize_without_reflow capacity width n in ret tt
  | ResizeWithReflow capacity width n composed_width =>
      do! resize_with_reflow capacity width n composed_width in ret tt
  | ContinueHistory next history => continue_history_namespace (next, history)
  end.

(** What the documentation asks of the arguments. *)
Definition permitted (o : operation) (g : Grid) : Prop :=
  match o with
  | SetCursor c | SetSavedCursor c => cursor_fits c g = true
  | EditRow r f => 0 ≤ r < screen_rows g ∧ ∀ x, row_len (f x) = row_len x
  | Scroll _ reg n _ =>
      0 ≤ region_start reg < region_end reg ∧ region_end reg ≤ screen_rows g ∧
      0 ≤ n ≤ region_end reg - region_start reg
  | SetView v => 0 ≤ v
  | ResetView | ClearScrollback | ResetVisible _ => True
  | ResizeWithoutReflow capacity width n | ResizeWithReflow capacity width n _ => dimensions_ok capacity width n
  | ContinueHistory next history =>
      0 < next ∧ next + 2^33 ≤ u64_max ∧ 0 ≤ history < u64_max
  end.

Inductive reaches : Grid → Prop :=
| reach_new capacity width n g :
    with_screen_size capacity width n = Ok g → reaches g
| reach_step o g g' :
    reaches g → roomy g → permitted o g → perform o g = (Ok tt, g') → reaches g'.

Lemma runs_ret_tt {S E A} (m : M S E A) (Q : S → Prop) s :
  runs m (λ _, Q) s → runs (do! m in ret tt) (λ _, Q) s.
Proof. intros H. apply runs_bind. eapply runs_mono; [|exact H]. intros. by apply runs_ret. Qed.

Lemma perform_runs o g : grid_ok g → roomy g → permitted o g → runs (perform o) (λ _, grid_ok) g.
Proof.
  intros Hok Hroom Hp. destruct o; simpl in Hp |- *.
  - eapply runs_mono; [|by apply set_cursor_runs]. by intros ? ? [].
  - eapply runs_mono; [|by apply set_saved_cursor_runs]. by intros ? ? [].
  - eapply runs_mono; [|by apply edit_row_runs; try apply Hp]. by intros ? ? [].
  - apply runs_ret_tt. eapply runs_mono; [|by apply scroll_ok; try apply Hp]. by intros ? ? [].
  - by apply set_view_runs.
  - eapply runs_mono; [|by apply reset_view_runs]. by intros ? ? [].
  - eapply runs_mono; [|by apply clear_scrollback_runs]. by intros ? ? [].
  - eapply runs_mono; [|by apply reset_visible_runs]. by intros ? ? [].
  - apply runs_ret_tt. eapply runs_mono; [|by apply resize_runs]. by intros ? ? [].
  - apply runs_ret_tt. destruct (resize_with_reflow_runs capacity width n composed_width g) as (b & _ & _ & Hrun); [done..|].
    eapply runs_mono; [|exact Hrun]. by intros ? ? [[] _].
  - eapply runs_mono; [|by apply continue_history_runs; try apply Hp]. by intros ? ? [].
Qed.

Lemma with_screen_dimensions capacity width n g :
  with_screen_size capacity width n = Ok g → dimensions_ok capacity width n.
Proof.
  unfold with_screen_size, Grid_new. destruct (is_power_of_two capacity) eqn:Hp; [|done].
  destruct (0 <? width) eqn:H1; [|done]. destruct (width <=? i32_max) eqn:H2; [|done].
  destruct (capacity <=? Z.shiftl 1 30) eqn:H3; [|done]. cbn [obind andb]. cbv zeta.
  change (Z.shiftl 1 30) with (2^30) in H3.
  fold (empty_grid capacity width 1). apply Z.ltb_lt in H1. apply Z.leb_le in H2, H3.
  assert (0 < capacity) by (unfold is_power_of_two in Hp; apply andb_true_iff in Hp as [?%Z.ltb_lt _]; lia).
  unfold bind at 1, assert_screen_rows. unfold bind at 1, get. rewrite empty_capacity by lia.
  unfold assert_. destruct (1 <=? n) eqn:H4; [|done]. destruct (n <=? capacity) eqn:H5; [|done]. intros _.
  apply Z.leb_le in H4, H5. split_and!; lia || done.
Qed.

(** C7. Every grid reachable from a new one satisfies the invariant: a ring of
    power-of-two capacity, the whole screen allocated, every allocated row as
    wide as the grid, one identity per row and none without a row, identities
    growing with time through the history, both cursors on the screen; and
    while the counters leave room no operation with documented arguments
    panics. *)
Theorem reachable_grid_ok g :
  reaches g →
  grid_ok g ∧ ∀ o, roomy g → permitted o g → ∃ g', perform o g = (Ok tt, g').
Proof.
  intros Hg. assert (grid_ok g) as Hok.
  { induction Hg as [capacity width n g Hw|o g g' _ IH Hroom Hp Hrun].
    - destruct (with_screen_runs capacity width n) as (g0 & H0 & Hok & _); [by eapply with_screen_dimensions|].
      congruence.
    - destruct (perform_runs o g IH Hroom Hp) as ([] & g1 & H1 & Hok). congruence. }
  split; [done|]. intros o Hroom Hp. destruct (perform_runs o g Hok Hroom Hp) as ([] & g1 & H1 & _). eauto.
Qed.

(** ** Scrolling *)

(** C8. Scrolling [n] rows forward in a region of a well-formed grid succeeds:
    rows outside the region keep their content and identity, the rows of the
    region move up by [n], the vacated rows are blank in the background color
    with fresh consecutive identities, older history moves back by [n], and
    when the region starts at the top of the screen the rows scrolled out
    become the newest history in order. A viewport that followed the screen
    still does; one further back than [n] rows does not move. *)
Theorem scroll_forward_exact reg n background g :
  grid_ok g → roomy g → 0 ≤ region_start reg → region_end reg ≤ screen_rows g →
  0 < n ≤ region_end reg - region_start reg →
  ∃ res g', scroll Forward reg n background g = (Ok res, g') ∧ grid_ok g' ∧
    screen_rows g' = screen_rows g ∧ columns g' = columns g ∧ cursor g' = cursor g ∧
    row_capacity g' = row_capacity g ∧
    (∀ r, 0 ≤ r < screen_rows g → contains r reg = false → place r g' = place r g) ∧
    (∀ r, region_start reg ≤ r < region_end reg - n → place r g' = place (r + n) g) ∧
    (∀ r, region_end reg - n ≤ r < region_end reg →
       place r g' = (Some (blank_row (columns g) background), next_row_id g + (r - (region_end reg - n)))) ∧
    (∀ d, n < d ≤ row_capacity g - screen_rows g → place (- d) g' = place (- (d - n)) g) ∧
    (region_start reg = 0 → ∀ d, 1 ≤ d ≤ n → d ≤ row_capacity g - screen_rows g →
       row (- d) g' = row (n - d) g) ∧
    view_moves n g g' ∧ view_changed res = negb (view g' =? view g).
Proof.
  intros Hok Hroom Hst Hsp Hn. pose proof (ok_shape _ Hok) as Hs.
  pose (P g' := ∃ v, 0 ≤ v < row_capacity g ∧ view_moves n g (repositioned n v g) ∧
    forwarded (region_start reg) (region_end reg) n background (repositioned n v g) g').
  destruct (scroll_wraps P Forward reg n background g) as (res & g' & Hrun & Hok' & (v & Hv & Hmv & Hf) & ->);
    [done|done|lia|done|lia| |lia|].
  { intros _. eapply runs_mono; [|by apply forward_core_runs]. intros ? g' (v & Hv & Hmv & Hf).
    split; [by eapply forwarded_ok; [..|exact Hf]|by exists v]. }
  eexists _, g'. split; [exact Hrun|].
  destruct Hf as [Hev Hout Hin Hexp Hold Hnew _ _]. simpl in *.
  change (row_capacity (repositioned n v g)) with (row_capacity g) in *.
  pose proof (ev_frame _ _ _ _ Hev) as Hf. pose proof (repositioned_place n v g Hs) as Hp.
  split_and!; [done|apply (frame_screen _ _ Hf)|apply (frame_columns _ _ Hf)|apply (frame_cursor _ _ Hf)
    |apply (frame_capacity _ _ Hf)| | | | | | |done].
  - intros r Hr Hc. unfold contains in Hc. apply andb_false_iff in Hc. rewrite Z.leb_gt, Z.ltb_ge in Hc.
    rewrite Hout, Hp by lia. f_equal. lia.
  - intros r Hr. by rewrite Hin, Hp.
  - intros r Hr. by rewrite Hexp.
  - intros d Hd. rewrite Hold, Hp by done. f_equal. lia.
  - intros H0 d Hd Hd'. transitivity (place (- d) (repositioned n v g)).1; [by apply (Hnew d)|].
    rewrite Hp. by replace (- d + n) with (n - d) by lia.
  - unfold view_moves. rewrite (frame_view _ _ Hf), (frame_offset _ _ Hf). apply Hmv.
Qed.

(** Scrolling [n] rows in reverse succeeds: rows outside the region are
    kept, the rows of the region move down by [n], the vacated top rows are
    blank, and the newest [n] rows of history are gone. *)
Theorem scroll_reverse_exact reg n background g :
  grid_ok g → roomy g → 0 ≤ region_start reg → region_end reg ≤ screen_rows g →
  0 < n ≤ region_end reg - region_start reg →
  ∃ res g', scroll Reverse reg n background g = (Ok res, g') ∧ grid_ok g' ∧
    (∀ r, 0 ≤ r < screen_rows g → contains r reg = false → place r g' = place r g) ∧
    (∀ r, region_start reg + n ≤ r < region_end reg → place r g' = place (r - n) g) ∧
    (∀ r, region_start reg ≤ r < region_start reg + n →
       row r g' = Some (blank_row (columns g) background)) ∧
    (∀ d, 1 ≤ d ≤ row_capacity g - screen_rows g → place (- d) g' =
       if decide (d + n ≤ row_capacity g - screen_rows g) then place (- (d + n)) g else (None, 0)) ∧
    (view g = offset g → view g' = offset g').
Proof.
  intros Hok Hroom Hst Hsp Hn. pose proof (ok_shape _ Hok) as Hs.
  pose (P g' := ∃ g0 v, frame g g0 ∧ (view g = offset g → v = masked (offset g - n) g) ∧
      evolves (2 * screen_rows g) n (repositioned (- n) v g0) g' ∧
      reversed (region_start reg) (region_end reg) n background g g').
  destruct (scroll_wraps P Reverse reg n background g) as (res & g' & Hrun & Hok' & (g0 & v & Hf0 & Hv & Hev & Hr) & ->);
    [done|done|lia|done|lia| |lia|].
  { intros _. eapply runs_mono; [|by apply reverse_core_runs]. intros ? g' (g0 & v & Hv & Hf0 & Hmv & Hev & Hr).
    pose proof (ev_frame _ _ _ _ Hf0). split; [by eapply reversed_ok; [..|exact Hr]|by exists g0, v]. }
  eexists _, g'. split; [exact Hrun|]. destruct Hr as [Hout Hin Hexp Hhist].
  split_and!; [done| |done|intros r Hr; apply (Hexp r Hr)|done|].
  - intros r Hr Hc. unfold contains in Hc. apply andb_false_iff in Hc. rewrite Z.leb_gt, Z.ltb_ge in Hc.
    apply Hout. lia.
  - intros Hfol. pose proof (ev_frame _ _ _ _ Hev) as Hf. rewrite (frame_view _ _ Hf), (frame_offset _ _ Hf). simpl.
    rewrite (Hv Hfol). unfold masked. by rewrite (frame_capacity _ _ Hf0), (frame_offset _ _ Hf0).
Qed.

(** ** Coordinates *)

(** Physical and scrollback coordinates are inverse to each other for any
    screen height that fits the ring, wherever the live screen starts; the
    screen occupies the newest scrollback coordinates in order. *)
Theorem coordinates_round_trip n x g :
  shape g → 1 ≤ n ≤ row_capacity g → 0 ≤ x < row_capacity g →
  (∃ y, absolute_to_scrollback n x g = Ok y ∧ 0 ≤ y < row_capacity g ∧ scrollback_to_absolute n y g = Ok x) ∧
  (∃ y, scrollback_to_absolute n x g = Ok y ∧ 0 ≤ y < row_capacity g ∧ absolute_to_scrollback n y g = Ok x) ∧
  (∀ r, 0 ≤ r < n →
     absolute_to_scrollback n (absolute_index r g) g = Ok (row_capacity g - n + r)).
Proof.
  intros Hs Hn Hx. pose proof (capacity_pos g Hs) as HC.
  assert (∀ v, 0 ≤ v < row_capacity g →
    absolute_to_scrollback n v g = Ok ((v - (offset g + n)) mod row_capacity g) ∧
    scrollback_to_absolute n v g = Ok ((offset g + n + v) mod row_capacity g)) as Hconv.
  { intros v Hv. unfold absolute_to_scrollback, scrollback_to_absolute, assert_coordinate_inputs, scrollback_start.
    rewrite !(proj2 (Z.leb_le _ _)), (proj2 (Z.ltb_lt _ _)) by lia. cbn [andb]. rewrite !masked_mod by done.
    by rewrite Zminus_mod_idemp_r, Z.add_mod_idemp_l by lia. }
  split_and!.
  - destruct (Hconv x Hx) as [-> _]. eexists. split; [done|].
    pose proof (Z.mod_pos_bound (x - (offset g + n)) (row_capacity g)). split; [lia|].
    destruct (Hconv ((x - (offset g + n)) mod row_capacity g)) as [_ ->]; [lia|].
    rewrite Z.add_mod_idemp_r by lia. f_equal.
    replace (offset g + n + (x - (offset g + n))) with x by lia. by apply Z.mod_small.
  - destruct (Hconv x Hx) as [_ ->]. eexists. split; [done|].
    pose proof (Z.mod_pos_bound (offset g + n + x) (row_capacity g)). split; [lia|].
    destruct (Hconv ((offset g + n + x) mod row_capacity g)) as [-> _]; [lia|].
    rewrite Zminus_mod_idemp_l by lia. f_equal.
    replace (offset g + n + x - (offset g + n)) with x by lia. by apply Z.mod_small.
  - intros r Hr. destruct (Hconv (absolute_index r g)) as [-> _]; [by apply index_range|].
    unfold absolute_index. rewrite masked_mod, Zminus_mod_idemp_l by (done || lia). f_equal.
    replace (offset g + r - (offset g + n)) with (row_capacity g - n + r + (-1) * row_capacity g) by lia.
    rewrite Z_mod_plus_full. apply Z.mod_small. lia.
Qed.

(** ** Snapshots of the history *)

(** What [identified] returns when no allocated slot lacks an identity. *)
Definition entries (xs : list Z) (g : Grid) : list (Z * Row) :=
  omap (λ i, (λ r, (id_at i g, r)) <$> slot i g) xs.

Lemma identified_entries xs g :
  slots_ok g → Forall (λ i, 0 ≤ i < row_capacity g) xs → identified xs g = Ok (entries xs g).
Proof.
  intros Hok Hx. induction Hx as [|i xs Hi Hx IH]; [done|]. cbn [identified]. unfold entries. cbn [omap list_omap].
  pose proof (slots_each _ Hok i Hi) as Hslot. unfold phys, slot_ok in Hslot.
  destruct (slot i g) as [r|]; cbn; [|done]. rewrite (proj2 (Z.eqb_neq _ _)) by lia. by rewrite IH.
Qed.

Lemma entries_elem xs g p :
  p ∈ entries xs g ↔ ∃ i, i ∈ xs ∧ slot i g = Some p.2 ∧ id_at i g = p.1.
Proof.
  unfold entries. rewrite list_elem_of_omap. split.
  - intros (i & Hi & (r & Hr & ->)%fmap_Some). eauto.
  - intros (i & Hi & Hr & Hid). exists i. rewrite Hr. destruct p. simpl in *. by subst.
Qed.

Definition older_first : relation (Z * Row) := λ p q, p.1 < q.1.

Lemma entries_sorted xs g :
  (∀ k l i j, (k < l)%nat → xs !! k = Some i → xs !! l = Some j →
     is_Some (slot i g) → is_Some (slot j g) → id_at i g < id_at j g) →
  StronglySorted older_first (entries xs g).
Proof.
  induction xs as [|i xs IH]; intros Hs; [constructor|]. unfold entries. cbn [omap list_omap].
  assert (StronglySorted older_first (entries xs g)) as Hxs.
  { apply IH. intros k l a b Hkl Ha Hb. apply (Hs (S k) (S l)); [lia|done|done]. }
  destruct (slot i g) as [r|] eqn:Hr; cbn; [|done]. constructor; [done|].
  apply Forall_forall. intros p (j & [l Hl]%list_elem_of_lookup & Hj & Hid)%entries_elem.
  unfold older_first. cbn [fst]. rewrite <-Hid.
  apply (Hs 0%nat (S l)); [lia|done|done|by eexists|by eexists].
Qed.

(** The deque of [snapshot_scrollback_page]. *)
Lemma page_loop_spec xs before maximum acc older g :
  slots_ok g → Forall (λ i, 0 ≤ i < row_capacity g) xs → 0 < maximum → Z.of_nat (length acc) ≤ maximum →
  let found := acc ++ filter (λ p, p.1 < before) (entries xs g) in
  page_loop xs before maximum acc older g =
    Ok (drop (length found - Z.to_nat maximum) found, older || bool_decide (maximum < Z.of_nat (length found))).
Proof.
  intros Hok Hx. revert acc older. induction Hx as [|i xs Hi Hx IH]; intros acc older Hmax Hacc found; cbn [page_loop].
  { unfold found. rewrite app_nil_r. replace (length acc - Z.to_nat maximum)%nat with 0%nat by lia.
    rewrite drop_0, bool_decide_false by lia. by rewrite orb_false_r. }
  pose proof (slots_each _ Hok i Hi) as Hslot. unfold phys, slot_ok in Hslot.
  unfold found, entries. cbn [omap list_omap]. fold (entries xs g).
  destruct (slot i g) as [r|]; cbn -[filter]; [|by apply IH].
  rewrite (proj2 (Z.eqb_neq _ _)) by lia. destruct (before <=? id_at i g) eqn:Hb.
  { apply Z.leb_le in Hb. rewrite filter_cons_False by (simpl; lia). by apply IH. }
  apply Z.leb_gt in Hb. rewrite filter_cons_True by (simpl; lia).
  destruct (Z.of_nat (length acc) =? maximum) eqn:Hfull.
  - apply Z.eqb_eq in Hfull. destruct acc as [|p acc]; [simpl in Hfull; lia|]. cbn [tail].
    rewrite IH; [|done|rewrite length_app; simpl in *; lia]. rewrite <-app_assoc. cbn [app].
    set (f := filter _ _). f_equal. f_equal.
    + cbn [length]. rewrite !length_app in *. simpl in *.
      replace (S (length acc + S (length f)) - Z.to_nat maximum)%nat
        with (S (length acc + S (length f) - Z.to_nat maximum)) by lia. done.
    + rewrite orb_true_l. rewrite bool_decide_true; [by rewrite orb_true_r|].
      cbn [length]. rewrite length_app. simpl in *. lia.
  - apply Z.eqb_neq in Hfull. rewrite IH; [|done|rewrite length_app; simpl; lia]. by rewrite <-app_assoc.
Qed.

Lemma sorted_prefix (before : Z) (l : list (Z * Row)) :
  StronglySorted older_first l →
  ∃ newer, l = filter (λ p, p.1 < before) l ++ newer ∧ Forall (λ p, before ≤ p.1) newer.
Proof.
  induction 1 as [|p l Hl IH Hp]; [by exists []|]. destruct (decide (p.1 < before)) as [Hb|Hb].
  - rewrite filter_cons_True by done. destruct IH as (newer & Heq & Hn). exists newer.
    split; [|done]. cbn [app]. by rewrite <-Heq.
  - rewrite filter_cons_False by done. exists (p :: l). rewrite Forall_forall in Hp.
    assert (filter (λ p, p.1 < before) l = []) as ->.
    { apply elem_of_nil_inv. intros q [Hq Hin]%list_elem_of_filter. specialize (Hp q Hin). unfold older_first in Hp. lia. }
    split; [done|]. constructor; [lia|]. apply Forall_forall. intros q Hq. specialize (Hp q Hq).
    unfold older_first in Hp. lia.
Qed.

(** The slots of the history, oldest first. *)
Definition history_slots (g : Grid) : list Z :=
  chronological (screen_rows g) (row_capacity g - screen_rows g) g.

Lemma history_sorted g : grid_ok g → StronglySorted older_first (entries (history_slots g) g).
Proof.
  intros Hok. pose proof (ok_shape _ Hok) as Hs. pose proof (shape_screen _ Hs). apply entries_sorted.
  intros k l i j Hkl [-> Hk]%chronological_lookup [-> Hl]%chronological_lookup; try done. intros Si Sj.
  set (C := row_capacity g) in *. set (N := screen_rows g) in *.
  assert (∀ m, absolute_index (N + m) g = absolute_index (- (C - N - m)) g) as Hidx.
  { intros m. rewrite <-(index_period g Hs (N + m)). f_equal. fold C. lia. }
  rewrite Hidx in Si, Sj |- *. rewrite Hidx.
  apply (ok_history _ Hok (C - N - Z.of_nat l) (C - N - Z.of_nat k)); [lia|lia|fold C N; lia|exact Sj|exact Si].
Qed.

Lemma history_in_range g : shape g → Forall (λ i, 0 ≤ i < row_capacity g) (history_slots g).
Proof.
  intros Hs. apply Forall_forall. intros i [k [-> _]%chronological_lookup]%list_elem_of_lookup; [|done].
  by apply index_range.
Qed.

(** Paging through the history of a well-formed grid: the history is listed
    oldest first with strictly growing identities; a page requested before an
    identity holds exactly the newest [maximum] rows of the history older than
    it, in order, and says whether older ones remain. *)
Theorem scrollback_page_exact before maximum g :
  grid_ok g → 0 < maximum →
  ∃ older newer page,
    scrollback_rows_chronological g = Ok (older ++ newer) ∧
    StronglySorted older_first (older ++ newer) ∧
    Forall (λ p, p.1 < before) older ∧ Forall (λ p, before ≤ p.1) newer ∧
    page = drop (length older - Z.to_nat maximum) older ∧
    snapshot_scrollback_page before maximum g = Ok (page, bool_decide (maximum < Z.of_nat (length older))).
Proof.
  intros Hok Hmax. pose proof (ok_shape _ Hok) as Hs. pose proof (history_sorted g Hok) as Hsort.
  destruct (sorted_prefix before _ Hsort) as (newer & Heq & Hn).
  set (older := filter (λ p, p.1 < before) (entries (history_slots g) g)) in *.
  exists older, newer. eexists. split_and!; [|by rewrite <-Heq| |done|reflexivity|].
  - rewrite <-Heq. apply identified_entries; [apply Hok|by apply history_in_range].
  - apply Forall_forall. by intros p [? _]%list_elem_of_filter.
  - unfold snapshot_scrollback_page. rewrite (proj2 (Z.eqb_neq _ _)) by lia.
    fold (history_slots g). rewrite page_loop_spec; [done|apply Hok|by apply history_in_range|done|simpl; lia].
Qed.

(** ** Checkpoints *)

(** The identities of the allocated slots. *)
Definition allocated_ids (slots : list (option Row * Z)) : list Z :=
  omap (λ '(r, id), (λ _, id) <$> r) slots.

Definition slot_valid (composed width : Z) (s : option Row * Z) : Prop :=
  match s with
  | (Some r, id) => id ≠ 0 ∧ Z.of_nat (row_len r) = width ∧ row_checkpoint_is_valid composed r = Ok true
  | (None, id) => id = 0
  end.

Lemma rows_valid_spec composed width slots seen m0 m :
  rows_valid composed width slots seen m0 = Ok (Some m) ↔
  Forall (slot_valid composed width) slots ∧ NoDup (allocated_ids slots) ∧
  (∀ id, id ∈ allocated_ids slots → id ∉ seen) ∧ m = foldl Z.max m0 (allocated_ids slots).
Proof.
  revert seen m0. induction slots as [|[[r|] id] slots IH]; intros seen m0; cbn [rows_valid].
  - split; [intros [= ->]; split_and!; [done|constructor|set_solver|done]|]. by intros (_ & _ & _ & ->).
  - unfold allocated_ids. cbn [omap list_omap fmap option_fmap option_map foldl]. fold (allocated_ids slots).
    rewrite Forall_cons, NoDup_cons. cbn [slot_valid].
    destruct (Z.eqb_spec id 0) as [->|Hid]; [simpl; split; [done|]; tauto|].
    destruct (Z.eqb_spec (Z.of_nat (row_len r)) width) as [Hw|Hw]; [|simpl; split; [done|]; tauto].
    cbn [orb negb]. case_bool_decide as Hseen.
    { split; [done|]. intros (_ & _ & Hs & _). exfalso. apply (Hs id); [set_solver|done]. }
    destruct (row_checkpoint_is_valid composed r) as [[]|e|]; cbn [obind].
    + rewrite IH. split.
      * intros (Hf & Hn & Hs & ->). split_and!; try done; [intros Hin; apply (Hs id Hin); set_solver|set_solver].
      * intros ([_ Hf] & [Hni Hn] & Hs & ->). split_and!; try done. set_solver.
    + split; [done|]. intros ([(_ & _ & ?) _] & _). done.
    + split; [done|]. intros ([(_ & _ & ?) _] & _). done.
    + split; [done|]. intros ([(_ & _ & ?) _] & _). done.
  - unfold allocated_ids. cbn [omap list_omap fmap option_fmap option_map]. fold (allocated_ids slots).
    rewrite Forall_cons. cbn [slot_valid]. destruct (Z.eqb_spec id 0) as [->|Hid]; [rewrite IH; tauto|].
    split; [done|]. tauto.
Qed.

Lemma foldl_max_lt m0 l b : foldl Z.max m0 l < b ↔ m0 < b ∧ ∀ x, x ∈ l → x < b.
Proof.
  revert m0. induction l as [|y l IH]; intros m0; simpl; [set_solver|]. rewrite IH. split.
  - intros [H1 H2]. split; [lia|]. intros x [->|Hx]%elem_of_cons; [lia|by apply H2].
  - intros [H1 H2]. split; [|intros x Hx; apply H2; set_solver].
    assert (y < b) by (apply H2; set_solver). lia.
Qed.

Lemma NoDup_omap_iff {A B} (f : A → option B) (l : list A) :
  NoDup (omap f l) ↔
  ∀ i j a b x, l !! i = Some a → l !! j = Some b → f a = Some x → f b = Some x → i = j.
Proof.
  induction l as [|a l IH].
  { split; [intros _ i j ? ? ? [=]|constructor]. }
  cbn [omap list_omap]. fold (omap f l). split.
  - intros Hnd [|i] [|j] b c x Hb Hc Hfb Hfc; simplify_eq/=; [done| | |f_equal].
    + rewrite Hfb in Hnd. apply NoDup_cons in Hnd as [Hni _]. exfalso. apply Hni, list_elem_of_omap.
      exists c. split; [by eapply list_elem_of_lookup_2|done].
    + rewrite Hfc in Hnd. apply NoDup_cons in Hnd as [Hni _]. exfalso. apply Hni, list_elem_of_omap.
      exists b. split; [by eapply list_elem_of_lookup_2|done].
    + assert (NoDup (omap f l)) as Hl by (destruct (f a); [by apply NoDup_cons in Hnd as [_ ?]|done]).
      by eapply (proj1 IH Hl).
  - intros Hinj. assert (NoDup (omap f l)) as Hl.
    { apply IH. intros i j b c x Hb Hc Hfb Hfc. cut (S i = S j); [lia|]. by apply (Hinj (S i) (S j) b c x). }
    destruct (f a) as [x|] eqn:Ha; [|done]. apply NoDup_cons. split; [|done].
    intros (b & [j Hj]%list_elem_of_lookup & Hb)%list_elem_of_omap.
    specialize (Hinj 0%nat (S j) a b x eq_refl Hj Ha Hb). lia.
Qed.

(** The pairs the validation iterates over. *)
Lemma zip_phys g k s :
  length (row_ids g) = length (rows g) →
  zip (rows g) (row_ids g) !! k = Some s ↔ Z.of_nat k < row_capacity g ∧ phys (Z.of_nat k) g = s.
Proof.
  intros Hlen. destruct s as [r id]. unfold row_capacity, phys, slot, id_at. rewrite Nat2Z.id, lookup_zip_Some.
  cbn [fst snd]. split.
  - intros [Hr Hid]. rewrite Hr, Hid. split; [apply lookup_lt_Some in Hr; lia|done].
  - intros [Hk Hp]. destruct (lookup_lt_is_Some_2 (rows g) k) as [x Hx]; [lia|].
    destruct (lookup_lt_is_Some_2 (row_ids g) k) as [y Hy]; [lia|]. rewrite Hx, Hy in *. by simplify_eq/=.
Qed.

(** Unsigned fields, as deserialization leaves them. *)
Record unsigned_fields (g : Grid) : Prop := {
  us_columns : 0 ≤ columns g;
  us_screen : 0 ≤ screen_rows g;
  us_offset : 0 ≤ offset g;
  us_view : 0 ≤ view g;
  us_next : 0 ≤ next_row_id g;
  us_history : 0 ≤ history_generation g;
  us_ids : Forall (λ id, 0 ≤ id) (row_ids g);
}.

(** The grids a checkpoint may restore. *)
Record restorable (composed : Z) (g : Grid) : Prop := {
  rs_shape : shape g;
  rs_capacity : row_capacity g ≤ MAX_CHECKPOINT_GRID_ROWS;
  rs_columns : columns g ≤ MAX_CHECKPOINT_COLUMNS;
  rs_slots : slots_ok g;
  rs_screen r : 0 ≤ r < screen_rows g → is_Some (place r g).1;
  rs_cursor : cursor_fits (cursor g) g = true;
  rs_saved : cursor_fits (saved_cursor g) g = true;
  rs_history : 0 < history_generation g;
  rs_generation : generation g ≤ CHECKPOINT_COUNTER_HEADROOM;
  rs_next : next_row_id g ≤ CHECKPOINT_COUNTER_HEADROOM;
  rs_history_generation : history_generation g ≤ CHECKPOINT_COUNTER_HEADROOM;
  rs_rows i r : 0 ≤ i < row_capacity g → slot i g = Some r → row_checkpoint_is_valid composed r = Ok true;
}.

Lemma id_nonneg g i : unsigned_fields g → 0 ≤ id_at i g.
Proof.
  intros Hu. unfold id_at. destruct (row_ids g !! Z.to_nat i) eqn:H; [|done].
  by eapply Forall_lookup_1 in H; [|apply Hu].
Qed.

(** The slots seen by the validation, in terms of [phys]. *)
Lemma slots_valid_iff composed g :
  length (row_ids g) = length (rows g) → unsigned_fields g →
  (Forall (slot_valid composed (columns g)) (zip (rows g) (row_ids g)) ∧
   NoDup (allocated_ids (zip (rows g) (row_ids g))) ∧ 0 < next_row_id g ∧
   (∀ id, id ∈ allocated_ids (zip (rows g) (row_ids g)) → id < next_row_id g)) ↔
  slots_ok g ∧ ∀ i r, 0 ≤ i < row_capacity g → slot i g = Some r → row_checkpoint_is_valid composed r = Ok true.
Proof.
  intros Hlen Hu.
  assert (∀ i, 0 ≤ i < row_capacity g → zip (rows g) (row_ids g) !! Z.to_nat i = Some (phys i g)) as Hzip.
  { intros i Hi. apply zip_phys; [done|]. rewrite Z2Nat.id by lia. split; [lia|done]. }
  split.
  - intros (Hf & Hnd & Hn & Hmax).
    assert (∀ i, 0 ≤ i < row_capacity g → slot_valid composed (columns g) (phys i g)) as Hv.
    { intros i Hi. by apply (Forall_lookup_1 _ _ _ _ Hf (Hzip i Hi)). }
    split; [split; [| |done]|].
    + intros i Hi. specialize (Hv i Hi). pose proof (id_nonneg g i Hu). unfold phys in *.
      unfold slot_valid, slot_ok in *. destruct (slot i g) as [r|] eqn:Hr; [|done].
      destruct Hv as (H0 & Hw & _). split; [done|]. split; [lia|]. apply Hmax.
      apply list_elem_of_omap. exists (phys i g). split; [by eapply list_elem_of_lookup_2, Hzip|].
      unfold phys. by rewrite Hr.
    + intros i j Hi Hj [x Hx] [y Hy] Hid. cut (Z.to_nat i = Z.to_nat j); [lia|].
      eapply (proj1 (NoDup_omap_iff _ _) Hnd); [by apply Hzip|by apply Hzip|..]; unfold phys; rewrite ?Hx, ?Hy, ?Hid; done.
    + intros i r Hi Hr. specialize (Hv i Hi). unfold phys, slot_valid in Hv. rewrite Hr in Hv. apply Hv.
  - intros [Hok Hrows]. split_and!.
    + apply Forall_lookup. intros k s [Hk <-]%zip_phys; [|done].
      pose proof (slots_each _ Hok (Z.of_nat k) ltac:(lia)) as He. unfold phys, slot_ok, slot_valid in *.
      destruct (slot (Z.of_nat k) g) as [r|] eqn:Hr; [|done].
      split_and!; [lia|apply He|by apply (Hrows (Z.of_nat k)); [lia|]].
    + apply NoDup_omap_iff. intros i j a b x [Hi <-]%zip_phys [Hj <-]%zip_phys Ha Hb; try done.
      unfold phys in Ha, Hb. apply fmap_Some in Ha as (? & Ha & ->). apply fmap_Some in Hb as (? & Hb & Hid).
      apply Nat2Z.inj. apply (slots_distinct _ Hok); [lia|lia|by eexists|by eexists|done].
    + apply Hok.
    + intros id ([r id'] & Hin & (? & Hr & ->)%fmap_Some)%list_elem_of_omap.
      apply list_elem_of_lookup in Hin as [k Hk]. apply zip_phys in Hk as [Hk Hp]; [|done].
      pose proof (slots_each _ Hok (Z.of_nat k) ltac:(lia)) as He. rewrite Hp, Hr in He. simpl in He. lia.
Qed.

(** A deserialized grid is accepted exactly when it is one the terminal can
    run on: the whole invariant but for the order of the history's identities,
    the size limits, counters below the headroom, and rows that are valid
    themselves. *)
Theorem checkpoint_accepts_exactly composed g :
  unsigned_fields g → checkpoint_is_valid composed g = Ok true ↔ restorable composed g.
Proof.
  intros Hu. unfold checkpoint_is_valid. cbv zeta.
  match goal with |- context [if ?b then Ok false else if ?c then _ else _] => set (limits := b); set (cursors := c) end.
  assert (limits = false ↔ shape g ∧ row_capacity g ≤ MAX_CHECKPOINT_GRID_ROWS ∧ columns g ≤ MAX_CHECKPOINT_COLUMNS ∧
    0 < history_generation g ∧ 0 < next_row_id g ∧ generation g ≤ CHECKPOINT_COUNTER_HEADROOM ∧
    next_row_id g ≤ CHECKPOINT_COUNTER_HEADROOM ∧ history_generation g ≤ CHECKPOINT_COUNTER_HEADROOM) as Hlim.
  { unfold limits. rewrite !orb_false_iff, !negb_false_iff, !Z.eqb_neq, !Z.ltb_ge, !Z.leb_gt, Z.eqb_eq.
    destruct Hu. split.
    - intros Hall. destruct_and! Hall.
      change MAX_CHECKPOINT_GRID_ROWS with (2^20) in *. change MAX_CHECKPOINT_COLUMNS with (2^16) in *.
      split_and!; try lia.
      split; try done; unfold i32_max, row_capacity in *; lia.
    - intros ([] & ? & ? & ? & ? & ? & ? & ?). split_and!; try done; unfold row_capacity in *; lia. }
  destruct limits.
  { split; [done|]. intros [Hs ? ? Hsl ? ? ? ? ? ? ?]. assert (true = false); [|done].
    apply Hlim. split_and!; try done. apply Hsl. }
  destruct (proj1 Hlim eq_refl) as (Hs & Hcap & Hcol & Hh & Hn & Hr1 & Hr2 & Hr3). clear Hlim.
  assert (cursors = false ↔ cursor_fits (cursor g) g = true ∧ cursor_fits (saved_cursor g) g = true) as Hcur
    by (unfold cursors; by rewrite orb_false_iff, !negb_false_iff).
  destruct cursors.
  { split; [done|]. intros []. assert (true = false); [|done]. by apply Hcur. }
  destruct (proj1 Hcur eq_refl) as [Hc1 Hc2].
  pose proof (slots_valid_iff composed g (shape_ids _ Hs) Hu) as Hslots.
  assert (forallb (λ n, bool_decide (is_Some (slot (Z.land (offset g + n) (row_capacity g - 1)) g)))
      (range 0 (screen_rows g)) = true ↔ ∀ r, 0 ≤ r < screen_rows g → is_Some (place r g).1) as Hscr.
  { rewrite forallb_forall. unfold range. setoid_rewrite <-list_elem_of_In. setoid_rewrite elem_of_seqZ.
    setoid_rewrite bool_decide_eq_true. setoid_rewrite land_mask; [|apply Hs].
    unfold place, absolute_index. setoid_rewrite masked_mod; [|done].
    split; intros H r Hr; (apply H; lia). }
  split.
  - destruct (rows_valid _ _ _ _ _) as [[m|]|e|] eqn:Hv; cbn [obind]; [|done..].
    destruct (next_row_id g <=? m) eqn:Hm; [done|]. apply Z.leb_gt in Hm. intros [= Hall].
    apply rows_valid_spec in Hv as (Hf & Hnd & _ & ->). apply foldl_max_lt in Hm as [_ Hm].
    destruct (proj1 Hslots) as [Hsl Hrows]; [done|]. split; try done. by apply Hscr.
  - intros [_ _ _ Hsl Hsc _ _ _ _ Hrows]. destruct (proj2 Hslots) as (Hf & Hnd & _ & Hm); [done|].
    rewrite (proj2 (rows_valid_spec composed (columns g) _ ∅ 0 _)) by (split_and!; [done|done|set_solver|reflexivity]).
    cbn [obind]. rewrite (proj2 (Z.leb_gt _ _)) by (apply foldl_max_lt; by split).
    f_equal. by apply Hscr.
Qed.

(** ** Resizing *)

(** Resizing without reflow keeps the screen rows that fit, cut or padded to
    the new width with a hard line break, adds blank rows below, discards the
    history, moves both cursors with the bottom row, assigns every row a new
    identity and returns the map from the old ones. *)
Theorem resize_without_reflow_keeps_screen capacity width n g :
  grid_ok g → roomy g → dimensions_ok capacity width n →
  ∃ mapping g', resize_without_reflow capacity width n g = (Ok mapping, g') ∧ grid_ok g' ∧
    row_capacity g' = capacity ∧ columns g' = width ∧ screen_rows g' = n ∧
    cursor g' = moved_cursor (screen_rows g) width n (cursor g) ∧
    saved_cursor g' = moved_cursor (screen_rows g) width n (saved_cursor g) ∧
    (∀ r, 0 ≤ r < n → row r g' = Some (resized_screen width g r)) ∧
    (∀ r, n ≤ r < capacity → row r g' = None) ∧
    (∀ r, is_Some (row r g') → next_row_id g ≤ (place r g').2) ∧
    (∀ r, 0 ≤ r < Z.min (screen_rows g) n → bt_get mapping (place r g).2 = row_id r g').
Proof. intros Hok Hroom Hd. destruct (resize_runs capacity width n g Hok Hroom Hd) as (m & g' & ? & ? & ? & ? & ? & _ & ?). eauto 10. Qed.

(** ** Instances *)

(** Scrolling two rows out of a region below the top of the screen puts them
    into the history in reverse: row 1, marked by its line break, ends up after
    row 2, although identities say the opposite order of time. *)
Example partial_scroll_reverses_history :
  let g := (let? g := with_screen_size 8 4 3 in
            match edit_row 1 (set_linebreak false) g with (Ok _, g) => Ok g | _ => Panic end) in
  let g' := (let? g := g in
             match scroll Forward {| region_start := 1; region_end := 3 |} 2 Color_default g with
             | (Ok _, g') => Ok g' | _ => Panic end) in
  map_ok (λ g, (linebreak <$> row 1 g, linebreak <$> row 2 g)) g = Ok (Some false, Some true) ∧
  map_ok (λ g, (linebreak <$> row (-2) g, linebreak <$> row (-1) g, row_id (-2) g, row_id (-1) g)) g' =
    Ok (Some true, Some false, Some 6, Some 7).
Proof. by vm_compute. Qed.

Definition ex_grid : Grid :=
  match with_screen_size 8 4 3 with Ok g => g | _ => empty_grid 8 4 3 end.

Lemma ex_dimensions : dimensions_ok 8 4 3.
Proof. unfold dimensions_ok, i32_max. split_and!; done || lia. Qed.

Lemma ex_grid_ok : grid_ok ex_grid ∧ roomy ex_grid.
Proof.
  destruct (with_screen_runs 8 4 3 ex_dimensions) as (g & Hg & Hok & Hroom & _). unfold ex_grid. rewrite Hg. split; [done|]. eapply spare_le; [|exact Hroom]. done.
Qed.

Lemma ex_new : with_screen_size 8 4 3 = Ok ex_grid.
Proof.
  destruct (with_screen_runs 8 4 3 ex_dimensions) as (g & Hg & _). unfold ex_grid. by rewrite Hg.
Qed.

Definition ex_region (start stop : Z) : ScrollRegion := {| region_start := start; region_end := stop |}.

(** Two rows of history. *)
Definition ex_scrolled : Grid := (scroll Forward (ex_region 0 3) 2 Color_default ex_grid).2.

Lemma ex_screen : screen_rows ex_grid = 3.
Proof. by vm_compute. Qed.

Lemma ex_scrolled_ok : grid_ok ex_scrolled.
Proof.
  destruct (scroll_ok Forward (ex_region 0 3) 2 Color_default ex_grid) as (res & g & Hg & Hok & _).
  - apply ex_grid_ok.
  - apply ex_grid_ok.
  - done.
  - done.
  - by rewrite ex_screen.
  - cbn [ex_region region_start region_end]. lia.
  - unfold ex_scrolled. rewrite Hg. exact Hok.
Qed.

Lemma reachable_grid_ok_witness : ∃ g', perform (Scroll Forward (ex_region 0 3) 2 Color_default) ex_grid = (Ok tt, g').
Proof.
  apply (proj2 (reachable_grid_ok ex_grid (reach_new 8 4 3 ex_grid ex_new))).
  - apply ex_grid_ok.
  - cbn [permitted ex_region region_start region_end]. rewrite ex_screen. lia.
Defined.

Lemma scroll_forward_exact_witness :
  ∃ res g', scroll Forward (ex_region 0 3) 2 Color_default ex_grid = (Ok res, g') ∧ row (-1) g' = row 1 ex_grid.
Proof.
  destruct (scroll_forward_exact (ex_region 0 3) 2 Color_default ex_grid)
    as (res & g' & Hrun & _ & _ & _ & _ & _ & _ & _ & _ & _ & Hnew & _);
    [apply ex_grid_ok|apply ex_grid_ok|done|by rewrite ex_screen|cbn [ex_region region_start region_end]; lia|].
  exists res, g'. split; [exact Hrun|]. apply (Hnew eq_refl 1); [lia|by vm_compute].
Defined.

Lemma scroll_reverse_exact_witness :
  ∃ res g', scroll Reverse (ex_region 1 3) 1 Color_default ex_scrolled = (Ok res, g') ∧
    place 2 g' = place 1 ex_scrolled.
Proof.
  destruct (scroll_reverse_exact (ex_region 1 3) 1 Color_default ex_scrolled)
    as (res & g' & Hrun & _ & _ & Hin & _);
    [apply ex_scrolled_ok|by split; vm_compute|done|by vm_compute|cbn [ex_region region_start region_end]; lia|].
  exists res, g'. split; [exact Hrun|]. apply (Hin 2). cbn [ex_region region_start region_end]. lia.
Defined.

Lemma coordinates_round_trip_witness :
  ∃ y, absolute_to_scrollback 3 5 ex_scrolled = Ok y ∧ 0 ≤ y < row_capacity ex_scrolled ∧
    scrollback_to_absolute 3 y ex_scrolled = Ok 5.
Proof.
  apply (proj1 (coordinates_round_trip 3 5 ex_scrolled ltac:(apply ex_scrolled_ok)
    ltac:(by vm_compute) ltac:(by vm_compute))).
Defined.

Lemma scrollback_page_exact_witness :
  ∃ page, snapshot_scrollback_page 100 1 ex_scrolled = Ok (page, true).
Proof.
  destruct (scrollback_page_exact 100 1 ex_scrolled ex_scrolled_ok ltac:(lia))
    as (older & newer & page & _ & _ & _ & _ & _ & Hp).
  exists page. rewrite Hp. f_equal. f_equal. revert Hp. vm_compute. congruence.
Defined.

Lemma ex_unsigned : unsigned_fields ex_scrolled.
Proof. split; vm_compute; try done. by repeat constructor. Qed.

Lemma checkpoint_accepts_exactly_witness : restorable 0 ex_scrolled.
Proof. apply (checkpoint_accepts_exactly 0 ex_scrolled ex_unsigned). by vm_compute. Defined.

Lemma resize_without_reflow_keeps_screen_witness :
  ∃ mapping g', resize_without_reflow 16 6 5 ex_scrolled = (Ok mapping, g') ∧ screen_rows g' = 5.
Proof.
  destruct (resize_without_reflow_keeps_screen 16 6 5 ex_scrolled) as (mapping & g' & Hrun & _ & _ & _ & Hn & _);
    [apply ex_scrolled_ok|by split; vm_compute|split_and!; done || (unfold i32_max; lia)|].
  exists mapping, g'. by split.
Defined.
