(* ===== verification/ReflowText.v ===== *)
(** * What reflow preserves

    When every character of the grid is complete, fits the new width and, if
    composed, has the width its key claims, the units of a row are exactly its
    characters: the stream of non-blank cells and hard line breaks is that of
    the old rows, up to line breaks at the end, and a tracked position follows
    its cell. *)

From stdpp Require Import base list gmap.
From S2P Require Import Prelude RustStd Cell Row RowInv RowProps Coord Grid GridInv GridSteps GridOps Reflow ReflowInv.

#[local] Open Scope Z_scope.

Section text.
Context (width : nat) (cw : Z → Z).

(** The cells of a row that reflow takes character by character. *)
Inductive units : list Cell → Prop :=
| units_nil : units []
| units_group leader tail rest :
    continuation leader = false → (tail ≠ [] → spacer_of leader = None) → tail_ok tail →
    (S (length tail) ≤ width)%nat →
    (∀ key, content_of leader = Composed key → Z.max (cw key) 1 = Z.of_nat (S (length tail))) →
    units rest → units (leader :: tail ++ rest).

Lemma units_wide cs : units cs → wide_ok cs.
Proof using Type. induction 1; by constructor. Qed.

Lemma reflow_unit_exact r pre leader tail rest count :
  cells r = pre ++ leader :: tail ++ rest → short (cells r) → units (leader :: tail ++ rest) →
  continuation leader = false → tail_ok tail → (S (length tail) ≤ width)%nat → fresh_start rest →
  (∀ key, content_of leader = Composed key → Z.max (cw key) 1 = Z.of_nat (S (length tail))) →
  (length pre + S (length tail) ≤ count)%nat →
  reflow_unit r (length pre) count width cw = Ok (S (length tail), leader :: tail).
Proof using Type.
  intros Hr Hsh Hu Hl Ht Hw Hf Hk Hc. unfold reflow_unit. rewrite Hr.
  rewrite lookup_app_r, Nat.sub_diag by lia. cbn [lookup list_lookup]. rewrite continues_app, Hl.
  assert (slice (length pre) (S (length tail)) r = leader :: tail) as Hslice.
  { unfold slice. rewrite Hr, drop_app_length, app_comm_cons. by rewrite (take_app_length' (leader :: tail)). }
  pose proof (descends_app pre leader tail rest Ht) as Hd.
  rewrite Hr in Hsh. pose proof (group_width_app pre leader tail rest Hsh Ht (λ _, Hf)) as Hg.
  assert (continues (pre ++ leader :: tail ++ rest) (S (length pre)) = negb (bool_decide (tail = []))) as Hn.
  { replace (S (length pre)) with (length pre + 1)%nat by lia. unfold continues. rewrite spacer_at_app.
    destruct tail as [|c tail]; [by apply continues_fresh in Hf|].
    unfold spacer_at. simpl. destruct Ht as [Hc' _]. rewrite Hc'. simpl. done. }
  destruct (content_of leader) as [| |key|] eqn:Hcont.
  3:{ rewrite (Hk key eq_refl). rewrite (proj2 (Z.ltb_ge _ _)), (proj2 (Z.leb_le _ _)), Hd by lia. cbn [andb].
      by rewrite Nat2Z.id, Hslice. }
  all: rewrite Hn, Hg; destruct (decide (tail = [])) as [->|Hne];
    [rewrite (bool_decide_true ([] = [])) by done; cbn [negb]; rewrite andb_false_r; done|].
  all: rewrite (bool_decide_false (tail = [])) by done; destruct tail as [|x tail]; [done|]; cbn [length] in *;
    rewrite bool_decide_true, (proj2 (Z.leb_le _ _)), Hd, (proj2 (Z.ltb_ge _ _)) by lia; cbn [andb negb];
    by rewrite Nat2Z.id, Hslice.
Qed.

(** The cell a tracked position ends up on. *)
Definition follows (k : tracker) (c : option Cell) (b : Builder) : Prop :=
  ∃ s, mapped k (b_mappings b) = Some s ∧ cell_at s b = c.

Lemma follows_kept k c b b' :
  follows k (Some c) b → grows b b' → mapped k (b_mappings b') = mapped k (b_mappings b) → follows k (Some c) b'.
Proof using Type. intros (s & Hm & Hc) [_ _ Hg] Hk. exists s. split; [by rewrite Hk|by apply Hg]. Qed.

(** A count that does not fall on a continuation does not cut a character. *)
Lemma count_past_group pre leader tail rest count :
  tail_ok tail → continues (pre ++ leader :: tail ++ rest) count = false → (length pre < count)%nat →
  (length pre + S (length tail) ≤ count)%nat.
Proof using Type.
  intros Ht Hcont Hc. destruct (decide (count < length pre + S (length tail))%nat) as [Hlt|]; [|lia]. exfalso.
  unfold continues, spacer_at in Hcont. rewrite lookup_app_r in Hcont by lia.
  destruct (count - length pre)%nat as [|i] eqn:Hi; [lia|].
  change ((leader :: tail ++ rest) !! S i) with ((tail ++ rest) !! i) in Hcont. rewrite lookup_app_l in Hcont by lia.
  destruct (lookup_lt_is_Some_2 tail i) as [c Hci]; [lia|]. rewrite Hci in Hcont. simpl in Hcont.
  pose proof (tail_ok_continues _ _ _ Ht Hci) as Hx. unfold continuation in Hx. congruence.
Qed.

(** A unit that fits takes the positions tracked in it along. *)
Lemma append_follows pr pre cs rest b k :
  cs ≠ [] → (length cs ≤ b_columns b)%nat → (origin k (b_origins b)).1 = pr →
  Z.of_nat (length pre) ≤ (origin k (b_origins b)).2 < Z.of_nat (length pre + length cs) →
  follows k ((pre ++ cs ++ rest) !! Z.to_nat (origin k (b_origins b)).2) (append_unit pr (length pre) (length cs) cs b).
Proof using Type.
  intros Hne Hfits Hpr Hrange. pose proof (append_mapped pr (length pre) (length cs) cs b k) as Hm. cbv zeta in Hm.
  set (o := origin k (b_origins b)) in *. assert (fitted (b_columns b) cs = cs) as Hfit.
  { unfold fitted. by rewrite decide_True. }
  rewrite decide_True, Hfit in Hm by lia. eexists. split; [exact Hm|].
  pose proof (append_cell pr (length pre) (length cs) cs b (Z.to_nat o.2 - length pre)) as Hat. rewrite Hfit in Hat.
  rewrite Nat.min_l, Hat by lia. rewrite lookup_app_r, lookup_app_l by lia. done.
Qed.

Lemma reflow_cells_exact fuel r pre cs count pr b :
  units cs → cells r = pre ++ cs → short (cells r) → b_columns b = width → built b →
  (length pre ≤ count ≤ row_len r)%nat → continues (cells r) count = false → (count - length pre ≤ fuel)%nat →
  Z.of_nat width ≤ i32_max →
  ∃ b', reflow_cells fuel (length pre) count r pr cw b = Ok b' ∧
    built_stream b' = built_stream b ++ inks (take (count - length pre) cs) ∧
    ∀ k, let o := origin k (b_origins b) in o.1 = pr → Z.of_nat (length pre) ≤ o.2 < Z.of_nat count →
      follows k (cells r !! Z.to_nat o.2) b'.
Proof using Type.
  intros Hu. revert fuel pre b. induction Hu as [|leader tail rest Hl Hlead Ht Hw Hk Hu IH];
    intros fuel pre b Hr Hsh Hcol Hb Hc Hcont Hf Hwm.
  { assert (count = length pre) as -> by (unfold row_len in Hc; rewrite Hr, app_nil_r in Hc; lia).
    exists b. destruct fuel; cbn [reflow_cells]; rewrite bool_decide_false by lia;
      (split_and!; [done|by rewrite take_nil, app_nil_r|lia]). }
  destruct (decide (count = length pre)) as [->|Hne].
  { exists b. destruct fuel; cbn [reflow_cells]; rewrite bool_decide_false by lia;
      (split_and!; [done|by rewrite Nat.sub_diag, take_0, app_nil_r|lia]). }
  pose proof (wide_ok_fresh _ (units_wide _ Hu)) as Hfresh.
  assert (length pre + S (length tail) ≤ count)%nat as Hend.
  { rewrite Hr in Hcont. apply (count_past_group pre leader tail rest); [done..|lia]. }
  destruct fuel as [|fuel]; [lia|]. cbn [reflow_cells]. rewrite bool_decide_true by lia.
  rewrite Hcol, (reflow_unit_exact r pre leader tail rest) by (done || by constructor). cbn [obind].
  set (b1 := append_unit pr (length pre) (S (length tail)) (leader :: tail) b).
  pose proof (append_grows pr (length pre) (S (length tail)) (leader :: tail) b) as Hg. fold b1 in Hg.
  assert (built b1) as Hb1 by (by apply append_built).
  assert (b_columns b1 = width) as Hcol1 by (by rewrite (grows_columns _ _ Hg)).
  assert (length (pre ++ leader :: tail) = length pre + S (length tail))%nat as Hlen by (rewrite length_app; done).
  rewrite <-Hlen. destruct (IH fuel (pre ++ leader :: tail) b1) as (b' & Heq & Hst & Hfol);
    [by rewrite Hr, <-app_assoc|done..|lia|done|lia|done|].
  exists b'. rewrite Heq. split_and!; [done| |].
  - rewrite Hst. unfold b1. rewrite append_stream. unfold fitted. rewrite Hcol, decide_True by (split; [simpl; lia|done]).
    rewrite <-app_assoc, <-inks_app, Hlen. do 2 f_equal.
    replace (count - length pre)%nat with (S (length tail) + (count - (length pre + S (length tail))))%nat by lia.
    cbn [Nat.add take app]. f_equal. rewrite take_app, (take_ge tail) by lia. do 2 f_equal. lia.
  - intros k. cbv zeta. intros Hpr Hrange. specialize (Hfol k). rewrite (grows_origins _ _ Hg) in Hfol.
    destruct (decide ((origin k (b_origins b)).2 < Z.of_nat (length (pre ++ leader :: tail)))) as [Hin|Hout];
      [|apply Hfol; [done|lia]].
    destruct (reflow_cells_ok fuel (length (pre ++ leader :: tail)) count r pr cw b1) as
      (b'' & Heq' & _ & Hg' & _ & _ & _ & _ & Hkept); [lia..|done|by rewrite Hcol1|].
    assert (b'' = b') as -> by congruence. specialize (Hkept k). cbv zeta in Hkept.
    rewrite (grows_origins _ _ Hg), decide_False in Hkept by lia.
    pose proof (append_follows pr pre (leader :: tail) rest b k ltac:(done) ltac:(simpl; lia) Hpr ltac:(simpl; lia)) as Hap.
    rewrite Hr. destruct (lookup_lt_is_Some_2 (pre ++ (leader :: tail) ++ rest) (Z.to_nat (origin k (b_origins b)).2)) as [c Hcc];
      [rewrite !length_app; simpl; lia|].
    rewrite Hcc in Hap. cbn [app] in Hcc. rewrite Hcc. by eapply follows_kept.
Qed.

(** ** A row *)

Lemma meaningful_spec cs i c : cs !! i = Some c → (meaningful cs ≤ i)%nat → is_filler c = true.
Proof using Type.
  revert i. induction cs as [|x cs IH]; intros i; [done|]. cbn [meaningful].
  destruct i as [|i]; cbn [lookup list_lookup].
  - intros [= ->]. destruct (meaningful cs); [|lia]. destruct (is_filler c); [done|lia].
  - intros Hi Hm. apply (IH i Hi). destruct (meaningful cs); lia.
Qed.

Lemma inks_fillers cs : (∀ c, c ∈ cs → is_filler c = true) → inks cs = [].
Proof using Type.
  intros H. unfold inks. induction cs as [|x cs IH]; [done|]. cbn [List.filter]. rewrite (H x) by (by left).
  apply IH. intros. apply H. by right.
Qed.

Lemma inks_past cs n : (meaningful cs ≤ n)%nat → inks (take n cs) = inks cs.
Proof using Type.
  intros Hn. rewrite <-(take_drop n cs) at 2. rewrite inks_app, (inks_fillers (drop n cs)), app_nil_r; [done|].
  intros c [i Hi]%list_elem_of_lookup. rewrite lookup_drop in Hi. eapply meaningful_spec; [done|lia].
Qed.

Lemma continues_past cs n : (meaningful cs ≤ n)%nat → continues cs n = false.
Proof using Type.
  intros Hn. unfold continues, spacer_at. destruct (cs !! n) as [c|] eqn:Hc; [|done]. simpl.
  pose proof (meaningful_spec _ _ _ Hc Hn) as Hf. unfold is_filler, content_of, spacer_of in *.
  destruct (content c) as [[]| |]; try done. apply Z.eqb_eq in Hf as ->. done.
Qed.

Lemma meaningful_le cs : (meaningful cs ≤ length cs)%nat.
Proof using Type. induction cs; simpl; [done|]. destruct (meaningful cs); [case_match; lia|lia]. Qed.

Lemma cell_count_past pr r o : (meaningful (cells r) ≤ cell_count pr r o ≤ row_len r)%nat.
Proof using Type.
  unfold cell_count, content_count, row_len. pose proof (meaningful_le (cells r)). case_match; lia.
Qed.

(** The line breaks owed count as written. *)
Definition progress_stream (p : progress) : list (option Cell) :=
  built_stream (builder p) ++ replicate (pending_empty_linebreaks p) None.

Lemma reflow_row_exact pr id r p :
  units (cells r) → short (cells r) → b_columns (builder p) = width → built (builder p) → Z.of_nat width ≤ i32_max →
  ∃ p', reflow_row pr id r cw p = Ok p' ∧ progress_stream p' = progress_stream p ++ row_stream r ∧
    ∀ k, let o := origin k (b_origins (builder p)) in o.1 = pr → 0 ≤ o.2 < Z.of_nat (row_len r) →
      follows k (cells r !! Z.to_nat o.2) (builder p').
Proof using Type.
  intros Hu Hsh Hcol Hb Hw. rewrite reflow_row_eq. cbv zeta.
  pose proof (cell_count_past pr r (b_origins (builder p))) as Hcount.
  assert (∀ k, (origin k (b_origins (builder p))).1 = pr → 0 ≤ (origin k (b_origins (builder p))).2 < Z.of_nat (row_len r) →
    (origin k (b_origins (builder p))).2 < Z.of_nat (cell_count pr r (b_origins (builder p)))) as Htrack.
  { intros k Hk Hr. pose proof (tracker_past k pr _ Hk). unfold cell_count. lia. }
  set (count := cell_count _ _ _) in *. set (h := bool_decide (0 < count)%nat).
  destruct (row_start_facts id h p Hb) as (Hb0 & Hg0 & _ & _ & _ & Hst & _).
  destruct (reflow_cells_exact count r [] (cells r) count pr (row_start id h p)) as (b' & Heq & Hst' & Hfol);
    [done|done|done|by rewrite (grows_columns _ _ Hg0)|done|simpl; lia|apply continues_past; lia|simpl; lia|done|].
  cbn [length] in Heq, Hst', Hfol. rewrite Heq. cbn [obind]. eexists. split; [done|]. split.
  - rewrite Nat.sub_0_r, inks_past in Hst' by lia. unfold progress_stream, row_end, row_stream. fold h.
    cbn [builder pending_empty_linebreaks]. destruct h eqn:Hh; rewrite ?andb_true_r, ?andb_false_r; cbn [negb].
    + destruct (linebreak r); cbn [andb replicate]; rewrite ?app_nil_r.
      * change (finish_hard_line b') with (close_with Cell_default true b'). rewrite close_stream, Hst', Hst by done.
        by rewrite <-!app_assoc.
      * by rewrite Hst', Hst.
    + assert (inks (cells r) = []) as Hnil.
      { rewrite <-(inks_past (cells r) 0); [done|]. unfold h in Hh. case_bool_decide; [done|lia]. }
      rewrite Hst', Hst, Hnil. cbn [replicate]. rewrite !app_nil_r, app_nil_l.
      destruct (linebreak r); cbn [andb]; [by rewrite replicate_S_end, app_assoc|by rewrite app_nil_r].
  - intros k. cbv zeta. intros Hk Hr. specialize (Hfol k). rewrite (grows_origins _ _ Hg0) in Hfol. cbv zeta in Hfol.
    specialize (Hfol Hk ltac:(split; [simpl; lia|by apply Htrack])). unfold row_end. cbn [builder]. fold h.
    destruct (linebreak r && h); [|done].
    destruct (lookup_lt_is_Some_2 (cells r) (Z.to_nat (origin k (b_origins (builder p))).2)) as [c Hc]; [unfold row_len in Hr; lia|].
    rewrite Hc in *. eapply follows_kept; [done|apply close_grows|done].
Qed.
(** ** The grid *)

Lemma reflow_rows_exact indices g p :
  (∀ i r, i ∈ indices → slot i g = Some r → units (cells r) ∧ short (cells r)) →
  NoDup indices → b_columns (builder p) = width → built (builder p) → Z.of_nat width ≤ i32_max →
  ∃ p', reflow_rows indices cw g p = Ok p' ∧
    progress_stream p' = progress_stream p ++ stream (omap (λ i, slot i g) indices) ∧
    ∀ k r, let o := origin k (b_origins (builder p)) in o.1 ∈ indices → slot o.1 g = Some r →
      0 ≤ o.2 < Z.of_nat (row_len r) → follows k (cells r !! Z.to_nat o.2) (builder p').
Proof using Type.
  revert p. induction indices as [|i indices IH]; intros p Hunits Hnd Hcol Hb Hw; cbn [reflow_rows].
  { exists p. split_and!; [done|by rewrite app_nil_r|]. intros k r. cbv zeta. intros []%not_elem_of_nil. }
  apply NoDup_cons in Hnd as [Hni Hnd].
  assert (∀ i r, i ∈ indices → slot i g = Some r → units (cells r) ∧ short (cells r)) as Hrest.
  { intros j r Hj. apply Hunits. by right. }
  cbn [omap list_omap]. destruct (slot i g) as [r|] eqn:Hi.
  2:{ destruct (IH p Hrest Hnd Hcol Hb Hw) as (p' & -> & Hst & Hfol). exists p'. split_and!; [done|done|].
      intros k r. cbv zeta. intros [->|Hk]%elem_of_cons; [congruence|]. by apply Hfol. }
  destruct (Hunits i r ltac:(by left) Hi) as [Hu Hsh].
  destruct (reflow_row_exact i (id_at i g) r p Hu Hsh Hcol Hb Hw) as (p1 & Heq & Hst & Hfol).
  destruct (reflow_row_ok i (id_at i g) r cw p Hb ltac:(by rewrite Hcol)) as (p1' & Heq' & [A1 A2 _ _ _ _ _ _]).
  assert (p1' = p1) as -> by congruence. rewrite Heq. cbn [obind].
  assert (b_columns (builder p1) = width) as Hcol1 by (by rewrite (grows_columns _ _ A2)).
  destruct (IH p1 Hrest Hnd Hcol1 A1 Hw) as (p' & Heq2 & Hst' & Hfol'). exists p'. rewrite Heq2.
  split_and!; [done|by rewrite Hst', Hst, <-app_assoc|].
  intros k r'. specialize (Hfol' k r'). rewrite (grows_origins _ _ A2) in Hfol'. cbv zeta in Hfol' |- *.
  intros [Hk|Hk]%elem_of_cons Hr' Hrange; [|by apply Hfol'].
  destruct (reflow_rows_ok indices cw g p1 A1 ltac:(by rewrite Hcol1)) as (p2 & Heq3 & [_ B2 _ _ _ B6 _]).
  assert (p2 = p') as -> by congruence. assert (r' = r) as -> by congruence.
  specialize (Hfol k Hk Hrange). destruct (lookup_lt_is_Some_2 (cells r) (Z.to_nat (origin k (b_origins (builder p))).2)) as [c Hc];
    [unfold row_len in Hrange; lia|].
  rewrite Hc in *. eapply follows_kept; [done|done|]. apply B6. by rewrite (grows_origins _ _ A2), Hk.
Qed.
End text.

(** Every character of the grid can be moved as it is. *)
Definition text_ok (width : Z) (cw : Z → Z) (g : Grid) : Prop :=
  ∀ i r, 0 ≤ i < row_capacity g → slot i g = Some r → units (Z.to_nat width) cw (cells r).

Definition cursor_of (k : tracker) (g : Grid) : option Cursor :=
  match k with AtCursor => Some (cursor g) | AtSavedCursor => Some (saved_cursor g) | AtView => None end.

(** The cell under a cursor. *)
Definition under (c : Cursor) (g : Grid) : option Cell :=
  row (coord_row (position c)) g ≫= λ r, cells r !! Z.to_nat (coord_column (position c)).

Lemma slot_short g i r : grid_ok g → 0 ≤ i < row_capacity g → slot i g = Some r → short (cells r).
Proof.
  intros Hok Hi Hr. pose proof (slots_each _ (ok_slots _ Hok) i Hi) as Hsl. unfold phys, slot_ok in Hsl. rewrite Hr in Hsl.
  pose proof (shape_columns _ (ok_shape _ Hok)). unfold short, usize_max, u64_max, row_len, i32_max in *. lia.
Qed.

Lemma lines_exact width cw g b :
  grid_ok g → 0 < width ≤ i32_max → text_ok width cw g → lines_of width cw g = Ok b →
  (∃ k, stream (retained g) = stream (b_rows b) ++ replicate k None) ∧
  ∀ k c, cursor_of k g = Some c → cursor_fits c g = true →
    ∃ s r, mapped k (b_mappings b) = Some s ∧ b_rows b !! Z.to_nat s.1 = Some r ∧
      cells r !! Z.to_nat s.2 = under c g.
Proof.
  intros Hok Hw Ht Hb. pose proof (ok_shape _ Hok) as Hs. destruct (start_built width g) as [Hb0 _]; [lia|].
  set (xs := chronological (screen_rows g) (row_capacity g) g) in *.
  assert (NoDup xs) as Hnd by (by apply chronological_NoDup).
  destruct (reflow_rows_exact (Z.to_nat width) cw xs g (start_of width g)) as (p & Hp & Hst & Hfol); [|done..|lia|].
  { intros i r Hi%chronological_range Hr; [|done]. split; [by apply (Ht i)|by eapply slot_short]. }
  destruct (reflow_rows_ok xs cw g (start_of width g)) as (p' & Hp' & [P1 P2 P3 _ P5 _ _]); [done|simpl; lia|].
  assert (p' = p) as -> by congruence.
  unfold lines_of in Hb. fold xs in Hb. rewrite Hp in Hb. injection Hb as <-.
  destruct (finish_lines_ok p P1) as (F1 & F2 & _ & F4 & F5). split.
  - exists (pending_empty_linebreaks p). etrans; [exact (eq_sym Hst)|]. unfold progress_stream. f_equal.
    assert (tidy p) as Htidy by (apply P5; by intros []).
    assert (saw_row p = true) as Hsaw.
    { apply P3. right. apply Exists_exists. pose proof (shape_screen _ Hs).
      destruct (screen_slot g 0 Hok ltac:(lia)) as (x & Hx & _). exists (absolute_index 0 g). split; [|by exists x].
      apply chronological_all; [done|]. by apply index_range. }
    unfold finish_lines in *. rewrite Hsaw in *. unfold built_stream. case_bool_decide as Hc; cbn [negb].
    + by rewrite Hc, app_nil_r.
    + rewrite (Htidy Hc). pose proof (close_stream Cell_default false (builder p) eq_refl) as Hcl.
      unfold built_stream in Hcl. cbn [b_current close_with push_current] in Hcl. rewrite !app_nil_r in Hcl. by rewrite <-Hcl.
  - intros k c Hk [Hcol Hrow]%cursor_fits_iff. destruct (screen_slot g _ Hok Hrow) as (x & Hx & Hlen).
    assert (origin k (b_origins (builder (start_of width g))) = (absolute_index (coord_row (position c)) g, coord_column (position c)))
      as Ho by (destruct k; simpl in Hk; simplify_eq; done).
    specialize (Hfol k x). rewrite Ho in Hfol. cbv zeta in Hfol. cbn [fst snd] in Hfol.
    destruct Hfol as (s & Hm & Hat); [by apply chronological_all, index_range|done|lia|].
    assert (under c g = cells x !! Z.to_nat (coord_column (position c))) as Hun.
    { unfold under, row. by rewrite Hx. }
    destruct (lookup_lt_is_Some_2 (cells x) (Z.to_nat (coord_column (position c)))) as [y Hy]; [unfold row_len in Hlen; lia|].
    rewrite Hy in Hat. apply (grows_cells _ _ F2) in Hat. rewrite <-F4 in Hm.
    destruct (closed_mapped _ k s F1 F5 Hm) as (Hs1 & _ & r & Hr & _). exists s, r. split_and!; [done|done|].
    rewrite cell_at_rows, Hr in Hat by (unfold row_count in Hs1; lia). rewrite Hun, Hy. exact Hat.
Qed.
