(* ===== verification/ReflowProps.v ===== *)
(** * Theorems on reflow *)

From stdpp Require Import base list gmap.
From S2P Require Import Prelude RustStd Cell Row RowInv RowProps Coord Grid GridInv GridSteps GridOps Reflow ReflowInv GridProps ReflowText.

#[local] Open Scope Z_scope.

(** The rows a resize leaves, in chronological order. *)
Lemma resized_retained capacity width n b g g' :
  resized capacity width n b g g' → row_count b ≤ capacity →
  retained g' = replicate (Z.to_nat n - length (b_rows b)) (Row_new (Z.to_nat width)) ++ b_rows b.
Proof.
  intros [Hok HC _ Hn Ho _ Hsl _ _ _ _] Hc. unfold row_count in *. rewrite <-Hn. apply retained_ring.
  - apply Hok.
  - unfold row_capacity in HC. lia.
  - by rewrite HC, Hn.
  - by rewrite HC, Hn.
Qed.

Lemma retained_slot g r : shape g → r ∈ retained g ↔ ∃ i, 0 ≤ i < row_capacity g ∧ slot i g = Some r.
Proof.
  intros Hs. unfold retained. rewrite list_elem_of_omap. split.
  - intros (i & Hi & Hr). exists i. split; [by apply chronological_range|done].
  - intros (i & Hi & Hr). exists i. split; [by apply chronological_all|done].
Qed.

(** The newest rows that fit are kept. *)
Lemma trimmed_suffix capacity b :
  built b → b_current b = [] → 0 < capacity →
  ∃ dropped, b_rows b = dropped ++ b_rows (trim_rows capacity b) ∧
    row_count (trim_rows capacity b) ≤ capacity ∧
    (dropped ≠ [] → row_count (trim_rows capacity b) = capacity).
Proof.
  intros Hb Hc Hcap. destruct (trim_rows_ok capacity b Hb Hc Hcap) as (Hrows & Hcount & _).
  set (t := (length (b_rows b) - Z.to_nat capacity)%nat) in *. exists (take t (b_rows b)).
  rewrite Hrows, take_drop. unfold row_count in *. split_and!; [done|lia|].
  intros Hne. destruct (decide (t = 0)%nat) as [Ht|Ht]; [by rewrite Ht in Hne|lia].
Qed.

Lemma new_row_wide n : wide_ok (cells (Row_new n)).
Proof.
  unfold Row_new, mark_cells_clean. cbn [cells]. rewrite fmap_replicate. by apply wide_ok_replicate.
Qed.

(** C28. Reflow is total: from a well-formed grid with headroom it returns, for
    whatever widths the composed characters are given, with a well-formed grid
    of the dimensions asked for whose rows all have new identities. A viewport
    that followed the screen still does, and rows of complete characters become
    rows of complete characters. *)
Theorem reflow_total capacity width n cw g :
  grid_ok g → roomy g → dimensions_ok capacity width n →
  ∃ mapping g', resize_with_reflow capacity width n cw g = (Ok mapping, g') ∧ grid_ok g' ∧
    row_capacity g' = capacity ∧ columns g' = width ∧ screen_rows g' = n ∧
    (∀ r, is_Some (row r g') → next_row_id g ≤ (place r g').2) ∧
    (view_follows_offset g = true → view_follows_offset g' = true) ∧
    (Forall (λ r, wide_ok (cells r)) (retained g) → Forall (λ r, wide_ok (cells r)) (retained g')).
Proof.
  intros Hok Hroom Hd. pose proof Hd as (_ & _ & _ & Hn).
  destruct (resize_with_reflow_runs capacity width n cw g) as (b & Hb & Hspec & m & g' & Hrun & Hrz & _); [done..|].
  pose proof Hrz as [R1 R2 R3 R4 _ R6 _ _ _ R10 _]. exists m, g'. split_and!; try done. intros Hwide.
  destruct (trimmed_suffix capacity b) as (dropped & Hdrop & Hle & _); [apply Hspec..|lia|].
  rewrite (resized_retained _ _ _ _ _ _ Hrz) by done. apply Forall_app. split; [apply Forall_replicate, new_row_wide|].
  destruct (ln_wide _ _ _ _ Hspec) as [Hrows _].
  - intros i r Hi Hr. apply wide_ok_lone_padding. rewrite Forall_forall in Hwide. apply Hwide.
    apply retained_slot; [apply Hok|]. by exists i.
  - rewrite Hdrop in Hrows. by apply Forall_app in Hrows as [_ ?].
Qed.

(** C9. Reflow preserves the text: when every character is complete, fits the
    new width and is as wide as the resolver says, the non-blank cells and the
    hard line breaks of the new rows are those of the old rows in the same
    order, attributes included, except for line breaks at the very end. When
    they need more rows than the capacity, only the oldest are lost; when they
    fill less than a screen, blank rows come first. *)
Theorem reflow_preserves_text capacity width n cw g :
  grid_ok g → roomy g → dimensions_ok capacity width n → text_ok width cw g →
  ∃ mapping g' lost kept trailing, resize_with_reflow capacity width n cw g = (Ok mapping, g') ∧
    stream (retained g) = stream (lost ++ kept) ++ replicate trailing None ∧
    retained g' = replicate (Z.to_nat n - length kept) (Row_new (Z.to_nat width)) ++ kept ∧
    (lost ≠ [] → Z.of_nat (length kept) = capacity).
Proof.
  intros Hok Hroom Hd Ht. pose proof Hd as (_ & _ & Hw & Hn).
  destruct (resize_with_reflow_runs capacity width n cw g) as (b & Hb & Hspec & m & g' & Hrun & Hrz & _); [done..|].
  destruct (trimmed_suffix capacity b) as (dropped & Hdrop & Hle & Hfull); [apply Hspec..|lia|].
  destruct (lines_exact width cw g b) as [[k Hk] _]; [done..|].
  exists m, g', dropped, (b_rows (trim_rows capacity b)), k. split_and!; [done| |by eapply resized_retained|done].
  by rewrite <-Hdrop.
Qed.

(** The place of row [x] of the rows installed. *)
Lemma ring_position capacity width n b g g' x :
  resized capacity width n b g g' → row_count b ≤ capacity → row_count b - n ≤ x → 0 ≤ x < row_count b →
  (x - offset g') mod row_capacity g' < screen_rows g' ∧
  row ((x - offset g') mod row_capacity g') g' = b_rows b !! Z.to_nat x.
Proof.
  intros [Hok HC _ Hn Ho _ Hsl _ _ _] Hc Hx Hr. pose proof (ok_shape _ Hok) as Hs.
  pose proof (shape_screen _ Hs) as Hscr. rewrite HC, Hn in Hscr. split.
  - rewrite HC, Hn, Ho. unfold ring_offset. case_match eqn:E; [apply Z.leb_le in E|apply Z.leb_gt in E].
    + rewrite Z.mod_small by lia. lia.
    + replace (x - (capacity - (n - row_count b))) with (x + (n - row_count b) + (-1) * capacity) by lia.
      rewrite Z_mod_plus_full, Z.mod_small by lia. lia.
  - unfold row, absolute_index. rewrite masked_mod, HC by done. rewrite Zplus_mod_idemp_r.
    replace (offset g' + (x - offset g')) with x by lia. rewrite Z.mod_small, Hsl by lia. unfold ring_slot.
    destruct (lookup_lt_is_Some_2 (b_rows b) (Z.to_nat x)) as [y ->]; [unfold row_count in Hr; lia|done].
Qed.

(** A cursor [c'] at a cell, or after it, where the next character goes, if the
    wrap that was pending at the cell is no longer needed. *)
Definition at_or_after (pending : bool) (width : Z) (p : Coordinate) (c' : Cursor) : Prop :=
  if pending && (coord_column p + 1 <? width)
  then position c' = {| coord_column := coord_column p + 1; coord_row := coord_row p |} ∧ deferred_wrap c' = false
  else position c' = p ∧ deferred_wrap c' = pending.

(** C29. The cursor follows its character: when every character is complete, fits
    the new width and is as wide as the resolver says, reflow records where the
    cell under the cursor went among the rows built, and if that row is one of
    the last [n], which are the new screen, the new cursor is on the same cell;
    if a wrap was pending at the cell and the cell is no longer in the last
    column, the cursor is in the column after it and no wrap is pending. *)
Theorem reflow_cursor_follows capacity width n cw g :
  grid_ok g → roomy g → dimensions_ok capacity width n → text_ok width cw g →
  ∃ mapping g' b s, resize_with_reflow capacity width n cw g = (Ok mapping, g') ∧
    lines_of width cw g = Ok b ∧ mapped_cursor (b_mappings b) = Some s ∧
    (row_count b - n ≤ s.1 →
     ∃ p, under (Cursor_new p) g' = under (cursor g) g ∧ at_or_after (deferred_wrap (cursor g)) width p (cursor g')).
Proof.
  intros Hok Hroom Hd Ht. pose proof Hd as (_ & Hc & Hw & Hn).
  destruct (resize_with_reflow_runs capacity width n cw g) as (b & Hb & Hspec & m & g' & Hrun & Hrz & _); [done..|].
  destruct (lines_exact width cw g b) as [_ Hcur]; [done..|].
  destruct (Hcur AtCursor (cursor g) eq_refl (ok_cursor _ Hok)) as (s & r & Hm & Hr & Hcell).
  exists m, g', b, s. split_and!; [done..|]. intros Hlast.
  pose proof Hspec as [Hbuilt Hcols Hclosed _ _ _].
  destruct (closed_mapped b AtCursor s Hbuilt Hclosed Hm) as (Hs1 & Hs2 & _).
  destruct (trim_rows_ok capacity b Hbuilt Hclosed) as (Hrows & Hcount & Htrim); [lia|].
  set (t := (length (b_rows b) - Z.to_nat capacity)%nat) in *. set (b' := trim_rows capacity b) in *.
  assert (mapped AtCursor (b_mappings b') = Some (s.1 - Z.of_nat t, s.2)) as Hm'.
  { apply Htrim. cbn [fst snd]. unfold row_count in *. split; [lia|]. rewrite Hm. destruct s. simpl. do 2 f_equal. lia. }
  destruct (ring_position capacity width n b' g g' (s.1 - Z.of_nat t) Hrz) as [Hon Hrow]; [unfold row_count in *; lia..|].
  destruct (rz_cursor _ _ _ _ _ _ Hrz _ _ Hm') as [Hwrap Hplace]; [rewrite (rz_columns _ _ _ _ _ _ Hrz); lia|done|].
  rewrite (rz_columns _ _ _ _ _ _ Hrz) in Hwrap, Hplace.
  exists {| coord_column := s.2; coord_row := (s.1 - Z.of_nat t - offset g') mod row_capacity g' |}. split.
  - unfold under at 1. cbn [coord_row coord_column position Cursor_new]. rewrite Hrow, Hrows, lookup_drop.
    replace (t + Z.to_nat (s.1 - Z.of_nat t))%nat with (Z.to_nat s.1) by (unfold row_count in *; lia).
    rewrite Hr. exact Hcell.
  - unfold at_or_after. cbn [coord_row coord_column]. rewrite Hwrap, Hplace. by destruct (deferred_wrap (cursor g)), (s.2 + 1 <? width).
Qed.

(** ** Instances *)

(** Reflowing to the same size maps the identity of the row below a blank row
    (the third, 3) to the new identity of the blank row (5), not to that of the
    row its text is on (6): the mapping is taken before the blank rows owed are
    written. *)
Example reflow_identity_lags :
  let text := imap (λ i c, {| cell_content := Z.of_nat i + 97; attributes := attributes c |}) in
  let write r := edit_row r (λ x, set_cells (text (cells x)) x) in
  match (let! g := lift (with_screen_size 8 2 3) in
         do! put g in do! write 0 in do! write 2 in resize_with_reflow 8 2 3 (λ _, 1)) (empty_grid 8 2 3) with
  | (Ok mapping, g) =>
      Some (mapping, omap (λ r, (λ x, (row_id r g, cell_content <$> cells x)) <$> row r g) [0; 1; 2])
  | _ => None
  end = Some ([(1, 4); (2, 5); (3, 5)],
              [(Some 4, [97; 98]); (Some 5, [0; 0]); (Some 6, [97; 98])]).
Proof. by vm_compute. Qed.

(** Cells that are characters of one column. *)
Definition narrow (c : Cell) : bool :=
  negb (continuation c) && match content_of c with Composed _ => false | _ => true end.

Lemma units_narrow width cw cs : (0 < width)%nat → forallb narrow cs = true → units width cw cs.
Proof.
  intros Hw. induction cs as [|c cs IH]; [constructor|]. cbn [forallb]. rewrite andb_true_iff. intros [Hc Hcs].
  unfold narrow in Hc. apply andb_true_iff in Hc as [Hn Hk].
  apply (units_group width cw c [] cs); [by destruct (continuation c)|done|done|simpl; lia| |auto].
  intros key He. by rewrite He in Hk.
Qed.

Lemma text_ok_narrow width cw g :
  0 < width → forallb (λ r, match r with Some r => forallb narrow (cells r) | None => true end) (rows g) = true →
  text_ok width cw g.
Proof.
  intros Hw Hall i r Hi Hr. apply units_narrow; [lia|]. unfold slot in Hr.
  destruct (rows g !! Z.to_nat i) as [x|] eqn:Hx; [|done]. simpl in Hr. subst x.
  rewrite forallb_forall in Hall. apply (Hall (Some r)). by eapply list_elem_of_In, list_elem_of_lookup_2.
Qed.

(** A soft-wrapped row of four letters at the top of the screen. *)
Definition ex_write (x : Row) : Row :=
  set_linebreak false (set_cells (imap (λ i c, {| cell_content := Z.of_nat i + 97; attributes := attributes c |}) (cells x)) x).

Definition ex_text : Grid := (edit_row 0 ex_write ex_grid).2.

Lemma ex_text_ok : grid_ok ex_text.
Proof.
  destruct (edit_row_runs 0 ex_write ex_grid) as ([] & g & Hg & Hok & _).
  - apply ex_grid_ok.
  - apply ex_grid_ok.
  - rewrite ex_screen. lia.
  - intros x. unfold row_len, ex_write. simpl. by rewrite length_imap.
  - unfold ex_text. rewrite Hg. exact Hok.
Qed.

Lemma ex_text_roomy : roomy ex_text.
Proof. by split; vm_compute. Qed.

Lemma ex_narrower : dimensions_ok 8 3 2.
Proof. unfold dimensions_ok, i32_max. split_and!; done || lia. Qed.

Lemma reflow_total_witness :
  ∃ mapping g', resize_with_reflow 8 3 2 (λ _, 1) ex_text = (Ok mapping, g') ∧ columns g' = 3.
Proof.
  destruct (reflow_total 8 3 2 (λ _, 1) ex_text ex_text_ok ex_text_roomy ex_narrower)
    as (mapping & g' & Hrun & _ & _ & Hcol & _).
  exists mapping, g'. exact (conj Hrun Hcol).
Defined.

Lemma reflow_preserves_text_witness :
  ∃ mapping g' lost kept trailing, resize_with_reflow 8 3 2 (λ _, 1) ex_text = (Ok mapping, g') ∧
    stream (retained ex_text) = stream (lost ++ kept) ++ replicate trailing None.
Proof.
  destruct (reflow_preserves_text 8 3 2 (λ _, 1) ex_text ex_text_ok ex_text_roomy ex_narrower)
    as (mapping & g' & lost & kept & trailing & Hrun & Hst & _); [apply text_ok_narrow; by vm_compute|].
  exists mapping, g', lost, kept, trailing. exact (conj Hrun Hst).
Defined.

Lemma reflow_cursor_follows_witness :
  ∃ mapping g' b s, resize_with_reflow 8 3 2 (λ _, 1) ex_text = (Ok mapping, g') ∧
    lines_of 3 (λ _, 1) ex_text = Ok b ∧ mapped_cursor (b_mappings b) = Some s.
Proof.
  destruct (reflow_cursor_follows 8 3 2 (λ _, 1) ex_text ex_text_ok ex_text_roomy ex_narrower)
    as (mapping & g' & b & s & Hrun & Hb & Hm & _); [apply text_ok_narrow; by vm_compute|].
  exists mapping, g', b, s. exact (conj Hrun (conj Hb Hm)).
Defined.
