(* ===== verification/Composed.v ===== *)
(** * Composed characters ([splinterm-terminal/src/composed.rs])

    The table that gives sequences of characters their keys. The map
    [by_sequence] is a [gmap]; the width of a character is what the
    [unicode-width] crate says, a parameter. The table is specified by
    [table_ok]: the map and the entries are inverse to each other. *)

From stdpp Require Import base list gmap.
From S2P Require Import Prelude RustStd Cell.

#[local] Open Scope Z_scope.

(** [UnicodeWidthChar::width]. *)
Class UnicodeWidth := char_width : Z → option Z.

Definition MAX_CHECKPOINT_COMPOSED_ENTRIES : Z := Z.shiftl 1 16.
Definition MAX_CHECKPOINT_COMPOSED_CHARS : Z := 1024.

Record Entry := { chars : list Z; entry_width : Z }.

Record ComposedTable := {
  by_sequence : gmap (list Z) Z;
  entries : list Entry;
  limit : Z;
}.

Definition ComposedTable_new (limit : Z) : ComposedTable :=
  {| by_sequence := ∅; entries := []; limit := limit |}.

(** The number of entries. *)
Definition checkpoint_entry_count (t : ComposedTable) : Z := Z.of_nat (length (entries t)).

Section table.
Context {W : UnicodeWidth}.

(** [UnicodeWidthChar::width(first).unwrap_or(0).max(1)]. *)
Definition sequence_width (cs : list Z) : Z :=
  Z.max (default 0 (head cs ≫= char_width)) 1.

Definition intern (cs : list Z) (t : ComposedTable) : option Z * ComposedTable :=
  match by_sequence t !! cs with
  | Some key => (Some key, t)
  | None =>
      let count := checkpoint_entry_count t in
      if (limit t <=? count) || (0x3fffffff <? count) then (None, t)
      else if u32_max <? count then (None, t)
      else (Some count,
            {| by_sequence := <[cs := count]> (by_sequence t);
               entries := entries t ++ [{| chars := cs; entry_width := sequence_width cs |}];
               limit := limit t |})
  end.

Definition composed_chars (key : Z) (t : ComposedTable) : option (list Z) :=
  chars <$> entries t !! Z.to_nat key.

Definition composed_width (key : Z) (t : ComposedTable) : Z :=
  match entries t !! Z.to_nat key with Some e => entry_width e | None => 1 end.

(** The loop of [validate_and_rebuild_checkpoint]. *)
Fixpoint rebuild (index : Z) (es : list Entry) (rebuilt : gmap (list Z) Z) : option (gmap (list Z) Z) :=
  match es with
  | [] => Some rebuilt
  | e :: es =>
      if bool_decide (chars e = []) then None
      else if MAX_CHECKPOINT_COMPOSED_CHARS <? Z.of_nat (length (chars e)) then None
      else if u32_max <? index then None
      else if negb (entry_width e =? sequence_width (chars e)) then None
      else if bool_decide (is_Some (rebuilt !! chars e)) then None
      else rebuild (index + 1) es (<[chars e := index]> rebuilt)
  end.

Definition validate_and_rebuild_checkpoint (expected_limit : Z) (t : ComposedTable)
    : bool * ComposedTable :=
  let count := checkpoint_entry_count t in
  if negb (limit t =? expected_limit) || (limit t <? count) || (MAX_CHECKPOINT_COMPOSED_ENTRIES <? count)
  then (false, t)
  else
    match rebuild 0 (entries t) ∅ with
    | None => (false, t)
    | Some m => (true, {| by_sequence := m; entries := entries t; limit := limit t |})
    end.

(** ** The table is a bijection between keys and sequences *)

Record table_ok (t : ComposedTable) : Prop := {
  table_inverse cs key :
    by_sequence t !! cs = Some key ↔ 0 ≤ key ∧ ∃ w, entries t !! Z.to_nat key = Some {| chars := cs; entry_width := w |};
  table_widths : Forall (λ e, entry_width e = sequence_width (chars e)) (entries t);
  table_size : checkpoint_entry_count t ≤ COMPOSED_KEY_MAX + 1;
}.

Lemma table_new_ok limit : table_ok (ComposedTable_new limit).
Proof using Type. split; [|constructor|done]. intros cs key. simpl. split; [done|]. intros (_ & w & [=]). Qed.

(** Adding an entry for a new sequence. *)
Lemma table_push es m cs l w :
  table_ok {| by_sequence := m; entries := es; limit := l |} → m !! cs = None → w = sequence_width cs →
  Z.of_nat (length es) ≤ COMPOSED_KEY_MAX →
  table_ok {| by_sequence := <[cs := Z.of_nat (length es)]> m;
              entries := es ++ [{| chars := cs; entry_width := w |}]; limit := l |}.
Proof using Type.
  intros [Hinv Hw Hsize] Hnew -> Hroom. cbn [by_sequence entries] in *. split; cbn [by_sequence entries].
  2:{ apply Forall_app. by repeat constructor. }
  2:{ unfold checkpoint_entry_count. cbn [entries]. rewrite length_app. simpl. lia. }
  intros cs' key. destruct (decide (cs' = cs)) as [->|Hne].
  - rewrite lookup_insert_eq. split.
    + intros [= <-]. split; [lia|]. rewrite Nat2Z.id, lookup_app_r, Nat.sub_diag by lia. by eexists.
    + intros (H0 & w & Hk). destruct (decide (Z.to_nat key < length es)%nat) as [Hlt|Hge].
      * rewrite lookup_app_l in Hk by done. assert (m !! cs = Some key) by (apply Hinv; eauto). congruence.
      * apply lookup_lt_Some in Hk. rewrite length_app in Hk. simpl in Hk. f_equal. lia.
  - rewrite lookup_insert_ne by done. rewrite Hinv. split; intros (H0 & w & Hk); (split; [done|]); exists w.
    + rewrite lookup_app_l by (by eapply lookup_lt_Some). done.
    + destruct (decide (Z.to_nat key < length es)%nat) as [Hlt|Hge]; [by rewrite lookup_app_l in Hk|].
      pose proof (lookup_lt_Some _ _ _ Hk) as Hl. rewrite length_app in Hl. simpl in Hl.
      rewrite lookup_app_r in Hk by lia. replace (Z.to_nat key - length es)%nat with 0%nat in Hk by lia. simpl in Hk. congruence.
Qed.

Lemma intern_ok cs t : table_ok t → table_ok (intern cs t).2.
Proof using Type.
  intros Ht. unfold intern. destruct (by_sequence t !! cs) eqn:Hc; [done|]. cbv zeta.
  destruct (limit t <=? _); [done|]. cbn [orb]. destruct (Z.ltb_spec 0x3fffffff (checkpoint_entry_count t)) as [|Hroom]; [done|].
  destruct (u32_max <? _); [done|]. simpl. destruct t. by apply table_push.
Qed.

(** No entry is wider than two columns. *)
Definition table_narrow (t : ComposedTable) : Prop := Forall (λ e, entry_width e ≤ 2) (entries t).

Lemma intern_narrow cs t : table_narrow t → sequence_width cs ≤ 2 → table_narrow (intern cs t).2.
Proof using Type.
  intros Ht Hw. unfold intern. destruct (by_sequence t !! cs); [done|]. cbv zeta. destruct (_ || _); [done|].
  destruct (u32_max <? _); [done|]. unfold table_narrow. simpl. apply Forall_app. split; [done|]. by apply Forall_singleton.
Qed.

(** A combined character leaves the width to the first one. *)
Lemma sequence_width_snoc cs c :
  sequence_width cs ≤ 2 → default 0 (char_width c) ≤ 2 → sequence_width (cs ++ [c]) ≤ 2.
Proof using Type. intros Hcs Hc. destruct cs as [|c' cs]; [|done]. unfold sequence_width. simpl. lia. Qed.

Lemma composed_chars_narrow key t :
  table_ok t → table_narrow t → sequence_width (default [] (composed_chars key t)) ≤ 2.
Proof using Type.
  intros Ht Hn. unfold composed_chars. destruct (entries t !! Z.to_nat key) as [e|] eqn:He; simpl; [|done].
  rewrite <-(Forall_lookup_1 _ _ _ _ (table_widths _ Ht) He). by apply (Forall_lookup_1 _ _ _ _ Hn He).
Qed.

Lemma composed_width_narrow key t : table_narrow t → composed_width key t ≤ 2.
Proof using Type.
  intros Hn. unfold composed_width. destruct (entries t !! Z.to_nat key) as [e|] eqn:He; [|lia].
  by apply (Forall_lookup_1 _ _ _ _ Hn He).
Qed.

Lemma intern_key cs t key t' : table_ok t → intern cs t = (Some key, t') → 0 ≤ key ≤ COMPOSED_KEY_MAX.
Proof using Type.
  intros Ht. unfold intern. destruct (by_sequence t !! cs) as [k|] eqn:Hc.
  - intros [= <- _]. apply (table_inverse _ Ht) in Hc as (H0 & w & Hw). apply lookup_lt_Some in Hw.
    pose proof (table_size _ Ht). unfold checkpoint_entry_count in *. lia.
  - cbv zeta. destruct (limit t <=? _); [done|]. cbn [orb]. destruct (Z.ltb_spec 0x3fffffff (checkpoint_entry_count t)) as [|Hroom]; [done|].
    destruct (u32_max <? _); [done|]. intros [= <- _]. unfold checkpoint_entry_count in *.
    change COMPOSED_KEY_MAX with 0x3fffffff. lia.
Qed.

(** What an entry of a checkpoint must be. *)
Definition entry_ok (e : Entry) : Prop :=
  chars e ≠ [] ∧ Z.of_nat (length (chars e)) ≤ MAX_CHECKPOINT_COMPOSED_CHARS ∧ entry_width e = sequence_width (chars e).

Lemma rebuild_spec es done_ m l :
  table_ok {| by_sequence := m; entries := done_; limit := l |} →
  Z.of_nat (length done_ + length es) ≤ MAX_CHECKPOINT_COMPOSED_ENTRIES →
  match rebuild (Z.of_nat (length done_)) es m with
  | Some m' => table_ok {| by_sequence := m'; entries := done_ ++ es; limit := l |} ∧ Forall entry_ok es ∧
      NoDup (chars <$> es) ∧ ∀ cs, cs ∈ chars <$> es → m !! cs = None
  | None => ¬ (Forall entry_ok es ∧ NoDup (chars <$> es) ∧ ∀ cs, cs ∈ chars <$> es → m !! cs = None)
  end.
Proof using Type.
  revert done_ m. induction es as [|e es IH]; intros d m Ht Hb; cbn [rebuild].
  { rewrite app_nil_r. split_and!; [done|constructor|constructor|]. intros cs []%not_elem_of_nil. }
  destruct (bool_decide_reflect (chars e = [])) as [He|He].
  { intros ([(? & _) _]%Forall_cons & _). done. }
  destruct (Z.ltb_spec MAX_CHECKPOINT_COMPOSED_CHARS (Z.of_nat (length (chars e)))).
  { intros ([(_ & ? & _) _]%Forall_cons & _). lia. }
  destruct (Z.ltb_spec u32_max (Z.of_nat (length d))) as [Hu|_].
  { unfold MAX_CHECKPOINT_COMPOSED_ENTRIES, u32_max in *. change (Z.shiftl 1 16) with 65536 in Hb. lia. }
  destruct (Z.eqb_spec (entry_width e) (sequence_width (chars e))) as [Hw|Hw]; cbn [negb].
  2:{ intros ([(_ & _ & ?) _]%Forall_cons & _). done. }
  destruct (bool_decide_reflect (is_Some (m !! chars e))) as [[k Hk]|Hk].
  { intros (_ & _ & Hfresh). rewrite (Hfresh (chars e)) in Hk by (rewrite fmap_cons; by left). done. }
  assert (m !! chars e = None) as Hnone by (by apply eq_None_not_Some).
  pose proof (table_push d m (chars e) l (entry_width e) Ht Hnone Hw) as Ht'.
  specialize (Ht' ltac:(unfold MAX_CHECKPOINT_COMPOSED_ENTRIES, COMPOSED_KEY_MAX in *; change (Z.shiftl 1 16) with 65536 in Hb; lia)).
  replace {| chars := chars e; entry_width := entry_width e |} with e in Ht' by (by destruct e).
  specialize (IH (d ++ [e]) (<[chars e := Z.of_nat (length d)]> m) Ht').
  rewrite length_app in IH. cbn [length] in IH, Hb. replace (Z.of_nat (length d + 1)) with (Z.of_nat (length d) + 1) in IH by lia.
  specialize (IH ltac:(lia)). destruct (rebuild _ es _) as [m'|].
  - destruct IH as (T & F & N & Hfresh). rewrite <-app_assoc in T. split_and!; [done|by constructor| |].
    + rewrite fmap_cons. constructor; [|done]. intros Hin. specialize (Hfresh _ Hin). by rewrite lookup_insert_eq in Hfresh.
    + rewrite fmap_cons. intros cs [->|Hin]%elem_of_cons; [done|]. specialize (Hfresh _ Hin).
      by apply lookup_insert_None in Hfresh as [? _].
  - intros (F & N & Hfresh). apply IH. apply Forall_cons in F as [_ F]. rewrite fmap_cons in N, Hfresh.
    apply NoDup_cons in N as [Hni N]. split_and!; [done|done|]. intros cs Hin. apply lookup_insert_None. split.
    + apply Hfresh. by right.
    + intros <-. by apply Hni.
Qed.

(** Interning is a stable bijection: a sequence gets the key it already
    has, or the next one while the table has room, and only then; the key is
    one a cell can hold and reads back as the sequence with the width of its
    first character, at least one; every key handed out before reads back as
    before. *)
Theorem intern_stable cs t :
  table_ok t →
  let '(key, t') := intern cs t in
  table_ok t' ∧ limit t' = limit t ∧
  (∀ k s, composed_chars k t = Some s → composed_chars k t' = Some s ∧ composed_width k t' = composed_width k t) ∧
  match key with
  | Some k => 0 ≤ k ≤ COMPOSED_KEY_MAX ∧ composed_chars k t' = Some cs ∧ composed_width k t' = sequence_width cs ∧
      (by_sequence t !! cs = Some k ∧ t' = t ∨
       by_sequence t !! cs = None ∧ k = checkpoint_entry_count t ∧ checkpoint_entry_count t' = k + 1)
  | None => t' = t ∧ by_sequence t !! cs = None ∧
      (limit t ≤ checkpoint_entry_count t ∨ checkpoint_entry_count t = COMPOSED_KEY_MAX + 1)
  end.
Proof using Type.
  intros Ht. pose proof (intern_ok cs t Ht) as Ht'. unfold intern in *. destruct (by_sequence t !! cs) as [k|] eqn:Hc.
  { apply (table_inverse _ Ht) in Hc as Hk. destruct Hk as (H0 & w & Hk).
    pose proof (proj1 (Forall_lookup _ _) (table_widths _ Ht) _ _ Hk) as Hw.
    pose proof (lookup_lt_Some _ _ _ Hk) as Hlt. pose proof (table_size _ Ht) as Hs. unfold checkpoint_entry_count in Hs.
    split_and!; [done|done|done|lia|lia| | |by left].
    - unfold composed_chars. by rewrite Hk.
    - unfold composed_width. by rewrite Hk. }
  cbv zeta in *. destruct (Z.leb_spec (limit t) (checkpoint_entry_count t)) as [Hl|Hl]; cbn [orb] in *.
  { split_and!; try done. by left. }
  pose proof (table_size _ Ht) as Hs. destruct (Z.ltb_spec 0x3fffffff (checkpoint_entry_count t)) as [Hf|Hf].
  { split_and!; try done. right. unfold COMPOSED_KEY_MAX in *. lia. }
  rewrite (proj2 (Z.ltb_ge _ _)) in * by (unfold u32_max; lia).
  assert (Z.to_nat (checkpoint_entry_count t) = length (entries t)) as Hn by (unfold checkpoint_entry_count; lia).
  split_and!; [done|done| |unfold checkpoint_entry_count; lia|unfold COMPOSED_KEY_MAX; lia| | |].
  - intros k s Hk. unfold composed_chars, composed_width in *. cbn [entries].
    apply fmap_Some in Hk as (e & He & ->). by rewrite lookup_app_l, He by (by eapply lookup_lt_Some).
  - unfold composed_chars. cbn [entries]. by rewrite Hn, lookup_app_r, Nat.sub_diag by lia.
  - unfold composed_width. cbn [entries]. by rewrite Hn, lookup_app_r, Nat.sub_diag by lia.
  - right. split_and!; [done|done|]. unfold checkpoint_entry_count. cbn [entries]. rewrite length_app. simpl. lia.
Qed.

(** A deserialized table is accepted exactly when it has the expected
    limit, stays within it and the checkpoint bound, and holds distinct
    nonempty sequences of bounded length with their widths; the map it then
    gets is the inverse of its entries, and nothing else changes. A refused
    table is left as it was. *)
Theorem composed_checkpoint_decides expected_limit t :
  let '(accepted, t') := validate_and_rebuild_checkpoint expected_limit t in
  entries t' = entries t ∧ limit t' = limit t ∧
  (accepted = true ↔ limit t = expected_limit ∧ checkpoint_entry_count t ≤ limit t ∧
     checkpoint_entry_count t ≤ MAX_CHECKPOINT_COMPOSED_ENTRIES ∧ NoDup (chars <$> entries t) ∧
     Forall entry_ok (entries t)) ∧
  if accepted then table_ok t' else t' = t.
Proof using Type.
  unfold validate_and_rebuild_checkpoint. cbv zeta. destruct (Z.eqb_spec (limit t) expected_limit) as [He|He]; cbn [negb orb].
  2:{ split_and!; try done. split; [done|]. by intros [? _]. }
  destruct (Z.ltb_spec (limit t) (checkpoint_entry_count t)) as [Hl|Hl]; cbn [orb].
  { split_and!; try done. split; [done|]. intros (_ & ? & _). lia. }
  destruct (Z.ltb_spec MAX_CHECKPOINT_COMPOSED_ENTRIES (checkpoint_entry_count t)) as [Hm|Hm].
  { split_and!; try done. split; [done|]. intros (_ & _ & ? & _). lia. }
  pose proof (rebuild_spec (entries t) [] ∅ (limit t) (table_new_ok _) Hm) as Hr. change (Z.of_nat (length [])) with 0 in Hr. cbn [app] in Hr.
  destruct (rebuild 0 (entries t) ∅) as [m|].
  - destruct Hr as (T & F & N & _). split_and!; try done.
  - split_and!; try done. split; [done|]. intros (_ & _ & _ & N & F). destruct Hr. split_and!; [done..|]. intros. done.
Qed.
End table.

(** ** Instances *)

(** Characters above 0x1100 take two columns, combining marks none. *)
Definition example_width : UnicodeWidth := λ c, Some (if (0x300 <=? c) && (c <? 0x370) then 0 else if 0x1100 <=? c then 2 else 1).

Lemma intern_stable_witness :
  let '(key, t) := @intern example_width [101; 0x301] (ComposedTable_new 4) in
  table_ok (W := example_width) t ∧ key = Some 0.
Proof.
  pose proof (@intern_stable example_width [101; 0x301] (ComposedTable_new 4) (table_new_ok 4)) as H.
  split; [exact (proj1 H)|reflexivity].
Defined.
