(* ===== verification/Update.v ===== *)
(** * Semantic updates ([splinterm-terminal/src/update.rs], [event.rs], [mode.rs])

    Damage and events of one transition, their accumulation in a [ChangeSet],
    and the coalescing of committed updates. Vector lengths are summed with
    checked arithmetic as in the code. What a change set says about the screen
    is its set of covered rows: [covers] is the abstraction the theorems at the
    end are about. *)

From stdpp Require Import base list.
From S2P Require Import Prelude RustStd Cell Row Coord Grid.

#[local] Open Scope Z_scope.

Inductive ActiveScreen := Normal | Alternate.

Inductive TerminalEvent :=
| Bell
| PtyWrite (bytes : list Z)
| TitleChanged (title : str)
| PaletteChanged (index color : Z)
| UnsupportedSequence (kind : str)
| ImageRejected (kind : str)
| StringTruncated (kind : str)
| EventQueueOverflow.

Inductive TerminalDamage :=
| FullSnapshot
| Rows (start stop : Z)
| ScrollDamage (direction : ScrollDirection) (region : ScrollRegion) (rows : Z)
| CursorDamage (old new : Cursor)
| Modes
| Viewport
| Dimensions
| Scrollback
| Title
| Palette (index : option Z)
| Images (screen : ActiveScreen).

#[export] Instance ActiveScreen_eq_dec : EqDecision ActiveScreen.
Proof. solve_decision. Defined.
#[export] Instance ScrollDirection_eq_dec : EqDecision ScrollDirection.
Proof. solve_decision. Defined.
#[export] Instance ScrollRegion_eq_dec : EqDecision ScrollRegion.
Proof. solve_decision. Defined.
#[export] Instance TerminalEvent_eq_dec : EqDecision TerminalEvent.
Proof. solve_decision. Defined.
#[export] Instance TerminalDamage_eq_dec : EqDecision TerminalDamage.
Proof. solve_decision. Defined.

(** ** Committed updates *)

Abbreviation TerminalRevision := Z (only parsing).

(** [next]; panics when the revision is exhausted. *)
Definition next_revision (r : TerminalRevision) : option TerminalRevision := checked_add64 r 1.

Record TerminalUpdate := {
  update_revision : TerminalRevision;
  update_damage : list TerminalDamage;
  update_events : list TerminalEvent;
}.

(** [try_fold] with [checked_add] over the lengths. *)
Definition total_length {A} (f : TerminalUpdate → list A) (us : list TerminalUpdate) : option Z :=
  foldl (λ total u, total ≫= λ n, checked_add64 n (Z.of_nat (length (f u)))) (Some 0) us.

(** [windows(2).all(|pair| pair[0] + 1 == pair[1])]. *)
Fixpoint contiguous (us : list TerminalUpdate) : bool :=
  match us with
  | a :: ((b :: _) as rest) =>
      bool_decide (checked_add64 (update_revision a) 1 = Some (update_revision b)) && contiguous rest
  | _ => true
  end.

Definition coalesce_publication_summaries (us : list TerminalUpdate) : option TerminalUpdate :=
  total_length update_damage us ≫= λ _,
  total_length update_events us ≫= λ _,
  last us ≫= λ u,
  Some {| update_revision := update_revision u;
          update_damage := us ≫= update_damage;
          update_events := us ≫= update_events |}.

Definition coalesce_contiguous (us : list TerminalUpdate) : option TerminalUpdate :=
  if bool_decide (us = []) || negb (contiguous us) then None
  else coalesce_publication_summaries us.

Definition append_publication_successor (update u : TerminalUpdate) : TerminalUpdate := {|
  update_revision := update_revision update;
  update_damage := update_damage u ++ update_damage update;
  update_events := update_events u ++ update_events update |}.

Record UpdateBatch := {
  batch_base : TerminalRevision;
  batch_current : TerminalRevision;
  batch_updates : list TerminalUpdate;
}.

Record ResnapshotRequired := {
  requested : TerminalRevision;
  oldest_available : TerminalRevision;
  resnapshot_current : TerminalRevision;
}.

(** ** Change sets *)

Definition MERGED_DAMAGE_LIMIT : Z := 262144.

Record ChangeSet := { damage : list TerminalDamage; events : list TerminalEvent }.

Definition ChangeSet_default : ChangeSet := {| damage := []; events := [] |}.

Definition set_damage (d : list TerminalDamage) (c : ChangeSet) : ChangeSet :=
  {| damage := d; events := events c |}.

Definition add_event (e : TerminalEvent) (c : ChangeSet) : ChangeSet :=
  {| damage := damage c; events := events c ++ [e] |}.

Definition is_full (c : ChangeSet) : bool := bool_decide (damage c = [FullSnapshot]).

(** The first [Rows] item is widened when the new range touches it. *)
Fixpoint widen (start stop : Z) (ds : list TerminalDamage) : option (list TerminalDamage) :=
  match ds with
  | [] => None
  | Rows s e :: ds =>
      if (start <=? e) && (s <=? stop) then Some (Rows (Z.min s start) (Z.max e stop) :: ds) else None
  | d :: ds => cons d <$> widen start stop ds
  end.

Definition change_rows (start stop : Z) (c : ChangeSet) : ChangeSet :=
  if (stop <=? start) || is_full c then c
  else
    match widen start stop (damage c) with
    | Some ds => set_damage ds c
    | None => set_damage (damage c ++ [Rows start stop]) c
    end.

Definition change_row (row : Z) (c : ChangeSet) : ChangeSet := change_rows row (row + 1) c.

Definition full (c : ChangeSet) : ChangeSet := set_damage [FullSnapshot] c.

Definition push_damage (d : TerminalDamage) (c : ChangeSet) : ChangeSet :=
  if bool_decide (d = FullSnapshot) then full c
  else if negb (is_full c) && negb (bool_decide (d ∈ damage c)) then set_damage (damage c ++ [d]) c
  else c.

Definition merge (other : ChangeSet) (event_limit : Z) (c : ChangeSet) : ChangeSet :=
  let c :=
    if is_full other then full c
    else if negb (is_full c) then
      let c := set_damage (damage c ++ damage other) c in
      if MERGED_DAMAGE_LIMIT <? Z.of_nat (length (damage c)) then full c else c
    else c in
  let available := saturating_sub event_limit (Z.of_nat (length (events c))) in
  {| damage := damage c; events := events c ++ take (Z.to_nat available) (events other) |}.

Definition is_empty (c : ChangeSet) : bool :=
  bool_decide (damage c = []) && bool_decide (events c = []).

(** ** What a change set covers *)

Definition item_covers (r : Z) (d : TerminalDamage) : Prop :=
  match d with
  | FullSnapshot => True
  | Rows s e => s ≤ r < e
  | _ => False
  end.

Definition covers (r : Z) (c : ChangeSet) : Prop := Exists (item_covers r) (damage c).

(** A full snapshot stands alone and ranges are not empty. *)
Definition canonical (c : ChangeSet) : Prop :=
  damage c = [FullSnapshot] ∨
  Forall (λ d, match d with FullSnapshot => False | Rows s e => s < e | _ => True end) (damage c).

Lemma full_covers r c : covers r (full c).
Proof. constructor. done. Qed.

Lemma is_full_true c : is_full c = true ↔ damage c = [FullSnapshot].
Proof. apply bool_decide_eq_true. Qed.

Lemma canonical_part c : canonical c → is_full c = false →
  Forall (λ d, match d with FullSnapshot => False | Rows s e => s < e | _ => True end) (damage c).
Proof. intros [H|H] Hf; [|done]. apply bool_decide_eq_false in Hf. done. Qed.

Lemma widen_spec start stop ds ds' r :
  start < stop → Forall (λ d, match d with FullSnapshot => False | Rows s e => s < e | _ => True end) ds →
  widen start stop ds = Some ds' →
  (Exists (item_covers r) ds' ↔ Exists (item_covers r) ds ∨ start ≤ r < stop) ∧
  Forall (λ d, match d with FullSnapshot => False | Rows s e => s < e | _ => True end) ds' ∧
  length ds' = length ds.
Proof.
  intros Hlt. revert ds'. induction ds as [|d ds IH]; intros ds' Hc; [done|]. apply Forall_cons in Hc as [Hd Hc].
  assert (∀ ds', (cons d <$> widen start stop ds = Some ds') →
    (Exists (item_covers r) ds' ↔ Exists (item_covers r) (d :: ds) ∨ start ≤ r < stop) ∧
    Forall (λ d, match d with FullSnapshot => False | Rows s e => s < e | _ => True end) ds' ∧
    length ds' = length (d :: ds)) as Hrec.
  { intros x (y & Hy & ->)%fmap_Some. destruct (IH y Hc Hy) as (H1 & H2 & H3).
    rewrite !Exists_cons, H1. split_and!; [tauto|by constructor|simpl; lia]. }
  destruct d as [|s e| | | | | | | | |]; cbn [widen]; try (by apply Hrec).
  destruct (Z.leb_spec start e), (Z.leb_spec s stop); cbn [andb]; try done. intros [= <-].
  rewrite !Exists_cons. cbn [item_covers]. split_and!; [|constructor; [lia|done]|done]. split.
  - intros [?|?]; [|tauto]. destruct (decide (s ≤ r < e)); [tauto|]. right. lia.
  - intros [[?|?]|?]; [left; lia|tauto|left; lia].
Qed.

(** ** Theorems *)

(** Row damage is exact: recording a range of rows makes the change set
    cover precisely the rows it covered and those of the range, whether the
    range is merged into an earlier one or appended; a full snapshot keeps
    covering everything; events are untouched. *)
Theorem change_rows_covers start stop c r :
  canonical c →
  canonical (change_rows start stop c) ∧ events (change_rows start stop c) = events c ∧
  (covers r (change_rows start stop c) ↔ covers r c ∨ start ≤ r < stop ∧ start < stop).
Proof.
  intros Hc. unfold change_rows. destruct (Z.leb_spec stop start) as [Hle|Hlt]; cbn [orb].
  { split_and!; [done..|]. split; [tauto|]. intros [?|?]; [done|lia]. }
  destruct (is_full c) eqn:Hf.
  { split_and!; [done..|]. apply is_full_true in Hf. unfold covers. rewrite Hf.
    split; [intros _|intros _]; [left|]; by constructor. }
  pose proof (canonical_part c Hc Hf) as Hp. destruct (widen start stop (damage c)) as [ds|] eqn:Hw.
  - destruct (widen_spec _ _ _ _ r Hlt Hp Hw) as (H1 & H2 & _). split_and!; [by right|done|].
    unfold covers. cbn [damage set_damage]. rewrite H1. tauto.
  - split_and!; [right; apply Forall_app; by repeat constructor|done|].
    unfold covers. cbn [damage set_damage]. rewrite Exists_app, Exists_cons, Exists_nil. cbn [item_covers]. tauto.
Qed.

(** Merging loses no damage: whatever row either change set covers is
    covered by the merged one, the list of damage stays within its bound, and
    events are kept in order up to the limit. *)
Theorem merge_covers other event_limit c :
  canonical c → canonical other → Z.of_nat (length (damage c)) ≤ MERGED_DAMAGE_LIMIT →
  let c' := merge other event_limit c in
  canonical c' ∧ Z.of_nat (length (damage c')) ≤ MERGED_DAMAGE_LIMIT ∧
  (∀ r, covers r c ∨ covers r other → covers r c') ∧
  (∀ d, d ∈ damage c ∨ d ∈ damage other → d ∈ damage c' ∨ damage c' = [FullSnapshot]) ∧
  events c `prefix_of` events c' ∧ events c' `prefix_of` events c ++ events other ∧
  (Z.of_nat (length (events c)) ≤ event_limit → Z.of_nat (length (events c')) ≤ event_limit).
Proof.
  intros Hc Ho Hl. cbv zeta.
  assert (∀ d : ChangeSet, events d = events c →
    let c' := {| damage := damage d; events := events d ++ take (Z.to_nat (saturating_sub event_limit (Z.of_nat (length (events d))))) (events other) |} in
    events c `prefix_of` events c' ∧ events c' `prefix_of` events c ++ events other ∧
    (Z.of_nat (length (events c)) ≤ event_limit → Z.of_nat (length (events c')) ≤ event_limit)) as Hev.
  { intros d ->. cbn [events]. split_and!; [by apply prefix_app_r|apply prefix_app, prefix_take|].
    intros He. unfold saturating_sub. rewrite length_app, length_take. lia. }
  unfold merge. destruct (is_full other) eqn:Hfo.
  { destruct (Hev (full c) eq_refl) as (E1 & E2 & E3). split_and!; try done; [by left|intros; apply full_covers|intros; by right]. }
  destruct (is_full c) eqn:Hfc; cbn [negb].
  { apply is_full_true in Hfc. destruct (Hev c eq_refl) as (E1 & E2 & E3).
    split_and!; try done; [intros; unfold covers; cbn [damage]; rewrite Hfc; by constructor|intros; by right]. }
  cbn [damage set_damage]. destruct (Z.ltb_spec MERGED_DAMAGE_LIMIT (Z.of_nat (length (damage c ++ damage other)))).
  { destruct (Hev (full (set_damage (damage c ++ damage other) c)) eq_refl) as (E1 & E2 & E3).
    split_and!; try done; [by left|intros; apply full_covers|intros; by right]. }
  destruct (Hev (set_damage (damage c ++ damage other) c) eq_refl) as (E1 & E2 & E3).
  split_and!; try done.
  - right. apply Forall_app. split; by apply canonical_part.
  - intros r. unfold covers. cbn [damage set_damage]. rewrite Exists_app; tauto.
  - intros d Hd. left. cbn [damage set_damage]. rewrite elem_of_app. tauto.
Qed.

(** ** Witnesses *)

Definition ex_change : ChangeSet := {| damage := [Title; Rows 2 4]; events := [Bell] |}.

Lemma ex_change_canonical : canonical ex_change.
Proof. right. repeat constructor. Qed.

Lemma change_rows_covers_witness :
  canonical (change_rows 4 6 ex_change) ∧ events (change_rows 4 6 ex_change) = [Bell] ∧
  (covers 5 (change_rows 4 6 ex_change) ↔ covers 5 ex_change ∨ 4 ≤ 5 < 6 ∧ 4 < 6).
Proof. apply (change_rows_covers 4 6 ex_change 5). apply ex_change_canonical. Defined.

Lemma merge_covers_witness :
  let c' := merge ex_change 1 ex_change in
  canonical c' ∧ Z.of_nat (length (damage c')) ≤ MERGED_DAMAGE_LIMIT ∧
  (∀ r, covers r ex_change ∨ covers r ex_change → covers r c') ∧
  (∀ d, d ∈ damage ex_change ∨ d ∈ damage ex_change → d ∈ damage c' ∨ damage c' = [FullSnapshot]) ∧
  events ex_change `prefix_of` events c' ∧ events c' `prefix_of` events ex_change ++ events ex_change ∧
  (Z.of_nat (length (events ex_change)) ≤ 1 → Z.of_nat (length (events c')) ≤ 1).
Proof.
  apply (merge_covers ex_change 1 ex_change); [apply ex_change_canonical..|vm_compute; discriminate].
Defined.
