(* ===== verification/Terminal.v ===== *)
(** * The terminal ([splinterm-terminal/src/terminal.rs], [config.rs], [mode.rs])

    The coordinator: two grids, the modes, the attributes, the tab stops, the
    composed table and the committed updates, changed by the actions of the
    parser. A method taking [&mut self] is a computation over the [Terminal].
    [dispatch] handles the actions of text and control functions; the streaming
    actions of the image protocols bypass it. The image plane is used through
    the operations of the class [ImagePlane]: the terminal asks it which rows
    images are anchored to and tells it which cells are overwritten. The text
    of operating system commands is kept as its UTF-8 bytes. Conversions of
    columns and rows between integer types are not repeated: a grid asserts that
    its dimensions and cursors fit [i32]. *)

From stdpp Require Import base list gmap strings.
From S2P Require Import Prelude RustStd Cell Row Coord Grid Reflow Composed Vt Update.

#[local] Open Scope Z_scope.

(** ** Data *)

Inductive MouseTracking := NoTracking | NormalTracking | Button | Any.

Record TerminalModes := {
  insert_mode : bool;
  origin_mode : bool;
  auto_margin : bool;
  reverse_wrap : bool;
  application_cursor : bool;
  application_keypad : bool;
  reverse_video : bool;
  cursor_visible : bool;
  cursor_blink : bool;
  focus_reporting : bool;
  bracketed_paste : bool;
  mouse_tracking : MouseTracking;
  sgr_mouse : bool;
}.

#[export] Instance MouseTracking_eq_dec : EqDecision MouseTracking.
Proof. solve_decision. Defined.
#[export] Instance TerminalModes_eq_dec : EqDecision TerminalModes.
Proof. solve_decision. Defined.

Definition TerminalModes_default : TerminalModes := {|
  insert_mode := false; origin_mode := false; auto_margin := true; reverse_wrap := false;
  application_cursor := false; application_keypad := false; reverse_video := false;
  cursor_visible := true; cursor_blink := true; focus_reporting := false;
  bracketed_paste := false; mouse_tracking := NoTracking; sgr_mouse := false |}.

Definition eta_modes (m : TerminalModes) : TerminalModes := {|
  insert_mode := insert_mode m; origin_mode := origin_mode m; auto_margin := auto_margin m;
  reverse_wrap := reverse_wrap m; application_cursor := application_cursor m;
  application_keypad := application_keypad m; reverse_video := reverse_video m;
  cursor_visible := cursor_visible m; cursor_blink := cursor_blink m;
  focus_reporting := focus_reporting m; bracketed_paste := bracketed_paste m;
  mouse_tracking := mouse_tracking m; sgr_mouse := sgr_mouse m |}.

Definition set_insert_mode (v : bool) (m : TerminalModes) : TerminalModes := ltac:(update_field eta_modes m insert_mode v).
Definition set_origin_mode (v : bool) (m : TerminalModes) : TerminalModes := ltac:(update_field eta_modes m origin_mode v).
Definition set_auto_margin (v : bool) (m : TerminalModes) : TerminalModes := ltac:(update_field eta_modes m auto_margin v).
Definition set_reverse_wrap (v : bool) (m : TerminalModes) : TerminalModes := ltac:(update_field eta_modes m reverse_wrap v).
Definition set_application_cursor (v : bool) (m : TerminalModes) : TerminalModes := ltac:(update_field eta_modes m application_cursor v).
Definition set_application_keypad (v : bool) (m : TerminalModes) : TerminalModes := ltac:(update_field eta_modes m application_keypad v).
Definition set_reverse_video (v : bool) (m : TerminalModes) : TerminalModes := ltac:(update_field eta_modes m reverse_video v).
Definition set_cursor_visible (v : bool) (m : TerminalModes) : TerminalModes := ltac:(update_field eta_modes m cursor_visible v).
Definition set_cursor_blink (v : bool) (m : TerminalModes) : TerminalModes := ltac:(update_field eta_modes m cursor_blink v).
Definition set_focus_reporting (v : bool) (m : TerminalModes) : TerminalModes := ltac:(update_field eta_modes m focus_reporting v).
Definition set_bracketed_paste (v : bool) (m : TerminalModes) : TerminalModes := ltac:(update_field eta_modes m bracketed_paste v).
Definition set_mouse_tracking (v : MouseTracking) (m : TerminalModes) : TerminalModes := ltac:(update_field eta_modes m mouse_tracking v).
Definition set_sgr_mouse (v : bool) (m : TerminalModes) : TerminalModes := ltac:(update_field eta_modes m sgr_mouse v).

(** The configuration the modelled code reads. *)
Record TerminalConfig := {
  scrollback_lines : Z;
  tab_width : Z;
  osc_limit : Z;
  dcs_limit : Z;
  composed_limit : Z;
  event_limit : Z;
  update_history_limit : Z;
  maximum_dimension : Z;
  sixel_enabled : bool;
  sixel_private_palette : bool;
}.

Definition MAX_SIXEL_COLORS : Z := 1024.

Inductive SixelPaletteMode := Private | Shared.

(** What the terminal uses of the image plane, with the image identifiers and
    transfers it keeps beside it. *)
Class ImagePlane := {
  plane : Type;
  plane_metrics : Type;
  plane_metrics_eq_dec :: EqDecision plane_metrics;
  new_plane : plane;
  metrics : plane → plane_metrics;
  has_placements : ActiveScreen → plane → bool;
  retain_anchors : ActiveScreen → gset Z → plane → plane;
  remap_anchors : ActiveScreen → btree Z → plane → bool * plane;
  remove_text_overlaps : ActiveScreen → list Z → Z → Z → Z → Z → plane → bool * plane;
  remove_explicit_placements : ActiveScreen → list Z → gset Z → plane → plane;
  resolve_text_overlaps : ActiveScreen → list Z → plane → bool * plane;
  remove_text_placements_outside_columns : ActiveScreen → Z → plane → bool * plane;
  clear_screen : ActiveScreen → plane → plane;
}.

Section terminal.
Context {W : UnicodeWidth} {I : ImagePlane}.

Record Terminal := {
  normal : Grid;
  alternate : Grid;
  active : ActiveScreen;
  config : TerminalConfig;
  t_attributes : Attributes;
  saved_attributes : Attributes;
  scroll_region : ScrollRegion;
  modes : TerminalModes;
  synchronized_updates : bool;
  synchronized_change : ChangeSet;
  tab_stops : list bool;
  composed : ComposedTable;
  images : plane;
  cell_pixels : option (Z * Z);
  sixel_scrolling : bool;
  sixel_cursor_right : bool;
  sixel_palette_mode : SixelPaletteMode;
  sixel_palette_size : Z;
  sixel_maximum_width : Z;
  sixel_maximum_height : Z;
  title : list Z;
  palette : list Z;
  initial_palette : list Z;
  default_colors : list Z;
  initial_default_colors : list Z;
  t_events : list TerminalEvent;
  event_overflowed : bool;
  t_revision : Z;
  update_history : list TerminalUpdate;
  current_change : option ChangeSet;
}.

Definition eta_terminal (t : Terminal) : Terminal := {|
  normal := normal t; alternate := alternate t; active := active t; config := config t;
  t_attributes := t_attributes t; saved_attributes := saved_attributes t;
  scroll_region := scroll_region t; modes := modes t;
  synchronized_updates := synchronized_updates t; synchronized_change := synchronized_change t;
  tab_stops := tab_stops t; composed := composed t; images := images t; cell_pixels := cell_pixels t;
  sixel_scrolling := sixel_scrolling t; sixel_cursor_right := sixel_cursor_right t;
  sixel_palette_mode := sixel_palette_mode t; sixel_palette_size := sixel_palette_size t;
  sixel_maximum_width := sixel_maximum_width t; sixel_maximum_height := sixel_maximum_height t;
  title := title t; palette := palette t; initial_palette := initial_palette t;
  default_colors := default_colors t; initial_default_colors := initial_default_colors t;
  t_events := t_events t; event_overflowed := event_overflowed t; t_revision := t_revision t;
  update_history := update_history t; current_change := current_change t |}.

Definition set_normal (v : Grid) (t : Terminal) : Terminal := ltac:(update_field eta_terminal t normal v).
Definition set_alternate (v : Grid) (t : Terminal) : Terminal := ltac:(update_field eta_terminal t alternate v).
Definition set_active (v : ActiveScreen) (t : Terminal) : Terminal := ltac:(update_field eta_terminal t active v).
Definition put_attributes (v : Attributes) (t : Terminal) : Terminal := ltac:(update_field eta_terminal t t_attributes v).
Definition set_saved_attributes (v : Attributes) (t : Terminal) : Terminal := ltac:(update_field eta_terminal t saved_attributes v).
Definition put_scroll_region (v : ScrollRegion) (t : Terminal) : Terminal := ltac:(update_field eta_terminal t scroll_region v).
Definition set_modes (v : TerminalModes) (t : Terminal) : Terminal := ltac:(update_field eta_terminal t modes v).
Definition set_synchronized_updates (v : bool) (t : Terminal) : Terminal := ltac:(update_field eta_terminal t synchronized_updates v).
Definition set_synchronized_change (v : ChangeSet) (t : Terminal) : Terminal := ltac:(update_field eta_terminal t synchronized_change v).
Definition set_tab_stops (v : list bool) (t : Terminal) : Terminal := ltac:(update_field eta_terminal t tab_stops v).
Definition set_composed (v : ComposedTable) (t : Terminal) : Terminal := ltac:(update_field eta_terminal t composed v).
Definition set_images (v : plane) (t : Terminal) : Terminal := ltac:(update_field eta_terminal t images v).
Definition set_cell_pixels (v : option (Z * Z)) (t : Terminal) : Terminal := ltac:(update_field eta_terminal t cell_pixels v).
Definition set_sixel_scrolling (v : bool) (t : Terminal) : Terminal := ltac:(update_field eta_terminal t sixel_scrolling v).
Definition set_sixel_cursor_right (v : bool) (t : Terminal) : Terminal := ltac:(update_field eta_terminal t sixel_cursor_right v).
Definition set_sixel_palette_mode (v : SixelPaletteMode) (t : Terminal) : Terminal := ltac:(update_field eta_terminal t sixel_palette_mode v).
Definition set_sixel_palette_size (v : Z) (t : Terminal) : Terminal := ltac:(update_field eta_terminal t sixel_palette_size v).
Definition set_sixel_maximum_width (v : Z) (t : Terminal) : Terminal := ltac:(update_field eta_terminal t sixel_maximum_width v).
Definition set_sixel_maximum_height (v : Z) (t : Terminal) : Terminal := ltac:(update_field eta_terminal t sixel_maximum_height v).
Definition set_title (v : list Z) (t : Terminal) : Terminal := ltac:(update_field eta_terminal t title v).
Definition set_palette (v : list Z) (t : Terminal) : Terminal := ltac:(update_field eta_terminal t palette v).
Definition set_default_colors (v : list Z) (t : Terminal) : Terminal := ltac:(update_field eta_terminal t default_colors v).
Definition set_events (v : list TerminalEvent) (t : Terminal) : Terminal := ltac:(update_field eta_terminal t t_events v).
Definition set_event_overflowed (v : bool) (t : Terminal) : Terminal := ltac:(update_field eta_terminal t event_overflowed v).
Definition set_revision (v : Z) (t : Terminal) : Terminal := ltac:(update_field eta_terminal t t_revision v).
Definition set_update_history (v : list TerminalUpdate) (t : Terminal) : Terminal := ltac:(update_field eta_terminal t update_history v).
Definition set_current_change (v : option ChangeSet) (t : Terminal) : Terminal := ltac:(update_field eta_terminal t current_change v).

Abbreviation T := (M Terminal unfinished) (only parsing).

Definition grid (t : Terminal) : Grid := match active t with Normal => normal t | Alternate => alternate t end.

Definition set_grid (g : Grid) (t : Terminal) : Terminal :=
  match active t with Normal => set_normal g t | Alternate => set_alternate g t end.

(** [self.grid_mut().m()], [self.normal.m()] and [self.alternate.m()]. *)
Definition on_grid {A} (m : G A) : T A := λ t, let '(r, g) := m (grid t) in (r, set_grid g t).
Definition on_normal {A} (m : G A) : T A := λ t, let '(r, g) := m (normal t) in (r, set_normal g t).
Definition on_alternate {A} (m : G A) : T A := λ t, let '(r, g) := m (alternate t) in (r, set_alternate g t).

(** [self.grid_mut().row_mut(n).expect(..)], edited by [f]. *)
Definition edit_visible_row (n : Z) (f : Row → outcome unfinished Row) : T unit :=
  on_grid (let! b := row_mut n in
           let! (r, back) := expect b in
           let! r := lift (f r) in
           put (back r)).

(** [row[column]] taken mutably and changed by [f]. *)
Definition edit_cell (column : Z) (f : Cell → outcome Empty_set Cell) (r : Row) : outcome unfinished Row :=
  let? r := index_mut (Z.to_nat column) r in
  match cells r !! Z.to_nat column with
  | Some c =>
      match f c with
      | Ok c => Ok (set_cells (<[Z.to_nat column := c]> (cells r)) r)
      | _ => Panic
      end
  | None => Panic
  end.

(** [self.attributes.background()]. *)
Definition current_background : T Color :=
  let! t := get in expect (background (t_attributes t)).

(** [self.current_change.as_mut().expect(..)], changed by [f]. *)
Definition with_change (f : ChangeSet → ChangeSet) : T unit :=
  let! t := get in
  let! c := expect (current_change t) in
  put (set_current_change (Some (f c)) t).

(** ** Events and updates *)

Definition push_event (e : TerminalEvent) : T unit :=
  do! modify (λ t, match current_change t with
                   | Some c => set_current_change (Some (add_event e c)) t
                   | None => t
                   end) in
  let! t := get in
  if Z.of_nat (length (t_events t)) <? event_limit (config t) then
    put (set_events (t_events t ++ [e]) t)
  else if negb (event_overflowed t) then
    do! put (set_event_overflowed true
               (set_events (alter (λ _, EventQueueOverflow) (length (t_events t) - 1)%nat (t_events t)) t)) in
    modify (λ t, match current_change t with
                 | Some c => set_current_change (Some (add_event EventQueueOverflow c)) t
                 | None => t
                 end)
  else ret tt.

Definition drain_events (t : Terminal) : list TerminalEvent * Terminal :=
  (t_events t, set_event_overflowed false (set_events [] t)).

(** Append a committed change and forget the oldest updates. *)
Definition record_update (change : ChangeSet) : T unit :=
  let! t := get in
  let! revision := expect (next_revision (t_revision t)) in
  let u := {| update_revision := revision; update_damage := damage change; update_events := events change |} in
  let history := update_history t ++ [u] in
  let history := drop (length history - Z.to_nat (update_history_limit (config t))) history in
  put (set_update_history history (set_revision revision t)).

Definition commit_change : T unit :=
  let! t := get in
  match current_change t with
  | None => ret tt
  | Some change =>
      let t := set_current_change None t in
      let limit := event_limit (config t) in
      if synchronized_updates t then
        put (set_synchronized_change (merge change limit (synchronized_change t)) t)
      else
        let held := negb (is_empty (synchronized_change t)) in
        let change := if held then merge change limit (synchronized_change t) else change in
        let t := if held then set_synchronized_change ChangeSet_default t else t in
        do! put t in
        if is_empty change then ret tt else record_update change
  end.

Definition expire_synchronized_updates : T unit :=
  let! t := get in
  if negb (synchronized_updates t) then ret tt
  else
    do! put (set_current_change (Some ChangeSet_default) (set_synchronized_updates false t)) in
    commit_change.

Definition validate_update_base (base : Z) (t : Terminal) : ResnapshotRequired + unit :=
  let oldest := match update_history t with u :: _ => update_revision u - 1 | [] => t_revision t end in
  if (t_revision t <? base) || (base <? oldest)
  then inl {| requested := base; oldest_available := oldest; resnapshot_current := t_revision t |}
  else inr tt.

Definition updates_since (base : Z) (t : Terminal) : ResnapshotRequired + UpdateBatch :=
  match validate_update_base base t with
  | inl e => inl e
  | inr _ => inr {| batch_base := base; batch_current := t_revision t;
                    batch_updates := List.filter (λ u, base <? update_revision u) (update_history t) |}
  end.

Definition update_count_since (base : Z) (t : Terminal) : ResnapshotRequired + Z :=
  match validate_update_base base t with
  | inl e => inl e
  | inr _ => inr (Z.of_nat (length (List.filter (λ u, base <? update_revision u) (update_history t))))
  end.

(** ** Images under the text *)

Definition prune_active_image_anchors : T unit :=
  modify (λ t, if has_placements (active t) (images t)
               then set_images (retain_anchors (active t) (retained_row_ids (grid t)) (images t)) t
               else t).

Definition overwrite_image_cells (start_row end_row start_column end_column : Z) : T unit :=
  let! t := get in
  if negb (has_placements (active t) (images t)) then ret tt
  else
    let! ids := lift (screen_row_ids (grid t)) in
    let '(changed, p) :=
      remove_text_overlaps (active t) ids start_row end_row start_column end_column (images t) in
    do! put (set_images p t) in
    if changed then with_change (push_damage (Images (active t))) else ret tt.

Definition scroll_grid (dir : ScrollDirection) (reg : ScrollRegion) (n : Z) (background : Color) : T unit :=
  let! t := get in
  let track_images := bool_decide (active t = Normal) && has_placements Normal (images t) in
  let! before := lift (if track_images then map_ok Some (screen_row_ids (grid t)) else Ok None) in
  let! result := on_grid (scroll dir reg n background) in
  match before with
  | Some before =>
      if bool_decide (dir = Forward) && (region_start reg =? 0)
         && (region_end reg =? Z.of_nat (length before)) && (0 <? scrolled result) then
        let! t := get in
        let! history := lift (newest_scrollback_row_ids (scrolled result) (normal t)) in
        let replacements := bt_collect (zip (take (Z.to_nat (scrolled result)) before) history) in
        let '(changed, p) := remap_anchors Normal replacements (images t) in
        do! put (set_images p t) in
        if changed then with_change (push_damage (Images Normal)) else ret tt
      else ret tt
  | None => ret tt
  end.

(** ** Cursor movement *)

Definition at_position (column row : Z) (c : Cursor) : Cursor :=
  set_position {| coord_column := column; coord_row := row |} c.

Definition cursor_row (c : Cursor) : Z := coord_row (position c).
Definition cursor_column (c : Cursor) : Z := coord_column (position c).

(** [i32::clamp] for [lo <= hi], where it does not panic: the limits are
    constants, the sides of the screen, or the rows of the scroll region, which
    is never empty ([TerminalInv.to_region]). *)
Definition clamp (x lo hi : Z) : Z := Z.max lo (Z.min x hi).
Definition saturating_add32 (a b : Z) : Z := clamp (a + b) (- 2^31) i32_max.

Definition clear_deferred_wrap (home_column : bool) : T unit :=
  let! t := get in
  let c := set_deferred_wrap false (cursor (grid t)) in
  let c := if home_column then at_position 0 (cursor_row c) c else c in
  on_grid (set_cursor c).

Definition carriage_return : T unit := clear_deferred_wrap true.

Definition line_feed : T unit :=
  let! t := get in
  let c := set_deferred_wrap false (cursor (grid t)) in
  if cursor_row c =? region_end (scroll_region t) - 1 then
    let! background := current_background in
    scroll_grid Forward (scroll_region t) 1 background
  else
    let bottom := screen_rows (grid t) - 1 in
    on_grid (set_cursor (at_position (cursor_column c) (Z.min (cursor_row c + 1) bottom) c)).

Definition reverse_index : T unit :=
  let! t := get in
  let c := set_deferred_wrap false (cursor (grid t)) in
  if cursor_row c =? region_start (scroll_region t) then
    let! background := current_background in
    scroll_grid Reverse (scroll_region t) 1 background
  else
    on_grid (set_cursor (at_position (cursor_column c) (Z.max (cursor_row c - 1) 0) c)).

Definition backspace : T unit :=
  let! t := get in
  let c := cursor (grid t) in
  let c :=
    if deferred_wrap c then set_deferred_wrap false c
    else if 0 <? cursor_column c then at_position (cursor_column c - 1) (cursor_row c) c
    else if reverse_wrap (modes t) && (0 <? cursor_row c) then
      at_position (columns (grid t) - 1) (cursor_row c - 1) c
    else c in
  on_grid (set_cursor c).

(** One step of the tab loop. *)
Definition tab_step (forward : bool) (stops : list bool) (column : Z) : Z :=
  let stop := Z.of_nat (length stops) in
  let is_stop candidate := default false (stops !! Z.to_nat candidate) in
  if forward then default (stop - 1) (find_first is_stop (range (column + 1) stop))
  else default 0 (find_first is_stop (reverse (range 0 column))).

Definition tab (count : Z) (forward : bool) : T unit :=
  let! t := get in
  let c := cursor (grid t) in
  let steps := Z.min count (Z.of_nat (length (tab_stops t))) in
  let column := Nat.iter (Z.to_nat steps) (tab_step forward (tab_stops t)) (cursor_column c) in
  on_grid (set_cursor (set_deferred_wrap false (at_position column (cursor_row c) c))).

Definition param_count (p : Param) : Z := Z.min (Param_value p 1 true) i32_max.
Definition param_usize (p : Param) : Z := Param_value p 1 true.

Definition move_cursor (column_delta row_delta : Z) : T unit :=
  let! t := get in
  let c := cursor (grid t) in
  let max_column := columns (grid t) - 1 in
  let '(min_row, max_row) :=
    if origin_mode (modes t) then (region_start (scroll_region t), region_end (scroll_region t) - 1)
    else (0, screen_rows (grid t) - 1) in
  on_grid (set_cursor (set_deferred_wrap false
    (at_position (clamp (saturating_add32 (cursor_column c) column_delta) 0 max_column)
       (clamp (saturating_add32 (cursor_row c) row_delta) min_row max_row) c))).

Definition set_column (column : Z) : T unit :=
  let! t := get in
  let c := cursor (grid t) in
  on_grid (set_cursor (set_deferred_wrap false
    (at_position (Z.min (Z.min column i32_max) (columns (grid t) - 1)) (cursor_row c) c))).

Definition set_row (row : Z) : T unit :=
  let! t := get in
  let c := cursor (grid t) in
  let base := if origin_mode (modes t) then region_start (scroll_region t) else 0 in
  let max := if origin_mode (modes t) then region_end (scroll_region t) - 1 else screen_rows (grid t) - 1 in
  on_grid (set_cursor (set_deferred_wrap false
    (at_position (cursor_column c) (Z.min (saturating_add32 base (Z.min row i32_max)) max) c))).

Definition set_cursor_position (ps : Params) : T unit :=
  do! set_row (saturating_sub (Param_value (Params_get ps 0) 1 true) 1) in
  set_column (saturating_sub (Param_value (Params_get ps 1) 1 true) 1).

(** ** Printing *)

(** What the cells of a printed character become. *)
Definition write_character (character column write_width : Z) (attrs : Attributes) (r : Row)
    : outcome unfinished Row :=
  let? r := clear_wide_intersections (Z.to_nat column) (Z.to_nat (column + write_width)) r in
  let? r := edit_cell column (set_content (Scalar character)) r in
  let? r := edit_cell column (λ c, Ok (set_attributes attrs c)) r in
  let? r := edit_cell column (λ c, Ok (set_attributes (set_flag Clean false (Cell.attributes c)) c)) r in
  let? r := foldl (λ r offset, let? r := r in
      let? r := edit_cell (column + offset) (set_content (Spacer (write_width - offset))) r in
      edit_cell (column + offset) (λ c, Ok (set_attributes Attributes_default c)) r)
    (Ok r) (range 1 write_width) in
  Ok (set_linebreak true r).

(** A wrap that was deferred happens before the next character. *)
Definition resolve_deferred_wrap : T Cursor :=
  let! t := get in
  let c := cursor (grid t) in
  if deferred_wrap c then
    if auto_margin (modes t) then
      do! edit_visible_row (cursor_row c) (λ r, Ok (set_linebreak false r)) in
      do! on_grid (set_cursor (at_position 0 (cursor_row c) (set_deferred_wrap false c))) in
      do! line_feed in
      let! t := get in ret (cursor (grid t))
    else ret (set_deferred_wrap false c)
  else ret c.

(** The rest of a row too short for a wide character is padded. *)
Definition wrap_wide (column : Z) (c : Cursor) : T Cursor :=
  let! t := get in
  let columns := columns (grid t) in
  let row := cursor_row c in
  do! overwrite_image_cells row (row + 1) column columns in
  do! for_each (range column columns) (λ pad,
        edit_visible_row row (edit_cell pad (set_content (Spacer 0)))) in
  do! edit_visible_row row (λ r, Ok (set_linebreak false r)) in
  do! on_grid (set_cursor (set_deferred_wrap false (at_position 0 row c))) in
  do! line_feed in
  let! t := get in ret (cursor (grid t)).

(** Write a character at a column of the cursor's row and move the cursor. *)
Definition put_character (character column write_width : Z) (c : Cursor) : T unit :=
  let! t := get in
  let columns := columns (grid t) in
  let row := cursor_row c in
  let overwrite_end := if insert_mode (modes t) then columns else column + write_width in
  do! overwrite_image_cells row (row + 1) column overwrite_end in
  do! (if insert_mode (modes t) then
         let! background := current_background in
         edit_visible_row row (insert_cells (Z.to_nat column) (Z.to_nat write_width) background)
       else ret tt) in
  do! edit_visible_row row (write_character character column write_width (t_attributes t)) in
  on_grid (set_cursor
    (if columns <=? column + write_width
     then set_deferred_wrap (auto_margin (modes t)) (at_position (columns - 1) row c)
     else at_position (column + write_width) row c)).

(** The base a combining character is added to. *)
Definition combine (character : Z) : T unit :=
  let! t := get in
  let c := cursor (grid t) in
  let column := cursor_column c in
  if negb (deferred_wrap c) && (column <=? 0) then ret tt
  else
    let base := if deferred_wrap c then column else column - 1 in
    let! r := expect (row (cursor_row c) (grid t)) in
    let base := leader_of (cells r) (Z.to_nat base) in
    let! cell := expect (cells r !! base) in
    let sequence :=
      match content_of cell with
      | Scalar character => Some [character]
      | Composed key => Some (default [] (composed_chars key (composed t)))
      | _ => None
      end in
    match sequence with
    | None => ret tt
    | Some sequence =>
        if 64 <=? Z.of_nat (length sequence) then ret tt
        else
          let '(key, table) := intern (sequence ++ [character]) (composed t) in
          do! put (set_composed table t) in
          match key with
          | Some key => edit_visible_row (cursor_row c) (edit_cell (Z.of_nat base) (set_content (Composed key)))
          | None => ret tt
          end
    end.

Definition print (character : Z) : T unit :=
  let width := default 0 (char_width character) in
  if width =? 0 then combine character
  else
    let! t := get in
    let columns := columns (grid t) in
    if columns <? width then ret tt
    else
      let! c := resolve_deferred_wrap in
      let column := cursor_column c in
      let! t := get in
      if columns <? column + width then
        if auto_margin (modes t) then
          let! c := wrap_wide column c in
          put_character character 0 width c
        else put_character character column 1 c
      else put_character character column width c.

(** ** Erasing and editing *)

Definition erase_line (mode : Z) : T unit :=
  do! clear_deferred_wrap false in
  let! t := get in
  let c := cursor (grid t) in
  let columns := columns (grid t) in
  let! background := current_background in
  let erase_range start stop :=
    do! overwrite_image_cells (cursor_row c) (cursor_row c + 1) start stop in
    edit_visible_row (cursor_row c) (erase (Z.to_nat start) (Z.to_nat stop) background) in
  if mode =? 0 then erase_range (cursor_column c) columns
  else if mode =? 1 then erase_range 0 (cursor_column c + 1)
  else if mode =? 2 then erase_range 0 columns
  else ret tt.

(** [for current in start..stop { row_mut(current).unwrap().erase_all(background) }]. *)
Definition erase_rows (start stop : Z) (background : Color) : T unit :=
  for_each (range start stop) (λ current, edit_visible_row current (erase_all background)).

Definition erase_display (mode : Z) : T unit :=
  do! clear_deferred_wrap false in
  let! t := get in
  let c := cursor (grid t) in
  let row := cursor_row c in
  let column := cursor_column c in
  let columns := columns (grid t) in
  let rows := screen_rows (grid t) in
  let! background := current_background in
  if mode =? 0 then
    do! overwrite_image_cells row (row + 1) column columns in
    do! overwrite_image_cells (row + 1) rows 0 columns in
    do! edit_visible_row row (erase (Z.to_nat column) (Z.to_nat columns) background) in
    erase_rows (row + 1) rows background
  else if mode =? 1 then
    do! overwrite_image_cells 0 row 0 columns in
    do! overwrite_image_cells row (row + 1) 0 (column + 1) in
    do! erase_rows 0 row background in
    edit_visible_row row (erase 0 (Z.to_nat (column + 1)) background)
  else if mode =? 2 then
    do! overwrite_image_cells 0 rows 0 columns in
    let! t := get in
    let! visible := lift (screen_row_ids (grid t)) in
    do! put (set_images (remove_explicit_placements (active t) (ordered_retained_row_ids (grid t))
               (list_to_set visible) (images t)) t) in
    erase_rows 0 rows background
  else if mode =? 3 then on_grid clear_scrollback
  else ret tt.

Definition insert_characters (p : Param) : T unit :=
  do! clear_deferred_wrap false in
  let! t := get in
  let c := cursor (grid t) in
  do! overwrite_image_cells (cursor_row c) (cursor_row c + 1) (cursor_column c) (columns (grid t)) in
  let! background := current_background in
  edit_visible_row (cursor_row c)
    (insert_cells (Z.to_nat (cursor_column c)) (Z.to_nat (param_usize p)) background).

Definition delete_characters (p : Param) : T unit :=
  do! clear_deferred_wrap false in
  let! t := get in
  let c := cursor (grid t) in
  do! overwrite_image_cells (cursor_row c) (cursor_row c + 1) (cursor_column c) (columns (grid t)) in
  let! background := current_background in
  edit_visible_row (cursor_row c)
    (delete_cells (Z.to_nat (cursor_column c)) (Z.to_nat (param_usize p)) background).

Definition erase_characters (p : Param) : T unit :=
  do! clear_deferred_wrap false in
  let! t := get in
  let c := cursor (grid t) in
  let start := cursor_column c in
  let stop := Z.min (Z.min (start + param_usize p) usize_max) (columns (grid t)) in
  do! overwrite_image_cells (cursor_row c) (cursor_row c + 1) start stop in
  let! background := current_background in
  edit_visible_row (cursor_row c) (erase (Z.to_nat start) (Z.to_nat stop) background).

(** [insert_lines] and [delete_lines] scroll the lines from the cursor on. *)
Definition shift_lines (dir : ScrollDirection) (p : Param) : T unit :=
  do! clear_deferred_wrap true in
  let! t := get in
  let row := cursor_row (cursor (grid t)) in
  if (region_start (scroll_region t) <=? row) && (row <? region_end (scroll_region t)) then
    let! reg := lift (ScrollRegion_new row (region_end (scroll_region t))) in
    let count := Z.min (param_usize p) (region_end reg - region_start reg) in
    let! background := current_background in
    scroll_grid dir reg count background
  else ret tt.

Definition insert_lines (p : Param) : T unit := shift_lines Reverse p.
Definition delete_lines (p : Param) : T unit := shift_lines Forward p.

Definition scroll_lines (dir : ScrollDirection) (p : Param) : T unit :=
  let! t := get in
  let reg := scroll_region t in
  let count := Z.min (param_usize p) (region_end reg - region_start reg) in
  let! background := current_background in
  scroll_grid dir reg count background.

Definition set_scroll_region (ps : Params) : T unit :=
  let! t := get in
  let rows := screen_rows (grid t) in
  let start := Z.min (saturating_sub (Param_value (Params_get ps 0) 1 true) 1) (rows - 1) in
  let stop := Z.min (Param_value (Params_get ps 1) rows true) rows in
  if start + 1 <? stop then
    let! reg := lift (ScrollRegion_new start stop) in
    do! modify (put_scroll_region reg) in
    let home := if origin_mode (modes t) then region_start reg else 0 in
    on_grid (set_cursor (Cursor_new {| coord_column := 0; coord_row := home |}))
  else ret tt.

(** ** Saved state and modes *)

Definition save_cursor : T unit :=
  let! t := get in
  do! on_grid (set_saved_cursor (cursor (grid t))) in
  modify (λ t, set_saved_attributes (t_attributes t) t).

Definition restore_cursor : T unit :=
  let! t := get in
  do! on_grid (set_cursor (saved_cursor (grid t))) in
  modify (λ t, put_attributes (saved_attributes t) t).

Definition clamp_position (g : Grid) (p : Coordinate) : Coordinate :=
  {| coord_column := clamp (coord_column p) 0 (columns g - 1);
     coord_row := clamp (coord_row p) 0 (screen_rows g - 1) |}.

Definition select_alternate (enabled save_restore : bool) : T unit :=
  let! t := get in
  if enabled && bool_decide (active t = Normal) then
    do! (if save_restore then save_cursor else ret tt) in
    let! t := get in
    let normal_cursor := position (cursor (normal t)) in
    let! background := current_background in
    do! on_alternate (reset_visible background) in
    do! modify (λ t, set_images (clear_screen Alternate (images t)) t) in
    let! t := get in
    do! on_alternate (set_cursor (Cursor_new (clamp_position (alternate t) normal_cursor))) in
    modify (set_active Alternate)
  else if negb enabled && bool_decide (active t = Alternate) then
    let alternate_cursor := position (cursor (alternate t)) in
    do! modify (set_active Normal) in
    do! on_normal (set_cursor (Cursor_new (clamp_position (normal t) alternate_cursor))) in
    if save_restore then restore_cursor else ret tt
  else ret tt.

Definition set_mode (f : TerminalModes → TerminalModes) : T unit :=
  modify (λ t, set_modes (f (modes t)) t).

(** A mouse mode is only left by the reset that matches it. *)
Definition track_mouse (tracking : MouseTracking) (enabled : bool) (m : TerminalModes) : TerminalModes :=
  if enabled then set_mouse_tracking tracking m
  else if bool_decide (mouse_tracking m = tracking) then set_mouse_tracking NoTracking m
  else m.

Definition set_private_mode (mode : Z) (enabled : bool) : T unit :=
  let! t := get in
  if mode =? 1 then set_mode (set_application_cursor enabled)
  else if mode =? 5 then set_mode (set_reverse_video enabled)
  else if mode =? 6 then
    do! set_mode (set_origin_mode enabled) in
    let row := if enabled then region_start (scroll_region t) else 0 in
    on_grid (set_cursor (Cursor_new {| coord_column := 0; coord_row := row |}))
  else if mode =? 7 then
    do! set_mode (set_auto_margin enabled) in
    on_grid (set_cursor (set_deferred_wrap false (cursor (grid t))))
  else if mode =? 12 then set_mode (set_cursor_blink enabled)
  else if mode =? 25 then set_mode (set_cursor_visible enabled)
  else if mode =? 45 then set_mode (set_reverse_wrap enabled)
  else if (mode =? 47) || (mode =? 1047) then select_alternate enabled false
  else if mode =? 66 then set_mode (set_application_keypad enabled)
  else if mode =? 80 then modify (set_sixel_scrolling (negb enabled))
  else if mode =? 1070 then modify (set_sixel_palette_mode (if enabled then Private else Shared))
  else if mode =? 8452 then modify (set_sixel_cursor_right enabled)
  else if mode =? 1000 then set_mode (track_mouse NormalTracking enabled)
  else if mode =? 1002 then set_mode (track_mouse Button enabled)
  else if mode =? 1003 then set_mode (track_mouse Any enabled)
  else if mode =? 1006 then set_mode (set_sgr_mouse enabled)
  else if mode =? 1048 then if enabled then save_cursor else restore_cursor
  else if mode =? 1049 then select_alternate enabled true
  else if mode =? 1004 then set_mode (set_focus_reporting enabled)
  else if mode =? 2004 then set_mode (set_bracketed_paste enabled)
  else if mode =? 2026 then modify (set_synchronized_updates enabled)
  else ret tt.

Definition set_private_modes (ps : Params) (enabled : bool) : T unit :=
  for_each (range 0 (Z.max (count ps) 1)) (λ index,
    set_private_mode (Param_value (Params_get ps index) 0 false) enabled).

(** ** Attributes *)

Definition update_attributes (f : Attributes → Attributes) : T unit :=
  modify (λ t, put_attributes (f (t_attributes t)) t).

(** [Color::new(source, value)] for a value that fits. *)
Definition indexed (source : ColorSource) (value : Z) : Color := {| source := source; color_value := value |}.

Definition pack_rgb (red green blue : Z) : Color :=
  indexed Rgb (Z.lor (Z.lor (Z.shiftl red 16) (Z.shiftl green 8)) blue).

(** The color and the number of parameters consumed beyond the first. *)
Definition extended_color (ps : Params) (index : Z) : option (Color * Z) :=
  let p := Params_get ps index in
  let at_ i := Param_value (Params_get ps i) 0 false in
  if 0 <? subparam_count p then
    subparam p 0 ≫= λ kind,
    if kind =? 5 then
      subparam p 1 ≫= λ n, Some (indexed Base256 (Z.min n 255), 0)
    else if kind =? 2 then
      subparam p 2 ≫= λ red, subparam p 3 ≫= λ green, subparam p 4 ≫= λ blue,
      Some (pack_rgb (Z.min red 255) (Z.min green 255) (Z.min blue 255), 0)
    else None
  else if (at_ (index + 1) =? 5) && (index + 2 <? count ps) then
    Some (indexed Base256 (Z.min (at_ (index + 2)) 255), 2)
  else if (at_ (index + 1) =? 2) && (index + 4 <? count ps) then
    Some (pack_rgb (Z.min (at_ (index + 2)) 255) (Z.min (at_ (index + 3)) 255)
            (Z.min (at_ (index + 4)) 255), 4)
  else None.

Definition underline_style_of (n : Z) : UnderlineStyle :=
  if n =? 0 then NoUnderline else if n =? 2 then Double else if n =? 3 then Curly
  else if n =? 4 then Dotted else if n =? 5 then Dashed else Single.

Definition between (a code b : Z) : bool := (a <=? code) && (code <=? b).

(** One round of the loop: the attributes and the parameters consumed. *)
Definition sgr_step (ps : Params) (index : Z) (a : Attributes) : Attributes * Z :=
  let p := Params_get ps index in
  let code := Param_value p 0 false in
  let one (a : Attributes) := (a, 1) in
  if code =? 0 then one Attributes_default
  else if code =? 1 then one (set_flag Bold true a)
  else if code =? 2 then one (set_flag Dim true a)
  else if code =? 3 then one (set_flag Italic true a)
  else if code =? 4 then one (set_underline_style (underline_style_of (default 1 (subparam p 0))) a)
  else if code =? 21 then one (set_underline_style Double a)
  else if code =? 5 then one (set_flag Blink true a)
  else if code =? 7 then one (set_flag Cell.Reverse true a)
  else if code =? 8 then one (set_flag Conceal true a)
  else if code =? 9 then one (set_flag Strikethrough true a)
  else if code =? 22 then one (set_flag Dim false (set_flag Bold false a))
  else if code =? 23 then one (set_flag Italic false a)
  else if code =? 24 then one (set_underline_style NoUnderline a)
  else if code =? 25 then one (set_flag Blink false a)
  else if code =? 27 then one (set_flag Cell.Reverse false a)
  else if code =? 28 then one (set_flag Conceal false a)
  else if code =? 29 then one (set_flag Strikethrough false a)
  else if between 30 code 37 then one (set_foreground (indexed Base16 (code - 30)) a)
  else if code =? 39 then one (set_foreground Color_default a)
  else if code =? 59 then one (set_underline_color Color_default a)
  else if between 40 code 47 then one (set_background (indexed Base16 (code - 40)) a)
  else if code =? 49 then one (set_background Color_default a)
  else if between 90 code 97 then one (set_foreground (indexed Base16 (code - 90 + 8)) a)
  else if between 100 code 107 then one (set_background (indexed Base16 (code - 100 + 8)) a)
  else if (code =? 38) || (code =? 48) || (code =? 58) then
    match extended_color ps index with
    | Some (color, consumed) =>
        (if code =? 38 then set_foreground color a
         else if code =? 48 then set_background color a
         else set_underline_color color a, consumed + 1)
    | None => one a
    end
  else one a.

(** [while index < params.count()]; every round consumes a parameter, so the
    count is enough fuel. *)
Fixpoint sgr_loop (fuel : nat) (ps : Params) (index : Z) (a : Attributes) : Attributes :=
  match fuel with
  | O => a
  | S fuel =>
      if index <? count ps then
        let '(a, consumed) := sgr_step ps index a in
        sgr_loop fuel ps (index + consumed) a
      else a
  end.

Definition sgr (ps : Params) : T unit :=
  if count ps =? 0 then update_attributes (λ _, Attributes_default)
  else update_attributes (sgr_loop (Z.to_nat (count ps)) ps 0).

(** ** Reports *)

Definition ESC : Z := 27.

Definition signed_to_string (n : Z) : str := if n <? 0 then lit "-" ++ to_string (- n) else to_string n.

Definition reply_bytes (bytes : list Z) : T unit := push_event (PtyWrite bytes).

Definition device_status (private : option Z) (code : Z) : T unit :=
  let! t := get in
  if bool_decide (private = None) && (code =? 5) then reply_bytes (ESC :: lit "[0n")
  else if (bool_decide (private = None) || bool_decide (private = Some 63)) && (code =? 6) then
    let c := cursor (grid t) in
    let row := (if origin_mode (modes t) then cursor_row c - region_start (scroll_region t)
                else cursor_row c) + 1 in
    let prefix := if bool_decide (private = Some 63) then lit "?" else [] in
    reply_bytes (ESC :: lit "[" ++ prefix ++ signed_to_string row ++ lit ";"
                   ++ signed_to_string (cursor_column c + 1) ++ lit "R")
  else ret tt.

Definition device_attributes (private : option Z) : T unit :=
  let! t := get in
  match private with
  | None => if sixel_enabled (config t) then reply_bytes (ESC :: lit "[?62;4;22c")
            else reply_bytes (ESC :: lit "[?62;22c")
  | Some p => if p =? 62 then reply_bytes (ESC :: lit "[>0;1;0c") else ret tt
  end.

Definition clear_tabs (mode : Z) : T unit :=
  let! t := get in
  if mode =? 0 then
    let column := cursor_column (cursor (grid t)) in
    do! assert_ (column <? Z.of_nat (length (tab_stops t))) in
    put (set_tab_stops (<[Z.to_nat column := false]> (tab_stops t)) t)
  else if mode =? 3 then put (set_tab_stops (replicate (length (tab_stops t)) false) t)
  else ret tt.

Definition report_sixel_colors (n : Z) : T unit :=
  reply_bytes (ESC :: lit "[?1;0;" ++ to_string n ++ lit "S").

Definition saturating_mul32 (a b : Z) : Z := Z.min (a * b) u32_max.

Definition report_sixel_geometry (maximum : bool) : T unit :=
  let! t := get in
  let '(width, height) :=
    if maximum then (sixel_maximum_width t, sixel_maximum_height t)
    else
      let '(cell_width, cell_height) := default (0, 0) (cell_pixels t) in
      (Z.min (saturating_mul32 (Z.min (columns (grid t)) u32_max) cell_width) (sixel_maximum_width t),
       Z.min (saturating_mul32 (Z.min (screen_rows (grid t)) u32_max) cell_height) (sixel_maximum_height t)) in
  reply_bytes (ESC :: lit "[?2;0;" ++ to_string width ++ lit ";" ++ to_string height ++ lit "S").

Definition xtsmgraphics (ps : Params) : T unit :=
  let! t := get in
  let at_ i := Param_value (Params_get ps i) 0 false in
  let report_colors size :=
    do! modify (set_sixel_palette_size size) in report_sixel_colors size in
  let geometry width height :=
    do! modify (λ t, set_sixel_maximum_height height (set_sixel_maximum_width width t)) in
    report_sixel_geometry false in
  let limit := maximum_dimension (config t) in
  if at_ 0 =? 1 then
    if at_ 1 =? 1 then report_sixel_colors (sixel_palette_size t)
    else if at_ 1 =? 2 then report_colors MAX_SIXEL_COLORS
    else if at_ 1 =? 3 then report_colors (clamp (at_ 2) 2 MAX_SIXEL_COLORS)
    else if at_ 1 =? 4 then report_sixel_colors MAX_SIXEL_COLORS
    else ret tt
  else if at_ 0 =? 2 then
    if at_ 1 =? 1 then report_sixel_geometry false
    else if at_ 1 =? 2 then geometry limit limit
    else if at_ 1 =? 3 then geometry (Z.min (at_ 2) limit) (Z.min (at_ 3) limit)
    else if at_ 1 =? 4 then report_sixel_geometry true
    else ret tt
  else ret tt.

(** ** Operating system commands *)

(** [u32::from_str_radix(value, 16)]: an optional plus sign and hex digits. *)
Definition hex_digit (c : Z) : option Z :=
  if between 48 c 57 then Some (c - 48)
  else if between 97 c 102 then Some (c - 87)
  else if between 65 c 70 then Some (c - 55)
  else None.

Fixpoint parse_hex_digits (acc : Z) (s : list Z) : option Z :=
  match s with
  | [] => Some acc
  | c :: s => hex_digit c ≫= λ d,
      if 16 * acc + d <=? u32_max then parse_hex_digits (16 * acc + d) s else None
  end.

Definition from_str_radix_16 (s : list Z) : option Z :=
  match (match s with 43 :: s => s | _ => s end) with
  | [] => None
  | s => parse_hex_digits 0 s
  end.

(** A component of one to four digits scaled to eight bits. *)
Definition rgb_component (value : list Z) : option Z :=
  if bool_decide (value = []) || bool_decide (4 < length value)%nat then None
  else
    from_str_radix_16 value ≫= λ raw,
    let max := Z.shiftl 1 (Z.of_nat (length value) * 4) - 1 in
    Some ((raw * 255 + max / 2) / max).

Definition rgb_triple (red green blue : Z) : Z := Z.lor (Z.lor (Z.shiftl red 16) (Z.shiftl green 8)) blue.

Definition parse_rgb (spec : list Z) : option Z :=
  match strip_prefix (lit "#") spec with
  | Some hex =>
      if bool_decide (length hex = 3)%nat then
        from_str_radix_16 hex ≫= λ v,
        let part mask shift := Z.shiftl (Z.land v mask) shift in
        Some (Z.lor (part 0xf00 12) (Z.lor (part 0x0f0 8) (Z.lor (part 0x00f 4)
                (Z.lor (part 0xf00 8) (Z.lor (part 0x0f0 4) (Z.land v 0x00f))))))
      else if bool_decide (length hex = 6)%nat then from_str_radix_16 hex
      else None
  | None =>
      strip_prefix (lit "rgb:") spec ≫= λ rgb,
      match split_on 47 rgb with
      | red :: green :: blue :: _ =>
          rgb_component red ≫= λ red, rgb_component green ≫= λ green, rgb_component blue ≫= λ blue,
          Some (rgb_triple red green blue)
      | _ => None
      end
  end.

Definition hex_char (d : Z) : Z := if d <? 10 then 48 + d else 87 + d.

(** [{x:02x}] twice, for a byte. *)
Definition hex_twice (x : Z) : list Z :=
  let two := [hex_char (x / 16); hex_char (x mod 16)] in two ++ two.

Definition terminator_bytes (terminator : StringTerminator) : list Z :=
  match terminator with Vt.Bell => [7] | ST => [ESC; 92] end.

(** [ESC ] command ; rgb:rrrr/gggg/bbbb terminator]. *)
Definition osc_color_reply (command : list Z) (color : Z) (terminator : StringTerminator) : list Z :=
  let byte shift := Z.land (Z.shiftr color shift) 0xff in
  ESC :: lit "]" ++ command ++ lit ";rgb:" ++ hex_twice (byte 16) ++ lit "/" ++ hex_twice (byte 8)
    ++ lit "/" ++ hex_twice (byte 0) ++ terminator_bytes terminator.

(** [text.split_once(';')]. *)
Fixpoint split_once (sep : Z) (s : list Z) : option (list Z * list Z) :=
  match s with
  | [] => None
  | c :: s => if c =? sep then Some ([], s)
              else (λ '(a, b), (c :: a, b)) <$> split_once sep s
  end.

Fixpoint osc_palette_fields (fields : list (list Z)) (terminator : StringTerminator) : T unit :=
  match fields with
  | index :: spec :: fields =>
      do! match parse_u64 index with
          | None => ret tt
          | Some i =>
              if 256 <=? i then ret tt
              else if bool_decide (spec = lit "?") then
                let! t := get in
                let! color := expect (palette t !! Z.to_nat i) in
                reply_bytes (osc_color_reply (lit "4;" ++ to_string i) color terminator)
              else
                match parse_rgb spec with
                | Some color =>
                    do! modify (λ t, set_palette (<[Z.to_nat i := color]> (palette t)) t) in
                    push_event (PaletteChanged i color)
                | None => ret tt
                end
          end in
      osc_palette_fields fields terminator
  | _ => ret tt
  end.

Definition osc_palette (data : list Z) (terminator : StringTerminator) : T unit :=
  osc_palette_fields (split_on 59 data) terminator.

(** [10], [11] and [12]: set or query one of the default colors. *)
Definition osc_default_color (command : list Z) (i : nat) (data : list Z) (terminator : StringTerminator) : T unit :=
  let! t := get in
  if bool_decide (data = lit "?") then
    let! color := expect (default_colors t !! i) in
    reply_bytes (osc_color_reply command color terminator)
  else
    match parse_rgb data with
    | Some color =>
        do! put (set_default_colors (<[i := color]> (default_colors t)) t) in
        push_event (PaletteChanged (256 + Z.of_nat i) color)
    | None => ret tt
    end.

Definition osc_reset_default_color (i : nat) : T unit :=
  let! t := get in
  let! color := expect (initial_default_colors t !! i) in
  do! put (set_default_colors (<[i := color]> (default_colors t)) t) in
  push_event (PaletteChanged (256 + Z.of_nat i) color).

Definition osc_reset_palette (data : list Z) : T unit :=
  if bool_decide (data = []) then modify (λ t, set_palette (initial_palette t) t)
  else
    for_each (omap parse_u64 (split_on 59 data)) (λ i,
      if i <? 256 then
        let! t := get in
        let! color := expect (initial_palette t !! Z.to_nat i) in
        do! put (set_palette (<[Z.to_nat i := color]> (palette t)) t) in
        push_event (PaletteChanged i color)
      else ret tt).

Definition osc (payload : list Z) (terminator : StringTerminator) : T unit :=
  if negb (is_utf8 payload) then ret tt
  else
    let '(command, data) := default (payload, []) (split_once 59 payload) in
    let command_is s := bool_decide (command = lit s) in
    if command_is "0" || command_is "2" then
      do! modify (set_title data) in
      push_event (TitleChanged data)
    else if command_is "4" then osc_palette data terminator
    else if command_is "10" then osc_default_color command 0 data terminator
    else if command_is "11" then osc_default_color command 1 data terminator
    else if command_is "12" then osc_default_color command 2 data terminator
    else if command_is "104" then osc_reset_palette data
    else if command_is "110" then osc_reset_default_color 0
    else if command_is "111" then osc_reset_default_color 1
    else if command_is "112" then osc_reset_default_color 2
    else ret tt.

(** ** Construction, resizing and reset *)

Definition checked_next_power_of_two (n : Z) : option Z :=
  let p := if n <=? 1 then 1 else 2 ^ Z.log2_up n in
  if p <=? usize_max then Some p else None.

Definition default_palette : list Z :=
  let base := [0x000000; 0x800000; 0x008000; 0x808000; 0x000080; 0x800080; 0x008080; 0xc0c0c0;
               0x808080; 0xff0000; 0x00ff00; 0xffff00; 0x0000ff; 0xff00ff; 0x00ffff; 0xffffff] in
  let component part := if part =? 0 then 0 else 55 + part * 40 in
  let cube index :=
    let value := index - 16 in
    rgb_triple (component (value / 36)) (component ((value / 6) mod 6)) (component (value mod 6)) in
  let gray offset := let value := 8 + offset * 10 in rgb_triple value value value in
  base ++ (cube <$> range 16 232) ++ (gray <$> range 0 24).

Definition tab_stops_for (columns : Z) (c : TerminalConfig) : list bool :=
  (λ column, (0 <? column) && (column mod tab_width c =? 0)) <$> range 0 columns.

Definition reset_tab_stops (columns : Z) : T unit :=
  modify (λ t, set_tab_stops (tab_stops_for columns (config t)) t).

Definition normal_capacity (rows : Z) (c : TerminalConfig) : outcome unfinished Z :=
  let requested := Z.max (Z.min (scrollback_lines c + rows) usize_max) rows in
  match checked_next_power_of_two requested with
  | Some n => Ok (Z.min n (Z.shiftl 1 30))
  | None => Panic
  end.

Definition alternate_capacity (rows : Z) : outcome unfinished Z :=
  match checked_next_power_of_two rows with
  | Some n => Ok (Z.min n (Z.shiftl 1 30))
  | None => Panic
  end.

Definition Terminal_new (columns rows : Z) (c : TerminalConfig) : outcome unfinished Terminal :=
  if negb ((0 <? columns) && (0 <? rows)) then Panic
  else
    let? n := normal_capacity rows c in
    if n <? rows then Panic
    else
      let? a := alternate_capacity rows in
      if (a <? rows) || (tab_width c <=? 0) || (event_limit c <=? 0) || (update_history_limit c <=? 0)
      then Panic
      else
        let? normal := with_screen_size n columns rows in
        let? alternate := with_screen_size a columns rows in
        let? reg := ScrollRegion_new 0 rows in
        Ok {| normal := normal; alternate := alternate; active := Normal; config := c;
              t_attributes := Attributes_default; saved_attributes := Attributes_default;
              scroll_region := reg; modes := TerminalModes_default;
              synchronized_updates := false; synchronized_change := ChangeSet_default;
              tab_stops := tab_stops_for columns c; composed := ComposedTable_new (composed_limit c);
              images := new_plane; cell_pixels := None; sixel_scrolling := true;
              sixel_cursor_right := false;
              sixel_palette_mode := if sixel_private_palette c then Private else Shared;
              sixel_palette_size := MAX_SIXEL_COLORS; sixel_maximum_width := maximum_dimension c;
              sixel_maximum_height := maximum_dimension c; title := [];
              palette := default_palette; initial_palette := default_palette;
              default_colors := [0xffffff; 0x000000; 0xffffff];
              initial_default_colors := [0xffffff; 0x000000; 0xffffff];
              t_events := []; event_overflowed := false; t_revision := 0; update_history := [];
              current_change := None |}.

Definition reset_terminal : T unit :=
  let! t := get in
  let! fresh := lift (Terminal_new (columns (grid t)) (screen_rows (grid t)) (config t)) in
  do! put fresh in
  do! on_normal (continue_history_namespace (next_row_id (normal t), history_generation (normal t))) in
  do! on_alternate (continue_history_namespace (next_row_id (alternate t), history_generation (alternate t))) in
  modify (λ f, set_current_change (current_change t) (set_update_history (update_history t)
    (set_revision (t_revision t) (set_event_overflowed (event_overflowed t)
      (set_events (t_events t) (set_cell_pixels (cell_pixels t) f)))))).

(** The image anchors of one screen after a resize. *)
Definition resize_images (screen : ActiveScreen) (anchors : btree Z) (columns : option Z) (g : Grid)
    : T bool :=
  let! t := get in
  if negb (has_placements screen (images t)) then ret false
  else
    let '(remapped, p) := remap_anchors screen anchors (images t) in
    let p := retain_anchors screen (retained_row_ids g) p in
    let '(cropped, p) :=
      match columns with
      | Some columns => remove_text_placements_outside_columns screen columns p
      | None => (false, p)
      end in
    let '(resolved, p) := resolve_text_overlaps screen (ordered_retained_row_ids g) p in
    do! put (set_images p t) in
    ret (remapped || cropped || resolved).

Definition resize (new_columns new_rows : Z) : T unit :=
  let! t := get in
  if (columns (normal t) =? new_columns) && (screen_rows (normal t) =? new_rows) then ret tt
  else
    do! put (set_current_change (Some ChangeSet_default) t) in
    let! normal_capacity := lift (normal_capacity new_rows (config t)) in
    let! alternate_capacity := lift (alternate_capacity new_rows) in
    let! normal_anchors := on_normal (resize_with_reflow normal_capacity new_columns new_rows
                                        (λ key, composed_width key (composed t))) in
    let! alternate_anchors :=
      on_alternate (Grid.resize_without_reflow alternate_capacity new_columns new_rows) in
    let! t := get in
    let before := metrics (images t) in
    let! a := resize_images Normal normal_anchors None (normal t) in
    let! b := resize_images Alternate alternate_anchors (Some new_columns) (alternate t) in
    let! reg := lift (ScrollRegion_new 0 new_rows) in
    do! modify (put_scroll_region reg) in
    do! reset_tab_stops new_columns in
    let! t := get in
    do! with_change (λ c, push_damage Scrollback (push_damage Viewport (push_damage Dimensions (full c)))) in
    do! (if a || b || negb (bool_decide (metrics (images t) = before))
         then with_change (push_damage (Images (active t))) else ret tt) in
    commit_change.

(** ** Control functions *)

Definition execute (byte : Z) : T unit :=
  if byte =? 7 then push_event Update.Bell
  else if byte =? 8 then backspace
  else if byte =? 9 then tab 1 true
  else if between 10 byte 12 then line_feed
  else if byte =? 13 then carriage_return
  else ret tt.

Definition esc (intermediates : list Z) (final_byte : Z) : T unit :=
  if negb (bool_decide (intermediates = [])) then ret tt
  else if final_byte =? 55 then save_cursor
  else if final_byte =? 56 then restore_cursor
  else if final_byte =? 68 then line_feed
  else if final_byte =? 69 then do! carriage_return in line_feed
  else if final_byte =? 72 then
    let! t := get in
    let column := cursor_column (cursor (grid t)) in
    do! assert_ (column <? Z.of_nat (length (tab_stops t))) in
    put (set_tab_stops (<[Z.to_nat column := true]> (tab_stops t)) t)
  else if final_byte =? 77 then reverse_index
  else if final_byte =? 99 then reset_terminal
  else if final_byte =? 61 then set_mode (set_application_keypad true)
  else if final_byte =? 62 then set_mode (set_application_keypad false)
  else ret tt.

(** The [match final_byte] of [csi]. *)
Definition csi_function (private : option Z) (ps : Params) (final_byte : Z) : T unit :=
  let p := Params_get ps 0 in
  let first := Param_value p 0 false in
  if final_byte =? 65 then move_cursor 0 (- param_count p)
  else if (final_byte =? 66) || (final_byte =? 101) then move_cursor 0 (param_count p)
  else if (final_byte =? 67) || (final_byte =? 97) then move_cursor (param_count p) 0
  else if final_byte =? 68 then move_cursor (- param_count p) 0
  else if final_byte =? 69 then do! move_cursor 0 (param_count p) in carriage_return
  else if final_byte =? 70 then do! move_cursor 0 (- param_count p) in carriage_return
  else if (final_byte =? 71) || (final_byte =? 96) then set_column (saturating_sub (Param_value p 1 true) 1)
  else if final_byte =? 100 then set_row (saturating_sub (Param_value p 1 true) 1)
  else if (final_byte =? 72) || (final_byte =? 102) then set_cursor_position ps
  else if final_byte =? 74 then erase_display first
  else if final_byte =? 75 then erase_line first
  else if final_byte =? 64 then insert_characters p
  else if final_byte =? 80 then delete_characters p
  else if final_byte =? 88 then erase_characters p
  else if final_byte =? 76 then insert_lines p
  else if final_byte =? 77 then delete_lines p
  else if final_byte =? 83 then scroll_lines Forward p
  else if final_byte =? 84 then scroll_lines Reverse p
  else if final_byte =? 73 then tab (param_usize p) true
  else if final_byte =? 90 then tab (param_usize p) false
  else if final_byte =? 103 then clear_tabs first
  else if ((final_byte =? 104) || (final_byte =? 108)) && (first =? 4) then
    set_mode (set_insert_mode (final_byte =? 104))
  else if final_byte =? 109 then sgr ps
  else if final_byte =? 114 then set_scroll_region ps
  else if final_byte =? 115 then save_cursor
  else if final_byte =? 117 then restore_cursor
  else if final_byte =? 110 then device_status private first
  else if final_byte =? 99 then device_attributes private
  else ret tt.

Definition csi (private : option Z) (intermediates : list Z) (ps : Params) (final_byte : Z) : T unit :=
  let set_or_reset := (final_byte =? 104) || (final_byte =? 108) in
  if negb (bool_decide (intermediates = [])) then
    push_event (UnsupportedSequence (lit "CSI intermediate"))
  else if bool_decide (private = Some 63) && set_or_reset then set_private_modes ps (final_byte =? 104)
  else if bool_decide (private = None) && set_or_reset && (count ps =? 1)
          && (Param_value (Params_get ps 0) 0 false =? 2026) then
    modify (set_synchronized_updates (final_byte =? 108))
  else if bool_decide (private = Some 63) && (final_byte =? 83) then xtsmgraphics ps
  else if negb (bool_decide (private = None))
          && negb ((final_byte =? 99) || (bool_decide (private = Some 63) && (final_byte =? 110)))
  then ret tt
  else csi_function private ps final_byte.

Definition dispatch_inner (a : Action) : T unit :=
  match a with
  | Print c => print c
  | Execute byte => execute byte
  | Esc intermediates n final_byte => esc (take (Z.to_nat n) intermediates) final_byte
  | Csi private intermediates n ps final_byte => csi private (take (Z.to_nat n) intermediates) ps final_byte
  | Osc payload terminator => osc payload terminator
  | Dcs _ => push_event (UnsupportedSequence (lit "DCS"))
  | Vt.StringTruncated kind => push_event (StringTruncated (lit kind))
  | _ => panic
  end.

(** ** Recording what an action changed *)

Inductive ActionHint :=
| HintPrint
| HintExecute (byte : Z)
| HintEsc (final_byte : Z)
| HintCsi (private : option Z) (final_byte first_param : Z)
| HintOsc
| HintDcs
| HintTruncated.

Definition from_action (a : Action) : ActionHint :=
  match a with
  | Print _ => HintPrint
  | Execute byte => HintExecute byte
  | Esc _ _ final_byte => HintEsc final_byte
  | Csi private _ _ ps final_byte =>
      HintCsi private final_byte (Param_value (Params_get ps 0) 0 false)
  | Osc _ _ => HintOsc
  | Vt.StringTruncated _ => HintTruncated
  | _ => HintDcs
  end.

Record ActionBaseline := {
  before_active : ActiveScreen;
  before_normal_generation : Z;
  before_alternate_generation : Z;
  before_cursor : Cursor;
  before_offset : Z;
  before_view : Z;
  before_modes : TerminalModes;
  before_scroll_region : ScrollRegion;
  before_title : list Z;
  before_palette : list Z;
  before_default_colors : list Z;
  before_metrics : plane_metrics;
  row_before : option (Z * Row);
  visible_before : option (list Row);
  before_scrollback_rows : option Z;
}.

(** [K], [@], [P] and [X] edit the cursor's row. *)
Definition is_row_edit (final_byte : Z) : bool :=
  (final_byte =? 75) || (final_byte =? 64) || (final_byte =? 80) || (final_byte =? 88).

(** [grid.snapshot_scrollback_rows(usize::MAX).1]. *)
Definition scrollback_row_count (g : Grid) : outcome unfinished Z :=
  map_ok (λ '(_, available, _, _, _), available) (snapshot_scrollback_rows usize_max g).

Definition action_baseline (hint : ActionHint) (t : Terminal) : outcome unfinished ActionBaseline :=
  let g := grid t in
  let row_number := cursor_row (cursor g) in
  let edited := match hint with HintCsi _ f _ => is_row_edit f | _ => false end in
  let? visible := match hint with
                  | HintCsi _ f first =>
                      if (f =? 74) && negb (first =? 3) then map_ok Some (snapshot_view_rows g) else Ok None
                  | _ => Ok None
                  end in
  let? scrollback := match hint with
                     | HintCsi _ f first =>
                         if (f =? 74) && (first =? 3) then map_ok Some (scrollback_row_count g) else Ok None
                     | _ => Ok None
                     end in
  Ok {| before_active := active t; before_normal_generation := generation (normal t);
        before_alternate_generation := generation (alternate t); before_cursor := cursor g;
        before_offset := offset g; before_view := view g; before_modes := modes t;
        before_scroll_region := scroll_region t; before_title := title t; before_palette := palette t;
        before_default_colors := default_colors t; before_metrics := metrics (images t);
        row_before := if edited then pair row_number <$> row row_number g else None;
        visible_before := visible; before_scrollback_rows := scrollback |}.

(** The content and the attributes that are seen. *)
Definition cell_semantics (c : Cell) :=
  let a := Cell.attributes c in
  (content_of c, get_flag Bold a, get_flag Dim a, get_flag Italic a, underline_style a,
   underline_color a, get_flag Strikethrough a, get_flag Blink a, get_flag Conceal a,
   get_flag Cell.Reverse a, foreground a, Cell.background a).

Definition rows_semantically_equal (left right : Row) : bool :=
  bool_decide (linebreak left = linebreak right) && bool_decide (row_len left = row_len right)
  && bool_decide ((cell_semantics <$> cells left) = (cell_semantics <$> cells right)).

Definition grid_changed (b : ActionBaseline) (t : Terminal) : bool :=
  match active t with
  | Normal => negb (generation (normal t) =? before_normal_generation b)
  | Alternate => negb (generation (alternate t) =? before_alternate_generation b)
  end.

Definition row_changed (b : ActionBaseline) (t : Terminal) : bool :=
  match row_before b with
  | Some (n, r) => match row n (grid t) with
                   | Some after => negb (rows_semantically_equal after r)
                   | None => false
                   end
  | None => false
  end.

Definition visible_changed (b : ActionBaseline) (t : Terminal) : outcome unfinished bool :=
  match visible_before b with
  | Some rs =>
      let? after := snapshot_view_rows (grid t) in
      Ok (negb (bool_decide (length after = length rs))
          || existsb (λ '(l, r), negb (rows_semantically_equal l r)) (zip after rs))
  | None => Ok false
  end.

(** The damage of the rows, by the kind of action. *)
Definition row_damage (hint : ActionHint) (b : ActionBaseline) (visible : bool) (scrollback : option Z)
    (t : Terminal) (c : ChangeSet) : ChangeSet :=
  let height := screen_rows (grid t) in
  let old_row := cursor_row (before_cursor b) in
  let new_row := cursor_row (cursor (grid t)) in
  let reg := scroll_region t in
  match hint with
  | HintPrint => change_rows (Z.min old_row new_row) (Z.min (Z.max old_row new_row + 1) height) c
  | HintCsi _ f first =>
      if is_row_edit f then if row_changed b t then change_row old_row c else c
      else if (f =? 74) && (first =? 3) then
        if bool_decide (scrollback = before_scrollback_rows b) then c else push_damage Scrollback c
      else if f =? 74 then if visible then change_rows 0 height c else c
      else if (f =? 76) || (f =? 77) then change_rows old_row (region_end reg) c
      else if (f =? 83) || (f =? 84) then change_rows (region_start reg) (region_end reg) c
      else c
  | HintExecute byte =>
      if between 10 byte 12 then change_rows (region_start reg) (region_end reg) c else c
  | HintEsc f =>
      if (f =? 68) || (f =? 69) || (f =? 77) then change_rows (region_start reg) (region_end reg) c else c
  | _ => c
  end.

(** The damage of a moved offset. *)
Definition scroll_damage (hint : ActionHint) (b : ActionBaseline) (t : Terminal) (c : ChangeSet)
    : outcome unfinished ChangeSet :=
  let g := grid t in
  let dir := match hint with
             | HintEsc f => if f =? 77 then Reverse else Forward
             | HintCsi _ f _ => if (f =? 76) || (f =? 84) then Reverse else Forward
             | _ => Forward
             end in
  let distance := match dir with
                  | Forward => masked (offset g - before_offset b) g
                  | Reverse => masked (before_offset b - offset g) g
                  end in
  let? reg := match hint with
              | HintCsi _ f _ =>
                  if (f =? 76) || (f =? 77)
                  then ScrollRegion_new (cursor_row (before_cursor b)) (region_end (scroll_region t))
                  else Ok (scroll_region t)
              | _ => Ok (scroll_region t)
              end in
  Ok (push_damage Scrollback (push_damage (ScrollDamage dir reg (Z.min distance (screen_rows g))) c)).

Definition push_damage_if (b : bool) (d : TerminalDamage) (c : ChangeSet) : ChangeSet :=
  if b then push_damage d c else c.

(** The [private: Some(b'?'), final_byte: b'h' | b'l'] arm repeats the first
    condition and is never taken. *)
Definition record_action_changes (b : ActionBaseline) (hint : ActionHint) : T unit :=
  let! t := get in
  let after := cursor (grid t) in
  let! visible := lift (visible_changed b t) in
  let! scrollback := lift (match before_scrollback_rows b with
                           | Some _ => map_ok Some (scrollback_row_count (grid t))
                           | None => Ok None
                           end) in
  let! c := expect (current_change t) in
  let switched := negb (bool_decide (active t = before_active b)) in
  let is_reset := match hint with HintEsc f => f =? 99 | _ => false end in
  let c := if switched || is_reset then full c
           else if grid_changed b t then row_damage hint b visible scrollback t c
           else c in
  let! c := lift (if offset (grid t) =? before_offset b then Ok c else scroll_damage hint b t c) in
  let c := push_damage_if (negb (view (grid t) =? before_view b)) Viewport c in
  let c := push_damage_if (negb (bool_decide (after = before_cursor b))) (CursorDamage (before_cursor b) after) c in
  let c := push_damage_if (negb (bool_decide (modes t = before_modes b))
                           || negb (bool_decide (scroll_region t = before_scroll_region b))) Modes c in
  let c := push_damage_if (negb (bool_decide (title t = before_title b))) Title c in
  let c := push_damage_if (negb (bool_decide (palette t = before_palette b))) (Palette None) c in
  let c := push_damage_if (negb (bool_decide (default_colors t = before_default_colors b))) (Palette None) c in
  let c := push_damage_if (negb (bool_decide (metrics (images t) = before_metrics b))) (Images (active t)) c in
  put (set_current_change (Some c) t).

Definition dispatch (a : Action) : T unit :=
  let hint := from_action a in
  let! t := get in
  let! baseline := lift (action_baseline hint t) in
  do! put (set_current_change (Some ChangeSet_default) t) in
  do! dispatch_inner a in
  do! prune_active_image_anchors in
  do! record_action_changes baseline hint in
  commit_change.
End terminal.
