(* ===== verification/Session.v ===== *)
(** * Bytes into the terminal ([Terminal::advance] of [splinterm-terminal/src/terminal.rs])

    The parser, a field of the terminal in the source, is kept beside it: the
    two only meet here. The actions of the image protocols go to handlers that
    are an argument of the definitions, except for the one that every CAN and SUB
    outside a transfer gives. *)

From stdpp Require Import base list gmap strings.
From S2P Require Import Prelude RustStd Cell Row Coord Grid Reflow Composed Vt Update Terminal.

#[local] Open Scope Z_scope.

(** The actions that bypass [dispatch]. *)
Definition is_image (a : Action) : bool :=
  match a with
  | Print _ | Execute _ | Esc _ _ _ | Csi _ _ _ _ _ | Osc _ _ | Dcs _ | Vt.StringTruncated _ => false
  | _ => true
  end.

(** [ESC c], whose [*self = Self::new(..)] replaces the parser too. *)
Definition resets (a : Action) : bool :=
  match a with
  | Esc intermediates n final_byte => bool_decide (take (Z.to_nat n) intermediates = []) && (final_byte =? 99)
  | _ => false
  end.

Section session.
Context {W : UnicodeWidth} {I : ImagePlane}.

Record Session := { parser : Parser; terminal : Terminal }.

Context (image_action : Action → M Terminal unfinished unit).

Definition parser_after (c : TerminalConfig) (a : Action) (p : Parser) : Parser :=
  if resets a then Parser_new (Terminal.osc_limit c) (Terminal.dcs_limit c) else p.

(** The [match action] of [advance_inner]. [abort_kitty], which CAN and SUB call,
    drops the transfer in [kitty_chunk] and [kitty_upload]; only the handlers of
    the Kitty protocol use these fields, and [Terminal] does not have them. *)
Definition handle (a : Action) : M Session unfinished unit := λ s,
  let '(r, t) :=
    match a with
    | KittyAbort => (Ok tt, terminal s)
    | _ => if is_image a then image_action a (terminal s) else dispatch a (terminal s)
    end in
  (r, {| parser := parser_after (config t) a (parser s); terminal := t |}).

(** [while reprocess]; a byte is processed at most twice. *)
Fixpoint process (rounds : nat) (byte : Z) : M Session unfinished unit :=
  match rounds with
  | O => panic
  | S rounds =>
      let! s := get in
      match feed byte (parser s) with
      | Ok (p, action, again) =>
          do! put {| parser := p; terminal := terminal s |} in
          do! match action with Some a => handle a | None => ret tt end in
          if again then process rounds byte else ret tt
      | _ => panic
      end
  end.

(** The bytes consumed before the one at hand are counted by [offset]. *)
Fixpoint advance_inner (bytes : list Z) (offset : Z) (stop_at_synchronized_boundary : bool)
    : M Session unfinished (Z * bool) :=
  match bytes with
  | [] => ret (offset, false)
  | byte :: bytes =>
      let! s := get in
      let synchronized_before := synchronized_updates (terminal s) in
      do! process 2 byte in
      let! s := get in
      if stop_at_synchronized_boundary && synchronized_before && negb (synchronized_updates (terminal s))
      then ret (offset + 1, true)
      else advance_inner bytes (offset + 1) stop_at_synchronized_boundary
  end.

Definition advance (bytes : list Z) : M Session unfinished unit :=
  do! advance_inner bytes 0 false in ret tt.

Definition advance_to_synchronized_boundary (bytes : list Z) : M Session unfinished (Z * bool) :=
  advance_inner bytes 0 true.

Definition Session_new (columns rows : Z) (c : TerminalConfig) : outcome unfinished Session :=
  map_ok (λ t, {| parser := Parser_new (Terminal.osc_limit c) (Terminal.dcs_limit c); terminal := t |})
    (Terminal_new columns rows c).
End session.
