(* ===== verification/RowEdits.v ===== *)
(** * The edits of the terminal on a row

    The rows the terminal works on are well formed ([wide_ok]), hold contents
    that can be read back and no character wider than two columns: neither a
    longer run of continuations nor a character that says it is wider. Every edit
    of such a row returns such a row of the same width, and [write_character],
    which prints, leaves exactly the character and its continuations. *)

From stdpp Require Import base list gmap strings.
From S2P Require Import Prelude RustStd Cell CellProps Row RowInv RowProps Coord Grid GridInv Reflow Composed Vt Update Terminal.

#[local] Open Scope Z_scope.

(** ** Rows the terminal works on *)

Section rows.
Context {W : UnicodeWidth}.

(** Contents of characters of at most two columns. *)
Definition two_columns (k : CellContent) : Prop :=
  match k with
  | Scalar character => default 0 (char_width character) ≤ 2
  | Spacer n => n ≤ 1
  | _ => True
  end.

Definition cell_good (c : Cell) : Prop := ∃ k, content c = Ok k ∧ two_columns k.

Record row_good (x : Row) : Prop := {
  good_wide : wide_ok (cells x);
  good_cells : Forall cell_good (cells x);
  good_short : short (cells x);
}.

(** An edit returns a good row as wide as the old one. *)
Definition edits (f : Row → outcome unfinished Row) (x : Row) : Prop :=
  ∃ y, f x = Ok y ∧ row_good y ∧ row_len y = row_len x.

Lemma default_good : cell_good Cell_default.
Proof using Type. by eexists. Qed.

Lemma blank_good background : cell_good (blank background).
Proof using Type. by eexists. Qed.

Lemma narrow_good c k : content c = Ok k → two_columns k → cell_good c.
Proof using Type. intros. by exists k. Qed.

Lemma spacer_good c n : cell_good c → spacer_of c = Some n → n ≤ 1.
Proof using Type. intros (k & Hk & H2). unfold spacer_of. rewrite Hk. destruct k; simplify_eq; intros; by simplify_eq. Qed.

Lemma wiped_good P cs cs' : wiped P cs cs' → Forall cell_good cs → Forall cell_good cs'.
Proof using Type.
  intros [_ Hw] Hg. apply Forall_lookup. intros i c Hc. destruct (Hw i) as [H|[H _]].
  - rewrite H in Hc. by eapply Forall_lookup_1.
  - rewrite H in Hc. simplify_eq. apply default_good.
Qed.

Lemma good_edit f x cs d b :
  row_good x → f x = Ok {| cells := cs; dirty := d; linebreak := b |} → wide_ok cs → Forall cell_good cs →
  length cs = row_len x → edits f x.
Proof using Type.
  intros [_ _ Hs] Hf Hw Hc Hl. eexists. split; [exact Hf|]. split; [|done]. split; [done|done|].
  by eapply short_length.
Qed.

Lemma replicate_good n c : cell_good c → Forall cell_good (replicate n c).
Proof using Type. intros. by apply Forall_replicate. Qed.

#[local] Hint Resolve default_good blank_good replicate_good : row_good.

Lemma erase_edits start stop background x :
  row_good x → (start ≤ stop)%nat → (stop ≤ row_len x)%nat → edits (erase start stop background) x.
Proof using Type.
  intros Hx Hle Hlen. destruct (overwrite_wide (blank background) start stop x) as (r1 & H1 & Hl & Hn & Hw & Hok & Hm);
    [apply Hx..|apply blank_narrow|done|done|].
  eapply (good_edit _ _ (take start (cells r1) ++ replicate (stop - start) (blank background) ++ drop stop (cells r1)));
    [done| |done| |].
  - unfold erase. rewrite range_ok, H1 by done. cbn [obind]. fold (blank background). by rewrite Hm.
  - pose proof (wiped_good _ _ _ Hw (good_cells _ Hx)). rewrite !Forall_app. auto using Forall_take, Forall_drop with row_good.
  - rewrite !length_app, length_replicate, length_take, length_drop. fold (row_len r1). lia.
Qed.

Lemma erase_all_edits background x : row_good x → edits (erase_all background) x.
Proof using Type.
  intros Hx. eapply good_edit; [done|apply erase_all_exact|apply wide_ok_replicate, blank_narrow|auto with row_good|].
  apply length_replicate.
Qed.

Lemma insert_cells_edits column n background x :
  row_good x → (column < row_len x)%nat → edits (insert_cells column n background) x.
Proof using Type.
  intros Hx Hcol. destruct n as [|n].
  { exists x. unfold insert_cells. rewrite bool_decide_eq_true_2 by done. by rewrite Nat.min_0_l. }
  destruct (insert_cells_runs column (S n) background x) as (cs & d & Hw & Hok & Hrun); [apply Hx..|done|lia|].
  pose proof (wiped_good _ _ _ Hw (good_cells _ Hx)). destruct Hw as [Hl _].
  eapply good_edit; [done|exact Hrun|exact Hok| |].
  - rewrite !Forall_app. auto using Forall_take, Forall_drop with row_good.
  - fold (row_len x) in Hl. rewrite !length_app, length_replicate, !length_take, length_drop. lia.
Qed.

Lemma delete_cells_edits column n background x :
  row_good x → (column < row_len x)%nat → edits (delete_cells column n background) x.
Proof using Type.
  intros Hx Hcol. destruct n as [|n].
  { exists x. unfold delete_cells. rewrite bool_decide_eq_true_2 by done. by rewrite Nat.min_0_l. }
  destruct (delete_cells_runs column (S n) background x) as (cs & moved & d & Hw & Hm & Hok & Hlen & Hrun);
    [apply Hx..|done|lia|].
  pose proof (wiped_good _ _ _ Hw (good_cells _ Hx)) as Hg. eapply good_edit; [done|exact Hrun|exact Hok| |exact Hlen].
  assert (Forall cell_good moved).
  { destruct Hm as [->|[_ ->]]; [by apply Forall_drop|]. apply Forall_app. split; [|by repeat constructor; apply default_good].
    set (l := drop _ cs). assert (Forall cell_good l) as Hl by by apply Forall_drop.
    destruct l as [|c l _] using rev_ind; [done|]. rewrite removelast_last. by apply Forall_app in Hl as [? _]. }
  rewrite !Forall_app. auto using Forall_take with row_good.
Qed.

Lemma linebreak_edits b x : row_good x → edits (λ r, Ok (set_linebreak b r)) x.
Proof using Type. intros [? ? ?]. by eexists. Qed.

(** ** Single cells *)

(** [row[column]] changed by [f]. *)
Lemma edit_cell_exact column f c c' x :
  0 ≤ column → cells x !! Z.to_nat column = Some c → f (set_clean_cell false c) = Ok c' →
  edit_cell column f x =
    Ok {| cells := <[Z.to_nat column := c']> (cells x); dirty := true; linebreak := linebreak x |}.
Proof using Type.
  intros H0 Hc Hf. unfold edit_cell, index_mut. rewrite bool_decide_eq_true_2 by (by eapply lookup_lt_Some).
  cbn [obind cells]. rewrite list_lookup_alter, decide_True, Hc by done. cbn [fmap option_fmap option_map]. rewrite Hf. unfold set_cells. cbn. do 2 f_equal.
  apply lookup_lt_Some in Hc. apply list_eq. intros j.
  rewrite !list_lookup_insert, length_alter, list_lookup_alter. repeat case_decide; try done. lia.
Qed.

(** ** Printing *)

(** The cells of a character [w] columns wide. *)
Definition leading_cell (character : Z) (attrs : Attributes) : Cell :=
  {| cell_content := character; attributes := set_flag Clean false attrs |}.
Definition spacer_cell (remaining : Z) : Cell :=
  {| cell_content := SPACER_BASE + remaining; attributes := Attributes_default |}.
Definition glyph (character w : Z) (attrs : Attributes) : list Cell :=
  leading_cell character attrs :: ((λ offset, spacer_cell (w - offset)) <$> range 1 w).

Lemma length_glyph character w attrs : 1 ≤ w → length (glyph character w attrs) = Z.to_nat w.
Proof using Type. intros Hw. unfold glyph, range. simpl. rewrite length_fmap, length_seqZ. lia. Qed.

Lemma set_clean_twice b a : set_flag Clean b (set_flag Clean b a) = set_flag Clean b a.
Proof using Type.
  unfold set_flag. cbn [flag_in_style]. unfold set_state_word. cbn [state_and_background style_and_foreground underline_style underline_color].
  f_equal. unfold set_bit. destruct b.
  - by rewrite <-Z.lor_assoc, Z.lor_diag.
  - by rewrite <-Z.land_assoc, Z.land_diag.
Qed.

Lemma spacer_cell_content n : 0 ≤ n → content (spacer_cell n) = Ok (Spacer n).
Proof using Type.
  intros Hn. unfold content. cbn [cell_content spacer_cell].
  assert (COMPOSED_BASE ≤ SPACER_BASE) by (vm_compute; discriminate). assert (COMPOSED_END < SPACER_BASE) by (vm_compute; reflexivity).
  assert (0 < SPACER_BASE) by (vm_compute; reflexivity).
  rewrite (proj2 (Z.eqb_neq _ _)), (proj2 (Z.ltb_ge _ _)), (proj2 (Z.leb_gt _ _)) by lia. do 2 f_equal. lia.
Qed.

Lemma spacer_cell_spacer n : 0 ≤ n → spacer_of (spacer_cell n) = Some n.
Proof using Type. intros Hn. unfold spacer_of. by rewrite spacer_cell_content. Qed.

Lemma spacers_tail w : tail_ok ((λ offset, spacer_cell (w - offset)) <$> range 1 w).
Proof using Type.
  unfold range. remember (Z.to_nat (w - 1)) as n eqn:Hn. assert (∀ a, Z.to_nat (w - a) = n → tail_ok ((λ offset, spacer_cell (w - offset)) <$> seqZ a (w - a))) as H.
  { clear. induction n as [|n IH]; intros a Ha.
    - rewrite seqZ_nil by lia. done.
    - rewrite seqZ_cons by lia. rewrite fmap_cons. split.
      + rewrite spacer_cell_spacer by lia. f_equal. simpl. rewrite length_fmap, length_seqZ. lia.
      + replace (Z.pred (w - a)) with (w - Z.succ a) by lia. apply IH. lia. }
  by apply H.
Qed.

(** One cell of the loop: a continuation with plain attributes. *)
Lemma write_spacer column remaining x :
  0 ≤ column → (Z.to_nat column < row_len x)%nat → SPACER_BASE + remaining ≤ u32_max →
  (let? r := edit_cell column (set_content (Spacer remaining)) x in
   edit_cell column (λ c, Ok (set_attributes Attributes_default c)) r) =
  Ok {| cells := <[Z.to_nat column := spacer_cell remaining]> (cells x); dirty := true; linebreak := linebreak x |}.
Proof using Type.
  intros H0 Hlen Hr. destruct (lookup_lt_is_Some_2 _ _ Hlen) as [c Hc].
  erewrite edit_cell_exact; [|done|exact Hc|].
  2:{ unfold set_content, encode_content. by rewrite (proj2 (Z.leb_le _ _)) by done. }
  cbn [obind]. erewrite edit_cell_exact; [|done| |done].
  2:{ cbn [cells]. apply list_lookup_insert_Some. left. split_and!; done. }
  cbn [cells]. rewrite list_insert_insert_eq. done.
Qed.

Lemma write_spacers n a column w x :
  Z.to_nat (w - a) = n → a ≤ w → 0 ≤ column → 0 ≤ a → column + w ≤ Z.of_nat (row_len x) → w ≤ i32_max →
  foldl (λ r offset, let? r := r in
      let? r := edit_cell (column + offset) (set_content (Spacer (w - offset))) r in
      edit_cell (column + offset) (λ c, Ok (set_attributes Attributes_default c)) r)
    (Ok x) (range a w) =
  Ok {| cells := take (Z.to_nat (column + a)) (cells x) ++ ((λ offset, spacer_cell (w - offset)) <$> range a w)
                 ++ drop (Z.to_nat (column + w)) (cells x);
        dirty := dirty x || (a <? w); linebreak := linebreak x |}.
Proof using Type.
  revert a x. induction n as [|n IH]; intros a x Hn Haw Hcol Ha Hlen Hw; unfold range.
  { assert (a = w) as -> by lia. rewrite Z.sub_diag, Z.ltb_irrefl, orb_false_r. simpl. rewrite take_drop. by destruct x. }
  rewrite seqZ_cons by lia. cbn [foldl fmap list_fmap].
  assert (SPACER_BASE + i32_max ≤ u32_max) as Hsp by (vm_compute; discriminate).
  cbn [obind]. rewrite write_spacer by (unfold row_len in *; lia).
  replace (Z.pred (w - a)) with (w - Z.succ a) by lia. fold (range (Z.succ a) w).
  rewrite IH; [|lia..|unfold row_len; cbn [cells]; rewrite length_insert; fold (row_len x); lia|done].
  cbn [cells linebreak dirty]. rewrite (proj2 (Z.ltb_lt a w)), orb_true_r by lia. do 2 f_equal.
  rewrite drop_insert_lt by lia. replace (Z.to_nat (column + Z.succ a)) with (S (Z.to_nat (column + a))) by lia.
  rewrite (take_S_r _ _ (spacer_cell (w - a))).
  2:{ apply list_lookup_insert_Some. left. split_and!; [done|done|]. unfold row_len in *. lia. }
  rewrite take_insert_ge by lia. by rewrite <-app_assoc.
Qed.

Lemma leading_cell_content character attrs :
  is_scalar character = true → character ≠ 0 → content (leading_cell character attrs) = Ok (Scalar character).
Proof using Type.
  intros Hs H0. unfold content. cbn [cell_content leading_cell]. rewrite (proj2 (Z.eqb_neq _ _)), Hs by done.
  rewrite (proj2 (Z.ltb_lt _ _)); [done|]. unfold is_scalar in Hs. unfold COMPOSED_BASE. lia.
Qed.

(** Printing in a well-formed row: the wide characters it meets are wiped, the
    character and its continuations take their columns. *)
Lemma write_character_runs character column w attrs x :
  wide_ok (cells x) → short (cells x) → is_scalar character = true → character ≠ 0 →
  0 ≤ column → 1 ≤ w ≤ i32_max → column + w ≤ Z.of_nat (row_len x) →
  ∃ cs, wiped (λ j, column ≤ Z.of_nat j ≤ column + w) (cells x) cs ∧
    let cs' := take (Z.to_nat column) cs ++ glyph character w attrs ++ drop (Z.to_nat (column + w)) cs in
    wide_ok cs' ∧ length cs' = row_len x ∧
    write_character character column w attrs x = Ok {| cells := cs'; dirty := true; linebreak := true |}.
Proof using Type.
  intros Hok Hs Hsc Hnz Hc Hw Hlen.
  destruct (clear_wide_cleared (Z.to_nat column) (Z.to_nat (column + w)) x Hok Hs) as (r1 & H1 & Hl & Hcl); [lia|lia|].
  pose proof (cleared_length _ _ _ _ _ Hcl) as Hlen1. fold (row_len x) (row_len r1) in Hlen1.
  pose proof (cleared_wiped _ _ _ _ _ [] Hcl eq_refl ltac:(lia)) as Hwi.
  destruct (cleared_boundary _ _ _ _ _ (Z.to_nat column) Hcl) as [HA _]; [lia|fold (row_len x); lia|].
  destruct (cleared_boundary _ _ _ _ _ (Z.to_nat (column + w)) Hcl) as [_ HB]; [lia|fold (row_len x); lia|].
  rewrite Nat.sub_0_r in HA, HB. exists (cells r1). split.
  { eapply wiped_mono; [|exact Hwi]. simpl. lia. }
  cbv zeta. split_and!.
  - apply wide_ok_app; [done|]. apply (wide_group (leading_cell character attrs)); [..|apply spacers_tail|done];
      unfold continuation, spacer_of; by rewrite leading_cell_content.
  - rewrite !length_app, length_glyph, length_take, length_drop by lia. fold (row_len r1). lia.
  - unfold write_character. rewrite H1. cbn [obind].
    destruct (lookup_lt_is_Some_2 (cells r1) (Z.to_nat column)) as [c Hcell]; [fold (row_len r1); lia|].
    assert (∀ c', <[Z.to_nat column:=c']> (cells r1) !! Z.to_nat column = Some c') as Hins.
    { intros c'. apply list_lookup_insert_Some. left. split_and!; [done..|]. fold (row_len r1). lia. }
    erewrite edit_cell_exact; [|done|exact Hcell|].
    2:{ unfold set_content, encode_content. by rewrite (proj2 (Z.eqb_neq _ _)) by done. }
    cbn [obind]. erewrite edit_cell_exact; [|done|apply Hins|done].
    cbn [obind cells]. rewrite list_insert_insert_eq. erewrite edit_cell_exact; [|done|apply Hins|done].
    cbn [obind cells linebreak]. rewrite list_insert_insert_eq.
    set (lead := set_attributes _ _). assert (lead = leading_cell character attrs) as ->.
    { unfold lead, leading_cell, set_clean_cell, set_attributes. cbn [Cell.attributes cell_content]. by rewrite set_clean_twice. }
    rewrite (write_spacers (Z.to_nat (w - 1))); [|lia..|unfold row_len; cbn [cells]; rewrite length_insert; fold (row_len r1); lia|lia].
    cbn [obind cells linebreak dirty set_linebreak]. unfold set_linebreak. cbn [cells dirty orb]. do 2 f_equal.
    rewrite drop_insert_lt by lia. unfold glyph. replace (Z.to_nat (column + 1)) with (S (Z.to_nat column)) by lia.
    rewrite (take_S_r _ _ _ (Hins _)), take_insert_ge by lia. by rewrite <-app_assoc.
Qed.

Lemma glyph_good character w attrs :
  is_scalar character = true → character ≠ 0 → default 0 (char_width character) ≤ 2 → w ≤ 2 →
  Forall cell_good (glyph character w attrs).
Proof using Type.
  intros Hs Hnz Hcw Hw. constructor.
  - eapply narrow_good; [by apply leading_cell_content|done].
  - apply Forall_fmap, Forall_forall. intros k [??]%elem_of_seqZ.
    eapply narrow_good; [apply spacer_cell_content; lia|]. simpl. lia.
Qed.

Lemma write_character_edits character column w attrs x :
  row_good x → is_scalar character = true → character ≠ 0 → default 0 (char_width character) ≤ 2 →
  0 ≤ column → 1 ≤ w ≤ 2 → column + w ≤ Z.of_nat (row_len x) → edits (write_character character column w attrs) x.
Proof using Type.
  intros Hx Hs Hnz Hcw Hc Hw Hlen.
  destruct (write_character_runs character column w attrs x) as (cs & Hwi & Hok & Hl & Hrun);
    [apply Hx..|done|done|done|unfold i32_max; lia|done|].
  pose proof (wiped_good _ _ _ Hwi (good_cells _ Hx)). eapply good_edit; [done|exact Hrun|done| |done].
  rewrite !Forall_app. split_and!; [by apply Forall_take|apply glyph_good; done || lia|by apply Forall_drop].
Qed.

(** The last column is padded: the group it ends has at most one continuation. *)
Lemma pad_edits column x :
  row_good x → 0 ≤ column → column + 1 = Z.of_nat (row_len x) → edits (edit_cell column (set_content (Spacer 0))) x.
Proof using Type.
  intros Hx Hc Hlen. destruct (wide_ok_last (cells x) (good_wide _ Hx)) as (P & leader & tail & Heq & HP & Hl & Ht).
  { intros H0%(f_equal length). fold (row_len x) in H0. simpl in H0. lia. }
  pose proof (good_cells _ Hx) as Hg. rewrite Heq in Hg. apply Forall_app in Hg as [HgP Hgt].
  apply Forall_cons in Hgt as [Hgl Hgt].
  destruct (lookup_lt_is_Some_2 (cells x) (Z.to_nat column)) as [c Hcell]; [fold (row_len x); lia|].
  set (pad := {| cell_content := SPACER_BASE + 0; attributes := set_flag Clean false (attributes c) |}).
  assert (continuation pad = false ∧ cell_good pad) as [Hp1 Hp2].
  { split; [done|]. by apply (narrow_good _ (Spacer 0)). }
  eapply (good_edit _ _ (<[Z.to_nat column := pad]> (cells x))); [done|by apply (edit_cell_exact column _ c)| | |by rewrite length_insert].
  - assert (row_len x = length P + S (length tail))%nat as Hn by (unfold row_len; rewrite Heq, length_app; done).
    assert (length tail ≤ 1)%nat as Ht1.
    { destruct tail as [|t tail]; [simpl; lia|]. destruct Ht as [Hsp _]. apply Forall_cons in Hgt as [Hg _].
      pose proof (spacer_good _ _ Hg Hsp) as Hle. simpl in *. lia. }
    rewrite Heq, insert_app_r_alt by lia. apply wide_ok_app; [done|]. apply wide_ok_all_narrow.
    destruct tail as [|t [|]]; simpl in Ht1, Hn; [| |lia].
    + replace (Z.to_nat column - length P)%nat with 0%nat by lia. by repeat constructor.
    + replace (Z.to_nat column - length P)%nat with 1%nat by lia. by repeat constructor.
  - apply Forall_insert; [apply Hx|done].
Qed.

(** A character in a leader's place. *)
Lemma wide_ok_insert cs i c c' :
  wide_ok cs → cs !! i = Some c → spacer_of c = None → spacer_of c' = None → wide_ok (<[i := c']> cs).
Proof using Type.
  intros Hw. revert i. induction Hw as [|leader tail rest Hl Hlt Ht Hr IH]; intros i; [done|].
  destruct i as [|i]; simpl; intros Hc Hn Hn'.
  - constructor; [unfold continuation; by rewrite Hn'|done|done|done].
  - destruct (decide (i < length tail)%nat) as [Hi|Hi].
    + rewrite lookup_app_l in Hc by done. apply (tail_ok_continues _ _ _ Ht) in Hc. unfold continuation in Hc. by rewrite Hn in Hc.
    + rewrite lookup_app_r in Hc by lia. rewrite insert_app_r_alt by lia. constructor; [done..|]. by apply IH.
Qed.

Lemma compose_edits key i c x :
  row_good x → cells x !! i = Some c → spacer_of c = None → 0 ≤ key ≤ COMPOSED_KEY_MAX →
  edits (edit_cell (Z.of_nat i) (set_content (Composed key))) x.
Proof using Type.
  intros Hx Hc Hn Hk. set (c' := {| cell_content := COMPOSED_BASE + key; attributes := set_flag Clean false (attributes c) |}).
  assert (content c' = Ok (Composed key)) as Hc'.
  { unfold content, c'. cbn [cell_content]. unfold COMPOSED_END. assert (0 < COMPOSED_BASE) by (vm_compute; reflexivity).
    rewrite (proj2 (Z.eqb_neq _ _)), (proj2 (Z.ltb_ge _ _)), (proj2 (Z.leb_le _ _)) by lia. do 2 f_equal. lia. }
  eapply (good_edit _ _ (<[i := c']> (cells x))); [done| | | |by rewrite length_insert].
  - rewrite <-(Nat2Z.id i) at 2. apply (edit_cell_exact _ _ c); [lia|by rewrite Nat2Z.id|].
    unfold set_content, encode_content. by rewrite (proj2 (Z.leb_le _ _)) by lia.
  - eapply wide_ok_insert; [apply Hx|done|done|]. unfold spacer_of. by rewrite Hc'.
  - apply Forall_insert; [apply Hx|]. by eapply narrow_good.
Qed.

(** A blank row is good. *)
Lemma blank_row_good width background : 0 < width ≤ i32_max → row_good (blank_row width background).
Proof using Type.
  intros Hw. unfold blank_row. split; cbn [cells].
  - apply wide_ok_replicate, blank_narrow.
  - auto with row_good.
  - unfold short. rewrite length_replicate. unfold i32_max, usize_max, u64_max in *. lia.
Qed.

Lemma new_row_good width : 0 < width ≤ i32_max → row_good (Row_new (Z.to_nat width)).
Proof using Type.
  intros Hw. unfold Row_new, mark_cells_clean. cbn [set_cells cells]. rewrite fmap_replicate. split; cbn [cells].
  - by apply wide_ok_replicate.
  - apply replicate_good. by eexists.
  - unfold short. rewrite length_replicate. unfold i32_max, usize_max, u64_max in *. lia.
Qed.
End rows.

#[export] Hint Resolve default_good blank_good replicate_good : row_good.
