(* ===== verification/TerminalInv.v ===== *)
(** * The invariant of the terminal

    [terminal_ok]: both grids satisfy their invariant with good rows
    and the same dimensions, the scroll region lies on the screen, there is one
    tab stop per column, the composed table, palettes, update window and event
    queue are in order. A computation [ensures] what it promises when it starts
    in such a terminal whose counters have room and a transaction is open: it
    returns, keeps the invariant, keeps the dimensions and spends at most [k] of
    every counter. *)

From stdpp Require Import base list gmap strings.
From S2P Require Import Prelude RustStd Cell CellProps Row RowInv RowProps Coord Grid GridInv GridSteps GridOps Reflow Composed Vt Update Terminal RowEdits.

#[local] Open Scope Z_scope.

Section terminal.
Context {W : UnicodeWidth} {I : ImagePlane}.

(** ** The window of updates *)

(** Revisions [first + 1], ..., [first + length us] in order. *)
Fixpoint numbered (first : Z) (us : list TerminalUpdate) : Prop :=
  match us with
  | [] => True
  | u :: us => update_revision u = first + 1 ∧ numbered (first + 1) us
  end.

(** The retained updates are the last ones, without gaps. *)
Record history_ok (t : Terminal) : Prop := {
  history_numbered : numbered (t_revision t - Z.of_nat (length (update_history t))) (update_history t);
  history_bounded : Z.of_nat (length (update_history t)) ≤ update_history_limit (config t);
  history_limit : 0 < update_history_limit (config t);
  history_revision : Z.of_nat (length (update_history t)) ≤ t_revision t;
}.

Lemma numbered_app first us vs :
  numbered first (us ++ vs) ↔ numbered first us ∧ numbered (first + Z.of_nat (length us)) vs.
Proof using Type.
  revert first. induction us as [|u us IH]; intros first; cbn [app numbered length].
  - rewrite Z.add_0_r. tauto.
  - rewrite IH. replace (first + 1 + Z.of_nat (length us)) with (first + Z.of_nat (S (length us))) by lia. tauto.
Qed.

Lemma numbered_drop n first us :
  numbered first us → (n ≤ length us)%nat → numbered (first + Z.of_nat n) (drop n us).
Proof using Type.
  intros H Hn. rewrite <-(take_drop n us), numbered_app in H. destruct H as [_ H].
  rewrite length_take, Nat.min_l in H by done. done.
Qed.

Lemma numbered_above first us : numbered first us → Forall (λ u, first < update_revision u) us.
Proof using Type.
  revert first. induction us as [|u us IH]; intros first; [constructor|]. intros [Hu Hus]. constructor; [lia|].
  eapply Forall_impl; [by apply IH|]. simpl. lia.
Qed.

(** The updates above a base of the window are its end. *)
Lemma numbered_filter first us base :
  numbered first us → first ≤ base →
  List.filter (λ u, base <? update_revision u) us = drop (Z.to_nat (base - first)) us.
Proof using Type.
  revert first. induction us as [|u us IH]; intros first; [by rewrite drop_nil|].
  intros [Hu Hus] Hb. cbn [List.filter]. rewrite Hu. destruct (Z.ltb_spec base (first + 1)).
  - assert (base = first) as -> by lia. rewrite Z.sub_diag, drop_0. f_equal.
    apply numbered_above in Hus. clear -Hus. induction Hus as [|v vs Hv _ IHv]; [done|].
    cbn [List.filter]. rewrite (proj2 (Z.ltb_lt _ _)) by lia. by f_equal.
  - rewrite (IH (first + 1)) by (done || lia).
    replace (Z.to_nat (base - first)) with (S (Z.to_nat (base - (first + 1)))) by lia. done.
Qed.

Lemma numbered_contiguous first us :
  numbered first us → first + Z.of_nat (length us) ≤ u64_max → contiguous us = true.
Proof using Type.
  revert first. induction us as [|u us IH]; intros first; [done|]. intros [Hu Hus] Hmax.
  destruct us as [|v us]; [done|]. cbn [length] in Hmax.
  change (contiguous (u :: v :: us)) with
    (bool_decide (checked_add64 (update_revision u) 1 = Some (update_revision v)) && contiguous (v :: us)).
  rewrite (IH (first + 1)) by (done || (simpl; lia)). destruct Hus as [Hv _]. rewrite Hu, Hv, andb_true_r.
  apply bool_decide_eq_true. unfold checked_add64. by rewrite (proj2 (Z.leb_le _ _)) by lia.
Qed.

Lemma record_update_runs change t :
  history_ok t → t_revision t < u64_max →
  ∃ t', record_update change t = (Ok tt, t') ∧ history_ok t' ∧ t_revision t' = t_revision t + 1 ∧
    last (update_history t') = Some {| update_revision := t_revision t + 1; update_damage := damage change;
                                       update_events := events change |} ∧
    t' = set_update_history (update_history t') (set_revision (t_revision t + 1) t).
Proof using Type.
  intros [Hn Hb Hl Hr] Hmax. unfold record_update, bind, get, expect, next_revision, checked_add64.
  rewrite (proj2 (Z.leb_le _ _)) by lia. unfold ret. cbv zeta. unfold put. eexists. split; [done|].
  set (u := {| update_revision := t_revision t + 1; update_damage := damage change; update_events := events change |}).
  set (full := update_history t ++ [u]). set (k := (length full - _)%nat).
  assert (length full = S (length (update_history t))) as Hf by (unfold full; rewrite length_app; simpl; lia).
  assert (k ≤ length (update_history t))%nat as Hk by (unfold k; lia).
  split_and!; [|done| |done].
  - assert (Z.of_nat (length (drop k full)) = Z.of_nat (length (update_history t)) + 1 - Z.of_nat k) as Hlen.
    { rewrite length_drop. lia. }
    split; cbn [update_history t_revision config set_update_history set_revision]; rewrite ?Hlen; [|unfold k; lia|done|lia].
    replace (t_revision t + 1 - (Z.of_nat (length (update_history t)) + 1 - Z.of_nat k))
      with (t_revision t - Z.of_nat (length (update_history t)) + Z.of_nat k) by lia.
    apply numbered_drop; [|lia]. unfold full. apply numbered_app. split; [done|]. split; [simpl; lia|done].
  - cbn [update_history set_update_history]. fold k. unfold full. rewrite drop_app_le by done. apply last_snoc.
Qed.

(** What is committed: the pending change, after what was held back. *)
Definition committed (change : ChangeSet) (t : Terminal) : ChangeSet :=
  if is_empty (synchronized_change t) then change
  else merge change (event_limit (config t)) (synchronized_change t).

Lemma commit_change_runs t :
  history_ok t → t_revision t < u64_max →
  ∃ t', commit_change t = (Ok tt, t') ∧ history_ok t' ∧ current_change t' = None ∧ grid t' = grid t ∧
    match current_change t with
    | None => t' = t
    | Some change =>
        if synchronized_updates t then
          t_revision t' = t_revision t ∧ update_history t' = update_history t ∧
          synchronized_change t' = merge change (event_limit (config t)) (synchronized_change t)
        else
          is_empty (synchronized_change t') = true ∧
          if is_empty (committed change t) then
            t_revision t' = t_revision t ∧ update_history t' = update_history t
          else
            t_revision t' = t_revision t + 1 ∧
            last (update_history t') =
              Some {| update_revision := t_revision t + 1; update_damage := damage (committed change t);
                      update_events := events (committed change t) |}
    end.
Proof using Type.
  intros Hok Hmax. unfold commit_change, committed. unfold bind at 1, get.
  destruct (current_change t) as [change|] eqn:Hc; [|by exists t; split_and!].
  cbn [set_current_change synchronized_updates synchronized_change config].
  destruct (synchronized_updates t) eqn:Hs.
  { eexists. split; [done|]. split_and!; try done. by destruct Hok. }
  set (change' := if negb (is_empty (synchronized_change t)) then _ else change).
  assert (change' = if is_empty (synchronized_change t) then change
    else merge change (event_limit (config t)) (synchronized_change t)) as <-.
  { unfold change'. by destruct (is_empty (synchronized_change t)). }
  set (t1 := if negb (is_empty (synchronized_change t)) then _ else _).
  assert (history_ok t1 ∧ t_revision t1 = t_revision t ∧ update_history t1 = update_history t ∧
    is_empty (synchronized_change t1) = true ∧ grid t1 = grid t ∧ current_change t1 = None) as (H1 & H2 & H3 & H4 & H5 & H6).
  { unfold t1. destruct (is_empty (synchronized_change t)) eqn:He; cbn [negb]; split_and!; try done; by destruct Hok. }
  unfold bind, put. destruct (is_empty change') eqn:Hempty.
  - exists t1. by split_and!.
  - destruct (record_update_runs change' t1) as (t' & Hrun & Hh & Hrev & Hlast & Heq); [done|lia|].
    exists t'. rewrite Hrun. rewrite H2 in *. split_and!; try done; rewrite Heq; done.
Qed.

(** ** Events *)

(** The change recording an event, with the notice of an overflow. *)
Definition noted (e : TerminalEvent) (overflow : bool) (c : ChangeSet) : ChangeSet :=
  if overflow then add_event EventQueueOverflow (add_event e c) else add_event e c.

Lemma push_event_runs e t :
  0 < event_limit (config t) → Z.of_nat (length (t_events t)) ≤ event_limit (config t) →
  let fits := Z.of_nat (length (t_events t)) <? event_limit (config t) in
  let overflow := negb fits && negb (event_overflowed t) in
  ∃ t', push_event e t = (Ok tt, t') ∧ Z.of_nat (length (t_events t')) ≤ event_limit (config t) ∧
    current_change t' = noted e overflow <$> current_change t ∧
    event_overflowed t' = (event_overflowed t || overflow) ∧
    t_events t' = (if fits then t_events t ++ [e]
                   else if overflow then removelast (t_events t) ++ [EventQueueOverflow]
                   else t_events t).
Proof using Type.
  intros Hl Hb. cbv zeta. unfold push_event. unfold bind at 1, modify at 1. set (t1 := match current_change t with Some c => set_current_change (Some (add_event e c)) t | None => t end).
  assert (t_events t1 = t_events t ∧ config t1 = config t ∧ event_overflowed t1 = event_overflowed t ∧
    current_change t1 = add_event e <$> current_change t) as (E1 & E2 & E3 & E4).
  { unfold t1. by destruct (current_change t) eqn:Hc; rewrite ?Hc. }
  unfold bind at 1, get. rewrite E1, E2, E3. destruct (Z.ltb_spec (Z.of_nat (length (t_events t))) (event_limit (config t))) as [Hlt|Hge].
  { eexists. split; [done|]. cbn [negb andb]. cbn [t_events set_events current_change event_overflowed].
    rewrite length_app, E3, E4, orb_false_r. split_and!; try done. simpl. lia. }
  cbn [negb andb]. destruct (event_overflowed t) eqn:Ho; cbn [negb orb].
  { eexists. split; [done|]. rewrite E1, E3, E4. by split_and!. }
  unfold bind, put, modify. eexists. split; [done|].
  assert (removelast (t_events t) ++ [EventQueueOverflow] =
    alter (λ _, EventQueueOverflow) (length (t_events t) - 1)%nat (t_events t)) as Hlast.
  { destruct (t_events t) as [|x xs] using rev_ind; [simpl in *; lia|]. rewrite removelast_last, length_app.
    rewrite Nat.add_sub, alter_app_r_alt, Nat.sub_diag by lia. done. }
  rewrite Hlast. cbn [current_change set_event_overflowed set_events]. rewrite E4.
  split_and!; destruct (current_change t); try done;
    cbn [fmap option_fmap option_map t_events set_current_change set_event_overflowed set_events];
    rewrite length_alter; lia.
Qed.

(** ** The invariant *)

Record screen_good (g : Grid) : Prop := {
  sg_ok : grid_ok g;
  sg_rows : rows_hold row_good g;
}.

(** A configuration [Terminal::new] accepts, with a scrollback of at most [2^62] lines. *)
Record config_ok (c : TerminalConfig) : Prop := {
  co_scrollback : 0 ≤ scrollback_lines c ≤ 2 ^ 62;
  co_tab : 0 < tab_width c;
  co_events : 0 < event_limit c;
  co_history : 0 < update_history_limit c;
}.

Record terminal_ok (t : Terminal) : Prop := {
  to_normal : screen_good (normal t);
  to_alternate : screen_good (alternate t);
  to_columns : columns (alternate t) = columns (normal t);
  to_rows : screen_rows (alternate t) = screen_rows (normal t);
  to_normal_capacity : normal_capacity (screen_rows (normal t)) (config t) = Ok (row_capacity (normal t));
  to_alternate_capacity : alternate_capacity (screen_rows (normal t)) = Ok (row_capacity (alternate t));
  to_region : 0 ≤ region_start (scroll_region t) < region_end (scroll_region t);
  to_region_end : region_end (scroll_region t) ≤ screen_rows (normal t);
  to_tabs : Z.of_nat (length (tab_stops t)) = columns (normal t);
  to_table : table_ok (composed t) ∧ table_narrow (composed t);
  to_palette : length (palette t) = 256%nat;
  to_initial_palette : length (initial_palette t) = 256%nat;
  to_defaults : length (default_colors t) = 3%nat;
  to_initial_defaults : length (initial_default_colors t) = 3%nat;
  to_config : config_ok (config t);
  to_history : history_ok t;
  to_queue : Z.of_nat (length (t_events t)) ≤ event_limit (config t);
}.

(** Both grids can still raise their counters by [k]. *)
Definition fits (k : Z) (t : Terminal) : Prop := spare k (normal t) ∧ spare k (alternate t).

(** From [t] to [t'] within a transaction, spending at most [k]. *)
Record goes (k : Z) (t t' : Terminal) : Prop := {
  go_ok : terminal_ok t';
  go_normal : spends k (normal t) (normal t');
  go_alternate : spends k (alternate t) (alternate t');
  go_change : is_Some (current_change t');
  go_revision : t_revision t' = t_revision t;
  go_config : config t' = config t;
}.

Definition ensures {A} (k : Z) (m : M Terminal unfinished A) (Q : A → Terminal → Prop) (t : Terminal) : Prop :=
  terminal_ok t → fits (2 ^ 33 + k) t → is_Some (current_change t) →
  runs m (λ a t', goes k t t' ∧ Q a t') t.

(** A computation that may run anywhere. *)
Definition safe (k : Z) (m : M Terminal unfinished unit) : Prop := ∀ t, ensures k m (λ _ _, True) t.

Lemma goes_refl k t : 0 ≤ k → terminal_ok t → is_Some (current_change t) → goes k t t.
Proof using Type. intros Hk Ht Hc. by split; try apply spends_refl. Qed.

Lemma goes_trans k l t1 t2 t3 : goes k t1 t2 → goes l t2 t3 → goes (k + l) t1 t3.
Proof using Type. intros [] []. split; try done; try congruence; by eapply spends_trans. Qed.

Lemma goes_le k l t t' : k ≤ l → goes k t t' → goes l t t'.
Proof using Type. intros Hk []. split; try done; by eapply spends_le. Qed.

Lemma goes_fits k n t t' : goes k t t' → fits (n + k) t → fits n t'.
Proof using Type. intros [] [H1 H2]. split; by eapply spends_spare. Qed.

Lemma goes_columns k t t' : goes k t t' → columns (normal t') = columns (normal t).
Proof using Type. intros []. by apply go_normal0. Qed.

Lemma goes_rows k t t' : goes k t t' → screen_rows (normal t') = screen_rows (normal t).
Proof using Type. intros []. by apply go_normal0. Qed.

Lemma grid_columns t : terminal_ok t → columns (grid t) = columns (normal t).
Proof using Type. intros []. unfold grid. by destruct (active t). Qed.

Lemma grid_rows t : terminal_ok t → screen_rows (grid t) = screen_rows (normal t).
Proof using Type. intros []. unfold grid. by destruct (active t). Qed.

Lemma grid_good t : terminal_ok t → screen_good (grid t).
Proof using Type. intros []. unfold grid. by destruct (active t). Qed.

Lemma grid_spare k t : fits k t → spare k (grid t).
Proof using Type. intros []. unfold grid. by destruct (active t). Qed.

Lemma ok_dimensions t : terminal_ok t → 0 < columns (normal t) ≤ i32_max ∧ 1 ≤ screen_rows (normal t) ≤ 2 ^ 30.
Proof using Type.
  intros Ht. destruct (sg_ok _ (to_normal _ Ht)) as [[]]. lia.
Qed.

(** ** The rules *)

Lemma ensures_bind {A B} k l (m : M Terminal unfinished A) (f : A → M Terminal unfinished B) Q R t :
  0 ≤ l → ensures k m Q t →
  (∀ a t', terminal_ok t → goes k t t' → Q a t' → ensures l (f a) R t') →
  ensures (k + l) (bind m f) R t.
Proof using Type.
  intros Hl Hm Hf Ht Hfit Hc. apply runs_bind. eapply runs_mono; [|apply Hm; try done].
  - intros a t1 [Hg HQ]. eapply runs_mono; [|apply (Hf a t1); try done; try apply Hg].
    + intros b t2 [Hg2 HR]. split; [by eapply goes_trans|done].
    + eapply goes_fits; [exact Hg|]. by replace (2 ^ 33 + l + k) with (2 ^ 33 + (k + l)) by lia.
  - destruct Hfit. split; (eapply spare_le; [|done]; lia).
Qed.

Lemma ensures_le {A} k l (m : M Terminal unfinished A) Q t : k ≤ l → ensures k m Q t → ensures l m Q t.
Proof using Type.
  intros Hk Hm Ht [Hf1 Hf2] Hc. eapply runs_mono; [|apply Hm; try done].
  - intros a t' [Hg HQ]. split; [by eapply goes_le|done].
  - split; (eapply spare_le; [|done]; lia).
Qed.

Lemma ensures_mono {A} k (m : M Terminal unfinished A) (Q R : A → Terminal → Prop) t :
  (∀ a t', goes k t t' → Q a t' → R a t') → ensures k m Q t → ensures k m R t.
Proof using Type.
  intros HQ Hm Ht Hf Hc. eapply runs_mono; [|by apply Hm]. intros a t' [Hg H]. split; auto.
Qed.

(** What holds of the terminal may be assumed. *)
Lemma ensures_ok {A} k (m : M Terminal unfinished A) Q t : (terminal_ok t → ensures k m Q t) → ensures k m Q t.
Proof using Type. intros H Ht. by apply H. Qed.

Lemma ensures_get {B} k (f : Terminal → M Terminal unfinished B) R t :
  (terminal_ok t → ensures k (f t) R t) → ensures k (bind get f) R t.
Proof using Type. intros H Ht Hf Hc. apply runs_bind, runs_get. by apply H. Qed.

Lemma ensures_ret {A} k (a : A) (Q : A → Terminal → Prop) t : 0 ≤ k → Q a t → ensures k (ret a) Q t.
Proof using Type. intros Hk HQ Ht Hf Hc. apply runs_ret. split; [by apply goes_refl|done]. Qed.

Lemma ensures_lift {A B} k (r : outcome unfinished A) a (f : A → M Terminal unfinished B) R t :
  r = Ok a → ensures k (f a) R t → ensures k (bind (lift r) f) R t.
Proof using Type. intros -> H Ht Hf Hc. apply runs_bind. eapply runs_lift; [done|]. by apply H. Qed.

Lemma ensures_expect {A B} k (o : option A) a (f : A → M Terminal unfinished B) R t :
  o = Some a → ensures k (f a) R t → ensures k (bind (expect o) f) R t.
Proof using Type. intros -> H Ht Hf Hc. apply runs_bind. eapply runs_expect; [done|]. by apply H. Qed.

Lemma ensures_assert {B} k b (f : unit → M Terminal unfinished B) R t :
  b = true → ensures k (f tt) R t → ensures k (bind (assert_ b) f) R t.
Proof using Type. intros Hb H Ht Hf Hc. apply runs_bind, runs_assert; [done|]. by apply H. Qed.

(** A terminal with the same grids. *)
Lemma ensures_put k t' (Q : unit → Terminal → Prop) t :
  0 ≤ k → (terminal_ok t → terminal_ok t') → normal t' = normal t → alternate t' = alternate t →
  (is_Some (current_change t) → is_Some (current_change t')) → t_revision t' = t_revision t → config t' = config t →
  Q tt t' → ensures k (put t') Q t.
Proof using Type.
  intros Hk Hok Hn Ha Hc Hr Hcfg HQ Ht Hf Hch. apply runs_put. split; [|done].
  split; auto; rewrite ?Hn, ?Ha; by apply spends_refl.
Qed.

Lemma ensures_modify k f (Q : unit → Terminal → Prop) t :
  0 ≤ k → (terminal_ok t → terminal_ok (f t)) → normal (f t) = normal t → alternate (f t) = alternate t →
  (is_Some (current_change t) → is_Some (current_change (f t))) → t_revision (f t) = t_revision t →
  config (f t) = config t → Q tt (f t) → ensures k (modify f) Q t.
Proof using Type. exact (ensures_put k (f t) Q t). Qed.

(** A loop whose body spends [k]. *)
Lemma ensures_for_each {X} k (l : list X) (body : X → M Terminal unfinished unit) t :
  0 ≤ k → (∀ x n t', x ∈ l → goes n t t' → ensures k (body x) (λ _ _, True) t') →
  ensures (k * Z.of_nat (length l)) (for_each l body) (λ _ _, True) t.
Proof using Type.
  intros Hk. revert t. induction l as [|x l IH]; intros t Hb; cbn [for_each]; [apply ensures_ret; [lia|done]|].
  replace (k * Z.of_nat (length (x :: l))) with (k + k * Z.of_nat (length l)) by (simpl; lia).
  intros Ht Hf Hc. eapply ensures_bind; [lia| | |done..].
  - apply (Hb x 0); [by constructor|]. by apply goes_refl.
  - intros [] t1 _ Hg _. apply IH. intros y n t2 Hy Hg2. eapply (Hb y); [by constructor|by eapply goes_trans].
Qed.

Lemma safe_bind k l (m : M Terminal unfinished unit) f : 0 ≤ l → safe k m → safe l f → safe (k + l) (do! m in f).
Proof using Type. intros Hl Hm Hf t. eapply ensures_bind; [done|apply Hm|]. intros [] t' _ _ _. apply Hf. Qed.

(** What a computation keeps may be added to what it ensures. *)
Lemma ensures_keeps {A} k (m : M Terminal unfinished A) P Q t :
  keeps P m → P t → ensures k m Q t → ensures k m (λ a t', Q a t' ∧ P t') t.
Proof using Type.
  intros Hk Hp Hm Ht Hf Hc. destruct (Hm Ht Hf Hc) as (a & t' & Hrun & Hg & HQ). exists a, t'. split_and!; try done. by eapply Hk.
Qed.
End terminal.
