(* ===== verification/TerminalSteps.v ===== *)
(** * Cursor, scrolling and erasing keep the terminal's invariant

    The operations on the grid lifted to the terminal, the movements of the
    cursor, the scrolling of regions and the editing of rows: each returns when
    it starts in a terminal that satisfies the invariant, and keeps it. *)

From stdpp Require Import base list gmap strings.
From S2P Require Import Prelude RustStd Cell CellProps Row RowInv RowProps Coord Grid GridInv GridSteps GridOps Reflow GridProps Composed Vt Update Terminal RowEdits TerminalInv.

#[local] Open Scope Z_scope.

Section terminal.
Context {W : UnicodeWidth} {I : ImagePlane}.

(** ** Grids *)

Lemma grid_set_grid g t : grid (set_grid g t) = g.
Proof using Type. unfold grid, set_grid. by destruct (active t) eqn:E; simpl; rewrite E. Qed.

(** A change of one grid that keeps its dimensions. *)
Lemma goes_normal k g t :
  0 ≤ k → terminal_ok t → is_Some (current_change t) → screen_good g → spends k (normal t) g → goes k t (set_normal g t).
Proof using Type.
  intros Hk Ht Hc Hg Hs. destruct Hs as [Hcol Hrow Hcap ? ? ?] eqn:HE.
  split; [|done|by apply spends_refl|done|done|done].
  destruct Ht. split; cbn [normal alternate config scroll_region tab_stops composed palette initial_palette default_colors
    initial_default_colors t_events set_normal]; rewrite ?Hcol, ?Hrow, ?Hcap; try done. by destruct to_history.
Qed.

Lemma goes_alternate k g t :
  0 ≤ k → terminal_ok t → is_Some (current_change t) → screen_good g → spends k (alternate t) g → goes k t (set_alternate g t).
Proof using Type.
  intros Hk Ht Hc Hg Hs. destruct Hs as [Hcol Hrow Hcap ? ? ?] eqn:HE.
  split; [|by apply spends_refl|done|done|done|done].
  destruct Ht. split; cbn [normal alternate config scroll_region tab_stops composed palette initial_palette default_colors
    initial_default_colors t_events set_alternate]; rewrite ?Hcol, ?Hrow, ?Hcap; try done. by destruct to_history.
Qed.

Lemma goes_grid k g t :
  0 ≤ k → terminal_ok t → is_Some (current_change t) → screen_good g → spends k (grid t) g → goes k t (set_grid g t).
Proof using Type. unfold grid, set_grid. destruct (active t); [apply goes_normal|apply goes_alternate]. Qed.

(** What a computation on the grid does, done to the active one. *)
Lemma ensures_on_grid {A} k (m : M Grid unfinished A) (Q : A → Grid → Prop) t :
  0 ≤ k →
  (terminal_ok t → screen_good (grid t) → spare (2 ^ 33 + k) (grid t) →
   runs m (λ a g', screen_good g' ∧ spends k (grid t) g' ∧ Q a g') (grid t)) →
  ensures k (on_grid m) (λ a t', Q a (grid t') ∧ t' = set_grid (grid t') t) t.
Proof using Type.
  intros Hk Hm Ht Hf Hc. destruct Hm as (a & g' & Hrun & Hg & Hs & HQ); [done|by apply grid_good|by apply grid_spare|].
  exists a, (set_grid g' t). unfold on_grid. rewrite Hrun. split; [done|]. rewrite grid_set_grid.
  split; [by apply goes_grid|done].
Qed.

Lemma ensures_on_normal {A} k (m : M Grid unfinished A) (Q : A → Grid → Prop) t :
  0 ≤ k →
  (terminal_ok t → screen_good (normal t) → spare (2 ^ 33 + k) (normal t) →
   runs m (λ a g', screen_good g' ∧ spends k (normal t) g' ∧ Q a g') (normal t)) →
  ensures k (on_normal m) (λ a t', Q a (normal t') ∧ t' = set_normal (normal t') t) t.
Proof using Type.
  intros Hk Hm Ht [Hf _] Hc. destruct Hm as (a & g' & Hrun & Hg & Hs & HQ); [done|apply Ht|done|].
  exists a, (set_normal g' t). unfold on_normal. rewrite Hrun. split; [done|]. split; [by apply goes_normal|done].
Qed.

Lemma ensures_on_alternate {A} k (m : M Grid unfinished A) (Q : A → Grid → Prop) t :
  0 ≤ k →
  (terminal_ok t → screen_good (alternate t) → spare (2 ^ 33 + k) (alternate t) →
   runs m (λ a g', screen_good g' ∧ spends k (alternate t) g' ∧ Q a g') (alternate t)) →
  ensures k (on_alternate m) (λ a t', Q a (alternate t') ∧ t' = set_alternate (alternate t') t) t.
Proof using Type.
  intros Hk Hm Ht [_ Hf] Hc. destruct Hm as (a & g' & Hrun & Hg & Hs & HQ); [done|apply Ht|done|].
  exists a, (set_alternate g' t). unfold on_alternate. rewrite Hrun. split; [done|]. split; [by apply goes_alternate|done].
Qed.

(** ** The grid operations the terminal uses *)

Lemma good_set_cursor c n g : screen_good g → cursor_fits c g = true → screen_good (put_cursor c (set_generation n g)).
Proof using Type. intros [Hok Hr] Hc. split; [|exact Hr]. by apply ok_put_cursor; [apply ok_set_generation|]. Qed.

Lemma spends_set_cursor c n g : n ≤ generation g + 1 → spends 1 g (put_cursor c (set_generation n g)).
Proof using Type. intros Hn. split; simpl; done || lia. Qed.

Lemma set_cursor_good k c g :
  screen_good g → spare (2 ^ 33 + k) g → 1 ≤ k → cursor_fits c g = true →
  runs (set_cursor c) (λ _ g', screen_good g' ∧ spends k g g' ∧ ∃ n, g' = put_cursor c (set_generation n g)) g.
Proof using Type.
  intros Hg [Hs _ _] Hk Hc. destruct (set_cursor_exact c g) as (n & Hn & Hrun); [lia|done|].
  exists tt. eexists. split; [exact Hrun|]. split_and!; [by apply good_set_cursor| |by eexists].
  eapply spends_le; [|by apply spends_set_cursor]. done.
Qed.

Lemma set_saved_cursor_good k c g :
  screen_good g → spare (2 ^ 33 + k) g → 1 ≤ k → cursor_fits c g = true →
  runs (set_saved_cursor c) (λ _ g', screen_good g' ∧ spends k g g' ∧ ∃ n, g' = put_saved_cursor c (set_generation n g)) g.
Proof using Type.
  intros [Hok Hr] [Hs _ _] Hk Hc. destruct (set_saved_cursor_exact c g) as (n & Hn & Hrun); [lia|done|].
  exists tt. eexists. split; [exact Hrun|]. split_and!; [|split; simpl; done || lia|by eexists].
  split; [|exact Hr]. by apply ok_put_saved_cursor; [apply ok_set_generation|].
Qed.

Lemma ensures_set_cursor c t :
  (terminal_ok t → cursor_fits c (grid t) = true) →
  ensures 1 (on_grid (set_cursor c)) (λ _ t', ∃ n, t' = set_grid (put_cursor c (set_generation n (grid t))) t) t.
Proof using Type.
  intros Hc. eapply ensures_mono; [|apply (ensures_on_grid 1 (set_cursor c) (λ _ g', ∃ n, g' = put_cursor c (set_generation n (grid t)))); [lia|]].
  - intros [] t' _ [(n & Hn) Ht']. exists n. by rewrite <-Hn.
  - intros Ht Hg Hs. apply set_cursor_good; auto; lia.
Qed.

Lemma ensures_set_cursor_any c t :
  (terminal_ok t → cursor_fits c (grid t) = true) → ensures 1 (on_grid (set_cursor c)) (λ _ _, True) t.
Proof using Type. intros Hc. eapply ensures_mono; [|by apply ensures_set_cursor]. done. Qed.

(** A position on the screen. *)
Lemma position_fits t c :
  terminal_ok t → 0 ≤ cursor_column c < columns (normal t) → 0 ≤ cursor_row c < screen_rows (normal t) →
  cursor_fits c (grid t) = true.
Proof using Type. intros Ht Hc Hr. apply cursor_fits_iff. by rewrite grid_columns, grid_rows. Qed.

Lemma cursor_on_screen t :
  terminal_ok t → 0 ≤ cursor_column (cursor (grid t)) < columns (normal t) ∧
    0 ≤ cursor_row (cursor (grid t)) < screen_rows (normal t).
Proof using Type.
  intros Ht. rewrite <-(grid_columns t), <-(grid_rows t) by done. apply cursor_fits_iff, (sg_ok _ (grid_good t Ht)).
Qed.

Lemma saved_on_screen t :
  terminal_ok t → 0 ≤ cursor_column (saved_cursor (grid t)) < columns (normal t) ∧
    0 ≤ cursor_row (saved_cursor (grid t)) < screen_rows (normal t).
Proof using Type.
  intros Ht. rewrite <-(grid_columns t), <-(grid_rows t) by done. apply cursor_fits_iff, (sg_ok _ (grid_good t Ht)).
Qed.

(** ** Rows *)

Lemma screen_row t n : terminal_ok t → 0 ≤ n < screen_rows (normal t) →
  ∃ x, row n (grid t) = Some x ∧ row_good x ∧ Z.of_nat (row_len x) = columns (normal t).
Proof using Type.
  intros Ht Hn. destruct (grid_good t Ht) as [Hok Hr]. rewrite <-(grid_rows t Ht) in Hn.
  destruct (ok_screen _ Hok n Hn) as [x Hx]. exists x. split; [exact Hx|]. split; [exact (rows_hold_row _ _ n x Hr Hx)|].
  pose proof (slots_each _ (ok_slots _ Hok) _ (index_range _ (ok_shape _ Hok) n)) as Hs. unfold place, phys in *.
  cbn [fst] in Hx. rewrite Hx in Hs. rewrite <-(grid_columns t Ht). apply Hs.
Qed.

(** The edit of a row of the screen, with the row it leaves. *)
Lemma ensures_edit_exact n f t :
  (terminal_ok t → 0 ≤ n < screen_rows (normal t)) →
  (∀ x, terminal_ok t → row n (grid t) = Some x → row_good x → Z.of_nat (row_len x) = columns (normal t) → edits f x) →
  ensures 1 (edit_visible_row n f) (λ _ t', ∃ x y, row n (grid t) = Some x ∧ f x = Ok y ∧
    edited n y (grid t) (grid t') ∧ t' = set_grid (grid t') t) t.
Proof using Type.
  intros Hn Hf. unfold edit_visible_row. apply ensures_ok. intros Ht.
  destruct (screen_row t n Ht (Hn Ht)) as (x & Hx & Hgx & Hlen). destruct (Hf x Ht Hx Hgx Hlen) as (y & Hfy & Hgy & Hly).
  eapply ensures_mono; [|eapply (ensures_on_grid 1 _ (λ _ g', edited n y (grid t) g')); [lia|]].
  { intros [] t' _ [He Heq]. exists x, y. by split_and!. }
  intros _ Hg [Hs _ _]. apply runs_bind. specialize (Hn Ht).
  eapply runs_mono; [|apply (row_mut_runs n (grid t)); [apply Hg|lia|by rewrite grid_rows]].
  intros b g1 (x' & back & -> & Hx' & Hback). rewrite Hx in Hx'. injection Hx' as <-.
  apply runs_bind. eapply runs_expect; [done|]. apply runs_bind. eapply runs_lift; [exact Hfy|]. apply runs_put.
  pose proof (Hback y Hly) as Hed. split_and!; [|apply Hed|done].
  split; [apply Hed|]. eapply edited_rows; [exact Hed|done|apply Hg].
Qed.

Lemma ensures_edit n f t :
  (terminal_ok t → 0 ≤ n < screen_rows (normal t)) →
  (∀ x, terminal_ok t → row n (grid t) = Some x → row_good x → Z.of_nat (row_len x) = columns (normal t) → edits f x) →
  ensures 1 (edit_visible_row n f) (λ _ _, True) t.
Proof using Type. intros Hn Hf. eapply ensures_mono; [|by apply ensures_edit_exact]. done. Qed.

(** ** Events, changes, images *)

Lemma ok_current_change c t : terminal_ok t → terminal_ok (set_current_change c t).
Proof using Type. intros []. split; try done. by destruct to_history. Qed.

Lemma ensures_with_change f t : ensures 0 (with_change f) (λ _ t', grid t' = grid t) t.
Proof using Type.
  unfold with_change. apply ensures_get. intros Ht Ht' Hf [c Hc].
  eapply ensures_expect; [exact Hc| |done..|by exists c].
  apply ensures_put; try done. intros. by apply ok_current_change.
Qed.

Lemma push_event_safe e t : ensures 0 (push_event e) (λ _ t', grid t' = grid t) t.
Proof using Type.
  intros Ht Hf Hc. destruct (push_event_runs e t) as (t' & Hrun & Hlen & Hch & Ho & Hev).
  { apply (to_config _ Ht). } { apply (to_queue _ Ht). }
  assert (∃ es o c, t' = set_current_change c (set_event_overflowed o (set_events es t))) as (es & o & c & ->).
  { exists (t_events t'), (event_overflowed t'), (current_change t'). clear -Hrun. destruct t. revert Hrun.
    unfold push_event, bind, modify, get, put, ret. cbn. repeat case_match; cbn in *; intros [= <-]; done. }
  exists tt. eexists. split; [exact Hrun|]. split; [|done]. cbn [current_change set_current_change] in Hch. split.
  - apply ok_current_change. destruct Ht. split; try done. by destruct to_history.
  - by apply spends_refl.
  - by apply spends_refl.
  - cbn [current_change set_current_change]. destruct Hc as [x Hx]. rewrite Hch, Hx. by eexists.
  - done.
  - done.
Qed.

Lemma screen_row_ids_ok g : grid_ok g → ∃ ids, screen_row_ids g = Ok ids ∧ Z.of_nat (length ids) = screen_rows g.
Proof using Type.
  intros Hok. pose proof (ok_shape _ Hok) as Hs. pose proof (shape_screen _ Hs). unfold screen_row_ids.
  rewrite signed_screen_ok by done. cbn [obind].
  assert (is_Some (mapM (λ n, row_id n g) (range 0 (screen_rows g)))) as [ids Hids].
  { apply mapM_is_Some. apply Forall_forall. intros n [? ?]%elem_of_seqZ. unfold row_id.
    apply fmap_is_Some. apply (ok_screen _ Hok n). lia. }
  exists ids. rewrite Hids. split; [done|]. apply length_mapM in Hids. rewrite <-Hids. unfold range.
  rewrite length_seqZ. lia.
Qed.

Lemma ok_images p t : terminal_ok t → terminal_ok (set_images p t).
Proof using Type. intros []. split; try done. by destruct to_history. Qed.

Lemma overwrite_images_safe a b c d t : ensures 0 (overwrite_image_cells a b c d) (λ _ t', grid t' = grid t) t.
Proof using Type.
  unfold overwrite_image_cells. apply ensures_get. intros Ht.
  destruct (negb _); [by apply ensures_ret|].
  destruct (screen_row_ids_ok (grid t) (sg_ok _ (grid_good t Ht))) as (ids & Hids & _).
  eapply ensures_lift; [exact Hids|]. destruct (remove_text_overlaps _ _ _ _ _ _ _) as [changed p].
  eapply (ensures_bind 0 0 _ _ (λ _ t', grid t' = grid t)); [done| |].
  - apply ensures_put; try done. intros. by apply ok_images.
  - intros [] t1 _ _ Hg. destruct changed; [|by apply ensures_ret].
    eapply ensures_mono; [|apply ensures_with_change]. intros [] t2 _ ->. done.
Qed.

Lemma current_background_safe {B} k (f : Color → M Terminal unfinished B) R t :
  (∀ c, background (t_attributes t) = Some c → ensures k (f c) R t) → ensures k (bind current_background f) R t.
Proof using Type.
  intros Hf. destruct (background (t_attributes t)) as [c|] eqn:Hb.
  - intros Ht Hfit Hc. apply runs_bind. unfold current_background. apply runs_bind, runs_get.
    eapply runs_expect; [exact Hb|]. by apply Hf.
  - unfold background in Hb. destruct (from_bits_total (state_and_background (t_attributes t)) BACKGROUND_SOURCE_SHIFT) as [x Hx].
    by rewrite Hx in Hb.
Qed.

Lemma newest_ids_ok n g : grid_ok g → ∃ ids, newest_scrollback_row_ids n g = Ok ids.
Proof using Type.
  intros Hok. unfold newest_scrollback_row_ids, snapshot_scrollback_rows, scrollback_rows_chronological.
  rewrite identified_entries; [by eexists|apply Hok|by apply history_in_range, Hok].
Qed.

Lemma scrollback_count_ok g : grid_ok g → ∃ n, scrollback_row_count g = Ok n.
Proof using Type.
  intros Hok. unfold scrollback_row_count, snapshot_scrollback_rows, scrollback_rows_chronological.
  rewrite identified_entries; [by eexists|apply Hok|by apply history_in_range, Hok].
Qed.

Lemma view_rows_ok g : grid_ok g → ∃ rs, snapshot_view_rows g = Ok rs.
Proof using Type. intros Hok. unfold snapshot_view_rows. rewrite signed_screen_ok by apply Hok. by eexists. Qed.

(** ** Scrolling *)

Lemma scroll_good dir reg n bg g :
  screen_good g → spare (2 ^ 33 + 2 ^ 32) g → 0 ≤ region_start reg < region_end reg → region_end reg ≤ screen_rows g →
  0 ≤ n ≤ region_end reg - region_start reg →
  runs (scroll dir reg n bg) (λ _ g', screen_good g' ∧ spends (2 ^ 32) g g' ∧ cursor g' = cursor g) g.
Proof using Type.
  intros [Hok Hr] Hs Hreg Hend Hn. destruct (ok_shape _ Hok) as [_ _ _ Hw _ _ _].
  eapply runs_mono; [|apply (keeps_runs (holding row_good (columns g)));
    [apply scroll_keeps; [by apply blank_row_good|by apply new_row_good|lia]|by apply holding_of|
     apply scroll_ok; [done|eapply spare_le; [|exact Hs]; lia|lia|lia|lia|done]]].
  intros res g' [(Hok' & [Hsp Hc _] & _) Hh]. split_and!; [|done|done]. split; [done|]. by eapply rows_hold_of.
Qed.

Lemma scroll_grid_safe dir reg n bg t :
  (terminal_ok t → 0 ≤ region_start reg < region_end reg ∧ region_end reg ≤ screen_rows (normal t) ∧
     0 ≤ n ≤ region_end reg - region_start reg) →
  ensures (2 ^ 32) (scroll_grid dir reg n bg) (λ _ t', cursor (grid t') = cursor (grid t)) t.
Proof using Type.
  intros Hreg. unfold scroll_grid. apply ensures_get. intros Ht. specialize (Hreg Ht) as (Hr1 & Hr2 & Hn).
  set (track := bool_decide (active t = Normal) && _).
  assert (∃ before, (if track then map_ok Some (screen_row_ids (grid t)) else Ok None) = Ok before) as [before Hbefore].
  { destruct track; [|by eexists]. destruct (screen_row_ids_ok (grid t) (sg_ok _ (grid_good t Ht))) as (ids & -> & _). by eexists. }
  eapply ensures_lift; [exact Hbefore|].
  change (2 ^ 32) with (2 ^ 32 + 0). eapply ensures_bind; [done| |].
  { apply (ensures_on_grid (2 ^ 32) _ (λ _ g', cursor g' = cursor (grid t))); [done|].
    intros _ Hg Hs. apply scroll_good; [done|done|done|by rewrite grid_rows|done]. }
  clear Hbefore track. intros res t1 _ Hg1 [Hc1 _]. destruct before as [before|]; [|by apply ensures_ret].
  destruct (_ && _); [|by apply ensures_ret]. apply ensures_get. intros Ht1.
  destruct (newest_ids_ok (scrolled res) (normal t1) (sg_ok _ (to_normal _ Ht1))) as [ids Hids].
  eapply ensures_lift; [exact Hids|]. destruct (remap_anchors _ _ _) as [changed p].
  eapply (ensures_bind 0 0 _ _ (λ _ t', grid t' = grid t1)); [done| |].
  - apply ensures_put; try done. intros. by apply ok_images.
  - intros [] t2 _ _ Hg2. destruct changed; [|apply ensures_ret; [done|by rewrite Hg2]].
    eapply ensures_mono; [|apply ensures_with_change]. intros [] t3 _ ->. by rewrite Hg2.
Qed.

(** ** Cursor movement *)

(** A position computed from others. *)
#[local] Ltac on_screen :=
  apply position_fits; [done|..];
  unfold cursor_column, cursor_row, at_position, saturating_add32, saturating_sub, clamp, i32_max in *; simpl in *; lia.

Lemma clear_deferred_wrap_safe home t :
  ensures 1 (clear_deferred_wrap home) (λ _ t', ∃ n, t' = set_grid (put_cursor
    (let c := set_deferred_wrap false (cursor (grid t)) in if home then at_position 0 (cursor_row c) c else c)
    (set_generation n (grid t))) t) t.
Proof using Type.
  unfold clear_deferred_wrap. apply ensures_get. intros Ht. apply ensures_set_cursor. intros _.
  destruct (cursor_on_screen t Ht) as [Hc Hr]. pose proof (ok_dimensions t Ht).
  destruct home; on_screen.
Qed.

Lemma line_feed_safe t : ensures (2 ^ 32) line_feed (λ _ _, True) t.
Proof using Type.
  unfold line_feed. apply ensures_get. intros Ht. destruct (cursor_on_screen t Ht) as [Hc Hr].
  pose proof (ok_dimensions t Ht) as [_ Hdim]. pose proof (to_region _ Ht). pose proof (to_region_end _ Ht).
  case_match.
  - apply current_background_safe. intros bg _. eapply ensures_mono; [|apply scroll_grid_safe]; [done|]. intros _. lia.
  - eapply (ensures_le 1); [done|]. apply ensures_set_cursor_any. intros _. rewrite grid_rows by done.
    on_screen.
Qed.

Lemma reverse_index_safe t : ensures (2 ^ 32) reverse_index (λ _ _, True) t.
Proof using Type.
  unfold reverse_index. apply ensures_get. intros Ht. destruct (cursor_on_screen t Ht) as [Hc Hr].
  pose proof (to_region _ Ht). pose proof (to_region_end _ Ht). case_match.
  - apply current_background_safe. intros bg _. eapply ensures_mono; [|apply scroll_grid_safe]; [done|]. intros _. lia.
  - eapply (ensures_le 1); [done|]. apply ensures_set_cursor_any. intros _.
    on_screen.
Qed.

Lemma backspace_safe t : ensures 1 backspace (λ _ _, True) t.
Proof using Type.
  unfold backspace. apply ensures_get. intros Ht. destruct (cursor_on_screen t Ht) as [Hc Hr].
  pose proof (ok_dimensions t Ht). apply ensures_set_cursor_any. intros _.
  rewrite grid_columns by done. repeat case_match; on_screen.
Qed.

Lemma tab_step_range forward stops column :
  0 ≤ column < Z.of_nat (length stops) → 0 ≤ tab_step forward stops column < Z.of_nat (length stops).
Proof using Type.
  intros Hc. unfold tab_step. destruct forward.
  - destruct (find_first _ (range _ _)) as [x|] eqn:Hf; simpl; [|lia].
    apply find_first_elem in Hf. apply elem_of_seqZ in Hf. lia.
  - destruct (find_first _ (reverse _)) as [x|] eqn:Hf; simpl; [|lia].
    apply find_first_elem in Hf. rewrite elem_of_reverse in Hf. apply elem_of_seqZ in Hf. lia.
Qed.

Lemma tab_safe n forward t : ensures 1 (tab n forward) (λ _ _, True) t.
Proof using Type.
  unfold tab. apply ensures_get. intros Ht. destruct (cursor_on_screen t Ht) as [Hc Hr].
  apply ensures_set_cursor_any. intros _. pose proof (to_tabs _ Ht) as Htabs.
  set (steps := Z.to_nat _). assert (∀ m, 0 ≤ Nat.iter m (tab_step forward (tab_stops t)) (cursor_column (cursor (grid t))) < columns (normal t)) as Hit.
  { induction m as [|m IH]; simpl; [done|]. rewrite <-Htabs in *. by apply tab_step_range. }
  specialize (Hit steps). on_screen.
Qed.

Lemma move_cursor_safe dc dr t : ensures 1 (move_cursor dc dr) (λ _ _, True) t.
Proof using Type.
  unfold move_cursor. apply ensures_get. intros Ht. destruct (cursor_on_screen t Ht) as [Hc Hr].
  pose proof (ok_dimensions t Ht). pose proof (to_region _ Ht). pose proof (to_region_end _ Ht).
  rewrite grid_columns, grid_rows by done.
  destruct (origin_mode (modes t)); apply ensures_set_cursor_any; intros _; on_screen.
Qed.

Lemma set_column_safe column t : 0 ≤ column → ensures 1 (set_column column) (λ _ _, True) t.
Proof using Type.
  intros H0. unfold set_column. apply ensures_get. intros Ht. destruct (cursor_on_screen t Ht) as [Hc Hr].
  pose proof (ok_dimensions t Ht). rewrite grid_columns by done. apply ensures_set_cursor_any. intros _. on_screen.
Qed.

Lemma set_row_safe r t : 0 ≤ r → ensures 1 (set_row r) (λ _ _, True) t.
Proof using Type.
  intros H0. unfold set_row. apply ensures_get. intros Ht. destruct (cursor_on_screen t Ht) as [Hc Hr].
  pose proof (ok_dimensions t Ht). pose proof (to_region _ Ht). pose proof (to_region_end _ Ht).
  rewrite grid_rows by done. unfold i32_max in *. destruct (origin_mode (modes t)); apply ensures_set_cursor_any; intros _; on_screen.
Qed.

Lemma value_nonneg p : 0 ≤ Param_value p 1 true.
Proof using Type. unfold Param_value. destruct (negb _ || _); [done|]. apply Z.land_nonneg. by right. Qed.

Lemma set_cursor_position_safe ps t : ensures 2 (set_cursor_position ps) (λ _ _, True) t.
Proof using Type.
  unfold set_cursor_position. change 2 with (1 + 1). eapply ensures_bind; [done|apply set_row_safe; unfold saturating_sub; lia|].
  intros [] t' _ _ _. apply set_column_safe. unfold saturating_sub. lia.
Qed.

(** ** Editing lines *)

(** The state an erase starts from. *)
Lemma after_clear_wrap {B} k home (f : M Terminal unfinished B) R t :
  0 ≤ k → (∀ t', goes 1 t t' → ensures k f R t') → ensures (1 + k) (do! clear_deferred_wrap home in f) R t.
Proof using Type.
  intros Hk Hf. eapply ensures_bind; [done|apply clear_deferred_wrap_safe|]. intros [] t' _ Hg _. by apply Hf.
Qed.

Lemma row_at_cursor t f :
  (∀ x, terminal_ok t → row_good x → Z.of_nat (row_len x) = columns (normal t) → edits f x) →
  ensures 1 (edit_visible_row (cursor_row (cursor (grid t))) f) (λ _ _, True) t.
Proof using Type. intros Hf. apply ensures_edit; [by intros Ht; apply cursor_on_screen|]. intros x Ht _. by apply Hf. Qed.

(** Images first, then the row of the cursor. *)
Lemma erase_images_then k a b c d (m : M Terminal unfinished unit) t :
  0 ≤ k → (∀ t', goes 0 t t' → grid t' = grid t → ensures k m (λ _ _, True) t') →
  ensures k (do! overwrite_image_cells a b c d in m) (λ _ _, True) t.
Proof using Type.
  intros Hk Hm. rewrite <-(Z.add_0_l k). eapply ensures_bind; [done|apply overwrite_images_safe|].
  intros [] t' _ Hg Heq. by apply Hm.
Qed.

Lemma erase_line_safe mode t : ensures 2 (erase_line mode) (λ _ _, True) t.
Proof using Type.
  unfold erase_line. change 2 with (1 + 1). apply after_clear_wrap; [done|]. intros t1 _. apply ensures_get. intros Ht.
  destruct (cursor_on_screen t1 Ht) as [Hc Hr]. rewrite grid_columns by done. apply current_background_safe. intros bg _.
  assert (∀ a b, 0 ≤ a ≤ b → b ≤ columns (normal t1) → ensures 1
    (do! overwrite_image_cells (cursor_row (cursor (grid t1))) (cursor_row (cursor (grid t1)) + 1) a b in
     edit_visible_row (cursor_row (cursor (grid t1))) (erase (Z.to_nat a) (Z.to_nat b) bg)) (λ _ _, True) t1) as Hrange.
  { intros a b Ha Hb. apply erase_images_then; [done|]. intros t2 Hg2 Heq. rewrite <-Heq. apply row_at_cursor.
    intros x _ Hx Hlen. rewrite (goes_columns _ _ _ Hg2) in Hlen. apply erase_edits; [done|lia..]. }
  pose proof (ok_dimensions t1 Ht). repeat case_match; try (apply Hrange; lia). by apply ensures_ret.
Qed.

Lemma erase_rows_safe a b bg t :
  0 ≤ a → b ≤ screen_rows (normal t) → ensures (2 ^ 30) (erase_rows a b bg) (λ _ _, True) t.
Proof using Type.
  intros Ha Hb. apply ensures_ok. intros Ht. pose proof (ok_dimensions t Ht).
  eapply (ensures_le (1 * Z.of_nat (length (range a b)))); [unfold range; rewrite length_seqZ; lia|].
  apply ensures_for_each; [done|]. intros r n t' [? ?]%elem_of_seqZ Hg. apply ensures_edit.
  - intros _. rewrite (goes_rows _ _ _ Hg). lia.
  - intros x _ _ Hx _. by apply erase_all_edits.
Qed.

Lemma set_images_then {B} k p (m : M Terminal unfinished B) R t :
  0 ≤ k → (∀ t', goes 0 t t' → grid t' = grid t → ensures k m R t') → ensures k (do! put (set_images p t) in m) R t.
Proof using Type.
  intros Hk Hm. rewrite <-(Z.add_0_l k). eapply (ensures_bind 0 k _ _ (λ _ t', grid t' = grid t)); [done| |].
  - apply ensures_put; try done. intros. by apply ok_images.
  - intros [] t' _ Hg Heq. by apply Hm.
Qed.

Lemma clear_scrollback_safe t : ensures 1 (on_grid clear_scrollback) (λ _ _, True) t.
Proof using Type.
  eapply ensures_mono; [|apply (ensures_on_grid 1 _ (λ _ _, True)); [done|]]; [done|].
  intros _ [Hok Hr] Hs. eapply runs_mono; [|apply clear_scrollback_runs; [done|eapply spare_le; [|exact Hs]; lia]].
  intros [] g' (Hok' & Hsp & _ & _ & _ & Hn & Hscr & Hnone & Hcap). split_and!; [|done|done]. split; [done|].
  apply (rows_hold_places _ (grid t)); [done|apply Hok'|]. intros r Hx. rewrite Hcap in Hx.
  destruct (decide (r < screen_rows (grid t))); [left; apply Hscr; lia|right].
  intros x Hrow. change ((place r g').1 = Some x) in Hrow. by rewrite Hnone in Hrow by lia.
Qed.

Lemma erase_display_safe mode t : ensures (2 ^ 31) (erase_display mode) (λ _ _, True) t.
Proof using Type.
  unfold erase_display. eapply (ensures_le (1 + (1 + 2 ^ 30))); [done|]. apply after_clear_wrap; [done|]. intros t1 _.
  apply ensures_get. intros Ht. destruct (cursor_on_screen t1 Ht) as [Hc Hr]. pose proof (ok_dimensions t1 Ht).
  rewrite grid_columns, grid_rows by done. apply current_background_safe. intros bg _.
  assert (∀ a b t2 n, 0 ≤ a ≤ b → b ≤ columns (normal t1) → goes n t1 t2 →
    ensures 1 (edit_visible_row (cursor_row (cursor (grid t1))) (erase (Z.to_nat a) (Z.to_nat b) bg)) (λ _ _, True) t2) as Hrow.
  { intros a b t2 n Ha Hb Hg. apply ensures_edit; [by rewrite (goes_rows _ _ _ Hg)|].
    intros x _ _ Hx Hlen. rewrite (goes_columns _ _ _ Hg) in Hlen. apply erase_edits; [done|lia..]. }
  repeat case_match; try by apply ensures_ret.
  - apply erase_images_then; [done|]. intros t2 Hg2 _. apply erase_images_then; [done|]. intros t3 Hg3 _.
    pose proof (goes_trans _ _ _ _ _ Hg2 Hg3) as Hg. eapply ensures_bind; [done|eapply Hrow; [lia|lia|exact Hg]|].
    intros [] t4 _ Hg4 _. apply erase_rows_safe; [lia|]. by rewrite (goes_rows _ _ _ Hg4), (goes_rows _ _ _ Hg).
  - apply erase_images_then; [done|]. intros t2 Hg2 _. apply erase_images_then; [done|]. intros t3 Hg3 _.
    pose proof (goes_trans _ _ _ _ _ Hg2 Hg3) as Hg. rewrite (Z.add_comm 1). eapply ensures_bind; [done|apply erase_rows_safe; [lia|]|].
    { rewrite (goes_rows _ _ _ Hg). lia. }
    intros [] t4 _ Hg4 _. eapply (Hrow 0 (cursor_column (cursor (grid t1)) + 1)); [lia|lia|exact (goes_trans _ _ _ _ _ Hg Hg4)].
  - apply erase_images_then; [done|]. intros t2 Hg2 _. apply ensures_get. intros Ht2.
    destruct (screen_row_ids_ok (grid t2) (sg_ok _ (grid_good t2 Ht2))) as (ids & Hids & _).
    eapply ensures_lift; [exact Hids|]. apply set_images_then; [done|]. intros t3 Hg3 _.
    eapply ensures_le; [|apply erase_rows_safe; [done|]]; [done|].
    by rewrite (goes_rows _ _ _ Hg3), (goes_rows _ _ _ Hg2).
  - eapply ensures_le; [|apply clear_scrollback_safe]. done.
Qed.

(** The three edits of the rest of the row. *)
Lemma edit_rest_safe f a b t :
  (∀ c bg x, row_good x → 0 ≤ c < Z.of_nat (row_len x) → edits (f (Z.to_nat c) bg) x) →
  ensures 2 (do! clear_deferred_wrap false in
    let! t := get in
    let c := cursor (grid t) in
    do! overwrite_image_cells (cursor_row c) (cursor_row c + 1) (a t) (b t) in
    let! background := current_background in
    edit_visible_row (cursor_row c) (f (Z.to_nat (cursor_column c)) background)) (λ _ _, True) t.
Proof using Type.
  intros Hf. change 2 with (1 + 1). apply after_clear_wrap; [done|]. intros t1 _. apply ensures_get. intros Ht.
  destruct (cursor_on_screen t1 Ht) as [Hc Hr]. apply erase_images_then; [done|]. intros t2 Hg2 Heq.
  apply current_background_safe. intros bg _. rewrite <-Heq in *. apply row_at_cursor. intros x _ Hx Hlen.
  apply Hf; [done|]. rewrite Hlen, (goes_columns _ _ _ Hg2). done.
Qed.

Lemma insert_characters_safe p t : ensures 2 (insert_characters p) (λ _ _, True) t.
Proof using Type.
  apply (edit_rest_safe (λ c bg, insert_cells c (Z.to_nat (param_usize p)) bg)
    (λ t, cursor_column (cursor (grid t))) (λ t, columns (grid t))).
  intros c bg x Hx Hc. apply insert_cells_edits; [done|lia].
Qed.

Lemma delete_characters_safe p t : ensures 2 (delete_characters p) (λ _ _, True) t.
Proof using Type.
  apply (edit_rest_safe (λ c bg, delete_cells c (Z.to_nat (param_usize p)) bg)
    (λ t, cursor_column (cursor (grid t))) (λ t, columns (grid t))).
  intros c bg x Hx Hc. apply delete_cells_edits; [done|lia].
Qed.

Lemma erase_characters_safe p t : ensures 2 (erase_characters p) (λ _ _, True) t.
Proof using Type.
  unfold erase_characters. change 2 with (1 + 1). apply after_clear_wrap; [done|]. intros t1 _. apply ensures_get. intros Ht.
  destruct (cursor_on_screen t1 Ht) as [Hc Hr]. pose proof (ok_dimensions t1 Ht). rewrite grid_columns by done.
  apply erase_images_then; [done|]. intros t2 Hg2 Heq. apply current_background_safe. intros bg _. rewrite <-Heq in *.
  apply row_at_cursor. intros x _ Hx Hlen. rewrite (goes_columns _ _ _ Hg2) in Hlen.
  pose proof (value_nonneg p). unfold param_usize. assert (columns (normal t1) ≤ usize_max) by (unfold i32_max, usize_max, u64_max in *; lia).
  apply erase_edits; [done|lia..].
Qed.

Lemma scroll_lines_safe dir p t : ensures (2 ^ 32) (scroll_lines dir p) (λ _ _, True) t.
Proof using Type.
  unfold scroll_lines. apply ensures_get. intros Ht. apply current_background_safe. intros bg _.
  eapply ensures_mono; [|apply scroll_grid_safe]; [done|]. intros _.
  pose proof (to_region _ Ht). pose proof (to_region_end _ Ht). pose proof (value_nonneg p). unfold param_usize. lia.
Qed.
End terminal.
