(* ===== verification/TerminalControl.v ===== *)
(** * The control functions of the terminal keep its invariant

    Saved state, modes, the alternate screen, attributes, reports, tab stops,
    operating system commands and the reset. *)

From stdpp Require Import base list gmap strings.
From S2P Require Import Prelude RustStd Cell CellProps Row RowInv RowProps Coord Grid GridInv GridSteps GridOps Reflow GridProps Composed Vt VtInv Update Terminal RowEdits TerminalInv TerminalSteps.

#[local] Open Scope Z_scope.

(** The invariant after a change of a field it does not constrain, or whose
    constraint is at hand. *)
Ltac keeps_ok := intros [? ? ? ? ? ? ? ? ? ? ? ? ? ? ? [] ?]; split; try done.

(** A computation that only changes such a field. *)
Ltac changes_field := apply ensures_modify; try done; keeps_ok.

Section terminal.
Context {W : UnicodeWidth} {I : ImagePlane}.

(** ** Saved state *)

Lemma region_home_fits t (b : bool) :
  terminal_ok t → cursor_fits (Cursor_new {| coord_column := 0; coord_row := if b then region_start (scroll_region t) else 0 |}) (grid t) = true.
Proof using Type.
  intros Ht. pose proof (ok_dimensions t Ht). pose proof (to_region _ Ht). pose proof (to_region_end _ Ht).
  apply position_fits; [done|..]; unfold cursor_column, cursor_row; simpl; destruct b; lia.
Qed.

Lemma set_scroll_region_safe ps t : ensures 1 (set_scroll_region ps) (λ _ _, True) t.
Proof using Type.
  unfold set_scroll_region. apply ensures_get. intros Ht. rewrite grid_rows by done. pose proof (ok_dimensions t Ht) as Hd.
  set (start := Z.min _ _). set (stop := Z.min _ _). destruct (Z.ltb_spec (start + 1) stop) as [Hlt|]; [|by apply ensures_ret].
  assert (0 ≤ start) by (unfold start, saturating_sub; lia). assert (stop ≤ screen_rows (normal t)) by (unfold stop; lia).
  eapply ensures_lift; [unfold ScrollRegion_new; by rewrite (proj2 (Z.leb_le _ _)) by lia|].
  change 1 with (0 + 1). eapply (ensures_bind 0 1 _ _ (λ _ t', grid t' = grid t ∧ modes t' = modes t ∧
    scroll_region t' = {| region_start := start; region_end := stop |})); [done| |].
  { apply ensures_modify; try done. clear Ht. keeps_ok; simpl; lia. }
  intros [] t' _ Hg (Heq & Hm & Hr). rewrite <-Hm, <-Hr. apply ensures_set_cursor_any. apply region_home_fits.
Qed.

Lemma save_cursor_safe t : ensures 1 save_cursor (λ _ _, True) t.
Proof using Type.
  unfold save_cursor. apply ensures_get. intros Ht. change 1 with (1 + 0).
  eapply ensures_bind; [done|apply (ensures_on_grid 1 _ (λ _ _, True)); [done|]|].
  - intros _ Hg Hs. eapply runs_mono; [|apply set_saved_cursor_good; [done|exact Hs|done|]].
    + intros [] g' (? & ? & _). done.
    + apply Hg.
  - intros [] t' _ _ _. changes_field.
Qed.

Lemma restore_cursor_safe t : ensures 1 restore_cursor (λ _ _, True) t.
Proof using Type.
  unfold restore_cursor. apply ensures_get. intros Ht. change 1 with (1 + 0).
  eapply ensures_bind; [done|apply ensures_set_cursor_any|].
  - intros _. apply (grid_good t Ht).
  - intros [] t' _ _ _. changes_field.
Qed.

Lemma clamp_position_fits g p :
  0 < columns g → 0 < screen_rows g → cursor_fits (Cursor_new (clamp_position g p)) g = true.
Proof using Type. intros. apply cursor_fits_iff. unfold clamp_position, clamp; simpl. lia. Qed.

Lemma cleared_alternate_safe bg t : ensures (2 ^ 32) (on_alternate (reset_visible bg)) (λ _ _, True) t.
Proof using Type.
  eapply ensures_mono; [|apply (ensures_on_alternate (2 ^ 32) _ (λ _ _, True)); [done|]]; [done|].
  intros Ht [Hok Hr] Hs. eapply runs_mono; [|apply reset_visible_runs; [done|eapply spare_le; [|exact Hs]; done]].
  intros [] g' (Hok' & Hsp & _ & _ & _ & _ & Hrows & Hkept). split_and!; [|done|done]. split; [done|].
  apply (rows_hold_places _ (alternate t)); [done|apply Hok'|]. intros r Hx. rewrite (sp_capacity _ _ _ Hsp) in Hx.
  destruct (decide (r < screen_rows (alternate t))); [right|left; apply Hkept; lia].
  rewrite (Hrows r) by lia. intros x [= <-]. apply blank_row_good, Hok.
Qed.

Lemma select_alternate_safe enabled save t : ensures (2 ^ 32 + 2) (select_alternate enabled save) (λ _ _, True) t.
Proof using Type.
  unfold select_alternate. apply ensures_get. intros Ht. destruct (enabled && _).
  - replace (2 ^ 32 + 2) with (1 + (2 ^ 32 + (0 + (1 + 0)))) by done. eapply ensures_bind; [done| |].
    { instantiate (1 := λ _ _, True). destruct save; [apply save_cursor_safe|by apply ensures_ret]. }
    intros [] t1 _ _ _. apply ensures_get. intros Ht1. apply current_background_safe. intros bg _.
    eapply ensures_bind; [done|apply cleared_alternate_safe|]. intros [] t2 _ _ _.
    eapply ensures_bind; [done|by instantiate (1 := λ _ _, True); changes_field|].
    intros [] t3 _ _ _. apply ensures_get. intros Ht3. pose proof (ok_dimensions t3 Ht3).
    eapply ensures_bind; [done|apply (ensures_on_alternate 1 _ (λ _ _, True)); [done|]|].
    + intros _ Hg Hs. eapply runs_mono; [|apply set_cursor_good; [done|exact Hs|done|]].
      * intros [] g' (? & ? & _). done.
      * apply clamp_position_fits; rewrite ?(to_columns _ Ht3), ?(to_rows _ Ht3); lia.
    + intros [] t4 _ _ _. changes_field.
  - destruct (negb enabled && _); [|by apply ensures_ret]. eapply (ensures_le (0 + (1 + 1))); [done|].
    eapply (ensures_bind 0 _ _ _ (λ _ t', normal t' = normal t)); [done|by changes_field|].
    intros [] t1 _ _ <-. eapply ensures_bind; [done|apply (ensures_on_normal 1 _ (λ _ _, True)); [done|]|].
    + intros Ht1 Hg Hs. pose proof (ok_dimensions t1 Ht1). eapply runs_mono; [|apply set_cursor_good; [done|exact Hs|done|]].
      * intros [] g' (? & ? & _). done.
      * apply clamp_position_fits; lia.
    + intros [] t2 _ _ _. destruct save; [apply restore_cursor_safe|by apply ensures_ret].
Qed.

(** ** Modes *)

Lemma ok_modes m t : terminal_ok t → terminal_ok (set_modes m t).
Proof using Type. keeps_ok. Qed.

Lemma set_mode_safe f t : ensures 0 (set_mode f) (λ _ t', grid t' = grid t ∧ scroll_region t' = scroll_region t) t.
Proof using Type. apply ensures_modify; try done. apply ok_modes. Qed.

Lemma set_mode_any k f t : 0 ≤ k → ensures k (set_mode f) (λ _ _, True) t.
Proof using Type. intros Hk. eapply ensures_le; [exact Hk|]. eapply ensures_mono; [|apply set_mode_safe]. done. Qed.

Lemma set_private_mode_safe mode enabled t : ensures (2 ^ 33) (set_private_mode mode enabled) (λ _ _, True) t.
Proof using Type.
  unfold set_private_mode. apply ensures_get. intros Ht.
  repeat (lazymatch goal with |- ensures _ (if _ =? _ then _ else _) _ _ => idtac | |- ensures _ (if _ || _ then _ else _) _ _ => idtac end;
    case_match; [try (by apply set_mode_any); try (by changes_field)|]); [..|by apply ensures_ret].
  - eapply (ensures_le (0 + 1)); [done|]. eapply ensures_bind; [done|apply set_mode_safe|].
    intros [] t' _ _ [_ <-]. apply ensures_set_cursor_any. apply region_home_fits.
  - eapply (ensures_le (0 + 1)); [done|]. eapply ensures_bind; [done|apply set_mode_safe|].
    intros [] t' _ _ [<- _]. apply ensures_set_cursor_any. intros Ht'. apply (grid_good t' Ht').
  - eapply ensures_le; [|apply select_alternate_safe]. done.
  - destruct enabled; (eapply ensures_le; [|first [apply save_cursor_safe|apply restore_cursor_safe]]; done).
  - eapply ensures_le; [|apply select_alternate_safe]. done.
Qed.

Lemma set_private_modes_safe ps enabled t :
  count ps ≤ PARAM_LIMIT → ensures (2 ^ 37) (set_private_modes ps enabled) (λ _ _, True) t.
Proof using Type.
  intros Hps. unfold PARAM_LIMIT in Hps. eapply (ensures_le (2 ^ 33 * Z.of_nat (length (range 0 (Z.max (count ps) 1))))).
  { unfold range. rewrite length_seqZ. lia. }
  apply ensures_for_each; [done|]. intros. apply set_private_mode_safe.
Qed.

(** ** Attributes, reports and tab stops *)

Lemma sgr_safe ps t : ensures 0 (sgr ps) (λ _ _, True) t.
Proof using Type. unfold sgr, update_attributes. case_match; changes_field. Qed.

Lemma event_safe k e t : 0 ≤ k → ensures k (push_event e) (λ _ _, True) t.
Proof using Type. intros Hk. eapply ensures_le; [exact Hk|]. eapply ensures_mono; [|apply push_event_safe]. done. Qed.

Lemma device_status_safe private code t : ensures 0 (device_status private code) (λ _ _, True) t.
Proof using Type. unfold device_status, reply_bytes. apply ensures_get. intros _. repeat case_match; by apply event_safe || by apply ensures_ret. Qed.

Lemma device_attributes_safe private t : ensures 0 (device_attributes private) (λ _ _, True) t.
Proof using Type. unfold device_attributes, reply_bytes. apply ensures_get. intros _. repeat case_match; by apply event_safe || by apply ensures_ret. Qed.

Lemma ok_tab_stops s t : terminal_ok t → length s = length (tab_stops t) → terminal_ok (set_tab_stops s t).
Proof using Type. intros Ht Hl. revert Ht. keeps_ok; cbn [tab_stops set_tab_stops normal]; by rewrite ?Hl. Qed.

(** The cursor has a tab stop. *)
Lemma cursor_tab t : terminal_ok t → (cursor_column (cursor (grid t)) <? Z.of_nat (length (tab_stops t))) = true.
Proof using Type. intros Ht. apply Z.ltb_lt. rewrite (to_tabs _ Ht). apply (cursor_on_screen t Ht). Qed.

Lemma set_tab_safe b t :
  ensures 0 (let! t := get in
    let column := cursor_column (cursor (grid t)) in
    do! assert_ (column <? Z.of_nat (length (tab_stops t))) in
    put (set_tab_stops (<[Z.to_nat column := b]> (tab_stops t)) t)) (λ _ _, True) t.
Proof using Type.
  apply ensures_get. intros Ht. apply ensures_assert; [by apply cursor_tab|]. apply ensures_put; try done.
  intros _. apply ok_tab_stops; [done|]. by rewrite length_insert.
Qed.

Lemma clear_tabs_safe mode t : ensures 0 (clear_tabs mode) (λ _ _, True) t.
Proof using Type.
  unfold clear_tabs. apply ensures_get. intros Ht. destruct (mode =? 0).
  - pose proof (set_tab_safe false t) as H. intros Ht' Hf Hc. specialize (H Ht' Hf Hc).
    unfold runs, bind, get in H. exact H.
  - destruct (mode =? 3); [|by apply ensures_ret]. apply ensures_put; try done.
    intros _. apply ok_tab_stops; [done|]. by rewrite length_replicate.
Qed.

Lemma report_sixel_geometry_safe b t : ensures 0 (report_sixel_geometry b) (λ _ _, True) t.
Proof using Type. unfold report_sixel_geometry, reply_bytes. apply ensures_get. intros _. repeat case_match; by apply event_safe. Qed.

(** A field, then an event. *)
Lemma field_then_event k f m t :
  0 ≤ k → (∀ t, terminal_ok t → terminal_ok (f t)) → (∀ t, normal (f t) = normal t) → (∀ t, alternate (f t) = alternate t) →
  (∀ t, current_change (f t) = current_change t) → (∀ t, t_revision (f t) = t_revision t) → (∀ t, config (f t) = config t) →
  safe k m → ensures k (do! modify f in m) (λ _ _, True) t.
Proof using Type.
  intros Hk Hok Hn Ha Hc Hr Hcfg Hm. rewrite <-(Z.add_0_l k). eapply (ensures_bind 0 k _ _ (λ _ _, True)); [done| |].
  - apply ensures_modify; auto; first [lia|by rewrite Hc].
  - intros [] t' _ _ _. apply Hm.
Qed.

Lemma xtsmgraphics_safe ps t : ensures 0 (xtsmgraphics ps) (λ _ _, True) t.
Proof using Type.
  unfold xtsmgraphics, report_sixel_colors, reply_bytes. apply ensures_get. intros _.
  repeat case_match; first [by apply ensures_ret|by apply event_safe|apply report_sixel_geometry_safe|idtac].
  all: apply field_then_event; try done; [by intros ?; keeps_ok|]; intros ?; by apply event_safe || apply report_sixel_geometry_safe.
Qed.

(** ** Operating system commands *)

Lemma ok_palette p t : terminal_ok t → length p = 256%nat → terminal_ok (set_palette p t).
Proof using Type. intros Ht Hp. revert Ht. keeps_ok. Qed.

Lemma ok_defaults p t : terminal_ok t → length p = 3%nat → terminal_ok (set_default_colors p t).
Proof using Type. intros Ht Hp. revert Ht. keeps_ok. Qed.

Lemma put_then_event t' e t :
  (terminal_ok t → terminal_ok t') → normal t' = normal t → alternate t' = alternate t →
  current_change t' = current_change t → t_revision t' = t_revision t → config t' = config t →
  ensures 0 (do! put t' in push_event e) (λ _ _, True) t.
Proof using Type.
  intros Hok Hn Ha Hc Hr Hcfg. eapply (ensures_bind 0 0 _ _ (λ _ _, True)); [done| |].
  - apply ensures_put; auto; first [lia|by rewrite Hc].
  - intros [] t1 _ _ _. by apply event_safe.
Qed.

Lemma osc_palette_fields_safe fields terminator t : ensures 0 (osc_palette_fields fields terminator) (λ _ _, True) t.
Proof using Type.
  revert fields t. fix IH 1. intros [|index [|spec fields]] t; cbn [osc_palette_fields]; [by apply ensures_ret..|].
  eapply (ensures_bind 0 0 _ _ (λ _ _, True)); [done| |intros [] t' _ _ _; apply IH].
  destruct (parse_u64 index) as [i|]; [|by apply ensures_ret]. destruct (Z.leb_spec 256 i) as [|Hi]; [by apply ensures_ret|].
  case_bool_decide.
  - apply ensures_get. intros Ht. destruct (lookup_lt_is_Some_2 (palette t) (Z.to_nat i)) as [color Hcolor].
    { rewrite (to_palette _ Ht). lia. }
    eapply ensures_expect; [exact Hcolor|]. by apply event_safe.
  - destruct (parse_rgb spec) as [color|]; [|by apply ensures_ret].
    apply field_then_event; try done; [|intros ?; by apply event_safe].
    intros t1 Ht1. apply ok_palette; [done|]. rewrite length_insert. apply Ht1.
Qed.

Lemma osc_default_color_safe command i data terminator t :
  (i < 3)%nat → ensures 0 (osc_default_color command i data terminator) (λ _ _, True) t.
Proof using Type.
  intros Hi. unfold osc_default_color. apply ensures_get. intros Ht. case_bool_decide.
  - destruct (lookup_lt_is_Some_2 (default_colors t) i) as [color Hcolor]; [by rewrite (to_defaults _ Ht)|].
    eapply ensures_expect; [exact Hcolor|]. by apply event_safe.
  - destruct (parse_rgb data) as [color|]; [|by apply ensures_ret]. apply put_then_event; try done.
    intros _. apply ok_defaults; [done|]. rewrite length_insert. apply Ht.
Qed.

Lemma osc_reset_default_color_safe i t : (i < 3)%nat → ensures 0 (osc_reset_default_color i) (λ _ _, True) t.
Proof using Type.
  intros Hi. unfold osc_reset_default_color. apply ensures_get. intros Ht.
  destruct (lookup_lt_is_Some_2 (initial_default_colors t) i) as [color Hcolor]; [by rewrite (to_initial_defaults _ Ht)|].
  eapply ensures_expect; [exact Hcolor|]. apply put_then_event; try done.
  intros _. apply ok_defaults; [done|]. rewrite length_insert. apply Ht.
Qed.

Lemma osc_reset_palette_safe data t : ensures 0 (osc_reset_palette data) (λ _ _, True) t.
Proof using Type.
  unfold osc_reset_palette. case_bool_decide.
  - apply ensures_modify; try done. intros Ht. apply ok_palette; [done|]. apply Ht.
  - eapply ensures_le; [|apply (ensures_for_each 0)]; [lia|done|]. intros i n t' _ _.
    destruct (Z.ltb_spec i 256) as [Hi|]; [|by apply ensures_ret]. apply ensures_get. intros Ht.
    destruct (lookup_lt_is_Some_2 (initial_palette t') (Z.to_nat i)) as [color Hcolor].
    { rewrite (to_initial_palette _ Ht). lia. }
    eapply ensures_expect; [exact Hcolor|]. apply put_then_event; try done.
    intros _. apply ok_palette; [done|]. rewrite length_insert. apply Ht.
Qed.

Lemma osc_safe payload terminator t : ensures 0 (osc payload terminator) (λ _ _, True) t.
Proof using Type.
  unfold osc. destruct (negb _); [by apply ensures_ret|]. destruct (default _ _) as [command data]. cbv zeta.
  repeat (destruct (_ || _) || case_bool_decide); try by apply ensures_ret.
  - apply field_then_event; try done; [by intros ?; keeps_ok|intros ?; by apply event_safe].
  - apply osc_palette_fields_safe.
  - apply osc_default_color_safe; lia.
  - apply osc_default_color_safe; lia.
  - apply osc_default_color_safe; lia.
  - apply osc_reset_palette_safe.
  - apply osc_reset_default_color_safe; lia.
  - apply osc_reset_default_color_safe; lia.
  - apply osc_reset_default_color_safe; lia.
Qed.

(** ** Construction and reset *)

(** A new screen of good rows. *)
Lemma new_screen capacity width n :
  dimensions_ok capacity width n →
  ∃ g, with_screen_size capacity width n = Ok g ∧ screen_good g ∧ spare (u64_max - 2 ^ 31) g ∧
    row_capacity g = capacity ∧ columns g = width ∧ screen_rows g = n ∧ cursor g = Cursor_default ∧
    (∀ r, 0 ≤ r < n → row r g = Some (Row_new (Z.to_nat width))).
Proof using Type.
  intros Hd. destruct (with_screen_runs _ _ _ Hd) as (g & Hg & Hok & Hs & Hcap & Hcol & Hn & _ & _ & Hrows & Hnone & Hcur).
  exists g. split_and!; try done. split; [done|]. apply rows_hold_intro; [apply Hok|]. intros r x Hr Hx.
  rewrite Hcap in Hr. destruct (decide (r < n)).
  - rewrite Hrows in Hx by lia. injection Hx as <-. apply new_row_good. apply Hd.
  - change ((place r g).1 = Some x) in Hx. by rewrite Hnone in Hx by lia.
Qed.

Lemma default_palette_length : length default_palette = 256%nat.
Proof using Type. vm_compute. reflexivity. Qed.

Lemma Terminal_new_runs width n c cn ca :
  config_ok c → normal_capacity n c = Ok cn → alternate_capacity n = Ok ca →
  dimensions_ok cn width n → dimensions_ok ca width n →
  ∃ t, Terminal_new width n c = Ok t ∧ terminal_ok t ∧ fits (u64_max - 2 ^ 31) t ∧
    columns (normal t) = width ∧ screen_rows (normal t) = n ∧
    config t = c ∧ t_revision t = 0 ∧ update_history t = [] ∧ t_events t = [] ∧ current_change t = None ∧
    active t = Normal ∧ modes t = TerminalModes_default ∧ cursor (normal t) = Cursor_default ∧
    (∀ r, 0 ≤ r < n → row r (normal t) = Some (Row_new (Z.to_nat width))).
Proof using Type.
  intros [Hsb Htab Hev Hhist] Hcn Hca Hdn Hda.
  destruct (new_screen _ _ _ Hdn) as (gn & Hgn & Gn & Sn & Cn & Wn & Rn & Kn & Tn).
  destruct (new_screen _ _ _ Hda) as (ga & Hga & Ga & Sa & Ca & Wa & Ra & _).
  pose proof Hdn as (_ & _ & Hw & Hr). pose proof Hda as (_ & _ & _ & Hr').
  unfold Terminal_new. rewrite !(proj2 (Z.ltb_lt _ _)) by lia. cbn [negb andb]. rewrite Hcn. cbn [obind].
  rewrite (proj2 (Z.ltb_ge _ _)) by lia. rewrite Hca. cbn [obind]. rewrite (proj2 (Z.ltb_ge _ _)) by lia.
  rewrite !(proj2 (Z.leb_gt _ _)) by lia. cbn [orb]. rewrite Hgn, Hga. cbn [obind].
  unfold ScrollRegion_new. rewrite (proj2 (Z.leb_le _ _)) by lia. cbn [obind].
  eexists. split; [reflexivity|]. split_and!; try done.
  split; cbn [normal alternate config scroll_region tab_stops composed palette initial_palette default_colors
    initial_default_colors t_events region_start region_end]; rewrite ?Wn, ?Rn, ?Cn, ?Ca; try done; try lia; try apply default_palette_length.
  - unfold tab_stops_for, range. rewrite length_fmap, length_seqZ. lia.
  - split; [apply table_new_ok|constructor].
  - split; simpl; lia.
  - simpl. lia.
Qed.

(** The fresh grid of a screen continues the identities of the old one. *)
Lemma continued_screen g f :
  screen_good g → screen_good f → spare (2 ^ 33 + 2 ^ 33) g → spare (u64_max - 2 ^ 31) f →
  row_capacity f = row_capacity g → columns f = columns g → screen_rows f = screen_rows g →
  runs (continue_history_namespace (next_row_id g, history_generation g)) (λ _ g', screen_good g' ∧ spends (2 ^ 33) g g') f.
Proof using Type.
  intros [Hg _] [Hf Hr] [_ Hn Hh] [Hgen _ _] Ecap Ecol Erow.
  pose proof (slots_next _ (ok_slots _ Hg)) as Hnext. pose proof (ok_history_generation _ Hg).
  pose proof (shape_limit _ (ok_shape _ Hg)) as Hlim.
  eapply runs_mono; [|apply continue_history_runs; [done|lia..]].
  intros [] g' (Hok' & Hrows & Hfr & Hgen' & Hnext' & _). split.
  - split; [done|]. intros x. rewrite Hrows. apply Hr.
  - split.
    + by rewrite (frame_columns _ _ Hfr).
    + by rewrite (frame_screen _ _ Hfr).
    + by rewrite (frame_capacity _ _ Hfr).
    + lia.
    + lia.
    + rewrite (frame_history _ _ Hfr). cbn [history_generation set_history_generation]. lia.
Qed.

Lemma reset_terminal_safe t : ensures (2 ^ 33) reset_terminal (λ _ _, True) t.
Proof using Type.
  intros Ht [Hfn Hfa] Hc. destruct (ok_shape _ (sg_ok _ (to_normal _ Ht))) as [P1 P2 _ P3 P4 _ _].
  destruct (ok_shape _ (sg_ok _ (to_alternate _ Ht))) as [Q1 Q2 _ Q3 Q4 _ _]. rewrite (to_rows _ Ht) in Q4.
  destruct (Terminal_new_runs (columns (normal t)) (screen_rows (normal t)) (config t) _ _ (to_config _ Ht)
    (to_normal_capacity _ Ht) (to_alternate_capacity _ Ht)) as (f & Hnew & Hf & [Sn Sa] & Ecol & Erow & Ecfg & _);
    [unfold dimensions_ok; split_and!; done || lia..|].
  pose proof (to_normal_capacity _ Hf) as En. rewrite Erow, Ecfg, (to_normal_capacity _ Ht) in En. injection En as En.
  pose proof (to_alternate_capacity _ Hf) as Ea. rewrite Erow, (to_alternate_capacity _ Ht) in Ea. injection Ea as Ea.
  destruct (continued_screen (normal t) (normal f)) as (u1 & gn & Rn & Gn & Spn); [apply Ht|apply Hf|done|done|done|done|done|].
  destruct (continued_screen (alternate t) (alternate f)) as (u2 & ga & Ra & Ga & Spa); [apply Ht|apply Hf|done|done|done| | |].
  { by rewrite (to_columns _ Hf), (to_columns _ Ht). } { by rewrite (to_rows _ Hf), (to_rows _ Ht). }
  unfold reset_terminal. apply runs_bind, runs_get, runs_bind. rewrite grid_columns, grid_rows by done.
  eapply runs_lift; [exact Hnew|]. apply runs_bind, runs_put, runs_bind.
  exists u1, (set_normal gn f). split; [unfold on_normal; by rewrite Rn|]. apply runs_bind.
  exists u2, (set_alternate ga (set_normal gn f)). split; [unfold on_alternate; cbn [alternate set_normal]; by rewrite Ra|].
  apply runs_modify. split; [|done]. split; [|done|done|done|done|done].
  pose proof (to_tabs _ Hf) as Htabs. pose proof (to_region_end _ Hf) as Hre. destruct Spn as [En1 En2 En3 _ _ _]. destruct Spa as [Ea1 Ea2 Ea3 _ _ _].
  rewrite Ecol in Htabs. rewrite Erow in Hre. pose proof (to_history _ Ht) as [].
  split; cbn [normal alternate config scroll_region tab_stops composed palette initial_palette default_colors
    initial_default_colors t_events set_current_change set_update_history set_revision set_event_overflowed set_events
    set_cell_pixels set_alternate set_normal]; rewrite ?En1, ?En2, ?En3, ?Ea1, ?Ea2, ?Ea3, ?Ecfg; try first [done|apply Ht; done|apply Hf; done].
  - exact (to_columns _ Ht).
  - exact (to_rows _ Ht).
  - split; cbn [config update_history t_revision set_current_change set_update_history set_revision set_event_overflowed
      set_events set_cell_pixels set_alternate set_normal]; by rewrite ?Ecfg.
Qed.
End terminal.
