(* ===== verification/TerminalPrint.v ===== *)
(** * Printing keeps the terminal's invariant

    The deferred wrap, the padding before a wide character, the cells of a
    character and the characters combined with the one before. *)

From stdpp Require Import base list gmap strings.
From S2P Require Import Prelude RustStd Cell CellProps Row RowInv RowProps Coord Grid GridInv GridSteps GridOps Reflow GridProps Composed Vt Update Terminal RowEdits TerminalInv TerminalSteps TerminalControl.

#[local] Open Scope Z_scope.

Section terminal.
Context {W : UnicodeWidth} {I : ImagePlane}.

(** What a step leaves in the terminal: its cursor is the one returned. *)
Definition at_cursor (c : Cursor) (t : Terminal) : Prop := position c = position (cursor (grid t)).

Lemma edited_cursor n y t t' : edited n y (grid t) (grid t') → cursor (grid t') = cursor (grid t).
Proof using Type. intros []. done. Qed.

(** Clear the mark of a complete line, go home and feed a line. *)
Lemma wrap_line_safe row c t :
  cursor_row c = row → (terminal_ok t → 0 ≤ row < screen_rows (normal t)) →
  ensures (1 + (1 + 2 ^ 32)) (do! edit_visible_row row (λ r, Ok (set_linebreak false r)) in
    do! on_grid (set_cursor (at_position 0 row (set_deferred_wrap false c))) in
    do! line_feed in
    let! t := get in ret (cursor (grid t))) (λ c t', c = cursor (grid t')) t.
Proof using Type.
  intros Hc Hr. eapply ensures_bind; [done|apply ensures_edit; [done|]|].
  { intros x _ _ Hx _. by apply linebreak_edits. }
  intros [] t1 Ht Hg1 _. specialize (Hr Ht). eapply ensures_bind; [done|apply ensures_set_cursor_any|].
  { intros Ht1. pose proof (ok_dimensions t1 Ht1). rewrite <-(goes_rows _ _ _ Hg1) in Hr.
    apply position_fits; [done|unfold cursor_column; simpl; lia|done]. }
  intros [] t2 _ _ _. rewrite <-(Z.add_0_r (2 ^ 32)). eapply ensures_bind; [done|apply line_feed_safe|].
  intros [] t3 _ _ _. apply ensures_get. intros _. by apply ensures_ret.
Qed.

Lemma resolve_deferred_wrap_safe t : ensures (2 ^ 32 + 2) resolve_deferred_wrap at_cursor t.
Proof using Type.
  unfold resolve_deferred_wrap. apply ensures_get. intros Ht. repeat case_match; try by apply ensures_ret.
  eapply ensures_mono; [|eapply ensures_le; [|apply (wrap_line_safe _ (cursor (grid t)))]]; [|done|done|].
  - intros c t' _ ->. done.
  - intros _. apply (cursor_on_screen t Ht).
Qed.

(** The padding of the last column. *)
Lemma pad_safe column row t :
  (terminal_ok t → 0 ≤ row < screen_rows (normal t) ∧ 0 ≤ column ∧ column + 1 = columns (normal t)) →
  ensures 1 (for_each (range column (column + 1)) (λ pad, edit_visible_row row (edit_cell pad (set_content (Spacer 0)))))
    (λ _ _, True) t.
Proof using Type.
  intros H. apply ensures_ok. intros Ht. destruct (H Ht) as (Hr & Hc & Hl).
  eapply (ensures_le (1 * Z.of_nat (length (range column (column + 1))))); [unfold range; rewrite length_seqZ; lia|].
  apply ensures_for_each; [done|]. intros pad n t' [? ?]%elem_of_seqZ Hg. apply ensures_edit.
  - intros _. by rewrite (goes_rows _ _ _ Hg).
  - intros x _ _ Hx Hlen. rewrite (goes_columns _ _ _ Hg) in Hlen. assert (pad = column) as -> by lia. apply pad_edits; [done|lia..].
Qed.

Lemma wrap_wide_safe column c t :
  (terminal_ok t → column + 1 = columns (normal t)) → (terminal_ok t → at_cursor c t) →
  ensures (2 ^ 32 + 4) (wrap_wide column c) (λ c t', c = cursor (grid t')) t.
Proof using Type.
  intros Hcol Hc. unfold wrap_wide. apply ensures_get. intros Ht. specialize (Hcol Ht). specialize (Hc Ht).
  destruct (cursor_on_screen t Ht) as [Hx Hy]. pose proof (ok_dimensions t Ht). rewrite grid_columns by done.
  assert (cursor_row c = cursor_row (cursor (grid t))) as Er by (unfold cursor_row; by rewrite Hc).
  replace (2 ^ 32 + 4) with (0 + (1 + (1 + (1 + 2 ^ 32)) + 1)) by done. eapply ensures_bind; [done|apply overwrite_images_safe|].
  intros [] t1 _ Hg1 _. eapply ensures_le; [|eapply (ensures_bind 1 (1 + (1 + 2 ^ 32))); [done| |]]; [done| |].
  - rewrite <-Hcol. apply pad_safe. intros _. rewrite (goes_rows _ _ _ Hg1), (goes_columns _ _ _ Hg1), Er. lia.
  - intros [] t2 _ Hg2 _. apply (wrap_line_safe _ c); [done|]. intros _. by rewrite (goes_rows _ _ _ Hg2), (goes_rows _ _ _ Hg1), Er.
Qed.

Lemma put_character_safe character column w c t :
  is_scalar character = true → character ≠ 0 → default 0 (char_width character) ≤ 2 → 0 ≤ column → 1 ≤ w ≤ 2 →
  (terminal_ok t → column + w ≤ columns (normal t)) → (terminal_ok t → at_cursor c t) →
  ensures 3 (put_character character column w c) (λ _ _, True) t.
Proof using Type.
  intros Hs Hnz Hcw H0 Hw Hcol Hc. unfold put_character. apply ensures_get. intros Ht. specialize (Hcol Ht). specialize (Hc Ht).
  destruct (cursor_on_screen t Ht) as [Hx Hy]. pose proof (ok_dimensions t Ht). rewrite grid_columns by done.
  assert (cursor_row c = cursor_row (cursor (grid t))) as Er by (unfold cursor_row; by rewrite Hc). rewrite Er.
  change 3 with (0 + (1 + (1 + 1))). eapply ensures_bind; [done|apply overwrite_images_safe|]. intros [] t1 _ Hg1 _.
  assert (∀ n t', goes n t1 t' → screen_rows (normal t') = screen_rows (normal t) ∧ columns (normal t') = columns (normal t)) as Hdim.
  { intros n t' Hg. by rewrite (goes_rows _ _ _ Hg), (goes_rows _ _ _ Hg1), (goes_columns _ _ _ Hg), (goes_columns _ _ _ Hg1). }
  eapply (ensures_bind 1 _ _ _ (λ _ _, True)); [done| |].
  { destruct (insert_mode (modes t)); [|by apply ensures_ret]. apply current_background_safe. intros bg _.
    apply ensures_edit; [intros _; by rewrite (goes_rows _ _ _ Hg1)|]. intros x _ _ Hgx Hlen. rewrite (goes_columns _ _ _ Hg1) in Hlen.
    apply insert_cells_edits; [done|lia]. }
  intros [] t2 _ Hg2 _. destruct (Hdim _ _ Hg2) as [Hr2 Hc2]. eapply (ensures_bind 1 _ _ _ (λ _ _, True)); [done| |].
  { apply ensures_edit; [intros _; by rewrite Hr2|]. intros x _ _ Hgx Hlen. apply write_character_edits; [done|done|done|done|lia..]. }
  intros [] t3 _ Hg3 _. destruct (Hdim _ _ (goes_trans _ _ _ _ _ Hg2 Hg3)) as [Hr3 Hc3].
  apply ensures_set_cursor_any. intros Ht3. apply position_fits; [done|..]; unfold cursor_column, cursor_row in *;
    destruct (Z.leb_spec (columns (normal t)) (column + w)); simpl; lia.
Qed.

Lemma combine_safe character t :
  default 0 (char_width character) ≤ 2 → ensures 1 (combine character) (λ _ _, True) t.
Proof using Type.
  intros Hcw. unfold combine. apply ensures_get. intros Ht. destruct (cursor_on_screen t Ht) as [Hx Hy].
  destruct (negb _ && _) eqn:Hstart; [by apply ensures_ret|].
  set (base := if deferred_wrap (cursor (grid t)) then _ else _).
  assert (0 ≤ base < columns (normal t)) as Hb.
  { unfold base. destruct (deferred_wrap _); [done|]. cbn [negb andb] in Hstart. apply Z.leb_gt in Hstart. lia. }
  destruct (screen_row t _ Ht Hy) as (x & Hrow & Hgx & Hlen). eapply ensures_expect; [exact Hrow|].
  pose proof (leader_of_le (cells x) (Z.to_nat base)) as Hle.
  destruct (lookup_lt_is_Some_2 (cells x) (leader_of (cells x) (Z.to_nat base))) as [cell Hcell]; [fold (row_len x); lia|].
  eapply ensures_expect; [exact Hcell|]. set (sequence := match content_of cell with Scalar _ => _ | _ => _ end).
  destruct sequence as [sequence'|] eqn:Hseq; [|by apply ensures_ret]. subst sequence.
  assert (spacer_of cell = None) as Hn.
  { revert Hseq. unfold content_of, spacer_of. destruct (content cell) as [[]| |]; done. }
  assert (sequence_width sequence' ≤ 2) as Hsw.
  { revert Hseq. assert (cell_good cell) as (k & Hk & Hk2) by (by eapply Forall_lookup_1; [apply Hgx|]).
    unfold content_of. rewrite Hk. destruct k; intros [= <-].
    - unfold sequence_width. simpl in *. lia.
    - by apply composed_chars_narrow; apply (to_table _ Ht). }
  destruct (64 <=? _); [by apply ensures_ret|]. destruct (intern _ (composed t)) as [key table] eqn:Hkey.
  change 1 with (0 + 1). eapply (ensures_bind 0 1 _ _ (λ _ t', grid t' = grid t)); [done| |].
  { apply ensures_put; try done. pose proof (intern_ok (sequence' ++ [character]) _ (proj1 (to_table _ Ht))) as Hok.
    pose proof (intern_narrow (sequence' ++ [character]) _ (proj2 (to_table _ Ht)) (sequence_width_snoc _ _ Hsw Hcw)) as Hok2.
    rewrite Hkey in Hok, Hok2. clear Ht Hx Hy. keeps_ok. }
  intros [] t1 _ Hg1 Heq. destruct key as [key|]; [|by apply ensures_ret]. apply ensures_edit.
  - intros _. by rewrite (goes_rows _ _ _ Hg1).
  - intros y _ Hrow' Hgy _. rewrite Heq, Hrow in Hrow'. injection Hrow' as <-. eapply compose_edits; [done|exact Hcell|done|].
    by eapply intern_key; [apply (to_table _ Ht)|].
Qed.

Lemma print_safe character t :
  is_scalar character = true → character ≠ 0 → 0 ≤ default 0 (char_width character) ≤ 2 →
  ensures (2 ^ 34) (print character) (λ _ _, True) t.
Proof using Type.
  intros Hs Hnz Hw. unfold print. set (w := default 0 _) in *.
  destruct (Z.eqb_spec w 0); [eapply ensures_le; [|apply combine_safe; lia]; done|]. apply ensures_get. intros Ht.
  pose proof (ok_dimensions t Ht). rewrite grid_columns by done. destruct (Z.ltb_spec (columns (normal t)) w); [by apply ensures_ret|].
  eapply (ensures_le ((2 ^ 32 + 2) + ((2 ^ 32 + 4) + 3))); [done|]. eapply ensures_bind; [done|apply resolve_deferred_wrap_safe|].
  intros c t1 _ Hg1 Hc1. apply ensures_get. intros Ht1. destruct (cursor_on_screen t1 Ht1) as [Hx Hy].
  assert (cursor_column c = cursor_column (cursor (grid t1))) as Ec by (unfold cursor_column; by rewrite Hc1).
  pose proof (goes_columns _ _ _ Hg1) as Hcol. destruct (Z.ltb_spec (columns (normal t)) (cursor_column c + w)).
  - destruct (auto_margin _).
    + eapply ensures_bind; [done|apply wrap_wide_safe; [intros _; lia|done]|]. intros c2 t2 _ Hg2 ->.
      apply put_character_safe; [done|done|lia|done|lia| |done]. intros _. rewrite (goes_columns _ _ _ Hg2). lia.
    + eapply ensures_le; [|apply put_character_safe]; try done; lia.
  - eapply ensures_le; [|apply put_character_safe]; try done; lia.
Qed.

(** ** What printing shows *)

(** The cursor after a character of [w] columns. *)
Definition past_character (w : Z) (t : Terminal) : Cursor :=
  let c := cursor (grid t) in
  if columns (grid t) <=? cursor_column c + w
  then set_deferred_wrap (auto_margin (modes t)) (at_position (columns (grid t) - 1) (cursor_row c) c)
  else at_position (cursor_column c + w) (cursor_row c) c.

(** The modes and the attributes. *)
Definition settings (t : Terminal) : TerminalModes * Attributes := (modes t, t_attributes t).

Lemma settings_on_grid {A} v (m : M Grid unfinished A) : keeps (λ t, settings t = v) (on_grid m).
Proof using Type.
  intros t r t' <-. unfold on_grid. destruct (m (grid t)). intros [= _ <-]. unfold settings, set_grid. by destruct (active t).
Qed.

Lemma settings_images v a b c d : keeps (λ t, settings t = v) (overwrite_image_cells a b c d).
Proof using Type.
  apply keeps_get. intros t Ht. destruct (negb _); [apply keeps_pure|]. apply keeps_bind; [apply keeps_pure|]. intros ids.
  destruct (remove_text_overlaps _ _ _ _ _ _ _) as [changed p]. apply keeps_bind; [by apply keeps_put|]. intros [].
  destruct changed; [|apply keeps_pure]. apply keeps_get. intros t1 Ht1. apply keeps_bind; [apply keeps_expect|]. intros x. by apply keeps_put.
Qed.

Lemma settings_put_character v character column w c : keeps (λ t, settings t = v) (put_character character column w c).
Proof using Type.
  apply keeps_get. intros t Ht. cbv zeta. apply keeps_bind; [apply settings_images|]. intros []. apply keeps_bind.
  { destruct (insert_mode _); [|apply keeps_pure]. apply keeps_bind; [|intros bg; apply settings_on_grid].
    apply keeps_get. intros t1 _. apply keeps_expect. }
  intros []. apply keeps_bind; [apply settings_on_grid|]. intros []. apply settings_on_grid.
Qed.

(** The character is in the row of the cursor and nothing else changed. *)
Definition shows (character w : Z) (t t' : Terminal) : Prop :=
  let c := cursor (grid t) in
  cursor (grid t') = past_character w t ∧
  (∀ r, 0 ≤ r < screen_rows (normal t) → r ≠ cursor_row c → row r (grid t') = row r (grid t)) ∧
  ∃ x cs, row (cursor_row c) (grid t) = Some x ∧
    wiped (λ j, cursor_column c ≤ Z.of_nat j ≤ cursor_column c + w) (cells x) cs ∧
    row (cursor_row c) (grid t') = Some {|
      cells := take (Z.to_nat (cursor_column c)) cs ++ glyph character w (t_attributes t)
               ++ drop (Z.to_nat (cursor_column c + w)) cs;
      dirty := true; linebreak := true |}.

Lemma put_character_shows character w t :
  is_scalar character = true → character ≠ 0 → default 0 (char_width character) ≤ 2 → 1 ≤ w ≤ 2 →
  insert_mode (modes t) = false → (terminal_ok t → cursor_column (cursor (grid t)) + w ≤ columns (normal t)) →
  ensures 3 (put_character character (cursor_column (cursor (grid t))) w (cursor (grid t))) (λ _ t', shows character w t t') t.
Proof using Type.
  intros Hs Hnz Hcw Hw Hi Hcol. unfold put_character. apply ensures_get. intros Ht. specialize (Hcol Ht). rewrite Hi.
  destruct (cursor_on_screen t Ht) as [Hx Hy]. pose proof (ok_dimensions t Ht).
  change 3 with (0 + (1 + (1 + 1))). eapply ensures_bind; [done|apply overwrite_images_safe|]. intros [] t1 _ Hg1 E1.
  eapply (ensures_bind 1 _ _ _ (λ _ t', t' = t1)); [done|by apply ensures_ret|]. intros [] t2 _ _ ->.
  eapply (ensures_bind 1 1); [done|apply ensures_edit_exact|].
  { intros _. by rewrite (goes_rows _ _ _ Hg1). }
  { intros x _ _ Hgx Hlen. rewrite (goes_columns _ _ _ Hg1) in Hlen. apply write_character_edits; [done|done|done|done|lia..]. }
  intros [] t3 Ht1 Hg3 (x & y & Hrow & Hwrite & Hed & _). pose proof (goes_trans _ _ _ _ _ Hg1 Hg3) as Hg.
  eapply ensures_mono; [|apply ensures_set_cursor].
  - intros [] t4 _ [n ->]. unfold shows. cbv zeta. rewrite grid_set_grid. split; [done|]. split.
    + intros r Hr Hne. rewrite <-(goes_rows _ _ _ Hg1), <-(grid_rows t1 Ht1) in Hr. rewrite <-E1.
      exact (f_equal fst (ed_other _ _ _ _ Hed r Hr Hne)).
    + destruct (screen_row t1 (cursor_row (cursor (grid t))) Ht1) as (x' & Hx' & Hgx & Hlen); [by rewrite (goes_rows _ _ _ Hg1)|].
      rewrite Hrow in Hx'. injection Hx' as <-. rewrite (goes_columns _ _ _ Hg1) in Hlen.
      destruct (write_character_runs character (cursor_column (cursor (grid t))) w (t_attributes t) x) as (cs & Hwi & _ & _ & Hrun);
        [apply Hgx..|done|done|lia|unfold i32_max; lia|lia|].
      rewrite Hrun in Hwrite. injection Hwrite as <-. exists x, cs. split_and!; [by rewrite E1 in Hrow|done|]. exact (ed_row _ _ _ _ Hed).
  - intros Ht3. rewrite grid_columns by done. pose proof (goes_rows _ _ _ Hg) as Hr3. pose proof (goes_columns _ _ _ Hg) as Hc3.
    apply position_fits; [done|..]; unfold cursor_column, cursor_row in *; case_match; simpl; lia.
Qed.

Lemma print_shows character t :
  let w := default 0 (char_width character) in
  is_scalar character = true → character ≠ 0 → 1 ≤ w ≤ 2 → insert_mode (modes t) = false →
  deferred_wrap (cursor (grid t)) = false → (terminal_ok t → cursor_column (cursor (grid t)) + w ≤ columns (normal t)) →
  ensures 3 (print character) (λ _ t', shows character w t t' ∧ settings t' = settings t) t.
Proof using Type.
  intros w Hs Hnz Hw Hi Hd Hcol. unfold print. fold w. rewrite (proj2 (Z.eqb_neq _ _)) by lia. apply ensures_get. intros Ht. specialize (Hcol Ht).
  destruct (cursor_on_screen t Ht) as [Hx _]. rewrite grid_columns, (proj2 (Z.ltb_ge _ _)) by (done || lia).
  change 3 with (0 + 3). eapply (ensures_bind 0 3 _ _ (λ c t', c = cursor (grid t) ∧ t' = t)); [done| |].
  { unfold resolve_deferred_wrap. apply ensures_get. intros _. rewrite Hd. by apply ensures_ret. }
  intros c t1 _ _ [-> ->]. apply ensures_get. intros _. rewrite (proj2 (Z.ltb_ge _ _)) by lia.
  apply ensures_keeps; [apply settings_put_character|done|]. by apply put_character_shows; try done; lia.
Qed.
End terminal.
