(* ===== verification/TerminalDispatch.v ===== *)
(** * Every action is handled

    [dispatch] of an action of text or control returns and keeps the
    invariant of the terminal, whatever the sequence; what a parser emits is
    such an action. *)

From stdpp Require Import base list gmap strings.
From S2P Require Import Prelude RustStd Cell CellProps Row RowInv RowProps Coord Grid GridInv GridSteps GridOps Reflow GridProps Composed Vt VtInv Update Terminal RowEdits TerminalInv TerminalSteps TerminalControl TerminalPrint.

#[local] Open Scope Z_scope.

Section terminal.
Context {W : UnicodeWidth} {I : ImagePlane}.

(** ** The lines from the cursor on *)

Definition region_is (reg : ScrollRegion) (t : Terminal) : Prop := scroll_region t = reg.

Lemma region_on_grid {A} reg (m : M Grid unfinished A) : keeps (region_is reg) (on_grid m).
Proof using Type.
  intros t r t' Ht. unfold on_grid. destruct (m (grid t)). intros [= _ <-]. unfold region_is, set_grid in *. by destruct (active t).
Qed.

Lemma region_scroll_grid reg dir r n bg : keeps (region_is reg) (scroll_grid dir r n bg).
Proof using Type.
  apply keeps_get. intros t Ht. apply keeps_bind; [apply keeps_pure|]. intros before.
  apply keeps_bind; [apply region_on_grid|]. intros res. destruct before; [|apply keeps_pure]. destruct (_ && _ && _ && _); [|apply keeps_pure].
  apply keeps_get. intros t1 Ht1. apply keeps_bind; [apply keeps_pure|]. intros history. cbv zeta.
  destruct (remap_anchors _ _ _) as [changed p]. apply keeps_bind; [by apply keeps_put|]. intros [].
  destruct changed; [|apply keeps_pure]. apply keeps_get. intros t2 Ht2.
  apply keeps_bind; [apply keeps_expect|]. intros c. by apply keeps_put.
Qed.

(** When lines were shifted, the cursor was above the end of the region. *)
Definition shifted (t t' : Terminal) : Prop :=
  offset (grid t') = offset (grid t) ∨ cursor_row (cursor (grid t)) ≤ region_end (scroll_region t').

Lemma shift_lines_shifts dir p t : ensures (1 + 2 ^ 32) (shift_lines dir p) (λ _ t', shifted t t') t.
Proof using Type.
  unfold shift_lines. eapply ensures_bind; [done|apply clear_deferred_wrap_safe|]. intros [] t1 Ht Hg1 [n Heq].
  assert (offset (grid t1) = offset (grid t)) as Ho by (rewrite Heq, grid_set_grid; done).
  assert (cursor_row (cursor (grid t1)) = cursor_row (cursor (grid t))) as Hr by (rewrite Heq, grid_set_grid; done).
  apply ensures_get. intros Ht1. pose proof (to_region _ Ht1). pose proof (to_region_end _ Ht1). pose proof (value_nonneg p). unfold param_usize.
  destruct (_ && _) eqn:Hin; [|apply ensures_ret; [done|by left]]. apply andb_true_iff in Hin as [?%Z.leb_le ?%Z.ltb_lt].
  eapply ensures_lift.
  { unfold ScrollRegion_new. by rewrite (proj2 (Z.leb_le _ _)) by lia. }
  cbn [region_start region_end]. apply current_background_safe. intros bg _.
  eapply ensures_mono; [|apply (ensures_keeps _ _ (region_is (scroll_region t1))); [apply region_scroll_grid|done|apply scroll_grid_safe]].
  - intros [] t2 _ [_ Hreg]. right. unfold region_is in Hreg. rewrite Hreg. lia.
  - intros _. cbn [region_start region_end]. lia.
Qed.

(** ** Control functions *)

Lemma execute_safe byte t : ensures (2 ^ 32) (execute byte) (λ _ _, True) t.
Proof using Type.
  unfold execute. repeat case_match; try by apply ensures_ret.
  - by apply event_safe.
  - eapply ensures_le; [|apply backspace_safe]. done.
  - eapply ensures_le; [|apply tab_safe]. done.
  - apply line_feed_safe.
  - eapply ensures_le; [|eapply ensures_mono; [|apply clear_deferred_wrap_safe]]; done.
Qed.

Lemma carriage_return_safe t : ensures 1 carriage_return (λ _ _, True) t.
Proof using Type. eapply ensures_mono; [|apply clear_deferred_wrap_safe]. done. Qed.

Lemma esc_safe intermediates final_byte t : ensures (2 ^ 33) (esc intermediates final_byte) (λ _ _, True) t.
Proof using Type.
  unfold esc. repeat case_match; try by apply ensures_ret.
  - eapply ensures_le; [|apply save_cursor_safe]. done.
  - eapply ensures_le; [|apply restore_cursor_safe]. done.
  - eapply ensures_le; [|apply line_feed_safe]. done.
  - eapply (ensures_le (1 + 2 ^ 32)); [done|]. eapply ensures_bind; [done|apply carriage_return_safe|]. intros [] t' _ _ _. apply line_feed_safe.
  - eapply ensures_le; [|apply set_tab_safe]. done.
  - eapply ensures_le; [|apply reverse_index_safe]. done.
  - apply reset_terminal_safe.
  - by apply set_mode_any.
  - by apply set_mode_any.
Qed.

(** [L] and [M] shift lines; a control function that moves the offset in any
    other way is neither. *)
Definition shift_spec (final_byte : Z) (t t' : Terminal) : Prop :=
  (final_byte =? 76) || (final_byte =? 77) = true → shifted t t'.

Lemma not_shift k (m : M Terminal unfinished unit) final_byte t :
  (final_byte =? 76) || (final_byte =? 77) = false → (∃ l, l ≤ k ∧ ensures l m (λ _ _, True) t) →
  ensures k m (λ _ t', shift_spec final_byte t t') t.
Proof using Type.
  intros Hf (l & Hl & Hm). eapply ensures_le; [exact Hl|]. eapply ensures_mono; [|exact Hm]. intros [] t' _ _. unfold shift_spec. by rewrite Hf.
Qed.

Lemma move_then_return_safe a b t : ensures 2 (do! move_cursor a b in carriage_return) (λ _ _, True) t.
Proof using Type. change 2 with (1 + 1). eapply ensures_bind; [done|apply move_cursor_safe|]. intros [] t' _ _ _. apply carriage_return_safe. Qed.

Lemma set_column_param p t : ensures 1 (set_column (saturating_sub (Param_value p 1 true) 1)) (λ _ _, True) t.
Proof using Type. apply set_column_safe. unfold saturating_sub. lia. Qed.

Lemma set_row_param p t : ensures 1 (set_row (saturating_sub (Param_value p 1 true) 1)) (λ _ _, True) t.
Proof using Type. apply set_row_safe. unfold saturating_sub. lia. Qed.

Lemma set_mode_zero f t : ensures 0 (set_mode f) (λ _ _, True) t.
Proof using Type. by apply set_mode_any. Qed.

Create HintDb safe discriminated.
#[local] Hint Resolve move_cursor_safe move_then_return_safe set_column_param set_row_param set_cursor_position_safe : safe.
#[local] Hint Resolve erase_display_safe erase_line_safe insert_characters_safe delete_characters_safe erase_characters_safe : safe.
#[local] Hint Resolve scroll_lines_safe tab_safe clear_tabs_safe set_mode_zero sgr_safe set_scroll_region_safe : safe.
#[local] Hint Resolve save_cursor_safe restore_cursor_safe device_status_safe device_attributes_safe : safe.

Lemma csi_function_safe private ps final_byte t :
  ensures (2 ^ 33) (csi_function private ps final_byte) (λ _ t', shift_spec final_byte t t') t.
Proof using Type.
  destruct ((final_byte =? 76) || (final_byte =? 77)) eqn:Hshift.
  { assert (∃ dir, csi_function private ps final_byte = shift_lines dir (Params_get ps 0)) as [dir ->].
    { apply orb_true_iff in Hshift as [->%Z.eqb_eq| ->%Z.eqb_eq]; by eexists. }
    eapply ensures_le; [|eapply ensures_mono; [|apply shift_lines_shifts]]; [done|]. intros [] t' _ Hs _. exact Hs. }
  apply not_shift; [done|]. exists (2 ^ 33). split; [done|]. apply orb_false_iff in Hshift as [H1 H2].
  unfold csi_function. cbv zeta. rewrite H1, H2. clear H1 H2.
  repeat lazymatch goal with
  | |- ensures _ (if ?b then _ else _) _ _ =>
      destruct b; [eapply ensures_le; [|solve [eauto with safe]]; done|]
  end.
  by apply ensures_ret.
Qed.

Lemma offset_kept k (m : M Terminal unfinished unit) final_byte t :
  ensures k m (λ _ t', grid t' = grid t) t → ensures k m (λ _ t', shift_spec final_byte t t') t.
Proof using Type. intros Hm. eapply ensures_mono; [|exact Hm]. intros [] t' _ Heq _. left. by rewrite Heq. Qed.

Lemma csi_safe private intermediates ps final_byte t :
  count ps ≤ PARAM_LIMIT → ensures (2 ^ 37) (csi private intermediates ps final_byte) (λ _ t', shift_spec final_byte t t') t.
Proof using Type.
  intros Hps. unfold csi. cbv zeta. destruct (negb _); [apply offset_kept; eapply ensures_le; [|apply push_event_safe]; done|].
  destruct (bool_decide (private = Some 63) && _) eqn:Hpm.
  { apply andb_true_iff in Hpm as [_ Hf]. apply not_shift.
    - apply orb_true_iff in Hf as [->%Z.eqb_eq| ->%Z.eqb_eq]; done.
    - exists (2 ^ 37). split; [done|]. by apply set_private_modes_safe. }
  destruct (_ && _ && _ && _).
  { apply offset_kept. apply ensures_modify; try done. keeps_ok. }
  destruct (bool_decide (private = Some 63) && (final_byte =? 83)) eqn:Hx.
  { apply andb_true_iff in Hx as [_ ->%Z.eqb_eq]. apply not_shift; [done|]. exists 0. split; [done|]. apply xtsmgraphics_safe. }
  destruct (_ && negb _); [apply offset_kept; by apply ensures_ret|].
  eapply ensures_le; [|apply csi_function_safe]. done.
Qed.

(** The actions [dispatch] is called with: text of at most two columns, and
    control functions with as many parameters as the parser collects. *)
Definition action_ok (a : Action) : Prop :=
  match a with
  | Print c => is_scalar c = true ∧ c ≠ 0 ∧ 0 ≤ default 0 (char_width c) ≤ 2
  | Csi _ _ _ ps _ => count ps ≤ PARAM_LIMIT
  | Execute _ | Esc _ _ _ | Osc _ _ | Dcs _ | Vt.StringTruncated _ => True
  | _ => False
  end.

(** What [record_action_changes] relies on. *)
Definition hint_spec (hint : ActionHint) (t t' : Terminal) : Prop :=
  match hint with HintCsi _ final_byte _ => shift_spec final_byte t t' | _ => True end.

Lemma dispatch_inner_safe a t :
  action_ok a → ensures (2 ^ 37) (dispatch_inner a) (λ _ t', hint_spec (from_action a) t t') t.
Proof using Type.
  destruct a; try done; cbn [action_ok dispatch_inner from_action hint_spec].
  - intros (Hs & Hnz & Hw). eapply ensures_le; [|by apply print_safe]. done.
  - intros _. eapply ensures_le; [|apply execute_safe]. done.
  - intros _. eapply ensures_le; [|apply esc_safe]. done.
  - apply csi_safe.
  - intros _. eapply ensures_le; [|apply osc_safe]. done.
  - intros _. by apply event_safe.
  - intros _. by apply event_safe.
Qed.

(** ** Recording the changes *)

(** What is shown, and what the next action starts from. *)
Record same_screen (t t' : Terminal) : Prop := {
  same_grid : grid t' = grid t;
  same_modes : modes t' = modes t;
  same_attributes : t_attributes t' = t_attributes t;
  same_region : scroll_region t' = scroll_region t;
}.

Lemma same_screen_trans t1 t2 t3 : same_screen t1 t2 → same_screen t2 t3 → same_screen t1 t3.
Proof using Type. intros [] []. split; congruence. Qed.

Lemma action_baseline_ok hint t :
  terminal_ok t → ∃ b, action_baseline hint t = Ok b ∧ before_cursor b = cursor (grid t) ∧ before_offset b = offset (grid t).
Proof using Type.
  intros Ht. pose proof (sg_ok _ (grid_good t Ht)) as Hg. destruct (view_rows_ok _ Hg) as [rs Hrs].
  destruct (scrollback_count_ok _ Hg) as [n Hn]. unfold action_baseline. rewrite Hrs, Hn.
  destruct hint; try by eexists. repeat (destruct (_ && _)); by eexists.
Qed.

Lemma record_action_changes_safe b hint t t0 :
  before_cursor b = cursor (grid t0) → before_offset b = offset (grid t0) → hint_spec hint t0 t →
  ensures 0 (record_action_changes b hint) (λ _ t', same_screen t t') t.
Proof using Type.
  intros Hbc Hbo Hh. unfold record_action_changes. apply ensures_get. intros Ht Ht' Hf [c Hc].
  pose proof (sg_ok _ (grid_good t Ht)) as Hg. destruct (view_rows_ok _ Hg) as [rs Hrs]. destruct (scrollback_count_ok _ Hg) as [n Hn].
  assert (∃ v, visible_changed b t = Ok v) as [v Hv].
  { unfold visible_changed. destruct (visible_before b); [|by eexists]. rewrite Hrs. by eexists. }
  eapply ensures_lift; [exact Hv| |done..|by eexists].
  assert (∃ s, match before_scrollback_rows b with Some _ => map_ok Some (scrollback_row_count (grid t)) | None => Ok None end = Ok s) as [s Hs].
  { destruct (before_scrollback_rows b); [|by eexists]. rewrite Hn. by eexists. }
  eapply ensures_lift; [exact Hs|]. eapply ensures_expect; [exact Hc|]. set (c1 := if _ || _ then _ else _).
  assert (∃ c2, (if offset (grid t) =? before_offset b then Ok c1 else scroll_damage hint b t c1) = Ok c2) as [c2 Hc2].
  { destruct (Z.eqb_spec (offset (grid t)) (before_offset b)) as [|Hne]; [by eexists|]. unfold scroll_damage.
    destruct hint as [| | |private f first| | |]; try by eexists. cbn [hint_spec] in Hh. unfold shift_spec in Hh.
    destruct ((f =? 76) || (f =? 77)); [|by eexists]. destruct (Hh eq_refl) as [He|Hle]; [congruence|].
    unfold ScrollRegion_new. rewrite Hbc, (proj2 (Z.leb_le _ _)) by done. by eexists. }
  eapply ensures_lift; [exact Hc2|]. apply ensures_put; try done. intros. by apply ok_current_change.
Qed.

Lemma prune_safe t : ensures 0 prune_active_image_anchors (λ _ t', same_screen t t') t.
Proof using Type.
  unfold prune_active_image_anchors. apply ensures_modify; try done; destruct (has_placements _ _); try done. apply ok_images.
Qed.

(** A commit changes what is published only. *)
Lemma commit_frame t r t' :
  commit_change t = (r, t') →
  ∃ c h n, t' = set_current_change None (set_synchronized_change c (set_update_history h (set_revision n t))).
Proof using Type.
  intros H. exists (synchronized_change t'), (update_history t'), (t_revision t'). revert H. destruct t.
  unfold commit_change, record_update, bind, get, put, ret, expect, panic. cbn.
  repeat case_match; cbn in *; simplify_eq; intros; simplify_eq; done.
Qed.

Lemma commit_safe t :
  terminal_ok t → t_revision t < u64_max →
  ∃ t', commit_change t = (Ok tt, t') ∧ terminal_ok t' ∧ current_change t' = None ∧ normal t' = normal t ∧ alternate t' = alternate t ∧
    config t' = config t ∧ t_revision t ≤ t_revision t' ≤ t_revision t + 1 ∧ same_screen t t'.
Proof using Type.
  intros Ht Hr. destruct (commit_change_runs t (to_history _ Ht) Hr) as (t' & Hrun & Hh & Hc & _ & Hspec). exists t'.
  assert (t_revision t ≤ t_revision t' ≤ t_revision t + 1) as Hrev.
  { destruct (current_change t); [|subst; lia]. destruct (synchronized_updates t); [lia|]. destruct Hspec as [_ Hspec].
    destruct (is_empty _); lia. }
  destruct (commit_frame _ _ _ Hrun) as (sc & h & n & ->). split_and!; try done; try apply Hrev.
  revert Ht. clear -Hh. intros []. split; done.
Qed.

(** What the handler of an action establishes, the whole transaction keeps. *)
Lemma dispatch_ensures a t (Q : Terminal → Prop) :
  terminal_ok t → fits (2 ^ 38) t → t_revision t < u64_max →
  (let t0 := set_current_change (Some ChangeSet_default) t in
   ensures (2 ^ 37) (dispatch_inner a) (λ _ t', hint_spec (from_action a) t0 t' ∧ Q t') t0) →
  ∃ t1 t', Q t1 ∧ same_screen t1 t' ∧ dispatch a t = (Ok tt, t') ∧ terminal_ok t' ∧ current_change t' = None ∧
    config t' = config t ∧ spends (2 ^ 37) (normal t) (normal t') ∧ spends (2 ^ 37) (alternate t) (alternate t') ∧
    t_revision t ≤ t_revision t' ≤ t_revision t + 1.
Proof using Type.
  intros Ht Hf Hr Hinner. destruct (action_baseline_ok (from_action a) t Ht) as (b & Hb & Hbc & Hbo).
  set (t0 := set_current_change (Some ChangeSet_default) t) in *.
  assert (ensures (2 ^ 37) (do! dispatch_inner a in do! prune_active_image_anchors in record_action_changes b (from_action a))
    (λ _ t', ∃ t1, Q t1 ∧ same_screen t1 t') t0) as Hsafe.
  { change (2 ^ 37) with (2 ^ 37 + 0). eapply ensures_bind; [done|exact Hinner|]. intros [] t1 _ _ [Hh HQ].
    change 0 with (0 + 0). eapply ensures_bind; [done|apply prune_safe|]. intros [] t2 _ _ Hsame.
    eapply ensures_mono; [|apply (record_action_changes_safe b _ t2 t0); [done|done|]].
    - intros [] t3 _ Hsame3. exists t1. split; [done|by eapply same_screen_trans].
    - revert Hh. unfold hint_spec, shift_spec, shifted. destruct (from_action a); try done.
      by rewrite (same_grid _ _ Hsame), (same_region _ _ Hsame). }
  destruct (Hsafe (ok_current_change _ _ Ht)) as ([] & t2 & Hrun & Hg & t1 & HQ & Hsame); [|by eexists|].
  { destruct Hf. split; (eapply spare_le; [|done]; done). }
  pose proof (go_revision _ _ _ Hg) as Hrev. change (t_revision t0) with (t_revision t) in Hrev.
  destruct (commit_safe t2 (go_ok _ _ _ Hg)) as (t3 & Hcommit & Hok3 & Hc3 & Hn3 & Ha3 & Hcfg3 & Hrev3 & Hsame3); [lia|].
  exists t1, t3. split_and!; try done; try (rewrite ?Hcfg3, ?Hn3, ?Ha3; apply Hg); try lia; [by eapply same_screen_trans|].
  unfold dispatch. unfold bind at 1, get. rewrite Hb. unfold bind at 1, lift. unfold bind at 1, put. fold t0.
  revert Hrun. unfold bind. repeat (case_match; simplify_eq; try done). all: intros; simplify_eq; done.
Qed.

Lemma dispatch_runs a t :
  terminal_ok t → fits (2 ^ 38) t → t_revision t < u64_max → action_ok a →
  ∃ t', dispatch a t = (Ok tt, t') ∧ terminal_ok t' ∧ current_change t' = None ∧ config t' = config t ∧
    spends (2 ^ 37) (normal t) (normal t') ∧ spends (2 ^ 37) (alternate t) (alternate t') ∧
    t_revision t ≤ t_revision t' ≤ t_revision t + 1.
Proof using Type.
  intros Ht Hf Hr Ha. destruct (dispatch_ensures a t (λ _, True) Ht Hf Hr) as (_ & t' & _ & _ & H); [|by exists t'].
  eapply ensures_mono; [|by apply dispatch_inner_safe]. by intros [] t1 _ Hh.
Qed.
End terminal.
