(* ===== verification/TerminalProps.v ===== *)
(** * Theorems on the terminal

    Committed updates form a contiguous window that subscribers can replay; the
    event queue is bounded; the parameters of a rendition are all consumed. *)

From stdpp Require Import base list gmap strings.
From S2P Require Import Prelude RustStd Cell CellProps Row RowInv RowProps Coord Grid GridInv GridSteps GridOps Reflow ReflowInv Composed Vt Update Terminal RowEdits TerminalInv.

#[local] Open Scope Z_scope.

Section terminal.
Context {W : UnicodeWidth} {I : ImagePlane}.

(** C26. A subscriber at a revision of the retained window gets exactly the
    updates committed since, in order and without gaps, so that they coalesce;
    the counting query agrees; and it is told to take a new snapshot exactly
    when its revision is in the future or before the window. *)
Theorem updates_since_exact base t :
  history_ok t → t_revision t ≤ u64_max →
  let oldest := t_revision t - Z.of_nat (length (update_history t)) in
  match updates_since base t with
  | inl e => (base < oldest ∨ t_revision t < base) ∧ update_count_since base t = inl e ∧
      e = {| requested := base; oldest_available := oldest; resnapshot_current := t_revision t |}
  | inr b => oldest ≤ base ≤ t_revision t ∧ batch_base b = base ∧ batch_current b = t_revision t ∧
      batch_updates b `suffix_of` update_history t ∧ numbered base (batch_updates b) ∧
      Z.of_nat (length (batch_updates b)) = t_revision t - base ∧ contiguous (batch_updates b) = true ∧
      update_count_since base t = inr (t_revision t - base)
  end.
Proof using Type.
  intros [Hn Hb Hl Hr] Hmax. cbv zeta. unfold updates_since, update_count_since, validate_update_base.
  set (n := Z.of_nat (length (update_history t))) in *.
  assert ((match update_history t with u :: _ => update_revision u - 1 | [] => t_revision t end) = t_revision t - n) as ->.
  { unfold n in *. destruct (update_history t) as [|u us]; [simpl; lia|]. destruct Hn as [Hu _]. lia. }
  destruct (Z.ltb_spec (t_revision t) base); cbn [orb]; [split_and!; [lia|done..]|].
  destruct (Z.ltb_spec base (t_revision t - n)); [split_and!; [lia|done..]|].
  cbn [batch_base batch_current batch_updates]. rewrite (numbered_filter _ _ _ Hn) by lia.
  set (k := Z.to_nat (base - (t_revision t - n))).
  assert (k ≤ length (update_history t))%nat as Hk by (unfold k, n in *; lia).
  assert (numbered base (drop k (update_history t))) as Hnum.
  { replace base with (t_revision t - n + Z.of_nat k) at 1 by (unfold k; lia). by apply numbered_drop. }
  assert (Z.of_nat (length (drop k (update_history t))) = t_revision t - base) as Hlen.
  { rewrite length_drop. unfold k, n in *. lia. }
  split_and!; [lia|lia|done|done|apply suffix_drop|done|done| |by rewrite Hlen].
  apply (numbered_contiguous base); [done|lia].
Qed.

(** C27. Committing a transaction closes it and keeps the window: while
    synchronized updates are held the change is merged into what is held and
    nothing is published; otherwise everything held and pending becomes one
    update with the next revision, appended to the window, or nothing at all
    when there is nothing to tell. *)
Theorem commit_change_publishes t :
  history_ok t → t_revision t < u64_max →
  ∃ t', commit_change t = (Ok tt, t') ∧ history_ok t' ∧ current_change t' = None ∧ grid t' = grid t ∧
    match current_change t with
    | None => t' = t
    | Some change =>
        if synchronized_updates t then
          t_revision t' = t_revision t ∧ update_history t' = update_history t ∧
          synchronized_change t' = merge change (event_limit (config t)) (synchronized_change t)
        else
          is_empty (synchronized_change t') = true ∧
          if is_empty (committed change t) then
            t_revision t' = t_revision t ∧ update_history t' = update_history t
          else
            t_revision t' = t_revision t + 1 ∧
            last (update_history t') =
              Some {| update_revision := t_revision t + 1; update_damage := damage (committed change t);
                      update_events := events (committed change t) |}
    end.
Proof using Type. apply commit_change_runs. Qed.

(** ** Events *)

(** The event queue is bounded: pushing an event never grows it beyond its
    limit, keeps the order of what is queued and tells the current transaction;
    the first event that does not fit replaces the newest one by an overflow
    notice, once, until the queue is drained. *)
Theorem push_event_bounded e t :
  0 < event_limit (config t) → Z.of_nat (length (t_events t)) ≤ event_limit (config t) →
  let fits := Z.of_nat (length (t_events t)) <? event_limit (config t) in
  let overflow := negb fits && negb (event_overflowed t) in
  ∃ t', push_event e t = (Ok tt, t') ∧ Z.of_nat (length (t_events t')) ≤ event_limit (config t) ∧
    current_change t' = noted e overflow <$> current_change t ∧
    event_overflowed t' = (event_overflowed t || overflow) ∧
    t_events t' = (if fits then t_events t ++ [e]
                   else if overflow then removelast (t_events t) ++ [EventQueueOverflow]
                   else t_events t).
Proof using Type. apply push_event_runs. Qed.

(** ** Renditions *)

(** The loop of [sgr] as the code writes it: it runs until no parameter is left. *)
Inductive sgr_runs (ps : Params) : Z → Attributes → Attributes → Prop :=
| sgr_stop index a : count ps ≤ index → sgr_runs ps index a a
| sgr_round index a a1 consumed a' :
    index < count ps → sgr_step ps index a = (a1, consumed) →
    sgr_runs ps (index + consumed) a1 a' → sgr_runs ps index a a'.

Lemma extended_color_consumed ps index c n : extended_color ps index = Some (c, n) → 0 ≤ n.
Proof using Type.
  unfold extended_color. case_match.
  - destruct (subparam _ 0) as [kind|]; simpl; [|done]. destruct (kind =? 5).
    + destruct (subparam _ 1); simpl; [|done]. intros [= _ <-]. done.
    + destruct (kind =? 2); [|done]. destruct (subparam _ 2), (subparam _ 3), (subparam _ 4); simpl; try done.
      intros [= _ <-]. done.
  - repeat case_match; intros H'; simplify_eq; lia.
Qed.

Lemma sgr_step_consumed ps index a : 1 ≤ (sgr_step ps index a).2.
Proof using Type.
  unfold sgr_step. cbv zeta.
  repeat match goal with |- context [if ?b then (_, 1) else _] => destruct b; [cbn [snd]; done|] end.
  destruct ((_ =? 38) || _ || _); [|done].
  destruct (extended_color ps index) as [[c n]|] eqn:He; [|done].
  apply extended_color_consumed in He. cbn [snd]. lia.
Qed.

Lemma sgr_loop_runs fuel ps index a :
  count ps - index ≤ Z.of_nat fuel → sgr_runs ps index a (sgr_loop fuel ps index a).
Proof using Type.
  revert index a. induction fuel as [|fuel IH]; intros index a Hf; cbn [sgr_loop].
  { constructor. lia. }
  destruct (Z.ltb_spec index (count ps)); [|by constructor].
  destruct (sgr_step ps index a) as [a1 n] eqn:Hs.
  econstructor; [done..|]. apply IH. pose proof (sgr_step_consumed ps index a). rewrite Hs in *. simpl in *. lia.
Qed.

Lemma sgr_runs_unique ps index a a1 a2 : sgr_runs ps index a a1 → sgr_runs ps index a a2 → a1 = a2.
Proof using Type.
  intros H. revert a2. induction H as [index a|index a b n b' Hi Hs _ IH]; intros a2; inversion 1; subst; try lia; [done|].
  match goal with H : sgr_step _ _ _ = (_, _) |- _ => rewrite Hs in H; injection H as <- <- end. by apply IH.
Qed.

Lemma param_nonneg p : 0 ≤ Param_value p 0 false.
Proof using Type. unfold Param_value. destruct (negb _ || _); [done|]. apply Z.land_nonneg. by right. Qed.

Lemma subparam_nonneg p i n : subparam p i = Some n → 0 ≤ n.
Proof using Type. unfold subparam. destruct (_ && _); [|done]. intros [= <-]. apply Z.land_nonneg. by right. Qed.

Lemma pack_rgb_ok r g b : 0 ≤ r ≤ 255 → 0 ≤ g ≤ 255 → 0 ≤ b ≤ 255 → color_ok (pack_rgb r g b).
Proof using Type.
  intros Hr Hg Hb. unfold color_ok. cbn [pack_rgb indexed color_value].
  assert (0 ≤ Z.lor (Z.lor (Z.shiftl r 16) (Z.shiftl g 8)) b < 2 ^ 24); [|unfold COLOR_MASK; lia].
  rewrite !Z.shiftl_mul_pow2 by done. apply lor_range; [done|apply lor_range; lia|lia].
Qed.

Lemma extended_color_ok ps index c n : extended_color ps index = Some (c, n) → color_ok c.
Proof using Type.
  pose proof param_nonneg as Hp. pose proof subparam_nonneg as Hs. unfold extended_color.
  destruct (0 <? _).
  - destruct (subparam _ 0) as [kind|]; simpl; [|done]. destruct (kind =? 5).
    + destruct (subparam _ 1) as [k|] eqn:H1; simpl; [|done]. apply Hs in H1. intros [= <- _].
      unfold color_ok, COLOR_MASK. simpl. lia.
    + destruct (kind =? 2); [|done].
      destruct (subparam _ 2) eqn:H2, (subparam _ 3) eqn:H3, (subparam _ 4) eqn:H4; simpl; try done.
      apply Hs in H2, H3, H4. intros [= <- _]. apply pack_rgb_ok; lia.
  - destruct (_ && _); [|destruct (_ && _); [|done]]; intros [= <- _]; [|apply pack_rgb_ok];
      match goal with
      | |- color_ok _ => pose proof (Hp (Params_get ps (index + 2))); unfold color_ok, COLOR_MASK; simpl; lia
      | |- context [Params_get ps ?i] => pose proof (Hp (Params_get ps i)); lia
      end.
Qed.

Lemma set_underline_style_ok u a : attributes_ok a → attributes_ok (set_underline_style u a).
Proof using Type. by intros []; split. Qed.

Lemma set_underline_color_ok c a : attributes_ok a → color_ok c → attributes_ok (set_underline_color c a).
Proof using Type. by intros [] ?; split. Qed.

Lemma attributes_default_ok : attributes_ok Attributes_default.
Proof using Type. done. Qed.

#[local] Hint Resolve set_flag_ok set_foreground_ok set_background_ok set_underline_style_ok
  set_underline_color_ok attributes_default_ok extended_color_ok : attributes.

Lemma indexed_ok s v : 0 ≤ v ≤ COLOR_MASK → color_ok (indexed s v).
Proof using Type. done. Qed.

Lemma sgr_step_ok ps index a : attributes_ok a → attributes_ok (sgr_step ps index a).1.
Proof using Type.
  intros Ha. unfold sgr_step. cbv zeta. assert (color_ok Color_default) by done.
  repeat match goal with
  | |- context [if between ?lo ?c ?hi then (_, 1) else _] =>
      destruct (between lo c hi) eqn:?;
        [cbn [fst]; unfold between in *; match goal with H : _ && _ = true |- _ => apply andb_true_iff in H as [?%Z.leb_le ?%Z.leb_le] end;
         (apply set_foreground_ok || apply set_background_ok); [done|apply indexed_ok; unfold COLOR_MASK; lia]|]
  | |- context [if ?b then (_, 1) else _] => destruct b; [cbn [fst]; eauto 3 with attributes|]
  end.
  destruct ((_ =? 38) || _ || _); [|done].
  destruct (extended_color ps index) as [[c n]|] eqn:He; [|done]. apply extended_color_ok in He.
  cbn [fst]. repeat case_match; eauto with attributes.
Qed.

Lemma sgr_runs_ok ps index a a' : sgr_runs ps index a a' → attributes_ok a → attributes_ok a'.
Proof using Type.
  induction 1 as [|index a a1 n a' _ Hs _ IH]; [done|]. intros Ha. apply IH.
  pose proof (sgr_step_ok ps index a Ha). by rewrite Hs in *.
Qed.

(** Selecting a rendition always returns: the loop over the parameters ends
    with the one result it can have, whatever the parameters are, an empty list
    resets the attributes, only the attributes change, and they stay valid for a
    checkpoint with colors that can be read back. *)
Theorem sgr_returns ps t :
  attributes_ok (t_attributes t) →
  ∃ a, sgr ps t = (Ok tt, put_attributes a t) ∧
    (if count ps =? 0 then a = Attributes_default
     else ∀ a', sgr_runs ps 0 (t_attributes t) a' ↔ a' = a) ∧
    attributes_checkpoint_is_valid a = true ∧ is_Some (foreground a) ∧ is_Some (background a).
Proof using Type.
  intros Ha. assert (∀ a, attributes_ok a →
    attributes_checkpoint_is_valid a = true ∧ is_Some (foreground a) ∧ is_Some (background a)) as Hend.
  { intros a Hok. split_and!; [by apply checkpoint_attributes_ok; apply Hok|..]; apply fmap_is_Some, from_bits_total. }
  unfold sgr. destruct (Z.eqb_spec (count ps) 0) as [|Hne].
  { eexists. split; [done|]. split; [done|]. apply Hend, attributes_default_ok. }
  eexists. split; [done|]. pose proof (sgr_loop_runs (Z.to_nat (count ps)) ps 0 (t_attributes t) ltac:(lia)) as Hr.
  split; [|by apply Hend, (sgr_runs_ok _ _ _ _ Hr)]. intros a'. split; [|by intros ->].
  intros Hr'. by apply (sgr_runs_unique _ _ _ _ _ Hr').
Qed.
End terminal.

(** ** Witnesses *)

#[local] Existing Instance example_width.

(** A plane without images. *)
#[local] Instance no_images : ImagePlane := {|
  plane := unit; plane_metrics := unit; plane_metrics_eq_dec := _; new_plane := tt; metrics _ := tt;
  has_placements _ _ := false; retain_anchors _ _ p := p; remap_anchors _ _ p := (false, p);
  remove_text_overlaps _ _ _ _ _ _ p := (false, p); remove_explicit_placements _ _ _ p := p;
  resolve_text_overlaps _ _ p := (false, p); remove_text_placements_outside_columns _ _ p := (false, p);
  clear_screen _ p := p |}.

Definition ex_config : TerminalConfig := {|
  scrollback_lines := 4; tab_width := 8; osc_limit := 64; dcs_limit := 64; composed_limit := 4;
  event_limit := 2; update_history_limit := 2; maximum_dimension := 100; sixel_enabled := true;
  sixel_private_palette := true |}.

(** A terminal of four columns and two rows after some actions. *)
Definition after (actions : list Action) : outcome unfinished Terminal :=
  let? t := Terminal_new 4 2 ex_config in
  match for_each actions dispatch t with
  | (Ok _, t) => Ok t
  | (Err e, _) => Err e
  | (Panic, _) => Panic
  end.

Definition terminal_of (actions : list Action) : option Terminal :=
  match after actions with Ok t => Some t | _ => None end.

(** Three updates, of which two are retained. *)
Lemma ex_returns : is_Some (terminal_of (Print <$> [97; 98; 99])).
Proof. vm_compute. by eexists. Qed.

Definition ex_terminal : Terminal := is_Some_proj ex_returns.

Lemma ex_history : history_ok ex_terminal.
Proof. split; vm_compute; repeat split; try done. Qed.

Lemma updates_since_exact_witness :
  let oldest := t_revision ex_terminal - Z.of_nat (length (update_history ex_terminal)) in
  match updates_since 1 ex_terminal with
  | inl e => (1 < oldest ∨ t_revision ex_terminal < 1) ∧ update_count_since 1 ex_terminal = inl e ∧
      e = {| requested := 1; oldest_available := oldest; resnapshot_current := t_revision ex_terminal |}
  | inr b => oldest ≤ 1 ≤ t_revision ex_terminal ∧ batch_base b = 1 ∧ batch_current b = t_revision ex_terminal ∧
      batch_updates b `suffix_of` update_history ex_terminal ∧ numbered 1 (batch_updates b) ∧
      Z.of_nat (length (batch_updates b)) = t_revision ex_terminal - 1 ∧ contiguous (batch_updates b) = true ∧
      update_count_since 1 ex_terminal = inr (t_revision ex_terminal - 1)
  end.
Proof. apply (updates_since_exact 1 ex_terminal); [apply ex_history|vm_compute; discriminate]. Defined.

Lemma commit_change_publishes_witness :
  let t := set_current_change (Some {| damage := [Title]; events := [] |}) ex_terminal in
  ∃ t', commit_change t = (Ok tt, t') ∧ history_ok t' ∧ current_change t' = None ∧ grid t' = grid t.
Proof.
  intros t. destruct (commit_change_publishes t) as (t' & H1 & H2 & H3 & H4 & _);
    [pose proof ex_history as []; by split|vm_compute; reflexivity|].
  exists t'. exact (conj H1 (conj H2 (conj H3 H4))).
Defined.

Lemma push_event_bounded_witness :
  let t := set_events [Update.Bell; Update.Bell] ex_terminal in
  ∃ t', push_event Update.Bell t = (Ok tt, t') ∧ Z.of_nat (length (t_events t')) ≤ event_limit (config t) ∧
    event_overflowed t' =
      (event_overflowed t || negb (Z.of_nat (length (t_events t)) <? event_limit (config t)) && negb (event_overflowed t)).
Proof.
  intros t. destruct (push_event_bounded Update.Bell t) as (t' & H1 & H2 & _ & H4 & _);
    [vm_compute; reflexivity|vm_compute; discriminate|].
  exists t'. exact (conj H1 (conj H2 H4)).
Defined.

(** [38;5;200;1]: an indexed foreground, then bold. *)
Definition ex_params : Params :=
  let p n := {| value := n; present := true; subparams := replicate 16 0;
                subparam_present := replicate 16 false; subparam_count := 0 |} in
  {| values := [p 38; p 5; p 200; p 1]; count := 4 |}.

Lemma sgr_returns_witness :
  ∃ a, sgr ex_params ex_terminal = (Ok tt, put_attributes a ex_terminal) ∧
    (∀ a', sgr_runs ex_params 0 (t_attributes ex_terminal) a' ↔ a' = a) ∧
    attributes_checkpoint_is_valid a = true ∧ is_Some (foreground a) ∧ is_Some (background a).
Proof.
  assert (attributes_ok (t_attributes ex_terminal)) as Ha by (split; vm_compute; try split; done).
  exact (sgr_returns ex_params ex_terminal Ha).
Defined.

(** ** A pending wrap survives a line feed that scrolls

    [line_feed] stores the cursor whose pending wrap it cleared only when it
    does not scroll: a full line at the bottom of the region, a line feed and
    one more character scroll the screen twice and leave an empty line. *)
Example line_feed_keeps_pending_wrap :
  (λ t, ((λ r, (λ c, cell_content c) <$> from_option cells [] (row r (grid t))) <$> [-2; -1; 0; 1],
         deferred_wrap (cursor (grid t)))) <$>
    terminal_of ([Execute 10] ++ (Print <$> [97; 98; 99; 100]) ++ [Execute 10; Print 101])
  = Some ([[0; 0; 0; 0]; [97; 98; 99; 100]; [0; 0; 0; 0]; [101; 0; 0; 0]], false).
Proof. vm_compute. reflexivity. Qed.
