(* ===== verification/AlternateProps.v ===== *)
(** * The alternate screen

    Private mode 1049 saves the cursor and the attributes, works on the other
    grid, and brings everything back when it is reset. What programs do on the
    alternate screen in between leaves the normal one alone: every handler
    works on the active grid. *)

From stdpp Require Import base list gmap strings.
From S2P Require Import Prelude RustStd Cell CellProps Row RowInv RowProps Coord Grid GridInv GridSteps GridOps Reflow Composed Vt Update Terminal RowEdits TerminalInv TerminalSteps TerminalControl TerminalPrint TerminalDispatch TerminalProps.

#[local] Open Scope Z_scope.

Section terminal.
Context {W : UnicodeWidth} {I : ImagePlane}.

(** ** What may be done there *)

(** The [index]th private mode of a control function. *)
Definition mode_of (ps : Params) (index : Z) : Z := Param_value (Params_get ps index) 0 false.

(** No reset of the terminal, and no return to the normal screen. *)
Definition stays (x : Action) : bool :=
  match x with
  | Esc _ _ final_byte => negb (final_byte =? 99)
  | Csi private _ _ ps final_byte =>
      negb (bool_decide (private = Some 63) && (final_byte =? 108) &&
            existsb (λ index, (mode_of ps index =? 47) || (mode_of ps index =? 1047) || (mode_of ps index =? 1049))
              (range 0 (Z.max (count ps) 1)))
  | _ => true
  end.

(** The cursor is saved, and the attributes with it: [ESC 7], [CSI s] and
    private mode 1048. *)
Definition saves (x : Action) : bool :=
  match x with
  | Esc _ _ final_byte => final_byte =? 55
  | Csi private _ _ ps final_byte =>
      (final_byte =? 115) ||
      bool_decide (private = Some 63) && (final_byte =? 104) &&
      existsb (λ index, mode_of ps index =? 1048) (range 0 (Z.max (count ps) 1))
  | _ => false
  end.

(** ** Work on the alternate screen *)

(** The alternate screen is shown, the normal grid is [g], and the saved
    attributes are [a], if that is to be known. *)
Definition aside (g : Grid) (a : option Attributes) (t : Terminal) : Prop :=
  active t = Alternate ∧ normal t = g ∧ ∀ x, a = Some x → saved_attributes t = x.

Create HintDb aside discriminated.

(** The calls of a handler, down to the ones known. *)
Ltac aside_calls :=
  repeat first
    [ progress keeps_calls
    | match goal with
      | |- keeps _ (edit_visible_row _ _) => unfold edit_visible_row
      | |- keeps _ (put _) => apply keeps_put; try assumption; repeat (case_match; try assumption)
      | |- keeps _ (modify _) => apply keeps_modify; intros ? ?; try assumption; repeat (case_match; try assumption)
      | |- keeps _ (match ?x with _ => _ end) => destruct x
      | |- keeps _ _ => solve [eauto with aside nocore]
      end ].

Section aside.
Context (g : Grid) (a : option Attributes).

Lemma aside_on_grid {A} (m : M Grid unfinished A) : keeps (aside g a) (on_grid m).
Proof using Type.
  intros t r t' [Ha H]. unfold on_grid, grid. rewrite Ha. destruct (m (alternate t)). intros [= _ <-].
  unfold set_grid. rewrite Ha. done.
Qed.

#[local] Hint Resolve aside_on_grid : aside.

Lemma aside_background : keeps (aside g a) current_background.
Proof using Type. unfold current_background. aside_calls. Qed.
#[local] Hint Resolve aside_background : aside.

Lemma aside_change f : keeps (aside g a) (with_change f).
Proof using Type. unfold with_change. aside_calls. Qed.
#[local] Hint Resolve aside_change : aside.

Lemma aside_event e : keeps (aside g a) (push_event e).
Proof using Type. unfold push_event. aside_calls. Qed.
#[local] Hint Resolve aside_event : aside.

Lemma aside_images r1 r2 c1 c2 : keeps (aside g a) (overwrite_image_cells r1 r2 c1 c2).
Proof using Type. unfold overwrite_image_cells. aside_calls. Qed.
#[local] Hint Resolve aside_images : aside.

Lemma aside_scroll dir reg n bg : keeps (aside g a) (scroll_grid dir reg n bg).
Proof using Type. unfold scroll_grid. aside_calls. Qed.
#[local] Hint Resolve aside_scroll : aside.

Lemma aside_line_feed : keeps (aside g a) line_feed.
Proof using Type. unfold line_feed. aside_calls. Qed.
#[local] Hint Resolve aside_line_feed : aside.

Lemma aside_deferred b : keeps (aside g a) (clear_deferred_wrap b).
Proof using Type. unfold clear_deferred_wrap. aside_calls. Qed.
#[local] Hint Resolve aside_deferred : aside.

Lemma aside_put_character c column w cur : keeps (aside g a) (put_character c column w cur).
Proof using Type. unfold put_character. aside_calls. Qed.
#[local] Hint Resolve aside_put_character : aside.

Lemma aside_print c : keeps (aside g a) (print c).
Proof using Type. unfold print, combine, resolve_deferred_wrap, wrap_wide. aside_calls. Qed.

Lemma aside_execute byte : keeps (aside g a) (execute byte).
Proof using Type. unfold execute, backspace, tab, carriage_return. aside_calls. Qed.

Lemma aside_restore : keeps (aside g a) restore_cursor.
Proof using Type. unfold restore_cursor. aside_calls. Qed.
#[local] Hint Resolve aside_restore : aside.

Lemma aside_save : a = None → keeps (aside g a) save_cursor.
Proof using Type.
  intros Hnone. unfold save_cursor. apply keeps_get. intros t _. apply keeps_bind; [apply aside_on_grid|]. intros [].
  apply keeps_modify. intros t1 (Ha & Hn & _). split_and!; try done. intros x. by rewrite Hnone.
Qed.

Lemma aside_osc payload terminator : keeps (aside g a) (osc payload terminator).
Proof using Type.
  assert (∀ fields, keeps (aside g a) (osc_palette_fields fields terminator)) as Hp.
  { fix IH 1. intros [|index [|spec fields]]; cbn [osc_palette_fields]; [apply keeps_pure..|].
    apply keeps_bind; [unfold reply_bytes; aside_calls|intros _; apply IH]. }
  unfold osc, osc_default_color, osc_reset_palette, osc_reset_default_color, osc_palette, reply_bytes.
  destruct (default _ (split_once 59 payload)). aside_calls; apply Hp.
Qed.

Lemma aside_esc intermediates final_byte :
  final_byte ≠ 99 → (final_byte = 55 → a = None) → keeps (aside g a) (esc intermediates final_byte).
Proof using Type.
  intros Hreset Hsave. unfold esc, reverse_index, set_mode, carriage_return.
  destruct (negb _); [apply keeps_pure|]. destruct (Z.eqb_spec final_byte 55); [by apply aside_save, Hsave|].
  rewrite (proj2 (Z.eqb_neq final_byte 99)) by done. aside_calls.
Qed.

Lemma aside_csi_function private ps final_byte :
  (final_byte = 115 → a = None) → keeps (aside g a) (csi_function private ps final_byte).
Proof using Type.
  intros Hsave. unfold csi_function. destruct (Z.eqb_spec final_byte 115); [|clear Hsave].
  { subst final_byte. cbn. by apply aside_save, Hsave. }
  unfold move_cursor, carriage_return, set_cursor_position, set_column, set_row, erase_display, erase_line, erase_rows,
    insert_characters, delete_characters, erase_characters, insert_lines, delete_lines, shift_lines, scroll_lines, tab, clear_tabs,
    set_mode, sgr, update_attributes, set_scroll_region, device_status, device_attributes, reply_bytes.
  aside_calls.
Qed.

Lemma aside_private_mode mode enabled :
  (enabled = false → mode ≠ 47 ∧ mode ≠ 1047 ∧ mode ≠ 1049) → (enabled = true → mode = 1048 → a = None) →
  keeps (aside g a) (set_private_mode mode enabled).
Proof using Type.
  intros Hstay Hsave.
  unfold set_private_mode, set_mode. apply keeps_get. intros t _. destruct enabled; [clear Hstay|clear Hsave].
  - assert (∀ b, keeps (aside g a) (select_alternate true b)) as Hsel.
    { intros b. apply keeps_get. intros t1 [Ha _]. rewrite Ha. simpl. apply keeps_pure. }
    destruct (Z.eqb_spec mode 1048) as [->|]; [cbn; by apply aside_save, Hsave|]. aside_calls; apply Hsel.
  - destruct Hstay as (H1 & H2 & H3); [done|]. rewrite (proj2 (Z.eqb_neq mode 47)), (proj2 (Z.eqb_neq mode 1047)) by done.
    rewrite (proj2 (Z.eqb_neq mode 1049)) by done. cbn [orb]. aside_calls.
Qed.

Lemma aside_csi private intermediates n ps final_byte :
  stays (Csi private intermediates n ps final_byte) = true → (saves (Csi private intermediates n ps final_byte) = true → a = None) →
  keeps (aside g a) (csi private (take (Z.to_nat n) intermediates) ps final_byte).
Proof using Type.
  intros Hstay Hsave. unfold csi. cbv zeta. destruct (negb _); [apply aside_event|].
  destruct (bool_decide (private = Some 63) && ((final_byte =? 104) || (final_byte =? 108))) eqn:Hmode.
  - apply andb_true_iff in Hmode as [Hp Hf]. cbn [stays saves] in Hstay, Hsave. rewrite Hp in Hstay, Hsave. cbn [andb] in Hstay, Hsave.
    unfold set_private_modes. apply keeps_for_each. intros index Hindex. apply aside_private_mode.
    + intros Hoff. rewrite Hoff in Hf. cbn [orb] in Hf. rewrite Hf in Hstay. apply negb_true_iff in Hstay. cbn [andb] in Hstay.
      assert (Forall (λ index, ¬ (mode_of ps index =? 47) || (mode_of ps index =? 1047) || (mode_of ps index =? 1049)) (range 0 (Z.max (count ps) 1))) as Hall.
      { apply Forall_forall. intros x Hx Hc. apply not_true_iff_false in Hstay. apply Hstay, existsb_exists. exists x.
        split; [by apply list_elem_of_In|]. by apply Is_true_true. }
      rewrite Forall_forall in Hall. specialize (Hall index Hindex). unfold mode_of in Hall. rewrite Is_true_true in Hall. lia.
    + intros Hon H1048. rewrite Hon in Hsave. apply Hsave. apply orb_true_iff. right. cbn [andb]. apply existsb_exists. exists index.
      split; [by apply list_elem_of_In|]. unfold mode_of. by apply Z.eqb_eq.
  - clear Hmode Hstay. destruct (_ && _ && _ && _); [aside_calls|]. destruct (_ && (final_byte =? 83)).
    { unfold xtsmgraphics, report_sixel_colors, report_sixel_geometry, reply_bytes. aside_calls. }
    destruct (_ && _); [apply keeps_pure|]. apply aside_csi_function. intros ->. by apply Hsave.
Qed.

Lemma aside_dispatch x :
  stays x = true → (saves x = true → a = None) → keeps (aside g a) (dispatch x).
Proof using Type.
  intros Hstay Hsave. unfold dispatch, prune_active_image_anchors, record_action_changes, commit_change, record_update. cbv zeta.
  apply keeps_get. intros t Ht. apply keeps_bind_lift. intros b _. apply keeps_bind; [by apply keeps_put|]. intros []. apply keeps_bind.
  - destruct x; cbn [dispatch_inner]; try apply keeps_pure; try apply aside_event.
    + apply aside_print.
    + apply aside_execute.
    + cbn [stays saves] in Hstay, Hsave. apply aside_esc; [by apply Z.eqb_neq, negb_true_iff|]. intros ->. by apply Hsave.
    + by apply aside_csi.
    + apply aside_osc.
  - intros []. aside_calls.
Qed.
End aside.

(** ** Entering and leaving *)

(** The grid and the attributes that are kept for the return. *)
Definition set_aside (g : Grid) (a : Attributes) (t : Terminal) : Prop := normal t = g ∧ saved_attributes t = a.

Lemma aside_on_alternate {A} g a (m : M Grid unfinished A) : keeps (set_aside g a) (on_alternate m).
Proof using Type. intros t r t' [<- <-]. unfold on_alternate. destruct (m (alternate t)). by intros [= _ <-]. Qed.

Lemma aside_modify g a f : (∀ t, normal (f t) = normal t) → (∀ t, saved_attributes (f t) = saved_attributes t) → keeps (E := unfinished) (set_aside g a) (modify f).
Proof using Type. intros Hn Hs t r t' [<- <-] [= _ <-]. split; auto. Qed.

Lemma enter_alternate t :
  active t = Normal →
  ensures (2 ^ 32 + 2) (select_alternate true true) (λ _ t', active t' = Alternate ∧
    ∃ n, set_aside (put_saved_cursor (cursor (normal t)) (set_generation n (normal t))) (t_attributes t) t') t.
Proof using Type.
  intros Ha Ht Hf Hc. destruct (select_alternate_safe true true t Ht Hf Hc) as ([] & t' & Hrun & Hg & _).
  exists tt, t'. split; [done|]. split; [done|]. revert Hrun. unfold select_alternate. unfold bind at 1, get. rewrite Ha. cbn [andb].
  rewrite bool_decide_eq_true_2 by done. unfold bind at 1.
  destruct (save_cursor t) as [[[]|e|] t1] eqn:Hsave; try done.
  assert (∃ n, set_aside (put_saved_cursor (cursor (normal t)) (set_generation n (normal t))) (t_attributes t) t1) as [n Hn].
  { revert Hsave. unfold save_cursor, bind, get, on_grid, modify. unfold grid, set_grid. rewrite Ha.
    destruct (set_saved_cursor_exact (cursor (normal t)) (normal t)) as (n & _ & Hrun).
    { destruct Hf as [[Hs _ _] _]. lia. } { apply (sg_ok _ (to_normal _ Ht)). }
    rewrite Hrun. intros [= <-]. by exists n. }
  intros Hrun. split; [|exists n]; revert Hrun.
  - unfold bind, get, modify. repeat (case_match; simplify_eq; try done). all: intros; simplify_eq; done.
  - match goal with |- ?m t1 = _ → _ => assert (keeps (set_aside (put_saved_cursor (cursor (normal t)) (set_generation n (normal t))) (t_attributes t)) m) as Hk end.
    { apply keeps_get. intros t2 _. apply keeps_bind; [apply keeps_get; intros t3 _; apply keeps_expect|]. intros bg.
      apply keeps_bind; [apply aside_on_alternate|]. intros []. apply keeps_bind; [by apply aside_modify|]. intros [].
      apply keeps_get. intros t3 _. apply keeps_bind; [apply aside_on_alternate|]. intros []. by apply aside_modify. }
    intros Hrun. by eapply Hk.
Qed.

Lemma leave_alternate t :
  active t = Alternate →
  ensures (2 ^ 32 + 2) (select_alternate false true) (λ _ t', active t' = Normal ∧ t_attributes t' = saved_attributes t ∧
    cursor (normal t') = saved_cursor (normal t) ∧ ∀ r, row r (normal t') = row r (normal t)) t.
Proof using Type.
  intros Ha Ht Hf Hc. destruct (select_alternate_safe false true t Ht Hf Hc) as ([] & t' & Hrun & Hg & _).
  exists tt, t'. split; [done|]. split; [done|]. revert Hrun. unfold select_alternate. unfold bind at 1, get. cbn [andb negb].
  rewrite Ha, bool_decide_eq_true_2 by done. unfold bind at 1, modify at 1. unfold bind at 1, on_normal.
  cbn [normal set_active]. pose proof (ok_dimensions t Ht). destruct Hf as [[Hs _ _] _].
  destruct (set_cursor_exact (Cursor_new (clamp_position (normal t) (position (cursor (alternate t))))) (normal t)) as (n & Hn & ->);
    [lia|apply clamp_position_fits; lia|].
  unfold restore_cursor, bind, get, on_grid, modify, grid, set_grid. cbn [active set_active set_normal normal].
  set (g1 := put_cursor _ _). destruct (set_cursor_exact (saved_cursor g1) g1) as (n' & _ & ->); [simpl; lia|apply (sg_ok _ (to_normal _ Ht))|].
  intros [= <-]. done.
Qed.

(** Private mode 1049 set or reset, alone in its sequence. *)
Definition switches (enabled : bool) (x : Action) : Prop :=
  ∃ intermediates n ps, x = Csi (Some 63) intermediates n ps (if enabled then 104 else 108) ∧
    take (Z.to_nat n) intermediates = [] ∧ count ps = 1 ∧ mode_of ps 0 = 1049.

Lemma switches_ok enabled x : switches enabled x → action_ok x.
Proof using Type. intros (intermediates & n & ps & -> & _ & Hc & _). simpl. rewrite Hc. by vm_compute. Qed.

Lemma switch_inner enabled x t : switches enabled x → dispatch_inner x t = select_alternate enabled true t.
Proof using Type.
  intros (intermediates & n & ps & -> & Hi & Hc & Hm). cbn [dispatch_inner]. unfold csi. rewrite Hi.
  rewrite bool_decide_eq_true_2, bool_decide_eq_true_2 by done. cbn [negb andb].
  assert (((if enabled then 104 else 108) =? 104) || ((if enabled then 104 else 108) =? 108) = true) as -> by by destruct enabled.
  assert (((if enabled then 104 else 108) =? 104) = enabled) as -> by by destruct enabled.
  unfold set_private_modes. rewrite Hc. change (range 0 (Z.max 1 1)) with [0]. cbn [for_each]. fold (mode_of ps 0). rewrite Hm.
  unfold bind. change (set_private_mode 1049 enabled t) with (select_alternate enabled true t).
  by destruct (select_alternate enabled true t) as [[[]|e|] t'].
Qed.

(** What follows the handler of an action. *)
Definition record_and_commit (b : ActionBaseline) (hint : ActionHint) : M Terminal unfinished unit :=
  do! prune_active_image_anchors in do! record_action_changes b hint in commit_change.

(** The screens and the attributes, which publishing leaves alone. *)
Definition screens (t : Terminal) := (active t, normal t, t_attributes t, saved_attributes t).

Lemma recorded_screens v b hint : keeps (λ t, screens t = v) (record_and_commit b hint).
Proof using Type.
  unfold record_and_commit, prune_active_image_anchors, record_action_changes, commit_change, record_update. aside_calls.
Qed.

(** An action handled, up to what publishing leaves alone. *)
Lemma dispatch_screens x t :
  terminal_ok t → fits (2 ^ 38) t → t_revision t < u64_max → action_ok x →
  ∃ t1 t', dispatch_inner x (set_current_change (Some ChangeSet_default) t) = (Ok tt, t1) ∧ screens t' = screens t1 ∧
    dispatch x t = (Ok tt, t') ∧ terminal_ok t' ∧
    spends (2 ^ 37) (normal t) (normal t') ∧ spends (2 ^ 37) (alternate t) (alternate t') ∧ t_revision t' ≤ t_revision t + 1.
Proof using Type.
  intros Ht Hf Hr Hx. destruct (dispatch_runs x t Ht Hf Hr Hx) as (t' & Hrun & Hok & _ & _ & Hn & Ha & Hrev).
  pose proof Hrun as Hd. unfold dispatch in Hd. unfold bind at 1, get in Hd. unfold bind at 1, lift in Hd.
  destruct (action_baseline (from_action x) t) as [b|e|]; [|done..].
  unfold bind at 1, put in Hd. unfold bind at 1 in Hd.
  destruct (dispatch_inner x (set_current_change (Some ChangeSet_default) t)) as [[[]|e|] t1] eqn:Hi; [|done..].
  exists t1, t'. split_and!; try done; [|lia]. by eapply (recorded_screens (screens t1) b (from_action x)); [|exact Hd].
Qed.

(** Room for [k] more actions. *)
Record room (k : Z) (t : Terminal) : Prop := {
  rm_ok : terminal_ok t;
  rm_fits : fits (2 ^ 38 + k * 2 ^ 37) t;
  rm_revision : t_revision t + k ≤ u64_max;
}.

Lemma room_dispatch k x t :
  1 ≤ k → room k t → action_ok x →
  ∃ t1 t', dispatch_inner x (set_current_change (Some ChangeSet_default) t) = (Ok tt, t1) ∧ screens t' = screens t1 ∧
    dispatch x t = (Ok tt, t') ∧ room (k - 1) t'.
Proof using Type.
  intros Hk [Ht [Hf1 Hf2] Hr] Hx. destruct (dispatch_screens x t) as (t1 & t' & Hi & Hs & Hd & Hok & Hn & Ha & Hrev); [done| |lia|done|].
  { split; (eapply spare_le; [|done]; lia). }
  exists t1, t'. split_and!; try done. split; [done| |lia].
  split; (eapply spends_spare; [done|]; eapply spare_le; [|done]; lia).
Qed.

Lemma room_ready k t : 0 ≤ k → room k t →
  terminal_ok (set_current_change (Some ChangeSet_default) t) ∧ fits (2 ^ 33 + (2 ^ 32 + 2)) (set_current_change (Some ChangeSet_default) t).
Proof using Type.
  intros Hk [Ht [Hf1 Hf2] _]. split; [by apply ok_current_change|]. split; (eapply spare_le; [|done]; lia).
Qed.

(** The two switches, dispatched. *)
Lemma enter_dispatched k x t :
  1 ≤ k → room k t → active t = Normal → switches true x →
  ∃ t' n, dispatch x t = (Ok tt, t') ∧ room (k - 1) t' ∧
    aside (put_saved_cursor (cursor (normal t)) (set_generation n (normal t))) (Some (t_attributes t)) t'.
Proof using Type.
  intros Hk Hroom Ha Hx. destruct (room_dispatch k x t) as (t1 & t' & Hi & Hs & Hd & Hroom'); [done|done|by eapply switches_ok|].
  destruct (room_ready k t ltac:(lia) Hroom) as [Hok Hfit].
  destruct (enter_alternate (set_current_change (Some ChangeSet_default) t) Ha Hok Hfit) as ([] & t1' & Hrun & _ & Hact & n & Hn & Hsv); [by eexists|].
  rewrite (switch_inner true), Hrun in Hi by done. injection Hi as ->. unfold screens in Hs. injection Hs as E1 E2 _ E4.
  exists t', n. split; [done|]. split; [done|]. unfold aside. rewrite E1, E2, E4.
  split_and!; [done|exact Hn|]. intros a [= <-]. exact Hsv.
Qed.

Lemma leave_dispatched k x t :
  1 ≤ k → room k t → active t = Alternate → switches false x →
  ∃ t', dispatch x t = (Ok tt, t') ∧ room (k - 1) t' ∧ active t' = Normal ∧ t_attributes t' = saved_attributes t ∧
    cursor (normal t') = saved_cursor (normal t) ∧ ∀ r, row r (normal t') = row r (normal t).
Proof using Type.
  intros Hk Hroom Ha Hx. destruct (room_dispatch k x t) as (t1 & t' & Hi & Hs & Hd & Hroom'); [done|done|by eapply switches_ok|].
  destruct (room_ready k t ltac:(lia) Hroom) as [Hok Hfit].
  destruct (leave_alternate (set_current_change (Some ChangeSet_default) t) Ha Hok Hfit) as ([] & t1' & Hrun & _ & A & B & C & D); [by eexists|].
  rewrite (switch_inner false), Hrun in Hi by done. injection Hi as ->. unfold screens in Hs. injection Hs as E1 E2 E3 _.
  exists t'. rewrite E1, E2, E3. split_and!; done.
Qed.

Lemma work_aside g a work k t :
  Forall action_ok work → Forall (λ x, stays x = true ∧ (saves x = true → a = None)) work →
  Z.of_nat (length work) ≤ k → room k t → aside g a t →
  ∃ t', for_each work dispatch t = (Ok tt, t') ∧ room (k - Z.of_nat (length work)) t' ∧ aside g a t'.
Proof using Type.
  intros Hok. revert k t. induction Hok as [|x work Hx _ IH]; intros k t Hstay Hk Hroom Haside.
  { exists t. split; [done|]. split; [by rewrite Z.sub_0_r|done]. }
  apply Forall_cons in Hstay as [[Hs Hsave] Hstay]. cbn [length for_each] in *.
  destruct (room_dispatch k x t) as (_ & t1 & _ & _ & Hd & Hroom1); [lia|done|done|].
  pose proof (aside_dispatch g a x Hs Hsave _ _ _ Haside Hd) as Haside1.
  destruct (IH (k - 1) t1 Hstay) as (t' & Hrun & Hroom' & Haside'); [lia|done|done|].
  exists t'. unfold bind. rewrite Hd. split; [done|]. split; [|done].
  by replace (k - Z.of_nat (S (length work))) with (k - 1 - Z.of_nat (length work)) by lia.
Qed.

(** C15. Whatever a program does on the alternate screen, leaving it brings the
    normal screen back. Between [CSI ? 1049 h] and [CSI ? 1049 l] any sequence of
    actions of text (characters of at most two columns), control functions and
    operating system commands is handled; those that reset the terminal or return to the normal screen
    themselves are excluded. Then the normal screen is active, with all its rows
    and the cursor as they were, and with the attributes as they were if no
    action saved the cursor (the saved attributes are shared by both screens). *)
Theorem alternate_screen_returns enter work leave t :
  terminal_ok t → fits (2 ^ 38 + (Z.of_nat (length work) + 2) * 2 ^ 37) t →
  t_revision t + (Z.of_nat (length work) + 2) ≤ u64_max → active t = Normal →
  switches true enter → switches false leave →
  Forall action_ok work → Forall (λ x, stays x = true) work →
  ∃ t', for_each (enter :: work ++ [leave]) dispatch t = (Ok tt, t') ∧ terminal_ok t' ∧ active t' = Normal ∧
    cursor (normal t') = cursor (normal t) ∧ (∀ r, row r (normal t') = row r (normal t)) ∧
    (Forall (λ x, saves x = false) work → t_attributes t' = t_attributes t).
Proof using Type.
  intros Ht Hf Hr Ha Henter Hleave Hok Hstay. set (n := Z.of_nat (length work)) in *. assert (room (n + 2) t) as Hroom by by split.
  destruct (enter_dispatched (n + 2) enter t) as (t1 & m & Hd1 & Hroom1 & Ha1 & Hn1 & Hs1); [lia|done..|]. set (g := put_saved_cursor _ _) in *.
  set (a := if bool_decide (Forall (λ x, saves x = false) work) then Some (t_attributes t) else None).
  destruct (work_aside g a work (n + 2 - 1) t1) as (t2 & Hd2 & Hroom2 & Ha2 & Hn2 & Hs2); [done| |lia|done| |].
  { apply Forall_forall. intros x Hx. rewrite Forall_forall in Hstay. split; [auto|]. unfold a. case_bool_decide as Hall; [|done].
    rewrite Forall_forall in Hall. by rewrite (Hall x Hx). }
  { unfold aside. split_and!; [done|done|]. intros x. unfold a. case_bool_decide; [|done]. apply Hs1. }
  destruct (leave_dispatched (n + 2 - 1 - n) leave t2) as (t3 & Hd3 & Hroom3 & A & B & C & D); [lia|done..|].
  exists t3. rewrite Hn2 in C, D. split_and!; [|apply Hroom3|done|done|done|].
  - cbn [for_each]. unfold bind at 1. rewrite Hd1, for_each_app. unfold bind at 1. rewrite Hd2. cbn [for_each]. unfold bind. by rewrite Hd3.
  - intros Hsave. rewrite B. apply Hs2. unfold a. by rewrite bool_decide_eq_true_2.
Qed.
End terminal.

(** ** Witness *)

#[local] Existing Instance example_width.
#[local] Existing Instance no_images.

(** The actions of [CSI ? 1049 h], the letter [a], [CSI 2 J], [CSI 31 m] and
    [CSI ? 1049 l]. *)
Definition ex_alternate : list Action := Eval vm_compute in
  match Vt.advance (ESC :: lit "[?1049ha" ++ ESC :: lit "[2J" ++ ESC :: lit "[31m" ++ ESC :: lit "[?1049l") (Parser_new 64 64) with
  | Ok (_, actions) => actions
  | _ => []
  end.

Lemma alternate_screen_returns_witness :
  ∃ t t', Terminal_new 4 2 ex_config = Ok t ∧ for_each ex_alternate dispatch t = (Ok tt, t') ∧
    active t' = Normal ∧ (∀ r, row r (normal t') = row r (normal t)) ∧ t_attributes t' = t_attributes t.
Proof.
  destruct (Terminal_new_runs 4 2 ex_config 8 2) as (t & Hnew & Ht & [Hf1 Hf2] & _ & _ & _ & Hrev & _ & _ & _ & Ha & _);
    [split; simpl; lia|reflexivity|reflexivity|unfold dimensions_ok, i32_max; split_and!; done || lia..|].
  destruct (alternate_screen_returns (List.nth 0 ex_alternate (Execute 0)) (take 3 (drop 1 ex_alternate)) (List.nth 4 ex_alternate (Execute 0)) t)
    as (t' & H1 & _ & H2 & _ & H3 & H4).
  - exact Ht.
  - split; (eapply spare_le; [|eassumption]; vm_compute; discriminate).
  - rewrite Hrev. vm_compute. discriminate.
  - exact Ha.
  - eexists _, _, _. by split.
  - eexists _, _, _. by split.
  - repeat (apply Forall_cons; split); [by vm_compute..|constructor].
  - repeat (apply Forall_cons; split); [by vm_compute..|constructor].
  - exists t, t'. split; [exact Hnew|]. split; [exact H1|]. split; [exact H2|]. split; [exact H3|]. apply H4.
    repeat (apply Forall_cons; split); [by vm_compute..|constructor].
Defined.
