(* ===== verification/SessionProps.v ===== *)
(** * Any stream of text is handled

    The parser and the terminal together: every byte is consumed, no handler
    panics, and the invariants of both hold after it. *)

From stdpp Require Import base list gmap strings.
From S2P Require Import Prelude RustStd Cell Row Coord Grid GridInv GridSteps GridOps Reflow GridProps Composed Vt VtInv VtProps Update Terminal TerminalInv TerminalSteps TerminalControl TerminalDispatch TerminalProps Session.

#[local] Open Scope Z_scope.

Section session.
Context {W : UnicodeWidth} {I : ImagePlane} (image_action : Action → M Terminal unfinished unit).

(** The invariant between two bytes, with room for [k] more changes. *)
Record session_ok (k : Z) (s : Session) : Prop := {
  so_parser : parser_wf (Terminal.osc_limit (config (terminal s))) (Terminal.dcs_limit (config (terminal s))) (parser s);
  so_terminal : terminal_ok (terminal s);
  so_fits : fits (2 ^ 38 + k * 2 ^ 37) (terminal s);
  so_revision : t_revision (terminal s) + k ≤ u64_max;
}.

(** Text of characters of at most two columns, and every action but those that
    carry an image. *)
Definition plain (a : Action) : Prop :=
  match a with
  | Print c => 0 ≤ default 0 (char_width c) ≤ 2
  | KittyAbort => True
  | _ => is_image a = false
  end.

Lemma plain_ok a : emitted a → plain a → a = KittyAbort ∨ is_image a = false ∧ action_ok a.
Proof using Type. destruct a; intros He Ha; try done; auto. destruct He. right. split_and!; done || apply Ha. Qed.

Lemma session_le k l s : l ≤ k → session_ok k s → session_ok l s.
Proof using Type. intros Hl [? ? [] ?]. split; try done; [|lia]. split; (eapply spare_le; [|done]; lia). Qed.

Lemma handle_dispatched a s :
  is_image a = false →
  handle image_action a s =
    let '(r, t) := dispatch a (terminal s) in (r, {| parser := parser_after (config t) a (parser s); terminal := t |}).
Proof using Type. intros Ha. unfold handle. by destruct a. Qed.

(** The stream makes the parser emit such actions only. *)
Fixpoint plain_stream (c : TerminalConfig) (bytes : list Z) (p : Parser) : Prop :=
  match bytes with
  | [] => True
  | byte :: bytes =>
      match feed_byte byte p with
      | Ok (p', actions) => Forall plain actions ∧ plain_stream c bytes (foldl (λ p a, parser_after c a p) p' actions)
      | _ => False
      end
  end.

(** The parser after a stream. *)
Fixpoint parsed (c : TerminalConfig) (bytes : list Z) (p : Parser) : Parser :=
  match bytes with
  | [] => p
  | byte :: bytes =>
      match feed_byte byte p with
      | Ok (p', actions) => parsed c bytes (foldl (λ p a, parser_after c a p) p' actions)
      | _ => p
      end
  end.

Lemma handle_runs k a s :
  1 ≤ k → session_ok k s → emitted a → plain a →
  runs (handle image_action a) (λ _ s', session_ok (k - 1) s' ∧ config (terminal s') = config (terminal s) ∧
    parser s' = parser_after (config (terminal s)) a (parser s)) s.
Proof using Type.
  intros Hk Hs He Ha. destruct (plain_ok a He Ha) as [->|[Hi Hok]].
  { exists tt, s. destruct s as [p t]. split_and!; try done. eapply session_le; [|done]. lia. }
  destruct Hs as [Hp Ht Hf Hr]. destruct (dispatch_runs a (terminal s)) as (t' & Hrun & Ht' & _ & Hcfg & Hn & Hal & Hrev).
  - done.
  - destruct Hf. split; (eapply spare_le; [|done]; lia).
  - lia.
  - done.
  - exists tt, {| parser := parser_after (config t') a (parser s); terminal := t' |}.
    rewrite handle_dispatched, Hrun by done. split; [done|]. cbn [parser terminal]. rewrite Hcfg. split_and!; try done. split; cbn [parser terminal]; rewrite ?Hcfg.
    + unfold parser_after. destruct (resets a); [|done]. apply wf_new; apply (vw_limits _ _ _ Hp).
    + done.
    + destruct Hf. split; (eapply spends_spare; [done|]; eapply spare_le; [|done]; lia).
    + lia.
Qed.

Lemma session_parser k p s :
  parser_wf (Terminal.osc_limit (config (terminal s))) (Terminal.dcs_limit (config (terminal s))) p → session_ok k s →
  session_ok k {| parser := p; terminal := terminal s |}.
Proof using Type. intros Hp []. by split. Qed.

Lemma handle_opt_runs k a s :
  1 ≤ k → session_ok k s → (∀ x, a = Some x → emitted x ∧ plain x) →
  runs (match a with Some a => handle image_action a | None => ret tt end) (λ _ s', session_ok (k - 1) s' ∧
    config (terminal s') = config (terminal s) ∧
    parser s' = foldl (λ p a, parser_after (config (terminal s)) a p) (parser s) (option_list a)) s.
Proof using Type.
  intros Hk Hs Ha. destruct a as [a|].
  - destruct (Ha a eq_refl). by apply handle_runs.
  - apply runs_ret. split_and!; try done. eapply session_le; [|done]. lia.
Qed.

(** One round on a byte. *)
Lemma round_runs {B} k byte s p a again (m : M Session unfinished B) R :
  1 ≤ k → session_ok k s → feed byte (parser s) = Ok (p, a, again) → Forall plain (option_list a) →
  (∀ s', session_ok (k - 1) s' → config (terminal s') = config (terminal s) →
    parser s' = foldl (λ p a, parser_after (config (terminal s)) a p) p (option_list a) → runs m R s') →
  runs (do! put {| parser := p; terminal := terminal s |} in
        do! match a with Some a => handle image_action a | None => ret tt end in m) R s.
Proof using Type.
  intros Hk Hs Hfeed Hplain Hm. pose proof (feed_returns _ _ _ (so_parser _ _ Hs) byte) as Hret.
  pose proof (feed_emits _ _ byte _ (so_parser _ _ Hs)) as Hem. rewrite Hfeed in Hret, Hem. destruct Hret as [Hwf _].
  apply runs_bind, runs_put, runs_bind.
  eapply runs_mono; [|apply (handle_opt_runs k a {| parser := p; terminal := terminal s |}); [done|by apply session_parser|]].
  - intros [] s' (Hs' & Hcfg & Hpar). by apply Hm.
  - intros x ->. split; [apply Hem|]. by apply Forall_cons in Hplain as [? _].
Qed.

Lemma process_runs k byte s p' actions :
  2 ≤ k → session_ok k s → feed_byte byte (parser s) = Ok (p', actions) → Forall plain actions →
  runs (process image_action 2 byte) (λ _ s', session_ok (k - 2) s' ∧ config (terminal s') = config (terminal s) ∧
    parser s' = foldl (λ p a, parser_after (config (terminal s)) a p) p' actions) s.
Proof using Type.
  intros Hk Hs Hfeed Hplain. cbn [process]. apply runs_bind, runs_get.
  destruct (feed_byte_cases _ _ _ _ Hfeed) as [(a & H1 & ->)|(p1 & a1 & a2 & H1 & H2 & ->)]; rewrite H1.
  - eapply round_runs; [|exact Hs|exact H1|done|]; [lia|]. intros s' Hs' Hcfg Hpar. apply runs_ret.
    split_and!; try done. eapply session_le; [|done]. lia.
  - apply Forall_app in Hplain as [Hp1 Hp2]. eapply round_runs; [|exact Hs|exact H1|done|]; [lia|]. intros s1 Hs1 Hcfg1 Hpar1.
    assert (∀ q, foldl (λ p a, parser_after (config (terminal s)) a p) q (option_list a1) = q) as Hkeep.
    { intros q. pose proof (feed_emits _ _ byte _ (so_parser _ _ Hs)) as Hem. rewrite H1 in Hem. destruct a1 as [a1|]; [|done].
      destruct Hem as [_ Hesc]. specialize (Hesc eq_refl). by destruct a1. }
    rewrite Hkeep in Hpar1. apply runs_bind, runs_get. rewrite <-Hpar1 in H2. rewrite H2.
    eapply round_runs; [|exact Hs1|exact H2|done|]; [lia|]. intros s2 Hs2 Hcfg2 Hpar2. apply runs_ret. split_and!.
    + by replace (k - 2) with (k - 1 - 1) by lia.
    + by rewrite Hcfg2.
    + by rewrite Hpar2, foldl_app, Hkeep, Hcfg1.
Qed.

(** Every byte of a plain stream is consumed. *)
Lemma advance_inner_runs bytes k offset stop s :
  2 * Z.of_nat (length bytes) ≤ k → session_ok k s → plain_stream (config (terminal s)) bytes (parser s) →
  runs (advance_inner image_action bytes offset stop) (λ '(n, boundary) s',
    session_ok (k - 2 * Z.of_nat (length bytes)) s' ∧ config (terminal s') = config (terminal s) ∧
    offset ≤ n ≤ offset + Z.of_nat (length bytes) ∧ (boundary = false → n = offset + Z.of_nat (length bytes)) ∧
    (stop = false → boundary = false ∧ parser s' = parsed (config (terminal s)) bytes (parser s))) s.
Proof using Type.
  revert k offset s. induction bytes as [|b bytes IH]; intros k offset s Hk Hs Hplain; cbn [advance_inner].
  { apply runs_ret. split_and!; simpl; try done; try lia. eapply session_le; [|done]. lia. }
  cbn [length] in Hk. cbn [plain_stream] in Hplain. destruct (feed_byte b (parser s)) as [[p' actions]| |] eqn:Hf; try done.
  destruct Hplain as [Hp Hrest]. apply runs_bind, runs_get, runs_bind.
  eapply runs_mono; [|apply (process_runs k b s p' actions); [lia|done..]]. intros [] s1 (Hs1 & Hcfg1 & Hpar1).
  apply runs_bind, runs_get. destruct (stop && _ && _) eqn:Hstop.
  - apply runs_ret. cbn [length]. split_and!; try done; try lia.
    + eapply session_le; [|done]. lia.
    + intros ->. done.
  - eapply runs_mono; [|apply (IH (k - 2)); [lia|done|by rewrite Hcfg1, Hpar1]]. intros [n boundary] s2 (Hs2 & Hcfg2 & Hn & Hb & Hst).
    cbn [length parsed]. rewrite Hf. rewrite Hcfg1, Hpar1 in Hst. split_and!; try done; try lia.
    + eapply session_le; [|done]. lia.
    + by rewrite Hcfg2.
    + intros ->. rewrite Hb by done. lia.
Qed.

(** ** A new session *)

(** What [Terminal_new] checked. *)
Lemma Terminal_new_inv columns rows c t :
  Terminal_new columns rows c = Ok t → 0 ≤ scrollback_lines c ≤ 2 ^ 62 →
  config_ok c ∧ ∃ cn ca, normal_capacity rows c = Ok cn ∧ alternate_capacity rows = Ok ca ∧
    dimensions_ok cn columns rows ∧ dimensions_ok ca columns rows.
Proof using Type.
  intros Ht Hsb. revert Ht. unfold Terminal_new. destruct (negb _); [done|]. destruct (normal_capacity rows c) as [cn| |]; try done. cbn [obind].
  destruct (cn <? rows); [done|]. destruct (alternate_capacity rows) as [ca| |]; try done. cbn [obind].
  destruct (_ || _) eqn:Hor; [done|]. destruct (with_screen_size cn columns rows) as [gn| |] eqn:Hgn; try done. cbn [obind].
  destruct (with_screen_size ca columns rows) as [ga| |] eqn:Hga; try done. intros _.
  apply with_screen_dimensions in Hgn, Hga. rewrite !orb_false_iff, !Z.leb_gt in Hor. destruct Hor as [[[_ ?] ?] ?].
  split; [by split|]. by exists cn, ca.
Qed.

(** What the parser and the configuration of a session must allow. *)
Record limits_ok (c : TerminalConfig) : Prop := {
  lo_scrollback : 0 ≤ scrollback_lines c ≤ 2 ^ 62;
  lo_osc : 0 ≤ Terminal.osc_limit c;
  lo_dcs : 0 ≤ Terminal.dcs_limit c;
}.

Lemma Session_new_ok columns rows c s :
  Session_new columns rows c = Ok s → limits_ok c →
  session_ok (2 ^ 26) s ∧ config (terminal s) = c ∧ parser s = Parser_new (Terminal.osc_limit c) (Terminal.dcs_limit c) ∧
    Grid.columns (normal (terminal s)) = columns ∧ screen_rows (normal (terminal s)) = rows ∧
    active (terminal s) = Normal ∧ modes (terminal s) = TerminalModes_default ∧ cursor (normal (terminal s)) = Cursor_default ∧
    (∀ r, 0 ≤ r < rows → row r (normal (terminal s)) = Some (Row_new (Z.to_nat columns))).
Proof using Type.
  unfold Session_new. intros Hnew [Hsb Hosc Hdcs]. destruct (Terminal_new columns rows c) as [t| |] eqn:Ht; try done.
  injection Hnew as <-. cbn [terminal parser]. destruct (Terminal_new_inv _ _ _ _ Ht Hsb) as (Hc & cn & ca & Hcn & Hca & Hdn & Hda).
  destruct (Terminal_new_runs columns rows c cn ca Hc Hcn Hca Hdn Hda) as
    (t' & Ht' & Hok & Hfits & Hcol & Hrow & Hcfg & Hrev & _ & _ & _ & Hact & Hmodes & Hcur & Hrows).
  rewrite Ht in Ht'. injection Ht' as <-. split_and!; try done. split; cbn [terminal parser]; rewrite ?Hcfg, ?Hrev; try done.
  - by apply wf_new.
  - destruct Hfits. split; (eapply spare_le; [|done]; done).
Qed.

(** Whatever plain stream of up to [2^25] bytes a new terminal is fed, in
    text, control functions and operating system commands, every byte is
    consumed and no index, assertion or counter of the parser, the grids, the
    rows or the publication fails: the run returns, and leaves a parser and a
    terminal that satisfy their invariants, in particular both screens hold
    well-formed rows of the screen's width and the cursors are on the screen. *)
Theorem session_total columns rows c s bytes :
  Session_new columns rows c = Ok s → limits_ok c →
  Z.of_nat (length bytes) ≤ 2 ^ 25 → plain_stream c bytes (parser s) →
  ∃ s', advance image_action bytes s = (Ok tt, s') ∧ terminal_ok (terminal s') ∧ config (terminal s') = c ∧
    parser_wf (Terminal.osc_limit c) (Terminal.dcs_limit c) (parser s').
Proof using Type.
  intros Hnew Hlim Hlen Hplain. destruct (Session_new_ok _ _ _ _ Hnew Hlim) as (Hs & Hcfg & Hp & _).
  destruct (advance_inner_runs bytes (2 ^ 26) 0 false s) as ([n boundary] & s' & Hrun & Hs' & Hcfg' & _); [lia|done|by rewrite Hcfg|].
  exists s'. unfold advance, bind. rewrite Hrun. rewrite Hcfg in Hcfg'. split_and!; try done; [apply Hs'|].
  rewrite <-Hcfg'. apply Hs'.
Qed.

(** ** Synchronized boundaries *)

Lemma advance_offset bytes offset s :
  (do! advance_inner image_action bytes offset false in ret tt) s = advance image_action bytes s.
Proof using Type.
  unfold advance. generalize 0 as z. intros z. revert offset z s. induction bytes as [|b bytes IH]; intros offset z s; [done|].
  cbn [advance_inner]. unfold bind at 1 2 6 7, get. unfold bind. 
  destruct (process image_action 2 b s) as [[[]|e|] s1]; try done. cbn [andb]. apply IH.
Qed.

Lemma session_advance_cons b bytes s :
  advance image_action (b :: bytes) s = (do! process image_action 2 b in advance image_action bytes) s.
Proof using Type.
  rewrite <-(advance_offset _ 0). cbn [advance_inner]. unfold bind, get. destruct (process image_action 2 b s) as [[[]|e|] s1]; try done.
  cbn [andb]. apply (advance_offset bytes (0 + 1) s1).
Qed.

(** Whether synchronized updates are on after the first [k] bytes. *)
Definition synchronized_after (k : nat) (bytes : list Z) (s : Session) : option bool :=
  match advance image_action (take k bytes) s with
  | (Ok _, s') => Some (synchronized_updates (terminal s'))
  | _ => None
  end.

(** The [k]th byte completes a synchronized frame. *)
Definition completes_frame (k : nat) (bytes : list Z) (s : Session) : Prop :=
  (1 ≤ k ≤ length bytes)%nat ∧ synchronized_after (k - 1) bytes s = Some true ∧ synchronized_after k bytes s = Some false.

Lemma synchronized_after_S k b bytes s s' :
  process image_action 2 b s = (Ok tt, s') → synchronized_after (S k) (b :: bytes) s = synchronized_after k bytes s'.
Proof using Type. intros Hp. unfold synchronized_after. cbn [take]. rewrite session_advance_cons. unfold bind. by rewrite Hp. Qed.

Lemma completes_frame_S k b bytes s s' :
  process image_action 2 b s = (Ok tt, s') → completes_frame (S (S k)) (b :: bytes) s ↔ completes_frame (S k) bytes s'.
Proof using Type.
  intros Hp. unfold completes_frame. cbn [Nat.sub length]. rewrite Nat.sub_0_r, !(synchronized_after_S _ _ _ _ _ Hp).
  split; intros (H1 & H2); (split; [lia|exact H2]).
Qed.

Lemma completes_frame_1 b bytes s s' :
  process image_action 2 b s = (Ok tt, s') →
  completes_frame 1 (b :: bytes) s ↔ synchronized_updates (terminal s) = true ∧ synchronized_updates (terminal s') = false.
Proof using Type.
  intros Hp. unfold completes_frame. rewrite (synchronized_after_S _ _ _ _ _ Hp). unfold synchronized_after. cbn [Nat.sub length]. rewrite !take_0. cbn.
  split; [by intros (_ & [= ->] & [= ->])|intros [-> ->]; split_and!; lia || done].
Qed.

Lemma boundary_runs bytes offset s :
  let '(r, s1) := advance_inner image_action bytes offset true s in
  match r with
  | Ok (n, boundary) => ∃ k, n = offset + Z.of_nat k ∧ (k ≤ length bytes)%nat ∧
      advance image_action (take k bytes) s = (Ok tt, s1) ∧
      advance image_action bytes s = advance image_action (drop k bytes) s1 ∧
      (∀ j, completes_frame j bytes s → (k ≤ j)%nat) ∧
      if boundary then completes_frame k bytes s else k = length bytes ∧ ¬ completes_frame k bytes s
  | Err e => advance image_action bytes s = (Err e, s1)
  | Panic => advance image_action bytes s = (Panic, s1)
  end.
Proof using Type.
  revert offset s. induction bytes as [|b bytes IH]; intros offset s; cbn [advance_inner].
  { cbn. exists 0%nat. split_and!; try done; try lia. by intros [[Hz _] _]; inversion Hz. }
  rewrite session_advance_cons. unfold bind, get.
  destruct (process image_action 2 b s) as [[[]|e|] s2] eqn:Hp; [|done..].
  assert (∀ k, advance image_action (take (S k) (b :: bytes)) s = advance image_action (take k bytes) s2) as Htake.
  { intros k. cbn [take]. rewrite session_advance_cons. unfold bind. by rewrite Hp. }
  destruct (true && _ && _) eqn:Hstop.
  - apply andb_true_iff in Hstop as [Hbefore Hafter%negb_true_iff]. cbn [andb] in Hbefore.
    exists 1%nat. rewrite Htake. split_and!; [lia|simpl; lia|done|cbn [drop]; by rewrite drop_0|by intros j [[? _] _]|].
    by apply (completes_frame_1 _ _ _ _ Hp).
  - specialize (IH (offset + 1) s2). destruct (advance_inner image_action bytes (offset + 1) true s2) as [[[n boundary]|e|] s1]; [|done..].
    destruct IH as (k & -> & Hk & Hrun & Hrest & Hfirst & Hb). exists (S k). rewrite Htake.
    assert (¬ completes_frame 1 (b :: bytes) s) as Hno.
    { rewrite (completes_frame_1 _ _ _ _ Hp). intros [H1 H2]. by rewrite H1, H2 in Hstop. }
    split_and!; [lia|simpl; lia|done|done| |].
    + intros [|[|j]] Hj; [destruct Hj as [[Hz _] _]; lia|by apply Hno in Hj|]. apply (completes_frame_S _ _ _ _ _ Hp), Hfirst in Hj. lia.
    + destruct boundary.
      * destruct k as [|k]; [destruct Hb as [[Hz _] _]; lia|]. by apply (completes_frame_S _ _ _ _ _ Hp).
      * destruct Hb as [-> Hb]. split; [done|]. destruct bytes as [|b' bytes]; [done|]. cbn [length] in *. by rewrite (completes_frame_S _ _ _ _ _ Hp).
Qed.

(** C32. Feeding up to a synchronized boundary stops exactly at the first byte
    that completes a synchronized frame, the byte after which synchronized
    updates are off while they were on before it: the boundary is reported after
    that byte, everything is consumed when no byte completes a frame, and no
    byte before the returned count does. The bytes counted are the ones that were
    fed, feeding the rest from there gives exactly the state and outcome of
    feeding all of them at once, and a failure is the failure of feeding them. *)
Theorem synchronized_boundary_resumes bytes s :
  let '(r, s1) := advance_to_synchronized_boundary image_action bytes s in
  match r with
  | Ok (n, boundary) => ∃ k, n = Z.of_nat k ∧ (k ≤ length bytes)%nat ∧
      advance image_action (take k bytes) s = (Ok tt, s1) ∧
      advance image_action bytes s = advance image_action (drop k bytes) s1 ∧
      (∀ j, completes_frame j bytes s → (k ≤ j)%nat) ∧
      if boundary then completes_frame k bytes s else k = length bytes ∧ ¬ completes_frame k bytes s
  | Err e => advance image_action bytes s = (Err e, s1)
  | Panic => advance image_action bytes s = (Panic, s1)
  end.
Proof using Type. exact (boundary_runs bytes 0 s). Qed.
End session.

(** ** Witnesses *)

#[local] Existing Instance example_width.
#[local] Existing Instance no_images.

Definition new_session : option Session := match Session_new 4 2 ex_config with Ok s => Some s | _ => None end.

Lemma ex_session_returns : is_Some new_session.
Proof. vm_compute. by eexists. Qed.

Definition ex_session : Session := is_Some_proj ex_session_returns.

Lemma ex_session_new : Session_new 4 2 ex_config = Ok ex_session.
Proof. vm_compute. reflexivity. Qed.

(** Handlers that are never called. *)
Definition no_action (a : Action) : M Terminal unfinished unit := panic.

(** [ab], a wide character, CAN, [CSI 2 J], a title and a reset. *)
Definition ex_stream : list Z :=
  [97; 98; 0xe4; 0xb8; 0xad; 0x18] ++ [0x1b; 0x5b; 50; 74] ++ [0x1b; 0x5d; 50; 59; 120; 7] ++ [0x1b; 99; 122].

Lemma session_total_witness :
  ∃ s', advance no_action ex_stream ex_session = (Ok tt, s') ∧ terminal_ok (terminal s') ∧ config (terminal s') = ex_config.
Proof.
  destruct (session_total no_action 4 2 ex_config ex_session ex_stream) as (s' & H1 & H2 & H3 & _);
    [exact ex_session_new|split; simpl; lia|vm_compute; discriminate| |exists s'; exact (conj H1 (conj H2 H3))].
  vm_compute. repeat first [split|constructor|discriminate].
Defined.

(** [CSI ? 2026 h], text, [CSI ? 2026 l], more text: the boundary is after the eighteenth byte. *)
Definition ex_synchronized : list Z :=
  [0x1b; 0x5b; 63; 50; 48; 50; 54; 104] ++ [97; 98] ++ [0x1b; 0x5b; 63; 50; 48; 50; 54; 108] ++ [99; 100].

Lemma synchronized_boundary_resumes_witness :
  ∃ s1, advance_to_synchronized_boundary no_action ex_synchronized ex_session = (Ok (18, true), s1) ∧
    advance no_action ex_synchronized ex_session = advance no_action [99; 100] s1 ∧
    completes_frame no_action 18 ex_synchronized ex_session.
Proof.
  pose proof (synchronized_boundary_resumes no_action ex_synchronized ex_session) as Hb.
  destruct (advance_to_synchronized_boundary no_action ex_synchronized ex_session) as [r s1] eqn:H.
  assert (r = Ok (18, true)) as -> by (apply (f_equal fst) in H; vm_compute in H; symmetry; exact H).
  destruct Hb as (k & Hk & _ & _ & Hrest & _ & Hc). assert (k = 18%nat) as -> by lia.
  exists s1. exact (conj eq_refl (conj Hrest Hc)).
Defined.
