(* ===== verification/ResizeProps.v ===== *)
(** * Resizing a terminal

    [Terminal::resize] keeps the invariant of the terminal: reflow leaves rows
    of complete characters whose cells the terminal could have written, and the
    alternate screen is cut or padded. Bytes and resizes may then come in any
    order. *)

From stdpp Require Import base list gmap strings.
From S2P Require Import Prelude RustStd Cell CellProps Row RowInv RowProps Coord Grid GridInv GridSteps GridOps Reflow ReflowInv ReflowProps Composed Vt VtInv VtProps Update Terminal RowEdits TerminalInv TerminalSteps TerminalControl TerminalDispatch TerminalProps Session SessionProps.

#[local] Open Scope Z_scope.

(** ** The cells reflow builds *)

Section grids.
Context {W : UnicodeWidth}.

Definition cells_built (b : Builder) : Prop :=
  Forall (λ r, Forall cell_good (cells r)) (b_rows b) ∧ Forall cell_good (b_current b).

Lemma padding_good : cell_good padding.
Proof using Type. by apply (narrow_good _ (Spacer 0)). Qed.

Lemma push_built linebreak b : cells_built b → cells_built (push_current linebreak b).
Proof using Type. intros [Hr Hc]. split; [|constructor]. apply Forall_app. by rewrite Forall_singleton. Qed.

Lemma pad_built c b : cell_good c → cells_built b → cells_built (pad_current c b).
Proof using Type. intros Hc [Hr Hb]. split; [done|]. apply Forall_app. split; [done|]. by apply Forall_replicate. Qed.

Lemma finish_built linebreak b : cells_built b → cells_built (finish linebreak b).
Proof using Type. intros Hb. apply push_built, pad_built; [apply default_good|done]. Qed.

Lemma close_wrapped b : cells_built b → cells_built (finish_wrapped b).
Proof using Type. intros Hb. apply push_built, pad_built; [apply padding_good|done]. Qed.

Lemma mapped_built row column l b f :
  cells_built b →
  cells_built (foldl (λ b offset, map_origin row (Z.of_nat (column + offset)) (f offset) b) b l).
Proof using Type. revert b. induction l as [|x l IH]; intros b Hb; [done|]. simpl. by apply IH. Qed.

Lemma append_cells_built row column width output b :
  Forall cell_good output → cells_built b → cells_built (append_unit row column width output b).
Proof using Type.
  intros Ho Hb. unfold append_unit. cbv zeta.
  set (output' := if bool_decide _ then [] else output).
  assert (Forall cell_good output') as Ho' by (unfold output'; case_bool_decide; [constructor|done]).
  set (b' := if _ && _ then finish_wrapped b else b).
  assert (cells_built b') as [Hr Hc] by (unfold b'; destruct (_ && _); [by apply close_wrapped|done]).
  apply mapped_built. split; [done|]. apply Forall_app. split; [done|].
  destruct output'; [apply Forall_singleton, default_good|done].
Qed.

Section widths.
Context (cw : Z → Z) (Hcw : ∀ key, cw key ≤ 2).

Lemma composed_cells_good leader key output :
  cell_good leader → cells_for_composed_width leader (Z.max (cw key) 1) = Ok output → Forall cell_good output.
Proof using Hcw.
  intros Hl. specialize (Hcw key). assert (Z.max (cw key) 1 = 1 ∨ Z.max (cw key) 1 = 2) as [-> | ->] by lia.
  - intros [= <-]. by apply Forall_singleton.
  - change (cells_for_composed_width leader 2) with (Ok (E := unfinished) [leader; spacer_cell 1]).
    intros [= <-]. rewrite Forall_cons, Forall_singleton. split; [done|]. apply (narrow_good _ (Spacer 1)); [by apply (spacer_cell_content 1)|done].
Qed.

Lemma unit_good r column count maximum width output :
  Forall cell_good (cells r) → reflow_unit r column count maximum cw = Ok (width, output) → Forall cell_good output.
Proof using Hcw.
  intros Hr. unfold reflow_unit. destruct (cells r !! column) as [leader|] eqn:Hl; [|done].
  assert (cell_good leader) as Hg by (by eapply Forall_lookup_1).
  assert (Forall cell_good [Cell_default]) as Hd by (apply Forall_singleton, default_good).
  assert (∀ w, Forall cell_good (Reflow.slice column w r)) as Hs by (intros; by apply Forall_take, Forall_drop).
  destruct (continues _ _); [by intros [= _ <-]|].
  assert (∀ w o, (if bool_decide (S column < count)%nat && continues (cells r) (S column)
               && (group_width (cells r) column <=? Z.of_nat count - Z.of_nat column) && descends (cells r) column (group_width (cells r) column) then
              if Z.of_nat maximum <? group_width (cells r) column then Ok (Z.to_nat (group_width (cells r) column), [])
              else Ok (Z.to_nat (group_width (cells r) column), Reflow.slice column (Z.to_nat (group_width (cells r) column)) r)
            else Ok (E := unfinished) (1%nat, [leader])) = Ok (w, o) → Forall cell_good o) as Hother.
  { intros w o. destruct (_ && _); [destruct (_ <? _)|]; intros [= _ <-]; [constructor|done|by apply Forall_singleton]. }
  destruct (content_of leader) as [|?|key|?]; try exact (Hother _ _).
  clear Hother. destruct (_ <? _); [intros ?; simplify_eq; constructor|]. destruct (_ && _); [intros ?; by simplify_eq|].
  destruct (cells_for_composed_width leader _) as [o|e|] eqn:Ho; [|done..]. cbn [obind]. intros ?. simplify_eq.
  by eapply composed_cells_good.
Qed.

Lemma cells_reflowed fuel column count r row b b' :
  Forall cell_good (cells r) → cells_built b → reflow_cells fuel column count r row cw b = Ok b' → cells_built b'.
Proof using Hcw.
  intros Hr. revert column b. induction fuel as [|fuel IH]; intros column b Hb; cbn [reflow_cells].
  { case_bool_decide; [done|]. by intros [= <-]. }
  case_bool_decide; [|by intros [= <-]].
  destruct (reflow_unit r column count (b_columns b) cw) as [[w o]|e|] eqn:Hu; [|done..]. cbn [obind].
  apply IH, append_cells_built; [by eapply unit_good|done].
Qed.

Lemma row_reflowed row id r p p' :
  Forall cell_good (cells r) → cells_built (builder p) → reflow_row row id r cw p = Ok p' → cells_built (builder p').
Proof using Hcw.
  intros Hr Hb. unfold reflow_row. cbv zeta. set (b := if bool_decide _ then Nat.iter _ _ _ else _).
  assert (cells_built b) as Hb'.
  { unfold b. case_bool_decide; [|done]. apply Nat.iter_invariant; [|done]. intros. by apply finish_built. }
  destruct (reflow_cells _ _ _ _ _ _ b) as [b1|e|] eqn:Hc; [|done..]. intros [= <-]. cbn [builder].
  apply cells_reflowed in Hc; [|done..]. destruct (_ && _); [by apply finish_built|done].
Qed.

Lemma rows_reflowed indices g p p' :
  (∀ i r, slot i g = Some r → Forall cell_good (cells r)) → cells_built (builder p) →
  reflow_rows indices cw g p = Ok p' → cells_built (builder p').
Proof using Hcw.
  intros Hg. revert p. induction indices as [|i l IH]; intros p Hp; cbn [reflow_rows]; [by intros [= <-]|].
  destruct (slot i g) as [r|] eqn:Hr; [|by apply IH].
  destruct (reflow_row i (id_at i g) r cw p) as [p1|e|] eqn:H1; [|done..]. cbn [obind].
  apply IH. eapply row_reflowed; [by eapply Hg|done|done].
Qed.
End widths.

(** ** The grids *)

Lemma lines_built width cw g b :
  (∀ key, cw key ≤ 2) → rows_hold row_good g → lines_of width cw g = Ok b → cells_built b.
Proof using Type.
  intros Hcw Hg. unfold lines_of. destruct (reflow_rows _ cw g _) as [p|e|] eqn:Hp; [|done..].
  intros [= <-]. apply (rows_reflowed cw Hcw) in Hp.
  - unfold finish_lines. destruct (negb _); [|destruct (negb _)]; [by apply finish_built..|done].
  - intros i r Hr. by apply (rows_hold_at _ _ _ _ Hg) in Hr as [].
  - by split.
Qed.

Lemma reflow_good capacity width n cw g :
  (∀ key, cw key ≤ 2) → screen_good g → roomy g → dimensions_ok capacity width n →
  runs (resize_with_reflow capacity width n cw) (λ _ g', screen_good g' ∧ raises (2 ^ 30) g g' ∧
    row_capacity g' = capacity ∧ columns g' = width ∧ screen_rows g' = n) g.
Proof using Type.
  intros Hcw [Hok Hrows] Hroom Hd. pose proof Hd as (_ & Hcap & Hw & Hn).
  destruct (resize_with_reflow_runs capacity width n cw g) as (b & Hb & Hspec & m & g' & Hrun & Hrz & _); [done..|].
  exists m, g'. split; [done|]. pose proof Hrz as [R1 R2 R3 R4 _ _ Hsl _ _ _ Hra]. split_and!; try done. split; [done|].
  destruct (lines_built width cw g b Hcw Hrows Hb) as [Hgood _].
  destruct (ln_wide _ _ _ _ Hspec) as [Hwide _].
  { intros i r _ Hr. apply wide_ok_lone_padding. by apply (rows_hold_at _ _ _ _ Hrows) in Hr as []. }
  destruct (trimmed_suffix capacity b) as (dropped & Hdrop & _); [apply Hspec..|lia|].
  pose proof (built_rows _ (ln_built _ _ _ _ Hspec)) as Hlen. rewrite (ln_columns _ _ _ _ Hspec) in Hlen.
  rewrite Hdrop in Hgood, Hwide, Hlen. apply Forall_app in Hgood as [_ Hgood], Hwide as [_ Hwide], Hlen as [_ Hlen].
  intros x Hx. apply list_elem_of_lookup in Hx as [i Hi]. pose proof (lookup_lt_Some _ _ _ Hi) as Hl.
  assert (slot (Z.of_nat i) g' = Some x) as Hs by (unfold slot; by rewrite Nat2Z.id, Hi).
  rewrite Hsl in Hs by (rewrite <-R2; unfold row_capacity; lia). unfold ring_slot in Hs.
  destruct (b_rows (trim_rows capacity b) !! Z.to_nat (Z.of_nat i)) as [r|] eqn:Hr.
  - injection Hs as <-. rewrite Forall_lookup in Hgood, Hwide, Hlen. split; [by eapply Hwide|by eapply Hgood|].
    unfold short. rewrite (Hlen _ _ Hr : length (cells r) = _). unfold i32_max, usize_max, u64_max in *. lia.
  - destruct (_ <=? _); [|done]. injection Hs as <-. by apply new_row_good.
Qed.

Lemma cut_row_good width r :
  (Z.of_nat width ≤ i32_max) → row_good r → row_good (Row.resize_without_reflow width r).
Proof using Type.
  intros Hw [Hwide Hcells _]. destruct (resize_without_reflow_exact width r Hwide) as (H1 & H2 & _ & H3).
  split; [done| |].
  - apply Forall_lookup. intros i c Hc. pose proof (lookup_lt_Some _ _ _ Hc) as Hi. rewrite H2 in Hi.
    destruct (H3 i Hi) as [Hk|[Hk _]]; rewrite Hk in Hc.
    + case_bool_decide; [by eapply Forall_lookup_1|]. injection Hc as <-. apply default_good.
    + apply fmap_Some in Hc as (d & _ & ->). by apply (narrow_good _ Empty).
  - unfold short. rewrite H2. unfold i32_max, usize_max, u64_max in *. lia.
Qed.

Lemma dirty_row_good width : 0 < width ≤ i32_max → row_good (Row_new_dirty (Z.to_nat width)).
Proof using Type.
  intros Hw. unfold Row_new_dirty. split; cbn [cells].
  - by apply wide_ok_replicate.
  - apply replicate_good, default_good.
  - unfold short. rewrite length_replicate. unfold i32_max, usize_max, u64_max in *. lia.
Qed.

Lemma cut_good capacity width n g :
  screen_good g → roomy g → dimensions_ok capacity width n →
  runs (Grid.resize_without_reflow capacity width n) (λ _ g', screen_good g' ∧ raises (2 ^ 30) g g' ∧
    row_capacity g' = capacity ∧ columns g' = width ∧ screen_rows g' = n) g.
Proof using Type.
  intros [Hok Hrows] Hroom Hd. pose proof Hd as (_ & _ & Hw & _).
  eapply runs_mono; [|by apply GridOps.resize_runs].
  intros m g' (Hok' & Hcap & Hcol & Hn & Hra & _ & _ & Hscr & Hnone & _). split_and!; try done. split; [done|].
  apply rows_hold_intro; [apply Hok'|]. intros r x Hr Hx. rewrite Hcap in Hr. destruct (decide (r < n)).
  - rewrite Hscr in Hx by lia. injection Hx as <-. unfold resized_screen, resized_row. destruct (r <? _); [|by apply dirty_row_good].
    assert (∀ r, row_good r → row_good (set_linebreak true r)) as Hlb by (intros ? []; by split).
    apply Hlb, cut_row_good; [lia|]. destruct (row r g) as [y|] eqn:Hy; [by eapply rows_hold_row|].
    simpl. apply dirty_row_good. apply Hok.
  - by rewrite Hnone in Hx by lia.
Qed.
End grids.

(** ** The terminal *)

Lemma next_power_ok m n :
  1 ≤ n ≤ m → m ≤ 2 ^ 63 →
  ∃ p, checked_next_power_of_two m = Some p ∧ is_power_of_two (Z.min p (2 ^ 30)) = true ∧
    Z.min n (2 ^ 30) ≤ Z.min p (2 ^ 30).
Proof.
  intros Hn Hm. set (p := if m <=? 1 then 1 else 2 ^ Z.log2_up m).
  assert (∃ k, 0 ≤ k ≤ 63 ∧ p = 2 ^ k ∧ m ≤ p) as (k & Hk & Hp & Hle).
  { unfold p. destruct (Z.leb_spec m 1); [exists 0; lia|]. exists (Z.log2_up m).
    assert (Z.log2_up m ≤ Z.log2_up (2 ^ 63)) as Hl by (by apply Z.log2_up_le_mono).
    rewrite Z.log2_up_pow2 in Hl by lia. pose proof (Z.log2_up_spec m). pose proof (Z.log2_up_nonneg m). lia. }
  exists p. assert (p ≤ 2 ^ 63) by (rewrite Hp; apply Z.pow_le_mono_r; lia).
  split_and!.
  - unfold checked_next_power_of_two. fold p. rewrite (proj2 (Z.leb_le _ _)); [done|]. unfold usize_max, u64_max. lia.
  - apply is_power_of_two_spec. destruct (Z.min_spec p (2 ^ 30)) as [[_ ->]|[_ ->]]; [exists k; lia|exists 30; lia].
  - lia.
Qed.

Lemma capacities_ok columns rows c :
  0 < columns ≤ i32_max → 1 ≤ rows ≤ 2 ^ 30 → config_ok c →
  ∃ cn ca, normal_capacity rows c = Ok cn ∧ alternate_capacity rows = Ok ca ∧
    dimensions_ok cn columns rows ∧ dimensions_ok ca columns rows.
Proof.
  intros Hc Hr [[Hs0 Hs1] _ _ _]. unfold normal_capacity, alternate_capacity. change (Z.shiftl 1 30) with (2 ^ 30).
  assert (Z.max (Z.min (scrollback_lines c + rows) usize_max) rows = scrollback_lines c + rows) as ->.
  { unfold usize_max, u64_max. lia. }
  destruct (next_power_ok (scrollback_lines c + rows) rows) as (p & -> & Hp & Hpl); [lia|lia|].
  destruct (next_power_ok rows rows) as (q & -> & Hq & Hql); [lia|lia|].
  eexists _, _. split_and!; [done|done|unfold dimensions_ok; split_and!; done || lia..].
Qed.

Section terminal.
Context {W : UnicodeWidth} {I : ImagePlane}.

Lemma resize_images_run screen anchors columns g t :
  ∃ b p, resize_images screen anchors columns g t = (Ok b, set_images p t).
Proof using Type.
  unfold resize_images, bind at 1, get. destruct (negb _).
  { exists false, (images t). by destruct t. }
  destruct (remap_anchors _ _ _) as [x p1]. set (r := match columns with Some _ => _ | None => _ end).
  destruct r as [y p2]. destruct (resolve_text_overlaps _ _ _) as [z p3]. by eexists _, p3.
Qed.

Lemma runs_with_change f c Q t :
  current_change t = Some c → Q tt (set_current_change (Some (f c)) t) → runs (with_change f) Q t.
Proof using Type. intros Hc HQ. apply runs_bind, runs_get, runs_bind. eapply runs_expect; [exact Hc|]. by apply runs_put. Qed.

Lemma set_change_twice c d t : set_current_change c (set_current_change d t) = set_current_change c t.
Proof using Type. by destruct t. Qed.

(** The terminal after its grids were replaced. *)
Definition regridded (gn ga : Grid) (p1 p2 : plane) (t : Terminal) : Terminal :=
  set_tab_stops (tab_stops_for (columns gn) (config t))
    (put_scroll_region {| region_start := 0; region_end := screen_rows gn |}
      (set_images p2 (set_images p1 (set_alternate ga (set_normal gn t))))).

Lemma regridded_ok gn ga p1 p2 t :
  terminal_ok t → screen_good gn → screen_good ga → columns ga = columns gn → screen_rows ga = screen_rows gn →
  normal_capacity (screen_rows gn) (config t) = Ok (row_capacity gn) →
  alternate_capacity (screen_rows gn) = Ok (row_capacity ga) → 0 < columns gn → 1 ≤ screen_rows gn →
  terminal_ok (regridded gn ga p1 p2 t).
Proof using Type.
  intros [? ? ? ? ? ? ? ? ? ? ? ? ? ? ? [] ?] Gn Ga Hc Hs Hn Ha Hpos Hrow. split; try done; simpl; try lia.
  unfold tab_stops_for, range. rewrite length_fmap, length_seqZ. lia.
Qed.

Lemma resize_terminal_runs new_columns new_rows t :
  terminal_ok t → fits (2 ^ 33) t → t_revision t < u64_max →
  0 < new_columns ≤ i32_max → 1 ≤ new_rows ≤ 2 ^ 30 →
  runs (resize new_columns new_rows) (λ _ t', terminal_ok t' ∧
    raises (2 ^ 30) (normal t) (normal t') ∧ raises (2 ^ 30) (alternate t) (alternate t') ∧
    config t' = config t ∧ columns (normal t') = new_columns ∧ screen_rows (normal t') = new_rows ∧
    t_revision t ≤ t_revision t' ≤ t_revision t + 1) t.
Proof using Type.
  intros Ht [Hfn Hfa] Hrev Hc Hr. unfold resize.
  assert (∀ key, composed_width key (composed t) ≤ 2) as Hcw by (intros key; apply composed_width_narrow, (to_table _ Ht)). apply runs_bind, runs_get.
  destruct (_ && _) eqn:Hsame.
  { apply andb_true_iff in Hsame as [H1%Z.eqb_eq H2%Z.eqb_eq]. apply runs_ret. unfold raises. split_and!; try done; lia. }
  clear Hsame. destruct (capacities_ok new_columns new_rows (config t) Hc Hr (to_config _ Ht)) as (cn & ca & Hcn & Hca & Hdn & Hda).
  set (t0 := set_current_change (Some ChangeSet_default) t).
  assert (terminal_ok t0) as Ht0 by (by apply ok_current_change).
  apply runs_bind, runs_put, runs_bind. eapply runs_lift; [exact Hcn|]. apply runs_bind. eapply runs_lift; [exact Hca|].
  destruct (reflow_good cn new_columns new_rows (λ key, composed_width key (composed t)) (normal t)) as
    (mn & gn & Rn & Gn & Pn & <- & <- & <-); [done|apply Ht|done|done|].
  destruct (cut_good ca (columns gn) (screen_rows gn) (alternate t)) as (ma & ga & Ra & Ga & Pa & <- & Ca & Sa); [apply Ht|done|done|].
  apply runs_bind. exists mn, (set_normal gn t0). split; [unfold on_normal; cbn [normal t0 set_current_change]; by rewrite Rn|].
  apply runs_bind. exists ma, (set_alternate ga (set_normal gn t0)).
  split; [unfold on_alternate; cbn [alternate t0 set_current_change set_normal]; by rewrite Ra|].
  set (t1 := set_alternate ga (set_normal gn t0)). apply runs_bind, runs_get.
  destruct (resize_images_run Normal mn None (normal t1) t1) as (b1 & p1 & Hi1).
  apply runs_bind. eexists b1, _. split; [exact Hi1|].
  destruct (resize_images_run Alternate ma (Some (columns gn)) (alternate t1) (set_images p1 t1)) as (b2 & p2 & Hi2).
  apply runs_bind. eexists b2, _. split; [exact Hi2|].
  apply runs_bind, (runs_lift _ {| region_start := 0; region_end := screen_rows gn |}).
  { unfold ScrollRegion_new. by rewrite (proj2 (Z.leb_le _ _)) by lia. }
  apply runs_bind, runs_modify, runs_bind. unfold reset_tab_stops. apply runs_modify, runs_bind, runs_get.
  assert (terminal_ok (regridded gn ga p1 p2 t0)) as Hok by (apply regridded_ok; done || lia).
  change (set_tab_stops _ _) with (regridded gn ga p1 p2 t0).
  assert (∀ c, runs commit_change (λ _ t', terminal_ok t' ∧
    raises (2 ^ 30) (normal t) (normal t') ∧ raises (2 ^ 30) (alternate t) (alternate t') ∧
    config t' = config t ∧ columns (normal t') = columns gn ∧ screen_rows (normal t') = screen_rows gn ∧
    t_revision t ≤ t_revision t' ≤ t_revision t + 1) (set_current_change (Some c) (regridded gn ga p1 p2 t0))) as Hcommit.
  { intros c. destruct (commit_safe _ (ok_current_change (Some c) _ Hok)) as (t' & Hrun & Hok' & _ & Hn' & Ha' & Hcfg & Hrev' & _); [done|].
    exists tt, t'. split; [done|]. rewrite Hn', Ha', Hcfg. split_and!; try done; apply Hrev'. }
  apply runs_bind. eapply runs_with_change; [done|]. apply runs_bind.
  generalize (regridded gn ga p1 p2 t0) Hcommit. intros s Hs. destruct (_ || _); [|apply runs_ret, Hs].
  eapply runs_with_change; [done|]. rewrite set_change_twice. apply Hs.
Qed.

(** ** Bytes and resizes in any order *)

Context (image_action : Action → M Terminal unfinished unit).

Inductive input := Bytes (bytes : list Z) | Resize (columns rows : Z).

(** [Terminal::resize] leaves the parser alone. *)
Definition resize_session (columns rows : Z) : M Session unfinished unit := λ s,
  let '(r, t) := resize columns rows (terminal s) in (r, {| parser := parser s; terminal := t |}).

Definition take_input (i : input) : M Session unfinished unit :=
  match i with
  | Bytes bytes => advance image_action bytes
  | Resize columns rows => resize_session columns rows
  end.

(** What an input costs of the budget of a session. *)
Definition cost (i : input) : Z := match i with Bytes bytes => 2 * Z.of_nat (length bytes) | Resize _ _ => 1 end.

Fixpoint costs (l : list input) : Z := match l with [] => 0 | i :: l => cost i + costs l end.

(** Plain bytes, and dimensions a terminal can have. *)
Fixpoint plain_inputs (c : TerminalConfig) (l : list input) (p : Parser) : Prop :=
  match l with
  | [] => True
  | Bytes bytes :: l => plain_stream c bytes p ∧ plain_inputs c l (parsed c bytes p)
  | Resize columns rows :: l => (0 < columns ≤ i32_max ∧ 1 ≤ rows ≤ 2 ^ 30) ∧ plain_inputs c l p
  end.

Lemma resize_session_runs k columns rows s :
  1 ≤ k → session_ok k s → 0 < columns ≤ i32_max → 1 ≤ rows ≤ 2 ^ 30 →
  runs (resize_session columns rows) (λ _ s', session_ok (k - 1) s' ∧ parser s' = parser s ∧
    config (terminal s') = config (terminal s)) s.
Proof using Type.
  intros Hk [Hp Ht [Hf1 Hf2] Hr] Hc Hrow.
  destruct (resize_terminal_runs columns rows (terminal s)) as ([] & t' & Hrun & Ht' & Hn & Ha & Hcfg & _ & _ & Hrev).
  - done.
  - split; (eapply spare_le; [|done]; lia).
  - lia.
  - done.
  - done.
  - exists tt. eexists. unfold resize_session. rewrite Hrun. split; [done|]. cbn [parser terminal].
    split_and!; try done. split; cbn [parser terminal]; rewrite ?Hcfg; try done; [|lia].
    split; (eapply raises_spare; [done|]; eapply spare_le; [|done]; lia).
Qed.

Lemma inputs_run l k s :
  costs l ≤ k → session_ok k s →
  plain_inputs (config (terminal s)) l (parser s) →
  runs (for_each l take_input) (λ _ s', session_ok (k - costs l) s' ∧ config (terminal s') = config (terminal s)) s.
Proof using Type.
  revert k s. induction l as [|i l IH]; intros k s Hk Hs Hp; cbn [for_each costs] in *.
  { apply runs_ret. split; [by rewrite Z.sub_0_r|done]. }
  assert (0 ≤ costs l) as Hl by (clear; induction l as [|[] l IH]; simpl; lia).
  apply runs_bind. destruct i as [bytes|columns rows]; cbn [cost plain_inputs] in *; destruct Hp as [Hi Hp].
  - unfold take_input, advance. apply runs_bind.
    eapply runs_mono; [|apply (advance_inner_runs image_action bytes k 0 false s); [lia|done|done]].
    intros [n boundary] s1 (Hs1 & Hcfg & _ & _ & Hpar). destruct (Hpar eq_refl) as [_ Hpar']. apply runs_ret.
    eapply runs_mono; [|apply (IH (k - 2 * Z.of_nat (length bytes)) s1); [lia|done|by rewrite Hcfg, Hpar']].
    intros _ s2 [Hs2 Hcfg2]. split; [eapply session_le; [|done]; lia|congruence].
  - eapply runs_mono; [|apply (resize_session_runs k); [lia|done|apply Hi..]].
    intros [] s1 (Hs1 & Hpar & Hcfg).
    eapply runs_mono; [|apply (IH (k - 1) s1); [lia|done|by rewrite Hcfg, Hpar]].
    intros _ s2 [Hs2 Hcfg2]. split; [eapply session_le; [|done]; lia|congruence].
Qed.

(** C1. However a new terminal is resized while it is fed plain bytes, in any
    order, every input is taken: no index, assertion or counter of the parser,
    the grids, the reflow, the rows or the publication fails, and the parser and
    the terminal satisfy their invariants afterwards. Plain bytes decode to
    characters of at most two columns, control functions (CAN and SUB too) and
    operating system commands, and start no image transfer; the widths of
    characters that are not printed do not matter. There are up to [2^25] bytes and resizes in
    all, to at most [2^30] rows and [2^31 - 1] columns. *)
Theorem terminal_total columns rows c s l :
  Session_new columns rows c = Ok s → limits_ok c →
  costs l ≤ 2 ^ 26 → plain_inputs c l (parser s) →
  ∃ s', for_each l take_input s = (Ok tt, s') ∧ terminal_ok (terminal s') ∧ config (terminal s') = c ∧
    parser_wf (Terminal.osc_limit c) (Terminal.dcs_limit c) (parser s').
Proof using Type.
  intros Hnew Hlim Hcost Hplain. destruct (Session_new_ok _ _ _ _ Hnew Hlim) as (Hs & Hcfg & _).
  destruct (inputs_run l (2 ^ 26) s Hcost Hs) as ([] & s' & Hrun & Hs' & Hcfg'); [by rewrite Hcfg|].
  exists s'. rewrite Hcfg in Hcfg'. split_and!; [done|apply Hs'|done|]. rewrite <-Hcfg'. apply Hs'.
Qed.
End terminal.

(** ** Witness *)

#[local] Existing Instance example_width.
#[local] Existing Instance no_images.

(** The stream of [SessionProps], a wider screen, more text, a narrower one. *)
Definition ex_inputs : list input :=
  [Bytes ex_stream; Resize 7 3; Bytes [97; 98; 0xe4; 0xb8; 0xad]; Resize 2 2; Bytes [99]].

Lemma terminal_total_witness :
  ∃ s', for_each ex_inputs (take_input no_action) ex_session = (Ok tt, s') ∧ terminal_ok (terminal s').
Proof.
  destruct (terminal_total no_action 4 2 ex_config ex_session ex_inputs) as (s' & H1 & H2 & _);
    [exact ex_session_new|split; simpl; lia|vm_compute; discriminate| |exists s'; exact (conj H1 H2)].
  vm_compute. repeat first [split|constructor|discriminate].
Defined.
