(* ===== verification/Typing.v ===== *)
(** * Typed text is shown

    From bytes to cells: the actions of the parser drive the terminal, and a
    line of text fed to a terminal is read back from the row of the cursor. *)

From stdpp Require Import base list gmap strings.
From S2P Require Import Prelude RustStd Cell CellProps Row RowInv RowProps Coord Grid GridInv GridSteps GridOps Reflow Composed Vt VtInv VtProps Update Terminal RowEdits TerminalInv TerminalSteps TerminalControl TerminalPrint TerminalDispatch TerminalProps Session SessionProps.

#[local] Open Scope Z_scope.

(** ** The text of a row *)

Definition row_text (x : Row) : list Z := cell_content <$> cells x.

(** The row holds a text and is empty after it. *)
Record holds_text (text : list Z) (x : Row) : Prop := {
  ht_scalar : Forall (λ c, is_scalar c = true) text;
  ht_text : row_text x = text ++ replicate (row_len x - length text) 0;
}.

Lemma scalar_narrow c : is_scalar (cell_content c) = true → continuation c = false.
Proof.
  unfold continuation, spacer_of, content. intros Hs. destruct (_ =? 0); [done|]. destruct (Z.ltb_spec (cell_content c) COMPOSED_BASE) as [|Hge].
  - by rewrite Hs.
  - unfold is_scalar in Hs. unfold COMPOSED_BASE in Hge. lia.
Qed.

Lemma holds_continues text x k : holds_text text x → continues (cells x) k = false.
Proof.
  intros [Hs Ht]. destruct (cells x !! k) as [c|] eqn:Hc; [|by unfold continues, spacer_at; rewrite Hc].
  assert (continues (cells x) k = continuation c) as -> by (unfold continues, spacer_at, continuation; by rewrite Hc).
  apply scalar_narrow. assert (row_text x !! k = Some (cell_content c)) as Hk by (unfold row_text; by rewrite list_lookup_fmap, Hc).
  rewrite Ht in Hk. apply lookup_app_Some in Hk as [Hk|[_ Hk]]; [by eapply (Forall_lookup_1 _ _ _ _ Hs)|].
  by apply lookup_replicate in Hk as [-> _].
Qed.

(** Wiping behind the text changes no content. *)
Lemma wiped_text P text x cs :
  holds_text text x → (∀ j, P j → (length text ≤ j)%nat) → wiped P (cells x) cs → cell_content <$> cs = row_text x.
Proof.
  intros Hx HP [Hlen Hw]. unfold row_text. apply list_eq. intros i. rewrite !list_lookup_fmap. destruct (Hw i) as [->|(Hd & j & Hj & Hjoin)]; [done|].
  assert (i = j) as <-.
  { destruct (decide (i = j)) as [|Hne]; [done|]. specialize (Hjoin (Nat.max i j) ltac:(lia)). by rewrite (holds_continues _ _ _ Hx) in Hjoin. }
  rewrite Hd. assert (i < row_len x)%nat as Hi by (apply lookup_lt_Some in Hd; unfold row_len; lia).
  rewrite <-list_lookup_fmap. fold (row_text x). rewrite (ht_text _ _ Hx), lookup_app_r by auto. symmetry.
  apply lookup_replicate_2. specialize (HP i Hj). lia.
Qed.

(** One more character. *)
Lemma holds_more text x cs c attrs :
  holds_text text x → (length text < row_len x)%nat → is_scalar c = true → length cs = row_len x → cell_content <$> cs = row_text x →
  holds_text (text ++ [c]) {| cells := take (length text) cs ++ glyph c 1 attrs ++ drop (S (length text)) cs; dirty := true; linebreak := true |}.
Proof.
  intros [Hs Ht] Hlen Hc Hcs Htext. split; [apply Forall_app; split; [done|by repeat constructor]|].
  unfold row_text, row_len. cbn [cells]. rewrite !fmap_app, fmap_take, fmap_drop, Htext, Ht.
  rewrite take_app_length. replace (S (length text)) with (length text + 1)%nat by lia. rewrite drop_app_add, drop_replicate.
  change (cell_content <$> glyph c 1 attrs) with [c]. rewrite <-app_assoc. do 3 f_equal.
  rewrite !length_app, length_take, length_drop, Hcs. simpl. lia.
Qed.

Section session.
Context {W : UnicodeWidth} {I : ImagePlane} (image_action : Action → M Terminal unfinished unit).

(** ** Driven by the parser's actions *)

Lemma handle_dispatch a s t :
  is_image a = false → resets a = false → dispatch a (terminal s) = (Ok tt, t) →
  handle image_action a s = (Ok tt, {| parser := parser s; terminal := t |}).
Proof using Type. intros Hi Hr Hd. rewrite handle_dispatched, Hd by done. unfold parser_after. by rewrite Hr. Qed.

Definition ordinary (a : Action) : Prop := is_image a = false ∧ resets a = false.

(** A round with at most one action. *)
Lemma handle_option a s t :
  Forall ordinary (option_list a) → for_each (option_list a) dispatch (terminal s) = (Ok tt, t) →
  match a with Some a => handle image_action a | None => ret tt end s = (Ok tt, {| parser := parser s; terminal := t |}).
Proof using Type.
  destruct a as [a|]; simpl.
  - intros [[Hi Hr] _]%Forall_cons. unfold bind. destruct (dispatch a (terminal s)) as [[[]|e|] t1] eqn:Hd; try done.
    intros [= <-]. by apply handle_dispatch.
  - intros _ [= <-]. by destruct s.
Qed.

Lemma process_dispatch byte s p actions t :
  feed_byte byte (parser s) = Ok (p, actions) → Forall ordinary actions →
  for_each actions dispatch (terminal s) = (Ok tt, t) →
  process image_action 2 byte s = (Ok tt, {| parser := p; terminal := t |}).
Proof using Type.
  intros Hf Ho Hd. cbn [process]. unfold bind at 1, get.
  destruct (feed_byte_cases _ _ _ _ Hf) as [(a & H1 & ->)|(p1 & a1 & a2 & H1 & H2 & ->)]; rewrite H1.
  - unfold bind, put. rewrite (handle_option a {| parser := p; terminal := terminal s |} t) by done. done.
  - apply Forall_app in Ho as [Ho1 Ho2]. rewrite for_each_app in Hd. unfold bind at 1 in Hd.
    destruct (for_each (option_list a1) dispatch (terminal s)) as [[[]|e|] t1] eqn:Hd1; try done.
    unfold bind at 1 2, put. rewrite (handle_option a1 {| parser := p1; terminal := terminal s |} t1) by done.
    unfold bind at 1, get. cbn [parser terminal]. rewrite H2. unfold bind, put.
    by rewrite (handle_option a2 {| parser := p; terminal := t1 |} t).
Qed.

Lemma advance_dispatches bytes s p actions t :
  Vt.advance bytes (parser s) = Ok (p, actions) → Forall ordinary actions →
  for_each actions dispatch (terminal s) = (Ok tt, t) →
  advance image_action bytes s = (Ok tt, {| parser := p; terminal := t |}).
Proof using Type.
  revert s actions. induction bytes as [|b bytes IH]; intros s actions.
  { intros [= <- <-] _ [= <-]. by destruct s. }
  cbn [Vt.advance]. destruct (feed_byte b (parser s)) as [[p1 l1]| |] eqn:Hf; try done. cbn [obind].
  destruct (Vt.advance bytes p1) as [[p2 l2]| |] eqn:Ha; try done. cbn [obind]. intros [= <- <-] [Ho1 Ho2]%Forall_app Hd.
  rewrite for_each_app in Hd. unfold bind in Hd. destruct (for_each l1 dispatch (terminal s)) as [[[]|e|] t1] eqn:Hd1; try done.
  rewrite session_advance_cons. unfold bind. rewrite (process_dispatch b s p1 l1 t1) by done. by apply (IH _ l2).
Qed.

(** ** Typing a line *)

(** The text before the cursor, with a wrap pending when the row is full. *)
Record typed (r : Z) (text : list Z) (t : Terminal) : Prop := {
  ty_row : ∃ x, row r (grid t) = Some x ∧ holds_text text x;
  ty_at : cursor_row (cursor (grid t)) = r;
  ty_column : cursor_column (cursor (grid t)) = Z.min (Z.of_nat (length text)) (columns (normal t) - 1);
  ty_wrap : deferred_wrap (cursor (grid t)) = auto_margin (modes t) && (columns (normal t) <=? Z.of_nat (length text));
  ty_insert : insert_mode (modes t) = false;
}.

(** A character of one column that the parser prints. *)
Definition narrow (c : Z) : Prop := printable c = true ∧ char_width c = Some 1.

Lemma narrow_scalar c : narrow c → is_scalar c = true ∧ c ≠ 0.
Proof using Type. intros [Hp _]. unfold printable in Hp. apply andb_true_iff in Hp as [[? ?%Z.leb_le]%andb_true_iff _]. split; [done|lia]. Qed.

(** The character was printed in the row it belongs to. *)
Lemma shows_typed r text c t t' :
  terminal_ok t → typed r text t → narrow c → Z.of_nat (length text) < columns (normal t) →
  shows c 1 t t' → columns (normal t') = columns (normal t) → modes t' = modes t → typed r (text ++ [c]) t'.
Proof using Type.
  intros Ht [(x & Hx & Htext) Hr Hc Hwr Hi] Hn Hlen (Hcur & _ & x' & cs & Hx' & Hw & Hrow) Hcol Hm.
  destruct (narrow_scalar c Hn) as [Hs _]. destruct (screen_row t r Ht) as (y & Hy & _ & Hlen').
  { rewrite <-Hr. apply (cursor_on_screen t Ht). }
  rewrite Hr, Hx in Hx'. injection Hx' as <-. rewrite Hx in Hy. injection Hy as <-. rewrite Z.min_l in Hc by lia. rewrite Hc, Hr in *.
  replace (Z.to_nat (Z.of_nat (length text) + 1)) with (S (length text)) in Hrow by lia. rewrite Nat2Z.id in Hrow.
  pose proof Hw as [Hcs _]. assert (row_text x = cell_content <$> cs) as Heq by (symmetry; eapply wiped_text; [done| |done]; simpl; lia).
  unfold past_character in Hcur. rewrite Hc, Hr, grid_columns in Hcur by done. split; rewrite ?length_app; cbn [length].
  - eexists. split; [exact Hrow|]. apply (holds_more _ x); [done|lia|done|done|done].
  - rewrite Hcur. by case_match.
  - rewrite Hcur, Hcol. destruct (Z.leb_spec (columns (normal t)) (Z.of_nat (length text) + 1)); unfold cursor_column; simpl; lia.
  - rewrite Hcur, Hcol, Hm. replace (Z.of_nat (length text + 1)) with (Z.of_nat (length text) + 1) by lia.
    destruct (Z.leb_spec (columns (normal t)) (Z.of_nat (length text) + 1)); [by rewrite andb_true_r|]. rewrite andb_false_r.
    change (deferred_wrap (cursor (grid t)) = false). by rewrite Hwr, (proj2 (Z.leb_gt _ _)), andb_false_r by lia.
  - by rewrite Hm.
Qed.

(** The rows of the screen but one. *)
Definition elsewhere (r : Z) (t t' : Terminal) : Prop :=
  ∀ r', 0 ≤ r' < screen_rows (normal t) → r' ≠ r → row r' (grid t') = row r' (grid t).

Lemma type_one r text c t :
  terminal_ok t → fits (2 ^ 38) t → t_revision t < u64_max → typed r text t → narrow c →
  Z.of_nat (length text) < columns (normal t) →
  ∃ t', dispatch (Print c) t = (Ok tt, t') ∧ typed r (text ++ [c]) t' ∧ elsewhere r t t' ∧ settings t' = settings t ∧ terminal_ok t' ∧
    spends (2 ^ 37) (normal t) (normal t') ∧ spends (2 ^ 37) (alternate t) (alternate t') ∧ t_revision t' ≤ t_revision t + 1.
Proof using Type.
  intros Ht Hf Hrev Hty Hn Hlen. destruct (narrow_scalar c Hn) as [Hs Hnz]. pose proof Hty as [_ Hr Hc Hw Hi].
  set (t0 := set_current_change (Some ChangeSet_default) t).
  destruct (dispatch_ensures (Print c) t (λ t1, shows c 1 t0 t1 ∧ settings t1 = settings t)) as
    (t1 & t' & [Hsh Hset] & [Eg Em Ea _] & Hrun & Hok & _ & _ & Hsn & Hsa & Hrv); [done..| |].
  { eapply ensures_mono; [|eapply ensures_le; [|apply print_shows]]; try done.
    - cbn [dispatch_inner from_action hint_spec]. rewrite (proj2 Hn). by intros [] t1 _ [? ?].
    - rewrite (proj2 Hn). simpl. lia.
    - change (deferred_wrap (cursor (grid t)) = false). by rewrite Hw, (proj2 (Z.leb_gt _ _)), andb_false_r by lia.
    - intros _. rewrite (proj2 Hn). change (cursor_column (cursor (grid t)) + 1 ≤ columns (normal t)). lia. }
  assert (shows c 1 t t') as Hshows by (unfold shows in *; rewrite Eg; exact Hsh).
  assert (modes t' = modes t) as Hm by (rewrite Em; by injection Hset).
  exists t'. split_and!; try done; [..|lia].
  - apply (shows_typed r text c t); try done. apply Hsn.
  - intros r' Hr' Hne. apply Hshows; [done|]. congruence.
  - unfold settings in *. rewrite Em, Ea. done.
Qed.

Lemma type_text r text more t :
  terminal_ok t → fits (2 ^ 38 + Z.of_nat (length more) * 2 ^ 37) t → t_revision t + Z.of_nat (length more) ≤ u64_max →
  typed r text t → Forall narrow more → Z.of_nat (length text + length more) ≤ columns (normal t) →
  ∃ t', for_each (Print <$> more) dispatch t = (Ok tt, t') ∧ typed r (text ++ more) t' ∧ elsewhere r t t' ∧ terminal_ok t' ∧
    columns (normal t') = columns (normal t) ∧ settings t' = settings t.
Proof using Type.
  intros Ht Hf Hrev Hty Hn. revert text t Ht Hf Hrev Hty.
  induction Hn as [|c more Hc _ IH]; intros text t Ht Hf Hrev Hty Hlen; cbn [fmap list_fmap for_each].
  { exists t. rewrite app_nil_r. by split_and!. }
  cbn [length] in *. destruct (type_one r text c t) as (t1 & Hrun & Hty1 & He1 & Hset1 & Ht1 & Hsn & Hsa & Hrev1); try done; try lia.
  { destruct Hf. split; (eapply spare_le; [|done]; lia). }
  destruct (IH (text ++ [c]) t1) as (t2 & Hrun2 & Hty2 & He2 & Ht2 & Hcol2 & Hset2); try done.
  - destruct Hf. split; (eapply spends_spare; [done|]; eapply spare_le; [|done]; lia).
  - lia.
  - rewrite length_app, (sp_columns _ _ _ Hsn). simpl. lia.
  - exists t2. unfold bind. rewrite Hrun. rewrite <-app_assoc in Hty2. split_and!; try done.
    + intros r' Hr' Hne. rewrite He2, He1; try done. by rewrite (sp_screen _ _ _ Hsn).
    + by rewrite Hcol2, (sp_columns _ _ _ Hsn).
    + by rewrite Hset2.
Qed.

Lemma new_row_text columns : 0 < columns → holds_text [] (Row_new (Z.to_nat columns)).
Proof using Type.
  intros Hc. split; [constructor|]. unfold row_text, row_len, Row_new, mark_cells_clean. cbn [cells].
  rewrite !fmap_replicate, length_replicate. simpl. by rewrite Nat.sub_0_r.
Qed.

(** C2. A line of text fed to a new terminal is shown: the UTF-8 bytes of any
    printable characters of one column that fit the width are consumed, the
    first row reads back exactly these characters followed by empty cells, the
    other rows are empty, and the cursor is behind the text, or on the last
    column with a wrap pending when the row is full. *)
Theorem typed_text_shown columns rows c s text :
  Session_new columns rows c = Ok s → limits_ok c →
  Forall narrow text → Z.of_nat (length text) ≤ columns → Z.of_nat (length text) ≤ 2 ^ 26 →
  ∃ s', advance image_action (text ≫= encode_utf8) s = (Ok tt, s') ∧
    row_text <$> row 0 (grid (terminal s')) = Some (text ++ replicate (Z.to_nat columns - length text) 0) ∧
    (∀ r, 0 < r < rows → row_text <$> row r (grid (terminal s')) = Some (replicate (Z.to_nat columns) 0)) ∧
    position (cursor (grid (terminal s'))) = {| coord_column := Z.min (Z.of_nat (length text)) (columns - 1); coord_row := 0 |} ∧
    deferred_wrap (cursor (grid (terminal s'))) = (columns <=? Z.of_nat (length text)).
Proof using Type.
  intros Hnew Hlim Hn Hlen Hmax. destruct (Session_new_ok _ _ _ _ Hnew Hlim) as (Hs & Hcfg & Hp & Hcol & Hrow & Hact & Hm & Hcur & Hrows).
  destruct Hs as [_ Ht Hf Hrev]. pose proof (ok_dimensions _ Ht) as Hd. rewrite Hcol, Hrow in Hd.
  assert (grid (terminal s) = normal (terminal s)) as Hg by (unfold grid; by rewrite Hact).
  assert (typed 0 [] (terminal s)) as Hty.
  { split; rewrite ?Hg, ?Hcur, ?Hm, ?Hcol; try done.
    - eexists. split; [apply Hrows; lia|]. apply new_row_text. lia.
    - simpl. unfold cursor_column. simpl. lia.
    - simpl. symmetry. apply Z.leb_gt. lia. }
  destruct (type_text 0 [] text (terminal s)) as (t' & Hrun & Hty' & He & Ht' & Hcol' & Hset); try done.
  - destruct Hf. split; (eapply spare_le; [|done]; lia).
  - lia.
  - by rewrite Hcol.
  - destruct (advance_text text (parser s)) as (p' & Hadv & _); [by rewrite Hp|by eapply Forall_impl; [exact Hn|intros ? []]|].
    exists {| parser := p'; terminal := t' |}. split.
    { apply (advance_dispatches _ _ p' (Print <$> text)); [done| |done]. by apply Forall_fmap, Forall_true. }
    rewrite Hcol in Hcol'. destruct Hty' as [(x & Hx & Htext) Hr' Hc' Hw' _]. rewrite Hcol' in Hc', Hw'. cbn [terminal app] in *.
    destruct (screen_row t' 0 Ht') as (y & Hy & _ & Hly); [destruct (cursor_on_screen t' Ht') as [_ Hon]; by rewrite Hr' in Hon|].
    rewrite Hx in Hy. injection Hy as <-. split_and!.
    + rewrite Hx. simpl. f_equal. rewrite (ht_text _ _ Htext). do 2 f_equal. lia.
    + intros r Hr. rewrite He by (rewrite ?Hrow; lia). rewrite Hg, Hrows by lia. simpl. f_equal.
      rewrite (ht_text _ _ (new_row_text columns ltac:(lia))). simpl. f_equal. rewrite Nat.sub_0_r.
      unfold row_len, Row_new, mark_cells_clean. cbn [cells]. by rewrite fmap_replicate, length_replicate.
    + unfold cursor_row, cursor_column in *. destruct (position _). simpl in *. by subst.
    + rewrite Hw'. injection Hset as Hmode _. by rewrite Hmode, Hm.
Qed.
End session.

(** ** Witnesses *)

#[local] Existing Instance example_width.
#[local] Existing Instance no_images.

Lemma typed_text_shown_witness :
  ∃ s', advance no_action ([97; 0xe9; 122] ≫= encode_utf8) ex_session = (Ok tt, s') ∧
    row_text <$> row 0 (grid (terminal s')) = Some [97; 0xe9; 122; 0].
Proof.
  destruct (typed_text_shown no_action 4 2 ex_config ex_session [97; 0xe9; 122]) as (s' & H1 & H2 & _);
    [exact ex_session_new|split; simpl; lia|repeat constructor|simpl; lia|simpl; lia|exists s'; exact (conj H1 H2)].
Defined.
