(* ===== verification/Policy.v ===== *)
(** * The persistent automation policy ([splinterm-policy/src/policy.rs])

    Rules that let a local executable use automation scopes on parts of the
    topology, the loading and validation of the document that holds them, and
    the store that publishes a generation of it and answers requests.

    Errors are [anyhow] errors, of which only [to_string] is observed: the
    message of the outermost context. A [HashMap] is a [gmap]; the resources a
    rule resolves to are listed in the order of their insertion, where the code
    has the arbitrary order of a [HashSet]. The file system, the JSON decoder
    and the clock are arguments. *)

From Stdlib Require Import String.
From stdpp Require Import gmap.
From S2P Require Import Prelude RustStd Layout Topology.

Definition MAX_POLICY_BYTES : Z := 256 * 1024.
Definition MAX_RULES : Z := 64.
Definition MAX_RESOURCES : Z := 64.
Definition MAX_RULE_ID_BYTES : Z := 64.
Definition MAX_RULE_SCOPES : Z := 19.
Definition MAX_PATH_BYTES : Z := 4096.
Definition MAX_DIAGNOSTIC_BYTES : nat := 512.
Definition MAX_RESOLVED_RESOURCES_PER_RULE : Z := 512.

(** ** Data *)

Inductive AutomationScope :=
| TopologyMetadataRead
| TopologySubscribe
| TerminalVisibleRead
| TerminalSubscribe
| ScrollbackRead
| ScrollbackSearch
| ControllerAcquire
| ControllerTransfer
| Input
| Resize
| ProcessSpawn
| ProcessRestore
| ProcessTerminate
| TopologyLayoutMutate
| TopologyNameMutate
| AuthorizationInspect
| AuthorizationRevoke
| AuditInspect
| AgentStatusReport.

#[global] Instance AutomationScope_eq_dec : EqDecision AutomationScope.
Proof. solve_decision. Defined.

Inductive IncarnationSelector :=
| Exact (n : Z)
| Current (value : str).

#[global] Instance IncarnationSelector_eq_dec : EqDecision IncarnationSelector.
Proof. solve_decision. Defined.

Inductive ResourceSelector :=
| SelectDaemon
| SelectLair (lair : LairId)
| SelectDojo (dojo : DojoId)
| SelectSplint (splint : SplintId) (incarnation : IncarnationSelector).

#[global] Instance ResourceSelector_eq_dec : EqDecision ResourceSelector.
Proof. solve_decision. Defined.

Inductive ResolvedResourceSelector :=
| ResolvedDaemon
| ResolvedLair (lair : LairId)
| ResolvedDojo (dojo : DojoId)
| ResolvedSplint (splint : SplintId) (incarnation : IncarnationSelector).

#[global] Instance ResolvedResourceSelector_eq_dec : EqDecision ResolvedResourceSelector.
Proof. solve_decision. Defined.

Record PolicyLimits := {
  max_returned_rows : option Z;
  max_results : option Z;
  max_returned_bytes : option Z;
  max_live_subscriptions : option Z;
  max_spawn_count : option Z;
  max_deadline_ms : option Z;
}.

Record RequestedLimits := {
  returned_rows : option Z;
  results : option Z;
  returned_bytes : option Z;
  live_subscriptions : option Z;
  spawn_count : option Z;
  deadline_ms : option Z;
}.

(** [RequestedLimits::default()]. *)
Definition RequestedLimits_default : RequestedLimits :=
  {| returned_rows := None; results := None; returned_bytes := None;
     live_subscriptions := None; spawn_count := None; deadline_ms := None |}.

Inductive PolicyResource :=
| ResourceDaemon
| ResourceLair (lair : LairId)
| ResourceDojo (lair : LairId) (dojo : DojoId)
| ResourceSplint (lair : LairId) (dojo : DojoId) (splint : SplintId) (incarnation : option Z).

#[global] Instance PolicyResource_eq_dec : EqDecision PolicyResource.
Proof. solve_decision. Defined.

Record PolicyRequest := {
  required_scopes : list AutomationScope;
  any_scope : list AutomationScope;
  requested_resources : list PolicyResource;
  requested_limits : RequestedLimits;
}.

Record PolicyMatch := {
  match_rule_id : str;
  match_max_spawn_count : option Z;
  match_max_returned_bytes : option Z;
}.

Record ExecutableMatcher := {
  matcher_path : PathBuf;
  matcher_sha256 : str;
}.

Record ExecutableIdentity := {
  path : PathBuf;
  device : Z;
  inode : Z;
  owner_uid : Z;
  file_mode : Z;
  file_size : Z;
  sha256 : str;
}.

Record PolicyRule := {
  rule_id : str;
  executable : ExecutableMatcher;
  expires_at_unix_seconds : option Z;
  scopes : list AutomationScope;
  resources : list ResourceSelector;
  limits : PolicyLimits;
}.

Record PolicyDocument := {
  schema : str;
  rules : list PolicyRule;
  resolved_resources : gmap str (list ResolvedResourceSelector);
}.

Record PersistentAuthorizationStatus := {
  status_policy_rule_id : str;
  status_scopes : list AutomationScope;
  status_expires_at_unix_seconds : option Z;
}.

Definition policy_schema : str := lit "splinterm.policy.v2".

Definition deny_all : PolicyDocument :=
  {| schema := policy_schema; rules := []; resolved_resources := ∅ |}.

Definition set_resolved_resources (r : gmap str (list ResolvedResourceSelector))
    (d : PolicyDocument) : PolicyDocument :=
  {| schema := schema d; rules := rules d; resolved_resources := r |}.

(** [if b { bail!(message) }]. *)
Definition bail_if (b : bool) (message : str) : outcome str unit :=
  if b then Err message else Ok tt.

(** [result.context(message)?]. *)
Definition context {A} (message : string) (r : outcome str A) : outcome str A :=
  match r with Err _ => Err (lit message) | _ => r end.

(** [option.context(message)?], also on a result of which only success is kept. *)
Definition some_or_bail {A} (message : string) (o : option A) : outcome str A :=
  match o with Some a => Ok a | None => Err (lit message) end.

Definition is_none_or {A} (p : A → bool) (o : option A) : bool :=
  match o with Some a => p a | None => true end.

Definition is_some_and {A} (p : A → bool) (o : option A) : bool :=
  match o with Some a => p a | None => false end.

(** ** Matching a request *)

Definition resolved_matches (selector : ResolvedResourceSelector) (resource : PolicyResource) : bool :=
  match selector, resource with
  | ResolvedDaemon, ResourceDaemon => true
  | ResolvedLair expected, ResourceLair lair_id => expected =? lair_id
  | ResolvedDojo expected, ResourceDojo _ dojo_id => expected =? dojo_id
  | ResolvedSplint splint_id incarnation, ResourceSplint _ _ requested_id requested_incarnation =>
      (splint_id =? requested_id) &&
      match incarnation with
      | Exact expected => bool_decide (Some expected = requested_incarnation)
      | Current value => bool_decide (value = lit "current")
      end
  | _, _ => false
  end.

Definition limit_allows (allowed requested : option Z) : bool :=
  is_none_or (λ requested, is_some_and (λ allowed, requested <=? allowed) allowed) requested.

Definition allows (l : PolicyLimits) (requested : RequestedLimits) : bool :=
  limit_allows (max_returned_rows l) (returned_rows requested) &&
  limit_allows (max_results l) (results requested) &&
  limit_allows (max_returned_bytes l) (returned_bytes requested) &&
  limit_allows (max_live_subscriptions l) (live_subscriptions requested) &&
  limit_allows (max_spawn_count l) (spawn_count requested) &&
  limit_allows (max_deadline_ms l) (deadline_ms requested).

(** [slice.contains(&x)]. *)
Definition contains `{EqDecision A} (l : list A) (x : A) : bool := bool_decide (x ∈ l).

Definition rule_matches (rule : PolicyRule) (exe : ExecutableIdentity) (request : PolicyRequest)
    (resolved : list ResolvedResourceSelector) (now_unix_seconds : Z) : bool :=
  path_eq (matcher_path (executable rule)) (path exe) &&
  bool_decide (matcher_sha256 (executable rule) = sha256 exe) &&
  is_none_or (λ expiration, now_unix_seconds <? expiration) (expires_at_unix_seconds rule) &&
  negb (bool_decide (requested_resources request = [])) &&
  forallb (contains (scopes rule)) (required_scopes request) &&
  (bool_decide (any_scope request = []) || existsb (contains (scopes rule)) (any_scope request)) &&
  forallb (λ resource, existsb (λ selector, resolved_matches selector resource) resolved)
    (requested_resources request) &&
  allows (limits rule) (requested_limits request).

Definition match_of (rule : PolicyRule) : PolicyMatch :=
  {| match_rule_id := rule_id rule;
     match_max_spawn_count := max_spawn_count (limits rule);
     match_max_returned_bytes := max_returned_bytes (limits rule) |}.

Definition document_authorize (d : PolicyDocument) (exe : ExecutableIdentity)
    (request : PolicyRequest) (now_unix_seconds : Z) : option PolicyMatch :=
  find_map (λ rule,
    match resolved_resources d !! rule_id rule with
    | None => None
    | Some resolved =>
        if rule_matches rule exe request resolved now_unix_seconds then Some (match_of rule) else None
    end) (rules d).

Definition document_status (d : PolicyDocument) (exe : ExecutableIdentity)
    (resource : PolicyResource) (now_unix_seconds : Z) : list PersistentAuthorizationStatus :=
  (λ rule, {| status_policy_rule_id := rule_id rule; status_scopes := scopes rule;
              status_expires_at_unix_seconds := expires_at_unix_seconds rule |}) <$>
  filter (λ rule,
    path_eq (matcher_path (executable rule)) (path exe) &&
    bool_decide (matcher_sha256 (executable rule) = sha256 exe) &&
    is_none_or (λ expiration, now_unix_seconds <? expiration) (expires_at_unix_seconds rule) &&
    is_some_and (existsb (λ selector, resolved_matches selector resource))
      (resolved_resources d !! rule_id rule) = true) (rules d).

(** ** Resolving selectors against a topology *)

Definition insert_resolved (resource : ResolvedResourceSelector)
    : M (list ResolvedResourceSelector) str unit :=
  do! modify (hs_insert resource) in
  let! resources := get in
  reject_if (MAX_RESOLVED_RESOURCES_PER_RULE <? Z.of_nat (length resources))
    (lit "policy rule expands beyond " ++ to_string MAX_RESOLVED_RESOURCES_PER_RULE ++
     lit " snapshot resources").

Fixpoint resolve_layout (node : LayoutNode) : M (list ResolvedResourceSelector) str unit :=
  match node with
  | Leaf splint => insert_resolved (ResolvedSplint (splint_id splint) (Current (lit "current")))
  | Branch _ _ first second =>
      do! resolve_layout first in
      resolve_layout second
  end.

(** The body of the loop over a rule's selectors. *)
Definition resolve_selector (t : Topology) (selector : ResourceSelector)
    : M (list ResolvedResourceSelector) str unit :=
  match selector with
  | SelectDaemon => insert_resolved ResolvedDaemon
  | SelectLair id =>
      let! lair := lift (some_or_bail
        "policy Lair selector is not present in the topology snapshot" (find_lair t id)) in
      do! insert_resolved (ResolvedLair (lair_id lair)) in
      for_each (dojos lair) (λ dojo,
        do! insert_resolved (ResolvedDojo (dojo_id dojo)) in
        resolve_layout (root dojo))
  | SelectDojo id =>
      let! dojo := lift (some_or_bail
        "policy Dojo selector is not present in the topology snapshot" (find_dojo t id)) in
      do! insert_resolved (ResolvedDojo (dojo_id dojo)) in
      resolve_layout (root dojo)
  | SelectSplint id incarnation =>
      let! _ := lift (some_or_bail
        "policy Splint selector is not present in the topology snapshot" (find_splint_in t id)) in
      insert_resolved (ResolvedSplint id incarnation)
  end.

(** The body of the loop over the rules: the selectors fill an empty set. *)
Definition resolve_rule (t : Topology) (rule : PolicyRule)
    : outcome str (list ResolvedResourceSelector) :=
  let '(r, set) := for_each (resources rule) (resolve_selector t) [] in
  let? _ := r in Ok set.

Fixpoint resolve_rules (t : Topology) (l : list PolicyRule)
    (resolved : gmap str (list ResolvedResourceSelector))
    : outcome str (gmap str (list ResolvedResourceSelector)) :=
  match l with
  | [] => Ok resolved
  | rule :: l =>
      let? set := resolve_rule t rule in
      resolve_rules t l (<[rule_id rule := set]> resolved)
  end.

Definition resolve_against (t : Topology) : M PolicyDocument str unit :=
  let! d := get in
  let! resolved := lift (resolve_rules t (rules d) ∅) in
  put (set_resolved_resources resolved d).

(** ** Validation *)

Definition populated_fields (l : PolicyLimits) : Z :=
  Z.of_nat (length (filter (λ present, present = true)
    [bool_decide (is_Some (max_returned_rows l)); bool_decide (is_Some (max_results l));
     bool_decide (is_Some (max_returned_bytes l)); bool_decide (is_Some (max_live_subscriptions l));
     bool_decide (is_Some (max_spawn_count l)); bool_decide (is_Some (max_deadline_ms l))])).

Definition bounded (value : option Z) (maximum : Z) (name : string) : outcome str unit :=
  bail_if (is_some_and (λ value, (value =? 0) || (maximum <? value)) value)
    (lit name ++ lit " is outside policy bounds").

Definition limits_validate (l : PolicyLimits) : outcome str unit :=
  let? _ := bail_if (populated_fields l =? 0) (lit "policy limits must contain at least one bound") in
  let? _ := bounded (max_returned_rows l) 80 "max_returned_rows" in
  let? _ := bounded (max_results l) 64 "max_results" in
  let? _ := bounded (max_returned_bytes l) (8 * 1024 * 1024) "max_returned_bytes" in
  let? _ := bounded (max_live_subscriptions l) 4 "max_live_subscriptions" in
  let? _ := bounded (max_spawn_count l) 64 "max_spawn_count" in
  bail_if (is_some_and (λ value, (value =? 0) || (300000 <? value)) (max_deadline_ms l))
    (lit "deadline_ms is outside policy bounds").

(** [matches!(component, Component::RootDir | Component::Normal(_))]. *)
Definition root_or_normal (c : Component) : bool :=
  match c with RootDir | Normal _ => true | CurDir | ParentDir => false end.

Definition validate_policy_path (p : PathBuf) : outcome str unit :=
  let? _ := bail_if
    (bool_decide (p = []) || (MAX_PATH_BYTES <? Z.of_nat (length p)) || negb (is_absolute p))
    (lit "policy path must be a bounded absolute path") in
  bail_if (existsb (λ component, negb (root_or_normal component)) (components p))
    (lit "policy path must be canonical").

(** The loop over a rule's resources. *)
Fixpoint validate_incarnations (l : list ResourceSelector) : outcome str unit :=
  match l with
  | [] => Ok tt
  | resource :: l =>
      let? _ :=
        match resource with
        | SelectSplint _ (Exact value) =>
            bail_if (value =? 0) (lit "policy Splint incarnation must be nonzero")
        | SelectSplint _ (Current value) =>
            bail_if (negb (bool_decide (value = lit "current")))
              (lit "policy current incarnation selector is invalid")
        | _ => Ok tt
        end in
      validate_incarnations l
  end.

Definition validate_rule (rule : PolicyRule) (now : Z) : outcome str unit :=
  let id := str_bytes (rule_id rule) in
  let? _ := bail_if
    (match id with
     | [] => true
     | first :: _ =>
         (MAX_RULE_ID_BYTES <? Z.of_nat (length id)) || negb (is_ascii_lowercase first) ||
         negb (forallb (λ byte, is_ascii_lowercase byte || is_ascii_digit byte || (byte =? 45)) id)
     end) (lit "policy rule ID is invalid") in
  let? _ := context "invalid executable policy path"
    (validate_policy_path (matcher_path (executable rule))) in
  let digest := str_bytes (matcher_sha256 (executable rule)) in
  let? _ := bail_if
    (negb (Z.of_nat (length digest) =? 64) ||
     negb (forallb (λ byte, is_ascii_digit byte || ((97 <=? byte) && (byte <=? 102))) digest))
    (lit "policy executable SHA-256 is invalid") in
  let? _ := bail_if (is_some_and (λ expiration, expiration <=? now) (expires_at_unix_seconds rule))
    (lit "policy contains an expired rule") in
  let? _ := bail_if
    (bool_decide (scopes rule = []) || (MAX_RULE_SCOPES <? Z.of_nat (length (scopes rule))))
    (lit "policy rule scopes are empty or exceed limits") in
  let? _ := bail_if (negb (length (hs_collect (scopes rule)) =? length (scopes rule))%nat)
    (lit "policy rule scopes must be unique") in
  let? _ := bail_if
    (bool_decide (resources rule = []) || (MAX_RESOURCES <? Z.of_nat (length (resources rule))))
    (lit "policy rule resources are empty or exceed limits") in
  let? _ := bail_if (negb (length (hs_collect (resources rule)) =? length (resources rule))%nat)
    (lit "policy rule resources must be unique") in
  let? _ := validate_incarnations (resources rule) in
  limits_validate (limits rule).

(** The loop over the rules; [ids] are the identifiers seen so far. *)
Fixpoint validate_rules (l : list PolicyRule) (now : Z) (ids : gset str) : outcome str unit :=
  match l with
  | [] => Ok tt
  | rule :: l =>
      let? _ := validate_rule rule now in
      let? _ := bail_if (bool_decide (rule_id rule ∈ ids)) (lit "policy rule IDs must be unique") in
      validate_rules l now ({[rule_id rule]} ∪ ids)
  end.

Definition validate_document (d : PolicyDocument) (now : Z) : outcome str unit :=
  let? _ := bail_if (negb (bool_decide (schema d = policy_schema))) (lit "unsupported policy schema") in
  let? _ := bail_if (MAX_RULES <? Z.of_nat (length (rules d))) (lit "policy contains too many rules") in
  validate_rules (rules d) now ∅.

Definition bounded_diagnostic (message : str) : str := take MAX_DIAGNOSTIC_BYTES message.

(** ** Loading *)

(** [std::fs::Metadata]: what the code asks of it. *)
Record Metadata := {
  is_file : bool;
  nlink : Z;
  len : Z;
  uid : Z;
  mode : Z;
}.

(** The flags an open may carry besides [RDONLY | CLOEXEC]. *)
Record OFlags := {
  DIRECTORY : bool;
  NOFOLLOW : bool;
  NONBLOCK : bool;
}.

(** The file system as the loader sees it, and the JSON decoder, which leaves
    the skipped field to its default. [None] is any error of the call. *)
Class PolicyHost := {
  Fd : Type;
  open_root : OFlags → option Fd;
  openat : Fd → list Z → OFlags → option Fd;
  metadata : Fd → option Metadata;
  read_to_end : Fd → Z → option (list Z);
  geteuid : Z;
  from_slice : list Z → option (str * list PolicyRule);
  debug_component : list Z → str;
}.

Definition validate_policy_metadata `{PolicyHost} (m : Metadata) : outcome str unit :=
  let? _ := bail_if (negb (is_file m) || negb (nlink m =? 1))
    (lit "policy must be a regular file with one hard link") in
  let? _ := bail_if ((len m =? 0) || (MAX_POLICY_BYTES <? len m))
    (lit "policy size is outside 1..=" ++ to_string MAX_POLICY_BYTES ++ lit " bytes") in
  let owner := uid m in
  let daemon_uid := geteuid in
  let mode := Z.land (mode m) 511 in
  if owner =? daemon_uid then
    bail_if (negb (mode =? 384)) (lit "daemon-owned policy mode must be 0600")
  else
    bail_if (negb (owner =? 0) || negb (Z.land mode 18 =? 0))
      (lit "policy owner or write permissions are unsafe").

(** The names on a path, without its root. *)
Definition normal_components (p : PathBuf) : list (list Z) :=
  omap (λ component, match component with Normal name => Some name | _ => None end) (components p).

(** [for component in directories { directory = openat(..)?; }]. *)
Fixpoint open_directories `{PolicyHost} (directory : Fd) (directories : list (list Z))
    : outcome str Fd :=
  match directories with
  | [] => Ok directory
  | component :: directories =>
      match openat directory component
              {| DIRECTORY := true; NOFOLLOW := true; NONBLOCK := false |} with
      | None => Err (lit "cannot open policy directory component " ++ debug_component component)
      | Some directory => open_directories directory directories
      end
  end.

Definition open_without_symlinks `{PolicyHost} (p : PathBuf) : outcome str Fd :=
  let names := normal_components p in
  let? file_name := some_or_bail "policy path does not name a file" (last names) in
  let? directory := some_or_bail "cannot open policy root"
    (open_root {| DIRECTORY := true; NOFOLLOW := false; NONBLOCK := false |}) in
  let? directory := open_directories directory (removelast names) in
  some_or_bail "cannot open policy file"
    (openat directory file_name {| DIRECTORY := false; NOFOLLOW := true; NONBLOCK := true |}).

Definition read_bounded `{PolicyHost} (file : Fd) (expected_size : Z) : outcome str (list Z) :=
  let? bytes := some_or_bail "cannot read policy" (read_to_end file (MAX_POLICY_BYTES + 1)) in
  let? _ := bail_if (negb (Z.of_nat (length bytes) =? expected_size))
    (lit "policy changed while reading") in
  Ok bytes.

Definition inspect_file `{PolicyHost} (p : PathBuf) (now : Z) : outcome str PolicyDocument :=
  let? _ := validate_policy_path p in
  let? file := open_without_symlinks p in
  let? m := some_or_bail "cannot stat opened policy" (metadata file) in
  let? _ := validate_policy_metadata m in
  let? bytes := read_bounded file (len m) in
  let? (s, l) := some_or_bail "policy is not valid bounded JSON" (from_slice bytes) in
  let document := {| schema := s; rules := l; resolved_resources := ∅ |} in
  let? _ := validate_document document now in
  Ok document.

(** ** The store *)

Record PolicyGeneration := {
  generation_id : Z;
  document : PolicyDocument;
  generation_diagnostic : option str;
}.

Record PolicyStore := {
  generation : PolicyGeneration;
  spawn_counts : gmap str Z;
}.

Record PolicyCandidate := {
  candidate_document : PolicyDocument;
  candidate_diagnostic : option str;
}.

Definition PolicyStore_default : PolicyStore :=
  {| generation := {| generation_id := 1; document := deny_all; generation_diagnostic := None |};
     spawn_counts := ∅ |}.

Definition set_spawn_counts (c : gmap str Z) (s : PolicyStore) : PolicyStore :=
  {| generation := generation s; spawn_counts := c |}.

(** [None] is [Err tt]: the [?] of the code returns it early. The counter is
    created at zero before the bound is checked. *)
Definition store_authorize (exe : ExecutableIdentity) (request : PolicyRequest)
    (now_unix_seconds : Z) : M PolicyStore unit PolicyMatch :=
  let! s := get in
  let! matched := ok_or
    (document_authorize (document (generation s)) exe request now_unix_seconds) tt in
  match spawn_count (requested_limits request) with
  | None => ret matched
  | Some requested =>
      let! allowed := ok_or (match_max_spawn_count matched) tt in
      let used := default 0 (spawn_counts s !! match_rule_id matched) in
      do! modify (set_spawn_counts (<[match_rule_id matched := used]> (spawn_counts s))) in
      let! next := ok_or (checked_add64 used requested) tt in
      do! reject_if (allowed <? next) tt in
      do! modify (set_spawn_counts (<[match_rule_id matched := next]> (spawn_counts s))) in
      ret matched
  end.

Definition store_status (s : PolicyStore) (exe : ExecutableIdentity) (resource : PolicyResource)
    (now_unix_seconds : Z) : list PersistentAuthorizationStatus :=
  document_status (document (generation s)) exe resource now_unix_seconds.

Definition candidate_rejected (diagnostic : str) : PolicyCandidate :=
  {| candidate_document := deny_all;
     candidate_diagnostic := Some (bounded_diagnostic diagnostic) |}.

(** [inspect_file] has no panicking branch ([inspect_file_returns]). *)
Definition prepare `{PolicyHost} (p : option PathBuf) (now : Z) : PolicyCandidate :=
  match p with
  | None => {| candidate_document := deny_all; candidate_diagnostic := None |}
  | Some p =>
      match inspect_file p now with
      | Ok d => {| candidate_document := d; candidate_diagnostic := None |}
      | Err error => candidate_rejected error
      | Panic => candidate_rejected []
      end
  end.

(** What [publish] makes of a candidate; resolving has no panicking branch
    ([resolve_against_returns]). *)
Definition settle (candidate : PolicyCandidate) (t : Topology) : PolicyCandidate :=
  match candidate_diagnostic candidate with
  | Some _ => candidate
  | None =>
      match resolve_against t (candidate_document candidate) with
      | (Ok _, d) => {| candidate_document := d; candidate_diagnostic := None |}
      | (Err error, _) => candidate_rejected error
      | (Panic, _) => candidate_rejected []
      end
  end.

(** [id.saturating_add(1).max(1)]. *)
Definition next_generation_id (id : Z) : Z := Z.max (Z.min (id + 1) u64_max) 1.

Definition publish (candidate : PolicyCandidate) (t : Topology) : M PolicyStore unit PolicyGeneration :=
  let candidate := settle candidate t in
  let! s := get in
  let generation :=
    {| generation_id := next_generation_id (generation_id (generation s));
       document := candidate_document candidate;
       generation_diagnostic := candidate_diagnostic candidate |} in
  do! put {| generation := generation; spawn_counts := ∅ |} in
  ret generation.

Definition reload `{PolicyHost} (p : option PathBuf) (t : Topology) (now : Z)
    : M PolicyStore unit PolicyGeneration :=
  publish (prepare p now) t.
