(* ===== verification/PolicyInv.v ===== *)
(** * What a policy's resolution and validation compute

    The declarative meaning of a selector in a topology ([covers]), of a valid
    document ([document_valid]) and the facts that tie the loops of [Policy.v]
    to them. *)

From Stdlib Require Import String.
From stdpp Require Import gmap.
From S2P Require Import Prelude RustStd Layout Topology TopologyInv Policy.

(** ** Selectors *)

(** The Splints of a layout, at whatever incarnation. *)
Definition layout_resources (node : LayoutNode) : list ResolvedResourceSelector :=
  (λ s, ResolvedSplint (splint_id s) (Current (lit "current"))) <$> leaves node.

Definition dojo_resources (d : Dojo) : list ResolvedResourceSelector :=
  ResolvedDojo (dojo_id d) :: layout_resources (root d).

(** What a selector stands for in a topology; [None] when it names nothing. *)
Definition expand (t : Topology) (selector : ResourceSelector)
    : option (list ResolvedResourceSelector) :=
  match selector with
  | SelectDaemon => Some [ResolvedDaemon]
  | SelectLair id =>
      (λ lair, ResolvedLair (lair_id lair) :: (dojos lair ≫= dojo_resources)) <$> find_lair t id
  | SelectDojo id => dojo_resources <$> find_dojo t id
  | SelectSplint id incarnation => (λ _, [ResolvedSplint id incarnation]) <$> find_splint_in t id
  end.

(** [covers t sel r]: selector [sel] of a rule published against [t] grants
    the resource [r], as a request names it. A Lair grants itself, its Dojos
    and their Splints; a Dojo itself and its Splints; a Splint itself, at the
    incarnation it names. *)
Definition covers (t : Topology) (sel : ResourceSelector) (r : PolicyResource) : Prop :=
  match sel, r with
  | SelectDaemon, ResourceDaemon => True
  | SelectLair l, ResourceLair l' => l' = l ∧ is_Some (find_lair t l)
  | SelectLair l, ResourceDojo _ d => ∃ lair, find_lair t l = Some lair ∧ d ∈ lair_dojo_ids lair
  | SelectLair l, ResourceSplint _ _ s _ =>
      ∃ lair, find_lair t l = Some lair ∧ s ∈ lair_splint_ids lair
  | SelectDojo d, ResourceDojo _ d' => d' = d ∧ is_Some (find_dojo t d)
  | SelectDojo d, ResourceSplint _ _ s _ =>
      ∃ dojo, find_dojo t d = Some dojo ∧ s ∈ dojo_splint_ids dojo
  | SelectSplint s i, ResourceSplint _ _ s' i' =>
      s' = s ∧ s ∈ all_splint_ids t ∧
      match i with Exact n => i' = Some n | Current value => value = lit "current" end
  | _, _ => False
  end.

(** Inserting a list of resources, one at a time under the bound. *)
Definition insert_all (l : list ResolvedResourceSelector) : M (list ResolvedResourceSelector) str unit :=
  for_each l insert_resolved.

Lemma bind_for_each_app {S E A} (l1 l2 : list A) (body : A → M S E unit) :
  ∀ s, (do! for_each l1 body in for_each l2 body) s = for_each (l1 ++ l2) body s.
Proof. intros s. by rewrite for_each_app. Qed.

Lemma bind_ext {S E A B} (m m' : M S E A) (k k' : A → M S E B) s :
  m s = m' s → (∀ a s, k a s = k' a s) → bind m k s = bind m' k' s.
Proof. intros Hm Hk. unfold bind. rewrite Hm. destruct (m' s) as [[]?]; auto. Qed.

Lemma insert_all_one r s : insert_resolved r s = insert_all [r] s.
Proof. unfold insert_all. cbn [for_each]. unfold bind at 1. by destruct (insert_resolved r s) as [[[]| |] ?]. Qed.

Lemma resolve_layout_all node s : resolve_layout node s = insert_all (layout_resources node) s.
Proof.
  unfold layout_resources. revert s. induction node as [sp|ax ra f IHf g IHg]; intros s;
    cbn [resolve_layout leaves].
  { apply insert_all_one. }
  rewrite fmap_app. unfold insert_all. rewrite for_each_app. by apply bind_ext.
Qed.

Lemma resolve_dojo_all d s :
  (do! insert_resolved (ResolvedDojo (dojo_id d)) in resolve_layout (root d)) s =
  insert_all (dojo_resources d) s.
Proof.
  unfold dojo_resources, insert_all. cbn [for_each]. apply bind_ext; [done|].
  intros _ s'. apply resolve_layout_all.
Qed.

Lemma resolve_dojos_all l s :
  for_each l (λ dojo, do! insert_resolved (ResolvedDojo (dojo_id dojo)) in resolve_layout (root dojo)) s =
  insert_all (l ≫= dojo_resources) s.
Proof.
  revert s. induction l as [|d l IH]; intros s; [done|].
  rewrite bind_cons. unfold insert_all. rewrite for_each_app. cbn [for_each].
  apply bind_ext; [apply resolve_dojo_all|done].
Qed.

(** The code's traversal of a selector inserts what the selector stands for. *)
Lemma resolve_selector_expand t sel s :
  match expand t sel with
  | Some l => resolve_selector t sel s = insert_all l s
  | None => ∃ e, resolve_selector t sel s = (Err e, s)
  end.
Proof.
  destruct sel as [|l|d|sp i]; cbn [expand resolve_selector].
  - apply insert_all_one.
  - destruct (find_lair t l) as [lair|]; cbn [fmap option_fmap option_map some_or_bail]; [|by eexists].
    unfold insert_all. cbn [for_each]. change (bind (lift (Ok lair)) ?k s) with (k lair s).
    apply bind_ext; [done|]. intros _ s'. apply resolve_dojos_all.
  - destruct (find_dojo t d) as [dojo|]; cbn [fmap option_fmap option_map some_or_bail]; [|by eexists].
    change (bind (lift (Ok dojo)) ?k s) with (k dojo s). apply resolve_dojo_all.
  - destruct (find_splint_in t sp) as [x|]; cbn [fmap option_fmap option_map some_or_bail]; [|by eexists].
    change (bind (lift (Ok x)) ?k s) with (k x s). apply insert_all_one.
Qed.

Abbreviation extend := (foldl (λ s x, hs_insert x s)) (only parsing).
Abbreviation cap := MAX_RESOLVED_RESOURCES_PER_RULE (only parsing).

Lemma insert_resolved_run x s :
  insert_resolved x s =
  (if cap <? Z.of_nat (length (hs_insert x s))
   then Err (lit "policy rule expands beyond " ++ to_string cap ++ lit " snapshot resources")
   else Ok tt, hs_insert x s).
Proof.
  unfold insert_resolved, bind, modify, get, reject_if. by destruct (_ <? _).
Qed.

(** Insertion succeeds exactly when the resulting set is within the bound. *)
Lemma insert_all_run l s :
  Z.of_nat (length s) ≤ cap →
  (Z.of_nat (length (extend s l)) ≤ cap ∧ insert_all l s = (Ok tt, extend s l)) ∨
  (cap < Z.of_nat (length (extend s l)) ∧ ∃ e s', insert_all l s = (Err e, s')).
Proof.
  revert s. induction l as [|x l IH]; intros s Hs; [by left|].
  pose proof (hs_extend_length l (hs_insert x s)) as He.
  unfold insert_all. cbn [for_each foldl]. unfold bind. rewrite insert_resolved_run.
  destruct (Z.ltb_spec cap (Z.of_nat (length (hs_insert x s)))).
  - right. split; [lia|]. by eexists _, _.
  - by apply IH.
Qed.

(** Everything a list of selectors stands for. *)
Fixpoint expand_all (t : Topology) (l : list ResourceSelector)
    : option (list ResolvedResourceSelector) :=
  match l with
  | [] => Some []
  | sel :: l =>
      match expand t sel, expand_all t l with
      | Some a, Some b => Some (a ++ b)
      | _, _ => None
      end
  end.

Lemma resolve_selectors_run t l s :
  Z.of_nat (length s) ≤ cap →
  match expand_all t l with
  | Some rs =>
      (Z.of_nat (length (extend s rs)) ≤ cap ∧ for_each l (resolve_selector t) s = (Ok tt, extend s rs)) ∨
      (cap < Z.of_nat (length (extend s rs)) ∧ ∃ e s', for_each l (resolve_selector t) s = (Err e, s'))
  | None => ∃ e s', for_each l (resolve_selector t) s = (Err e, s')
  end.
Proof.
  revert s. induction l as [|sel l IH]; intros s Hs; [by left|].
  cbn [for_each expand_all]. unfold bind at 1 2 3. pose proof (resolve_selector_expand t sel s) as H.
  destruct (expand t sel) as [a|]; [|destruct H as [e ->]; by eexists _, _].
  rewrite H. destruct (insert_all_run a s Hs) as [[Ha ->]|[Ha (e & s' & ->)]].
  - specialize (IH _ Ha). destruct (expand_all t l) as [b|]; [|done]. by rewrite foldl_app.
  - destruct (expand_all t l) as [b|]; [|by eexists _, _]. right. rewrite foldl_app.
    pose proof (hs_extend_length b (extend s a)). split; [lia|]. by eexists _, _.
Qed.

Lemma resolve_rule_run t rule :
  match expand_all t (resources rule) with
  | Some rs =>
      (Z.of_nat (length (hs_collect rs)) ≤ cap ∧ resolve_rule t rule = Ok (hs_collect rs)) ∨
      (cap < Z.of_nat (length (hs_collect rs)) ∧ ∃ e, resolve_rule t rule = Err e)
  | None => ∃ e, resolve_rule t rule = Err e
  end.
Proof.
  unfold resolve_rule. pose proof (resolve_selectors_run t (resources rule) []) as H.
  destruct (expand_all t (resources rule)) as [rs|].
  - destruct H as [[? ->]|[? (e & s' & ->)]]; [done|by left|right]. split; [done|by eexists].
  - destruct H as (e & s' & ->); [done|]. by eexists.
Qed.

Lemma expand_all_elem t l rs r :
  expand_all t l = Some rs → r ∈ rs ↔ ∃ sel a, sel ∈ l ∧ expand t sel = Some a ∧ r ∈ a.
Proof.
  revert rs. induction l as [|sel l IH]; intros rs; cbn [expand_all].
  { intros [= <-]. split; [set_solver|]. intros (? & ? & ? & _). set_solver. }
  destruct (expand t sel) as [a|] eqn:Ha; [|done].
  destruct (expand_all t l) as [b|]; [|done]. intros [= <-].
  rewrite elem_of_app, (IH b eq_refl). setoid_rewrite elem_of_cons. naive_solver.
Qed.

Lemma expand_all_present t l :
  is_Some (expand_all t l) ↔ Forall (λ sel, is_Some (expand t sel)) l.
Proof.
  induction l as [|sel l IH]; cbn [expand_all].
  { split; [constructor|by eexists]. }
  rewrite Forall_cons, <-IH, !is_Some_alt.
  destruct (expand t sel), (expand_all t l); naive_solver.
Qed.

Lemma find_lair_key t id l : topology_wf t → find_lair t id = Some l → lair_id l = id.
Proof.
  intros Hwf Hl%bt_get_elem; [|apply Hwf]. pose proof (wf_keys _ Hwf) as Hk.
  rewrite Forall_forall in Hk. by apply (Hk (id, l)).
Qed.

(** ** Which requests a resource matches *)

Lemma layout_resources_match node res :
  (∃ r, r ∈ layout_resources node ∧ resolved_matches r res = true) ↔
  ∃ l d s i, res = ResourceSplint l d s i ∧ s ∈ leaf_ids node.
Proof.
  unfold layout_resources, leaf_ids. setoid_rewrite list_elem_of_fmap. split.
  - intros (r & (sp & -> & Hs) & Hm). destruct res as [| | |l d s i]; try done. simpl in Hm.
    apply andb_true_iff in Hm as [<-%Z.eqb_eq _]. by eauto 10.
  - intros (l & d & s & i & -> & sp & -> & Hs). eexists. split; [by eauto|].
    simpl. by rewrite Z.eqb_refl.
Qed.

Lemma dojo_resources_match dj res :
  (∃ r, r ∈ dojo_resources dj ∧ resolved_matches r res = true) ↔
  (∃ l, res = ResourceDojo l (dojo_id dj)) ∨
  ∃ l d s i, res = ResourceSplint l d s i ∧ s ∈ dojo_splint_ids dj.
Proof.
  unfold dojo_resources, dojo_splint_ids. rewrite <-layout_resources_match.
  setoid_rewrite elem_of_cons. split.
  - intros (r & [->|Hr] & Hm); [left|right; by eauto].
    destruct res as [| |l d|]; try done. simpl in Hm. apply Z.eqb_eq in Hm as <-. by eexists.
  - intros [[l ->]|(r & Hr & Hm)]; [|by eauto]. eexists. split; [by left|]. simpl. by rewrite Z.eqb_refl.
Qed.

Lemma lair_resources_match lair res :
  (∃ r, r ∈ dojos lair ≫= dojo_resources ∧ resolved_matches r res = true) ↔
  (∃ l d, res = ResourceDojo l d ∧ d ∈ lair_dojo_ids lair) ∨
  ∃ l d s i, res = ResourceSplint l d s i ∧ s ∈ lair_splint_ids lair.
Proof.
  unfold lair_dojo_ids, lair_splint_ids. split.
  - intros (r & (dj & Hr & Hd)%list_elem_of_bind & Hm).
    destruct (proj1 (dojo_resources_match dj res)) as [[l ->]|(l & d & s & i & -> & Hs)]; [by eauto|..].
    + left. eexists _, _. split; [done|]. apply list_elem_of_fmap. by eauto.
    + right. eexists _, _, _, _. split; [done|]. apply list_elem_of_bind. by eauto.
  - intros [(l & d & -> & (dj & -> & Hd)%list_elem_of_fmap)|
            (l & d & s & i & -> & (dj & Hs & Hd)%list_elem_of_bind)];
      setoid_rewrite list_elem_of_bind.
    + destruct (proj2 (dojo_resources_match dj (ResourceDojo l (dojo_id dj)))) as (r & ? & ?); by eauto 10.
    + destruct (proj2 (dojo_resources_match dj (ResourceSplint l d s i))) as (r & ? & ?); by eauto 10.
Qed.

Lemma expand_covers t sel res :
  topology_wf t →
  (∃ a, expand t sel = Some a ∧ ∃ r, r ∈ a ∧ resolved_matches r res = true) ↔ covers t sel res.
Proof.
  intros Hwf. destruct sel as [|l|d|sp i]; cbn [expand].
  - setoid_rewrite <-(inj_iff Some). split.
    + intros (a & [= <-] & r & ->%list_elem_of_singleton & Hm). by destruct res.
    + destruct res; try done. intros _. eexists. split; [done|]. eexists. split; [by apply list_elem_of_singleton|done].
  - destruct (find_lair t l) as [lair|] eqn:Hl; cbn [fmap option_fmap option_map].
    2: { split; [naive_solver|]. destruct res; simpl; rewrite ?Hl; try done.
         - intros [_ [? ?]]. done.
         - intros (? & ? & _). done.
         - intros (? & ? & _). done. }
    pose proof (find_lair_key _ _ _ Hwf Hl) as Hk. pose proof (lair_resources_match lair res) as Hd.
    transitivity ((res = ResourceLair l) ∨ ∃ r, r ∈ dojos lair ≫= dojo_resources ∧ resolved_matches r res = true).
    + split.
      * intros (a & [= <-] & r & [->|Hr]%elem_of_cons & Hm); [left|right; by eauto].
        destruct res; try done. simpl in Hm. apply Z.eqb_eq in Hm. congruence.
      * intros [->|(r & Hr & Hm)]; (eexists; split; [done|]).
        -- exists (ResolvedLair (lair_id lair)). split; [by left|]. by apply Z.eqb_eq.
        -- exists r. split; [by right|done].
    + rewrite Hd. destruct res; simpl; rewrite ?Hl; naive_solver.
  - destruct (find_dojo t d) as [dj|] eqn:Hd; cbn [fmap option_fmap option_map].
    2: { split; [naive_solver|]. destruct res; simpl; rewrite ?Hd; try done.
         - intros [_ [? ?]]. done.
         - intros (? & ? & _). done. }
    assert (dojo_id dj = d) as <-.
    { apply find_first_Some in Hd as (? & ? & _ & ?%Z.eqb_eq & _). done. }
    transitivity (∃ r, r ∈ dojo_resources dj ∧ resolved_matches r res = true); [naive_solver|].
    rewrite dojo_resources_match. destruct res; simpl; rewrite ?Hd; naive_solver.
  - assert (is_Some (find_splint_in t sp) ↔ sp ∈ all_splint_ids t) as Hs.
    { rewrite <-not_eq_None_Some, find_splint_in_None. split; [apply dec_stable|naive_solver]. }
    destruct (find_splint_in t sp) as [x|]; cbn [fmap option_fmap option_map].
    + transitivity (resolved_matches (ResolvedSplint sp i) res = true).
      { split; [intros (a & [= <-] & r & ->%list_elem_of_singleton & ?); done|].
        intros Hm. eexists. split; [done|]. eexists. split; [by apply list_elem_of_singleton|done]. }
      destruct res as [| | |l d s i']; try done. simpl.
      rewrite andb_true_iff, Z.eqb_eq. destruct i; rewrite bool_decide_eq_true; naive_solver.
    + split; [naive_solver|]. destruct res; try done. simpl. intros (_ & H%Hs & _). by destruct H.
Qed.

(** ** Valid documents *)

Definition path_valid (p : PathBuf) : Prop :=
  Z.of_nat (length p) ≤ MAX_PATH_BYTES ∧ is_absolute p = true ∧ ParentDir ∉ components p.

(** A limit is absent, or positive and at most [maximum]. *)
Definition limit_valid (maximum : Z) (v : option Z) : Prop :=
  ∀ x, v = Some x → x ≠ 0 ∧ x ≤ maximum.

Record limits_valid (l : PolicyLimits) : Prop := {
  lv_some : ¬ (max_returned_rows l = None ∧ max_results l = None ∧ max_returned_bytes l = None ∧
    max_live_subscriptions l = None ∧ max_spawn_count l = None ∧ max_deadline_ms l = None);
  lv_rows : limit_valid 80 (max_returned_rows l);
  lv_results : limit_valid 64 (max_results l);
  lv_bytes : limit_valid 8388608 (max_returned_bytes l);
  lv_live : limit_valid 4 (max_live_subscriptions l);
  lv_spawn : limit_valid 64 (max_spawn_count l);
  lv_deadline : limit_valid 300000 (max_deadline_ms l);
}.

Definition id_char (c : Z) : Prop := (97 ≤ c ≤ 122) ∨ (48 ≤ c ≤ 57) ∨ c = 45.
Definition hex_char (c : Z) : Prop := (48 ≤ c ≤ 57) ∨ (97 ≤ c ≤ 102).

(** A lowercase letter, then letters, digits and dashes. *)
Definition id_valid (id : str) : Prop :=
  (∃ c, head id = Some c ∧ 97 ≤ c ≤ 122) ∧ Z.of_nat (length id) ≤ 64 ∧ Forall id_char id.

Definition incarnation_valid (r : ResourceSelector) : Prop :=
  match r with
  | SelectSplint _ (Exact n) => n ≠ 0
  | SelectSplint _ (Current value) => value = lit "current"
  | _ => True
  end.

Record rule_valid (now : Z) (r : PolicyRule) : Prop := {
  rv_id : id_valid (rule_id r);
  rv_path : path_valid (matcher_path (executable r));
  rv_digest : length (matcher_sha256 (executable r)) = 64%nat ∧
    Forall hex_char (matcher_sha256 (executable r));
  rv_expiry : ∀ e, expires_at_unix_seconds r = Some e → now < e;
  rv_scopes : scopes r ≠ [] ∧ NoDup (scopes r);
  rv_resources : resources r ≠ [] ∧ Z.of_nat (length (resources r)) ≤ MAX_RESOURCES ∧
    NoDup (resources r) ∧ Forall incarnation_valid (resources r);
  rv_limits : limits_valid (limits r);
}.

Record document_valid (now : Z) (d : PolicyDocument) : Prop := {
  dv_schema : schema d = policy_schema;
  dv_count : Z.of_nat (length (rules d)) ≤ MAX_RULES;
  dv_rules : Forall (rule_valid now) (rules d);
  dv_ids : NoDup (rule_id <$> rules d);
}.

Lemma bail_if_ok b e : bail_if b e = Ok tt ↔ b = false.
Proof. by destruct b. Qed.

Lemma obind_unit_ok {E B} (r : outcome E unit) (k : outcome E B) b :
  (let? _ := r in k) = Ok b ↔ r = Ok tt ∧ k = Ok b.
Proof. destruct r as [[]| |]; naive_solver. Qed.

Lemma context_ok {A} m (r : outcome str A) a : context m r = Ok a ↔ r = Ok a.
Proof. by destruct r. Qed.

Lemma limit_check maximum v :
  is_some_and (λ value, (value =? 0) || (maximum <? value)) v = false ↔ limit_valid maximum v.
Proof.
  unfold limit_valid. destruct v as [x|]; simpl; [|naive_solver].
  rewrite orb_false_iff, Z.eqb_neq, Z.ltb_ge. split; [by intros ? ? [= <-]|]. intros H. by apply H.
Qed.

Lemma limits_validate_ok l : limits_validate l = Ok tt ↔ limits_valid l.
Proof.
  unfold limits_validate, bounded. rewrite !obind_unit_ok, !bail_if_ok, !limit_check.
  assert (populated_fields l =? 0 = false ↔
    ¬ (max_returned_rows l = None ∧ max_results l = None ∧ max_returned_bytes l = None ∧
       max_live_subscriptions l = None ∧ max_spawn_count l = None ∧ max_deadline_ms l = None)) as Hp.
  { unfold populated_fields. rewrite Z.eqb_neq. destruct l as [[] [] [] [] [] []]; vm_compute; naive_solver. }
  rewrite Hp. split; [intros; destruct_and!; by constructor|]. intros []. by split_and!.
Qed.

(** An absolute path never has a leading dot. *)
Lemma components_absolute p : is_absolute p = true → CurDir ∉ components p.
Proof.
  intros Ha. unfold components. rewrite Ha. rewrite not_elem_of_app. split; [set_solver|].
  assert (∀ x, CurDir ∉ path_piece false x) as Hx.
  { intros x. unfold path_piece. repeat case_bool_decide; set_solver. }
  destruct (split_on 47 p) as [|x l]; [set_solver|]. rewrite not_elem_of_app. split; [apply Hx|].
  intros (y & Hy & _)%list_elem_of_bind. by apply (Hx y).
Qed.

Lemma validate_policy_path_ok p : validate_policy_path p = Ok tt ↔ path_valid p.
Proof.
  unfold validate_policy_path, path_valid. rewrite obind_unit_ok, !bail_if_ok, !orb_false_iff,
    bool_decide_eq_false, Z.ltb_ge, negb_false_iff.
  assert (is_absolute p = true → existsb (λ c, negb (root_or_normal c)) (components p) = false ↔
    ParentDir ∉ components p) as Hc.
  { intros Ha%components_absolute. rewrite <-not_true_iff_false. apply not_iff_compat.
    rewrite existsb_exists. setoid_rewrite <-list_elem_of_In. split; [|by eauto].
    intros ([] & Hx & Hn); done. }
  split; [intros; destruct_and!; rewrite <-Hc by done; done|].
  intros (Hl & Ha & Hd). rewrite Hc by done. split_and!; try done. by intros ->.
Qed.

Lemma id_check s :
  match str_bytes s with
  | [] => true
  | first :: _ =>
      (MAX_RULE_ID_BYTES <? Z.of_nat (length (str_bytes s))) || negb (is_ascii_lowercase first) ||
      negb (forallb (λ byte, is_ascii_lowercase byte || is_ascii_digit byte || (byte =? 45)) (str_bytes s))
  end = false ↔ id_valid s.
Proof.
  set (P := λ byte, is_ascii_lowercase byte || is_ascii_digit byte || (byte =? 45)).
  assert (∀ c, P c = true ↔ id_char c) as HP.
  { intros c. unfold P, id_char, is_ascii_lowercase, is_ascii_digit. lia. }
  assert (forallb P (str_bytes s) = true ↔ Forall id_char s ∧ str_bytes s = s) as Hb.
  { rewrite str_bytes_ascii by (intros c ?%HP; unfold id_char in *; lia).
    by rewrite (forallb_Forall P id_char). }
  unfold id_valid, MAX_RULE_ID_BYTES. destruct (decide (str_bytes s = s)) as [Hs|Hs].
  - rewrite Hs in *. destruct s as [|c s]; [naive_solver|].
    rewrite !orb_false_iff, !negb_false_iff, Hb, Z.ltb_ge. unfold is_ascii_lowercase. simpl. split.
    + intros [[? ?] [? _]]. split_and!; [|lia|done]. exists c. split; [done|lia].
    + intros ((c' & [= <-] & ?) & ? & ?). split_and!; [lia..|done|done].
  - split; [|intros (_ & _ & Hf); exfalso; apply Hs].
    + destruct (str_bytes s); [done|]. rewrite !orb_false_iff, !negb_false_iff, Hb. naive_solver.
    + apply str_bytes_id. eapply Forall_impl; [exact Hf|]. unfold id_char. intros; simpl; lia.
Qed.

Lemma digest_check s :
  negb (Z.of_nat (length (str_bytes s)) =? 64) ||
  negb (forallb (λ byte, is_ascii_digit byte || ((97 <=? byte) && (byte <=? 102))) (str_bytes s)) = false ↔
  length s = 64%nat ∧ Forall hex_char s.
Proof.
  set (P := λ byte, is_ascii_digit byte || ((97 <=? byte) && (byte <=? 102))).
  assert (∀ c, P c = true ↔ hex_char c) as HP.
  { intros c. unfold P, hex_char, is_ascii_digit. lia. }
  rewrite orb_false_iff, !negb_false_iff, str_bytes_ascii by (intros c ?%HP; unfold hex_char in *; lia).
  rewrite (forallb_Forall P hex_char) by done. split.
  - intros [Hl [Hf Hs]]. rewrite Hs in Hl. split; [lia|done].
  - intros [Hl Hf]. rewrite (str_bytes_id s); [split_and!; [lia|done..]|].
    eapply Forall_impl; [exact Hf|]. unfold hex_char. intros; simpl; lia.
Qed.

Lemma validate_incarnations_ok l : validate_incarnations l = Ok tt ↔ Forall incarnation_valid l.
Proof.
  induction l as [|r l IH]; cbn [validate_incarnations]; [by split; [constructor|]|].
  rewrite obind_unit_ok, IH, Forall_cons. apply and_iff_compat_r.
  destruct r as [| | |? []]; try done; rewrite bail_if_ok; simpl.
  - by rewrite Z.eqb_neq.
  - by rewrite negb_false_iff, bool_decide_eq_true.
Qed.

(** Scopes that do not repeat are within the bound: there are no more. *)
Definition all_scopes : list AutomationScope :=
  [TopologyMetadataRead; TopologySubscribe; TerminalVisibleRead; TerminalSubscribe; ScrollbackRead;
   ScrollbackSearch; ControllerAcquire; ControllerTransfer; Input; Resize; ProcessSpawn;
   ProcessRestore; ProcessTerminate; TopologyLayoutMutate; TopologyNameMutate; AuthorizationInspect;
   AuthorizationRevoke; AuditInspect; AgentStatusReport].

Lemma scopes_bounded l : NoDup l → Z.of_nat (length (A := AutomationScope) l) ≤ MAX_RULE_SCOPES.
Proof.
  intros Hl. change MAX_RULE_SCOPES with (Z.of_nat (length all_scopes)).
  apply Nat2Z.inj_le, submseteq_length, NoDup_submseteq; [done|].
  intros [] _; apply (bool_decide_unpack _); vm_compute; exact I.
Qed.

Lemma validate_rule_ok now r : validate_rule r now = Ok tt ↔ rule_valid now r.
Proof.
  unfold validate_rule. cbv zeta. rewrite !obind_unit_ok, context_ok, validate_policy_path_ok,
    validate_incarnations_ok, limits_validate_ok, !bail_if_ok, id_check, digest_check,
    !orb_false_iff, !bool_decide_eq_false, !Z.ltb_ge, !negb_false_iff, !Nat.eqb_eq, !hs_collect_length.
  assert (is_some_and (λ e, e <=? now) (expires_at_unix_seconds r) = false ↔
    ∀ e, expires_at_unix_seconds r = Some e → now < e) as He.
  { destruct (expires_at_unix_seconds r); simpl; [rewrite Z.leb_gt|]; naive_solver. }
  rewrite He. split.
  - intros; destruct_and!. constructor; by split_and?.
  - intros []. destruct_and!. split_and!; try done. by apply scopes_bounded.
Qed.

Lemma validate_rules_ok now l ids :
  validate_rules l now ids = Ok tt ↔
  Forall (rule_valid now) l ∧ NoDup (rule_id <$> l) ∧ ∀ r, r ∈ l → rule_id r ∉ ids.
Proof.
  revert ids. induction l as [|r l IH]; intros ids; cbn [validate_rules].
  { split; [|done]. intros _. split_and!; [constructor..|]. set_solver. }
  rewrite !obind_unit_ok, bail_if_ok, bool_decide_eq_false, IH, validate_rule_ok, Forall_cons.
  rewrite fmap_cons, NoDup_cons, list_elem_of_fmap. setoid_rewrite elem_of_cons.
  setoid_rewrite elem_of_union. setoid_rewrite elem_of_singleton. naive_solver.
Qed.

Lemma validate_document_ok now d : validate_document d now = Ok tt ↔ document_valid now d.
Proof.
  unfold validate_document. rewrite !obind_unit_ok, !bail_if_ok, negb_false_iff, bool_decide_eq_true,
    Z.ltb_ge, validate_rules_ok. split.
  - intros (? & ? & ? & ? & _). by constructor.
  - intros []. split_and!; try done.
Qed.
