(* ===== verification/PolicyProps.v ===== *)
(** * Theorems about the automation policy

    What a published generation grants, how a reload fails, what a rule's
    selectors resolve to, the accounting of spawned processes, and what the
    validation of a document decides. *)

From Stdlib Require Import String.
From stdpp Require Import gmap.
From S2P Require Import Prelude RustStd Layout Topology TopologyInv TopologyProps Policy PolicyInv.

(** ** Resolution *)

(** The resources a rule's selectors stand for. *)
Definition rule_resource (t : Topology) (rule : PolicyRule) (r : ResolvedResourceSelector) : Prop :=
  ∃ sel a, sel ∈ resources rule ∧ expand t sel = Some a ∧ r ∈ a.

Lemma resolve_rule_exact_lemma t rule :
  match resolve_rule t rule with
  | Ok rs =>
      Forall (λ sel, is_Some (expand t sel)) (resources rule) ∧
      NoDup rs ∧ (∀ r, r ∈ rs ↔ rule_resource t rule r) ∧ (length rs ≤ 512)%nat
  | Err _ =>
      ¬ (Forall (λ sel, is_Some (expand t sel)) (resources rule) ∧
         ∃ rs, (∀ r, rule_resource t rule r → r ∈ rs) ∧ (length rs ≤ 512)%nat)
  | Panic => False
  end.
Proof.
  pose proof (resolve_rule_run t rule) as H.
  pose proof (expand_all_present t (resources rule)) as Hp.
  destruct (expand_all t (resources rule)) as [rs|] eqn:He.
  2: { destruct H as [e ->]. by intros [[? ?]%Hp _]. }
  assert (∀ r, r ∈ hs_collect rs ↔ rule_resource t rule r) as Hin.
  { intros r. unfold hs_collect, rule_resource. rewrite hs_extend_elem, (expand_all_elem _ _ _ _ He).
    set_solver. }
  assert (NoDup (hs_collect rs)) as Hnd by apply hs_extend_NoDup, NoDup_nil_2.
  unfold MAX_RESOLVED_RESOURCES_PER_RULE in H.
  destruct H as [[Hl ->]|[Hl [e ->]]].
  - split_and!; [by apply Hp; eexists|done|done|lia].
  - intros [_ (l & Hl' & Hb)]. assert (length (hs_collect rs) ≤ length l)%nat; [|lia].
    apply submseteq_length, NoDup_submseteq; [done|]. intros r Hr%Hin. by apply Hl'.
Qed.

(** Resolving a rule against a topology succeeds exactly when every
    selector names something there and at most 512 resources are covered; it
    then lists each covered resource once and nothing else. *)
Theorem resolve_rule_exact t rule :
  match resolve_rule t rule with
  | Ok rs =>
      Forall (λ sel, is_Some (expand t sel)) (resources rule) ∧
      NoDup rs ∧ (∀ r, r ∈ rs ↔ rule_resource t rule r) ∧ (length rs ≤ 512)%nat
  | Err _ =>
      ¬ (Forall (λ sel, is_Some (expand t sel)) (resources rule) ∧
         ∃ rs, (∀ r, rule_resource t rule r → r ∈ rs) ∧ (length rs ≤ 512)%nat)
  | Panic => False
  end.
Proof. apply resolve_rule_exact_lemma. Qed.

Lemma resolve_rules_ok t l acc m :
  NoDup (rule_id <$> l) → resolve_rules t l acc = Ok m →
  (∀ rule, rule ∈ l → ∃ rs, resolve_rule t rule = Ok rs ∧ m !! rule_id rule = Some rs) ∧
  ∀ id, id ∉ rule_id <$> l → m !! id = acc !! id.
Proof.
  revert acc. induction l as [|r l IH]; intros acc Hnd; cbn [resolve_rules].
  { intros [= <-]. split; [set_solver|done]. }
  rewrite fmap_cons, NoDup_cons in Hnd. destruct Hnd as [Hr Hnd].
  destruct (resolve_rule t r) as [rs|e|] eqn:He; [|done..]. intros H.
  destruct (IH _ Hnd H) as [H1 H2]. split.
  - intros rule [->|Hin]%elem_of_cons; [|by apply H1]. exists rs. split; [done|].
    rewrite H2 by done. apply lookup_insert_eq.
  - intros id Hid. rewrite fmap_cons, not_elem_of_cons in Hid. destruct Hid as [Hne Hid].
    rewrite H2 by done. by apply lookup_insert_ne.
Qed.

Lemma resolve_rules_returns t l acc : resolve_rules t l acc ≠ Panic.
Proof.
  revert acc. induction l as [|r l IH]; intros acc; cbn [resolve_rules]; [done|].
  pose proof (resolve_rule_run t r) as H.
  assert (resolve_rule t r ≠ Panic) as Hr.
  { destruct (expand_all t (resources r)); [destruct H as [[_ ->]|[_ [e ->]]]|destruct H as [e ->]]; done. }
  destruct (resolve_rule t r); [apply IH|done|done].
Qed.

Lemma resolve_against_run t d :
  resolve_against t d =
  match resolve_rules t (rules d) ∅ with
  | Ok m => (Ok tt, set_resolved_resources m d)
  | Err e => (Err e, d)
  | Panic => (Panic, d)
  end.
Proof.
  unfold resolve_against. change (bind get ?k d) with (k d d). cbv beta. unfold bind, lift, put.
  by destruct (resolve_rules t (rules d) ∅).
Qed.

Lemma resolve_against_returns t d : fst (resolve_against t d) ≠ Panic.
Proof.
  rewrite resolve_against_run. pose proof (resolve_rules_returns t (rules d) ∅).
  by destruct (resolve_rules t (rules d) ∅).
Qed.

(** ** What a rule grants *)

(** Every requested limit is bounded by a limit the rule states. *)
Definition within (allowed requested : option Z) : Prop :=
  ∀ x, requested = Some x → ∃ y, allowed = Some y ∧ x ≤ y.

(** The rule, published against [t], grants the request. *)
Record grants (t : Topology) (rule : PolicyRule) (exe : ExecutableIdentity) (request : PolicyRequest)
    (now : Z) : Prop := {
  g_path : components (matcher_path (executable rule)) = components (path exe);
  g_digest : matcher_sha256 (executable rule) = sha256 exe;
  g_fresh : ∀ e, expires_at_unix_seconds rule = Some e → now < e;
  g_required : required_scopes request ⊆ scopes rule;
  g_any : any_scope request ≠ [] → ∃ x, x ∈ any_scope request ∧ x ∈ scopes rule;
  g_some : requested_resources request ≠ [];
  g_covered : ∀ r, r ∈ requested_resources request → ∃ sel, sel ∈ resources rule ∧ covers t sel r;
  g_rows : within (max_returned_rows (limits rule)) (returned_rows (requested_limits request));
  g_results : within (max_results (limits rule)) (results (requested_limits request));
  g_bytes : within (max_returned_bytes (limits rule)) (returned_bytes (requested_limits request));
  g_live : within (max_live_subscriptions (limits rule)) (live_subscriptions (requested_limits request));
  g_spawn : within (max_spawn_count (limits rule)) (spawn_count (requested_limits request));
  g_deadline : within (max_deadline_ms (limits rule)) (deadline_ms (requested_limits request));
}.

Lemma limit_allows_within a r : limit_allows a r = true ↔ within a r.
Proof.
  unfold limit_allows, within. destruct r as [x|]; simpl; [|naive_solver].
  destruct a as [y|]; simpl.
  - rewrite Z.leb_le. split; [intros ? ? [= <-]; by eauto|]. intros H. by destruct (H x eq_refl) as (? & [= <-] & ?).
  - split; [done|]. intros H. by destruct (H x eq_refl) as (? & ? & ?).
Qed.

Lemma resource_granted t rule rs res :
  topology_wf t → (∀ r, r ∈ rs ↔ rule_resource t rule r) →
  existsb (λ selector, resolved_matches selector res) rs = true ↔
  ∃ sel, sel ∈ resources rule ∧ covers t sel res.
Proof.
  intros Hwf Hrs. rewrite (existsb_Exists _ (λ r, resolved_matches r res = true)), Exists_exists by done.
  setoid_rewrite Hrs. unfold rule_resource. split.
  - intros (r & (sel & a & Hs & Ha & Hr) & Hm). exists sel. split; [done|]. apply expand_covers; by eauto.
  - intros (sel & Hs & (a & Ha & r & Hr & Hm)%expand_covers); [|done]. by eauto 10.
Qed.

(** Matching decides what the rule grants. *)
Lemma rule_matches_grants t rule exe request rs now :
  topology_wf t → (∀ r, r ∈ rs ↔ rule_resource t rule r) →
  rule_matches rule exe request rs now = true ↔ grants t rule exe request now.
Proof.
  intros Hwf Hrs. unfold rule_matches, path_eq, allows.
  rewrite !andb_true_iff, !limit_allows_within, !bool_decide_eq_true, negb_true_iff, bool_decide_eq_false.
  rewrite (forallb_Forall _ (λ x, x ∈ scopes rule)), Forall_forall by (intros; apply bool_decide_eq_true).
  rewrite (forallb_Forall _ (λ res, ∃ sel, sel ∈ resources rule ∧ covers t sel res)), Forall_forall
    by (intros; by apply resource_granted).
  rewrite orb_true_iff, bool_decide_eq_true,
    (existsb_Exists _ (λ x, x ∈ scopes rule)), Exists_exists by (intros; apply bool_decide_eq_true).
  assert (is_none_or (λ e, now <? e) (expires_at_unix_seconds rule) = true ↔
    ∀ e, expires_at_unix_seconds rule = Some e → now < e) as ->.
  { destruct (expires_at_unix_seconds rule); simpl; [rewrite Z.ltb_lt|]; naive_solver. }
  split.
  - intros (([[[[[Hp Hd] He] Hs] Hr] Ha] & Hc) & [[[[[? ?] ?] ?] ?] ?]).
    constructor; try done. intros Hne. by destruct Ha.
  - intros [? ? ? Hr Ha ? ? ? ? ? ? ? ?]. split_and!; try done.
    destruct (decide (any_scope request = [])); [by left|]. right. by apply Ha.
Qed.

(** The document [d], resolved against [t]. *)
Definition resolved_against (t : Topology) (d d' : PolicyDocument) : Prop :=
  ∃ m, resolve_rules t (rules d) ∅ = Ok m ∧ d' = set_resolved_resources m d.

Lemma rule_outcome t d m rule exe request now :
  topology_wf t → NoDup (rule_id <$> rules d) → resolve_rules t (rules d) ∅ = Ok m → rule ∈ rules d →
  ∃ rs, m !! rule_id rule = Some rs ∧
    (rule_matches rule exe request rs now = true ↔ grants t rule exe request now).
Proof.
  intros Hwf Hnd Hm Hr. destruct (resolve_rules_ok t _ _ _ Hnd Hm) as [H _].
  destruct (H rule Hr) as (rs & Hrs & Hl). exists rs. split; [done|].
  apply rule_matches_grants; [done|]. pose proof (resolve_rule_exact_lemma t rule) as He.
  rewrite Hrs in He. apply He.
Qed.

Lemma document_authorize_Some t d d' exe request now mt :
  topology_wf t → NoDup (rule_id <$> rules d) → resolved_against t d d' →
  document_authorize d' exe request now = Some mt →
  ∃ rule, rule ∈ rules d ∧ mt = match_of rule ∧ grants t rule exe request now.
Proof.
  intros Hwf Hnd (m & Hm & ->) (l1 & rule & l2 & Hl & Hf & _)%find_map_Some.
  cbn [set_resolved_resources rules resolved_resources] in *.
  assert (rule ∈ rules d) as Hin by (rewrite Hl; set_solver).
  destruct (rule_outcome t d m rule exe request now Hwf Hnd Hm Hin) as (rs & Hrs & Hg).
  rewrite Hrs in Hf. destruct (rule_matches _ _ _ _ _) eqn:Hr; simplify_eq. exists rule. naive_solver.
Qed.

Lemma document_authorize_None t d d' exe request now :
  topology_wf t → NoDup (rule_id <$> rules d) → resolved_against t d d' →
  document_authorize d' exe request now = None → ∀ rule, rule ∈ rules d → ¬ grants t rule exe request now.
Proof.
  intros Hwf Hnd (m & Hm & ->) Hn%find_map_None rule Hin Hg.
  cbn [set_resolved_resources rules resolved_resources] in *.
  destruct (rule_outcome t d m rule exe request now Hwf Hnd Hm Hin) as (rs & Hrs & Hiff).
  rewrite Forall_forall in Hn. specialize (Hn rule Hin). simpl in Hn. rewrite Hrs in Hn.
  rewrite (proj2 Hiff Hg) in Hn. done.
Qed.

(** ** Reloading *)

Section store.
Context `{PolicyHost}.

Lemma obind_Panic {E A B} (r : outcome E A) (k : A → outcome E B) :
  r ≠ Panic → (∀ a, k a ≠ Panic) → obind r k ≠ Panic.
Proof. destruct r; naive_solver. Qed.

Lemma bail_if_Panic b e : bail_if b e ≠ Panic.
Proof. by destruct b. Qed.

Lemma some_or_bail_Panic {A} m (o : option A) : some_or_bail m o ≠ Panic.
Proof. by destruct o. Qed.

Lemma open_directories_Panic fd l : open_directories fd l ≠ Panic.
Proof.
  revert fd. induction l as [|c l IH]; intros fd; simpl; [done|].
  destruct (openat _ _ _); [apply IH|done].
Qed.

Lemma validate_incarnations_Panic l : validate_incarnations l ≠ Panic.
Proof.
  induction l as [|r l IH]; simpl; [done|]. apply obind_Panic; [|done].
  destruct r as [| | |? []]; try done; apply bail_if_Panic.
Qed.

Lemma context_Panic {A} m (r : outcome str A) : r ≠ Panic → context m r ≠ Panic.
Proof. by destruct r. Qed.

Lemma validate_rules_Panic l now ids : validate_rules l now ids ≠ Panic.
Proof.
  revert ids. induction l as [|r l IH]; intros ids; simpl; [done|].
  unfold validate_rule, validate_policy_path, limits_validate, bounded.
  repeat first [apply bail_if_Panic|apply IH|apply validate_incarnations_Panic|apply context_Panic
    |apply obind_Panic; [|intros _]].
Qed.

Lemma inspect_file_returns p now : inspect_file p now ≠ Panic.
Proof.
  unfold inspect_file, validate_policy_path, open_without_symlinks, validate_policy_metadata,
    read_bounded, validate_document. cbv zeta.
  repeat first
    [ apply bail_if_Panic | apply some_or_bail_Panic | apply open_directories_Panic
    | apply validate_rules_Panic | apply obind_Panic; [|intros ?] | done
    | lazymatch goal with |- (if ?b then _ else _) ≠ _ => destruct b end
    | lazymatch goal with |- (let '(_, _) := ?x in _) ≠ _ => destruct x end ].
Qed.

(** The document a reload publishes: nothing, or the inspected one resolved. *)
Lemma reload_document p t now s :
  let s' := snd (reload p t now s) in
  spawn_counts s' = ∅ ∧
  ((∃ q d, p = Some q ∧ inspect_file q now = Ok d ∧ resolved_against t d (document (generation s')) ∧
      generation_diagnostic (generation s') = None) ∨
   (document (generation s') = deny_all ∧
    ((p = None ∧ generation_diagnostic (generation s') = None) ∨
     ∃ q e, p = Some q ∧ generation_diagnostic (generation s') = Some (bounded_diagnostic e) ∧
       (inspect_file q now = Err e ∨
        ∃ d, inspect_file q now = Ok d ∧ resolve_rules t (rules d) ∅ = Err e)))).
Proof.
  simpl. split; [done|]. unfold settle, prepare. destruct p as [q|].
  2: { cbn [candidate_diagnostic]. rewrite resolve_against_run. right. simpl. split; [done|by left]. }
  pose proof (inspect_file_returns q now) as Hp.
  destruct (inspect_file q now) as [d|e|] eqn:Hi; [|by right; eauto 10|done]. cbn [candidate_diagnostic].
  pose proof (resolve_rules_returns t (rules d) ∅) as Hr. rewrite resolve_against_run. simpl.
  destruct (resolve_rules t (rules d) ∅) as [m|e|] eqn:Hm; [|right; by eauto 15|done].
  left. exists q, d. split_and!; [done..| |done]. by exists m.
Qed.

Lemma inspect_file_valid p now d : inspect_file p now = Ok d → document_valid now d.
Proof.
  unfold inspect_file. intros Hd.
  repeat match type of Hd with
  | obind ?r _ = Ok _ => destruct r eqn:?; [|done..]; cbn [obind] in Hd
  end.
  lazymatch type of Hd with (let '(_, _) := ?x in _) = _ => destruct x as [sc l] end.
  destruct (validate_document _ _) as [[]| |] eqn:Hv; [|done..]. injection Hd as <-.
  by apply validate_document_ok.
Qed.

(** *** Requests between two reloads *)

Record call := {
  call_exe : ExecutableIdentity;
  call_request : PolicyRequest;
  call_now : Z;
}.

(** The calls in order: each call's answer, and the store left. *)
Fixpoint run_calls (l : list call) (s : PolicyStore) : list (call * outcome unit PolicyMatch) * PolicyStore :=
  match l with
  | [] => ([], s)
  | c :: l =>
      let '(r, s) := store_authorize (call_exe c) (call_request c) (call_now c) s in
      let '(rs, s) := run_calls l s in
      ((c, r) :: rs, s)
  end.

(** One call: the generation stays; a grant comes from the document; the
    count of the granting rule grows by what was asked, within its limit, and
    no other count changes. *)
Lemma store_authorize_run exe request now s :
  let '(r, s') := store_authorize exe request now s in
  generation s' = generation s ∧
  match r with
  | Ok m =>
      document_authorize (document (generation s)) exe request now = Some m ∧
      (∀ id, default 0 (spawn_counts s' !! id) =
         default 0 (spawn_counts s !! id) +
         if decide (id = match_rule_id m) then default 0 (spawn_count (requested_limits request)) else 0) ∧
      (∀ n, spawn_count (requested_limits request) = Some n → ∃ a, match_max_spawn_count m = Some a ∧
         default 0 (spawn_counts s' !! match_rule_id m) ≤ a)
  | Err _ => ∀ id, default 0 (spawn_counts s' !! id) = default 0 (spawn_counts s !! id)
  | Panic => False
  end.
Proof.
  unfold store_authorize. change (bind get ?k s) with (k s s). cbv beta. unfold bind, ok_or, modify, reject_if.
  destruct (document_authorize _ _ _ _) as [m|] eqn:Hd; [|done].
  cbn [ret]. destruct (spawn_count _) as [n|] eqn:Hn.
  2: { split_and!; try done. intros id. simpl. case_decide; lia. }
  destruct (match_max_spawn_count m) as [a|] eqn:Ham; [|done]. cbn [ret].
  set (used := default 0 (spawn_counts s !! match_rule_id m)).
  assert (∀ x id, default 0 (<[match_rule_id m := x]> (spawn_counts s) !! id) =
    if decide (id = match_rule_id m) then x else default 0 (spawn_counts s !! id)) as Hins.
  { intros x id. case_decide; [subst; by rewrite lookup_insert_eq|by rewrite lookup_insert_ne]. }
  assert (∀ id, default 0 (<[match_rule_id m := used]> (spawn_counts s) !! id) =
    default 0 (spawn_counts s !! id)) as Hused.
  { intros id. rewrite Hins. case_decide; by subst. }
  unfold checked_add64. destruct (_ <=? u64_max); [|done]. cbn [ret fail].
  destruct (Z.ltb_spec a (used + n)); [done|]. cbn [ret]. split_and!; try done; simpl.
  - intros id. rewrite Hins. case_decide; subst; unfold used; lia.
  - intros n' [= <-]. exists a. rewrite Hins, decide_True by done. by split.
Qed.

Lemma run_calls_generation l s : generation (snd (run_calls l s)) = generation s.
Proof.
  revert s. induction l as [|c l IH]; intros s; simpl; [done|].
  pose proof (store_authorize_run (call_exe c) (call_request c) (call_now c) s) as H1.
  destruct (store_authorize _ _ _ s) as [r s1]. destruct H1 as [Hg _].
  specialize (IH s1). destruct (run_calls l s1). simpl in *. congruence.
Qed.

(** Spawns granted to a rule by answered calls. *)
Definition spawned (id : str) (answers : list (call * outcome unit PolicyMatch)) : Z :=
  foldr (λ '(c, r) n,
    (match r with
     | Ok m => if decide (id = match_rule_id m)
               then default 0 (spawn_count (requested_limits (call_request c))) else 0
     | _ => 0
     end) + n) 0 answers.

Lemma run_calls_counts l s id :
  let '(answers, s') := run_calls l s in
  default 0 (spawn_counts s' !! id) = default 0 (spawn_counts s !! id) + spawned id answers.
Proof.
  revert s. induction l as [|c l IH]; intros s; simpl; [lia|].
  pose proof (store_authorize_run (call_exe c) (call_request c) (call_now c) s) as Hc.
  destruct (store_authorize _ _ _ s) as [r s1]. destruct Hc as [_ Hr].
  specialize (IH s1). destruct (run_calls l s1) as [rs s2]. simpl. rewrite IH.
  destruct r as [m|e|]; [|rewrite Hr; lia|done]. destruct Hr as (_ & Hr & _). rewrite Hr. lia.
Qed.

(** A count never exceeds the limit of the rule it belongs to. *)
Definition counts_bounded (rs : list PolicyRule) (s : PolicyStore) : Prop :=
  ∀ rule, rule ∈ rs →
    default 0 (spawn_counts s !! rule_id rule) ≤ Z.max 0 (default 0 (max_spawn_count (limits rule))).

Definition rules_among (rs : list PolicyRule) (s : PolicyStore) : Prop :=
  rules (document (generation s)) ⊆ rs.

Lemma document_authorize_rule d exe request now m :
  document_authorize d exe request now = Some m → ∃ rule, rule ∈ rules d ∧ m = match_of rule.
Proof.
  intros (l1 & rule & l2 & Hl & Hf & _)%find_map_Some. exists rule. rewrite Hl. split; [set_solver|].
  destruct (_ !! _); [|done]. by destruct (rule_matches _ _ _ _ _); simplify_eq.
Qed.

Lemma run_calls_bounded rs l s :
  NoDup (rule_id <$> rs) → Forall (λ c, ∀ n, spawn_count (requested_limits (call_request c)) = Some n → 0 ≤ n) l →
  rules_among rs s → counts_bounded rs s → counts_bounded rs (snd (run_calls l s)).
Proof.
  intros Hnd Hl. revert s. induction Hl as [|c l Hc _ IH]; intros s Hs Hb; simpl; [done|].
  pose proof (store_authorize_run (call_exe c) (call_request c) (call_now c) s) as Ha.
  destruct (store_authorize _ _ _ s) as [r s1]. destruct Ha as [Hg Hr].
  specialize (IH s1). destruct (run_calls l s1) as [rs' s2]. simpl in *. apply IH.
  { unfold rules_among in *. by rewrite Hg. }
  destruct r as [m|e|]; [|intros rule Hin; rewrite Hr; by apply Hb|done].
  destruct Hr as (Hd & Hr & Hmax). intros rule Hin.
  destruct (decide (rule_id rule = match_rule_id m)) as [He|He].
  2: { rewrite Hr, decide_False by done. rewrite Z.add_0_r. by apply Hb. }
  apply document_authorize_rule in Hd as (rule' & Hin' & ->). apply Hs in Hin'. simpl in He.
  assert (rule' = rule) as ->.
  { apply list_elem_of_lookup in Hin as [i Hi], Hin' as [j Hj].
    assert (i = j) as ->; [|congruence]. eapply NoDup_lookup; [exact Hnd|..]; rewrite list_lookup_fmap.
    - by rewrite Hi.
    - rewrite Hj. simpl. by rewrite He. }
  destruct (spawn_count _) as [n|].
  - destruct (Hmax n eq_refl) as (a & Ha & Hle). simpl in Ha, Hle. rewrite Ha. simpl. lia.
  - rewrite Hr, decide_True by done. simpl. rewrite Z.add_0_r. by apply Hb.
Qed.

(** C5. Whatever requests were answered since a reload, a request is granted
    only by a rule of the file that was inspected then, for the executable, the
    scopes and the limits that rule states, and only on resources one of its
    selectors covered in the topology at the time of the reload: a Splint
    opened later under a selected Lair is not granted. *)
Theorem granted_as_published p t t0 s calls exe request now m :
  topology_wf t →
  fst (store_authorize exe request now (snd (run_calls calls (snd (reload p t t0 s))))) = Ok m →
  ∃ q d rule, p = Some q ∧ inspect_file q t0 = Ok d ∧ document_valid t0 d ∧ rule ∈ rules d ∧
    m = match_of rule ∧ grants t rule exe request now.
Proof.
  intros Hwf Ha. pose proof (store_authorize_run exe request now (snd (run_calls calls (snd (reload p t t0 s))))) as Hr.
  destruct (store_authorize _ _ _ _) as [r s']. simpl in Ha. subst r. destruct Hr as (_ & Hd & _).
  rewrite run_calls_generation in Hd.
  destruct (reload_document p t t0 s) as [_ [(q & d & -> & Hi & Hra & _)|[Hdeny _]]].
  - pose proof (inspect_file_valid _ _ _ Hi) as Hv.
    destruct (document_authorize_Some t d _ exe request now m Hwf (dv_ids _ _ Hv) Hra Hd) as (rule & ? & ? & ?).
    by exists q, d, rule.
  - rewrite Hdeny in Hd. done.
Qed.

(** C25. Between two reloads the processes spawned under a rule never exceed
    the rule's limit, in whatever order the requests come, and the store's
    counter is exactly the number granted. *)
Theorem spawns_within_limit q t t0 s calls d rule :
  inspect_file q t0 = Ok d → rule ∈ rules d →
  Forall (λ c, ∀ n, spawn_count (requested_limits (call_request c)) = Some n → 0 ≤ n) calls →
  let '(answers, s') := run_calls calls (snd (reload (Some q) t t0 s)) in
  spawned (rule_id rule) answers = default 0 (spawn_counts s' !! rule_id rule) ∧
  spawned (rule_id rule) answers ≤ Z.max 0 (default 0 (max_spawn_count (limits rule))).
Proof.
  intros Hi Hin Hc. pose proof (reload_document (Some q) t t0 s) as Hdoc. cbv zeta in Hdoc.
  destruct (reload (Some q) t t0 s) as [g s1]. cbn [snd] in *. destruct Hdoc as [H0 Hcases].
  pose proof (run_calls_counts calls s1 (rule_id rule)) as Hn.
  assert (counts_bounded (rules d) (snd (run_calls calls s1))) as Hb.
  { apply run_calls_bounded; [by eapply dv_ids, inspect_file_valid|done| |].
    - destruct Hcases as [(q' & d' & [= <-] & Hi' & (m & _ & Hd) & _)|[Hd _]];
        unfold rules_among; rewrite Hd; [|set_solver]. simpl.
      assert (d' = d) as -> by congruence. set_solver.
    - intros r _. rewrite H0, lookup_empty. simpl. lia. }
  specialize (Hb rule Hin). destruct (run_calls calls s1) as [answers s']. simpl in *.
  rewrite H0, lookup_empty in Hn. simpl in Hn. lia.
Qed.

(** C34. Loading a policy fails closed: when the path, the file, its contents
    or the topology is rejected, the new generation has no rules, says why in
    at most 512 characters, and every request is denied. *)
Theorem reload_fails_closed p t t0 s q e calls exe request now :
  p = Some q →
  (inspect_file q t0 = Err e ∨
   ∃ d, inspect_file q t0 = Ok d ∧ fst (resolve_against t d) = Err e) →
  let s' := snd (reload p t t0 s) in
  rules (document (generation s')) = [] ∧
  (∃ text, generation_diagnostic (generation s') = Some text ∧ (length text ≤ 512)%nat ∧
     text `prefix_of` e) ∧
  fst (store_authorize exe request now (snd (run_calls calls s'))) = Err tt ∧
  ∀ resource, store_status (snd (run_calls calls s')) exe resource now = [].
Proof.
  intros -> He s'. unfold s'. pose proof (reload_document (Some q) t t0 s) as Hdoc. cbv zeta in Hdoc.
  destruct (reload (Some q) t t0 s) as [g s1]. cbn [snd] in *. destruct Hdoc as [_ Hcases].
  assert (document (generation s1) = deny_all ∧
    generation_diagnostic (generation s1) = Some (bounded_diagnostic e)) as [Hd Hg].
  { destruct Hcases as [(q' & d' & [= <-] & Hi & (m & Hm & _) & _)|[Hd [[? _]|(q' & e' & [= <-] & Hg & Hc)]]].
    - destruct He as [He|(d & Hi' & He)]; [congruence|].
      assert (d = d') as -> by congruence. rewrite resolve_against_run, Hm in He. done.
    - done.
    - split; [done|]. destruct He as [He|(d & Hi' & He)], Hc as [Hc|(d' & Hi & Hc)]; [congruence..|].
      assert (d = d') as -> by congruence. rewrite resolve_against_run, Hc in He. simpl in He. by simplify_eq. }
  split_and!; [by rewrite Hd| | |].
  - eexists. split; [exact Hg|]. unfold bounded_diagnostic. split; [|apply prefix_take].
    rewrite length_take. unfold MAX_DIAGNOSTIC_BYTES. lia.
  - pose proof (store_authorize_run exe request now (snd (run_calls calls s1))) as Hr.
    destruct (store_authorize _ _ _ _) as [[m|[]|] s2]; [|done|by destruct Hr].
    destruct Hr as (_ & Hr & _). by rewrite run_calls_generation, Hd in Hr.
  - intros resource. unfold store_status. by rewrite run_calls_generation, Hd.
Qed.

(** A request without spawns is granted whenever a rule of the inspected
    and resolved document grants it. *)
Theorem rule_grants_request q t t0 s calls d rule exe request now :
  topology_wf t → inspect_file q t0 = Ok d → fst (resolve_against t d) = Ok tt →
  rule ∈ rules d → grants t rule exe request now → spawn_count (requested_limits request) = None →
  ∃ m, fst (store_authorize exe request now (snd (run_calls calls (snd (reload (Some q) t t0 s))))) = Ok m.
Proof.
  intros Hwf Hi Hra Hin Hg Hsp. pose proof (reload_document (Some q) t t0 s) as Hdoc. cbv zeta in Hdoc.
  destruct (reload (Some q) t t0 s) as [g s1]. cbn [snd] in *. destruct Hdoc as [_ Hcases].
  destruct Hcases as [(q' & d' & [= <-] & Hi' & Hr & _)|[_ [[? _]|(q' & e' & [= <-] & _ & Hc)]]]; [|done|].
  2: { exfalso. destruct Hc as [Hc|(d' & Hi' & Hc)]; [congruence|].
       assert (d = d') as -> by congruence. by rewrite resolve_against_run, Hc in Hra. }
  assert (d = d') as -> by congruence. unfold store_authorize. change (bind get ?k ?s) with (k s s). cbv beta.
  rewrite run_calls_generation.
  destruct (document_authorize _ _ _ _) as [m|] eqn:Hd.
  - exists m. unfold bind, ok_or. simpl. by rewrite Hsp.
  - exfalso. by eapply (document_authorize_None t d'); [..|exact Hg]; [|eapply dv_ids, inspect_file_valid| | |].
Qed.

End store.

(** Validation accepts exactly the documents of the schema with at most 64
    rules under distinct identifiers, each with a well-formed identifier, an
    absolute executable path free of parent components, a SHA-256 digest in
    lowercase hexadecimal, an expiry in the future, distinct scopes and
    resources, and limits within their bounds. *)
Theorem validate_document_decides d now :
  validate_document d now = Ok tt ↔ document_valid now d.
Proof. apply validate_document_ok. Qed.

(** ** Instances *)

Definition ex_rule : PolicyRule :=
  {| rule_id := lit "agent";
     executable := {| matcher_path := lit "/usr/bin/agent"; matcher_sha256 := replicate 64 48 |};
     expires_at_unix_seconds := Some 100;
     scopes := [Input; ProcessSpawn];
     resources := [SelectLair 1];
     limits := {| max_returned_rows := Some 10; max_results := None; max_returned_bytes := None;
                  max_live_subscriptions := None; max_spawn_count := Some 2; max_deadline_ms := None |} |}.

(** A host with one policy file, owned by root. *)
Definition ex_host : PolicyHost :=
  {| Fd := unit;
     open_root := λ _, Some tt;
     openat := λ _ _ _, Some tt;
     metadata := λ _, Some {| is_file := true; nlink := 1; len := 3; uid := 0; mode := 0x1a4 |};
     read_to_end := λ _ _, Some [1; 2; 3];
     geteuid := 1000;
     from_slice := λ _, Some (policy_schema, [ex_rule]);
     debug_component := id |}.

Definition ex_path : PathBuf := lit "/etc/splinterm/policy.json".

Definition ex_policy : PolicyDocument :=
  {| schema := policy_schema; rules := [ex_rule]; resolved_resources := ∅ |}.

Definition ex_exe : ExecutableIdentity :=
  {| path := lit "/usr//bin/agent"; device := 1; inode := 2; owner_uid := 0; file_mode := 0x1ed;
     file_size := 9; sha256 := replicate 64 48 |}.

Definition ex_request (n : option Z) : PolicyRequest :=
  {| required_scopes := [Input]; any_scope := []; requested_resources := [ResourceSplint 1 3 2 None];
     requested_limits := {| returned_rows := None; results := None; returned_bytes := None;
       live_subscriptions := None; spawn_count := n; deadline_ms := None |} |}.

Definition ex_calls : list call :=
  [ {| call_exe := ex_exe; call_request := ex_request (Some 1); call_now := 5 |};
    {| call_exe := ex_exe; call_request := ex_request (Some 2); call_now := 6 |};
    {| call_exe := ex_exe; call_request := ex_request (Some 1); call_now := 7 |} ].

Lemma ex_inspect : inspect_file (H := ex_host) ex_path 1 = Ok ex_policy.
Proof. vm_compute. reflexivity. Qed.

Lemma granted_as_published_witness :
  ∃ q d rule, Some ex_path = Some q ∧ inspect_file (H := ex_host) q 1 = Ok d ∧ document_valid 1 d ∧
    rule ∈ rules d ∧ match_of ex_rule = match_of rule ∧ grants ex_t rule ex_exe (ex_request None) 8.
Proof.
  eapply (granted_as_published (H := ex_host) (Some ex_path) ex_t 1 PolicyStore_default ex_calls);
    [apply ex_wf|vm_compute; reflexivity].
Defined.

Lemma spawns_within_limit_witness :
  spawned (lit "agent") (fst (run_calls ex_calls
    (snd (reload (H := ex_host) (Some ex_path) ex_t 1 PolicyStore_default)))) = 2 ∧
  let '(answers, s') := run_calls ex_calls
    (snd (reload (H := ex_host) (Some ex_path) ex_t 1 PolicyStore_default)) in
  spawned (rule_id ex_rule) answers = default 0 (spawn_counts s' !! rule_id ex_rule) ∧
  spawned (rule_id ex_rule) answers ≤ Z.max 0 (default 0 (max_spawn_count (limits ex_rule))).
Proof.
  split; [vm_compute; reflexivity|].
  apply (spawns_within_limit (H := ex_host) ex_path ex_t 1 PolicyStore_default ex_calls ex_policy ex_rule);
    [apply ex_inspect|by left|].
  repeat constructor; intros n [= <-]; lia.
Defined.

Lemma reload_fails_closed_witness :
  ∃ e, inspect_file (H := ex_host) (lit "etc/policy") 1 = Err e ∧
  fst (store_authorize ex_exe (ex_request None) 8
    (snd (run_calls ex_calls (snd (reload (H := ex_host) (Some (lit "etc/policy")) ex_t 1 PolicyStore_default))))) = Err tt.
Proof.
  eexists. split; [vm_compute; reflexivity|].
  eapply (reload_fails_closed (H := ex_host) (Some (lit "etc/policy")) ex_t 1 PolicyStore_default (lit "etc/policy"));
    [done|left; vm_compute; reflexivity].
Defined.

Lemma rule_grants_request_witness :
  ∃ m, fst (store_authorize ex_exe (ex_request None) 8
    (snd (run_calls ex_calls (snd (reload (H := ex_host) (Some ex_path) ex_t 1 PolicyStore_default))))) = Ok m.
Proof.
  apply (rule_grants_request (H := ex_host) ex_path ex_t 1 PolicyStore_default ex_calls ex_policy ex_rule);
    [apply ex_wf|apply ex_inspect|vm_compute; reflexivity|by left| |done].
  apply (rule_matches_grants ex_t ex_rule ex_exe (ex_request None)
    [ResolvedLair 1; ResolvedDojo 3; ResolvedSplint 2 (Current (lit "current"))]);
    [apply ex_wf| |vm_compute; reflexivity].
  intros r. unfold rule_resource. split.
  - intros Hr. exists (SelectLair 1). eexists. split; [by left|]. split; [vm_compute; reflexivity|exact Hr].
  - intros (sel & a & ->%list_elem_of_singleton & Ha & Hr). vm_compute in Ha. by injection Ha as <-.
Defined.
