(* ===== verification/Relay.v ===== *)
(** * The framing of the graphical relay ([splinterm-graphical-relay/src/lib.rs])

    The outer protocol that carries the channels of a window over one byte
    stream: frames, their bounds, the writer and the reader, and the allocator
    of channel identities. A reader is the bytes still to come before the end
    of the stream, a writer the bytes written so far; errors of the transport
    itself are not modelled. *)

From Stdlib Require Import String.
From S2P Require Import Prelude RustStd Utf8.

Definition VERSION : Z := 1.
Definition MAX_DATA_BYTES : Z := 16 * 1024.
Definition MAX_DIAGNOSTIC_BYTES : Z := 1024.
Definition MAX_NATIVE_WINDOW_SPLINTS : Z := 256.
Definition RETAINED_CHANNELS_PER_SPLINT : Z := 2.
Definition FIXED_WINDOW_SERVICE_CHANNELS : Z := 8.
Definition MAX_LOGICAL_CHANNELS : Z :=
  MAX_NATIVE_WINDOW_SPLINTS * RETAINED_CHANNELS_PER_SPLINT + FIXED_WINDOW_SERVICE_CHANNELS.
Definition MAX_CHANNEL_QUEUED_BYTES : Z := 64 * 1024.
Definition MAX_SESSION_QUEUED_BYTES : Z := MAX_LOGICAL_CHANNELS * MAX_CHANNEL_QUEUED_BYTES.

(** [*b"SPGR"]. *)
Definition MAGIC : list Z := [83; 80; 71; 82].
Definition HEADER_BYTES : nat := 16.
Definition KIND_HELLO : Z := 1.
Definition KIND_HELLO_ACK : Z := 2.
Definition KIND_OPEN_CHANNEL : Z := 3.
Definition KIND_CHANNEL_OPENED : Z := 4.
Definition KIND_CHANNEL_REJECTED : Z := 5.
Definition KIND_DATA : Z := 6.
Definition KIND_HALF_CLOSE : Z := 7.
Definition KIND_CLOSE_CHANNEL : Z := 8.
Definition KIND_SESSION_ERROR : Z := 9.

Inductive Frame :=
| Hello
| HelloAck
| OpenChannel (channel_id : Z)
| ChannelOpened (channel_id : Z)
| ChannelRejected (channel_id : Z) (reason : str)
| Data (channel_id : Z) (bytes : list Z)
| HalfClose (channel_id : Z)
| CloseChannel (channel_id : Z)
| SessionError (reason : str).

#[global] Instance Frame_eq_dec : EqDecision Frame.
Proof. solve_decision. Defined.

(** [char::is_control]: the Unicode category [Cc]. *)
Definition is_control (c : Z) : bool :=
  ((0 <=? c) && (c <=? 0x1F)) || ((0x7F <=? c) && (c <=? 0x9F)).

(** [if b { bail!(message) }]. *)
Definition bail_when (b : bool) (message : string) : outcome str unit :=
  if b then Err (lit message) else Ok tt.

Definition validate_diagnostic (value : str) : outcome str unit :=
  bail_when (bool_decide (value = []) || (MAX_DIAGNOSTIC_BYTES <? Z.of_nat (length (str_bytes value))) ||
             existsb is_control value)
    "graphical relay diagnostic is outside bounds".

(** [matches!(kind, KIND_HELLO | KIND_HELLO_ACK | KIND_SESSION_ERROR)]. *)
Definition session_frame (kind : Z) : bool :=
  (kind =? KIND_HELLO) || (kind =? KIND_HELLO_ACK) || (kind =? KIND_SESSION_ERROR).

Definition validate_channel (kind channel_id : Z) : outcome str unit :=
  bail_when (negb (eqb (session_frame kind) (channel_id =? 0)))
    "graphical relay frame has an invalid channel identity".

(** [Frame::parts]. *)
Definition parts (f : Frame) : outcome str (Z * Z * list Z) :=
  let? (kind, channel_id, payload) :=
    match f with
    | Hello => Ok (KIND_HELLO, 0, [])
    | HelloAck => Ok (KIND_HELLO_ACK, 0, [])
    | OpenChannel channel_id => Ok (KIND_OPEN_CHANNEL, channel_id, [])
    | ChannelOpened channel_id => Ok (KIND_CHANNEL_OPENED, channel_id, [])
    | ChannelRejected channel_id reason =>
        let? _ := validate_diagnostic reason in
        Ok (KIND_CHANNEL_REJECTED, channel_id, str_bytes reason)
    | Data channel_id bytes =>
        let? _ := bail_when (bool_decide (bytes = []) || (MAX_DATA_BYTES <? Z.of_nat (length bytes)))
          "graphical relay data length is outside bounds" in
        Ok (KIND_DATA, channel_id, bytes)
    | HalfClose channel_id => Ok (KIND_HALF_CLOSE, channel_id, [])
    | CloseChannel channel_id => Ok (KIND_CLOSE_CHANNEL, channel_id, [])
    | SessionError reason =>
        let? _ := validate_diagnostic reason in
        Ok (KIND_SESSION_ERROR, 0, str_bytes reason)
    end in
  let? _ := validate_channel kind channel_id in
  Ok (kind, channel_id, payload).

(** [writer.write_all(bytes)]. *)
Definition write_all (bytes : list Z) : M (list Z) str unit := modify (λ out, out ++ bytes).

Definition frame_header (kind channel_id payload_len : Z) : list Z :=
  MAGIC ++ to_be_bytes 2 VERSION ++ [kind; 0] ++ to_be_bytes 4 channel_id ++ to_be_bytes 4 payload_len.

Definition write_parts (kind channel_id : Z) (payload : list Z) : M (list Z) str unit :=
  let payload_len := Z.of_nat (length payload) in
  do! reject_if (u32_max <? payload_len) (lit "graphical relay payload is too large") in
  do! write_all (frame_header kind channel_id payload_len) in
  write_all payload.

Definition write_frame (f : Frame) : M (list Z) str unit :=
  let! (kind, channel_id, payload) := lift (parts f) in
  write_parts kind channel_id payload.

Definition write_data_frame (channel_id : Z) (payload : list Z) : M (list Z) str unit :=
  do! lift (bail_when (bool_decide (payload = []) || (MAX_DATA_BYTES <? Z.of_nat (length payload)))
    "graphical relay data length is outside bounds") in
  do! lift (validate_channel KIND_DATA channel_id) in
  write_parts KIND_DATA channel_id payload.

(** [reader.read_exact(&mut buffer)], with the error the callers make of the
    end of the stream; the bytes before it are consumed. *)
Definition read_exact (n : nat) (message : string) : M (list Z) str (list Z) :=
  let! input := get in
  if (length input <? n)%nat then
    do! put [] in
    fail (lit message)
  else
    do! put (drop n input) in
    ret (take n input).

(** The largest payload of each kind. *)
Definition maximum_payload (kind : Z) : outcome str Z :=
  if kind =? KIND_DATA then Ok MAX_DATA_BYTES
  else if (kind =? KIND_CHANNEL_REJECTED) || (kind =? KIND_SESSION_ERROR) then Ok MAX_DIAGNOSTIC_BYTES
  else if (kind =? KIND_HELLO) || (kind =? KIND_HELLO_ACK) || (kind =? KIND_OPEN_CHANNEL) ||
          (kind =? KIND_CHANNEL_OPENED) || (kind =? KIND_HALF_CLOSE) || (kind =? KIND_CLOSE_CHANNEL)
  then Ok 0
  else Err (lit "graphical relay frame kind is invalid").

(** The closure that decodes a diagnostic payload. *)
Definition diagnostic (payload : list Z) : outcome str str :=
  match from_utf8 payload with
  | None => Err (lit "graphical relay diagnostic is not UTF-8")
  | Some value => let? _ := validate_diagnostic value in Ok value
  end.

(** The frame of a validated kind; [unreachable!] is a panic. *)
Definition assemble (kind channel_id : Z) (payload : list Z) : outcome str Frame :=
  if kind =? KIND_HELLO then Ok Hello
  else if kind =? KIND_HELLO_ACK then Ok HelloAck
  else if kind =? KIND_OPEN_CHANNEL then Ok (OpenChannel channel_id)
  else if kind =? KIND_CHANNEL_OPENED then Ok (ChannelOpened channel_id)
  else if kind =? KIND_CHANNEL_REJECTED then
    let? reason := diagnostic payload in Ok (ChannelRejected channel_id reason)
  else if kind =? KIND_DATA then Ok (Data channel_id payload)
  else if kind =? KIND_HALF_CLOSE then Ok (HalfClose channel_id)
  else if kind =? KIND_CLOSE_CHANNEL then Ok (CloseChannel channel_id)
  else if kind =? KIND_SESSION_ERROR then
    let? reason := diagnostic payload in Ok (SessionError reason)
  else Panic.

(** [header[a..b]]. *)
Definition slice (a b : nat) (l : list Z) : list Z := take (b - a) (drop a l).

(** The kind, channel and payload length of a header, checked in the order of
    [read_frame]; the header has all its sixteen bytes. *)
Definition header_fields (header : list Z) : outcome str (Z * Z * Z) :=
  let? _ := bail_when (negb (bool_decide (take 4 header = MAGIC))) "graphical relay magic is invalid" in
  let? _ := bail_when (negb (from_be_bytes (slice 4 6 header) =? VERSION))
    "graphical relay version is incompatible" in
  let? _ := bail_when (negb (bool_decide (header !! 7%nat = Some 0)))
    "graphical relay reserved flags are nonzero" in
  match header !! 6%nat with
  | None => Panic
  | Some kind =>
      let channel_id := from_be_bytes (slice 8 12 header) in
      let? _ := validate_channel kind channel_id in
      Ok (kind, channel_id, from_be_bytes (slice 12 16 header))
  end.

(** The part of [read_frame] after the header. *)
Definition read_payload (kind channel_id payload_len : Z) : M (list Z) str (option Frame) :=
  let! maximum := lift (maximum_payload kind) in
  do! lift (bail_when ((maximum <? payload_len) || ((kind =? KIND_DATA) && (payload_len =? 0)))
    "graphical relay payload length is outside bounds") in
  let! payload := read_exact (Z.to_nat payload_len) "graphical relay payload is truncated" in
  let! f := lift (assemble kind channel_id payload) in
  ret (Some f).

Definition read_frame : M (list Z) str (option Frame) :=
  let! input := get in
  match input with
  | [] => ret None
  | first :: rest =>
      do! put rest in
      let! tail := read_exact (HEADER_BYTES - 1) "graphical relay header is truncated" in
      let! (kind, channel_id, payload_len) := lift (header_fields (first :: tail)) in
      read_payload kind channel_id payload_len
  end.

(** ** Channel identities *)

Record ChannelIdAllocator := { last_issued : Z }.

Definition ChannelIdAllocator_default : ChannelIdAllocator := {| last_issued := 0 |}.

Definition allocate : M ChannelIdAllocator str Z :=
  let! a := get in
  let! id := ok_or (if last_issued a + 1 <=? u32_max then Some (last_issued a + 1) else None)
    (lit "graphical relay channel ID space exhausted") in
  do! put {| last_issued := id |} in
  ret id.
