(* ===== verification/RelayProps.v ===== *)
(** * Theorems about the relay's framing

    Writing and reading are inverse in both directions, so frames cut a stream
    in exactly one way, and the reader returns on every input. *)

From Stdlib Require Import String.
From S2P Require Import Prelude RustStd Utf8 Relay.

(** The fields have their machine types. *)
Definition frame_typed (f : Frame) : Prop :=
  match f with
  | Hello | HelloAck => True
  | OpenChannel id | ChannelOpened id | HalfClose id | CloseChannel id => 0 ≤ id ≤ u32_max
  | ChannelRejected id reason => 0 ≤ id ≤ u32_max ∧ forallb is_scalar reason = true
  | Data id bytes => 0 ≤ id ≤ u32_max ∧ Forall is_byte bytes
  | SessionError reason => forallb is_scalar reason = true
  end.

Lemma be_bytes_4 x :
  0 ≤ x ≤ u32_max → ∃ a b c d, to_be_bytes 4 x = [a; b; c; d] ∧ from_be_bytes [a; b; c; d] = x.
Proof.
  intros Hx. pose proof (to_be_bytes_length 4 x) as Hl. pose proof (from_to_be_bytes 4 x) as Hf.
  destruct (to_be_bytes 4 x) as [|a [|b [|c [|d [|]]]]]; try done. exists a, b, c, d. split; [done|].
  apply Hf. unfold u32_max in Hx. simpl. lia.
Qed.

Lemma be_bytes_inv l :
  Forall is_byte l → to_be_bytes (length l) (from_be_bytes l) = l ∧
  0 ≤ from_be_bytes l < 256 ^ Z.of_nat (length l).
Proof. intros Hl. split; [by apply to_from_be_bytes|by apply from_be_bytes_range]. Qed.

(** Any bytes of a list of bytes. *)
Ltac bytes := repeat (apply Forall_cons_2; [assumption|]); apply Forall_nil_2.

Lemma bail_when_run b m : bail_when b m = if b then Err (lit m) else Ok tt.
Proof. done. Qed.

(** A header is read as it was written. *)
Lemma header_fields_header kind id n :
  0 ≤ id ≤ u32_max → 0 ≤ n ≤ u32_max →
  header_fields (frame_header kind id n) = let? _ := validate_channel kind id in Ok (kind, id, n).
Proof.
  intros (a & b & c & d & He & Hf)%be_bytes_4 (a' & b' & c' & d' & He' & Hf')%be_bytes_4.
  unfold frame_header, header_fields. rewrite He, He'.
  change (slice 8 12 _) with [a; b; c; d]. change (slice 12 16 _) with [a'; b'; c'; d'].
  by rewrite Hf, Hf'.
Qed.

Lemma frame_header_length kind id n : length (frame_header kind id n) = HEADER_BYTES.
Proof. unfold frame_header. rewrite !length_app, !to_be_bytes_length. done. Qed.

(** And nothing else is read as a header. *)
Lemma header_fields_Ok header kind id n :
  Forall is_byte header → length header = HEADER_BYTES → header_fields header = Ok (kind, id, n) →
  header = frame_header kind id n ∧ 0 ≤ id ≤ u32_max ∧ 0 ≤ n ≤ u32_max ∧ validate_channel kind id = Ok tt.
Proof.
  intros Hb Hl. unfold HEADER_BYTES in Hl. do 16 (destruct header as [|? header]; [done|]).
  destruct header; [|done]. clear Hl.
  unfold header_fields, slice, frame_header. cbn [take drop Nat.sub]. cbn [lookup list_lookup].
  rewrite !bail_when_run.
  destruct (bool_decide _) eqn:Hm; [|done]. cbn [negb obind]. apply bool_decide_eq_true in Hm.
  destruct (from_be_bytes [z3; z4] =? VERSION) eqn:Hv; [|done]. cbn [negb obind]. apply Z.eqb_eq in Hv.
  destruct (bool_decide (Some z6 = _)) eqn:H0; [|done]. cbn [negb obind]. apply bool_decide_eq_true in H0.
  destruct (validate_channel _ _) as [[]| |] eqn:Hc; [|done..]. cbn [obind]. intros [= <- <- <-].
  rewrite !Forall_cons in Hb. destruct_and! Hb.
  destruct (be_bytes_inv [z3; z4]) as [Hver _]; [bytes|].
  destruct (be_bytes_inv [z7; z8; z9; z10]) as [Hid ?]; [bytes|].
  destruct (be_bytes_inv [z11; z12; z13; z14]) as [Hlen ?]; [bytes|].
  cbn [length] in Hver, Hid, Hlen. rewrite <-Hv, Hver, Hid, Hlen. unfold u32_max.
  split_and!; [|simpl in *; lia..|done]. injection H0 as ->. cbn [app]. rewrite <-Hm. reflexivity.
Qed.

(** What is on the wire for a frame. *)
Definition encoding (f : Frame) : option (list Z) :=
  match parts f with
  | Ok (kind, id, payload) => Some (frame_header kind id (Z.of_nat (length payload)) ++ payload)
  | _ => None
  end.

Lemma diagnostic_encoded reason :
  forallb is_scalar reason = true → validate_diagnostic reason = Ok tt →
  diagnostic (str_bytes reason) = Ok reason ∧ Z.of_nat (length (str_bytes reason)) ≤ MAX_DIAGNOSTIC_BYTES.
Proof.
  intros Hs Hv. unfold diagnostic. rewrite (proj2 (from_utf8_Some _ reason)) by done.
  rewrite Hv. split; [done|].
  unfold validate_diagnostic, bail_when in Hv. destruct (_ || _) eqn:Hb; [done|]. lia.
Qed.

(** What the writer accepts, in one place: kind, channel and payload of a frame
    within bounds. *)
Lemma parts_Ok f kind id payload :
  parts f = Ok (kind, id, payload) → frame_typed f →
  validate_channel kind id = Ok tt ∧ 0 ≤ id ≤ u32_max ∧ assemble kind id payload = Ok f ∧
  ∃ maximum, maximum_payload kind = Ok maximum ∧ Z.of_nat (length payload) ≤ maximum ≤ u32_max ∧
    (kind = KIND_DATA → payload ≠ []).
Proof.
  intros Hp Ht. unfold parts in Hp.
  destruct f as [| |i|i|i reason|i bytes|i|i|reason]; cbn [frame_typed obind] in *.
  all: try lazymatch type of Hp with
    | context [validate_diagnostic ?r] =>
        destruct (validate_diagnostic r) as [[]| |] eqn:Hr; [|done..];
        pose proof (diagnostic_encoded r ltac:(apply Ht) Hr) as [Hd Hlen]
    | context [bail_when ?b _] =>
        destruct (bail_when b _) as [[]| |] eqn:Hr; [|done..]
    end; cbn [obind] in Hp.
  all: lazymatch type of Hp with
    | context [validate_channel ?k ?c] =>
        destruct (validate_channel k c) as [[]| |] eqn:Hc; [|done..]
    end; cbn [obind] in Hp; injection Hp as <- <- <-.
  all: split; [done|]; split; [first [apply Ht|done]|].
  all: split; [unfold assemble; simpl; rewrite ?Hd; done|].
  all: eexists; split; [reflexivity|]; split; [try (split; [simpl; lia|done])|try done].
  all: unfold bail_when in Hr; destruct (_ || _) eqn:Hb; [done|];
    apply orb_false_iff in Hb as [Hn%bool_decide_eq_false Hl%Z.ltb_ge]; done.
Qed.

(** [f] written, then anything. *)
Lemma write_frame_run f out :
  frame_typed f →
  write_frame f out =
  match encoding f with
  | Some bytes => (Ok tt, out ++ bytes)
  | None => (match parts f with Err e => Err e | _ => Panic end, out)
  end.
Proof.
  intros Ht. unfold write_frame, encoding, bind at 1, lift.
  destruct (parts f) as [[[kind id] payload]|e|] eqn:Hp; [|done..].
  destruct (parts_Ok f kind id payload Hp Ht) as (_ & _ & _ & m & _ & Hm & _).
  unfold write_parts, reject_if. rewrite (proj2 (Z.ltb_ge _ _)) by lia.
  unfold write_all, bind, modify, ret. by rewrite app_assoc.
Qed.

Lemma read_exact_app n m l1 l2 : length l1 = n → read_exact n m (l1 ++ l2) = (Ok l1, l2).
Proof.
  intros <-. unfold read_exact. change (bind get ?k ?s) with (k s s). cbv beta.
  rewrite (proj2 (Nat.ltb_ge _ _)) by (rewrite length_app; lia).
  unfold bind, put, ret. by rewrite drop_app_length, take_app_length.
Qed.

Lemma read_frame_split header tail :
  length header = HEADER_BYTES →
  read_frame (header ++ tail) =
  (let! (kind, id, n) := lift (header_fields header) in read_payload kind id n) tail.
Proof.
  destruct header as [|first h]; [done|]. intros [= Hh]. unfold read_frame.
  change (bind get ?k ?s) with (k s s). cbn [app]. cbv beta iota.
  change (bind (put ?x) ?k ?s) with (k tt x). cbv beta. unfold bind at 1.
  by rewrite (read_exact_app 15).
Qed.

(** Reading what was written. *)
Lemma read_encoding f bytes rest :
  frame_typed f → encoding f = Some bytes → read_frame (bytes ++ rest) = (Ok (Some f), rest).
Proof.
  intros Ht. unfold encoding. destruct (parts f) as [[[kind id] payload]|e|] eqn:Hp; [|done..].
  intros Hb. apply (inj Some) in Hb as <-.
  destruct (parts_Ok f kind id payload Hp Ht) as (Hc & Hid & Ha & m & Hm & Hl & Hne).
  rewrite <-app_assoc, read_frame_split by apply frame_header_length.
  rewrite header_fields_header, Hc by lia. unfold bind at 1, lift. cbn [obind].
  unfold read_payload. rewrite Hm. unfold bind at 1, lift at 1.
  rewrite (proj2 (Z.ltb_ge _ _)) by lia.
  assert ((kind =? KIND_DATA) && (Z.of_nat (length payload) =? 0) = false) as ->.
  { apply andb_false_iff. destruct (Z.eqb_spec kind KIND_DATA) as [->|]; [right|by left].
    specialize (Hne eq_refl). destruct payload; [done|]. simpl. lia. }
  cbn [orb]. unfold bind, lift, bail_when. rewrite read_exact_app by lia. by rewrite Ha.
Qed.

Lemma diagnostic_Ok payload reason :
  diagnostic payload = Ok reason →
  validate_diagnostic reason = Ok tt ∧ forallb is_scalar reason = true ∧ payload = str_bytes reason.
Proof.
  unfold diagnostic. destruct (from_utf8 payload) as [v|] eqn:Hu; [|done].
  destruct (validate_diagnostic v) as [[]| |] eqn:Hv; [|done..]. intros [= <-].
  apply from_utf8_Some in Hu as [? ?]. done.
Qed.

Lemma validate_channel_session kind id :
  validate_channel kind id = Ok tt → session_frame kind = true → id = 0.
Proof.
  unfold validate_channel, bail_when. intros Hv Hs. rewrite Hs in Hv.
  destruct (Z.eqb_spec id 0); [done|]. done.
Qed.

(** The kinds [maximum_payload] knows. *)
Lemma maximum_payload_Ok kind m :
  maximum_payload kind = Ok m →
  (kind = KIND_DATA ∧ m = MAX_DATA_BYTES) ∨
  ((kind = KIND_CHANNEL_REJECTED ∨ kind = KIND_SESSION_ERROR) ∧ m = MAX_DIAGNOSTIC_BYTES) ∨
  ((kind = KIND_HELLO ∨ kind = KIND_HELLO_ACK ∨ kind = KIND_OPEN_CHANNEL ∨ kind = KIND_CHANNEL_OPENED ∨
    kind = KIND_HALF_CLOSE ∨ kind = KIND_CLOSE_CHANNEL) ∧ m = 0).
Proof.
  unfold maximum_payload. destruct (Z.eqb_spec kind KIND_DATA); [intros [= <-]; by left|].
  destruct (Z.eqb_spec kind KIND_CHANNEL_REJECTED); [intros [= <-]; by right; left; auto|].
  destruct (Z.eqb_spec kind KIND_SESSION_ERROR); [intros [= <-]; by right; left; auto|].
  cbn [orb]. lazymatch goal with |- (if ?b then _ else _) = _ → _ => destruct b eqn:Hk end; [|done].
  intros [= <-]. right; right.
  rewrite !orb_true_iff, !Z.eqb_eq in Hk. tauto.
Qed.

(** A frame assembled from a valid header and payload is written as they are. *)
Lemma assemble_Ok kind id payload m f :
  validate_channel kind id = Ok tt → 0 ≤ id ≤ u32_max → maximum_payload kind = Ok m →
  Z.of_nat (length payload) ≤ m → (kind = KIND_DATA → payload ≠ []) → Forall is_byte payload →
  assemble kind id payload = Ok f → parts f = Ok (kind, id, payload) ∧ frame_typed f.
Proof.
  intros Hc Hid Hm Hl Hne Hb Ha. pose proof (validate_channel_session kind id Hc) as Hs.
  apply maximum_payload_Ok in Hm as [[-> ->]|[[[->| ->] ->]|[Hk ->]]].
  - cbn in Ha. injection Ha as <-. unfold parts, bail_when.
    rewrite (proj2 (bool_decide_eq_false _) (Hne eq_refl)), (proj2 (Z.ltb_ge _ _)) by done.
    cbn [orb obind]. by rewrite Hc.
  - cbn -[diagnostic] in Ha. destruct (diagnostic payload) as [r| |] eqn:Hd; [|done..].
    apply diagnostic_Ok in Hd as (Hv & Hr & ->). injection Ha as <-.
    unfold parts. rewrite Hv. cbn [obind]. by rewrite Hc.
  - cbn -[diagnostic] in Ha. destruct (diagnostic payload) as [r| |] eqn:Hd; [|done..].
    apply diagnostic_Ok in Hd as (Hv & Hr & ->). injection Ha as <-.
    unfold parts. rewrite Hv. cbn [obind]. rewrite Hs by done. done.
  - destruct payload; [|simpl in Hl; lia].
    destruct Hk as [->|[->|[->|[->|[->| ->]]]]]; cbn in Ha; injection Ha as <-;
      unfold parts; cbn [obind]; rewrite ?Hs by done; (try by rewrite Hc); done.
Qed.

Lemma assemble_Panic kind id payload m : maximum_payload kind = Ok m → assemble kind id payload ≠ Panic.
Proof.
  assert (diagnostic payload ≠ Panic) as Hd.
  { unfold diagnostic. destruct (from_utf8 payload); [|done]. unfold validate_diagnostic, bail_when.
    by destruct (_ || _). }
  intros [[-> _]|[[[->| ->] _]|[Hk _]]]%maximum_payload_Ok; cbn -[diagnostic]; [done|..].
  - by destruct (diagnostic payload).
  - by destruct (diagnostic payload).
  - by destruct Hk as [->|[->|[->|[->|[->| ->]]]]].
Qed.

Lemma read_exact_run n m input :
  read_exact n m input =
  if (length input <? n)%nat then (Err (lit m), []) else (Ok (take n input), drop n input).
Proof. unfold read_exact, bind, get, put, fail, ret. by destruct (_ <? _)%nat. Qed.

(** Reading a payload: the frame it makes, with the bytes consumed. *)
Lemma read_payload_run kind id n input :
  validate_channel kind id = Ok tt → 0 ≤ id ≤ u32_max → 0 ≤ n → Forall is_byte input →
  match read_payload kind id n input with
  | (Ok (Some f), rest) => ∃ payload, parts f = Ok (kind, id, payload) ∧ frame_typed f ∧
      Z.of_nat (length payload) = n ∧ input = payload ++ rest
  | (Ok None, _) | (Panic, _) => False
  | (Err _, _) => True
  end.
Proof.
  intros Hc Hid Hn Hb. unfold read_payload, bind, lift.
  destruct (maximum_payload kind) as [m|e|] eqn:Hm; [|done|].
  2: { unfold maximum_payload in Hm. by repeat destruct (_ || _); repeat destruct (_ =? _). }
  unfold bail_when. destruct (_ || _) eqn:Hl; [done|]. rewrite read_exact_run.
  destruct (Nat.ltb_spec (length input) (Z.to_nat n)); [done|].
  set (payload := take (Z.to_nat n) input).
  assert (length payload = Z.to_nat n) as Hpl by (unfold payload; rewrite length_take; lia).
  destruct (assemble kind id payload) as [f|e|] eqn:Ha; [|done|by eapply assemble_Panic].
  cbn [ret]. apply orb_false_iff in Hl as [Hl1%Z.ltb_ge Hl2].
  destruct (assemble_Ok kind id payload m f) as [Hp Ht]; try done; [lia| |by apply Forall_take|].
  - intros -> Hnil. rewrite Hnil in Hpl. simpl in Hl2. simpl in Hpl. lia.
  - exists payload. split_and!; [done..|lia|]. unfold payload. by rewrite take_drop.
Qed.

Lemma header_fields_Panic header : length header = HEADER_BYTES → header_fields header ≠ Panic.
Proof.
  intros Hl. unfold header_fields, bail_when. destruct (negb _); [done|]. cbn [obind].
  destruct (negb _); [done|]. cbn [obind]. destruct (negb _); [done|]. cbn [obind].
  destruct (lookup_lt_is_Some_2 header 6%nat) as [k ->]; [rewrite Hl; unfold HEADER_BYTES; lia|].
  unfold validate_channel, bail_when. by destruct (negb _).
Qed.

(** C20. Reading decides the framing exactly: it returns on every stream; it
    reads nothing only at the end; a frame it reads is one the writer accepts,
    and the bytes consumed are those the writer writes for it; and when it
    fails, the stream starts with no frame the writer could have written. *)
Theorem read_frame_exact input :
  Forall is_byte input →
  match read_frame input with
  | (Ok (Some f), rest) => frame_typed f ∧ ∃ bytes, encoding f = Some bytes ∧ input = bytes ++ rest
  | (Ok None, rest) => input = [] ∧ rest = []
  | (Err _, _) => ∀ f bytes, frame_typed f → encoding f = Some bytes → ¬ bytes `prefix_of` input
  | (Panic, _) => False
  end.
Proof.
  intros Hb.
  assert (∀ e s, read_frame input = (Err e, s) →
    ∀ f bytes, frame_typed f → encoding f = Some bytes → ¬ bytes `prefix_of` input) as Herr.
  { intros e s He f bytes Ht Hf [k ->]. by rewrite (read_encoding f bytes k Ht Hf) in He. }
  destruct (decide (length input < HEADER_BYTES)%nat) as [Hshort|Hlong].
  - destruct input as [|b input]; [done|]. destruct (read_frame (b :: input)) as [[o|e|] s] eqn:Hr.
    2: { by eapply Herr. }
    all: exfalso; unfold read_frame, bind at 1 2 3, get, put in Hr; rewrite read_exact_run in Hr;
      rewrite (proj2 (Nat.ltb_lt _ _)) in Hr by (unfold HEADER_BYTES in *; simpl in *; lia); done.
  - rewrite <-(take_drop HEADER_BYTES input) in Hb. apply Forall_app in Hb as [Hbh Hbt].
    assert (length (take HEADER_BYTES input) = HEADER_BYTES) as Hlh by (rewrite length_take; lia).
    pose proof (read_frame_split (take HEADER_BYTES input) (drop HEADER_BYTES input) Hlh) as Hrun.
    rewrite take_drop in Hrun. pose proof (take_drop HEADER_BYTES input) as Hin.
    set (header := take HEADER_BYTES input) in *. set (tail := drop HEADER_BYTES input) in *.
    rewrite Hrun in Herr |- *. unfold bind, lift in *.
    destruct (header_fields header) as [[[kind id] n]|e|] eqn:Hh;
      [|by eapply Herr|by eapply header_fields_Panic].
    destruct (header_fields_Ok header kind id n Hbh Hlh Hh) as (Hhd & Hid & Hn & Hc).
    pose proof (read_payload_run kind id n tail Hc Hid ltac:(lia) Hbt) as Hr.
    destruct (read_payload kind id n tail) as [[[f|]|e|] rest]; [|done|by eapply Herr|done].
    destruct Hr as (payload & Hp & Ht & Hlen & Htail). split; [done|].
    unfold encoding. rewrite Hp. eexists. split; [done|].
    by rewrite Hlen, <-Hhd, <-app_assoc, <-Htail.
Qed.

(** Reading frames until the end of the stream; every frame takes a header, so
    a round per byte is more than enough. *)
Fixpoint read_frames (fuel : nat) : M (list Z) str (list Frame) :=
  match fuel with
  | O => panic
  | S fuel =>
      let! o := read_frame in
      match o with
      | None => ret []
      | Some f => let! fs := read_frames fuel in ret (f :: fs)
      end
  end.

Lemma encoding_nonempty f bytes : encoding f = Some bytes → (HEADER_BYTES ≤ length bytes)%nat.
Proof.
  unfold encoding. destruct (parts f) as [[[kind id] payload]|e|]; [|done..].
  intros Hb. apply (inj Some) in Hb as <-. rewrite length_app, frame_header_length. lia.
Qed.

(** Any sequence of frames the writer accepts is read back from the stream
    it leaves: the same frames, in order, up to the end. *)
Theorem frames_round_trip fs :
  Forall (λ f, frame_typed f ∧ is_Some (encoding f)) fs →
  ∃ out, for_each fs write_frame [] = (Ok tt, out) ∧
    read_frames (S (length out)) out = (Ok fs, []).
Proof.
  intros Hfs.
  assert (∃ out, (∀ pre, for_each fs write_frame pre = (Ok tt, pre ++ out)) ∧
    ∀ n, (length out < n)%nat → read_frames n out = (Ok fs, [])) as (out & Hw & Hr).
  2: { exists out. split; [apply Hw|]. apply Hr. lia. }
  induction Hfs as [|f fs [Ht [bytes Hf]] _ (out & Hw & Hr)].
  { exists []. split; [intros pre; by rewrite app_nil_r|]. intros [|n] Hn; [lia|]. done. }
  exists (bytes ++ out). split.
  - intros pre. cbn [for_each]. unfold bind. rewrite write_frame_run, Hf by done. by rewrite Hw, app_assoc.
  - intros [|n] Hn; [lia|]. cbn [read_frames]. unfold bind. rewrite (read_encoding f bytes out Ht Hf).
    pose proof (encoding_nonempty f bytes Hf) as Hne. unfold HEADER_BYTES in Hne.
    rewrite length_app in Hn. rewrite Hr by lia. done.
Qed.

Definition ex_frames : list Frame :=
  [Hello; OpenChannel 7; Data 7 [1; 2; 255]; ChannelRejected 9 (lit "busy"); CloseChannel 7].

Lemma frames_round_trip_witness :
  ∃ out, for_each ex_frames write_frame [] = (Ok tt, out) ∧ read_frames (S (length out)) out = (Ok ex_frames, []).
Proof.
  apply frames_round_trip.
  repeat (apply Forall_cons_2; [split; [|vm_compute; by eexists]|]); [..|constructor];
    vm_compute; intuition (try congruence).
  repeat constructor; vm_compute; congruence.
Defined.

Lemma read_frame_exact_witness :
  frame_typed (OpenChannel 7) ∧ ∃ bytes, encoding (OpenChannel 7) = Some bytes ∧
    frame_header 3 7 0 ++ [5; 6] = bytes ++ [5; 6].
Proof.
  refine (read_frame_exact (frame_header 3 7 0 ++ [5; 6]) _).
  repeat (apply Forall_cons_2; [unfold is_byte; vm_compute; intuition congruence|]). constructor.
Defined.
