(* ===== verification/FairQueue.v ===== *)
(** * The fair data queue of the relay ([splinterm-graphical-relay/src/fair_queue.rs])

    Producers reserve the bytes of a frame against a channel and a session
    semaphore, commit the frame to the channel's queue, and one consumer takes
    frames from the ready channels in turn; a frame holds its bytes until it is
    dropped. Every method takes the lock for its whole effect, so a run of the
    program is a sequence of the transitions [step], in any order the callers
    choose. The value a caller owns (a pending reservation, a permit, a received
    frame) is in the world, so that dropping it is a transition too. tokio's
    semaphore is the class [Semaphores]; an acquisition that has to wait is a
    transition that is not enabled yet. *)

From Stdlib Require Import String.
From stdpp Require Import gmap.
From S2P Require Import Prelude RustStd Relay.

(** ** Semaphores *)

(** What a completed acquisition, a release and a closing do to the permits. No
    law says when an acquisition completes: tokio serves the waiters in the order
    they came, so that one can have to wait although there are enough permits.
    Nothing here depends on who is served first. *)
Class Semaphores := {
  Sem : Type;
  sem_new : Z → Sem;
  available : Sem → Z;
  is_closed : Sem → bool;
  acquire : Z → Sem → option Sem;
  release : Z → Sem → Sem;
  close : Sem → Sem;
  sem_new_ok n : available (sem_new n) = n ∧ is_closed (sem_new n) = false;
  acquire_ok n s s' :
    acquire n s = Some s' →
    is_closed s = false ∧ n ≤ available s ∧ available s' = available s - n ∧ is_closed s' = false;
  release_ok n s : available (release n s) = available s + n ∧ is_closed (release n s) = is_closed s;
  close_ok s : available (close s) = available s ∧ is_closed (close s) = true;
}.

(** ** The queue *)

(** The two permits of a frame are of [MAX_DATA_BYTES]: one of the session, one
    of the semaphore of the channel value [handle]. *)
Record FairData := {
  channel_id : Z;
  bytes : list Z;
  handle : nat;
}.

#[global] Instance FairData_eq_dec : EqDecision FairData.
Proof. solve_decision. Defined.

Record QueueState := {
  channels : gmap Z (list FairData);
  ready : list Z;
  receiver_closed : bool;
  sender_count : Z;
}.

Definition QueueState_eta (q : QueueState) : QueueState :=
  {| channels := channels q; ready := ready q;
     receiver_closed := receiver_closed q; sender_count := sender_count q |}.

Definition set_sender_count (n : Z) (q : QueueState) : QueueState :=
  ltac:(update_field QueueState_eta q sender_count n).

(** [saturating_add] on [usize]. *)
Definition sender_clone (q : QueueState) : QueueState :=
  set_sender_count (Z.min (sender_count q + 1) usize_max) q.

Definition sender_drop (q : QueueState) : QueueState :=
  set_sender_count (saturating_sub (sender_count q) 1) q.

(** [FairDataChannel::discard], under the lock; the removed frames are dropped. *)
Definition queue_discard (id : Z) (q : QueueState) : list FairData * QueueState :=
  (default [] (channels q !! id),
   {| channels := delete id (channels q);
      ready := filter (λ i, i ≠ id) (ready q);
      receiver_closed := receiver_closed q;
      sender_count := sender_count q |}).

(** [FairDataPermit::send]; [channel_closed] is [semaphore().is_closed()]. *)
Definition queue_send (channel_closed : bool) (item : FairData) : M QueueState str unit :=
  do! lift (bail_when (bool_decide (bytes item = []) || (MAX_DATA_BYTES <? Z.of_nat (length (bytes item))))
    "fair data payload length is outside bounds") in
  let! q := get in
  do! reject_if (receiver_closed q || channel_closed) (lit "fair data receiver or channel is closed") in
  let queue := default [] (channels q !! channel_id item) in
  put {| channels := <[channel_id item := queue ++ [item]]> (channels q);
         ready := if bool_decide (queue = []) then ready q ++ [channel_id item] else ready q;
         receiver_closed := receiver_closed q;
         sender_count := sender_count q |}.

Inductive poll (A : Type) := Ready (a : A) | Pending.
Arguments Ready {A} a.
Arguments Pending {A}.

(** One round of [FairDataReceiver::recv] under the lock; [Pending] waits for a
    notification. *)
Definition queue_recv (q : QueueState) : poll (option FairData) * QueueState :=
  match ready q with
  | id :: rest =>
      let popped := {| channels := channels q; ready := rest;
                       receiver_closed := receiver_closed q; sender_count := sender_count q |} in
      match channels q !! id with
      | None => (Ready None, popped)
      | Some [] => (Ready None, popped)
      | Some (item :: queue) =>
          (Ready (Some item),
           {| channels := if bool_decide (queue = []) then delete id (channels q)
                          else <[id := queue]> (channels q);
              ready := if bool_decide (queue = []) then rest else rest ++ [id];
              receiver_closed := receiver_closed q;
              sender_count := sender_count q |})
      end
  | [] => if sender_count q =? 0 then (Ready None, q) else (Pending, q)
  end.

(** Every queued frame, channel by channel. *)
Definition queued (q : QueueState) : list FairData := map_to_list (channels q) ≫= snd.

(** [Drop for FairDataReceiver], under the lock; the queued frames are dropped. *)
Definition queue_close (q : QueueState) : list FairData * QueueState :=
  (queued q,
   {| channels := ∅; ready := []; receiver_closed := true; sender_count := sender_count q |}).

(** ** The world *)

Section world.
Context `{Semaphores}.

(** [handles]: the channel values made so far, each with its identity and its
    semaphore. [reserving]: reservations that hold channel bytes and wait for
    session bytes; [permits]: completed ones; both name the channel value. *)
Record World := {
  queue : QueueState;
  session_bytes : Sem;
  handles : list (Z * Sem);
  reserving : list nat;
  permits : list nat;
  in_flight : list FairData;
}.

(** [fair_data_queue]. *)
Definition fair_data_queue : World :=
  {| queue := {| channels := ∅; ready := []; receiver_closed := false; sender_count := 1 |};
     session_bytes := sem_new MAX_SESSION_QUEUED_BYTES;
     handles := []; reserving := []; permits := []; in_flight := [] |}.

Definition World_eta (w : World) : World :=
  {| queue := queue w; session_bytes := session_bytes w; handles := handles w;
     reserving := reserving w; permits := permits w; in_flight := in_flight w |}.
Definition set_queue x (w : World) : World := ltac:(update_field World_eta w queue x).
Definition set_session_bytes x (w : World) : World := ltac:(update_field World_eta w session_bytes x).
Definition set_handles x (w : World) : World := ltac:(update_field World_eta w handles x).
Definition set_reserving x (w : World) : World := ltac:(update_field World_eta w reserving x).
Definition set_permits x (w : World) : World := ltac:(update_field World_eta w permits x).
Definition set_in_flight x (w : World) : World := ltac:(update_field World_eta w in_flight x).

(** Dropping an [OwnedSemaphorePermit] of a channel, or of the session. *)
Definition release_channel (h : nat) (w : World) : World :=
  set_handles (alter (λ '(id, s), (id, release MAX_DATA_BYTES s)) h (handles w)) w.

Definition release_session (w : World) : World :=
  set_session_bytes (release MAX_DATA_BYTES (session_bytes w)) w.

(** Dropping both permits of a frame. *)
Definition release_both (h : nat) (w : World) : World := release_session (release_channel h w).

Definition drop_frames (l : list FairData) (w : World) : World :=
  foldl (λ w item, release_both (handle item) w) w l.

Inductive op :=
| CloneSender
| DropSender
| OpenHandle (id : Z)
| BeginReserve (h : nat)
| FinishReserve (k : nat)
| CancelReserve (k : nat)
| DropPermit (k : nat)
| SendFrame (k : nat) (payload : list Z)
| Receive
| DropFrame (k : nat)
| Discard (h : nat)
| Drain (h : nat)
| DropReceiver.

Inductive answer :=
| Done
| Failed (message : str)
| Received (item : option FairData)
| Waiting.

(** [FairDataSender::channel]. *)
Definition open_handle (id : Z) (w : World) : World :=
  set_handles (handles w ++ [(id, sem_new MAX_CHANNEL_QUEUED_BYTES)]) w.

(** The first half of [FairDataChannel::reserve]. *)
Definition begin_reserve (h : nat) (w : World) : option (answer * World) :=
  match handles w !! h with
  | None => None
  | Some (id, s) =>
      if is_closed s then Some (Failed (lit "fair data channel byte budget closed"), w)
      else match acquire MAX_DATA_BYTES s with
           | None => Some (Waiting, w)
           | Some s' => Some (Done, set_reserving (reserving w ++ [h]) (set_handles (<[h := (id, s')]> (handles w)) w))
           end
  end.

(** Its second half; an error drops the channel bytes it holds. *)
Definition finish_reserve (k : nat) (w : World) : option (answer * World) :=
  match reserving w !! k with
  | None => None
  | Some h =>
      let w' := set_reserving (delete k (reserving w)) w in
      if is_closed (session_bytes w)
      then Some (Failed (lit "fair data session byte budget closed"), release_channel h w')
      else match acquire MAX_DATA_BYTES (session_bytes w) with
           | None => Some (Waiting, w)
           | Some s' =>
               if receiver_closed (queue w)
               then Some (Failed (lit "fair data receiver is closed"),
                          release_both h (set_session_bytes s' w'))
               else Some (Done, set_permits (permits w ++ [h]) (set_session_bytes s' w'))
           end
  end.

(** Dropping the future of [reserve] while it waits for session bytes. *)
Definition cancel_reserve (k : nat) (w : World) : option (answer * World) :=
  match reserving w !! k with
  | None => None
  | Some h => Some (Done, release_channel h (set_reserving (delete k (reserving w)) w))
  end.

Definition drop_permit (k : nat) (w : World) : option (answer * World) :=
  match permits w !! k with
  | None => None
  | Some h => Some (Done, release_both h (set_permits (delete k (permits w)) w))
  end.

(** [FairDataPermit::send] consumes the permit; an error drops its bytes. *)
Definition send_frame (k : nat) (payload : list Z) (w : World) : option (answer * World) :=
  match permits w !! k with
  | None => None
  | Some h =>
      match handles w !! h with
      | None => None
      | Some (id, s) =>
          let w' := set_permits (delete k (permits w)) w in
          match queue_send (is_closed s) {| channel_id := id; bytes := payload; handle := h |} (queue w) with
          | (Ok _, q) => Some (Done, set_queue q w')
          | (Err e, q) => Some (Failed e, release_both h (set_queue q w'))
          | (Panic, _) => None
          end
      end
  end.

(** [FairDataReceiver::recv], while the receiver lives. *)
Definition receive (w : World) : option (answer * World) :=
  if receiver_closed (queue w) then None
  else
    let '(r, q) := queue_recv (queue w) in
    Some (match r with
          | Ready (Some item) => (Received (Some item), set_in_flight (in_flight w ++ [item]) (set_queue q w))
          | Ready None => (Received None, set_queue q w)
          | Pending => (Waiting, set_queue q w)
          end).

(** The physical write completed: the frame is dropped. *)
Definition drop_frame (k : nat) (w : World) : option (answer * World) :=
  match in_flight w !! k with
  | None => None
  | Some item => Some (Done, release_both (handle item) (set_in_flight (delete k (in_flight w)) w))
  end.

(** [FairDataChannel::discard]. *)
Definition discard (h : nat) (w : World) : option (answer * World) :=
  match handles w !! h with
  | None => None
  | Some (id, s) =>
      let '(frames, q) := queue_discard id (queue w) in
      Some (Done, drop_frames frames (set_queue q (set_handles (<[h := (id, close s)]> (handles w)) w)))
  end.

(** [FairDataChannel::drain]: all the channel's bytes are taken and given back. *)
Definition drain (h : nat) (w : World) : option (answer * World) :=
  match handles w !! h with
  | None => None
  | Some (id, s) =>
      if is_closed s then Some (Failed (lit "fair data channel byte budget closed"), w)
      else match acquire MAX_CHANNEL_QUEUED_BYTES s with
           | None => Some (Waiting, w)
           | Some s' => Some (Done, set_handles (<[h := (id, release MAX_CHANNEL_QUEUED_BYTES s')]> (handles w)) w)
           end
  end.

(** [Drop for FairDataReceiver]. *)
Definition drop_receiver (w : World) : option (answer * World) :=
  if receiver_closed (queue w) then None
  else
    let '(frames, q) := queue_close (queue w) in
    let w' := drop_frames frames (set_queue q w) in
    Some (Done, set_session_bytes (close (session_bytes w')) w').

(** A transition; [None] when its caller does not own what it names. *)
Definition step (o : op) (w : World) : option (answer * World) :=
  match o with
  | CloneSender => Some (Done, set_queue (sender_clone (queue w)) w)
  | DropSender => Some (Done, set_queue (sender_drop (queue w)) w)
  | OpenHandle id => Some (Done, open_handle id w)
  | BeginReserve h => begin_reserve h w
  | FinishReserve k => finish_reserve k w
  | CancelReserve k => cancel_reserve k w
  | DropPermit k => drop_permit k w
  | SendFrame k payload => send_frame k payload w
  | Receive => receive w
  | DropFrame k => drop_frame k w
  | Discard h => discard h w
  | Drain h => drain h w
  | DropReceiver => drop_receiver w
  end.

(** What a transition shows of the queue. *)
Inductive event :=
| Sent (item : FairData)
| Got (item : FairData)
| Idle
| Discarded (id : Z)
| Closed.

#[global] Instance event_eq_dec : EqDecision event.
Proof. solve_decision. Defined.

Definition events (o : op) (a : answer) (w : World) : list event :=
  match o, a with
  | SendFrame k payload, Done =>
      match permits w !! k with
      | Some h =>
          match handles w !! h with
          | Some (id, _) => [Sent {| channel_id := id; bytes := payload; handle := h |}]
          | None => []
          end
      | None => []
      end
  | Receive, Received (Some item) => [Got item]
  | Receive, _ => [Idle]
  | Discard h, _ => match handles w !! h with Some (id, _) => [Discarded id] | None => [] end
  | DropReceiver, _ => [Closed]
  | _, _ => []
  end.

(** A run shows the events of its transitions in order. *)
Inductive run : World → list event → World → Prop :=
| run_nil w : run w [] w
| run_cons w o a w1 es w2 : step o w = Some (a, w1) → run w1 es w2 → run w (events o a w ++ es) w2.

Definition reachable (w : World) : Prop := ∃ es, run fair_data_queue es w.
End world.
