(* ===== verification/FairQueueProps.v ===== *)
(** * Theorems about the fair data queue

    The invariant of reachable worlds (the ready list names the nonempty
    channels once each, and every byte permit is accounted for), the order of
    the frames of a channel, and the fairness of the rotation. *)

From Stdlib Require Import String.
From stdpp Require Import gmap.
From S2P Require Import Prelude RustStd Relay FairQueue.

(** ** The queue *)

Definition frame_ok (id : Z) (f : FairData) : Prop :=
  channel_id f = id ∧ bytes f ≠ [] ∧ Z.of_nat (length (bytes f)) ≤ MAX_DATA_BYTES.

Record queue_ok (q : QueueState) : Prop := {
  qo_nodup : NoDup (ready q);
  qo_ready : ∀ id, id ∈ ready q ↔ is_Some (channels q !! id);
  qo_frames : ∀ id l, channels q !! id = Some l → l ≠ [] ∧ Forall (frame_ok id) l;
  qo_closed : receiver_closed q = true → channels q = ∅;
}.

(** The frames of a channel. *)
Definition lane (q : QueueState) (id : Z) : list FairData := default [] (channels q !! id).

Lemma lane_ready q id : queue_ok q → lane q id ≠ [] ↔ id ∈ ready q.
Proof.
  intros Hq. rewrite (qo_ready _ Hq). unfold lane. destruct (channels q !! id) as [l|] eqn:Hl; simpl.
  - pose proof (qo_frames _ Hq _ _ Hl) as [? _]. split; [by eexists|done].
  - split; [done|]. by intros [? ?].
Qed.

Lemma queued_lane (q : QueueState) id :
  queued q ≡ₚ lane q id ++ (map_to_list (delete id (channels q)) ≫= snd).
Proof.
  unfold queued, lane. destruct (channels q !! id) as [l|] eqn:Hl; simpl.
  - rewrite <-(map_to_list_delete (channels q) id l) by done. by rewrite bind_cons.
  - by rewrite delete_id.
Qed.

Lemma map_to_list_replace (m : gmap Z (list FairData)) id l :
  map_to_list (<[id := l]> m) ≫= snd ≡ₚ l ++ (map_to_list (delete id m) ≫= snd).
Proof. rewrite <-insert_delete_eq, map_to_list_insert by apply lookup_delete_eq. by rewrite bind_cons. Qed.

(** Sending appends to the channel's frames. *)
Lemma queue_send_run closed item q :
  queue_ok q →
  match queue_send closed item q with
  | (Ok _, q') => closed = false ∧ receiver_closed q = false ∧ queue_ok q' ∧
      lane q' (channel_id item) = lane q (channel_id item) ++ [item] ∧
      (∀ id, id ≠ channel_id item → lane q' id = lane q id) ∧
      queued q' ≡ₚ item :: queued q ∧
      ready q' = (if bool_decide (lane q (channel_id item) = []) then ready q ++ [channel_id item] else ready q) ∧
      receiver_closed q' = false
  | (Err _, q') => q' = q
  | (Panic, _) => False
  end.
Proof.
  intros Hq. unfold queue_send, bind, lift, bail_when, get, reject_if, put, fail, ret.
  destruct (_ || _) eqn:Hb; [done|]. apply orb_false_iff in Hb as [Hne%bool_decide_eq_false Hlen%Z.ltb_ge].
  destruct (_ || _) eqn:Hc; [done|]. apply orb_false_iff in Hc as [Hr Hc].
  fold (lane q (channel_id item)). set (id := channel_id item) in *.
  assert (lane {| channels := <[id := lane q id ++ [item]]> (channels q);
    ready := if bool_decide (lane q id = []) then ready q ++ [id] else ready q;
    receiver_closed := receiver_closed q; sender_count := sender_count q |} id = lane q id ++ [item]) as Hl.
  { unfold lane at 1. simpl. by rewrite lookup_insert_eq. }
  split_and!; try done.
  - constructor; simpl.
    + case_bool_decide as Hn; [|apply Hq]. apply NoDup_app. split_and!; [apply Hq| |apply NoDup_singleton].
      intros x Hx ->%list_elem_of_singleton. by apply (lane_ready q id Hq) in Hx.
    + intros i. destruct (decide (i = id)) as [->|Hi].
      * rewrite lookup_insert_eq. split; [by eexists|]. intros _.
        case_bool_decide as Hn; [set_solver|]. by apply lane_ready.
      * rewrite lookup_insert_ne, <-(qo_ready _ Hq) by done. case_bool_decide; set_solver.
    + intros i l. destruct (decide (i = id)) as [->|Hi].
      * rewrite lookup_insert_eq. intros [= <-]. split; [by destruct (lane q id)|]. apply Forall_app.
        split; [|by repeat constructor]. unfold lane. destruct (channels q !! id) eqn:Hx; [|constructor].
        by apply (qo_frames _ Hq).
      * rewrite lookup_insert_ne by done. apply Hq.
    + intros. congruence.
  - intros i Hi. unfold lane. simpl. by rewrite lookup_insert_ne.
  - unfold queued at 1. simpl. rewrite map_to_list_replace, (queued_lane q id), <-app_assoc.
    symmetry. apply Permutation_middle.
Qed.

(** Receiving takes the first frame of the first ready channel, and moves that
    channel to the back if frames remain; it finds nothing only when no channel
    is ready. *)
Lemma queue_recv_run q :
  queue_ok q →
  match queue_recv q with
  | (Ready (Some item), q') => ∃ rest frames,
      ready q = channel_id item :: rest ∧ lane q (channel_id item) = item :: frames ∧
      lane q' (channel_id item) = frames ∧ (∀ id, id ≠ channel_id item → lane q' id = lane q id) ∧
      queued q ≡ₚ item :: queued q' ∧
      ready q' = (if bool_decide (frames = []) then rest else rest ++ [channel_id item]) ∧
      frame_ok (channel_id item) item ∧ queue_ok q' ∧ receiver_closed q' = receiver_closed q
  | (_, q') => ready q = [] ∧ q' = q
  end.
Proof.
  intros Hq. unfold queue_recv. destruct (ready q) as [|id rest] eqn:Hr.
  { by destruct (sender_count q =? 0). }
  destruct (proj1 (qo_ready _ Hq id)) as [l Hl]; [rewrite Hr; by left|]. rewrite Hl.
  destruct (qo_frames _ Hq id l Hl) as [Hne Hf]. destruct l as [|item frames]; [done|].
  apply Forall_cons in Hf as [Hi Hf]. pose proof Hi as (<- & _). set (id := channel_id item) in *.
  pose proof (qo_nodup _ Hq) as Hnd. rewrite Hr in Hnd. apply NoDup_cons in Hnd as [Hid Hnd].
  assert (∀ i, i ≠ id → i ∈ rest ↔ is_Some (channels q !! i)) as Hrest.
  { intros i Hi'. rewrite <-(qo_ready _ Hq), Hr. set_solver. }
  exists rest, frames. split_and!; try done.
  - unfold lane. by rewrite Hl.
  - unfold lane. simpl. case_bool_decide as Hn; [by rewrite lookup_delete_eq, Hn|by rewrite lookup_insert_eq].
  - intros i Hi'. unfold lane. simpl. case_bool_decide; [by rewrite lookup_delete_ne|by rewrite lookup_insert_ne].
  - rewrite (queued_lane q id). unfold lane, queued. rewrite Hl. simpl. f_equiv.
    case_bool_decide as Hn; [by rewrite Hn|by rewrite map_to_list_replace].
  - constructor; simpl.
    + case_bool_decide; [done|]. apply NoDup_app. split_and!; [done| |apply NoDup_singleton]. set_solver.
    + intros i. destruct (decide (i = id)) as [->|Hi'].
      * case_bool_decide; [rewrite lookup_delete_eq|rewrite lookup_insert_eq].
        -- split; [done|]. by intros [? ?].
        -- split; [by eexists|set_solver].
      * case_bool_decide; [rewrite lookup_delete_ne by done|rewrite lookup_insert_ne by done];
          rewrite <-Hrest by done; set_solver.
    + intros i l'. case_bool_decide as Hn.
      * intros [? ?]%lookup_delete_Some. by apply Hq.
      * intros [[<- <-]|[? ?]]%lookup_insert_Some; [done|by apply Hq].
    + intros Hc. pose proof (qo_closed _ Hq Hc) as He. by rewrite He in Hl.
Qed.

Lemma queue_discard_run id q :
  queue_ok q →
  let '(frames, q') := queue_discard id q in
  frames = lane q id ∧ lane q' id = [] ∧ (∀ i, i ≠ id → lane q' i = lane q i) ∧
  queued q ≡ₚ frames ++ queued q' ∧ queue_ok q' ∧ ready q' = filter (λ i, i ≠ id) (ready q) ∧
  receiver_closed q' = receiver_closed q.
Proof.
  intros Hq. unfold queue_discard. split_and!; try done.
  - unfold lane. simpl. by rewrite lookup_delete_eq.
  - intros i Hi. unfold lane. simpl. by rewrite lookup_delete_ne.
  - apply queued_lane.
  - constructor; simpl.
    + apply NoDup_filter, Hq.
    + intros i. rewrite list_elem_of_filter, (qo_ready _ Hq).
      destruct (decide (i = id)) as [->|Hi]; [rewrite lookup_delete_eq|by rewrite lookup_delete_ne; naive_solver].
      split; [by intros [? _]|by intros [? ?]].
    + intros i l [? ?]%lookup_delete_Some. by apply Hq.
    + intros Hc. rewrite (qo_closed _ Hq Hc). apply delete_empty.
Qed.

Lemma queue_ok_same q q' :
  channels q' = channels q → ready q' = ready q → receiver_closed q' = receiver_closed q → queue_ok q → queue_ok q'.
Proof. intros Hc Hr Hx [????]. constructor; rewrite ?Hc, ?Hr, ?Hx; done. Qed.

Lemma queue_ok_empty n c : queue_ok {| channels := ∅; ready := []; receiver_closed := c; sender_count := n |}.
Proof.
  constructor; simpl; [constructor| |done|done].
  intros id. split; [set_solver|]. by intros [? ?].
Qed.

(** ** Permits *)

Section world.
Context `{Semaphores}.
Implicit Types (w : World) (h : nat).

Definition count h (l : list nat) : Z := Z.of_nat (length (filter (λ x, x = h) l)).

Lemma count_cons h x l : count h (x :: l) = (if decide (x = h) then 1 else 0) + count h l.
Proof. unfold count. rewrite filter_cons. case_decide; simpl; lia. Qed.

Lemma count_none h l : Forall (λ x, x ≠ h) l → count h l = 0.
Proof.
  induction 1 as [|x l Hx _ IH]; [done|]. rewrite count_cons, decide_False, IH by done. done.
Qed.

#[local] Instance count_perm h : Proper ((≡ₚ) ==> (=)) (count h).
Proof. intros l l' Hl. unfold count. by rewrite Hl. Qed.

(** Each channel value has given out its bytes to the values in [held]. *)
Record channel_account (held : list nat) w : Prop := {
  ca_bytes : ∀ h id s, handles w !! h = Some (id, s) →
    0 ≤ available s ∧ available s + MAX_DATA_BYTES * count h held = MAX_CHANNEL_QUEUED_BYTES;
  ca_known : Forall (λ h, (h < length (handles w))%nat) held;
}.

(** The session has given out the bytes of [n] frames. *)
Definition session_account (n : nat) w : Prop :=
  0 ≤ available (session_bytes w) ∧
  available (session_bytes w) + MAX_DATA_BYTES * Z.of_nat n = MAX_SESSION_QUEUED_BYTES.

Lemma channel_account_eq l l' w w' :
  handles w' = handles w → l' ≡ₚ l → channel_account l w → channel_account l' w'.
Proof.
  intros Hh Hl [Hb Hk]. constructor; rewrite ?Hh, ?Hl; [|done].
  intros h id s Hi. rewrite Hl. by apply (Hb h id).
Qed.

Lemma release_channel_account h l w : channel_account (h :: l) w → channel_account l (release_channel h w).
Proof.
  intros [Hb Hk]. apply Forall_cons in Hk as [Hh Hk]. constructor; simpl.
  - intros i id s. rewrite list_lookup_alter. destruct (decide (h = i)) as [->|Hne].
    + destruct (handles w !! i) as [[id' s']|] eqn:Hi; [|done]. intros [= <- <-].
      destruct (Hb i id' s' Hi) as [H0 H1]. rewrite count_cons, decide_True in H1 by done.
      destruct (release_ok MAX_DATA_BYTES s') as [-> _]. unfold MAX_DATA_BYTES in *. lia.
    + intros Hi. destruct (Hb i id s Hi) as [H0 H1]. rewrite count_cons, decide_False in H1 by done. lia.
  - eapply Forall_impl; [exact Hk|]. intros x. by rewrite length_alter.
Qed.

Lemma acquire_channel_account h l w id s s' :
  handles w !! h = Some (id, s) → acquire MAX_DATA_BYTES s = Some s' → channel_account l w →
  channel_account (h :: l) (set_handles (<[h := (id, s')]> (handles w)) w).
Proof.
  intros Hh Ha [Hb Hk]. apply acquire_ok in Ha as (_ & Hle & Hav & _).
  pose proof (lookup_lt_Some _ _ _ Hh) as Hlt. constructor; simpl.
  - intros i id' x. rewrite list_lookup_insert, count_cons. destruct (decide (h = i ∧ _)) as [[<- _]|Hne].
    + intros [= <- <-]. destruct (Hb h id s Hh) as [_ H1]. rewrite decide_True by done.
      unfold MAX_DATA_BYTES in *. lia.
    + intros Hi. destruct (Hb i id' x Hi) as [H0 H1]. rewrite decide_False; [lia|].
      intros ->. apply Hne. done.
  - rewrite length_insert. by constructor.
Qed.

Lemma release_session_account n w : session_account (S n) w → session_account n (release_session w).
Proof.
  unfold session_account. simpl. destruct (release_ok MAX_DATA_BYTES (session_bytes w)) as [-> _].
  unfold MAX_DATA_BYTES. lia.
Qed.

Lemma drop_frames_account fs l n w :
  channel_account ((handle <$> fs) ++ l) w → session_account (length fs + n) w →
  channel_account l (drop_frames fs w) ∧ session_account n (drop_frames fs w).
Proof.
  revert w. induction fs as [|f fs IH]; intros w Hc Hs; [done|]. cbn [drop_frames foldl].
  apply IH; [|by apply (release_session_account _ (release_channel (handle f) w))].
  apply (channel_account_eq ((handle <$> fs) ++ l) _ (release_channel (handle f) w)); [done..|].
  by apply release_channel_account.
Qed.

Lemma drop_frames_frame fs w :
  queue (drop_frames fs w) = queue w ∧ reserving (drop_frames fs w) = reserving w ∧
  permits (drop_frames fs w) = permits w ∧ in_flight (drop_frames fs w) = in_flight w.
Proof.
  revert w. induction fs as [|f fs IH]; intros w; [done|]. cbn [drop_frames foldl].
  by apply (IH (release_both (handle f) w)).
Qed.

(** ** Reachable worlds *)

Definition frames w : list FairData := queued (queue w) ++ in_flight w.

(** The channel values whose bytes are held. *)
Definition held w : list nat := reserving w ++ permits w ++ (handle <$> frames w).

Record world_ok w : Prop := {
  wo_queue : queue_ok (queue w);
  wo_channel : channel_account (held w) w;
  wo_session : session_account (length (permits w) + length (frames w)) w;
}.

Lemma fair_data_queue_ok : world_ok fair_data_queue.
Proof.
  constructor; [apply queue_ok_empty| |].
  - constructor; [done|constructor].
  - unfold session_account. simpl. destruct (sem_new_ok MAX_SESSION_QUEUED_BYTES) as [-> _].
    vm_compute. split; [discriminate|reflexivity].
Qed.

Lemma delete_perm {A} (l : list A) k x : l !! k = Some x → l ≡ₚ x :: delete k l.
Proof. apply delete_Permutation. Qed.

(** A transition that leaves the queue and gives one held frame back. *)
Lemma release_both_ok h w w0 :
  queue_ok (queue w) → handles w = handles w0 → session_bytes w = session_bytes w0 →
  channel_account (h :: held w) w0 → session_account (S (length (permits w) + length (frames w))) w0 →
  world_ok (release_both h w).
Proof.
  intros Hq Hh Hs Hc Hn. constructor; [done| |].
  - apply (channel_account_eq (held w) _ (release_channel h w)); [done..|].
    apply release_channel_account. by apply (channel_account_eq (h :: held w) _ w0).
  - apply (release_session_account _ (release_channel h w)).
    unfold session_account in *. simpl. by rewrite Hs.
Qed.

Lemma begin_reserve_ok h w a w' : world_ok w → begin_reserve h w = Some (a, w') → world_ok w'.
Proof.
  intros [Hq Hc Hs]. unfold begin_reserve. destruct (handles w !! h) as [[id s]|] eqn:Hh; [|done].
  destruct (is_closed s); [by intros [= <- <-]|].
  destruct (acquire _ s) as [s'|] eqn:Ha; [|by intros [= <- <-]]. intros [= <- <-].
  constructor; [done| |done].
  pose proof (acquire_channel_account h _ w id s s' Hh Ha Hc) as Hc'.
  refine (channel_account_eq _ _ _ _ _ _ Hc'); [done|].
  unfold held. simpl. rewrite <-app_assoc. symmetry. apply Permutation_middle.
Qed.

Lemma finish_reserve_ok k w a w' : world_ok w → finish_reserve k w = Some (a, w') → world_ok w'.
Proof.
  intros [Hq Hc Hs]. unfold finish_reserve. destruct (reserving w !! k) as [h|] eqn:Hk; [|done].
  pose proof (delete_perm _ _ _ Hk) as Hp.
  assert (channel_account (h :: delete k (reserving w) ++ permits w ++ (handle <$> frames w)) w) as Hc'.
  { refine (channel_account_eq _ _ _ _ _ _ Hc); [done|]. unfold held.
    rewrite app_comm_cons. by apply Permutation_app_tail. }
  destruct (is_closed _).
  { intros [= <- <-]. constructor; [done| |done]. apply release_channel_account.
    by refine (channel_account_eq _ _ _ _ _ _ Hc'). }
  destruct (acquire _ _) as [s'|] eqn:Ha; [|by intros [= <- <-]].
  apply acquire_ok in Ha as (_ & Hle & Hav & _).
  assert (∀ x, session_account (S (length (permits w) + length (frames w))) (set_session_bytes s' x)) as Hs'.
  { intros x. unfold session_account in *. simpl. rewrite Hav. unfold MAX_DATA_BYTES in *. lia. }
  destruct (receiver_closed _).
  - intros [= <- <-]. apply (release_both_ok h _ (set_session_bytes s' w)); [done..| |].
    + by refine (channel_account_eq _ _ _ _ _ _ Hc').
    + apply Hs'.
  - intros [= <- <-]. constructor; [done| |].
    + refine (channel_account_eq _ _ _ _ _ _ Hc'); [done|].
      unfold held. simpl. rewrite <-app_assoc. simpl. rewrite <-Permutation_middle. symmetry.
      apply Permutation_middle.
    + simpl. rewrite length_app. simpl. replace (length (permits w) + 1 + _)%nat with
        (S (length (permits w) + length (frames w))) by (unfold frames; simpl; lia). apply Hs'.
Qed.

Lemma cancel_reserve_ok k w a w' : world_ok w → cancel_reserve k w = Some (a, w') → world_ok w'.
Proof.
  intros [Hq Hc Hs]. unfold cancel_reserve. destruct (reserving w !! k) as [h|] eqn:Hk; [|done].
  intros [= <- <-]. constructor; [done| |done]. apply release_channel_account.
  refine (channel_account_eq _ _ _ _ _ _ Hc); [done|]. unfold held. simpl.
  rewrite app_comm_cons. apply Permutation_app_tail. symmetry. by apply delete_perm.
Qed.

(** The bytes of a permit, or of a frame in flight, among those held. *)
Lemma held_permit k h w :
  permits w !! k = Some h → held w ≡ₚ h :: reserving w ++ delete k (permits w) ++ (handle <$> frames w).
Proof.
  intros Hk. unfold held. rewrite (delete_perm _ _ _ Hk) at 1. simpl. symmetry. apply Permutation_middle.
Qed.

Lemma permit_count k h w :
  permits w !! k = Some h → length (permits w) = S (length (delete k (permits w))).
Proof. intros Hk. by rewrite (delete_perm _ _ _ Hk) at 1. Qed.

Lemma drop_permit_ok k w a w' : world_ok w → drop_permit k w = Some (a, w') → world_ok w'.
Proof.
  intros [Hq Hc Hs]. unfold drop_permit. destruct (permits w !! k) as [h|] eqn:Hk; [|done].
  intros [= <- <-]. apply (release_both_ok h _ w); [done..| |].
  - refine (channel_account_eq _ _ _ _ _ _ Hc); [done|]. by rewrite (held_permit k h w).
  - rewrite (permit_count k h) in Hs by done. done.
Qed.

Lemma send_frame_ok k payload w a w' : world_ok w → send_frame k payload w = Some (a, w') → world_ok w'.
Proof.
  intros [Hq Hc Hs]. unfold send_frame. destruct (permits w !! k) as [h|] eqn:Hk; [|done].
  destruct (handles w !! h) as [[id s]|] eqn:Hh; [|done].
  pose proof (queue_send_run (is_closed s) {| channel_id := id; bytes := payload; handle := h |} (queue w) Hq) as Hr.
  rewrite (permit_count k h) in Hs by done.
  destruct (queue_send _ _ _) as [[u|e|] q]; [| |done]; intros [= <- <-].
  - destruct Hr as (_ & _ & Hq' & _ & _ & Hp & _). constructor; [done| |].
    + refine (channel_account_eq _ _ _ _ _ _ Hc); [done|]. rewrite (held_permit k h w) by done.
      unfold held, frames. simpl. rewrite Hp. simpl. rewrite <-Permutation_middle. symmetry. apply Permutation_middle.
    + unfold frames in *. cbn [permits queue in_flight set_queue set_permits] in *. rewrite Hp. simpl.
      by rewrite Nat.add_succ_r.
  - subst q. apply (release_both_ok h _ w); [done..| |done].
    refine (channel_account_eq _ _ _ _ _ _ Hc); [done|]. by rewrite (held_permit k h w).
Qed.

Lemma set_queue_same w : set_queue (queue w) w = w.
Proof. by destruct w. Qed.

Lemma receive_ok w a w' : world_ok w → receive w = Some (a, w') → world_ok w'.
Proof.
  intros [Hq Hc Hs]. unfold receive. destruct (receiver_closed _); [done|].
  pose proof (queue_recv_run (queue w) Hq) as Hr. destruct (queue_recv (queue w)) as [[[item|]|] q].
  - intros [= <- <-]. destruct Hr as (rest & fs & _ & _ & _ & _ & Hp & _ & _ & Hq' & _).
    assert (frames w ≡ₚ queued q ++ in_flight w ++ [item]) as Hf.
    { unfold frames. rewrite Hp. simpl. rewrite (Permutation_app_comm (in_flight w)). apply Permutation_middle. }
    constructor; [done| |].
    + refine (channel_account_eq _ _ _ _ _ _ Hc); [done|]. unfold held.
      do 2 apply Permutation_app_head. by rewrite Hf.
    + by rewrite Hf in Hs.
  - intros [= <- <-]. destruct Hr as [_ ->]. by rewrite set_queue_same.
  - intros [= <- <-]. destruct Hr as [_ ->]. by rewrite set_queue_same.
Qed.

Lemma drop_frame_ok k w a w' : world_ok w → drop_frame k w = Some (a, w') → world_ok w'.
Proof.
  intros [Hq Hc Hs]. unfold drop_frame. destruct (in_flight w !! k) as [item|] eqn:Hk; [|done].
  assert (frames w ≡ₚ item :: queued (queue w) ++ delete k (in_flight w)) as Hf.
  { unfold frames. rewrite (delete_perm _ _ _ Hk) at 1. symmetry. apply Permutation_middle. }
  intros [= <- <-]. apply (release_both_ok (handle item) _ w); [done..| |].
  - refine (channel_account_eq _ _ _ _ _ _ Hc); [done|]. unfold held. rewrite Hf. simpl.
    by rewrite <-!Permutation_middle.
  - rewrite Hf in Hs. simpl in Hs. by rewrite Nat.add_succ_r in Hs.
Qed.

(** Replacing a semaphore by one with as many bytes. *)
Lemma channel_account_update h l w id s s' :
  handles w !! h = Some (id, s) → available s' = available s → channel_account l w →
  channel_account l (set_handles (<[h := (id, s')]> (handles w)) w).
Proof.
  intros Hh Hs [Hb Hk]. constructor; simpl; [|by rewrite length_insert].
  intros i id' x. rewrite list_lookup_insert. destruct (decide (h = i ∧ _)) as [[<- _]|Hne]; [|apply Hb].
  intros [= <- <-]. rewrite Hs. by apply (Hb h id).
Qed.

(** Dropping frames that were queued. *)
Lemma drop_frames_ok fs w w1 :
  queue_ok (queue w1) → channel_account (held w) w1 →
  session_account (length (permits w) + length (frames w)) w1 →
  reserving w1 = reserving w → permits w1 = permits w → frames w ≡ₚ fs ++ frames w1 →
  world_ok (drop_frames fs w1).
Proof.
  intros Hq Hc Hs Hr Hp Hf.
  destruct (drop_frames_account fs (held w1) (length (permits w1) + length (frames w1)) w1) as [Hc' Hs'].
  { refine (channel_account_eq _ _ _ _ _ _ Hc); [done|]. unfold held. rewrite Hr, Hp, Hf, fmap_app.
    by rewrite (Permutation_app_swap_app (permits w) (handle <$> fs)),
      (Permutation_app_swap_app (reserving w) (handle <$> fs)). }
  { rewrite Hf, length_app, <-Hp in Hs. by rewrite Nat.add_shuffle3 in Hs. }
  destruct (drop_frames_frame fs w1) as (E1 & E2 & E3 & E4). constructor; [by rewrite E1| |].
  - unfold held, frames. by rewrite E1, E2, E3, E4.
  - unfold frames. by rewrite E1, E3, E4.
Qed.

Lemma discard_ok h w a w' : world_ok w → discard h w = Some (a, w') → world_ok w'.
Proof.
  intros [Hq Hc Hs]. unfold discard. destruct (handles w !! h) as [[id s]|] eqn:Hh; [|done].
  pose proof (queue_discard_run id (queue w) Hq) as Hr. destruct (queue_discard id (queue w)) as [fs q].
  destruct Hr as (_ & _ & _ & Hp & Hq' & _ & _). intros [= <- <-].
  apply (drop_frames_ok fs w); [done| |done..|].
  - apply (channel_account_eq (held w) _ (set_handles (<[h := (id, close s)]> (handles w)) w)); [done..|].
    eapply channel_account_update; [done|apply close_ok|done].
  - unfold frames. by rewrite Hp, <-app_assoc.
Qed.

Lemma drain_ok h w a w' : world_ok w → drain h w = Some (a, w') → world_ok w'.
Proof.
  intros [Hq Hc Hs]. unfold drain. destruct (handles w !! h) as [[id s]|] eqn:Hh; [|done].
  destruct (is_closed s); [by intros [= <- <-]|].
  destruct (acquire _ s) as [s'|] eqn:Ha; [|by intros [= <- <-]]. intros [= <- <-].
  apply acquire_ok in Ha as (_ & _ & Hav & _). constructor; [done| |done].
  apply (channel_account_eq (held w) _ (set_handles
    (<[h := (id, release MAX_CHANNEL_QUEUED_BYTES s')]> (handles w)) w)); [done..|].
  eapply channel_account_update; [done| |done].
  destruct (release_ok MAX_CHANNEL_QUEUED_BYTES s') as [-> _]. lia.
Qed.

Lemma drop_receiver_ok w a w' : world_ok w → drop_receiver w = Some (a, w') → world_ok w'.
Proof.
  intros [Hq Hc Hs]. unfold drop_receiver. destruct (receiver_closed _); [done|]. cbn [queue_close].
  intros [= <- <-].
  assert (world_ok (drop_frames (queued (queue w)) (set_queue (snd (queue_close (queue w))) w))) as Hw.
  { apply (drop_frames_ok _ w); [apply queue_ok_empty| |done..].
    by apply (channel_account_eq (held w) _ w). }
  destruct Hw as [Hq' Hc' Hs']. cbn [queue_close snd] in *. constructor; [done| |].
  - by refine (channel_account_eq _ _ _ _ _ _ Hc').
  - unfold session_account in *. simpl in *. destruct (close_ok (session_bytes
      (drop_frames (queued (queue w)) (set_queue (snd (queue_close (queue w))) w)))) as [Hav _].
    cbn [queue_close snd] in Hav. by rewrite Hav.
Qed.

Lemma open_handle_ok id w : world_ok w → world_ok (open_handle id w).
Proof.
  intros [Hq [Hb Hk] Hs]. constructor; [done| |done]. constructor; simpl.
  - intros h id' s [Hh|[Hlt Hh]]%lookup_app_Some; [by apply (Hb h id')|].
    assert (count h (held (open_handle id w)) = 0) as ->.
    { apply count_none. eapply Forall_impl; [exact Hk|]. simpl. lia. }
    destruct (h - _)%nat as [|n]; simpl in Hh; [|by destruct n]. simplify_eq.
    destruct (sem_new_ok MAX_CHANNEL_QUEUED_BYTES) as [-> _]. unfold MAX_CHANNEL_QUEUED_BYTES. lia.
  - eapply Forall_impl; [exact Hk|]. intros x Hx. simpl in *. rewrite length_app. lia.
Qed.

Lemma world_step_ok o w a w' : world_ok w → step o w = Some (a, w') → world_ok w'.
Proof.
  intros Hw. destruct o; cbn [step].
  1-2: intros [= <- <-]; destruct Hw as [Hq Hc Hs]; constructor; [by apply (queue_ok_same (queue w))| |done];
    by refine (channel_account_eq _ _ _ _ _ _ Hc).
  - intros [= <- <-]. by apply open_handle_ok.
  - by apply begin_reserve_ok.
  - by apply finish_reserve_ok.
  - by apply cancel_reserve_ok.
  - by apply drop_permit_ok.
  - by apply send_frame_ok.
  - by apply receive_ok.
  - by apply drop_frame_ok.
  - by apply discard_ok.
  - by apply drain_ok.
  - by apply drop_receiver_ok.
Qed.

Lemma world_run_ok w es w' : world_ok w → run w es w' → world_ok w'.
Proof. intros Hw. induction 1 as [|w o a w1 es w2 Hs _ IH]; eauto using world_step_ok. Qed.

Lemma reachable_ok w : reachable w → world_ok w.
Proof. intros [es Hr]. eapply world_run_ok; [apply fair_data_queue_ok|done]. Qed.

Definition bytes_of (l : list FairData) : Z := foldr (λ f n, Z.of_nat (length (bytes f)) + n) 0 l.

(** ** What a transition does to the queue *)

Inductive queue_change (q q' : QueueState) : list event → Prop :=
| change_none : channels q' = channels q → ready q' = ready q → queue_change q q' []
| change_idle : channels q' = channels q → ready q' = ready q → ready q = [] → queue_change q q' [Idle]
| change_sent item :
    lane q' (channel_id item) = lane q (channel_id item) ++ [item] →
    (∀ id, id ≠ channel_id item → lane q' id = lane q id) →
    ready q' = (if bool_decide (lane q (channel_id item) = []) then ready q ++ [channel_id item] else ready q) →
    queue_change q q' [Sent item]
| change_got item rest frames :
    ready q = channel_id item :: rest → lane q (channel_id item) = item :: frames →
    lane q' (channel_id item) = frames → (∀ id, id ≠ channel_id item → lane q' id = lane q id) →
    ready q' = (if bool_decide (frames = []) then rest else rest ++ [channel_id item]) →
    queue_change q q' [Got item]
| change_discarded id :
    lane q' id = [] → (∀ i, i ≠ id → lane q' i = lane q i) →
    ready q' = filter (λ i, i ≠ id) (ready q) → queue_change q q' [Discarded id]
| change_closed : queue_change q q' [Closed].

Lemma step_queue o w a w' :
  world_ok w → step o w = Some (a, w') → queue_change (queue w) (queue w') (events o a w).
Proof.
  intros [Hq _ _]. destruct o; cbn [step].
  1-3: intros [= <- <-]; by constructor.
  - unfold begin_reserve. repeat case_match; intros; simplify_eq; by constructor.
  - unfold finish_reserve. repeat case_match; intros; simplify_eq; by constructor.
  - unfold cancel_reserve. repeat case_match; intros; simplify_eq; by constructor.
  - unfold drop_permit. repeat case_match; intros; simplify_eq; by constructor.
  - unfold send_frame. cbn [events]. destruct (permits w !! k) as [h|]; [|done].
    destruct (handles w !! h) as [[id s]|]; [|done].
    pose proof (queue_send_run (is_closed s) {| channel_id := id; bytes := payload; handle := h |} (queue w) Hq) as Hr.
    destruct (queue_send _ _ _) as [[u|e|] q]; [| |done]; intros [= <- <-].
    + destruct Hr as (_ & _ & _ & Hl & Ho & _ & Hr & _). by apply change_sent.
    + subst q. by constructor.
  - unfold receive. destruct (receiver_closed _); [done|].
    pose proof (queue_recv_run (queue w) Hq) as Hr. destruct (queue_recv (queue w)) as [[[item|]|] q];
      intros [= <- <-]; cbn [events].
    + destruct Hr as (rest & fs & Hrd & Hl & Hl' & Ho & _ & Hr' & _). by eapply change_got.
    + destruct Hr as [Hrd ->]. by apply change_idle.
    + destruct Hr as [Hrd ->]. by apply change_idle.
  - unfold drop_frame. repeat case_match; intros; simplify_eq; by constructor.
  - unfold discard. cbn [events]. destruct (handles w !! h) as [[id s]|]; [|done].
    pose proof (queue_discard_run id (queue w) Hq) as Hr. destruct (queue_discard id (queue w)) as [fs q].
    destruct Hr as (_ & Hl & Ho & _ & _ & Hr & _). intros [= <- <-]. destruct (drop_frames_frame fs
      (set_queue q (set_handles (<[h := (id, close s)]> (handles w)) w))) as [-> _]. by apply change_discarded.
  - unfold drain. repeat case_match; intros; simplify_eq; by constructor.
  - intros _. cbn [events]. constructor.
Qed.

(** ** Theorems *)

Definition sents (id : Z) (es : list event) : list FairData :=
  omap (λ e, match e with Sent f => if decide (channel_id f = id) then Some f else None | _ => None end) es.
Definition gots (id : Z) (es : list event) : list FairData :=
  omap (λ e, match e with Got f => if decide (channel_id f = id) then Some f else None | _ => None end) es.

(** The channel is neither discarded nor closed with the receiver. *)
Definition undisturbed (id : Z) (es : list event) : Prop := Discarded id ∉ es ∧ Closed ∉ es.

Lemma undisturbed_app id es1 es2 :
  undisturbed id (es1 ++ es2) ↔ undisturbed id es1 ∧ undisturbed id es2.
Proof. unfold undisturbed. set_solver. Qed.

Lemma queue_change_lane q q' es id :
  queue_change q q' es → undisturbed id es → lane q id ++ sents id es = gots id es ++ lane q' id.
Proof.
  intros Hc [Hd Hx]. destruct Hc as [Hch _|Hch _ _|item Hl Ho _|item rest fs _ Hl Hl' Ho _|i Hl Ho _|]; simpl.
  - unfold lane. rewrite Hch. by rewrite app_nil_r.
  - unfold lane. rewrite Hch. by rewrite app_nil_r.
  - case_decide as Hi; [subst id; by rewrite Hl|]. rewrite Ho by done. by rewrite app_nil_r.
  - rewrite app_nil_r. case_decide as Hi; [subst id; by rewrite Hl, Hl'|]. by rewrite Ho by done.
  - rewrite app_nil_r. rewrite Ho; [done|]. intros ->. apply Hd. by left.
  - exfalso. apply Hx. by left.
Qed.

Lemma run_lane w es w' id :
  world_ok w → run w es w' → undisturbed id es →
  lane (queue w) id ++ sents id es = gots id es ++ lane (queue w') id.
Proof.
  intros Hw Hr. induction Hr as [w|w o a w1 es w2 Hs Hr IH]; intros Hu; [by rewrite app_nil_r|].
  apply undisturbed_app in Hu as [Hu1 Hu2].
  pose proof (queue_change_lane _ _ _ id (step_queue o w a w1 Hw Hs) Hu1) as H1.
  specialize (IH (world_step_ok _ _ _ _ Hw Hs) Hu2). unfold sents, gots in *. rewrite !omap_app.
  by rewrite app_assoc, H1, <-app_assoc, IH, app_assoc.
Qed.

(** C35. Frames of a channel arrive in the order they were sent, none lost and
    none twice: in a run in which the channel is not discarded, what was sent on
    it is what was received of it followed by what is still queued. *)
Theorem channel_fifo es w id :
  run fair_data_queue es w → undisturbed id es → sents id es = gots id es ++ lane (queue w) id.
Proof. intros Hr Hu. apply (run_lane fair_data_queue es w id fair_data_queue_ok Hr Hu). Qed.

(** Calls of [recv] that returned or waited. *)
Definition polls (es : list event) : nat :=
  length (filter (λ e, match e with Got _ | Idle => true | _ => false end = true) es).

Lemma polls_app es1 es2 : polls (es1 ++ es2) = (polls es1 + polls es2)%nat.
Proof. unfold polls. by rewrite filter_app, length_app. Qed.

Lemma queue_change_position q q' es id l1 l2 :
  queue_ok q → queue_change q q' es → undisturbed id es → ready q = l1 ++ id :: l2 →
  gots id es ≠ [] ∨
  ∃ l1' l2', ready q' = l1' ++ id :: l2' ∧ (length l1' + polls es ≤ length l1)%nat.
Proof.
  intros Hq Hc [Hd Hx] Hr.
  destruct Hc as [_ Hrd|_ Hrd He|item Hl Ho Hrd|item rest fs Hr0 Hl Hl' Ho Hrd|i Hl Ho Hrd|].
  - right. exists l1, l2. rewrite Hrd. unfold polls. simpl. split; [done|lia].
  - rewrite He in Hr. by destruct l1.
  - right. exists l1. rewrite Hrd, Hr. unfold polls. simpl. case_bool_decide.
    + exists (l2 ++ [channel_id item]). split; [by rewrite <-app_assoc|lia].
    + exists l2. split; [done|lia].
  - rewrite Hr0 in Hr. destruct l1 as [|x l1]; simplify_eq/=.
    + left. by rewrite decide_True.
    + right. exists l1. rewrite Hrd. unfold polls. simpl. case_bool_decide.
      * exists l2. split; [done|lia].
      * exists (l2 ++ [channel_id item]). split; [by rewrite <-app_assoc|lia].
  - right. assert (id ≠ i) by (intros ->; apply Hd; by left).
    exists (filter (λ j, j ≠ i) l1), (filter (λ j, j ≠ i) l2). rewrite Hrd, Hr, filter_app, filter_cons_True by done.
    split; [done|]. unfold polls. simpl. pose proof (length_filter (λ j, j ≠ i) l1). lia.
  - exfalso. apply Hx. by left.
Qed.

Lemma run_served w es w' id l1 l2 :
  world_ok w → run w es w' → undisturbed id es → ready (queue w) = l1 ++ id :: l2 →
  (length l1 < polls es)%nat → gots id es ≠ [].
Proof.
  intros Hw Hr. revert l1 l2. induction Hr as [w|w o a w1 es w2 Hs Hr IH]; intros l1 l2 Hu Hrd Hp.
  { unfold polls in Hp. simpl in Hp. lia. }
  apply undisturbed_app in Hu as [Hu1 Hu2]. rewrite polls_app in Hp. unfold gots in *. rewrite omap_app.
  destruct (queue_change_position _ _ _ id l1 l2 (wo_queue _ Hw) (step_queue o w a w1 Hw Hs) Hu1 Hrd)
    as [Hg|(l1' & l2' & Hrd' & Hle)].
  - intros [Hn _]%app_eq_nil. done.
  - intros [_ Hn]%app_eq_nil. revert Hn. apply (IH (world_step_ok _ _ _ _ Hw Hs) l1' l2'); [done..|lia].
Qed.

(** C13. The rotation is fair: a ready channel with [n] channels before it is
    served by one of the next [n + 1] receives, whatever is sent, reserved,
    dropped or discarded on other channels in between. *)
Theorem ready_channel_served w es w' id n :
  reachable w → run w es w' → undisturbed id es → ready (queue w) !! n = Some id →
  (n < polls es)%nat → ∃ f, f ∈ gots id es.
Proof.
  intros Hw Hr Hu Hn Hp. destruct (gots id es) as [|f l] eqn:Hg; [|by exists f; left].
  exfalso. apply take_drop_middle in Hn. revert Hg.
  apply (run_served w es w' id (take n (ready (queue w))) (drop (S n) (ready (queue w))));
    [by apply reachable_ok|done|done|done|]. rewrite length_take. lia.
Qed.

(** In every reachable world the ready list names exactly the channels with
    queued frames, each once, so the receiver finds a frame whenever one is
    queued and waits or ends only when none is. *)
Theorem ready_list_exact w :
  reachable w →
  NoDup (ready (queue w)) ∧ (∀ id, id ∈ ready (queue w) ↔ lane (queue w) id ≠ []) ∧
  match receive w with
  | Some (Received (Some item), _) => head (lane (queue w) (channel_id item)) = Some item
  | Some (_, _) => queued (queue w) = []
  | None => receiver_closed (queue w) = true
  end.
Proof.
  intros [Hq _ _]%reachable_ok. split; [apply Hq|]. split; [intros id; by rewrite lane_ready|].
  unfold receive. destruct (receiver_closed _); [done|].
  pose proof (queue_recv_run (queue w) Hq) as Hr.
  assert (ready (queue w) = [] → queued (queue w) = []) as He.
  { intros Hn. unfold queued. replace (channels (queue w)) with (∅ : gmap Z (list FairData)); [done|].
    symmetry. apply map_empty. intros id. apply eq_None_not_Some. intros Hs%(qo_ready _ Hq).
    rewrite Hn in Hs. set_solver. }
  destruct (queue_recv (queue w)) as [[[item|]|] q].
  - destruct Hr as (rest & fs & _ & Hl & _). by rewrite Hl.
  - apply He, Hr.
  - apply He, Hr.
Qed.

Definition small (f : FairData) : Prop := Z.of_nat (length (bytes f)) ≤ MAX_DATA_BYTES.

Lemma step_in_flight o w a w' :
  world_ok w → step o w = Some (a, w') → Forall small (in_flight w) → Forall small (in_flight w').
Proof.
  intros [Hq _ _] Hs Hf. destruct o; cbn [step] in Hs.
  1-3: by injection Hs as <- <-.
  - unfold begin_reserve in Hs. repeat case_match; simplify_eq; done.
  - unfold finish_reserve in Hs. repeat case_match; simplify_eq; done.
  - unfold cancel_reserve in Hs. repeat case_match; simplify_eq; done.
  - unfold drop_permit in Hs. repeat case_match; simplify_eq; done.
  - unfold send_frame in Hs. repeat case_match; simplify_eq; done.
  - unfold receive in Hs. destruct (receiver_closed _); [done|].
    pose proof (queue_recv_run (queue w) Hq) as Hr. destruct (queue_recv (queue w)) as [[[item|]|] q];
      injection Hs as <- <-; [|done..].
    destruct Hr as (_ & _ & _ & _ & _ & _ & _ & _ & (_ & _ & Hi) & _). simpl. apply Forall_app. by repeat constructor.
  - unfold drop_frame in Hs. repeat case_match; simplify_eq. simpl. by apply Forall_delete.
  - unfold discard in Hs. destruct (handles w !! h) as [[id s]|]; [|done]. cbn [queue_discard] in Hs.
    injection Hs as <- <-. rewrite (proj2 (proj2 (proj2 (drop_frames_frame _ _)))). done.
  - unfold drain in Hs. repeat case_match; simplify_eq; done.
  - unfold drop_receiver in Hs. destruct (receiver_closed _); [done|]. cbn [queue_close] in Hs.
    injection Hs as <- <-. simpl. rewrite (proj2 (proj2 (proj2 (drop_frames_frame _ _)))). done.
Qed.

Lemma run_in_flight w es w' :
  world_ok w → run w es w' → Forall small (in_flight w) → Forall small (in_flight w').
Proof.
  intros Hw. induction 1 as [|w o a w1 es w2 Hs _ IH]; [done|]. intros Hf.
  apply IH; [by eapply world_step_ok|by eapply step_in_flight].
Qed.

Lemma frames_small w : reachable w → Forall small (frames w).
Proof.
  intros Hw. pose proof (reachable_ok w Hw) as [Hq _ _]. destruct Hw as [es Hr].
  apply Forall_app. split; [|apply (run_in_flight _ _ _ fair_data_queue_ok Hr); constructor].
  unfold queued. apply Forall_bind, Forall_forall. intros [id l] Hl%elem_of_map_to_list.
  eapply Forall_impl; [apply (qo_frames _ Hq _ _ Hl)|]. by intros f (_ & _ & Hs).
Qed.

Lemma bytes_of_small l : Forall small l → bytes_of l ≤ MAX_DATA_BYTES * Z.of_nat (length l).
Proof.
  unfold small. induction 1 as [|f l Hf _ IH]; [done|]. simpl in *. lia.
Qed.

(** C30. Every byte is accounted for: in a reachable world the free bytes of a
    channel and those its reservations, permits and frames hold add up to 64
    KiB, likewise for the session, and so the frames of one channel value never
    exceed 64 KiB nor all frames the session's bound. *)
Theorem byte_budgets w :
  reachable w →
  (∀ h id s, handles w !! h = Some (id, s) →
     0 ≤ available s ∧ available s + MAX_DATA_BYTES * count h (held w) = MAX_CHANNEL_QUEUED_BYTES ∧
     bytes_of (filter (λ f, handle f = h) (frames w)) ≤ MAX_CHANNEL_QUEUED_BYTES) ∧
  available (session_bytes w) + MAX_DATA_BYTES * Z.of_nat (length (permits w) + length (frames w)) =
    MAX_SESSION_QUEUED_BYTES ∧
  bytes_of (frames w) ≤ MAX_SESSION_QUEUED_BYTES.
Proof.
  intros Hw. pose proof (frames_small w Hw) as Hf. apply reachable_ok in Hw as [Hq Hc [Hs0 Hs1]].
  split_and!; [|done|].
  - intros h id s Hh. destruct (ca_bytes _ _ Hc h id s Hh) as [H0 H1]. split_and!; [done..|].
    assert (Forall small (filter (λ f, handle f = h) (frames w))) as Hb%bytes_of_small.
    { apply Forall_forall. intros f [_ Hin]%list_elem_of_filter. rewrite Forall_forall in Hf. by apply Hf. }
    assert (Z.of_nat (length (filter (λ f, handle f = h) (frames w))) ≤ count h (held w)) as Hle.
    { unfold held, count. rewrite !filter_app, !length_app.
      assert (∀ l, length (filter (λ x, x = h) (handle <$> l)) = length (filter (λ f, handle f = h) l)) as ->.
      { induction l as [|f l IH]; [done|]. rewrite fmap_cons, !filter_cons. case_decide; simpl; by rewrite IH. }
      lia. }
    unfold MAX_DATA_BYTES in *. lia.
  - apply bytes_of_small in Hf. unfold MAX_DATA_BYTES in *. lia.
Qed.
End world.

(** ** Instances *)

(** Counting semaphores. *)
#[export] Program Instance counting_semaphores : Semaphores :=
  {| Sem := Z * bool;
     sem_new n := (n, false);
     available := fst;
     is_closed := snd;
     acquire n s := if negb (snd s) && (n <=? fst s) then Some (fst s - n, false) else None;
     release n s := (fst s + n, snd s);
     close s := (fst s, true) |}.
Next Obligation. done. Qed.
Next Obligation.
  intros n [a c] s'. simpl. destruct c; [done|]. simpl. destruct (Z.leb_spec n a); [|done].
  intros [= <-]. simpl. split_and!; [done|lia|lia|done].
Qed.
Next Obligation. done. Qed.
Next Obligation. done. Qed.

Fixpoint exec `{Semaphores} (ops : list op) (w : World) : option (list event * World) :=
  match ops with
  | [] => Some ([], w)
  | o :: ops =>
      match step o w with
      | None => None
      | Some (a, w1) =>
          match exec ops w1 with
          | Some (es, w2) => Some (events o a w ++ es, w2)
          | None => None
          end
      end
  end.

Lemma world_exec_run `{Semaphores} ops w es w' : exec ops w = Some (es, w') → run w es w'.
Proof.
  revert w es. induction ops as [|o ops IH]; intros w es; simpl; [intros [= <- <-]; constructor|].
  destruct (step o w) as [[a w1]|] eqn:Hs; [|done].
  destruct (exec ops w1) as [[es1 w2]|] eqn:He; [|done]. intros [= <- <-]. econstructor; eauto.
Qed.

Definition ex_setup : list op :=
  [OpenHandle 1; OpenHandle 2; BeginReserve 0; FinishReserve 0; SendFrame 0 [1]; BeginReserve 0; FinishReserve 0;
   SendFrame 0 [2]; BeginReserve 1; FinishReserve 0; SendFrame 0 [9]].

Definition ex_world : World :=
  match exec ex_setup fair_data_queue with Some (_, w) => w | None => fair_data_queue end.

Definition ex_events : list event :=
  match exec ex_setup fair_data_queue with Some (es, _) => es | None => [] end.

Lemma ex_world_run : run fair_data_queue ex_events ex_world.
Proof. apply (world_exec_run ex_setup). vm_compute. reflexivity. Qed.

Lemma ex_world_reachable : reachable ex_world.
Proof. exists ex_events. apply ex_world_run. Qed.

Lemma channel_fifo_witness : sents 1 ex_events = gots 1 ex_events ++ lane (queue ex_world) 1.
Proof.
  apply channel_fifo; [apply ex_world_run|]. split; apply (bool_decide_unpack _); vm_compute; exact I.
Defined.

Lemma ready_list_exact_witness :
  NoDup (ready (queue ex_world)) ∧ (∀ id, id ∈ ready (queue ex_world) ↔ lane (queue ex_world) id ≠ []) ∧
  match receive ex_world with
  | Some (Received (Some item), _) => head (lane (queue ex_world) (channel_id item)) = Some item
  | Some (_, _) => queued (queue ex_world) = []
  | None => receiver_closed (queue ex_world) = true
  end.
Proof. exact (ready_list_exact ex_world ex_world_reachable). Defined.

Lemma byte_budgets_witness : bytes_of (frames ex_world) ≤ MAX_SESSION_QUEUED_BYTES.
Proof. apply (byte_budgets ex_world ex_world_reachable). Defined.

Lemma ready_channel_served_witness :
  ∃ es w', run ex_world es w' ∧ ∃ f, f ∈ gots 2 es.
Proof.
  destruct (exec [Receive; Receive] ex_world) as [[es w']|] eqn:He; [|vm_compute in He; discriminate].
  exists es, w'. split; [by apply (world_exec_run [Receive; Receive])|].
  apply (ready_channel_served ex_world es w' 2 1); [apply ex_world_reachable|by apply (world_exec_run [Receive; Receive])| | |].
  - vm_compute in He. injection He as <- <-. split; apply (bool_decide_unpack _); vm_compute; exact I.
  - vm_compute. reflexivity.
  - vm_compute in He. injection He as <- <-. vm_compute. lia.
Defined.
