(* ===== verification/Protocol.v ===== *)
(** * Data of the wire protocol that components share ([splinterm-protocol/src/lib.rs])

    Errors, access scopes and the audit records; the frames and requests of the
    protocol are not here. Constructors that several enumerations share carry a
    prefix. *)

From Stdlib Require Import String.
From S2P Require Import Prelude RustStd Layout Topology Policy.

Inductive ErrorCode :=
| AuthenticationFailed
| HandshakeRequired
| IncompatibleVersion
| InvalidFrame
| FrameTooLarge
| InvalidRequestId
| DuplicateRequestId
| TooManyOutstandingRequests
| DevelopmentFeatureDisabled
| UnsupportedOperation
| ConsentUnavailable
| ConsentDenied
| Unauthorized
| ControllerUnavailable
| ControlTransferUnavailable
| CodeStaleTopology
| NotFound
| StaleIncarnation
| ImageContentNotFound
| StaleImageContent
| InvalidArgument
| ResourceLimit
| RateLimited
| CodeCancelled
| RequestNotFound
| Internal
| HandoffInProgress
| HandoffUnavailable
| InvalidHandoffTicket.

Inductive HandoffBlockingReason :=
| TransientLairsOpen (count : Z) (lair_ids : list LairId)
| NotPackaged
| RollbackUnavailable
| Unsupported.

Record ProtocolError := {
  code : ErrorCode;
  message : str;
  current_topology_revision : option TopologyRevision;
  handoff_blocking_reasons : list HandoffBlockingReason;
  pending_request_id : option Z;
}.

(** [ProtocolError::new]. *)
Definition ProtocolError_new (c : ErrorCode) (m : string) : ProtocolError :=
  {| code := c; message := lit m; current_topology_revision := None;
     handoff_blocking_reasons := []; pending_request_id := None |}.

Inductive AccessScope :=
| AccessObserve
| AccessScrollback
| AccessInput
| AccessResize
| AccessClipboardRead
| AccessClipboardWrite
| AccessTerminate
| AccessControlTakeover
| AccessTopologyObserve
| AccessTopologyLayout
| AccessTopologyName
| AccessProcessSpawn
| AccessProcessRestore
| AccessAgentStatusReport.

#[global] Instance AccessScope_eq_dec : EqDecision AccessScope.
Proof. solve_decision. Defined.
#[global] Instance ErrorCode_eq_dec : EqDecision ErrorCode.
Proof. solve_decision. Defined.
#[global] Instance HandoffBlockingReason_eq_dec : EqDecision HandoffBlockingReason.
Proof. solve_decision. Defined.
#[global] Instance ProtocolError_eq_dec : EqDecision ProtocolError.
Proof. solve_decision. Defined.

(** ** Audit *)

Definition MAX_AUDIT_PAGE_RECORDS : Z := 128.

Inductive AuditOperation :=
| AuditPing
| AuditRequestAccess
| AuditRequestLairAccess
| AuditAuthorizationStatus
| AuditRevokeAccess
| AuditListLairs
| AuditInspectTopology
| AuditSubscribeTopology
| AuditInspectSplint
| AuditResolveLaunchDirectory
| AuditReadGraphicalFocus
| AuditPublishGraphicalFocus
| AuditCreateLair
| AuditSplitSplint
| AuditRelaunchSplint
| AuditRestoreSplint
| AuditRestoreDojo
| AuditRestoreLair
| AuditSetLairRetention
| AuditCloseSplint
| AuditSetSplitRatio
| AuditNewDojo
| AuditMaterializePreset
| AuditCloseDojo
| AuditTerminateLair
| AuditRenameLair
| AuditRenameDojo
| AuditSetDojoDefaultFocus
| AuditRenameSplint
| AuditAttach
| AuditScrollbackPage
| AuditSearchScrollback
| AuditAcquireControl
| AuditSubscribeControl
| AuditRequestControlTransfer
| AuditDecideControlTransfer
| AuditForceControlTransfer
| AuditReleaseControl
| AuditInput
| AuditResize
| AuditDetach
| AuditKillSplint
| AuditProcessExit
| AuditAuditInspect
| AuditPolicyReload
| AuditAgentStatusReport
| AuditPrepareDaemonHandoff
| AuditClaimHandoffControl
| AuditAcknowledgeHandoffPrepare.

Inductive AuditDecision := Allowed | Denied | Revoked | Expired | Matched | Rejected.

Inductive AuditOutcome := Succeeded | OutcomeFailed | OutcomeCancelled.

Record AuditPeer := {
  audit_uid : Z;
  executable_path : str;
  executable_sha256 : str;
  audit_device : option Z;
  audit_inode : option Z;
}.

Record AuditResource := {
  resource_lair_id : option LairId;
  resource_dojo_id : option DojoId;
  resource_splint_id : option SplintId;
  resource_incarnation : option Z;
}.

Record AuditRecord := {
  record_schema : str;
  record_retention : str;
  audit_id : Z;
  unix_seconds : Z;
  policy_generation : option Z;
  policy_rule_id : option str;
  peer : AuditPeer;
  operation : AuditOperation;
  resource : option AuditResource;
  requested_scopes : list AutomationScope;
  decision : AuditDecision;
  reason : str;
  record_outcome : option AuditOutcome;
  argument_count : option Z;
  executable_basename : option str;
}.

Record AuditPage := {
  page_records : list AuditRecord;
  retention_gap : bool;
  oldest_available_audit_id : option Z;
  newest_available_audit_id : option Z;
  next_after_audit_id : option Z;
}.
