(* ===== verification/Pending.v ===== *)
(** * Pending workspace access requests ([splinterd/src/pending_access.rs])

    The registry of requests that wait for the person's answer: admission,
    the prompt queue, denial with its cooldown, the ways a request ends, and
    the commit of a grant. An [Instant] is a count of nanoseconds, and the
    clocks are arguments. The outcome channel of a request outlives its entry:
    the registry's value here also lists what [Entry::deliver] sent, and an
    entry counts the receivers of its channel that are still alive. *)

From Stdlib Require Import String.
From S2P Require Import Prelude RustStd Layout Topology Policy Protocol.

Definition MAX_PENDING_TOTAL : Z := 8.
Definition NANOS : Z := 1000000000.
Definition PENDING_LIFETIME : Z := 120 * NANOS.
Definition DENY_COOLDOWN : Z := 10 * NANOS.
Definition MAX_UNCOLLECTED_DENIALS : Z := 2 * MAX_PENDING_TOTAL.

(** ** Data *)

(** [consent::PeerIdentity]: the fields this registry reads. *)
Record PeerIdentity := {
  peer_uid : Z;
  peer_pid : Z;
  executable_device : Z;
  executable_inode : Z;
  persistent_executable : option ExecutableIdentity;
  peer_start_time : option Z;
}.

Record ProcessKey := {
  key_uid : Z;
  key_pid : Z;
  key_start_time : Z;
}.

#[global] Instance ProcessKey_eq_dec : EqDecision ProcessKey.
Proof. solve_decision. Defined.

(** [ProcessKey::of]. *)
Definition ProcessKey_of (p : PeerIdentity) : option ProcessKey :=
  (λ start_time, {| key_uid := peer_uid p; key_pid := peer_pid p; key_start_time := start_time |}) <$>
  peer_start_time p.

Inductive IdentityKey :=
| Verified (uid : Z) (path : PathBuf) (sha256 : str)
| Executing (uid device inode : Z).

(** The derived equality: paths are compared by components. *)
Definition identity_eq (a b : IdentityKey) : bool :=
  match a, b with
  | Verified u p s, Verified u' p' s' => (u =? u') && path_eq p p' && bool_decide (s = s')
  | Executing u d i, Executing u' d' i' => (u =? u') && (d =? d') && (i =? i')
  | _, _ => false
  end.

(** [IdentityKey::of]. *)
Definition IdentityKey_of (p : PeerIdentity) : IdentityKey :=
  match persistent_executable p with
  | Some executable => Verified (peer_uid p) (path executable) (sha256 executable)
  | None => Executing (peer_uid p) (executable_device p) (executable_inode p)
  end.

(** The response of a grant is opaque to the registry. *)
Inductive Outcome :=
| Granted (response : str)
| OutcomeError (error : ProtocolError).

Record AdmittedRequest := {
  admitted_request_id : Z;
  admitted_expires : Z;
  admitted_expires_at_unix_seconds : Z;
  opened : bool;
}.

Record PinnedRequester := {
  pidfd : Z;
  executing : Z * Z;
}.

Inductive Phase :=
| Queued
| Prompting
| Committing (ended : option ProtocolError)
| Published.

Record Entry := {
  entry_id : Z;
  process : ProcessKey;
  identity : IdentityKey;
  entry_peer : PeerIdentity;
  entry_lair_id : LairId;
  entry_scopes : list AccessScope;
  agent_name : option str;
  opened_unix_seconds : Z;
  expires : Z;
  expires_at_unix_seconds : Z;
  receivers : Z;
  entry_pinned : PinnedRequester;
  phase : Phase;
}.

Definition Entry_eta (e : Entry) : Entry :=
  {| entry_id := entry_id e; process := process e; identity := identity e; entry_peer := entry_peer e;
     entry_lair_id := entry_lair_id e; entry_scopes := entry_scopes e; agent_name := agent_name e;
     opened_unix_seconds := opened_unix_seconds e; expires := expires e;
     expires_at_unix_seconds := expires_at_unix_seconds e; receivers := receivers e;
     entry_pinned := entry_pinned e; phase := phase e |}.

Definition set_phase (x : Phase) (e : Entry) : Entry := ltac:(update_field Entry_eta e phase x).
Definition set_receivers (x : Z) (e : Entry) : Entry := ltac:(update_field Entry_eta e receivers x).

Record Denial := {
  denial_process : ProcessKey;
  denial_lair_id : LairId;
  denial_scopes : list AccessScope;
  denial_until : Z;
}.

Record Cooldown := {
  cooldown_identity : IdentityKey;
  cooldown_lair_id : LairId;
  cooldown_until : Z;
}.

(** [PendingAccess] with its [Inner]: [revision] is the authorization revision
    of [GrantIds], [delivered] the outcomes sent so far, by request. *)
Record PendingAccess := {
  entries : list Entry;
  denials : list Denial;
  cooldowns : list Cooldown;
  prompter_running : bool;
  next_id : Z;
  closed : bool;
  revision : Z;
  delivered : list (Z * Outcome);
}.

Definition PendingAccess_eta (p : PendingAccess) : PendingAccess :=
  {| entries := entries p; denials := denials p; cooldowns := cooldowns p;
     prompter_running := prompter_running p; next_id := next_id p; closed := closed p;
     revision := revision p; delivered := delivered p |}.

Definition set_entries x (p : PendingAccess) : PendingAccess := ltac:(update_field PendingAccess_eta p entries x).
Definition set_denials x (p : PendingAccess) : PendingAccess := ltac:(update_field PendingAccess_eta p denials x).
Definition set_cooldowns x (p : PendingAccess) : PendingAccess := ltac:(update_field PendingAccess_eta p cooldowns x).
Definition set_prompter_running x (p : PendingAccess) : PendingAccess := ltac:(update_field PendingAccess_eta p prompter_running x).
Definition set_next_id x (p : PendingAccess) : PendingAccess := ltac:(update_field PendingAccess_eta p next_id x).
Definition set_closed x (p : PendingAccess) : PendingAccess := ltac:(update_field PendingAccess_eta p closed x).
Definition set_revision x (p : PendingAccess) : PendingAccess := ltac:(update_field PendingAccess_eta p revision x).
Definition set_delivered x (p : PendingAccess) : PendingAccess := ltac:(update_field PendingAccess_eta p delivered x).

Definition PendingAccess_default : PendingAccess :=
  {| entries := []; denials := []; cooldowns := []; prompter_running := false; next_id := 0;
     closed := false; revision := 0; delivered := [] |}.

(** [GrantIds::advance_revision]: the loop retries until no other thread
    interfered, and saturates. *)
Definition advance_revision (p : PendingAccess) : PendingAccess :=
  set_revision (Z.min (revision p + 1) u64_max) p.

(** [Entry::deliver]: the outcome reaches the channel of the entry. *)
Definition deliver (e : Entry) (o : Outcome) (p : PendingAccess) : PendingAccess :=
  set_delivered (delivered p ++ [(entry_id e, o)]) p.

Definition cancelled (m : string) : ProtocolError := ProtocolError_new CodeCancelled m.
Definition denied : ProtocolError := ProtocolError_new ConsentDenied "Lair access was denied".

(** [unix_seconds_at]; [wall] is the system clock in seconds since the epoch. *)
Definition unix_seconds_at (wall expires now : Z) : Z :=
  Z.min (wall + Z.max 0 (expires - now) / NANOS) u64_max.

(** ** Ending requests *)

Definition prune (now : Z) (p : PendingAccess) : PendingAccess :=
  set_cooldowns (filter (λ c, now < cooldown_until c) (cooldowns p))
    (set_denials (filter (λ d, now < denial_until d) (denials p)) p).

Definition is_published (x : Phase) : bool := match x with Published => true | _ => false end.

(** The loop of [Inner::end_where] over the entries from an index on: how many
    it ends, the entries it keeps and those it removes. *)
Fixpoint end_entries (error : ProtocolError) (selected : Entry → bool) (l : list Entry)
    : Z * list Entry * list Entry :=
  match l with
  | [] => (0, [], [])
  | e :: l =>
      let '(count, kept, removed) := end_entries error selected l in
      if is_published (phase e) || negb (selected e) then (count, e :: kept, removed)
      else match phase e with
           | Committing ended =>
               let ended := match ended with Some x => Some x | None => Some error end in
               (count + 1, set_phase (Committing ended) e :: kept, removed)
           | _ => (count + 1, kept, e :: removed)
           end
  end.

Definition end_where (error : ProtocolError) (selected : Entry → bool) (p : PendingAccess)
    : Z * PendingAccess :=
  let '(count, kept, removed) := end_entries error selected (entries p) in
  (count, foldl (λ p e, deliver e (OutcomeError error) p) (set_entries kept p) removed).

(** [PendingAccess::ended]. *)
Definition ended_with (r : Z * PendingAccess) : Z * PendingAccess :=
  let '(count, p) := r in (count, if 0 <? count then advance_revision p else p).

Definition end_request (id : Z) (error : ProtocolError) (p : PendingAccess) : bool * PendingAccess :=
  let '(count, p) := ended_with (end_where error (λ e, entry_id e =? id) p) in (count =? 1, p).

Definition expire (id now : Z) (p : PendingAccess) : bool * PendingAccess :=
  let '(count, p) := ended_with (end_where (cancelled "the access request expired without an answer")
    (λ e, (entry_id e =? id) && (expires e <=? now)) p) in (count =? 1, p).

Definition cancel (proc : ProcessKey) (lair_id : LairId) (id : Z) (p : PendingAccess) : bool * PendingAccess :=
  let '(count, p) := ended_with (end_where (cancelled "the access request was cancelled")
    (λ e, (entry_id e =? id) && bool_decide (process e = proc) && (entry_lair_id e =? lair_id)) p) in
  (count =? 1, p).

Definition cancel_all (p : PendingAccess) : Z * PendingAccess :=
  ended_with (end_where (cancelled "access was revoked") (λ _, true) p).

Definition close (p : PendingAccess) : Z * PendingAccess :=
  ended_with (end_where (cancelled "the daemon is shutting down") (λ _, true) (set_closed true p)).

Definition end_lair (lair_id : LairId) (p : PendingAccess) : Z * PendingAccess :=
  ended_with (end_where (ProtocolError_new NotFound "the workspace no longer exists")
    (λ e, entry_lair_id e =? lair_id) p).

Definition end_all_at_fence (p : PendingAccess) : Z * PendingAccess :=
  ended_with (end_where (ProtocolError_new HandoffInProgress
    "the daemon is upgrading; ask again after it restarts") (λ _, true) p).

(** ** Admission *)

(** [iter().position(p)] and [remove(index)]: the list without the first
    element the test accepts. *)
Fixpoint remove_first {A} (p : A → bool) (l : list A) : option (A * list A) :=
  match l with
  | [] => None
  | x :: l =>
      if p x then Some (x, l)
      else match remove_first p l with Some (y, l') => Some (y, x :: l') | None => None end
  end.

Definition matches_denial (proc : ProcessKey) (lair_id : LairId) (scopes : list AccessScope) (d : Denial) : bool :=
  bool_decide (denial_process d = proc) && (denial_lair_id d =? lair_id) && bool_decide (denial_scopes d = scopes).

Definition matches_entry (proc : ProcessKey) (lair_id : LairId) (e : Entry) : bool :=
  bool_decide (process e = proc) && (entry_lair_id e =? lair_id).

(** The entry [PendingAccess::admit] pushes. *)
Definition new_entry (id : Z) (proc : ProcessKey) (p : PeerIdentity) (lair_id : LairId)
    (scopes : list AccessScope) (name : option str) (now wall : Z) (pinned : PinnedRequester) : Entry :=
  {| entry_id := id; process := proc; identity := IdentityKey_of p; entry_peer := p;
     entry_lair_id := lair_id; entry_scopes := scopes; agent_name := name;
     opened_unix_seconds := unix_seconds_at wall now now;
     expires := now + PENDING_LIFETIME;
     expires_at_unix_seconds := unix_seconds_at wall (now + PENDING_LIFETIME) now;
     receivers := 1; entry_pinned := pinned; phase := Queued |}.

Definition admit_request (peer : PeerIdentity) (lair_id : LairId) (scopes : list AccessScope) (name : option str)
    (now wall : Z) (open_pidfd : ProcessKey → outcome ProtocolError PinnedRequester)
    : M PendingAccess ProtocolError AdmittedRequest :=
  let! proc := ok_or (ProcessKey_of peer) (ProtocolError_new ConsentUnavailable
    "the requesting process cannot be pinned for a pending request") in
  let! p := get in
  do! reject_if (closed p) (ProtocolError_new ConsentUnavailable "the daemon is shutting down") in
  do! modify (prune now) in
  let! p := get in
  match remove_first (matches_denial proc lair_id scopes) (denials p) with
  | Some (_, rest) => do! put (set_denials rest p) in fail denied
  | None =>
      match find_mut (matches_entry proc lair_id) (entries p) with
      | Some (e, back) =>
          if bool_decide (entry_scopes e = scopes) then
            do! put (set_entries (back (set_receivers (receivers e + 1) e)) p) in
            ret {| admitted_request_id := entry_id e; admitted_expires := expires e;
                   admitted_expires_at_unix_seconds := expires_at_unix_seconds e; opened := false |}
          else
            fail {| code := ResourceLimit;
                    message := lit "a different access request for this workspace is already pending";
                    current_topology_revision := None; handoff_blocking_reasons := [];
                    pending_request_id := Some (entry_id e) |}
      | None =>
          do! reject_if (existsb (λ c, identity_eq (cooldown_identity c) (IdentityKey_of peer) &&
                                       (cooldown_lair_id c =? lair_id)) (cooldowns p))
            (ProtocolError_new RateLimited "access to this workspace was just denied; retry later") in
          do! reject_if (MAX_PENDING_TOTAL <=? Z.of_nat (length (entries p)))
            (ProtocolError_new ResourceLimit "too many access requests are pending") in
          let! pinned := lift (open_pidfd proc) in
          let id := Z.min (next_id p + 1) u64_max in
          let e := new_entry id proc peer lair_id scopes name now wall pinned in
          do! put (advance_revision (set_entries (entries p ++ [e]) (set_next_id id p))) in
          ret {| admitted_request_id := id; admitted_expires := expires e;
                 admitted_expires_at_unix_seconds := expires_at_unix_seconds e; opened := true |}
      end
  end.

(** A caller stops waiting: its receiver is dropped. *)
Definition drop_receiver (id : Z) (p : PendingAccess) : PendingAccess :=
  match find_mut (λ e, entry_id e =? id) (entries p) with
  | Some (e, back) => set_entries (back (set_receivers (saturating_sub (receivers e) 1) e)) p
  | None => p
  end.

(** ** Prompting and answering *)

Definition claim_prompter (p : PendingAccess) : bool * PendingAccess :=
  (negb (prompter_running p), set_prompter_running true p).

Definition release_prompter (p : PendingAccess) : PendingAccess := set_prompter_running false p.

Definition is_queued (x : Phase) : bool := match x with Queued => true | _ => false end.
Definition is_prompting (x : Phase) : bool := match x with Prompting => true | _ => false end.

(** The prompt job is read off the entry that is now shown. *)
Definition next_prompt (p : PendingAccess) : option Entry * PendingAccess :=
  match find_mut (λ e, is_queued (phase e)) (entries p) with
  | None => (None, set_prompter_running false p)
  | Some (e, back) =>
      let e := set_phase Prompting e in
      (Some e, advance_revision (set_entries (back e) p))
  end.

Definition deny (id now : Z) (p : PendingAccess) : option Entry * PendingAccess :=
  match remove_first (λ e, entry_id e =? id) (entries p) with
  | None => (None, p)
  | Some (e, rest) =>
      if negb (is_prompting (phase e)) then (None, p)
      else
        let p := advance_revision (set_entries rest p) in
        let p := set_cooldowns (cooldowns p ++ [{| cooldown_identity := identity e;
          cooldown_lair_id := entry_lair_id e; cooldown_until := now + DENY_COOLDOWN |}]) p in
        let p :=
          if receivers e =? 0 then
            let kept := if Z.of_nat (length (denials p)) =? MAX_UNCOLLECTED_DENIALS
                        then tail (denials p) else denials p in
            set_denials (kept ++ [{| denial_process := process e; denial_lair_id := entry_lair_id e;
              denial_scopes := entry_scopes e; denial_until := expires e |}]) p
          else p in
        (Some e, deliver e (OutcomeError denied) p)
  end.

(** [begin_commit]; the ticket is read off the entry. *)
Definition begin_commit (id : Z) (p : PendingAccess) : option Entry * PendingAccess :=
  match find_mut (λ e, entry_id e =? id) (entries p) with
  | None => (None, p)
  | Some (e, back) =>
      if negb (is_prompting (phase e)) then (None, p)
      else (Some e, set_entries (back (set_phase (Committing None) e)) p)
  end.

(** [publish_if_live]; [true] when [publish] ran. *)
Definition publish_if_live (id : Z) (p : PendingAccess) : bool * PendingAccess :=
  match find_mut (λ e, entry_id e =? id) (entries p) with
  | None => (false, p)
  | Some (e, back) =>
      match phase e with
      | Committing None => (true, set_entries (back (set_phase Published e)) p)
      | _ => (false, p)
      end
  end.

Definition finish_commit (id : Z) (o : Outcome) (p : PendingAccess) : bool * PendingAccess :=
  match remove_first (λ e, entry_id e =? id) (entries p) with
  | None => (false, p)
  | Some (e, rest) =>
      let p := advance_revision (set_entries rest p) in
      match phase e with
      | Committing (Some error) => (false, deliver e (OutcomeError error) p)
      | _ => (true, deliver e o p)
      end
  end.

(** ** Reading *)

Record PendingView := {
  view_request_id : Z;
  view_peer : PeerIdentity;
  view_lair_id : LairId;
  view_scopes : list AccessScope;
  view_agent_name : option str;
  view_opened_unix_seconds : Z;
  view_expires_at_unix_seconds : Z;
  prompting : bool;
}.

Definition inventory (p : PendingAccess) : list PendingView :=
  (λ e, {| view_request_id := entry_id e; view_peer := entry_peer e; view_lair_id := entry_lair_id e;
           view_scopes := entry_scopes e; view_agent_name := agent_name e;
           view_opened_unix_seconds := opened_unix_seconds e;
           view_expires_at_unix_seconds := expires_at_unix_seconds e;
           prompting := negb (is_queued (phase e)) |}) <$>
  filter (λ e, is_published (phase e) = false) (entries p).

Definition live_count (p : PendingAccess) : Z :=
  Z.of_nat (length (filter (λ e, is_published (phase e) = false) (entries p))).
