(* ===== verification/PendingProps.v ===== *)
(** * Theorems about pending access requests

    Runs of the registry's methods in any order: the bounds and uniqueness of
    what is pending, that a request that ended grants nothing afterwards, that
    a deny keeps its executable out for the cooldown, and the order of
    prompts. *)

From Stdlib Require Import String.
From S2P Require Import Prelude RustStd Layout Topology Policy Protocol Pending.

(** ** Runs *)

Inductive op :=
| Admit (peer : PeerIdentity) (lair_id : LairId) (scopes : list AccessScope) (name : option str)
    (now wall : Z) (open_pidfd : ProcessKey → outcome ProtocolError PinnedRequester)
| DropReceiver (id : Z)
| ClaimPrompter
| ReleasePrompter
| NextPrompt
| Deny (id now : Z)
| EndRequest (id : Z) (error : ProtocolError)
| Expire (id now : Z)
| Cancel (proc : ProcessKey) (lair_id : LairId) (id : Z)
| CancelAll
| Close
| EndLair (lair_id : LairId)
| EndAllAtFence
| BeginCommit (id : Z)
| PublishIfLive (id : Z)
| FinishCommit (id : Z) (o : Outcome).

(** What a call shows: a request opened for an identity and a workspace, one
    that ended without an answer, one whose grant was published. *)
Inductive event :=
| Opened (id : Z) (identity : IdentityKey) (lair_id : LairId)
| Ended (id : Z)
| GrantPublished (id : Z).

(** The requests an end selects. *)
Definition ended_ids (selected : Entry → bool) (p : PendingAccess) : list event :=
  (λ e, Ended (entry_id e)) <$> filter (λ e, is_published (phase e) = false ∧ selected e = true) (entries p).

Definition step (o : op) (p : PendingAccess) : list event * PendingAccess :=
  match o with
  | Admit peer lair_id scopes name now wall open_pidfd =>
      match admit_request peer lair_id scopes name now wall open_pidfd p with
      | (Ok a, p') => (if opened a then [Opened (admitted_request_id a) (IdentityKey_of peer) lair_id] else [], p')
      | (_, p') => ([], p')
      end
  | DropReceiver id => ([], drop_receiver id p)
  | ClaimPrompter => ([], snd (claim_prompter p))
  | ReleasePrompter => ([], release_prompter p)
  | NextPrompt => ([], snd (next_prompt p))
  | Deny id now => ([], snd (deny id now p))
  | EndRequest id error => (ended_ids (λ e, entry_id e =? id) p, snd (end_request id error p))
  | Expire id now => (ended_ids (λ e, (entry_id e =? id) && (expires e <=? now)) p, snd (expire id now p))
  | Cancel proc lair_id id =>
      (ended_ids (λ e, (entry_id e =? id) && bool_decide (process e = proc) && (entry_lair_id e =? lair_id)) p,
       snd (cancel proc lair_id id p))
  | CancelAll => (ended_ids (λ _, true) p, snd (cancel_all p))
  | Close => (ended_ids (λ _, true) p, snd (close p))
  | EndLair lair_id => (ended_ids (λ e, entry_lair_id e =? lair_id) p, snd (end_lair lair_id p))
  | EndAllAtFence => (ended_ids (λ _, true) p, snd (end_all_at_fence p))
  | BeginCommit id => ([], snd (begin_commit id p))
  | PublishIfLive id => (if fst (publish_if_live id p) then [GrantPublished id] else [], snd (publish_if_live id p))
  | FinishCommit id o => ([], snd (finish_commit id o p))
  end.

Inductive run : PendingAccess → list op → list event → PendingAccess → Prop :=
| run_nil p : run p [] [] p
| run_cons p o ops es es' p1 p2 :
    step o p = (es, p1) → run p1 ops es' p2 → run p (o :: ops) (es ++ es') p2.

(** ** What a call does to the entries

    Every call but an opening admission keeps the entries in order, changes
    only their phase and their receivers, and delivers one outcome to each
    entry it removes. *)

Definition key (e : Entry) : Z * ProcessKey * LairId := (entry_id e, process e, entry_lair_id e).

Record shrinks (p p' : PendingAccess) : Prop := {
  sh_keys : sublist (key <$> entries p') (key <$> entries p);
  sh_delivered : ∃ l, delivered p' = delivered p ++ l ∧
    entry_id <$> entries p ≡ₚ (entry_id <$> entries p') ++ l.*1;
  sh_next : next_id p' = next_id p;
}.

Lemma shrinks_refl p : shrinks p p.
Proof. split; [done| |done]. exists []. by rewrite !app_nil_r. Qed.

(** The registry with the same entries, outcomes and counter. *)
Definition same_entries (p p' : PendingAccess) : Prop :=
  entries p' = entries p ∧ delivered p' = delivered p ∧ next_id p' = next_id p.

Lemma shrinks_same p p1 p2 : shrinks p p1 → same_entries p1 p2 → shrinks p p2.
Proof. intros [Hk (l & Hd & Hp) Hn] (He & Hd' & Hn'). split; [by rewrite He| |congruence]. exists l. by rewrite Hd', He. Qed.

Lemma same_shrinks p p1 p2 : same_entries p p1 → shrinks p1 p2 → shrinks p p2.
Proof. intros (He & Hd' & Hn') [Hk (l & Hd & Hp) Hn]. split; [by rewrite <-He| |congruence]. exists l. by rewrite <-Hd', <-He. Qed.

Lemma fmap_id_keys (l l' : list Entry) : key <$> l = key <$> l' → entry_id <$> l = entry_id <$> l'.
Proof.
  intros Hk. assert (∀ l : list Entry, entry_id <$> l = (λ k : Z * ProcessKey * LairId, k.1.1) <$> (key <$> l)) as Hf.
  { intros l0. rewrite <-list_fmap_compose. done. }
  by rewrite !Hf, Hk.
Qed.

Lemma shrinks_keys p l :
  key <$> l = key <$> entries p → shrinks p (set_entries l p).
Proof.
  intros Hk. split; simpl; [by rewrite Hk| |done]. exists []. rewrite !app_nil_r. split; [done|].
  by rewrite (fmap_id_keys _ _ Hk).
Qed.

Lemma shrinks_update p test e back e' :
  find_mut test (entries p) = Some (e, back) → key e' = key e → shrinks p (set_entries (back e') p).
Proof.
  intros (l1 & l2 & Hl & _ & _ & Hb)%find_mut_Some Hk. apply shrinks_keys.
  rewrite Hb, Hl, !fmap_app, !fmap_cons. by rewrite Hk.
Qed.

Lemma remove_first_Some {A} (test : A → bool) l x rest :
  remove_first test l = Some (x, rest) → ∃ l1 l2, l = l1 ++ x :: l2 ∧ rest = l1 ++ l2 ∧ test x = true.
Proof.
  revert rest. induction l as [|y l IH]; intros rest; simpl; [done|].
  destruct (test y) eqn:Ht; [intros [= <- <-]; by exists [], l|].
  destruct (remove_first test l) as [[z rest']|]; [|done]. intros [= <- <-].
  destruct (IH rest' eq_refl) as (l1 & l2 & -> & -> & ?). by exists (y :: l1), l2.
Qed.

Lemma shrinks_remove p test e rest o :
  remove_first test (entries p) = Some (e, rest) → shrinks p (deliver e o (set_entries rest p)).
Proof.
  intros (l1 & l2 & Hl & -> & _)%remove_first_Some. split; simpl; [| |done].
  - rewrite Hl, !fmap_app, fmap_cons. apply sublist_app; [done|]. by apply sublist_cons.
  - exists [(entry_id e, o)]. split; [done|]. rewrite Hl, !fmap_app, fmap_cons. simpl.
    rewrite <-app_assoc. apply Permutation_app_head. by rewrite (Permutation_app_comm _ [entry_id e]).
Qed.

(** *** Ends *)

Lemma end_entries_keys error selected l :
  let '(_, kept, removed) := end_entries error selected l in
  sublist (key <$> kept) (key <$> l) ∧
  entry_id <$> l ≡ₚ (entry_id <$> kept) ++ (entry_id <$> removed).
Proof.
  induction l as [|e l IH]; simpl; [done|].
  destruct (end_entries error selected l) as [[c kept] removed]. destruct IH as [IH1 IH2].
  destruct (_ || _); [split; [by apply sublist_skip|by rewrite IH2]|].
  destruct (phase e); (split; [by first [apply sublist_skip|apply sublist_cons]|]);
    rewrite ?fmap_cons; rewrite IH2; try done; by rewrite <-Permutation_middle.
Qed.

Lemma deliver_all_fields error removed p :
  let p' := foldl (λ p e, deliver e (OutcomeError error) p) p removed in
  entries p' = entries p ∧ next_id p' = next_id p ∧ cooldowns p' = cooldowns p ∧ denials p' = denials p ∧
  delivered p' = delivered p ++ ((λ e, (entry_id e, OutcomeError error)) <$> removed).
Proof.
  revert p. induction removed as [|e l IH]; intros p; simpl; [by rewrite app_nil_r|].
  destruct (IH (deliver e (OutcomeError error) p)) as (-> & -> & -> & -> & ->). simpl. by rewrite <-app_assoc.
Qed.

Lemma end_where_shrinks error selected p : shrinks p (snd (ended_with (end_where error selected p))).
Proof.
  unfold end_where, ended_with. pose proof (end_entries_keys error selected (entries p)) as Hk.
  destruct (end_entries error selected (entries p)) as [[c kept] removed]. destruct Hk as [Hk1 Hk2].
  pose proof (deliver_all_fields error removed (set_entries kept p)) as (He & Hn & _ & _ & Hd).
  set (p1 := foldl _ (set_entries kept p) removed) in *.
  assert (shrinks p p1) as Hs.
  { split; [by rewrite He| |done]. eexists. split; [exact Hd|]. rewrite He. simpl.
    rewrite <-list_fmap_compose. exact Hk2. }
  simpl. destruct (0 <? c); [|done]. by apply (shrinks_same p p1).
Qed.

(** *** Admission *)

Definition cooling (ident : IdentityKey) (lair_id : LairId) (c : Cooldown) : bool :=
  identity_eq (cooldown_identity c) ident && (cooldown_lair_id c =? lair_id).

(** An admission that opens a request. *)
Record opens (peer : PeerIdentity) (lair_id : LairId) (now : Z) (a : AdmittedRequest) (p p' : PendingAccess) : Prop := {
  op_entry : ∃ e, entries p' = entries p ++ [e] ∧ entry_id e = admitted_request_id a ∧
    identity e = IdentityKey_of peer ∧ entry_lair_id e = lair_id ∧ phase e = Queued ∧
    Forall (λ x, (process x, entry_lair_id x) ≠ (process e, lair_id)) (entries p);
  op_id : admitted_request_id a = Z.min (next_id p + 1) u64_max ∧ next_id p' = admitted_request_id a;
  op_room : Z.of_nat (length (entries p)) < MAX_PENDING_TOTAL;
  op_cool : Forall (λ c, now < cooldown_until c → cooling (IdentityKey_of peer) lair_id c = false) (cooldowns p);
  op_delivered : delivered p' = delivered p;
}.

Lemma admit_cases peer lair_id scopes name now wall open_pidfd p :
  let '(r, p') := admit_request peer lair_id scopes name now wall open_pidfd p in
  (p' = p ∨ (cooldowns p' = cooldowns (prune now p) ∧
             (length (denials p') ≤ length (denials p))%nat)) ∧
  match r with
  | Ok a => if opened a then opens peer lair_id now a p p' else shrinks p p'
  | _ => shrinks p p'
  end.
Proof.
  unfold admit_request, bind, ok_or. destruct (ProcessKey_of peer) as [proc|]; [|split; [by left|apply shrinks_refl]].
  cbn [ret get reject_if]. unfold reject_if. destruct (closed p); [split; [by left|apply shrinks_refl]|].
  cbn [ret modify]. set (q := prune now p). assert (same_entries p q) as Hq by done.
  assert (length (denials q) ≤ length (denials p))%nat as Hlen by apply length_filter.
  destruct (remove_first _ (denials q)) as [[d rest]|] eqn:Hrm.
  { apply remove_first_Some in Hrm as (l1 & l2 & Hl & -> & _). split.
    - right. split; [done|]. simpl. rewrite Hl, length_app in Hlen. simpl in Hlen. rewrite length_app. lia.
    - apply (same_shrinks p q); [done|]. by apply (shrinks_same q q); [apply shrinks_refl|]. }
  destruct (find_mut _ (entries q)) as [[e back]|] eqn:Hf.
  { destruct (bool_decide _); (split; [by right|]).
    - apply (same_shrinks p q); [done|]. by eapply shrinks_update.
    - by apply (same_shrinks p q); [|apply shrinks_refl]. }
  destruct (existsb _ _) eqn:Hc; [split; [by right|by apply (same_shrinks p q); [|apply shrinks_refl]]|].
  cbn [ret]. destruct (_ <=? _) eqn:Hb; [split; [by right|by apply (same_shrinks p q); [|apply shrinks_refl]]|].
  cbn [ret lift]. unfold lift. destruct (open_pidfd proc) as [pinned|er|];
    [|split; [by right|by apply (same_shrinks p q); [|apply shrinks_refl]]..].
  cbn [put ret]. split; [by right|]. simpl. split; [|done|simpl in Hb; lia| |done].
  - eexists. split; [done|]. split_and!; try done. simpl.
    apply find_mut_None in Hf. eapply Forall_impl; [exact Hf|]. intros x Hx [= Hx1 Hx2].
    unfold matches_entry in Hx. rewrite Hx1, Hx2, bool_decide_true, Z.eqb_refl in Hx by done. done.
  - apply existsb_false in Hc. apply Forall_forall. intros c Hin Hlt.
    rewrite Forall_forall in Hc. apply Hc. simpl. apply list_elem_of_filter. done.
Qed.

(** *** All calls *)

Lemma step_cases o p :
  let '(es, p') := step o p in
  shrinks p p' ∨
  ∃ peer lair_id scopes name now wall f a, o = Admit peer lair_id scopes name now wall f ∧
    opens peer lair_id now a p p' ∧ es = [Opened (admitted_request_id a) (IdentityKey_of peer) lair_id].
Proof.
  destruct o as [peer lair_id scopes name now wall f|id| | | |id now|id error|id now|proc lair id| | |lair| |id|id|id out];
    cbn [step].
  - pose proof (admit_cases peer lair_id scopes name now wall f p) as Hc.
    destruct (admit_request _ _ _ _ _ _ _ p) as [[a|e|] p']; destruct Hc as [_ Hc]; [|by left..].
    destruct (opened a); [|by left]. right. by eauto 15.
  - left. unfold drop_receiver. destruct (find_mut _ _) as [[e back]|] eqn:Hf; [|apply shrinks_refl].
    by eapply shrinks_update.
  - left. by apply (shrinks_same p p); [apply shrinks_refl|].
  - left. by apply (shrinks_same p p); [apply shrinks_refl|].
  - left. unfold next_prompt. destruct (find_mut _ _) as [[e back]|] eqn:Hf.
    + eapply shrinks_same; [by eapply (shrinks_update p _ _ _ (set_phase Prompting e))|done].
    + by apply (shrinks_same p p); [apply shrinks_refl|].
  - left. unfold deny. destruct (remove_first _ _) as [[e rest]|] eqn:Hr; [|apply shrinks_refl].
    destruct (negb _); [apply shrinks_refl|].
    eapply shrinks_same; [by eapply (shrinks_remove p _ e rest (OutcomeError denied))|].
    by destruct (receivers e =? 0).
  - left. unfold end_request. pose proof (end_where_shrinks error (λ e, entry_id e =? id) p) as Hs.
    by destruct (ended_with _).
  - left. unfold expire. lazymatch goal with |- context [ended_with (end_where ?e ?s p)] =>
      pose proof (end_where_shrinks e s p) as Hs end. by destruct (ended_with _).
  - left. unfold cancel. lazymatch goal with |- context [ended_with (end_where ?e ?s p)] =>
      pose proof (end_where_shrinks e s p) as Hs end. by destruct (ended_with _).
  - left. apply end_where_shrinks.
  - left. apply (same_shrinks p (set_closed true p)); [done|]. apply end_where_shrinks.
  - left. apply end_where_shrinks.
  - left. apply end_where_shrinks.
  - left. unfold begin_commit. destruct (find_mut _ _) as [[e back]|] eqn:Hf; [|apply shrinks_refl].
    destruct (negb _); [apply shrinks_refl|]. by eapply shrinks_update.
  - left. unfold publish_if_live. destruct (find_mut _ _) as [[e back]|] eqn:Hf; [|apply shrinks_refl].
    destruct (phase e) as [| |[]|]; try apply shrinks_refl. by eapply shrinks_update.
  - left. unfold finish_commit. destruct (remove_first _ _) as [[e rest]|] eqn:Hr; [|apply shrinks_refl].
    destruct (phase e) as [| |[x|]|];
      (eapply shrinks_same; [by eapply (shrinks_remove p _ e rest)|done]).
Qed.

(** ** The invariant *)

Record pending_ok (p : PendingAccess) : Prop := {
  po_order : StronglySorted Z.lt (entry_id <$> entries p);
  po_ids : Forall (λ e, 0 < entry_id e ≤ next_id p) (entries p);
  po_processes : NoDup ((λ e, (process e, entry_lair_id e)) <$> entries p);
  po_total : Z.of_nat (length (entries p)) ≤ MAX_PENDING_TOTAL;
  po_once : NoDup ((entry_id <$> entries p) ++ (delivered p).*1);
  po_delivered : Forall (λ x, 0 < x.1 ≤ next_id p) (delivered p);
  po_next : 0 ≤ next_id p ≤ u64_max;
}.

Lemma sublist_fmap {A B} (f : A → B) (l k : list A) : sublist l k → sublist (f <$> l) (f <$> k).
Proof. induction 1; simpl; by constructor. Qed.

Lemma sublist_Forall {A} (P : A → Prop) (l k : list A) : sublist l k → Forall P k → Forall P l.
Proof. induction 1 as [|x l k _ IH|x l k _ IH]; [done|intros [? ?]%Forall_cons; by constructor; [|apply IH]|].
  intros [? ?]%Forall_cons. by apply IH.
Qed.

Lemma sublist_StronglySorted {A} (R : A → A → Prop) (l k : list A) :
  sublist l k → StronglySorted R k → StronglySorted R l.
Proof.
  induction 1 as [|x l k Hs IH|x l k Hs IH]; intros Hk; [done|..];
    apply StronglySorted_inv in Hk as [Hk Hx]; [|by apply IH].
  constructor; [by apply IH|]. by eapply sublist_Forall.
Qed.

Lemma shrinks_ok p p' : shrinks p p' → pending_ok p → pending_ok p'.
Proof.
  intros [Hk (l & Hd & Hp) Hn] [Ho Hi Hpr Ht Hon Hde Hne].
  assert (∀ {B} (f : Z * ProcessKey * LairId → B),
    sublist (f <$> (key <$> entries p')) (f <$> (key <$> entries p))) as Hsub.
  { intros B f. by apply sublist_fmap. }
  split; rewrite ?Hn; try done.
  - pose proof (Hsub _ (λ k, k.1.1)) as Hs. rewrite <-!list_fmap_compose in Hs.
    by eapply sublist_StronglySorted.
  - pose proof (Hsub _ (λ k, k.1.1)) as Hs. rewrite <-!list_fmap_compose in Hs.
    assert (Forall (λ i, 0 < i ≤ next_id p) (entry_id <$> entries p)) as Hf by by apply Forall_fmap.
    eapply sublist_Forall in Hf; [|exact Hs]. by apply Forall_fmap in Hf.
  - pose proof (Hsub _ (λ k, (k.1.2, k.2))) as Hs. rewrite <-!list_fmap_compose in Hs. by eapply sublist_NoDup.
  - apply sublist_length in Hk. rewrite !length_fmap in Hk. lia.
  - rewrite Hd, fmap_app. eapply NoDup_Permutation_proper; [|exact Hon].
    rewrite Hp, <-app_assoc. apply Permutation_app_head, Permutation_app_comm.
  - rewrite Hd. apply Forall_app. split; [done|].
    assert (Forall (λ i, 0 < i ≤ next_id p) (entry_id <$> entries p)) as Hf by by apply Forall_fmap.
    rewrite Hp in Hf. apply Forall_app in Hf as [_ Hf]. by apply Forall_fmap in Hf.
Qed.

Lemma opens_ok peer lair_id now a p p' :
  opens peer lair_id now a p p' → next_id p < u64_max → pending_ok p → pending_ok p'.
Proof.
  intros [(e & He & Hid & _ & Hl & _ & Hnew) [Ha Hn] Hroom _ Hd] Hmax [Ho Hi Hpr Ht Hon Hde Hne].
  rewrite Z.min_l in Ha by lia. rewrite Ha in *. split; rewrite ?He, ?Hn, ?Hd, ?Ha.
  - rewrite fmap_app. apply StronglySorted_app_2; [|done|repeat constructor].
    intros x1 x2 (y & -> & Hy)%list_elem_of_fmap ->%list_elem_of_singleton.
    rewrite Forall_forall in Hi. specialize (Hi y Hy). lia.
  - apply Forall_app. split; [eapply Forall_impl; [exact Hi|]; simpl; lia|]. apply Forall_singleton. lia.
  - rewrite fmap_app. apply NoDup_app. split_and!; [done| |apply NoDup_singleton].
    intros x (y & -> & Hy)%list_elem_of_fmap Hx%list_elem_of_singleton.
    rewrite Forall_forall in Hnew. apply (Hnew y Hy). by rewrite Hx, Hl.
  - rewrite length_app. simpl. lia.
  - rewrite fmap_app, <-app_assoc. simpl. rewrite <-Permutation_middle. apply NoDup_cons. split; [|done].
    rewrite Hid, elem_of_app, !list_elem_of_fmap. intros [(y & Hy & Hin)|(y & Hy & Hin)].
    + rewrite Forall_forall in Hi. specialize (Hi y Hin). lia.
    + rewrite Forall_forall in Hde. specialize (Hde y Hin). lia.
  - eapply Forall_impl; [exact Hde|]. simpl. lia.
  - lia.
Qed.

Lemma step_next o p : next_id p ≤ u64_max → next_id p ≤ next_id (snd (step o p)) ≤ u64_max.
Proof.
  intros Hm. pose proof (step_cases o p) as Hc. destruct (step o p) as [es p']. simpl.
  destruct Hc as [Hs|(peer & lair & sc & nm & now & wall & f & a & _ & [_ [Ha Hn] _ _ _] & _)].
  - rewrite (sh_next _ _ Hs). lia.
  - lia.
Qed.

Lemma registry_step_ok o p : pending_ok p → next_id (snd (step o p)) < u64_max → pending_ok (snd (step o p)).
Proof.
  intros Hp Hm. pose proof (step_cases o p) as Hc. pose proof (step_next o p) as Hn.
  destruct (step o p) as [es p']. simpl in *.
  destruct Hc as [Hs|(peer & lair & sc & nm & now & wall & f & a & _ & Ho & _)]; [by eapply shrinks_ok|].
  eapply opens_ok; [exact Ho| |done]. destruct Ho as [_ [Ha Hn'] _ _ _]. lia.
Qed.

Lemma run_next p ops es p' : run p ops es p' → next_id p ≤ u64_max → next_id p ≤ next_id p' ≤ u64_max.
Proof.
  induction 1 as [|p o ops es es' p1 p2 Hs _ IH]; [lia|]. intros Hm.
  pose proof (step_next o p Hm) as Hn. rewrite Hs in Hn. simpl in Hn. lia.
Qed.

Lemma registry_run_ok p ops es p' : run p ops es p' → pending_ok p → next_id p' < u64_max → pending_ok p'.
Proof.
  induction 1 as [|p o ops es es' p1 p2 Hs Hr IH]; [done|]. intros Hp Hm.
  assert (next_id p1 < u64_max) as Hm1.
  { pose proof (step_next o p) as Hn. rewrite Hs in Hn. simpl in Hn. pose proof (run_next _ _ _ _ Hr) as Hn2.
    pose proof (po_next _ Hp). lia. }
  apply IH; [|done]. pose proof (registry_step_ok o p Hp) as Hok. rewrite Hs in Hok. by apply Hok.
Qed.

Lemma default_ok : pending_ok PendingAccess_default.
Proof. split; try constructor; simpl; try done. Qed.

(** ** Requests that ended *)

Definition ended_phase (x : Phase) : Prop := ∃ error, x = Committing (Some error).

(** The request is over: it is not pending, or it is being committed and
    marked as ended, and it was not granted. *)
Record dead (id : Z) (p : PendingAccess) : Prop := {
  dead_known : id ≤ next_id p;
  dead_phase : ∀ e, e ∈ entries p → entry_id e = id → ended_phase (phase e);
  dead_outcome : ∀ r, (id, Granted r) ∉ delivered p;
}.

Lemma dead_same id p p' : same_entries p p' → dead id p → dead id p'.
Proof. intros (He & Hd & Hn) [Hk Hp Ho]. split; by rewrite ?He, ?Hd, ?Hn. Qed.

Lemma dead_update id p test e back e' :
  find_mut test (entries p) = Some (e, back) → entry_id e' = entry_id e →
  (ended_phase (phase e) → ended_phase (phase e')) → dead id p → dead id (set_entries (back e') p).
Proof.
  intros (l1 & l2 & Hl & _ & _ & Hb)%find_mut_Some Hid Hph [Hk Hp Ho]. split; simpl; [done| |done].
  intros x. rewrite Hb. intros Hx Hxid. apply elem_of_app in Hx as [Hx|[->|Hx]%elem_of_cons].
  - apply Hp; [rewrite Hl; set_solver|done].
  - apply Hph, Hp; [rewrite Hl; set_solver|congruence].
  - apply Hp; [rewrite Hl; set_solver|done].
Qed.

Lemma dead_remove id p test e rest o :
  remove_first test (entries p) = Some (e, rest) → (∀ r, o = Granted r → ¬ ended_phase (phase e)) →
  dead id p → dead id (deliver e o (set_entries rest p)).
Proof.
  intros (l1 & l2 & Hl & -> & _)%remove_first_Some Hg [Hk Hp Ho]. split; simpl; [done| |].
  - intros x Hx. apply Hp. rewrite Hl. set_solver.
  - intros r. rewrite not_elem_of_app. split; [done|]. intros [= Hid Hor]%list_elem_of_singleton.
    apply (Hg r (eq_sym Hor)), Hp; [rewrite Hl; set_solver|done].
Qed.

Lemma dead_opens id peer lair_id now a p p' :
  next_id p < u64_max → opens peer lair_id now a p p' → dead id p → dead id p'.
Proof.
  intros Hm [(e & He & Hid & _) [Ha Hn] _ _ Hd] [Hk Hp Ho]. split; [lia| |by rewrite Hd].
  rewrite He. intros x [Hx| ->%list_elem_of_singleton]%elem_of_app Hxid; [by apply Hp|]. lia.
Qed.

(** Which entries an end keeps, and how. *)
Lemma end_entries_kept error selected l e' :
  let '(_, kept, _) := end_entries error selected l in
  e' ∈ kept → ∃ e, e ∈ l ∧ entry_id e' = entry_id e ∧
    (ended_phase (phase e') ∨ (phase e' = phase e ∧ (is_published (phase e) = true ∨ selected e = false))).
Proof.
  induction l as [|e l IH]; simpl; [set_solver|].
  destruct (end_entries error selected l) as [[c kept] removed].
  assert (∀ P : Entry → Prop, (∃ e0, e0 ∈ l ∧ P e0) → ∃ e0, e0 ∈ e :: l ∧ P e0) as Hw.
  { intros P (x & ? & ?). exists x. split; [by right|done]. }
  destruct (_ || _) eqn:Hs.
  { intros [->|Hin]%elem_of_cons; [|by apply Hw, IH]. exists e. split; [by left|]. split; [done|right].
    split; [done|]. apply orb_true_iff in Hs as [?|?%negb_true_iff]; auto. }
  destruct (phase e) as [| |ended|] eqn:Hph; try (intros Hin; by apply Hw, IH).
  intros [->|Hin]%elem_of_cons; [|by apply Hw, IH]. exists e. split; [by left|]. split; [done|left].
  destruct ended; by eexists.
Qed.

Lemma dead_end id error selected p : dead id p → dead id (snd (ended_with (end_where error selected p))).
Proof.
  intros [Hk Hp Ho]. unfold end_where, ended_with.
  pose proof (end_entries_kept error selected (entries p)) as Hkept.
  destruct (end_entries error selected (entries p)) as [[c kept] removed].
  pose proof (deliver_all_fields error removed (set_entries kept p)) as (He & Hn & _ & _ & Hd).
  set (p1 := foldl _ (set_entries kept p) removed) in *.
  assert (dead id p1) as Hdead.
  { split; [rewrite Hn; done| |].
    - rewrite He. intros e' Hin Hid. destruct (Hkept e' Hin) as (e & Hin' & Hid' & [Hd'|[-> _]]); [done|].
      apply Hp; [done|congruence].
    - intros r. rewrite Hd, not_elem_of_app. split; [apply Ho|].
      intros (x & ? & _)%list_elem_of_fmap. done. }
  simpl. destruct (0 <? c); [|done]. by apply (dead_same id p1).
Qed.

(** A request an end selects is over. *)
Lemma end_kills id error selected p :
  pending_ok p → Ended id ∈ ended_ids selected p →
  dead id (snd (ended_with (end_where error selected p))).
Proof.
  intros Hok (e0 & [= ->] & [[Hpub Hsel] Hin]%list_elem_of_filter)%list_elem_of_fmap.
  assert (∀ e, e ∈ entries p → entry_id e = entry_id e0 → e = e0) as Huniq.
  { intros e He Hid. pose proof (po_once _ Hok) as (Hnd & _ & _)%NoDup_app.
    apply list_elem_of_lookup in He as [i Hi]. apply list_elem_of_lookup in Hin as [j Hj].
    assert (i = j) as ->; [|congruence]. eapply NoDup_lookup; [exact Hnd|..]; rewrite list_lookup_fmap.
    - by rewrite Hi.
    - rewrite Hj. simpl. by rewrite Hid. }
  unfold end_where, ended_with.
  pose proof (end_entries_kept error selected (entries p)) as Hkept.
  destruct (end_entries error selected (entries p)) as [[c kept] removed].
  pose proof (deliver_all_fields error removed (set_entries kept p)) as (He & Hn & _ & _ & Hd).
  set (p1 := foldl _ (set_entries kept p) removed) in *.
  assert (dead (entry_id e0) p1) as Hdead.
  { split.
    - rewrite Hn. pose proof (po_ids _ Hok) as Hi. rewrite Forall_forall in Hi. apply (Hi e0 Hin).
    - rewrite He. intros e' Hin' Hid. destruct (Hkept e' Hin') as (e & Hine & Hide & [Hd'|[_ Hx]]); [done|].
      rewrite (Huniq e) in Hx by (done || congruence). destruct Hx; congruence.
    - intros r. rewrite Hd, not_elem_of_app. split.
      + intros Hg. pose proof (po_once _ Hok) as (_ & Hdis & _)%NoDup_app.
        apply (Hdis (entry_id e0)); [apply list_elem_of_fmap; by exists e0|].
        apply list_elem_of_fmap. by exists (entry_id e0, Granted r).
      + intros (x & ? & _)%list_elem_of_fmap. done. }
  simpl. destruct (0 <? c); [|done]. by apply (dead_same _ p1).
Qed.

Lemma admit_dead id peer lair_id scopes name now wall f p :
  dead id p → next_id (snd (admit_request peer lair_id scopes name now wall f p)) < u64_max →
  dead id (snd (admit_request peer lair_id scopes name now wall f p)).
Proof.
  intros Hd Hm. pose proof (admit_cases peer lair_id scopes name now wall f p) as Ha.
  unfold admit_request, bind, ok_or in *. destruct (ProcessKey_of peer) as [proc|]; [|done].
  cbn [ret get reject_if] in *. unfold reject_if in *. destruct (closed p); [done|].
  cbn [ret modify] in *. set (q := prune now p) in *.
  assert (dead id q) as Hq by by apply (dead_same id p).
  destruct (remove_first _ (denials q)) as [[d rest]|]; [by apply (dead_same id q)|].
  destruct (find_mut _ (entries q)) as [[e back]|] eqn:Hf.
  { destruct (bool_decide _); [|done]. by eapply dead_update. }
  destruct (existsb _ _); [done|]. cbn [ret] in *.
  destruct (_ <=? _); [done|]. cbn [ret lift] in *. unfold lift in *.
  destruct (f proc) as [pinned|er|]; [|done..].
  cbn [put ret] in *. destruct Ha as [_ Ha]. simpl in Ha.
  eapply dead_opens; [|exact Ha|done]. simpl in Hm. lia.
Qed.

Lemma step_dead id o p :
  pending_ok p → next_id (snd (step o p)) < u64_max → dead id p →
  dead id (snd (step o p)) ∧ GrantPublished id ∉ fst (step o p).
Proof.
  assert (∀ selected q, GrantPublished id ∉ ended_ids selected q) as Hnot.
  { intros selected q (x & ? & _)%list_elem_of_fmap. done. }
  intros Hok Hm Hd.
  destruct o as [peer lair_id scopes name now wall f|i| | | |i now|i error|i now|proc lair i| | |lair| |i|i|i out];
    cbn [step] in *.
  - pose proof (admit_dead id peer lair_id scopes name now wall f p Hd) as Ha.
    destruct (admit_request _ _ _ _ _ _ _ p) as [[a|e|] p']; [destruct (opened a)|..];
      (split; [by apply Ha|set_solver]).
  - split; [|set_solver]. unfold drop_receiver. destruct (find_mut _ _) as [[e back]|] eqn:Hf; [|done].
    by eapply dead_update.
  - split; [by apply (dead_same id p)|set_solver].
  - split; [by apply (dead_same id p)|set_solver].
  - split; [|set_solver]. unfold next_prompt. destruct (find_mut _ _) as [[e back]|] eqn:Hf;
      [|by apply (dead_same id p)]. eapply dead_same; [|eapply (dead_update id p _ e back (set_phase Prompting e)); [done|done| |done]];
      [done|]. apply find_mut_Some in Hf as (_ & _ & _ & Hq & _). intros [x Hx]. by rewrite Hx in Hq.
  - split; [|set_solver]. unfold deny. destruct (remove_first _ _) as [[e rest]|] eqn:Hr; [|done].
    destruct (negb _); [done|]. eapply dead_same; [|by eapply (dead_remove id p _ e rest (OutcomeError denied))].
    by destruct (receivers e =? 0).
  - split; [|apply Hnot]. unfold end_request. pose proof (dead_end id error (λ e, entry_id e =? i) p Hd) as Hs.
    by destruct (ended_with _).
  - split; [|apply Hnot]. unfold expire. lazymatch goal with |- context [ended_with (end_where ?e ?s p)] =>
      pose proof (dead_end id e s p Hd) as Hs end. by destruct (ended_with _).
  - split; [|apply Hnot]. unfold cancel. lazymatch goal with |- context [ended_with (end_where ?e ?s p)] =>
      pose proof (dead_end id e s p Hd) as Hs end. by destruct (ended_with _).
  - split; [by apply dead_end|apply Hnot].
  - split; [|apply Hnot]. by apply dead_end, (dead_same id p).
  - split; [by apply dead_end|apply Hnot].
  - split; [by apply dead_end|apply Hnot].
  - split; [|set_solver]. unfold begin_commit. destruct (find_mut _ _) as [[e back]|] eqn:Hf; [|done].
    destruct (phase e) as [| |x|] eqn:Hph; try done. eapply dead_update; [done..| |done].
    rewrite Hph. by intros [? ?].
  - unfold publish_if_live. destruct (find_mut _ _) as [[e back]|] eqn:Hf; [|split; [done|set_solver]].
    destruct (phase e) as [| |[x|]|] eqn:Hph; try (split; [done|set_solver]). simpl. split.
    + eapply dead_update; [done..| |done]. rewrite Hph. by intros [? ?].
    + intros [= <-]%list_elem_of_singleton.
      apply find_mut_Some in Hf as (l1 & l2 & Hl & Hid & _). apply Z.eqb_eq in Hid.
      destruct (dead_phase _ _ Hd e) as [x Hx]; [rewrite Hl; set_solver|done|congruence].
  - split; [|set_solver]. unfold finish_commit. destruct (remove_first _ _) as [[e rest]|] eqn:Hr; [|done].
    destruct (phase e) as [| |[x|]|] eqn:Hph;
      (eapply dead_same; [|eapply (dead_remove id p _ e rest); [done| |done]]; [done|]);
      rewrite Hph; intros ? ?; try done; by intros [? ?].
Qed.

Lemma run_dead id p ops es p' :
  run p ops es p' → pending_ok p → next_id p' < u64_max → dead id p →
  dead id p' ∧ GrantPublished id ∉ es.
Proof.
  induction 1 as [|p o ops es es' p1 p2 Hs Hr IH]; intros Hp Hm Hd; [split; [done|set_solver]|].
  assert (next_id p1 < u64_max) as Hm1.
  { pose proof (step_next o p) as Hn. rewrite Hs in Hn. simpl in Hn. pose proof (run_next _ _ _ _ Hr) as Hn2.
    pose proof (po_next _ Hp). lia. }
  pose proof (step_dead id o p Hp) as Hstep. pose proof (registry_step_ok o p Hp) as Hok. rewrite Hs in Hstep, Hok. simpl in *.
  destruct (Hstep Hm1 Hd) as [Hd1 He]. destruct (IH (Hok Hm1) Hm Hd1) as [Hd2 He2].
  split; [done|]. by rewrite not_elem_of_app.
Qed.

Lemma step_ended id o p : pending_ok p → Ended id ∈ fst (step o p) → dead id (snd (step o p)).
Proof.
  intros Hok. destruct o as [peer lair_id scopes name now wall f|i| | | |i now|i error|i now|proc lair i| | |lair| |i|i|i out];
    cbn [step]; try (intros H; by apply elem_of_nil in H).
  - destruct (admit_request _ _ _ _ _ _ _ p) as [[a|e|] p']; [destruct (opened a)|..]; simpl; set_solver.
  - intros H. unfold end_request. pose proof (end_kills id error _ p Hok H) as Hs. by destruct (ended_with _).
  - intros H. unfold expire. lazymatch goal with |- context [end_where ?e _ p] =>
      pose proof (end_kills id e _ p Hok H) as Hs end. by destruct (ended_with _).
  - intros H. unfold cancel. lazymatch goal with |- context [end_where ?e _ p] =>
      pose proof (end_kills id e _ p Hok H) as Hs end. by destruct (ended_with _).
  - intros H. by apply end_kills.
  - intros H. apply end_kills; [|done]. by destruct Hok.
  - intros H. by apply end_kills.
  - intros H. by apply end_kills.
  - destruct (publish_if_live i p) as [[] q]; simpl; [by intros [=]%list_elem_of_singleton|by intros ?%elem_of_nil].
Qed.

Lemma run_ended id p ops es p' :
  run p ops es p' → pending_ok p → next_id p' < u64_max → Ended id ∈ es → dead id p'.
Proof.
  induction 1 as [|p o ops es es' p1 p2 Hs Hr IH]; intros Hp Hm; [set_solver|].
  assert (next_id p1 < u64_max) as Hm1.
  { pose proof (step_next o p) as Hn. rewrite Hs in Hn. simpl in Hn. pose proof (run_next _ _ _ _ Hr) as Hn2.
    pose proof (po_next _ Hp). lia. }
  pose proof (registry_step_ok o p Hp) as Hok. pose proof (step_ended id o p Hp) as He. rewrite Hs in Hok, He. simpl in *.
  intros [Hin|Hin]%elem_of_app; [|by apply IH; auto].
  by apply (run_dead id p1 ops es' p2 Hr (Hok Hm1) Hm), He.
Qed.

(** ** Theorems *)

(** C31. Whatever calls are made in whatever order, at most eight requests are
    pending, at most one per process and workspace, under distinct identifiers
    in order of arrival, and no request receives two outcomes or an outcome
    while it is pending (as long as identifiers last). *)
Theorem pending_requests_bounded ops es p :
  run PendingAccess_default ops es p → next_id p < u64_max → pending_ok p.
Proof. intros Hr. apply (registry_run_ok _ _ _ _ Hr), default_ok. Qed.

(** C14. A late answer grants nothing: once a request was ended (it expired, was
    cancelled or revoked, its process or workspace ended, the daemon shut down
    or handed off), no later call publishes its grant and its callers never
    receive one, even if the answer was being committed. *)
Theorem ended_never_granted ops1 es1 p1 ops2 es2 p2 id :
  run PendingAccess_default ops1 es1 p1 → run p1 ops2 es2 p2 → next_id p2 < u64_max →
  Ended id ∈ es1 → GrantPublished id ∉ es2 ∧ ∀ r, (id, Granted r) ∉ delivered p2.
Proof.
  intros Hr1 Hr2 Hm Hin. pose proof (run_next _ _ _ _ Hr1 ltac:(done)) as Hn1.
  pose proof (run_next _ _ _ _ Hr2 ltac:(lia)) as Hn2.
  assert (pending_ok p1) as Hok1 by (apply (registry_run_ok _ _ _ _ Hr1 default_ok); lia).
  assert (dead id p1) as Hd by (apply (run_ended _ _ _ _ _ Hr1 default_ok); [lia|done]).
  destruct (run_dead id p1 ops2 es2 p2 Hr2 Hok1 Hm Hd) as [[_ _ Ho] He]. done.
Qed.

(** *** The cooldown *)

(** The calls before a time. *)
Definition before (t : Z) (o : op) : Prop :=
  match o with Admit _ _ _ _ now _ _ => now < t | _ => True end.

Lemma step_cooldowns o p c t :
  before t o → cooldown_until c = t → c ∈ cooldowns p → c ∈ cooldowns (snd (step o p)).
Proof.
  intros Hb Ht Hc.
  assert (∀ error selected q, cooldowns (snd (ended_with (end_where error selected q))) = cooldowns q) as Hend.
  { intros error selected q. unfold end_where, ended_with.
    destruct (end_entries error selected (entries q)) as [[n kept] removed].
    pose proof (deliver_all_fields error removed (set_entries kept q)) as (_ & _ & Hcd & _). simpl.
    destruct (0 <? n); simpl; by rewrite Hcd. }
  destruct o as [peer lair_id scopes name now wall f|i| | | |i now|i error|i now|proc lair i| | |lair| |i|i|i out];
    cbn [step]; try done;
    try (unfold cancel_all, close, end_lair, end_all_at_fence; cbn [snd]; by rewrite Hend).
  - pose proof (admit_cases peer lair_id scopes name now wall f p) as Ha. cbn [before] in Hb.
    assert (∀ q, cooldowns q = cooldowns (prune now p) → c ∈ cooldowns q) as Hpr.
    { intros q ->. simpl. apply list_elem_of_filter. split; [lia|done]. }
    destruct (admit_request _ _ _ _ _ _ _ p) as [[a|e|] p']; destruct Ha as [[->|[Ha _]] _]; simpl; auto.
  - unfold drop_receiver. by destruct (find_mut _ _) as [[e back]|].
  - unfold next_prompt. by destruct (find_mut _ _) as [[e back]|].
  - unfold deny. destruct (remove_first _ _) as [[e rest]|]; [|done]. destruct (negb _); [done|].
    simpl. destruct (receivers e =? 0); simpl; set_solver.
  - unfold end_request. pose proof (Hend error (λ e, entry_id e =? i) p) as He. destruct (ended_with _). simpl in *. by rewrite He.
  - unfold expire. lazymatch goal with |- context [ended_with (end_where ?e ?s p)] =>
      pose proof (Hend e s p) as He end. destruct (ended_with _). simpl in *. by rewrite He.
  - unfold cancel. lazymatch goal with |- context [ended_with (end_where ?e ?s p)] =>
      pose proof (Hend e s p) as He end. destruct (ended_with _). simpl in *. by rewrite He.
  - unfold begin_commit. destruct (find_mut _ _) as [[e back]|]; [|done]. by destruct (negb _).
  - unfold publish_if_live. destruct (find_mut _ _) as [[e back]|]; [|done]. by destruct (phase e) as [| |[]|].
  - unfold finish_commit. destruct (remove_first _ _) as [[e rest]|]; [|done]. by destruct (phase e) as [| |[]|].
Qed.

Lemma step_opened o p id ident lair_id :
  Opened id ident lair_id ∈ fst (step o p) →
  ∃ peer scopes name now wall f a, o = Admit peer lair_id scopes name now wall f ∧
    ident = IdentityKey_of peer ∧ opens peer lair_id now a p (snd (step o p)).
Proof.
  assert (∀ selected q, Opened id ident lair_id ∉ ended_ids selected q) as Hnot.
  { intros selected q (x & ? & _)%list_elem_of_fmap. done. }
  destruct o as [peer lair scopes name now wall f|i| | | |i now|i error|i now|proc lair i| | |lair| |i|i|i out];
    cbn [step]; try (intros H; by apply elem_of_nil in H); try (intros H; by apply Hnot in H).
  - pose proof (admit_cases peer lair scopes name now wall f p) as Ha.
    destruct (admit_request _ _ _ _ _ _ _ p) as [[a|e|] p']; destruct Ha as [_ Ha]; simpl;
      [|by intros ?%elem_of_nil..].
    destruct (opened a); [|by intros ?%elem_of_nil]. intros [= -> -> ->]%list_elem_of_singleton. by eauto 12.
  - destruct (publish_if_live i p) as [[] q]; simpl; [by intros [=]%list_elem_of_singleton|by intros ?%elem_of_nil].
Qed.

Lemma run_cooldown p ops es p' c ident lair_id id :
  run p ops es p' → c ∈ cooldowns p → Forall (before (cooldown_until c)) ops →
  cooling ident lair_id c = true → Opened id ident lair_id ∉ es.
Proof.
  induction 1 as [|p o ops es es' p1 p2 Hs Hr IH]; intros Hc Hb Hcool; [set_solver|].
  apply Forall_cons in Hb as [Hbo Hb]. rewrite not_elem_of_app. split.
  - intros Hin. pose proof (step_opened o p id ident lair_id) as Ho. rewrite Hs in Ho.
    destruct (Ho Hin) as (peer & sc & nm & now & wall & f & a & -> & -> & Hop). cbn [before] in Hbo.
    pose proof (op_cool _ _ _ _ _ _ Hop) as Hx. rewrite Forall_forall in Hx.
    specialize (Hx c Hc Hbo). congruence.
  - apply IH; [|done..]. pose proof (step_cooldowns o p c (cooldown_until c)) as Hst. rewrite Hs in Hst. by apply Hst.
Qed.

(** A deny holds: for ten seconds after the person denies a request, no
    call opens another one for the same executable identity and workspace,
    whatever process makes it and whatever happens in between. *)
Theorem deny_cools_down p id now e p1 ops es p2 ident id' :
  deny id now p = (Some e, p1) → run p1 ops es p2 → Forall (before (now + DENY_COOLDOWN)) ops →
  identity_eq (identity e) ident = true → Opened id' ident (entry_lair_id e) ∉ es.
Proof.
  intros Hd Hr Hb Hi.
  set (c := {| cooldown_identity := identity e; cooldown_lair_id := entry_lair_id e;
               cooldown_until := now + DENY_COOLDOWN |}).
  apply (run_cooldown p1 ops es p2 c ident (entry_lair_id e) id' Hr); [|done|].
  - unfold deny in Hd. destruct (remove_first _ _) as [[x rest]|]; [|done]. destruct (negb _); [done|].
    injection Hd as -> <-. destruct (receivers e =? 0); simpl; set_solver.
  - unfold cooling. simpl. by rewrite Hi, Z.eqb_refl.
Qed.

(** Prompts come in order of arrival: the next request shown is the one
    with the smallest identifier among those waiting, and the prompter stops
    only when none waits. *)
Theorem prompts_in_order ops es p :
  run PendingAccess_default ops es p → next_id p < u64_max →
  match next_prompt p with
  | (Some e, _) => ∀ e', e' ∈ entries p → phase e' = Queued → entry_id e ≤ entry_id e'
  | (None, p') => (∀ e', e' ∈ entries p → phase e' ≠ Queued) ∧ prompter_running p' = false
  end.
Proof.
  intros Hr Hm. pose proof (registry_run_ok _ _ _ _ Hr default_ok Hm) as Hok. unfold next_prompt.
  destruct (find_mut _ (entries p)) as [[e back]|] eqn:Hf.
  - apply find_mut_Some in Hf as (l1 & l2 & Hl & _ & Hfirst & _). intros e' He' Hq. simpl.
    pose proof (po_order _ Hok) as Hs. rewrite Hl, fmap_app, fmap_cons in Hs.
    rewrite Hl in He'. apply elem_of_app in He' as [He'|[->|He']%elem_of_cons]; [|done|].
    + rewrite Forall_forall in Hfirst. specialize (Hfirst e' He'). simpl in Hfirst. by rewrite Hq in Hfirst.
    + apply StronglySorted_app_1_r in Hs. apply StronglySorted_inv in Hs as [_ Hs].
      rewrite Forall_forall in Hs. apply Z.lt_le_incl, Hs, list_elem_of_fmap. by exists e'.
  - split; [|done]. apply find_mut_None in Hf. rewrite Forall_forall in Hf. intros e' He' Hq.
    specialize (Hf e' He'). simpl in Hf. by rewrite Hq in Hf.
Qed.

(** ** Instances *)

Fixpoint exec (ops : list op) (p : PendingAccess) : list event * PendingAccess :=
  match ops with
  | [] => ([], p)
  | o :: ops =>
      let '(es, p) := step o p in
      let '(es', p) := exec ops p in
      (es ++ es', p)
  end.

Lemma registry_exec_run ops p : run p ops (fst (exec ops p)) (snd (exec ops p)).
Proof.
  revert p. induction ops as [|o ops IH]; intros p; simpl; [constructor|].
  destruct (step o p) as [es p1] eqn:Hs. specialize (IH p1). destruct (exec ops p1) as [es' p2].
  by econstructor.
Qed.

Definition ex_peer (pid : Z) : PeerIdentity :=
  {| peer_uid := 1000; peer_pid := pid; executable_device := 1; executable_inode := 7;
     persistent_executable := None; peer_start_time := Some 55 |}.

Definition ex_admit (pid lair_id now : Z) : op :=
  Admit (ex_peer pid) lair_id [AccessObserve] None now 1700000000
    (λ _, Ok {| pidfd := 3; executing := (1, 7) |}).

(** A request is shown, granted, and cancelled while the grant is committed. *)
Definition ex_ops1 : list op :=
  [ex_admit 10 1 0; ex_admit 11 1 5; NextPrompt; BeginCommit 1; CancelAll].
Definition ex_ops2 : list op :=
  [PublishIfLive 1; FinishCommit 1 (Granted (lit "ok")); ex_admit 10 1 7; NextPrompt; BeginCommit 3;
   PublishIfLive 3; FinishCommit 3 (Granted (lit "ok"))].

Definition ex_p1 : PendingAccess := snd (exec ex_ops1 PendingAccess_default).
Definition ex_p2 : PendingAccess := snd (exec ex_ops2 ex_p1).

Lemma pending_requests_bounded_witness : pending_ok ex_p1 ∧ length (entries ex_p1) = 1%nat.
Proof.
  split; [|vm_compute; reflexivity].
  apply (pending_requests_bounded ex_ops1 (fst (exec ex_ops1 PendingAccess_default)));
    [apply registry_exec_run|vm_compute; reflexivity].
Defined.

Lemma ended_never_granted_witness :
  GrantPublished 1 ∉ fst (exec ex_ops2 ex_p1) ∧ ∀ r, (1, Granted r) ∉ delivered ex_p2.
Proof.
  apply (ended_never_granted ex_ops1 (fst (exec ex_ops1 PendingAccess_default)) ex_p1 ex_ops2
    (fst (exec ex_ops2 ex_p1)) ex_p2 1); [apply registry_exec_run|apply registry_exec_run|vm_compute; reflexivity|].
  vm_compute. right. right. left.
Defined.

Definition ex_prompted : PendingAccess := snd (exec [ex_admit 10 1 0; NextPrompt] PendingAccess_default).
Definition ex_denied : PendingAccess := snd (deny 1 100 ex_prompted).

Lemma deny_cools_down_witness :
  Opened 2 (IdentityKey_of (ex_peer 12)) 1 ∉ fst (exec [ex_admit 12 1 200] ex_denied).
Proof.
  apply (deny_cools_down ex_prompted 1 100 (set_phase Prompting (new_entry 1
    {| key_uid := 1000; key_pid := 10; key_start_time := 55 |} (ex_peer 10) 1 [AccessObserve] None 0 1700000000
    {| pidfd := 3; executing := (1, 7) |})) ex_denied [ex_admit 12 1 200]
    (fst (exec [ex_admit 12 1 200] ex_denied)) (snd (exec [ex_admit 12 1 200] ex_denied)));
    [vm_compute; reflexivity|apply registry_exec_run| |vm_compute; reflexivity].
  repeat constructor.
Defined.

Lemma prompts_in_order_witness :
  match next_prompt (snd (exec [ex_admit 10 1 0; ex_admit 11 1 5] PendingAccess_default)) with
  | (Some e, _) => ∀ e', e' ∈ entries (snd (exec [ex_admit 10 1 0; ex_admit 11 1 5] PendingAccess_default)) →
      phase e' = Queued → entry_id e ≤ entry_id e'
  | (None, p') => (∀ e', e' ∈ entries (snd (exec [ex_admit 10 1 0; ex_admit 11 1 5] PendingAccess_default)) →
      phase e' ≠ Queued) ∧ prompter_running p' = false
  end.
Proof.
  apply (prompts_in_order [ex_admit 10 1 0; ex_admit 11 1 5]
    (fst (exec [ex_admit 10 1 0; ex_admit 11 1 5] PendingAccess_default))); [apply registry_exec_run|vm_compute; reflexivity].
Defined.
