(* ===== verification/AuditTrail.v ===== *)
(** * The daemon's audit trail ([splinterd/src/audit.rs])

    The bounded store of audit records and its pages. The table from requests to
    operations is not here: a draft carries its operation. *)

From Stdlib Require Import String.
From S2P Require Import Prelude RustStd Layout Topology Policy Protocol.

Definition MAX_AUDIT_RECORDS : Z := 1024.
Definition MAX_REASON_BYTES : nat := 64.

Record AuditDraft := {
  draft_unix_seconds : Z;
  draft_policy_generation : option Z;
  draft_policy_rule_id : option str;
  draft_peer : AuditPeer;
  draft_operation : AuditOperation;
  draft_resource : option AuditResource;
  draft_requested_scopes : list AutomationScope;
  draft_decision : AuditDecision;
  draft_reason : str;
  draft_outcome : option AuditOutcome;
  draft_argument_count : option Z;
  draft_executable_basename : option str;
}.

Record AuditStore := {
  next_id : Z;
  records : list AuditRecord;
}.

Definition AuditStore_default : AuditStore := {| next_id := 0; records := [] |}.

(** The bytes a reason keeps. *)
Definition reason_byte (b : Z) : bool := is_ascii_lowercase b || is_ascii_digit b || (b =? 95).

Definition sanitize_reason (r : str) : str :=
  let reason := (λ b, if reason_byte b then b else 95) <$> take MAX_REASON_BYTES (str_bytes r) in
  match reason with
  | c :: _ => if is_ascii_lowercase c then reason else take MAX_REASON_BYTES (120 :: reason)
  | [] => take MAX_REASON_BYTES [120]
  end.

Definition record_of (id : Z) (d : AuditDraft) : AuditRecord :=
  {| record_schema := lit "splinterm.audit.v2";
     record_retention := lit "daemon_lifetime";
     audit_id := id;
     unix_seconds := Z.max (draft_unix_seconds d) 1;
     policy_generation := draft_policy_generation d;
     policy_rule_id := draft_policy_rule_id d;
     peer := draft_peer d;
     operation := draft_operation d;
     resource := draft_resource d;
     Protocol.requested_scopes := draft_requested_scopes d;
     decision := draft_decision d;
     reason := sanitize_reason (draft_reason d);
     record_outcome := draft_outcome d;
     argument_count := (λ count, Z.min count 64) <$> draft_argument_count d;
     executable_basename := take 255 <$> draft_executable_basename d |}.

(** [while self.records.len() > MAX_AUDIT_RECORDS { pop_front }]: one round per
    record beyond the bound. *)
Fixpoint trim (fuel : nat) (l : list AuditRecord) : list AuditRecord :=
  match fuel with
  | O => l
  | S fuel => if MAX_AUDIT_RECORDS <? Z.of_nat (length l) then trim fuel (tail l) else l
  end.

(** [AuditStore::record]; returns the identifier. *)
Definition record (d : AuditDraft) (s : AuditStore) : Z * AuditStore :=
  let id := Z.max (Z.min (next_id s + 1) u64_max) 1 in
  let l := records s ++ [record_of id d] in
  (id, {| next_id := id; records := trim (length l) l |}).

Definition page (s : AuditStore) (after_audit_id : option Z) (max_records : Z) : AuditPage :=
  let maximum := Z.to_nat (Z.min (Z.max max_records 1) MAX_AUDIT_PAGE_RECORDS) in
  let oldest := audit_id <$> head (records s) in
  let newest := audit_id <$> last (records s) in
  let requested_after := default 0 after_audit_id in
  let gap := match oldest with
             | Some oldest => (0 <? requested_after) && (Z.min (requested_after + 1) u64_max <? oldest)
             | None => false
             end in
  let effective_after := if gap then saturating_sub (default 1 oldest) 1 else requested_after in
  let found := take maximum (filter (λ r, effective_after < audit_id r) (records s)) in
  {| page_records := found;
     retention_gap := gap;
     oldest_available_audit_id := oldest;
     newest_available_audit_id := newest;
     next_after_audit_id := audit_id <$> last found |}.
