(* ===== verification/AuditProps.v ===== *)
(** * Theorems about the audit trail

    What the store retains after any sequence of records, that a reader who
    follows the cursors of the pages reads every retained record once, and the
    alphabet of reasons. *)

From Stdlib Require Import String.
From S2P Require Import Prelude RustStd Layout Topology Policy PolicyInv Protocol AuditTrail.

(** Recording drafts one after the other. *)
Fixpoint record_all (ds : list AuditDraft) (s : AuditStore) : AuditStore :=
  match ds with
  | [] => s
  | d :: ds => record_all ds (snd (record d s))
  end.

(** The records of the whole life of the daemon, numbered from one. *)
Definition history (ds : list AuditDraft) : list AuditRecord :=
  imap (λ i d, record_of (Z.of_nat i + 1) d) ds.

Lemma trim_drop fuel l :
  (length l ≤ fuel)%nat → trim fuel l = drop (length l - 1024) l.
Proof.
  revert l. induction fuel as [|fuel IH]; intros l Hl; cbn [trim].
  { destruct l; [done|simpl in Hl; lia]. }
  unfold MAX_AUDIT_RECORDS. destruct (Z.ltb_spec 1024 (Z.of_nat (length l))) as [H|H].
  - destruct l as [|r l]; [simpl in H; lia|]. simpl in Hl, H. cbn [tail length]. rewrite IH by lia.
    replace (S (length l) - 1024)%nat with (S (length l - 1024)) by lia. reflexivity.
  - replace (length l - 1024)%nat with 0%nat by lia. done.
Qed.

Lemma history_snoc ds d :
  history (ds ++ [d]) = history ds ++ [record_of (Z.of_nat (length ds) + 1) d].
Proof. unfold history. rewrite imap_app. simpl. by rewrite Nat.add_0_r. Qed.

Lemma history_length ds : length (history ds) = length ds.
Proof. apply length_imap. Qed.

Lemma record_all_app ds ds' s : record_all (ds ++ ds') s = record_all ds' (record_all ds s).
Proof. revert s. induction ds as [|d ds IH]; intros s; simpl; [done|]. apply IH. Qed.

Lemma record_all_exact ds :
  Z.of_nat (length ds) < u64_max →
  next_id (record_all ds AuditStore_default) = Z.of_nat (length ds) ∧
  records (record_all ds AuditStore_default) = drop (length ds - 1024) (history ds).
Proof.
  induction ds as [|d ds IH] using rev_ind; [done|]. rewrite length_app. simpl. intros Hn.
  destruct IH as [IHn IHr]; [lia|]. rewrite record_all_app. simpl. rewrite IHn, IHr.
  assert (Z.max (Z.min (Z.of_nat (length ds) + 1) u64_max) 1 = Z.of_nat (length ds) + 1) as -> by lia.
  split; [lia|]. set (kept := drop (length ds - 1024) (history ds)).
  assert (length kept = length ds - (length ds - 1024))%nat as Hk.
  { unfold kept. by rewrite length_drop, history_length. }
  rewrite trim_drop by lia. rewrite history_snoc, length_app, Hk. cbn [length].
  rewrite !drop_app_le by (rewrite ?history_length; lia). f_equal.
  unfold kept. rewrite drop_drop. f_equal. lia.
Qed.

Lemma history_id ds i r : history ds !! i = Some r → audit_id r = Z.of_nat i + 1.
Proof. unfold history. rewrite list_lookup_imap. destruct (ds !! i); [|done]. by intros [= <-]. Qed.

(** Until the identifiers run out, the store holds exactly the newest 1024
    records, in order, numbered consecutively from the first record of the
    daemon's life. *)
Theorem audit_retains_newest ds :
  Z.of_nat (length ds) < u64_max →
  records (record_all ds AuditStore_default) = drop (length ds - 1024) (history ds) ∧
  (length (records (record_all ds AuditStore_default)) ≤ 1024)%nat ∧
  ∀ i r, history ds !! i = Some r → audit_id r = Z.of_nat i + 1.
Proof.
  intros Hn. destruct (record_all_exact ds Hn) as [_ Hr]. split; [done|]. split.
  - rewrite Hr, length_drop, history_length. lia.
  - apply history_id.
Qed.

(** ** Pages *)

Definition increasing (l : list AuditRecord) : Prop := StronglySorted (λ a b, audit_id a < audit_id b) l.

(** The records after an identifier. *)
Abbreviation after a l := (filter (λ r, a < audit_id r) l) (only parsing).

Lemma after_all a l : Forall (λ r, a < audit_id r) l → after a l = l.
Proof. induction 1 as [|r l Hr _ IH]; [done|]. rewrite filter_cons_True by done. by rewrite IH. Qed.

Lemma after_increasing a l : increasing l → increasing (after a l).
Proof.
  induction 1 as [|r l Hl IH Hr]; [constructor|]. rewrite filter_cons. case_decide; [|done].
  constructor; [done|]. rewrite Forall_forall in *. intros x [_ Hx]%list_elem_of_filter. by apply Hr.
Qed.

Lemma after_last l m c :
  increasing l → audit_id <$> last (take m l) = Some c → after c l = drop m l.
Proof.
  intros Hl. revert m. induction Hl as [|r l Hl IH Hr]; intros [|m]; try done.
  simpl take. destruct m as [|m].
  - simpl. intros [= <-]. rewrite filter_cons_False by lia. by apply after_all.
  - destruct l as [|r' l]; [simpl; intros [= <-]; by rewrite filter_cons_False by lia|].
    intros Hc. assert (audit_id <$> last (take (S m) (r' :: l)) = Some c) as Hc' by done.
    specialize (IH (S m) Hc'). rewrite filter_cons_False; [done|].
    apply fmap_Some in Hc' as (x & Hx & ->). apply last_Some_elem_of in Hx.
    rewrite Forall_forall in Hr. assert (x ∈ r' :: l) as Hin.
    { apply elem_of_take in Hx as (i & Hi & _). by eapply list_elem_of_lookup_2. }
    specialize (Hr x Hin). lia.
Qed.

(** A store whose records are numbered in order, after zero. *)
Definition store_ok (s : AuditStore) : Prop :=
  increasing (records s) ∧ Forall (λ r, 0 < audit_id r ≤ u64_max) (records s).

Lemma oldest_first s r o :
  store_ok s → audit_id <$> head (records s) = Some o → r ∈ records s → o ≤ audit_id r.
Proof.
  intros [Hi _]. destruct (records s) as [|r0 l]; [done|]. simpl. intros [= <-].
  apply StronglySorted_inv in Hi as [_ Hr]. intros [->|Hin]%elem_of_cons; [lia|].
  rewrite Forall_forall in Hr. specialize (Hr r Hin). lia.
Qed.

(** A page holds the first records after the cursor, whether or not there is a
    gap before them. *)
Lemma page_found s a m :
  store_ok s →
  page_records (page s a m) =
  take (Z.to_nat (Z.min (Z.max m 1) MAX_AUDIT_PAGE_RECORDS)) (after (default 0 a) (records s)).
Proof.
  intros Hs. unfold page. cbn [page_records]. f_equal.
  destruct (audit_id <$> head (records s)) as [o|] eqn:Ho; [|done].
  destruct (_ && _) eqn:Hg; [|done]. apply andb_true_iff in Hg as [_ Hg%Z.ltb_lt]. simpl.
  assert (0 < o ≤ u64_max).
  { destruct (records s) as [|r l] eqn:Hl; [done|]. simpl in Ho. injection Ho as <-.
    destruct Hs as [_ Hs]. rewrite Hl in Hs. apply Forall_cons in Hs as [? _]. lia. }
  assert (∀ x, x < o → after x (records s) = records s) as Hall.
  { intros x Hx. apply after_all, Forall_forall. intros r Hr. pose proof (oldest_first s r o Hs Ho Hr). lia. }
  unfold saturating_sub. rewrite !Hall by lia. done.
Qed.

(** Following the cursors: pages until one is empty. *)
Fixpoint read_pages (fuel : nat) (s : AuditStore) (a : option Z) (m : Z) : option (list AuditRecord) :=
  match fuel with
  | O => None
  | S fuel =>
      let p := page s a m in
      match next_after_audit_id p with
      | None => Some []
      | Some c => (λ l, page_records p ++ l) <$> read_pages fuel s (Some c) m
      end
  end.

Lemma read_pages_exact fuel s a m :
  store_ok s → 0 ≤ default 0 a → Z.of_nat (length (after (default 0 a) (records s))) < Z.of_nat fuel →
  read_pages fuel s a m = Some (after (default 0 a) (records s)).
Proof.
  intros Hs. revert a. induction fuel as [|fuel IH]; intros a Ha Hf; [lia|]. cbn [read_pages].
  assert (next_after_audit_id (page s a m) = audit_id <$> last (page_records (page s a m))) as -> by done.
  rewrite page_found by done. set (n := Z.to_nat _). assert (n ≠ 0%nat) as Hn by (unfold n, MAX_AUDIT_PAGE_RECORDS; lia).
  set (l := after (default 0 a) (records s)) in *.
  destruct (audit_id <$> last (take n l)) as [c|] eqn:Hc.
  2: { destruct l as [|r l']; [done|]. destruct n as [|n]; [done|]. simpl in Hc.
       destruct (last (r :: take n l')) eqn:Hl; [done|]. by apply last_None in Hl. }
  assert (∃ x, x ∈ l ∧ audit_id x = c) as (x & Hx & Hxc).
  { apply fmap_Some in Hc as (x & Hx%last_Some_elem_of & ->). exists x. split; [|done].
    apply elem_of_take in Hx as (i & Hi & _). by eapply list_elem_of_lookup_2. }
  assert (0 < length l)%nat as Hpos by (apply list_elem_of_lookup in Hx as [i Hi%lookup_lt_Some]; lia).
  apply list_elem_of_filter in Hx as [Hxa Hxin].
  assert (after c (records s) = drop n l) as Hrest.
  { rewrite <-(after_last l n c) by (done || by apply after_increasing, Hs).
    unfold l. rewrite list_filter_filter. apply list_filter_iff. intros r. lia. }
  rewrite IH; [|simpl; lia|]; cbn [from_option default id].
  - rewrite Hrest. simpl. by rewrite take_drop.
  - simpl. rewrite Hrest, length_drop. lia.
Qed.

Lemma StronglySorted_lookup {A} (R : A → A → Prop) l :
  (∀ i j x y, (i < j)%nat → l !! i = Some x → l !! j = Some y → R x y) → StronglySorted R l.
Proof.
  induction l as [|x l IH]; intros Hl; [constructor|]. constructor.
  - apply IH. intros i j y z Hij Hy Hz. by apply (Hl (S i) (S j)); [lia|..].
  - apply Forall_lookup. intros j y Hy. by apply (Hl 0%nat (S j)); [lia|..].
Qed.

Lemma record_all_ok ds : Z.of_nat (length ds) < u64_max → store_ok (record_all ds AuditStore_default).
Proof.
  intros Hn. destruct (record_all_exact ds Hn) as [_ Hr].
  assert (∀ i r, history ds !! i = Some r → audit_id r = Z.of_nat i + 1 ∧ (i < length ds)%nat) as Hid.
  { intros i r Hi. pose proof (lookup_lt_Some _ _ _ Hi) as Hlt. rewrite history_length in Hlt. split; [|done].
    by apply (history_id ds). }
  split; rewrite Hr.
  - apply StronglySorted_lookup. intros i j x y Hij Hx Hy. rewrite lookup_drop in Hx, Hy.
    destruct (Hid _ _ Hx), (Hid _ _ Hy). lia.
  - apply Forall_drop, Forall_lookup. intros i x Hx. destruct (Hid _ _ Hx). lia.
Qed.

(** C39. A reader who starts after any identifier and follows the cursors of the
    pages, whatever their size, gets every retained record after it exactly
    once and in order, and the pages end; the first page reports a gap exactly
    when the reader names a record (an identifier above zero) and one after it
    is no longer retained. A reader that starts from zero is told of no gap. *)
Theorem pages_read_everything ds a m :
  Z.of_nat (length ds) < u64_max → 0 ≤ a →
  let s := record_all ds AuditStore_default in
  read_pages 1025 s (Some a) m = Some (filter (λ r, a < audit_id r) (records s)) ∧
  (retention_gap (page s (Some a) m) = true ↔
   0 < a ∧ ∃ r, r ∈ history ds ∧ a < audit_id r ∧ r ∉ records s).
Proof.
  intros Hn Ha s. pose proof (record_all_ok ds Hn) as Hok. fold s in Hok. split.
  - apply (read_pages_exact 1025 s (Some a) m Hok Ha). simpl.
    pose proof (length_filter (λ r, a < audit_id r) (records s)).
    destruct (record_all_exact ds Hn) as [_ Hr]. fold s in Hr. rewrite Hr, length_drop, history_length in *. lia.
  - destruct (record_all_exact ds Hn) as [_ Hr]. fold s in Hr.
    assert (∀ i r, history ds !! i = Some r → audit_id r = Z.of_nat i + 1) as Hid
      by apply history_id.
    set (k := (length ds - 1024)%nat) in *.
    assert (audit_id <$> head (records s) = if decide (length ds = 0%nat) then None else Some (Z.of_nat k + 1)) as Hold.
    { rewrite Hr, head_lookup, lookup_drop, Nat.add_0_r. case_decide as H0.
      - rewrite lookup_ge_None_2; [done|]. rewrite history_length. lia.
      - destruct (lookup_lt_is_Some_2 (history ds) k) as [r Hk]; [rewrite history_length; lia|].
        rewrite Hk. simpl. by rewrite (Hid k r Hk). }
    unfold page. cbn [retention_gap]. rewrite Hold. case_decide as H0.
    { split; [done|]. intros (_ & r & Hin & _). apply list_elem_of_lookup in Hin as [i Hi%lookup_lt_Some].
      rewrite history_length in Hi. lia. }
    rewrite andb_true_iff, !Z.ltb_lt. cbn [from_option default id]. split.
    + intros [Hpos Hlt]. split; [done|]. assert (a + 1 < Z.of_nat k + 1) as Hak by lia.
      destruct (lookup_lt_is_Some_2 (history ds) (Z.to_nat a)) as [r Hi]; [rewrite history_length; lia|].
      exists r. pose proof (Hid _ _ Hi) as Hai. split_and!; [by eapply list_elem_of_lookup_2|lia|].
      rewrite Hr. intros [j Hj]%list_elem_of_lookup. rewrite lookup_drop in Hj. pose proof (Hid _ _ Hj). lia.
    + intros (Hpos & r & [i Hi]%list_elem_of_lookup & Hlt & Hnot). pose proof (Hid _ _ Hi) as Hai.
      pose proof (lookup_lt_Some _ _ _ Hi) as Hlen. rewrite history_length in Hlen.
      assert (i < k)%nat as Hik.
      { destruct (decide (i < k)%nat); [done|]. exfalso. apply Hnot. rewrite Hr.
        apply (list_elem_of_lookup_2 _ (i - k)). rewrite lookup_drop. by replace (k + (i - k))%nat with i by lia. }
      lia.
Qed.

(** A reason as the audit schema has it. *)
Definition reason_ok (r : str) : Prop :=
  (∃ c, head r = Some c ∧ 97 ≤ c ≤ 122) ∧ (length r ≤ 64)%nat ∧
  Forall (λ c, 97 ≤ c ≤ 122 ∨ 48 ≤ c ≤ 57 ∨ c = 95) r.

(** A recorded reason is a nonempty identifier of at most 64 lowercase
    letters, digits and underscores that starts with a letter, and a reason
    that already is one is recorded unchanged. *)
Theorem reasons_sanitized r :
  reason_ok (sanitize_reason r) ∧ (reason_ok r → sanitize_reason r = r).
Proof.
  assert (∀ b, reason_byte b = true ↔ 97 ≤ b ≤ 122 ∨ 48 ≤ b ≤ 57 ∨ b = 95) as Hb.
  { intros b. unfold reason_byte, is_ascii_lowercase, is_ascii_digit. lia. }
  unfold sanitize_reason. set (l := (λ b, if reason_byte b then b else 95) <$> take MAX_REASON_BYTES (str_bytes r)).
  assert (Forall (λ c, 97 ≤ c ≤ 122 ∨ 48 ≤ c ≤ 57 ∨ c = 95) l) as Hf.
  { apply Forall_fmap, Forall_true. intros b. simpl. destruct (reason_byte b) eqn:He; [by apply Hb|lia]. }
  assert (length l ≤ 64)%nat as Hl by (unfold l; rewrite length_fmap, length_take; unfold MAX_REASON_BYTES; lia).
  split.
  - destruct l as [|c l]; [split_and!; [by exists 120|simpl; lia|repeat constructor; lia]|].
    destruct (is_ascii_lowercase c) eqn:Hc.
    + split_and!; [|done|done]. exists c. unfold is_ascii_lowercase in Hc. split; [done|lia].
    + split_and!; [by exists 120|rewrite length_take; unfold MAX_REASON_BYTES; lia|].
      apply Forall_take. constructor; [lia|done].
  - intros ((c & Hc & Hlow) & Hlen & Hr). destruct r as [|c' r]; [done|]. injection Hc as ->.
    assert (l = c :: r) as ->.
    { unfold l. rewrite str_bytes_id by (eapply Forall_impl; [exact Hr|]; simpl; lia).
      rewrite take_ge by (unfold MAX_REASON_BYTES; lia). rewrite <-(list_fmap_id (c :: r)) at 2.
      apply list_fmap_ext. intros i x Hx. rewrite Forall_lookup in Hr.
      by rewrite (proj2 (Hb x) (Hr i x Hx)). }
    replace (is_ascii_lowercase c) with true; [done|]. unfold is_ascii_lowercase. lia.
Qed.

(** ** Instances *)

Definition ex_draft (n : Z) : AuditDraft :=
  {| draft_unix_seconds := n; draft_policy_generation := None; draft_policy_rule_id := None;
     draft_peer := {| audit_uid := 1000; executable_path := lit "/usr/bin/agent"; executable_sha256 := [];
                      audit_device := None; audit_inode := None |};
     draft_operation := AuditPing; draft_resource := None; draft_requested_scopes := []; draft_decision := Allowed;
     draft_reason := lit "Policy rule!"; draft_outcome := None; draft_argument_count := Some 99;
     draft_executable_basename := None |}.

Definition ex_drafts : list AuditDraft := ex_draft <$> seqZ 0 1030.

Lemma audit_retains_newest_witness :
  records (record_all ex_drafts AuditStore_default) = drop (length ex_drafts - 1024) (history ex_drafts) ∧
  (length (records (record_all ex_drafts AuditStore_default)) ≤ 1024)%nat ∧
  ∀ i r, history ex_drafts !! i = Some r → audit_id r = Z.of_nat i + 1.
Proof. apply audit_retains_newest. vm_compute. reflexivity. Defined.

Lemma pages_read_everything_witness :
  read_pages 1025 (record_all (ex_draft <$> seqZ 0 5) AuditStore_default) (Some 2) 2 =
    Some (filter (λ r, 2 < audit_id r) (records (record_all (ex_draft <$> seqZ 0 5) AuditStore_default))).
Proof. apply (pages_read_everything (ex_draft <$> seqZ 0 5) 2 2); [vm_compute; reflexivity|lia]. Defined.
