(* ===== verification/Sixel.v ===== *)
(** * The sixel decoder ([splinterm-terminal/src/image/sixel.rs])

    A streaming decoder of sixel graphics: every byte is put into a state
    machine that grows a raster of pixels within its limits, and [finish] turns
    the raster into an image. A method that fails may have changed the decoder,
    so the decoder is threaded through errors too. The conversion of hue,
    saturation and luminance computes with [f64], here the binary64 arithmetic
    of the Standard Library's executable IEEE specification. *)

From Stdlib Require Import SpecFloat.
From S2P Require Import Prelude RustStd.

Definition MAX_SIXEL_COLORS : Z := 1024.
Definition MAX_SIXEL_INPUT_BYTES : Z := 8 * 1024 * 1024.
Definition MAX_SIXEL_PIXEL_WRITES : Z := 16777216.
Definition MAX_SIXEL_EXPANSION_RATIO : Z := 64.

Inductive SixelError :=
| InputLimit
| Dimensions
| ExpansionRatio
| PixelWrites
| Malformed.

Record SixelImage := {
  image_width : Z;
  image_height : Z;
  image_pixels : list Z;
  opaque : bool;
  cursor_pixel_row : Z;
  image_palette : list Z;
}.

Inductive State := Data | Raster | Repeat | Color.

#[global] Instance State_eq_dec : EqDecision State.
Proof. solve_decision. Defined.

(** [ImageLimits] of [image.rs]. *)
Record ImageLimits := {
  bytes_per_content : Z;
  bytes_per_terminal : Z;
  contents_per_terminal : Z;
  placements_per_terminal : Z;
  maximum_dimension : Z;
  maximum_pixels : Z;
}.

Record SixelDecoder := {
  limits : ImageLimits;
  palette_size : Z;
  maximum_width : Z;
  maximum_height : Z;
  state : State;
  params : list Z;
  parameter : Z;
  parameter_index : Z;
  repeat_count : Z;
  palette : list Z;
  color_index : Z;
  color : Z;
  transparent : bool;
  pan : Z;
  pad : Z;
  column : Z;
  row : Z;
  width : Z;
  height : Z;
  pixels : list Z;
  bottom_pixel : Z;
  bottommost_painted : option Z;
  input_bytes : Z;
  pixel_writes : Z;
  failed : option SixelError;
}.

Definition eta_decoder (d : SixelDecoder) : SixelDecoder := {|
  limits := limits d; palette_size := palette_size d; maximum_width := maximum_width d;
  maximum_height := maximum_height d; state := state d; params := params d;
  parameter := parameter d; parameter_index := parameter_index d; repeat_count := repeat_count d;
  palette := palette d; color_index := color_index d; color := color d;
  transparent := transparent d; pan := pan d; pad := pad d; column := column d; row := row d;
  width := width d; height := height d; pixels := pixels d; bottom_pixel := bottom_pixel d;
  bottommost_painted := bottommost_painted d; input_bytes := input_bytes d;
  pixel_writes := pixel_writes d; failed := failed d |}.

Definition set_state v (d : SixelDecoder) : SixelDecoder := ltac:(update_field eta_decoder d state v).
Definition set_params v (d : SixelDecoder) : SixelDecoder := ltac:(update_field eta_decoder d params v).
Definition set_parameter v (d : SixelDecoder) : SixelDecoder := ltac:(update_field eta_decoder d parameter v).
Definition set_parameter_index v (d : SixelDecoder) : SixelDecoder :=
  ltac:(update_field eta_decoder d parameter_index v).
Definition set_repeat_count v (d : SixelDecoder) : SixelDecoder := ltac:(update_field eta_decoder d repeat_count v).
Definition set_palette v (d : SixelDecoder) : SixelDecoder := ltac:(update_field eta_decoder d palette v).
Definition set_color_index v (d : SixelDecoder) : SixelDecoder := ltac:(update_field eta_decoder d color_index v).
Definition set_color v (d : SixelDecoder) : SixelDecoder := ltac:(update_field eta_decoder d color v).
Definition set_pan v (d : SixelDecoder) : SixelDecoder := ltac:(update_field eta_decoder d pan v).
Definition set_pad v (d : SixelDecoder) : SixelDecoder := ltac:(update_field eta_decoder d pad v).
Definition set_column v (d : SixelDecoder) : SixelDecoder := ltac:(update_field eta_decoder d column v).
Definition set_row v (d : SixelDecoder) : SixelDecoder := ltac:(update_field eta_decoder d row v).
Definition set_width v (d : SixelDecoder) : SixelDecoder := ltac:(update_field eta_decoder d width v).
Definition set_height v (d : SixelDecoder) : SixelDecoder := ltac:(update_field eta_decoder d height v).
Definition set_pixels v (d : SixelDecoder) : SixelDecoder := ltac:(update_field eta_decoder d pixels v).
Definition set_bottom_pixel v (d : SixelDecoder) : SixelDecoder := ltac:(update_field eta_decoder d bottom_pixel v).
Definition set_bottommost_painted v (d : SixelDecoder) : SixelDecoder :=
  ltac:(update_field eta_decoder d bottommost_painted v).
Definition set_input_bytes v (d : SixelDecoder) : SixelDecoder := ltac:(update_field eta_decoder d input_bytes v).
Definition set_pixel_writes v (d : SixelDecoder) : SixelDecoder := ltac:(update_field eta_decoder d pixel_writes v).
Definition set_failed v (d : SixelDecoder) : SixelDecoder := ltac:(update_field eta_decoder d failed v).

(** A result within the range of its type, or [None]. *)
Definition within (maximum x : Z) : option Z := if x <=? maximum then Some x else None.

(** [v.clamp(low, high)]. *)
Definition clamped (v low high : Z) : Z := Z.max low (Z.min v high).

(** [a..b]. *)
Definition span (a b : Z) : list Z := seqZ a (b - a).

(** [SixelDecoder::new]. *)
Definition SixelDecoder_new (p1 p2 : Z) (l : ImageLimits) (size width height : Z) (initial : list Z)
    : SixelDecoder :=
  let count := Nat.min (length initial) (Z.to_nat MAX_SIXEL_COLORS) in
  {| limits := l;
     palette_size := clamped size 2 MAX_SIXEL_COLORS;
     maximum_width := Z.min width (maximum_dimension l);
     maximum_height := Z.min height (maximum_dimension l);
     state := Data; params := [0; 0; 0; 0; 0]; parameter := 0; parameter_index := 0; repeat_count := 1;
     palette := take count initial ++ replicate (Z.to_nat MAX_SIXEL_COLORS - count) 0;
     color_index := 0; color := 0xff000000; transparent := p2 =? 1;
     pan := if p1 =? 2 then 5 else if (p1 =? 3) || (p1 =? 4) then 3
            else if (7 <=? p1) && (p1 <=? 9) then 1 else 2;
     pad := 1; column := 0; row := 0; width := 0; height := 0; pixels := []; bottom_pixel := 0;
     bottommost_painted := None; input_bytes := 0; pixel_writes := 0; failed := None |}.

Abbreviation D := (M SixelDecoder SixelError) (only parsing).

(** ** The raster *)

(** [&pixels[start..stop]]. *)
Definition slice_of (start stop : Z) (l : list Z) : outcome SixelError (list Z) :=
  if stop <=? Z.of_nat (length l) then Ok (take (Z.to_nat (stop - start)) (drop (Z.to_nat start) l)) else Panic.

(** [resized[start..start + source.len()].copy_from_slice(source)]. *)
Definition copy_from (start : Z) (source l : list Z) : outcome SixelError (list Z) :=
  let stop := start + Z.of_nat (length source) in
  if stop <=? Z.of_nat (length l)
  then Ok (take (Z.to_nat start) l ++ source ++ drop (Z.to_nat stop) l) else Panic.

(** [option.ok_or(e)?] outside a method. *)
Definition ok_or_error {A} (o : option A) (e : SixelError) : outcome SixelError A :=
  match o with Some a => Ok a | None => Err e end.

(** The loop that copies the old rows into the resized raster. *)
Fixpoint copy_rows (rows : list Z) (old_width new_width : Z) (old resized : list Z)
    : outcome SixelError (list Z) :=
  match rows with
  | [] => Ok resized
  | row :: rows =>
      let? old_start := ok_or_error (within usize_max (row * old_width)) Dimensions in
      let? new_start := ok_or_error (within usize_max (row * new_width)) Dimensions in
      let? source := slice_of old_start (old_start + old_width) old in
      let? resized := copy_from new_start source resized in
      copy_rows rows old_width new_width old resized
  end.

Definition ensure (requested_width requested_height : Z) : D unit :=
  let! d := get in
  let new_width := Z.max (width d) requested_width in
  let new_height := Z.max (height d) requested_height in
  if (new_width =? 0) || (new_height =? 0) then ret tt
  else if (maximum_width d <? new_width) || (maximum_height d <? new_height) then fail Dimensions
  else
    let! pixel_count := ok_or (count ← within usize_max (new_height * new_width);
                               within (maximum_pixels (limits d)) count) Dimensions in
    let! _ := ok_or (bytes ← within usize_max (pixel_count * 4);
                     within (bytes_per_content (limits d)) bytes) Dimensions in
    if (new_width =? width d) && (new_height =? height d) then ret tt
    else
      let! background := (if transparent d then ret 0 else expect (head (palette d))) in
      let! resized := lift (copy_rows (span 0 (height d)) (width d) new_width (pixels d)
                              (replicate (Z.to_nat pixel_count) background)) in
      do! modify (set_width new_width) in
      do! modify (set_height new_height) in
      modify (set_pixels resized).

(** One pixel of a sixel; [row + bit * pan + vertical] is unchecked arithmetic
    on [u32]. *)
Definition paint (stride x y : Z) : D unit :=
  do! assert_ (y <=? u32_max) in
  let! index := ok_or (base ← within usize_max (y * stride); within usize_max (x + base)) Dimensions in
  let! d := get in
  do! assert_ (index <? Z.of_nat (length (pixels d))) in
  do! modify (set_pixels (<[Z.to_nat index := color d]> (pixels d))) in
  modify (set_bottommost_painted (Some (match bottommost_painted d with
                                        | Some old => Z.max old y
                                        | None => y
                                        end))).

Definition add_sixels (sixel count : Z) : D unit :=
  let! d := get in
  let! columns := ok_or (within u32_max (count * pad d)) Dimensions in
  let! end_column := ok_or (within u32_max (column d + columns)) Dimensions in
  let! rows := ok_or (within u32_max (6 * pan d)) Dimensions in
  let! end_row := ok_or (within u32_max (row d + rows)) Dimensions in
  do! ensure end_column end_row in
  let! d := get in
  let! writes := ok_or (within usize_max (6 * pan d * columns)) PixelWrites in
  let! writes := ok_or (total ← within usize_max (pixel_writes d + writes);
                        within MAX_SIXEL_PIXEL_WRITES total) PixelWrites in
  do! modify (set_pixel_writes writes) in
  let! d := get in
  do! for_each (span (column d) end_column) (λ x,
        for_each (span 0 6) (λ bit,
          if negb (Z.testbit sixel bit) then ret tt
          else for_each (span 0 (pan d)) (λ vertical,
                 paint (width d) x (row d + bit * pan d + vertical)))) in
  do! modify (set_column end_column) in
  modify (λ d, set_bottom_pixel (Z.lor (bottom_pixel d) sixel) d).

(** ** Colors *)

(** [f64]: rounding to nearest, ties to even. *)
Abbreviation f64 := spec_float (only parsing).

Definition f64_add : f64 → f64 → f64 := SFadd 53 1024.
Definition f64_sub : f64 → f64 → f64 := SFsub 53 1024.
Definition f64_mul : f64 → f64 → f64 := SFmul 53 1024.
Definition f64_div : f64 → f64 → f64 := SFdiv 53 1024.

(** [f64::from(n)]. *)
Definition f64_from (n : Z) : f64 := binary_normalize 53 1024 n 0 false.

(** [x % y]: exact, with the sign of [x]. *)
Definition f64_rem (x y : f64) : f64 :=
  match x, y with
  | S754_finite s mx ex, S754_finite _ my ey =>
      let e := Z.min ex ey in
      let r := Z.rem (Z.pos mx * 2 ^ (ex - e)) (Z.pos my * 2 ^ (ey - e)) in
      binary_normalize 53 1024 (if s then - r else r) e s
  | S754_zero _, (S754_finite _ _ _ | S754_infinity _) | S754_finite _ _ _, S754_infinity _ => x
  | _, _ => S754_nan
  end.

(** [x.round() as i64]: half away from zero, saturating. *)
Definition round_i64 (x : f64) : Z :=
  match x with
  | S754_zero _ | S754_nan => 0
  | S754_infinity s => if s then - 2 ^ 63 else 2 ^ 63 - 1
  | S754_finite s m e =>
      let n := if 0 <=? e then Z.pos m * 2 ^ e else (Z.pos m + 2 ^ (- e - 1)) / 2 ^ (- e) in
      Z.max (- 2 ^ 63) (Z.min (2 ^ 63 - 1) (if s then - n else n))
  end.

Definition hsl_to_bgra (hue saturation luminance : Z) : Z :=
  let luminance := f64_div (f64_from luminance) (f64_from 100) in
  let saturation := f64_div (f64_from saturation) (f64_from 100) in
  let chroma := f64_mul (f64_sub (f64_from 1) (SFabs (f64_sub (f64_mul (f64_from 2) luminance) (f64_from 1)))) saturation in
  let x := f64_mul chroma (f64_sub (f64_from 1)
             (SFabs (f64_sub (f64_rem (f64_div (f64_from hue) (f64_from 60)) (f64_from 2)) (f64_from 1)))) in
  let middle := f64_sub luminance (f64_div chroma (f64_from 2)) in
  let zero := f64_from 0 in
  let '(red, green, blue) :=
    if hue <=? 60 then (chroma, x, zero)
    else if hue <=? 120 then (x, chroma, zero)
    else if hue <=? 180 then (zero, chroma, x)
    else if hue <=? 240 then (zero, x, chroma)
    else if hue <=? 300 then (x, zero, chroma)
    else (chroma, zero, x) in
  let channel value :=
    let n := round_i64 (f64_mul (f64_add value middle) (f64_from 255)) in
    if (0 <=? n) && (n <=? u32_max) then n else 0 in
  Z.lor (Z.lor (Z.lor 0xff000000 (Z.shiftl (channel red) 16)) (Z.shiftl (channel green) 8)) (channel blue).

(** ** Parameters *)

Definition start_parameters (s : State) : D unit :=
  do! modify (set_state s) in
  do! modify (set_params [0; 0; 0; 0; 0]) in
  do! modify (set_parameter 0) in
  modify (set_parameter_index 0).

Definition store_parameter : D unit :=
  let! d := get in
  do! (if parameter_index d <? Z.of_nat (length (params d)) then
         do! modify (set_params (<[Z.to_nat (parameter_index d) := parameter d]> (params d))) in
         modify (set_parameter_index (parameter_index d + 1))
       else ret tt) in
  modify (set_parameter 0).

(** [self.params[n]]. *)
Definition param (n : nat) (d : SixelDecoder) : D Z := expect (params d !! n).

Definition finish_raster : D unit :=
  let! d := get in
  let! p0 := param 0 d in
  let! p1 := param 1 d in
  do! (if (width d =? 0) && (height d =? 0) then
         do! modify (set_pan (clamped p0 1 5)) in
         modify (set_pad (clamped p1 1 5))
       else ret tt) in
  let! d := get in
  let! p2 := param 2 d in
  let! p3 := param 3 d in
  let! w := ok_or (within u32_max (p2 * pad d)) Dimensions in
  let! h := ok_or (within u32_max (p3 * pan d)) Dimensions in
  if (width d <=? w) && (height d <=? h) then ensure w h else ret tt.

(** The color a color introducer with all its parameters names. *)
Definition defined_color (kind c1 c2 c3 current : Z) : Z :=
  if kind =? 1 then
    let hue := (Z.min c1 360 + 240) mod 360 in
    hsl_to_bgra hue (Z.min c3 100) (Z.min c2 100)
  else if kind =? 2 then
    let red := 255 * Z.min c1 100 / 100 in
    let green := 255 * Z.min c2 100 / 100 in
    let blue := 255 * Z.min c3 100 / 100 in
    Z.lor (Z.lor (Z.lor 0xff000000 (Z.shiftl red 16)) (Z.shiftl green 8)) blue
  else current.

Definition finish_color : D unit :=
  let! d := get in
  do! (if 0 <? parameter_index d then
         let! p0 := param 0 d in
         modify (set_color_index (Z.min p0 (palette_size d - 1)))
       else ret tt) in
  let! d := get in
  if 4 <? parameter_index d then
    let! c1 := param 2 d in
    let! c2 := param 3 d in
    let! c3 := param 4 d in
    let! kind := param 1 d in
    let! current := expect (palette d !! Z.to_nat (color_index d)) in
    modify (set_palette (<[Z.to_nat (color_index d) := defined_color kind c1 c2 c3 current]> (palette d)))
  else
    let! current := expect (palette d !! Z.to_nat (color_index d)) in
    modify (set_color current).

(** ** Bytes *)

(** [b'?'..=b'~']. *)
Definition is_sixel (byte : Z) : bool := (63 <=? byte) && (byte <=? 126).

Definition data (byte : Z) : D unit :=
  if byte =? 34 then start_parameters Raster
  else if byte =? 33 then
    do! start_parameters Repeat in
    modify (set_repeat_count 1)
  else if byte =? 35 then
    do! start_parameters Color in
    modify (set_color_index 0)
  else if byte =? 36 then modify (set_column 0)
  else if byte =? 45 then
    let! d := get in
    let! rows := ok_or (within u32_max (6 * pan d)) Dimensions in
    let! next := ok_or (within u32_max (row d + rows)) Dimensions in
    do! modify (set_row next) in
    do! modify (set_column 0) in
    do! modify (set_bottom_pixel 0) in
    let! h := ok_or (within u32_max (next + rows)) Dimensions in
    ensure (width d) h
  else if is_sixel byte then add_sixels (byte - 63) 1
  else if (byte =? 32) || (byte =? 10) || (byte =? 13) then ret tt
  else fail Malformed.

Definition parameter_byte (byte : Z) (s : State) : D unit :=
  if is_ascii_digit byte then
    do! modify (λ d, set_parameter (Z.min (Z.min (parameter d * 10) u32_max + (byte - 48)) u32_max) d) in
    if bool_decide (s = Repeat) then modify (λ d, set_repeat_count (parameter d) d) else ret tt
  else if byte =? 59 then store_parameter
  else
    do! store_parameter in
    match s with
    | Raster => do! finish_raster in do! modify (set_state Data) in data byte
    | Repeat =>
        let! d := get in
        let count := Z.max (repeat_count d) 1 in
        do! modify (set_state Data) in
        if negb (is_sixel byte) then data byte else add_sixels (byte - 63) count
    | Color => do! finish_color in do! modify (set_state Data) in data byte
    | Data => panic
    end.

(** [if let Err(error) = result { self.failed = Some(error); } result]. *)
Definition remember_failure (m : D unit) : D unit := λ d,
  match m d with
  | (Err error, d') => (Err error, set_failed (Some error) d')
  | r => r
  end.

(** [SixelDecoder::put]. *)
Definition put_byte (byte : Z) : D unit :=
  let! d := get in
  match failed d with
  | Some error => fail error
  | None =>
      let! bytes := ok_or (total ← within usize_max (input_bytes d + 1);
                           within MAX_SIXEL_INPUT_BYTES total) InputLimit in
      do! modify (set_input_bytes bytes) in
      remember_failure (match state d with
                        | Data => data byte
                        | s => parameter_byte byte s
                        end)
  end.

(** ** The image *)

(** [pixel.to_le_bytes()]. *)
Definition to_le_bytes (pixel : Z) : list Z :=
  [pixel mod 256; pixel / 256 mod 256; pixel / 65536 mod 256; pixel / 16777216 mod 256].

(** [u8::BITS - b.leading_zeros()]. *)
Definition bit_length (b : Z) : Z := if b =? 0 then 0 else Z.log2 b + 1.

Definition finish (d : SixelDecoder) : outcome SixelError SixelImage :=
  match failed d with
  | Some error => Err error
  | None =>
      if (width d =? 0) || (height d =? 0) then Err Malformed
      else
        let? h := (if transparent d
                   then ok_or_error (bottommost_painted d ≫= λ row, within u32_max (row + 1)) Malformed
                   else Ok (height d)) in
        let? cursor :=
          (if column d =? 0 then Ok (row d)
           else
             let? used_rows := ok_or_error (within u32_max (Z.min (bit_length (bottom_pixel d)) 6 * pan d)) Dimensions in
             ok_or_error (within u32_max (row d + used_rows)) Dimensions) in
        let? kept := ok_or_error (within usize_max (h * width d)) Dimensions in
        let raster := take (Z.to_nat kept) (pixels d) in
        let? output_bytes := ok_or_error (within usize_max (Z.of_nat (length raster) * 4)) Dimensions in
        let expansion_limit := Z.min (input_bytes d * MAX_SIXEL_EXPANSION_RATIO) usize_max in
        if expansion_limit <? output_bytes then Err ExpansionRatio
        else
          Ok {| image_width := width d; image_height := h; image_pixels := raster ≫= to_le_bytes;
                opaque := negb (transparent d); cursor_pixel_row := cursor; image_palette := palette d |}
  end.

(** The bytes of a stream one after the other, as long as they are accepted. *)
Definition put_all (bytes : list Z) : D unit := for_each bytes put_byte.
