(* ===== verification/SixelProps.v ===== *)
(** * Theorems about the sixel decoder

    The invariant of decoders fed any bytes, the bounds of their memory and
    work, and the picture they draw. *)

From Stdlib Require Import String.
From S2P Require Import Prelude RustStd Sixel.

(** ** The invariant *)

(** The limits and the image's maximal dimensions have their machine types. *)
Record limits_ok (d : SixelDecoder) : Prop := {
  lo_width : maximum_width d ≤ u32_max;
  lo_height : maximum_height d ≤ u32_max;
  lo_pixels : 0 ≤ maximum_pixels (limits d) ≤ usize_max;
  lo_bytes : 0 ≤ bytes_per_content (limits d) ≤ usize_max;
}.

(** The raster: one pixel per position, within the limits. *)
Record raster_ok (d : SixelDecoder) : Prop := {
  ro_limits : limits_ok d;
  ro_length : Z.of_nat (length (pixels d)) = width d * height d;
  ro_width : 0 ≤ width d ≤ Z.max 0 (maximum_width d);
  ro_height : 0 ≤ height d ≤ Z.max 0 (maximum_height d);
  ro_empty : width d = 0 ↔ height d = 0;
  ro_pixels : width d * height d ≤ maximum_pixels (limits d);
  ro_bytes : 4 * (width d * height d) ≤ bytes_per_content (limits d);
  ro_bottom y : bottommost_painted d = Some y → 0 ≤ y < height d;
  ro_palette : length (palette d) = 1024%nat;
}.

Definition is_u32 (x : Z) : Prop := 0 ≤ x ≤ u32_max.

(** The registers of the state machine. *)
Record registers_ok (d : SixelDecoder) : Prop := {
  rg_params : length (params d) = 5%nat;
  rg_values : Forall is_u32 (params d);
  rg_parameter : is_u32 (parameter d);
  rg_index : 0 ≤ parameter_index d ≤ 5;
  rg_repeat : is_u32 (repeat_count d);
  rg_size : 2 ≤ palette_size d ≤ 1024;
  rg_color : 0 ≤ color_index d < palette_size d;
  rg_pan : 1 ≤ pan d ≤ 5;
  rg_pad : 1 ≤ pad d ≤ 5;
  rg_column : 0 ≤ column d ≤ width d;
  rg_row : is_u32 (row d);
  rg_bottom : 0 ≤ bottom_pixel d < 64;
  rg_input : 0 ≤ input_bytes d ≤ MAX_SIXEL_INPUT_BYTES;
  rg_writes : 0 ≤ pixel_writes d ≤ MAX_SIXEL_PIXEL_WRITES;
}.

Record decoder_ok (d : SixelDecoder) : Prop := {
  dk_raster : raster_ok d;
  dk_registers : registers_ok d;
}.

(** The pixel at a position. *)
Definition pixel (d : SixelDecoder) (x y : Z) : option Z := pixels d !! Z.to_nat (y * width d + x).

Definition inside (d : SixelDecoder) (x y : Z) : Prop := 0 ≤ x < width d ∧ 0 ≤ y < height d.

#[global] Instance inside_dec d x y : Decision (inside d x y).
Proof. unfold inside. apply _. Defined.

(** What fills the raster where it grows. *)
Definition background (d : SixelDecoder) : Z := if transparent d then 0 else default 0 (head (palette d)).

Lemma within_Some maximum x y : within maximum x = Some y ↔ x ≤ maximum ∧ y = x.
Proof. unfold within. destruct (Z.leb_spec x maximum); naive_solver lia. Qed.

Lemma within_None maximum x : within maximum x = None ↔ maximum < x.
Proof. unfold within. destruct (Z.leb_spec x maximum); naive_solver lia. Qed.

(** Positions and indices. *)
Lemma index_bound w h x y : 0 ≤ x < w → 0 ≤ y < h → 0 ≤ y * w + x < w * h.
Proof. nia. Qed.

Lemma raster_index_inj w x y x' y' :
  0 ≤ x < w → 0 ≤ x' < w → 0 ≤ y → 0 ≤ y' → y * w + x = y' * w + x' → x = x' ∧ y = y'.
Proof. intros Hx Hx' Hy Hy' He. assert (y = y') by nia. subst. lia. Qed.

Lemma position_of w h k : 0 < w → 0 ≤ k < w * h → ∃ x y, 0 ≤ x < w ∧ 0 ≤ y < h ∧ k = y * w + x.
Proof.
  intros Hw Hk. exists (k mod w), (k / w). pose proof (Z.mod_pos_bound k w Hw). pose proof (Z.div_mod k w ltac:(lia)).
  split; [done|]. split; [|lia]. split; [apply Z.div_pos; lia|]. apply Z.div_lt_upper_bound; lia.
Qed.

(** ** Growing the raster *)

(** The first [n] rows copied. *)
Definition copied (n old_width new_width : Z) (old new : list Z) (resized : list Z) : Prop :=
  length resized = length new ∧
  ∀ k, (k < length new)%nat →
    resized !! k = (let y := Z.of_nat k / new_width in let x := Z.of_nat k mod new_width in
                    if decide (y < n ∧ x < old_width) then old !! Z.to_nat (y * old_width + x) else new !! k).

Lemma copy_rows_run n old_width new_width old new resized a :
  0 < new_width → 0 ≤ old_width ≤ new_width → 0 ≤ a →
  (a + Z.of_nat n) * old_width ≤ Z.of_nat (length old) → (a + Z.of_nat n) * new_width ≤ Z.of_nat (length new) →
  Z.of_nat (length new) ≤ usize_max →
  copied a old_width new_width old new resized →
  ∃ r, copy_rows (seqZ a (Z.of_nat n)) old_width new_width old resized = Ok r ∧
    copied (a + Z.of_nat n) old_width new_width old new r.
Proof.
  intros Hw Hle. revert a resized. induction n as [|n IH]; intros a resized Ha Ho Hn Hmax [Hlen Hk].
  { exists resized. split; [done|]. by rewrite Z.add_0_r. }
  rewrite Nat2Z.inj_succ, seqZ_cons by lia. rewrite Z.pred_succ. cbn [copy_rows].
  assert (a * old_width + old_width ≤ Z.of_nat (length old)) as Hsrc by nia.
  assert (a * new_width + new_width ≤ Z.of_nat (length new)) as Hdst by nia.
  assert (0 ≤ a * old_width ∧ a * old_width ≤ a * new_width) as [Hs0 Hs1] by nia.
  rewrite (proj2 (within_Some _ (a * old_width) _)) by (split; [lia|done]). cbn [ok_or_error obind].
  rewrite (proj2 (within_Some _ (a * new_width) _)) by (split; [lia|done]). cbn [ok_or_error obind].
  unfold slice_of. rewrite (proj2 (Z.leb_le _ _)) by lia. cbn [obind].
  set (source := take _ _). assert (length source = Z.to_nat old_width) as Hsl.
  { unfold source. rewrite length_take, length_drop. lia. }
  unfold copy_from. rewrite Hsl, Hlen, (proj2 (Z.leb_le _ _)) by lia. cbn [obind].
  set (r := take _ _ ++ _).
  destruct (IH (a + 1) r) as (r' & Hr' & Hc'); [lia..| |exists r'; split; [exact Hr'|by replace (a + Z.succ (Z.of_nat n)) with (a + 1 + Z.of_nat n) by lia]].
  split.
  - unfold r. rewrite !length_app, length_take, length_drop, Hsl, Hlen. lia.
  - intros k Hk'. specialize (Hk k Hk'). cbv zeta in Hk |- *.
    set (y := Z.of_nat k / new_width) in *. set (x := Z.of_nat k mod new_width) in *.
    assert (Z.of_nat k = y * new_width + x ∧ 0 ≤ x < new_width ∧ 0 ≤ y) as (Hkk & Hx & Hy).
    { unfold x, y. pose proof (Z.div_mod (Z.of_nat k) new_width ltac:(lia)).
      pose proof (Z.mod_pos_bound (Z.of_nat k) new_width Hw). split_and!; [lia|lia|lia|]. apply Z.div_pos; lia. }
    unfold r. destruct (decide (y < a)) as [Hya|Hya].
    { rewrite lookup_app_l by (rewrite length_take, Hlen; nia). rewrite lookup_take_lt by nia. rewrite Hk.
      repeat case_decide; done || lia. }
    rewrite lookup_app_r by (rewrite length_take, Hlen; nia). rewrite length_take, Hlen.
    destruct (decide (y = a ∧ x < old_width)) as [[-> Hxo]|Hout].
    + rewrite lookup_app_l by (rewrite Hsl; lia). unfold source. rewrite lookup_take_lt by lia. rewrite lookup_drop.
      rewrite decide_True by lia. f_equal. lia.
    + rewrite lookup_app_r by (rewrite Hsl; nia). rewrite Hsl, lookup_drop. rewrite decide_False by lia.
      rewrite decide_False in Hk by lia. rewrite <-Hk. f_equal. nia.
Qed.

(** [d'] is [d] with a raster at least as large: old pixels stay where they
    are, new ones are background. *)
Record grown (d d' : SixelDecoder) : Prop := {
  gr_frame : d' = set_pixels (pixels d') (set_height (height d') (set_width (width d') d));
  gr_raster : raster_ok d';
  gr_width : width d ≤ width d';
  gr_height : height d ≤ height d';
  gr_pixels x y : inside d' x y →
    pixel d' x y = if decide (inside d x y) then pixel d x y else Some (background d);
}.

Lemma raster_frame_refl d : d = set_pixels (pixels d) (set_height (height d) (set_width (width d) d)).
Proof. by destruct d. Qed.

Lemma grown_refl d : raster_ok d → grown d d.
Proof. intros Hr. split; [apply raster_frame_refl|done..|]. intros x y Hin. by rewrite decide_True. Qed.

Lemma resized_raster w h d pixels' :
  raster_ok d → 0 < w → 0 < h → width d ≤ w → height d ≤ h →
  copied (height d) (width d) w (pixels d) (replicate (Z.to_nat (h * w)) (background d)) pixels' →
  ∀ x y, 0 ≤ x < w → 0 ≤ y < h →
    pixels' !! Z.to_nat (y * w + x) = if decide (inside d x y) then pixel d x y else Some (background d).
Proof.
  intros Hr Hw Hh Hww Hhh [Hlen Hk] x y Hx Hy. pose proof (index_bound w h x y Hx Hy) as Hb.
  rewrite Hk by (rewrite length_replicate; lia). cbv zeta. rewrite Z2Nat.id by lia.
  replace ((y * w + x) / w) with y by (apply (Z.div_unique _ _ y x); lia).
  replace ((y * w + x) mod w) with x by (apply (Z.mod_unique _ _ y x); lia).
  unfold inside. destruct (decide (y < height d ∧ x < width d)).
  - by rewrite decide_True by lia.
  - rewrite decide_False by lia. rewrite lookup_replicate_2 by lia. done.
Qed.

Lemma ensure_spec w h d :
  raster_ok d → 0 ≤ w ≤ u32_max → 0 ≤ h ≤ u32_max →
  wp (ensure w h) (λ r d', match r with
    | Ok _ => grown d d' ∧ (0 < w → 0 < h → w ≤ width d' ∧ h ≤ height d')
    | Err e => e = Dimensions ∧ d' = d
    | Panic => False
    end) d.
Proof.
  intros Hr Hw Hh. pose proof Hr as [[L1 L2 L3 L4] R1 R2 R3 R4 R5 R6 R7 R8]. unfold ensure. wp_step. cbv zeta.
  set (nw := Z.max (width d) w). set (nh := Z.max (height d) h).
  destruct (_ || _) eqn:Hz.
  { wp_step. split; [by apply grown_refl|]. apply orb_true_iff in Hz as [?%Z.eqb_eq|?%Z.eqb_eq]; lia. }
  apply orb_false_iff in Hz as [Hz1%Z.eqb_neq Hz2%Z.eqb_neq].
  destruct (_ || _) eqn:Hm; [done|]. apply orb_false_iff in Hm as [Hm1%Z.ltb_ge Hm2%Z.ltb_ge].
  wp_step; [|done]. apply bind_Some in H as (count & [Hc1 ->]%within_Some & [Hc2 ->]%within_Some).
  wp_step; [|done]. apply bind_Some in H as (bytes & [Hb1 ->]%within_Some & [Hb2 _]%within_Some).
  destruct (_ && _) eqn:Hsame.
  { wp_step. apply andb_true_iff in Hsame as [?%Z.eqb_eq ?%Z.eqb_eq]. split; [by apply grown_refl|lia]. }
  assert (runs (E := SixelError) (if transparent d then ret 0 else expect (head (palette d))) (λ b d', b = background d ∧ d' = d) d) as Hbg.
  { unfold background. destruct (transparent d); [by apply runs_ret|].
    destruct (palette d) as [|c p] eqn:Hp; [done|]. by apply runs_ret. }
  destruct Hbg as (b & d0 & Hrun & -> & ->). apply wp_bind. unfold wp at 1. rewrite Hrun. cbn [fst snd].
  destruct (copy_rows_run (Z.to_nat (height d)) (width d) nw (pixels d)
    (replicate (Z.to_nat (nh * nw)) (background d)) (replicate (Z.to_nat (nh * nw)) (background d)) 0) as (px & Hpx & Hcp).
  { lia. } { lia. } { lia. } { rewrite R1. nia. } { rewrite length_replicate. nia. } { rewrite length_replicate. lia. }
  { split; [done|]. intros k _. cbv zeta. rewrite decide_False; [done|]. intros [Hneg _].
    assert (0 ≤ Z.of_nat k / nw) by (apply Z.div_pos; lia). lia. }
  rewrite Z2Nat.id, Z.add_0_l in * by lia. unfold span. rewrite Z.sub_0_r, Hpx.
  unfold wp. cbn. pose proof (resized_raster nw nh d px Hr ltac:(lia) ltac:(lia) ltac:(lia) ltac:(lia) Hcp) as Hpix.
  destruct Hcp as [Hlen _]. rewrite length_replicate in Hlen.
  split; [|simpl; lia]. split; simpl; [done| |lia|lia|].
  - split; simpl; try done; try lia. intros y Hy%R7. lia.
  - intros x y [Hx Hy]. by apply Hpix.
Qed.

(** ** Painting *)

(** What no byte changes but for the bookkeeping of [put_byte]. *)
Record fixed (d d' : SixelDecoder) : Prop := {
  fx_limits : limits d' = limits d;
  fx_width : maximum_width d' = maximum_width d;
  fx_height : maximum_height d' = maximum_height d;
  fx_transparent : transparent d' = transparent d;
  fx_input : input_bytes d' = input_bytes d;
  fx_failed : failed d' = failed d;
}.

Lemma fixed_refl d : fixed d d.
Proof. done. Qed.

(** One more than the lowest row painted. *)
Definition low (d : SixelDecoder) : Z := match bottommost_painted d with Some y => y + 1 | None => 0 end.

(** Painting the positions of [C] moves the lowest row painted. *)
Record lowers (C : Z → Z → bool) (d d' : SixelDecoder) : Prop := {
  lw_mono : low d ≤ low d';
  lw_above x y : C x y = true → inside d' x y ∧ y < low d';
  lw_lowest : low d' = low d ∨ ∃ x, C x (low d' - 1) = true;
}.

Abbreviation unpainted := (λ _ _, false).

Lemma lowers_ext C C' d d' : (∀ x y, C x y = C' x y) → lowers C d d' → lowers C' d d'.
Proof.
  intros HC [H1 H2 H3]. split; [done| |].
  - intros x y. rewrite <-HC. apply H2.
  - destruct H3 as [?|(x & Hx)]; [by left|right]. exists x. by rewrite <-HC.
Qed.

Lemma lowers_none d d' : bottommost_painted d' = bottommost_painted d → lowers unpainted d d'.
Proof. intros Hb. unfold low. split; unfold low; rewrite ?Hb; [done|done|by left]. Qed.

Lemma lowers_trans C d1 d2 d3 : lowers unpainted d1 d2 → lowers C d2 d3 → lowers C d1 d3.
Proof. intros [H1 _ [H2|(x & [=])]] [H3 H4 H5]. rewrite H2 in *. by split. Qed.

(** [d'] is [d] with the positions of [C] painted in its color. *)
Record painted (C : Z → Z → bool) (d d' : SixelDecoder) : Prop := {
  pt_frame : d' = set_bottommost_painted (bottommost_painted d') (set_pixels (pixels d') d);
  pt_raster : raster_ok d';
  pt_pixels x y : inside d x y → pixel d' x y = if C x y then Some (color d) else pixel d x y;
  pt_low : lowers C d d';
}.

Lemma painted_ext C C' d d' : (∀ x y, C x y = C' x y) → painted C d d' → painted C' d d'.
Proof. 
  intros HC [H1 H2 H3 H4]. split; [done..| |].
  - intros x y Hin. by rewrite <-HC, H3.
  - by eapply lowers_ext.
Qed.

Lemma painted_none d : raster_ok d → painted (λ _ _, false) d d.
Proof. intros Hr. split; [by destruct d|done|done|by apply lowers_none]. Qed.

Lemma paint_runs C d d' x y :
  painted C d d' → inside d x y →
  runs (paint (width d) x y) (λ _ d'', painted (λ a b, C a b || ((a =? x) && (b =? y))) d d'') d'.
Proof.
  intros [Hf Hr Hp Hlow] [Hx Hy]. pose proof Hr as [[L1 L2 L3 L4] R1 R2 R3 R4 R5 R6 R7 R8].
  assert (width d' = width d) as Ew by by rewrite Hf. assert (height d' = height d) as Eh by by rewrite Hf.
  assert (color d' = color d) as Ec by by rewrite Hf. rewrite Ew, Eh in *.
  pose proof (index_bound _ _ x y Hx Hy) as Hi. assert (0 ≤ y * width d) by nia.
  unfold paint. apply runs_bind, runs_assert; [apply Z.leb_le; lia|].
  apply runs_bind. exists (y * width d + x), d'. split.
  { rewrite (proj2 (within_Some _ (y * width d) _)) by (split; [lia|done]). cbn [mbind option_bind].
    rewrite (proj2 (within_Some _ (x + y * width d) (y * width d + x))) by (split; lia). done. }
  apply runs_bind, runs_get, runs_bind, runs_assert; [apply Z.ltb_lt; lia|].
  apply runs_bind, runs_modify, runs_modify. split.
  - rewrite Hf. done.
  - split; simpl; rewrite ?length_insert; rewrite ?Ew, ?Eh; try done.
    intros y' [= <-]. destruct (bottommost_painted d') as [old|] eqn:Hb; [|done]. specialize (R7 old eq_refl). lia.
  - intros a b [Ha Hb]. unfold pixel. simpl. rewrite Ew, Ec.
    destruct (decide (a = x ∧ b = y)) as [[-> ->]|Hne].
    + rewrite !Z.eqb_refl, orb_true_r. cbn [andb]. rewrite list_lookup_insert_eq by lia. done.
    + replace ((a =? x) && (b =? y)) with false by lia. rewrite orb_false_r. rewrite list_lookup_insert_ne.
      * specialize (Hp a b (conj Ha Hb)). unfold pixel in Hp. rewrite Ew in Hp. exact Hp.
      * intros He. apply Hne, (raster_index_inj (width d)); [lia..|]. pose proof (index_bound _ _ a b Ha Hb). lia.
  - set (d2 := set_bottommost_painted _ _). assert (low d2 = Z.max (low d') (y + 1)) as Hl.
    { unfold low at 1, d2. simpl. unfold low. destruct (bottommost_painted d') as [old|]; lia. }
    assert (∀ a b, inside d2 a b ↔ inside d' a b) as Hins by done. destruct Hlow as [Hm Ha Hb]. split; rewrite ?Hl.
    + lia.
    + intros a b [HC|[->%Z.eqb_eq ->%Z.eqb_eq]%andb_true_iff]%orb_true_iff.
      * destruct (Ha a b HC) as [Hin Hlt]. split; [by apply Hins|lia].
      * split; [|lia]. apply Hins. unfold inside. by rewrite Ew, Eh.
    + destruct (decide (low d' < y + 1)).
      { right. exists x. by rewrite Z.max_r, Z.add_simpl_r, !Z.eqb_refl, orb_true_r by lia. }
      rewrite Z.max_l by lia. destruct Hb as [?|(a & HC)]; [by left|right]. exists a. by rewrite HC.
Qed.

(** A loop paints what its rounds paint. *)
Lemma painted_loop {X} (F : X → Z → Z → bool) (l : list X) (body : X → M SixelDecoder SixelError unit) C d d' :
  (∀ x C d', x ∈ l → painted C d d' → runs (body x) (λ _ d'', painted (λ a b, C a b || F x a b) d d'') d') →
  painted C d d' →
  runs (for_each l body) (λ _ d'', painted (λ a b, C a b || existsb (λ x, F x a b) l) d d'') d'.
Proof.
  revert C d'. induction l as [|x l IH]; intros C d' Hb Hp; cbn [for_each existsb].
  { apply runs_ret. eapply painted_ext; [|exact Hp]. intros. by rewrite orb_false_r. }
  apply runs_bind. eapply runs_mono; [|apply (Hb x C d'); [by left|done]]. intros [] d1 H1.
  eapply runs_mono; [|apply (IH (λ a b, C a b || F x a b) d1); [|exact H1]].
  - intros [] d2 H2. eapply painted_ext; [|exact H2]. intros. simpl. by rewrite orb_assoc.
  - intros y C' d2 Hy. apply Hb. by right.
Qed.

(** What a run of [sixel] from column [a] to [b] covers, below [row]. *)
Definition covers (sixel a b row pan x y : Z) : bool :=
  (a <=? x) && (x <? b) && (row <=? y) && (y <? row + 6 * pan) && Z.testbit sixel ((y - row) / pan).

Lemma covers_loops sixel a b row pan x y :
  0 < pan →
  existsb (λ x', existsb (λ bit, Z.testbit sixel bit &&
    existsb (λ vertical, (x =? x') && (y =? row + bit * pan + vertical)) (span 0 pan)) (span 0 6)) (span a b) =
  covers sixel a b row pan x y.
Proof.
  intros Hpan. apply eq_true_iff_eq. unfold covers. rewrite !andb_true_iff, !Z.leb_le, !Z.ltb_lt.
  rewrite existsb_exists. setoid_rewrite existsb_exists. setoid_rewrite andb_true_iff. setoid_rewrite existsb_exists.
  setoid_rewrite andb_true_iff. setoid_rewrite Z.eqb_eq. setoid_rewrite <-list_elem_of_In.
  unfold span. setoid_rewrite elem_of_seqZ. split.
  - intros (x' & Hx' & bit & Hbit & Ht & v & Hv & -> & ->).
    replace (row + bit * pan + v - row) with (bit * pan + v) by lia.
    replace ((bit * pan + v) / pan) with bit by (apply (Z.div_unique _ _ bit v); lia). split_and!; [lia|lia|nia|nia|done].
  - intros ((((H1 & H2) & H3) & H4) & Ht). exists x. split; [lia|]. exists ((y - row) / pan).
    pose proof (Z.div_mod (y - row) pan ltac:(lia)). pose proof (Z.mod_pos_bound (y - row) pan Hpan).
    split; [|split; [done|]].
    + assert (0 ≤ (y - row) / pan) by (apply Z.div_pos; lia). assert ((y - row) / pan < 6) by (apply Z.div_lt_upper_bound; lia). lia.
    + exists ((y - row) mod pan). lia.
Qed.

Lemma paint_loops sixel a b d :
  raster_ok d → 0 < pan d → 0 ≤ a → b ≤ width d → 0 ≤ row d → row d + 6 * pan d ≤ height d →
  runs (for_each (span a b) (λ x,
          for_each (span 0 6) (λ bit,
            if negb (Z.testbit sixel bit) then ret tt
            else for_each (span 0 (pan d)) (λ vertical, paint (width d) x (row d + bit * pan d + vertical)))))
    (λ _ d', painted (covers sixel a b (row d) (pan d)) d d') d.
Proof.
  intros Hr Hpan Ha Hb Hrow Hh. eapply runs_mono; [|apply (painted_loop (λ x a' b', existsb (λ bit, Z.testbit sixel bit &&
    existsb (λ vertical, (a' =? x) && (b' =? row d + bit * pan d + vertical)) (span 0 (pan d))) (span 0 6)) _ _
    (λ _ _, false) d d); [|by apply painted_none]].
  - intros [] d'. apply painted_ext. intros x y. apply (covers_loops sixel a b (row d) (pan d) x y Hpan).
  - intros x C d1 Hx Hp. apply (painted_loop (λ bit a' b', Z.testbit sixel bit &&
      existsb (λ vertical, (a' =? x) && (b' =? row d + bit * pan d + vertical)) (span 0 (pan d)))); [|done].
    clear C d1 Hp. intros bit C d1 Hbit Hp. destruct (Z.testbit sixel bit); cbn [negb andb].
    + apply (painted_loop (λ vertical a' b', (a' =? x) && (b' =? row d + bit * pan d + vertical))); [|done].
      clear C d1 Hp. intros v C d1 Hv Hp. apply paint_runs; [done|].
      unfold span in *. rewrite elem_of_seqZ in Hx, Hbit, Hv. split; [lia|nia].
    + apply runs_ret. eapply painted_ext; [|exact Hp]. intros. by rewrite orb_false_r.
Qed.

(** What a run of sixels leaves. *)
Record drawn (sixel : Z) (d d' : SixelDecoder) : Prop := {
  dr_frame : d' = set_bottom_pixel (bottom_pixel d') (set_column (column d') (set_pixel_writes (pixel_writes d')
    (set_bottommost_painted (bottommost_painted d') (set_pixels (pixels d') (set_height (height d')
      (set_width (width d') d))))));
  dr_ok : decoder_ok d';
  dr_width : width d ≤ width d';
  dr_height : height d ≤ height d';
  dr_pixels x y : inside d' x y →
    pixel d' x y = if covers sixel (column d) (column d') (row d) (pan d) x y then Some (color d)
                   else if decide (inside d x y) then pixel d x y else Some (background d);
  dr_low : lowers (covers sixel (column d) (column d') (row d) (pan d)) d d';
}.

Lemma land_lor_bound a b : 0 ≤ a < 64 → 0 ≤ b < 64 → 0 ≤ Z.lor a b < 64.
Proof.
  intros Ha Hb. split; [apply Z.lor_nonneg; lia|]. destruct (decide (Z.lor a b = 0)) as [->|Hn]; [done|].
  assert (0 ≤ Z.lor a b) by (apply Z.lor_nonneg; lia).
  apply Z.log2_lt_pow2 with (b := 6); [lia|]. rewrite Z.log2_lor by lia.
  assert (∀ z, 0 ≤ z < 64 → Z.log2 z < 6) as Hl.
  { intros z Hz. destruct (decide (z = 0)) as [->|]; [reflexivity|]. apply Z.log2_lt_pow2; lia. }
  pose proof (Hl a Ha). pose proof (Hl b Hb). lia.
Qed.

Lemma add_sixels_spec sixel count d :
  decoder_ok d → 0 ≤ sixel < 64 → 1 ≤ count ≤ u32_max →
  wp (add_sixels sixel count) (λ r d', match r with
    | Ok _ => drawn sixel d d' ∧ column d' = column d + count * pad d
    | Err _ => decoder_ok d' ∧ fixed d d'
    | Panic => False
    end) d.
Proof.
  intros Hok Hs Hc. pose proof Hok as [Hr [G1 G2 G3 G4 G5 G6 G7 G8 G9 G10 G11 G12 G13 G14]]. unfold is_u32 in *.
  unfold add_sixels. wp_step. wp_step; [|done]. apply within_Some in H as [Hcol ->].
  wp_step; [|done]. apply within_Some in H as [Hend ->]. wp_step; [|done]. apply within_Some in H as [Hrows ->].
  wp_step; [|done]. apply within_Some in H as [Herow ->]. set (end_column := column d + count * pad d) in *.
  apply wp_bind. eapply wp_mono; [|apply (ensure_spec end_column (row d + 6 * pan d) d); [done|nia|lia]].
  intros [[]|e|] d1; [|by intros [_ ->]|done]. intros [Hg Hsize].
  destruct (Hsize ltac:(nia) ltac:(lia)) as [Hw1 Hh1]. clear Hsize.
  pose proof (gr_frame _ _ Hg) as Hf. pose proof (gr_raster _ _ Hg) as Hr1.
  assert (registers_ok d1) as Hg1.
  { pose proof (gr_width _ _ Hg). rewrite Hf. split; simpl; unfold is_u32; try done; lia. }
  assert (pan d1 = pan d ∧ row d1 = row d ∧ column d1 = column d ∧ pixel_writes d1 = pixel_writes d ∧
    bottom_pixel d1 = bottom_pixel d ∧ color d1 = color d) as (E1 & E2 & E3 & E4 & E5 & E6).
  { rewrite Hf. done. }
  assert (decoder_ok d1 ∧ fixed d d1) as Herr by (split; [by split|rewrite Hf; done]).
  wp_step. wp_step; [|exact Herr]. apply within_Some in H as [_ ->]. wp_step; [|exact Herr].
  apply bind_Some in H as (total & [_ ->]%within_Some & [Hwr ->]%within_Some).
  wp_step. wp_step. set (d2 := set_pixel_writes _ d1).
  assert (raster_ok d2) as Hr2 by (destruct Hr1 as [[]]; by split).
  apply wp_bind.
  destruct (paint_loops sixel (column d2) end_column d2) as ([] & d3 & Hrun & Hp); [done|simpl; lia..|].
  unfold wp at 1. rewrite Hrun. cbn [fst snd]. wp_step. unfold wp, modify. cbn [fst snd].
  destruct Hp as [Hf3 Hr3 Hp3 Hl3]. assert (width d3 = width d1 ∧ height d3 = height d1) as [W3 H3] by (rewrite Hf3; done).
  split; [|done]. split; simpl; rewrite ?W3, ?H3; [|split|apply Hg|apply Hg| |].
  - rewrite Hf3. unfold d2. rewrite Hf. done.
  - destruct Hr3 as [[]]. by split.
  - destruct Hg1. rewrite Hf3. split; simpl; unfold is_u32 in *; try done; try lia. by apply land_lor_bound.
  - intros x y Hin. assert (inside d1 x y) as Hin1 by (unfold inside in *; simpl in Hin; by rewrite W3, H3 in Hin).
    unfold d2 in *. simpl in *. rewrite E1, E2, E3, E6 in *.
    change (pixel (set_bottom_pixel _ _) x y) with (pixel d3 x y). rewrite Hp3 by done.
    destruct (covers _ _ _ _ _ x y); [done|]. by rewrite <-(gr_pixels _ _ Hg x y Hin1).
  - unfold d2 in Hl3. simpl in Hl3. rewrite E1, E2, E3 in Hl3. eapply (lowers_trans _ _ d1).
    + apply lowers_none. rewrite Hf. done.
    + destruct Hl3 as [M1 M2 M3]. split; [done| |done]. intros x y [Hin Hlt]%M2. split; [|done].
      unfold inside in *. simpl. by rewrite W3, H3 in *.
Qed.

(** ** Bytes *)

(** From [d] to [d']: the positions of [C] are painted in the color [c], the
    others keep their pixels or are new background. *)
Record evolved (C : Z → Z → bool) (c : Z) (d d' : SixelDecoder) : Prop := {
  ev_fixed : fixed d d';
  ev_width : width d ≤ width d';
  ev_height : height d ≤ height d';
  ev_pixels x y : inside d' x y →
    pixel d' x y = if C x y then Some c else if decide (inside d x y) then pixel d x y else Some (background d');
  ev_low : lowers C d d';
}.

Lemma fixed_trans d1 d2 d3 : fixed d1 d2 → fixed d2 d3 → fixed d1 d3.
Proof. intros [] []. split; congruence. Qed.

Lemma evolved_trans C c k d1 d2 d3 :
  evolved unpainted k d1 d2 → evolved C c d2 d3 → background d3 = background d2 → evolved C c d1 d3.
Proof.
  intros [F1 W1 H1 P1 L1] [F2 W2 H2 P2 L2] Hb. split; [by eapply fixed_trans|lia..| |by eapply lowers_trans]. intros x y Hin. rewrite P2 by done.
  destruct (C x y); [done|]. destruct (decide (inside d2 x y)) as [Hin2|Hn2].
  - rewrite P1 by done. by rewrite Hb.
  - rewrite decide_False; [done|]. unfold inside in *. lia.
Qed.

(** A change of registers only. *)
Lemma registers_evolve c d d' :
  fixed d d' → pixels d' = pixels d → width d' = width d → height d' = height d →
  bottommost_painted d' = bottommost_painted d → evolved unpainted c d d'.
Proof.
  intros Hf Hp Hw Hh Hb. split; [done|lia..| |by apply lowers_none]. intros x y Hin. unfold pixel, inside in *. rewrite Hp, Hw, Hh in *.
  by rewrite decide_True.
Qed.

Lemma raster_same d d' :
  raster_ok d → fixed d d' → pixels d' = pixels d → width d' = width d → height d' = height d →
  bottommost_painted d' = bottommost_painted d → length (palette d') = length (palette d) → raster_ok d'.
Proof.
  intros [[] ] [E1 E2 E3 _ _] Hp Hw Hh Hb Hl. split; [split|..]; rewrite ?E1, ?E2, ?E3, ?Hp, ?Hw, ?Hh, ?Hl; try done.
  intros y. rewrite Hb. auto.
Qed.

Lemma grown_ok d d' : registers_ok d → grown d d' → decoder_ok d'.
Proof.
  intros Hg [Hf Hr Hw _ _]. split; [done|]. destruct Hg. rewrite Hf. split; simpl; unfold is_u32 in *; done || lia.
Qed.

Lemma grown_evolved c d d' : grown d d' → evolved unpainted c d d'.
Proof.
  intros [Hf _ Hw Hh Hp]. split; [by rewrite Hf; split|done..| |apply lowers_none; rewrite Hf; done].
  intros x y Hin. rewrite Hp by done.
  assert (background d' = background d) as -> by (rewrite Hf; done). done.
Qed.

Lemma drawn_evolved sixel d d' :
  drawn sixel d d' → evolved (covers sixel (column d) (column d') (row d) (pan d)) (color d) d d'.
Proof.
  intros [Hf _ Hw Hh Hp Hl]. split; [by rewrite Hf; split|done..| |done]. intros x y Hin. rewrite Hp by done.
  assert (background d' = background d) as -> by (rewrite Hf; done). done.
Qed.

(** What an accepted byte paints, from the registers before and after. *)
Definition paints (byte : Z) (d d' : SixelDecoder) (x y : Z) : bool :=
  is_sixel byte && covers (byte - 63) (column d) (column d') (row d') (pan d') x y.

Definition accepted (byte : Z) (d d' : SixelDecoder) : Prop :=
  decoder_ok d' ∧ evolved (paints byte d d') (color d') d d'.

(** The outcome of a byte: never a panic, a sound decoder always. *)
Definition byte_post (byte : Z) (d : SixelDecoder) (r : outcome SixelError unit) (d' : SixelDecoder) : Prop :=
  match r with
  | Ok _ => accepted byte d d'
  | Err _ => decoder_ok d' ∧ fixed d d'
  | Panic => False
  end.

Lemma plain_byte byte d d' :
  is_sixel byte = false → decoder_ok d' → (∀ c, evolved unpainted c d d') → accepted byte d d'.
Proof.
  intros Hs Hok He. split; [done|]. destruct (He (color d')) as [F W H P L]. split; [done..| |].
  - intros x y Hin. unfold paints. rewrite Hs. by apply P.
  - eapply lowers_ext; [|exact L]. intros x y. unfold paints. by rewrite Hs.
Qed.

Lemma data_spec byte d :
  decoder_ok d →
  wp (data byte) (λ r d', byte_post byte d r d' ∧ (r = Ok tt → background d' = background d)) d.
Proof.
  intros Hok. pose proof Hok as [Hr Hg]. unfold data.
  assert (∀ d', pixels d' = pixels d → width d' = width d → height d' = height d → fixed d d' → registers_ok d' →
    bottommost_painted d' = bottommost_painted d → palette d' = palette d → is_sixel byte = false →
    byte_post byte d (Ok tt) d' ∧ (Ok (E := SixelError) tt = Ok tt → background d' = background d)) as Hreg.
  { intros d' Hp Hw Hh Hf Hg' Hb Hpal Hs. split; [|unfold background; by rewrite Hpal, (fx_transparent _ _ Hf)].
    apply plain_byte; [done|split; [|done]|intros c; by apply registers_evolve].
    eapply raster_same; try done. by rewrite Hpal. }
  assert (∀ d', fixed d d' → decoder_ok d' → ∀ e,
    byte_post byte d (Err e) d' ∧ (Err e = Ok tt → background d' = background d)) as Herr by done.
  destruct (byte =? 34) eqn:E1; [apply Z.eqb_eq in E1 as ->|].
  { apply Hreg; try done. destruct Hg. split; simpl; unfold is_u32; try done; repeat constructor; done. }
  destruct (byte =? 33) eqn:E2; [apply Z.eqb_eq in E2 as ->|].
  { apply Hreg; try done. destruct Hg. split; simpl; unfold is_u32; try done; repeat constructor; done. }
  destruct (byte =? 35) eqn:E3; [apply Z.eqb_eq in E3 as ->|].
  { apply Hreg; try done. destruct Hg. split; simpl; unfold is_u32; try done; try lia; repeat constructor; done. }
  destruct (byte =? 36) eqn:E4; [apply Z.eqb_eq in E4 as ->|].
  { apply Hreg; try done. destruct Hg. split; simpl; unfold is_u32 in *; try done; lia. }
  destruct (byte =? 45) eqn:E5; [apply Z.eqb_eq in E5 as ->|].
  { wp_step. wp_step; [|by apply Herr]. apply within_Some in H as [H1 ->]. wp_step; [|by apply Herr].
    apply within_Some in H as [H2 ->]. do 3 wp_step. set (d1 := set_bottom_pixel 0 _).
    assert (registers_ok d1) as Hg1 by (destruct Hg; split; simpl; unfold is_u32 in *; done || lia).
    assert (raster_ok d1) as Hr1 by (by eapply raster_same).
    wp_step; [|by apply Herr]. apply within_Some in H as [H3 ->]. destruct Hg.
    eapply wp_mono; [|apply (ensure_spec (width d) (row d + 6 * pan d + 6 * pan d) d1); [done|destruct Hr as [[]]; lia|unfold is_u32 in *; lia]].
    intros [[]|e|] d2; [|by intros [-> ->]; apply Herr|done]. intros [Hgr _]. split.
    - apply plain_byte; [done|by eapply grown_ok|]. intros c. eapply (evolved_trans _ _ c _ d1); [by apply registers_evolve|by apply grown_evolved|].
      rewrite (gr_frame _ _ Hgr). done.
    - intros _. rewrite (gr_frame _ _ Hgr). done. }
  destruct (is_sixel byte) eqn:E6.
  { assert (0 ≤ byte - 63 < 64) as Hb by (unfold is_sixel in E6; lia).
    eapply wp_mono; [|apply (add_sixels_spec (byte - 63) 1 d); [done|done|done]].
    intros [[]|e|] d'; [|by intros [? ?]; apply Herr|done]. intros [Hd _]. split.
    - split; [apply Hd|]. pose proof (dr_frame _ _ _ Hd) as Hf. destruct (drawn_evolved _ _ _ Hd) as [F W H P L].
      assert (row d' = row d ∧ pan d' = pan d ∧ color d' = color d) as (Er & Ep & Ec) by (rewrite Hf; done).
      split; [done..| |]; unfold paints; rewrite E6, ?Er, ?Ep, ?Ec; [|done]. intros x y Hin. by rewrite P.
    - intros _. rewrite (dr_frame _ _ _ Hd). done. }
  destruct (_ || _); [|by apply Herr]. apply Hreg; done.
Qed.

(** ** Parameters *)

Lemma store_runs d :
  decoder_ok d →
  runs store_parameter (λ _ d', decoder_ok d' ∧ d' = set_parameter 0 (set_parameter_index (parameter_index d')
    (set_params (params d') d))) d.
Proof.
  intros [Hr Hg]. unfold store_parameter. apply runs_bind, runs_get, runs_bind.
  set (d1 := if parameter_index d <? Z.of_nat (length (params d))
             then set_parameter_index (parameter_index d + 1) (set_params (<[Z.to_nat (parameter_index d) := parameter d]> (params d)) d)
             else d).
  exists tt, d1. split; [unfold d1; by destruct (_ <? _)|]. apply runs_modify.
  assert (d1 = set_parameter_index (parameter_index d1) (set_params (params d1) d)) as Hf by (unfold d1; destruct (_ <? _); [done|by destruct d]).
  split; [|by rewrite Hf at 1]. split.
  - rewrite Hf. by eapply raster_same.
  - destruct Hg as [G1 G2 G3 G4 G5 G6 G7 G8 G9 G10 G11 G12 G13 G14]. unfold d1. rewrite G1 in *.
    destruct (Z.ltb_spec (parameter_index d) (Z.of_nat 5)); split; simpl; try done; try lia.
    + by rewrite length_insert.
    + by apply Forall_insert.
Qed.

Lemma param_runs n d (Q : Z → SixelDecoder → Prop) :
  decoder_ok d → (n < 5)%nat → (∀ p, params d !! n = Some p → is_u32 p → Q p d) → runs (param n d) Q d.
Proof.
  intros [_ Hg] Hn HQ. destruct (lookup_lt_is_Some_2 (params d) n) as [p Hp]; [rewrite (rg_params _ Hg); lia|].
  unfold param. eapply runs_expect; [done|]. apply HQ; [done|]. eapply Forall_lookup_1; [apply (rg_values _ Hg)|done].
Qed.

Lemma finish_color_runs d :
  decoder_ok d →
  runs finish_color (λ _ d', decoder_ok d' ∧ d' = set_palette (palette d') (set_color (color d') (set_color_index (color_index d') d))) d.
Proof.
  intros Hok. unfold finish_color. apply runs_bind, runs_get, runs_bind.
  assert (runs (if 0 <? parameter_index d then let! p0 := param 0 d in modify (set_color_index (Z.min p0 (palette_size d - 1))) else ret tt)
    (λ _ d', decoder_ok d' ∧ d' = set_color_index (color_index d') d) d) as H1.
  { destruct (0 <? _); [|apply runs_ret; split; [done|by destruct d]].
    apply runs_bind, param_runs; [done|lia|]. intros p _ Hp. apply runs_modify. split; [|done].
    destruct Hok as [Hr []]. split; [by eapply raster_same|]. unfold is_u32 in Hp. split; simpl; try done. lia. }
  eapply runs_mono; [|exact H1]. intros [] d1 [Hok1 Hf1]. apply runs_bind, runs_get.
  assert (∃ current, palette d1 !! Z.to_nat (color_index d1) = Some current) as [current Hc].
  { apply lookup_lt_is_Some_2. destruct Hok1 as [[_ _ _ _ _ _ _ _ Hl] []]. rewrite Hl. lia. }
  destruct (4 <? _).
  - do 4 (apply runs_bind, param_runs; [done|lia|]; intros ? _ _). apply runs_bind. eapply runs_expect; [exact Hc|].
    apply runs_modify. split; [|rewrite Hf1; done]. destruct Hok1 as [Hr1 []]. split; [|by split].
    eapply raster_same; try done. simpl. apply length_insert.
  - apply runs_bind. eapply runs_expect; [exact Hc|]. apply runs_modify. split; [|rewrite Hf1; by destruct d].
    destruct Hok1 as [Hr1 []]. split; [by eapply raster_same|by split].
Qed.

Lemma finish_raster_spec d :
  decoder_ok d →
  wp finish_raster (λ r d', match r with
    | Ok _ => decoder_ok d' ∧ (∀ c, evolved unpainted c d d') ∧ column d' = column d
    | Err _ => decoder_ok d' ∧ fixed d d'
    | Panic => False
    end) d.
Proof.
  intros Hok. unfold finish_raster. wp_step.
  eapply (wp_bind_runs _ _ (λ _ d', d' = d)); [by apply param_runs; [|lia|]|]. intros p0 ? ->.
  eapply (wp_bind_runs _ _ (λ _ d', d' = d)); [by apply param_runs; [|lia|]|]. intros p1 ? ->.
  eapply (wp_bind_runs _ _ (λ _ d', decoder_ok d' ∧ d' = set_pad (pad d') (set_pan (pan d') d))).
  { destruct (_ && _); [|apply runs_ret; split; [done|by destruct d]].
    apply runs_bind, runs_modify, runs_modify. split; [|done]. destruct Hok as [Hr []].
    split; [by eapply raster_same|]. unfold clamped. split; simpl; try done; lia. }
  intros [] d1 [Hok1 Hf1]. assert (fixed d d1) as Hfx by (rewrite Hf1; done). wp_step.
  eapply (wp_bind_runs _ _ (λ p d', is_u32 p ∧ d' = d1)); [by apply param_runs; [|lia|]|]. intros p2 ? [Hp2 ->].
  eapply (wp_bind_runs _ _ (λ p d', is_u32 p ∧ d' = d1)); [by apply param_runs; [|lia|]|]. intros p3 ? [Hp3 ->].
  wp_step; [|done]. apply within_Some in H as [H1 ->]. wp_step; [|done]. apply within_Some in H as [H2 ->].
  pose proof (rg_pan _ (dk_registers _ Hok1)). pose proof (rg_pad _ (dk_registers _ Hok1)). unfold is_u32 in *.
  assert (∀ c, evolved unpainted c d d1) as He1 by (intros c; apply registers_evolve; [done|rewrite Hf1; done..]).
  assert (column d1 = column d) as Hc1 by (rewrite Hf1; done).
  destruct (_ && _); [|wp_step; done].
  eapply wp_mono; [|apply ensure_spec; [apply Hok1|nia..]].
  intros [[]|e|] d2; [|by intros [-> ->]|done]. intros [Hg _]. split_and!.
  - eapply grown_ok; [apply Hok1|done].
  - intros c. eapply (evolved_trans _ _ c); [apply He1|by apply grown_evolved|]. rewrite (gr_frame _ _ Hg). done.
  - rewrite (gr_frame _ _ Hg). done.
Qed.

Lemma evolved_same C c d d1 d2 :
  fixed d d1 → pixels d1 = pixels d → width d1 = width d → height d1 = height d →
  bottommost_painted d1 = bottommost_painted d → evolved C c d1 d2 → evolved C c d d2.
Proof.
  intros Hf Hp Hw Hh Hb [F W H P L]. split; [by eapply fixed_trans|lia..| |].
  2: { eapply lowers_trans; [by apply lowers_none|done]. }
  intros x y Hin. rewrite P by done.
  destruct (C x y); [done|]. assert (inside d1 x y ↔ inside d x y) as Hiff by (unfold inside; by rewrite Hw, Hh).
  unfold pixel. rewrite Hp, Hw. repeat case_decide; tauto.
Qed.

(** After parameters that painted nothing, a byte of data. *)
Lemma data_after byte d d1 :
  decoder_ok d1 → (∀ c, evolved unpainted c d d1) → column d1 = column d →
  wp (data byte) (byte_post byte d) d1.
Proof.
  intros Hok He Hc. eapply wp_mono; [|by apply data_spec]. intros [[]|e|] d2; cbn [byte_post].
  - intros [[Hok2 He2] Hb]. split; [done|]. unfold paints in *. rewrite Hc in He2.
    eapply (evolved_trans _ _ (color d2)); [apply He|exact He2|by apply Hb].
  - intros [[Hok2 Hf2] _]. split; [done|]. eapply fixed_trans; [apply (ev_fixed _ _ _ _ (He 0))|done].
  - by intros [].
Qed.

Lemma parameter_byte_spec byte s d :
  decoder_ok d → s ≠ Data → wp (parameter_byte byte s) (byte_post byte d) d.
Proof.
  intros Hok Hs. unfold parameter_byte.
  assert (∀ d', is_sixel byte = false → decoder_ok d' → fixed d d' → pixels d' = pixels d → width d' = width d →
    height d' = height d → bottommost_painted d' = bottommost_painted d → byte_post byte d (Ok tt) d') as Hplain.
  { intros d' Hb Hok' Hf Hp Hw Hh Hl. apply plain_byte; [done|done|]. intros c. by apply registers_evolve. }
  destruct (is_ascii_digit byte) eqn:Ed.
  { assert (is_sixel byte = false) as Hb by (unfold is_sixel, is_ascii_digit in *; lia). wp_step.
    set (d1 := set_parameter _ d). assert (is_u32 (parameter d1)) as Hp.
    { destruct Hok as [_ []]. unfold is_u32, is_ascii_digit in *. simpl. unfold u32_max in *. lia. }
    assert (decoder_ok d1) as Hok1 by (destruct Hok as [Hr []]; split; [by eapply raster_same|by split]).
    case_bool_decide; unfold wp; simpl; apply Hplain; try done.
    destruct Hok1 as [Hr1 []]. split; [by eapply raster_same|by split]. }
  destruct (byte =? 59) eqn:E1; [apply Z.eqb_eq in E1 as ->|].
  { destruct (store_runs d Hok) as ([] & d' & Hrun & Hok' & Hf). unfold wp. rewrite Hrun. apply Hplain; try done; rewrite Hf; done. }
  eapply wp_bind_runs; [by apply store_runs|]. intros [] d1 [Hok1 Hf1].
  assert (fixed d d1) as Hfx by (rewrite Hf1; done).
  assert (pixels d1 = pixels d ∧ width d1 = width d ∧ height d1 = height d ∧ column d1 = column d ∧
    bottommost_painted d1 = bottommost_painted d) as (E2 & E3 & E4 & E5 & E6) by (rewrite Hf1; done).
  assert (fixed d (set_state Data d1)) as Hfs by (rewrite Hf1; done).
  assert (∀ d2, decoder_ok d2 → decoder_ok (set_state Data d2)) as Hstate.
  { intros d2 [Hr2 []]. split; [by eapply raster_same|by split]. }
  assert (∀ d2, (∀ c, evolved unpainted c d1 d2) → ∀ c, evolved unpainted c d (set_state Data d2)) as Hafter.
  { intros d2 He c. eapply (evolved_trans _ _ c _ d2); [by apply (evolved_same _ _ d d1)|by apply registers_evolve|done]. }
  destruct s; [done| | |].
  - apply wp_bind. eapply wp_mono; [|by apply finish_raster_spec]. intros [[]|e|] d2; [|intros [? ?]; split; [done|by apply (fixed_trans _ d1)]|done].
    intros (Hok2 & He2 & Hc2). wp_step. apply data_after; [by apply Hstate|by apply Hafter|simpl; congruence].
  - wp_step. wp_step. assert (∀ c, evolved unpainted c d1 d1) as He1 by (intros c; by apply registers_evolve).
    destruct (is_sixel byte) eqn:Hb; cbn [negb]; [|apply data_after; [by apply Hstate|by apply Hafter|done]].
    assert (0 ≤ byte - 63 < 64) as Hb' by (unfold is_sixel in Hb; lia).
    pose proof (rg_repeat _ (dk_registers _ Hok1)) as Hrep. unfold is_u32 in Hrep.
    eapply wp_mono; [|apply (add_sixels_spec (byte - 63) (Z.max (repeat_count d1) 1) (set_state Data d1)); [by apply Hstate|done|unfold u32_max in *; lia]].
    intros [[]|e|] d2; [|intros [? ?]; split; [done|by apply (fixed_trans _ (set_state Data d1))]|done]. intros [Hd _].
    split; [apply Hd|]. pose proof (drawn_evolved _ _ _ Hd) as He. unfold paints. rewrite Hb. cbn [andb].
    assert (row d2 = row d1 ∧ pan d2 = pan d1 ∧ color d2 = color d1) as (-> & -> & ->) by (rewrite (dr_frame _ _ _ Hd); done).
    rewrite <-E5. by apply (evolved_same _ _ d (set_state Data d1)).
  - eapply wp_bind_runs; [by apply finish_color_runs|]. intros [] d2 [Hok2 Hf2]. wp_step.
    assert (fixed d1 (set_state Data d2) ∧ pixels d2 = pixels d1 ∧ width d2 = width d1 ∧ height d2 = height d1 ∧
      column d2 = column d1 ∧ bottommost_painted d2 = bottommost_painted d1) as (F1 & F2 & F3 & F4 & F5 & F6) by (rewrite Hf2; done).
    apply data_after; [by apply Hstate| |simpl; congruence].
    intros c. apply registers_evolve; [by apply (fixed_trans _ d1)|simpl; congruence..].
Qed.

(** ** New decoders and finished images *)

(** The limits have their machine types. *)
Record limits_typed (l : ImageLimits) : Prop := {
  lt_dimension : is_u32 (maximum_dimension l);
  lt_pixels : 0 ≤ maximum_pixels l ≤ usize_max;
  lt_bytes : 0 ≤ bytes_per_content l ≤ usize_max;
}.

Lemma new_ok p1 p2 l size w h initial :
  limits_typed l → decoder_ok (SixelDecoder_new p1 p2 l size w h initial).
Proof.
  intros [[Hd1 Hd2] Hp Hb]. assert (0 ≤ 1 ≤ u32_max) by done.
  split; split; simpl; unfold is_u32, clamped, MAX_SIXEL_COLORS; try done; try lia; try (by repeat constructor).
  - split; simpl; done || lia.
  - rewrite length_app, length_take, length_replicate. unfold MAX_SIXEL_COLORS. lia.
  - repeat case_match; lia.
Qed.

Lemma le_bytes_length l : length (l ≫= to_le_bytes) = (4 * length l)%nat.
Proof. induction l as [|v l IH]; [done|]. cbn [mbind list_bind]. rewrite length_app, IH. simpl. lia. Qed.

Lemma le_bytes_at l k v : l !! k = Some v → take 4 (drop (4 * k) (l ≫= to_le_bytes)) = to_le_bytes v.
Proof.
  revert k. induction l as [|u l IH]; intros [|k] Hk; [done..| |].
  - injection Hk as ->. done.
  - rewrite Nat.mul_succ_r, Nat.add_comm. cbn [mbind list_bind]. exact (IH k Hk).
Qed.

(** The four bytes of an image at a position. *)
Definition bytes_at (i : SixelImage) (x y : Z) : list Z :=
  take 4 (drop (4 * Z.to_nat (y * image_width i + x)) (image_pixels i)).

(** What [finish] makes of a sound decoder. *)
Record finished (d : SixelDecoder) (i : SixelImage) : Prop := {
  fi_failed : failed d = None;
  fi_width : image_width i = width d;
  fi_height : image_height i = if transparent d then low d else height d;
  fi_nonempty : 0 < image_width i ∧ 0 < image_height i ≤ height d;
  fi_length : Z.of_nat (length (image_pixels i)) = 4 * (image_width i * image_height i);
  fi_ratio : Z.of_nat (length (image_pixels i)) ≤ MAX_SIXEL_EXPANSION_RATIO * input_bytes d;
  fi_cursor : row d ≤ cursor_pixel_row i ≤ u32_max;
  fi_pixels x y : 0 ≤ x < image_width i → 0 ≤ y < image_height i →
    ∃ v, pixel d x y = Some v ∧ bytes_at i x y = to_le_bytes v;
}.

Lemma cursor_spec d :
  decoder_ok d →
  match (if column d =? 0 then Ok (row d)
         else let? used := ok_or_error (within u32_max (Z.min (bit_length (bottom_pixel d)) 6 * pan d)) Dimensions in
              ok_or_error (within u32_max (row d + used)) Dimensions) with
  | Ok c => row d ≤ c ≤ u32_max
  | Err _ => True
  | Panic => False
  end.
Proof.
  intros [_ []]. unfold is_u32 in *. destruct (column d =? 0); [lia|].
  destruct (within _ (_ * pan d)) as [u|] eqn:Hu; cbn [ok_or_error obind]; [|done]. apply within_Some in Hu as [Hu ->].
  destruct (within _ (row d + _)) as [c|] eqn:Hc; cbn [ok_or_error]; [|done]. apply within_Some in Hc as [Hc ->].
  assert (0 ≤ bit_length (bottom_pixel d)).
  { unfold bit_length. pose proof (Z.log2_nonneg (bottom_pixel d)). case_match; lia. }
  nia.
Qed.

Lemma finish_spec d :
  decoder_ok d → match finish d with Ok i => finished d i | Err _ => True | Panic => False end.
Proof.
  intros Hok. pose proof (cursor_spec d Hok) as Hcur. pose proof Hok as [[[L1 L2 L3 L4] R1 R2 R3 R4 R5 R6 R7 R8] G].
  unfold finish. destruct (failed d) eqn:Hfail; [done|].
  destruct (_ || _) eqn:Hz; [done|]. apply orb_false_iff in Hz as [Hz1%Z.eqb_neq Hz2%Z.eqb_neq].
  set (h := if transparent d then low d else height d).
  assert ((if transparent d then ok_or_error (bottommost_painted d ≫= λ row, within u32_max (row + 1)) Malformed
           else Ok (height d)) = Ok h ∧ 0 < h ≤ height d ∨
          (if transparent d then ok_or_error (bottommost_painted d ≫= λ row, within u32_max (row + 1)) Malformed
           else Ok (height d)) = Err Malformed) as [[-> Hh]| ->]; [| |done].
  { unfold h, low. destruct (transparent d); [|left; split; [done|lia]].
    destruct (bottommost_painted d) as [y|] eqn:Hy; [left|by right]. specialize (R7 y eq_refl). cbn [mbind option_bind].
    rewrite (proj2 (within_Some _ (y + 1) _)) by (split; [lia|done]). split; [done|lia]. }
  cbn [obind]. destruct (if column d =? 0 then _ else _) as [c|e|]; cbn [obind]; [|done|done].
  destruct (within _ (h * width d)) as [kept|] eqn:Hk; cbn [ok_or_error obind]; [|done]. apply within_Some in Hk as [Hk ->].
  assert (0 ≤ h * width d ≤ width d * height d) as Hle by nia.
  assert (length (take (Z.to_nat (h * width d)) (pixels d)) = Z.to_nat (h * width d)) as Hlen by (rewrite length_take; lia).
  rewrite Hlen. destruct (within _ _) as [out|] eqn:Ho; cbn [ok_or_error obind]; [|done]. apply within_Some in Ho as [Ho ->].
  destruct (_ <? _) eqn:He; [done|]. apply Z.ltb_ge in He.
  split; cbn [image_width image_height image_pixels cursor_pixel_row]; rewrite ?le_bytes_length, ?Hlen; try done; try lia.
  intros x y Hx Hy. pose proof (index_bound _ _ x y Hx Hy) as Hi.
  destruct (lookup_lt_is_Some_2 (take (Z.to_nat (h * width d)) (pixels d)) (Z.to_nat (y * width d + x))) as [v Hv].
  { rewrite Hlen. lia. }
  exists v. split; [|by apply le_bytes_at]. unfold pixel. rewrite lookup_take_lt in Hv by lia. done.
Qed.

(** ** A stream of bytes *)

(** What [put_byte] leaves, whether it accepts the byte, fails or had failed. *)
Definition put_post (byte : Z) (d : SixelDecoder) (r : outcome SixelError unit) (d' : SixelDecoder) : Prop :=
  decoder_ok d' ∧ input_bytes d' ≤ input_bytes d + 1 ∧ limits d' = limits d ∧
  maximum_width d' = maximum_width d ∧ maximum_height d' = maximum_height d ∧ transparent d' = transparent d ∧
  match r with
  | Ok _ => failed d' = None ∧ width d ≤ width d' ∧ height d ≤ height d' ∧
      (∀ x y, inside d' x y →
         pixel d' x y = if paints byte d d' x y then Some (color d')
                        else if decide (inside d x y) then pixel d x y else Some (background d')) ∧
      lowers (paints byte d d') d d'
  | Err e => failed d = Some e ∧ d' = d ∨ e = InputLimit ∧ d' = d ∨ failed d' = Some e
  | Panic => False
  end.

Lemma put_byte_spec byte d : decoder_ok d → wp (put_byte byte) (put_post byte d) d.
Proof.
  intros Hok. unfold put_byte. wp_step. unfold put_post.
  destruct (failed d) as [e|] eqn:Hfail; [unfold wp; simpl; split_and!; try done; [lia|by left]|].
  wp_step; [|split_and!; try done; [lia|by right; left]].
  apply bind_Some in H as (total & [_ ->]%within_Some & [Hin ->]%within_Some). wp_step.
  set (d1 := set_input_bytes _ d). assert (decoder_ok d1) as Hok1.
  { destruct Hok as [[[]] []]. split; split; simpl; try done; lia. }
  assert (wp (match state d with Data => data byte | s => parameter_byte byte s end) (byte_post byte d1) d1) as Hbyte.
  { destruct (state d); [|by apply parameter_byte_spec..]. eapply wp_mono; [|by apply data_spec]. by intros r d' [? _]. }
  unfold wp in Hbyte |- *. unfold remember_failure. destruct (_ d1) as [[[]|e|] d2]; cbn [fst snd byte_post] in *; [| |done].
  - destruct Hbyte as [Hok2 [[F1 F2 F3 F4 F5 F6] W H P L]]. rewrite F5, F6. split_and!; try done. destruct L. by split.
  - destruct Hbyte as [[[[]] []] [F1 F2 F3 F4 F5 F6]]. split_and!; try done; [simpl; rewrite F5; simpl; lia|by right; right].
Qed.

(** The decoder after any bytes, accepted or not. *)
Definition fed (bytes : list Z) (d : SixelDecoder) : SixelDecoder :=
  foldl (λ d byte, snd (put_byte byte d)) d bytes.

Lemma fed_ok bytes d : decoder_ok d → decoder_ok (fed bytes d).
Proof.
  revert d. induction bytes as [|b bytes IH]; intros d Hok; [done|]. simpl. apply IH, (put_byte_spec b d Hok).
Qed.

Lemma fed_input bytes d : decoder_ok d → input_bytes (fed bytes d) ≤ input_bytes d + Z.of_nat (length bytes).
Proof.
  revert d. induction bytes as [|b bytes IH]; intros d Hok; simpl; [lia|].
  destruct (put_byte_spec b d Hok) as (Hok' & Hin & _). specialize (IH _ Hok'). lia.
Qed.

Lemma fed_limits bytes d :
  decoder_ok d → limits (fed bytes d) = limits d ∧ maximum_width (fed bytes d) = maximum_width d ∧
    maximum_height (fed bytes d) = maximum_height d.
Proof.
  revert d. induction bytes as [|b bytes IH]; intros d Hok; simpl; [done|].
  destruct (put_byte_spec b d Hok) as (Hok' & _ & E1 & E2 & E3 & _). rewrite <-E1, <-E2, <-E3. by apply IH.
Qed.

Lemma fed_transparent bytes d : decoder_ok d → transparent (fed bytes d) = transparent d.
Proof.
  revert d. induction bytes as [|b bytes IH]; intros d Hok; simpl; [done|].
  destruct (put_byte_spec b d Hok) as (Hok' & _ & _ & _ & _ & <- & _). by apply IH.
Qed.

Lemma put_all_cons b bytes d d' :
  put_all (b :: bytes) d = (Ok tt, d') →
  ∃ d1, put_byte b d = (Ok tt, d1) ∧ put_all bytes d1 = (Ok tt, d').
Proof.
  unfold put_all. cbn [for_each]. unfold bind. destruct (put_byte b d) as [[[]|e|] d1]; [|done..]. by exists d1.
Qed.

Lemma put_all_fed bytes d d' : put_all bytes d = (Ok tt, d') → fed bytes d = d'.
Proof.
  revert d. induction bytes as [|b bytes IH]; intros d H; [by injection H|].
  apply put_all_cons in H as (d1 & H1 & H2). simpl. rewrite H1. by apply IH.
Qed.

(** ** The picture *)

(** A canvas without bounds or storage: the color last painted at a position. *)
Definition canvas := Z → Z → option Z.

Definition blank : canvas := λ _ _, None.

(** The strokes of accepted bytes, one over the other. *)
Fixpoint strokes (bytes : list Z) (d : SixelDecoder) (c : canvas) : canvas :=
  match bytes with
  | [] => c
  | b :: bytes =>
      let d' := snd (put_byte b d) in
      strokes bytes d' (λ x y, if paints b d d' x y then Some (color d') else c x y)
  end.

(** The raster of [d] shows the canvas, over backgrounds among [B], and the
    lowest row painted is the canvas's. *)
Record depicts (B : Z → Prop) (c : canvas) (d : SixelDecoder) : Prop := {
  dp_inside x y : is_Some (c x y) → inside d x y ∧ y < low d;
  dp_lowest : low d = 0 ∨ ∃ x, is_Some (c x (low d - 1));
  dp_pixel x y : inside d x y → ∃ v, pixel d x y = Some v ∧
    match c x y with Some k => v = k | None => B v end;
}.

Lemma depicts_put B c b d d' :
  decoder_ok d → depicts B c d → put_byte b d = (Ok tt, d') → B (background d') →
  depicts B (λ x y, if paints b d d' x y then Some (color d') else c x y) d'.
Proof.
  intros Hok [H1 H2 H3] Hput HB. pose proof (put_byte_spec b d Hok) as Hs. unfold wp in Hs. rewrite Hput in Hs. cbn [fst snd] in Hs.
  destruct Hs as (_ & _ & _ & _ & _ & _ & _ & Hw & Hh & Hp & [M1 M2 M3]). split.
  - intros x y. destruct (paints b d d' x y) eqn:E; [intros _; by apply M2|].
    intros [Hin Hlt]%H1. split; [|lia]. unfold inside in *. lia.
  - destruct M3 as [->|(x & Hx)]; [|right; exists x; by rewrite Hx].
    destruct H2 as [?|(x & Hx)]; [by left|right]. exists x. by case_match.
  - intros x y Hin. rewrite (Hp x y Hin). destruct (paints b d d' x y); [by eexists|].
    destruct (decide (inside d x y)) as [Hd|Hd]; [by apply H3|]. exists (background d'). split; [done|].
    destruct (c x y) eqn:Hc; [|done]. destruct (H1 x y) as [? _]; [by rewrite Hc|done].
Qed.

Lemma depicts_all B bytes c d d' :
  decoder_ok d → depicts B c d → put_all bytes d = (Ok tt, d') →
  (∀ n, B (background (fed (take n bytes) d))) → depicts B (strokes bytes d c) d'.
Proof.
  revert c d. induction bytes as [|b bytes IH]; intros c d Hok Hd Hput HB; [by injection Hput as <-|].
  apply put_all_cons in Hput as (d1 & H1 & H2). cbn [strokes]. rewrite H1. cbn [snd].
  assert (fed [b] d = d1) as E by (simpl; by rewrite H1). apply IH; [|eapply depicts_put; [done|exact Hd|done|]|done|].
  - rewrite <-E. by apply fed_ok.
  - specialize (HB 1%nat). cbn [take] in HB. rewrite take_0, E in HB. done.
  - intros n. specialize (HB (S n)). simpl in HB. by rewrite H1 in HB.
Qed.

(** C36. The decoded picture: when every byte of a sixel stream is accepted and
    the image finished, the four bytes at each of its positions are the
    little-endian bytes of the color last painted there by the stream's
    strokes, or of a background the decoder had (zero in a transparent image)
    where nothing was painted; a transparent image ends exactly at the lowest
    row painted, and no position outside the image was painted. *)
Theorem sixel_picture p1 p2 l size w h initial bytes d i :
  limits_typed l →
  let d0 := SixelDecoder_new p1 p2 l size w h initial in
  let picture := strokes bytes d0 blank in
  put_all bytes d0 = (Ok tt, d) → finish d = Ok i →
  (∀ x y, 0 ≤ x < image_width i → 0 ≤ y < image_height i →
     match picture x y with
     | Some c => bytes_at i x y = to_le_bytes c
     | None => if p2 =? 1 then bytes_at i x y = [0; 0; 0; 0]
               else ∃ n, bytes_at i x y = to_le_bytes (background (fed (take n bytes) d0))
     end) ∧
  (∀ x y, is_Some (picture x y) → 0 ≤ x < image_width i ∧ 0 ≤ y < image_height i) ∧
  (p2 = 1 → ∃ x, is_Some (picture x (image_height i - 1))).
Proof.
  cbv zeta. intros Hl Hput Hfin. set (d0 := SixelDecoder_new p1 p2 l size w h initial) in *.
  pose proof (new_ok p1 p2 l size w h initial Hl) as Hok0. fold d0 in Hok0.
  set (B := λ v, ∃ n, v = background (fed (take n bytes) d0)).
  destruct (depicts_all B bytes blank d0 d) as [D1 D2 D3]; [done| |done|by intros n; exists n|].
  { split; [by intros x y []|by left|]. intros x y [Hx _]. simpl in Hx. lia. }
  pose proof (put_all_fed _ _ _ Hput) as Hfed. pose proof (fed_ok bytes d0 Hok0) as Hok. rewrite Hfed in Hok.
  pose proof (finish_spec d Hok) as Hf. rewrite Hfin in Hf. destruct Hf as [_ Fw Fh [Fp Fn] _ _ _ Fx].
  pose proof (fed_transparent bytes d0 Hok0) as Ht. rewrite Hfed in Ht. change (transparent d0) with (p2 =? 1) in Ht.
  rewrite Ht in Fh. split_and!.
  - intros x y Hx Hy. destruct (Fx x y Hx Hy) as (v & Hv & Hb). destruct (D3 x y) as (v' & Hv' & Hc).
    { unfold inside. lia. }
    rewrite Hv in Hv'. injection Hv' as <-. rewrite Hb. destruct (strokes bytes d0 blank x y); [by rewrite Hc|].
    destruct Hc as [n ->]. destruct (p2 =? 1) eqn:Hp2; [|by exists n].
    unfold background. rewrite fed_transparent by done. change (transparent d0) with (p2 =? 1). by rewrite Hp2.
  - intros x y [[Hx Hy] Hlow]%D1. rewrite Fw, Fh. split; [done|]. destruct (p2 =? 1); lia.
  - intros ->. simpl in Fh. rewrite Fh. destruct D2 as [?|?]; [lia|done].
Qed.

(** C37. The decoder's bounds: whatever bytes a new decoder is fed, accepted or
    not, its raster stays within the pixel and byte limits and the maximal
    dimensions, no further byte and no [finish] panics, and a finished image
    has four bytes per position, at most 64 bytes per input byte, and the
    cursor row of a [u32]. *)
Theorem sixel_bounded p1 p2 l size w h initial bytes :
  limits_typed l → is_u32 w → is_u32 h →
  let d := fed bytes (SixelDecoder_new p1 p2 l size w h initial) in
  Z.of_nat (length (pixels d)) = width d * height d ∧
  Z.of_nat (length (pixels d)) ≤ maximum_pixels l ∧ 4 * Z.of_nat (length (pixels d)) ≤ bytes_per_content l ∧
  pixel_writes d ≤ MAX_SIXEL_PIXEL_WRITES ∧
  (∀ byte, fst (put_byte byte d) ≠ Panic) ∧
  match finish d with
  | Ok i => 0 < image_width i ≤ Z.min w (maximum_dimension l) ∧ 0 < image_height i ≤ Z.min h (maximum_dimension l) ∧
      Z.of_nat (length (image_pixels i)) = 4 * (image_width i * image_height i) ∧
      Z.of_nat (length (image_pixels i)) ≤ MAX_SIXEL_EXPANSION_RATIO * Z.of_nat (length bytes) ∧
      is_u32 (cursor_pixel_row i)
  | Err _ => True
  | Panic => False
  end.
Proof.
  intros Hl Hw Hh. cbv zeta. set (d0 := SixelDecoder_new _ _ _ _ _ _ _).
  assert (decoder_ok d0) as Hok0 by by apply new_ok. pose proof (fed_ok bytes d0 Hok0) as Hok.
  pose proof (fed_input bytes d0 Hok0) as Hin. pose proof (fed_limits bytes d0 Hok0) as (E1 & E2 & E3).
  set (d := fed bytes d0) in *. pose proof Hok as [[[L1 L2 L3 L4] R1 R2 R3 R4 R5 R6 R7 R8] []].
  pose proof (finish_spec d Hok) as Hf. rewrite E1, E2, E3 in *. simpl in *. destruct Hl as [[Hd1 Hd2] _ _].
  unfold is_u32 in *. split_and!; try lia.
  - intros byte Hp. pose proof (put_byte_spec byte d Hok) as Hs. unfold wp in Hs. rewrite Hp in Hs.
    by destruct Hs as (_ & _ & _ & _ & _ & _ & []).
  - destruct (finish d) as [i|e|]; [|done|done]. destruct Hf as [_ Fw Fh [Fp Fn] Fl Fr Fc _].
    unfold MAX_SIXEL_EXPANSION_RATIO in *. split_and!; lia.
Qed.

(** Errors stay: once a byte is refused, every later byte is refused with
    the same error and changes nothing, and unless the input limit was what
    refused it, [finish] reports that error too. *)
Theorem sixel_error_sticks byte d e d' more :
  put_byte byte d = (Err e, d') →
  put_byte more d' = (Err e, d') ∧ (e = InputLimit ∨ finish d' = Err e).
Proof.
  unfold put_byte at 1. unfold bind at 1, get at 1. destruct (failed d) as [k|] eqn:Hf.
  - intros [= <- <-]. unfold put_byte, bind, get, finish. rewrite Hf. by split; [|right].
  - destruct (_ ≫= _) as [total|] eqn:Ht; unfold ok_or, bind.
    + unfold modify, remember_failure. cbn. set (d1 := set_input_bytes total d).
      destruct (_ d1) as [[[]|k|] d2]; intros [= <- <-]. by split; [|right].
    + intros [= <- <-]. split; [|by left]. unfold put_byte, bind, get. rewrite Hf, Ht. done.
Qed.

(** ** The fixtures of the code's tests *)

Definition default_limits : ImageLimits :=
  {| bytes_per_content := 16 * 1024 * 1024; bytes_per_terminal := 32 * 1024 * 1024;
     contents_per_terminal := 64; placements_per_terminal := 256; maximum_dimension := 4096;
     maximum_pixels := 4194304 |}.

Definition decode (input : list Z) (p1 p2 : Z) : option SixelImage :=
  match put_all input (SixelDecoder_new p1 p2 default_limits 1024 4096 4096 []) with
  | (Ok _, d) => match finish d with Ok i => Some i | _ => None end
  | _ => None
  end.

Definition solid (n : nat) (pixel : list Z) : list Z := concat (replicate n pixel).

(** One green pixel. *)
Example transparent_fixture :
  (λ i, (image_width i, image_height i, opaque i, image_pixels i)) <$>
    decode ([34] ++ lit "1;1;1;1#2;2;0;100;0#2@") 7 1 = Some (1, 1, false, [0; 255; 0; 255]).
Proof. vm_compute. reflexivity. Qed.

Example overlap_fixture :
  (λ i, (image_width i, image_height i, image_pixels i)) <$>
    decode ([34] ++ lit "1;1;2;12#1;2;100;0;0#1~~$#2;2;0;100;0#2@@-#3;2;0;0;100#3~~") 7 0 =
  Some (2, 12, solid 2 [0; 255; 0; 255] ++ solid 10 [0; 0; 255; 255] ++ solid 12 [255; 0; 0; 255]).
Proof. vm_compute. reflexivity. Qed.

Example hls_fixture :
  image_pixels <$> decode ([34] ++ lit "1;1;1;6#1;1;120;50;100#1~") 7 0 = Some (solid 6 [0; 0; 255; 255]).
Proof. vm_compute. reflexivity. Qed.

Example expansion_fixture :
  let '(r, d) := put_all (lit "!100~") (SixelDecoder_new 7 0 default_limits 1024 4096 4096 []) in
  r = Ok tt ∧ finish d = Err ExpansionRatio.
Proof. vm_compute. split; reflexivity. Qed.

(** ** Witnesses *)

Lemma default_typed : limits_typed default_limits.
Proof. split; vm_compute; split; discriminate. Qed.

(** A green pixel in a transparent image. *)
Definition green : list Z := [34] ++ lit "1;1;2;1#2;2;0;100;0#2?@".
Definition green_start : SixelDecoder := SixelDecoder_new 7 1 default_limits 1024 4096 4096 [].
Definition green_end : SixelDecoder := snd (put_all green green_start).
Definition green_image : SixelImage :=
  {| image_width := 2; image_height := 1; image_pixels := [0; 0; 0; 0; 0; 255; 0; 255]; opaque := false;
     cursor_pixel_row := 1; image_palette := palette green_end |}.

Lemma sixel_picture_witness :
  finish green_end = Ok green_image ∧
  strokes green green_start blank 1 0 = Some 0xff00ff00 ∧ strokes green green_start blank 0 0 = None ∧
  bytes_at green_image 1 0 = to_le_bytes 0xff00ff00 ∧ bytes_at green_image 0 0 = [0; 0; 0; 0].
Proof.
  assert (finish green_end = Ok green_image) as Hf by (vm_compute; reflexivity).
  destruct (sixel_picture 7 1 default_limits 1024 4096 4096 [] green green_end green_image default_typed)
    as [Hp _]; [vm_compute; reflexivity|exact Hf|].
  assert (strokes green green_start blank 1 0 = Some 0xff00ff00) as H1 by (vm_compute; reflexivity).
  assert (strokes green green_start blank 0 0 = None) as H2 by (vm_compute; reflexivity).
  split; [exact Hf|]. split; [exact H1|]. split; [exact H2|]. split.
  - specialize (Hp 1 0 ltac:(simpl; lia) ltac:(simpl; lia)). unfold green_start in H1. rewrite H1 in Hp. exact Hp.
  - specialize (Hp 0 0 ltac:(simpl; lia) ltac:(simpl; lia)). unfold green_start in H2. rewrite H2 in Hp. exact Hp.
Defined.

Lemma sixel_bounded_witness :
  let d := fed (green ++ [0]) green_start in
  4 * Z.of_nat (length (pixels d)) ≤ bytes_per_content default_limits.
Proof.
  destruct (sixel_bounded 7 1 default_limits 1024 4096 4096 [] (green ++ [0]) default_typed) as (_ & _ & Hb & _);
    [split; vm_compute; discriminate..|]. exact Hb.
Defined.

Lemma sixel_error_sticks_witness :
  let d := snd (put_byte 0 green_end) in put_byte 64 d = (Err Malformed, d).
Proof. apply (sixel_error_sticks 0 green_end Malformed _ 64). vm_compute. reflexivity. Defined.
