(* ===== verification/Images.v ===== *)
(** * The image plane ([splinterm-terminal/src/image.rs])

    Images decoded by a terminal and where they are placed on its two screens,
    within the limits of the terminal and a byte budget that all terminals of
    the daemon share. A reservation of bytes is a reference-counted lease: a
    copy of a plane holds the same leases, and the last holder to drop one gives
    its bytes back. The leases live in a heap beside the budget, and dropping a
    plane is an explicit step where the code does it implicitly. *)

From S2P Require Import Prelude RustStd Update Sixel.

#[local] Open Scope Z_scope.

#[global] Instance ActiveScreen_eq_dec : EqDecision ActiveScreen.
Proof. solve_decision. Defined.

Inductive ImageSourceFormat := SixelFormat | KittyRgb | KittyRgba | KittyPng | Iterm2.

Inductive ImageAlphaMode := Opaque | Premultiplied.

Inductive ImageRetention := WhilePlaced | RetentionExplicitDelete.

Inductive ImageErasePolicy := TextOverwrite | ExplicitDelete.

#[global] Instance ImageRetention_eq_dec : EqDecision ImageRetention.
Proof. solve_decision. Defined.

#[global] Instance ImageErasePolicy_eq_dec : EqDecision ImageErasePolicy.
Proof. solve_decision. Defined.

Record PixelRect := { rect_x : Z; rect_y : Z; rect_width : Z; rect_height : Z }.

Record CellExtent := { extent_columns : Z; extent_rows : Z }.

Record PixelSize := { size_width : Z; size_height : Z }.

#[global] Instance PixelSize_eq_dec : EqDecision PixelSize.
Proof. solve_decision. Defined.

Record ImageContentMetadata := {
  metadata_id : Z;
  generation : Z;
  content_width : Z;
  content_height : Z;
  source_format : ImageSourceFormat;
  alpha_mode : ImageAlphaMode;
  digest : list Z;
  byte_charge : Z;
  retention : ImageRetention;
}.

Record ImageContent := { metadata : ImageContentMetadata; content_pixels : list Z }.

Record ImagePlacement := {
  placement_id : Z;
  content_id : Z;
  placement_screen : ActiveScreen;
  row_id : Z;
  placement_column : Z;
  source : PixelRect;
  destination : CellExtent;
  source_cell_size : option PixelSize;
  x_offset : Z;
  y_offset : Z;
  z_index : Z;
  application_image_id : option Z;
  application_placement_id : option Z;
  creation_order : Z;
  erase_policy : ImageErasePolicy;
}.

Record NewImageContent := {
  new_width : Z;
  new_height : Z;
  new_source_format : ImageSourceFormat;
  new_alpha_mode : ImageAlphaMode;
  new_pixels : list Z;
  new_retention : ImageRetention;
}.

Record PreparedSixel := {
  prepared_width : Z;
  prepared_height : Z;
  prepared_alpha_mode : ImageAlphaMode;
  prepared_pixels : list Z;
}.

Record NewImagePlacementOptions := {
  option_column : Z;
  option_source : PixelRect;
  option_destination : CellExtent;
  option_source_cell_size : option PixelSize;
  option_x_offset : Z;
  option_y_offset : Z;
  option_z_index : Z;
  option_application_image_id : option Z;
  option_application_placement_id : option Z;
  option_erase_policy : ImageErasePolicy;
}.

Record NewImagePlacement := {
  new_content_id : Z;
  new_row_id : Z;
  new_column : Z;
  new_source : PixelRect;
  new_destination : CellExtent;
  new_source_cell_size : option PixelSize;
  new_x_offset : Z;
  new_y_offset : Z;
  new_z_index : Z;
  new_application_image_id : option Z;
  new_application_placement_id : option Z;
  new_erase_policy : ImageErasePolicy;
}.

(** [NewImagePlacementOptions::bind]. *)
Definition bind_options (o : NewImagePlacementOptions) (content row : Z) : NewImagePlacement := {|
  new_content_id := content; new_row_id := row; new_column := option_column o; new_source := option_source o;
  new_destination := option_destination o; new_source_cell_size := option_source_cell_size o;
  new_x_offset := option_x_offset o; new_y_offset := option_y_offset o; new_z_index := option_z_index o;
  new_application_image_id := option_application_image_id o;
  new_application_placement_id := option_application_placement_id o;
  new_erase_policy := option_erase_policy o |}.

(** [ImageLimits::default]. *)
Definition ImageLimits_default : ImageLimits :=
  {| bytes_per_content := 16 * 1024 * 1024; bytes_per_terminal := 32 * 1024 * 1024;
     contents_per_terminal := 64; placements_per_terminal := 256; maximum_dimension := 4096;
     maximum_pixels := 4194304 |}.

Record ImageMetrics := {
  content_bytes : Z;
  content_count : Z;
  placement_count : Z;
  high_water_content_bytes : Z;
  high_water_content_count : Z;
  high_water_placement_count : Z;
}.

#[global] Instance ImageMetrics_eq_dec : EqDecision ImageMetrics.
Proof. solve_decision. Defined.

Inductive ImageError :=
| ImageDimensions
| PixelLength
| ContentBytes
| TerminalBytes
| DaemonBytes
| ContentCount
| PlacementCount
| UnknownContent
| UnknownPlacement
| InvalidAnchor
| InvalidCrop
| InvalidDestination
| IdentityExhausted.

(** Reservations name leases of the heap. *)
Record ImageCatalog := {
  contents : btree ImageContent;
  reservations : btree Z;
  placements : btree ImagePlacement;
}.

(** [shared_budget] says whether the plane was given the daemon's budget. *)
Record ImagePlane := {
  normal : ImageCatalog;
  alternate : ImageCatalog;
  plane_limits : ImageLimits;
  shared_budget : bool;
  metrics : ImageMetrics;
  next_content_id : Z;
  next_placement_id : Z;
  next_generation : Z;
  next_creation_order : Z;
}.

(** [ImageBudgetLease], with the number of its holders. *)
Record Lease := { lease_bytes : Z; holders : nat }.

(** [SharedImageBudgetInner], with the heap of its leases. *)
Record SharedImageBudget := {
  budget_limit : Z;
  budget_bytes : Z;
  budget_high_water : Z;
  leases : gmap Z Lease;
  next_lease : Z;
}.

(** A plane and the budget it uses. *)
Record Store := { this : ImagePlane; budget : SharedImageBudget }.

(** ** Updates *)

Definition eta_catalog (c : ImageCatalog) : ImageCatalog :=
  {| contents := contents c; reservations := reservations c; placements := placements c |}.

Definition set_contents v (c : ImageCatalog) : ImageCatalog := ltac:(update_field eta_catalog c contents v).
Definition set_reservations v (c : ImageCatalog) : ImageCatalog := ltac:(update_field eta_catalog c reservations v).
Definition set_placements v (c : ImageCatalog) : ImageCatalog := ltac:(update_field eta_catalog c placements v).

Definition eta_metrics (m : ImageMetrics) : ImageMetrics := {|
  content_bytes := content_bytes m; content_count := content_count m; placement_count := placement_count m;
  high_water_content_bytes := high_water_content_bytes m; high_water_content_count := high_water_content_count m;
  high_water_placement_count := high_water_placement_count m |}.

Definition set_content_bytes v (m : ImageMetrics) : ImageMetrics := ltac:(update_field eta_metrics m content_bytes v).
Definition set_content_count v (m : ImageMetrics) : ImageMetrics := ltac:(update_field eta_metrics m content_count v).
Definition set_placement_count v (m : ImageMetrics) : ImageMetrics :=
  ltac:(update_field eta_metrics m placement_count v).

Definition eta_plane (p : ImagePlane) : ImagePlane := {|
  normal := normal p; alternate := alternate p; plane_limits := plane_limits p; shared_budget := shared_budget p;
  metrics := metrics p; next_content_id := next_content_id p; next_placement_id := next_placement_id p;
  next_generation := next_generation p; next_creation_order := next_creation_order p |}.

Definition set_normal v (p : ImagePlane) : ImagePlane := ltac:(update_field eta_plane p normal v).
Definition set_alternate v (p : ImagePlane) : ImagePlane := ltac:(update_field eta_plane p alternate v).
Definition set_metrics v (p : ImagePlane) : ImagePlane := ltac:(update_field eta_plane p metrics v).
Definition set_next_content_id v (p : ImagePlane) : ImagePlane := ltac:(update_field eta_plane p next_content_id v).
Definition set_next_placement_id v (p : ImagePlane) : ImagePlane :=
  ltac:(update_field eta_plane p next_placement_id v).
Definition set_next_generation v (p : ImagePlane) : ImagePlane := ltac:(update_field eta_plane p next_generation v).
Definition set_next_creation_order v (p : ImagePlane) : ImagePlane :=
  ltac:(update_field eta_plane p next_creation_order v).

Definition catalog (s : ActiveScreen) (p : ImagePlane) : ImageCatalog :=
  match s with Normal => normal p | Alternate => alternate p end.

(** [catalog_mut]. *)
Definition update_catalog (s : ActiveScreen) (f : ImageCatalog → ImageCatalog) (p : ImagePlane) : ImagePlane :=
  match s with
  | Normal => set_normal (f (normal p)) p
  | Alternate => set_alternate (f (alternate p)) p
  end.

Abbreviation I := (M Store ImageError) (only parsing).

Definition plane_get : I ImagePlane := let! s := get in ret (this s).
Definition plane_set (p : ImagePlane) : I unit := modify (λ s, {| this := p; budget := budget s |}).
Definition on_plane (f : ImagePlane → ImagePlane) : I unit :=
  modify (λ s, {| this := f (this s); budget := budget s |}).
Definition on_catalog (s : ActiveScreen) (f : ImageCatalog → ImageCatalog) : I unit := on_plane (update_catalog s f).
Definition budget_set (b : SharedImageBudget) : I unit := modify (λ s, {| this := this s; budget := b |}).

(** Unchecked [+=] and [-=] on a [usize]. *)
Definition add_usize (a b : Z) : I Z := do! assert_ (a + b <=? usize_max) in ret (a + b).
Definition sub_usize (a b : Z) : I Z := do! assert_ (b <=? a) in ret (a - b).

(** A call whose error is matched on. *)
Definition attempt {A} (m : I A) : I (outcome ImageError A) := λ s,
  match m s with
  | (Panic, s') => (Panic, s')
  | (r, s') => (Ok r, s')
  end.

(** ** The shared budget *)

(** [SharedImageBudget::new]. *)
Definition SharedImageBudget_new (limit : Z) : SharedImageBudget :=
  {| budget_limit := limit; budget_bytes := 0; budget_high_water := 0; leases := ∅; next_lease := 0 |}.

(** The budget after its bytes changed to [bytes]. *)
Definition set_budget (bytes : Z) (l : gmap Z Lease) (b : SharedImageBudget) : SharedImageBudget :=
  {| budget_limit := budget_limit b; budget_bytes := bytes;
     budget_high_water := Z.max (budget_high_water b) bytes; leases := l; next_lease := next_lease b |}.

(** The bytes with [more] reserved, the loop around [compare_exchange_weak]
    being one atomic step. *)
Definition admitted (more : Z) (b : SharedImageBudget) : option Z :=
  next ← within usize_max (budget_bytes b + more); within (budget_limit b) next.

(** [SharedImageBudget::reserve]: a new lease with one holder. *)
Definition reserve (bytes : Z) : I Z :=
  let! s := get in
  let b := budget s in
  let! next := ok_or (admitted bytes b) DaemonBytes in
  let l := next_lease b in
  let b := set_budget next (<[l := {| lease_bytes := bytes; holders := 1 |}]> (leases b)) b in
  do! budget_set {| budget_limit := budget_limit b; budget_bytes := budget_bytes b;
                    budget_high_water := budget_high_water b; leases := leases b; next_lease := l + 1 |} in
  ret l.

(** [Arc::clone] of a lease. *)
Definition retain (l : Z) : I unit :=
  let! s := get in
  let b := budget s in
  let! lease := expect (leases b !! l) in
  budget_set (set_budget (budget_bytes b)
    (<[l := {| lease_bytes := lease_bytes lease; holders := S (holders lease) |}]> (leases b)) b).

(** A holder of a lease drops it; the last one runs [ImageBudgetLease::drop]. *)
Definition release (l : Z) : I unit :=
  let! s := get in
  let b := budget s in
  let! lease := expect (leases b !! l) in
  match holders lease with
  | S (S n) =>
      budget_set (set_budget (budget_bytes b)
        (<[l := {| lease_bytes := lease_bytes lease; holders := S n |}]> (leases b)) b)
  | _ =>
      do! assert_ (lease_bytes lease <=? budget_bytes b) in
      budget_set (set_budget (budget_bytes b - lease_bytes lease) (delete l (leases b)) b)
  end.

(** [ImageBudgetReservation::resize]. *)
Definition resize_lease (l bytes : Z) : I unit :=
  let! s := get in
  let b := budget s in
  let! lease := expect (leases b !! l) in
  let old := lease_bytes lease in
  let resized := <[l := {| lease_bytes := bytes; holders := holders lease |}]> (leases b) in
  if old <? bytes then
    let! next := ok_or (admitted (bytes - old) b) DaemonBytes in
    budget_set (set_budget next resized b)
  else if bytes <? old then
    do! assert_ (old - bytes <=? budget_bytes b) in
    budget_set (set_budget (budget_bytes b - (old - bytes)) resized b)
  else ret tt.

(** The leases a plane holds. *)
Definition held (p : ImagePlane) : list Z :=
  bt_values (reservations (normal p)) ++ bt_values (reservations (alternate p)).

(** [ImagePlane::clone] and the drop of a plane. *)
Definition clone_plane (p : ImagePlane) : I unit := for_each (held p) retain.
Definition drop_plane (p : ImagePlane) : I unit := for_each (held p) release.

(** ** Validation *)

Definition validate_content_geometry (l : ImageLimits) (w h : Z) : outcome ImageError Z :=
  if (w =? 0) || (h =? 0) || (maximum_dimension l <? w) || (maximum_dimension l <? h) then Err ImageDimensions
  else
    match (count ← within usize_max (w * h); within (maximum_pixels l) count) with
    | None => Err ImageDimensions
    | Some pixels =>
        match within usize_max (pixels * 4) with
        | None => Err PixelLength
        | Some expected => if bytes_per_content l <? expected then Err ContentBytes else Ok expected
        end
    end.

Definition validate_content (l : ImageLimits) (input : NewImageContent) : outcome ImageError Z :=
  let? expected := validate_content_geometry l (new_width input) (new_height input) in
  if negb (Z.of_nat (length (new_pixels input)) =? expected) then Err PixelLength else Ok expected.

Definition validate_crop (crop : PixelRect) (w h : Z) : outcome ImageError unit :=
  let outside start extent limit :=
    match within u32_max (start + extent) with None => true | Some stop => limit <? stop end in
  if (rect_width crop =? 0) || (rect_height crop =? 0) || outside (rect_x crop) (rect_width crop) w ||
     outside (rect_y crop) (rect_height crop) h
  then Err InvalidCrop else Ok tt.

Definition validate_source_cell_size (size : option PixelSize) : outcome ImageError unit :=
  match size with
  | Some size => if (size_width size =? 0) || (size_height size =? 0) then Err InvalidDestination else Ok tt
  | None => Ok tt
  end.

Definition validate_sixel_source_cell_size (src : PixelRect) (dst : CellExtent) (size : option PixelSize)
    : outcome ImageError unit :=
  match size with
  | None => Ok tt
  | Some size =>
      let narrow o := match o with Some v => Ok v | None => Err InvalidDestination end in
      if (size_width size =? 0) || (size_height size =? 0) then Err InvalidDestination
      else
        let? columns := narrow (within u32_max (extent_columns dst)) in
        let? rows := narrow (within u32_max (extent_rows dst)) in
        let? maximum_width := narrow (within u32_max (columns * size_width size)) in
        let? maximum_height := narrow (within u32_max (rows * size_height size)) in
        let? minimum_width := narrow (within u32_max (saturating_sub columns 1 * size_width size)) in
        let? minimum_height := narrow (within u32_max (saturating_sub rows 1 * size_height size)) in
        if (maximum_width <? rect_width src) || (maximum_height <? rect_height src) ||
           (rect_width src <=? minimum_width) || (rect_height src <=? minimum_height)
        then Err InvalidDestination else Ok tt
  end.

(** ** Contents and placements *)

Section plane.
(** SHA-256 of the sha2 crate. *)
Context (sha256 : list Z → list Z).

Definition ImagePlane_new (l : ImageLimits) (shared : bool) : ImagePlane := {|
  normal := {| contents := []; reservations := []; placements := [] |};
  alternate := {| contents := []; reservations := []; placements := [] |};
  plane_limits := l; shared_budget := shared;
  metrics := {| content_bytes := 0; content_count := 0; placement_count := 0; high_water_content_bytes := 0;
                high_water_content_count := 0; high_water_placement_count := 0 |};
  next_content_id := 1; next_placement_id := 1; next_generation := 1; next_creation_order := 1 |}.

Definition update_high_water : I unit := on_plane (λ p,
  let m := metrics p in
  set_metrics {| content_bytes := content_bytes m; content_count := content_count m;
                 placement_count := placement_count m;
                 high_water_content_bytes := Z.max (high_water_content_bytes m) (content_bytes m);
                 high_water_content_count := Z.max (high_water_content_count m) (content_count m);
                 high_water_placement_count := Z.max (high_water_placement_count m) (placement_count m) |} p).

Definition has_placements (s : ActiveScreen) (p : ImagePlane) : bool :=
  negb (bool_decide (placements (catalog s p) = [])).

(** The loop body that removes a placement, without reclaiming its content. *)
Definition take_placement (s : ActiveScreen) (id : Z) : I unit :=
  do! on_catalog s (λ c, set_placements (bt_remove (placements c) id) c) in
  let! p := plane_get in
  let! count := sub_usize (placement_count (metrics p)) 1 in
  on_plane (set_metrics (set_placement_count count (metrics p))).

Definition remove_content_only (s : ActiveScreen) (id : Z) : I unit :=
  let! p := plane_get in
  let! content := ok_or (bt_get (contents (catalog s p)) id) UnknownContent in
  do! on_catalog s (λ c, set_contents (bt_remove (contents c) id) c) in
  let reservation := bt_get (reservations (catalog s p)) id in
  do! on_catalog s (λ c, set_reservations (bt_remove (reservations c) id) c) in
  do! assert_ (Bool.eqb (bool_decide (is_Some reservation)) (shared_budget p)) in
  let! bytes := sub_usize (content_bytes (metrics p)) (byte_charge (metadata content)) in
  let! count := sub_usize (content_count (metrics p)) 1 in
  do! on_plane (set_metrics (set_content_count count (set_content_bytes bytes (metrics p)))) in
  match reservation with Some l => release l | None => ret tt end.

(** [result.expect(..)]. *)
Definition expect_ok {A} (m : I A) : I A :=
  let! r := attempt m in
  match r with Ok a => ret a | _ => panic end.

(** The contents [reclaim_unplaced_while_placed] removes from a screen. *)
Definition reclaimable (c : ImageCatalog) : list Z :=
  let referenced := content_id <$> bt_values (placements c) in
  (λ content, metadata_id (metadata content)) <$>
    List.filter (λ content, bool_decide (retention (metadata content) = WhilePlaced) &&
                            negb (bool_decide (metadata_id (metadata content) ∈ referenced)))
      (bt_values (contents c)).

Definition reclaim_unplaced_while_placed : I unit :=
  for_each [Normal; Alternate] (λ s,
    let! p := plane_get in
    for_each (reclaimable (catalog s p)) (λ id, expect_ok (remove_content_only s id))).

(** The bytes with a content of [more] admitted by the terminal. *)
Definition terminal_bytes (more : Z) (p : ImagePlane) : option Z :=
  next ← within usize_max (content_bytes (metrics p) + more); within (bytes_per_terminal (plane_limits p)) next.

Definition new_content (id gen charge : Z) (input : NewImageContent) : ImageContent := {|
  metadata := {| metadata_id := id; generation := gen; content_width := new_width input;
                 content_height := new_height input; source_format := new_source_format input;
                 alpha_mode := new_alpha_mode input; digest := sha256 (new_pixels input);
                 byte_charge := charge; retention := new_retention input |};
  content_pixels := new_pixels input |}.

(** [ImageContentId::new] and [ImagePlacementId::new]. *)
Definition identity (value : Z) : option Z := if value =? 0 then None else Some value.

Definition insert_content (s : ActiveScreen) (input : NewImageContent) : I Z :=
  let! p := plane_get in
  let! expected := lift (validate_content (plane_limits p) input) in
  do! reclaim_unplaced_while_placed in
  let! p := plane_get in
  do! reject_if (contents_per_terminal (plane_limits p) <=? content_count (metrics p)) ContentCount in
  let! next_bytes := ok_or (terminal_bytes expected p) TerminalBytes in
  let! id := ok_or (identity (next_content_id p)) IdentityExhausted in
  let! next_content_id := ok_or (within u64_max (next_content_id p + 1)) IdentityExhausted in
  let gen := next_generation p in
  let! next_generation := ok_or (within u64_max (gen + 1)) IdentityExhausted in
  let! reservation := (if shared_budget p then let! l := reserve expected in ret (Some l) else ret None) in
  do! on_plane (set_next_content_id next_content_id) in
  do! on_plane (set_next_generation next_generation) in
  let content := new_content id gen expected input in
  do! assert_ (negb (bt_contains (contents (catalog s p)) id)) in
  do! on_catalog s (λ c, set_contents (bt_insert (contents c) id content) c) in
  do! match reservation with
      | Some l =>
          do! assert_ (negb (bt_contains (reservations (catalog s p)) id)) in
          on_catalog s (λ c, set_reservations (bt_insert (reservations c) id l) c)
      | None => ret tt
      end in
  let! count := add_usize (content_count (metrics p)) 1 in
  do! on_plane (set_metrics (set_content_count count (set_content_bytes next_bytes (metrics p)))) in
  do! update_high_water in
  ret id.

(** The placements of a content. *)
Definition placements_of (content : Z) (c : ImageCatalog) : list Z :=
  placement_id <$> List.filter (λ pl, content_id pl =? content) (bt_values (placements c)).

(** The bytes with a content of [charge] replaced by one of [expected]. *)
Definition replaced_bytes (charge expected : Z) (p : ImagePlane) : option Z :=
  bytes ← (if charge <=? content_bytes (metrics p) then Some (content_bytes (metrics p) - charge) else None);
  next ← within usize_max (bytes + expected);
  within (bytes_per_terminal (plane_limits p)) next.

Definition replace_content (s : ActiveScreen) (id : Z) (input : NewImageContent) : I Z :=
  let! p := plane_get in
  let! expected := lift (validate_content (plane_limits p) input) in
  let! previous := ok_or (bt_get (contents (catalog s p)) id) UnknownContent in
  let! next_bytes := ok_or (replaced_bytes (byte_charge (metadata previous)) expected p) TerminalBytes in
  let gen := next_generation p in
  let! next_generation := ok_or (within u64_max (gen + 1)) IdentityExhausted in
  do! match bt_get (reservations (catalog s p)) id with Some l => resize_lease l expected | None => ret tt end in
  let placement_ids := placements_of id (catalog s p) in
  let content := new_content id gen expected input in
  do! on_plane (set_next_generation next_generation) in
  do! on_plane (λ p, set_metrics (set_content_bytes next_bytes (metrics p)) p) in
  do! for_each placement_ids (take_placement s) in
  do! on_catalog s (λ c, set_contents (bt_insert (contents c) id content) c) in
  ret id.

(** The checks of an anchor and a destination. *)
Definition validate_placement (row : Z) (dst : CellExtent) : outcome ImageError unit :=
  if row =? 0 then Err InvalidAnchor
  else if (extent_columns dst =? 0) || (extent_rows dst =? 0) then Err InvalidDestination else Ok tt.

Definition insert_placement (s : ActiveScreen) (input : NewImagePlacement) : I Z :=
  do! lift (validate_placement (new_row_id input) (new_destination input)) in
  let! p := plane_get in
  let! content := ok_or (bt_get (contents (catalog s p)) (new_content_id input)) UnknownContent in
  do! lift (validate_crop (new_source input) (content_width (metadata content)) (content_height (metadata content))) in
  do! lift (validate_source_cell_size (new_source_cell_size input)) in
  do! reject_if (placements_per_terminal (plane_limits p) <=? placement_count (metrics p)) PlacementCount in
  let! id := ok_or (identity (next_placement_id p)) IdentityExhausted in
  let! next_placement_id := ok_or (within u64_max (next_placement_id p + 1)) IdentityExhausted in
  let order := next_creation_order p in
  let! next_creation_order := ok_or (within u64_max (order + 1)) IdentityExhausted in
  do! on_plane (set_next_placement_id next_placement_id) in
  do! on_plane (set_next_creation_order next_creation_order) in
  let placement := {|
    placement_id := id; content_id := new_content_id input; placement_screen := s; row_id := new_row_id input;
    placement_column := new_column input; source := new_source input; destination := new_destination input;
    source_cell_size := new_source_cell_size input; x_offset := new_x_offset input; y_offset := new_y_offset input;
    z_index := new_z_index input; application_image_id := new_application_image_id input;
    application_placement_id := new_application_placement_id input; creation_order := order;
    erase_policy := new_erase_policy input |} in
  do! on_catalog s (λ c, set_placements (bt_insert (placements c) id placement) c) in
  let! count := add_usize (placement_count (metrics p)) 1 in
  do! on_plane (λ p, set_metrics (set_placement_count count (metrics p)) p) in
  do! update_high_water in
  ret id.

(** Whether a replacement of a content and a placement of it would be admitted. *)
Definition preflight_replacement_placement (s : ActiveScreen) (replaced : Z) (content : NewImageContent)
    (placement : NewImagePlacement) : I unit :=
  let! st := get in
  let p := this st in
  let! expected := lift (validate_content (plane_limits p) content) in
  let! previous := ok_or (bt_get (contents (catalog s p)) replaced) UnknownContent in
  do! ok_or (replaced_bytes (byte_charge (metadata previous)) expected p) TerminalBytes in
  do! lift (validate_placement (new_row_id placement) (new_destination placement)) in
  do! lift (validate_crop (new_source placement) (new_width content) (new_height content)) in
  do! lift (validate_source_cell_size (new_source_cell_size placement)) in
  let removed := Z.of_nat (length (placements_of replaced (catalog s p))) in
  let! final_placements := ok_or (count ← (if removed <=? placement_count (metrics p)
                                           then Some (placement_count (metrics p) - removed) else None);
                                  within usize_max (count + 1)) PlacementCount in
  do! reject_if (placements_per_terminal (plane_limits p) <? final_placements) PlacementCount in
  do! ok_or (_ ← within u64_max (next_generation p + 1);
             _ ← within u64_max (next_placement_id p + 1);
             within u64_max (next_creation_order p + 1)) IdentityExhausted in
  match bt_get (reservations (catalog s p)) replaced with
  | None => ret tt
  | Some l =>
      let! lease := expect (leases (budget st) !! l) in
      if lease_bytes lease <? expected then
        do! ok_or (if shared_budget p then admitted (expected - lease_bytes lease) (budget st) else None) DaemonBytes in
        ret tt
      else ret tt
  end.

Definition insert_content_and_placement (s : ActiveScreen) (content : NewImageContent) (row : Z)
    (placement : NewImagePlacementOptions) : I (Z * Z) :=
  let! p := plane_get in
  do! lift (validate_content (plane_limits p) content) in
  do! lift (validate_placement row (option_destination placement)) in
  do! lift (validate_crop (option_source placement) (new_width content) (new_height content)) in
  do! lift (validate_source_cell_size (option_source_cell_size placement)) in
  do! reject_if (placements_per_terminal (plane_limits p) <=? placement_count (metrics p)) PlacementCount in
  do! ok_or (_ ← within u64_max (next_content_id p + 1);
             _ ← within u64_max (next_generation p + 1);
             _ ← within u64_max (next_placement_id p + 1);
             within u64_max (next_creation_order p + 1)) IdentityExhausted in
  let! id := insert_content s content in
  let! r := attempt (insert_placement s (bind_options placement id row)) in
  match r with
  | Ok placement_id => ret (id, placement_id)
  | Err error =>
      let! rollback := attempt (remove_content_only s id) in
      do! assert_ (is_ok rollback) in
      fail error
  | Panic => panic
  end.

Definition remove_placement (s : ActiveScreen) (id : Z) : I ImagePlacement :=
  let! p := plane_get in
  let! placement := ok_or (bt_get (placements (catalog s p)) id) UnknownPlacement in
  do! take_placement s id in
  do! reclaim_unplaced_while_placed in
  ret placement.

Definition remove_content (s : ActiveScreen) (id : Z) : I unit :=
  let! p := plane_get in
  do! for_each (placements_of id (catalog s p)) (take_placement s) in
  remove_content_only s id.

(** [iter.sum::<usize>()]. *)
Fixpoint sum_usize (total : Z) (l : list Z) : I Z :=
  match l with
  | [] => ret total
  | n :: l => let! total := add_usize total n in sum_usize total l
  end.

Definition clear_screen (s : ActiveScreen) : I unit :=
  let! p := plane_get in
  let c := catalog s p in
  let! bytes := sum_usize 0 ((λ content, byte_charge (metadata content)) <$> bt_values (contents c)) in
  do! on_catalog s (set_contents []) in
  do! on_catalog s (set_reservations []) in
  do! for_each (bt_values (reservations c)) release in
  do! on_catalog s (set_placements []) in
  let! bytes := sub_usize (content_bytes (metrics p)) bytes in
  let! count := sub_usize (content_count (metrics p)) (Z.of_nat (length (contents c))) in
  let! placed := sub_usize (placement_count (metrics p)) (Z.of_nat (length (placements c))) in
  on_plane (set_metrics (set_placement_count placed (set_content_count count (set_content_bytes bytes (metrics p))))).

Definition retain_anchors (s : ActiveScreen) (row_ids : gset Z) : I unit :=
  let! p := plane_get in
  let removed := placement_id <$> List.filter (λ pl, negb (bool_decide (row_id pl ∈ row_ids)))
                                    (bt_values (placements (catalog s p))) in
  do! for_each removed (take_placement s) in
  reclaim_unplaced_while_placed.

Definition set_row_id (row : Z) (pl : ImagePlacement) : ImagePlacement := {|
  placement_id := placement_id pl; content_id := content_id pl; placement_screen := placement_screen pl;
  row_id := row; placement_column := placement_column pl; source := source pl; destination := destination pl;
  source_cell_size := source_cell_size pl; x_offset := x_offset pl; y_offset := y_offset pl; z_index := z_index pl;
  application_image_id := application_image_id pl; application_placement_id := application_placement_id pl;
  creation_order := creation_order pl; erase_policy := erase_policy pl |}.

Definition remap_anchors (s : ActiveScreen) (replacements : btree Z) : I bool :=
  let! p := plane_get in
  let old := placements (catalog s p) in
  do! on_catalog s (set_placements ((λ '(id, pl), (id, match bt_get replacements (row_id pl) with
                                                      | Some replacement => set_row_id replacement pl
                                                      | None => pl
                                                      end)) <$> old)) in
  ret (existsb (λ pl, bt_contains replacements (row_id pl)) (bt_values old)).

Definition remove_text_placements_outside_columns (s : ActiveScreen) (columns : Z) : I bool :=
  let! p := plane_get in
  let removed := placement_id <$> List.filter (λ pl, bool_decide (erase_policy pl = TextOverwrite) &&
                                                      (columns <=? placement_column pl))
                                    (bt_values (placements (catalog s p))) in
  do! for_each removed (take_placement s) in
  do! (if bool_decide (removed = []) then ret tt else reclaim_unplaced_while_placed) in
  ret (negb (bool_decide (removed = []))).

(** ** Overlaps *)

(** [a.saturating_add(b)] on [usize]. *)
Definition saturating_add (a b : Z) : Z := Z.min (a + b) usize_max.

(** The index of each row, the last one where rows repeat. *)
Definition row_positions (row_order : list Z) : btree Z :=
  bt_collect (imap (λ index id, (id, Z.of_nat index)) row_order).

(** The text placements that intersect a rectangle of cells, with the index of
    their rows. *)
Definition text_overlap_targets (s : ActiveScreen) (row_order : list Z)
    (start_row end_row start_column end_column : Z) (p : ImagePlane) : list (ImagePlacement * Z) :=
  if (end_row <=? start_row) || (end_column <=? start_column) then []
  else
    omap (λ pl,
      if negb (bool_decide (erase_policy pl = TextOverwrite)) then None
      else
        anchor_row ← bt_get (row_positions row_order) (row_id pl);
        let placement_end_row := saturating_add anchor_row (extent_rows (destination pl)) in
        let placement_end_column := saturating_add (placement_column pl) (extent_columns (destination pl)) in
        if (anchor_row <? end_row) && (start_row <? placement_end_row) &&
           (placement_column pl <? end_column) && (start_column <? placement_end_column)
        then Some (pl, anchor_row) else None)
      (bt_values (placements (catalog s p))).

Definition ok_or_image {A} (o : option A) (e : ImageError) : outcome ImageError A :=
  match o with Some a => Ok a | None => Err e end.

(** [push_fragment]: the part of a placement [x] columns and [y] rows into it. *)
Definition fragment (pl : ImagePlacement) (size : PixelSize) (anchor_row : Z) (row_order : list Z)
    (x y columns rows : Z) : outcome ImageError (list NewImagePlacement) :=
  if (columns =? 0) || (rows =? 0) then Ok []
  else
    let edge cells extent limit :=
      ok_or_image (cells ← within u32_max cells; edge ← within u32_max (cells * extent); Some (Z.min edge limit))
        InvalidCrop in
    let? pixel_x := edge x (size_width size) (rect_width (source pl)) in
    let? pixel_y := edge y (size_height size) (rect_height (source pl)) in
    let? end_x := ok_or_image (within usize_max (x + columns)) InvalidCrop in
    let? pixel_end_x := edge end_x (size_width size) (rect_width (source pl)) in
    let? end_y := ok_or_image (within usize_max (y + rows)) InvalidCrop in
    let? pixel_end_y := edge end_y (size_height size) (rect_height (source pl)) in
    let? w := (if pixel_x <? pixel_end_x then Ok (pixel_end_x - pixel_x) else Err InvalidCrop) in
    let? h := (if pixel_y <? pixel_end_y then Ok (pixel_end_y - pixel_y) else Err InvalidCrop) in
    let? index := ok_or_image (within usize_max (anchor_row + y)) InvalidAnchor in
    let? row := ok_or_image (row_order !! Z.to_nat index) InvalidAnchor in
    let? column := ok_or_image (within usize_max (placement_column pl + x)) InvalidDestination in
    let? source_x := ok_or_image (within u32_max (rect_x (source pl) + pixel_x)) InvalidCrop in
    let? source_y := ok_or_image (within u32_max (rect_y (source pl) + pixel_y)) InvalidCrop in
    Ok [{| new_content_id := content_id pl; new_row_id := row; new_column := column;
           new_source := {| rect_x := source_x; rect_y := source_y; rect_width := w; rect_height := h |};
           new_destination := {| extent_columns := columns; extent_rows := rows |};
           new_source_cell_size := source_cell_size pl;
           new_x_offset := if x =? 0 then x_offset pl else 0;
           new_y_offset := if y =? 0 then y_offset pl else 0;
           new_z_index := z_index pl; new_application_image_id := application_image_id pl;
           new_application_placement_id := application_placement_id pl; new_erase_policy := erase_policy pl |}].

(** The parts of a placement above, below, left and right of a rectangle of
    cells. *)
Definition placement_fragments (pl : ImagePlacement) (anchor_row : Z) (row_order : list Z)
    (start_row end_row start_column end_column : Z) : outcome ImageError (list NewImagePlacement) :=
  match source_cell_size pl with
  | None => Ok []
  | Some size =>
      if (size_width size =? 0) || (size_height size =? 0) then Err InvalidDestination
      else
        let columns := extent_columns (destination pl) in
        let rows := extent_rows (destination pl) in
        let left := Z.min (saturating_sub start_column (placement_column pl)) columns in
        let right := Z.max (Z.min (saturating_sub end_column (placement_column pl)) columns) left in
        let top := Z.min (saturating_sub start_row anchor_row) rows in
        let bottom := Z.max (Z.min (saturating_sub end_row anchor_row) rows) top in
        let push := fragment pl size anchor_row row_order in
        let? above := push 0 0 columns top in
        let? below := push 0 bottom columns (rows - bottom) in
        let? before := push 0 top left (bottom - top) in
        let? after := push right top (columns - right) (bottom - top) in
        Ok (above ++ below ++ before ++ after)
  end.

Definition split_text_overlaps (s : ActiveScreen) (row_order : list Z)
    (start_row end_row start_column end_column : Z) : I bool :=
  let! p := plane_get in
  let targets := text_overlap_targets s row_order start_row end_row start_column end_column p in
  do! for_each targets (λ '(pl, anchor_row),
        let! fragments := lift (placement_fragments pl anchor_row row_order start_row end_row start_column end_column) in
        do! take_placement s (placement_id pl) in
        for_each fragments (λ fragment, do! insert_placement s fragment in ret tt)) in
  do! (if bool_decide (length targets = 0%nat) then ret tt else reclaim_unplaced_while_placed) in
  ret (negb (bool_decide (length targets = 0%nat))).

Definition remove_text_overlaps_whole (s : ActiveScreen) (row_order : list Z)
    (start_row end_row start_column end_column : Z) : I bool :=
  let! p := plane_get in
  let targets := text_overlap_targets s row_order start_row end_row start_column end_column p in
  do! for_each targets (λ '(pl, _), take_placement s (placement_id pl)) in
  do! (if bool_decide (length targets = 0%nat) then ret tt else reclaim_unplaced_while_placed) in
  ret (negb (bool_decide (length targets = 0%nat))).

(** [*self = candidate]: the plane as it was is dropped. *)
Definition adopt_over (original : ImagePlane) : I unit := drop_plane original.

(** The plane as it was again; the candidate is returned and still held. *)
Definition set_aside (original : ImagePlane) : I ImagePlane :=
  let! candidate := plane_get in
  do! plane_set original in
  ret candidate.

Definition remove_text_overlaps (s : ActiveScreen) (row_order : list Z)
    (start_row end_row start_column end_column : Z) : I bool :=
  let! original := plane_get in
  do! clone_plane original in
  let! r := attempt (split_text_overlaps s row_order start_row end_row start_column end_column) in
  match r with
  | Ok true => do! adopt_over original in ret true
  | Ok false =>
      let! candidate := set_aside original in
      do! drop_plane candidate in
      ret false
  | _ =>
      let! candidate := set_aside original in
      let! changed := remove_text_overlaps_whole s row_order start_row end_row start_column end_column in
      do! drop_plane candidate in
      ret changed
  end.

Definition placements_overlap (a b : ImagePlacement) (positions : btree Z) : bool :=
  match bt_get positions (row_id a), bt_get positions (row_id b) with
  | Some a_row, Some b_row =>
      (a_row <? saturating_add b_row (extent_rows (destination b))) &&
      (b_row <? saturating_add a_row (extent_rows (destination a))) &&
      (placement_column a <? saturating_add (placement_column b) (extent_columns (destination b))) &&
      (placement_column b <? saturating_add (placement_column a) (extent_columns (destination a)))
  | _, _ => false
  end.

Definition resolve_text_overlaps (s : ActiveScreen) (row_order : list Z) : I bool :=
  let positions := row_positions row_order in
  let! original := plane_get in
  let text := sort_by (λ a b, creation_order a <=? creation_order b)
                (List.filter (λ pl, bool_decide (erase_policy pl = TextOverwrite))
                   (bt_values (placements (catalog s original)))) in
  let participants := List.filter (λ pl,
    existsb (λ other, negb (placement_id pl =? placement_id other) && placements_overlap pl other positions) text) text in
  if bool_decide (length participants = 0%nat) then ret false
  else
    do! clone_plane original in
    do! for_each participants (λ pl, take_placement s (placement_id pl)) in
    do! for_each participants (λ pl,
          match bt_get positions (row_id pl) with
          | None => ret tt
          | Some anchor_row =>
              let end_row := saturating_add anchor_row (extent_rows (destination pl)) in
              let end_column := saturating_add (placement_column pl) (extent_columns (destination pl)) in
              let! r := attempt (split_text_overlaps s row_order anchor_row end_row (placement_column pl) end_column) in
              do! (if is_ok r then ret tt
                   else
                     do! remove_text_overlaps_whole s row_order anchor_row end_row (placement_column pl) end_column in
                     ret tt) in
              do! on_catalog s (λ c, set_placements (bt_insert (placements c) (placement_id pl) pl) c) in
              let! p := plane_get in
              let! count := add_usize (placement_count (metrics p)) 1 in
              on_plane (set_metrics (set_placement_count count (metrics p)))
          end) in
    do! reclaim_unplaced_while_placed in
    do! adopt_over original in
    ret true.

Definition ordered_placements (s : ActiveScreen) (p : ImagePlane) : list ImagePlacement :=
  let key pl := (z_index pl, match application_image_id pl with Some id => id | None => creation_order pl end,
                 creation_order pl) in
  let before a b :=
    let '(z1, i1, c1) := key a in
    let '(z2, i2, c2) := key b in
    (z1 <? z2) || ((z1 =? z2) && ((i1 <? i2) || ((i1 =? i2) && (c1 <=? c2)))) in
  sort_by before (bt_values (placements (catalog s p))).

(** ** Sixel images over older ones *)

(** [composite_bgra] on one channel of 8 bits: a pixel over another. *)
Definition composite_channel (source destination source_alpha : Z) : Z :=
  Z.min (source + (destination * (u8_max - source_alpha) + 127) / 255) u8_max.

Definition composite_bgra (destination source : list Z) : outcome ImageError (list Z) :=
  match destination, source with
  | [d0; d1; d2; d3], [s0; s1; s2; s3] =>
      Ok [composite_channel s0 d0 s3; composite_channel s1 d1 s3; composite_channel s2 d2 s3;
          composite_channel s3 d3 s3]
  | _, _ => Panic
  end.

Definition usize_or (x : Z) : outcome ImageError Z := ok_or_image (within usize_max x) ImageDimensions.

(** [4 * (y * stride + x)], checked. *)
Definition pixel_index (stride x y : Z) : outcome ImageError Z :=
  ok_or_image (base ← within usize_max (y * stride); pixel ← within usize_max (base + x);
               within usize_max (pixel * 4)) ImageDimensions.

(** [&pixels[index..index + 4]]. *)
Definition pixel_bytes (index : Z) (l : list Z) : outcome ImageError (list Z) :=
  if index + 4 <=? Z.of_nat (length l) then Ok (take 4 (drop (Z.to_nat index) l)) else Panic.

(** The four bytes at an index replaced. *)
Definition put_pixel (index : Z) (bytes : list Z) : M (list Z) ImageError unit :=
  let! l := get in
  if index + 4 <=? Z.of_nat (length l)
  then put (take (Z.to_nat index) l ++ bytes ++ drop (Z.to_nat index + 4) l) else panic.

(** The extent of the composed image along an axis: [new] and the old images
    that reach further, at most [full]. *)
Definition reach (origin old_end full output : Z) : Z :=
  if origin <=? old_end then Z.max output (Z.min (old_end - origin) full) else output.

Fixpoint composed_extent (size : PixelSize) (targets : list (ImagePlacement * Z))
    (origin_x origin_y full_width full_height out_width out_height : Z) : outcome ImageError (Z * Z) :=
  match targets with
  | [] => Ok (out_width, out_height)
  | (old, old_row) :: targets =>
      if negb (bool_decide (source_cell_size old = Some size))
      then composed_extent size targets origin_x origin_y full_width full_height out_width out_height
      else
        let? x := usize_or (placement_column old * size_width size) in
        let? y := usize_or (old_row * size_height size) in
        let? end_x := usize_or (x + rect_width (source old)) in
        let? end_y := usize_or (y + rect_height (source old)) in
        composed_extent size targets origin_x origin_y full_width full_height
          (reach origin_x end_x full_width out_width) (reach origin_y end_y full_height out_height)
  end.

(** The pixels of an old image copied to where they are under the new one. *)
Definition copy_old (old : ImagePlacement) (content : ImageContent) (old_x old_y origin_x origin_y out_width out_height : Z)
    : M (list Z) ImageError unit :=
  for_each (span 0 (rect_height (source old))) (λ source_y,
    let! global_y := lift (usize_or (old_y + source_y)) in
    if global_y <? origin_y then ret tt
    else if out_height <=? global_y - origin_y then ret tt
    else
      for_each (span 0 (rect_width (source old))) (λ source_x,
        let! global_x := lift (usize_or (old_x + source_x)) in
        if global_x <? origin_x then ret tt
        else if out_width <=? global_x - origin_x then ret tt
        else
          let! x := lift (usize_or (rect_x (source old) + source_x)) in
          let! y := lift (usize_or (rect_y (source old) + source_y)) in
          let! old_index := lift (pixel_index (content_width (metadata content)) x y) in
          let! index := lift (pixel_index out_width (global_x - origin_x) (global_y - origin_y)) in
          let! bytes := lift (pixel_bytes old_index (content_pixels content)) in
          put_pixel index bytes)).

(** The pixels of the new image composed over what is there. *)
Definition compose_new (content : NewImageContent) (out_width : Z) : M (list Z) ImageError unit :=
  for_each (span 0 (new_height content)) (λ y,
    for_each (span 0 (new_width content)) (λ x,
      let! source_index := lift (pixel_index (new_width content) x y) in
      let! index := lift (pixel_index out_width x y) in
      let! l := get in
      let! under := lift (pixel_bytes index l) in
      let! over := lift (pixel_bytes source_index (new_pixels content)) in
      let! bytes := lift (composite_bgra under over) in
      put_pixel index bytes)).

(** Whether every fourth byte is 255. *)
Fixpoint all_opaque (l : list Z) : bool :=
  match l with
  | _ :: _ :: _ :: alpha :: l => (alpha =? u8_max) && all_opaque l
  | _ => true
  end.

Definition prepare_sixel_overlap (s : ActiveScreen) (row_order : list Z) (anchor_row end_row : Z)
    (placement : NewImagePlacementOptions) (content : NewImageContent) (p : ImagePlane)
    : outcome ImageError PreparedSixel :=
  let columns := extent_columns (option_destination placement) in
  let targets := text_overlap_targets s row_order anchor_row end_row (option_column placement)
                   (saturating_add (option_column placement) columns) p in
  let unchanged := Ok {| prepared_width := new_width content; prepared_height := new_height content;
                         prepared_alpha_mode := new_alpha_mode content; prepared_pixels := new_pixels content |} in
  match option_source_cell_size placement with
  | None => unchanged
  | Some size =>
      if bool_decide (length targets = 0%nat) then unchanged
      else
        let? full_width := usize_or (columns * size_width size) in
        let? full_height := usize_or (extent_rows (option_destination placement) * size_height size) in
        let? origin_x := usize_or (option_column placement * size_width size) in
        let? origin_y := usize_or (anchor_row * size_height size) in
        let? extent := composed_extent size targets origin_x origin_y full_width full_height
                         (new_width content) (new_height content) in
        let '(out_width, out_height) := extent in
        let? w := ok_or_image (within u32_max out_width) ImageDimensions in
        let? h := ok_or_image (within u32_max out_height) ImageDimensions in
        let? byte_count := validate_content_geometry (plane_limits p) w h in
        let paint_all : M (list Z) ImageError unit :=
          do! for_each targets (λ '(old, old_row),
                if negb (bool_decide (source_cell_size old = Some size)) then ret tt
                else
                  match bt_get (contents (catalog s p)) (content_id old) with
                  | None => ret tt
                  | Some old_content =>
                      let! old_x := lift (usize_or (placement_column old * size_width size)) in
                      let! old_y := lift (usize_or (old_row * size_height size)) in
                      copy_old old old_content old_x old_y origin_x origin_y out_width out_height
                  end) in
          compose_new content out_width in
        match paint_all (replicate (Z.to_nat byte_count) 0) with
        | (Err e, _) => Err e
        | (Panic, _) => Panic
        | (Ok _, pixels) =>
            let prepared := {| prepared_width := w; prepared_height := h;
                               prepared_alpha_mode := if all_opaque pixels then Opaque else Premultiplied;
                               prepared_pixels := pixels |} in
            let? _ := validate_content (plane_limits p)
                        {| new_width := w; new_height := h; new_source_format := new_source_format content;
                           new_alpha_mode := prepared_alpha_mode prepared; new_pixels := pixels;
                           new_retention := new_retention content |} in
            Ok prepared
        end
  end.

(** [iter.position(..)]. *)
Definition position (row : Z) (row_order : list Z) : option Z :=
  (λ '(i, _), Z.of_nat i) <$> list_find (λ candidate, candidate = row) row_order.

Definition resized_options (w h : Z) (o : NewImagePlacementOptions) : NewImagePlacementOptions := {|
  option_column := option_column o;
  option_source := {| rect_x := rect_x (option_source o); rect_y := rect_y (option_source o);
                      rect_width := w; rect_height := h |};
  option_destination := option_destination o; option_source_cell_size := option_source_cell_size o;
  option_x_offset := option_x_offset o; option_y_offset := option_y_offset o; option_z_index := option_z_index o;
  option_application_image_id := option_application_image_id o;
  option_application_placement_id := option_application_placement_id o;
  option_erase_policy := option_erase_policy o |}.

(** One round of the loop: a candidate in which the older images make room and
    the new one is placed, adopted if that succeeds. *)
Definition try_sixel (s : ActiveScreen) (content : NewImageContent) (row_order : list Z) (row anchor_row end_row end_column : Z)
    (placement : NewImagePlacementOptions) (preserve_fragments : bool) : I (option (Z * Z)) :=
  let! original := plane_get in
  do! clone_plane original in
  let column := option_column placement in
  let! overlap := attempt (if preserve_fragments
                           then split_text_overlaps s row_order anchor_row end_row column end_column
                           else do! remove_text_overlaps_whole s row_order anchor_row end_row column end_column in
                                ret true) in
  let! placed := (if negb (is_ok overlap) then ret None
                  else
                    let! r := attempt (insert_content_and_placement s content row placement) in
                    ret (match r with Ok ids => Some ids | _ => None end)) in
  match placed with
  | Some ids => do! adopt_over original in ret (Some ids)
  | None =>
      let! candidate := set_aside original in
      do! drop_plane candidate in
      ret None
  end.

Definition insert_sixel_content_and_placement (s : ActiveScreen) (content : NewImageContent) (row_order : list Z)
    (row : Z) (placement : NewImagePlacementOptions) : I (Z * Z) :=
  let! p := plane_get in
  do! lift (validate_content (plane_limits p) content) in
  do! lift (validate_sixel_source_cell_size (option_source placement) (option_destination placement)
              (option_source_cell_size placement)) in
  let! anchor_row := ok_or (position row row_order) InvalidAnchor in
  let! end_row := ok_or (within usize_max (anchor_row + extent_rows (option_destination placement))) InvalidDestination in
  let! end_column := ok_or (within usize_max (option_column placement + extent_columns (option_destination placement)))
                       InvalidDestination in
  let! prepared := lift (prepare_sixel_overlap s row_order anchor_row end_row placement content p) in
  let placement := resized_options (prepared_width prepared) (prepared_height prepared) placement in
  let content := {| new_width := prepared_width prepared; new_height := prepared_height prepared;
                    new_source_format := new_source_format content; new_alpha_mode := prepared_alpha_mode prepared;
                    new_pixels := prepared_pixels prepared; new_retention := new_retention content |} in
  let! first := try_sixel s content row_order row anchor_row end_row end_column placement true in
  match first with
  | Some ids => ret ids
  | None =>
      let! second := try_sixel s content row_order row anchor_row end_row end_column placement false in
      match second with
      | Some ids => ret ids
      | None => insert_content_and_placement s content row placement
      end
  end.
End plane.
