(* ===== verification/ImagesInv.v ===== *)
(** * The invariant of the image plane

    What the budget and its leases are, what a plane is worth, and that the
    steps every operation is made of keep both. *)

From S2P Require Import Prelude RustStd Update Sixel Images.

#[local] Open Scope Z_scope.

(** ** The budget *)

(** The bytes of all leases. *)
Definition lease_sum (m : gmap Z Lease) : Z := map_fold (λ _ x n, lease_bytes x + n) 0 m.

Definition holders_of (b : SharedImageBudget) (l : Z) : nat := from_option holders 0%nat (leases b !! l).

(** The budget is what its leases hold, and [H] lists their holders. *)
Record budget_ok (b : SharedImageBudget) (H : list Z) : Prop := {
  bk_bytes : budget_bytes b = lease_sum (leases b);
  bk_limit : budget_bytes b ≤ budget_limit b;
  bk_lease l x : leases b !! l = Some x → 0 ≤ lease_bytes x ∧ (0 < holders x)%nat ∧ l < next_lease b;
  bk_holders l : count_occ Z.eq_dec H l = holders_of b l;
}.

(** The leases of [H] keep their bytes, and names of leases are not used again. *)
Definition stable (H : list Z) (b b' : SharedImageBudget) : Prop :=
  (budget_limit b' = budget_limit b ∧ next_lease b ≤ next_lease b') ∧
  ∀ l, l ∈ H → lease_bytes <$> leases b' !! l = lease_bytes <$> leases b !! l.

Lemma stable_refl H b : stable H b b.
Proof. done. Qed.

Lemma stable_trans H b1 b2 b3 : stable H b1 b2 → stable H b2 b3 → stable H b1 b3.
Proof. intros [[E1 N1] S1] [[E2 N2] S2]. split; [split; [congruence|lia]|]. intros l Hl. by rewrite S2, S1. Qed.

Lemma stable_subset H H' b b' : H' ⊆ H → stable H b b' → stable H' b b'.
Proof. intros Hsub [E S]. split; [done|]. intros l Hl. by apply S, Hsub. Qed.

Lemma lease_sum_insert m l x : m !! l = None → lease_sum (<[l := x]> m) = lease_bytes x + lease_sum m.
Proof. intros Hl. unfold lease_sum. rewrite map_fold_insert_L; [done| |done]. intros. lia. Qed.

Lemma lease_sum_delete m l x : m !! l = Some x → lease_sum m = lease_bytes x + lease_sum (delete l m).
Proof. intros Hl. unfold lease_sum. rewrite (map_fold_delete_L _ _ l x m); [done| |done]. intros. lia. Qed.

Lemma lease_sum_replace m l x y : m !! l = Some x → lease_sum (<[l := y]> m) = lease_bytes y - lease_bytes x + lease_sum m.
Proof.
  intros Hl. rewrite (lease_sum_delete m l x Hl), <-(insert_delete_eq m l y), lease_sum_insert by apply lookup_delete_eq. lia.
Qed.

Lemma lease_sum_nonneg m : (∀ l x, m !! l = Some x → 0 ≤ lease_bytes x) → 0 ≤ lease_sum m.
Proof.
  induction m as [|l x m Hl IH] using map_ind; intros Hm; [done|]. rewrite lease_sum_insert by done.
  assert (0 ≤ lease_sum m). { apply IH. intros k y Hk. apply (Hm k). rewrite lookup_insert_ne; [done|congruence]. }
  assert (0 ≤ lease_bytes x) by (apply (Hm l); by rewrite lookup_insert_eq). lia.
Qed.

Lemma budget_perm b H H' : H ≡ₚ H' → budget_ok b H → budget_ok b H'.
Proof. intros HP [H1 H2 H3 H4]. split; [done..|]. intros l. rewrite <-H4. by apply Permutation_count_occ. Qed.

Lemma held_lease b H l : budget_ok b H → l ∈ H → ∃ x, leases b !! l = Some x.
Proof.
  intros Hb Hl. pose proof (bk_holders _ _ Hb l) as Hc. unfold holders_of in Hc.
  destruct (leases b !! l) as [x|]; [by exists x|]. apply list_elem_of_In, (count_occ_In Z.eq_dec) in Hl. simpl in Hc. lia.
Qed.

Lemma admitted_Some more b next : admitted more b = Some next ↔ next = budget_bytes b + more ∧ next ≤ usize_max ∧ next ≤ budget_limit b.
Proof.
  unfold admitted, within. destruct (Z.leb_spec (budget_bytes b + more) usize_max); cbn [mbind option_bind].
  - destruct (Z.leb_spec (budget_bytes b + more) (budget_limit b)); naive_solver lia.
  - naive_solver lia.
Qed.

Lemma reserve_spec bytes st H :
  budget_ok (budget st) H → 0 ≤ bytes →
  wp (reserve bytes) (λ r st', this st' = this st ∧ match r with
    | Ok l => budget_ok (budget st') (l :: H) ∧ stable H (budget st) (budget st') ∧
        lease_bytes <$> leases (budget st') !! l = Some bytes ∧ l ∉ H ∧ next_lease (budget st) ≤ l
    | Err e => st' = st
    | Panic => False
    end) st.
Proof.
  intros [H1 H2 H3 H4] Hb. unfold reserve. wp_step. wp_step; [|done]. apply admitted_Some in H0 as (-> & _ & Hlim).
  unfold wp. cbn. set (b := budget st) in *. set (l := next_lease b).
  assert (leases b !! l = None) as Hl by (destruct (leases b !! l) as [x|] eqn:E; [apply H3 in E; lia|done]).
  assert (l ∉ H) as Hnew.
  { intros Hk. apply list_elem_of_In, (count_occ_In Z.eq_dec) in Hk. rewrite H4 in Hk. unfold holders_of in Hk.
    rewrite Hl in Hk. simpl in Hk. lia. }
  split; [done|]. split_and!; [| | |done|done].
  - split; cbn.
    + rewrite lease_sum_insert by done. cbn. lia.
    + done.
    + intros k x Hk. destruct (decide (k = l)) as [->|Hn].
      * rewrite lookup_insert_eq in Hk. injection Hk as <-. cbn. lia.
      * rewrite lookup_insert_ne in Hk by congruence. destruct (H3 k x Hk) as (? & ? & ?). split_and!; [done..|lia].
    + intros k. unfold holders_of. cbn. destruct (Z.eq_dec l k) as [<-|Hn].
      * rewrite lookup_insert_eq. cbn. rewrite H4. unfold holders_of. by rewrite Hl.
      * rewrite lookup_insert_ne by done. apply H4.
  - split; [cbn; lia|]. intros k Hk. cbn. rewrite lookup_insert_ne; [done|]. congruence.
  - cbn. by rewrite lookup_insert_eq.
Qed.

(** A change of the number of holders. *)
Lemma rehold_ok b H H' l x n :
  budget_ok b H → leases b !! l = Some x → count_occ Z.eq_dec H' l = S n →
  (∀ k, k ≠ l → count_occ Z.eq_dec H' k = count_occ Z.eq_dec H k) →
  let b' := set_budget (budget_bytes b) (<[l := {| lease_bytes := lease_bytes x; holders := S n |}]> (leases b)) b in
  budget_ok b' H' ∧ ∀ K, stable K b b'.
Proof.
  intros [H1 H2 H3 H4] Hl Hn Hk. destruct (H3 l x Hl) as (B1 & B2 & B3). split; [split; cbn|split; [done|]].
  - rewrite (lease_sum_replace _ _ x) by done. cbn. lia.
  - done.
  - intros k y Hy. destruct (decide (k = l)) as [->|Hne].
    + rewrite lookup_insert_eq in Hy. injection Hy as <-. cbn. lia.
    + rewrite lookup_insert_ne in Hy by congruence. by apply H3.
  - intros k. unfold holders_of. cbn. destruct (decide (k = l)) as [->|Hne].
    + by rewrite lookup_insert_eq.
    + rewrite lookup_insert_ne, Hk by congruence. apply H4.
  - intros k _. cbn. destruct (decide (k = l)) as [->|Hne]; [by rewrite lookup_insert_eq, Hl|].
    by rewrite lookup_insert_ne by congruence.
Qed.

Lemma retain_runs l st H :
  budget_ok (budget st) H → l ∈ H →
  runs (retain l) (λ _ st', this st' = this st ∧ budget_ok (budget st') (l :: H) ∧
    ∀ K, stable K (budget st) (budget st')) st.
Proof.
  intros Hb Hl. destruct (held_lease _ _ _ Hb Hl) as [x Hx]. unfold retain. apply runs_bind, runs_get. cbv zeta.
  apply runs_bind. eapply runs_expect; [exact Hx|]. apply runs_modify. split; [done|]. cbn [budget].
  apply (rehold_ok _ H); [done|done| |].
  - simpl. destruct (Z.eq_dec l l); [|done]. rewrite (bk_holders _ _ Hb). unfold holders_of. by rewrite Hx.
  - intros k Hk. simpl. by destruct (Z.eq_dec l k).
Qed.

Lemma release_runs l st H :
  budget_ok (budget st) (l :: H) →
  runs (release l) (λ _ st', this st' = this st ∧ budget_ok (budget st') H ∧ stable H (budget st) (budget st')) st.
Proof.
  intros Hb. destruct (held_lease _ _ l Hb) as [x Hx]; [by left|]. unfold release. apply runs_bind, runs_get. cbv zeta.
  apply runs_bind. eapply runs_expect; [exact Hx|]. pose proof Hb as [H1 H2 H3 H4].
  pose proof (H4 l) as Hc. unfold holders_of in Hc. rewrite Hx in Hc. simpl in Hc. destruct (Z.eq_dec l l); [|done].
  assert (∀ k, k ≠ l → count_occ Z.eq_dec H k = count_occ Z.eq_dec (l :: H) k) as Hk.
  { intros k Hk. simpl. by destruct (Z.eq_dec l k). }
  destruct (H3 l x Hx) as (B1 & B2 & B3). destruct (holders x) as [|[|n]] eqn:Hh; [lia| |].
  - assert (lease_bytes x ≤ lease_sum (leases (budget st))) as Hle.
    { rewrite (lease_sum_delete _ l x) by done. assert (0 ≤ lease_sum (delete l (leases (budget st)))); [|lia].
      apply lease_sum_nonneg. intros k y [_ Hy]%lookup_delete_Some. by apply (H3 k). }
    apply runs_bind, runs_assert; [apply Z.leb_le; lia|]. apply runs_modify. split; [done|]. cbn [budget]. split; [split; cbn|].
    + rewrite H1, (lease_sum_delete _ l x) by done. lia.
    + lia.
    + intros k y [_ Hy]%lookup_delete_Some. by apply H3.
    + intros k. unfold holders_of. cbn. destruct (decide (k = l)) as [->|Hne].
      * rewrite lookup_delete_eq. simpl. lia.
      * rewrite lookup_delete_ne, Hk by congruence. apply H4.
    + split; [done|]. intros k Hin. cbn. rewrite lookup_delete_ne; [done|]. intros <-.
      apply list_elem_of_In, (count_occ_In Z.eq_dec) in Hin. lia.
  - apply runs_modify. split; [done|]. cbn [budget].
    destruct (rehold_ok (budget st) (l :: H) H l x n Hb Hx ltac:(lia) Hk) as [R1 R2]. split; [exact R1|apply R2].
Qed.

(** Several leases at once. *)
Lemma retain_all_runs ls st H :
  budget_ok (budget st) H → Forall (λ l, l ∈ H) ls →
  runs (for_each ls retain) (λ _ st', this st' = this st ∧ budget_ok (budget st') (ls ++ H) ∧
    ∀ K, stable K (budget st) (budget st')) st.
Proof.
  revert st H. induction ls as [|l ls IH]; intros st H Hb Hls; [by apply runs_ret|].
  apply Forall_cons in Hls as [Hl Hls]. cbn [for_each]. apply runs_bind.
  eapply runs_mono; [|by apply retain_runs]. intros [] st1 (E1 & Hb1 & S1).
  eapply runs_mono; [|apply IH; [exact Hb1|eapply Forall_impl; [exact Hls|by right]]].
  intros [] st2 (E2 & Hb2 & S2). split_and!; [congruence| |intros K; by eapply stable_trans].
  eapply budget_perm; [|exact Hb2]. simpl. by rewrite Permutation_middle.
Qed.

Lemma release_all_runs ls st H :
  budget_ok (budget st) (ls ++ H) →
  runs (for_each ls release) (λ _ st', this st' = this st ∧ budget_ok (budget st') H ∧ stable H (budget st) (budget st')) st.
Proof.
  revert st. induction ls as [|l ls IH]; intros st Hb; [by apply runs_ret|].
  cbn [for_each]. apply runs_bind. eapply runs_mono; [|by apply release_runs]. intros [] st1 (E1 & Hb1 & S1).
  eapply runs_mono; [|by apply IH]. intros [] st2 (E2 & Hb2 & S2). split_and!; [congruence|done|].
  eapply stable_trans; [|exact S2]. eapply stable_subset; [|exact S1]. set_solver.
Qed.

Lemma resize_spec l bytes st H :
  budget_ok (budget st) H → l ∈ H → 0 ≤ bytes →
  wp (resize_lease l bytes) (λ r st', this st' = this st ∧ match r with
    | Ok _ => budget_ok (budget st') H ∧ lease_bytes <$> leases (budget st') !! l = Some bytes ∧
        budget_limit (budget st') = budget_limit (budget st) ∧ next_lease (budget st) ≤ next_lease (budget st') ∧
        ∀ k, k ≠ l → leases (budget st') !! k = leases (budget st) !! k
    | Err e => st' = st
    | Panic => False
    end) st.
Proof.
  intros Hb Hl Hbytes. destruct (held_lease _ _ _ Hb Hl) as [x Hx]. pose proof Hb as [H1 H2 H3 H4].
  destruct (H3 l x Hx) as (B1 & B2 & B3). unfold resize_lease. wp_step. cbv zeta. wp_step; [|congruence].
  rewrite Hx in H0. injection H0 as <-.
  assert (∀ next, next = budget_bytes (budget st) + (bytes - lease_bytes x) → next ≤ budget_limit (budget st) →
    budget_ok (set_budget next (<[l := {| lease_bytes := bytes; holders := holders x |}]> (leases (budget st))) (budget st)) H) as Hok.
  { intros next -> Hlim. split; cbn.
    - rewrite (lease_sum_replace _ _ x) by done. cbn. lia.
    - lia.
    - intros k y Hy. destruct (decide (k = l)) as [->|Hne].
      + rewrite lookup_insert_eq in Hy. injection Hy as <-. done.
      + rewrite lookup_insert_ne in Hy by congruence. by apply H3.
    - intros k. rewrite H4. unfold holders_of. cbn. destruct (decide (k = l)) as [->|Hne].
      + by rewrite lookup_insert_eq, Hx.
      + by rewrite lookup_insert_ne by congruence. }
  destruct (Z.ltb_spec (lease_bytes x) bytes).
  - wp_step; [|done]. apply admitted_Some in H5 as (-> & _ & Hlim). unfold wp. cbn [fst snd]. split; [done|]. cbn [budget]. split_and!.
    + apply Hok; lia.
    + cbn. by rewrite lookup_insert_eq.
    + done.
    + done.
    + intros k Hk. cbn. by rewrite lookup_insert_ne by congruence.
  - destruct (Z.ltb_spec bytes (lease_bytes x)).
    + assert (lease_bytes x ≤ lease_sum (leases (budget st))).
      { rewrite (lease_sum_delete _ l x) by done. assert (0 ≤ lease_sum (delete l (leases (budget st)))); [|lia].
        apply lease_sum_nonneg. intros k y [_ Hy]%lookup_delete_Some. by apply (H3 k). }
      wp_step; [|lia]. unfold wp. cbn [fst snd]. split; [done|]. cbn [budget]. split_and!.
      * apply Hok; lia.
      * cbn. by rewrite lookup_insert_eq.
      * done.
      * done.
      * intros k Hk. cbn. by rewrite lookup_insert_ne by congruence.
    + wp_step. split; [done|]. split_and!; [done| |done|done|done]. rewrite Hx. simpl. f_equal. lia.
Qed.

(** ** Ordered maps *)

(** The sum of a measure over a list. *)
Definition sum_of {A} (f : A → Z) (l : list A) : Z := foldr (λ x n, f x + n) 0 l.

#[global] Instance sum_of_perm {A} (f : A → Z) : Proper ((≡ₚ) ==> (=)) (sum_of f).
Proof. intros l l' HP. induction HP; simpl; lia. Qed.

Lemma sum_of_fmap {A} (f : A → Z) l : sum_of (λ n, n) (f <$> l) = sum_of f l.
Proof. induction l as [|x l IH]; [done|]. rewrite fmap_cons. simpl. by rewrite IH. Qed.

Lemma sum_of_app {A} (f : A → Z) l1 l2 : sum_of f (l1 ++ l2) = sum_of f l1 + sum_of f l2.
Proof. induction l1 as [|x l1 IH]; simpl; [done|]. rewrite IH. lia. Qed.

Lemma sum_of_nonneg {A} (f : A → Z) l : (∀ x, x ∈ l → 0 ≤ f x) → 0 ≤ sum_of f l.
Proof.
  induction l as [|x l IH]; intros Hf; simpl; [done|].
  assert (0 ≤ f x) by (apply Hf; by left). assert (0 ≤ sum_of f l) by (apply IH; intros y Hy; apply Hf; by right). lia.
Qed.

Lemma sum_of_elem {A} (f : A → Z) l x : (∀ y, y ∈ l → 0 ≤ f y) → x ∈ l → f x ≤ sum_of f l.
Proof.
  intros Hf Hx. apply list_elem_of_split in Hx as (l1 & l2 & ->). rewrite <-Permutation_middle. simpl.
  assert (0 ≤ sum_of f (l1 ++ l2)); [|lia]. apply sum_of_nonneg. intros y Hy. apply Hf. set_solver.
Qed.

Section maps.
Context {V : Type}.
Implicit Types (m : btree V) (k : Z) (v : V).

Lemma bt_remove_perm m k v : bt_get m k = Some v → m ≡ₚ (k, v) :: bt_remove m k.
Proof.
  induction m as [|[k' u] m IH]; simpl; [done|]. destruct (Z.eqb_spec k k') as [->|Hne].
  - by intros [= ->].
  - intros Hk. rewrite (IH Hk) at 1. constructor.
Qed.

Lemma bt_insert_perm m k v : bt_get m k = None → bt_insert m k v ≡ₚ (k, v) :: m.
Proof.
  induction m as [|[k' u] m IH]; simpl; [done|]. destruct (Z.eqb_spec k k') as [->|Hne]; [done|]. intros Hk.
  destruct (k <? k'); [done|]. rewrite (IH Hk). constructor.
Qed.

Lemma bt_insert_over m k v u : bt_wf m → bt_get m k = Some u → bt_insert m k v ≡ₚ (k, v) :: bt_remove m k.
Proof.
  induction m as [|[k' w] m IH]; simpl; [done|]. intros Hwf Hk. apply bt_wf_cons in Hwf as [Hwf Hlt].
  destruct (Z.eqb_spec k k') as [->|Hne]; [by rewrite Z.ltb_irrefl|].
  destruct (Z.ltb_spec k k'); [|rewrite (IH Hwf Hk); constructor].
  apply bt_get_elem in Hk; [|done]. specialize (Hlt _ _ Hk). lia.
Qed.

Lemma bt_remove_none m k : bt_get m k = None → bt_remove m k = m.
Proof. induction m as [|[k' u] m IH]; simpl; [done|]. destruct (k =? k'); [done|]. intros Hk. by rewrite IH. Qed.

Lemma bt_values_remove m k v : bt_get m k = Some v → bt_values m ≡ₚ v :: bt_values (bt_remove m k).
Proof. intros Hk. unfold bt_values. by rewrite (bt_remove_perm m k v Hk) at 1. Qed.

Lemma bt_values_insert m k v : bt_get m k = None → bt_values (bt_insert m k v) ≡ₚ v :: bt_values m.
Proof. intros Hk. unfold bt_values. by rewrite (bt_insert_perm m k v Hk). Qed.

Lemma bt_values_over m k v u :
  bt_wf m → bt_get m k = Some u → bt_values (bt_insert m k v) ≡ₚ v :: bt_values (bt_remove m k).
Proof. intros Hwf Hk. unfold bt_values. by rewrite (bt_insert_over m k v u Hwf Hk). Qed.

Lemma bt_remove_keys {U} m (m' : btree U) k : m.*1 = m'.*1 → (bt_remove m k).*1 = (bt_remove m' k).*1.
Proof.
  revert m'. induction m as [|[k1 v1] m IH]; intros [|[k2 v2] m']; simpl; try done. intros [= -> He].
  destruct (k =? k2); [done|]. simpl. f_equal. by apply IH.
Qed.

Lemma bt_insert_keys {U} m (m' : btree U) k v u : m.*1 = m'.*1 → (bt_insert m k v).*1 = (bt_insert m' k u).*1.
Proof.
  revert m'. induction m as [|[k1 v1] m IH]; intros [|[k2 v2] m']; simpl; try done. intros [= -> He].
  destruct (k <? k2); [simpl; congruence|]. destruct (k =? k2); [simpl; congruence|]. simpl. f_equal. by apply IH.
Qed.

Lemma bt_get_keys {U} m (m' : btree U) k : m.*1 = m'.*1 → is_Some (bt_get m k) ↔ is_Some (bt_get m' k).
Proof.
  revert m'. induction m as [|[k1 v1] m IH]; intros [|[k2 v2] m']; simpl; try done. intros [= -> He].
  destruct (k =? k2); [by split; eexists|]. by apply IH.
Qed.

Lemma bt_insert_same_keys m k v u : bt_wf m → bt_get m k = Some u → (bt_insert m k v).*1 = m.*1.
Proof.
  induction m as [|[k' w] m IH]; simpl; [done|]. intros Hwf Hk. apply bt_wf_cons in Hwf as [Hwf Hlt].
  destruct (Z.eqb_spec k k') as [->|Hne]; [by rewrite Z.ltb_irrefl|].
  assert (k' < k) by (apply bt_get_elem in Hk; [by eapply Hlt|done]). rewrite (proj2 (Z.ltb_ge _ _)) by lia. simpl. f_equal. by apply IH.
Qed.

Lemma bt_wf_keys {U} m (m' : btree U) : m.*1 = m'.*1 → bt_wf m' → bt_wf m.
Proof.
  revert m'. induction m as [|[k1 v1] m IH]; intros [|[k2 v2] m']; simpl; try done; [constructor|]. intros [= -> He] Hwf.
  apply bt_wf_cons in Hwf as [Hwf Hlt]. apply bt_wf_cons. split; [by eapply IH|]. intros k v Hin.
  assert (k ∈ m.*1) as Hk by (apply list_elem_of_fmap; by exists (k, v)).
  change (m.*1 = m'.*1) in He. rewrite He in Hk. apply list_elem_of_fmap in Hk as ([k' u] & -> & Hu). by apply (Hlt k' u).
Qed.

Lemma bt_get_key m k : is_Some (bt_get m k) ↔ k ∈ m.*1.
Proof.
  induction m as [|[k' v] m IH]; simpl; [split; [by intros []|by intros ?%not_elem_of_nil]|].
  rewrite elem_of_cons. destruct (Z.eqb_spec k k') as [->|Hne]; [split; [by left|by eexists]|].
  rewrite IH. split; [by right|intros [?|?]; done].
Qed.

Lemma bt_get_value m k v : bt_get m k = Some v → v ∈ bt_values m.
Proof.
  induction m as [|[k' u] m IH]; simpl; [done|]. unfold bt_values. simpl. destruct (k =? k').
  - intros [= ->]. by left.
  - intros Hk. right. by apply IH.
Qed.

Lemma bt_value_get m v : bt_wf m → v ∈ bt_values m → ∃ k, bt_get m k = Some v.
Proof.
  intros Hwf ([k v'] & -> & Hin)%list_elem_of_fmap. exists k. by apply bt_get_elem.
Qed.

(** The keys of the values that satisfy [f], where a value knows its key. *)
Lemma listed_keys (key : V → Z) f m :
  bt_wf m → (∀ k v, bt_get m k = Some v → key v = k) →
  let ids := key <$> List.filter f (bt_values m) in
  NoDup ids ∧ Forall (λ k, is_Some (bt_get m k)) ids ∧ ∀ k v, bt_get m k = Some v → k ∈ ids ↔ f v = true.
Proof.
  intros Hwf Hkey. cbv zeta. assert (∀ k v, (k, v) ∈ m → key v = k) as Hid.
  { intros k v Hin. apply Hkey. by apply bt_get_elem. }
  assert (key <$> List.filter f (bt_values m) = fst <$> List.filter (λ e, f e.2) m) as ->.
  { clear Hwf Hkey. unfold bt_values. induction m as [|[k v] m IH]; [done|]. simpl.
    assert (∀ k v, (k, v) ∈ m → key v = k) as Hm by (intros ? ? ?; apply Hid; by right).
    destruct (f v); [|by apply IH]. rewrite !fmap_cons. f_equal; [apply Hid; by left|by apply IH]. }
  assert (∀ e, e ∈ List.filter (λ e, f e.2) m ↔ e ∈ m ∧ f e.2 = true) as Hin.
  { intros e. rewrite !list_elem_of_In. apply filter_In. }
  split_and!.
  - clear Hid Hin Hkey. induction m as [|[k v] m IH]; [constructor|]. apply bt_wf_cons in Hwf as [Hwf Hlt]. simpl.
    destruct (f v); [|by apply IH]. simpl. constructor; [|by apply IH].
    intros ([k' v'] & Hk & He)%list_elem_of_fmap. simpl in Hk. subst k'.
    rewrite list_elem_of_In in He. apply filter_In in He as [He _]. rewrite <-list_elem_of_In in He. specialize (Hlt _ _ He). lia.
  - apply Forall_forall. intros k ([k' v] & -> & [He _]%Hin)%list_elem_of_fmap. exists v. by apply bt_get_elem.
  - intros k v Hk. apply bt_get_elem in Hk; [|done]. rewrite list_elem_of_fmap. split.
    + intros ([k' v'] & -> & [He Hf]%Hin). simpl in *. assert (v = v') as ->; [|done].
      apply bt_get_elem in Hk, He; [congruence|done..].
    + intros Hf. exists (k, v). split; [done|]. apply Hin. done.
Qed.
End maps.

(** Distinct integers of a range. *)
Lemma distinct_bound (l : list Z) n : NoDup l → (∀ k, k ∈ l → 1 ≤ k < n) → Z.of_nat (length l) ≤ Z.max 0 (n - 1).
Proof.
  intros Hnd Hr. assert (length l ≤ length (seqZ 1 (n - 1)))%nat as Hle; [|rewrite length_seqZ in Hle; lia].
  apply submseteq_length, NoDup_submseteq; [done|]. intros k Hk%Hr. apply elem_of_seqZ. lia.
Qed.
