(* ===== verification/ImagesSteps.v ===== *)
(** * The steps of the image plane's operations

    The invariant of a plane with its budget, and that taking, adding and
    replacing one placement or content keeps it. *)

From S2P Require Import Prelude RustStd Update Sixel Images ImagesInv.

#[local] Open Scope Z_scope.

(** ** The invariant *)

Definition charge (x : ImageContent) : Z := byte_charge (metadata x).

(** A content's pixels fill its dimensions, within the limits. *)
Record content_ok (l : ImageLimits) (n k : Z) (x : ImageContent) : Prop := {
  co_id : metadata_id (metadata x) = k;
  co_range : 1 ≤ k < n;
  co_width : 0 < content_width (metadata x) ≤ maximum_dimension l;
  co_height : 0 < content_height (metadata x) ≤ maximum_dimension l;
  co_charge : charge x = 4 * (content_width (metadata x) * content_height (metadata x));
  co_pixels : Z.of_nat (length (content_pixels x)) = charge x;
  co_bytes : charge x ≤ bytes_per_content l;
}.

(** A rectangle lies in an image of width [w] and height [h]. *)
Record crop_inside (r : PixelRect) (w h : Z) : Prop := {
  ci_x : 0 ≤ rect_x r;
  ci_y : 0 ≤ rect_y r;
  ci_width : 0 < rect_width r;
  ci_height : 0 < rect_height r;
  ci_right : rect_x r + rect_width r ≤ w;
  ci_bottom : rect_y r + rect_height r ≤ h;
}.

(** A placement shows a part of its content, where the content is there. *)
Record placement_ok (s : ActiveScreen) (c : ImageCatalog) (nc np k : Z) (pl : ImagePlacement) : Prop := {
  po_id : placement_id pl = k;
  po_range : 1 ≤ k < np;
  po_screen : placement_screen pl = s;
  po_content : content_id pl < nc;
  po_source : 0 ≤ rect_x (source pl) ∧ 0 ≤ rect_y (source pl) ∧ 0 < rect_width (source pl) ∧ 0 < rect_height (source pl);
  po_crop x : bt_get (contents c) (content_id pl) = Some x →
    crop_inside (source pl) (content_width (metadata x)) (content_height (metadata x));
  po_column : 0 ≤ placement_column pl;
  po_destination : 0 < extent_columns (destination pl) ∧ 0 < extent_rows (destination pl);
  po_cell z : source_cell_size pl = Some z → 0 < size_width z ∧ 0 < size_height z;
}.

(** The limits have their machine types. *)
Record plane_limits_ok (l : ImageLimits) : Prop := {
  pl_dimension : 0 ≤ maximum_dimension l ≤ u32_max;
  pl_terminal : 0 ≤ bytes_per_terminal l ≤ usize_max;
  pl_contents : 0 ≤ contents_per_terminal l ≤ usize_max;
  pl_placements : 0 ≤ placements_per_terminal l ≤ usize_max;
}.

Definition total (f : ImageCatalog → Z) (p : ImagePlane) : Z := f (normal p) + f (alternate p).
Definition charges (c : ImageCatalog) : Z := sum_of charge (bt_values (contents c)).
Definition stored (c : ImageCatalog) : Z := Z.of_nat (length (contents c)).
Definition placed (c : ImageCatalog) : Z := Z.of_nat (length (placements c)).
Definition placement_keys (p : ImagePlane) : list Z := (placements (normal p)).*1 ++ (placements (alternate p)).*1.

(** Every placement has its content and their number is within the limit. *)
Record strict_ok (p : ImagePlane) : Prop := {
  st_limit : placement_count (metrics p) ≤ placements_per_terminal (plane_limits p);
  st_content s k pl : bt_get (placements (catalog s p)) k = Some pl →
    is_Some (bt_get (contents (catalog s p)) (content_id pl));
}.

Record plane_ok (strict : bool) (p : ImagePlane) : Prop := {
  pk_contents s : bt_wf (contents (catalog s p));
  pk_placements s : bt_wf (placements (catalog s p));
  pk_content s k x : bt_get (contents (catalog s p)) k = Some x → content_ok (plane_limits p) (next_content_id p) k x;
  pk_placement s k pl : bt_get (placements (catalog s p)) k = Some pl →
    placement_ok s (catalog s p) (next_content_id p) (next_placement_id p) k pl;
  pk_reserved s : (reservations (catalog s p)).*1 = if shared_budget p then (contents (catalog s p)).*1 else [];
  pk_bytes : content_bytes (metrics p) = total charges p;
  pk_count : content_count (metrics p) = total stored p;
  pk_placed : placement_count (metrics p) = total placed p;
  pk_bytes_limit : content_bytes (metrics p) ≤ bytes_per_terminal (plane_limits p);
  pk_count_limit : content_count (metrics p) ≤ contents_per_terminal (plane_limits p);
  pk_keys : NoDup (placement_keys p);
  pk_next : 1 ≤ next_content_id p ≤ u64_max ∧ 1 ≤ next_placement_id p ≤ u64_max;
  pk_limits : plane_limits_ok (plane_limits p);
  pk_strict : strict = true → strict_ok p;
}.

(** The leases of a plane have the bytes of its contents. *)
Definition linked (p : ImagePlane) (b : SharedImageBudget) : Prop :=
  ∀ s k l x, bt_get (reservations (catalog s p)) k = Some l → bt_get (contents (catalog s p)) k = Some x →
    lease_bytes <$> leases b !! l = Some (charge x).

(** A plane and its budget, whose other leases are held by [F]. *)
Record store_ok (strict : bool) (F : list Z) (st : Store) : Prop := {
  so_plane : plane_ok strict (this st);
  so_budget : budget_ok (budget st) (held (this st) ++ F);
  so_linked : linked (this st) (budget st);
  so_distinct : NoDup (held (this st));
}.

(** Plane [p'] has no content that [p] had not, and no placement [p] had not
    under an identity [p] had given out. *)
Record shrinks (p p' : ImagePlane) : Prop := {
  sh_limits : plane_limits p' = plane_limits p;
  sh_shared : shared_budget p' = shared_budget p;
  sh_next : next_content_id p' = next_content_id p;
  sh_placement : next_placement_id p ≤ next_placement_id p';
  sh_contents s k x : bt_get (contents (catalog s p')) k = Some x → bt_get (contents (catalog s p)) k = Some x;
  sh_absent s k : k < next_placement_id p → bt_get (placements (catalog s p)) k = None →
    bt_get (placements (catalog s p')) k = None;
  sh_held : held p' ⊆ held p;
}.

Lemma shrinks_self p : shrinks p p.
Proof. done. Qed.

Lemma shrinks_trans p1 p2 p3 : shrinks p1 p2 → shrinks p2 p3 → shrinks p1 p3.
Proof.
  intros [A1 A2 A3 A4 A5 A6 A7] [B1 B2 B3 B4 B5 B6 B7]. split; try congruence; [lia|by eauto| |set_solver].
  intros s k Hk Hn. apply B6; [lia|]. by apply A6.
Qed.

(** ** Catalogs *)

Lemma catalog_update s s' f p :
  catalog s (update_catalog s' f p) = if decide (s = s') then f (catalog s p) else catalog s p.
Proof. by destruct s, s'. Qed.

Lemma update_fields s f p :
  plane_limits (update_catalog s f p) = plane_limits p ∧ shared_budget (update_catalog s f p) = shared_budget p ∧
  metrics (update_catalog s f p) = metrics p ∧ next_content_id (update_catalog s f p) = next_content_id p ∧
  next_placement_id (update_catalog s f p) = next_placement_id p ∧
  next_generation (update_catalog s f p) = next_generation p ∧
  next_creation_order (update_catalog s f p) = next_creation_order p.
Proof. by destruct s. Qed.

Lemma total_update g s f p : total g (update_catalog s f p) = total g p - g (catalog s p) + g (f (catalog s p)).
Proof. destruct s; unfold total; simpl; lia. Qed.

Lemma catalog_metrics s m p : catalog s (set_metrics m p) = catalog s p.
Proof. by destruct s. Qed.

(** The keys and leases of a plane, one screen first. *)
Definition other (s : ActiveScreen) : ActiveScreen := match s with Normal => Alternate | Alternate => Normal end.

Lemma keys_perm s p : placement_keys p ≡ₚ (placements (catalog s p)).*1 ++ (placements (catalog (other s) p)).*1.
Proof. destruct s; [done|]. apply Permutation_app_comm. Qed.

Lemma held_perm s p :
  held p ≡ₚ bt_values (reservations (catalog s p)) ++ bt_values (reservations (catalog (other s) p)).
Proof. destruct s; [done|]. apply Permutation_app_comm. Qed.

Lemma catalog_other s f p : catalog (other s) (update_catalog s f p) = catalog (other s) p.
Proof. by destruct s. Qed.

Lemma catalog_same s f p : catalog s (update_catalog s f p) = f (catalog s p).
Proof. by destruct s. Qed.

Lemma screen_cases s s' : s' = s ∨ s' = other s.
Proof. destruct s, s'; auto. Qed.

Lemma total_screens g s p : total g p = g (catalog s p) + g (catalog (other s) p).
Proof. destruct s; unfold total; simpl; lia. Qed.

(** A plane in which only the placements of a screen changed, to [m]. *)
Record new_placements (s : ActiveScreen) (m : btree ImagePlacement) (p p' : ImagePlane) : Prop := {
  np_catalog : catalog s p' = set_placements m (catalog s p);
  np_other : catalog (other s) p' = catalog (other s) p;
  np_limits : plane_limits p' = plane_limits p;
  np_shared : shared_budget p' = shared_budget p;
  np_content : next_content_id p' = next_content_id p;
  np_next : next_placement_id p ≤ next_placement_id p' ≤ u64_max;
  np_bytes : content_bytes (metrics p') = content_bytes (metrics p);
  np_count : content_count (metrics p') = content_count (metrics p);
  np_placed : placement_count (metrics p') = placement_count (metrics p) - placed (catalog s p) + Z.of_nat (length m);
}.

Lemma new_contents_same s m p p' : new_placements s m p p' →
  ∀ s', contents (catalog s' p') = contents (catalog s' p) ∧ reservations (catalog s' p') = reservations (catalog s' p).
Proof. intros [H1 H2 _ _ _ _ _ _ _] s'. destruct (screen_cases s s') as [->| ->]; [by rewrite H1|by rewrite H2]. Qed.

Lemma new_placements_held s m p p' : new_placements s m p p' → held p' = held p.
Proof.
  intros Hn. unfold held. destruct (new_contents_same _ _ _ _ Hn Normal) as [_ E1].
  destruct (new_contents_same _ _ _ _ Hn Alternate) as [_ E2]. simpl in *. by rewrite E1, E2.
Qed.

Lemma new_placements_total g s m p p' :
  (∀ c m, g (set_placements m c) = g c) → new_placements s m p p' → total g p' = total g p.
Proof. intros Hg [H1 H2 _ _ _ _ _ _ _]. rewrite !(total_screens _ s), H1, H2, Hg. done. Qed.

Lemma placement_ok_mono s c nc np np' k pl : placement_ok s c nc np k pl → np ≤ np' → placement_ok s c nc np' k pl.
Proof. intros [] ?. split; try done; lia. Qed.

Lemma placements_ok strict s m p p' :
  plane_ok strict p → new_placements s m p p' → bt_wf m →
  (∀ k pl, bt_get m k = Some pl → placement_ok s (catalog s p) (next_content_id p) (next_placement_id p') k pl) →
  NoDup (m.*1 ++ (placements (catalog (other s) p)).*1) →
  (strict = true → placement_count (metrics p') ≤ placements_per_terminal (plane_limits p) ∧
     ∀ k pl, bt_get m k = Some pl → is_Some (bt_get (contents (catalog s p)) (content_id pl))) →
  plane_ok strict p'.
Proof.
  intros [K1 K2 K3 K4 K5 K6 K7 K8 K9 K10 K11 K12 K13 K14] Hn Hwf Hpl Hnd Hst.
  pose proof (new_contents_same _ _ _ _ Hn) as Hc. pose proof Hn as [N1 N2 N3 N4 N5 N6 N7 N8 N9]. split.
  - intros s'. destruct (Hc s') as [-> _]. apply K1.
  - intros s'. destruct (screen_cases s s') as [->| ->]; [by rewrite N1|rewrite N2; apply K2].
  - intros s' k x. destruct (Hc s') as [-> _]. rewrite N3, N5. apply K3.
  - intros s' k pl. rewrite N5. destruct (screen_cases s s') as [->| ->].
    + rewrite N1. intros Hk. destruct (Hpl k pl Hk). by split.
    + rewrite N2. intros Hk. eapply placement_ok_mono; [by apply K4|lia].
  - intros s'. destruct (Hc s') as [-> ->]. rewrite N4. apply K5.
  - rewrite N7, K6. symmetry. by apply (new_placements_total _ s m).
  - rewrite N8, K7. symmetry. by apply (new_placements_total _ s m).
  - rewrite N9, K8, !(total_screens _ s), N1, N2. unfold placed. simpl. lia.
  - by rewrite N7, N3.
  - by rewrite N8, N3.
  - eapply (NoDup_Permutation_proper _ _ (keys_perm s p')). rewrite N1, N2. exact Hnd.
  - rewrite N5. lia.
  - by rewrite N3.
  - intros Hs. destruct (Hst Hs) as [Hlim Hsome]. destruct (K14 Hs) as [S1 S2]. split; [by rewrite N3|].
    intros s' k pl. destruct (Hc s') as [-> _]. destruct (screen_cases s s') as [->| ->].
    + rewrite N1. apply Hsome.
    + rewrite N2. apply S2.
Qed.

(** Only the plane changed, and only placements. *)
Lemma placements_store strict F s m st p' :
  store_ok strict F st → new_placements s m (this st) p' → plane_ok strict p' →
  store_ok strict F {| this := p'; budget := budget st |}.
Proof.
  intros [Hp Hb Hl Hd] Hn Hp'. split; cbn; [done| | |].
  - by rewrite (new_placements_held _ _ _ _ Hn).
  - intros s' k l x. destruct (new_contents_same _ _ _ _ Hn s') as [-> ->]. apply Hl.
  - by rewrite (new_placements_held _ _ _ _ Hn).
Qed.

Lemma placement_key s p k pl :
  plane_ok s p → ∀ s', bt_get (placements (catalog s' p)) k = Some pl → placement_id pl = k.
Proof. intros Hp s' Hk. by apply (pk_placement _ _ Hp s') in Hk as []. Qed.

(** ** Taking a placement *)

Definition without_placement (s : ActiveScreen) (id : Z) (p : ImagePlane) : ImagePlane :=
  set_metrics (set_placement_count (placement_count (metrics p) - 1) (metrics p))
    (update_catalog s (λ c, set_placements (bt_remove (placements c) id) c) p).

Lemma without_new s id p pl :
  bt_get (placements (catalog s p)) id = Some pl → 1 ≤ next_placement_id p ≤ u64_max →
  new_placements s (bt_remove (placements (catalog s p)) id) p (without_placement s id p).
Proof.
  intros Hid Hnext. unfold without_placement. destruct (update_fields s (λ c, set_placements (bt_remove (placements c) id) c) p)
    as (E1 & E2 & E3 & E4 & E5 & E6 & E7).
  split; rewrite ?catalog_metrics, ?catalog_same, ?catalog_other; cbn; try done; try lia.
  unfold placed. rewrite (Permutation_length (bt_remove_perm _ _ _ Hid)). simpl. lia.
Qed.

Lemma keys_remove s p k pl :
  bt_get (placements (catalog s p)) k = Some pl → NoDup (placement_keys p) →
  NoDup ((bt_remove (placements (catalog s p)) k).*1 ++ (placements (catalog (other s) p)).*1).
Proof.
  intros Hk Hnd. rewrite (keys_perm s p), (bt_remove_perm _ _ _ Hk) in Hnd. simpl in Hnd. by apply NoDup_cons in Hnd as [_ ?].
Qed.

Lemma without_ok strict s id p pl :
  plane_ok strict p → bt_get (placements (catalog s p)) id = Some pl → plane_ok strict (without_placement s id p).
Proof.
  intros Hp Hid. pose proof (pk_next _ _ Hp) as [_ Hnext]. pose proof (without_new _ _ _ _ Hid Hnext) as Hn.
  pose proof (pk_placements _ _ Hp s) as Hwf.
  assert (∀ k q, bt_get (bt_remove (placements (catalog s p)) id) k = Some q → bt_get (placements (catalog s p)) k = Some q) as Hsub.
  { intros k q. rewrite bt_get_remove by done. by case_match. }
  eapply placements_ok; [exact Hp|exact Hn|by apply bt_remove_wf| | |].
  - intros k q Hq%Hsub. eapply placement_ok_mono; [by apply (pk_placement _ _ Hp)|apply Hn].
  - by eapply keys_remove; [|apply Hp].
  - intros Hs. destruct (pk_strict _ _ Hp Hs) as [S1 S2]. split; [|by intros k q Hq%Hsub; apply (S2 s k)].
    unfold without_placement. cbn. lia.
Qed.

Lemma take_run strict F s id st pl :
  store_ok strict F st → bt_get (placements (catalog s (this st))) id = Some pl →
  take_placement s id st = (Ok tt, {| this := without_placement s id (this st); budget := budget st |}).
Proof.
  intros [Hp _ _ _] Hid. unfold take_placement, on_catalog, on_plane, plane_get, sub_usize. cbn.
  destruct (update_fields s (λ c, set_placements (bt_remove (placements c) id) c) (this st)) as (_ & _ & E3 & _).
  rewrite E3. assert (1 ≤ placement_count (metrics (this st))) as H1.
  { rewrite (pk_placed _ _ Hp), (total_screens _ s). unfold placed.
    rewrite (Permutation_length (bt_remove_perm _ _ _ Hid)). simpl. lia. }
  rewrite (proj2 (Z.leb_le _ _)) by done. cbn. done.
Qed.

(** What a step leaves: the invariant, nothing new, the leases of others. *)
Record moved (strict : bool) (F : list Z) (st st' : Store) : Prop := {
  mv_ok : store_ok strict F st';
  mv_shrinks : shrinks (this st) (this st');
  mv_stable : stable F (budget st) (budget st');
}.

Lemma moved_refl strict F st : store_ok strict F st → moved strict F st st.
Proof. by split. Qed.

Lemma moved_trans strict F st1 st2 st3 : moved strict F st1 st2 → moved strict F st2 st3 → moved strict F st1 st3.
Proof. intros [_ A2 A3] [B1 B2 B3]. split; [done|by eapply shrinks_trans|by eapply stable_trans]. Qed.

Lemma new_placements_shrinks s m p p' :
  new_placements s m p p' →
  (∀ k, k < next_placement_id p → bt_get (placements (catalog s p)) k = None → bt_get m k = None) → shrinks p p'.
Proof.
  intros Hn Hm. pose proof Hn as [N1 N2 N3 N4 N5 N6 N7 N8 N9]. split; try done; [lia| | |by rewrite (new_placements_held _ _ _ _ Hn)].
  - intros s' k x. by destruct (new_contents_same _ _ _ _ Hn s') as [-> _].
  - intros s' k Hk. destruct (screen_cases s s') as [->| ->]; [rewrite N1; by apply Hm|by rewrite N2].
Qed.

Lemma take_moved strict F s id st pl :
  store_ok strict F st → bt_get (placements (catalog s (this st))) id = Some pl →
  moved strict F st {| this := without_placement s id (this st); budget := budget st |}.
Proof.
  intros Hok Hid. pose proof (so_plane _ _ _ Hok) as Hp. pose proof (pk_next _ _ Hp) as [_ Hnext].
  pose proof (without_new _ _ _ _ Hid Hnext) as Hn. split; cbn.
  - eapply placements_store; [done|exact Hn|by eapply without_ok].
  - eapply new_placements_shrinks; [exact Hn|]. intros k _ Hk. rewrite bt_get_remove by apply Hp. by case_match.
  - done.
Qed.

(** Several placements taken. *)
Record taken (strict : bool) (F : list Z) (s : ActiveScreen) (ids : list Z) (st st' : Store) : Prop := {
  tk_moved : moved strict F st st';
  tk_placements k : bt_get (placements (catalog s (this st'))) k =
    if decide (k ∈ ids) then None else bt_get (placements (catalog s (this st))) k;
  tk_contents s' : contents (catalog s' (this st')) = contents (catalog s' (this st));
  tk_reservations s' : reservations (catalog s' (this st')) = reservations (catalog s' (this st));
  tk_metrics : content_bytes (metrics (this st')) = content_bytes (metrics (this st));
  tk_budget : budget st' = budget st;
  tk_held : held (this st') = held (this st);
}.

Lemma take_all_runs strict F s ids st :
  store_ok strict F st → NoDup ids → Forall (λ id, is_Some (bt_get (placements (catalog s (this st))) id)) ids →
  runs (for_each ids (take_placement s)) (λ _ st', taken strict F s ids st st') st.
Proof.
  revert st. induction ids as [|id ids IH]; intros st Hok Hnd Hids; cbn [for_each].
  { by apply runs_ret; split. }
  apply NoDup_cons in Hnd as [Hid Hnd]. apply Forall_cons in Hids as [[pl Hpl] Hids].
  pose proof (take_moved _ _ _ _ _ _ Hok Hpl) as Hm. set (st1 := {| this := _; budget := _ |}) in Hm.
  pose proof (pk_next _ _ (so_plane _ _ _ Hok)) as [_ Hnext]. pose proof (without_new _ _ _ _ Hpl Hnext) as Hn.
  assert (∀ k, bt_get (placements (catalog s (this st1))) k =
    if decide (k = id) then None else bt_get (placements (catalog s (this st))) k) as Hget.
  { intros k. unfold st1. cbn [this]. rewrite (np_catalog _ _ _ _ Hn). cbn. rewrite bt_get_remove by apply Hok.
    destruct (Z.eqb_spec k id); by repeat case_decide. }
  apply runs_bind. exists tt, st1. split; [by eapply take_run|].
  eapply runs_mono; [|apply (IH st1); [apply Hm|done|]].
  - intros [] st2 [T1 T2 T3 T3' T4 T5 T6]. split.
    + by eapply moved_trans.
    + intros k. rewrite T2, Hget. repeat case_decide; try done; set_solver.
    + intros s'. rewrite T3. apply (new_contents_same _ _ _ _ Hn).
    + intros s'. rewrite T3'. apply (new_contents_same _ _ _ _ Hn).
    + rewrite T4. apply (np_bytes _ _ _ _ Hn).
    + done.
    + rewrite T6. by apply (new_placements_held _ _ _ _ Hn).
  - rewrite Forall_forall in *. intros k Hk. rewrite Hget, decide_False by set_solver. by apply Hids.
Qed.

(** The identities of some of a screen's placements. *)
Lemma listed_ids strict s f p :
  plane_ok strict p → let ids := placement_id <$> List.filter f (bt_values (placements (catalog s p))) in
  NoDup ids ∧ Forall (λ id, is_Some (bt_get (placements (catalog s p)) id)) ids ∧
  ∀ k pl, bt_get (placements (catalog s p)) k = Some pl → k ∈ ids ↔ f pl = true.
Proof. intros Hp. apply listed_keys; [apply Hp|]. intros k pl. by apply (placement_key _ _ _ _ Hp). Qed.

(** ** Contents *)

(** A plane in which only the contents and reservations of a screen changed. *)
Record new_contents (s : ActiveScreen) (m : btree ImageContent) (r : btree Z) (p p' : ImagePlane) : Prop := {
  nc_catalog : catalog s p' = set_reservations r (set_contents m (catalog s p));
  nc_other : catalog (other s) p' = catalog (other s) p;
  nc_limits : plane_limits p' = plane_limits p;
  nc_shared : shared_budget p' = shared_budget p;
  nc_next : next_content_id p ≤ next_content_id p' ≤ u64_max;
  nc_placement : next_placement_id p' = next_placement_id p;
  nc_bytes : content_bytes (metrics p') = content_bytes (metrics p) - charges (catalog s p) + sum_of charge (bt_values m);
  nc_count : content_count (metrics p') = content_count (metrics p) - stored (catalog s p) + Z.of_nat (length m);
  nc_placed : placement_count (metrics p') = placement_count (metrics p);
}.

Lemma new_contents_placements s m r p p' :
  new_contents s m r p p' → ∀ s', placements (catalog s' p') = placements (catalog s' p).
Proof. intros [H1 H2 _ _ _ _ _ _ _] s'. destruct (screen_cases s s') as [->| ->]; [by rewrite H1|by rewrite H2]. Qed.

Lemma content_ok_mono l n n' k x : content_ok l n k x → n ≤ n' → content_ok l n' k x.
Proof. intros [] ?. split; try done; lia. Qed.

Lemma contents_ok strict s m r p p' :
  plane_ok strict p → new_contents s m r p p' → bt_wf m →
  (∀ k x, bt_get m k = Some x → content_ok (plane_limits p) (next_content_id p') k x) →
  r.*1 = (if shared_budget p then m.*1 else []) →
  content_bytes (metrics p') ≤ bytes_per_terminal (plane_limits p) →
  content_count (metrics p') ≤ contents_per_terminal (plane_limits p) →
  (∀ k pl, bt_get (placements (catalog s p)) k = Some pl →
     (∀ x, bt_get m (content_id pl) = Some x →
        crop_inside (source pl) (content_width (metadata x)) (content_height (metadata x))) ∧
     (strict = true → is_Some (bt_get m (content_id pl)))) →
  plane_ok strict p'.
Proof.
  intros [K1 K2 K3 K4 K5 K6 K7 K8 K9 K10 K11 K12 K13 K14] Hn Hwf Hx Hr Hb Hc Hpl.
  pose proof (new_contents_placements _ _ _ _ _ Hn) as Hp. pose proof Hn as [N1 N2 N3 N4 N5 N6 N7 N8 N9]. split.
  - intros s'. destruct (screen_cases s s') as [->| ->]; [by rewrite N1|rewrite N2; apply K1].
  - intros s'. rewrite Hp. apply K2.
  - intros s' k x. rewrite N3. destruct (screen_cases s s') as [->| ->]; [rewrite N1; apply Hx|].
    rewrite N2. intros Hk. eapply content_ok_mono; [by eapply K3|lia].
  - intros s' k pl. rewrite Hp, N6. intros Hk. destruct (K4 s' k pl Hk) as [P1 P2 P3 P4 P5 P6 P7 P8 P9]. split; try done; [lia|].
    destruct (screen_cases s s') as [->| ->]; [rewrite N1; by apply (Hpl k)|rewrite N2; apply P6].
  - intros s'. rewrite N4. destruct (screen_cases s s') as [->| ->]; [by rewrite N1|rewrite N2; apply K5].
  - rewrite N7, K6, !(total_screens _ s), N1, N2. unfold charges. simpl. lia.
  - rewrite N8, K7, !(total_screens _ s), N1, N2. unfold stored. simpl. lia.
  - rewrite N9, K8, !(total_screens _ s). unfold placed. by rewrite !Hp.
  - by rewrite N3.
  - by rewrite N3.
  - unfold placement_keys. rewrite (Hp Normal : placements (normal p') = _), (Hp Alternate : placements (alternate p') = _). exact K11.
  - rewrite N6. lia.
  - by rewrite N3.
  - intros Hs. destruct (K14 Hs) as [S1 S2]. split; [by rewrite N9, N3|]. intros s' k pl. rewrite Hp.
    intros Hk. destruct (screen_cases s s') as [->| ->]; [rewrite N1; by apply (Hpl k)|rewrite N2; by eapply S2].
Qed.

Definition without_content (s : ActiveScreen) (id : Z) (p : ImagePlane) (x : ImageContent) : ImagePlane :=
  set_metrics (set_content_count (content_count (metrics p) - 1) (set_content_bytes (content_bytes (metrics p) - charge x) (metrics p)))
    (update_catalog s (λ c, set_reservations (bt_remove (reservations c) id) c)
       (update_catalog s (λ c, set_contents (bt_remove (contents c) id) c) p)).

Lemma without_content_new s id p x :
  bt_get (contents (catalog s p)) id = Some x → 1 ≤ next_content_id p ≤ u64_max →
  new_contents s (bt_remove (contents (catalog s p)) id) (bt_remove (reservations (catalog s p)) id) p (without_content s id p x).
Proof.
  intros Hid Hnext. unfold without_content. set (f := λ c, set_contents _ c). set (g := λ c, set_reservations _ c).
  destruct (update_fields s f p) as (E1 & E2 & E3 & E4 & E5 & E6 & E7).
  destruct (update_fields s g (update_catalog s f p)) as (D1 & D2 & D3 & D4 & D5 & D6 & D7).
  split; rewrite ?catalog_metrics, ?catalog_same, ?catalog_other; cbn; try done; try congruence; try lia.
  - unfold charges. rewrite (bt_values_remove _ _ _ Hid). simpl. lia.
  - unfold stored. rewrite (Permutation_length (bt_remove_perm _ _ _ Hid)). simpl. lia.
Qed.

Lemma linked_sub p p' b b' :
  linked p b →
  (∀ s k l, bt_get (reservations (catalog s p')) k = Some l → bt_get (reservations (catalog s p)) k = Some l) →
  (∀ s k x, bt_get (contents (catalog s p')) k = Some x → bt_get (contents (catalog s p)) k = Some x) →
  stable (held p') b b' → linked p' b'.
Proof.
  intros Hl Hr Hc [_ Hs] s k l x Hk Hx. rewrite Hs; [by eapply Hl; eauto|].
  unfold held. apply elem_of_app. destruct s; [left|right]; by eapply bt_get_value.
Qed.

(** A reservation goes with its content. *)
Lemma reservation_of strict s p k :
  plane_ok strict p → is_Some (bt_get (contents (catalog s p)) k) →
  bool_decide (is_Some (bt_get (reservations (catalog s p)) k)) = shared_budget p.
Proof.
  intros Hp Hk. pose proof (pk_reserved _ _ Hp s) as Hr. destruct (shared_budget p).
  - apply bool_decide_eq_true. by rewrite (bt_get_keys _ _ k Hr).
  - apply fmap_nil_inv in Hr as ->. done.
Qed.

Lemma without_content_ok strict s id p x :
  plane_ok strict p → bt_get (contents (catalog s p)) id = Some x →
  (strict = true → ∀ k pl, bt_get (placements (catalog s p)) k = Some pl → content_id pl ≠ id) →
  plane_ok strict (without_content s id p x).
Proof.
  intros Hp Hid Hun. pose proof (pk_next _ _ Hp) as [Hnext _]. pose proof (without_content_new _ _ _ _ Hid Hnext) as Hn.
  pose proof (pk_contents _ _ Hp s) as Hwf. assert (0 ≤ charge x) as Hch.
  { destruct (pk_content _ _ Hp _ _ _ Hid). nia. }
  assert (∀ k y, bt_get (bt_remove (contents (catalog s p)) id) k = Some y → bt_get (contents (catalog s p)) k = Some y) as Hsub.
  { intros k y. rewrite bt_get_remove by done. by case_match. }
  eapply contents_ok; [exact Hp|exact Hn|by apply bt_remove_wf| | | | |].
  - intros k y Hy%Hsub. eapply content_ok_mono; [by apply (pk_content _ _ Hp s)|apply Hn].
  - pose proof (pk_reserved _ _ Hp s) as Hr. destruct (shared_budget p); [by apply bt_remove_keys|].
    apply fmap_nil_inv in Hr as ->. done.
  - pose proof (pk_bytes_limit _ _ Hp). unfold without_content. cbn. lia.
  - pose proof (pk_count_limit _ _ Hp). unfold without_content. cbn. lia.
  - intros k pl Hk. split; [intros y Hy%Hsub; by apply (pk_placement _ _ Hp s k)|]. intros Hs.
    rewrite bt_get_remove by done. rewrite (proj2 (Z.eqb_neq _ _)) by (by apply (Hun Hs k)).
    by apply (st_content _ (pk_strict _ _ Hp Hs) s k).
Qed.

Lemma without_content_fields s id p x :
  let p' := without_content s id p x in
  held p ≡ₚ (match bt_get (reservations (catalog s p)) id with Some l => [l] | None => [] end) ++ held p'.
Proof.
  cbv zeta. rewrite (held_perm s p), (held_perm s (without_content s id p x)). unfold without_content.
  rewrite !catalog_metrics, !catalog_other, catalog_same, catalog_same. cbn.
  destruct (bt_get (reservations (catalog s p)) id) as [l|] eqn:Hl.
  - by rewrite (bt_values_remove _ _ _ Hl).
  - simpl. f_equiv. unfold bt_values. by rewrite (bt_remove_none _ _ Hl).
Qed.

Lemma remove_only_runs strict F s id st x :
  store_ok strict F st → bt_get (contents (catalog s (this st))) id = Some x →
  (strict = true → ∀ k pl, bt_get (placements (catalog s (this st))) k = Some pl → content_id pl ≠ id) →
  runs (remove_content_only s id) (λ _ st', moved strict F st st' ∧ this st' = without_content s id (this st) x) st.
Proof.
  intros [Hp Hb Hl Hd] Hid Hun. set (p := this st) in *. pose proof (without_content_ok _ _ _ _ _ Hp Hid Hun) as Hp'.
  pose proof (pk_next _ _ Hp) as [Hnext _]. pose proof (without_content_new _ _ _ _ Hid Hnext) as Hn.
  pose proof (pk_contents _ _ Hp) as Hwf. set (p' := without_content s id p x) in *.
  assert (∀ s' k y, bt_get (contents (catalog s' p')) k = Some y → bt_get (contents (catalog s' p)) k = Some y) as Hsub.
  { intros s' k y. destruct (screen_cases s s') as [->| ->]; [|by rewrite (nc_other _ _ _ _ _ Hn)].
    rewrite (nc_catalog _ _ _ _ _ Hn). cbn. rewrite bt_get_remove by apply Hwf. by case_match. }
  assert (∀ s', bt_wf (reservations (catalog s' p))) as Hrw.
  { intros s'. pose proof (pk_reserved _ _ Hp s') as Hr. destruct (shared_budget p).
    - eapply bt_wf_keys; [exact Hr|apply Hwf].
    - apply fmap_nil_inv in Hr as ->. constructor. }
  assert (∀ s' k l, bt_get (reservations (catalog s' p')) k = Some l → bt_get (reservations (catalog s' p)) k = Some l) as Hres.
  { intros s' k y. destruct (screen_cases s s') as [->| ->]; [|by rewrite (nc_other _ _ _ _ _ Hn)].
    rewrite (nc_catalog _ _ _ _ _ Hn). cbn. rewrite bt_get_remove by apply Hrw. by case_match. }
  assert (runs (match bt_get (reservations (catalog s p)) id with Some l => release l | None => ret tt end)
    (λ _ st', this st' = p' ∧ budget_ok (budget st') (held p' ++ F) ∧ stable (held p' ++ F) (budget st) (budget st'))
    {| this := p'; budget := budget st |}) as Hrel.
  { pose proof (without_content_fields s id p x) as Hh. cbv zeta in Hh. fold p' in Hh.
    destruct (bt_get (reservations (catalog s p)) id) as [l|].
    - apply (release_runs l {| this := p'; budget := budget st |}). cbn [budget]. eapply budget_perm; [|exact Hb].
      by rewrite Hh.
    - apply runs_ret. cbn [this budget]. split_and!; [done| |done]. eapply budget_perm; [|exact Hb]. by rewrite Hh. }
  assert (charge x ≤ content_bytes (metrics p) ∧ 1 ≤ content_count (metrics p)) as [B1 B2].
  { rewrite (pk_bytes _ _ Hp), (pk_count _ _ Hp), !(total_screens _ s). unfold charges, stored.
    rewrite (Permutation_length (bt_remove_perm _ _ _ Hid)). simpl. split; [|lia].
    assert (∀ s' y, y ∈ bt_values (contents (catalog s' p)) → 0 ≤ charge y) as Hnn.
    { intros s' y [k Hk]%bt_value_get; [|apply Hwf]. destruct (pk_content _ _ Hp _ _ _ Hk). nia. }
    pose proof (sum_of_elem charge _ x (Hnn s) (bt_get_value _ _ _ Hid)).
    pose proof (sum_of_nonneg charge _ (Hnn (other s))). lia. }
  destruct Hrel as ([] & st' & Hrun & E & Hb' & Hs'). exists tt, st'. split.
  - unfold remove_content_only, plane_get, on_catalog, on_plane, sub_usize. cbn. fold p. rewrite Hid. cbn.
    rewrite (reservation_of _ _ _ _ Hp (ex_intro _ x Hid)), Bool.eqb_reflx. cbn. fold p. fold (charge x).
    rewrite (proj2 (Z.leb_le (charge x) _)) by done. cbn. rewrite (proj2 (Z.leb_le 1 _)) by done. cbn. exact Hrun.
  - split; [|done]. split.
    + split; rewrite E; [done|done| |].
      * eapply linked_sub; [exact Hl|exact Hres|exact Hsub|]. eapply stable_subset; [|exact Hs']. set_solver.
      * rewrite (without_content_fields s id p x) in Hd. by apply NoDup_app in Hd as (_ & _ & ?).
    + rewrite E. split; [apply Hn|apply Hn| | |apply Hsub| |fold p; rewrite (without_content_fields s id p x); set_solver].
      * by unfold p', without_content; destruct s.
      * by rewrite (nc_placement _ _ _ _ _ Hn).
      * intros s' k _. by rewrite (new_contents_placements _ _ _ _ _ Hn).
    + eapply stable_subset; [|exact Hs']. set_solver.
Qed.
