(* ===== verification/ImagesOps.v ===== *)
(** * The operations of the image plane keep its invariant

    Reclaiming, inserting and replacing contents and placements, splitting
    placements around text, and working on a copy of the plane. *)

From S2P Require Import Prelude RustStd Update Sixel Images ImagesInv ImagesSteps.

#[local] Open Scope Z_scope.

(** ** Reclaiming *)

Lemma wp_attempt {A} (m : M Store ImageError A) Q st :
  wp m (λ r st', match r with Panic => Q Panic st' | r => Q (Ok r) st' end) st → wp (attempt m) Q st.
Proof. unfold wp, attempt. by destruct (m st) as [[a|e|] st']. Qed.

Lemma attempt_runs {A} (m : M Store ImageError A) Q st : runs m Q st → runs (attempt m) (λ r st', ∃ a, r = Ok a ∧ Q a st') st.
Proof. intros (a & st' & Hm & HQ). exists (Ok a), st'. unfold attempt. rewrite Hm. split; [done|]. by exists a. Qed.

Lemma expect_ok_runs {A} (m : M Store ImageError A) Q st : runs m Q st → runs (expect_ok m) Q st.
Proof.
  intros Hm. unfold expect_ok. apply runs_bind. eapply runs_mono; [|by apply attempt_runs].
  intros r st' (a & -> & HQ). by apply runs_ret.
Qed.

Definition same_placements (st st' : Store) : Prop :=
  ∀ s, placements (catalog s (this st')) = placements (catalog s (this st)).

Lemma remove_all_runs strict F s ids st :
  store_ok strict F st → NoDup ids → Forall (λ id, is_Some (bt_get (contents (catalog s (this st))) id)) ids →
  (strict = true → ∀ k pl, bt_get (placements (catalog s (this st))) k = Some pl → content_id pl ∉ ids) →
  runs (for_each ids (λ id, expect_ok (remove_content_only s id)))
    (λ _ st', moved strict F st st' ∧ same_placements st st') st.
Proof.
  revert st. induction ids as [|id ids IH]; intros st Hok Hnd Hids Hun; cbn [for_each].
  { apply runs_ret. split; [by apply moved_refl|done]. }
  apply NoDup_cons in Hnd as [Hid Hnd]. apply Forall_cons in Hids as [[x Hx] Hids]. apply runs_bind.
  eapply runs_mono; [|apply expect_ok_runs, (remove_only_runs strict F s id st x); [done|done|]].
  2: { intros Hs k pl Hk. specialize (Hun Hs k pl Hk). set_solver. }
  intros [] st1 [Hm E]. pose proof (pk_next _ _ (so_plane _ _ _ Hok)) as [Hnext _].
  pose proof (without_content_new _ _ _ _ Hx Hnext) as Hn. rewrite <-E in Hn.
  eapply runs_mono; [|apply (IH st1); [apply Hm|done| |]].
  - intros [] st2 [Hm2 Hp2]. split; [by eapply moved_trans|]. intros s'. rewrite Hp2.
    apply (new_contents_placements _ _ _ _ _ Hn).
  - rewrite Forall_forall in *. intros k Hk. rewrite (nc_catalog _ _ _ _ _ Hn). cbn.
    rewrite bt_get_remove by apply Hok. rewrite (proj2 (Z.eqb_neq _ _)) by set_solver. by apply Hids.
  - intros Hs k pl. rewrite (new_contents_placements _ _ _ _ _ Hn). intros Hk. specialize (Hun Hs k pl Hk). set_solver.
Qed.

Lemma reclaim_runs strict F st :
  store_ok strict F st →
  runs reclaim_unplaced_while_placed (λ _ st', moved strict F st st' ∧ same_placements st st') st.
Proof.
  intros Hok. unfold reclaim_unplaced_while_placed.
  assert (∀ s st, store_ok strict F st → runs (let! p := plane_get in
    for_each (reclaimable (catalog s p)) (λ id, expect_ok (remove_content_only s id)))
    (λ _ st', moved strict F st st' ∧ same_placements st st') st) as Hone.
  { clear st Hok. intros s st Hok. apply runs_bind. unfold plane_get. apply runs_bind, runs_get, runs_ret.
    unfold reclaimable. set (f := λ content, _ && _). pose proof (so_plane _ _ _ Hok) as Hp.
    destruct (listed_keys (λ x, metadata_id (metadata x)) f (contents (catalog s (this st)))) as (N1 & N2 & N3).
    { apply Hp. } { intros k x Hk. by apply (pk_content _ _ Hp s). }
    apply remove_all_runs; [done|exact N1|exact N2|]. intros _ k pl Hk Hin.
    rewrite Forall_forall in N2. destruct (N2 _ Hin) as [x Hx]. apply (N3 _ _ Hx) in Hin.
    apply andb_true_iff in Hin as [_ Hin%negb_true_iff%bool_decide_eq_false]. apply Hin.
    rewrite (co_id _ _ _ _ (pk_content _ _ Hp _ _ _ Hx)). apply list_elem_of_fmap. exists pl. split; [done|].
    by eapply bt_get_value. }
  cbn [for_each]. apply runs_bind. eapply runs_mono; [|by apply Hone]. intros [] st1 [M1 P1].
  apply runs_bind. eapply runs_mono; [|apply Hone, M1]. intros [] st2 [M2 P2]. apply runs_ret.
  split; [by eapply moved_trans|]. intros s. by rewrite P2, P1.
Qed.

(** ** Inserting placements *)

(** A new placement with the types of the code. *)
Record new_ok (n : NewImagePlacement) : Prop := {
  nk_source : 0 ≤ rect_x (new_source n) ∧ 0 ≤ rect_y (new_source n) ∧ 0 ≤ rect_width (new_source n) ∧ 0 ≤ rect_height (new_source n);
  nk_column : 0 ≤ new_column n;
  nk_destination : 0 ≤ extent_columns (new_destination n) ∧ 0 ≤ extent_rows (new_destination n);
  nk_cell z : new_source_cell_size n = Some z → 0 ≤ size_width z ∧ 0 ≤ size_height z;
}.

Lemma validate_crop_Ok r w h u :
  0 ≤ rect_x r → 0 ≤ rect_y r → 0 ≤ rect_width r → 0 ≤ rect_height r →
  validate_crop r w h = Ok u → crop_inside r w h.
Proof.
  intros Hx Hy Hw Hh. unfold validate_crop, within. intros H.
  repeat (case_match; simplify_eq; try done); rewrite ?orb_true_r, ?orb_false_iff in *; destruct_and?; try done; split; lia.
Qed.

Lemma validate_placement_Ok row dst u :
  validate_placement row dst = Ok u → row ≠ 0 ∧ extent_columns dst ≠ 0 ∧ extent_rows dst ≠ 0.
Proof. unfold validate_placement. intros H. repeat (case_match; try done). lia. Qed.

Lemma validate_cell_Ok z u :
  validate_source_cell_size z = Ok u → ∀ y, z = Some y → size_width y ≠ 0 ∧ size_height y ≠ 0.
Proof. unfold validate_source_cell_size. intros H y ->. repeat (case_match; try done). lia. Qed.

Definition placement_of (s : ActiveScreen) (id order : Z) (n : NewImagePlacement) : ImagePlacement := {|
  placement_id := id; content_id := new_content_id n; placement_screen := s; row_id := new_row_id n;
  placement_column := new_column n; source := new_source n; destination := new_destination n;
  source_cell_size := new_source_cell_size n; x_offset := new_x_offset n; y_offset := new_y_offset n;
  z_index := new_z_index n; application_image_id := new_application_image_id n;
  application_placement_id := new_application_placement_id n; creation_order := order;
  erase_policy := new_erase_policy n |}.

(** A key no placement has. *)
Lemma fresh_key strict p s : plane_ok strict p → bt_get (placements (catalog s p)) (next_placement_id p) = None.
Proof.
  intros Hp. destruct (bt_get _ _) as [pl|] eqn:E; [|done]. apply (pk_placement _ _ Hp) in E as [_ H _ _ _ _ _ _ _]. lia.
Qed.

Lemma fresh_keys strict p : plane_ok strict p → next_placement_id p ∉ placement_keys p.
Proof.
  intros Hp. unfold placement_keys. rewrite elem_of_app, <-!bt_get_key.
  pose proof (fresh_key _ _ Normal Hp) as H1. pose proof (fresh_key _ _ Alternate Hp) as H2. simpl in H1, H2.
  rewrite H1, H2. by intros [[]|[]].
Qed.

Lemma keys_insert s p k pl :
  NoDup (placement_keys p) → k ∉ placement_keys p →
  NoDup ((bt_insert (placements (catalog s p)) k pl).*1 ++ (placements (catalog (other s) p)).*1).
Proof.
  intros Hnd Hk. rewrite (keys_perm s p) in Hnd. rewrite (keys_perm s p) in Hk.
  assert (bt_get (placements (catalog s p)) k = None) as Hn.
  { apply eq_None_not_Some. rewrite bt_get_key. set_solver. }
  rewrite (bt_insert_perm _ _ _ Hn). simpl. by constructor.
Qed.

(** The placements of [st] stay, under the identities it had given out. *)
Definition kept (st st' : Store) : Prop :=
  next_placement_id (this st) ≤ next_placement_id (this st') ∧
  ∀ s k, k < next_placement_id (this st) →
    bt_get (placements (catalog s (this st'))) k = bt_get (placements (catalog s (this st))) k.

Lemma kept_trans st1 st2 st3 : kept st1 st2 → kept st2 st3 → kept st1 st3.
Proof. intros [A1 A2] [B1 B2]. split; [lia|]. intros s k Hk. rewrite B2 by lia. by apply A2. Qed.

Lemma insert_placement_spec strict F s n st :
  store_ok strict F st → new_ok n →
  wp (insert_placement s n) (λ r st', match r with
    | Ok id => moved strict F st st' ∧ kept st st'
    | Err _ => st' = st
    | Panic => False
    end) st.
Proof.
  intros Hok [(X1 & X2 & X3 & X4) X5 (X6 & X7) X8]. pose proof (so_plane _ _ _ Hok) as Hp. unfold insert_placement.
  wp_step; [|done|by unfold validate_placement in *; repeat case_match]. apply validate_placement_Ok in H as (_ & D1 & D2).
  unfold plane_get. wp_step. wp_step. wp_step. wp_step; [|done]. rename a0 into x. rename H into Hx.
  wp_step; [|done|by unfold validate_crop in *; repeat case_match]. apply validate_crop_Ok in H; [|done..]. rename H into Hcrop.
  wp_step; [|done|by unfold validate_source_cell_size in *; repeat case_match]. pose proof (validate_cell_Ok _ _ H) as Hcell. clear H.
  wp_step; [|done]. apply Z.leb_gt in H. wp_step; [|done]. unfold identity in H0.
  destruct (next_placement_id (this st) =? 0) eqn:E0; [done|]. injection H0 as <-.
  wp_step; [|done]. unfold within in H0. destruct (Z.leb_spec (next_placement_id (this st) + 1) u64_max) as [Hlt|]; [|done]. injection H0 as <-.
  wp_step; [|done]. clear H0. set (id := next_placement_id (this st)) in *. set (pl := placement_of s id (next_creation_order (this st)) n).
  pose proof (pl_placements _ (pk_limits _ _ Hp)) as Hmax. unfold on_plane, on_catalog, update_high_water, add_usize.
  unfold wp. cbn. rewrite (proj2 (Z.leb_le _ _)) by lia. cbn. set (p' := set_metrics _ _).
  assert (new_placements s (bt_insert (placements (catalog s (this st))) id pl) (this st) p') as Hn.
  { pose proof (fresh_key _ _ s Hp) as Hfresh. fold id in Hfresh.
    assert (Z.of_nat (length (bt_insert (placements (catalog s (this st))) id pl)) = placed (catalog s (this st)) + 1) as Hlen.
    { rewrite (Permutation_length (bt_insert_perm _ _ _ Hfresh)). unfold placed. simpl. lia. }
    unfold p', pl, id in *. split; destruct s; cbn in *; try done; try lia. }
  split; [split; cbn [this budget]|].
  - eapply placements_store; [exact Hok|exact Hn|]. eapply placements_ok; [exact Hp|exact Hn|apply bt_insert_wf, Hp| | |].
    + intros k q. rewrite bt_get_insert by apply Hp. assert (next_placement_id p' = id + 1) as -> by (unfold p'; by destruct s).
      destruct (Z.eqb_spec k id) as [->|Hne].
      * intros [= <-]. pose proof (pk_next _ _ Hp) as [_ ?]. unfold pl. split; cbn; try done; try lia.
        -- by apply (pk_content _ _ Hp s _ x).
        -- destruct Hcrop. lia.
        -- intros y Hy. rewrite Hx in Hy. by injection Hy as <-.
        -- intros z Hz. destruct (X8 z Hz), (Hcell z Hz). lia.
      * intros Hk. eapply placement_ok_mono; [by apply (pk_placement _ _ Hp)|unfold id; lia].
    + apply keys_insert; [apply Hp|by eapply fresh_keys].
    + intros Hs. split.
      * rewrite (np_placed _ _ _ _ Hn), (Permutation_length (bt_insert_perm _ _ _ (fresh_key _ _ s Hp))). unfold placed. simpl. lia.
      * intros k q. rewrite bt_get_insert by apply Hp. destruct (k =? id); [intros [= <-]; by eexists|].
        by apply (st_content _ (pk_strict _ _ Hp Hs)).
  - eapply new_placements_shrinks; [exact Hn|]. intros k Hk. rewrite bt_get_insert by apply Hp.
    fold id in Hk. by rewrite (proj2 (Z.eqb_neq _ _)) by lia.
  - done.
  - split; cbn [this]; [apply Hn|]. intros s' k Hk. destruct (screen_cases s s') as [->| ->]; [|by rewrite (np_other _ _ _ _ Hn)].
    rewrite (np_catalog _ _ _ _ Hn). cbn. rewrite bt_get_insert by apply Hp. by rewrite (proj2 (Z.eqb_neq _ _)) by (unfold id; lia).
Qed.

(** ** Splitting placements around text *)

Lemma insert_all_spec strict F s ns st :
  store_ok strict F st → Forall new_ok ns →
  wp (for_each ns (λ n, do! insert_placement s n in ret tt))
    (λ r st', r ≠ Panic ∧ moved strict F st st' ∧ kept st st') st.
Proof.
  revert st. induction ns as [|n ns IH]; intros st Hok Hns; cbn [for_each].
  { wp_step. split_and!; [done|by apply moved_refl|done]. }
  apply Forall_cons in Hns as [Hn Hns]. wp_step. apply wp_bind. eapply wp_mono; [|by apply (insert_placement_spec strict F)].
  intros [id|e|] st1; [|intros ->; split_and!; [done|by apply moved_refl|done]|done]. intros [M1 K1]. wp_step.
  eapply wp_mono; [|apply (IH st1); [apply M1|done]]. intros r st2 (Hr & M2 & K2).
  split_and!; [done|by eapply moved_trans|by eapply kept_trans].
Qed.

Lemma edge_Ok cells extent limit e v :
  0 ≤ cells → 0 ≤ extent → 0 ≤ limit →
  ok_or_image (c ← within u32_max cells; edge ← within u32_max (c * extent); Some (Z.min edge limit)) e = Ok v →
  v = Z.min (cells * extent) limit ∧ 0 ≤ v.
Proof.
  intros Hc He Hl. unfold within. repeat (case_match; simpl; try done). intros [= <-]. split; [done|]. nia.
Qed.

Lemma ok_within m x e v : ok_or_image (within m x) e = Ok v → v = x ∧ x ≤ m.
Proof. unfold within. destruct (Z.leb_spec x m); simpl; [|done]. by intros [= <-]. Qed.

Ltac outcome_step :=
  match goal with
  | H : obind ?r _ = Ok _ |- _ => let E := fresh "E" in destruct r eqn:E; cbn [obind] in H; try discriminate H
  end.

(** A fragment, when there is one. *)
Record fragment_of (pl : ImagePlacement) (size : PixelSize) (anchor_row : Z) (row_order : list Z) (x y columns rows : Z)
    (n : NewImagePlacement) : Prop := {
  fr_content : new_content_id n = content_id pl;
  fr_row : row_order !! Z.to_nat (anchor_row + y) = Some (new_row_id n);
  fr_column : new_column n = placement_column pl + x;
  fr_extent : new_destination n = {| extent_columns := columns; extent_rows := rows |};
  fr_x : rect_x (new_source n) = rect_x (source pl) + Z.min (x * size_width size) (rect_width (source pl));
  fr_y : rect_y (new_source n) = rect_y (source pl) + Z.min (y * size_height size) (rect_height (source pl));
  fr_right : rect_x (new_source n) + rect_width (new_source n) =
    rect_x (source pl) + Z.min ((x + columns) * size_width size) (rect_width (source pl));
  fr_bottom : rect_y (new_source n) + rect_height (new_source n) =
    rect_y (source pl) + Z.min ((y + rows) * size_height size) (rect_height (source pl));
  fr_size : 0 < rect_width (new_source n) ∧ 0 < rect_height (new_source n);
  fr_cell : new_source_cell_size n = source_cell_size pl;
  fr_policy : new_erase_policy n = erase_policy pl;
  fr_offset : new_x_offset n = (if x =? 0 then x_offset pl else 0) ∧ new_y_offset n = (if y =? 0 then y_offset pl else 0);
  fr_labels : new_z_index n = z_index pl ∧ new_application_image_id n = application_image_id pl ∧
    new_application_placement_id n = application_placement_id pl;
}.

Lemma fragment_Ok pl size anchor_row row_order x y columns rows ns :
  0 ≤ x → 0 ≤ y → 0 ≤ columns → 0 ≤ rows → 0 ≤ size_width size → 0 ≤ size_height size →
  0 ≤ rect_width (source pl) → 0 ≤ rect_height (source pl) →
  fragment pl size anchor_row row_order x y columns rows = Ok ns →
  (columns = 0 ∨ rows = 0) ∧ ns = [] ∨
  0 < columns ∧ 0 < rows ∧ ∃ n, ns = [n] ∧ fragment_of pl size anchor_row row_order x y columns rows n.
Proof.
  intros Hx Hy Hc Hr Hsw Hsh Hw Hh. unfold fragment. destruct (_ || _) eqn:Hz; intros H.
  { left. injection H as <-. split; [|done]. apply orb_true_iff in Hz as [?%Z.eqb_eq|?%Z.eqb_eq]; auto. }
  apply orb_false_iff in Hz as [?%Z.eqb_neq ?%Z.eqb_neq]. right. split; [lia|]. split; [lia|].
  repeat outcome_step. apply ok_within in E1 as [-> _], E3 as [-> _], E7 as [-> _], E9 as [-> _], E10 as [-> _], E11 as [-> _].
  apply edge_Ok in E as [-> _], E0 as [-> _], E2 as [-> _], E4 as [-> _]; [|lia..].
  destruct (Z.ltb_spec (Z.min (x * size_width size) (rect_width (source pl)))
    (Z.min ((x + columns) * size_width size) (rect_width (source pl)))); [|done]. injection E5 as <-.
  destruct (Z.ltb_spec (Z.min (y * size_height size) (rect_height (source pl)))
    (Z.min ((y + rows) * size_height size) (rect_height (source pl)))); [|done]. injection E6 as <-.
  destruct (row_order !! Z.to_nat (anchor_row + y)) eqn:Erow; [|done]. injection E8 as <-. injection H as <-.
  eexists. split; [done|]. split; cbn; try done; lia.
Qed.

Lemma fragment_returns pl size anchor_row row_order x y columns rows :
  fragment pl size anchor_row row_order x y columns rows ≠ Panic.
Proof.
  unfold fragment. destruct (_ || _); [done|]. cbv zeta. unfold ok_or_image.
  repeat (match goal with |- obind (match ?o with _ => _ end) _ ≠ Panic => destruct o; cbn [obind]; [|done]
          | |- obind (if ?b then _ else _) _ ≠ Panic => destruct b; cbn [obind]; [|done] end). done.
Qed.

(** The relative edges of a rectangle of cells in a placement. *)
Definition edges (extent origin start stop left right : Z) : Prop :=
  left = Z.min (saturating_sub start origin) extent ∧
  right = Z.max (Z.min (saturating_sub stop origin) extent) left.

Lemma edges_range extent origin start stop left right :
  0 ≤ extent → edges extent origin start stop left right → 0 ≤ left ≤ right ∧ right ≤ extent.
Proof. unfold edges, saturating_sub. lia. Qed.

(** The four parts, where the placement has a cell size. *)
Lemma fragments_Ok pl anchor_row row_order start_row end_row start_column end_column size ns :
  source_cell_size pl = Some size → 0 < size_width size → 0 < size_height size →
  0 < extent_columns (destination pl) → 0 < extent_rows (destination pl) →
  placement_fragments pl anchor_row row_order start_row end_row start_column end_column = Ok ns →
  ∃ left right top bottom above below before after,
    edges (extent_columns (destination pl)) (placement_column pl) start_column end_column left right ∧
    edges (extent_rows (destination pl)) anchor_row start_row end_row top bottom ∧
    ns = above ++ below ++ before ++ after ∧
    fragment pl size anchor_row row_order 0 0 (extent_columns (destination pl)) top = Ok above ∧
    fragment pl size anchor_row row_order 0 bottom (extent_columns (destination pl)) (extent_rows (destination pl) - bottom) = Ok below ∧
    fragment pl size anchor_row row_order 0 top left (bottom - top) = Ok before ∧
    fragment pl size anchor_row row_order right top (extent_columns (destination pl) - right) (bottom - top) = Ok after.
Proof.
  intros Hsize Hw Hh Hc Hr. unfold placement_fragments. rewrite Hsize.
  rewrite (proj2 (Z.eqb_neq (size_width size) 0)), (proj2 (Z.eqb_neq (size_height size) 0)) by lia. cbn [orb]. cbv zeta. intros H.
  repeat outcome_step. injection H as <-. do 8 eexists. split_and!; done.
Qed.

Lemma fragments_return pl anchor_row row_order start_row end_row start_column end_column :
  placement_fragments pl anchor_row row_order start_row end_row start_column end_column ≠ Panic.
Proof.
  unfold placement_fragments. destruct (source_cell_size pl) as [size|]; [|done]. destruct (_ || _); [done|]. cbv zeta.
  repeat (match goal with |- obind ?r _ ≠ Panic => destruct r eqn:?; cbn [obind]; [|done|by exfalso; eapply fragment_returns] end). done.
Qed.

Lemma fragments_new_ok s c nc np k pl anchor_row row_order start_row end_row start_column end_column ns :
  placement_ok s c nc np k pl →
  placement_fragments pl anchor_row row_order start_row end_row start_column end_column = Ok ns → Forall new_ok ns.
Proof.
  intros [P1 P2 P3 P4 (S1 & S2 & S3 & S4) P6 P7 (D1 & D2) P9] Hns. destruct (source_cell_size pl) as [size|] eqn:Hsize.
  2: { unfold placement_fragments in Hns. rewrite Hsize in Hns. by injection Hns as <-. }
  destruct (P9 size eq_refl) as [Z1 Z2].
  destruct (fragments_Ok _ _ _ _ _ _ _ _ _ Hsize Z1 Z2 D1 D2 Hns) as (left & right & top & bottom & above & below & before & after & E1 & E2 & -> & F1 & F2 & F3 & F4).
  pose proof (edges_range _ _ _ _ _ _ (Z.lt_le_incl _ _ D1) E1) as Hlr.
  pose proof (edges_range _ _ _ _ _ _ (Z.lt_le_incl _ _ D2) E2) as Htb.
  assert (∀ x y columns rows l, 0 ≤ x → 0 ≤ y → 0 ≤ columns → 0 ≤ rows →
    fragment pl size anchor_row row_order x y columns rows = Ok l → Forall new_ok l) as Hone.
  { intros x y columns rows l Hx Hy Hc Hr Hf. apply fragment_Ok in Hf; [|lia..].
    destruct Hf as [[_ ->]|(Hc' & Hr' & n & -> & [])]; [constructor|]. constructor; [|constructor]. split.
    - nia.
    - lia.
    - rewrite fr_extent0. simpl. lia.
    - intros z. rewrite fr_cell0, Hsize. intros [= <-]. lia. }
  rewrite !Forall_app. split_and!; (eapply Hone; [| | | |eassumption]); lia.
Qed.

(** The text placements around a rectangle are placements of the screen, listed
    once. *)
Lemma targets_listed strict s row_order start_row end_row start_column end_column p :
  plane_ok strict p →
  let targets := text_overlap_targets s row_order start_row end_row start_column end_column p in
  NoDup (placement_id <$> targets.*1) ∧
  Forall (λ '(pl, anchor_row), bt_get (placements (catalog s p)) (placement_id pl) = Some pl) targets.
Proof.
  intros Hp. cbv zeta. unfold text_overlap_targets. destruct (_ || _); [split; constructor|].
  set (f := λ pl : ImagePlacement, if negb _ then None else _).
  assert (∀ pl t, f pl = Some t → t.1 = pl) as Hf.
  { intros pl t. unfold f. destruct (negb _); [done|]. destruct (bt_get _ _); simpl; [|done]. case_match; [|done]. by intros [= <-]. }
  assert (∀ l : list ImagePlacement, (omap f l).*1 = List.filter (λ pl, bool_decide (is_Some (f pl))) l) as Homap.
  { induction l as [|pl l IH]; [done|]. simpl. destruct (f pl) as [t|] eqn:E; simpl.
    - by rewrite (Hf _ _ E), <-IH.
    - exact IH. }
  destruct (listed_ids strict s (λ pl, bool_decide (is_Some (f pl))) p Hp) as (N1 & N2 & N3). split; [by rewrite Homap|].
  apply Forall_forall. intros [pl a] Ht. apply list_elem_of_omap in Ht as (q & Hq & E). pose proof (Hf _ _ E) as E1. simpl in E1. subst q.
  apply bt_value_get in Hq as [k Hk]; [|apply Hp]. by rewrite (placement_key _ _ _ _ Hp s Hk).
Qed.

Lemma split_loop strict F s row_order start_row end_row start_column end_column targets st :
  store_ok strict F st → NoDup (placement_id <$> targets.*1) →
  Forall (λ '(pl, anchor_row), bt_get (placements (catalog s (this st))) (placement_id pl) = Some pl) targets →
  wp (for_each targets (λ '(pl, anchor_row),
        let! fragments := lift (placement_fragments pl anchor_row row_order start_row end_row start_column end_column) in
        do! take_placement s (placement_id pl) in
        for_each fragments (λ fragment, do! insert_placement s fragment in ret tt)))
    (λ r st', r ≠ Panic ∧ moved strict F st st') st.
Proof.
  revert st. induction targets as [|[pl a] targets IH]; intros st Hok Hnd Hall; cbn [for_each].
  { wp_step. split; [done|by apply moved_refl]. }
  rewrite !fmap_cons in Hnd. apply NoDup_cons in Hnd as [Hnin Hnd]. apply Forall_cons in Hall as [Hpl Hall].
  pose proof (so_plane _ _ _ Hok) as Hp. apply wp_bind. cbv beta iota. wp_step.
  2: { split; [done|by apply moved_refl]. } 2: { by apply fragments_return in H. }
  rename a0 into ns. apply (fragments_new_ok _ _ _ _ _ _ _ _ _ _ _ _ _ (pk_placement _ _ Hp _ _ _ Hpl)) in H as Hns.
  pose proof (take_moved _ _ _ _ _ _ Hok Hpl) as M1. set (st1 := {| this := _; budget := _ |}) in M1.
  apply wp_bind. unfold wp at 1. rewrite (take_run _ _ _ _ _ _ Hok Hpl). cbn [fst snd]. fold st1.
  eapply wp_mono; [|apply (insert_all_spec strict F s ns st1); [apply M1|done]].
  intros [[]|e|] st2 (Hr & M2 & K2); [|split; [done|by eapply moved_trans]|done].
  assert (moved strict F st st2) as M3 by by eapply moved_trans.
  eapply wp_mono; [|apply (IH st2); [apply M2|done|]]; [intros r st3 [? M4]; split; [done|by eapply moved_trans]|].
  rewrite Forall_forall in *. intros [q b] Hq. specialize (Hall _ Hq). simpl in Hall.
  pose proof (pk_next _ _ Hp) as [_ Hnext]. pose proof (without_new _ _ _ _ Hpl Hnext) as Hn.
  destruct K2 as [_ K2]. rewrite K2.
  - unfold st1. cbn [this]. rewrite (np_catalog _ _ _ _ Hn). cbn. rewrite bt_get_remove by apply Hp.
    rewrite (proj2 (Z.eqb_neq _ _)); [done|]. intros He. apply Hnin, list_elem_of_fmap.
    exists q. split; [by rewrite He|]. apply list_elem_of_fmap. by exists (q, b).
  - apply (pk_placement _ _ Hp) in Hall as [_ Hlt _ _ _ _ _ _ _]. unfold st1. cbn [this].
    pose proof (np_next _ _ _ _ Hn). lia.
Qed.

Lemma split_overlaps_spec strict F s row_order start_row end_row start_column end_column st :
  store_ok strict F st →
  wp (split_text_overlaps s row_order start_row end_row start_column end_column)
    (λ r st', r ≠ Panic ∧ moved strict F st st') st.
Proof.
  intros Hok. unfold split_text_overlaps, plane_get. do 3 wp_step. set (targets := text_overlap_targets _ _ _ _ _ _ _).
  destruct (targets_listed strict s row_order start_row end_row start_column end_column _ (so_plane _ _ _ Hok)) as [T1 T2].
  apply wp_bind. eapply wp_mono; [|by apply split_loop]. intros [[]|e|] st1 [Hr M1]; [|done|done].
  eapply (wp_bind_runs _ _ (λ _ st2, moved strict F st st2)).
  - destruct (bool_decide _); [by apply runs_ret|]. eapply runs_mono; [|apply (reclaim_runs strict F st1), M1].
    intros [] st2 [M2 _]. by eapply moved_trans.
  - intros [] st2 M2. by wp_step.
Qed.

Lemma whole_runs strict F s row_order start_row end_row start_column end_column st :
  store_ok strict F st →
  runs (remove_text_overlaps_whole s row_order start_row end_row start_column end_column)
    (λ _ st', moved strict F st st') st.
Proof.
  intros Hok. unfold remove_text_overlaps_whole, plane_get. apply runs_bind, runs_bind, runs_get, runs_ret. cbv zeta.
  set (targets := text_overlap_targets _ _ _ _ _ _ _).
  destruct (targets_listed strict s row_order start_row end_row start_column end_column _ (so_plane _ _ _ Hok)) as [T1 T2].
  fold targets in T1, T2. apply runs_bind.
  assert (for_each targets (λ '(pl, _), take_placement s (placement_id pl)) =
    for_each (placement_id <$> targets.*1) (take_placement s)) as ->.
  { rewrite <-list_fmap_compose, for_each_fmap. clear T1 T2. induction targets as [|[pl a] l IH]; [done|]. simpl. by rewrite IH. }
  eapply runs_mono; [|apply (take_all_runs strict F); [done|done|]].
  - intros [] st1 [M1 _ _ _ _ _ _]. apply runs_bind.
    assert (runs (if bool_decide (length targets = 0%nat) then ret tt else reclaim_unplaced_while_placed)
      (λ _ st2, moved strict F st st2) st1) as Hrec.
    { destruct (bool_decide _); [by apply runs_ret|]. eapply runs_mono; [|apply (reclaim_runs strict F st1), M1].
      intros [] st2 [M2 _]. by eapply moved_trans. }
    eapply runs_mono; [|exact Hrec]. intros [] st2 M2. by apply runs_ret.
  - rewrite Forall_fmap, Forall_fmap. eapply Forall_impl; [exact T2|]. intros [pl a]. simpl. intros ->. by eexists.
Qed.
