(* ===== verification/ImagesCalls.v ===== *)
(** * Every call of the image plane keeps the invariant

    The operations that work on a copy of the plane, then the others, each with
    the leases held by other planes. *)

From S2P Require Import Prelude RustStd Update Sixel Images ImagesInv ImagesSteps ImagesOps.

#[local] Open Scope Z_scope.

(** The leases of the plane are among those it had or new. *)
Definition own_leases (st st' : Store) : Prop :=
  ∀ l, l ∈ held (this st') → l ∈ held (this st) ∨ next_lease (budget st) ≤ l.

(** What a call leaves, apart from its answer. *)
Record kept_ok (strict : bool) (F : list Z) (st st' : Store) : Prop := {
  ko_ok : store_ok strict F st';
  ko_stable : stable F (budget st) (budget st');
  ko_own : own_leases st st';
}.

Lemma own_trans F st1 st2 st3 :
  stable F (budget st1) (budget st2) → own_leases st1 st2 → own_leases st2 st3 → own_leases st1 st3.
Proof. intros [[_ Hn] _] H1 H2 l [Hl|Hl]%H2; [by apply H1|right; lia]. Qed.

Lemma own_sub st st' : held (this st') ⊆ held (this st) → own_leases st st'.
Proof. intros Hs l Hl. left. by apply Hs. Qed.

Lemma kept_refl strict F st : store_ok strict F st → kept_ok strict F st st.
Proof. split; [done|done|by apply own_sub]. Qed.

Lemma kept_ok_trans strict F st1 st2 st3 : kept_ok strict F st1 st2 → kept_ok strict F st2 st3 → kept_ok strict F st1 st3.
Proof. intros [_ A2 A3] [B1 B2 B3]. split; [done|by eapply stable_trans|by eapply own_trans]. Qed.

Lemma moved_kept strict F st st' : moved strict F st st' → kept_ok strict F st st'.
Proof. intros [? Hsh ?]. split; [done|done|apply own_sub, Hsh]. Qed.

Lemma plane_weaken strict p : plane_ok strict p → plane_ok false p.
Proof. intros []. by split. Qed.

Lemma store_weaken strict F st : store_ok strict F st → store_ok false F st.
Proof. intros [H1 H2 H3 H4]. split; [by eapply plane_weaken|done|done|done]. Qed.

(** ** Copies *)

Lemma clone_runs strict F st :
  store_ok strict F st →
  runs (clone_plane (this st)) (λ _ st', this st' = this st ∧ store_ok strict (held (this st) ++ F) st' ∧
    ∀ K, stable K (budget st) (budget st')) st.
Proof.
  intros [Hp Hb Hl Hd]. unfold clone_plane. eapply runs_mono; [|apply (retain_all_runs _ st _ Hb)].
  - intros [] st' (E & Hb' & Hs). split_and!; [done| |done]. split; rewrite E; [done|done| |done].
    by eapply linked_sub.
  - apply Forall_forall. set_solver.
Qed.

(** A plane is dropped: the one a copy replaces, or the copy. *)
Lemma drop_runs strict F p st0 st :
  store_ok strict (held p ++ F) st → stable F (budget st0) (budget st) → own_leases st0 st →
  runs (drop_plane p) (λ _ st', kept_ok strict F st0 st') st.
Proof.
  intros [Hp Hb Hl Hd] Hst Hown. unfold drop_plane. eapply runs_mono; [|apply (release_all_runs (held p) st (held (this st) ++ F))].
  - intros [] st' (E & Hb' & Hs). split.
    + split; rewrite E; [done|done| |done]. eapply linked_sub; [exact Hl|done|done|]. eapply stable_subset; [|exact Hs]. set_solver.
    + eapply stable_trans; [exact Hst|]. eapply stable_subset; [|exact Hs]. set_solver.
    + intros l. rewrite E. apply Hown.
  - eapply budget_perm; [|exact Hb]. apply Permutation_app_swap_app.
Qed.

(** Linked leases stay linked while they are held elsewhere. *)
Lemma linked_stable p b b' K : linked p b → stable K b b' → held p ⊆ K → linked p b'.
Proof. intros Hl Hs HK. eapply linked_sub; [exact Hl|done|done|]. by eapply stable_subset. Qed.

(** The plane put back, while the copy that was worked on still is held. *)
Lemma aside_ok strict strict' F st st' :
  store_ok strict F st → store_ok strict' (held (this st) ++ F) st' →
  stable (held (this st) ++ F) (budget st) (budget st') →
  store_ok strict (held (this st') ++ F) {| this := this st; budget := budget st' |}.
Proof.
  intros [Hp _ Hl Hd] [_ Hb _ _] Hs. split; cbn; [done| | |done].
  - eapply budget_perm; [|exact Hb]. apply Permutation_app_swap_app.
  - eapply linked_stable; [exact Hl|exact Hs|set_solver].
Qed.

(** Work on a copy, seen from before the copy. *)
Lemma copy_worked strict K F st st1 st2 :
  this st1 = this st → (∀ K, stable K (budget st) (budget st1)) → kept_ok strict (K ++ F) st1 st2 →
  stable (K ++ F) (budget st) (budget st2) ∧ stable F (budget st) (budget st2) ∧ own_leases st st2.
Proof.
  intros E S1 [_ S2 O2]. assert (stable (K ++ F) (budget st) (budget st2)) as S by (by eapply stable_trans). split_and!; [done| |].
  - eapply stable_subset; [|exact S]. set_solver.
  - eapply own_trans; [apply (S1 [])| |exact O2]. apply own_sub. by rewrite E.
Qed.

Lemma attempt_spec {A} (m : M Store ImageError A) Q st :
  wp m (λ r st', r ≠ Panic ∧ Q st') st → runs (attempt m) (λ r st', r ≠ Panic ∧ Q st') st.
Proof.
  unfold wp, runs, attempt. destruct (m st) as [[a|e|] st']; cbn; intros [Hr HQ]; [by exists (Ok a), st'|by exists (Err e), st'|done].
Qed.

Lemma remove_text_overlaps_runs strict F s row_order start_row end_row start_column end_column st :
  store_ok strict F st →
  runs (remove_text_overlaps s row_order start_row end_row start_column end_column) (λ _ st', kept_ok strict F st st') st.
Proof.
  intros Hok. unfold remove_text_overlaps, plane_get. apply runs_bind, runs_bind, runs_get, runs_ret.
  apply runs_bind. eapply runs_mono; [|by apply (clone_runs strict F)]. intros [] st1 (E1 & Hok1 & S1).
  apply runs_bind. eapply runs_mono; [|apply attempt_spec, (split_overlaps_spec strict (held (this st) ++ F)), Hok1].
  intros r st2 [Hr M2]. pose proof (mv_ok _ _ _ _ M2) as Hok2.
  destruct (copy_worked _ _ _ _ _ _ E1 S1 (moved_kept _ _ _ _ M2)) as (SK & SF & O2).
  pose proof (aside_ok _ _ _ _ _ Hok Hok2 SK) as Haside.
  assert (own_leases st {| this := this st; budget := budget st2 |}) as Oself by by apply own_sub.
  destruct r as [[]|e|]; [| | |done].
  - apply runs_bind. eapply runs_mono; [|by apply (drop_runs strict F _ st)]. intros [] st3 K3. by apply runs_ret.
  - unfold set_aside, plane_get. apply runs_bind, runs_bind, runs_bind, runs_get, runs_ret, runs_bind, runs_modify, runs_ret.
    apply runs_bind. eapply runs_mono; [|by apply (drop_runs strict F _ st)]. intros [] st3 K3. by apply runs_ret.
  - unfold set_aside, plane_get. apply runs_bind, runs_bind, runs_bind, runs_get, runs_ret, runs_bind, runs_modify, runs_ret.
    apply runs_bind. eapply runs_mono; [|by apply (whole_runs strict (held (this st2) ++ F))]. intros b st3 [Hok3 Sh3 S3].
    apply runs_bind. eapply runs_mono; [|apply (drop_runs strict F _ st); [exact Hok3| |apply own_sub, Sh3]].
    + intros [] st4 K4. by apply runs_ret.
    + eapply stable_trans; [exact SF|]. eapply stable_subset; [|exact S3]. set_solver.
Qed.

(** ** Resolving overlaps *)

Lemma filter_NoDup_fmap {A} (f : A → Z) g l : NoDup (f <$> l) → NoDup (f <$> List.filter g l).
Proof.
  induction l as [|x l IH]; simpl; [done|]. intros [Hx Hl]%NoDup_cons. destruct (g x); [|by apply IH].
  simpl. constructor; [|by apply IH]. intros (y & Hy & Hin)%list_elem_of_fmap. apply Hx, list_elem_of_fmap. exists y.
  split; [done|]. rewrite list_elem_of_In in *. by apply filter_In in Hin as [? _].
Qed.

(** A placement taken from screen [s] that can be put back. *)
Record waiting (s : ActiveScreen) (p : ImagePlane) (pl : ImagePlacement) : Prop := {
  wt_ok : placement_ok s (catalog s p) (next_content_id p) (next_placement_id p) (placement_id pl) pl;
  wt_absent s' : bt_get (placements (catalog s' p)) (placement_id pl) = None;
}.

Lemma waiting_shrinks s p p' pl : waiting s p pl → shrinks p p' → waiting s p' pl.
Proof.
  intros [[P1 P2 P3 P4 P5 P6 P7 P8 P9] Ha] [S1 S2 S3 S4 S5 S6]. split.
  - rewrite S3. split; try done; [lia|]. intros x Hx. by apply P6, S5.
  - intros s'. apply S6; [lia|apply Ha].
Qed.

Definition put_back (s : ActiveScreen) (pl : ImagePlacement) : M Store ImageError unit :=
  do! on_catalog s (λ c, set_placements (bt_insert (placements c) (placement_id pl) pl) c) in
  let! p := plane_get in
  let! count := add_usize (placement_count (metrics p)) 1 in
  on_plane (set_metrics (set_placement_count count (metrics p))).

Lemma put_back_runs F s pl st :
  store_ok false F st → waiting s (this st) pl →
  runs (put_back s pl) (λ _ st', kept_ok false F st st' ∧
    ∀ q, placement_id q ≠ placement_id pl → waiting s (this st) q → waiting s (this st') q) st.
Proof.
  intros Hok [Hpl Ha]. pose proof (so_plane _ _ _ Hok) as Hp. set (p := this st) in *. set (id := placement_id pl) in *.
  set (f := λ c, set_placements (bt_insert (placements c) id pl) c).
  set (p' := set_metrics (set_placement_count (placement_count (metrics p) + 1) (metrics p)) (update_catalog s f p)).
  destruct (update_fields s f p) as (E1 & E2 & E3 & E4 & E5 & E6 & E7). pose proof (pk_next _ _ Hp) as [_ Hnext].
  assert (id ∉ placement_keys p) as Hfresh.
  { unfold placement_keys. rewrite elem_of_app, <-!bt_get_key. pose proof (Ha Normal) as H1. pose proof (Ha Alternate) as H2.
    simpl in H1, H2. rewrite H1, H2. by intros [[]|[]]. }
  assert (new_placements s (bt_insert (placements (catalog s p)) id pl) p p') as Hn.
  { unfold p'. split; rewrite ?catalog_metrics, ?catalog_same, ?catalog_other; cbn; try done; try lia.
    rewrite (Permutation_length (bt_insert_perm _ _ _ (Ha s))). unfold placed. simpl. lia. }
  assert (plane_ok false p') as Hp'.
  { eapply placements_ok; [exact Hp|exact Hn|apply bt_insert_wf, Hp| |apply keys_insert; [apply Hp|done]|done].
    intros k q. rewrite bt_get_insert by apply Hp. assert (next_placement_id p' = next_placement_id p) as -> by done.
    destruct (Z.eqb_spec k id) as [->|]; [by intros [= <-]|apply (pk_placement _ _ Hp)]. }
  assert (placement_count (metrics p) + 1 ≤ usize_max) as Hmax.
  { pose proof (pk_placed _ _ Hp') as Hc. assert (Z.of_nat (length (placement_keys p')) = total placed p') as Hlen.
    { unfold placement_keys, total, placed. rewrite length_app, !length_fmap. lia. }
    pose proof (distinct_bound (placement_keys p') (next_placement_id p') (pk_keys _ _ Hp')) as Hb.
    rewrite Hlen, <-Hc in Hb. change (placement_count (metrics p')) with (placement_count (metrics p) + 1) in Hb.
    assert (next_placement_id p' = next_placement_id p) as Enext by done. rewrite Enext in Hb.
    enough (∀ k, k ∈ placement_keys p' → 1 ≤ k < next_placement_id p) as Hk by (specialize (Hb Hk); unfold usize_max, u64_max in *; lia).
    intros k [Hk|Hk]%elem_of_app; rewrite <-bt_get_key in Hk; destruct Hk as [q Hq].
    - destruct (pk_placement _ _ Hp' Normal k q Hq). lia.
    - destruct (pk_placement _ _ Hp' Alternate k q Hq). lia. }
  exists tt, {| this := p'; budget := budget st |}. split_and!.
  - unfold put_back, on_catalog, on_plane, plane_get, add_usize. cbn. fold p id f. rewrite E3.
    rewrite (proj2 (Z.leb_le _ _)) by done. done.
  - split; [by eapply placements_store|done|]. apply own_sub. cbn [this]. by rewrite (new_placements_held _ _ _ _ Hn).
  - intros q Hq [Hqok Hqa]. cbn [this]. split.
    + rewrite (np_content _ _ _ _ Hn). assert (next_placement_id p' = next_placement_id p) as -> by done.
      destruct Hqok as [Q1 Q2 Q3 Q4 Q5 Q6 Q7 Q8 Q9]. split; try done.
      rewrite (proj1 (new_contents_same _ _ _ _ Hn s)). exact Q6.
    + intros s'. destruct (screen_cases s s') as [->| ->]; [|rewrite (np_other _ _ _ _ Hn); apply Hqa].
      rewrite (np_catalog _ _ _ _ Hn). cbn. rewrite bt_get_insert by apply Hp.
      rewrite (proj2 (Z.eqb_neq _ _)) by done. apply Hqa.
Qed.

(** One participant: room is made for it and it is put back. *)
Definition resolve_one (s : ActiveScreen) (row_order : list Z) (pl : ImagePlacement) : M Store ImageError unit :=
  match bt_get (row_positions row_order) (row_id pl) with
  | None => ret tt
  | Some anchor_row =>
      let end_row := saturating_add anchor_row (extent_rows (destination pl)) in
      let end_column := saturating_add (placement_column pl) (extent_columns (destination pl)) in
      let! r := attempt (split_text_overlaps s row_order anchor_row end_row (placement_column pl) end_column) in
      do! (if is_ok r then ret tt
           else
             do! remove_text_overlaps_whole s row_order anchor_row end_row (placement_column pl) end_column in
             ret tt) in
      put_back s pl
  end.

Lemma resolve_one_runs F s row_order pl st :
  store_ok false F st → waiting s (this st) pl →
  runs (resolve_one s row_order pl) (λ _ st', kept_ok false F st st' ∧
    ∀ q, placement_id q ≠ placement_id pl → waiting s (this st) q → waiting s (this st') q) st.
Proof.
  intros Hok Hw. unfold resolve_one. destruct (bt_get _ _) as [a|]; [|by apply runs_ret; split; [apply kept_refl|]]. cbv zeta.
  apply runs_bind. eapply runs_mono; [|apply attempt_spec, (split_overlaps_spec false F), Hok]. intros r st1 [_ M1].
  apply runs_bind. apply (runs_mono _ (λ _ st2, moved false F st st2)).
  - intros [] st2 M2. eapply runs_mono; [|apply (put_back_runs F); [apply M2|eapply waiting_shrinks; [exact Hw|apply M2]]].
    intros [] st3 [K3 W3]. split; [eapply kept_ok_trans; [by apply moved_kept|exact K3]|].
    intros q Hq Hwq. apply W3; [done|]. eapply waiting_shrinks; [exact Hwq|apply M2].
  - destruct (is_ok r); [by apply runs_ret|]. apply runs_bind. eapply runs_mono; [|apply (whole_runs false F), M1].
    intros b st2 M2. apply runs_ret. by eapply moved_trans.
Qed.

Lemma resolve_all_runs F s row_order pls st :
  store_ok false F st → NoDup (placement_id <$> pls) → Forall (waiting s (this st)) pls →
  runs (for_each pls (resolve_one s row_order)) (λ _ st', kept_ok false F st st') st.
Proof.
  revert st. induction pls as [|pl pls IH]; intros st Hok Hnd Hw; cbn [for_each]; [by apply runs_ret, kept_refl|].
  rewrite fmap_cons in Hnd. apply NoDup_cons in Hnd as [Hnin Hnd]. apply Forall_cons in Hw as [Hpl Hw].
  apply runs_bind. eapply runs_mono; [|by apply (resolve_one_runs F)]. intros [] st1 [K1 W1].
  eapply runs_mono; [|apply (IH st1); [apply K1|done|]].
  - intros [] st2 K2. by eapply kept_ok_trans.
  - rewrite Forall_forall in *. intros q Hq. apply W1; [|by apply Hw]. intros He. apply Hnin, list_elem_of_fmap. by exists q.
Qed.

Lemma taken_waiting F s ids st st' k pl :
  store_ok false F st → taken false F s ids st st' → bt_get (placements (catalog s (this st))) k = Some pl → k ∈ ids →
  waiting s (this st') pl.
Proof.
  intros Hok [M T C _ _ _ _] Hk Hin. pose proof (so_plane _ _ _ Hok) as Hp. pose proof (pk_placement _ _ Hp _ _ _ Hk) as Hpl.
  pose proof (po_id _ _ _ _ _ _ Hpl) as Hid. pose proof (mv_shrinks _ _ _ _ M) as Hsh. split.
  - rewrite Hid, (sh_next _ _ Hsh). destruct Hpl as [P1 P2 P3 P4 P5 P6 P7 P8 P9]. pose proof (sh_placement _ _ Hsh).
    split; try done; [lia|]. by rewrite C.
  - intros s'. rewrite Hid. destruct (screen_cases s s') as [->| ->]; [by rewrite T, decide_True|].
    apply (sh_absent _ _ Hsh); [apply Hpl|]. apply eq_None_not_Some. rewrite bt_get_key. intros Hother.
    pose proof (pk_keys _ _ Hp) as Hnd. rewrite (keys_perm s) in Hnd. apply NoDup_app in Hnd as (_ & Hdis & _).
    apply (Hdis k); [apply bt_get_key; by eexists|done].
Qed.

Lemma resolve_runs strict F s row_order st :
  store_ok strict F st → runs (resolve_text_overlaps s row_order) (λ _ st', kept_ok false F st st') st.
Proof.
  intros Hok%store_weaken. unfold resolve_text_overlaps, plane_get. apply runs_bind, runs_bind, runs_get, runs_ret. cbv zeta.
  set (text := sort_by _ _). set (participants := List.filter _ text).
  destruct (bool_decide _); [apply runs_ret; by apply kept_refl|]. pose proof (so_plane _ _ _ Hok) as Hp.
  assert (text ≡ₚ List.filter (λ pl, bool_decide (erase_policy pl = TextOverwrite)) (bt_values (placements (catalog s (this st))))) as Htext by apply sort_by_perm.
  destruct (listed_ids false s (λ pl, bool_decide (erase_policy pl = TextOverwrite)) _ Hp) as (N1 & N2 & N3).
  assert (NoDup (placement_id <$> participants)) as Hnd.
  { apply filter_NoDup_fmap. by rewrite Htext. }
  assert (∀ pl, pl ∈ participants → bt_get (placements (catalog s (this st))) (placement_id pl) = Some pl) as Hin.
  { intros pl Hpl. rewrite list_elem_of_In in Hpl. apply filter_In in Hpl as [Hpl _]. rewrite <-list_elem_of_In in Hpl.
    rewrite Htext, list_elem_of_In in Hpl. apply filter_In in Hpl as [Hpl _]. rewrite <-list_elem_of_In in Hpl.
    apply bt_value_get in Hpl as [k Hk]; [|apply Hp]. by rewrite (placement_key _ _ _ _ Hp s Hk). }
  apply runs_bind. eapply runs_mono; [|by apply (clone_runs false F)]. intros [] st1 (E1 & Hok1 & S1).
  apply runs_bind. eapply (runs_mono _ (λ _ st2, taken false (held (this st) ++ F) s (placement_id <$> participants) st1 st2)).
  - intros [] st2 T2. pose proof (mv_ok _ _ _ _ (tk_moved _ _ _ _ _ _ T2)) as Hok2. apply runs_bind.
    eapply runs_mono; [|apply (resolve_all_runs (held (this st) ++ F) s row_order participants st2); [done|done|]].
    + intros [] st3 K3. apply runs_bind. eapply runs_mono; [|apply (reclaim_runs false (held (this st) ++ F)), K3].
      intros [] st4 [M4 _]. destruct (copy_worked false (held (this st)) F st st1 st4 E1 S1) as (_ & SF & O4).
      { eapply kept_ok_trans; [apply moved_kept, T2|]. eapply kept_ok_trans; [exact K3|by apply moved_kept]. }
      apply runs_bind. eapply runs_mono; [|apply (drop_runs false F _ st); [apply M4|done|done]]. intros [] st5 K5. by apply runs_ret.
    + apply Forall_forall. intros pl Hpl. eapply taken_waiting; [exact Hok1|exact T2| |].
      * rewrite E1. by apply Hin.
      * apply list_elem_of_fmap. by exists pl.
  - rewrite <-for_each_fmap. apply take_all_runs; [done|done|]. rewrite E1, Forall_fmap. apply Forall_forall.
    intros pl Hpl. simpl. rewrite Hin by done. by eexists.
Qed.

(** ** Removing *)

Lemma retain_anchors_runs strict F s row_ids st :
  store_ok strict F st → runs (retain_anchors s row_ids) (λ _ st', kept_ok strict F st st') st.
Proof.
  intros Hok. unfold retain_anchors, plane_get. apply runs_bind, runs_bind, runs_get, runs_ret. cbv zeta.
  set (f := λ pl, negb _). destruct (listed_ids strict s f _ (so_plane _ _ _ Hok)) as (N1 & N2 & _).
  apply runs_bind. eapply runs_mono; [|by apply (take_all_runs strict F)]. intros [] st1 [M1 _ _ _ _ _ _].
  eapply runs_mono; [|apply (reclaim_runs strict F st1), M1]. intros [] st2 [M2 _]. apply moved_kept. by eapply moved_trans.
Qed.

Lemma outside_columns_runs strict F s columns st :
  store_ok strict F st → runs (remove_text_placements_outside_columns s columns) (λ _ st', kept_ok strict F st st') st.
Proof.
  intros Hok. unfold remove_text_placements_outside_columns, plane_get. apply runs_bind, runs_bind, runs_get, runs_ret. cbv zeta.
  set (f := λ pl, bool_decide _ && _). destruct (listed_ids strict s f _ (so_plane _ _ _ Hok)) as (N1 & N2 & _).
  apply runs_bind. eapply runs_mono; [|by apply (take_all_runs strict F)]. intros [] st1 [M1 _ _ _ _ _ _]. apply runs_bind.
  apply (runs_mono _ (λ _ st2, moved strict F st st2)); [intros [] st2 M2; by apply runs_ret, moved_kept|].
  destruct (bool_decide _); [by apply runs_ret|]. eapply runs_mono; [|apply (reclaim_runs strict F st1), M1].
  intros [] st2 [M2 _]. by eapply moved_trans.
Qed.

Lemma remove_placement_spec strict F s id st :
  store_ok strict F st → wp (remove_placement s id) (λ r st', r ≠ Panic ∧ kept_ok strict F st st') st.
Proof.
  intros Hok. unfold remove_placement, plane_get. do 3 wp_step. wp_step; [|split; [done|by apply kept_refl]].
  rename H into Hid. pose proof (take_moved _ _ _ _ _ _ Hok Hid) as M1.
  apply wp_bind. unfold wp at 1. rewrite (take_run _ _ _ _ _ _ Hok Hid). cbn [fst snd].
  eapply wp_bind_runs; [apply (reclaim_runs strict F), M1|]. intros [] st2 [M2 _]. wp_step. split; [done|].
  apply moved_kept. by eapply moved_trans.
Qed.

Lemma remove_content_spec strict F s id st :
  store_ok strict F st → wp (remove_content s id) (λ r st', r ≠ Panic ∧ kept_ok strict F st st') st.
Proof.
  intros Hok. unfold remove_content, plane_get, placements_of. do 3 wp_step.
  set (f := λ pl, content_id pl =? id). pose proof (so_plane _ _ _ Hok) as Hp.
  destruct (listed_ids strict s f _ Hp) as (N1 & N2 & N3).
  eapply wp_bind_runs; [by apply (take_all_runs strict F)|]. intros [] st1 [M1 T1 C1 _ _ _ _].
  destruct (bt_get (contents (catalog s (this st1))) id) as [x|] eqn:Hx.
  - destruct (remove_only_runs strict F s id st1 x) as ([] & st2 & Hrun & M2 & _); [apply M1|done| |].
    { intros _ k pl Hk He. rewrite T1 in Hk. destruct (decide _) as [|Hn]; [done|]. apply Hn, (N3 _ _ Hk). unfold f. lia. }
    unfold wp. rewrite Hrun. split; [done|]. apply moved_kept. by eapply moved_trans.
  - unfold remove_content_only, plane_get. do 3 wp_step. wp_step; [congruence|]. split; [done|by apply moved_kept].
Qed.

Lemma remap_runs strict F s replacements st :
  store_ok strict F st → runs (remap_anchors s replacements) (λ _ st', kept_ok strict F st st') st.
Proof.
  intros Hok. pose proof (so_plane _ _ _ Hok) as Hp. unfold remap_anchors, plane_get.
  apply runs_bind, runs_bind, runs_get, runs_ret. cbv zeta. set (old := placements (catalog s (this st))).
  set (f := λ pl, match bt_get replacements (row_id pl) with Some r => set_row_id r pl | None => pl end).
  set (m := @fmap list _ _ _ _ old). assert (m = (λ e, (e.1, f e.2)) <$> (old : list _)) as Em.
  { unfold m. apply list_fmap_ext. by intros i [k pl] _. }
  assert (m.*1 = old.*1) as Hkeys by (rewrite Em, <-list_fmap_compose; by apply list_fmap_ext).
  assert (∀ k, bt_get m k = f <$> bt_get old k) as Hget.
  { intros k. rewrite Em. clear. induction old as [|[k' pl] l IH]; [done|]. simpl. by destruct (k =? k'). }
  clearbody m. apply runs_bind. set (p' := update_catalog s (set_placements m) (this st)).
  destruct (update_fields s (set_placements m) (this st)) as (E1 & E2 & E3 & E4 & E5 & E6 & E7).
  assert (new_placements s m (this st) p') as Hn.
  { pose proof (pk_next _ _ Hp) as [_ ?]. unfold p'. split; rewrite ?catalog_same, ?catalog_other, ?E1, ?E2, ?E3, ?E4, ?E5; try done; [lia|].
    unfold placed. fold old. rewrite <-(length_fmap fst old), <-Hkeys, length_fmap. lia. }
  apply runs_modify, runs_ret. split; [|done|apply own_sub; cbn [this]; by rewrite <-(new_placements_held _ _ _ _ Hn)].
  apply (placements_store strict F s m st p'); [done|done|].
  eapply placements_ok; [exact Hp|exact Hn| | | |].
  - eapply bt_wf_keys; [exact Hkeys|apply Hp].
  - intros k pl. rewrite Hget. destruct (bt_get old k) as [q|] eqn:Hq; [|done]. intros [= <-].
    assert (next_placement_id p' = next_placement_id (this st)) as -> by apply E5.
    destruct (pk_placement _ _ Hp _ _ _ Hq) as [P1 P2 P3 P4 P5 P6 P7 P8 P9].
    unfold f. destruct (bt_get replacements _); split; done.
  - rewrite Hkeys. pose proof (pk_keys _ _ Hp) as Hnd. by rewrite (keys_perm s) in Hnd.
  - intros Hs. destruct (pk_strict _ _ Hp Hs) as [S1 S2]. split.
    + unfold p'. by rewrite E3.
    + intros k pl. rewrite Hget. destruct (bt_get old k) as [q|] eqn:Hq; [|done]. intros [= <-].
      pose proof (S2 _ _ _ Hq) as Hsome. unfold f. by destruct (bt_get replacements _).
Qed.

Lemma sum_usize_runs l t st :
  0 ≤ t → Forall (λ n, 0 ≤ n) l → t + sum_of (λ n, n) l ≤ usize_max →
  sum_usize t l st = (Ok (t + sum_of (λ n, n) l), st).
Proof.
  revert t. induction l as [|n l IH]; intros t Ht Hl Hmax; simpl in *; [by rewrite Z.add_0_r|].
  apply Forall_cons in Hl as [Hn Hl]. assert (0 ≤ sum_of (λ n, n) l) by (apply sum_of_nonneg; by apply Forall_forall).
  unfold add_usize. unfold bind at 1. rewrite (proj2 (Z.leb_le _ _)) by lia. cbn. rewrite IH by (try done; lia). f_equal. f_equal. lia.
Qed.

Definition empty_catalog : ImageCatalog := {| contents := []; reservations := []; placements := [] |}.

Definition cleared (s : ActiveScreen) (p : ImagePlane) : ImagePlane :=
  let c := catalog s p in
  set_metrics (set_placement_count (placement_count (metrics p) - placed c)
    (set_content_count (content_count (metrics p) - stored c)
      (set_content_bytes (content_bytes (metrics p) - charges c) (metrics p))))
    (update_catalog s (λ _, empty_catalog) p).

Lemma charge_nonneg strict s x p : plane_ok strict p → x ∈ bt_values (contents (catalog s p)) → 0 ≤ charge x.
Proof. intros Hp [k Hk]%bt_value_get; [|apply Hp]. destruct (pk_content _ _ Hp _ _ _ Hk). nia. Qed.

Lemma charges_nonneg strict s p : plane_ok strict p → 0 ≤ charges (catalog s p).
Proof. intros Hp. apply sum_of_nonneg. intros x. by apply (charge_nonneg strict). Qed.

(** A screen has no more than the plane. *)
Lemma screen_part strict s p :
  plane_ok strict p →
  charges (catalog s p) ≤ content_bytes (metrics p) ∧ stored (catalog s p) ≤ content_count (metrics p) ∧
  placed (catalog s p) ≤ placement_count (metrics p).
Proof.
  intros Hp. rewrite (pk_bytes _ _ Hp), (pk_count _ _ Hp), (pk_placed _ _ Hp), !(total_screens _ s).
  pose proof (charges_nonneg _ (other s) p Hp). unfold stored, placed. lia.
Qed.

Lemma cleared_fields s p :
  let p' := cleared s p in
  catalog s p' = empty_catalog ∧ catalog (other s) p' = catalog (other s) p ∧ plane_limits p' = plane_limits p ∧
  shared_budget p' = shared_budget p ∧ next_content_id p' = next_content_id p ∧
  next_placement_id p' = next_placement_id p ∧ held p ≡ₚ bt_values (reservations (catalog s p)) ++ held p'.
Proof.
  cbv zeta. assert (catalog s (cleared s p) = empty_catalog ∧ catalog (other s) (cleared s p) = catalog (other s) p) as [C1 C2] by (by destruct s).
  split_and!; try done; try (by destruct s). by rewrite (held_perm s p), (held_perm s (cleared s p)), C1, C2.
Qed.

Lemma cleared_ok strict s p : plane_ok strict p → plane_ok strict (cleared s p).
Proof.
  intros Hp. pose proof (charges_nonneg _ s p Hp) as Hnn. destruct (cleared_fields s p) as (C1 & C2 & D1 & D2 & D3 & D4 & _).
  destruct Hp as [K1 K2 K3 K4 K5 K6 K7 K8 K9 K10 K11 K12 K13 K14].
  assert (content_bytes (metrics (cleared s p)) = content_bytes (metrics p) - charges (catalog s p)) as E1 by done.
  assert (content_count (metrics (cleared s p)) = content_count (metrics p) - stored (catalog s p)) as E2 by done.
  assert (placement_count (metrics (cleared s p)) = placement_count (metrics p) - placed (catalog s p)) as E3 by done.
  set (p' := cleared s p) in *. split.
  - intros s'. destruct (screen_cases s s') as [->| ->]; [rewrite C1; constructor|rewrite C2; apply K1].
  - intros s'. destruct (screen_cases s s') as [->| ->]; [rewrite C1; constructor|rewrite C2; apply K2].
  - intros s' k x. rewrite D1, D3. destruct (screen_cases s s') as [->| ->]; [by rewrite C1|rewrite C2; apply K3].
  - intros s' k pl. rewrite D3, D4. destruct (screen_cases s s') as [->| ->]; [by rewrite C1|rewrite C2; apply K4].
  - intros s'. rewrite D2. destruct (screen_cases s s') as [->| ->]; [rewrite C1; by destruct (shared_budget p)|rewrite C2; apply K5].
  - rewrite (total_screens _ s p'), C1, C2, E1, K6, (total_screens _ s p). change (charges empty_catalog) with 0. lia.
  - rewrite (total_screens _ s p'), C1, C2, E2, K7, (total_screens _ s p). change (stored empty_catalog) with 0. lia.
  - rewrite (total_screens _ s p'), C1, C2, E3, K8, (total_screens _ s p). change (placed empty_catalog) with 0. lia.
  - rewrite D1. lia.
  - rewrite D1. unfold stored in E2. lia.
  - rewrite (keys_perm s p'), C1, C2. simpl. rewrite (keys_perm s p) in K11. by apply NoDup_app in K11 as (_ & _ & ?).
  - by rewrite D3, D4.
  - by rewrite D1.
  - intros Hs. destruct (K14 Hs) as [S2 S3]. split; [rewrite D1; unfold placed in E3; lia|].
    intros s' k pl. destruct (screen_cases s s') as [->| ->]; [by rewrite C1|rewrite C2; apply S3].
Qed.

Lemma clear_runs strict F s st :
  store_ok strict F st → runs (clear_screen s) (λ _ st', kept_ok strict F st st') st.
Proof.
  intros [Hp Hb Hl Hd]. unfold clear_screen, plane_get. apply runs_bind, runs_bind, runs_get, runs_ret. cbv zeta.
  set (p := this st) in *. destruct (cleared_fields s p) as (C1 & C2 & _ & _ & _ & _ & Hheld). set (c := catalog s p) in *.
  destruct (screen_part _ s _ Hp) as (B1 & B2 & B3). pose proof (pk_bytes_limit _ _ Hp). pose proof (pl_terminal _ (pk_limits _ _ Hp)).
  assert (sum_of (λ n, n) ((λ x, byte_charge (metadata x)) <$> bt_values (contents c)) = charges c) as Hsum by apply sum_of_fmap.
  apply runs_bind. exists (charges c), st. split.
  { fold c in B1. rewrite sum_usize_runs; rewrite ?Hsum; [done|done| |lia]. apply Forall_forall.
    intros n (x & -> & Hx)%list_elem_of_fmap. by apply (charge_nonneg strict s x p). }
  apply runs_bind, runs_modify, runs_bind, runs_modify, runs_bind. cbn [this budget].
  eapply runs_mono; [|apply (release_all_runs _ _ (held (cleared s p) ++ F)); cbn [budget]; eapply budget_perm; [|exact Hb]].
  2: { rewrite Hheld. by rewrite <-app_assoc. }
  intros [] st1 (E & Hb1 & S1). cbn [this budget] in E, S1.
  apply runs_bind, runs_modify. exists tt, {| this := cleared s p; budget := budget st1 |}. split.
  { unfold sub_usize. cbn. fold c in B1, B2, B3 |- *. fold (stored c) (placed c). rewrite (proj2 (Z.leb_le _ _) B1). cbn.
    rewrite (proj2 (Z.leb_le _ _) B2). cbn. rewrite (proj2 (Z.leb_le _ _) B3). cbn. rewrite E. by destruct s. }
  split; [|cbn [budget]; eapply stable_subset; [|exact S1]; set_solver|apply own_sub; cbn [this]; fold p; rewrite Hheld; set_solver].
  split; cbn [this budget]; [by apply cleared_ok|done| |].
  2: { rewrite Hheld in Hd. by apply NoDup_app in Hd as (_ & _ & ?). }
  eapply linked_sub; [exact Hl| | |eapply stable_subset; [|exact S1]; set_solver].
  - intros s' k l. destruct (screen_cases s s') as [->| ->]; [by rewrite C1|by rewrite C2].
  - intros s' k x. destruct (screen_cases s s') as [->| ->]; [by rewrite C1|by rewrite C2].
Qed.
