(* ===== verification/ImagesInsert.v ===== *)
(** * Inserting and replacing the contents of the image plane *)

From S2P Require Import Prelude RustStd Update Sixel Images ImagesInv ImagesSteps ImagesOps ImagesCalls.

#[local] Open Scope Z_scope.

Section insert.
Context (sha256 : list Z → list Z).

(** A new content with the types of the code. *)
Definition input_ok (n : NewImageContent) : Prop := 0 ≤ new_width n ∧ 0 ≤ new_height n.

Lemma geometry_Ok l w h v :
  0 ≤ w → 0 ≤ h → validate_content_geometry l w h = Ok v →
  0 < w ≤ maximum_dimension l ∧ 0 < h ≤ maximum_dimension l ∧ v = 4 * (w * h) ∧ v ≤ bytes_per_content l ∧ v ≤ usize_max.
Proof using Type.
  intros Hw Hh. unfold validate_content_geometry, within. intros H.
  repeat (case_match; simplify_option_eq; try done). repeat match goal with H : _ || _ = false |- _ => apply orb_false_iff in H as [? ?] end. lia.
Qed.

Lemma geometry_returns l w h : validate_content_geometry l w h ≠ Panic.
Proof using Type. unfold validate_content_geometry. by repeat case_match. Qed.

Lemma content_Ok l n v :
  input_ok n → validate_content l n = Ok v →
  0 < new_width n ≤ maximum_dimension l ∧ 0 < new_height n ≤ maximum_dimension l ∧
  v = 4 * (new_width n * new_height n) ∧ v ≤ bytes_per_content l ∧ v ≤ usize_max ∧ Z.of_nat (length (new_pixels n)) = v.
Proof using Type.
  intros [Hw Hh]. unfold validate_content. destruct (validate_content_geometry l _ _) as [e| |] eqn:Hg; simpl; [|done|done].
  apply geometry_Ok in Hg as (G1 & G2 & G3 & G4 & G5); [|done..]. destruct (Z.eqb_spec (Z.of_nat (length (new_pixels n))) e); simpl; [|done].
  intros [= <-]. split_and!; lia.
Qed.

Lemma content_returns l n : validate_content l n ≠ Panic.
Proof using Type.
  unfold validate_content. destruct (validate_content_geometry l _ _) eqn:Hg; simpl; [by case_match|done|by apply geometry_returns in Hg].
Qed.

Lemma new_content_ok l n k g v input :
  input_ok input → validate_content l input = Ok v → 1 ≤ k < n → content_ok l n k (new_content sha256 k g v input).
Proof using Type.
  intros Hi Hv Hk. destruct (content_Ok _ _ _ Hi Hv) as (H1 & H2 & H3 & H4 & H5 & H6). split; cbn; try done.
Qed.

Lemma terminal_bytes_Some more p next :
  terminal_bytes more p = Some next ↔
  next = content_bytes (metrics p) + more ∧ next ≤ usize_max ∧ next ≤ bytes_per_terminal (plane_limits p).
Proof using Type.
  unfold terminal_bytes, within. destruct (Z.leb_spec (content_bytes (metrics p) + more) usize_max); cbn [mbind option_bind].
  - destruct (Z.leb_spec (content_bytes (metrics p) + more) (bytes_per_terminal (plane_limits p))); naive_solver lia.
  - naive_solver lia.
Qed.

(** The content of a new identity. *)
Lemma with_content_ok strict s x r p p' :
  plane_ok strict p → next_content_id p' = next_content_id p + 1 →
  new_contents s (bt_insert (contents (catalog s p)) (next_content_id p) x) r p p' →
  content_ok (plane_limits p) (next_content_id p + 1) (next_content_id p) x →
  r.*1 = (if shared_budget p then (bt_insert (contents (catalog s p)) (next_content_id p) x).*1 else []) →
  content_bytes (metrics p') ≤ bytes_per_terminal (plane_limits p) →
  content_count (metrics p') ≤ contents_per_terminal (plane_limits p) →
  plane_ok strict p'.
Proof using Type.
  intros Hp Hnext Hn Hx Hr Hb Hc. pose proof (pk_contents _ _ Hp s) as Hwf.
  assert (∀ pl k, bt_get (placements (catalog s p)) k = Some pl → content_id pl ≠ next_content_id p) as Hfresh.
  { intros pl k Hk. destruct (pk_placement _ _ Hp _ _ _ Hk). lia. }
  eapply contents_ok; [exact Hp|exact Hn|by apply bt_insert_wf| |exact Hr|exact Hb|exact Hc|].
  - intros k y. rewrite Hnext, bt_get_insert by done. destruct (Z.eqb_spec k (next_content_id p)) as [->|].
    + by intros [= <-].
    + intros Hy. eapply content_ok_mono; [by apply (pk_content _ _ Hp s)|lia].
  - intros k pl Hk. rewrite bt_get_insert by done. rewrite (proj2 (Z.eqb_neq _ _)) by (by eapply Hfresh). split.
    + intros y Hy. by apply (pk_placement _ _ Hp s k).
    + intros Hs. by apply (st_content _ (pk_strict _ _ Hp Hs) s k).
Qed.

(** A content was stored under a new identity that no placement has. *)
Record content_added (s : ActiveScreen) (n : NewImageContent) (st' : Store) (id : Z) : Prop := {
  ca_content : ∃ x, bt_get (contents (catalog s (this st'))) id = Some x ∧
    content_width (metadata x) = new_width n ∧ content_height (metadata x) = new_height n;
  ca_fresh k pl : bt_get (placements (catalog s (this st'))) k = Some pl → content_id pl ≠ id;
}.

Lemma fresh_content strict s p : plane_ok strict p → bt_get (contents (catalog s p)) (next_content_id p) = None.
Proof using Type.
  intros Hp. destruct (bt_get _ _) as [x|] eqn:E; [|done]. apply (pk_content _ _ Hp) in E as [_ H _ _ _ _ _]. lia.
Qed.

Lemma fresh_reservation strict s p : plane_ok strict p → bt_get (reservations (catalog s p)) (next_content_id p) = None.
Proof using Type.
  intros Hp. apply eq_None_not_Some. intros Hk. pose proof (pk_reserved _ _ Hp s) as Hr. destruct (shared_budget p).
  - rewrite (bt_get_keys _ _ _ Hr), (fresh_content _ _ _ Hp) in Hk. by destruct Hk.
  - apply fmap_nil_inv in Hr. rewrite Hr in Hk. by destruct Hk.
Qed.

(** From the plane before to the plane with the content, the budget with its
    lease if there is one. *)
Lemma content_store strict F s n gen v st p' b' r :
  let p := this st in let id := next_content_id p in let x := new_content sha256 id gen v n in
  store_ok strict F st → input_ok n → validate_content (plane_limits p) n = Ok v →
  next_content_id p' = id + 1 → new_contents s (bt_insert (contents (catalog s p)) id x) r p p' →
  content_bytes (metrics p') ≤ bytes_per_terminal (plane_limits p) →
  content_count (metrics p') ≤ contents_per_terminal (plane_limits p) →
  (if shared_budget p then ∃ l, r = bt_insert (reservations (catalog s p)) id l ∧ budget_ok b' (l :: held p ++ F) ∧
     stable (held p ++ F) (budget st) b' ∧ lease_bytes <$> leases b' !! l = Some v ∧ l ∉ held p ∧ next_lease (budget st) ≤ l
   else r = reservations (catalog s p) ∧ b' = budget st) →
  kept_ok strict F st {| this := p'; budget := b' |} ∧ content_added s n {| this := p'; budget := b' |} id.
Proof using Type.
  cbv zeta. intros [Hp Hb Hl Hd] Hi Hv Hnext Hn Hbytes Hcount Hr. set (p := this st) in *. set (id := next_content_id p) in *.
  set (x := new_content sha256 id gen v n) in *. pose proof (fresh_content _ s _ Hp) as Hfc. pose proof (fresh_reservation _ s _ Hp) as Hfr.
  fold id in Hfc, Hfr. pose proof (pk_next _ _ Hp) as [Hid _].
  assert (content_ok (plane_limits p) (id + 1) id x) as Hx by (apply new_content_ok; [done|done|unfold id; lia]).
  assert (content_added s n {| this := p'; budget := b' |} id) as Hadded.
  { split; cbn [this].
    - exists x. rewrite (nc_catalog _ _ _ _ _ Hn). cbn. rewrite bt_get_insert by apply Hp. by rewrite Z.eqb_refl.
    - intros k pl. rewrite (new_contents_placements _ _ _ _ _ Hn). intros Hk. destruct (pk_placement _ _ Hp _ _ _ Hk). unfold id. lia. }
  split; [|exact Hadded]. pose proof (pk_reserved _ _ Hp s) as Hkeys.
  assert (plane_ok strict p') as Hp'.
  { eapply with_content_ok; [exact Hp|exact Hnext|exact Hn|exact Hx| |done|done]. fold p in Hr.
    destruct (shared_budget p); [|by destruct Hr as [-> _]]. destruct Hr as (l & -> & _). by apply bt_insert_keys. }
  assert (∀ s' k y, k ≠ id → bt_get (contents (catalog s' p')) k = Some y → bt_get (contents (catalog s' p)) k = Some y) as Hsub.
  { intros s' k y Hk. destruct (screen_cases s s') as [->| ->]; [|by rewrite (nc_other _ _ _ _ _ Hn)].
    rewrite (nc_catalog _ _ _ _ _ Hn). cbn. rewrite bt_get_insert by apply Hp. by rewrite (proj2 (Z.eqb_neq _ _)). }
  destruct (shared_budget p) eqn:Es.
  - destruct Hr as (l & -> & Hb' & Hs & Hlb & Hld & Hnew).
    assert (held p' ≡ₚ l :: held p) as Hheld.
    { rewrite (held_perm s p'), (held_perm s p), (nc_catalog _ _ _ _ _ Hn), (nc_other _ _ _ _ _ Hn).
      unfold set_reservations. cbn [reservations]. by rewrite (bt_values_insert _ _ _ Hfr). }
    assert (bt_wf (reservations (catalog s p))) as Hrwf by (eapply bt_wf_keys; [exact Hkeys|apply Hp]).
    split; [split; cbn|by eapply stable_subset; [|exact Hs]; set_solver|].
    5: { intros k. cbn [this]. rewrite Hheld. intros [->|Hk]%elem_of_cons; [by right|by left]. }
    + done.
    + eapply budget_perm; [|exact Hb']. by rewrite Hheld.
    + intros s' k l' y Hk Hy. destruct (decide (s' = s ∧ k = id)) as [[-> ->]|Hne].
      * rewrite (nc_catalog _ _ _ _ _ Hn) in Hk, Hy. cbn in Hk, Hy. rewrite bt_get_insert in Hk by done. rewrite bt_get_insert in Hy by apply Hp.
        rewrite Z.eqb_refl in Hk, Hy. injection Hk as <-. injection Hy as <-. exact Hlb.
      * assert (bt_get (reservations (catalog s' p)) k = Some l' ∧ bt_get (contents (catalog s' p)) k = Some y) as [Hk' Hy'].
        { destruct (screen_cases s s') as [->| ->]; [|by rewrite (nc_other _ _ _ _ _ Hn) in Hk, Hy].
          rewrite (nc_catalog _ _ _ _ _ Hn) in Hk, Hy. cbn in Hk, Hy. rewrite bt_get_insert in Hk by done. rewrite bt_get_insert in Hy by apply Hp.
          by rewrite (proj2 (Z.eqb_neq _ _)) in Hk, Hy by (intros ->; by apply Hne). }
        destruct Hs as [_ Hs]. rewrite Hs; [by eapply Hl|]. apply elem_of_app. left. unfold held. apply elem_of_app.
        destruct s'; [left|right]; by eapply bt_get_value.
    + rewrite Hheld. by constructor.
  - destruct Hr as [-> ->].
    assert (held p' ≡ₚ held p) as Hheld.
    { rewrite (held_perm s p'), (held_perm s p), (nc_catalog _ _ _ _ _ Hn), (nc_other _ _ _ _ _ Hn). done. }
    split; [split; cbn|done|]; [done|by eapply budget_perm; [|exact Hb]; rewrite Hheld| |by rewrite Hheld|].
    2: { apply own_sub. cbn [this]. by rewrite Hheld. }
    intros s' k l y Hk. pose proof (pk_reserved _ _ Hp' s') as Hr'. rewrite (nc_shared _ _ _ _ _ Hn), Es in Hr'.
    apply fmap_nil_inv in Hr'. by rewrite Hr' in Hk.
Qed.

Lemma reserve_for_spec strict F v st :
  store_ok strict F st → 0 ≤ v →
  wp (if shared_budget (this st) then let! l := reserve v in ret (Some l) else ret None)
    (λ r st', this st' = this st ∧ match r with
      | Ok o => if shared_budget (this st) then ∃ l, o = Some l ∧ budget_ok (budget st') (l :: held (this st) ++ F) ∧
          stable (held (this st) ++ F) (budget st) (budget st') ∧ lease_bytes <$> leases (budget st') !! l = Some v ∧
          l ∉ held (this st) ∧ next_lease (budget st) ≤ l
        else o = None ∧ budget st' = budget st
      | Err _ => st' = st
      | Panic => False
      end) st.
Proof using Type.
  intros [Hp Hb Hl Hd] Hv. destruct (shared_budget (this st)); [|by wp_step].
  apply wp_bind. eapply wp_mono; [|by apply (reserve_spec v st _ Hb)]. intros [l|e|] st' [E Hr]; [|by rewrite Hr|done].
  destruct Hr as (H1 & H2 & H3 & H4 & H5). wp_step. split; [done|]. exists l. split_and!; try done. intros Hin. apply H4, elem_of_app. by left.
Qed.

Lemma insert_content_spec strict F s n st :
  store_ok strict F st → input_ok n →
  wp (insert_content sha256 s n) (λ r st', match r with
    | Ok id => kept_ok strict F st st' ∧ content_added s n st' id
    | Err _ => kept_ok strict F st st'
    | Panic => False
    end) st.
Proof using Type.
  intros Hok Hi. unfold insert_content, plane_get. do 3 wp_step. wp_step; [|by apply kept_refl|by apply content_returns in H].
  rename H into Hv. eapply wp_bind_runs; [by apply (reclaim_runs strict F)|]. intros [] st1 [M1 _].
  assert (kept_ok strict F st st1) as K1 by by apply moved_kept. do 3 wp_step. pose proof (mv_ok _ _ _ _ M1) as Hok1.
  rewrite <-(sh_limits _ _ (mv_shrinks _ _ _ _ M1)) in Hv. set (p := this st1) in *. pose proof (so_plane _ _ _ Hok1 : plane_ok _ p) as Hp.
  wp_step; [|done]. apply Z.leb_gt in H. wp_step; [|done]. apply terminal_bytes_Some in H0 as (-> & _ & Hbytes).
  wp_step; [|done]. unfold identity in H0. destruct (next_content_id p =? 0) eqn:E0; [done|]. injection H0 as <-.
  wp_step; [|done]. unfold within in H0. destruct (Z.leb_spec (next_content_id p + 1) u64_max) as [Hlt|]; [|done]. injection H0 as <-.
  wp_step; [|done]. clear H0. destruct (content_Ok _ _ _ Hi Hv) as (_ & _ & _ & _ & _ & Hlen).
  apply wp_bind. eapply wp_mono; [|apply (reserve_for_spec strict F); [exact Hok1|lia]].
  intros [o|e|] st2 [E2 Ho]; [|by rewrite Ho|done]. fold p in E2, Ho.
  pose proof (fresh_content _ s _ Hp) as Hfc. pose proof (fresh_reservation _ s _ Hp) as Hfr.
  pose proof (pl_contents _ (pk_limits _ _ Hp)) as Hmax.
  set (x := new_content sha256 (next_content_id p) (next_generation p) a n).
  assert (length (bt_insert (contents (catalog s p)) (next_content_id p) x) = S (length (contents (catalog s p)))) as Hl1.
  { by rewrite (bt_insert_perm _ _ _ Hfc). }
  assert (sum_of charge (bt_values (bt_insert (contents (catalog s p)) (next_content_id p) x)) = a + charges (catalog s p)) as Hs1.
  { by rewrite (bt_values_insert _ _ _ Hfc). }
  unfold on_plane, on_catalog, update_high_water, add_usize, bt_contains. unfold wp. cbn. rewrite Hfc, E2. cbn.
  assert (∀ p' r, let m := bt_insert (contents (catalog s p)) (next_content_id p) x in
    (if shared_budget p then ∃ l, o = Some l ∧ r = bt_insert (reservations (catalog s p)) (next_content_id p) l
     else r = reservations (catalog s p)) →
    next_content_id p' = next_content_id p + 1 → new_contents s m r p p' →
    content_bytes (metrics p') = content_bytes (metrics p) + a → content_count (metrics p') = content_count (metrics p) + 1 →
    kept_ok strict F st {| this := p'; budget := budget st2 |} ∧ content_added s n {| this := p'; budget := budget st2 |} (next_content_id p)) as Hfin.
  { intros p' r m Hr Hnext Hn Hby Hco. destruct (content_store strict F s n (next_generation p) a st1 p' (budget st2) r) as [K2 A2]; try done.
    - fold p. lia.
    - fold p. lia.
    - fold p. destruct (shared_budget p); [|by destruct Ho as [_ ->]]. destruct Ho as (l & -> & Ho), Hr as (l' & [= <-] & ->). by exists l.
    - split; [|done]. by eapply kept_ok_trans. }
  destruct (shared_budget p) eqn:Es.
  - destruct Ho as (l & -> & _). cbn. rewrite Hfr. cbn. rewrite (proj2 (Z.leb_le _ _)) by lia. cbn.
    eapply Hfin; [by eexists|by destruct s| |by destruct s|by destruct s].
    split; destruct s; cbn [catalog] in Hs1, Hl1; cbn; try done; try lia; rewrite ?Hs1, ?Hl1; unfold stored; cbn; lia.
  - destruct Ho as [-> _]. cbn. rewrite (proj2 (Z.leb_le _ _)) by lia. cbn.
    eapply Hfin; [done|by destruct s| |by destruct s|by destruct s].
    split; destruct s; cbn [catalog] in Hs1, Hl1; cbn; try done; try lia; rewrite ?Hs1, ?Hl1; unfold stored; cbn; lia.
Qed.

(** ** Replacing a content *)

(** The plane with other bytes and the next generation, as [replace_content]
    has it while it takes placements. *)
Definition rebyte (v g : Z) (p : ImagePlane) : ImagePlane :=
  set_metrics (set_content_bytes v (metrics p)) (set_next_generation g p).

Lemma take_rebyte s id v g p b b' p1 :
  take_placement s id {| this := p; budget := b |} = (Ok tt, {| this := p1; budget := b |}) →
  take_placement s id {| this := rebyte v g p; budget := b' |} = (Ok tt, {| this := rebyte v g p1; budget := b' |}).
Proof using Type.
  unfold take_placement, on_catalog, on_plane, plane_get, sub_usize, rebyte. destruct s; cbn;
    destruct (1 <=? placement_count (metrics p)); cbn; try done; by intros [= <-].
Qed.

Lemma take_all_rebyte strict F s ids v g p b b' :
  store_ok strict F {| this := p; budget := b |} → NoDup ids →
  Forall (λ id, is_Some (bt_get (placements (catalog s p)) id)) ids →
  ∃ p1, taken strict F s ids {| this := p; budget := b |} {| this := p1; budget := b |} ∧
    for_each ids (take_placement s) {| this := rebyte v g p; budget := b' |} = (Ok tt, {| this := rebyte v g p1; budget := b' |}).
Proof using Type.
  intros Hok Hnd Hids. destruct (take_all_runs strict F s ids _ Hok Hnd Hids) as ([] & [p1 b1] & Hrun & Ht).
  pose proof (tk_budget _ _ _ _ _ _ Ht) as Eb. cbn in Eb. subst b1. exists p1. split; [done|]. clear Ht.
  revert p Hok Hids Hrun. induction ids as [|id ids IH]; intros p Hok Hids Hrun; cbn [for_each] in *; [by injection Hrun as <-|].
  apply NoDup_cons in Hnd as [Hnin Hnd]. apply Forall_cons in Hids as [[pl Hpl] Hids].
  pose proof (take_run _ _ _ _ _ _ Hok Hpl) as Ht. unfold bind in Hrun |- *. rewrite Ht in Hrun. rewrite (take_rebyte _ _ _ _ _ _ _ _ Ht).
  pose proof (pk_next _ _ (so_plane _ _ _ Hok)) as [_ Hnext]. pose proof (without_new _ _ _ _ Hpl Hnext) as Hn.
  apply IH; [done|apply (take_moved _ _ _ _ _ _ Hok Hpl)| |exact Hrun].
  rewrite Forall_forall in *. intros k Hk. cbn [this]. rewrite (np_catalog _ _ _ _ Hn). cbn. rewrite bt_get_remove by apply Hok.
  rewrite (proj2 (Z.eqb_neq _ _)) by (by intros ->). by apply Hids.
Qed.

(** Different contents have different leases. *)
Lemma lease_unique p s s' k k' l :
  NoDup (held p) → bt_get (reservations (catalog s p)) k = Some l → bt_get (reservations (catalog s' p)) k' = Some l →
  s' = s ∧ k' = k.
Proof using Type.
  intros Hd Hk Hk'. rewrite (held_perm s p), (bt_values_remove _ _ _ Hk) in Hd. simpl in Hd. apply NoDup_cons in Hd as [Hd _].
  destruct (screen_cases s s') as [->| ->].
  - split; [done|]. destruct (decide (k' = k)) as [|Hne]; [done|]. exfalso. apply Hd, elem_of_app. left.
    apply (bt_get_value _ k'). clear Hd. revert Hk'. generalize (reservations (catalog s p)). clear Hk. intros m.
    induction m as [|[j u] m IH]; simpl; [done|]. destruct (Z.eqb_spec k j); destruct (Z.eqb_spec k' j); simpl; try done; try lia.
    + rewrite (proj2 (Z.eqb_eq k' j)) by done. done.
    + rewrite (proj2 (Z.eqb_neq k' j)) by done. exact IH.
  - exfalso. apply Hd, elem_of_app. right. by eapply bt_get_value.
Qed.

Lemma replaced_bytes_Some c v p next :
  replaced_bytes c v p = Some next →
  c ≤ content_bytes (metrics p) ∧ next = content_bytes (metrics p) - c + v ∧ next ≤ bytes_per_terminal (plane_limits p).
Proof using Type.
  unfold replaced_bytes, within. intros H. repeat (case_match; simplify_option_eq; try done). lia.
Qed.

(** The lease of a content resized with it. *)
Lemma resize_for_spec strict F s id v st :
  store_ok strict F st → 0 ≤ v →
  wp (match bt_get (reservations (catalog s (this st))) id with Some l => resize_lease l v | None => ret tt end)
    (λ r st', this st' = this st ∧ match r with
      | Ok _ => budget_ok (budget st') (held (this st) ++ F) ∧
          (∀ K, (∀ l, l ∈ K → l ∉ held (this st)) → stable K (budget st) (budget st')) ∧
          ∀ s' k l, bt_get (reservations (catalog s' (this st))) k = Some l →
            lease_bytes <$> leases (budget st') !! l =
              if decide (s' = s ∧ k = id) then Some v else lease_bytes <$> leases (budget st) !! l
      | Err _ => st' = st
      | Panic => False
      end) st.
Proof using Type.
  intros [Hp Hb Hl Hd] Hv. destruct (bt_get (reservations (catalog s (this st))) id) as [l|] eqn:El.
  - eapply wp_mono; [|apply (resize_spec l v st _ Hb); [|done]].
    + intros [[]|e|] st' [E Hr]; [|done|done]. destruct Hr as (R1 & R2 & R3 & R3' & R4). split_and!; [done|done| |].
      { intros K HK. split; [done|]. intros k Hk. rewrite R4; [done|]. intros ->. apply (HK l Hk).
        unfold held. apply elem_of_app. destruct s; [left|right]; by eapply bt_get_value. }
      intros s' k l' Hk. destruct (decide (s' = s ∧ k = id)) as [[-> ->]|Hne].
      * rewrite El in Hk. by injection Hk as <-.
      * rewrite R4; [done|]. intros ->. apply Hne. by eapply lease_unique.
    + apply elem_of_app. left. unfold held. apply elem_of_app. destruct s; [left|right]; by eapply bt_get_value.
  - wp_step. split; [done|]. split_and!; [done|done|]. intros s' k l Hk. rewrite decide_False; [done|]. intros [-> ->]. congruence.
Qed.

(** What a call leaves when it may resize a lease. *)
Record sound (strict : bool) (F : list Z) (st st' : Store) : Prop := {
  so_ok : store_ok strict F st';
  so_own : own_leases st st';
  so_stable : (∀ l, l ∈ F → l ∉ held (this st)) → stable F (budget st) (budget st');
}.

Lemma kept_sound strict F st st' : kept_ok strict F st st' → sound strict F st st'.
Proof using Type. by intros []. Qed.

(** The plane after the replacement, from the plane without the placements. *)
Lemma replaced_ok strict F s ids id x old v g st p1 :
  taken strict F s ids st {| this := p1; budget := budget st |} → store_ok strict F st →
  bt_get (contents (catalog s (this st))) id = Some old → content_ok (plane_limits (this st)) (next_content_id (this st)) id x →
  (∀ k pl, bt_get (placements (catalog s p1)) k = Some pl → content_id pl ≠ id) →
  v = content_bytes (metrics (this st)) - charge old + charge x → v ≤ bytes_per_terminal (plane_limits (this st)) →
  let p' := update_catalog s (λ c, set_contents (bt_insert (contents c) id x) c) (rebyte v g p1) in
  plane_ok strict p' ∧ (∀ s', reservations (catalog s' p') = reservations (catalog s' p1)) ∧
  (∀ s' k y, bt_get (contents (catalog s' p')) k = Some y →
     if decide (s' = s ∧ k = id) then y = x else bt_get (contents (catalog s' p1)) k = Some y).
Proof using Type.
  intros [[[Hp1 _ _ _] Hsh _] _ Hc _ Hby _ _] Hok Hold Hx Hun Hv Hlim. cbv zeta. cbn [this] in *.
  set (f := λ c, set_contents (bt_insert (contents c) id x) c). set (p' := update_catalog s f (rebyte v g p1)).
  assert (bt_get (contents (catalog s p1)) id = Some old) as Hold1 by (by rewrite Hc).
  assert (bt_wf (contents (catalog s p1))) as Hwf by apply Hp1.
  assert (length (bt_insert (contents (catalog s p1)) id x) = length (contents (catalog s p1))) as Hlen.
  { by rewrite <-(length_fmap fst), (bt_insert_same_keys _ _ _ _ Hwf Hold1), length_fmap. }
  assert (sum_of charge (bt_values (bt_insert (contents (catalog s p1)) id x)) = charges (catalog s p1) - charge old + charge x) as Hsum.
  { unfold charges. rewrite (bt_values_over _ _ _ _ Hwf Hold1), (bt_values_remove _ _ _ Hold1). simpl. lia. }
  pose proof (pk_next _ _ Hp1) as [Hnext _].
  assert (new_contents s (bt_insert (contents (catalog s p1)) id x) (reservations (catalog s p1)) p1 p') as Hn.
  { unfold p', f. split; destruct s; cbn [catalog] in *; cbn; try done; try lia; rewrite ?Hsum, ?Hlen; unfold stored; lia. }
  split_and!.
  - eapply contents_ok; [exact Hp1|exact Hn|by apply bt_insert_wf| | | | |].
    + intros k y. rewrite bt_get_insert by done. assert (next_content_id p' = next_content_id p1) as -> by (by destruct s).
      rewrite (sh_next _ _ Hsh), (sh_limits _ _ Hsh).
      destruct (Z.eqb_spec k id) as [->|]; [by intros [= <-]|]. rewrite Hc. apply (pk_content _ _ (so_plane _ _ _ Hok)).
    + by rewrite (pk_reserved _ _ Hp1), (bt_insert_same_keys _ _ _ _ Hwf Hold1).
    + rewrite (sh_limits _ _ Hsh). assert (content_bytes (metrics p') = v) as -> by (by destruct s). done.
    + assert (content_count (metrics p') = content_count (metrics p1)) as -> by (by destruct s). apply (pk_count_limit _ _ Hp1).
    + intros k pl Hk. rewrite bt_get_insert by done. rewrite (proj2 (Z.eqb_neq _ _)) by (by eapply Hun). split.
      * intros y Hy. by apply (pk_placement _ _ Hp1 s k).
      * intros Hs. by apply (st_content _ (pk_strict _ _ Hp1 Hs) s k).
  - intros s'. destruct (screen_cases s s') as [->| ->]; [by rewrite (nc_catalog _ _ _ _ _ Hn)|by rewrite (nc_other _ _ _ _ _ Hn)].
  - intros s' k y. destruct (screen_cases s s') as [->| ->].
    + rewrite (nc_catalog _ _ _ _ _ Hn). cbn. rewrite bt_get_insert by done. destruct (Z.eqb_spec k id) as [->|Hne].
      * intros [= <-]. by rewrite decide_True.
      * rewrite decide_False; [done|]. by intros [_ ?].
    + rewrite (nc_other _ _ _ _ _ Hn), decide_False; [done|]. intros [? _]. by destruct s.
Qed.

Lemma replace_content_spec strict F s id n st :
  store_ok strict F st → input_ok n →
  wp (replace_content sha256 s id n) (λ r st', r ≠ Panic ∧ sound strict F st st') st.
Proof using Type.
  intros Hok Hi. assert (sound strict F st st) as Hself by by apply kept_sound, kept_refl. pose proof (so_plane _ _ _ Hok) as Hp.
  unfold replace_content, plane_get. do 3 wp_step. wp_step; [|done|by apply content_returns in H]. rename H into Hv.
  wp_step; [|done]. rename H into Hold, a0 into old. wp_step; [|done]. apply replaced_bytes_Some in H as (Hle & -> & Hlim).
  wp_step; [|done]. clear H. destruct (content_Ok _ _ _ Hi Hv) as (_ & _ & _ & _ & _ & Hlen).
  apply wp_bind. eapply wp_mono; [|apply (resize_for_spec strict F); [done|lia]].
  intros [[]|e|] st1 [E1 H1]; [|by rewrite H1|done]. destruct H1 as (Hb1 & Hlimit & Hl1).
  set (x := new_content sha256 id (next_generation (this st)) a n).
  unfold placements_of. destruct (listed_ids strict s (λ pl, content_id pl =? id) _ Hp) as (N1 & N2 & N3). set (ids := placement_id <$> _) in *.
  set (v := content_bytes (metrics (this st)) - byte_charge (metadata old) + a). destruct st as [p b]. cbn [this budget] in *.
  destruct (take_all_rebyte strict F s ids v a0 p b (budget st1) Hok N1 N2) as (p1 & Ht & Hrun).
  unfold on_plane, on_catalog. unfold wp. cbn. rewrite E1. fold (rebyte v a0 p). unfold bind. rewrite Hrun. cbn.
  assert (content_ok (plane_limits p) (next_content_id p) id x) as Hx.
  { apply new_content_ok; [done|done|]. by destruct (pk_content _ _ Hp _ _ _ Hold). }
  destruct (replaced_ok strict F s ids id x old v a0 _ p1 Ht Hok Hold Hx) as (P1 & P2 & P3).
  { intros k pl Hk. cbn in Hk. rewrite (tk_placements _ _ _ _ _ _ Ht) in Hk. destruct (decide _) as [|Hn]; [done|].
    intros He. apply Hn, (N3 _ _ Hk). cbn. lia. }
  { done. } { cbn. unfold v, charge in *. cbn. lia. }
  split; [done|]. set (p' := update_catalog s _ _) in *.
  assert (held p' = held p) as Hheld.
  { rewrite <-(tk_held _ _ _ _ _ _ Ht : held p1 = held p). unfold held. pose proof (P2 Normal) as R1. pose proof (P2 Alternate) as R2.
    cbn [catalog] in R1, R2. by rewrite R1, R2. }
  split; [|apply own_sub; cbn [this]; by rewrite Hheld|apply Hlimit].
  split; cbn [this budget]; [done|by rewrite Hheld| |rewrite Hheld; apply Hok].
  intros s' k l y Hk Hy. rewrite P2, (tk_reservations _ _ _ _ _ _ Ht) in Hk. rewrite (Hl1 _ _ _ Hk). specialize (P3 _ _ _ Hy).
  destruct (decide (s' = s ∧ k = id)); [by rewrite P3|]. apply (so_linked _ _ _ Hok s' k); [done|].
  by rewrite (tk_contents _ _ _ _ _ _ Ht) in P3.
Qed.

(** ** Contents with their placements *)

(** Placement options with the types of the code. *)
Definition options_ok (o : NewImagePlacementOptions) : Prop := ∀ id row, new_ok (bind_options o id row).

Lemma insert_both_spec strict F s n row o st :
  store_ok strict F st → input_ok n → options_ok o →
  wp (insert_content_and_placement sha256 s n row o) (λ r st', r ≠ Panic ∧ kept_ok strict F st st') st.
Proof using Type.
  intros Hok Hi Ho. assert (kept_ok strict F st st) as Hself by by apply kept_refl.
  unfold insert_content_and_placement, plane_get. do 3 wp_step.
  wp_step; [|done|by apply content_returns in H]. wp_step; [|done|by unfold validate_placement in *; repeat case_match].
  wp_step; [|done|by unfold validate_crop in *; repeat case_match].
  wp_step; [|done|by unfold validate_source_cell_size in *; repeat case_match]. wp_step; [|done]. wp_step; [|done].
  apply wp_bind. eapply wp_mono; [|by apply (insert_content_spec strict F)]. intros [id|e|] st1; [|done|done]. intros [K1 A1].
  apply wp_bind, wp_attempt. eapply wp_mono; [|apply (insert_placement_spec strict F s _ st1 (ko_ok _ _ _ _ K1) (Ho id row))].
  intros [pid|e|] st2 Hpl; [| |done].
  - destruct Hpl as [M2 _]. wp_step. split; [done|]. eapply kept_ok_trans; [exact K1|by apply moved_kept].
  - subst st2. destruct (ca_content _ _ _ _ A1) as (x & Hx & _).
    destruct (remove_only_runs strict F s id st1 x (ko_ok _ _ _ _ K1) Hx) as ([] & st3 & Hrun & M3 & _).
    { intros _. apply (ca_fresh _ _ _ _ A1). }
    apply wp_bind, wp_attempt. unfold wp at 1. rewrite Hrun. cbn [fst snd]. wp_step; [|done]. split; [done|]. eapply kept_ok_trans; [exact K1|by apply moved_kept].
Qed.

Lemma preflight_spec strict F s id n pl st :
  store_ok strict F st → wp (preflight_replacement_placement s id n pl) (λ r st', r ≠ Panic ∧ st' = st) st.
Proof using Type.
  intros [Hp Hb Hl Hd]. unfold preflight_replacement_placement. wp_step. cbv zeta. wp_step; [|done|by apply content_returns in H].
  wp_step; [|done]. wp_step; [|done]. wp_step; [|done|by unfold validate_placement in *; repeat case_match].
  wp_step; [|done|by unfold validate_crop in *; repeat case_match].
  wp_step; [|done|by unfold validate_source_cell_size in *; repeat case_match]. wp_step; [|done]. wp_step; [|done]. wp_step; [|done].
  destruct (bt_get (reservations (catalog s (this st))) id) as [l|] eqn:El; [|by wp_step].
  destruct (held_lease _ _ l Hb) as [x Hx].
  { apply elem_of_app. left. unfold held. apply elem_of_app. destruct s; [left|right]; by eapply bt_get_value. }
  wp_step; [|congruence]. destruct (lease_bytes _ <? _); [|by wp_step]. wp_step; [|done]. by wp_step.
Qed.
End insert.
