(* ===== verification/ImagesSixel.v ===== *)
(** * Sixel images over older ones

    Composing a new image over the ones under it stays inside the pixels of
    both, and placing it keeps the invariant of the plane. *)

From S2P Require Import Prelude RustStd Update Sixel Images ImagesInv ImagesSteps ImagesOps ImagesCalls ImagesInsert.

#[local] Open Scope Z_scope.

(** A loop that may fail keeps an invariant and does not panic. *)
Lemma wp_for_each_safe {S E A} (J : S → Prop) (l : list A) (body : A → M S E unit) s :
  (∀ x s, x ∈ l → J s → wp (body x) (λ r s', r ≠ Panic ∧ J s') s) →
  J s → wp (for_each l body) (λ r s', r ≠ Panic ∧ J s') s.
Proof.
  revert s. induction l as [|x l IH]; intros s Hb HJ; cbn [for_each]; [done|].
  apply wp_bind. eapply wp_mono; [|apply Hb; [by left|done]]. intros [[]|e|] s' [Hr HJ']; [|done|done].
  apply IH; [|done]. intros y s1 Hy. apply Hb. by right.
Qed.

Lemma wp_lift_Ok {S E A B} (r : outcome E A) a (k : A → M S E B) Q s : r = Ok a → wp (k a) Q s → wp (bind (lift r) k) Q s.
Proof. intros ->. done. Qed.

Lemma pixel_index_Ok stride x y i : pixel_index stride x y = Ok i → i = (y * stride + x) * 4.
Proof. unfold pixel_index, within. intros H. repeat (case_match; simplify_option_eq; try done). Qed.

Lemma pixel_index_returns stride x y : pixel_index stride x y ≠ Panic.
Proof. unfold pixel_index, ok_or_image. by case_match. Qed.

Lemma usize_or_Ok x v : usize_or x = Ok v → v = x ∧ x ≤ usize_max.
Proof. apply ok_within. Qed.

Lemma usize_or_returns x : usize_or x ≠ Panic.
Proof. unfold usize_or, ok_or_image. by case_match. Qed.

(** Room for a pixel. *)
Lemma pixel_room w h x y : 0 ≤ x < w → 0 ≤ y < h → 0 ≤ (y * w + x) * 4 ∧ (y * w + x) * 4 + 4 ≤ 4 * (w * h).
Proof. nia. Qed.

Lemma pixel_bytes_Ok i l : 0 ≤ i → i + 4 ≤ Z.of_nat (length l) → ∃ bs, pixel_bytes i l = Ok bs ∧ length bs = 4%nat.
Proof.
  intros Hi Hl. unfold pixel_bytes. rewrite (proj2 (Z.leb_le _ _)) by done. eexists. split; [done|].
  rewrite length_take, length_drop. lia.
Qed.

Lemma put_pixel_runs i bs l :
  0 ≤ i → i + 4 ≤ Z.of_nat (length l) → length bs = 4%nat →
  runs (put_pixel i bs) (λ _ l', length l' = length l) l.
Proof.
  intros Hi Hl Hb. unfold put_pixel. apply runs_bind, runs_get. rewrite (proj2 (Z.leb_le _ _)) by done. apply runs_put.
  rewrite !length_app, length_take, length_drop, Hb. lia.
Qed.

Lemma composite_Ok under over : length under = 4%nat → length over = 4%nat → ∃ bs, composite_bgra under over = Ok bs ∧ length bs = 4%nat.
Proof. destruct under as [|? [|? [|? [|? []]]]], over as [|? [|? [|? [|? []]]]]; try done. intros _ _. by eexists. Qed.

Lemma copy_old_spec l0 n k old x old_x old_y origin_x origin_y w h l :
  content_ok l0 n k x → crop_inside (source old) (content_width (metadata x)) (content_height (metadata x)) →
  0 ≤ w → Z.of_nat (length l) = 4 * (w * h) →
  wp (copy_old old x old_x old_y origin_x origin_y w h) (λ r l', r ≠ Panic ∧ Z.of_nat (length l') = 4 * (w * h)) l.
Proof.
  intros [_ _ C1 C2 C3 C4 _] [] Hw Hl. unfold copy_old. apply wp_for_each_safe; [|done]. clear l Hl. intros sy l Hsy Hl.
  unfold span in Hsy. apply elem_of_seqZ in Hsy. wp_step; [|done|by apply usize_or_returns in H]. apply usize_or_Ok in H as [-> _].
  destruct (Z.ltb_spec (old_y + sy) origin_y); [by wp_step|]. destruct (Z.leb_spec h (old_y + sy - origin_y)); [by wp_step|].
  apply wp_for_each_safe; [|done]. clear l Hl. intros sx l Hsx Hl. unfold span in Hsx. apply elem_of_seqZ in Hsx.
  wp_step; [|done|by apply usize_or_returns in H1]. apply usize_or_Ok in H1 as [-> _].
  destruct (Z.ltb_spec (old_x + sx) origin_x); [by wp_step|]. destruct (Z.leb_spec w (old_x + sx - origin_x)); [by wp_step|].
  wp_step; [|done|by apply usize_or_returns in H3]. apply usize_or_Ok in H3 as [-> _].
  wp_step; [|done|by apply usize_or_returns in H3]. apply usize_or_Ok in H3 as [-> _].
  wp_step; [|done|by apply pixel_index_returns in H3]. apply pixel_index_Ok in H3 as ->.
  wp_step; [|done|by apply pixel_index_returns in H3]. apply pixel_index_Ok in H3 as ->.
  destruct (pixel_room (content_width (metadata x)) (content_height (metadata x)) (rect_x (source old) + sx) (rect_y (source old) + sy)) as [I1 I2]; [lia..|].
  destruct (pixel_room w h (old_x + sx - origin_x) (old_y + sy - origin_y)) as [J1 J2]; [lia..|].
  destruct (pixel_bytes_Ok _ (content_pixels x) I1) as (bs & Hbs & Hlen); [lia|]. apply (wp_lift_Ok _ _ _ _ _ Hbs).
  destruct (put_pixel_runs _ bs l J1) as ([] & l' & Hrun & Hl'); [lia|done|]. unfold wp. rewrite Hrun. split; [done|]. cbn. lia.
Qed.

Lemma compose_new_spec n w h l :
  Z.of_nat (length (new_pixels n)) = 4 * (new_width n * new_height n) → new_width n ≤ w → new_height n ≤ h →
  Z.of_nat (length l) = 4 * (w * h) →
  wp (compose_new n w) (λ r l', r ≠ Panic ∧ Z.of_nat (length l') = 4 * (w * h)) l.
Proof.
  intros Hn Hw Hh Hl. unfold compose_new. apply wp_for_each_safe; [|done]. clear l Hl. intros y l Hy Hl.
  apply wp_for_each_safe; [|done]. clear l Hl. intros x l Hx Hl. unfold span in *. apply elem_of_seqZ in Hx, Hy.
  wp_step; [|done|by apply pixel_index_returns in H]. apply pixel_index_Ok in H as ->.
  wp_step; [|done|by apply pixel_index_returns in H]. apply pixel_index_Ok in H as ->. wp_step.
  destruct (pixel_room (new_width n) (new_height n) x y) as [I1 I2]; [lia..|]. destruct (pixel_room w h x y) as [J1 J2]; [lia..|].
  destruct (pixel_bytes_Ok _ l J1) as (under & Hu & Hul); [lia|]. destruct (pixel_bytes_Ok _ (new_pixels n) I1) as (over & Ho & Hol); [lia|].
  destruct (composite_Ok under over Hul Hol) as (bs & Hc & Hcl). apply (wp_lift_Ok _ _ _ _ _ Hu), (wp_lift_Ok _ _ _ _ _ Ho), (wp_lift_Ok _ _ _ _ _ Hc).
  destruct (put_pixel_runs _ bs l J1) as ([] & l' & Hrun & Hl'); [lia|done|]. unfold wp. rewrite Hrun. split; [done|]. cbn. lia.
Qed.

Lemma composed_extent_spec size targets ox oy fw fh w h :
  match composed_extent size targets ox oy fw fh w h with
  | Ok (w', h') => w ≤ w' ∧ h ≤ h'
  | Err _ => True
  | Panic => False
  end.
Proof.
  revert w h. induction targets as [|[old r] targets IH]; intros w h; cbn [composed_extent]; [lia|].
  destruct (negb _); [apply IH|].
  repeat (match goal with |- context [obind (usize_or ?v)] => destruct (usize_or v) eqn:?; cbn [obind]; [|done|by eapply usize_or_returns] end).
  match goal with |- context [composed_extent _ targets _ _ _ _ ?w1 ?h1] => specialize (IH w1 h1); destruct (composed_extent _ _ _ _ _ _ w1 h1) as [[w' h']| |] end;
    [|done|done]. unfold reach in IH. repeat case_match; lia.
Qed.

(** Every older image and then the new one are painted inside the output. *)
Lemma paint_all_spec strict s n p size targets origin_x origin_y w h l :
  plane_ok strict p → Forall (λ '(pl, _), bt_get (placements (catalog s p)) (placement_id pl) = Some pl) targets →
  Z.of_nat (length (new_pixels n)) = 4 * (new_width n * new_height n) → 0 ≤ w → new_width n ≤ w → new_height n ≤ h →
  Z.of_nat (length l) = 4 * (w * h) →
  wp (do! for_each targets (λ '(old, old_row),
            if negb (bool_decide (source_cell_size old = Some size)) then ret tt
            else
              match bt_get (contents (catalog s p)) (content_id old) with
              | None => ret tt
              | Some old_content =>
                  let! old_x := lift (usize_or (placement_column old * size_width size)) in
                  let! old_y := lift (usize_or (old_row * size_height size)) in
                  copy_old old old_content old_x old_y origin_x origin_y w h
              end) in
      compose_new n w) (λ r l', r ≠ Panic ∧ Z.of_nat (length l') = 4 * (w * h)) l.
Proof.
  intros Hp Ht Hn Hw Hnw Hnh Hl. apply wp_bind. eapply wp_mono; [|apply (wp_for_each_safe (λ l, Z.of_nat (length l) = 4 * (w * h))); [|exact Hl]].
  - intros [[]|e|] l' [Hr Hl']; [|done|done]. by apply (compose_new_spec n w h).
  - intros [old old_row] l' Hin Hl'. rewrite Forall_forall in Ht. specialize (Ht _ Hin). simpl in Ht.
    destruct (negb _); [by wp_step|]. destruct (bt_get (contents (catalog s p)) (content_id old)) as [x|] eqn:Hx; [|by wp_step].
    wp_step; [|done|by apply usize_or_returns in H]. wp_step; [|done|by apply usize_or_returns in H0].
    by eapply copy_old_spec; [exact (pk_content _ _ Hp _ _ _ Hx)|exact (po_crop _ _ _ _ _ _ (pk_placement _ _ Hp _ _ _ Ht) _ Hx)|..].
Qed.

Lemma obind_returns {E A B} (r : outcome E A) (k : A → outcome E B) :
  r ≠ Panic → (∀ a, r = Ok a → k a ≠ Panic) → obind r k ≠ Panic.
Proof. intros Hr Hk. destruct r; simpl; [by apply Hk|done|done]. Qed.

Lemma ok_or_returns {A} (o : option A) e : ok_or_image o e ≠ Panic.
Proof. by destruct o. Qed.

Lemma sixel_size_returns src dst size : validate_sixel_source_cell_size src dst size ≠ Panic.
Proof.
  unfold validate_sixel_source_cell_size. destruct size as [size|]; [|done]. cbv zeta. destruct (_ || _); [done|].
  repeat (apply obind_returns; [by case_match|intros ? _]). by case_match.
Qed.

(** What is prepared is a content at least as large as the new one. *)
Lemma prepare_spec strict s row_order anchor_row end_row o n p v :
  plane_ok strict p → input_ok n → validate_content (plane_limits p) n = Ok v →
  match prepare_sixel_overlap s row_order anchor_row end_row o n p with
  | Ok prepared => new_width n ≤ prepared_width prepared ∧ new_height n ≤ prepared_height prepared
  | Err _ => True
  | Panic => False
  end.
Proof.
  intros Hp Hi Hv. destruct (content_Ok _ _ _ Hi Hv) as (N1 & N2 & N3 & _ & _ & N6). unfold prepare_sixel_overlap. cbv zeta.
  destruct (option_source_cell_size o) as [size|]; [|cbn; lia]. set (targets := text_overlap_targets _ _ _ _ _ _ _).
  assert (Forall (λ '(pl, _), bt_get (placements (catalog s p)) (placement_id pl) = Some pl) targets) as Ht by (by apply (targets_listed strict)).
  clearbody targets. destruct (bool_decide _); [cbn; lia|].
  repeat (match goal with |- context [obind (usize_or ?v)] => destruct (usize_or v) eqn:?; cbn [obind]; [|done|by eapply usize_or_returns] end).
  match goal with |- context [composed_extent size targets ?ox ?oy ?fw ?fh ?w ?h] =>
    pose proof (composed_extent_spec size targets ox oy fw fh w h) as He; destruct (composed_extent size targets ox oy fw fh w h) as [[w' h']| |] end;
    cbn [obind]; [|done|done].
  destruct (ok_or_image (within u32_max w') _) as [w1| |] eqn:Ew; cbn [obind]; [|done|by eapply ok_or_returns]. apply ok_within in Ew as [-> _].
  destruct (ok_or_image (within u32_max h') _) as [h1| |] eqn:Eh; cbn [obind]; [|done|by eapply ok_or_returns]. apply ok_within in Eh as [-> _].
  destruct (validate_content_geometry _ w' h') as [count| |] eqn:Eg; cbn [obind]; [|done|by eapply geometry_returns].
  apply geometry_Ok in Eg as (G1 & G2 & -> & _); [|lia|lia].
  match goal with |- context [copy_old _ _ _ _ ?ox ?oy _ _] =>
    pose proof (paint_all_spec strict s n p size targets ox oy w' h' (replicate (Z.to_nat (4 * (w' * h'))) 0) Hp Ht) as Hpaint end.
  unfold wp in Hpaint. rewrite length_replicate in Hpaint. destruct Hpaint as [Hr _]; [lia|lia|lia|lia|lia|].
  match type of Hr with (?run).1 ≠ _ => destruct run as [[[]|e|] pixels] end; [|done|done]. cbn [fst] in Hr.
  match goal with |- context [obind (validate_content ?l ?m)] => destruct (validate_content l m) eqn:Ec end; cbn [obind];
    [|done|by eapply content_returns]. cbn. lia.
Qed.

(** ** Placing it *)

Lemma resized_ok o w h : options_ok o → 0 ≤ w → 0 ≤ h → options_ok (resized_options w h o).
Proof. intros Ho Hw Hh id row. destruct (Ho id row) as [(S1 & S2 & _) N2 N3 N4]. by split. Qed.

Section sixel.
Context (sha256 : list Z → list Z).

Lemma try_sixel_runs strict F s n row_order row anchor_row end_row end_column o preserve st :
  store_ok strict F st → input_ok n → options_ok o →
  runs (try_sixel sha256 s n row_order row anchor_row end_row end_column o preserve) (λ _ st', kept_ok strict F st st') st.
Proof using Type.
  intros Hok Hi Ho. unfold try_sixel, plane_get. apply runs_bind, runs_bind, runs_get, runs_ret.
  apply runs_bind. eapply runs_mono; [|by apply (clone_runs strict F)]. intros [] st1 (E1 & Hok1 & S1). cbv zeta.
  apply runs_bind. eapply runs_mono; [|apply (attempt_spec _ (moved strict (held (this st) ++ F) st1))].
  2: { destruct preserve; [by apply split_overlaps_spec|]. eapply wp_bind_runs; [by apply (whole_runs strict (held (this st) ++ F))|].
       intros b st2 M2. by wp_step. }
  intros r st2 [_ M2]. pose proof (mv_ok _ _ _ _ M2) as Hok2. apply runs_bind.
  apply (runs_mono _ (λ _ st3, kept_ok strict (held (this st) ++ F) st2 st3)).
  2: { destruct (negb _); [by apply runs_ret, kept_refl|]. apply runs_bind. eapply runs_mono; [|by apply attempt_spec, insert_both_spec].
       intros r' st3 [_ K3]. by apply runs_ret. }
  intros placed st3 K3. destruct (copy_worked strict (held (this st)) F st st1 st3 E1 S1) as (SK & SF & O3).
  { eapply kept_ok_trans; [by apply moved_kept|exact K3]. }
  destruct placed as [ids|].
  - apply runs_bind. eapply runs_mono; [|apply (drop_runs strict F _ st); [apply K3|done|done]]. intros [] st4 K4. by apply runs_ret.
  - unfold set_aside, plane_get. apply runs_bind, runs_bind, runs_bind, runs_get, runs_ret, runs_bind, runs_modify, runs_ret.
    apply runs_bind. eapply runs_mono; [|apply (drop_runs strict F _ st)].
    + intros [] st4 K4. by apply runs_ret.
    + eapply aside_ok; [exact Hok|apply K3|exact SK].
    + exact SF.
    + by apply own_sub.
Qed.

Lemma insert_sixel_spec strict F s n row_order row o st :
  store_ok strict F st → input_ok n → options_ok o →
  wp (insert_sixel_content_and_placement sha256 s n row_order row o) (λ r st', r ≠ Panic ∧ kept_ok strict F st st') st.
Proof using Type.
  intros Hok Hi Ho. assert (kept_ok strict F st st) as Hself by by apply kept_refl.
  unfold insert_sixel_content_and_placement, plane_get. do 3 wp_step. wp_step; [|done|by apply content_returns in H].
  rename H into Hv. wp_step; [|done|by apply sixel_size_returns in H].
  wp_step; [|done]. wp_step; [|done]. wp_step; [|done].
  pose proof (prepare_spec strict s row_order a1 a2 o n _ _ (so_plane _ _ _ Hok) Hi Hv) as Hprep.
  wp_step; [rewrite H3 in Hprep|done|by rewrite H3 in Hprep]. destruct Hi as [Hw Hh]. cbv zeta.
  set (n' := {| new_width := _ |}). assert (input_ok n') as Hi' by (unfold n', input_ok; cbn; lia).
  assert (options_ok (resized_options (prepared_width a4) (prepared_height a4) o)) as Ho' by (apply resized_ok; [done|lia|lia]).
  eapply wp_bind_runs; [by apply (try_sixel_runs strict F)|]. intros [ids|] st1 K1; [by wp_step|].
  eapply wp_bind_runs; [apply (try_sixel_runs strict F); [apply K1|done|done]|]. intros [ids|] st2 K2.
  - wp_step. split; [done|by eapply kept_ok_trans].
  - eapply wp_mono; [|apply (insert_both_spec sha256 strict F); [apply K2|done|done]]. intros r st3 [Hr K3]. split; [done|].
    eapply kept_ok_trans; [exact K1|by eapply kept_ok_trans].
Qed.
End sixel.
