(* ===== verification/ImagesCheckpoint.v ===== *)
(** * Checkpoints of the image plane ([splinterm-terminal/src/image.rs])

    What a plane is saved as, the validation of what is saved and restored, and
    the restored plane with its leases of the shared budget. *)

From S2P Require Import Prelude RustStd Update Sixel Images.

#[local] Open Scope Z_scope.

Definition MAX_IMAGE_CHECKPOINT_CONTENTS : Z := 65536.
Definition MAX_IMAGE_CHECKPOINT_PLACEMENTS : Z := 65536.

Record CheckpointImageContent := {
  record_screen : ActiveScreen;
  record_metadata : ImageContentMetadata;
  record_pixels : list Z;
}.

Record ImageCheckpointV1 := {
  saved_contents : list CheckpointImageContent;
  saved_placements : list ImagePlacement;
  saved_next_content_id : Z;
  saved_next_placement_id : Z;
  saved_next_generation : Z;
  saved_next_creation_order : Z;
}.

Record ValidatedImageCheckpoint := {
  validated_bytes : Z;
  validated_contents : Z;
  validated_placements : Z;
}.

Definition checkpoint_screen_rank (s : ActiveScreen) : Z := match s with Normal => 0 | Alternate => 1 end.

(** [previous >= key] on pairs of a rank and an identity. *)
Definition key_ge (previous key : Z * Z) : bool :=
  (key.1 <? previous.1) || ((key.1 =? previous.1) && (key.2 <=? previous.2)).

Definition is_some_and {A} (f : A → bool) (o : option A) : bool := match o with Some a => f a | None => false end.

(** A loop over a list that may fail. *)
Fixpoint scan {A B} (f : B → A → outcome ImageError A) (l : list B) (a : A) : outcome ImageError A :=
  match l with
  | [] => Ok a
  | x :: l => let? a := f x a in scan f l a
  end.

(** [checkpoint_may_fit]: the encoded pixels of both screens, as long as they
    stay within the limit. *)
Fixpoint encoded_fits (limit encoded : Z) (l : list ImageContent) : bool :=
  match l with
  | [] => true
  | x :: l =>
      match (bytes ← within usize_max ((Z.of_nat (length (content_pixels x)) + 2) / 3 * 4);
             total ← within usize_max (encoded + bytes); within limit total) with
      | Some next => encoded_fits limit next l
      | None => false
      end
  end.

Definition checkpoint_may_fit (limit : Z) (p : ImagePlane) : bool :=
  if (MAX_IMAGE_CHECKPOINT_CONTENTS <? content_count (metrics p)) ||
     (MAX_IMAGE_CHECKPOINT_PLACEMENTS <? placement_count (metrics p)) then false
  else encoded_fits limit 0 (bt_values (contents (normal p)) ++ bt_values (contents (alternate p))).

(** What the loop over the contents keeps. *)
Record content_scan := {
  authority : btree (ActiveScreen * ImageContentMetadata);
  generations : gset Z;
  scanned_bytes : Z;
  maximum_content_id : Z;
  maximum_generation : Z;
  previous_content_key : option (Z * Z);
}.

(** What the loop over the placements keeps. *)
Record placement_scan := {
  placement_ids : gset Z;
  creation_orders : gset Z;
  maximum_placement_id : Z;
  maximum_creation_order : Z;
  previous_placement_key : option (Z * Z);
}.

Section checkpoint.
Context (sha256 : list Z → list Z).

Definition scan_content (l : ImageLimits) (r : CheckpointImageContent) (a : content_scan) : outcome ImageError content_scan :=
  let m := record_metadata r in
  let key := (checkpoint_screen_rank (record_screen r), metadata_id m) in
  if is_some_and (λ previous, key_ge previous key) (previous_content_key a) || (metadata_id m =? 0) ||
     (generation m =? 0) || bool_decide (generation m ∈ generations a) || bt_contains (authority a) (metadata_id m)
  then Err IdentityExhausted
  else
    let? expected := validate_content_geometry l (content_width m) (content_height m) in
    if negb (Z.of_nat (length (record_pixels r)) =? expected) || negb (byte_charge m =? expected) ||
       negb (bool_decide (sha256 (record_pixels r) = digest m))
    then Err PixelLength
    else
      let? bytes := ok_or_image (next ← within usize_max (scanned_bytes a + expected); within (bytes_per_terminal l) next)
                      TerminalBytes in
      Ok {| authority := bt_insert (authority a) (metadata_id m) (record_screen r, m);
            generations := {[generation m]} ∪ generations a; scanned_bytes := bytes;
            maximum_content_id := Z.max (maximum_content_id a) (metadata_id m);
            maximum_generation := Z.max (maximum_generation a) (generation m); previous_content_key := Some key |}.

Definition scan_placement (normal_row_ids alternate_row_ids : gset Z) (au : btree (ActiveScreen * ImageContentMetadata))
    (pl : ImagePlacement) (a : placement_scan) : outcome ImageError placement_scan :=
  let rows := match placement_screen pl with Normal => normal_row_ids | Alternate => alternate_row_ids end in
  let key := (checkpoint_screen_rank (placement_screen pl), placement_id pl) in
  if is_some_and (λ previous, key_ge previous key) (previous_placement_key a) || (placement_id pl =? 0) ||
     bool_decide (placement_id pl ∈ placement_ids a) || (creation_order pl =? 0) ||
     bool_decide (creation_order pl ∈ creation_orders a) ||
     negb (bool_decide (fst <$> bt_get au (content_id pl) = Some (placement_screen pl))) ||
     (row_id pl =? 0) || negb (bool_decide (row_id pl ∈ rows)) ||
     (extent_columns (destination pl) =? 0) || (extent_rows (destination pl) =? 0)
  then Err InvalidAnchor
  else
    let? m := ok_or_image (snd <$> bt_get au (content_id pl)) UnknownContent in
    let? _ := validate_crop (source pl) (content_width m) (content_height m) in
    let? _ := validate_source_cell_size (source_cell_size pl) in
    Ok {| placement_ids := {[placement_id pl]} ∪ placement_ids a; creation_orders := {[creation_order pl]} ∪ creation_orders a;
          maximum_placement_id := Z.max (maximum_placement_id a) (placement_id pl);
          maximum_creation_order := Z.max (maximum_creation_order a) (creation_order pl);
          previous_placement_key := Some key |}.

Definition no_contents : content_scan := {|
  authority := []; generations := ∅; scanned_bytes := 0; maximum_content_id := 0; maximum_generation := 0;
  previous_content_key := None |}.

Definition no_placements : placement_scan := {|
  placement_ids := ∅; creation_orders := ∅; maximum_placement_id := 0; maximum_creation_order := 0;
  previous_placement_key := None |}.

Definition validate_checkpoint (c : ImageCheckpointV1) (l : ImageLimits) (normal_row_ids alternate_row_ids : gset Z)
    : outcome ImageError ValidatedImageCheckpoint :=
  let content_len := Z.of_nat (length (saved_contents c)) in
  let placement_len := Z.of_nat (length (saved_placements c)) in
  if (contents_per_terminal l <? content_len) || (MAX_IMAGE_CHECKPOINT_CONTENTS <? content_len) ||
     (placements_per_terminal l <? placement_len) || (MAX_IMAGE_CHECKPOINT_PLACEMENTS <? placement_len)
  then Err ContentCount
  else
    let? a := scan (scan_content l) (saved_contents c) no_contents in
    let? b := scan (scan_placement normal_row_ids alternate_row_ids (authority a)) (saved_placements c) no_placements in
    let placed := content_id <$> saved_placements c in
    if existsb (λ r, bool_decide (retention (record_metadata r) = WhilePlaced) &&
                     negb (bool_decide (metadata_id (record_metadata r) ∈ placed))) (saved_contents c)
    then Err UnknownContent
    else if (saved_next_content_id c =? 0) || (saved_next_content_id c <=? maximum_content_id a) ||
            (saved_next_placement_id c =? 0) || (saved_next_placement_id c <=? maximum_placement_id b) ||
            (saved_next_generation c =? 0) || (saved_next_generation c <=? maximum_generation a) ||
            (saved_next_creation_order c =? 0) || (saved_next_creation_order c <=? maximum_creation_order b)
    then Err IdentityExhausted
    else Ok {| validated_bytes := scanned_bytes a; validated_contents := content_len; validated_placements := placement_len |}.

(** The records of a screen. *)
Definition content_records (s : ActiveScreen) (p : ImagePlane) : list CheckpointImageContent :=
  (λ x, {| record_screen := s; record_metadata := metadata x; record_pixels := content_pixels x |}) <$>
    bt_values (contents (catalog s p)).

Definition capture_checkpoint (normal_row_ids alternate_row_ids : gset Z) (p : ImagePlane) : outcome ImageError ImageCheckpointV1 :=
  let c := {| saved_contents := content_records Normal p ++ content_records Alternate p;
              saved_placements := bt_values (placements (normal p)) ++ bt_values (placements (alternate p));
              saved_next_content_id := next_content_id p; saved_next_placement_id := next_placement_id p;
              saved_next_generation := next_generation p; saved_next_creation_order := next_creation_order p |} in
  let? v := validate_checkpoint c (plane_limits p) normal_row_ids alternate_row_ids in
  if negb (validated_bytes v =? content_bytes (metrics p)) || negb (validated_contents v =? content_count (metrics p)) ||
     negb (validated_placements v =? placement_count (metrics p))
  then Err TerminalBytes else Ok c.

(** One content of the checkpoint put in the plane, with its lease. *)
Definition restore_content (r : CheckpointImageContent) : I unit :=
  let! p := plane_get in
  let! reservation := (if shared_budget p then let! l := reserve (byte_charge (record_metadata r)) in ret (Some l)
                       else ret None) in
  let id := metadata_id (record_metadata r) in
  let content := {| metadata := record_metadata r; content_pixels := record_pixels r |} in
  do! on_catalog (record_screen r) (λ c, set_contents (bt_insert (contents c) id content) c) in
  match reservation with
  | Some l => on_catalog (record_screen r) (λ c, set_reservations (bt_insert (reservations c) id l) c)
  | None => ret tt
  end.

Definition restore_placement (pl : ImagePlacement) : I unit :=
  on_catalog (placement_screen pl) (λ c, set_placements (bt_insert (placements c) (placement_id pl) pl) c).

(** [restore_checkpoint]: the plane of the store is the restored one; a plane
    that could not be restored is dropped. *)
Definition restore_checkpoint (c : ImageCheckpointV1) (l : ImageLimits) (shared : bool)
    (normal_row_ids alternate_row_ids : gset Z) : I unit :=
  let! v := lift (validate_checkpoint c l normal_row_ids alternate_row_ids) in
  do! plane_set (ImagePlane_new l shared) in
  let! r := attempt (for_each (saved_contents c) restore_content) in
  match r with
  | Ok _ =>
      do! for_each (saved_placements c) restore_placement in
      do! on_plane (set_metrics {|
            content_bytes := validated_bytes v; content_count := validated_contents v;
            placement_count := validated_placements v; high_water_content_bytes := validated_bytes v;
            high_water_content_count := validated_contents v; high_water_placement_count := validated_placements v |}) in
      do! on_plane (set_next_content_id (saved_next_content_id c)) in
      do! on_plane (set_next_placement_id (saved_next_placement_id c)) in
      do! on_plane (set_next_generation (saved_next_generation c)) in
      on_plane (set_next_creation_order (saved_next_creation_order c))
  | Err e =>
      let! p := plane_get in
      do! drop_plane p in
      fail e
  | Panic => panic
  end.
End checkpoint.
