(* ===== verification/ImagesRestore.v ===== *)
(** * Restored image planes are sound

    What the validation of a checkpoint establishes, and that the plane restored
    from a valid one satisfies the invariant of planes, with its leases. *)

From S2P Require Import Prelude RustStd Update Sixel Images ImagesInv ImagesSteps ImagesOps ImagesCalls ImagesInsert ImagesCheckpoint.

#[local] Open Scope Z_scope.

(** ** Records sorted by screen and identity *)

Definition key_below (a b : Z * Z) : Prop := a.1 < b.1 ∨ a.1 = b.1 ∧ a.2 < b.2.

Lemma key_ge_false a b : key_ge a b = false ↔ key_below a b.
Proof. destruct a as [a1 a2], b as [b1 b2]. unfold key_ge, key_below. simpl. rewrite orb_false_iff, andb_false_iff. lia. Qed.

Lemma key_below_trans a b c : key_below a b → key_below b c → key_below a c.
Proof. unfold key_below. lia. Qed.

(** The last key, of sorted ones. *)
Definition newest (previous : option (Z * Z)) (keys : list (Z * Z)) : Prop :=
  ∀ k, k ∈ keys → ∃ p, previous = Some p ∧ (k = p ∨ key_below k p).

Lemma sorted_snoc keys previous k :
  StronglySorted key_below keys → newest previous keys →
  is_some_and (λ p, key_ge p k) previous = false →
  StronglySorted key_below (keys ++ [k]) ∧ newest (Some k) (keys ++ [k]).
Proof.
  intros Hs Hn Hk. assert (∀ j, j ∈ keys → key_below j k) as Hbelow.
  { intros j (p & -> & Hj)%Hn. simpl in Hk. apply key_ge_false in Hk. destruct Hj as [->|Hj]; [done|by eapply key_below_trans]. }
  split.
  - clear Hn Hk. induction Hs as [|j l Hs IH Hj]; simpl; [repeat constructor|]. constructor.
    + apply IH. intros i Hi. apply Hbelow. by right.
    + apply Forall_app. split; [done|]. apply Forall_singleton, Hbelow. by left.
  - intros j [Hj| ->%list_elem_of_singleton]%elem_of_app; exists k; [|by auto]. split; [done|]. right. by apply Hbelow.
Qed.

Section entries.
Context {R V : Type} (scr : R → ActiveScreen) (key : R → Z) (val : R → V).

Definition rank_key (r : R) : Z * Z := (checkpoint_screen_rank (scr r), key r).

(** The map of a screen made of the records. *)
Definition entries (s : ActiveScreen) (rs : list R) : btree V :=
  (λ r, (key r, val r)) <$> List.filter (λ r, bool_decide (scr r = s)) rs.

Lemma elem_of_entries s rs k v : (k, v) ∈ entries s rs ↔ ∃ r, r ∈ rs ∧ scr r = s ∧ key r = k ∧ val r = v.
Proof using Type.
  unfold entries. rewrite list_elem_of_fmap. split.
  - intros (r & [= -> ->] & Hr). rewrite list_elem_of_In, filter_In, <-list_elem_of_In, bool_decide_eq_true in Hr. naive_solver.
  - intros (r & Hr & Hs & <- & <-). exists r. split; [done|].
    by rewrite list_elem_of_In, filter_In, <-list_elem_of_In, bool_decide_eq_true.
Qed.

Lemma same_screen a b : scr a = scr b → key_below (rank_key a) (rank_key b) → key a < key b.
Proof using Type. unfold key_below, rank_key. simpl. intros ->. lia. Qed.

Lemma entries_wf s rs : StronglySorted key_below (rank_key <$> rs) → bt_wf (entries s rs).
Proof using Type.
  induction rs as [|r rs IH]; intros Hs; [constructor|]. rewrite fmap_cons in Hs. apply StronglySorted_inv in Hs as [Hs Hr].
  unfold entries. simpl. case_bool_decide as Hscr; [|by apply IH]. rewrite fmap_cons. apply bt_wf_cons. split; [by apply IH|].
  intros k v (r' & Hin & Hs' & <- & _)%elem_of_entries. apply same_screen; [congruence|]. rewrite Forall_forall in Hr.
  apply Hr. by apply list_elem_of_fmap_2.
Qed.

Lemma entries_get s rs k v :
  StronglySorted key_below (rank_key <$> rs) →
  bt_get (entries s rs) k = Some v ↔ ∃ r, r ∈ rs ∧ scr r = s ∧ key r = k ∧ val r = v.
Proof using Type. intros Hs. rewrite bt_get_elem by by apply entries_wf. apply elem_of_entries. Qed.

Lemma bt_insert_end (m : btree V) k v : (∀ k' v', (k', v') ∈ m → k' < k) → bt_insert m k v = m ++ [(k, v)].
Proof using Type.
  induction m as [|[k' v'] m IH]; intros Hm; [done|]. simpl. assert (k' < k) by (apply (Hm k' v'); by left).
  rewrite (proj2 (Z.ltb_ge k k')), (proj2 (Z.eqb_neq k k')) by lia. f_equal. apply IH. intros j u Hj. apply (Hm j u). by right.
Qed.

Lemma sorted_before rs r r' : StronglySorted key_below (rank_key <$> rs ++ [r]) → r' ∈ rs → key_below (rank_key r') (rank_key r).
Proof using Type.
  induction rs as [|x rs IH]; intros Hs Hin; [by apply elem_of_nil in Hin|]. rewrite <-app_comm_cons, fmap_cons in Hs.
  apply StronglySorted_inv in Hs as [Hs Hx]. apply elem_of_cons in Hin as [->|Hin]; [|by apply IH].
  rewrite Forall_forall in Hx. apply Hx, list_elem_of_fmap_2, elem_of_app. right. by apply list_elem_of_singleton.
Qed.

Lemma entries_next rs r :
  StronglySorted key_below (rank_key <$> rs ++ [r]) →
  bt_insert (entries (scr r) rs) (key r) (val r) = entries (scr r) (rs ++ [r]).
Proof using Type.
  intros Hs. rewrite bt_insert_end.
  - unfold entries. rewrite List.filter_app, fmap_app. simpl. by rewrite bool_decide_eq_true_2.
  - intros k v (r' & Hin & Hscr & <- & _)%elem_of_entries. apply same_screen; [done|]. by eapply sorted_before.
Qed.

Lemma entries_other s rs r : scr r ≠ s → entries s (rs ++ [r]) = entries s rs.
Proof using Type.
  intros Hr. unfold entries. rewrite List.filter_app, fmap_app. simpl. rewrite bool_decide_eq_false_2 by done. apply app_nil_r.
Qed.

Lemma entries_length rs : Z.of_nat (length (entries Normal rs)) + Z.of_nat (length (entries Alternate rs)) = Z.of_nat (length rs).
Proof using Type. unfold entries. rewrite !length_fmap. induction rs as [|r rs IH]; [done|]. simpl. repeat case_bool_decide; simpl; try lia; destruct (scr r) eqn:?; congruence. Qed.

Lemma entries_sum (f : V → Z) rs :
  sum_of f (bt_values (entries Normal rs)) + sum_of f (bt_values (entries Alternate rs)) = sum_of (λ r, f (val r)) rs.
Proof using Type.
  unfold entries, bt_values. rewrite <-!list_fmap_compose. induction rs as [|r rs IH]; [done|]. simpl.
  repeat case_bool_decide; rewrite ?fmap_cons; simpl; rewrite <-?IH; unfold compose; simpl; try lia; destruct (scr r) eqn:?; congruence.
Qed.
End entries.

(** ** What validation establishes *)

Definition record_id (r : CheckpointImageContent) : Z := metadata_id (record_metadata r).
Definition record_content (r : CheckpointImageContent) : ImageContent :=
  {| metadata := record_metadata r; content_pixels := record_pixels r |}.

Abbreviation content_entries := (entries record_screen record_id record_content) (only parsing).
Abbreviation placement_entries := (entries placement_screen placement_id (λ pl, pl)) (only parsing).

(** A checkpoint with the types of the code. *)
Record typed_checkpoint (c : ImageCheckpointV1) : Prop := {
  tc_contents r : r ∈ saved_contents c →
    0 ≤ record_id r ∧ 0 ≤ content_width (record_metadata r) ∧ 0 ≤ content_height (record_metadata r);
  tc_placements pl : pl ∈ saved_placements c →
    0 ≤ placement_id pl ∧ 0 ≤ placement_column pl ∧
    (0 ≤ rect_x (source pl) ∧ 0 ≤ rect_y (source pl) ∧ 0 ≤ rect_width (source pl) ∧ 0 ≤ rect_height (source pl)) ∧
    (0 ≤ extent_columns (destination pl) ∧ 0 ≤ extent_rows (destination pl)) ∧
    ∀ z, source_cell_size pl = Some z → 0 ≤ size_width z ∧ 0 ≤ size_height z;
  tc_next : 0 ≤ saved_next_content_id c ≤ u64_max ∧ 0 ≤ saved_next_placement_id c ≤ u64_max;
}.

Lemma scan_invariant {A B} (J : list B → A → Prop) (f : B → A → outcome ImageError A) l before a a' :
  (∀ before x a a', x ∈ l → J before a → f x a = Ok a' → J (before ++ [x]) a') →
  J before a → scan f l a = Ok a' → J (before ++ l) a'.
Proof.
  revert before a. induction l as [|x l IH]; intros before a Hf HJ Hs; cbn [scan] in Hs.
  { injection Hs as <-. by rewrite app_nil_r. }
  destruct (f x a) as [a1| |] eqn:E; cbn [obind] in Hs; [|done|done].
  rewrite (cons_middle x before l), app_assoc. apply (IH _ a1); [|by eapply Hf; [by left|..]|done].
  intros before' y b b' Hy. apply Hf. by right.
Qed.

Lemma scan_returns {A B} (f : B → A → outcome ImageError A) l a : (∀ x a, f x a ≠ Panic) → scan f l a ≠ Panic.
Proof.
  intros Hf. revert a. induction l as [|x l IH]; intros a; cbn [scan]; [done|].
  destruct (f x a) eqn:E; cbn [obind]; [apply IH|done|by apply Hf in E].
Qed.

Section restore.
Context (sha256 : list Z → list Z).

(** After the contents [rs]. *)
Record scanned (l : ImageLimits) (rs : list CheckpointImageContent) (a : content_scan) : Prop := {
  sc_wf : bt_wf (authority a);
  sc_authority id x : bt_get (authority a) id = Some x ↔
    ∃ r, r ∈ rs ∧ record_id r = id ∧ x = (record_screen r, record_metadata r);
  sc_sorted : StronglySorted key_below (rank_key record_screen record_id <$> rs);
  sc_newest : newest (previous_content_key a) (rank_key record_screen record_id <$> rs);
  sc_content r : r ∈ rs → content_ok l (maximum_content_id a + 1) (record_id r) (record_content r);
  sc_bytes : scanned_bytes a = sum_of (λ r, charge (record_content r)) rs;
  sc_limit : 0 ≤ bytes_per_terminal l → scanned_bytes a ≤ bytes_per_terminal l;
}.

Lemma scanned_nil l : scanned l [] no_contents.
Proof using Type.
  split; cbn; [constructor| |constructor| | |done|done].
  - intros id x. split; [done|]. by intros (r & []%elem_of_nil & _).
  - by intros k []%elem_of_nil.
  - by intros r []%elem_of_nil.
Qed.

Lemma scan_content_spec l rs r a a' :
  0 ≤ record_id r → 0 ≤ content_width (record_metadata r) → 0 ≤ content_height (record_metadata r) →
  scanned l rs a → scan_content sha256 l r a = Ok a' → scanned l (rs ++ [r]) a'.
Proof using Type.
  intros Hid Hw Hh [S1 S2 S3 S4 S5 S6 S7] Hs. unfold scan_content in Hs. fold (record_id r) in Hs.
  destruct (_ || _) eqn:Hb in Hs; [done|]. rewrite !orb_false_iff in Hb. destruct Hb as ((((B1 & B2) & B3) & B4) & B5).
  destruct (validate_content_geometry l _ _) as [e| |] eqn:Hg; cbn [obind] in Hs; [|done|done].
  apply geometry_Ok in Hg as (G1 & G2 & -> & G4 & G5); [|done|done].
  destruct (_ || _) eqn:Hp in Hs; [done|]. rewrite !orb_false_iff, !negb_false_iff, !Z.eqb_eq in Hp. destruct Hp as ((P1 & P2) & _).
  destruct (ok_or_image _ _) as [bytes| |] eqn:Eb; cbn [obind] in Hs; [|done|done]. injection Hs as <-.
  apply Z.eqb_neq in B2. unfold bt_contains in B5. destruct (bt_get (authority a) (record_id r)) as [x|] eqn:Enew; [done|].
  destruct (sorted_snoc _ _ _ S3 S4 B1) as [N1 N2].
  assert (bytes = scanned_bytes a + 4 * (content_width (record_metadata r) * content_height (record_metadata r)) ∧
    bytes ≤ bytes_per_terminal l) as [-> Hlim].
  { unfold within in Eb. repeat (case_match; simplify_option_eq; try done); lia. }
  split; cbn [authority maximum_content_id scanned_bytes previous_content_key].
  - by apply bt_insert_wf.
  - intros id x. rewrite bt_get_insert by done. fold (record_id r). destruct (Z.eqb_spec id (record_id r)) as [->|Hne].
    + split; [intros [= <-]; exists r; set_solver|]. intros (r' & [Hr'| ->%list_elem_of_singleton]%elem_of_app & He & ->); [|done].
      assert (bt_get (authority a) (record_id r) = Some (record_screen r', record_metadata r')) as Hx by (apply S2; eauto).
      congruence.
    + rewrite S2. split; [intros (r' & ? & ? & ?); exists r'; set_solver|].
      intros (r' & [Hr'| ->%list_elem_of_singleton]%elem_of_app & He & ->); [eauto|]. by destruct Hne.
  - by rewrite fmap_app.
  - by rewrite fmap_app.
  - intros r' [Hr'| ->%list_elem_of_singleton]%elem_of_app.
    + eapply content_ok_mono; [by apply S5|lia].
    + fold (record_id r). split; unfold charge; cbn; unfold record_id in *; try done; lia.
  - rewrite sum_of_app. simpl. unfold charge at 2. cbn. lia.
  - done.
Qed.

(** A placement that validation accepted. *)
Record placement_valid (au : btree (ActiveScreen * ImageContentMetadata)) (top : Z) (pl : ImagePlacement) : Prop := {
  pv_id : 1 ≤ placement_id pl ≤ top;
  pv_content : ∃ m, bt_get au (content_id pl) = Some (placement_screen pl, m) ∧
    crop_inside (source pl) (content_width m) (content_height m);
  pv_column : 0 ≤ placement_column pl;
  pv_destination : 0 < extent_columns (destination pl) ∧ 0 < extent_rows (destination pl);
  pv_cell z : source_cell_size pl = Some z → 0 < size_width z ∧ 0 < size_height z;
}.

(** After the placements [pls]. *)
Record scanned_placements (au : btree (ActiveScreen * ImageContentMetadata)) (pls : list ImagePlacement) (b : placement_scan) : Prop := {
  sp_set id : id ∈ placement_ids b ↔ id ∈ placement_id <$> pls;
  sp_ids : NoDup (placement_id <$> pls);
  sp_sorted : StronglySorted key_below (rank_key placement_screen placement_id <$> pls);
  sp_newest : newest (previous_placement_key b) (rank_key placement_screen placement_id <$> pls);
  sp_valid pl : pl ∈ pls → placement_valid au (maximum_placement_id b) pl;
}.

Lemma scanned_placements_nil au : scanned_placements au [] no_placements.
Proof using Type.
  split; cbn; [|constructor|constructor| |].
  - set_solver.
  - by intros k []%elem_of_nil.
  - by intros pl []%elem_of_nil.
Qed.

Lemma scan_placement_spec rows rows' au pls pl b b' c :
  typed_checkpoint c → pl ∈ saved_placements c →
  scanned_placements au pls b → scan_placement rows rows' au pl b = Ok b' → scanned_placements au (pls ++ [pl]) b'.
Proof using Type.
  intros Hc Hin [S1 S2 S3 S4 S5] Hs. destruct (tc_placements _ Hc _ Hin) as (T1 & T2 & (T3 & T4 & T5 & T6) & (T7 & T8) & T9).
  unfold scan_placement in Hs. destruct (_ || _) eqn:Hb in Hs; [done|]. rewrite !orb_false_iff in Hb.
  destruct Hb as (((((((((B1 & B2) & B3) & B4) & B5) & B6) & B7) & B8) & B9) & B10).
  apply Z.eqb_neq in B2, B9, B10. apply bool_decide_eq_false in B3. apply negb_false_iff, bool_decide_eq_true in B6.
  destruct (bt_get au (content_id pl)) as [[s m]|] eqn:Ea; [|done]. cbn in B6. injection B6 as ->. cbn [ok_or_image fmap option_fmap option_map snd obind] in Hs.
  destruct (validate_crop _ _ _) as [[]| |] eqn:Ec; cbn [obind] in Hs; [|done|done].
  destruct (validate_source_cell_size _) as [[]| |] eqn:Ez; cbn [obind] in Hs; [|done|done]. injection Hs as <-.
  destruct (sorted_snoc _ _ _ S3 S4 B1) as [N1 N2].
  split; cbn [placement_ids maximum_placement_id previous_placement_key].
  - intros id. rewrite elem_of_union, elem_of_singleton, S1, fmap_app, elem_of_app. cbn. rewrite list_elem_of_singleton. tauto.
  - rewrite fmap_app. apply NoDup_app. split_and!; [done| |apply NoDup_singleton]. intros id Hid ->%list_elem_of_singleton. by apply B3, S1.
  - by rewrite fmap_app.
  - by rewrite fmap_app.
  - intros q [Hq| ->%list_elem_of_singleton]%elem_of_app.
    + destruct (S5 q Hq). split; [lia|done..].
    + split; [lia| |done|lia|].
      * exists m. split; [done|]. by eapply validate_crop_Ok.
      * intros z Hz. destruct (validate_cell_Ok _ _ Ez z Hz). destruct (T9 z Hz). lia.
Qed.

(** A checkpoint that validation accepted. *)
Record checkpoint_valid (l : ImageLimits) (c : ImageCheckpointV1) (v : ValidatedImageCheckpoint) : Prop := {
  cv_contents : ∃ a, scanned l (saved_contents c) a ∧ maximum_content_id a < saved_next_content_id c ∧
    validated_bytes v = scanned_bytes a ∧
    ∃ b, scanned_placements (authority a) (saved_placements c) b ∧ maximum_placement_id b < saved_next_placement_id c;
  cv_content_count : validated_contents v = Z.of_nat (length (saved_contents c)) ∧ validated_contents v ≤ contents_per_terminal l;
  cv_placement_count : validated_placements v = Z.of_nat (length (saved_placements c)) ∧ validated_placements v ≤ placements_per_terminal l;
  cv_next : saved_next_content_id c ≠ 0 ∧ saved_next_placement_id c ≠ 0;
}.

Lemma validate_checkpoint_Ok c l rows rows' v :
  typed_checkpoint c → validate_checkpoint sha256 c l rows rows' = Ok v → checkpoint_valid l c v.
Proof using Type.
  intros Hc Hv. unfold validate_checkpoint in Hv. destruct (_ || _) eqn:H1 in Hv; [done|]. rewrite !orb_false_iff, !Z.ltb_ge in H1.
  destruct H1 as (((L1 & _) & L3) & _).
  destruct (scan (scan_content sha256 l) _ _) as [a| |] eqn:Ea; cbn [obind] in Hv; [|done|done].
  destruct (scan (scan_placement _ _ _) _ _) as [b| |] eqn:Eb; cbn [obind] in Hv; [|done|done].
  destruct (existsb _ _) in Hv; [done|]. destruct (_ || _) eqn:H2 in Hv; [done|]. injection Hv as <-.
  rewrite !orb_false_iff, !Z.eqb_neq, !Z.leb_gt in H2. destruct H2 as (((((((N1 & N2) & N3) & N4) & _) & _) & _) & _).
  assert (scanned l (saved_contents c) a) as Ha.
  { refine (scan_invariant (scanned l) _ _ [] _ _ _ (scanned_nil l) Ea).
    intros before r x x' Hr. destruct (tc_contents _ Hc r Hr) as (? & ? & ?). by apply scan_content_spec. }
  assert (scanned_placements (authority a) (saved_placements c) b) as Hb.
  { refine (scan_invariant (scanned_placements (authority a)) _ _ [] _ _ _ (scanned_placements_nil _) Eb).
    intros before pl x x' Hpl. by eapply scan_placement_spec. }
  split; cbn; [|done|done|done]. exists a. split_and!; [done|lia|done|]. exists b. split; [done|lia].
Qed.

Lemma validate_checkpoint_returns c l rows rows' : validate_checkpoint sha256 c l rows rows' ≠ Panic.
Proof using Type.
  unfold validate_checkpoint. destruct (_ || _); [done|].
  destruct (scan (scan_content sha256 l) _ _) as [a| |] eqn:Ea; cbn [obind]; [|done|].
  - destruct (scan (scan_placement _ _ _) _ _) as [b| |] eqn:Eb; cbn [obind]; [by repeat case_match|done|].
    apply scan_returns in Eb; [done|]. intros pl x. unfold scan_placement. destruct (_ || _); [done|].
    destruct (bt_get _ _); cbn; [|done]. unfold validate_crop, validate_source_cell_size. by repeat (case_match; cbn; try done).
  - apply scan_returns in Ea; [done|]. intros r x. unfold scan_content. destruct (_ || _); [done|].
    destruct (validate_content_geometry _ _ _) eqn:Eg; cbn [obind]; [|done|by apply geometry_returns in Eg].
    destruct (_ || _); [done|]. by destruct (_ ≫= _).
Qed.
End restore.

(** ** Restoring the contents *)

Record restoring (l : ImageLimits) (shared : bool) (F : list Z) (b0 : SharedImageBudget) (rs : list CheckpointImageContent) (st : Store) : Prop := {
  rg_contents s : contents (catalog s (this st)) = content_entries s rs;
  rg_placements s : placements (catalog s (this st)) = [];
  rg_keys s : (reservations (catalog s (this st))).*1 = if shared then (contents (catalog s (this st))).*1 else [];
  rg_fields : plane_limits (this st) = l ∧ shared_budget (this st) = shared;
  rg_budget : budget_ok (budget st) (held (this st) ++ F);
  rg_linked : linked (this st) (budget st);
  rg_distinct : NoDup (held (this st));
  rg_stable : stable F b0 (budget st);
  rg_own k : k ∈ held (this st) → next_lease b0 ≤ k;
}.

(** The plane with one more content. *)
Definition with_record (r : CheckpointImageContent) (o : option Z) (p : ImagePlane) : ImagePlane :=
  update_catalog (record_screen r) (λ c, match o with
    | Some l => set_reservations (bt_insert (reservations c) (record_id r) l) (set_contents (bt_insert (contents c) (record_id r) (record_content r)) c)
    | None => set_contents (bt_insert (contents c) (record_id r) (record_content r)) c
    end) p.

Lemma restore_content_run r o p b :
  (match o with
   | Some l => on_catalog (record_screen r) (λ c, set_reservations (bt_insert (reservations c) (record_id r) l) c)
   | None => ret tt
   end : M Store ImageError unit)
    {| this := update_catalog (record_screen r) (λ c, set_contents (bt_insert (contents c) (record_id r) (record_content r)) c) p; budget := b |} =
  (Ok tt, {| this := with_record r o p; budget := b |}).
Proof. unfold with_record, on_catalog, on_plane. destruct o; [|done]. by destruct (record_screen r). Qed.

Lemma with_record_catalog r o p s :
  catalog s (with_record r o p) =
    if decide (s = record_screen r) then
      {| contents := bt_insert (contents (catalog s p)) (record_id r) (record_content r);
         reservations := match o with Some l => bt_insert (reservations (catalog s p)) (record_id r) l | None => reservations (catalog s p) end;
         placements := placements (catalog s p) |}
    else catalog s p.
Proof. unfold with_record. rewrite catalog_update. case_decide; [|done]. by destruct o. Qed.

Lemma with_record_ok l shared F b0 rs r o st b :
  let p := this st in
  restoring l shared F b0 rs st → StronglySorted key_below (rank_key record_screen record_id <$> rs ++ [r]) →
  (if shared then ∃ k, o = Some k ∧ budget_ok b (k :: held p ++ F) ∧ stable (held p ++ F) (budget st) b ∧
     lease_bytes <$> leases b !! k = Some (byte_charge (record_metadata r)) ∧ k ∉ held p ∧ next_lease (budget st) ≤ k
   else o = None ∧ b = budget st) →
  restoring l shared F b0 (rs ++ [r]) {| this := with_record r o p; budget := b |}.
Proof.
  cbv zeta. intros [R1 R2 R3 [R4 R4'] R5 R6 R7 R8 R9] Hs Ho. set (p := this st) in *. set (s := record_screen r).
  pose proof (with_record_catalog r o p) as Hcat. fold s in Hcat.
  assert (StronglySorted key_below (rank_key record_screen record_id <$> rs)) as Hs'.
  { rewrite fmap_app in Hs. by apply StronglySorted_app in Hs as (_ & ? & _). }
  assert (bt_get (contents (catalog s p)) (record_id r) = None) as Hnew.
  { rewrite R1. apply eq_None_not_Some. intros [x (r' & Hin & He & Hk & _)%entries_get]; [|done].
    pose proof (sorted_before _ _ _ _ _ Hs Hin) as Hlt. apply same_screen in Hlt; [lia|done]. }
  assert (∀ s', contents (catalog s' (with_record r o p)) = content_entries s' (rs ++ [r])) as Hcontents.
  { intros s'. rewrite Hcat. case_decide as Hd; [subst s'; cbn; rewrite R1; by apply entries_next|].
    rewrite R1. symmetry. apply entries_other. unfold s in Hd. congruence. }
  assert (with_record r o p = with_record r o p ∧ plane_limits (with_record r o p) = l ∧ shared_budget (with_record r o p) = shared) as (_ & F1 & F2).
  { unfold with_record. destruct (update_fields s (λ c, match o with
      | Some l => set_reservations (bt_insert (reservations c) (record_id r) l) (set_contents (bt_insert (contents c) (record_id r) (record_content r)) c)
      | None => set_contents (bt_insert (contents c) (record_id r) (record_content r)) c end) p) as (E1 & E2 & _). fold s. by rewrite E1, E2. }
  assert (∀ s', placements (catalog s' (with_record r o p)) = []) as Hpl by (intros s'; rewrite Hcat; case_decide; apply R2).
  destruct shared.
  - destruct Ho as (k & -> & Hb & Hst & Hlease & Hk & Hfresh).
    assert (bt_get (reservations (catalog s p)) (record_id r) = None) as Hnewr.
    { apply eq_None_not_Some. rewrite (bt_get_keys _ _ _ (R3 s)), Hnew. by intros []. }
    assert (held (with_record r (Some k) p) ≡ₚ k :: held p) as Hheld.
    { rewrite (held_perm s), (held_perm s p), !Hcat, decide_True by done. rewrite decide_False by (by destruct s). cbn [reservations].
      by rewrite (bt_values_insert _ _ _ Hnewr). }
    split; cbn [this budget]; try done.
    + intros s'. rewrite Hcat. case_decide; [subst s'; cbn; by apply bt_insert_keys|apply R3].
    + eapply budget_perm; [|exact Hb]. by rewrite Hheld.
    + intros s' j l' y Hj Hy. rewrite Hcat in Hj, Hy. destruct Hst as [_ Hst].
      assert (bt_get (reservations (catalog s' p)) j = Some l' → bt_get (contents (catalog s' p)) j = Some y → lease_bytes <$> leases b !! l' = Some (charge y)) as Hold.
      { intros Hj' Hy'. rewrite Hst; [by eapply R6|]. apply elem_of_app. left. unfold held. apply elem_of_app.
        destruct s'; [left|right]; by eapply bt_get_value. }
      case_decide; [subst s'|by apply Hold]. cbn in Hj, Hy. assert (bt_wf (contents (catalog s p))) as Hwf by (rewrite R1; by apply entries_wf).
      rewrite bt_get_insert in Hy by done. rewrite bt_get_insert in Hj by (eapply bt_wf_keys; [apply R3|done]).
      destruct (Z.eqb_spec j (record_id r)); [|by apply Hold]. injection Hj as <-. injection Hy as <-. exact Hlease.
    + rewrite Hheld. by constructor.
    + eapply stable_trans; [exact R8|]. eapply stable_subset; [|exact Hst]. set_solver.
    + intros j. rewrite Hheld. intros [->|Hj]%elem_of_cons; [|by apply R9]. destruct R8 as [[_ Hn] _]. lia.
  - destruct Ho as [-> ->]. assert (∀ s', reservations (catalog s' (with_record r None p)) = reservations (catalog s' p)) as Hres.
    { intros s'. rewrite Hcat. by case_decide. }
    assert (held (with_record r None p) = held p) as Hheld.
    { unfold held. pose proof (Hres Normal) as H1. pose proof (Hres Alternate) as H2. cbn [catalog] in H1, H2. by rewrite H1, H2. }
    split; cbn [this budget]; rewrite ?Hheld; try done.
    + intros s'. by rewrite Hres, R3.
    + intros s' j l' y Hj. rewrite Hres in Hj. pose proof (R3 s') as Hk. apply fmap_nil_inv in Hk. by rewrite Hk in Hj.
Qed.

Lemma restore_content_spec l shared F b0 rs r st :
  restoring l shared F b0 rs st → StronglySorted key_below (rank_key record_screen record_id <$> rs ++ [r]) →
  0 ≤ byte_charge (record_metadata r) →
  wp (restore_content r) (λ res st', match res with
    | Ok _ => restoring l shared F b0 (rs ++ [r]) st'
    | Err _ => restoring l shared F b0 rs st'
    | Panic => False
    end) st.
Proof.
  intros Hr Hs Hch. unfold restore_content, plane_get. do 3 wp_step. destruct (rg_fields _ _ _ _ _ _ Hr) as [_ Esh]. rewrite Esh.
  fold (record_id r) (record_content r). unfold on_catalog at 1, on_plane at 1. destruct shared.
  - apply wp_bind, wp_bind. eapply wp_mono; [|apply (reserve_spec _ st _ (rg_budget _ _ _ _ _ _ Hr) Hch)].
    intros [k|e|] st1 [E Hk]; [|by rewrite Hk|done]. destruct Hk as (K1 & K2 & K3 & K4 & K5). wp_step. wp_step.
    rewrite E. unfold wp. rewrite (restore_content_run r (Some k)). cbn [fst snd].
    apply (with_record_ok l true F b0 rs r (Some k) st); [done|done|]. exists k. split_and!; try done. set_solver.
  - wp_step. wp_step. unfold wp. rewrite (restore_content_run r None). cbn [fst snd].
    by apply (with_record_ok l false F b0 rs r None st).
Qed.

Lemma restore_contents_spec l shared F b0 rs todo st :
  restoring l shared F b0 rs st → StronglySorted key_below (rank_key record_screen record_id <$> rs ++ todo) →
  Forall (λ r, 0 ≤ byte_charge (record_metadata r)) todo →
  wp (for_each todo restore_content) (λ res st', match res with
    | Ok _ => restoring l shared F b0 (rs ++ todo) st'
    | Err _ => ∃ rs', restoring l shared F b0 rs' st'
    | Panic => False
    end) st.
Proof.
  revert rs st. induction todo as [|r todo IH]; intros rs st Hr Hs Hch; cbn [for_each].
  { wp_step. by rewrite app_nil_r. }
  apply Forall_cons in Hch as [Hc Hch]. rewrite cons_middle, app_assoc in Hs |- *.
  apply wp_bind. eapply wp_mono; [|apply restore_content_spec; [exact Hr| |exact Hc]].
  - intros [[]|e|] st1 H1; [|by exists rs|done]. by apply IH.
  - rewrite fmap_app in Hs. by apply StronglySorted_app in Hs as (_ & ? & _).
Qed.

(** ** The restored plane *)

Lemma restore_placements_run pls before st :
  StronglySorted key_below (rank_key placement_screen placement_id <$> before ++ pls) →
  (∀ s, placements (catalog s (this st)) = placement_entries s before) →
  runs (for_each pls restore_placement) (λ _ st', budget st' = budget st ∧
    plane_limits (this st') = plane_limits (this st) ∧ shared_budget (this st') = shared_budget (this st) ∧
    ∀ s, contents (catalog s (this st')) = contents (catalog s (this st)) ∧
      reservations (catalog s (this st')) = reservations (catalog s (this st)) ∧
      placements (catalog s (this st')) = placement_entries s (before ++ pls)) st.
Proof.
  revert before st. induction pls as [|pl pls IH]; intros before st Hs Hp; cbn [for_each].
  { apply runs_ret. rewrite app_nil_r. split_and!; [done|done|done|]. intros s. by rewrite Hp. }
  rewrite cons_middle, app_assoc in Hs |- *. apply runs_bind, runs_modify.
  set (f := λ c, set_placements (bt_insert (placements c) (placement_id pl) pl) c). set (sc := placement_screen pl).
  destruct (update_fields sc f (this st)) as (E1 & E2 & _).
  assert (∀ s, catalog s (update_catalog sc f (this st)) = if decide (s = sc) then f (catalog s (this st)) else catalog s (this st)) as Hcat.
  { intros s. apply catalog_update. }
  eapply runs_mono; [|apply (IH (before ++ [pl])); [exact Hs|]].
  - intros [] st' (B1 & B2 & B3 & B4). cbn [this budget] in *. split_and!; [done|congruence|congruence|]. intros s.
    destruct (B4 s) as (C1 & C2 & C3). rewrite C1, C2, C3, Hcat. by case_decide.
  - intros s. cbn [this]. rewrite Hcat. case_decide as Hd.
    + subst s. cbn. rewrite Hp. apply (entries_next placement_screen placement_id (λ pl, pl)).
      rewrite fmap_app in Hs. by apply StronglySorted_app in Hs as (_ & ? & _).
    + rewrite Hp. symmetry. apply entries_other. unfold sc in Hd. congruence.
Qed.

Lemma entries_keys_NoDup pls :
  NoDup (placement_id <$> pls) → NoDup ((placement_entries Normal pls).*1 ++ (placement_entries Alternate pls).*1).
Proof.
  intros Hnd. eapply (NoDup_Permutation_proper _ (placement_id <$> pls)); [|exact Hnd]. unfold entries.
  rewrite <-!list_fmap_compose, <-fmap_app. apply fmap_Permutation. clear Hnd.
  induction pls as [|pl pls IH]; [done|]. simpl. repeat case_bool_decide; simpl; try (destruct (placement_screen pl) eqn:?; congruence).
  - by rewrite IH.
  - by rewrite <-Permutation_middle, IH.
Qed.

Lemma restored_plane_ok l c v p :
  plane_limits_ok l → typed_checkpoint c → checkpoint_valid l c v → plane_limits p = l →
  (∀ s, contents (catalog s p) = content_entries s (saved_contents c)) →
  (∀ s, placements (catalog s p) = placement_entries s (saved_placements c)) →
  (∀ s, (reservations (catalog s p)).*1 = if shared_budget p then (contents (catalog s p)).*1 else []) →
  content_bytes (metrics p) = validated_bytes v → content_count (metrics p) = validated_contents v →
  placement_count (metrics p) = validated_placements v → next_content_id p = saved_next_content_id c →
  next_placement_id p = saved_next_placement_id c → plane_ok true p.
Proof.
  intros Hl Hc [(a & Ha & Hna & Hbytes & b & Hb & Hnb) [V1 V2] [V3 V4] [Z1 Z2]] El Hcont Hplac Hkeys M1 M2 M3 X1 X2.
  destruct Ha as [S1 S2 S3 S4 S5 S6 S7]. destruct Hb as [P1 P2 P3 P4 P5]. destruct (tc_next _ Hc) as [U1 U2].
  assert (∀ s k pl, bt_get (placements (catalog s p)) k = Some pl →
    pl ∈ saved_placements c ∧ placement_screen pl = s ∧ placement_id pl = k) as Hin.
  { intros s k pl. rewrite Hplac. intros (q & Hq & Hs & Hk & ->)%entries_get; done. }
  assert (∀ s k pl, bt_get (placements (catalog s p)) k = Some pl → ∃ x, bt_get (contents (catalog s p)) (content_id pl) = Some x ∧
    crop_inside (source pl) (content_width (metadata x)) (content_height (metadata x)) ∧ content_id pl < next_content_id p) as Hshown.
  { intros s k pl Hk. destruct (Hin _ _ _ Hk) as (Hpl & Hs & _). destruct (P5 pl Hpl) as [_ (m & Hm & Hcrop) _ _ _].
    apply S2 in Hm as (r & Hr & Hid & [= Hscr ->]). exists (record_content r). rewrite Hcont. split; [|split; [done|]].
    - apply entries_get; [done|]. exists r. split_and!; [done|congruence|done|done].
    - destruct (S5 r Hr) as [_ Hrange _ _ _ _ _]. lia. }
  assert (total charges p = sum_of (λ r, charge (record_content r)) (saved_contents c)) as Htotal.
  { unfold total, charges. pose proof (Hcont Normal) as H1. pose proof (Hcont Alternate) as H2. cbn [catalog] in H1, H2.
    rewrite H1, H2. apply entries_sum. }
  assert (total stored p = Z.of_nat (length (saved_contents c))) as Hstored.
  { unfold total, stored. pose proof (Hcont Normal) as H1. pose proof (Hcont Alternate) as H2. cbn [catalog] in H1, H2.
    rewrite H1, H2. apply entries_length. }
  assert (total placed p = Z.of_nat (length (saved_placements c))) as Hplaced.
  { unfold total, placed. pose proof (Hplac Normal) as H1. pose proof (Hplac Alternate) as H2. cbn [catalog] in H1, H2.
    rewrite H1, H2. apply entries_length. }
  split.
  - intros s. rewrite Hcont. by apply entries_wf.
  - intros s. rewrite Hplac. by apply entries_wf.
  - intros s k x. rewrite Hcont, El, X1. intros (r & Hr & _ & <- & <-)%entries_get; [|done].
    eapply content_ok_mono; [by apply S5|lia].
  - intros s k pl Hk. destruct (Hin _ _ _ Hk) as (Hpl & Hs & Hid). destruct (Hshown _ _ _ Hk) as (x & Hx & Hcrop & Hlt).
    destruct (P5 pl Hpl) as [Q1 _ Q3 Q4 Q5]. split; try done; [lia| |].
    + destruct Hcrop. lia.
    + intros y Hy. rewrite Hx in Hy. by injection Hy as <-.
  - exact Hkeys.
  - by rewrite M1, Htotal, Hbytes.
  - by rewrite M2, Hstored.
  - by rewrite M3, Hplaced.
  - rewrite M1, El, Hbytes. apply S7. apply (pl_terminal _ Hl).
  - by rewrite M2, El.
  - unfold placement_keys. pose proof (Hplac Normal) as H1. pose proof (Hplac Alternate) as H2. cbn [catalog] in H1, H2. rewrite H1, H2.
    by apply entries_keys_NoDup.
  - lia.
  - by rewrite El.
  - intros _. split; [by rewrite M3, El|]. intros s k pl Hk. destruct (Hshown _ _ _ Hk) as (x & Hx & _). by exists x.
Qed.

(** The restored plane has what the checkpoint has. *)
Record restored_from (c : ImageCheckpointV1) (l : ImageLimits) (shared : bool) (v : ValidatedImageCheckpoint) (p : ImagePlane) : Prop := {
  rf_contents s : contents (catalog s p) = content_entries s (saved_contents c);
  rf_placements s : placements (catalog s p) = placement_entries s (saved_placements c);
  rf_limits : plane_limits p = l ∧ shared_budget p = shared;
  rf_metrics : metrics p = {|
    content_bytes := validated_bytes v; content_count := validated_contents v;
    placement_count := validated_placements v; high_water_content_bytes := validated_bytes v;
    high_water_content_count := validated_contents v; high_water_placement_count := validated_placements v |};
  rf_next : next_content_id p = saved_next_content_id c ∧ next_placement_id p = saved_next_placement_id c ∧
    next_generation p = saved_next_generation c ∧ next_creation_order p = saved_next_creation_order c;
}.

Lemma restoring_new l shared F st :
  budget_ok (budget st) F → restoring l shared F (budget st) [] {| this := ImagePlane_new l shared; budget := budget st |}.
Proof.
  intros Hb. split; cbn [this budget]; try done; try (by intros []).
  - intros []; by destruct shared.
  - constructor.
  - by intros k []%elem_of_nil.
Qed.

Section restore_all.
Context (sha256 : list Z → list Z).

Lemma restore_checkpoint_spec c l shared rows rows' F st :
  budget_ok (budget st) F → plane_limits_ok l → typed_checkpoint c →
  wp (restore_checkpoint sha256 c l shared rows rows') (λ r st', match r with
    | Ok _ => store_ok true F st' ∧ stable F (budget st) (budget st') ∧
        (∀ k, k ∈ held (this st') → next_lease (budget st) ≤ k) ∧
        ∃ v, validate_checkpoint sha256 c l rows rows' = Ok v ∧ restored_from c l shared v (this st')
    | Err _ => budget_ok (budget st') F ∧ stable F (budget st) (budget st')
    | Panic => False
    end) st.
Proof using Type.
  intros Hb Hl Hc. unfold restore_checkpoint. wp_step; [|done|by apply validate_checkpoint_returns in H].
  rename H into Hv, a into v. pose proof (validate_checkpoint_Ok _ _ _ _ _ _ Hc Hv) as Hvalid.
  destruct (cv_contents _ _ _ Hvalid) as (a & [_ _ Hsorted _ Hcontent _ _] & _ & _ & b & [_ _ Hpsorted _ _] & _).
  unfold plane_set, plane_get. do 1 wp_step. apply wp_bind, wp_attempt.
  eapply wp_mono; [|apply (restore_contents_spec l shared F (budget st) [] (saved_contents c)); [by apply restoring_new|done|]].
  2: { apply Forall_forall. intros r Hr. destruct (Hcontent r Hr) as [_ _ W H E _ _]. unfold charge in E. cbn in W, H, E. nia. }
  intros [[]|e|] st1 H1; [| |done].
  - destruct H1 as [R1 R2 R3 [R4 R4'] R5 R6 R7 R8 R9].
    eapply wp_bind_runs; [apply (restore_placements_run (saved_placements c) [] st1); [done|intros s; by rewrite R2]|].
    intros [] st2 (B1 & B2 & B3 & B4). cbn [app] in *. unfold on_plane. unfold wp. cbn. set (p' := set_next_creation_order _ _).
    assert (∀ s, catalog s p' = catalog s (this st2)) as Hcat by (by intros []).
    assert (held p' = held (this st1)) as Hheld.
    { unfold held. destruct (B4 Normal) as (_ & E1 & _), (B4 Alternate) as (_ & E2 & _). cbn [catalog] in E1, E2. rewrite <-E1, <-E2. done. }
    assert (restored_from c l shared v p') as Hfrom.
    { split; [| |split|done|done]; [intros s; destruct (B4 s) as (E1 & _ & _); rewrite Hcat, E1; apply R1|intros s; rewrite Hcat; apply B4| |].
      - by rewrite <-R4, <-B2.
      - by rewrite <-R4', <-B3. }
    assert (plane_ok true p') as Hp'.
    { destruct Hfrom as [F1 F2 [F3 F4] F5 (F6 & F7 & _)]. eapply restored_plane_ok; try done. intros s. rewrite Hcat. destruct (B4 s) as (E1 & E2 & _).
      by rewrite E1, E2, F4, R3. }
    split_and!; [|by rewrite B1|by rewrite Hheld|by exists v]. split; cbn [this budget]; rewrite ?Hheld, ?B1; [done|done| |done].
    intros s k lease x. rewrite Hcat. destruct (B4 s) as (-> & -> & _). apply R6.
  - destruct H1 as [rs [_ _ _ _ R5 _ _ R8 _]]. do 3 wp_step.
    eapply wp_bind_runs; [by apply (release_all_runs (held (this st1)) st1 F)|]. intros [] st2 (_ & Hb2 & S2). unfold wp, fail. cbn [fst snd].
    split; [done|by eapply stable_trans].
Qed.
End restore_all.
