(* ===== verification/ImagesShared.v ===== *)
(** * Terminals that share an image budget

    Calls of the image planes of several terminals, in any order, with
    terminals opened, restored from checkpoints and closed in between. *)

From S2P Require Import Prelude RustStd Update Sixel Images ImagesInv ImagesSteps ImagesOps ImagesCalls ImagesInsert ImagesSixel ImagesCheckpoint ImagesRestore.

#[local] Open Scope Z_scope.

(** A call of the plane of a terminal. *)
Inductive call :=
| InsertContent (s : ActiveScreen) (n : NewImageContent)
| ReplaceContent (s : ActiveScreen) (id : Z) (n : NewImageContent)
| Preflight (s : ActiveScreen) (id : Z) (n : NewImageContent) (pl : NewImagePlacement)
| InsertPlacement (s : ActiveScreen) (pl : NewImagePlacement)
| InsertBoth (s : ActiveScreen) (n : NewImageContent) (row : Z) (o : NewImagePlacementOptions)
| InsertSixel (s : ActiveScreen) (n : NewImageContent) (row_order : list Z) (row : Z) (o : NewImagePlacementOptions)
| RemovePlacement (s : ActiveScreen) (id : Z)
| RemoveContent (s : ActiveScreen) (id : Z)
| ClearScreen (s : ActiveScreen)
| RetainAnchors (s : ActiveScreen) (rows : gset Z)
| RemapAnchors (s : ActiveScreen) (replacements : btree Z)
| RemoveTextOverlaps (s : ActiveScreen) (row_order : list Z) (start_row end_row start_column end_column : Z)
| RemoveOutsideColumns (s : ActiveScreen) (columns : Z)
| ResolveTextOverlaps (s : ActiveScreen) (row_order : list Z).

(** Whether the arguments have the types of the code. *)
Definition typed (c : call) : Prop :=
  match c with
  | InsertContent _ n | ReplaceContent _ _ n => input_ok n
  | InsertPlacement _ pl => new_ok pl
  | InsertBoth _ n _ o | InsertSixel _ n _ _ o => input_ok n ∧ options_ok o
  | _ => True
  end.

Definition resolves (c : call) : bool := match c with ResolveTextOverlaps _ _ => true | _ => false end.

(** The call without its answer. *)
Definition unit_of {A} (m : M Store ImageError A) : M Store ImageError unit := let! _ := m in ret tt.

(** The terminals of a daemon. *)
Record Terminals := { planes : list ImagePlane; shared : SharedImageBudget }.

Inductive event :=
| Open (l : ImageLimits) (budgeted : bool)
| Restore (l : ImageLimits) (budgeted : bool) (c : ImageCheckpointV1) (normal_row_ids alternate_row_ids : gset Z)
| Call (terminal : nat) (c : call)
| Close (terminal : nat).

Section shared.
Context (sha256 : list Z → list Z).

Definition perform (c : call) : M Store ImageError unit :=
  match c with
  | InsertContent s n => unit_of (insert_content sha256 s n)
  | ReplaceContent s id n => unit_of (replace_content sha256 s id n)
  | Preflight s id n pl => preflight_replacement_placement s id n pl
  | InsertPlacement s pl => unit_of (insert_placement s pl)
  | InsertBoth s n row o => unit_of (insert_content_and_placement sha256 s n row o)
  | InsertSixel s n row_order row o => unit_of (insert_sixel_content_and_placement sha256 s n row_order row o)
  | RemovePlacement s id => unit_of (remove_placement s id)
  | RemoveContent s id => remove_content s id
  | ClearScreen s => clear_screen s
  | RetainAnchors s rows => retain_anchors s rows
  | RemapAnchors s replacements => unit_of (remap_anchors s replacements)
  | RemoveTextOverlaps s row_order start_row end_row start_column end_column =>
      unit_of (remove_text_overlaps s row_order start_row end_row start_column end_column)
  | RemoveOutsideColumns s columns => unit_of (remove_text_placements_outside_columns s columns)
  | ResolveTextOverlaps s row_order => unit_of (resolve_text_overlaps s row_order)
  end.

(** One event; [None] is a panic. *)
Definition happen (e : event) (d : Terminals) : option Terminals :=
  match e with
  | Open l budgeted => Some {| planes := planes d ++ [ImagePlane_new l budgeted]; shared := shared d |}
  | Restore l budgeted c rows rows' =>
      match restore_checkpoint sha256 c l budgeted rows rows' {| this := ImagePlane_new l budgeted; budget := shared d |} with
      | (Ok _, st) => Some {| planes := planes d ++ [this st]; shared := budget st |}
      | (Err _, st) => Some {| planes := planes d; shared := budget st |}
      | (Panic, _) => None
      end
  | Call i c =>
      match planes d !! i with
      | None => Some d
      | Some p =>
          match perform c {| this := p; budget := shared d |} with
          | (Panic, _) => None
          | (_, st) => Some {| planes := <[i := this st]> (planes d); shared := budget st |}
          end
      end
  | Close i =>
      match planes d !! i with
      | None => Some d
      | Some p =>
          match drop_plane p {| this := p; budget := shared d |} with
          | (Ok _, st) => Some {| planes := delete i (planes d); shared := budget st |}
          | _ => None
          end
      end
  end.

Fixpoint history (es : list event) (d : Terminals) : option Terminals :=
  match es with
  | [] => Some d
  | e :: es => d' ← happen e d; history es d'
  end.

Definition typed_event (e : event) : Prop :=
  match e with
  | Open l _ => plane_limits_ok l
  | Restore l _ c _ _ => plane_limits_ok l ∧ typed_checkpoint c
  | Call _ c => typed c
  | Close _ => True
  end.

(** ** Every call keeps the plane sound *)

Lemma unit_of_wp {A} (m : M Store ImageError A) Q st :
  wp m (λ r st', r ≠ Panic ∧ Q st') st → wp (unit_of m) (λ r st', r ≠ Panic ∧ Q st') st.
Proof using Type. intros Hm. apply wp_bind. eapply wp_mono; [|exact Hm]. intros [a|e|] st' [Hr HQ]; [by wp_step|done|done]. Qed.

Lemma runs_safe {A} (m : M Store ImageError A) Q st : runs m (λ _ st', Q st') st → wp m (λ r st', r ≠ Panic ∧ Q st') st.
Proof using Type. intros (a & st' & Hrun & HQ). unfold wp. by rewrite Hrun. Qed.

Lemma kept_safe {A} (m : M Store ImageError A) strict F st :
  wp m (λ r st', r ≠ Panic ∧ kept_ok strict F st st') st → wp m (λ r st', r ≠ Panic ∧ sound strict F st st') st.
Proof using Type. apply wp_mono. intros r st' [Hr HK]. split; [done|by apply kept_sound]. Qed.

Lemma perform_spec strict F c st :
  store_ok strict F st → typed c → (strict = true → resolves c = false) →
  wp (perform c) (λ r st', r ≠ Panic ∧ sound strict F st st') st.
Proof using Type.
  intros Hok Ht Hs. assert (kept_ok strict F st st) as Hself by by apply kept_refl.
  destruct c; cbn [perform typed] in *; try apply unit_of_wp.
  - apply kept_safe. eapply wp_mono; [|by apply insert_content_spec]. by intros [id|e|] st'; [intros [? _]|..].
  - by apply replace_content_spec.
  - apply kept_safe. eapply wp_mono; [|by apply (preflight_spec strict F)]. by intros r st' [? ->].
  - apply kept_safe. eapply wp_mono; [|by apply (insert_placement_spec strict F)].
    intros [id|e|] st'; [intros [? _]; split; [done|by apply moved_kept]|by intros ->|done].
  - destruct Ht. apply kept_safe. by apply insert_both_spec.
  - destruct Ht. apply kept_safe. by apply insert_sixel_spec.
  - apply kept_safe. by apply remove_placement_spec.
  - apply kept_safe. by apply remove_content_spec.
  - apply kept_safe, runs_safe. by apply clear_runs.
  - apply kept_safe, runs_safe. by apply retain_anchors_runs.
  - apply kept_safe, runs_safe. by apply remap_runs.
  - apply kept_safe, runs_safe. by apply remove_text_overlaps_runs.
  - apply kept_safe, runs_safe. by apply outside_columns_runs.
  - destruct strict; [by specialize (Hs eq_refl)|]. apply kept_safe, runs_safe. by apply (resolve_runs false).
Qed.

(** ** Several planes *)

(** Every plane is sound, the budget is what they hold, and no lease is held
    twice. *)
Record terminals_ok (strict : bool) (d : Terminals) : Prop := {
  to_plane p : p ∈ planes d → plane_ok strict p;
  to_linked p : p ∈ planes d → linked p (shared d);
  to_budget : budget_ok (shared d) (mjoin (held <$> planes d));
  to_distinct : NoDup (mjoin (held <$> planes d));
}.

(** The leases around one plane. *)
Lemma around (l1 l2 : list ImagePlane) p :
  mjoin (held <$> l1 ++ p :: l2) ≡ₚ held p ++ mjoin (held <$> l1 ++ l2).
Proof using Type.
  rewrite !fmap_app, fmap_cons, !join_app. cbn [mjoin list_join]. by rewrite Permutation_app_swap_app.
Qed.

Lemma terminals_store strict l1 p l2 b :
  terminals_ok strict {| planes := l1 ++ p :: l2; shared := b |} →
  store_ok strict (mjoin (held <$> l1 ++ l2)) {| this := p; budget := b |} ∧
  ∀ l, l ∈ mjoin (held <$> l1 ++ l2) → l ∉ held p.
Proof using Type.
  intros [Hp Hl Hb Hd]. cbn [planes shared] in *. rewrite around in Hd. apply NoDup_app in Hd as (D1 & D2 & _). split; [split; cbn|].
  - apply Hp. set_solver.
  - eapply budget_perm; [apply around|done].
  - apply Hl. set_solver.
  - done.
  - intros l Hl' Hin. by apply (D2 l).
Qed.

(** Other planes while the budget changes. *)
Lemma others_linked ps b b' :
  (∀ p, p ∈ ps → linked p b) → stable (mjoin (held <$> ps)) b b' → ∀ p, p ∈ ps → linked p b'.
Proof using Type.
  intros Hl Hst p Hp. eapply linked_stable; [by apply Hl|exact Hst|]. intros l Hll. apply list_elem_of_join.
  exists (held p). split; [done|]. by apply list_elem_of_fmap_2.
Qed.

(** A plane of several replaced. *)
Lemma terminals_replaced strict l1 p l2 b st' :
  terminals_ok strict {| planes := l1 ++ p :: l2; shared := b |} →
  sound strict (mjoin (held <$> l1 ++ l2)) {| this := p; budget := b |} st' →
  terminals_ok strict {| planes := l1 ++ this st' :: l2; shared := budget st' |}.
Proof using Type.
  intros Hok [[Hp' Hb' Hl' Hd'] Hown Hst]. destruct (terminals_store _ _ _ _ _ Hok) as [Hs Hdis]. specialize (Hst Hdis).
  destruct Hok as [Hp Hl Hb Hd]. cbn [planes shared this budget] in *. split; cbn [planes shared].
  - intros q [Hq|[->|Hq]%elem_of_cons]%elem_of_app; [|done|]; apply Hp; set_solver.
  - assert (∀ q, q ∈ l1 ++ l2 → linked q (budget st')) as Hothers.
    { apply (others_linked _ b); [|done]. intros q Hq. apply Hl. set_solver. }
    intros q [Hq|[->|Hq]%elem_of_cons]%elem_of_app; [|done|]; apply Hothers; set_solver.
  - eapply budget_perm; [symmetry; apply around|done].
  - rewrite around. apply NoDup_app. rewrite around in Hd. apply NoDup_app in Hd as (_ & _ & D3). split_and!; [done| |done].
    intros l [Hin|Hnew]%Hown HF; [by apply (Hdis l HF)|]. cbn [budget] in Hnew.
    destruct (held_lease _ _ l Hb) as [x Hx]; [rewrite around; set_solver|]. apply (bk_lease _ _ Hb) in Hx. lia.
Qed.

Lemma terminals_closed strict l1 p l2 b :
  terminals_ok strict {| planes := l1 ++ p :: l2; shared := b |} →
  runs (drop_plane p) (λ _ st', terminals_ok strict {| planes := l1 ++ l2; shared := budget st' |} ∧
    budget_limit (budget st') = budget_limit b)
    {| this := p; budget := b |}.
Proof using Type.
  intros Hok. destruct Hok as [Hp Hl Hb Hd]. cbn [planes shared] in *.
  unfold drop_plane. eapply runs_mono; [|apply (release_all_runs (held p) _ (mjoin (held <$> l1 ++ l2)))].
  2: { cbn [budget]. eapply budget_perm; [apply around|done]. }
  intros [] st' (_ & Hb' & Hst). cbn [budget] in Hst. split; [|by destruct Hst as [[? _] _]]. split; cbn [planes shared].
  - intros q Hq. apply Hp. set_solver.
  - apply (others_linked _ b); [|done]. intros q Hq. apply Hl. set_solver.
  - done.
  - rewrite around in Hd. by apply NoDup_app in Hd as (_ & _ & ?).
Qed.

Lemma new_plane_ok strict l budgeted : plane_limits_ok l → plane_ok strict (ImagePlane_new l budgeted).
Proof using Type.
  intros Hl. pose proof Hl as [_ T2 T3 T4]. split; cbn; try done; try (by intros []; constructor); try lia.
  - intros []; by destruct budgeted.
  - by constructor.
  - intros _. split; cbn; [lia|by intros []].
Qed.

Lemma terminals_opened strict d l budgeted :
  terminals_ok strict d → plane_limits_ok l →
  terminals_ok strict {| planes := planes d ++ [ImagePlane_new l budgeted]; shared := shared d |}.
Proof using Type.
  intros [Hp Hl Hb Hd] Hlim. assert (mjoin (held <$> planes d ++ [ImagePlane_new l budgeted]) = mjoin (held <$> planes d)) as Hj.
  { by rewrite fmap_app, join_app, app_nil_r. }
  split; cbn [planes shared]; rewrite ?Hj; [| |done|done].
  - intros p [Hin| ->%list_elem_of_singleton]%elem_of_app; [by apply Hp|by apply new_plane_ok].
  - intros p [Hin| ->%list_elem_of_singleton]%elem_of_app; [by apply Hl|]. by intros [].
Qed.

Lemma plane_any strict p : plane_ok true p → plane_ok strict p.
Proof using Type. intros []. split; try done. intros _. auto. Qed.

Lemma restore_terminals strict d l budgeted c rows rows' :
  terminals_ok strict d → plane_limits_ok l → typed_checkpoint c →
  wp (restore_checkpoint sha256 c l budgeted rows rows') (λ r st', budget_limit (budget st') = budget_limit (shared d) ∧ match r with
    | Ok _ => terminals_ok strict {| planes := planes d ++ [this st']; shared := budget st' |}
    | Err _ => terminals_ok strict {| planes := planes d; shared := budget st' |}
    | Panic => False
    end) {| this := ImagePlane_new l budgeted; budget := shared d |}.
Proof using Type.
  intros [Hp Hl Hb Hd] Hlim Hc.
  eapply wp_mono; [|apply (restore_checkpoint_spec sha256 c l budgeted rows rows' (mjoin (held <$> planes d))); [exact Hb|done|done]].
  intros [[]|e|] st' H; cbn [budget] in H; [| |done].
  - destruct H as ([Hp' Hb' Hl' Hd'] & Hst & Hown & _). split; [by destruct Hst as [[? _] _]|].
    assert (mjoin (held <$> planes d ++ [this st']) = mjoin (held <$> planes d) ++ held (this st')) as Hj.
    { rewrite fmap_app, join_app. cbn. by rewrite app_nil_r. }
    split; cbn [planes shared]; rewrite ?Hj.
    + intros p [Hin| ->%list_elem_of_singleton]%elem_of_app; [by apply Hp|by apply plane_any].
    + intros p [Hin| ->%list_elem_of_singleton]%elem_of_app; [by eapply others_linked|done].
    + eapply budget_perm; [|exact Hb']. apply Permutation_app_comm.
    + apply NoDup_app. split_and!; [done| |done]. intros k Hk Hk'%Hown. destruct (held_lease _ _ k Hb Hk) as [x Hx].
      apply (bk_lease _ _ Hb) in Hx. lia.
  - destruct H as (Hb' & Hst). split; [by destruct Hst as [[? _] _]|]. split; cbn [planes shared]; try done. by eapply others_linked.
Qed.

Definition plain_event (e : event) : bool := match e with Call _ c => negb (resolves c) | _ => true end.

Lemma happen_ok strict e d :
  terminals_ok strict d → typed_event e → (strict = true → plain_event e = true) →
  ∃ d', happen e d = Some d' ∧ terminals_ok strict d' ∧ budget_limit (shared d') = budget_limit (shared d).
Proof using Type.
  intros Hok Ht Hs. destruct e as [l budgeted|l budgeted c rows rows'|i c|i]; cbn [happen typed_event plain_event] in *.
  - eexists. split_and!; [done|by apply terminals_opened|done].
  - destruct Ht as [Hl Hc]. pose proof (restore_terminals strict d l budgeted c rows rows' Hok Hl Hc) as Hr. unfold wp in Hr.
    destruct (restore_checkpoint sha256 c l budgeted rows rows' _) as [[[]|e|] st']; cbn [fst snd] in Hr;
      [by eexists; split_and!; [done|apply Hr..]..|by destruct Hr].
  - destruct (planes d !! i) as [p|] eqn:Hi; [|by exists d]. destruct d as [ps b]. cbn [planes shared] in *.
    apply list_elem_of_split_length in Hi as (l1 & l2 & -> & ->). destruct (terminals_store _ _ _ _ _ Hok) as [Hst Hdis].
    pose proof (perform_spec strict _ c _ Hst Ht) as Hperf. unfold wp in Hperf.
    destruct Hperf as [Hr Hsound]. { intros E. specialize (Hs E). by apply negb_true_iff in Hs. }
    destruct (perform c _) as [r st'] eqn:Hrun. cbn [fst snd] in *.
    exists {| planes := l1 ++ this st' :: l2; shared := budget st' |}. split_and!.
    + destruct r; [..|done]; by rewrite insert_app_r_alt, Nat.sub_diag by lia.
    + by eapply terminals_replaced.
    + by destruct (so_stable _ _ _ _ Hsound Hdis) as [[? _] _].
  - destruct (planes d !! i) as [p|] eqn:Hi; [|by exists d]. destruct d as [ps b]. cbn [planes shared] in *.
    apply list_elem_of_split_length in Hi as (l1 & l2 & -> & ->).
    destruct (terminals_closed _ _ _ _ _ Hok) as ([] & st' & Hrun & Hok' & Hlim). rewrite Hrun.
    exists {| planes := l1 ++ l2; shared := budget st' |}. split_and!; [|done|done]. by rewrite delete_middle.
Qed.

Lemma history_ok strict es d :
  terminals_ok strict d → Forall typed_event es → (strict = true → Forall (λ e, plain_event e = true) es) →
  ∃ d', history es d = Some d' ∧ terminals_ok strict d' ∧ budget_limit (shared d') = budget_limit (shared d).
Proof using Type.
  revert d. induction es as [|e es IH]; intros d Hok Ht Hs; [by exists d|]. apply Forall_cons in Ht as [He Ht].
  destruct (happen_ok strict e d Hok He) as (d1 & E1 & Hok1 & L1). { intros E. by apply Forall_cons in Hs as [? _]. }
  destruct (IH d1 Hok1 Ht) as (d2 & E2 & Hok2 & L2). { intros E. by apply Forall_cons in Hs as [_ ?]. }
  exists d2. cbn [history]. rewrite E1. split_and!; [done|done|congruence].
Qed.

Definition no_terminals (limit : Z) : Terminals := {| planes := []; shared := SharedImageBudget_new limit |}.

Lemma no_terminals_ok strict limit : 0 ≤ limit → terminals_ok strict (no_terminals limit).
Proof using Type. intros Hl. split; cbn; [by intros ? []%elem_of_nil..| |constructor]. by split. Qed.

(** ** The budget as the sum over the planes *)

Definition bytes_of (b : SharedImageBudget) (l : Z) : Z := from_option lease_bytes 0 (leases b !! l).

Lemma lease_sum_held b H : budget_ok b H → NoDup H → lease_sum (leases b) = sum_of (bytes_of b) H.
Proof using Type.
  intros Hb Hnd. assert (H ≡ₚ (map_to_list (leases b)).*1) as ->.
  { apply NoDup_Permutation; [done|apply NoDup_fst_map_to_list|]. intros l. split.
    - intros Hl. destruct (held_lease _ _ _ Hb Hl) as [x Hx]. apply list_elem_of_fmap. exists (l, x). split; [done|by apply elem_of_map_to_list].
    - intros ([k x] & -> & Hx%elem_of_map_to_list)%list_elem_of_fmap. simpl. apply list_elem_of_In, (count_occ_In Z.eq_dec).
      rewrite (bk_holders _ _ Hb). unfold holders_of. rewrite Hx. simpl. destruct (bk_lease _ _ Hb _ _ Hx) as (_ & ? & _). lia. }
  unfold lease_sum. rewrite map_fold_foldr. assert (∀ k x, (k, x) ∈ map_to_list (leases b) → bytes_of b k = lease_bytes x) as Hx.
  { intros k x Hx%elem_of_map_to_list. unfold bytes_of. by rewrite Hx. }
  revert Hx. generalize (map_to_list (leases b)) as l. induction l as [|[k x] l IH]; intros Hx; [done|]. simpl.
  rewrite IH by (intros; apply Hx; by right). rewrite (Hx k x) by (by left). done.
Qed.

Lemma sum_of_join {A} (f : A → Z) (ls : list (list A)) : sum_of f (mjoin ls) = sum_of (sum_of f) ls.
Proof using Type. induction ls as [|l ls IH]; [done|]. cbn [mjoin list_join]. rewrite sum_of_app. simpl. f_equal. exact IH. Qed.

(** Maps with the same keys and matching values have the same sum. *)
Lemma sum_of_keys {A B} (f : A → Z) (g : B → Z) (m : btree A) (m' : btree B) :
  m.*1 = m'.*1 → bt_wf m → (∀ k x y, bt_get m k = Some x → bt_get m' k = Some y → f x = g y) →
  sum_of f (bt_values m) = sum_of g (bt_values m').
Proof using Type.
  revert m'. induction m as [|[k x] m IH]; intros [|[k' y] m'] Hk Hwf Hv; [done..|]. rewrite !fmap_cons in Hk.
  injection Hk as Hkk Hk. simpl in Hkk. subst k'. pose proof Hwf as [Hwf' Hlt]%bt_wf_cons. simpl. f_equal.
  - apply (Hv k); simpl; by rewrite Z.eqb_refl.
  - apply IH; [done|done|]. intros j u v Hu Hw. apply (Hv j); simpl; [|].
    + destruct (Z.eqb_spec j k) as [->|]; [|done]. apply bt_get_elem in Hu; [|done]. specialize (Hlt _ _ Hu). lia.
    + destruct (Z.eqb_spec j k) as [->|]; [|done]. apply bt_get_elem in Hu; [|done]. specialize (Hlt _ _ Hu). lia.
Qed.

Lemma screen_leases strict s p b :
  plane_ok strict p → linked p b →
  sum_of (bytes_of b) (bt_values (reservations (catalog s p))) = if shared_budget p then charges (catalog s p) else 0.
Proof using Type.
  intros Hp Hl. pose proof (pk_reserved _ _ Hp s) as Hr. destruct (shared_budget p); [|by apply fmap_nil_inv in Hr as ->].
  apply sum_of_keys; [done|eapply bt_wf_keys; [exact Hr|apply Hp]|]. intros k l x Hk Hx. pose proof (Hl _ _ _ _ Hk Hx) as Hb.
  unfold bytes_of. destruct (leases b !! l); [by injection Hb|done].
Qed.

Lemma plane_leases strict p b :
  plane_ok strict p → linked p b → sum_of (bytes_of b) (held p) = if shared_budget p then content_bytes (metrics p) else 0.
Proof using Type.
  intros Hp Hl. unfold held. rewrite sum_of_app. pose proof (screen_leases _ Normal _ _ Hp Hl) as H1.
  pose proof (screen_leases _ Alternate _ _ Hp Hl) as H2. cbn [catalog] in H1, H2. rewrite H1, H2, (pk_bytes _ _ Hp).
  unfold total. by destruct (shared_budget p).
Qed.

Lemma budget_total strict d :
  terminals_ok strict d →
  budget_bytes (shared d) = sum_of (λ p, if shared_budget p then content_bytes (metrics p) else 0) (planes d).
Proof using Type.
  intros [Hp Hl Hb Hd]. rewrite (bk_bytes _ _ Hb), (lease_sum_held _ _ Hb Hd), sum_of_join.
  clear Hb Hd. induction (planes d) as [|p ps IH]; [done|]. rewrite fmap_cons. simpl.
  rewrite (plane_leases strict) by (apply Hp || apply Hl; by left). f_equal. apply IH; intros q Hq; [apply Hp|apply Hl]; by right.
Qed.
End shared.
