(* ===== verification/ImagesProps.v ===== *)
(** * Properties of the image plane *)

From S2P Require Import Prelude RustStd Update Sixel Images ImagesInv ImagesSteps ImagesOps ImagesCalls ImagesInsert ImagesSixel ImagesShared.

#[local] Open Scope Z_scope.

(** ** Splitting a placement *)














(** ** The accounts of the planes *)

Definition all_contents (p : ImagePlane) : list ImageContent :=
  bt_values (contents (normal p)) ++ bt_values (contents (alternate p)).

Definition all_placements (p : ImagePlane) : list ImagePlacement :=
  bt_values (placements (normal p)) ++ bt_values (placements (alternate p)).

(** The metrics count what is there; the bytes and the contents, not the
    placements, are within the limits. *)
Record accounted (p : ImagePlane) : Prop := {
  ac_bytes : content_bytes (metrics p) = sum_of (λ x, Z.of_nat (length (content_pixels x))) (all_contents p);
  ac_contents : content_count (metrics p) = Z.of_nat (length (all_contents p));
  ac_placements : placement_count (metrics p) = Z.of_nat (length (all_placements p));
  ac_bytes_limit : content_bytes (metrics p) ≤ bytes_per_terminal (plane_limits p);
  ac_contents_limit : content_count (metrics p) ≤ contents_per_terminal (plane_limits p);
}.

Lemma sum_of_ext {A} (f g : A → Z) l : (∀ x, x ∈ l → f x = g x) → sum_of f l = sum_of g l.
Proof.
  induction l as [|x l IH]; intros Hfg; [done|]. simpl. rewrite IH by (intros y Hy; apply Hfg; by right).
  by rewrite Hfg by by left.
Qed.

Lemma plane_accounted strict p : plane_ok strict p → accounted p.
Proof.
  intros Hp. split.
  - unfold all_contents. rewrite sum_of_app, (pk_bytes _ _ Hp). unfold total, charges. f_equal; apply sum_of_ext.
    + intros x [k Hk]%bt_value_get; [|apply (pk_contents _ _ Hp Normal)]. symmetry. by apply (pk_content _ _ Hp Normal _ _ Hk).
    + intros x [k Hk]%bt_value_get; [|apply (pk_contents _ _ Hp Alternate)]. symmetry. by apply (pk_content _ _ Hp Alternate _ _ Hk).
  - rewrite (pk_count _ _ Hp). unfold all_contents, total, stored, bt_values. rewrite length_app, !length_fmap. lia.
  - rewrite (pk_placed _ _ Hp). unfold all_placements, total, placed, bt_values. rewrite length_app, !length_fmap. lia.
  - apply (pk_bytes_limit _ _ Hp).
  - apply (pk_count_limit _ _ Hp).
Qed.

(** C6. However terminals are opened and closed and whatever their image planes
    are asked, no call panics, the metrics of every plane count exactly the
    bytes, contents and placements it has, the bytes and the contents are within
    the limits of the plane, and the shared budget holds exactly the bytes of the planes that use it: nothing is
    leaked, nothing is given back twice, and the limit of the daemon holds. *)
Theorem image_budget_exact sha256 limit es :
  0 ≤ limit → Forall typed_event es →
  ∃ d, history sha256 es (no_terminals limit) = Some d ∧ Forall accounted (planes d) ∧
    budget_bytes (shared d) = sum_of (λ p, if shared_budget p then content_bytes (metrics p) else 0) (planes d) ∧
    budget_bytes (shared d) ≤ limit.
Proof.
  intros Hl Ht. destruct (history_ok sha256 false es (no_terminals limit)) as (d & Hd & Hok & Hlim); [by apply no_terminals_ok|done|done|].
  exists d. split_and!; [done| |by apply (budget_total false)|].
  - apply Forall_forall. intros p Hp. by eapply plane_accounted, (to_plane _ _ Hok).
  - pose proof (bk_limit _ _ (to_budget _ _ Hok)) as H. by rewrite Hlim in H.
Qed.

(** What a placement shows exists: its content is stored on its screen and its
    crop is inside the content. *)
Definition shown (p : ImagePlane) (s : ActiveScreen) (pl : ImagePlacement) : Prop :=
  ∃ x, bt_get (contents (catalog s p)) (content_id pl) = Some x ∧
    crop_inside (source pl) (content_width (metadata x)) (content_height (metadata x)) ∧
    Z.of_nat (length (content_pixels x)) = 4 * (content_width (metadata x) * content_height (metadata x)).

(** C10. As long as overlaps are not resolved, every placement of every plane
    has its content, with all the pixels its crop reaches, and no plane has
    more placements than its limit. *)
Theorem placements_shown sha256 limit es :
  0 ≤ limit → Forall typed_event es → Forall (λ e, plain_event e = true) es →
  ∃ d, history sha256 es (no_terminals limit) = Some d ∧
    ∀ p, p ∈ planes d → Z.of_nat (length (all_placements p)) ≤ placements_per_terminal (plane_limits p) ∧
      ∀ s k pl, bt_get (placements (catalog s p)) k = Some pl → shown p s pl.
Proof.
  intros Hl Ht Hs. destruct (history_ok sha256 true es (no_terminals limit)) as (d & Hd & Hok & _); [by apply no_terminals_ok|done|done|].
  exists d. split; [done|]. intros p Hp%(to_plane _ _ Hok). destruct (pk_strict _ _ Hp eq_refl) as [S1 S2]. split.
  - by rewrite <-(ac_placements _ (plane_accounted _ _ Hp)).
  - intros s k pl Hk. destruct (S2 _ _ _ Hk) as [x Hx]. exists x. destruct (pk_content _ _ Hp _ _ _ Hx).
    split_and!; [done|by apply (pk_placement _ _ Hp _ _ _ Hk)|congruence].
Qed.

(** ** Replacing an image and placing it *)

Lemma take_all_counts s ids st st' :
  for_each ids (take_placement s) st = (Ok tt, st') →
  placement_count (metrics (this st')) = placement_count (metrics (this st)) - Z.of_nat (length ids) ∧
  plane_limits (this st') = plane_limits (this st) ∧ next_placement_id (this st') = next_placement_id (this st) ∧
  next_creation_order (this st') = next_creation_order (this st).
Proof.
  revert st. induction ids as [|id ids IH]; intros st Hrun; cbn [for_each] in Hrun.
  { injection Hrun as <-. simpl. split_and!; [lia|done..]. }
  unfold bind at 1 in Hrun. destruct (take_placement s id st) as [[[]|e|] st1] eqn:Ht; [|done|done].
  destruct (IH _ Hrun) as (C1 & C2 & C3 & C4). rewrite C1, C2, C3, C4. cbn [length].
  unfold take_placement, on_catalog, on_plane, plane_get, sub_usize in Ht. destruct s; cbn in Ht;
    destruct (1 <=? placement_count (metrics (this st))); cbn in Ht; try done; injection Ht as <-; cbn; split_and!; try done; lia.
Qed.

Section preflight.
Context (sha256 : list Z → list Z).

Lemma replace_run s id n st st1 a old v g p1 :
  let p := this st in
  validate_content (plane_limits p) n = Ok a → bt_get (contents (catalog s p)) id = Some old →
  replaced_bytes (byte_charge (metadata old)) a p = Some v → within u64_max (next_generation p + 1) = Some g →
  match bt_get (reservations (catalog s p)) id with Some l => resize_lease l a | None => ret tt end st = (Ok tt, st1) →
  this st1 = p →
  for_each (placements_of id (catalog s p)) (take_placement s) {| this := rebyte v g p; budget := budget st1 |} =
    (Ok tt, {| this := rebyte v g p1; budget := budget st1 |}) →
  replace_content sha256 s id n st = (Ok id, {|
    this := update_catalog s (λ c, set_contents (bt_insert (contents c) id (new_content sha256 id (next_generation p) a n)) c) (rebyte v g p1);
    budget := budget st1 |}).
Proof using Type.
  cbv zeta. intros Hv Hold Hb Hg Hr E Hrun. unfold replace_content, plane_get, on_plane, on_catalog. cbn. rewrite Hv. cbn. rewrite Hold. cbn.
  rewrite Hb. cbn. rewrite Hg. cbn. unfold bind at 1. rewrite Hr. cbn. rewrite E. unfold bind at 1.
  fold (rebyte v g (this st)). rewrite Hrun. done.
Qed.

Lemma insert_placement_run s pl st x :
  let p := this st in
  validate_placement (new_row_id pl) (new_destination pl) = Ok tt →
  bt_get (contents (catalog s p)) (new_content_id pl) = Some x →
  validate_crop (new_source pl) (content_width (metadata x)) (content_height (metadata x)) = Ok tt →
  validate_source_cell_size (new_source_cell_size pl) = Ok tt →
  placement_count (metrics p) < placements_per_terminal (plane_limits p) ≤ usize_max →
  1 ≤ next_placement_id p → next_placement_id p + 1 ≤ u64_max → next_creation_order p + 1 ≤ u64_max →
  ∃ pid st', insert_placement s pl st = (Ok pid, st').
Proof using Type.
  cbv zeta. intros Hp Hx Hc Hz Hn Hid H1 H2.
  unfold insert_placement, plane_get, on_plane, on_catalog, update_high_water, add_usize, identity, within.
  cbn. rewrite Hp. cbn. rewrite Hx. cbn. rewrite Hc. cbn. rewrite Hz. cbn.
  rewrite (proj2 (Z.leb_gt _ _)) by lia. cbn. rewrite (proj2 (Z.eqb_neq _ _)) by lia. cbn.
  rewrite (proj2 (Z.leb_le _ _) H1). cbn. rewrite (proj2 (Z.leb_le _ _) H2). cbn.
  rewrite (proj2 (Z.leb_le (placement_count (metrics (this st)) + 1) usize_max)) by lia. cbn. by do 2 eexists.
Qed.

(** What the preflight checked. *)
Record preflighted (s : ActiveScreen) (id : Z) (n : NewImageContent) (pl : NewImagePlacement) (st : Store) (a : Z) (old : ImageContent) (v : Z) : Prop := {
  pf_content : validate_content (plane_limits (this st)) n = Ok a;
  pf_old : bt_get (contents (catalog s (this st))) id = Some old;
  pf_bytes : replaced_bytes (byte_charge (metadata old)) a (this st) = Some v;
  pf_anchor : validate_placement (new_row_id pl) (new_destination pl) = Ok tt;
  pf_crop : validate_crop (new_source pl) (new_width n) (new_height n) = Ok tt;
  pf_cell : validate_source_cell_size (new_source_cell_size pl) = Ok tt;
  pf_count : placement_count (metrics (this st)) - Z.of_nat (length (placements_of id (catalog s (this st)))) + 1 ≤
    placements_per_terminal (plane_limits (this st));
  pf_next : next_generation (this st) + 1 ≤ u64_max ∧ next_placement_id (this st) + 1 ≤ u64_max ∧
    next_creation_order (this st) + 1 ≤ u64_max;
  pf_lease l x : bt_get (reservations (catalog s (this st))) id = Some l → leases (budget st) !! l = Some x →
    lease_bytes x < a → ∃ next, admitted (a - lease_bytes x) (budget st) = Some next;
}.

Lemma within_is_Some m x y : within m x = Some y ↔ y = x ∧ x ≤ m.
Proof using Type. unfold within. destruct (Z.leb_spec x m); naive_solver lia. Qed.

Lemma preflight_Ok s id n pl st st' :
  preflight_replacement_placement s id n pl st = (Ok tt, st') → ∃ a old v, preflighted s id n pl st a old v.
Proof using Type.
  intros H. assert (wp (preflight_replacement_placement s id n pl) (λ r _, r = Ok tt → ∃ a old v, preflighted s id n pl st a old v) st) as Hwp.
  2: { unfold wp in Hwp. rewrite H in Hwp. by apply Hwp. }
  clear H. unfold preflight_replacement_placement. wp_step. cbv zeta.
  wp_step; [|done|done]. wp_step; [|done]. wp_step; [|done]. wp_step; [|done|done]. wp_step; [|done|done]. wp_step; [|done|done].
  wp_step; [|done]. wp_step; [|done]. wp_step; [|done].
  apply Z.ltb_ge in H6. rename H5 into Hcount, H7 into Hnext.
  destruct (Z.leb_spec (Z.of_nat (length (placements_of id (catalog s (this st))))) (placement_count (metrics (this st)))) as [Hle|]; [|done].
  cbn in Hcount. apply within_is_Some in Hcount as [-> _].
  destruct (within u64_max (next_generation (this st) + 1)) as [g|] eqn:E1; [|done]. cbn in Hnext.
  destruct (within u64_max (next_placement_id (this st) + 1)) as [np|] eqn:E2; [|done]. cbn in Hnext.
  apply within_is_Some in E1 as [_ E1], E2 as [_ E2], Hnext as [_ E3]. destruct a2, a3, a4.
  assert ((∀ l x, bt_get (reservations (catalog s (this st))) id = Some l → leases (budget st) !! l = Some x → lease_bytes x < a →
    ∃ next, admitted (a - lease_bytes x) (budget st) = Some next) → ∃ a old v, preflighted s id n pl st a old v) as Hmake.
  { intros Hl. by exists a, a0, a1. }
  destruct (bt_get (reservations (catalog s (this st))) id) as [l|]; [|wp_step; intros _; by apply Hmake].
  destruct (leases (budget st) !! l) as [x|] eqn:Hx; [|by wp_step].
  wp_step; [|done]. injection H5 as <-. destruct (Z.ltb_spec (lease_bytes x) a) as [Hlt|Hge].
  - wp_step; [|done]. wp_step. intros _. apply Hmake. intros ? y [= <-] Hy _. rewrite Hx in Hy. injection Hy as <-.
    destruct (shared_budget (this st)); [by eexists|done].
  - wp_step. intros _. apply Hmake. intros ? y [= <-] Hy ?. rewrite Hx in Hy. injection Hy as <-. lia.
Qed.

Lemma resize_admitted l bytes x st H :
  budget_ok (budget st) H → l ∈ H → 0 ≤ bytes → leases (budget st) !! l = Some x →
  (lease_bytes x < bytes → ∃ next, admitted (bytes - lease_bytes x) (budget st) = Some next) →
  ∃ st', resize_lease l bytes st = (Ok tt, st') ∧ this st' = this st.
Proof using Type.
  intros Hb Hl Hbytes Hx Ha. pose proof (resize_spec l bytes st H Hb Hl Hbytes) as Hr. unfold wp in Hr.
  destruct (resize_lease l bytes st) as [[[]|e|] st'] eqn:E; cbn [fst snd] in Hr; [|exfalso|by destruct Hr].
  - exists st'. split; [done|apply Hr].
  - revert E. unfold resize_lease. cbn. rewrite Hx. cbn. destruct (Z.ltb_spec (lease_bytes x) bytes) as [Hlt|].
    + destruct (Ha Hlt) as [next ->]. done.
    + destruct (bytes <? lease_bytes x); [|done]. unfold assert_. by destruct (_ <=? budget_bytes (budget st)).
Qed.

Lemma preflight_runs strict F s id n pl st st0 :
  store_ok strict F st → input_ok n → new_content_id pl = id →
  preflight_replacement_placement s id n pl st = (Ok tt, st0) →
  ∃ pid st', (do! replace_content sha256 s id n in insert_placement s pl) st = (Ok pid, st').
Proof using Type.
  intros Hok Hi Hid Hpre. destruct (preflight_Ok _ _ _ _ _ _ Hpre) as (a & old & v & [P1 P2 P3 P4 P5 P6 P7 (P8 & P9 & P10) P11]).
  destruct (content_Ok _ _ _ Hi P1) as (_ & _ & _ & _ & _ & Hlen). pose proof (so_plane _ _ _ Hok) as Hp.
  assert (∃ st1, match bt_get (reservations (catalog s (this st))) id with Some l => resize_lease l a | None => ret tt end st = (Ok tt, st1) ∧
    this st1 = this st) as (st1 & Hres & E1).
  { destruct (bt_get (reservations (catalog s (this st))) id) as [l|] eqn:El; [|by eexists].
    assert (l ∈ held (this st) ++ F) as Hin.
    { apply elem_of_app. left. unfold held. apply elem_of_app. destruct s; [left|right]; by eapply bt_get_value. }
    destruct (held_lease _ _ l (so_budget _ _ _ Hok) Hin) as [x Hx].
    eapply resize_admitted; [apply (so_budget _ _ _ Hok)|done|lia|exact Hx|]. intros Hlt. by eapply P11. }
  destruct (listed_ids strict s (λ pl, content_id pl =? id) _ Hp) as (N1 & N2 & _). fold (placements_of id (catalog s (this st))) in N1, N2.
  destruct st as [p b]. cbn [this budget] in *. set (g := next_generation p + 1).
  destruct (take_all_rebyte strict F s _ v g p b (budget st1) Hok N1 N2) as (p1 & Ht & Hrun).
  destruct (take_all_counts _ _ _ _ Hrun) as (C1 & C2 & C3 & C4). cbn [this] in *.
  assert (replace_content sha256 s id n {| this := p; budget := b |} = (Ok id, {|
    this := update_catalog s (λ c, set_contents (bt_insert (contents c) id (new_content sha256 id (next_generation p) a n)) c) (rebyte v g p1);
    budget := budget st1 |})) as Hrep.
  { eapply (replace_run s id n {| this := p; budget := b |}); try done. by apply within_is_Some. }
  unfold bind. rewrite Hrep. set (st2 := {| this := _; budget := _ |}).
  destruct (update_fields s (λ c, set_contents (bt_insert (contents c) id (new_content sha256 id (next_generation p) a n)) c) (rebyte v g p1)) as (D1 & D2 & D3 & D4 & D5 & D6 & D7).
  pose proof (pl_placements _ (pk_limits _ _ Hp)) as Hmax. pose proof (pk_next _ _ Hp) as [_ Hnp].
  apply (insert_placement_run s pl st2 (new_content sha256 id (next_generation p) a n)); cbn [this st2]; try done.
  - rewrite catalog_same. cbn. rewrite Hid, bt_get_insert; [by rewrite Z.eqb_refl|].
    apply (pk_contents _ _ (so_plane _ _ _ (mv_ok _ _ _ _ (tk_moved _ _ _ _ _ _ Ht))) s).
  - unfold st2. cbn [this]. rewrite D3, D1, C1, C2. unfold rebyte. cbn. lia.
  - unfold st2. cbn [this]. rewrite D5, C3. unfold rebyte. cbn. lia.
  - unfold st2. cbn [this]. rewrite D5, C3. unfold rebyte. cbn. lia.
  - unfold st2. cbn [this]. rewrite D7, C4. unfold rebyte. cbn. lia.
Qed.
End preflight.

(** Replacing an image and placing it is atomic: on the plane of any
    terminal, if [preflight_replacement_placement] admits the pair, then
    [replace_content] followed by [insert_placement] succeeds. *)
Theorem preflight_admits sha256 limit es d i p s id n pl st0 :
  0 ≤ limit → Forall typed_event es → history sha256 es (no_terminals limit) = Some d → planes d !! i = Some p →
  input_ok n → new_content_id pl = id →
  preflight_replacement_placement s id n pl {| this := p; budget := shared d |} = (Ok tt, st0) →
  ∃ pid st', (do! replace_content sha256 s id n in insert_placement s pl) {| this := p; budget := shared d |} = (Ok pid, st').
Proof.
  intros Hl Ht Hd Hi Hn Hid Hpre.
  destruct (history_ok sha256 false es (no_terminals limit)) as (d' & Hd' & Hok & _); [by apply no_terminals_ok|done|done|].
  rewrite Hd in Hd'. injection Hd' as <-. destruct d as [ps b]. cbn [planes shared] in *.
  apply list_elem_of_split_length in Hi as (l1 & l2 & -> & ->). destruct (terminals_store _ _ _ _ _ Hok) as [Hst _].
  by eapply preflight_runs.
Qed.

(** ** Fixtures *)

Definition pixels_of (count : nat) : list Z := mjoin (replicate count [0; 0; 0; 255]).

Definition picture (w h : Z) (r : ImageRetention) : NewImageContent := {|
  new_width := w; new_height := h; new_source_format := SixelFormat; new_alpha_mode := Opaque;
  new_pixels := pixels_of (Z.to_nat (w * h)); new_retention := r |}.

(** A picture of one pixel per cell at a column. *)
Definition at_column (column w h : Z) : NewImagePlacementOptions := {|
  option_column := column; option_source := {| rect_x := 0; rect_y := 0; rect_width := w; rect_height := h |};
  option_destination := {| extent_columns := w; extent_rows := h |};
  option_source_cell_size := Some {| size_width := 1; size_height := 1 |}; option_x_offset := 0; option_y_offset := 0;
  option_z_index := 0; option_application_image_id := None; option_application_placement_id := None;
  option_erase_policy := TextOverwrite |}.

Definition small_limits : ImageLimits := {|
  bytes_per_content := 64; bytes_per_terminal := 128; contents_per_terminal := 4; placements_per_terminal := 2;
  maximum_dimension := 8; maximum_pixels := 16 |}.

(** A picture of three columns and a smaller one on the next row, whose rows
    are joined by a resize. *)
Definition joined_rows : list event := [
  Open small_limits true;
  Call 0 (InsertSixel Normal (picture 3 1 WhilePlaced) [1; 2] 1 (at_column 0 3 1));
  Call 0 (InsertSixel Normal (picture 1 1 WhilePlaced) [1; 2] 2 (at_column 1 1 1));
  Call 0 (RemapAnchors Normal [(2, 1)])].

(** A second terminal, whose picture is replaced. *)
Definition two_terminals : list event := joined_rows ++ [
  Open ImageLimits_default true;
  Call 1 (InsertBoth Alternate (picture 2 2 RetentionExplicitDelete) 7 (at_column 0 2 2));
  Call 1 (ReplaceContent Alternate 1 (picture 3 1 RetentionExplicitDelete))].

Lemma small_limits_ok : plane_limits_ok small_limits.
Proof. by split. Qed.

Lemma default_limits_ok : plane_limits_ok ImageLimits_default.
Proof. by split. Qed.

Lemma at_column_ok column w h : 0 ≤ column → 0 ≤ w → 0 ≤ h → options_ok (at_column column w h).
Proof. intros Hc Hw Hh id row. split; cbn; try lia. intros z [= <-]. cbn. lia. Qed.

Lemma two_terminals_typed : Forall typed_event two_terminals.
Proof.
  unfold two_terminals, joined_rows. rewrite !Forall_app, !Forall_cons. cbn [typed_event typed].
  split_and!; try done; try apply at_column_ok; first [apply small_limits_ok|apply default_limits_ok|lia|done].
Qed.

(** With the leases of both terminals: 16 bytes of the first, 12 of the second. *)
Lemma image_budget_exact_witness :
  Forall typed_event two_terminals ∧
  (λ d, budget_bytes (shared d)) <$> history (λ _, []) two_terminals (no_terminals 100) = Some 28 ∧
  ∃ d, history (λ _, []) two_terminals (no_terminals 100) = Some d ∧ Forall accounted (planes d) ∧
    budget_bytes (shared d) = sum_of (λ p, if shared_budget p then content_bytes (metrics p) else 0) (planes d) ∧
    budget_bytes (shared d) ≤ 100.
Proof.
  split; [apply two_terminals_typed|]. split; [by vm_compute|]. apply (image_budget_exact (λ _, []) 100 two_terminals); [lia|apply two_terminals_typed].
Defined.

Lemma placements_shown_witness :
  ∃ d, history (λ _, []) two_terminals (no_terminals 100) = Some d ∧
    ∀ p, p ∈ planes d → Z.of_nat (length (all_placements p)) ≤ placements_per_terminal (plane_limits p) ∧
      ∀ s k pl, bt_get (placements (catalog s p)) k = Some pl → shown p s pl.
Proof.
  apply (placements_shown (λ _, []) 100 two_terminals); [lia|apply two_terminals_typed|]. by repeat constructor.
Defined.

(** Resolving the overlap of the two pictures reclaims the content of the newer
    one while its placement is put aside: the placement comes back without its
    content, and past the limit of placements. *)
Theorem resolve_loses_content :
  ∃ d p pl, history (λ _, []) (joined_rows ++ [Call 0 (ResolveTextOverlaps Normal [1; 2])]) (no_terminals 100) = Some d ∧
    planes d = [p] ∧ bt_get (placements (normal p)) 2 = Some pl ∧ bt_get (contents (normal p)) (content_id pl) = None ∧
    placements_per_terminal (plane_limits p) < Z.of_nat (length (all_placements p)).
Proof.
  destruct (history _ _ _) as [d|] eqn:E; [|by vm_compute in E]. vm_compute in E. injection E as <-.
  eexists _, _, _. split_and!; [done|done|by vm_compute|by vm_compute|by vm_compute].
Qed.

(** The picture of the second terminal placed again. *)
Definition again : NewImagePlacement := bind_options (at_column 0 3 1) 1 9.

Lemma preflight_admits_witness :
  ∃ d p, history (λ _, []) two_terminals (no_terminals 100) = Some d ∧ planes d !! 1%nat = Some p ∧
    ∃ pid st', (do! replace_content (λ _, []) Alternate 1 (picture 4 1 RetentionExplicitDelete) in insert_placement Alternate again)
      {| this := p; budget := shared d |} = (Ok pid, st').
Proof.
  destruct (history (λ _, []) two_terminals (no_terminals 100)) as [d|] eqn:Hd; [|by vm_compute in Hd].
  destruct (planes d !! 1%nat) as [p|] eqn:Hp; [|vm_compute in Hd; injection Hd as <-; by vm_compute in Hp].
  exists d, p. split; [reflexivity|]. split; [exact Hp|].
  destruct (preflight_replacement_placement Alternate 1 (picture 4 1 RetentionExplicitDelete) again {| this := p; budget := shared d |}) as [r st0] eqn:Hr.
  assert (r = Ok tt) as ->.
  { vm_compute in Hd. injection Hd as <-. vm_compute in Hp. injection Hp as <-. vm_compute in Hr. by injection Hr. }
  apply (preflight_admits (λ _, []) 100 two_terminals d 1 p Alternate 1 _ again st0);
    [lia|apply two_terminals_typed|exact Hd|exact Hp|by split|reflexivity|exact Hr].
Defined.


