(* ===== verification/ImagesCheckpointProps.v ===== *)
(** * Checkpoints of image planes round trip *)

From S2P Require Import Prelude RustStd Update Sixel Images ImagesInv ImagesSteps ImagesOps ImagesCalls ImagesInsert ImagesSixel ImagesCheckpoint ImagesRestore ImagesShared ImagesProps.

#[local] Open Scope Z_scope.

(** ** There is room for what is restored *)

Lemma restore_content_admitted r st :
  0 ≤ byte_charge (record_metadata r) →
  budget_bytes (budget st) + byte_charge (record_metadata r) ≤ budget_limit (budget st) → budget_limit (budget st) ≤ usize_max →
  runs (restore_content r) (λ _ st', budget_limit (budget st') = budget_limit (budget st) ∧
    budget_bytes (budget st') ≤ budget_bytes (budget st) + byte_charge (record_metadata r)) st.
Proof.
  intros Hc Hroom Hmax. unfold restore_content, plane_get. apply runs_bind, runs_bind, runs_get, runs_ret.
  destruct (shared_budget (this st)).
  - assert (admitted (byte_charge (record_metadata r)) (budget st) = Some (budget_bytes (budget st) + byte_charge (record_metadata r))) as Ha.
    { apply admitted_Some. lia. }
    unfold runs, reserve, on_catalog, on_plane, budget_set, bind, get, ok_or, modify, ret. cbn -[admitted]. rewrite Ha. do 2 eexists. split; [reflexivity|]. cbn. lia.
  - unfold runs, on_catalog, on_plane, bind, modify, ret. cbn. do 2 eexists. split; [reflexivity|]. cbn. lia.
Qed.

Lemma restore_contents_admitted rs st :
  Forall (λ r, 0 ≤ byte_charge (record_metadata r)) rs →
  budget_bytes (budget st) + sum_of (λ r, byte_charge (record_metadata r)) rs ≤ budget_limit (budget st) →
  budget_limit (budget st) ≤ usize_max →
  ∃ st', for_each rs restore_content st = (Ok tt, st').
Proof.
  revert st. induction rs as [|r rs IH]; intros st Hrs Hroom Hmax; cbn [for_each]; [by exists st|].
  apply Forall_cons in Hrs as [Hr Hrs]. simpl in Hroom.
  assert (0 ≤ sum_of (λ r, byte_charge (record_metadata r)) rs) as Hnn.
  { apply sum_of_nonneg. by apply Forall_forall. }
  destruct (restore_content_admitted r st Hr) as ([] & st1 & Hrun & L1 & B1); [lia|done|].
  unfold bind. rewrite Hrun. apply IH; [done|lia|lia].
Qed.

(** ** What is captured *)

(** The plane but for its leases and high-water marks. *)
Record same_images (p p' : ImagePlane) : Prop := {
  si_contents s : contents (catalog s p') = contents (catalog s p);
  si_placements s : placements (catalog s p') = placements (catalog s p);
  si_limits : plane_limits p' = plane_limits p;
  si_bytes : content_bytes (metrics p') = content_bytes (metrics p);
  si_count : content_count (metrics p') = content_count (metrics p);
  si_placed : placement_count (metrics p') = placement_count (metrics p);
  si_next : next_content_id p' = next_content_id p ∧ next_placement_id p' = next_placement_id p ∧
    next_generation p' = next_generation p ∧ next_creation_order p' = next_creation_order p;
}.

(** Records that are all of one screen. *)
Lemma entries_all {R V} (scr : R → ActiveScreen) (key : R → Z) (val : R → V) s s' rs :
  (∀ r, r ∈ rs → scr r = s') →
  entries scr key val s rs = if decide (s = s') then (λ r, (key r, val r)) <$> rs else [].
Proof.
  intros Hr. unfold entries. induction rs as [|r rs IH]; simpl; [by case_decide|].
  rewrite (Hr r) by by left. specialize (IH (λ q Hq, Hr q (list_elem_of_further _ _ _ Hq))). case_decide as Hs.
  - subst s'. rewrite bool_decide_eq_true_2, !fmap_cons by done. by f_equal.
  - by rewrite bool_decide_eq_false_2 by congruence.
Qed.

Lemma entries_app {R V} (scr : R → ActiveScreen) (key : R → Z) (val : R → V) s rs rs' :
  entries scr key val s (rs ++ rs') = entries scr key val s rs ++ entries scr key val s rs'.
Proof. unfold entries. by rewrite List.filter_app, fmap_app. Qed.

(** A map whose values know their keys. *)
Lemma keyed_map {V} (m : btree V) (key : V → Z) : bt_wf m → (∀ k v, bt_get m k = Some v → key v = k) → (λ v, (key v, v)) <$> bt_values m = m.
Proof.
  intros Hwf Hk. unfold bt_values. rewrite <-list_fmap_compose. rewrite <-(list_fmap_id m) at 2. apply list_fmap_ext.
  intros i [k v] Hi. simpl. f_equal. apply Hk, bt_get_elem; [done|]. by apply list_elem_of_lookup_2 in Hi.
Qed.

Lemma captured_contents strict p s :
  plane_ok strict p → content_entries s (content_records Normal p ++ content_records Alternate p) = contents (catalog s p).
Proof.
  intros Hp. assert (∀ s', (λ r, (record_id r, record_content r)) <$> content_records s' p = contents (catalog s' p)) as Hrec.
  { intros s'. unfold content_records. rewrite <-list_fmap_compose. etrans; [|apply (keyed_map _ (λ x, metadata_id (metadata x)) (pk_contents _ _ Hp s'))].
    - apply list_fmap_ext. intros i [m px] _. done.
    - intros k x Hx. by apply (pk_content _ _ Hp s'). }
  rewrite entries_app, (entries_all _ _ _ s Normal), (entries_all _ _ _ s Alternate).
  - destruct s; cbn; rewrite ?app_nil_r; apply Hrec.
  - by intros r (x & -> & _)%list_elem_of_fmap.
  - by intros r (x & -> & _)%list_elem_of_fmap.
Qed.

Lemma captured_placements strict p s :
  plane_ok strict p → placement_entries s (bt_values (placements (normal p)) ++ bt_values (placements (alternate p))) = placements (catalog s p).
Proof.
  intros Hp. assert (∀ s', (λ pl, (placement_id pl, pl)) <$> bt_values (placements (catalog s' p)) = placements (catalog s' p)) as Hrec.
  { intros s'. apply (keyed_map _ _ (pk_placements _ _ Hp s')). intros k pl Hk. by apply (pk_placement _ _ Hp s'). }
  assert (∀ s' pl, pl ∈ bt_values (placements (catalog s' p)) → placement_screen pl = s') as Hscr.
  { intros s' pl [k Hk]%bt_value_get; [|apply (pk_placements _ _ Hp s')]. by apply (pk_placement _ _ Hp) in Hk as []. }
  rewrite entries_app, (entries_all _ _ _ s Normal), (entries_all _ _ _ s Alternate); [|apply (Hscr Alternate)|apply (Hscr Normal)].
  destruct s; cbn; rewrite ?app_nil_r; [apply (Hrec Normal)|apply (Hrec Alternate)].
Qed.

Lemma restore_placements_Ok pls st : ∃ st', for_each pls restore_placement st = (Ok tt, st').
Proof. revert st. induction pls as [|pl pls IH]; intros st; cbn [for_each]; [by exists st|]. unfold bind. cbn. apply IH. Qed.

Section round_trip.
Context (sha256 : list Z → list Z).

Lemma restore_run c l shared rows rows' v st st1 :
  validate_checkpoint sha256 c l rows rows' = Ok v →
  for_each (saved_contents c) restore_content {| this := ImagePlane_new l shared; budget := budget st |} = (Ok tt, st1) →
  ∃ st', restore_checkpoint sha256 c l shared rows rows' st = (Ok tt, st').
Proof using Type.
  intros Hv Hrun. destruct (restore_placements_Ok (saved_placements c) st1) as [st2 H2].
  unfold restore_checkpoint, plane_set, on_plane, bind at 1, lift. rewrite Hv. unfold bind at 1, modify at 1, attempt, bind at 1. rewrite Hrun.
  unfold bind at 1. rewrite H2. by eexists.
Qed.

Lemma capture_Ok rows rows' p c :
  capture_checkpoint sha256 rows rows' p = Ok c →
  c = {| saved_contents := content_records Normal p ++ content_records Alternate p;
         saved_placements := bt_values (placements (normal p)) ++ bt_values (placements (alternate p));
         saved_next_content_id := next_content_id p; saved_next_placement_id := next_placement_id p;
         saved_next_generation := next_generation p; saved_next_creation_order := next_creation_order p |} ∧
  ∃ v, validate_checkpoint sha256 c (plane_limits p) rows rows' = Ok v ∧ validated_bytes v = content_bytes (metrics p) ∧
    validated_contents v = content_count (metrics p) ∧ validated_placements v = placement_count (metrics p).
Proof using Type.
  unfold capture_checkpoint. cbv zeta. destruct (validate_checkpoint sha256 _ _ _ _) as [v| |] eqn:Hv; cbn [obind]; [|done|done].
  destruct (_ || _) eqn:Hm; [done|]. rewrite !orb_false_iff, !negb_false_iff, !Z.eqb_eq in Hm. destruct Hm as ((M1 & M2) & M3).
  intros [= <-]. split; [done|]. by exists v.
Qed.

Lemma captured_typed strict rows rows' p c : plane_ok strict p → capture_checkpoint sha256 rows rows' p = Ok c → typed_checkpoint c.
Proof using Type.
  intros Hp [-> _]%capture_Ok. split; cbn [saved_contents saved_placements saved_next_content_id saved_next_placement_id].
  - assert (∀ s r, r ∈ content_records s p → 0 ≤ record_id r ∧ 0 ≤ content_width (record_metadata r) ∧ 0 ≤ content_height (record_metadata r)) as Hs.
    { intros s r (x & -> & [k Hk]%bt_value_get)%list_elem_of_fmap; [|apply (pk_contents _ _ Hp s)].
      destruct (pk_content _ _ Hp _ _ _ Hk) as [C1 C2 C3 C4 _ _ _]. unfold record_id. cbn. lia. }
    intros r [Hr|Hr]%elem_of_app; by eapply Hs.
  - assert (∀ s pl, pl ∈ bt_values (placements (catalog s p)) → ∃ k, placement_ok s (catalog s p) (next_content_id p) (next_placement_id p) k pl) as Hs.
    { intros s pl [k Hk]%bt_value_get; [|apply (pk_placements _ _ Hp s)]. exists k. by apply (pk_placement _ _ Hp). }
    intros pl [Hpl|Hpl]%elem_of_app; [destruct (Hs Normal _ Hpl) as [k Hk]|destruct (Hs Alternate _ Hpl) as [k Hk]];
      destruct Hk as [P1 P2 P3 P4 (A1 & A2 & A3 & A4) P6 P7 [D1 D2] P9];
      (split_and!; [lia..|]); intros z Hz; destruct (P9 z Hz); lia.
  - pose proof (pk_next _ _ Hp). lia.
Qed.

Lemma captured_bytes rows rows' strict p c :
  plane_ok strict p → capture_checkpoint sha256 rows rows' p = Ok c →
  Forall (λ r, 0 ≤ byte_charge (record_metadata r)) (saved_contents c) ∧
  sum_of (λ r, byte_charge (record_metadata r)) (saved_contents c) = content_bytes (metrics p).
Proof using Type.
  intros Hp Hcap. pose proof (captured_typed _ _ _ _ _ Hp Hcap) as Hc. destruct (capture_Ok _ _ _ _ Hcap) as (_ & v & Hv & Hbytes & _).
  destruct (cv_contents _ _ _ (validate_checkpoint_Ok _ _ _ _ _ _ Hc Hv)) as (a & [_ _ _ _ Hcontent Hsum _] & _ & Ha & _). split.
  - apply Forall_forall. intros r Hr. destruct (Hcontent r Hr) as [_ _ W H E _ _]. unfold charge in E. cbn in W, H, E. nia.
  - rewrite <-Hbytes, Ha, Hsum. done.
Qed.

(** C18. A checkpoint captured from the image plane of any terminal can be
    restored by any daemon with room for its bytes in its shared budget, and
    the restored plane has the same contents, placements, accounts and
    counters. *)
Theorem image_checkpoint_round_trip limit es d i p rows rows' c limit' es' d' budgeted :
  0 ≤ limit → Forall typed_event es → history sha256 es (no_terminals limit) = Some d → planes d !! i = Some p →
  capture_checkpoint sha256 rows rows' p = Ok c →
  0 ≤ limit' ≤ usize_max → Forall typed_event es' → history sha256 es' (no_terminals limit') = Some d' →
  budget_bytes (shared d') + content_bytes (metrics p) ≤ limit' →
  ∃ p' b', happen sha256 (Restore (plane_limits p) budgeted c rows rows') d' = Some {| planes := planes d' ++ [p']; shared := b' |} ∧
    same_images p p'.
Proof using Type.
  intros Hl Ht Hd Hi Hcap Hl' Ht' Hd' Hroom.
  destruct (history_ok sha256 false es (no_terminals limit)) as (d1 & E1 & Hok & _); [by apply no_terminals_ok|done|done|].
  rewrite Hd in E1. injection E1 as <-. pose proof (to_plane _ _ Hok p (list_elem_of_lookup_2 _ _ _ Hi)) as Hp.
  destruct (history_ok sha256 false es' (no_terminals limit')) as (d1 & E1 & Hok' & Hlim); [apply no_terminals_ok; lia|done|done|].
  rewrite Hd' in E1. injection E1 as <-. cbn in Hlim. pose proof (captured_typed _ _ _ _ _ Hp Hcap) as Hc.
  destruct (captured_bytes _ _ _ _ _ Hp Hcap) as [Hnn Hsum]. destruct (capture_Ok _ _ _ _ Hcap) as (Ec & v & Hv & V1 & V2 & V3).
  set (st := {| this := ImagePlane_new (plane_limits p) budgeted; budget := shared d' |}).
  destruct (restore_contents_admitted (saved_contents c) st Hnn) as [st1 Hrun]; [cbn; lia|cbn; lia|].
  destruct (restore_run c (plane_limits p) budgeted rows rows' v st st1 Hv Hrun) as [st' Hres].
  pose proof (restore_checkpoint_spec sha256 c (plane_limits p) budgeted rows rows' _ st (to_budget _ _ Hok') (pk_limits _ _ Hp) Hc) as Hspec.
  unfold wp in Hspec. rewrite Hres in Hspec. cbn [fst snd] in Hspec. destruct Hspec as (_ & _ & _ & v' & Hv' & [R1 R2 [R3 _] R4 R5]).
  rewrite Hv in Hv'. injection Hv' as <-. exists (this st'), (budget st'). split; [cbn [happen]; fold st; by rewrite Hres|].
  split; rewrite ?R4; cbn; try done.
  - intros s. rewrite R1, Ec. by eapply captured_contents.
  - intros s. rewrite R2, Ec. by eapply captured_placements.
  - rewrite Ec in R5. exact R5.
Qed.
End round_trip.

(** The second terminal of the fixture is captured, and restored by a daemon
    that has the first one. *)
Lemma image_checkpoint_round_trip_witness :
  ∃ d p c p' b', history (λ _, []) (two_terminals ++ [Call 1 (InsertPlacement Alternate again)]) (no_terminals 100) = Some d ∧
    planes d !! 1%nat = Some p ∧ capture_checkpoint (λ _, []) ∅ {[9]} p = Ok c ∧
    happen (λ _, []) (Restore (plane_limits p) true c ∅ {[9]}) (no_terminals 20) = Some {| planes := [p']; shared := b' |} ∧ same_images p p'.
Proof.
  destruct (history (λ _, []) (two_terminals ++ [Call 1 (InsertPlacement Alternate again)]) (no_terminals 100)) as [d|] eqn:Hd; [|by vm_compute in Hd].
  destruct (planes d !! 1%nat) as [p|] eqn:Hp; [|vm_compute in Hd; injection Hd as <-; by vm_compute in Hp].
  destruct (capture_checkpoint (λ _, []) ∅ {[9]} p) as [c| |] eqn:Hc;
    [|vm_compute in Hd; injection Hd as <-; vm_compute in Hp; injection Hp as <-; by vm_compute in Hc..].
  assert (content_bytes (metrics p) = 12) as Hb.
  { vm_compute in Hd. injection Hd as <-. vm_compute in Hp. by injection Hp as <-. }
  exists d, p, c. assert (Forall typed_event (two_terminals ++ [Call 1 (InsertPlacement Alternate again)])) as Ht.
  { apply Forall_app. split; [apply two_terminals_typed|]. apply Forall_singleton. cbn. apply at_column_ok; lia. }
  destruct (image_checkpoint_round_trip (λ _, []) 100 _ d 1 p ∅ {[9]} c 20 [] (no_terminals 20) true ltac:(lia) Ht Hd Hp Hc ltac:(split; [lia|done])
    ltac:(constructor) eq_refl ltac:(rewrite Hb; cbn; lia)) as (p' & b' & H1 & H2).
  exists p', b'. exact (conj eq_refl (conj Hp (conj Hc (conj H1 H2)))).
Defined.

(** After the resolved overlap of [resolve_loses_content] the plane cannot be
    captured, whatever rows there are. *)
Theorem resolved_not_captured :
  ∃ d p, history (λ _, []) (joined_rows ++ [Call 0 (ResolveTextOverlaps Normal [1; 2])]) (no_terminals 100) = Some d ∧
    planes d = [p] ∧ ∀ rows rows', capture_checkpoint (λ _, []) rows rows' p = Err ContentCount.
Proof.
  destruct (history _ _ _) as [d|] eqn:E; [|by vm_compute in E]. vm_compute in E. injection E as <-.
  eexists _, _. split_and!; [done|done|]. intros rows rows'. reflexivity.
Qed.
