(* ===== verification/Paths.v ===== *)
(** * Paths and installed prefixes ([splinterd/src/install_prefix.rs])

    What the code uses of [std::path] on Unix beyond [RustStd], and the form of
    an installed prefix: the directory that holds the daemon, its client and
    their helpers. A path is a valid prefix exactly when it spells a nonempty list
    of plain names, each after one slash. *)

From Stdlib Require Import String.
From S2P Require Import Prelude RustStd.

(** ** [std::path] *)

(** [Component::as_os_str]. *)
Definition component_str (c : Component) : PathBuf :=
  match c with
  | RootDir => [47]
  | CurDir => [46]
  | ParentDir => [46; 46]
  | Normal name => name
  end.

(** [PathBuf::push]: an absolute path replaces the buffer; otherwise a
    separator is added where the buffer lacks one. *)
Definition path_push (buffer p : PathBuf) : PathBuf :=
  if is_absolute p then p
  else match last buffer with
       | Some c => if c =? 47 then buffer ++ p else buffer ++ 47 :: p
       | None => p
       end.

(** [Path::join]. *)
Definition path_join (p q : PathBuf) : PathBuf := path_push p q.

(** [components().collect::<PathBuf>()]. *)
Definition path_collect (cs : list Component) : PathBuf :=
  foldl path_push [] (component_str <$> cs).

(** [Path::file_name]: the last component, when it is a plain name. *)
Definition file_name (p : PathBuf) : option PathBuf :=
  match last (components p) with Some (Normal name) => Some name | _ => None end.

(** Pieces between separators that name no component at the end of a path. *)
Definition silent_piece (piece : list Z) : bool := bool_decide (piece = []) || bool_decide (piece = [46]).

Fixpoint drop_silent (pieces : list (list Z)) : list (list Z) :=
  match pieces with
  | piece :: pieces => if silent_piece piece then drop_silent pieces else piece :: pieces
  | [] => []
  end.

Fixpoint join_pieces (pieces : list (list Z)) : PathBuf :=
  match pieces with
  | [] => []
  | [piece] => piece
  | piece :: pieces => piece ++ 47 :: join_pieces pieces
  end.

(** [Path::parent] of an absolute path: the text before its last component,
    without the separators and dots that end it. *)
Definition parent (p : PathBuf) : option PathBuf :=
  match reverse (split_on 47 (tail p)) with
  | pieces =>
      match drop_silent pieces with
      | [] => None
      | _ :: pieces => Some (47 :: join_pieces (reverse (drop_silent pieces)))
      end
  end.

(** ** Installed prefixes *)

Definition DAEMON_EXECUTABLE : PathBuf := str_bytes (lit "splinterd").
Definition CLIENT_EXECUTABLE : PathBuf := str_bytes (lit "splinterm").
Definition GRAPHICAL_RELAY_EXECUTABLE : PathBuf := str_bytes (lit "splinterm-relay").
Definition HELPER_EXECUTABLE : PathBuf := str_bytes (lit "splinterm-pty-child").
Definition PATH_MAX : Z := 4096.
Definition MAX_INSTALL_PREFIX_BYTES : Z := PATH_MAX - 1 - 1 - Z.of_nat (length HELPER_EXECUTABLE).

Inductive InstallPrefixError := InvalidPath.

(** [matches!(component, Component::RootDir | Component::Normal(_))]. *)
Definition plain_component (c : Component) : bool :=
  match c with RootDir | Normal _ => true | CurDir | ParentDir => false end.

(** The [canonical_form] of the code: no component but the root and names, and
    the components spell the path back. *)
Definition canonical_form (p : PathBuf) : bool :=
  forallb plain_component (components p) && bool_decide (path_collect (components p) = p).

Definition validate_install_prefix_path (p : PathBuf) : outcome InstallPrefixError unit :=
  if bool_decide (p = []) || (MAX_INSTALL_PREFIX_BYTES <? Z.of_nat (length p)) || bool_decide (0 ∈ p)
     || negb (is_absolute p) || negb (canonical_form p) || bool_decide (parent p = None)
  then Err InvalidPath else Ok tt.

(** ** Splitting at separators *)

Lemma split_on_app sep w l : sep ∉ w → split_on sep (w ++ sep :: l) = w :: split_on sep l.
Proof.
  intros Hw. induction w as [|c w IH]; simpl; [by rewrite Z.eqb_refl|].
  apply not_elem_of_cons in Hw as [Hc Hw]. rewrite (proj2 (Z.eqb_neq c sep)) by done. by rewrite IH.
Qed.

Lemma split_on_word sep w : sep ∉ w → split_on sep w = [w].
Proof.
  intros Hw. induction w as [|c w IH]; simpl; [done|].
  apply not_elem_of_cons in Hw as [Hc Hw]. rewrite (proj2 (Z.eqb_neq c sep)) by done. by rewrite IH.
Qed.

Lemma split_on_clean sep l : Forall (λ w, sep ∉ w) (split_on sep l).
Proof.
  induction l as [|c l IH]; simpl; [by constructor; [apply not_elem_of_nil|]|].
  destruct (Z.eqb_spec c sep); [by constructor; [apply not_elem_of_nil|]|].
  destruct IH as [|w ws Hw Hws]; constructor; [set_solver|done|set_solver|done].
Qed.

(** ** Spelled paths *)

(** A file name: not empty, a dot or two dots, and without a slash. *)
Record name_ok (n : list Z) : Prop := {
  nm_nonempty : n ≠ [];
  nm_dot : n ≠ [46];
  nm_dots : n ≠ [46; 46];
  nm_slash : 47 ∉ n;
}.

(** Each name after one slash. *)
Definition spell (names : list (list Z)) : PathBuf := names ≫= cons 47.

Lemma path_piece_name leads n : name_ok n → path_piece leads n = [Normal n].
Proof. intros [? ? ? _]. unfold path_piece. by rewrite !bool_decide_eq_false_2. Qed.

Lemma path_piece_plain n c :
  47 ∉ n → c ∈ path_piece false n → plain_component c = true → c = Normal n ∧ name_ok n.
Proof.
  unfold path_piece. intros Hs. repeat case_bool_decide; rewrite ?elem_of_nil, ?list_elem_of_singleton; try done; by intros ->.
Qed.

Lemma split_spelled names : names ≠ [] → Forall name_ok names → split_on 47 (tail (spell names)) = names.
Proof.
  intros Hne Hok. destruct names as [|n names]; [done|]. simpl. clear Hne.
  apply Forall_cons in Hok as [[_ _ _ Hn] Hok].
  revert n Hn. induction Hok as [|n' names [_ _ _ Hn'] Hok IH]; intros n Hn; simpl.
  - rewrite app_nil_r. by apply split_on_word.
  - rewrite split_on_app by done. f_equal. by apply IH.
Qed.

Lemma spell_absolute names : names ≠ [] → is_absolute (spell names) = true ∧ spell names = 47 :: tail (spell names).
Proof. by destruct names. Qed.

Lemma components_rooted rest : components (47 :: rest) = RootDir :: (split_on 47 rest ≫= path_piece false).
Proof. unfold components. simpl. done. Qed.

Lemma components_spell names :
  names ≠ [] → Forall name_ok names → components (spell names) = RootDir :: (Normal <$> names).
Proof.
  intros Hne Hok. rewrite (proj2 (spell_absolute names Hne)), components_rooted, split_spelled by done. f_equal.
  clear Hne. induction Hok as [|n names Hn Hok IH]; [done|]. rewrite bind_cons, fmap_cons, IH, path_piece_name by done. done.
Qed.

Lemma spell_last names n : spell (names ++ [n]) = spell names ++ 47 :: n.
Proof. unfold spell. rewrite bind_app. simpl. by rewrite app_nil_r. Qed.

Lemma spell_ends names n : name_ok n → ∃ c, last (spell (names ++ [n])) = Some c ∧ c ≠ 47.
Proof.
  intros [Hne _ _ Hs]. destruct n as [|c n] using rev_ind; [done|]. clear IHn.
  exists c. rewrite spell_last, app_comm_cons, app_assoc, last_snoc. split; [done|]. set_solver.
Qed.

Lemma name_relative n : name_ok n → is_absolute n = false.
Proof. intros [Hne _ _ Hs]. destruct n as [|c n]; [done|]. simpl. apply Z.eqb_neq. set_solver. Qed.

(** Pushing a name onto a spelled path spells it too. *)
Lemma push_name names n : names ≠ [] → Forall name_ok names → name_ok n → path_push (spell names) n = spell (names ++ [n]).
Proof.
  intros Hne Hok Hn. unfold path_push. rewrite name_relative by done.
  destruct (exists_last Hne) as (names' & n' & ->). apply Forall_app in Hok as [_ Hok].
  rewrite Forall_singleton in Hok.
  destruct (spell_ends names' n' Hok) as (c & -> & Hc).
  rewrite (proj2 (Z.eqb_neq c 47)) by done. by rewrite (spell_last (names' ++ [n'])).
Qed.

Lemma collect_names names :
  names ≠ [] → Forall name_ok names → path_collect (RootDir :: (Normal <$> names)) = spell names.
Proof.
  intros Hne Hok. unfold path_collect. rewrite fmap_cons. simpl.
  assert ((component_str <$> (Normal <$> names)) = names) as -> by (rewrite <-list_fmap_compose; apply list_fmap_id).
  destruct names as [|n names]; [done|]. clear Hne. apply Forall_cons in Hok as [Hn Hok]. simpl.
  change (path_push [] [47]) with [47].
  assert (path_push [47] n = spell [n]) as -> by (unfold path_push, spell; rewrite name_relative by done; simpl; by rewrite app_nil_r).
  change (47 :: n ++ spell names) with (spell ([n] ++ names)).
  assert (Forall name_ok [n] ∧ [n] ≠ []) as [Hpre Hpre'] by (by split; [constructor|]).
  revert Hpre Hpre'. generalize [n]. induction Hok as [|n' names Hn' Hok IH]; intros pre Hpre Hpre'; simpl; [by rewrite app_nil_r|].
  rewrite push_name by done. rewrite (cons_middle n' pre names), app_assoc. apply IH; [|by destruct pre].
  apply Forall_app. by rewrite Forall_singleton.
Qed.

(** ** Prefixes *)

Record prefix_ok (p : PathBuf) : Prop := {
  pre_names : ∃ names, names ≠ [] ∧ Forall name_ok names ∧ p = spell names;
  pre_bounded : Z.of_nat (length p) ≤ MAX_INSTALL_PREFIX_BYTES;
  pre_nul : 0 ∉ p;
}.

Lemma canonical_names rest :
  canonical_form (47 :: rest) = true → parent (47 :: rest) ≠ None →
  ∃ names, names ≠ [] ∧ Forall name_ok names ∧ 47 :: rest = spell names.
Proof.
  unfold canonical_form. rewrite components_rooted. simpl. intros [Hall Hcol%bool_decide_eq_true]%andb_true_iff Hpar.
  pose proof (split_on_clean 47 rest) as Hclean. revert Hclean Hall Hcol Hpar. unfold parent. simpl.
  generalize (split_on 47 rest). intros pieces Hclean Hall Hcol Hpar.
  assert (∃ names, Forall name_ok names ∧ (pieces ≫= path_piece false) = Normal <$> names ∧
    (names = [] → Forall (λ w, silent_piece w = true) pieces)) as (names & Hok & Hp & Hsil).
  { clear Hpar Hcol. induction Hclean as [|w pieces Hw Hclean IH]; [by exists []; split_and!|]. simpl in Hall.
    rewrite forallb_app, andb_true_iff in Hall. destruct Hall as [Hw' Hall]. destruct (IH Hall) as (names & Hok & Hp & Hsil).
    destruct (path_piece false w) as [|c [|c' cs]] eqn:Hpw.
    - exists names. rewrite bind_cons, Hpw. split_and!; [done..|]. intros Hn. constructor; [|by apply Hsil].
      revert Hpw. unfold path_piece, silent_piece. repeat case_bool_decide; done.
    - destruct (path_piece_plain w c) as [-> Hname]; [done|rewrite Hpw; set_solver|by apply andb_true_iff in Hw' as [? _]|].
      exists (w :: names). rewrite bind_cons, Hpw, Hp. split_and!; [by constructor|done..].
    - revert Hpw. unfold path_piece. by repeat case_bool_decide. }
  exists names. rewrite Hp in Hcol. assert (names ≠ []) as Hne.
  { intros ->. apply Hpar. specialize (Hsil eq_refl). clear -Hsil.
    assert (Forall (λ w, silent_piece w = true) (reverse pieces)) as H by by rewrite reverse_Permutation.
    assert (drop_silent (reverse pieces) = []) as -> by (induction H as [|w l Hw _ IH]; simpl; [done|by rewrite Hw]). done. }
  split_and!; [done..|]. by rewrite <-(collect_names names).
Qed.

Lemma parent_spell names n : Forall name_ok (names ++ [n]) → parent (spell (names ++ [n])) ≠ None.
Proof.
  intros Hok. unfold parent. rewrite split_spelled by (done || by destruct names).
  rewrite reverse_app. simpl. apply Forall_app in Hok as [_ [[? ? _ _] _]%Forall_cons].
  unfold silent_piece. by rewrite !bool_decide_eq_false_2.
Qed.

Lemma validate_prefix_ok p : validate_install_prefix_path p = Ok tt ↔ prefix_ok p.
Proof.
  unfold validate_install_prefix_path. split.
  - destruct (_ || _) eqn:H; [done|]. intros _. rewrite !orb_false_iff, !negb_false_iff in H.
    destruct H as [[[[[_ Hlen] Hnul] Habs] Hcan] Hpar].
    apply Z.ltb_ge in Hlen. apply bool_decide_eq_false in Hnul, Hpar.
    destruct p as [|c rest]; [done|]. simpl in Habs. apply Z.eqb_eq in Habs as ->. split; [|done..].
    by apply canonical_names.
  - intros [(names & Hne & Hok & ->) Hlen Hnul]. destruct (exists_last Hne) as (names' & n & ->).
    destruct (spell_absolute _ Hne) as [Habs Hcons].
    assert (canonical_form (spell (names' ++ [n])) = true) as Hcan.
    { unfold canonical_form. rewrite components_spell, collect_names by done. rewrite bool_decide_eq_true_2 by done.
      rewrite andb_true_r. simpl. clear. induction (names' ++ [n]); [done|by simpl]. }
    rewrite Habs, Hcan, (bool_decide_eq_false_2 (parent _ = None)) by by apply parent_spell.
    rewrite (bool_decide_eq_false_2 (0 ∈ _)) by done. rewrite (proj2 (Z.ltb_ge _ _)) by done.
    by rewrite bool_decide_eq_false_2 by (rewrite Hcons; done).
Qed.

Lemma helper_ok : name_ok HELPER_EXECUTABLE.
Proof. split; [done..|]. vm_compute. set_solver. Qed.

(** The check of an installed prefix accepts exactly the spelled paths that
    are short enough and have no NUL; then the longest executable's path in it,
    and the NUL that ends it, fit the kernel's limit. *)
Theorem prefix_decides p :
  (validate_install_prefix_path p = Ok tt ↔ prefix_ok p) ∧
  (validate_install_prefix_path p = Ok tt → Z.of_nat (length (path_join p HELPER_EXECUTABLE)) + 1 ≤ PATH_MAX).
Proof.
  split; [apply validate_prefix_ok|]. intros [(names & Hne & Hok & ->) Hlen _]%validate_prefix_ok.
  unfold path_join. rewrite (push_name _ _ Hne Hok helper_ok), spell_last, length_app. cbn [length].
  unfold MAX_INSTALL_PREFIX_BYTES in Hlen. revert Hlen. generalize (length HELPER_EXECUTABLE). lia.
Qed.

(** Prefixes are equal as paths only when they are spelled alike. *)
Lemma prefix_path_eq p q : prefix_ok p → prefix_ok q → path_eq p q = true ↔ p = q.
Proof.
  intros [(names & Hne & Hok & ->) _ _] [(names' & Hne' & Hok' & ->) _ _]. unfold path_eq.
  rewrite bool_decide_eq_true, !components_spell by done. split.
  - intros [= H]. f_equal. revert H. apply inj, list_fmap_eq_inj. by intros ? ? [=].
  - intros Heq. rewrite <-(split_spelled names), Heq, split_spelled by done. done.
Qed.
