(* ===== verification/Handoff.v ===== *)
(** * Negotiating a daemon hand-off
    ([splinterd/src/executable_snapshot.rs], [handoff_compatibility.rs],
    [handoff_coordinator.rs])

    A running daemon replaces itself by the installed build: it seals copies of
    the installed (forward) and of its own (rollback) daemon and client, asks
    both pairs what they support, and agrees on one version in each of four
    dimensions. [HandoffLifecycle] is the state machine of either side of the
    [exec], and the process guard the flag that keeps descriptor-table work to
    one thread. *)

From Stdlib Require Import String.
From S2P Require Import Prelude RustStd Paths.

(** ** Sealed executables *)

Record ExecutableSourcePair := { source_daemon : PathBuf; source_client : PathBuf }.

Definition MAX_EXECUTABLE_PATH_BYTES : Z := 4096.
Definition MAX_EXECUTABLE_SNAPSHOT_BYTES : Z := 256 * 1024 * 1024.
Definition PACKAGED_OWNER_UID : Z := 0.

(** The seals of [rustix::fs::SealFlags], as Linux numbers them. *)
Definition SEAL_SEAL : Z := 1.
Definition SEAL_SHRINK : Z := 2.
Definition SEAL_GROW : Z := 4.
Definition SEAL_WRITE : Z := 8.
Definition REQUIRED_EXECUTABLE_SEALS : Z :=
  Z.lor (Z.lor (Z.lor SEAL_WRITE SEAL_GROW) SEAL_SHRINK) SEAL_SEAL.

Inductive ExecutableSnapshotError := InvalidExecutablePath | InvalidPair.

Definition validate_executable_path (p : PathBuf) : outcome ExecutableSnapshotError unit :=
  if bool_decide (p = []) || (MAX_EXECUTABLE_PATH_BYTES <? Z.of_nat (length p)) || negb (is_absolute p)
     || existsb (λ component, negb (plain_component component)) (components p)
  then Err InvalidExecutablePath else Ok tt.

(** Two parents are compared as paths. *)
Definition same_parent (p q : PathBuf) : bool :=
  match parent p, parent q with
  | Some a, Some b => path_eq a b
  | None, None => true
  | _, _ => false
  end.

Definition validate_pair_paths (pair : ExecutableSourcePair) : outcome ExecutableSnapshotError unit :=
  let? _ := validate_executable_path (source_daemon pair) in
  let? _ := validate_executable_path (source_client pair) in
  if bool_decide (file_name (source_daemon pair) ≠ Some (lit "splinterd"))
     || bool_decide (file_name (source_client pair) ≠ Some (lit "splinterm"))
     || negb (same_parent (source_daemon pair) (source_client pair))
  then Err InvalidPair else Ok tt.

Definition ExecutableSourcePair_new (daemon client : PathBuf)
    : outcome ExecutableSnapshotError ExecutableSourcePair :=
  let pair := {| source_daemon := daemon; source_client := client |} in
  let? _ := validate_pair_paths pair in
  Ok pair.

Record ExecutableSourceIdentity := {
  src_path : PathBuf;
  src_device : Z;
  src_inode : Z;
  src_owner_uid : Z;
  src_mode : Z;
  src_size : Z;
  src_sha256 : list Z;
}.

Record ExecutableSnapshotIdentity := {
  snap_device : Z;
  snap_inode : Z;
  snap_size : Z;
  snap_sha256 : list Z;
  snap_seals : Z;
}.

#[global] Instance ExecutableSnapshotIdentity_eq_dec : EqDecision ExecutableSnapshotIdentity.
Proof. solve_decision. Defined.

(** The descriptor that owns the sealed copy is its number. *)
Record SealedExecutableSnapshot := {
  sealed_source : ExecutableSourceIdentity;
  sealed_snapshot : ExecutableSnapshotIdentity;
  sealed_descriptor : Z;
}.

Record SealedExecutablePair := {
  pair_daemon : SealedExecutableSnapshot;
  pair_client : SealedExecutableSnapshot;
}.

Record HandoffExecutableSnapshots := {
  snapshots_forward : SealedExecutablePair;
  snapshots_rollback : SealedExecutablePair;
}.

(** [install_prefix.rs]: both sources are the executables inside [directory]. *)
Definition names_pair_in (directory : PathBuf) (pair : SealedExecutablePair) : bool :=
  path_eq (src_path (sealed_source (pair_daemon pair))) (path_join directory DAEMON_EXECUTABLE)
  && path_eq (src_path (sealed_source (pair_client pair))) (path_join directory CLIENT_EXECUTABLE).

(** ** Versions, builds and capabilities *)

Inductive CompatibilityDimension :=
| PrivateProtocol
| HandoffProtocol
| TerminalCheckpoint
| DescriptorManifest.

Inductive CompatibilityError :=
| InvalidRange
| InvalidBuildIdentity
| ForwardSnapshotMismatch
| RollbackSnapshotMismatch
| RollbackGenerationMismatch
| Incompatible (dimension : CompatibilityDimension).

Record VersionRange := { range_minimum : Z; range_maximum : Z }.

#[global] Instance VersionRange_eq_dec : EqDecision VersionRange.
Proof. solve_decision. Defined.

Definition VersionRange_new (minimum maximum : Z) : outcome CompatibilityError VersionRange :=
  if (minimum =? 0) || (maximum =? 0) || (maximum <? minimum) then Err InvalidRange
  else Ok {| range_minimum := minimum; range_maximum := maximum |}.

(** The 32 bytes of a [BuildIdentity]. *)
Abbreviation BuildIdentity := (list Z) (only parsing).

Definition BuildIdentity_new (bytes : list Z) : outcome CompatibilityError BuildIdentity :=
  if bool_decide (bytes = replicate 32 0) then Err InvalidBuildIdentity else Ok bytes.

Record BuildVersion := { version_major : Z; version_minor : Z; version_patch : Z }.

#[global] Instance BuildVersion_eq_dec : EqDecision BuildVersion.
Proof. solve_decision. Defined.

Record HandoffCapabilities := {
  cap_private_protocol : VersionRange;
  cap_handoff_protocol : VersionRange;
  cap_terminal_checkpoint : VersionRange;
  cap_descriptor_manifest : VersionRange;
}.

#[global] Instance HandoffCapabilities_eq_dec : EqDecision HandoffCapabilities.
Proof. solve_decision. Defined.

Record RunningHandoffGeneration := {
  running_build_identity : BuildIdentity;
  running_build_version : BuildVersion;
  running_capabilities : HandoffCapabilities;
}.

Record ExecutablePairBinding := {
  bound_daemon : ExecutableSnapshotIdentity;
  bound_client : ExecutableSnapshotIdentity;
}.

#[global] Instance ExecutablePairBinding_eq_dec : EqDecision ExecutablePairBinding.
Proof. solve_decision. Defined.

Definition from_snapshots (pair : SealedExecutablePair) : ExecutablePairBinding :=
  {| bound_daemon := sealed_snapshot (pair_daemon pair);
     bound_client := sealed_snapshot (pair_client pair) |}.

Record ExecutablePairPreflight := {
  pair_build_identity : BuildIdentity;
  pair_build_version : BuildVersion;
  pair_capabilities : HandoffCapabilities;
  pair_snapshots : ExecutablePairBinding;
}.

Record NegotiatedHandoff := {
  forward_build_identity : BuildIdentity;
  forward_build_version : BuildVersion;
  rollback_build_identity : BuildIdentity;
  rollback_build_version : BuildVersion;
  agreed_private_protocol : Z;
  agreed_handoff_protocol : Z;
  agreed_terminal_checkpoint : Z;
  agreed_descriptor_manifest : Z;
}.

(** ** Negotiation *)

Definition highest_common (running forward rollback : VersionRange) : option Z :=
  let minimum := Z.max (Z.max (range_minimum running) (range_minimum forward)) (range_minimum rollback) in
  let maximum := Z.min (Z.min (range_maximum running) (range_maximum forward)) (range_maximum rollback) in
  if minimum <=? maximum then Some maximum else None.

(** [highest_common(..).ok_or(Incompatible(dimension))?] of one dimension. *)
Definition agree (dimension : CompatibilityDimension) (range : HandoffCapabilities → VersionRange)
    (running forward rollback : HandoffCapabilities) : outcome CompatibilityError Z :=
  match highest_common (range running) (range forward) (range rollback) with
  | Some version => Ok version
  | None => Err (Incompatible dimension)
  end.

Definition negotiate_handoff (running : RunningHandoffGeneration)
    (forward rollback : ExecutablePairPreflight) (snapshots : HandoffExecutableSnapshots)
    : outcome CompatibilityError NegotiatedHandoff :=
  let expected_forward := from_snapshots (snapshots_forward snapshots) in
  if bool_decide (pair_snapshots forward ≠ expected_forward) then Err ForwardSnapshotMismatch else
  let expected_rollback := from_snapshots (snapshots_rollback snapshots) in
  if bool_decide (pair_snapshots rollback ≠ expected_rollback) then Err RollbackSnapshotMismatch else
  if bool_decide (pair_build_identity rollback ≠ running_build_identity running)
     || bool_decide (pair_build_version rollback ≠ running_build_version running)
  then Err RollbackGenerationMismatch else
  let agree dimension range := agree dimension range
    (running_capabilities running) (pair_capabilities forward) (pair_capabilities rollback) in
  let? private_protocol := agree PrivateProtocol cap_private_protocol in
  let? handoff_protocol := agree HandoffProtocol cap_handoff_protocol in
  let? terminal_checkpoint := agree TerminalCheckpoint cap_terminal_checkpoint in
  let? descriptor_manifest := agree DescriptorManifest cap_descriptor_manifest in
  Ok {| forward_build_identity := pair_build_identity forward;
        forward_build_version := pair_build_version forward;
        rollback_build_identity := pair_build_identity rollback;
        rollback_build_version := pair_build_version rollback;
        agreed_private_protocol := private_protocol;
        agreed_handoff_protocol := handoff_protocol;
        agreed_terminal_checkpoint := terminal_checkpoint;
        agreed_descriptor_manifest := descriptor_manifest |}.

(** ** The phases of a hand-off *)

Inductive ManifestKind := Forward | Rollback.

#[global] Instance ManifestKind_eq_dec : EqDecision ManifestKind.
Proof. solve_decision. Defined.

Inductive HandoffPhase :=
| OldRunning
| Preparing
| Quiescing
| RuntimeStopped
| InheritancePrepared
| CandidateClaimed
| AdoptionStaged
| Committed
| Published
| RollingBack
| Failed.

#[global] Instance HandoffPhase_eq_dec : EqDecision HandoffPhase.
Proof. solve_decision. Defined.

Record HandoffLifecycle := { phase : HandoffPhase; rollback_edge : bool }.

Inductive HandoffCoordinatorError :=
| ProcessGuardActive
| InspectProcessThreads
| ProcessNotSingleThreaded (observed : Z)
| InvalidPhaseTransition.

Definition old_running : HandoffLifecycle := {| phase := OldRunning; rollback_edge := false |}.

Definition candidate_claimed (kind : ManifestKind) : HandoffLifecycle :=
  {| phase := CandidateClaimed; rollback_edge := match kind with Forward => true | Rollback => false end |}.

(** The [match next] of [transition]. *)
Definition valid_transition (l : HandoffLifecycle) (next : HandoffPhase) : bool :=
  match next with
  | Preparing => bool_decide (phase l = OldRunning)
  | Quiescing => bool_decide (phase l = Preparing)
  | RuntimeStopped => bool_decide (phase l = Quiescing)
  | InheritancePrepared => bool_decide (phase l = RuntimeStopped)
  | OldRunning =>
      match phase l with Preparing | Quiescing | RuntimeStopped | InheritancePrepared => true | _ => false end
  | CandidateClaimed => false
  | AdoptionStaged => bool_decide (phase l = CandidateClaimed)
  | Committed => bool_decide (phase l = AdoptionStaged)
  | Published => bool_decide (phase l = Committed)
  | RollingBack =>
      rollback_edge l && match phase l with CandidateClaimed | AdoptionStaged => true | _ => false end
  | Failed =>
      match phase l with
      | CandidateClaimed | AdoptionStaged | Committed | Published | RollingBack => true
      | _ => false
      end
  end.

Definition transition (next : HandoffPhase) : M HandoffLifecycle HandoffCoordinatorError unit :=
  let! l := get in
  do! reject_if (negb (valid_transition l next)) InvalidPhaseTransition in
  put {| phase := next; rollback_edge := rollback_edge l |}.

(** [let _ = self.transition(next)] ignores the result. *)
Definition refuse_before_commit (l : HandoffLifecycle) : HandoffPhase * HandoffLifecycle :=
  let next := if rollback_edge l then RollingBack else Failed in
  let l' := match phase l with
            | CandidateClaimed | AdoptionStaged => (transition next l).2
            | _ => l
            end in
  (phase l', l').

(** ** The process guard *)

(** The state is the flag [HANDOFF_PROCESS_GUARD_ACTIVE]; a thread count that
    cannot be read is [None]. *)
Definition acquire_with (observe_threads : option Z) : M bool HandoffCoordinatorError unit :=
  let! active := get in
  do! reject_if active ProcessGuardActive in
  do! put true in
  match observe_threads with
  | None => do! put false in fail InspectProcessThreads
  | Some observed =>
      if negb (observed =? 1) then do! put false in fail (ProcessNotSingleThreaded observed) else ret tt
  end.

(** [HandoffProcessGuard::drop]. *)
Definition release_guard : M bool HandoffCoordinatorError unit := put false.
