(* ===== verification/HandoffProps.v ===== *)
(** * What a hand-off promises

    Negotiation finds the greatest version common to all three generations in
    every dimension, and says why when it does not; and the phases of either
    side of the [exec] leave rollback behind once the candidate commits. *)

From S2P Require Import Prelude RustStd Paths Handoff.

(** ** Negotiation *)

(** A version all three generations support in one dimension. *)
Definition supported (range : HandoffCapabilities → VersionRange)
    (running forward rollback : HandoffCapabilities) (v : Z) : Prop :=
  Forall (λ c, range_minimum (range c) ≤ v ≤ range_maximum (range c)) [running; forward; rollback].

Definition greatest (P : Z → Prop) (v : Z) : Prop := P v ∧ ∀ w, P w → w ≤ v.

(** The reports bind the sealed pairs, and the rollback pair is the running build. *)
Record bound (running : RunningHandoffGeneration) (forward rollback : ExecutablePairPreflight)
    (snapshots : HandoffExecutableSnapshots) : Prop := {
  bound_forward : pair_snapshots forward = from_snapshots (snapshots_forward snapshots);
  bound_rollback : pair_snapshots rollback = from_snapshots (snapshots_rollback snapshots);
  bound_identity : pair_build_identity rollback = running_build_identity running;
  bound_version : pair_build_version rollback = running_build_version running;
}.

(** What [n] must be for the generations it names. *)
Record agreed (running : RunningHandoffGeneration) (forward rollback : ExecutablePairPreflight)
    (n : NegotiatedHandoff) : Prop := {
  agreed_forward : (forward_build_identity n, forward_build_version n)
    = (pair_build_identity forward, pair_build_version forward);
  agreed_rollback : (rollback_build_identity n, rollback_build_version n)
    = (running_build_identity running, running_build_version running);
  agreed_versions : Forall (λ d, greatest (supported d.1 (running_capabilities running)
      (pair_capabilities forward) (pair_capabilities rollback)) d.2)
    [(cap_private_protocol, agreed_private_protocol n); (cap_handoff_protocol, agreed_handoff_protocol n);
     (cap_terminal_checkpoint, agreed_terminal_checkpoint n);
     (cap_descriptor_manifest, agreed_descriptor_manifest n)];
}.

Definition range_of (d : CompatibilityDimension) : HandoffCapabilities → VersionRange :=
  match d with
  | PrivateProtocol => cap_private_protocol
  | HandoffProtocol => cap_handoff_protocol
  | TerminalCheckpoint => cap_terminal_checkpoint
  | DescriptorManifest => cap_descriptor_manifest
  end.

Lemma supported_iff range a b c v :
  supported range a b c v ↔
  Z.max (Z.max (range_minimum (range a)) (range_minimum (range b))) (range_minimum (range c)) ≤ v
  ≤ Z.min (Z.min (range_maximum (range a)) (range_maximum (range b))) (range_maximum (range c)).
Proof. unfold supported. rewrite !Forall_cons, Forall_nil. lia. Qed.

Lemma agree_spec d range a b c :
  match agree d range a b c with
  | Ok v => greatest (supported range a b c) v
  | Err e => e = Incompatible d ∧ ∀ v, ¬ supported range a b c v
  | Panic => False
  end.
Proof.
  unfold agree, highest_common. destruct (_ <=? _) eqn:Hle.
  - split; [|intros w]; rewrite supported_iff; lia.
  - split; [done|]. intros v. rewrite supported_iff. lia.
Qed.

(** The same for the dimension's own range. *)
Lemma agree_ok d range a b c v :
  agree d range a b c = Ok v ↔ greatest (supported range a b c) v.
Proof.
  pose proof (agree_spec d range a b c) as H. split; [by intros Hok; rewrite Hok in H|].
  intros [Hv Hmax]. destruct (agree d range a b c) as [w|e|].
  - destruct H as [Hw Hw']. f_equal. specialize (Hmax w Hw). specialize (Hw' v Hv). lia.
  - by destruct (proj2 H v).
  - done.
Qed.

(** Negotiation decides: it accepts exactly when both reports bind their
    sealed pairs, the rollback pair is the running build and every dimension has
    a version that all three generations support, and then picks the greatest
    such version in each dimension and the identities of the two builds; and
    each refusal names the first of these that fails. *)
Theorem negotiate_decides running forward rollback snapshots :
  match negotiate_handoff running forward rollback snapshots with
  | Ok n => bound running forward rollback snapshots ∧ agreed running forward rollback n
  | Err ForwardSnapshotMismatch => pair_snapshots forward ≠ from_snapshots (snapshots_forward snapshots)
  | Err RollbackSnapshotMismatch =>
      pair_snapshots forward = from_snapshots (snapshots_forward snapshots)
      ∧ pair_snapshots rollback ≠ from_snapshots (snapshots_rollback snapshots)
  | Err RollbackGenerationMismatch =>
      pair_snapshots forward = from_snapshots (snapshots_forward snapshots)
      ∧ pair_snapshots rollback = from_snapshots (snapshots_rollback snapshots)
      ∧ (pair_build_identity rollback, pair_build_version rollback)
        ≠ (running_build_identity running, running_build_version running)
  | Err (Incompatible d) =>
      bound running forward rollback snapshots
      ∧ ∀ v, ¬ supported (range_of d) (running_capabilities running)
          (pair_capabilities forward) (pair_capabilities rollback) v
  | Err InvalidRange | Err InvalidBuildIdentity | Panic => False
  end.
Proof.
  unfold negotiate_handoff. case_bool_decide as Hf; [done|].
  case_bool_decide as Hr; [done|].
  case_bool_decide as Hi; simpl; [naive_solver|].
  case_bool_decide as Hv; simpl; [naive_solver|].
  assert (bound running forward rollback snapshots) as Hb by done.
  set (a := running_capabilities running). set (b := pair_capabilities forward).
  set (c := pair_capabilities rollback).
  pose proof (agree_spec PrivateProtocol cap_private_protocol a b c) as H1.
  pose proof (agree_spec HandoffProtocol cap_handoff_protocol a b c) as H2.
  pose proof (agree_spec TerminalCheckpoint cap_terminal_checkpoint a b c) as H3.
  pose proof (agree_spec DescriptorManifest cap_descriptor_manifest a b c) as H4.
  destruct (agree PrivateProtocol _ _ _ _); [|by destruct H1 as [-> ?]|done].
  destruct (agree HandoffProtocol _ _ _ _); [|by destruct H2 as [-> ?]|done].
  destruct (agree TerminalCheckpoint _ _ _ _); [|by destruct H3 as [-> ?]|done].
  destruct (agree DescriptorManifest _ _ _ _); [|by destruct H4 as [-> ?]|done].
  simpl. split; [done|]. split; simpl; [done|by rewrite Hi, Hv|]. by rewrite !Forall_cons, Forall_nil.
Qed.

(** Acceptance alone: the negotiated contract is the agreed one. *)
Lemma negotiate_ok running forward rollback snapshots n :
  negotiate_handoff running forward rollback snapshots = Ok n ↔
  bound running forward rollback snapshots ∧ agreed running forward rollback n.
Proof.
  set (a := running_capabilities running). set (b := pair_capabilities forward). set (c := pair_capabilities rollback).
  unfold negotiate_handoff. fold a b c. split.
  - case_bool_decide; [done|]. case_bool_decide; [done|]. do 2 (case_bool_decide; [done|]). cbn [orb].
    destruct (agree PrivateProtocol _ a b c) eqn:E1; [|done..]. destruct (agree HandoffProtocol _ a b c) eqn:E2; [|done..].
    destruct (agree TerminalCheckpoint _ a b c) eqn:E3; [|done..]. destruct (agree DescriptorManifest _ a b c) eqn:E4; [|done..].
    apply agree_ok in E1, E2, E3, E4. intros [= <-]. split; [done|]. split; simpl; [done|congruence|].
    by rewrite !Forall_cons, Forall_nil.
  - intros [[-> -> Hi Hv] [Hf Hr Hag]]. rewrite !Forall_cons in Hag. destruct Hag as (E1 & E2 & E3 & E4 & _).
    rewrite !bool_decide_eq_false_2 by tauto. cbn [orb].
    apply (agree_ok PrivateProtocol) in E1. apply (agree_ok HandoffProtocol) in E2.
    apply (agree_ok TerminalCheckpoint) in E3. apply (agree_ok DescriptorManifest) in E4.
    cbn [fst snd] in *. fold a b c in E1, E2, E3, E4. rewrite E1, E2, E3, E4. cbn [obind].
    f_equal. destruct n. simpl in *. congruence.
Qed.

(** ** Phases *)
















