(* ===== verification/Manifest.v ===== *)
(** * The hand-off manifest ([splinterd/src/handoff_manifest.rs])

    What one generation of the daemon writes for the next: the builds, the
    Splints with their terminals and processes, the Windows whose continuation
    crosses the [exec], and the descriptor each of them inherits. The rollback
    manifest is the same operation backwards. Both are validated, brought into
    one canonical order and encoded as JSON.

    [Uuid::to_string], by which records are ordered, and [serde_json] are
    arguments of the definitions that use them. *)

From S2P Require Import Prelude RustStd Paths Handoff.

Definition HANDOFF_MANIFEST_SCHEMA_V1 : Z := 1.
Definition MAX_HANDOFF_MANIFEST_BYTES : Z := 256 * 1024.
Definition MAX_LIVE_SPLINTS : Z := 256.
Definition MAX_MANIFEST_SPLINTS : Z := MAX_LIVE_SPLINTS.
Definition MAX_MANIFEST_LAIRS : Z := MAX_MANIFEST_SPLINTS.
Definition MAX_MANIFEST_DOJOS : Z := MAX_MANIFEST_SPLINTS.
Definition MAX_MANIFEST_WINDOWS : Z := 64.
Definition CONNECTION_LIMIT : Z := 128.
Definition MAX_MANIFEST_WINDOW_CONNECTIONS : Z := CONNECTION_LIMIT.
Definition MAX_HANDOFF_DESCRIPTORS : Z := 1024.
Definition MAX_INHERITED_FD : Z := i32_max.
Definition UNIX_FILE_TYPE_MASK : Z := 0xF000.
Definition UNIX_REGULAR_FILE : Z := 0x8000.
Definition TERMINAL_CHECKPOINT_SCHEMA_V2 : Z := 2.

(** ** Data *)

(** The roles a descriptor can have ([handoff_descriptors.rs]). *)
Inductive HandoffDescriptorSlot :=
| PtyMaster (index : Z)
| Listener
| ImageListener
| CheckpointManifest
| RollbackManifest
| TerminalCheckpointSlot (index : Z)
| ImageState (index : Z)
| ForwardClient
| RollbackDaemon
| RollbackClient
| ClientProcess (index : Z)
| Continuation (index : Z).

#[global] Instance HandoffDescriptorSlot_eq_dec : EqDecision HandoffDescriptorSlot.
Proof. solve_decision. Defined.

(** The derived order: by variant, then by index. *)
Definition slot_key (s : HandoffDescriptorSlot) : Z * Z :=
  match s with
  | PtyMaster i => (0, i)
  | Listener => (1, 0)
  | ImageListener => (2, 0)
  | CheckpointManifest => (3, 0)
  | RollbackManifest => (4, 0)
  | TerminalCheckpointSlot i => (5, i)
  | ImageState i => (6, i)
  | ForwardClient => (7, 0)
  | RollbackDaemon => (8, 0)
  | RollbackClient => (9, 0)
  | ClientProcess i => (10, i)
  | Continuation i => (11, i)
  end.

Definition slot_leb (a b : HandoffDescriptorSlot) : bool :=
  ((slot_key a).1 <? (slot_key b).1) ||
  (((slot_key a).1 =? (slot_key b).1) && ((slot_key a).2 <=? (slot_key b).2)).

Record GenerationEvidence := { evidence_identity : list Z; evidence_version : BuildVersion }.

#[global] Instance GenerationEvidence_eq_dec : EqDecision GenerationEvidence.
Proof. solve_decision. Defined.

Definition from_preflight (preflight : ExecutablePairPreflight) : GenerationEvidence :=
  {| evidence_identity := pair_build_identity preflight; evidence_version := pair_build_version preflight |}.

Record ManifestExecutableImage := {
  source_device : Z;
  source_inode : Z;
  source_owner_uid : Z;
  source_mode : Z;
  source_size : Z;
  source_sha256 : list Z;
  snapshot_device : Z;
  snapshot_inode : Z;
  snapshot_size : Z;
  snapshot_sha256 : list Z;
  snapshot_seals : Z;
}.

#[global] Instance ManifestExecutableImage_eq_dec : EqDecision ManifestExecutableImage.
Proof. solve_decision. Defined.

Definition image_from_snapshot (snapshot : SealedExecutableSnapshot) : ManifestExecutableImage :=
  let source := sealed_source snapshot in
  let sealed := sealed_snapshot snapshot in
  {| source_device := src_device source;
     source_inode := src_inode source;
     source_owner_uid := src_owner_uid source;
     source_mode := src_mode source;
     source_size := src_size source;
     source_sha256 := src_sha256 source;
     snapshot_device := snap_device sealed;
     snapshot_inode := snap_inode sealed;
     snapshot_size := snap_size sealed;
     snapshot_sha256 := snap_sha256 sealed;
     snapshot_seals := snap_seals sealed |}.

Record ManifestExecutablePair := {
  image_daemon : ManifestExecutableImage;
  image_client : ManifestExecutableImage;
  image_generation : GenerationEvidence;
}.

#[global] Instance ManifestExecutablePair_eq_dec : EqDecision ManifestExecutablePair.
Proof. solve_decision. Defined.

Record ExecutablePairSetEvidence := {
  evidence_forward : ManifestExecutablePair;
  evidence_rollback : ManifestExecutablePair;
}.

#[global] Instance ExecutablePairSetEvidence_eq_dec : EqDecision ExecutablePairSetEvidence.
Proof. solve_decision. Defined.

Record ManifestDescriptor := { slot : HandoffDescriptorSlot; inherited_fd : Z }.

#[global] Instance ManifestDescriptor_eq_dec : EqDecision ManifestDescriptor.
Proof. solve_decision. Defined.

Record ManifestPtyIdentity := {
  pty_child_pid : Z;
  pty_process_group : Z;
  pty_session_id : Z;
  master_slot : Z;
}.

#[global] Instance ManifestPtyIdentity_eq_dec : EqDecision ManifestPtyIdentity.
Proof. solve_decision. Defined.

Record ManifestPtySize := { pty_columns : Z; pty_rows : Z; pixel_width : Z; pixel_height : Z }.

#[global] Instance ManifestPtySize_eq_dec : EqDecision ManifestPtySize.
Proof. solve_decision. Defined.

Inductive ExitDisposition := Running | Exited.

#[global] Instance ExitDisposition_eq_dec : EqDecision ExitDisposition.
Proof. solve_decision. Defined.

Inductive BodyDisposition := Descriptor (slot : Z) | NotPresent | Unsupported.

#[global] Instance BodyDisposition_eq_dec : EqDecision BodyDisposition.
Proof. solve_decision. Defined.

Inductive ControllerDisposition := Released | HeldBy (window connection : Z).

#[global] Instance ControllerDisposition_eq_dec : EqDecision ControllerDisposition.
Proof. solve_decision. Defined.

Inductive SubscriptionDisposition := Dropped.

#[global] Instance SubscriptionDisposition_eq_dec : EqDecision SubscriptionDisposition.
Proof. solve_decision. Defined.

Record ManifestSplint := {
  splint_lair : Z;
  splint_dojo : Z;
  splint_id : Z;
  incarnation : Z;
  pty : ManifestPtyIdentity;
  pty_size : ManifestPtySize;
  foreground_process_group : option Z;
  terminal_revision : Z;
  history_generation : Z;
  splint_exit : ExitDisposition;
  terminal_checkpoint : BodyDisposition;
  image_state : BodyDisposition;
  controller : ControllerDisposition;
  subscriptions : SubscriptionDisposition;
}.

#[global] Instance ManifestSplint_eq_dec : EqDecision ManifestSplint.
Proof. solve_decision. Defined.

Record ManifestProcessExit := { exit_code : option Z; exit_signal : option Z }.

#[global] Instance ManifestProcessExit_eq_dec : EqDecision ManifestProcessExit.
Proof. solve_decision. Defined.

Definition exit_is_valid (e : ManifestProcessExit) : bool :=
  match exit_code e, exit_signal e with
  | Some code, None => (0 <=? code) && (code <=? 255)
  | None, Some signal => (1 <=? signal) && (signal <=? 127)
  | _, _ => false
  end.

Record ManifestExcludedSplint := {
  excluded_lair : Z;
  excluded_dojo : Z;
  excluded_id : Z;
  excluded_incarnation : Z;
  child_pid : Z;
  process_exit : option ManifestProcessExit;
}.

#[global] Instance ManifestExcludedSplint_eq_dec : EqDecision ManifestExcludedSplint.
Proof. solve_decision. Defined.

Record ManifestWindow := {
  window_index : Z;
  window_pid : Z;
  start_time : Z;
  client_device : Z;
  client_inode : Z;
  old_connections : list Z;
}.

#[global] Instance ManifestWindow_eq_dec : EqDecision ManifestWindow.
Proof. solve_decision. Defined.

Record HandoffManifestV1 := {
  schema : Z;
  kind : ManifestKind;
  handoff_id : list Z;
  source_generation : GenerationEvidence;
  target_generation : GenerationEvidence;
  source_daemon_generation : Z;
  target_daemon_generation : Z;
  topology_revision : Z;
  durable_state_generation : Z;
  private_protocol : Z;
  handoff_protocol : Z;
  terminal_checkpoint_schema : Z;
  descriptor_manifest_schema : Z;
  install_prefix : PathBuf;
  executable_pairs : ExecutablePairSetEvidence;
  counterpart_manifest_slot : HandoffDescriptorSlot;
  splints : list ManifestSplint;
  excluded_splints : list ManifestExcludedSplint;
  windows : list ManifestWindow;
  descriptors : list ManifestDescriptor;
}.

#[global] Instance HandoffManifestV1_eq_dec : EqDecision HandoffManifestV1.
Proof. solve_decision. Defined.

Inductive ManifestError :=
| TooLarge
| Encoding
| NonCanonical
| InvalidSchema
| InvalidIdentity
| InvalidBounds
| InvalidTopology
| InvalidDescriptors
| InvalidRuntime
| CapabilityMismatch
| InvalidExecutables
| InvalidInstallPrefix
| PairMismatch
| InvalidWindows.

(** ** Validation *)

Definition is_linux_pid (raw : Z) : bool := (raw <=? i32_max) && (0 <? raw).

(** [result.map_err(|_| e)]. *)
Definition map_err {E E' A} (e : E') (r : outcome E A) : outcome E' A :=
  match r with Ok a => Ok a | Err _ => Err e | Panic => Panic end.

Definition validate_generation (g : GenerationEvidence) : outcome ManifestError unit :=
  let? _ := map_err InvalidIdentity (BuildIdentity_new (evidence_identity g)) in
  if (version_major (evidence_version g) =? 0) && (version_minor (evidence_version g) =? 0)
     && (version_patch (evidence_version g) =? 0)
  then Err InvalidIdentity else Ok tt.

(** The older and the newer daemon generation of a manifest. *)
Definition daemon_generations (m : HandoffManifestV1) : Z * Z :=
  match kind m with
  | Forward => (source_daemon_generation m, target_daemon_generation m)
  | Rollback => (target_daemon_generation m, source_daemon_generation m)
  end.

Definition validate_daemon_generations (m : HandoffManifestV1) : outcome ManifestError unit :=
  let '(older, newer) := daemon_generations m in
  if (older =? 0) || bool_decide (checked_add64 older 1 ≠ Some newer) then Err InvalidIdentity else Ok tt.

Definition validate_executable_image (i : ManifestExecutableImage) : outcome ManifestError unit :=
  let required_seals := REQUIRED_EXECUTABLE_SEALS in
  let regular_file := Z.land (source_mode i) UNIX_FILE_TYPE_MASK =? UNIX_REGULAR_FILE in
  if (source_device i =? 0) || (source_inode i =? 0) || (snapshot_device i =? 0) || (snapshot_inode i =? 0)
     || negb (source_owner_uid i =? PACKAGED_OWNER_UID)
     || negb regular_file
     || (Z.land (source_mode i) 0x49 =? 0)
     || negb (Z.land (source_mode i) 0x12 =? 0)
     || (source_size i =? 0)
     || (MAX_EXECUTABLE_SNAPSHOT_BYTES <? source_size i)
     || negb (source_size i =? snapshot_size i)
     || ((source_device i =? snapshot_device i) && (source_inode i =? snapshot_inode i))
     || bool_decide (source_sha256 i = replicate 32 0)
     || bool_decide (source_sha256 i ≠ snapshot_sha256 i)
     || negb (Z.land (snapshot_seals i) required_seals =? required_seals)
  then Err InvalidExecutables else Ok tt.

Definition validate_executable_pair (p : ManifestExecutablePair) : outcome ManifestError unit :=
  let? _ := validate_generation (image_generation p) in
  let? _ := validate_executable_image (image_daemon p) in
  let? _ := validate_executable_image (image_client p) in
  if (snapshot_device (image_daemon p) =? snapshot_device (image_client p))
     && (snapshot_inode (image_daemon p) =? snapshot_inode (image_client p))
  then Err InvalidExecutables else Ok tt.

(** The generations the forward and the rollback pair must have. *)
Definition pair_generations (m : HandoffManifestV1) : GenerationEvidence * GenerationEvidence :=
  match kind m with
  | Forward => (target_generation m, source_generation m)
  | Rollback => (source_generation m, target_generation m)
  end.

Definition validate_executable_pairs (m : HandoffManifestV1) : outcome ManifestError unit :=
  let pairs := executable_pairs m in
  let? _ := validate_executable_pair (evidence_forward pairs) in
  let? _ := validate_executable_pair (evidence_rollback pairs) in
  let generations_match :=
    bool_decide (image_generation (evidence_forward pairs) = (pair_generations m).1)
    && bool_decide (image_generation (evidence_rollback pairs) = (pair_generations m).2) in
  if negb generations_match then Err InvalidExecutables else Ok tt.

(** [connections.iter().all(|c| c != 0 && seen.insert(c))]: the set afterwards
    when the answer is yes. *)
Fixpoint insert_connections (connections seen : list Z) : option (list Z) :=
  match connections with
  | [] => Some seen
  | c :: connections =>
      if negb (c =? 0) && negb (bool_decide (c ∈ seen)) then insert_connections connections (c :: seen) else None
  end.

(** The loop over the Windows, with the indices, processes and connections seen. *)
Fixpoint check_windows (count : Z) (indices pids connections : list Z) (ws : list ManifestWindow)
    : outcome ManifestError unit :=
  match ws with
  | [] => Ok tt
  | w :: ws =>
      if (count <=? window_index w) || bool_decide (window_index w ∈ indices)
         || negb (is_linux_pid (window_pid w)) || bool_decide (window_pid w ∈ pids)
         || (start_time w =? 0) || (client_device w =? 0) || (client_inode w =? 0)
         || bool_decide (old_connections w = [])
      then Err InvalidWindows
      else match insert_connections (old_connections w) connections with
           | None => Err InvalidWindows
           | Some connections =>
               check_windows count (window_index w :: indices) (window_pid w :: pids) connections ws
           end
  end.

Definition held (m : HandoffManifestV1) (window connection : Z) : bool :=
  existsb (λ record, (window_index record =? window) && bool_decide (connection ∈ old_connections record)) (windows m).

(** Whether a held controller is refused, with the leases seen. *)
Fixpoint bad_lease (m : HandoffManifestV1) (leases : list Z) (ss : list ManifestSplint) : bool :=
  match ss with
  | [] => false
  | s :: ss =>
      match controller s with
      | Released => bad_lease m leases ss
      | HeldBy window connection =>
          negb (held m window connection) || bool_decide (connection ∈ leases)
          || bad_lease m (connection :: leases) ss
      end
  end.

Definition validate_windows (m : HandoffManifestV1) : outcome ManifestError unit :=
  let? _ := check_windows (Z.of_nat (length (windows m))) [] [] [] (windows m) in
  if bad_lease m [] (splints m) then Err InvalidWindows else Ok tt.

(** The loop over the descriptors, with the slots and descriptors seen; it
    answers the slots. *)
Fixpoint check_descriptors (slots : list HandoffDescriptorSlot) (fds : list Z) (ds : list ManifestDescriptor)
    : outcome ManifestError (list HandoffDescriptorSlot) :=
  match ds with
  | [] => Ok slots
  | d :: ds =>
      if (inherited_fd d <? 3) || (MAX_INHERITED_FD <? inherited_fd d)
         || bool_decide (slot d ∈ slots) || bool_decide (inherited_fd d ∈ fds)
      then Err InvalidDescriptors
      else check_descriptors (slot d :: slots) (inherited_fd d :: fds) ds
  end.

Definition global_slots : list HandoffDescriptorSlot :=
  [Listener; ImageListener; CheckpointManifest; RollbackManifest; ForwardClient; RollbackDaemon; RollbackClient].

Definition splint_slots (s : ManifestSplint) : list HandoffDescriptorSlot :=
  PtyMaster (master_slot (pty s)) ::
  match terminal_checkpoint s with Descriptor i => [TerminalCheckpointSlot i] | _ => [] end ++
  match image_state s with Descriptor i => [ImageState i] | _ => [] end.

Definition window_slots (w : ManifestWindow) : list HandoffDescriptorSlot :=
  [ClientProcess (window_index w); Continuation (window_index w)].

(** What is inserted into [expected]. *)
Definition expected_slots (m : HandoffManifestV1) : list HandoffDescriptorSlot :=
  global_slots ++ (splints m ≫= splint_slots) ++ (windows m ≫= window_slots).

(** Equality of sets given by their elements. *)
Definition same_set (a b : list HandoffDescriptorSlot) : bool :=
  forallb (λ x, bool_decide (x ∈ b)) a && forallb (λ x, bool_decide (x ∈ a)) b.

Definition validate_descriptors (m : HandoffManifestV1) : outcome ManifestError unit :=
  let? slots := check_descriptors [] [] (descriptors m) in
  if negb (same_set slots (expected_slots m)) then Err InvalidDescriptors else Ok tt.

(** The sets [validate_splints] fills. *)
Record SplintSets := {
  splint_ids : list Z;
  child_pids : list Z;
  dojo_lairs : gmap Z Z;
  seen_lairs : list Z;
  seen_dojos : list Z;
  pty_slots : list HandoffDescriptorSlot;
  checkpoint_slots : list HandoffDescriptorSlot;
  image_slots : list HandoffDescriptorSlot;
}.

Definition no_splints : SplintSets :=
  {| splint_ids := []; child_pids := []; dojo_lairs := ∅; seen_lairs := []; seen_dojos := [];
     pty_slots := []; checkpoint_slots := []; image_slots := [] |}.

(** The identity checks that carried and excluded Splints share. *)
Definition check_identity (s : SplintSets) (lair dojo id pid : Z) : outcome ManifestError SplintSets :=
  if bool_decide (id ∈ splint_ids s) || bool_decide (pid ∈ child_pids s)
     || match dojo_lairs s !! dojo with Some other => negb (other =? lair) | None => false end
  then Err InvalidTopology
  else Ok {| splint_ids := id :: splint_ids s; child_pids := pid :: child_pids s;
             dojo_lairs := <[dojo := lair]> (dojo_lairs s);
             seen_lairs := hs_insert lair (seen_lairs s); seen_dojos := hs_insert dojo (seen_dojos s);
             pty_slots := pty_slots s; checkpoint_slots := checkpoint_slots s; image_slots := image_slots s |}.

(** [!slots.insert(slot) || !descriptor_slots.contains(&slot)]. *)
Definition slot_refused (s : HandoffDescriptorSlot) (slots descriptor_slots : list HandoffDescriptorSlot) : bool :=
  bool_decide (s ∈ slots) || negb (bool_decide (s ∈ descriptor_slots)).

(** The terminal's own image body, which schema 2 embeds in the checkpoint. *)
Definition check_image_state (schema : Z) (descriptor_slots : list HandoffDescriptorSlot)
    (slots : list HandoffDescriptorSlot) (state : BodyDisposition)
    : outcome ManifestError (list HandoffDescriptorSlot) :=
  match state with
  | NotPresent => Ok slots
  | Descriptor i =>
      if schema =? TERMINAL_CHECKPOINT_SCHEMA_V2 then Err InvalidRuntime
      else if slot_refused (ImageState i) slots descriptor_slots then Err InvalidDescriptors
      else Ok (ImageState i :: slots)
  | Unsupported => Err InvalidRuntime
  end.

(** What the runtime of a carried Splint must not be. *)
Definition bad_runtime (s : ManifestSplint) : bool :=
  (incarnation s =? 0)
  || negb (is_linux_pid (pty_child_pid (pty s)))
  || negb (pty_child_pid (pty s) =? pty_process_group (pty s))
  || negb (pty_child_pid (pty s) =? pty_session_id (pty s))
  || (pty_columns (pty_size s) =? 0) || (pty_rows (pty_size s) =? 0)
  || (history_generation s =? 0)
  || bool_decide (splint_exit s ≠ Running)
  || match foreground_process_group s with Some group => negb (is_linux_pid group) | None => false end.

Definition check_splint (schema : Z) (descriptor_slots : list HandoffDescriptorSlot)
    (s : SplintSets) (splint : ManifestSplint) : outcome ManifestError SplintSets :=
  let? s := check_identity s (splint_lair splint) (splint_dojo splint) (splint_id splint) (pty_child_pid (pty splint)) in
  let pty_slot := PtyMaster (master_slot (pty splint)) in
  if slot_refused pty_slot (pty_slots s) descriptor_slots then Err InvalidDescriptors else
  match terminal_checkpoint splint with
  | Descriptor i =>
      let checkpoint_slot := TerminalCheckpointSlot i in
      if slot_refused checkpoint_slot (checkpoint_slots s) descriptor_slots then Err InvalidDescriptors else
      let? images := check_image_state schema descriptor_slots (image_slots s) (image_state splint) in
      if bad_runtime splint then Err InvalidRuntime
      else Ok {| splint_ids := splint_ids s; child_pids := child_pids s; dojo_lairs := dojo_lairs s;
                 seen_lairs := seen_lairs s; seen_dojos := seen_dojos s;
                 pty_slots := pty_slot :: pty_slots s; checkpoint_slots := checkpoint_slot :: checkpoint_slots s;
                 image_slots := images |}
  | _ => Err InvalidRuntime
  end.

Definition check_excluded (s : SplintSets) (e : ManifestExcludedSplint) : outcome ManifestError SplintSets :=
  let? s := check_identity s (excluded_lair e) (excluded_dojo e) (excluded_id e) (child_pid e) in
  if (excluded_incarnation e =? 0) || negb (is_linux_pid (child_pid e))
     || match process_exit e with Some exit => negb (exit_is_valid exit) | None => false end
  then Err InvalidRuntime else Ok s.

(** [for x in l { s = f(s, x)? }]. *)
Fixpoint try_fold {S A E} (f : S → A → outcome E S) (s : S) (l : list A) : outcome E S :=
  match l with
  | [] => Ok s
  | x :: l => let? s := f s x in try_fold f s l
  end.

Definition validate_splints (m : HandoffManifestV1) : outcome ManifestError unit :=
  let descriptor_slots := slot <$> descriptors m in
  let? s := try_fold (check_splint (terminal_checkpoint_schema m) descriptor_slots) no_splints (splints m) in
  let? s := try_fold check_excluded s (excluded_splints m) in
  if (MAX_MANIFEST_LAIRS <? Z.of_nat (length (seen_lairs s))) || (MAX_MANIFEST_DOJOS <? Z.of_nat (length (seen_dojos s)))
  then Err InvalidBounds else Ok tt.

Definition bad_schema (m : HandoffManifestV1) : bool :=
  negb (schema m =? HANDOFF_MANIFEST_SCHEMA_V1)
  || bool_decide (handoff_id m = replicate 16 0)
  || (private_protocol m =? 0) || (handoff_protocol m =? 0) || (terminal_checkpoint_schema m =? 0)
  || negb (descriptor_manifest_schema m =? HANDOFF_MANIFEST_SCHEMA_V1).

(** How many old connections the Windows have. *)
Definition connection_count (ws : list ManifestWindow) : Z :=
  foldr (λ w n, Z.of_nat (length (old_connections w)) + n) 0 ws.

Definition bad_bounds (m : HandoffManifestV1) : bool :=
  (MAX_MANIFEST_SPLINTS <? Z.of_nat (length (splints m)))
  || (MAX_MANIFEST_SPLINTS <? Z.of_nat (length (excluded_splints m)))
  || (MAX_MANIFEST_SPLINTS <? Z.of_nat (length (splints m)) + Z.of_nat (length (excluded_splints m)))
  || (MAX_HANDOFF_DESCRIPTORS <? Z.of_nat (length (descriptors m)))
  || (MAX_MANIFEST_WINDOWS <? Z.of_nat (length (windows m)))
  || (MAX_MANIFEST_WINDOW_CONNECTIONS <? connection_count (windows m)).

Definition validate_manifest (m : HandoffManifestV1) : outcome ManifestError unit :=
  if bad_schema m then Err InvalidSchema else
  let? _ := validate_generation (source_generation m) in
  let? _ := validate_generation (target_generation m) in
  if bool_decide (source_generation m = target_generation m) then Err InvalidIdentity else
  let? _ := validate_daemon_generations m in
  let? _ := map_err InvalidInstallPrefix (validate_install_prefix_path (install_prefix m)) in
  if bad_bounds m then Err InvalidBounds else
  let? _ := validate_executable_pairs m in
  let? _ := validate_windows m in
  let? _ := validate_descriptors m in
  let? _ := validate_splints m in
  match kind m, counterpart_manifest_slot m with
  | Forward, RollbackManifest | Rollback, CheckpointManifest => Ok tt
  | _, _ => Err InvalidDescriptors
  end.

(** ** Canonical order *)

Definition set_collections (m : HandoffManifestV1) (ss : list ManifestSplint) (es : list ManifestExcludedSplint)
    (ws : list ManifestWindow) (ds : list ManifestDescriptor) : HandoffManifestV1 :=
  {| schema := schema m; kind := kind m; handoff_id := handoff_id m;
     source_generation := source_generation m; target_generation := target_generation m;
     source_daemon_generation := source_daemon_generation m;
     target_daemon_generation := target_daemon_generation m;
     topology_revision := topology_revision m; durable_state_generation := durable_state_generation m;
     private_protocol := private_protocol m; handoff_protocol := handoff_protocol m;
     terminal_checkpoint_schema := terminal_checkpoint_schema m;
     descriptor_manifest_schema := descriptor_manifest_schema m;
     install_prefix := install_prefix m; executable_pairs := executable_pairs m;
     counterpart_manifest_slot := counterpart_manifest_slot m;
     splints := ss; excluded_splints := es; windows := ws; descriptors := ds |}.

(** [old_connections.sort_unstable()]: equal numbers cannot be told apart. *)
Definition sort_connections (w : ManifestWindow) : ManifestWindow :=
  {| window_index := window_index w; window_pid := window_pid w; start_time := start_time w;
     client_device := client_device w; client_inode := client_inode w;
     old_connections := sort_by Z.leb (old_connections w) |}.

Definition canonical_windows (ws : list ManifestWindow) : list ManifestWindow :=
  sort_connections <$> sort_by (λ a b, window_index a <=? window_index b) ws.

Definition sort_descriptors (ds : list ManifestDescriptor) : list ManifestDescriptor :=
  sort_by (λ a b, slot_leb (slot a) (slot b)) ds.

Section encoding.
Context (uuid_to_string : Z → str).

Definition splint_sort_key (s : ManifestSplint) : str * str * str :=
  (uuid_to_string (splint_lair s), uuid_to_string (splint_dojo s), uuid_to_string (splint_id s)).

Definition excluded_splint_sort_key (s : ManifestExcludedSplint) : str * str * str :=
  (uuid_to_string (excluded_lair s), uuid_to_string (excluded_dojo s), uuid_to_string (excluded_id s)).

(** The order of tuples of strings. *)
Definition key_leb (a b : str * str * str) : bool :=
  let '(a1, a2, a3) := a in
  let '(b1, b2, b3) := b in
  (negb (bool_decide (a1 = b1)) && str_leb a1 b1)
  || (bool_decide (a1 = b1) && ((negb (bool_decide (a2 = b2)) && str_leb a2 b2)
                                || (bool_decide (a2 = b2) && str_leb a3 b3))).

Definition sort_splints (l : list ManifestSplint) : list ManifestSplint :=
  sort_by (λ a b, key_leb (splint_sort_key a) (splint_sort_key b)) l.

Definition sort_excluded (l : list ManifestExcludedSplint) : list ManifestExcludedSplint :=
  sort_by (λ a b, key_leb (excluded_splint_sort_key a) (excluded_splint_sort_key b)) l.

(** The [canonical] copy [encode_manifest] makes. *)
Definition canonical (m : HandoffManifestV1) : HandoffManifestV1 :=
  set_collections m (sort_splints (splints m)) (sort_excluded (excluded_splints m))
    (canonical_windows (windows m)) (sort_descriptors (descriptors m)).

(** ** Pairs *)

Definition validate_manifest_pair (forward rollback : HandoffManifestV1) : outcome ManifestError unit :=
  let? _ := validate_manifest forward in
  let? _ := validate_manifest rollback in
  if bool_decide (kind forward ≠ Forward)
     || bool_decide (kind rollback ≠ Rollback)
     || bool_decide (handoff_id forward ≠ handoff_id rollback)
     || negb (topology_revision forward =? topology_revision rollback)
     || negb (durable_state_generation forward =? durable_state_generation rollback)
     || negb (private_protocol forward =? private_protocol rollback)
     || negb (handoff_protocol forward =? handoff_protocol rollback)
     || negb (terminal_checkpoint_schema forward =? terminal_checkpoint_schema rollback)
     || negb (descriptor_manifest_schema forward =? descriptor_manifest_schema rollback)
     || bool_decide (source_generation forward ≠ target_generation rollback)
     || bool_decide (target_generation forward ≠ source_generation rollback)
     || negb (source_daemon_generation forward =? target_daemon_generation rollback)
     || negb (target_daemon_generation forward =? source_daemon_generation rollback)
     || negb (path_eq (install_prefix forward) (install_prefix rollback))
     || bool_decide (executable_pairs forward ≠ executable_pairs rollback)
     || bool_decide (sort_splints (splints forward) ≠ sort_splints (splints rollback))
     || bool_decide (sort_excluded (excluded_splints forward) ≠ sort_excluded (excluded_splints rollback))
     || bool_decide (canonical_windows (windows forward) ≠ canonical_windows (windows rollback))
     || bool_decide (sort_descriptors (descriptors forward) ≠ sort_descriptors (descriptors rollback))
  then Err PairMismatch else Ok tt.

(** ** Encoding *)

(** [serde_json]: the bytes of a manifest, which a path that is not UTF-8 has
    not, and the manifest of bytes. *)
Context (to_vec : HandoffManifestV1 → option (list Z)) (from_slice : list Z → option HandoffManifestV1).

Definition encode_manifest (m : HandoffManifestV1) : outcome ManifestError (list Z) :=
  let canonical := canonical m in
  let? _ := validate_manifest canonical in
  match to_vec canonical with
  | None => Err Encoding
  | Some bytes => if MAX_HANDOFF_MANIFEST_BYTES <? Z.of_nat (length bytes) then Err TooLarge else Ok bytes
  end.

Definition decode_manifest (bytes : list Z) : outcome ManifestError HandoffManifestV1 :=
  if MAX_HANDOFF_MANIFEST_BYTES <? Z.of_nat (length bytes) then Err TooLarge else
  match from_slice bytes with
  | None => Err Encoding
  | Some m =>
      let? encoded := encode_manifest m in
      if bool_decide (encoded ≠ bytes) then Err NonCanonical else Ok m
  end.
End encoding.
