(* ===== verification/ManifestInv.v ===== *)
(** * What a valid manifest is

    [manifest_ok] says without loops or accumulated sets what [validate_manifest]
    accepts. It does not depend on the order of the collections: manifests that
    differ only in it are [same_operation], and [manifest_ok] respects that. *)

From S2P Require Import Prelude RustStd Paths Handoff Manifest.

(** ** Lists of new elements *)

(** [l] repeats nothing and has nothing of [s]: every element is inserted. *)
Definition fresh {A} (l s : list A) : Prop := NoDup l ∧ ∀ x, x ∈ l → x ∉ s.

Lemma fresh_nil {A} (s : list A) : fresh [] s.
Proof. split; [constructor|set_solver]. Qed.

Lemma fresh_cons {A} (x : A) l s : fresh (x :: l) s ↔ x ∉ s ∧ fresh l (x :: s).
Proof. unfold fresh. rewrite NoDup_cons. set_solver. Qed.

Lemma fresh_empty {A} (l : list A) : fresh l [] ↔ NoDup l.
Proof. unfold fresh. set_solver. Qed.

Lemma fresh_app {A} (l k s : list A) : fresh (l ++ k) s ↔ fresh l s ∧ fresh k (reverse l ++ s).
Proof. unfold fresh. rewrite NoDup_app. set_solver. Qed.

(** A checked step either passes and adds, or stops the loop. *)
Fixpoint passes {S A} (P : S → A → Prop) (add : S → A → S) (s : S) (l : list A) : Prop :=
  match l with
  | [] => True
  | x :: l => P s x ∧ passes P add (add s x) l
  end.

Lemma try_fold_ok {S A E} (f : S → A → outcome E S) P add s l s' :
  (∀ s x s', f s x = Ok s' ↔ P s x ∧ s' = add s x) →
  try_fold f s l = Ok s' ↔ passes P add s l ∧ s' = foldl add s l.
Proof.
  intros Hf. revert s. induction l as [|x l IH]; intros s; simpl; [naive_solver|].
  specialize (Hf s x). destruct (f s x) as [s1|e|]; simpl.
  - destruct (proj1 (Hf s1) eq_refl) as [HP ->]. rewrite IH. naive_solver.
  - split; [done|]. intros [[HP _] _]. by destruct (Hf (add s x)) as [_ Hf']; specialize (Hf' (conj HP eq_refl)).
  - split; [done|]. intros [[HP _] _]. by destruct (Hf (add s x)) as [_ Hf']; specialize (Hf' (conj HP eq_refl)).
Qed.

Lemma obind_ok {E A B} (r : outcome E A) (k : A → outcome E B) b :
  obind r k = Ok b ↔ ∃ a, r = Ok a ∧ k a = Ok b.
Proof. destruct r; naive_solver. Qed.

Lemma map_err_ok {E E' A} (e : E') (r : outcome E A) a : map_err e r = Ok a ↔ r = Ok a.
Proof. destruct r; naive_solver. Qed.

(** [if b { return Err(e) }] before the rest. *)
Lemma guard_ok {E A} (b : bool) (e : E) (r : outcome E A) a :
  (if b then Err e else r) = Ok a ↔ b = false ∧ r = Ok a.
Proof. destruct b; naive_solver. Qed.

Lemma decide_not (P : Prop) `{!Decision P} : bool_decide (¬ P) = false ↔ P.
Proof. rewrite bool_decide_eq_false. split; [apply dec_stable|tauto]. Qed.

(** What the conditions of the code decide. *)
Ltac decide_conditions :=
  rewrite ?orb_false_iff, ?orb_true_iff, ?andb_true_iff, ?negb_false_iff, ?negb_true_iff,
    ?andb_false_iff, ?decide_not, ?bool_decide_eq_false, ?bool_decide_eq_true, ?Z.eqb_neq, ?Z.eqb_eq, ?Z.ltb_ge, ?Z.leb_gt,
    ?Z.leb_le, ?Z.ltb_lt.

(** ** Builds and executables *)

Record generation_ok (g : GenerationEvidence) : Prop := {
  gen_identity : evidence_identity g ≠ replicate 32 0;
  gen_version : evidence_version g ≠ {| version_major := 0; version_minor := 0; version_patch := 0 |};
}.

Lemma validate_generation_ok g : validate_generation g = Ok tt ↔ generation_ok g.
Proof.
  unfold validate_generation, BuildIdentity_new. case_bool_decide as Hi; simpl.
  { split; [done|]. by intros [? _]. }
  rewrite guard_ok. destruct (evidence_version g) as [a b c] eqn:Hv. simpl.
  split.
  - intros [Hz _]. split; [done|]. rewrite Hv. intros [= -> -> ->]. discriminate Hz.
  - intros [_ Hn]. split; [|done]. rewrite Hv in Hn. apply not_true_is_false.
    rewrite !andb_true_iff, !Z.eqb_eq. intros [[-> ->] ->]. done.
Qed.

(** A packaged executable and its sealed copy: a regular file of root that
    nobody else may write and somebody may run, and a copy of the same bytes in
    another file that cannot change. *)
Record image_ok (i : ManifestExecutableImage) : Prop := {
  img_identified : Forall (λ n, n ≠ 0) [source_device i; source_inode i; snapshot_device i; snapshot_inode i];
  img_owner : source_owner_uid i = PACKAGED_OWNER_UID;
  img_regular : Z.land (source_mode i) UNIX_FILE_TYPE_MASK = UNIX_REGULAR_FILE;
  img_executable : Z.land (source_mode i) 0x49 ≠ 0;
  img_unwritable : Z.land (source_mode i) 0x12 = 0;
  img_size : source_size i ≠ 0 ∧ source_size i ≤ MAX_EXECUTABLE_SNAPSHOT_BYTES;
  img_copied : source_size i = snapshot_size i ∧ source_sha256 i = snapshot_sha256 i;
  img_hashed : source_sha256 i ≠ replicate 32 0;
  img_distinct : (source_device i, source_inode i) ≠ (snapshot_device i, snapshot_inode i);
  img_sealed : Z.land (snapshot_seals i) REQUIRED_EXECUTABLE_SEALS = REQUIRED_EXECUTABLE_SEALS;
}.

Lemma validate_image_ok i : validate_executable_image i = Ok tt ↔ image_ok i.
Proof.
  unfold validate_executable_image. rewrite guard_ok. decide_conditions. split.
  - intros [H _]. destruct_and? H. split; [by rewrite !Forall_cons, Forall_nil|try done..].
    intros [= ? ?]. destruct_or?; congruence.
  - intros [Hid ? ? ? ? [] [] ? ? ?]. rewrite !Forall_cons, Forall_nil in Hid. destruct_and? Hid.
    split; [|done]. split_and!; try done.
    destruct (decide (source_device i = snapshot_device i)); [right|by left]. congruence.
Qed.

Record executables_ok (p : ManifestExecutablePair) : Prop := {
  exe_generation : generation_ok (image_generation p);
  exe_daemon : image_ok (image_daemon p);
  exe_client : image_ok (image_client p);
  exe_distinct : (snapshot_device (image_daemon p), snapshot_inode (image_daemon p))
    ≠ (snapshot_device (image_client p), snapshot_inode (image_client p));
}.

Lemma outcome_unit {E} (r : outcome E unit) (P : Prop) k :
  (r = Ok tt ↔ P) → obind r (λ _, k) = Ok tt ↔ P ∧ k = Ok tt.
Proof. intros H. rewrite obind_ok. split; [intros ([] & ? & ?)|]; naive_solver. Qed.

Lemma validate_executables_ok p : validate_executable_pair p = Ok tt ↔ executables_ok p.
Proof.
  unfold validate_executable_pair. rewrite (outcome_unit _ _ _ (validate_generation_ok _)),
    (outcome_unit _ _ _ (validate_image_ok _)), (outcome_unit _ _ _ (validate_image_ok _)), guard_ok.
  decide_conditions. split.
  - intros (? & ? & ? & Hd & _). split; [done..|]. intros [= ? ?]. naive_solver.
  - intros [? ? ? Hd]. split_and!; [done..| |done].
    destruct (decide (snapshot_device (image_daemon p) = snapshot_device (image_client p))); [right|by left]. congruence.
Qed.

(** ** Windows *)

Record window_ok (w : ManifestWindow) : Prop := {
  win_process : is_linux_pid (window_pid w) = true;
  win_started : start_time w ≠ 0;
  win_client : client_device w ≠ 0 ∧ client_inode w ≠ 0;
  win_connections : old_connections w ≠ [] ∧ 0 ∉ old_connections w;
}.

(** The controller of a Splint, by Window and connection. *)
Definition lease (s : ManifestSplint) : option (Z * Z) :=
  match controller s with HeldBy window connection => Some (window, connection) | Released => None end.

(** Windows of their own index below [count], process and connections, and every
    lease is of a connection of its Window and of no other Splint. *)
Record windows_ok (count : Z) (leases : list (Z * Z)) (ws : list ManifestWindow) : Prop := {
  wins_each : Forall window_ok ws;
  wins_below : Forall (λ w, window_index w < count) ws;
  wins_indices : NoDup (window_index <$> ws);
  wins_processes : NoDup (window_pid <$> ws);
  wins_connections : NoDup (ws ≫= old_connections);
  wins_leases : Forall (λ l, ∃ w, w ∈ ws ∧ window_index w = l.1 ∧ l.2 ∈ old_connections w) leases;
  wins_exclusive : NoDup (leases.*2);
}.

Lemma insert_connections_ok cs seen seen' :
  insert_connections cs seen = Some seen' ↔ 0 ∉ cs ∧ fresh cs seen ∧ seen' = reverse cs ++ seen.
Proof.
  revert seen. induction cs as [|c cs IH]; intros seen; simpl.
  { split; [intros [= <-]; split_and!; [set_solver|apply fresh_nil|done]|naive_solver]. }
  rewrite fresh_cons, reverse_cons, <-app_assoc, not_elem_of_cons. simpl.
  destruct (negb (c =? 0) && negb (bool_decide (c ∈ seen))) eqn:Hc.
  - apply andb_true_iff in Hc as [?%negb_true_iff%Z.eqb_neq ?%negb_true_iff%bool_decide_eq_false].
    rewrite IH. naive_solver.
  - split; [done|]. intros ([? _] & [? _] & _). exfalso. apply not_true_iff_false in Hc. apply Hc.
    rewrite andb_true_iff, !negb_true_iff, Z.eqb_neq, bool_decide_eq_false. naive_solver.
Qed.

Lemma check_windows_ok count indices pids connections ws :
  check_windows count indices pids connections ws = Ok tt ↔
  Forall window_ok ws ∧ Forall (λ w, window_index w < count) ws ∧ fresh (window_index <$> ws) indices
  ∧ fresh (window_pid <$> ws) pids ∧ fresh (ws ≫= old_connections) connections.
Proof.
  revert indices pids connections. induction ws as [|w ws IH]; intros indices pids connections; simpl.
  { split; [|done]. intros _. split_and!; by try apply fresh_nil. }
  rewrite guard_ok, !fresh_cons, !Forall_cons, fresh_app. decide_conditions. split.
  - intros [H Hrest]. destruct (insert_connections (old_connections w) connections) as [cs|] eqn:Hc; [|done].
    apply insert_connections_ok in Hc as (? & ? & ->). apply IH in Hrest. destruct_and? H. by destruct_and? Hrest.
  - intros ([[Hp Hs [Hd Hi] [Hne H0]] ?] & [? ?] & [? ?] & [? ?] & Hf & ?).
    split; [by split_and!|]. erewrite (proj2 (insert_connections_ok _ _ _)) by done. by apply IH.
Qed.

Lemma bad_lease_ok m leases ss :
  bad_lease m leases ss = false ↔
  Forall (λ l, ∃ w, w ∈ windows m ∧ window_index w = l.1 ∧ l.2 ∈ old_connections w) (omap lease ss)
  ∧ fresh ((omap lease ss).*2) leases.
Proof.
  revert leases. induction ss as [|s ss IH]; intros leases; simpl.
  { split; [intros _|done]. split; [constructor|apply fresh_nil]. }
  destruct (lease s) as [l|] eqn:Hl; unfold lease in Hl; destruct (controller s) as [|window connection];
    simplify_eq; [|apply IH]. change (list_omap _ _ lease ss) with (omap lease ss).
  rewrite fmap_cons, Forall_cons, fresh_cons, !orb_false_iff, negb_false_iff, IH, bool_decide_eq_false.
  assert (held m window connection = true ↔
    ∃ w, w ∈ windows m ∧ window_index w = window ∧ connection ∈ old_connections w) as ->.
  { unfold held. rewrite (existsb_Exists _ (λ w, window_index w = window ∧ connection ∈ old_connections w)).
    - by rewrite Exists_exists.
    - intros w. simpl. by rewrite andb_true_iff, Z.eqb_eq, bool_decide_eq_true. }
  simpl. tauto.
Qed.

Lemma validate_windows_ok m :
  validate_windows m = Ok tt ↔
  windows_ok (Z.of_nat (length (windows m))) (omap lease (splints m)) (windows m).
Proof.
  unfold validate_windows. rewrite (outcome_unit _ _ _ (check_windows_ok _ _ _ _ _)), guard_ok, bad_lease_ok, !fresh_empty.
  split; [|by intros []]. intros ((? & ? & ? & ? & ?) & (? & ?) & _). by split.
Qed.

(** ** Descriptors *)

(** Every slot and descriptor once, and exactly the slots the rest refers to. *)
Record descriptors_ok (expected : list HandoffDescriptorSlot) (ds : list ManifestDescriptor) : Prop := {
  desc_numbers : Forall (λ d, 3 ≤ inherited_fd d ≤ MAX_INHERITED_FD) ds;
  desc_slots : NoDup (slot <$> ds);
  desc_fds : NoDup (inherited_fd <$> ds);
  desc_exact : ∀ s, s ∈ slot <$> ds ↔ s ∈ expected;
}.

Lemma check_descriptors_ok slots fds ds slots' :
  check_descriptors slots fds ds = Ok slots' ↔
  (Forall (λ d, 3 ≤ inherited_fd d ≤ MAX_INHERITED_FD) ds ∧ fresh (slot <$> ds) slots ∧ fresh (inherited_fd <$> ds) fds)
  ∧ slots' = reverse (slot <$> ds) ++ slots.
Proof.
  revert slots fds. induction ds as [|d ds IH]; intros slots fds; simpl.
  { split; [intros [= <-]|naive_solver]. by split_and!; try apply fresh_nil. }
  rewrite guard_ok, IH, Forall_cons, !fresh_cons, reverse_cons, <-app_assoc. decide_conditions. simpl. tauto.
Qed.

Lemma same_set_ok a b : same_set a b = true ↔ ∀ x, x ∈ a ↔ x ∈ b.
Proof.
  unfold same_set. rewrite andb_true_iff,
    (forallb_Forall _ (λ x, x ∈ b)), (forallb_Forall _ (λ x, x ∈ a)), !Forall_forall by (intros; by rewrite bool_decide_eq_true).
  naive_solver.
Qed.

Lemma validate_descriptors_ok m :
  validate_descriptors m = Ok tt ↔ descriptors_ok (expected_slots m) (descriptors m).
Proof.
  unfold validate_descriptors. rewrite obind_ok. split.
  - intros (slots & ((? & ?%fresh_empty & ?%fresh_empty) & ->)%check_descriptors_ok & (Hx & _)%guard_ok).
    rewrite negb_false_iff, same_set_ok, app_nil_r in Hx. split; [done..|]. intros s. rewrite <-Hx. set_solver.
  - intros [? ? ? Hx]. exists (reverse (slot <$> descriptors m) ++ []). rewrite check_descriptors_ok, !fresh_empty, guard_ok,
      negb_false_iff, same_set_ok, app_nil_r. split_and!; try done. intros s. rewrite <-Hx. set_solver.
Qed.

(** ** Splints *)

(** Every Dojo in one Lair, also in those [lairs] knows. *)
Definition agrees (ms : list (Z * Z)) (lairs : gmap Z Z) : Prop :=
  (∀ d l l', (d, l) ∈ ms → lairs !! d = Some l' → l' = l) ∧
  (∀ d l l', (d, l) ∈ ms → (d, l') ∈ ms → l = l').

Definition insert_lairs (lairs : gmap Z Z) (ms : list (Z * Z)) : gmap Z Z :=
  foldl (λ lairs m, <[m.1 := m.2]> lairs) lairs ms.

Lemma agrees_cons d l ms lairs :
  agrees ((d, l) :: ms) lairs ↔ (∀ l', lairs !! d = Some l' → l' = l) ∧ agrees ms (<[d := l]> lairs).
Proof.
  unfold agrees. setoid_rewrite elem_of_cons. setoid_rewrite lookup_insert_Some. split.
  - intros [Hl Hp]. split_and!; [naive_solver| |naive_solver].
    intros d' l1 l2 Hin [[<- <-]|[? ?]]; naive_solver.
  - intros (Hd & Hl & Hp). split.
    + intros d' l1 l2 [[= -> ->]|Hin]; [eauto|]. intros Hlook. destruct (decide (d = d')) as [->|].
      * rewrite (Hd _ Hlook). eauto.
      * eapply Hl; eauto.
    + intros d' l1 l2 [[= -> ->]|?] [[= ->]|?]; eauto. symmetry. eauto.
Qed.

Lemma agrees_app ms ms' lairs : agrees (ms ++ ms') lairs ↔ agrees ms lairs ∧ agrees ms' (insert_lairs lairs ms).
Proof.
  revert lairs. induction ms as [|[d l] ms IH]; intros lairs; simpl.
  - unfold agrees at 2. split; [|tauto]. intros. split; [split; set_solver|done].
  - rewrite !agrees_cons, IH. simpl. tauto.
Qed.

Lemma agrees_empty ms : agrees ms ∅ ↔ ∀ d l l', (d, l) ∈ ms → (d, l') ∈ ms → l = l'.
Proof. unfold agrees. setoid_rewrite lookup_empty. naive_solver. Qed.

(** The runtime of a carried Splint: a live session leader on a terminal of some
    size, whose checkpoint is a descriptor and whose images are in it, or, before
    schema 2, in a descriptor of their own. *)
Record splint_ok (schema : Z) (s : ManifestSplint) : Prop := {
  spl_incarnation : incarnation s ≠ 0;
  spl_process : is_linux_pid (pty_child_pid (pty s)) = true;
  spl_leader : pty_process_group (pty s) = pty_child_pid (pty s) ∧ pty_session_id (pty s) = pty_child_pid (pty s);
  spl_size : pty_columns (pty_size s) ≠ 0 ∧ pty_rows (pty_size s) ≠ 0;
  spl_history : history_generation s ≠ 0;
  spl_running : splint_exit s = Running;
  spl_foreground : ∀ g, foreground_process_group s = Some g → is_linux_pid g = true;
  spl_checkpoint : ∃ i, terminal_checkpoint s = Descriptor i;
  spl_image : image_state s = NotPresent ∨ ∃ i, image_state s = Descriptor i ∧ schema ≠ TERMINAL_CHECKPOINT_SCHEMA_V2;
}.

Record excluded_ok (e : ManifestExcludedSplint) : Prop := {
  exc_incarnation : excluded_incarnation e ≠ 0;
  exc_process : is_linux_pid (child_pid e) = true;
  exc_exit : ∀ x, process_exit e = Some x → exit_is_valid x = true;
}.

Definition body_slot (b : BodyDisposition) : option Z := match b with Descriptor i => Some i | _ => None end.

(** The Dojo and Lair of every record. *)
Definition splint_member (s : ManifestSplint) : Z * Z := (splint_dojo s, splint_lair s).
Definition excluded_member (e : ManifestExcludedSplint) : Z * Z := (excluded_dojo e, excluded_lair e).

Definition splint_pid (s : ManifestSplint) : Z := pty_child_pid (pty s).

(** Carried and excluded Splints share identities and processes, and no two use
    the same slot. *)
Record splints_ok (schema : Z) (ss : list ManifestSplint) (es : list ManifestExcludedSplint) : Prop := {
  spls_each : Forall (splint_ok schema) ss;
  spls_excluded : Forall excluded_ok es;
  spls_ids : NoDup ((splint_id <$> ss) ++ (excluded_id <$> es));
  spls_pids : NoDup ((splint_pid <$> ss) ++ (child_pid <$> es));
  spls_lairs : ∀ d l l', (d, l) ∈ (splint_member <$> ss) ++ (excluded_member <$> es) →
    (d, l') ∈ (splint_member <$> ss) ++ (excluded_member <$> es) → l = l';
  spls_masters : NoDup ((λ s, master_slot (pty s)) <$> ss);
  spls_checkpoints : NoDup (omap (body_slot ∘ terminal_checkpoint) ss);
  spls_images : NoDup (omap (body_slot ∘ image_state) ss);
}.

(** What a step of the loops requires and adds. *)
Definition identity_passes (s : SplintSets) (m : Z * Z) (id pid : Z) : Prop :=
  id ∉ splint_ids s ∧ pid ∉ child_pids s ∧ ∀ l, dojo_lairs s !! m.1 = Some l → l = m.2.

Definition add_identity (s : SplintSets) (m : Z * Z) (id pid : Z) : SplintSets :=
  {| splint_ids := id :: splint_ids s; child_pids := pid :: child_pids s;
     dojo_lairs := <[m.1 := m.2]> (dojo_lairs s);
     seen_lairs := hs_insert m.2 (seen_lairs s); seen_dojos := hs_insert m.1 (seen_dojos s);
     pty_slots := pty_slots s; checkpoint_slots := checkpoint_slots s; image_slots := image_slots s |}.

Lemma check_identity_ok s lair dojo id pid s' :
  check_identity s lair dojo id pid = Ok s' ↔
  identity_passes s (dojo, lair) id pid ∧ s' = add_identity s (dojo, lair) id pid.
Proof.
  unfold check_identity, identity_passes. rewrite guard_ok. decide_conditions. simpl.
  destruct (dojo_lairs s !! dojo) as [other|]; [rewrite negb_false_iff, Z.eqb_eq|]; naive_solver.
Qed.

Definition excluded_passes (s : SplintSets) (e : ManifestExcludedSplint) : Prop :=
  identity_passes s (excluded_member e) (excluded_id e) (child_pid e) ∧ excluded_ok e.

Definition add_excluded (s : SplintSets) (e : ManifestExcludedSplint) : SplintSets :=
  add_identity s (excluded_member e) (excluded_id e) (child_pid e).

Lemma check_excluded_ok s e s' : check_excluded s e = Ok s' ↔ excluded_passes s e ∧ s' = add_excluded s e.
Proof.
  unfold check_excluded, excluded_passes. rewrite obind_ok. split.
  - intros (s1 & [Hp ->]%check_identity_ok & [Hc [= <-]]%guard_ok). revert Hc. decide_conditions. intros [[? ?] Hx].
    split_and!; [done| |done]. split; [done..|]. intros x Hx'. rewrite Hx' in Hx. by apply negb_false_iff in Hx.
  - intros [[Hp [? ? Hx]] ->]. eexists. rewrite check_identity_ok, guard_ok. decide_conditions. split_and!; try done.
    destruct (process_exit e) as [x|]; [|done]. by rewrite Hx.
Qed.

Lemma bad_runtime_ok schema s :
  bad_runtime s = false ∧ (∃ i, terminal_checkpoint s = Descriptor i) ∧
  (image_state s = NotPresent ∨ ∃ i, image_state s = Descriptor i ∧ schema ≠ TERMINAL_CHECKPOINT_SCHEMA_V2)
  ↔ splint_ok schema s.
Proof.
  unfold bad_runtime. decide_conditions. split.
  - intros ([H Hf] & ? & ?). destruct_and? H. split; try done. intros g Hg. rewrite Hg in Hf. by apply negb_false_iff in Hf.
  - intros [? ? [] [] ? ? Hg ? ?]. split_and!; try done. destruct (foreground_process_group s) as [g|]; [|done]. by rewrite Hg.
Qed.

(** The slots of one kind a list of bodies names. *)
Definition body_slots (f : Z → HandoffDescriptorSlot) (b : BodyDisposition) : list HandoffDescriptorSlot :=
  match b with Descriptor i => [f i] | _ => [] end.

Definition pty_slot (s : ManifestSplint) : HandoffDescriptorSlot := PtyMaster (master_slot (pty s)).

Record splint_passes (schema : Z) (ds : list HandoffDescriptorSlot) (s : SplintSets) (x : ManifestSplint) : Prop := {
  pass_identity : identity_passes s (splint_member x) (splint_id x) (splint_pid x);
  pass_ok : splint_ok schema x;
  pass_pty : pty_slot x ∉ pty_slots s;
  pass_checkpoint : fresh (body_slots TerminalCheckpointSlot (terminal_checkpoint x)) (checkpoint_slots s);
  pass_image : fresh (body_slots ImageState (image_state x)) (image_slots s);
  pass_slots : splint_slots x ⊆ ds;
}.

Definition add_splint (s : SplintSets) (x : ManifestSplint) : SplintSets :=
  let s := add_identity s (splint_member x) (splint_id x) (splint_pid x) in
  {| splint_ids := splint_ids s; child_pids := child_pids s; dojo_lairs := dojo_lairs s;
     seen_lairs := seen_lairs s; seen_dojos := seen_dojos s;
     pty_slots := pty_slot x :: pty_slots s;
     checkpoint_slots := body_slots TerminalCheckpointSlot (terminal_checkpoint x) ++ checkpoint_slots s;
     image_slots := body_slots ImageState (image_state x) ++ image_slots s |}.

Lemma slot_refused_ok x slots ds : slot_refused x slots ds = false ↔ x ∉ slots ∧ x ∈ ds.
Proof. unfold slot_refused. by decide_conditions. Qed.

Lemma fresh_singleton {A} (x : A) s : fresh [x] s ↔ x ∉ s.
Proof. rewrite fresh_cons. pose proof (fresh_nil (x :: s)). tauto. Qed.

Lemma check_image_ok schema ds slots b slots' :
  check_image_state schema ds slots b = Ok slots' ↔
  (b = NotPresent ∨ ∃ i, b = Descriptor i ∧ schema ≠ TERMINAL_CHECKPOINT_SCHEMA_V2) ∧
  fresh (body_slots ImageState b) slots ∧ body_slots ImageState b ⊆ ds ∧ slots' = body_slots ImageState b ++ slots.
Proof.
  unfold check_image_state. destruct b as [i| |]; simpl.
  - rewrite !guard_ok, slot_refused_ok, Z.eqb_neq, fresh_singleton. split.
    + intros (? & [? ?] & [= <-]). split_and!; [right; eauto|done|set_solver|done].
    + intros ([?|(? & [= <-] & ?)] & ? & ? & ->); [done|]. split_and!; set_solver.
  - pose proof (fresh_nil slots). split; [intros [= <-]; split_and!; [by left|done|set_solver|done]|naive_solver].
  - split; [done|]. intros [[?|(? & ? & _)] _]; done.
Qed.

Lemma check_splint_ok schema ds s x s' :
  check_splint schema ds s x = Ok s' ↔ splint_passes schema ds s x ∧ s' = add_splint s x.
Proof.
  unfold check_splint. rewrite obind_ok. split.
  - intros (s1 & [Hid ->]%check_identity_ok & [Hpty Hrest]%guard_ok).
    apply slot_refused_ok in Hpty as [? ?]. destruct (terminal_checkpoint x) as [i| |] eqn:Hc; [|done..].
    apply guard_ok in Hrest as [[? ?]%slot_refused_ok (imgs & (Himg & ? & ? & ->)%check_image_ok & Hr)%obind_ok].
    apply guard_ok in Hr as [Hr [= <-]]. split; [|unfold add_splint; rewrite Hc; done].
    split; [done|apply bad_runtime_ok; eauto|done|rewrite Hc; by apply fresh_singleton|done|].
    unfold splint_slots. rewrite Hc. set_solver.
  - intros [[Hid Hok Hpty Hc Hi Hds] ->]. eexists. rewrite check_identity_ok. split; [done|].
    apply bad_runtime_ok in Hok as (Hr & [i Ht] & Himg). unfold splint_slots in Hds. rewrite Ht in *. simpl in Hds.
    apply fresh_singleton in Hc. rewrite guard_ok, slot_refused_ok. split; [set_solver|].
    rewrite guard_ok, slot_refused_ok. split; [set_solver|]. rewrite obind_ok.
    exists (body_slots ImageState (image_state x) ++ image_slots s). rewrite check_image_ok. split; [set_solver|].
    rewrite Hr. unfold add_splint. rewrite Ht. done.
Qed.

(** What a whole loop requires. *)
Lemma splints_pass schema ds s l :
  passes (splint_passes schema ds) add_splint s l ↔
  Forall (splint_ok schema) l ∧ fresh (splint_id <$> l) (splint_ids s) ∧ fresh (splint_pid <$> l) (child_pids s)
  ∧ agrees (splint_member <$> l) (dojo_lairs s) ∧ fresh (pty_slot <$> l) (pty_slots s)
  ∧ fresh (l ≫= body_slots TerminalCheckpointSlot ∘ terminal_checkpoint) (checkpoint_slots s)
  ∧ fresh (l ≫= body_slots ImageState ∘ image_state) (image_slots s) ∧ (l ≫= splint_slots) ⊆ ds.
Proof.
  revert s. induction l as [|x l IH]; intros s; cbn [passes].
  { split; [|done]. intros _. split_and!; try apply fresh_nil; [constructor| |set_solver]. split; set_solver. }
  rewrite IH, !fmap_cons, !bind_cons, Forall_cons, !fresh_cons, !fresh_app, list_subseteq_app_iff_l.
  unfold splint_member at 2. rewrite agrees_cons. cbn -[reverse].
  assert (∀ b : BodyDisposition, ∀ f, reverse (body_slots f b) = body_slots f b) as Hrev by (by intros []).
  unfold compose. rewrite !Hrev. split.
  - intros [[[? [? ?]] ? ? ? ? ?] ?]. tauto.
  - intros H. destruct_and? H. split; [|tauto]. split; [split; [done|split; done]|done..].
Qed.

Lemma excluded_pass s l :
  passes excluded_passes add_excluded s l ↔
  Forall excluded_ok l ∧ fresh (excluded_id <$> l) (splint_ids s) ∧ fresh (child_pid <$> l) (child_pids s)
  ∧ agrees (excluded_member <$> l) (dojo_lairs s).
Proof.
  revert s. induction l as [|x l IH]; intros s; cbn [passes].
  { split; [|done]. intros _. split_and!; try apply fresh_nil; [constructor|]. split; set_solver. }
  rewrite IH, !fmap_cons, Forall_cons, !fresh_cons. unfold excluded_member at 2. rewrite agrees_cons.
  unfold excluded_passes, identity_passes. cbn. tauto.
Qed.

(** What the loops leave in the sets. *)
Lemma foldl_splints s l :
  let s' := foldl add_splint s l in
  splint_ids s' = reverse (splint_id <$> l) ++ splint_ids s ∧
  child_pids s' = reverse (splint_pid <$> l) ++ child_pids s ∧
  dojo_lairs s' = insert_lairs (dojo_lairs s) (splint_member <$> l) ∧
  (length (seen_lairs s') ≤ length (seen_lairs s) + length l)%nat ∧
  (length (seen_dojos s') ≤ length (seen_dojos s) + length l)%nat.
Proof.
  revert s. induction l as [|x l IH]; intros s; cbn [foldl]; [simpl; split_and!; [done..|lia|lia]|].
  destruct (IH (add_splint s x)) as (-> & -> & -> & Hl & Hd). rewrite !fmap_cons, !reverse_cons, <-!app_assoc.
  split_and!; [done..| |]; (etrans; [eassumption|]); simpl;
    [pose proof (hs_insert_length (splint_lair x) (seen_lairs s))|pose proof (hs_insert_length (splint_dojo x) (seen_dojos s))]; lia.
Qed.

Lemma foldl_excluded s l :
  let s' := foldl add_excluded s l in
  (length (seen_lairs s') ≤ length (seen_lairs s) + length l)%nat ∧
  (length (seen_dojos s') ≤ length (seen_dojos s) + length l)%nat.
Proof.
  revert s. induction l as [|x l IH]; intros s; cbn [foldl]; [simpl; lia|].
  destruct (IH (add_excluded s x)) as (Hl & Hd).
  split; (etrans; [eassumption|]); simpl;
    [pose proof (hs_insert_length (excluded_lair x) (seen_lairs s))|pose proof (hs_insert_length (excluded_dojo x) (seen_dojos s))]; lia.
Qed.

Lemma body_slots_NoDup f (g : ManifestSplint → BodyDisposition) l :
  Inj (=) (=) f → NoDup (l ≫= body_slots f ∘ g) ↔ NoDup (omap (body_slot ∘ g) l).
Proof.
  intros Hf. assert ((l ≫= body_slots f ∘ g) = f <$> omap (body_slot ∘ g) l) as ->.
  { induction l as [|x l IH]; [done|]. rewrite bind_cons, IH. cbn. by destruct (g x). }
  by apply NoDup_fmap.
Qed.

Lemma pty_slots_NoDup l : NoDup (pty_slot <$> l) ↔ NoDup ((λ s, master_slot (pty s)) <$> l).
Proof.
  change (pty_slot <$> l) with ((λ s, PtyMaster ((λ s, master_slot (pty s)) s)) <$> l).
  rewrite (list_fmap_compose (λ s, master_slot (pty s)) PtyMaster). apply NoDup_fmap. intros ? ? [=]. done.
Qed.

(** Within the bounds of the collections, the bound on Lairs and Dojos holds. *)
Lemma validate_splints_ok m :
  descriptors_ok (expected_slots m) (descriptors m) → bad_bounds m = false →
  validate_splints m = Ok tt ↔ splints_ok (terminal_checkpoint_schema m) (splints m) (excluded_splints m).
Proof.
  intros [_ _ _ Hex] Hb. unfold validate_splints. rewrite obind_ok.
  set (ss := splints m). set (es := excluded_splints m).
  destruct (foldl_splints no_splints ss) as (Hids & Hpids & Hlairs & Hl1 & Hd1).
  destruct (foldl_excluded (foldl add_splint no_splints ss) es) as (Hl2 & Hd2).
  assert ((ss ≫= splint_slots) ⊆ (slot <$> descriptors m)) as Hsub.
  { intros s Hs. apply Hex. unfold expected_slots. set_solver. }
  assert ((length ss + length es ≤ 256)%nat) as Hn.
  { revert Hb. unfold bad_bounds. decide_conditions. unfold MAX_MANIFEST_SPLINTS, MAX_LIVE_SPLINTS. intros Hb. destruct_and? Hb. unfold ss, es. lia. }
  trans (passes (splint_passes (terminal_checkpoint_schema m) (slot <$> descriptors m)) add_splint no_splints ss
    ∧ passes excluded_passes add_excluded (foldl add_splint no_splints ss) es).
  - split.
    + intros (s1 & [Hp ->]%(try_fold_ok _ _ _ _ _ _ (check_splint_ok _ _)) & Hr).
      apply obind_ok in Hr as (s2 & [Hp2 ->]%(try_fold_ok _ _ _ _ _ _ check_excluded_ok) & _). done.
    + intros [Hp1 Hp2]. eexists. rewrite (try_fold_ok _ _ _ _ _ _ (check_splint_ok _ _)). split; [done|].
      rewrite obind_ok. eexists. rewrite (try_fold_ok _ _ _ _ _ _ check_excluded_ok). split; [done|].
      rewrite guard_ok. decide_conditions. unfold MAX_MANIFEST_LAIRS, MAX_MANIFEST_DOJOS, MAX_MANIFEST_SPLINTS, MAX_LIVE_SPLINTS.
      simpl in Hl1, Hd1. split; [lia|done].
  - rewrite splints_pass, excluded_pass, Hids, Hpids, Hlairs. cbn -[reverse].
    pose proof (fresh_app (splint_id <$> ss) (excluded_id <$> es) []) as Fi.
    pose proof (fresh_app (splint_pid <$> ss) (child_pid <$> es) []) as Fp.
    pose proof (agrees_app (splint_member <$> ss) (excluded_member <$> es) ∅) as Fa.
    rewrite fresh_empty in Fi, Fp. rewrite agrees_empty in Fa.
    rewrite !fresh_empty, pty_slots_NoDup, !body_slots_NoDup in * by (intros ? ? [=]; done).
    split.
    + intros [(? & ? & ? & ? & ? & ? & ? & _) (? & ? & ? & ?)]. split; try done; tauto.
    + intros [? ? ? ? ? ? ? ?]. tauto.
Qed.

(** ** Manifests *)

(** The older generation is served, and the newer one is the next. *)
Definition generations_ok (older newer : Z) : Prop := older ≠ 0 ∧ older + 1 ≤ u64_max ∧ newer = older + 1.

Record manifest_ok (m : HandoffManifestV1) : Prop := {
  man_schema : schema m = HANDOFF_MANIFEST_SCHEMA_V1 ∧ descriptor_manifest_schema m = HANDOFF_MANIFEST_SCHEMA_V1;
  man_id : handoff_id m ≠ replicate 16 0;
  man_protocols : private_protocol m ≠ 0 ∧ handoff_protocol m ≠ 0 ∧ terminal_checkpoint_schema m ≠ 0;
  man_source : generation_ok (source_generation m);
  man_target : generation_ok (target_generation m);
  man_upgrade : source_generation m ≠ target_generation m;
  man_served : generations_ok (daemon_generations m).1 (daemon_generations m).2;
  man_prefix : prefix_ok (install_prefix m);
  man_splint_bound : Z.of_nat (length (splints m)) + Z.of_nat (length (excluded_splints m)) ≤ MAX_MANIFEST_SPLINTS;
  man_descriptor_bound : Z.of_nat (length (descriptors m)) ≤ MAX_HANDOFF_DESCRIPTORS;
  man_window_bound : Z.of_nat (length (windows m)) ≤ MAX_MANIFEST_WINDOWS;
  man_connection_bound : Z.of_nat (length (windows m ≫= old_connections)) ≤ MAX_MANIFEST_WINDOW_CONNECTIONS;
  man_forward : executables_ok (evidence_forward (executable_pairs m));
  man_rollback : executables_ok (evidence_rollback (executable_pairs m));
  man_builds : (image_generation (evidence_forward (executable_pairs m)),
                image_generation (evidence_rollback (executable_pairs m))) = pair_generations m;
  man_windows : windows_ok (Z.of_nat (length (windows m))) (omap lease (splints m)) (windows m);
  man_descriptors : descriptors_ok (expected_slots m) (descriptors m);
  man_splints : splints_ok (terminal_checkpoint_schema m) (splints m) (excluded_splints m);
  man_counterpart : counterpart_manifest_slot m =
    match kind m with Forward => RollbackManifest | Rollback => CheckpointManifest end;
}.

Lemma validate_served m :
  validate_daemon_generations m = Ok tt ↔ generations_ok (daemon_generations m).1 (daemon_generations m).2.
Proof.
  unfold validate_daemon_generations, generations_ok, checked_add64. destruct (daemon_generations m) as [older newer].
  simpl. rewrite guard_ok. decide_conditions. destruct (Z.leb_spec (older + 1) u64_max); naive_solver lia.
Qed.

Lemma validate_pairs_ok m :
  validate_executable_pairs m = Ok tt ↔
  executables_ok (evidence_forward (executable_pairs m)) ∧ executables_ok (evidence_rollback (executable_pairs m))
  ∧ (image_generation (evidence_forward (executable_pairs m)),
     image_generation (evidence_rollback (executable_pairs m))) = pair_generations m.
Proof.
  unfold validate_executable_pairs. rewrite !(outcome_unit _ _ _ (validate_executables_ok _)), guard_ok. decide_conditions.
  destruct (pair_generations m). simpl. decide_conditions. rewrite pair_equal_spec. split; [by intros (? & ? & [? ?] & _)|by intros (? & ? & ? & ?)].
Qed.

Lemma connection_count_length ws : connection_count ws = Z.of_nat (length (ws ≫= old_connections)).
Proof. induction ws as [|w ws IH]; [done|]. rewrite bind_cons, length_app. cbn [connection_count foldr]. unfold connection_count in IH. rewrite IH. lia. Qed.

Lemma bad_bounds_ok m :
  bad_bounds m = false ↔
  Z.of_nat (length (splints m)) + Z.of_nat (length (excluded_splints m)) ≤ MAX_MANIFEST_SPLINTS
  ∧ Z.of_nat (length (descriptors m)) ≤ MAX_HANDOFF_DESCRIPTORS
  ∧ Z.of_nat (length (windows m)) ≤ MAX_MANIFEST_WINDOWS
  ∧ Z.of_nat (length (windows m ≫= old_connections)) ≤ MAX_MANIFEST_WINDOW_CONNECTIONS.
Proof. unfold bad_bounds. rewrite connection_count_length. decide_conditions. lia. Qed.

Lemma bad_schema_ok m :
  bad_schema m = false ↔
  (schema m = HANDOFF_MANIFEST_SCHEMA_V1 ∧ descriptor_manifest_schema m = HANDOFF_MANIFEST_SCHEMA_V1)
  ∧ handoff_id m ≠ replicate 16 0
  ∧ (private_protocol m ≠ 0 ∧ handoff_protocol m ≠ 0 ∧ terminal_checkpoint_schema m ≠ 0).
Proof. unfold bad_schema. decide_conditions. tauto. Qed.

Lemma counterpart_ok m :
  match kind m, counterpart_manifest_slot m with
  | Forward, RollbackManifest | Rollback, CheckpointManifest => Ok tt
  | _, _ => Err InvalidDescriptors
  end = Ok tt ↔
  counterpart_manifest_slot m = match kind m with Forward => RollbackManifest | Rollback => CheckpointManifest end.
Proof. destruct (kind m), (counterpart_manifest_slot m); naive_solver. Qed.

(** Validation decides [manifest_ok]. *)
Lemma validate_manifest_ok m : validate_manifest m = Ok tt ↔ manifest_ok m.
Proof.
  unfold validate_manifest.
  rewrite guard_ok, !(outcome_unit _ _ _ (validate_generation_ok _)), guard_ok, (outcome_unit _ _ _ (validate_served _)),
    (outcome_unit _ (prefix_ok (install_prefix m))), guard_ok, (outcome_unit _ _ _ (validate_pairs_ok _)),
    (outcome_unit _ _ _ (validate_windows_ok _)), (outcome_unit _ _ _ (validate_descriptors_ok _)),
    bool_decide_eq_false, bad_schema_ok by (rewrite map_err_ok; apply validate_prefix_ok).
  split.
  - intros ((? & ? & ?) & ? & ? & ? & ? & ? & Hb & (? & ? & ?) & ? & Hd & Hs). pose proof (proj1 (bad_bounds_ok m) Hb) as Hb'.
    apply (outcome_unit _ _ _ (validate_splints_ok m Hd Hb)) in Hs as [? ?%counterpart_ok]. destruct_and? Hb'. by split.
  - intros []. destruct_and?. assert (bad_bounds m = false) by by apply bad_bounds_ok. split_and!; try done.
    by rewrite (outcome_unit _ _ _ (validate_splints_ok m ltac:(done) ltac:(done))), counterpart_ok.
Qed.
