(* ===== verification/ManifestProps.v ===== *)
(** * What a manifest promises

    Validation, canonical order, the pairing of a forward and a rollback manifest
    and the encoding. *)

From S2P Require Import Prelude RustStd Paths Handoff HandoffProps Manifest ManifestInv.

(** ** Manifests up to order *)

(** The same operation: only the order of collections and connections differs. *)
Record same_operation (m m' : HandoffManifestV1) : Prop := {
  same_fields : set_collections m [] [] [] [] = set_collections m' [] [] [] [];
  same_splints : splints m ≡ₚ splints m';
  same_excluded : excluded_splints m ≡ₚ excluded_splints m';
  same_windows : sort_connections <$> windows m ≡ₚ sort_connections <$> windows m';
  same_descriptors : descriptors m ≡ₚ descriptors m';
}.

#[global] Instance same_operation_equivalence : Equivalence same_operation.
Proof.
  split.
  - intros m. by split.
  - intros m m' []. by split; symmetry.
  - intros m1 m2 m3 [] []. split; by etrans.
Qed.

(** Sorting a Window's connections keeps all that is asked of it. *)
Lemma window_ok_sorted w : window_ok (sort_connections w) ↔ window_ok w.
Proof.
  split; intros [? ? ? [Hne H0]]; split; simpl in *; try done.
  - rewrite (sort_by_perm Z.leb) in H0. split; [|done]. intros Hn. apply Hne. by rewrite Hn.
  - split; [|by rewrite (sort_by_perm Z.leb)]. intros Hn. apply Hne.
    apply Permutation_nil_r. rewrite <-Hn. symmetry. apply sort_by_perm.
Qed.

Lemma connections_sorted ws : (sort_connections <$> ws) ≫= old_connections ≡ₚ ws ≫= old_connections.
Proof. induction ws as [|w ws IH]; [done|]. rewrite fmap_cons, !bind_cons, IH. simpl. by rewrite sort_by_perm. Qed.

Lemma windows_ok_sorted count leases ws :
  windows_ok count leases (sort_connections <$> ws) ↔ windows_ok count leases ws.
Proof.
  assert (∀ l : Z * Z, (∃ w, w ∈ sort_connections <$> ws ∧ window_index w = l.1 ∧ l.2 ∈ old_connections w)
    ↔ ∃ w, w ∈ ws ∧ window_index w = l.1 ∧ l.2 ∈ old_connections w) as Hl.
  { intros l. setoid_rewrite list_elem_of_fmap. split.
    - intros (? & (w & -> & Hw) & Hi & Hc). simpl in *. rewrite (sort_by_perm Z.leb) in Hc. eauto.
    - intros (w & Hw & Hi & Hc). exists (sort_connections w). simpl. rewrite (sort_by_perm Z.leb). naive_solver. }
  split; intros [He Hb Hi Hp Hc Hle Hx]; split;
    rewrite ?connections_sorted, ?Forall_fmap, <-?list_fmap_compose in *; try done;
    try (eapply Forall_impl; [exact He|]; intros w; simpl; apply window_ok_sorted);
    (eapply Forall_impl; [exact Hle|]; intros l; simpl; apply Hl).
Qed.

#[global] Instance windows_ok_proper : Proper ((=) ==> (≡ₚ) ==> (≡ₚ) ==> iff) windows_ok.
Proof.
  assert (∀ count leases leases' ws ws', leases ≡ₚ leases' → ws ≡ₚ ws' →
    windows_ok count leases ws → windows_ok count leases' ws') as H.
  { intros count leases leases' ws ws' Hl Hw [He Hb Hi Hp Hc Hle Hx]. split; rewrite <-?Hw, <-?Hl; try done.
    eapply Forall_impl; [exact Hle|]. intros l. simpl. by setoid_rewrite Hw. }
  intros count ? <- leases leases' Hl ws ws' Hw. split; by apply H.
Qed.

#[global] Instance descriptors_ok_proper : Proper ((≡ₚ) ==> (≡ₚ) ==> iff) descriptors_ok.
Proof.
  assert (∀ e e' ds ds', e ≡ₚ e' → ds ≡ₚ ds' → descriptors_ok e ds → descriptors_ok e' ds') as H.
  { intros e e' ds ds' He Hd [? ? ? Hx]. split; rewrite <-?Hd; try done. intros s. by rewrite <-Hd, <-He. }
  intros e e' He ds ds' Hd. split; by apply H.
Qed.

#[global] Instance splints_ok_proper : Proper ((=) ==> (≡ₚ) ==> (≡ₚ) ==> iff) splints_ok.
Proof.
  assert (∀ v ss ss' es es', ss ≡ₚ ss' → es ≡ₚ es' → splints_ok v ss es → splints_ok v ss' es') as H.
  { intros v ss ss' es es' Hs He [? ? ? ? Hl ? ? ?]. split; rewrite <-?Hs, <-?He; try done.
    intros d l l'. rewrite <-!Hs, <-!He. apply Hl. }
  intros v ? <- ss ss' Hs es es' He. split; by apply H.
Qed.

Lemma expected_same m m' : same_operation m m' → expected_slots m ≡ₚ expected_slots m'.
Proof.
  intros [_ Hs _ Hw _]. unfold expected_slots.
  assert (∀ ws, (sort_connections <$> ws) ≫= window_slots = ws ≫= window_slots) as Hws.
  { induction ws as [|w ws IH]; [done|]. by rewrite fmap_cons, !bind_cons, IH. }
  by rewrite Hs, <-(Hws (windows m)), Hw, Hws.
Qed.

#[global] Instance manifest_ok_proper : Proper (same_operation ==> iff) manifest_ok.
Proof.
  assert (∀ m m', same_operation m m' → manifest_ok m → manifest_ok m') as H.
  { intros m m' Hm. pose proof (expected_same m m' Hm) as Hexp. destruct Hm as [Hf Hs He Hw Hd].
    assert (length (windows m') = length (windows m)) as Hlen by (apply Permutation_length in Hw; by rewrite !length_fmap in Hw).
    destruct m as [], m' as []. unfold set_collections in Hf. simpl in *.
    injection Hf as -> -> -> -> -> -> -> -> -> -> -> -> -> -> -> ->. intros []. split; simpl in *; try done.
    - by rewrite <-Hs, <-He.
    - by rewrite <-Hd.
    - by rewrite Hlen.
    - by rewrite <-connections_sorted, <-Hw, connections_sorted.
    - by rewrite Hlen, <-windows_ok_sorted, <-Hw, <-Hs, windows_ok_sorted.
    - by rewrite <-Hexp, <-Hd.
    - by rewrite <-Hs, <-He. }
  intros m m' Hm. split; by apply H.
Qed.

(** ** Orders *)

Lemma slot_leb_total a b : slot_leb a b = true ∨ slot_leb b a = true.
Proof.
  unfold slot_leb. rewrite !orb_true_iff, !andb_true_iff, !Z.ltb_lt, !Z.eqb_eq, !Z.leb_le. lia.
Qed.

Lemma slot_leb_trans a b c : slot_leb a b = true → slot_leb b c = true → slot_leb a c = true.
Proof.
  unfold slot_leb. rewrite !orb_true_iff, !andb_true_iff, !Z.ltb_lt, !Z.eqb_eq, !Z.leb_le. lia.
Qed.

Lemma slot_leb_antisym a b : slot_leb a b = true → slot_leb b a = true → a = b.
Proof.
  unfold slot_leb. rewrite !orb_true_iff, !andb_true_iff, !Z.ltb_lt, !Z.eqb_eq, !Z.leb_le. intros H1 H2.
  assert ((slot_key a).1 = (slot_key b).1 ∧ (slot_key a).2 = (slot_key b).2) as [E1 E2] by lia.
  destruct a, b; simpl in *; congruence.
Qed.

Lemma key_leb_total a b : key_leb a b = true ∨ key_leb b a = true.
Proof.
  destruct a as [[a1 a2] a3], b as [[b1 b2] b3]. unfold key_leb. repeat case_bool_decide; simplify_eq; simpl;
    rewrite ?orb_false_r; apply str_leb_total.
Qed.

Lemma key_leb_antisym a b : key_leb a b = true → key_leb b a = true → a = b.
Proof.
  destruct a as [[a1 a2] a3], b as [[b1 b2] b3]. unfold key_leb. repeat case_bool_decide; simplify_eq; simpl;
    rewrite ?orb_false_r; intros L1 L2; pose proof (str_leb_antisym _ _ L1 L2); congruence.
Qed.

Lemma key_leb_trans a b c : key_leb a b = true → key_leb b c = true → key_leb a c = true.
Proof.
  destruct a as [[a1 a2] a3], b as [[b1 b2] b3], c as [[c1 c2] c3]. unfold key_leb.
  repeat case_bool_decide; simplify_eq; simpl; rewrite ?orb_false_r; intros L1 L2;
    first [done|by eapply str_leb_trans|exfalso; pose proof (str_leb_antisym _ _ L1 L2); congruence].
Qed.

(** Elements of a list with distinct keys are told apart by them. *)
Lemma key_unique {A B} (f : A → B) l x y : NoDup (f <$> l) → x ∈ l → y ∈ l → f x = f y → x = y.
Proof.
  intros Hd [i Hx]%list_elem_of_lookup [j Hy]%list_elem_of_lookup Hf.
  assert (i = j) as -> by (eapply NoDup_lookup; [exact Hd| |]; rewrite list_lookup_fmap, ?Hx, ?Hy; simpl; by rewrite ?Hf).
  congruence.
Qed.

(** Sorting by a key, of lists whose keys are distinct. *)
Lemma sort_by_key {A B} (key : A → B) (leb : B → B → bool) l l' :
  (∀ x y, leb x y = true ∨ leb y x = true) → (∀ x y z, leb x y = true → leb y z = true → leb x z = true) →
  (∀ x y, leb x y = true → leb y x = true → x = y) → NoDup (key <$> l) → l ≡ₚ l' →
  sort_by (λ a b, leb (key a) (key b)) l = sort_by (λ a b, leb (key a) (key b)) l'.
Proof.
  intros Ht Htr Ha Hd Hp. apply sort_by_unique; [done|eauto|done|]. intros x y Hx Hy H1 H2. eapply key_unique; eauto.
Qed.

Lemma sort_by_fmap {A} (f : A → A) (before : A → A → bool) l :
  (∀ x y, before (f x) (f y) = before x y) → sort_by before (f <$> l) = f <$> sort_by before l.
Proof.
  intros Hf. induction l as [|x l IH]; [done|]. rewrite fmap_cons. unfold sort_by in *. cbn [foldr]. rewrite IH. generalize (foldr (sorted_insert before) [] l).
  intros k. induction k as [|y k IHk]; [done|]. rewrite fmap_cons. cbn [sorted_insert]. rewrite Hf. destruct (before x y); [done|]. by rewrite IHk.
Qed.

Lemma sort_connections_idem w : sort_connections (sort_connections w) = sort_connections w.
Proof.
  unfold sort_connections. simpl. f_equal. apply sort_by_id, sort_by_sorted; intros *; rewrite !Z.leb_le; lia.
Qed.

Lemma canonical_windows_sorted ws :
  canonical_windows ws = sort_by (λ a b, window_index a <=? window_index b) (sort_connections <$> ws).
Proof. unfold canonical_windows. by rewrite sort_by_fmap. Qed.

Section pairs.
Context (uuid_to_string : Z → str).
Abbreviation canonical := (canonical uuid_to_string).

Lemma canonical_same m : same_operation (canonical m) m.
Proof using Type.
  split; simpl; [done|apply sort_by_perm..| |apply sort_by_perm].
  unfold canonical_windows. rewrite <-list_fmap_compose.
  rewrite (list_fmap_ext _ sort_connections) by (intros; apply sort_connections_idem).
  by rewrite sort_by_perm.
Qed.

Lemma canonical_fields m : set_collections (canonical m) [] [] [] [] = set_collections m [] [] [] [].
Proof using Type. done. Qed.

(** A valid manifest is told apart from others by its canonical form. *)
Lemma canonical_unique m m' :
  Inj (=) (=) uuid_to_string → manifest_ok m → same_operation m m' → canonical m = canonical m'.
Proof using Type.
  intros Hinj Hok [Hf Hs He Hw Hd].
  pose proof (man_splints _ Hok) as [_ _ Hids _ _ _ _ _]. apply NoDup_app in Hids as (Hids & _ & Heids).
  assert (sort_splints uuid_to_string (splints m) = sort_splints uuid_to_string (splints m')) as E1.
  { apply (sort_by_key (splint_sort_key uuid_to_string)); [apply key_leb_total|apply key_leb_trans|apply key_leb_antisym| |done].
    apply NoDup_fmap_2_strong; [|by apply NoDup_fmap_1 in Hids]. intros x y Hx Hy [= _ _ Hid].
    apply (inj uuid_to_string) in Hid. by eapply (key_unique splint_id). }
  assert (sort_excluded uuid_to_string (excluded_splints m) = sort_excluded uuid_to_string (excluded_splints m')) as E2.
  { apply (sort_by_key (excluded_splint_sort_key uuid_to_string)); [apply key_leb_total|apply key_leb_trans|apply key_leb_antisym| |done].
    apply NoDup_fmap_2_strong; [|by apply NoDup_fmap_1 in Heids]. intros x y Hx Hy [= _ _ Hid].
    apply (inj uuid_to_string) in Hid. by eapply (key_unique excluded_id). }
  assert (canonical_windows (windows m) = canonical_windows (windows m')) as E3.
  { rewrite !canonical_windows_sorted. apply (sort_by_key window_index Z.leb); [intros *; rewrite ?Z.leb_le; lia..| |done].
    rewrite <-list_fmap_compose. apply (wins_indices _ _ _ (man_windows _ Hok)). }
  assert (sort_descriptors (descriptors m) = sort_descriptors (descriptors m')) as E4.
  { apply (sort_by_key slot); [apply slot_leb_total|apply slot_leb_trans|apply slot_leb_antisym| |done].
    apply (desc_slots _ _ (man_descriptors _ Hok)). }
  unfold Manifest.canonical. rewrite E1, E2, E3, E4. unfold set_collections in *. by injection Hf as -> -> -> -> -> -> -> -> -> -> -> -> -> -> -> ->.
Qed.

(** ** Reversal *)

Definition flip_kind (k : ManifestKind) : ManifestKind := match k with Forward => Rollback | Rollback => Forward end.

Definition manifest_slot (k : ManifestKind) : HandoffDescriptorSlot :=
  match k with Forward => RollbackManifest | Rollback => CheckpointManifest end.

(** The operation backwards: source and target change places. *)
Definition reverse_manifest (m : HandoffManifestV1) : HandoffManifestV1 :=
  {| schema := schema m; kind := flip_kind (kind m); handoff_id := handoff_id m;
     source_generation := target_generation m; target_generation := source_generation m;
     source_daemon_generation := target_daemon_generation m;
     target_daemon_generation := source_daemon_generation m;
     topology_revision := topology_revision m; durable_state_generation := durable_state_generation m;
     private_protocol := private_protocol m; handoff_protocol := handoff_protocol m;
     terminal_checkpoint_schema := terminal_checkpoint_schema m;
     descriptor_manifest_schema := descriptor_manifest_schema m;
     install_prefix := install_prefix m; executable_pairs := executable_pairs m;
     counterpart_manifest_slot := manifest_slot (flip_kind (kind m));
     splints := splints m; excluded_splints := excluded_splints m; windows := windows m;
     descriptors := descriptors m |}.

Lemma reverse_ok m : manifest_ok m → manifest_ok (reverse_manifest m).
Proof using Type.
  intros []. split; simpl; try done.
  - unfold daemon_generations in *. simpl. by destruct (kind m).
  - unfold pair_generations in *. simpl. by destruct (kind m).
Qed.
Lemma sorted_perm {A} (before : A → A → bool) l l' : sort_by before l = sort_by before l' → l ≡ₚ l'.
Proof using Type. intros H. by rewrite <-(sort_by_perm before l), H, sort_by_perm. Qed.

Lemma paired_fields f r :
  manifest_ok f → manifest_ok r → kind f = Forward → kind r = Rollback →
  handoff_id f = handoff_id r → topology_revision f = topology_revision r →
  durable_state_generation f = durable_state_generation r → private_protocol f = private_protocol r →
  handoff_protocol f = handoff_protocol r → terminal_checkpoint_schema f = terminal_checkpoint_schema r →
  source_generation f = target_generation r → target_generation f = source_generation r →
  source_daemon_generation f = target_daemon_generation r → target_daemon_generation f = source_daemon_generation r →
  path_eq (install_prefix f) (install_prefix r) = true → executable_pairs f = executable_pairs r →
  set_collections r [] [] [] [] = set_collections (reverse_manifest f) [] [] [] [].
Proof using Type.
  intros Hf Hr Hkf Hkr. intros. destruct (man_schema _ Hf) as [Hs Hd], (man_schema _ Hr) as [Hs' Hd'].
  pose proof (man_counterpart _ Hr) as Hc. rewrite Hkr in Hc.
  pose proof (proj1 (prefix_path_eq _ _ (man_prefix _ Hf) (man_prefix _ Hr)) ltac:(done)).
  unfold set_collections, reverse_manifest. simpl. rewrite Hkf. simpl. f_equal; congruence.
Qed.

Lemma pair_accepted f r :
  validate_manifest_pair uuid_to_string f r = Ok tt →
  manifest_ok f ∧ kind f = Forward ∧ same_operation r (reverse_manifest f).
Proof using Type.
  unfold validate_manifest_pair. intros ([] & Hf%validate_manifest_ok & H)%obind_ok.
  apply obind_ok in H as ([] & Hr%validate_manifest_ok & [H _]%guard_ok). revert H. decide_conditions. intros H.
  destruct_and? H. split_and!; [done..|]. split; [by apply paired_fields| | | |]; simpl; symmetry.
  - by eapply sorted_perm.
  - by eapply sorted_perm.
  - eapply sorted_perm. by rewrite <-!canonical_windows_sorted.
  - by eapply sorted_perm.
Qed.

Lemma pair_complete f r :
  Inj (=) (=) uuid_to_string → manifest_ok f → kind f = Forward → same_operation r (reverse_manifest f) →
  validate_manifest_pair uuid_to_string f r = Ok tt.
Proof using Type.
  intros Hinj Hf Hk Hs. pose proof (reverse_ok f Hf) as Hrev. assert (manifest_ok r) as Hr by by rewrite Hs.
  pose proof (canonical_unique r _ Hinj Hr Hs) as Hc. unfold Manifest.canonical, set_collections in Hc.
  injection Hc. simpl. rewrite Hk. simpl. intros.
  unfold validate_manifest_pair. rewrite (outcome_unit _ _ _ (validate_manifest_ok f)), (outcome_unit _ _ _ (validate_manifest_ok r)),
    guard_ok. decide_conditions. split_and!; try done. apply (prefix_path_eq _ _ (man_prefix _ Hf) (man_prefix _ Hr)). done.
Qed.
End pairs.

(** ** Roles and Windows *)

Lemma splint_slots_perm ss :
  ss ≫= splint_slots ≡ₚ (pty_slot <$> ss) ++ (ss ≫= body_slots TerminalCheckpointSlot ∘ terminal_checkpoint)
    ++ (ss ≫= body_slots ImageState ∘ image_state).
Proof.
  induction ss as [|s ss IH]; [done|]. rewrite !bind_cons, fmap_cons, IH. unfold splint_slots.
  change (match terminal_checkpoint s with Descriptor i => [TerminalCheckpointSlot i] | _ => [] end)
    with (body_slots TerminalCheckpointSlot (terminal_checkpoint s)).
  change (match image_state s with Descriptor i => [ImageState i] | _ => [] end) with (body_slots ImageState (image_state s)).
  unfold compose. simpl. unfold pty_slot at 2. constructor. solve_Permutation.
Qed.

(** Which kind of role a slot is. *)
Definition slot_rank (s : HandoffDescriptorSlot) : Z := (slot_key s).1.

Lemma bodies_rank f n (g : ManifestSplint → BodyDisposition) ss s :
  (∀ i, slot_rank (f i) = n) → s ∈ (ss ≫= body_slots f ∘ g) → slot_rank s = n.
Proof. intros Hf (x & Hs & _)%list_elem_of_bind. unfold compose in Hs. destruct (g x); set_solver. Qed.

(** Valid records name every slot once. *)
Lemma expected_slots_NoDup m : manifest_ok m → NoDup (expected_slots m).
Proof.
  intros Hok. destruct (man_splints _ Hok) as [_ _ _ _ _ Hm Hc Hi]. pose proof (wins_indices _ _ _ (man_windows _ Hok)) as Hw.
  unfold expected_slots. rewrite splint_slots_perm.
  assert (NoDup (windows m ≫= window_slots)) as Hws.
  { clear -Hw. induction (windows m) as [|w ws IH]; [constructor|]. rewrite bind_cons. rewrite fmap_cons in Hw.
    apply NoDup_cons in Hw as [Hn Hw]. apply NoDup_app. split_and!; [|intros s Hs (w' & Hs' & Hw')%list_elem_of_bind|by apply IH].
    - apply NoDup_cons. split; [set_solver|apply NoDup_singleton].
    - apply Hn. apply list_elem_of_fmap. exists w'. split; [|done]. set_solver. }
  assert (∀ s, s ∈ (windows m ≫= window_slots) → 10 ≤ slot_rank s) as Hr.
  { intros s (w & Hs & _)%list_elem_of_bind. unfold window_slots in Hs.
    rewrite !elem_of_cons, elem_of_nil in Hs. destruct Hs as [->|[->|[]]]; vm_compute; done. }
  assert (∀ s, s ∈ (pty_slot <$> splints m) → slot_rank s = 0) as Hp by (intros s (x & -> & _)%list_elem_of_fmap; done).
  rewrite !NoDup_app. split_and!.
  - unfold global_slots. repeat (apply NoDup_cons; split; [set_solver|]). constructor.
  - intros s Hs. assert (slot_rank s ∈ [1; 2; 3; 4; 7; 8; 9]) as Hk.
    { unfold global_slots in Hs. rewrite !elem_of_cons, elem_of_nil in Hs. by repeat destruct Hs as [->|Hs]; try (vm_compute; set_solver). }
    rewrite !elem_of_app. intros [[H|[H|H]]|H].
    + rewrite (Hp s H) in Hk. set_solver.
    + apply (bodies_rank _ 5) in H; [|done]. rewrite H in Hk. set_solver.
    + apply (bodies_rank _ 6) in H; [|done]. rewrite H in Hk. set_solver.
    + specialize (Hr s H). rewrite !elem_of_cons, elem_of_nil in Hk. lia.
  - by apply pty_slots_NoDup.
  - intros s H1 [H2|H2]%elem_of_app; [apply (bodies_rank _ 5) in H2|apply (bodies_rank _ 6) in H2]; try done;
      rewrite (Hp s H1) in H2; done.
  - by apply body_slots_NoDup; [intros ? ? [=]|].
  - intros s H1 H2. apply (bodies_rank _ 5) in H1; [|done]. apply (bodies_rank _ 6) in H2; [|done]. congruence.
  - by apply body_slots_NoDup; [intros ? ? [=]|].
  - intros s H H'. specialize (Hr s H'). rewrite !elem_of_app in H. destruct H as [H|[H|H]].
    + rewrite (Hp s H) in Hr. lia.
    + apply (bodies_rank _ 5) in H; [|done]. rewrite H in Hr. lia.
    + apply (bodies_rank _ 6) in H; [|done]. rewrite H in Hr. lia.
  - done.
Qed.

(** C23. Validation accepts exactly the manifests that [manifest_ok] describes,
    and in those every role the manifest refers to (the daemon's own, each
    Splint's terminal, checkpoint and images, each Window's process and channel)
    is one descriptor's, no descriptor is without a role, and the Windows'
    indices, which are bytes, are 0, 1, ... without a gap. *)
Theorem manifest_decides m :
  (validate_manifest m = Ok tt ↔ manifest_ok m) ∧
  (validate_manifest m = Ok tt →
    slot <$> descriptors m ≡ₚ expected_slots m ∧
    (Forall (λ w, 0 ≤ window_index w) (windows m) →
      window_index <$> windows m ≡ₚ seqZ 0 (Z.of_nat (length (windows m))))).
Proof.
  split; [apply validate_manifest_ok|]. intros Hok%validate_manifest_ok. split.
  - destruct (man_descriptors _ Hok) as [_ Hd _ Hx]. by apply NoDup_Permutation; [|apply expected_slots_NoDup|].
  - intros H0. destruct (man_windows _ Hok) as [_ Hb Hi _ _ _ _].
    apply submseteq_length_Permutation; [apply NoDup_submseteq; [done|]|].
    + intros i (w & -> & Hw)%list_elem_of_fmap. apply elem_of_seqZ. rewrite Forall_forall in H0, Hb.
      specialize (H0 w Hw). specialize (Hb w Hw). simpl in *. lia.
    + rewrite length_fmap, length_seqZ. lia.
Qed.

(** C11. A forward and a rollback manifest are accepted as a pair exactly when the
    forward one is a valid forward manifest and the other is, up to the order of
    its records, that manifest with source and target exchanged: what one
    prepared, the other undoes. ([Uuid::to_string] is injective.) *)
Theorem pair_decides uuid_to_string `{!Inj (=) (=) uuid_to_string} f r :
  validate_manifest_pair uuid_to_string f r = Ok tt ↔
  manifest_ok f ∧ kind f = Forward ∧ same_operation r (reverse_manifest f).
Proof. split; [apply pair_accepted|]. intros (? & ? & ?). by apply pair_complete. Qed.

(** ** Encoding *)

Section codec.
Context (uuid_to_string : Z → str) `{!Inj (=) (=) uuid_to_string}.
Context (to_vec : HandoffManifestV1 → option (list Z)) (from_slice : list Z → option HandoffManifestV1).
Context (serde : ∀ m bytes, to_vec m = Some bytes → from_slice bytes = Some m).

Abbreviation canonical := (canonical uuid_to_string).
Abbreviation encode := (encode_manifest uuid_to_string to_vec).
Abbreviation decode := (decode_manifest uuid_to_string to_vec from_slice).

Lemma encode_ok m b :
  encode m = Ok b ↔ manifest_ok m ∧ to_vec (canonical m) = Some b ∧ Z.of_nat (length b) ≤ MAX_HANDOFF_MANIFEST_BYTES.
Proof using Type.
  unfold encode_manifest. rewrite obind_ok.
  assert (manifest_ok m ↔ manifest_ok (canonical m)) as -> by by rewrite (canonical_same uuid_to_string m).
  split.
  - intros ([] & Hv%validate_manifest_ok & H). destruct (to_vec (canonical m)) as [b'|]; [|done].
    apply guard_ok in H as [?%Z.ltb_ge [= <-]]. done.
  - intros (Hv & -> & Hlen). exists tt. rewrite validate_manifest_ok. split; [done|]. rewrite (proj2 (Z.ltb_ge _ _)) by done. done.
Qed.

Lemma canonical_idem m : manifest_ok m → canonical (canonical m) = canonical m.
Proof using Inj0.
  intros Hok. apply canonical_unique; [done| |apply canonical_same]. by rewrite (canonical_same uuid_to_string m).
Qed.

Lemma decode_ok b m : decode b = Ok m ↔ canonical m = m ∧ encode m = Ok b.
Proof using All.
  unfold decode_manifest. rewrite guard_ok, Z.ltb_ge. split.
  - intros (Hlen & H). destruct (from_slice b) as [m'|] eqn:Hb; [|done]. apply obind_ok in H as (b' & He & H).
    apply guard_ok in H as [->%decide_not [= ->]]. split; [|done].
    apply encode_ok in He as (_ & Hv & _). apply serde in Hv. congruence.
  - intros [Hc He]. pose proof He as (_ & Hv & Hlen)%encode_ok. rewrite Hc in Hv. split; [done|].
    rewrite (serde _ _ Hv), He. simpl. rewrite bool_decide_eq_false_2; [done|tauto].
Qed.
End codec.

(** C22. Whatever [serde_json] writes it reads back; then encoding a manifest and
    decoding the bytes answers the manifest in canonical order, which is the same
    operation, and every other order of its records is encoded as the same
    bytes. *)
Theorem manifest_round_trip uuid_to_string `{!Inj (=) (=) uuid_to_string} to_vec from_slice m b :
  (∀ m b, to_vec m = Some b → from_slice b = Some m) →
  encode_manifest uuid_to_string to_vec m = Ok b →
  decode_manifest uuid_to_string to_vec from_slice b = Ok (canonical uuid_to_string m) ∧
  same_operation (canonical uuid_to_string m) m ∧
  ∀ m', same_operation m m' → encode_manifest uuid_to_string to_vec m' = Ok b.
Proof.
  intros serde He. pose proof He as (Hok & Hv & Hlen)%encode_ok. split_and!; [|apply canonical_same|].
  - rewrite decode_ok by done. rewrite canonical_idem by done. split; [done|].
    rewrite encode_ok, canonical_idem by done. split; [by rewrite (canonical_same uuid_to_string m)|done].
  - intros m' Hs. rewrite encode_ok, <-(canonical_unique uuid_to_string m m') by done. split; [by rewrite <-Hs|done].
Qed.

(** Decoding accepts only the one canonical spelling of a valid manifest:
    what it answers is valid, in canonical order and encoded as the bytes it came
    from, so that two byte strings never stand for the same operation. *)
Theorem manifest_bytes_unique uuid_to_string `{!Inj (=) (=) uuid_to_string} to_vec from_slice m m' b b' :
  (∀ m b, to_vec m = Some b → from_slice b = Some m) →
  decode_manifest uuid_to_string to_vec from_slice b = Ok m →
  decode_manifest uuid_to_string to_vec from_slice b' = Ok m' →
  (manifest_ok m ∧ canonical uuid_to_string m = m ∧ encode_manifest uuid_to_string to_vec m = Ok b)
  ∧ (same_operation m m' → m = m' ∧ b = b').
Proof.
  intros serde [Hc He]%decode_ok [Hc' He']%decode_ok; [|done..]. pose proof He as (Hok & _)%encode_ok. split; [done|].
  intros Hs. pose proof (canonical_unique uuid_to_string m m' _ Hok Hs). assert (m = m') as -> by congruence. split; congruence.
Qed.

(** ** An example *)

Definition sample_image (n : Z) : ManifestExecutableImage :=
  {| source_device := n; source_inode := n + 10; source_owner_uid := 0; source_mode := Z.lor UNIX_REGULAR_FILE 0x1ED;
     source_size := 1024; source_sha256 := replicate 32 n; snapshot_device := n + 20; snapshot_inode := n + 30;
     snapshot_size := 1024; snapshot_sha256 := replicate 32 n; snapshot_seals := REQUIRED_EXECUTABLE_SEALS |}.

Definition sample_generation (n : Z) : GenerationEvidence :=
  {| evidence_identity := replicate 32 n;
     evidence_version := {| version_major := 0; version_minor := 2; version_patch := n |} |}.

Definition sample_splint (n : Z) (c : ControllerDisposition) : ManifestSplint :=
  {| splint_lair := 1; splint_dojo := 1; splint_id := n; incarnation := 1;
     pty := {| pty_child_pid := 40 + n; pty_process_group := 40 + n; pty_session_id := 40 + n; master_slot := n |};
     pty_size := {| pty_columns := 80; pty_rows := 24; pixel_width := 800; pixel_height := 480 |};
     foreground_process_group := Some (40 + n); terminal_revision := 7; history_generation := 3;
     splint_exit := Running; terminal_checkpoint := Descriptor n; image_state := NotPresent;
     controller := c; subscriptions := Dropped |}.

(** Two Splints, the controller of one held by a Window, and a Splint whose
    process has exited, in no particular order. *)
Definition sample : HandoffManifestV1 :=
  {| schema := 1; kind := Forward; handoff_id := replicate 16 9;
     source_generation := sample_generation 1; target_generation := sample_generation 2;
     source_daemon_generation := 1; target_daemon_generation := 2; topology_revision := 4;
     durable_state_generation := 4; private_protocol := 6; handoff_protocol := 1;
     terminal_checkpoint_schema := 2; descriptor_manifest_schema := 1;
     install_prefix := [47; 117; 115; 114; 47; 98; 105; 110];
     executable_pairs :=
       {| evidence_forward := {| image_daemon := sample_image 2; image_client := sample_image 3;
                                 image_generation := sample_generation 2 |};
          evidence_rollback := {| image_daemon := sample_image 4; image_client := sample_image 5;
                                  image_generation := sample_generation 1 |} |};
     counterpart_manifest_slot := RollbackManifest;
     splints := [sample_splint 1 Released; sample_splint 0 (HeldBy 0 5)];
     excluded_splints := [{| excluded_lair := 1; excluded_dojo := 2; excluded_id := 3; excluded_incarnation := 1;
                             child_pid := 50; process_exit := Some {| exit_code := Some 1; exit_signal := None |} |}];
     windows := [{| window_index := 0; window_pid := 60; start_time := 9; client_device := 1; client_inode := 2;
                    old_connections := [7; 5] |}];
     descriptors := imap (λ i s, {| slot := s; inherited_fd := 20 + Z.of_nat i |})
       [Listener; ImageListener; CheckpointManifest; RollbackManifest; ForwardClient; RollbackDaemon; RollbackClient;
        PtyMaster 1; TerminalCheckpointSlot 1; PtyMaster 0; TerminalCheckpointSlot 0; Continuation 0; ClientProcess 0] |}.

(** Strings of one character for identifiers, and a serializer of the sample. *)
Definition sample_string (id : Z) : str := [id].

#[local] Instance sample_string_inj : Inj (=) (=) sample_string.
Proof. intros x y [=]. done. Defined.

Definition sample_bytes : list Z := [123; 125].
Definition sample_to_vec (m : HandoffManifestV1) : option (list Z) :=
  if decide (m = canonical sample_string sample) then Some sample_bytes else None.
Definition sample_from_slice (b : list Z) : option HandoffManifestV1 :=
  if decide (b = sample_bytes) then Some (canonical sample_string sample) else None.

Lemma sample_serde m b : sample_to_vec m = Some b → sample_from_slice b = Some m.
Proof. unfold sample_to_vec, sample_from_slice. case_decide; [|done]. intros [= <-]. by rewrite decide_True; [subst|]. Qed.

Lemma pair_decides_witness : validate_manifest_pair sample_string sample (reverse_manifest sample) = Ok tt.
Proof.
  apply (pair_decides sample_string sample (reverse_manifest sample)). split_and!; [|done|done].
  apply validate_manifest_ok. vm_compute. reflexivity.
Defined.

Lemma manifest_round_trip_witness :
  decode_manifest sample_string sample_to_vec sample_from_slice sample_bytes = Ok (canonical sample_string sample)
  ∧ canonical sample_string sample ≠ sample.
Proof.
  split; [|by vm_compute].
  apply (manifest_round_trip sample_string sample_to_vec sample_from_slice sample sample_bytes sample_serde).
  vm_compute. reflexivity.
Defined.

Lemma manifest_bytes_unique_witness : manifest_ok (canonical sample_string sample).
Proof.
  apply (manifest_bytes_unique sample_string sample_to_vec sample_from_slice _ (canonical sample_string sample)
    sample_bytes sample_bytes sample_serde); vm_compute; reflexivity.
Defined.
