(* ===== verification/Provenance.v ===== *)
(** * Package provenance ([splinterd/src/package_provenance.rs])

    A package installs a record beside its daemon that names the commit, the
    version and the hashes of the pair. A hand-off is made only to a sealed pair
    whose own report agrees with such a record: the identity both carry is the
    hash of everything the record says and of every capability range.

    The build is the packaged one, without test salts. [sha2] is an argument; the
    file system of [PackageProvenanceRecord::load] is not modelled, what it reads
    is the record's wire form. *)

From Stdlib Require Import String.
From S2P Require Import Prelude RustStd Utf8 Paths Handoff.

Definition PACKAGE_PROVENANCE_RELATIVE_PATH : PathBuf := str_bytes (lit "share/splinterm/package-provenance-v1.json").
Definition DISTRIBUTION_PREFIX : PathBuf := str_bytes (lit "/usr").
Definition NIX_STORE : PathBuf := str_bytes (lit "/nix/store").
Definition PACKAGE_NAME : str := lit "splinterm".
Definition PACKAGE_ARCHITECTURE : str := lit "x86_64".
Definition ZERO_COMMIT : str := replicate 40 48.
Definition MAX_RECORD_PATH_BYTES : Z := 4096.

Inductive BuildProvenanceKind := Unpackaged | LocalCommittedHead | ReleaseCandidate | NixStore.

#[global] Instance BuildProvenanceKind_eq_dec : EqDecision BuildProvenanceKind.
Proof. solve_decision. Defined.

(** The errors of what is modelled. *)
Inductive PackageProvenanceError :=
| InvalidRecordPath
| InvalidRecord
| UnpackagedBuild
| LocationMismatch
| ExecutableMismatch
| BuildMismatch.

Definition kind_str (k : BuildProvenanceKind) : str :=
  match k with
  | Unpackaged => lit "unpackaged"
  | LocalCommittedHead => lit "local-committed-head"
  | ReleaseCandidate => lit "release-candidate"
  | NixStore => lit "nix-store"
  end.

Definition parse_kind (value : str) : outcome PackageProvenanceError BuildProvenanceKind :=
  if bool_decide (value = lit "local-committed-head") then Ok LocalCommittedHead
  else if bool_decide (value = lit "release-candidate") then Ok ReleaseCandidate
  else if bool_decide (value = lit "nix-store") then Ok NixStore
  else if bool_decide (value = lit "unpackaged") then Ok Unpackaged
  else Err InvalidRecord.

(** ** Text *)

(** [byte.is_ascii_digit() || (b'a'..=b'f').contains(&byte)]. *)
Definition is_lower_hex (b : Z) : bool := is_ascii_digit b || ((97 <=? b) && (b <=? 102)).

Definition valid_commit (value : str) : bool := (str_len value =? 40) && forallb is_lower_hex (str_bytes value).

Definition is_ascii_alphanumeric (b : Z) : bool :=
  is_ascii_digit b || is_ascii_lowercase b || ((65 <=? b) && (b <=? 90)).

Definition valid_version (value : str) : bool :=
  negb (bool_decide (value = [])) && (str_len value <=? 64)
  && forallb (λ b, is_ascii_alphanumeric b || (b =? 46) || (b =? 45) || (b =? 43)) (str_bytes value).

(** [str::parse::<u16>] is that of [u64] within the smaller range. *)
Definition parse_u16 (value : option str) : outcome PackageProvenanceError Z :=
  match value with
  | None => Err InvalidRecord
  | Some s =>
      match parse_u64 s with
      | Some n => if n <=? u16_max then Ok n else Err InvalidRecord
      | None => Err InvalidRecord
      end
  end.

(** [value.split_once('-')] keeps what precedes the first dash. *)
Definition parse_build_version (value : str) : outcome PackageProvenanceError BuildVersion :=
  let release := match split_on 45 value with piece :: _ => piece | [] => [] end in
  let parts := split_on 46 release in
  let? major := parse_u16 (parts !! 0%nat) in
  let? minor := parse_u16 (parts !! 1%nat) in
  let? patch := parse_u16 (parts !! 2%nat) in
  if bool_decide (is_Some (parts !! 3%nat)) then Err InvalidRecord
  else Ok {| version_major := major; version_minor := minor; version_patch := patch |}.

Definition hex_digit (b : Z) : Z := if is_ascii_digit b then b - 48 else b - 87.

Fixpoint hex_bytes (digits : list Z) : list Z :=
  match digits with
  | high :: low :: digits => (hex_digit high * 16 + hex_digit low) :: hex_bytes digits
  | _ => []
  end.

Definition parse_hex (n : Z) (value : str) : outcome PackageProvenanceError (list Z) :=
  if negb (str_len value =? 2 * n) || negb (forallb is_lower_hex (str_bytes value)) then Err InvalidRecord
  else Ok (hex_bytes (str_bytes value)).

(** ** Identities *)

Definition range_bytes (r : VersionRange) : list Z := to_be_bytes 2 (range_minimum r) ++ to_be_bytes 2 (range_maximum r).

(** What [derive_pair_build_identity] feeds its hasher. *)
Definition identity_preimage (commit : str) (kind : BuildProvenanceKind) (version : str) (c : HandoffCapabilities) : list Z :=
  str_bytes (lit "splinterm-package-pair-v1") ++ [0] ++ str_bytes commit ++ [0] ++ str_bytes (kind_str kind) ++ [0]
  ++ str_bytes version
  ++ range_bytes (cap_private_protocol c) ++ range_bytes (cap_handoff_protocol c)
  ++ range_bytes (cap_terminal_checkpoint c) ++ range_bytes (cap_descriptor_manifest c).

Section hashing.
Context (sha256 : list Z → list Z).

Definition derive_pair_build_identity (commit : str) (kind : BuildProvenanceKind) (version : str) (c : HandoffCapabilities)
    : outcome PackageProvenanceError BuildIdentity :=
  if negb (valid_commit commit) || negb (valid_version version) then Err InvalidRecord
  else match BuildIdentity_new (sha256 (identity_preimage commit kind version c)) with
       | Ok identity => Ok identity
       | Err _ => Err InvalidRecord
       | Panic => Panic
       end.

(** ** Records *)

Record PackageProvenanceRecord := {
  record_path : PathBuf;
  record_commit : str;
  record_kind : BuildProvenanceKind;
  record_version : str;
  record_identity : BuildIdentity;
  record_daemon_sha256 : list Z;
  record_client_sha256 : list Z;
}.

(** A copy of the record's fields, and the sealed pair they were checked against. *)
Record ValidatedPackageProvenance := {
  validated_record : PackageProvenanceRecord;
  validated_snapshots : ExecutablePairBinding;
}.

Definition verify_pair (r : PackageProvenanceRecord) (pair : SealedExecutablePair) (preflight : ExecutablePairPreflight)
    : outcome PackageProvenanceError ValidatedPackageProvenance :=
  if bool_decide (pair_snapshots preflight ≠ from_snapshots pair) then Err BuildMismatch else
  if bool_decide (src_sha256 (sealed_source (pair_daemon pair)) ≠ record_daemon_sha256 r)
     || bool_decide (src_sha256 (sealed_source (pair_client pair)) ≠ record_client_sha256 r)
  then Err ExecutableMismatch else
  let? expected_version := parse_build_version (record_version r) in
  if bool_decide (pair_build_version preflight ≠ expected_version) then Err BuildMismatch else
  let? derived := derive_pair_build_identity (record_commit r) (record_kind r) (record_version r) (pair_capabilities preflight) in
  if bool_decide (derived ≠ record_identity r) || bool_decide (pair_build_identity preflight ≠ record_identity r)
  then Err BuildMismatch
  else Ok {| validated_record := r; validated_snapshots := pair_snapshots preflight |}.

Definition validate_package_binding (p : ValidatedPackageProvenance) (pair : SealedExecutablePair)
    (preflight : ExecutablePairPreflight) : outcome PackageProvenanceError unit :=
  let r := validated_record p in
  if bool_decide (pair_snapshots preflight ≠ from_snapshots pair)
     || bool_decide (validated_snapshots p ≠ pair_snapshots preflight)
     || bool_decide (record_daemon_sha256 r ≠ src_sha256 (sealed_source (pair_daemon pair)))
     || bool_decide (record_client_sha256 r ≠ src_sha256 (sealed_source (pair_client pair)))
     || bool_decide (record_identity r ≠ pair_build_identity preflight)
  then Err BuildMismatch else
  let? version := parse_build_version (record_version r) in
  if bool_decide (version ≠ pair_build_version preflight) then Err BuildMismatch else
  let? derived := derive_pair_build_identity (record_commit r) (record_kind r) (record_version r) (pair_capabilities preflight) in
  if bool_decide (derived ≠ record_identity r) then Err BuildMismatch else Ok tt.

Record ValidatedHandoffPackageProvenance := {
  provenance_forward : ValidatedPackageProvenance;
  provenance_rollback : ValidatedPackageProvenance;
}.

Definition validate_handoff_package_provenance (forward rollback : PackageProvenanceRecord)
    (snapshots : HandoffExecutableSnapshots) (forward_preflight rollback_preflight : ExecutablePairPreflight)
    : outcome PackageProvenanceError ValidatedHandoffPackageProvenance :=
  let? f := verify_pair forward (snapshots_forward snapshots) forward_preflight in
  let? r := verify_pair rollback (snapshots_rollback snapshots) rollback_preflight in
  Ok {| provenance_forward := f; provenance_rollback := r |}.

Definition validate_provenance_against (p : ValidatedHandoffPackageProvenance) (snapshots : HandoffExecutableSnapshots)
    (forward_preflight rollback_preflight : ExecutablePairPreflight) : outcome PackageProvenanceError unit :=
  let? _ := validate_package_binding (provenance_forward p) (snapshots_forward snapshots) forward_preflight in
  validate_package_binding (provenance_rollback p) (snapshots_rollback snapshots) rollback_preflight.
End hashing.

(** ** Where a record is installed *)

Definition validate_record_path (p : PathBuf) : outcome PackageProvenanceError unit :=
  if bool_decide (p = []) || (MAX_RECORD_PATH_BYTES <? Z.of_nat (length p)) || negb (is_absolute p) then Err InvalidRecordPath
  else if existsb (λ component, negb (plain_component component)) (components p) then Err InvalidRecordPath
  else Ok tt.

(** [a.parent() == Some(b)] compares paths. *)
Definition is_parent (p q : PathBuf) : bool :=
  match parent p with Some a => path_eq a q | None => false end.

Definition package_provenance_path (daemon : PathBuf) : outcome PackageProvenanceError PathBuf :=
  let? _ := validate_record_path daemon in
  let bin := match parent daemon with
             | Some bin => if bool_decide (file_name bin = Some (str_bytes (lit "bin"))) then Some bin else None
             | None => None
             end in
  match bin ≫= parent with
  | None => Err InvalidRecordPath
  | Some prefix =>
      let packaged_prefix := path_eq prefix DISTRIBUTION_PREFIX || is_parent prefix NIX_STORE in
      if bool_decide (file_name daemon ≠ Some (str_bytes (lit "splinterd"))) || negb packaged_prefix then Err InvalidRecordPath
      else Ok (path_join prefix PACKAGE_PROVENANCE_RELATIVE_PATH)
  end.

(** [Path::strip_prefix] by components; [None] when it is not a prefix. *)
Definition strip_path (prefix p : PathBuf) : option (list Component) :=
  if bool_decide (take (length (components prefix)) (components p) = components prefix)
  then Some (drop (length (components prefix)) (components p)) else None.

Definition is_store_output_record (p : PathBuf) : bool :=
  match strip_path NIX_STORE p with
  | Some (output :: _) =>
      path_eq (path_join (path_join NIX_STORE (component_str output)) PACKAGE_PROVENANCE_RELATIVE_PATH) p
  | _ => false
  end.

(** The record as [serde_json] reads it. *)
Record PackageProvenanceWire := {
  wire_schema : Z;
  wire_package : str;
  wire_architecture : str;
  wire_provenance : str;
  wire_source_commit : str;
  wire_build_version : str;
  wire_pair_build_identity : str;
  wire_daemon_sha256 : str;
  wire_client_sha256 : str;
}.

Definition from_wire (path : PathBuf) (w : PackageProvenanceWire) : outcome PackageProvenanceError PackageProvenanceRecord :=
  if negb (wire_schema w =? 1) || bool_decide (wire_package w ≠ PACKAGE_NAME)
     || bool_decide (wire_architecture w ≠ PACKAGE_ARCHITECTURE)
     || negb (valid_commit (wire_source_commit w)) || negb (valid_version (wire_build_version w))
  then Err InvalidRecord else
  let? _ := parse_build_version (wire_build_version w) in
  let? kind := parse_kind (wire_provenance w) in
  if bool_decide (kind = Unpackaged) || bool_decide (wire_source_commit w = ZERO_COMMIT) then Err UnpackagedBuild else
  let in_store := bool_decide (is_Some (strip_path NIX_STORE path)) in
  if negb (Bool.eqb in_store (bool_decide (kind = NixStore))) || (in_store && negb (is_store_output_record path))
  then Err LocationMismatch else
  let? bytes := parse_hex 32 (wire_pair_build_identity w) in
  let? identity := match BuildIdentity_new bytes with Ok i => Ok i | Err _ => Err InvalidRecord | Panic => Panic end in
  let? daemon := parse_hex 32 (wire_daemon_sha256 w) in
  let? client := parse_hex 32 (wire_client_sha256 w) in
  Ok {| record_path := path; record_commit := wire_source_commit w; record_kind := kind;
        record_version := wire_build_version w; record_identity := identity;
        record_daemon_sha256 := daemon; record_client_sha256 := client |}.
