(* ===== verification/ProvenanceProps.v ===== *)
(** * What a package record binds

    A record and a sealed pair determine the report that may come with them, up
    to a collision of the hash; and a record is looked for where a package
    installs it. *)

From Stdlib Require Import String.
From S2P Require Import Prelude RustStd Utf8 Paths Handoff Manifest ManifestInv Provenance.

(** ** The bytes that are hashed *)

Lemma valid_commit_spec s : valid_commit s = true → str_bytes s = s ∧ length s = 40%nat.
Proof.
  unfold valid_commit. intros [Hl Hb]%andb_true_iff. apply str_bytes_ascii in Hb as [_ Hb].
  2: { intros b. unfold is_lower_hex, is_ascii_digit. rewrite orb_true_iff, !andb_true_iff. lia. }
  split; [done|]. apply Z.eqb_eq in Hl. rewrite <-str_bytes_length in Hl. rewrite Hb in Hl. lia.
Qed.

Lemma valid_version_spec s : valid_version s = true → str_bytes s = s.
Proof.
  unfold valid_version. intros [_ Hb]%andb_true_iff. apply str_bytes_ascii in Hb as [_ Hb]; [done|]. intros b.
  unfold is_ascii_alphanumeric, is_ascii_digit, is_ascii_lowercase.
  rewrite !orb_true_iff, !andb_true_iff, !Z.leb_le, !Z.eqb_eq. lia.
Qed.

(** A range of [u16] versions. *)
Definition range_typed (r : VersionRange) : Prop := 0 ≤ range_minimum r ≤ u16_max ∧ 0 ≤ range_maximum r ≤ u16_max.

Definition capabilities_typed (c : HandoffCapabilities) : Prop :=
  Forall range_typed [cap_private_protocol c; cap_handoff_protocol c; cap_terminal_checkpoint c; cap_descriptor_manifest c].

Lemma to_be_bytes_inj x y : 0 ≤ x ≤ u16_max → 0 ≤ y ≤ u16_max → to_be_bytes 2 x = to_be_bytes 2 y → x = y.
Proof. unfold u16_max. intros Hx Hy H. rewrite <-(from_to_be_bytes 2 x), <-(from_to_be_bytes 2 y), H by lia. done. Qed.

Lemma range_bytes_inj r r' l l' :
  range_typed r → range_typed r' → range_bytes r ++ l = range_bytes r' ++ l' → r = r' ∧ l = l'.
Proof.
  intros [Rm RM] [Rm' RM'] Heq. unfold range_bytes in Heq. rewrite <-!app_assoc in Heq.
  apply app_inj_1 in Heq as [E1 Heq]; [|by rewrite !to_be_bytes_length].
  apply app_inj_1 in Heq as [E2 Heq]; [|by rewrite !to_be_bytes_length].
  apply to_be_bytes_inj in E1, E2; [|done..]. split; [|done]. destruct r, r'. simpl in *. congruence.
Qed.

Lemma kind_bytes_inj k k' l l' :
  str_bytes (kind_str k) ++ [0] ++ l = str_bytes (kind_str k') ++ [0] ++ l' → k = k' ∧ l = l'.
Proof. destruct k, k'; simpl; intros H; by simplify_eq. Qed.

Lemma preimage_inj commit kind version c commit' kind' version' c' :
  valid_commit commit = true → valid_commit commit' = true → valid_version version = true → valid_version version' = true →
  capabilities_typed c → capabilities_typed c' →
  identity_preimage commit kind version c = identity_preimage commit' kind' version' c' →
  (commit, kind, version, c) = (commit', kind', version', c').
Proof.
  intros [Hc Lc]%valid_commit_spec [Hc' Lc']%valid_commit_spec Hv%valid_version_spec Hv'%valid_version_spec Ht Ht' H.
  unfold identity_preimage in H. rewrite Hc, Hc', Hv, Hv' in H. apply (inj (app _)) in H. apply (inj (app _)) in H.
  apply app_inj_1 in H as [-> H]; [|congruence]. apply (inj (app _)) in H. apply kind_bytes_inj in H as [-> H].
  apply app_inj_2 in H as [-> H]; [|by rewrite !length_app; unfold range_bytes; rewrite !length_app, !to_be_bytes_length].
  unfold capabilities_typed in Ht, Ht'. rewrite !Forall_cons in Ht, Ht'.
  destruct Ht as (? & ? & ? & ? & _), Ht' as (? & ? & ? & ? & _).
  apply range_bytes_inj in H as [E1 H]; [|done..]. apply range_bytes_inj in H as [E2 H]; [|done..].
  apply range_bytes_inj in H as [E3 H]; [|done..]. rewrite <-(app_nil_r (range_bytes (cap_descriptor_manifest c))),
    <-(app_nil_r (range_bytes (cap_descriptor_manifest c'))) in H. apply range_bytes_inj in H as [E4 _]; [|done..].
  destruct c, c'. simpl in *. congruence.
Qed.

(** ** Records and reports *)

Section binding.
Context (sha256 : list Z → list Z).

(** What a record, a sealed pair and a report have in common when they are bound. *)
Record binds (r : PackageProvenanceRecord) (pair : SealedExecutablePair) (preflight : ExecutablePairPreflight) : Prop := {
  binds_snapshots : pair_snapshots preflight = from_snapshots pair;
  binds_daemon : record_daemon_sha256 r = src_sha256 (sealed_source (pair_daemon pair));
  binds_client : record_client_sha256 r = src_sha256 (sealed_source (pair_client pair));
  binds_version : parse_build_version (record_version r) = Ok (pair_build_version preflight);
  binds_identity : pair_build_identity preflight = record_identity r;
  binds_derived : derive_pair_build_identity sha256 (record_commit r) (record_kind r) (record_version r)
    (pair_capabilities preflight) = Ok (record_identity r);
}.

Lemma package_binding_ok p pair preflight :
  validate_package_binding sha256 p pair preflight = Ok tt ↔
  binds (validated_record p) pair preflight ∧ validated_snapshots p = from_snapshots pair.
Proof using Type.
  unfold validate_package_binding. rewrite guard_ok. decide_conditions. split.
  - intros (H & (v & Hv & (->%decide_not & (d & Hd & (->%decide_not & _)%guard_ok)%obind_ok)%guard_ok)%obind_ok).
    destruct_and? H. split; [by split|congruence].
  - intros [[Hs ? ? Hv ? Hd] Hp]. split; [split_and!; congruence|]. rewrite Hv. cbn [obind]. rewrite bool_decide_eq_false_2 by tauto.
    rewrite Hd. cbn [obind]. by rewrite bool_decide_eq_false_2 by tauto.
Qed.

Lemma verify_pair_ok r pair preflight p :
  verify_pair sha256 r pair preflight = Ok p ↔
  binds r pair preflight ∧ p = {| validated_record := r; validated_snapshots := from_snapshots pair |}.
Proof using Type.
  unfold verify_pair. rewrite !guard_ok. decide_conditions. split.
  - intros (Hs & [? ?] & (v & Hv & (<-%decide_not & (d & Hd & (Hbad & [= <-])%guard_ok)%obind_ok)%guard_ok)%obind_ok).
    revert Hbad. decide_conditions. intros [-> ?]. rewrite Hs. split; [by split|done].
  - intros [[Hs ? ? Hv ? Hd] ->]. split_and!; [done..|]. rewrite Hv. cbn [obind]. rewrite bool_decide_eq_false_2 by tauto.
    rewrite Hd. cbn [obind]. rewrite !bool_decide_eq_false_2 by tauto. by rewrite Hs.
Qed.
End binding.

(** C24. A verified package record stays bound, and binds everything: what
    verification answers is accepted again for the same pair and report, and no
    other report is ever accepted with it for that pair. A report that differs in
    anything, a capability range included, is refused unless it comes with two
    different inputs of the hash that collide. *)
Theorem record_binds_report sha256 r pair preflight preflight' p :
  verify_pair sha256 r pair preflight = Ok p →
  capabilities_typed (pair_capabilities preflight) → capabilities_typed (pair_capabilities preflight') →
  validate_package_binding sha256 p pair preflight = Ok tt ∧
  (validate_package_binding sha256 p pair preflight' = Ok tt →
    preflight' = preflight ∨ ∃ x y, x ≠ y ∧ sha256 x = sha256 y).
Proof.
  intros [Hb ->]%verify_pair_ok Ht Ht'. rewrite !package_binding_ok. simpl. split; [done|].
  intros [[Hs _ _ Hv Hi Hd] _]. destruct Hb as [Hs0 _ _ Hv0 Hi0 Hd0].
  assert (∀ c, derive_pair_build_identity sha256 (record_commit r) (record_kind r) (record_version r) c = Ok (record_identity r) →
    valid_commit (record_commit r) = true ∧ valid_version (record_version r) = true ∧
    sha256 (identity_preimage (record_commit r) (record_kind r) (record_version r) c) = record_identity r) as Hder.
  { intros c. unfold derive_pair_build_identity, BuildIdentity_new. rewrite guard_ok, orb_false_iff, !negb_false_iff.
    intros [[Hcv Hvv] Hok]. case_bool_decide; [done|]. by injection Hok as Hok. }
  destruct (Hder _ Hd0) as (Hc & Hver & Hash0), (Hder _ Hd) as (_ & _ & Hash).
  destruct (decide (identity_preimage (record_commit r) (record_kind r) (record_version r) (pair_capabilities preflight')
    = identity_preimage (record_commit r) (record_kind r) (record_version r) (pair_capabilities preflight))) as [Heq|Hne].
  - left. apply preimage_inj in Heq; [|done..]. destruct preflight, preflight'. simpl in *. congruence.
  - right. eexists _, _. split; [exact Hne|congruence].
Qed.

(** ** Where records are *)

(** The path of a list of names, which for none is the root. *)
Definition rooted (names : list (list Z)) : PathBuf := match names with [] => [47] | _ => spell names end.

Lemma rooted_components names : Forall name_ok names → components (rooted names) = RootDir :: (Normal <$> names).
Proof. intros Hok. destruct names as [|n names]; [done|]. by apply components_spell. Qed.

Lemma path_eq_rooted names names' :
  Forall name_ok names → Forall name_ok names' → path_eq (rooted names) (rooted names') = true ↔ names = names'.
Proof.
  intros Hok Hok'. unfold path_eq. rewrite bool_decide_eq_true, !rooted_components by done. split; [|congruence].
  intros [= Heq]. revert Heq. apply inj, list_fmap_eq_inj. by intros ? ? [=].
Qed.

Lemma file_name_rooted names : Forall name_ok names → file_name (rooted names) = last names.
Proof.
  intros Hok. unfold file_name. rewrite rooted_components by done. destruct names as [|n names] using rev_ind; [done|].
  rewrite fmap_app, app_comm_cons. change (Normal <$> [n]) with [Normal n]. by rewrite !last_snoc.
Qed.

Lemma join_spelled names : names ≠ [] → 47 :: join_pieces names = spell names.
Proof.
  intros Hne. destruct names as [|n names]; [done|]. clear Hne. revert n.
  induction names as [|n' names IH]; intros n; [cbn; by rewrite app_nil_r|].
  change (spell (n :: n' :: names)) with (47 :: n ++ spell (n' :: names)). by rewrite <-IH.
Qed.

Lemma drop_silent_name n l : name_ok n → drop_silent (n :: l) = n :: l.
Proof. intros [? ? _ _]. simpl. unfold silent_piece. by rewrite !bool_decide_eq_false_2. Qed.

Lemma parent_rooted names n : Forall name_ok (names ++ [n]) → parent (rooted (names ++ [n])) = Some (rooted names).
Proof.
  intros Hok. assert (rooted (names ++ [n]) = spell (names ++ [n])) as -> by by destruct names.
  unfold parent. rewrite split_spelled by (done || by destruct names). apply Forall_app in Hok as [Hok Hn].
  rewrite Forall_singleton in Hn. rewrite reverse_snoc, drop_silent_name by done. f_equal.
  destruct names as [|n' names] using rev_ind; [done|]. apply Forall_app in Hok as [_ Hn'].
  rewrite Forall_singleton in Hn'. rewrite reverse_snoc, drop_silent_name by done.
  rewrite <-reverse_snoc, reverse_involutive, join_spelled by by destruct names. by destruct names.
Qed.

Definition usr : list Z := str_bytes (lit "usr").
Definition nix : list Z := str_bytes (lit "nix").
Definition store : list Z := str_bytes (lit "store").
Definition bin : list Z := str_bytes (lit "bin").
Definition splinterd : list Z := str_bytes (lit "splinterd").
Definition record_names : list (list Z) :=
  [str_bytes (lit "share"); str_bytes (lit "splinterm"); str_bytes (lit "package-provenance-v1.json")].

(** The prefixes of packages: the distribution's, or one output of the store. *)
Definition package_prefix (prefix : list (list Z)) : Prop := prefix = [usr] ∨ ∃ output, prefix = [nix; store; output].

Lemma literal_name n : forallb (λ b, negb (b =? 47)) n && negb (bool_decide (n ∈ [[]; [46]; [46; 46]])) = true → name_ok n.
Proof.
  intros [Hs Hn]%andb_true_iff. apply negb_true_iff, bool_decide_eq_false in Hn.
  split; [by intros ->; set_solver..|]. intros H47. rewrite forallb_forall in Hs. apply list_elem_of_In in H47. by apply Hs in H47.
Qed.

Lemma join_record names :
  names ≠ [] → Forall name_ok names → path_join (spell names) PACKAGE_PROVENANCE_RELATIVE_PATH = spell (names ++ record_names).
Proof.
  intros Hne Hok. unfold path_join, path_push. destruct (exists_last Hne) as (names' & n & ->).
  apply Forall_app in Hok as [_ Hn]. rewrite Forall_singleton in Hn. destruct (spell_ends names' n Hn) as (c & -> & Hc).
  rewrite (proj2 (Z.eqb_neq c 47)) by done. unfold spell. by rewrite (bind_app _ (names' ++ [n])).
Qed.

Lemma package_prefix_paths prefix :
  Forall name_ok prefix →
  path_eq (rooted prefix) DISTRIBUTION_PREFIX || is_parent (rooted prefix) NIX_STORE = true ↔ package_prefix prefix.
Proof.
  intros Hok. assert (Forall name_ok [usr] ∧ Forall name_ok [nix; store]) as [Hu Hs]
    by (split; repeat constructor; by apply literal_name).
  change DISTRIBUTION_PREFIX with (rooted [usr]). change NIX_STORE with (rooted [nix; store]).
  rewrite orb_true_iff, path_eq_rooted by done. unfold package_prefix. apply or_iff_compat_l. unfold is_parent.
  destruct prefix as [|n prefix _] using rev_ind; [split; [done|by intros [? ?]]|].
  rewrite parent_rooted by done. apply Forall_app in Hok as [Hok Hn]. rewrite path_eq_rooted by done.
  split; [intros ->; by exists n|]. intros [output Heq]. change [nix; store; output] with ([nix; store] ++ [output]) in Heq.
  by apply app_inj_tail in Heq as [-> _].
Qed.

(** The record of a daemon is looked for in the package it was installed by. *)
Lemma record_path_ok names p :
  names ≠ [] → Forall name_ok names → Z.of_nat (length (spell names)) ≤ MAX_RECORD_PATH_BYTES →
  package_provenance_path (spell names) = Ok p ↔
  ∃ prefix, package_prefix prefix ∧ names = prefix ++ [bin; splinterd] ∧ p = spell (prefix ++ record_names).
Proof.
  intros Hne Hok Hlen. assert (spell names = rooted names) as Hr by by destruct names.
  assert (validate_record_path (spell names) = Ok tt) as Hv.
  { unfold validate_record_path. rewrite components_spell by done. destruct (spell_absolute names Hne) as [-> Hc].
    rewrite (proj2 (Z.ltb_ge _ _)) by done. rewrite bool_decide_eq_false_2 by (rewrite Hc; done). cbn [orb negb existsb].
    assert (existsb (λ c, negb (plain_component c)) (Normal <$> names) = false) as ->; [|done].
    clear. induction names; [done|by simpl]. }
  unfold package_provenance_path. rewrite Hv. cbn [obind]. clear Hv.
  destruct names as [|d names _] using rev_ind; [done|]. rewrite Hr, parent_rooted by done.
  pose proof Hok as Hok'. apply Forall_app in Hok' as [Hok1 Hd]. rewrite file_name_rooted by done.
  destruct names as [|b names _] using rev_ind.
  { split; [done|]. intros (prefix & _ & Heq & _). by destruct prefix as [|? []]. }
  rewrite last_snoc. case_bool_decide as Hb.
  2: { split; [done|]. intros (prefix & _ & Heq & _). change [bin; splinterd] with ([bin] ++ [splinterd]) in Heq.
    rewrite (assoc_L (++)) in Heq. apply app_inj_tail in Heq as [Heq _]. apply app_inj_tail in Heq as [_ ->]. by destruct Hb. }
  injection Hb as ->. cbn [mbind option_bind]. rewrite parent_rooted by done. rewrite file_name_rooted, last_snoc by done.
  apply Forall_app in Hok1 as [Hok2 _]. split.
  - intros H. apply guard_ok in H as [H [= <-]]. revert H. rewrite orb_false_iff, decide_not, negb_false_iff.
    intros [[= ->] Hp%package_prefix_paths]; [|done]. exists names. split_and!; [done|by rewrite <-(assoc_L (++))|].
    assert (names ≠ []) by (destruct Hp as [->|[? ->]]; done). assert (rooted names = spell names) as -> by by destruct names.
    by apply join_record.
  - intros (prefix & Hp & Heq & ->). change [bin; splinterd] with ([bin] ++ [splinterd]) in Heq.
    rewrite (assoc_L (++)) in Heq. apply app_inj_tail in Heq as [Heq ->]. apply app_inj_tail in Heq as [-> _].
    rewrite (proj2 (package_prefix_paths _ Hok2) Hp), bool_decide_eq_false_2 by tauto. cbn [orb negb]. f_equal.
    assert (prefix ≠ []) by (destruct Hp as [->|[? ->]]; done). assert (rooted prefix = spell prefix) as -> by by destruct prefix.
    by apply join_record.
Qed.

(** The record of an installed daemon is looked for exactly when the daemon is
    [/usr/bin/splinterd] or [/nix/store/<output>/bin/splinterd], and then below
    that [/usr] or that output; and a record read from there is accepted only
    with the kind of its place: a record of the store from the store and no other
    from it. *)
Theorem record_located names p :
  names ≠ [] → Forall name_ok names → Z.of_nat (length (spell names)) ≤ MAX_RECORD_PATH_BYTES →
  (package_provenance_path (spell names) = Ok p ↔
   ∃ prefix, package_prefix prefix ∧ names = prefix ++ [bin; splinterd] ∧ p = spell (prefix ++ record_names)) ∧
  (∀ w r, package_provenance_path (spell names) = Ok p → from_wire p w = Ok r →
     record_kind r ≠ Unpackaged ∧ (record_kind r = NixStore ↔ head names = Some nix)).
Proof.
  intros Hne Hok Hlen. split; [by apply record_path_ok|]. intros w r (prefix & Hp & -> & ->)%record_path_ok H; [|done..].
  assert (Forall name_ok (prefix ++ record_names)) as Hok'.
  { apply Forall_app in Hok as [Hok _]. apply Forall_app. split; [done|]. repeat constructor; by apply literal_name. }
  unfold from_wire in H. apply guard_ok in H as [_ H]. apply obind_ok in H as (v & _ & H).
  apply obind_ok in H as (k & _ & H). apply guard_ok in H as [Hu H]. apply guard_ok in H as [Hs H].
  apply obind_ok in H as (b & _ & H). apply obind_ok in H as (i & _ & H). apply obind_ok in H as (d & _ & H).
  apply obind_ok in H as (c & _ & [= <-]). simpl. apply orb_false_iff in Hu as [Hu%bool_decide_eq_false _]. split; [done|].
  apply orb_false_iff in Hs as [Hs%negb_false_iff _]. apply eqb_prop in Hs.
  assert (bool_decide (is_Some (strip_path NIX_STORE (spell (prefix ++ record_names)))) = true ↔ head (prefix ++ [bin; splinterd]) = Some nix) as Hi.
  { unfold strip_path. rewrite (components_spell (prefix ++ record_names)) by (done || by destruct prefix).
    change (components NIX_STORE) with [RootDir; Normal nix; Normal store].
    destruct Hp as [->|[output ->]]; simpl; by split. }
  rewrite <-Hi, Hs. by rewrite bool_decide_eq_true.
Qed.

Lemma record_located_witness :
  package_provenance_path (spell [nix; store; usr; bin; splinterd]) = Ok (spell ([nix; store; usr] ++ record_names)).
Proof.
  apply (record_located [nix; store; usr; bin; splinterd]); [done|repeat constructor; by apply literal_name|by vm_compute|].
  exists [nix; store; usr]. split_and!; [right; by exists usr|done|done].
Defined.

(** ** An example *)

(** A sealed executable [name] of [/usr/bin], told apart by [n]. *)
Definition sealed (n : Z) (name : list Z) : SealedExecutableSnapshot :=
  {| sealed_source := {| src_path := spell [usr; bin; name]; src_device := n; src_inode := n + 10; src_owner_uid := 0;
                         src_mode := Z.lor UNIX_REGULAR_FILE 0x1ED; src_size := 1024; src_sha256 := replicate 32 n |};
     sealed_snapshot := {| snap_device := n + 20; snap_inode := n + 30; snap_size := 1024; snap_sha256 := replicate 32 n;
                           snap_seals := REQUIRED_EXECUTABLE_SEALS |};
     sealed_descriptor := n |}.

Definition sealed_pair (n : Z) : SealedExecutablePair :=
  {| pair_daemon := sealed n splinterd; pair_client := sealed (n + 1) CLIENT_EXECUTABLE |}.

Definition sample_capabilities : HandoffCapabilities :=
  {| cap_private_protocol := {| range_minimum := 5; range_maximum := 6 |};
     cap_handoff_protocol := {| range_minimum := 1; range_maximum := 1 |};
     cap_terminal_checkpoint := {| range_minimum := 1; range_maximum := 2 |};
     cap_descriptor_manifest := {| range_minimum := 1; range_maximum := 1 |} |}.

(** The build [0.2.n], whose pair is sealed as [device]. *)
Definition sample_preflight (n device : Z) : ExecutablePairPreflight :=
  {| pair_build_identity := replicate 32 n;
     pair_build_version := {| version_major := 0; version_minor := 2; version_patch := n |};
     pair_capabilities := sample_capabilities; pair_snapshots := from_snapshots (sealed_pair device) |}.

(** Commits of the digit [f] and others hash apart. *)
Definition sample_hash (bytes : list Z) : list Z := replicate 32 (if bool_decide (102 ∈ bytes) then 2 else 1).

Definition sample_record (n device : Z) : PackageProvenanceRecord :=
  {| record_path := spell ([usr] ++ record_names); record_commit := replicate 40 (if n =? 2 then 102 else 97);
     record_kind := ReleaseCandidate; record_version := lit "0.2." ++ [48 + n]; record_identity := replicate 32 n;
     record_daemon_sha256 := replicate 32 device; record_client_sha256 := replicate 32 (device + 1) |}.

Lemma record_binds_report_witness :
  validate_package_binding sample_hash
    {| validated_record := sample_record 2 2; validated_snapshots := from_snapshots (sealed_pair 2) |}
    (sealed_pair 2) (sample_preflight 2 2) = Ok tt.
Proof.
  apply (record_binds_report sample_hash (sample_record 2 2) (sealed_pair 2) (sample_preflight 2 2) (sample_preflight 2 2));
    [by vm_compute|repeat constructor; by vm_compute..].
Defined.
