(* ===== verification/Authority.v ===== *)
(** * The authority of a manifest ([splinterd/src/handoff_manifest.rs])

    A decoded manifest is only a claim. It is believed when the sealed
    executables, the reports they gave, the negotiation of all three generations
    and the package records say the same. *)

From S2P Require Import Prelude RustStd Paths Handoff HandoffProps Manifest ManifestInv ManifestProps Provenance ProvenanceProps.

(** [handoff_preflight.rs]. *)
Record SealedPreflightReports := {
  reports_forward : ExecutablePairPreflight;
  reports_rollback : ExecutablePairPreflight;
}.

Definition pair_from_verified (pair : SealedExecutablePair) (preflight : ExecutablePairPreflight)
    : outcome ManifestError ManifestExecutablePair :=
  if bool_decide (pair_snapshots preflight ≠ from_snapshots pair) then Err InvalidExecutables else
  let generation := from_preflight preflight in
  let? _ := map_err InvalidExecutables (validate_generation generation) in
  Ok {| image_daemon := image_from_snapshot (pair_daemon pair);
        image_client := image_from_snapshot (pair_client pair);
        image_generation := generation |}.

Definition evidence_from_verified (snapshots : HandoffExecutableSnapshots) (reports : SealedPreflightReports)
    : outcome ManifestError ExecutablePairSetEvidence :=
  let? forward := pair_from_verified (snapshots_forward snapshots) (reports_forward reports) in
  let? rollback := pair_from_verified (snapshots_rollback snapshots) (reports_rollback reports) in
  Ok {| evidence_forward := forward; evidence_rollback := rollback |}.

Definition evidence_validate_against (e : ExecutablePairSetEvidence) (snapshots : HandoffExecutableSnapshots)
    (reports : SealedPreflightReports) : outcome ManifestError unit :=
  let? expected := evidence_from_verified snapshots reports in
  if bool_decide (e ≠ expected) then Err InvalidExecutables else Ok tt.

Definition validate_negotiated_contract (m : HandoffManifestV1) (n : NegotiatedHandoff) : outcome ManifestError unit :=
  let forward := {| evidence_identity := forward_build_identity n; evidence_version := forward_build_version n |} in
  let rollback := {| evidence_identity := rollback_build_identity n; evidence_version := rollback_build_version n |} in
  let generations_match :=
    match kind m with
    | Forward => bool_decide (source_generation m = rollback) && bool_decide (target_generation m = forward)
    | Rollback => bool_decide (source_generation m = forward) && bool_decide (target_generation m = rollback)
    end in
  if negb generations_match
     || negb (private_protocol m =? agreed_private_protocol n)
     || negb (handoff_protocol m =? agreed_handoff_protocol n)
     || negb (terminal_checkpoint_schema m =? agreed_terminal_checkpoint n)
     || negb (descriptor_manifest_schema m =? agreed_descriptor_manifest n)
  then Err CapabilityMismatch else Ok tt.

(** The [map_err] of a failed negotiation. *)
Definition negotiation_error (e : CompatibilityError) : ManifestError :=
  match e with
  | ForwardSnapshotMismatch | RollbackSnapshotMismatch => InvalidExecutables
  | InvalidRange | InvalidBuildIdentity | RollbackGenerationMismatch | Incompatible _ => CapabilityMismatch
  end.

Section authority.
Context (sha256 : list Z → list Z).

Definition validate_authority_against (m : HandoffManifestV1) (running : RunningHandoffGeneration)
    (snapshots : HandoffExecutableSnapshots) (reports : SealedPreflightReports)
    (provenance : ValidatedHandoffPackageProvenance) : outcome ManifestError unit :=
  let? _ := validate_manifest m in
  if negb (names_pair_in (install_prefix m) (snapshots_forward snapshots))
     || negb (names_pair_in (install_prefix m) (snapshots_rollback snapshots))
  then Err InvalidInstallPrefix else
  if bool_decide (running_capabilities running ≠ pair_capabilities (reports_rollback reports))
  then Err CapabilityMismatch else
  let? negotiated :=
    match negotiate_handoff running (reports_forward reports) (reports_rollback reports) snapshots with
    | Ok n => Ok n
    | Err e => Err (negotiation_error e)
    | Panic => Panic
    end in
  let? _ := validate_negotiated_contract m negotiated in
  let? _ := map_err InvalidExecutables
    (validate_provenance_against sha256 provenance snapshots (reports_forward reports) (reports_rollback reports)) in
  evidence_validate_against (executable_pairs m) snapshots reports.
End authority.

(** ** What an accepted manifest is backed by *)

(** The generations of the manifest are the forward and the rollback build. *)
Definition contract (m : HandoffManifestV1) (n : NegotiatedHandoff) : Prop :=
  pair_generations m =
    ({| evidence_identity := forward_build_identity n; evidence_version := forward_build_version n |},
     {| evidence_identity := rollback_build_identity n; evidence_version := rollback_build_version n |})
  ∧ (private_protocol m, handoff_protocol m, terminal_checkpoint_schema m, descriptor_manifest_schema m)
    = (agreed_private_protocol n, agreed_handoff_protocol n, agreed_terminal_checkpoint n, agreed_descriptor_manifest n).

Lemma contract_ok m n : validate_negotiated_contract m n = Ok tt ↔ contract m n.
Proof.
  unfold validate_negotiated_contract, contract, pair_generations. rewrite guard_ok.
  destruct (kind m); decide_conditions; rewrite !pair_equal_spec, ?andb_true_iff, ?bool_decide_eq_true; split;
    [intros [H _]; destruct_and? H; by split_and!|intros H; destruct_and? H; by split_and!|
     intros [H _]; destruct_and? H; by split_and!|intros H; destruct_and? H; by split_and!].
Qed.

(** What the executables of a manifest must be, for a sealed pair and its report. *)
Definition evidence_of (pair : SealedExecutablePair) (preflight : ExecutablePairPreflight) : ManifestExecutablePair :=
  {| image_daemon := image_from_snapshot (pair_daemon pair);
     image_client := image_from_snapshot (pair_client pair);
     image_generation := from_preflight preflight |}.

Lemma pair_from_verified_ok pair preflight e :
  pair_from_verified pair preflight = Ok e ↔
  pair_snapshots preflight = from_snapshots pair ∧ generation_ok (from_preflight preflight) ∧ e = evidence_of pair preflight.
Proof.
  unfold pair_from_verified. rewrite guard_ok, decide_not, obind_ok. split.
  - intros (? & [] & Hg%map_err_ok%validate_generation_ok & [= <-]). done.
  - intros (? & ? & ->). split; [done|]. exists tt. by rewrite map_err_ok, validate_generation_ok.
Qed.

Lemma evidence_ok e snapshots reports :
  evidence_validate_against e snapshots reports = Ok tt ↔
  (pair_snapshots (reports_forward reports) = from_snapshots (snapshots_forward snapshots) ∧
   pair_snapshots (reports_rollback reports) = from_snapshots (snapshots_rollback snapshots)) ∧
  (generation_ok (from_preflight (reports_forward reports)) ∧ generation_ok (from_preflight (reports_rollback reports))) ∧
  e = {| evidence_forward := evidence_of (snapshots_forward snapshots) (reports_forward reports);
         evidence_rollback := evidence_of (snapshots_rollback snapshots) (reports_rollback reports) |}.
Proof.
  unfold evidence_validate_against, evidence_from_verified. rewrite obind_ok. split.
  - intros (x & Hx & (->%decide_not & _)%guard_ok). apply obind_ok in Hx as (f & (? & ? & ->)%pair_from_verified_ok & Hx).
    apply obind_ok in Hx as (r & (? & ? & ->)%pair_from_verified_ok & [= <-]). done.
  - intros ([Hf Hr] & [Gf Gr] & ->). eexists. rewrite guard_ok, decide_not. split; [|by split].
    rewrite (proj2 (pair_from_verified_ok _ _ _) (conj Hf (conj Gf eq_refl))). cbn [obind].
    by rewrite (proj2 (pair_from_verified_ok _ _ _) (conj Hr (conj Gr eq_refl))).
Qed.

(** A manifest is backed by the sealed pairs, their reports and the records. *)
Record backed (sha256 : list Z → list Z) (m : HandoffManifestV1) (running : RunningHandoffGeneration)
    (snapshots : HandoffExecutableSnapshots) (reports : SealedPreflightReports)
    (p : ValidatedHandoffPackageProvenance) : Prop := {
  back_valid : manifest_ok m;
  back_installed : names_pair_in (install_prefix m) (snapshots_forward snapshots) = true
    ∧ names_pair_in (install_prefix m) (snapshots_rollback snapshots) = true;
  back_capabilities : running_capabilities running = pair_capabilities (reports_rollback reports);
  back_bound : bound running (reports_forward reports) (reports_rollback reports) snapshots;
  back_contract : ∃ n, agreed running (reports_forward reports) (reports_rollback reports) n ∧ contract m n;
  back_forward : binds sha256 (validated_record (provenance_forward p)) (snapshots_forward snapshots) (reports_forward reports)
    ∧ validated_snapshots (provenance_forward p) = from_snapshots (snapshots_forward snapshots);
  back_rollback : binds sha256 (validated_record (provenance_rollback p)) (snapshots_rollback snapshots) (reports_rollback reports)
    ∧ validated_snapshots (provenance_rollback p) = from_snapshots (snapshots_rollback snapshots);
  back_evidence : executable_pairs m =
    {| evidence_forward := evidence_of (snapshots_forward snapshots) (reports_forward reports);
       evidence_rollback := evidence_of (snapshots_rollback snapshots) (reports_rollback reports) |};
}.

(** The executables of a valid manifest have valid generations. *)
Lemma evidence_generations m f r :
  manifest_ok m → executable_pairs m = {| evidence_forward := f; evidence_rollback := r |} →
  generation_ok (image_generation f) ∧ generation_ok (image_generation r).
Proof.
  intros Hok He. pose proof (exe_generation _ (man_forward _ Hok)) as Hf. pose proof (exe_generation _ (man_rollback _ Hok)) as Hr.
  by rewrite He in Hf, Hr.
Qed.

(** C12. A manifest is accepted as authority exactly when it is valid, both sealed
    pairs were captured from its installed prefix, the running daemon is the
    rollback build with that build's capabilities, its builds and its four
    versions are the negotiated ones (the greatest all three generations support),
    both package records bind their sealed pairs and reports, and its executable
    evidence is that of the sealed pairs. *)
Theorem authority_decides sha256 m running snapshots reports p :
  validate_authority_against sha256 m running snapshots reports p = Ok tt ↔ backed sha256 m running snapshots reports p.
Proof.
  unfold validate_authority_against, validate_provenance_against.
  rewrite (outcome_unit _ _ _ (validate_manifest_ok m)), !guard_ok, orb_false_iff, !negb_false_iff, decide_not. split.
  - intros (Hok & Hp & Hc & H). apply obind_ok in H as (n & Hn & H).
    assert (negotiate_handoff running (reports_forward reports) (reports_rollback reports) snapshots = Ok n) as [Hb Ha]%negotiate_ok
      by (destruct (negotiate_handoff _ _ _ _); naive_solver).
    apply (outcome_unit _ _ _ (contract_ok m n)) in H as [Hct H]. apply obind_ok in H as ([] & Hpv%map_err_ok & (_ & _ & He)%evidence_ok).
    apply (outcome_unit _ _ _ (package_binding_ok _ _ _ _)) in Hpv as [Hf Hr%package_binding_ok]. split; try done. by exists n.
  - intros [Hok [Hp Hp'] Hc Hb (n & Ha & Hct) Hf Hr He]. destruct (evidence_generations _ _ _ Hok He) as [Gf Gr].
    rewrite (proj2 (negotiate_ok _ _ _ _ n) (conj Hb Ha)). cbn [obind].
    rewrite (outcome_unit _ _ _ (contract_ok m n)). destruct Hb as [B1 B2 _ _]. split_and!; [done..|].
    rewrite (proj2 (package_binding_ok _ _ _ _) Hf). cbn [obind]. rewrite (proj2 (package_binding_ok _ _ _ _) Hr).
    cbn [obind map_err]. by apply evidence_ok.
Qed.

(** The manifest of [ManifestProps] is the authority for the sealed pairs, reports
    and records of [ProvenanceProps]. *)
Example sample_authority :
  validate_authority_against sample_hash sample
    {| running_build_identity := replicate 32 1;
       running_build_version := {| version_major := 0; version_minor := 2; version_patch := 1 |};
       running_capabilities := sample_capabilities |}
    {| snapshots_forward := sealed_pair 2; snapshots_rollback := sealed_pair 4 |}
    {| reports_forward := sample_preflight 2 2; reports_rollback := sample_preflight 1 4 |}
    {| provenance_forward :=
         {| validated_record := sample_record 2 2; validated_snapshots := from_snapshots (sealed_pair 2) |};
       provenance_rollback :=
         {| validated_record := sample_record 1 4; validated_snapshots := from_snapshots (sealed_pair 4) |} |}
  = Ok tt.
Proof. vm_compute. reflexivity. Qed.
